(* ===== verification/_CoqProject ===== *)
-Q . S2P
Prelude.v
Encoding.v
Canon.v
Files.v
Fault.v
Money.v
Terms.v
Payload.v
PayloadCodec.v
Firewall.v
Budget.v
Negotiation.v
NegotiationRun.v
Commerce.v
CommerceRun.v
Delivery.v
Json.v
Identity.v
E2ee.v
Ratchet.v
Journal.v
Inbound.v
Session.v
Room.v
Rooms.v
Envelope.v
Devices.v
Invites.v
Moderation.v
Admission.v
Prune.v
Approvals.v
Economic.v
LocalApi.v
LocalServer.v
LocalSafety.v
Mailbox.v
History.v
Dispatch.v
