(* ===== verification/Prelude.v ===== *)
(** * TOS Messenger: a verification development

    TOS Messenger lets software agents talk, negotiate and buy on behalf of an
    owner.  The Go program is a set of packages around one daemon.  This
    development models the packages that decide who is let in, what is promised,
    what is spent, what is sent and what survives a crash, and proves what they
    promise.  File names below are relative to [src/].

    ** The parts and how they interact

    - Objects that are signed or hashed are written by a canonical encoder
      ([internal/canon]) and named by identifiers ([internal/ids]).  Failures are
      typed ([pkg/fault]): the code decides whether and when to retry and what a
      peer may learn.
    - An endpoint acts for an agent under a delegation committed on chain
      ([pkg/identity]); its devices publish prekey bundles and keep pairwise
      ratchet sessions ([pkg/e2ee]).  What they say is a typed event
      ([pkg/envelope]) with a typed body ([pkg/payload]), in a direct conversation
      or in a room ([pkg/room]).
    - The event log ([pkg/eventlog]) is the durable side: record files under a
      directory lock, the inbound and outbound journals, sessions, ledgers of
      rooms, devices and moderation, invites, budgets, negotiations, approvals,
      mandates, executions, conversation history.
    - An inbound event passes the admission gate ([pkg/admission]) and is staged,
      then committed with its session.  An outbound event is composed and queued by
      the dispatcher ([pkg/dispatch]), sealed under its session and sent, possibly
      through a mailbox relay ([pkg/mailbox]).
    - An owner's mandate bounds what an agent may agree to; a negotiation
      ([pkg/negotiation]) is a state machine that holds its price in a budget when
      both sides agree and spends it when the quote is finalized.  The authority
      firewall ([pkg/firewall]) judges every proposed action.
    - The runtime and the owner's tools reach all of this over the local interface
      ([pkg/localapi]), which asks the owner to sign what only an owner may decide;
      economic messages pass the writer fence of [pkg/economicaction].

    ** Files

    Foundations:
    - [Prelude.v]: this overview; Go errors, the two monads and their notations,
      machine integers, time, strings as byte sequences, sorting, and the tactics
      and hint databases shared below.
    - [Encoding.v]: the parts of Go's standard library the code uses: SHA-256 (with
      its constants computed from the primes), hexadecimal, big-endian integers,
      decimals, strict base64, UTF-8 validity.
    - [Canon.v]: [internal/canon/canon.go], [reader.go] and [internal/ids/ids.go].
      [field] and [kind] describe an object as the list of writer and reader calls
      its encoder makes.
    - [Files.v]: the storage layer of [pkg/eventlog/journal.go] ([replace],
      exclusive creation, [readRecordBytes], [os.ReadDir]).  A directory is a
      finite map from names to entries.
    - [Fault.v]: [pkg/fault].  [Json.v]: the part of [encoding/json] the wire forms
      use.

    Promises and money:
    - [Money.v]: [pkg/negotiation/network.go], [money.go].  [Terms.v]: [terms.go],
      [mandate.go], [intent.go], [execution.go].
    - [Firewall.v]: [pkg/firewall/firewall.go], [channel.go], [spend.go].
    - [Budget.v]: [budget.go]; the class [Ledger] with its laws [LedgerLaws].
    - [Negotiation.v]: [negotiation.go], [commitment.go], [snapshot.go]; the class
      [Store] with its laws [StoreLaws].  [NegotiationRun.v]: a complete
      negotiation, evaluated; the witnesses of [Negotiation.v].
    - [Commerce.v]: [pkg/eventlog/budget.go] and [negotiation.go]: the instances of
      [Ledger] and [Store], and the repair [reconcileCommerce].  [CommerceRun.v]: a
      negotiation on those files, evaluated; the witnesses of [Commerce.v].
    - [Approvals.v]: [pkg/eventlog/approval.go], [mandate.go], [execution.go],
      [escrow_locator.go].  [Economic.v]: [pkg/economicaction/store.go].

    Identities, sessions and messages:
    - [Payload.v], [PayloadCodec.v]: [pkg/payload]; the class [Wire] is what a
      writer and a reader owe each other, with one instance per body.
    - [Identity.v]: [pkg/identity].  [E2ee.v]: [pkg/e2ee] but the suite;
      [Ratchet.v]: [pkg/e2ee/default_suite.go].  [Envelope.v]: [pkg/envelope].
    - [Room.v]: [pkg/room]; [Rooms.v]: [pkg/eventlog/rooms.go], [room_roles.go].

    The journal and what is built on it:
    - [Delivery.v]: [pkg/eventlog/delivery.go].  [Journal.v], [Inbound.v],
      [Session.v]: [journal.go], [quota.go], [session.go].  [Prune.v]: [prune.go].
    - [Devices.v]: [devices.go].  [Invites.v]: [admission_invite.go].
      [Moderation.v]: [moderation.go].  [Admission.v]: [pkg/admission].
    - [History.v]: [pkg/eventlog/history.go].  [Dispatch.v]: [pkg/dispatch] and
      [pkg/eventlog/composition.go].
    - [LocalApi.v], [LocalServer.v]: [pkg/localapi]; [LocalSafety.v]: theorems over
      whole runs of the server.
    - [Mailbox.v]: [pkg/mailbox].

    ** How the code is modelled

    A Go function that returns an error returns [result]; a method that changes its
    receiver takes and returns the state, also on its error paths ([action]).
    Structs are records whose fields carry a two-letter prefix; integers are [Z]
    with [u32] and [u64] written where Go wraps.  A [time.Time] is its Unix second.
    Methods that run under a mutex are whole operations, and concurrent callers are
    sequences of them: the step relations and runs ([budget_step], [neg_step],
    [run_deliveries], [run_session], [owner_run], [server_run], [run_desks],
    [run_histories] and the like) quantify over those sequences.  Where the code
    releases a lock in the middle ([commitInbound], a sweep of the dispatcher)
    others may come in at that place.  What the operating system decides, the
    outcome of each write, is an argument or a script: a write succeeds, fails with
    the old content, or fails with the new content in place; an exclusive creation
    may also leave a partial file.  A crash in the middle of an operation is that
    operation with its interrupted write failing, followed by a restart.  Random
    bytes and clock readings are arguments.

    Code outside the repository is a parameter, with its documented behaviour as
    laws where a theorem needs them, and a concrete instance in the witnesses:
    Ed25519 ([Ed25519]), X25519 and AES-GCM ([Primitives], [PrimitiveLaws]), the
    finalized quote ([QuoteResolver]) and agent state, chain addresses
    ([ChainAddresses], [ChainAddressLaws]), the objects of the commerce and service
    protocols ([Protocol], [CommerceProtocol], [CommerceLaws]), and whether a text
    is one JSON object ([JSONObjects]).  Two packages of the repository that are
    not modelled are parameters of the same kind: the attachment formats
    ([AttachmentFormats]) and, for the local server, the dispatcher, the attachment
    emitter and the contact resolver it calls.  The dispatcher itself is modelled over any
    suite ([Suite]), sender and binding resolver ([BindingResolver]).

    ** What the theorems show

    - Encoding: reading inverts writing, what is read was written in exactly one
      way, and digests and identifiers bind their content, short of a SHA-256
      collision, which the conclusions name as such ([sha256_collision]).  The same
      for the JSON forms and for all payload kinds.
    - Money and mandates: amounts are exact integers; permission is characterised
      by an equivalence; the compiler changes nothing.
    - Budget and negotiation: spent plus held never exceeds the total; for any
      ledger and store that keep their laws, a reported commitment is backed by the
      finalized quote, the mandate and the owner's approval; an agreement on disk
      always has its hold.  The files keep the laws, so all of this holds on them;
      the repair at opening settles every hold, once, for any map iteration order.
    - Authority: the exact condition for acting unattended; an approval is spent
      once; over whole runs of the local server an action is authorised only by the
      owner or by the policy, an automatic spend is backed by a hold, a decision
      needs a fresh owner signature over exactly that decision; once a newer
      economic writer is recorded the older one is refused, and an action settles
      once.
    - Journal: queued deliveries are never lost or changed, settled ones are final,
      leases exclude other sweeps and retries end; decisions on inbound events are
      final, quotas hold, a staged event is deliverable only after its session
      advanced, and recovery at opening completes.
    - Sessions: any delivery order of one sending chain opens every message once; a
      revoked device never returns; device-set digests are exact.
    - Admission: what the gate lets in is valid, permitted, and from a delegated
      sender on an unrevoked device.
    - Dispatch: every retry sends the message that was sealed first, no session
      generation is sealed from twice, only this installation's events are queued,
      and an idempotency key composes one event.
    - History: an applied page is exactly what the listing gains, and what was
      committed survives whatever happens to later pages.
    - Mailbox: an acknowledged message stays until it is deleted or expires, an
      access request is used once and was signed for exactly that operation, and
      the quota holds.

    Where code and comment disagree, or the code does not do what it means to, a
    theorem states what the code does:
    [poisoned_reopen_succeeds], [delivered_without_attempt],
    [failed_unclassified_unreadable], [dropped_finalized_hold_returns],
    [money_arithmetic_exact], [undelivered_claim_granted],
    [denial_between_halves_lost], [abandoned_retry_lost], [short_room_id_panics],
    [oversized_stage_unreadable], [invalid_rendering_unreadable],
    [backdated_claim_blocks_invites], [held_resend_refused],
    [digit_class_has_no_escrow], [replaced_writer_still_admits],
    [denied_twin_frees_hold], [repeated_spend_held_again],
    [refused_mandate_stays_on_file], [queue_with_lease_accepted],
    [deposit_into_foreign_mailbox], [nonce_case_replays],
    [partial_claim_blocks_relay], [large_ciphertext_never_stored],
    [composed_never_sealed], [named_recipient_refused],
    [refused_page_hides_history], [interrupted_page_blocks_chain].

    ** Bounds and fuel

    Recursion is structural on lists, names or fields almost everywhere.  The loops
    that carry fuel: [decimal_digits] has one unit per bit of the number, which
    bounds its decimal digits ([decimal_fuel_enough]); the padding in
    [Money_String] has the precision plus one; the back-off doubles once per
    attempt, which its closed form ([backoff_eq]) shows to be enough; the JSON
    parser has one more than the length of its input, each call consuming a byte; [skip_keys]
    runs the gap to the message number, which the caller bounds; [read_pages] runs
    once per page the checkpoint counts.

    ** What is not modelled

    JSON encodings of record files: a record file holds the value its JSON decodes
    to (the wire forms are modelled).  The byte bound of a record file is part of
    the write outcome, except where it is reached by valid data ([Mailbox.v]).
    File modes, sockets, timers and configuration files.  Of the event log: prekey
    and MLS records, direct conversations and agent packets.  Of the daemon: its
    wiring, the HTTP services and clients, transports and reachability probes,
    attachment storage and scanning, the directory, contacts, public channels, the
    intent carrier, evidence bundles, the MLS laboratories and the command-line
    programs, which are mostly I/O around the parts above or wrappers of external
    libraries. *)

From stdpp Require Export base gmap strings list sorting.
From Stdlib Require Export ZArith Lia.
From Stdlib Require Export Strings.Byte Strings.String Strings.Ascii.

Abbreviation length := Datatypes.length (only parsing).

Open Scope Z_scope.

#[global] Arguments Ascii.eqb : simpl never.
#[global] Arguments N_of_ascii : simpl never.
#[global] Arguments String.eqb : simpl nomatch.

(** ** Errors and fallible computations

    A Go [error] is either a value created on the spot by [errors.New], which
    no caller can compare against, or one of the package-level sentinels that
    callers recognise with [errors.Is]. *)

Inductive error : Type :=
  | NewError (msg : string)
  | Sentinel (msg : string).

#[global] Instance error_eq_dec : EqDecision error.
Proof. solve_decision. Defined.

Inductive result (A : Type) : Type :=
  | Ok (a : A)
  | Err (e : error).
Arguments Ok {A} a.
Arguments Err {A} e.

(** [injection] would compute the payloads; this does not. *)
Lemma Ok_inj {A} (a b : A) : Ok a = Ok b -> a = b.
Proof. by intros [= ->]. Qed.

Definition is_ok {A} (r : result A) : bool :=
  match r with Ok _ => true | Err _ => false end.

Declare Scope go_scope.
Delimit Scope go_scope with go.

(** [refuse b with e ; k] is Go's [if b { return e }] followed by [k];
    [let* x := c in k] and [call c ; k] are the [if err != nil { return err }]
    idiom with and without a value. *)
Notation "'refuse' b 'with' e ; k" := (if b then Err e else k)
  (at level 10, b at level 100, e at level 100, k at level 200,
   format "'[v' 'refuse'  b  'with'  e ; '/' k ']'") : go_scope.
Notation "'let*' x ':=' c 'in' k" := (match c with Ok x => k | Err e => Err e end)
  (at level 10, x pattern, c at level 200, k at level 200,
   format "'[v' 'let*'  x  ':='  c  'in' '/' k ']'") : go_scope.
Notation "'call' c ; k" := (match c with Ok _ => k | Err e => Err e end)
  (at level 10, c at level 100, k at level 200,
   format "'[v' 'call'  c ; '/' k ']'") : go_scope.
Open Scope go_scope.

(** ** Stateful fallible operations

    A Go method may mutate its receiver and still return an error, so a
    stateful operation returns the state it left behind next to its result. *)

Definition action (S A : Type) : Type := S -> result A * S.

Definition act_ret {S A} (a : A) : action S A := fun s => (Ok a, s).
Definition act_err {S A} (e : error) : action S A := fun s => (Err e, s).
Definition act_bind {S A B} (m : action S A) (k : A -> action S B) : action S B :=
  fun s => match m s with
           | (Ok a, s') => k a s'
           | (Err e, s') => (Err e, s')
           end.
Definition act_get {S} : action S S := fun s => (Ok s, s).
Definition act_set {S} (s : S) : action S unit := fun _ => (Ok tt, s).
Definition act_modify {S} (f : S -> S) : action S unit := fun s => (Ok tt, f s).
(** Run a pure fallible computation without touching the state. *)
Definition act_lift {S A} (r : result A) : action S A := fun s => (r, s).

Notation "x <~ m ;;; k" := (act_bind m (fun x => k))
  (at level 200, m at level 100, k at level 200, right associativity) : go_scope.
Notation "m ;;; k" := (act_bind m (fun _ => k))
  (at level 200, k at level 200, right associativity) : go_scope.
Notation "'refuse_st' b 'with' e ; k" := (if b then act_err e else k)
  (at level 10, b at level 100, e at level 100, k at level 200) : go_scope.

(** ** Machine integers *)

Definition u32_max : Z := 2 ^ 32 - 1.
Definition u64_max : Z := 2 ^ 64 - 1.
Definition u32 (z : Z) : Z := z mod 2 ^ 32.
Definition u64 (z : Z) : Z := z mod 2 ^ 64.
Definition is_u32 (z : Z) : Prop := 0 <= z < 2 ^ 32.
Definition is_u64 (z : Z) : Prop := 0 <= z < 2 ^ 64.

Lemma u32_id z : is_u32 z -> u32 z = z.
Proof. intros H. apply Z.mod_small, H. Qed.
Lemma u64_id z : is_u64 z -> u64 z = z.
Proof. intros H. apply Z.mod_small, H. Qed.
Lemma u32_range z : is_u32 (u32 z).
Proof. apply Z.mod_pos_bound. lia. Qed.
Lemma u64_range z : is_u64 (u64 z).
Proof. apply Z.mod_pos_bound. lia. Qed.

(** ** Time

    A [time.Time] enters the modelled code only through [IsZero] and [Unix].
    The zero time lies at Unix second -62135596800. *)

Definition time : Type := Z.
Definition zero_time_unix : Z := -62135596800.
Definition time_invalid (now : time) : bool :=
  (now =? zero_time_unix) || (now <? 0).

Lemma time_valid_nonneg now : time_invalid now = false -> 0 <= now.
Proof. unfold time_invalid. lia. Qed.

(** ** Strings as Go sees them: byte sequences with a length *)

Definition slen (s : string) : Z := Z.of_nat (String.length s).

Fixpoint sforall (p : ascii -> bool) (s : string) : bool :=
  match s with
  | EmptyString => true
  | String c s' => p c && sforall p s'
  end.

(** [strip_prefix p s] is [s] without its prefix [p], when it has one. *)
Fixpoint strip_prefix (p s : string) : option string :=
  match p, s with
  | EmptyString, _ => Some s
  | String a p', String b s' => if Ascii.eqb a b then strip_prefix p' s' else None
  | String _ _, EmptyString => None
  end.

Definition code (c : ascii) : Z := Z.of_N (N_of_ascii c).
Definition in_range (lo hi : ascii) (c : ascii) : bool :=
  (code lo <=? code c) && (code c <=? code hi).
Definition is_digit : ascii -> bool := in_range "0" "9".
Definition is_lower : ascii -> bool := in_range "a" "z".
Definition is_hex (c : ascii) : bool := is_digit c || in_range "a" "f" c.

(** The regular expression [[0-9a-f]{64}] anchored at both ends. *)
Definition hex64 (s : string) : bool :=
  (slen s =? 64) && sforall is_hex s.

(** The regular expression [p[0-9a-f]{64}] anchored at both ends. *)
Definition prefixed_hex64 (p s : string) : bool :=
  match strip_prefix p s with
  | Some rest => hex64 rest
  | None => false
  end.

Lemma slen_app s t : slen (s +:+ t) = slen s + slen t.
Proof. unfold slen. induction s as [|c s IH]; simpl; [done|]. rewrite !Nat2Z.inj_succ. lia. Qed.

Lemma strip_prefix_Some p s r : strip_prefix p s = Some r -> s = p +:+ r.
Proof.
  revert s. induction p as [|a p IH]; intros s H; cbn in H.
  - by simplify_eq.
  - destruct s as [|b s]; [done|]. destruct (Ascii.eqb_spec a b) as [->|]; [|done].
    apply IH in H as ->. done.
Qed.

Lemma strip_prefix_app p r : strip_prefix p (p +:+ r) = Some r.
Proof. induction p as [|a p IH]; [done|]. simpl. destruct (Ascii.eqb_spec a a); done. Qed.

Lemma hex64_slen s : hex64 s = true -> slen s = 64.
Proof. unfold hex64. intros [H _]%andb_prop. lia. Qed.

Lemma prefixed_hex64_slen p s : prefixed_hex64 p s = true -> slen s = slen p + 64.
Proof.
  unfold prefixed_hex64. destruct (strip_prefix p s) as [r|] eqn:E; [|done].
  intros H%hex64_slen. apply strip_prefix_Some in E as ->. rewrite slen_app. lia.
Qed.

Lemma slen_nonneg s : 0 <= slen s.
Proof. unfold slen. lia. Qed.

Lemma slen_list s : slen s = Z.of_nat (length (list_ascii_of_string s)).
Proof. unfold slen. induction s as [|c s IH]; cbn [String.length list_ascii_of_string length]; lia. Qed.

(** ** Order on strings

    [sort.Strings] orders by bytes, which is [String.leb]. *)

Definition str_le (s t : string) : Prop := String.leb s t = true.
#[global] Instance str_le_dec s t : Decision (str_le s t).
Proof. unfold str_le. apply _. Defined.

Definition sort_strings (l : list string) : list string := merge_sort str_le l.

#[global] Instance str_le_total : Total str_le.
Proof. intros s t. apply String.leb_total. Qed.
#[global] Instance str_le_antisymm : AntiSymm (=) str_le.
Proof. intros s t. apply String.leb_antisym. Qed.

Lemma ascii_compare_N a b : Ascii.compare a b = N.compare (N_of_ascii a) (N_of_ascii b).
Proof. done. Qed.

#[global] Instance str_le_trans : Transitive str_le.
Proof.
  unfold str_le, String.leb. intros s. induction s as [|a s IH]; intros [|b t] [|c u]; cbn; try done.
  specialize (IH t u). rewrite !ascii_compare_N.
  destruct (N.compare_spec (N_of_ascii a) (N_of_ascii b));
  destruct (N.compare_spec (N_of_ascii b) (N_of_ascii c));
  destruct (N.compare_spec (N_of_ascii a) (N_of_ascii c)); try done; try lia.
Qed.

Lemma sort_strings_perm l : sort_strings l ≡ₚ l.
Proof. apply merge_sort_Permutation. Qed.
Lemma sort_strings_sorted l : Sorted str_le (sort_strings l).
Proof. apply Sorted_merge_sort, _. Qed.

Lemma existsb_false {A} (f : A -> bool) l : existsb f l = false <-> Forall (fun x => f x = false) l.
Proof.
  induction l as [|x l IH]; cbn [existsb]; [done|]. rewrite Forall_cons, <- IH. destruct (f x); cbn; naive_solver.
Qed.

(** ** Automation

    [inv_ok H] peels the checks off a hypothesis [H] saying that a computation
    written with the notations above succeeded, and leaves one hypothesis per
    check that was passed. *)

Ltac inv_ok_step H :=
  lazymatch type of H with
  | (if ?b then Err _ else _) = Ok _ => destruct b eqn:?; [discriminate H|]
  | (if ?b then _ else Err _) = Ok _ => destruct b eqn:?; [|discriminate H]
  | (match ?c with Ok _ => _ | Err _ => Err _ end) = Ok _ =>
      destruct c as [?|?] eqn:?; [|discriminate H]
  | (match ?c with Some _ => _ | None => Err _ end) = Ok _ =>
      destruct c as [?|] eqn:?; [|discriminate H]
  | (match ?c with Some _ => Err _ | None => _ end) = Ok _ =>
      destruct c as [?|] eqn:?; [discriminate H|]
  | (let '(_, _) := ?p in _) = Ok _ => destruct p eqn:?
  end.
Ltac inv_ok H := repeat inv_ok_step H.

(** [breflect] turns boolean facts about strings, options and connectives into
    propositions; arithmetic comparisons are left to [lia]. *)
Ltac breflect :=
  repeat match goal with
  | H : (_ || _) = false |- _ => apply orb_false_elim in H as [? ?]
  | H : (_ && _) = true |- _ => apply andb_prop in H as [? ?]
  | H : negb _ = true |- _ => apply negb_true_iff in H
  | H : negb _ = false |- _ => apply negb_false_iff in H
  | H : String.eqb _ _ = true |- _ => apply String.eqb_eq in H
  | H : String.eqb _ _ = false |- _ => apply String.eqb_neq in H
  | H : bool_decide _ = true |- _ => apply bool_decide_eq_true in H
  | H : bool_decide _ = false |- _ => apply bool_decide_eq_false in H
  end.

(** Lengths of string literals, as numbers [lia] can use. *)
Ltac slen_lit :=
  repeat match goal with
  | H : context [slen (String ?c ?s)] |- _ =>
      let n := eval vm_compute in (slen (String c s)) in change (slen (String c s)) with n in H
  | |- context [slen (String ?c ?s)] =>
      let n := eval vm_compute in (slen (String c s)) in change (slen (String c s)) with n
  end.

(** Linear arithmetic with division and remainder. *)
Ltac dlia := Z.to_euclidean_division_equations; lia.

(** Facts used throughout about lengths, widths and prefixes. *)
Create HintDb tosdb.
#[export] Hint Resolve u32_range u64_range slen_nonneg : tosdb.
Create Rewrite HintDb tosdb.
#[export] Hint Rewrite slen_app strip_prefix_app : tosdb.
