(* ===== verification/Encoding.v ===== *)
(** * Standard-library encodings the Messenger's canonical forms are built on

    Byte strings, big-endian integers ([encoding/binary]), lowercase hex
    ([encoding/hex]), decimal integers ([math/big]), strict base64
    ([encoding/base64]), UTF-8 validity ([unicode/utf8]) and SHA-256
    ([crypto/sha256]), each executable, with the round trips the components
    rely on. *)

From S2P Require Import Prelude.

Abbreviation bytes := (list byte).

#[global] Instance byte_eq_dec : EqDecision byte := Byte.byte_eq_dec.

Definition byteZ (b : byte) : Z := Z.of_N (Byte.to_N b).
Definition byte_of_Z (z : Z) : byte :=
  match Byte.of_N (Z.to_N (z mod 256)) with Some b => b | None => x00 end.

Definition bytes_of_string (s : string) : bytes := list_byte_of_string s.
Definition string_of_bytes (b : bytes) : string := string_of_list_byte b.
Definition blen (b : bytes) : Z := Z.of_nat (length b).

(** ** Big-endian integers *)

Fixpoint be_bytes (n : nat) (z : Z) : bytes :=
  match n with
  | O => []
  | S n' => byte_of_Z (z / 256 ^ Z.of_nat n') :: be_bytes n' z
  end.

Definition be_value (b : bytes) : Z :=
  fold_left (fun acc x => acc * 256 + byteZ x) b 0.

(** ** Hex *)

Definition hexchar (v : Z) : ascii :=
  if v <? 10 then ascii_of_N (Z.to_N (48 + v)) else ascii_of_N (Z.to_N (87 + v)).

Definition hexval (c : ascii) : option Z :=
  if is_digit c then Some (code c - 48)
  else if in_range "a" "f" c then Some (code c - 87)
  else if in_range "A" "F" c then Some (code c - 55)
  else None.

Fixpoint hex_encode (b : bytes) : string :=
  match b with
  | [] => EmptyString
  | x :: b' => String (hexchar (byteZ x / 16)) (String (hexchar (byteZ x mod 16)) (hex_encode b'))
  end.

Fixpoint hex_decode (s : string) : option bytes :=
  match s with
  | EmptyString => Some []
  | String h (String l s') =>
      match hexval h, hexval l, hex_decode s' with
      | Some x, Some y, Some rest => Some (byte_of_Z (x * 16 + y) :: rest)
      | _, _, _ => None
      end
  | String _ EmptyString => None
  end.

(** ** Decimal integers: [big.Int.String] and [big.Int.SetString(_, 10)] on
    digit strings *)

Definition digit_char (d : Z) : ascii := ascii_of_N (Z.to_N (48 + d)).
Definition digit_val (c : ascii) : Z := code c - 48.

Definition decimal_value (l : list ascii) : Z :=
  fold_left (fun acc c => acc * 10 + digit_val c) l 0.

Fixpoint decimal_digits (fuel : nat) (n : Z) (acc : list ascii) : list ascii :=
  let acc' := digit_char (n mod 10) :: acc in
  if n <? 10 then acc' else
  match fuel with
  | O => acc'
  | S f => decimal_digits f (n / 10) acc'
  end.

(** [log2 n] digits are more than enough for [n]. *)
Definition decimal_fuel (n : Z) : nat := S (Z.to_nat (Z.log2 n)).

Definition decimal_string (n : Z) : string :=
  string_of_list_ascii (decimal_digits (decimal_fuel n) n []).

Definition parse_decimal (s : string) : option Z :=
  let l := list_ascii_of_string s in
  match l with
  | [] => None
  | _ => if forallb is_digit l then Some (decimal_value l) else None
  end.

(** ** Strict base64 with padding; the decoder skips CR and LF *)

Definition b64char (v : Z) : ascii :=
  if v <? 26 then ascii_of_N (Z.to_N (65 + v))
  else if v <? 52 then ascii_of_N (Z.to_N (71 + v))
  else if v <? 62 then ascii_of_N (Z.to_N (v - 4))
  else if v =? 62 then "+" else "/".

Definition b64val (c : ascii) : option Z :=
  if in_range "A" "Z" c then Some (code c - 65)
  else if is_lower c then Some (code c - 71)
  else if is_digit c then Some (code c + 4)
  else if Ascii.eqb c "+" then Some 62
  else if Ascii.eqb c "/" then Some 63
  else None.

Fixpoint b64_encode_list (b : bytes) : list ascii :=
  match b with
  | [] => []
  | [x] =>
      [b64char (byteZ x / 4); b64char (byteZ x mod 4 * 16); "="%char; "="%char]
  | [x; y] =>
      [b64char (byteZ x / 4); b64char (byteZ x mod 4 * 16 + byteZ y / 16);
       b64char (byteZ y mod 16 * 4); "="%char]
  | x :: y :: z :: b' =>
      b64char (byteZ x / 4) :: b64char (byteZ x mod 4 * 16 + byteZ y / 16)
      :: b64char (byteZ y mod 16 * 4 + byteZ z / 64) :: b64char (byteZ z mod 64)
      :: b64_encode_list b'
  end.

Fixpoint b64_decode_list (l : list ascii) : option bytes :=
  match l with
  | [] => Some []
  | a :: b :: c :: d :: l' =>
      match b64val a, b64val b with
      | Some va, Some vb =>
          if Ascii.eqb d "=" then
            match l' with
            | [] =>
                if Ascii.eqb c "=" then
                  if vb mod 16 =? 0 then Some [byte_of_Z (va * 4 + vb / 16)] else None
                else
                  match b64val c with
                  | Some vc =>
                      if vc mod 4 =? 0
                      then Some [byte_of_Z (va * 4 + vb / 16); byte_of_Z (vb mod 16 * 16 + vc / 4)]
                      else None
                  | None => None
                  end
            | _ => None
            end
          else
            match b64val c, b64val d, b64_decode_list l' with
            | Some vc, Some vd, Some rest =>
                Some (byte_of_Z (va * 4 + vb / 16) :: byte_of_Z (vb mod 16 * 16 + vc / 4)
                      :: byte_of_Z (vc mod 4 * 64 + vd) :: rest)
            | _, _, _ => None
            end
      | _, _ => None
      end
  | _ => None
  end.

Definition is_newline (c : ascii) : bool := (code c =? 10) || (code c =? 13).
Definition b64_encode (b : bytes) : string := string_of_list_ascii (b64_encode_list b).
Definition b64_decode (s : string) : option bytes :=
  b64_decode_list (List.filter (fun c => negb (is_newline c)) (list_ascii_of_string s)).

(** ** UTF-8 validity *)

Definition byte_in (lo hi : Z) (b : byte) : bool := (lo <=? byteZ b) && (byteZ b <=? hi).

Fixpoint utf8_valid (l : bytes) : bool :=
  match l with
  | [] => true
  | a :: l1 =>
      if byte_in 0 127 a then utf8_valid l1 else
      match l1 with
      | [] => false
      | b :: l2 =>
          if byte_in 194 223 a then byte_in 128 191 b && utf8_valid l2 else
          match l2 with
          | [] => false
          | c :: l3 =>
              let second :=
                if byte_in 224 224 a then byte_in 160 191 b
                else if byte_in 237 237 a then byte_in 128 159 b
                else byte_in 128 191 b in
              if byte_in 224 239 a then second && byte_in 128 191 c && utf8_valid l3 else
              match l3 with
              | [] => false
              | d :: l4 =>
                  let second' :=
                    if byte_in 240 240 a then byte_in 144 191 b
                    else if byte_in 244 244 a then byte_in 128 143 b
                    else byte_in 128 191 b in
                  byte_in 240 244 a && second' && byte_in 128 191 c && byte_in 128 191 d
                  && utf8_valid l4
              end
          end
      end
  end.

(** ** SHA-256 (FIPS 180-4) *)

Definition sha_mask : Z := 2 ^ 32 - 1.
Definition add32 (x y : Z) : Z := Z.land (x + y) sha_mask.
Definition rotr (n x : Z) : Z :=
  Z.lor (Z.shiftr x n) (Z.land (Z.shiftl x (32 - n)) sha_mask).
Definition sha_ch (x y z : Z) : Z := Z.lxor (Z.land x y) (Z.land (Z.lxor x sha_mask) z).
Definition sha_maj (x y z : Z) : Z :=
  Z.lxor (Z.land x y) (Z.lxor (Z.land x z) (Z.land y z)).
Definition sha_S0 (x : Z) : Z := Z.lxor (rotr 2 x) (Z.lxor (rotr 13 x) (rotr 22 x)).
Definition sha_S1 (x : Z) : Z := Z.lxor (rotr 6 x) (Z.lxor (rotr 11 x) (rotr 25 x)).
Definition sha_s0 (x : Z) : Z := Z.lxor (rotr 7 x) (Z.lxor (rotr 18 x) (Z.shiftr x 3)).
Definition sha_s1 (x : Z) : Z := Z.lxor (rotr 17 x) (Z.lxor (rotr 19 x) (Z.shiftr x 10)).

(** The round constants are the first 32 bits of the fractional parts of the
    cube roots of the first 64 primes, and the initial state those of the square
    roots of the first eight; they are computed from that definition. *)
Definition is_prime (n : nat) : bool :=
  forallb (fun d => negb (Nat.eqb (n mod d) 0)) (seq 2 (n - 2)).
Definition sha_primes : list Z :=
  List.map Z.of_nat (List.filter is_prime (seq 2 310)).

(** The largest [r] below [lo + 2 ^ bits] whose cube is at most [n]. *)
Fixpoint cube_root (bits : nat) (lo n : Z) : Z :=
  match bits with
  | O => lo
  | S k =>
      let mid := lo + 2 ^ Z.of_nat k in
      if mid * mid * mid <=? n then cube_root k mid n else cube_root k lo n
  end.

Definition sha_K : list Z :=
  Eval vm_compute in
    List.map (fun p => cube_root 36 0 (p * 2 ^ 96) mod 2 ^ 32) sha_primes.

Record sha_state : Type := ShaState
  { sha_a : Z; sha_b : Z; sha_c : Z; sha_d : Z; sha_e : Z; sha_f : Z; sha_g : Z; sha_h : Z }.

Definition sha_H (i : nat) : Z := Z.sqrt (List.nth i sha_primes 0 * 2 ^ 64) mod 2 ^ 32.
Definition sha_init : sha_state :=
  Eval vm_compute in
    ShaState (sha_H 0) (sha_H 1) (sha_H 2) (sha_H 3) (sha_H 4) (sha_H 5) (sha_H 6) (sha_H 7).

Definition sha_round (s : sha_state) (kw : Z * Z) : sha_state :=
  let '(k, w) := kw in
  let t1 := add32 (sha_h s) (add32 (sha_S1 (sha_e s))
              (add32 (sha_ch (sha_e s) (sha_f s) (sha_g s)) (add32 k w))) in
  let t2 := add32 (sha_S0 (sha_a s)) (sha_maj (sha_a s) (sha_b s) (sha_c s)) in
  ShaState (add32 t1 t2) (sha_a s) (sha_b s) (sha_c s)
           (add32 (sha_d s) t1) (sha_e s) (sha_f s) (sha_g s).

Definition nthZ (l : list Z) (n : nat) : Z := List.nth n l 0.

(** The schedule is grown newest-first: the head of [rw] is W[t-1]. *)
Fixpoint sha_schedule (n : nat) (rw : list Z) : list Z :=
  match n with
  | O => rev rw
  | S n' =>
      let w := add32 (add32 (sha_s1 (nthZ rw 1)) (nthZ rw 6))
                     (add32 (sha_s0 (nthZ rw 14)) (nthZ rw 15)) in
      sha_schedule n' (w :: rw)
  end.

Fixpoint words_of (n : nat) (b : bytes) : list Z :=
  match n with
  | O => []
  | S n' => be_value (take 4 b) :: words_of n' (drop 4 b)
  end.

Definition sha_block (s : sha_state) (b : bytes) : sha_state :=
  let w := sha_schedule 48 (rev (words_of 16 b)) in
  let r := fold_left sha_round (zip sha_K w) s in
  ShaState (add32 (sha_a s) (sha_a r)) (add32 (sha_b s) (sha_b r))
           (add32 (sha_c s) (sha_c r)) (add32 (sha_d s) (sha_d r))
           (add32 (sha_e s) (sha_e r)) (add32 (sha_f s) (sha_f r))
           (add32 (sha_g s) (sha_g r)) (add32 (sha_h s) (sha_h r)).

Fixpoint sha_blocks (n : nat) (s : sha_state) (b : bytes) : sha_state :=
  match n with
  | O => s
  | S n' => sha_blocks n' (sha_block s (take 64 b)) (drop 64 b)
  end.

Definition sha_pad (m : bytes) : bytes :=
  m ++ [x80] ++ repeat x00 (Z.to_nat ((55 - blen m) mod 64)) ++ be_bytes 8 (blen m * 8).

Definition sha256 (m : bytes) : bytes :=
  let p := sha_pad m in
  let s := sha_blocks (length p / 64)%nat sha_init p in
  be_bytes 4 (sha_a s) ++ be_bytes 4 (sha_b s) ++ be_bytes 4 (sha_c s) ++ be_bytes 4 (sha_d s)
  ++ be_bytes 4 (sha_e s) ++ be_bytes 4 (sha_f s) ++ be_bytes 4 (sha_g s) ++ be_bytes 4 (sha_h s).

Example sha256_abc :
  hex_encode (sha256 (bytes_of_string "abc"))
  = "ba7816bf8f01cfea414140de5dae2223b00361a396177a9cb410ff61f20015ad"%string.
Proof. vm_compute. reflexivity. Qed.

#[global] Opaque sha256.

(** ** Bytes and big-endian lemmas *)

Lemma byteZ_range b : 0 <= byteZ b < 256.
Proof. unfold byteZ. pose proof (Byte.to_N_bounded b). lia. Qed.

Lemma byteZ_of_Z z : byteZ (byte_of_Z z) = z mod 256.
Proof.
  unfold byteZ, byte_of_Z. pose proof (Z.mod_pos_bound z 256 ltac:(lia)) as Hz.
  destruct (Byte.of_N _) as [b|] eqn:E.
  - apply Byte.to_of_N in E. lia.
  - apply Byte.of_N_None_iff in E. lia.
Qed.

Lemma byteZ_inj a b : byteZ a = byteZ b -> a = b.
Proof.
  unfold byteZ. intros H%N2Z.inj.
  enough (Some a = Some b) by congruence. by rewrite <- !Byte.of_to_N, H.
Qed.

Lemma byte_of_byteZ b : byte_of_Z (byteZ b) = b.
Proof.
  apply byteZ_inj. rewrite byteZ_of_Z. apply Z.mod_small, byteZ_range.
Qed.

Lemma bytes_of_string_inj s t : bytes_of_string s = bytes_of_string t -> s = t.
Proof.
  intros H%(f_equal string_of_list_byte). by rewrite !string_of_list_byte_of_string in H.
Qed.

Lemma string_of_bytes_of_string s : string_of_bytes (bytes_of_string s) = s.
Proof. apply string_of_list_byte_of_string. Qed.

Lemma blen_bytes_of_string s : blen (bytes_of_string s) = slen s.
Proof.
  unfold blen, slen, bytes_of_string, list_byte_of_string. f_equal.
  rewrite length_map. induction s as [|c s IH]; simpl; auto.
Qed.

Lemma blen_app a b : blen (a ++ b) = blen a + blen b.
Proof. unfold blen. rewrite length_app. lia. Qed.

Lemma length_be_bytes n z : length (be_bytes n z) = n.
Proof. induction n; simpl; auto. Qed.

Lemma be_value_cons_acc b acc :
  fold_left (fun a x => a * 256 + byteZ x) b acc
  = acc * 256 ^ Z.of_nat (length b) + be_value b.
Proof.
  unfold be_value. revert acc. induction b as [|x b IH]; intros acc; cbn [fold_left length].
  - lia.
  - rewrite (IH (acc * 256 + byteZ x)), (IH (0 * 256 + byteZ x)).
    rewrite Nat2Z.inj_succ, Z.pow_succ_r by lia. lia.
Qed.

Lemma be_value_cons x b :
  be_value (x :: b) = byteZ x * 256 ^ Z.of_nat (length b) + be_value b.
Proof. unfold be_value at 1. cbn [fold_left]. rewrite be_value_cons_acc. lia. Qed.

Lemma be_value_range b : 0 <= be_value b < 256 ^ Z.of_nat (length b).
Proof.
  induction b as [|x b IH]; [by vm_compute|].
  rewrite be_value_cons. cbn [length]. rewrite Nat2Z.inj_succ, Z.pow_succ_r by lia.
  pose proof (byteZ_range x). nia.
Qed.

(** Decoding what was encoded recovers the value modulo the width. *)
Lemma be_value_bytes n z : be_value (be_bytes n z) = z mod 256 ^ Z.of_nat n.
Proof.
  induction n as [|n IH]; cbn [be_bytes].
  - by rewrite Z.mod_1_r.
  - rewrite be_value_cons, length_be_bytes, IH, byteZ_of_Z.
    rewrite Nat2Z.inj_succ, Z.pow_succ_r by lia.
    assert (0 < 256 ^ Z.of_nat n) by (apply Z.pow_pos_nonneg; lia).
    rewrite (Z.mul_comm 256), Z.rem_mul_r by lia. lia.
Qed.

Lemma be_bytes_mod n z : be_bytes n (z mod 256 ^ Z.of_nat n) = be_bytes n z.
Proof.
  assert (forall m w, (m <= n)%nat -> w = z mod 256 ^ Z.of_nat n -> be_bytes m w = be_bytes m z) as H.
  { intros m w. induction m as [|m IH]; intros Hm ->; cbn [be_bytes]; [done|].
    rewrite IH by (lia || done). f_equal. apply byteZ_inj. rewrite !byteZ_of_Z.
    assert (0 < 256 ^ Z.of_nat m) by (apply Z.pow_pos_nonneg; lia).
    replace n with (m + S (n - S m))%nat at 1 by lia.
    rewrite Nat2Z.inj_add, Z.pow_add_r, Z.rem_mul_r by (try apply Z.pow_nonzero; try apply Z.pow_pos_nonneg; lia).
    rewrite (Z.mul_comm (256 ^ _)), Z.div_add, (Z.div_small (z mod _)), Z.add_0_l
      by (try apply Z.mod_pos_bound; lia).
    rewrite Nat2Z.inj_succ, Z.pow_succ_r by lia.
    rewrite (Z.rem_mul_r _ 256) by (try apply Z.pow_pos_nonneg; lia).
    rewrite (Z.mul_comm 256), Z.mod_add by lia. apply Z.mod_mod. lia. }
  by apply H.
Qed.

Lemma be_bytes_value n b : length b = n -> be_bytes n (be_value b) = b.
Proof.
  revert n. induction b as [|x b IH]; intros n <-; [done|]. cbn [be_bytes length].
  rewrite be_value_cons. pose proof (be_value_range b) as Hb.
  assert (0 < 256 ^ Z.of_nat (length b)) by (apply Z.pow_pos_nonneg; lia).
  f_equal.
  - apply byteZ_inj. rewrite byteZ_of_Z, Z.div_add_l, Z.div_small, Z.add_0_r by lia.
    apply Z.mod_small, byteZ_range.
  - rewrite <- be_bytes_mod, Z.add_comm, Z.mod_add, Z.mod_small by lia. by apply IH.
Qed.

Lemma be_bytes_inj n x y :
  0 <= x < 256 ^ Z.of_nat n -> 0 <= y < 256 ^ Z.of_nat n ->
  be_bytes n x = be_bytes n y -> x = y.
Proof.
  intros Hx Hy H. apply (f_equal be_value) in H. rewrite !be_value_bytes in H.
  by rewrite !Z.mod_small in H.
Qed.

(** ** Hex lemmas *)

Lemma hex_decode_encode b : hex_decode (hex_encode b) = Some b.
Proof.
  induction b as [|x b IH]; [done|]. cbn [hex_encode hex_decode]. rewrite IH.
  destruct x; reflexivity.
Qed.

Lemma is_hex_inv c :
  is_hex c = true -> exists v, hexval c = Some v /\ 0 <= v < 16 /\ hexchar v = c.
Proof.
  destruct c as [[] [] [] [] [] [] [] []]; intros H; try discriminate H;
    (eexists; split; [reflexivity|]; split; [vm_compute; split; [discriminate|reflexivity]|reflexivity]).
Qed.

(** Lowercase hex of even length decodes, and to the bytes it was written from. *)
Lemma hex_decode_lower n s :
  sforall is_hex s = true -> String.length s = (2 * n)%nat ->
  exists b, hex_decode s = Some b /\ length b = n /\ hex_encode b = s.
Proof.
  revert s. induction n as [|n IH]; intros s Hs Hn.
  - destruct s; [|done]. by exists [].
  - destruct s as [|h [|l s]]; simpl in Hn; [lia|lia|]. simpl in Hs. breflect.
    destruct (IH s) as (b & Hb & Hlen & Henc); [done|lia|].
    destruct (is_hex_inv h) as (x & Hx & Hxr & Hxc); [done|].
    destruct (is_hex_inv l) as (y & Hy & Hyr & Hyc); [done|].
    exists (byte_of_Z (x * 16 + y) :: b). simpl. rewrite Hx, Hy, Hb, Hlen, Henc.
    rewrite byteZ_of_Z, Z.mod_small by lia.
    rewrite Z.div_add_l, (Z.div_small y), Z.add_0_r, Hxc by lia.
    by rewrite Z.add_comm, Z.mod_add, Z.mod_small, Hyc by lia.
Qed.

Lemma hex_decode_hex64 s :
  hex64 s = true -> exists b, hex_decode s = Some b /\ length b = 32%nat /\ hex_encode b = s.
Proof.
  unfold hex64, slen. intros [H1 H2]%andb_prop. apply hex_decode_lower; [done|lia].
Qed.

Lemma hex_encode_is_hex b : sforall is_hex (hex_encode b) = true.
Proof.
  induction b as [|x b IH]; [done|]. simpl. rewrite IH. by destruct x.
Qed.

Lemma slen_hex_encode b : slen (hex_encode b) = 2 * blen b.
Proof.
  unfold slen, blen. induction b as [|x b IH]; [done|]. cbn [hex_encode String.length length]. lia.
Qed.

Lemma hex64_encode b : length b = 32%nat -> hex64 (hex_encode b) = true.
Proof.
  intros H. unfold hex64. rewrite hex_encode_is_hex, slen_hex_encode. unfold blen. by rewrite H.
Qed.

(** ** Decimal lemmas *)

Lemma digit_char_spec d :
  0 <= d < 10 -> is_digit (digit_char d) = true /\ digit_val (digit_char d) = d.
Proof.
  intros H. assert (d = 0 \/ d = 1 \/ d = 2 \/ d = 3 \/ d = 4 \/ d = 5 \/ d = 6 \/ d = 7 \/ d = 8 \/ d = 9)
    as Hd by lia.
  repeat destruct Hd as [->|Hd]; subst; done.
Qed.

Lemma is_digit_inv c : is_digit c = true -> 0 <= digit_val c < 10 /\ digit_char (digit_val c) = c.
Proof.
  destruct c as [[] [] [] [] [] [] [] []]; intros H; try discriminate H; (split; [|reflexivity]);
    vm_compute; split; (discriminate || reflexivity).
Qed.

Lemma decimal_digits_value fuel n acc :
  0 <= n < 10 ^ (Z.of_nat fuel + 1) ->
  decimal_value (decimal_digits fuel n acc)
  = fold_left (fun a c => a * 10 + digit_val c) acc n.
Proof.
  revert n acc. induction fuel as [|fuel IH]; intros n acc Hn; cbn [decimal_digits];
    destruct (Z.ltb_spec n 10).
  1, 3: unfold decimal_value; cbn [fold_left]; rewrite Z.mod_small by lia;
    rewrite (proj2 (digit_char_spec n ltac:(lia))); reflexivity.
  - simpl in Hn. lia.
  - rewrite IH.
    + cbn [fold_left]. pose proof (Z.mod_pos_bound n 10 ltac:(lia)).
      rewrite (proj2 (digit_char_spec (n mod 10) ltac:(lia))).
      by rewrite (Z.mul_comm (n / 10)), <- Z.div_mod by lia.
    + rewrite Nat2Z.inj_succ in Hn. split; [dlia|]. apply Z.div_lt_upper_bound; [lia|].
      rewrite <- Z.pow_succ_r by lia. replace (Z.succ (Z.of_nat fuel + 1)) with (Z.succ (Z.of_nat fuel) + 1) by lia. lia.
Qed.

Lemma decimal_fuel_enough n : 0 <= n -> 0 <= n < 10 ^ (Z.of_nat (decimal_fuel n) + 1).
Proof.
  intros Hn. split; [done|]. unfold decimal_fuel.
  destruct (Z.eq_dec n 0) as [->|]; [apply Z.pow_pos_nonneg; lia|].
  pose proof (Z.log2_spec n ltac:(lia)) as [_ H]. pose proof (Z.log2_nonneg n).
  eapply Z.lt_le_trans; [exact H|]. etransitivity; [apply (Z.pow_le_mono_l _ 10); lia|].
  apply Z.pow_le_mono_r; lia.
Qed.

Lemma decimal_digits_app fuel n acc :
  decimal_digits fuel n acc = decimal_digits fuel n [] ++ acc.
Proof.
  revert n acc. induction fuel as [|fuel IH]; intros n acc; cbn [decimal_digits];
    destruct (n <? 10); try done.
  rewrite IH, (IH _ [_]), <- app_assoc. done.
Qed.

Lemma decimal_digits_all fuel n : 0 <= n -> forallb is_digit (decimal_digits fuel n []) = true.
Proof.
  revert n. induction fuel as [|fuel IH]; intros n Hn; cbn [decimal_digits];
    pose proof (proj1 (digit_char_spec (n mod 10) (Z.mod_pos_bound n 10 ltac:(lia)))) as Hd;
    destruct (n <? 10); cbn [forallb]; rewrite ?Hd; try done.
  rewrite decimal_digits_app, forallb_app, IH by dlia. cbn. by rewrite Hd.
Qed.

Lemma decimal_digits_nonnil fuel n acc : decimal_digits fuel n acc <> [].
Proof. revert n acc. induction fuel; intros n acc; cbn; destruct (n <? 10); auto. Qed.

(** [SetString] reads back what [String] printed. *)
Lemma parse_decimal_string n : 0 <= n -> parse_decimal (decimal_string n) = Some n.
Proof.
  intros Hn. unfold parse_decimal, decimal_string.
  rewrite list_ascii_of_string_of_list_ascii.
  pose proof (decimal_digits_nonnil (decimal_fuel n) n []) as Hne.
  pose proof (decimal_digits_all (decimal_fuel n) n Hn) as Hall.
  pose proof (decimal_digits_value (decimal_fuel n) n [] (decimal_fuel_enough n Hn)) as Hv.
  destruct (decimal_digits _ _ _) as [|c l]; [done|]. by rewrite Hall, Hv.
Qed.

Lemma decimal_value_snoc l c :
  decimal_value (l ++ [c]) = decimal_value l * 10 + digit_val c.
Proof. unfold decimal_value. by rewrite fold_left_app. Qed.

Lemma decimal_value_nonneg l : forallb is_digit l = true -> 0 <= decimal_value l.
Proof.
  induction l as [|c l IH] using rev_ind; [done|].
  rewrite forallb_app, decimal_value_snoc. cbn. intros [H1 H2]%andb_prop.
  rewrite andb_true_r in H2. apply is_digit_inv in H2 as [H2 _]. specialize (IH H1). lia.
Qed.

(** A digit list is canonical when it is the digit 0 or does not start with it. *)
Definition canonical_digits (l : list ascii) : Prop :=
  forallb is_digit l = true /\ (l = ["0"%char] \/ exists c l', l = c :: l' /\ digit_val c <> 0).

Lemma canonical_positive c l :
  forallb is_digit (c :: l) = true -> digit_val c <> 0 -> 1 <= decimal_value (c :: l).
Proof.
  intros H Hc. induction l as [|d l IH] using rev_ind.
  - cbn in *. rewrite andb_true_r in H. apply is_digit_inv in H as [H _]. lia.
  - rewrite app_comm_cons in *. rewrite forallb_app in H. apply andb_prop in H as [H1 H2].
    cbn in H2. rewrite andb_true_r in H2. apply is_digit_inv in H2 as [H2 _].
    rewrite decimal_value_snoc. specialize (IH H1). lia.
Qed.

(** Printing the value of a canonical digit list gives the list back, so one
    amount has one spelling. *)
Lemma decimal_digits_canonical fuel l :
  canonical_digits l -> decimal_value l < 10 ^ (Z.of_nat fuel + 1) ->
  decimal_digits fuel (decimal_value l) [] = l.
Proof.
  intros [Hd [->|(c & l' & -> & Hc)]] Hf.
  { by destruct fuel. }
  revert fuel Hd Hf. induction l' as [|d l' IH] using rev_ind; intros fuel Hd Hf.
  - cbn in Hd. rewrite andb_true_r in Hd. apply is_digit_inv in Hd as [Hr Hch].
    change (decimal_value [c]) with (digit_val c).
    destruct fuel; cbn [decimal_digits]; rewrite (proj2 (Z.ltb_lt _ _)) by lia;
      by rewrite Z.mod_small, Hch by lia.
  - rewrite app_comm_cons in *. rewrite forallb_app in Hd. apply andb_prop in Hd as [H1 H2].
    cbn in H2. rewrite andb_true_r in H2. apply is_digit_inv in H2 as [Hr Hch].
    pose proof (canonical_positive c l' H1 Hc) as Hpos.
    rewrite decimal_value_snoc in *.
    destruct fuel as [|fuel]; [simpl in Hf; lia|]. cbn [decimal_digits].
    rewrite (proj2 (Z.ltb_ge _ _)) by lia.
    rewrite Z.div_add_l, (Z.div_small (digit_val d)), Z.add_0_r by lia.
    rewrite decimal_digits_app, IH; [|done|rewrite Nat2Z.inj_succ in Hf].
    + f_equal. rewrite Z.add_comm, Z.mod_add, Z.mod_small, Hch by lia. done.
    + replace (Z.succ (Z.of_nat fuel) + 1) with (Z.succ (Z.of_nat fuel + 1)) in Hf by lia.
      rewrite Z.pow_succ_r in Hf by lia. lia.
Qed.

Lemma decimal_string_value s :
  canonical_digits (list_ascii_of_string s) ->
  decimal_string (decimal_value (list_ascii_of_string s)) = s.
Proof.
  intros H. unfold decimal_string.
  rewrite decimal_digits_canonical; [apply string_of_list_ascii_of_string|done|].
  apply decimal_fuel_enough, decimal_value_nonneg, H.
Qed.

Lemma length_decimal_digits fuel n k :
  0 <= n < 10 ^ (Z.of_nat fuel + 1) -> (1 <= k)%nat ->
  (length (decimal_digits fuel n []) <= k)%nat <-> n < 10 ^ Z.of_nat k.
Proof.
  revert n k. induction fuel as [|fuel IH]; intros n k Hn Hk; cbn [decimal_digits];
    destruct (Z.ltb_spec n 10).
  1, 3: cbn; split; [intros _|lia]; eapply Z.lt_le_trans; [eassumption|];
    change 10 with (10 ^ 1) at 1; apply Z.pow_le_mono_r; lia.
  - simpl in Hn. lia.
  - rewrite decimal_digits_app, length_app. cbn [length].
    rewrite Nat2Z.inj_succ in Hn.
    replace (Z.succ (Z.of_nat fuel) + 1) with (Z.succ (Z.of_nat fuel + 1)) in Hn by lia.
    rewrite Z.pow_succ_r in Hn by lia.
    destruct k as [|[|k]]; [lia| |].
    + pose proof (decimal_digits_nonnil fuel (n / 10) []) as Hnn.
      destruct (decimal_digits fuel (n / 10) []); [done|]. cbn.
      split; [lia|]. change (10 ^ Z.of_nat 1) with 10. lia.
    + transitivity (length (decimal_digits fuel (n / 10) []) <= S k)%nat; [lia|].
      rewrite IH by (dlia || lia). rewrite (Nat2Z.inj_succ (S k)), (Z.pow_succ_r _ (Z.of_nat (S k))) by lia.
      dlia.
Qed.

Lemma canonical_decimal_digits fuel n :
  0 <= n < 10 ^ (Z.of_nat fuel + 1) -> canonical_digits (decimal_digits fuel n []).
Proof.
  intros Hn. split; [apply decimal_digits_all; lia|].
  destruct (Z.eq_dec n 0) as [->|Hz]; [left; by destruct fuel|right].
  revert n Hn Hz. induction fuel as [|fuel IH]; intros n Hn Hz; cbn [decimal_digits];
    destruct (Z.ltb_spec n 10).
  1, 3: eexists _, _; split; [reflexivity|]; rewrite Z.mod_small by lia;
    rewrite (proj2 (digit_char_spec n ltac:(lia))); lia.
  - simpl in Hn. lia.
  - rewrite decimal_digits_app. rewrite Nat2Z.inj_succ in Hn.
    replace (Z.succ (Z.of_nat fuel) + 1) with (Z.succ (Z.of_nat fuel + 1)) in Hn by lia.
    rewrite Z.pow_succ_r in Hn by lia.
    destruct (IH (n / 10)) as (c & l & -> & Hc); [dlia|dlia|]. eauto.
Qed.

(** ** Base64 lemmas *)

Lemma b64val_char v : 0 <= v < 64 -> b64val (b64char v) = Some v /\ Ascii.eqb (b64char v) "=" = false
  /\ is_newline (b64char v) = false.
Proof.
  intros H.
  assert (forallb (fun v => bool_decide (b64val (b64char v) = Some v)
      && negb (Ascii.eqb (b64char v) "=") && negb (is_newline (b64char v))) (seqZ 0 64) = true) as Hall
    by (vm_compute; reflexivity).
  rewrite forallb_forall in Hall. specialize (Hall v).
  rewrite <- list_elem_of_In, elem_of_seqZ in Hall. specialize (Hall ltac:(lia)). by breflect.
Qed.

Lemma b64_decode_encode_list b : b64_decode_list (b64_encode_list b) = Some b.
Proof.
  enough (forall n b, (length b <= n)%nat -> b64_decode_list (b64_encode_list b) = Some b) by eauto.
  clear b. induction n as [|n IH]; intros b Hn; [by destruct b; [|simpl in Hn; lia]|].
  destruct b as [|x [|y [|z b]]]; [done| | |]; cbn [b64_encode_list b64_decode_list];
    pose proof (byteZ_range x); try pose proof (byteZ_range y); try pose proof (byteZ_range z);
    repeat match goal with
    | |- context [b64val (b64char ?v)] =>
        rewrite (proj1 (b64val_char v ltac:(dlia)))
    | |- context [Ascii.eqb (b64char ?v) "="%char] =>
        rewrite (proj1 (proj2 (b64val_char v ltac:(dlia))))
    end.
  - rewrite (proj2 (Z.eqb_eq _ 0)) by dlia. change (Ascii.eqb "=" "=") with true. cbn match.
    repeat f_equal. apply byteZ_inj. rewrite byteZ_of_Z. dlia.
  - rewrite (proj2 (Z.eqb_eq _ 0)) by dlia. change (Ascii.eqb "=" "=") with true. cbn match.
    do 2 f_equal; [|f_equal]; apply byteZ_inj; rewrite byteZ_of_Z; dlia.
  - rewrite IH by (simpl in Hn; lia).
    do 2 f_equal; [|f_equal; [|f_equal]]; apply byteZ_inj; rewrite byteZ_of_Z; dlia.
Qed.

Lemma b64_encode_no_newline b :
  List.filter (fun c => negb (is_newline c)) (b64_encode_list b) = b64_encode_list b.
Proof.
  apply forallb_filter_id.
  enough (forall n b, (length b <= n)%nat ->
    forallb (fun c => negb (is_newline c)) (b64_encode_list b) = true) by eauto.
  clear b. induction n as [|n IH]; intros b Hn; [by destruct b; [|simpl in Hn; lia]|].
  destruct b as [|x [|y [|z b]]]; [done| | |]; cbn [b64_encode_list forallb];
    pose proof (byteZ_range x); try pose proof (byteZ_range y); try pose proof (byteZ_range z);
    repeat match goal with
    | |- context [is_newline (b64char ?v)] =>
        rewrite (proj2 (proj2 (b64val_char v ltac:(dlia))))
    end; [done|done|]. cbn. apply IH. simpl in Hn. lia.
Qed.

(** Strict base64 decoding inverts encoding. *)
Lemma b64_decode_encode b : b64_decode (b64_encode b) = Some b.
Proof.
  unfold b64_decode, b64_encode. rewrite list_ascii_of_string_of_list_ascii.
  rewrite b64_encode_no_newline. apply b64_decode_encode_list.
Qed.

(** ** SHA-256 lemmas *)

Lemma length_sha256 m : length (sha256 m) = 32%nat.
Proof. Local Transparent sha256. unfold sha256. by rewrite !length_app, !length_be_bytes. Qed.
#[global] Opaque sha256.
