(* ===== verification/Canon.v ===== *)
(** * Canonical encoding: [internal/canon] and [internal/ids]

    Every signed or digest-committed object is a domain-separated,
    length-prefixed byte string.  This file models the writers of [canon.go],
    the latching reader of [reader.go] and the identifier patterns of [ids.go],
    and proves what the rest of the development builds on: reading back what
    was written recovers every field, no two different field lists share a
    preimage, and a reader that failed once stays failed. *)

From S2P Require Import Prelude Encoding.

(** ** Writers ([canon.go]) *)

(** The byte that ends every domain string ([domains.go]). *)
Definition NUL : string := String "000" EmptyString.

Definition canon_Uint32 (buffer : bytes) (value : Z) : bytes := buffer ++ be_bytes 4 value.
Definition canon_Uint64 (buffer : bytes) (value : Z) : bytes := buffer ++ be_bytes 8 value.
Definition canon_Text (buffer : bytes) (value : string) : bytes :=
  canon_Uint32 buffer (u32 (slen value)) ++ bytes_of_string value.
Definition canon_Bytes (buffer : bytes) (value : bytes) : bytes :=
  canon_Uint32 buffer (u32 (blen value)) ++ value.
Definition canon_Bool (buffer : bytes) (value : bool) : bytes :=
  buffer ++ [if value then x01 else x00].

(** [HashPattern] is [hex64]; [DigestPattern] is ["sha256:"] and 64 hex digits. *)
Definition HashPattern (s : string) : bool := hex64 s.
Definition DigestPattern (s : string) : bool := prefixed_hex64 "sha256:" s.

Definition err_hash32 : error := NewError "invalid canonical 32-byte hash".

Definition canon_Hash32 (buffer : bytes) (value : string) : result bytes :=
  refuse negb (HashPattern value) with err_hash32;
  match hex_decode value with
  | Some raw => if blen raw =? 32 then Ok (canon_Bytes buffer raw) else Err err_hash32
  | None => Err err_hash32
  end.

Definition canon_Digest (preimage : bytes) : string :=
  "sha256:" +:+ hex_encode (sha256 preimage).

Definition IsZero (value : bytes) : bool := forallb (fun b => byteZ b =? 0) value.

Definition ValidDigest (digest : string) : bool :=
  match strip_prefix "sha256:" digest with
  | Some h =>
      hex64 h && match hex_decode h with
                 | Some raw => negb (IsZero raw)
                 | None => false
                 end
  | None => false
  end.

(** ** Identifiers ([ids.go]) *)

Definition ids_Agent : string -> bool := prefixed_hex64 "agent_".
Definition ids_Capability : string -> bool := prefixed_hex64 "cap_".
Definition ids_Endpoint : string -> bool := prefixed_hex64 "mep_".
Definition ids_Device : string -> bool := prefixed_hex64 "dev_".
Definition ids_Conversation : string -> bool := prefixed_hex64 "conv_".
Definition ids_Event : string -> bool := prefixed_hex64 "evt_".
Definition ids_Session : string -> bool := prefixed_hex64 "ses_".
Definition ids_Room : string -> bool := prefixed_hex64 "room_".
Definition ids_Action : string -> bool := prefixed_hex64 "act_".

Definition ids_Format (prefix : string) (raw : bytes) : result string :=
  refuse String.eqb prefix "" || negb (blen raw =? 32) || IsZero raw
    with NewError "invalid identifier material";
  Ok (prefix +:+ hex_encode raw).

(** ** The reader ([reader.go])

    A read returns the value Go returns (its zero value after a failure)
    beside the reader it leaves behind. *)

Record Reader : Type := MkReader {
  r_buffer : bytes;
  r_offset : nat;
  r_err : option error;
}.

Definition NewReader (domain : string) (preimage : bytes) : Reader :=
  let d := bytes_of_string domain in
  if bool_decide (take (length d) preimage = d) && (blen d <=? blen preimage)
  then MkReader preimage (length d) None
  else MkReader preimage 0 (Some (NewError "preimage is not in the expected domain")).

Definition Reader_fail (r : Reader) (e : error) : Reader :=
  match r_err r with
  | Some _ => r
  | None => MkReader (r_buffer r) (r_offset r) (Some e)
  end.

Definition Reader_take (r : Reader) (count : nat) : option bytes * Reader :=
  match r_err r with
  | Some _ => (None, r)
  | None =>
      if (length (r_buffer r) <? r_offset r + count)%nat
      then (None, Reader_fail r (NewError "canonical value runs past the end of its preimage"))
      else (Some (take count (drop (r_offset r) (r_buffer r))),
            MkReader (r_buffer r) (r_offset r + count)%nat None)
  end.

Definition Reader_Uint (width : nat) (r : Reader) : Z * Reader :=
  match Reader_take r width with
  | (Some raw, r') => (be_value raw, r')
  | (None, r') => (0, r')
  end.

Definition Reader_Uint8 (r : Reader) : Z * Reader := Reader_Uint 1 r.
Definition Reader_Uint32 (r : Reader) : Z * Reader := Reader_Uint 4 r.
Definition Reader_Uint64 (r : Reader) : Z * Reader := Reader_Uint 8 r.

Definition Reader_Bytes (maximum : Z) (r : Reader) : option bytes * Reader :=
  let '(len, r1) := Reader_Uint32 r in
  match r_err r1 with
  | Some _ => (None, r1)
  | None =>
      if maximum <? len
      then (None, Reader_fail r1 (NewError "canonical value exceeds its bound"))
      else Reader_take r1 (Z.to_nat len)
  end.

Definition Reader_Text (maximum : Z) (r : Reader) : string * Reader :=
  match Reader_Bytes maximum r with
  | (None, r1) => (EmptyString, r1)
  | (Some raw, r1) =>
      if utf8_valid raw then (string_of_bytes raw, r1)
      else (EmptyString, Reader_fail r1 (NewError "canonical text is not valid UTF-8"))
  end.

Definition Reader_Hash32 (r : Reader) : string * Reader :=
  match Reader_Bytes 32 r with
  | (None, r1) => (EmptyString, r1)
  | (Some raw, r1) =>
      if blen raw =? 32 then (hex_encode raw, r1)
      else (EmptyString, Reader_fail r1 (NewError "canonical hash is not 32 bytes"))
  end.

Definition Reader_Count (maximum : Z) (r : Reader) : Z * Reader :=
  let '(count, r1) := Reader_Uint32 r in
  match r_err r1 with
  | Some _ => (0, r1)
  | None =>
      if maximum <? count
      then (0, Reader_fail r1 (NewError "canonical repeated field exceeds its bound"))
      else (count, r1)
  end.

Definition Reader_Done (r : Reader) : option error :=
  match r_err r with
  | Some e => Some e
  | None =>
      if (r_offset r =? length (r_buffer r))%nat then None
      else Some (NewError "canonical preimage has trailing bytes")
  end.

(** ** Canonical objects as field lists

    A canonical object is a domain separator followed by the fields its type
    fixes.  [field] is one written field, [kind] what a decoder expects in its
    place (with the caller's bound), so a codec is a [list kind]. *)

Inductive field : Type :=
  | FText (s : string)
  | FBytes (b : bytes)
  | FUint32 (z : Z)
  | FUint64 (z : Z)
  | FHash32 (h : string).

Inductive kind : Type :=
  | KText (maximum : Z)
  | KBytes (maximum : Z)
  | KUint32
  | KUint64
  | KHash32.

Definition write_field (buffer : bytes) (f : field) : result bytes :=
  match f with
  | FText s => Ok (canon_Text buffer s)
  | FBytes b => Ok (canon_Bytes buffer b)
  | FUint32 z => Ok (canon_Uint32 buffer z)
  | FUint64 z => Ok (canon_Uint64 buffer z)
  | FHash32 h => canon_Hash32 buffer h
  end.

Fixpoint write_fields (buffer : bytes) (fs : list field) : result bytes :=
  match fs with
  | [] => Ok buffer
  | f :: fs' => let* b := write_field buffer f in write_fields b fs'
  end.

Definition read_field (k : kind) (r : Reader) : field * Reader :=
  match k with
  | KText m => let '(s, r') := Reader_Text m r in (FText s, r')
  | KBytes m => let '(b, r') := Reader_Bytes m r in (FBytes (default [] b), r')
  | KUint32 => let '(z, r') := Reader_Uint32 r in (FUint32 z, r')
  | KUint64 => let '(z, r') := Reader_Uint64 r in (FUint64 z, r')
  | KHash32 => let '(h, r') := Reader_Hash32 r in (FHash32 h, r')
  end.

Fixpoint read_fields (ks : list kind) (r : Reader) : list field * Reader :=
  match ks with
  | [] => ([], r)
  | k :: ks' =>
      let '(f, r1) := read_field k r in
      let '(fs, r2) := read_fields ks' r1 in (f :: fs, r2)
  end.

Definition encode_object (domain : string) (fs : list field) : result bytes :=
  write_fields (bytes_of_string domain) fs.

Definition decode_object (domain : string) (ks : list kind) (preimage : bytes)
    : result (list field) :=
  let '(fs, r) := read_fields ks (NewReader domain preimage) in
  match Reader_Done r with Some e => Err e | None => Ok fs end.

(** A field fits a kind when the writer's 32-bit length prefix does not wrap
    and the reader's own bound admits it. *)
Definition field_fits (k : kind) (f : field) : Prop :=
  match k, f with
  | KText m, FText s => slen s <= m /\ slen s < 2 ^ 32 /\ utf8_valid (bytes_of_string s) = true
  | KBytes m, FBytes b => blen b <= m /\ blen b < 2 ^ 32
  | KUint32, FUint32 z => is_u32 z
  | KUint64, FUint64 z => is_u64 z
  | KHash32, FHash32 h => hex64 h = true
  | _, _ => False
  end.

(** Two fields written in the same place of the same object type. *)
Definition same_kind (f g : field) : Prop :=
  match f, g with
  | FText s, FText t => slen s < 2 ^ 32 /\ slen t < 2 ^ 32
  | FBytes a, FBytes b => blen a < 2 ^ 32 /\ blen b < 2 ^ 32
  | FUint32 x, FUint32 y => is_u32 x /\ is_u32 y
  | FUint64 x, FUint64 y => is_u64 x /\ is_u64 y
  | FHash32 x, FHash32 y => hex64 x = true /\ hex64 y = true
  | _, _ => False
  end.

(** ** Writers append one self-delimiting field *)

Definition field_bytes (f : field) : bytes :=
  match f with
  | FText s => be_bytes 4 (u32 (slen s)) ++ bytes_of_string s
  | FBytes b => be_bytes 4 (u32 (blen b)) ++ b
  | FUint32 z => be_bytes 4 z
  | FUint64 z => be_bytes 8 z
  | FHash32 h => be_bytes 4 32 ++ match hex_decode h with Some raw => raw | None => [] end
  end.

Definition fields_bytes (fs : list field) : bytes := List.concat (List.map field_bytes fs).

Definition writable (f : field) : Prop :=
  match f with FHash32 h => hex64 h = true | _ => True end.

Lemma canon_Hash32_ok buffer h :
  hex64 h = true -> canon_Hash32 buffer h = Ok (buffer ++ field_bytes (FHash32 h)).
Proof.
  intros H. destruct (hex_decode_hex64 h H) as (b & Hb & Hlen & _).
  unfold canon_Hash32, HashPattern, canon_Bytes, canon_Uint32, field_bytes, blen.
  rewrite H, Hb. cbn. rewrite Hlen. cbn. by rewrite <- app_assoc.
Qed.

Lemma canon_Hash32_err buffer h :
  hex64 h = false -> canon_Hash32 buffer h = Err err_hash32.
Proof. unfold canon_Hash32, HashPattern. by intros ->. Qed.

Lemma canon_Text_app buffer s : canon_Text buffer s = buffer ++ field_bytes (FText s).
Proof. unfold canon_Text, canon_Uint32, field_bytes. by rewrite <- app_assoc. Qed.

Lemma write_field_ok buffer f : writable f -> write_field buffer f = Ok (buffer ++ field_bytes f).
Proof.
  destruct f; intros H; cbn [write_field].
  - by rewrite canon_Text_app.
  - unfold canon_Bytes, canon_Uint32, field_bytes. by rewrite <- app_assoc.
  - done.
  - done.
  - by apply canon_Hash32_ok.
Qed.

Lemma write_fields_ok buffer fs :
  Forall writable fs -> write_fields buffer fs = Ok (buffer ++ fields_bytes fs).
Proof.
  intros H. revert buffer. induction H as [|f fs Hf Hfs IH]; intros buffer; cbn [write_fields].
  - unfold fields_bytes. cbn. by rewrite app_nil_r.
  - rewrite write_field_ok by done. rewrite IH. unfold fields_bytes. cbn. by rewrite app_assoc.
Qed.

(** ** Reading at a position *)

(** The reader has not failed and what is left to read is [rest]. *)
Definition reader_at (r : Reader) (rest : bytes) : Prop :=
  r_err r = None /\ (r_offset r <= length (r_buffer r))%nat /\ drop (r_offset r) (r_buffer r) = rest.

Lemma reader_at_take r a rest n :
  reader_at r (a ++ rest) -> length a = n ->
  exists r', Reader_take r n = (Some a, r') /\ reader_at r' rest.
Proof.
  intros (He & Ho & Hd) <-. unfold Reader_take. rewrite He.
  assert (length (drop (r_offset r) (r_buffer r)) = length a + length rest)%nat as Hlen
    by (by rewrite Hd, length_app).
  rewrite length_drop in Hlen.
  rewrite (proj2 (Nat.ltb_ge _ _)) by lia. eexists. split.
  - by rewrite Hd, take_app_length.
  - repeat split; cbn; [lia|]. by rewrite <- drop_drop, Hd, drop_app_length.
Qed.

Lemma reader_at_Uint r n z rest :
  reader_at r (be_bytes n z ++ rest) ->
  exists r', Reader_Uint n r = (z mod 256 ^ Z.of_nat n, r') /\ reader_at r' rest.
Proof.
  intros H. destruct (reader_at_take _ _ _ n H (length_be_bytes _ _)) as (r' & Ht & Hr).
  exists r'. unfold Reader_Uint. by rewrite Ht, be_value_bytes.
Qed.

Lemma reader_at_Bytes r b m rest :
  blen b <= m -> blen b < 2 ^ 32 ->
  reader_at r (be_bytes 4 (u32 (blen b)) ++ b ++ rest) ->
  exists r', Reader_Bytes m r = (Some b, r') /\ reader_at r' rest.
Proof.
  intros Hm Hlt H. destruct (reader_at_Uint _ _ _ _ H) as (r1 & Hu & H1).
  unfold Reader_Bytes, Reader_Uint32. rewrite Hu. destruct H1 as (He & H1). rewrite He.
  assert (u32 (blen b) mod 256 ^ Z.of_nat 4 = blen b) as ->.
  { change (256 ^ Z.of_nat 4) with (2 ^ 32). unfold u32. rewrite Z.mod_mod by lia.
    apply Z.mod_small. unfold blen in *. lia. }
  rewrite (proj2 (Z.ltb_ge _ _)) by lia.
  destruct (reader_at_take r1 b rest (Z.to_nat (blen b))) as (r2 & Ht & H2);
    [by split|unfold blen; lia|]. eauto.
Qed.

Lemma read_field_at r k f rest :
  field_fits k f -> reader_at r (field_bytes f ++ rest) ->
  exists r', read_field k r = (f, r') /\ reader_at r' rest.
Proof.
  destruct k, f; intros Hf H; try done; cbn [field_fits field_bytes read_field] in *.
  - destruct Hf as (Hm & Hlt & Hu). rewrite <- app_assoc in H.
    rewrite <- blen_bytes_of_string in *.
    destruct (reader_at_Bytes _ _ _ _ Hm Hlt H) as (r' & Hr & Hat).
    unfold Reader_Text. rewrite Hr, Hu, string_of_bytes_of_string. eauto.
  - destruct Hf as (Hm & Hlt). rewrite <- app_assoc in H.
    destruct (reader_at_Bytes _ _ _ _ Hm Hlt H) as (r' & Hr & Hat). rewrite Hr. eauto.
  - destruct (reader_at_Uint _ _ _ _ H) as (r' & Hr & Hat). unfold Reader_Uint32.
    rewrite Hr, Z.mod_small by (change (256 ^ Z.of_nat 4) with (2 ^ 32); apply Hf). eauto.
  - destruct (reader_at_Uint _ _ _ _ H) as (r' & Hr & Hat). unfold Reader_Uint64.
    rewrite Hr, Z.mod_small by (change (256 ^ Z.of_nat 8) with (2 ^ 64); apply Hf). eauto.
  - destruct (hex_decode_hex64 _ Hf) as (b & Hb & Hlen & Henc). rewrite Hb in H.
    rewrite <- app_assoc in H.
    destruct (reader_at_Bytes r b 32 rest) as (r' & Hr & Hat);
      [unfold blen; lia|unfold blen; lia| |].
    { unfold u32, blen. rewrite Hlen. done. }
    unfold Reader_Hash32. rewrite Hr. unfold blen. rewrite Hlen. cbn. rewrite Henc. eauto.
Qed.

Lemma read_fields_at r ks fs rest :
  Forall2 field_fits ks fs -> reader_at r (fields_bytes fs ++ rest) ->
  exists r', read_fields ks r = (fs, r') /\ reader_at r' rest.
Proof.
  intros H. revert r. induction H as [|k f ks fs Hk Hks IH]; intros r Hat; cbn [read_fields].
  - eauto.
  - unfold fields_bytes in Hat. cbn in Hat. rewrite <- app_assoc in Hat.
    destruct (read_field_at _ _ _ _ Hk Hat) as (r1 & -> & H1).
    destruct (IH r1 H1) as (r2 & -> & H2). eauto.
Qed.

Lemma NewReader_at domain rest :
  reader_at (NewReader domain (bytes_of_string domain ++ rest)) rest.
Proof.
  unfold NewReader. rewrite take_app_length, bool_decide_eq_true_2 by done.
  rewrite (proj2 (Z.leb_le _ _)) by (rewrite blen_app; unfold blen; lia). cbn.
  repeat split; cbn; [rewrite length_app; lia|apply drop_app_length].
Qed.

Lemma fits_writable k f : field_fits k f -> writable f.
Proof. by destruct k, f. Qed.

Lemma encode_object_ok domain fs :
  Forall writable fs -> encode_object domain fs = Ok (bytes_of_string domain ++ fields_bytes fs).
Proof. apply write_fields_ok. Qed.

(** ** Fields are self-delimiting *)

Lemma app_inj_length {A} (a b c d : list A) :
  length a = length b -> a ++ c = b ++ d -> a = b /\ c = d.
Proof. intros H E. by apply app_inj_1. Qed.

Lemma length_prefixed_inj a b c d :
  blen a < 2 ^ 32 -> blen b < 2 ^ 32 ->
  be_bytes 4 (u32 (blen a)) ++ a ++ c = be_bytes 4 (u32 (blen b)) ++ b ++ d ->
  a = b /\ c = d.
Proof.
  intros Ha Hb E. apply app_inj_length in E as [E1 E2]; [|by rewrite !length_be_bytes].
  apply be_bytes_inj in E1; [|apply u32_range|apply u32_range].
  rewrite !u32_id in E1 by (unfold is_u32, blen in *; lia).
  apply app_inj_length in E2; [done|unfold blen in E1; lia].
Qed.

Lemma field_bytes_inj f g c d :
  same_kind f g -> field_bytes f ++ c = field_bytes g ++ d -> f = g /\ c = d.
Proof.
  destruct f, g; cbn [same_kind field_bytes]; try done; intros [H1 H2] E.
  - rewrite <- !app_assoc, <- !blen_bytes_of_string in E.
    rewrite <- blen_bytes_of_string in H1, H2.
    apply length_prefixed_inj in E as [->%bytes_of_string_inj ->]; done.
  - rewrite <- !app_assoc in E. apply length_prefixed_inj in E as [-> ->]; done.
  - apply app_inj_length in E as [->%be_bytes_inj ->]; try done.
  - apply app_inj_length in E as [->%be_bytes_inj ->]; try done.
  - destruct (hex_decode_hex64 _ H1) as (x & Hx & Hxl & Hxe).
    destruct (hex_decode_hex64 _ H2) as (y & Hy & Hyl & Hye).
    rewrite Hx, Hy in E. rewrite <- !app_assoc in E.
    apply app_inv_head in E. apply app_inj_length in E as [-> ->]; [|congruence].
    split; congruence.
Qed.

Lemma fields_bytes_inj fs gs c d :
  Forall2 same_kind fs gs -> fields_bytes fs ++ c = fields_bytes gs ++ d -> fs = gs /\ c = d.
Proof.
  intros H. revert c d. induction H as [|f g fs gs Hf Hfs IH]; intros c d E; [done|].
  unfold fields_bytes in E. cbn in E. rewrite <- !app_assoc in E.
  apply field_bytes_inj in E as [-> E]; [|done]. apply IH in E as [-> ->]. done.
Qed.

(** ** Digests *)

(** Two different byte strings with one SHA-256 value.  No theorem assumes
    there are none; a digest comparison that succeeds on different objects
    exhibits one. *)
Definition sha256_collision : Prop := exists p q : bytes, p <> q /\ sha256 p = sha256 q.

Lemma hex_encode_inj a b : hex_encode a = hex_encode b -> a = b.
Proof. intros H. enough (Some a = Some b) by congruence. by rewrite <- !hex_decode_encode, H. Qed.

Lemma string_app_inj_l (p a b : string) : p +:+ a = p +:+ b -> a = b.
Proof. induction p as [|c p IH]; [done|]. intros H. apply IH. by injection H. Qed.

Lemma string_app_inj_r (a b s : string) : a +:+ s = b +:+ s -> a = b.
Proof.
  assert (forall x y, list_ascii_of_string (x +:+ y) = list_ascii_of_string x ++ list_ascii_of_string y) as Happ.
  { intros x y. induction x as [|c x IH]; [done|]. change (c :: list_ascii_of_string (x +:+ y) = c :: (list_ascii_of_string x ++ list_ascii_of_string y)). by rewrite IH. }
  intros E. apply (f_equal list_ascii_of_string) in E. rewrite !Happ in E. apply app_inv_tail in E.
  by rewrite <- (string_of_list_ascii_of_string a), E, string_of_list_ascii_of_string.
Qed.

Lemma canon_Digest_inj p q : canon_Digest p = canon_Digest q -> p = q \/ sha256_collision.
Proof.
  intros H%string_app_inj_l%hex_encode_inj.
  destruct (decide (p = q)); [by left|right; by exists p, q].
Qed.

Lemma canon_Digest_pattern p : DigestPattern (canon_Digest p) = true.
Proof.
  unfold DigestPattern, prefixed_hex64, canon_Digest. rewrite strip_prefix_app.
  apply hex64_encode, length_sha256.
Qed.

Lemma slen_canon_Digest p : slen (canon_Digest p) = 71.
Proof.
  unfold canon_Digest. rewrite slen_app, slen_hex_encode. unfold blen. by rewrite length_sha256.
Qed.

#[export] Hint Resolve canon_Digest_pattern fits_writable : tosdb.
Lemma fold_Text l buffer : fold_left canon_Text l buffer = buffer ++ fields_bytes (FText <$> l).
Proof.
  revert buffer. induction l as [|x l IH]; intros buffer; cbn [fold_left].
  - unfold fields_bytes. cbn. by rewrite app_nil_r.
  - rewrite IH, canon_Text_app. unfold fields_bytes. cbn -[field_bytes]. by rewrite <- app_assoc.
Qed.

Lemma canon_Uint32_app buffer z : canon_Uint32 buffer z = buffer ++ field_bytes (FUint32 z).
Proof. done. Qed.
Lemma canon_Uint64_app buffer z : canon_Uint64 buffer z = buffer ++ field_bytes (FUint64 z).
Proof. done. Qed.
Lemma canon_Bytes_app buffer b : canon_Bytes buffer b = buffer ++ field_bytes (FBytes b).
Proof. unfold canon_Bytes, canon_Uint32, field_bytes. by rewrite <- app_assoc. Qed.

Lemma fields_bytes_cons f fs : fields_bytes (f :: fs) = field_bytes f ++ fields_bytes fs.
Proof. done. Qed.
Lemma fields_bytes_nil : fields_bytes [] = [].
Proof. done. Qed.

Lemma fields_bytes_app fs gs : fields_bytes (fs ++ gs) = fields_bytes fs ++ fields_bytes gs.
Proof. unfold fields_bytes. by rewrite List.map_app, List.concat_app. Qed.

Lemma ValidDigest_slen d : ValidDigest d = true -> slen d = 71.
Proof.
  unfold ValidDigest. destruct (strip_prefix "sha256:" d) as [h|] eqn:E; [|done].
  intros [Hh%hex64_slen _]%andb_prop. apply strip_prefix_Some in E as ->. rewrite slen_app. slen_lit. lia.
Qed.

#[export] Hint Rewrite canon_Text_app slen_canon_Digest : tosdb.

(** ** Objects of one type

    [field_tag] is the shape a type fixes for a field and [field_wf] that a
    field respects the width its writer gives it; two well-formed objects of
    one shape with one digest are one object. *)

Definition field_tag (f : field) : nat :=
  match f with FText _ => 0 | FBytes _ => 1 | FUint32 _ => 2 | FUint64 _ => 3 | FHash32 _ => 4 end.

Definition field_wf (f : field) : Prop :=
  match f with
  | FText s => slen s < 2 ^ 32
  | FBytes b => blen b < 2 ^ 32
  | FUint32 z => is_u32 z
  | FUint64 z => is_u64 z
  | FHash32 h => hex64 h = true
  end.

Lemma field_wf_writable f : field_wf f -> writable f.
Proof. by destruct f. Qed.

Lemma same_kind_wf fs gs :
  List.map field_tag fs = List.map field_tag gs -> Forall field_wf fs -> Forall field_wf gs ->
  Forall2 same_kind fs gs.
Proof.
  revert gs. induction fs as [|f fs IH]; intros [|g gs] Ht Hf Hg; try done.
  cbn in Ht. injection Ht as Ht1 Ht2. inversion_clear Hf. inversion_clear Hg.
  constructor; [|by apply IH]. by destruct f, g.
Qed.

Lemma write_fields_wf buffer fs :
  Forall field_wf fs -> write_fields buffer fs = Ok (buffer ++ fields_bytes fs).
Proof. intros H. apply write_fields_ok. by eapply Forall_impl, field_wf_writable. Qed.

Lemma object_bytes_inj d fs gs :
  List.map field_tag fs = List.map field_tag gs -> Forall field_wf fs -> Forall field_wf gs ->
  d ++ fields_bytes fs = d ++ fields_bytes gs -> fs = gs.
Proof.
  intros Ht Hf Hg E%app_inv_head.
  by apply (fields_bytes_inj fs gs [] []); [apply same_kind_wf|rewrite !app_nil_r].
Qed.

Lemma object_digest_inj d fs gs :
  List.map field_tag fs = List.map field_tag gs -> Forall field_wf fs -> Forall field_wf gs ->
  canon_Digest (d ++ fields_bytes fs) = canon_Digest (d ++ fields_bytes gs) ->
  fs = gs \/ sha256_collision.
Proof.
  intros Ht Hf Hg [E|]%canon_Digest_inj; [left|by right]. by apply (object_bytes_inj d).
Qed.

(** [digest[len("sha256:"):]] *)
Definition digest_hex (digest : string) : string := String.substring 7 64 digest.

Lemma substring_all s n : (String.length s <= n)%nat -> String.substring 0 n s = s.
Proof.
  revert n. induction s as [|c s IH]; intros [|n] H; cbn in *; [done..|lia|].
  by rewrite IH by lia.
Qed.

Lemma digest_hex_Digest p : digest_hex (canon_Digest p) = hex_encode (sha256 p).
Proof.
  unfold digest_hex, canon_Digest.
  transitivity (String.substring 0 64 (hex_encode (sha256 p))); [reflexivity|].
  apply substring_all. pose proof (slen_hex_encode (sha256 p)) as H.
  unfold slen, blen in H. rewrite length_sha256 in H. lia.
Qed.

Lemma digest_hex_inj p q :
  digest_hex (canon_Digest p) = digest_hex (canon_Digest q) -> canon_Digest p = canon_Digest q.
Proof. rewrite !digest_hex_Digest. unfold canon_Digest. by intros ->. Qed.

#[global] Opaque canon_Digest.

(** ** Reading inverts writing *)

(** A read that left no error behind consumed exactly the canonical bytes of
    the field it returned. *)
Definition consumed (r r' : Reader) (b : bytes) : Prop :=
  r_err r = None /\ r_buffer r' = r_buffer r /\
  drop (r_offset r) (r_buffer r) = b ++ drop (r_offset r') (r_buffer r).

Lemma Reader_fail_err r e : r_err (Reader_fail r e) <> None.
Proof. unfold Reader_fail. destruct (r_err r) eqn:E; cbn; congruence. Qed.

Lemma Reader_take_inv r n o r' :
  Reader_take r n = (o, r') -> r_err r' = None ->
  exists a, o = Some a /\ length a = n /\ consumed r r' a.
Proof.
  unfold Reader_take. destruct (r_err r) eqn:E; [intros; simplify_eq; congruence|].
  destruct (Nat.ltb_spec (length (r_buffer r)) (r_offset r + n)).
  - intros [= <- <-] H'. by apply Reader_fail_err in H'.
  - intros [= <- <-] _. eexists. split; [done|]. split; [rewrite length_take, length_drop; lia|].
    repeat split; [done|]. cbn. by rewrite <- drop_drop, take_drop.
Qed.

Lemma Reader_Uint_inv n r z r' :
  Reader_Uint n r = (z, r') -> r_err r' = None ->
  consumed r r' (be_bytes n z) /\ 0 <= z < 256 ^ Z.of_nat n.
Proof.
  unfold Reader_Uint. destruct (Reader_take r n) as [o r1] eqn:E. intros H Hr.
  destruct o as [raw|]; simplify_eq.
  - destruct (Reader_take_inv _ _ _ _ E Hr) as (a & [= <-] & Hl & Hc).
    split; [by rewrite be_bytes_value|]. rewrite <- Hl. apply be_value_range.
  - destruct (Reader_take_inv _ _ _ _ E Hr) as (a & [=] & _).
Qed.

Lemma consumed_trans r1 r2 r3 a b :
  consumed r1 r2 a -> consumed r2 r3 b -> consumed r1 r3 (a ++ b).
Proof.
  intros (H1 & H2 & H3) (H4 & H5 & H6). repeat split; [done|congruence|].
  rewrite H3, <- app_assoc. f_equal. by rewrite <- H2, H6, H2.
Qed.

Lemma Reader_Bytes_inv m r o r' :
  Reader_Bytes m r = (o, r') -> r_err r' = None ->
  exists a, o = Some a /\ blen a <= m /\ blen a < 2 ^ 32
    /\ consumed r r' (be_bytes 4 (u32 (blen a)) ++ a).
Proof.
  unfold Reader_Bytes, Reader_Uint32. destruct (Reader_Uint 4 r) as [len r1] eqn:E.
  destruct (r_err r1) eqn:E1; [intros; simplify_eq; congruence|].
  destruct (Reader_Uint_inv _ _ _ _ E E1) as [Hc Hr]. change (256 ^ Z.of_nat 4) with (2 ^ 32) in Hr.
  destruct (Z.ltb_spec m len); [intros [= <- <-] H'; by apply Reader_fail_err in H'|].
  intros Ht He. destruct (Reader_take_inv _ _ _ _ Ht He) as (a & -> & Hl & Ha).
  assert (blen a = len) as Hlen by (unfold blen; lia).
  exists a. split; [done|]. split; [lia|]. split; [lia|].
  rewrite Hlen, u32_id by (unfold is_u32; lia). apply (consumed_trans _ _ _ _ _ Hc Ha).
Qed.

Lemma read_field_inv k r f r' :
  read_field k r = (f, r') -> r_err r' = None -> writable f /\ consumed r r' (field_bytes f).
Proof.
  destruct k; cbn [read_field]; intros H He.
  - unfold Reader_Text in H. destruct (Reader_Bytes maximum r) as [o r1] eqn:E.
    destruct o as [raw|]; [destruct (utf8_valid raw) eqn:Eu|]; simplify_eq.
    + destruct (Reader_Bytes_inv _ _ _ _ E He) as (a & [= <-] & _ & _ & Hc). split; [done|].
      cbn. unfold string_of_bytes, bytes_of_string, slen.
      replace (Z.of_nat (String.length (string_of_list_byte raw))) with (blen raw).
      * by rewrite list_byte_of_string_of_list_byte.
      * change (blen raw = slen (string_of_list_byte raw)). rewrite <- blen_bytes_of_string.
        unfold bytes_of_string. by rewrite list_byte_of_string_of_list_byte.
    + by apply Reader_fail_err in He.
    + destruct (Reader_Bytes_inv _ _ _ _ E He) as (a & [=] & _).
  - destruct (Reader_Bytes maximum r) as [o r1] eqn:E. simplify_eq.
    destruct (Reader_Bytes_inv _ _ _ _ E He) as (a & -> & _ & _ & Hc). by split.
  - destruct (Reader_Uint32 r) as [z r1] eqn:E. simplify_eq.
    by split; [|apply (Reader_Uint_inv 4 _ _ _ E He)].
  - destruct (Reader_Uint64 r) as [z r1] eqn:E. simplify_eq.
    by split; [|apply (Reader_Uint_inv 8 _ _ _ E He)].
  - unfold Reader_Hash32 in H. destruct (Reader_Bytes 32 r) as [o r1] eqn:E.
    destruct o as [raw|]; [destruct (blen raw =? 32) eqn:El|]; simplify_eq.
    + destruct (Reader_Bytes_inv _ _ _ _ E He) as (a & [= <-] & _ & _ & Hc).
      assert (length raw = 32%nat) by (unfold blen in El; lia).
      split; [by apply hex64_encode|]. cbn [field_bytes]. rewrite hex_decode_encode.
      by replace (blen raw) with 32 in Hc by lia.
    + by apply Reader_fail_err in He.
    + destruct (Reader_Bytes_inv _ _ _ _ E He) as (a & [=] & _).
Qed.

Lemma read_fields_inv ks r fs r' :
  read_fields ks r = (fs, r') -> r_err r' = None ->
  Forall writable fs /\ consumed r r' (fields_bytes fs).
Proof.
  revert r fs r'. induction ks as [|k ks IH]; intros r fs r' H He; cbn [read_fields] in H.
  - simplify_eq. split; [constructor|]. by repeat split.
  - destruct (read_field k r) as [f r1] eqn:E1. destruct (read_fields ks r1) as [gs r2] eqn:E2.
    simplify_eq. destruct (IH _ _ _ E2 He) as [Hw Hc].
    destruct (read_field_inv _ _ _ _ E1) as [Hw1 Hc1]; [by destruct Hc|].
    split; [by constructor|]. unfold fields_bytes. cbn. by eapply consumed_trans.
Qed.

Lemma NewReader_inv domain p :
  r_err (NewReader domain p) = None ->
  r_buffer (NewReader domain p) = p /\
  p = bytes_of_string domain ++ drop (r_offset (NewReader domain p)) p.
Proof.
  unfold NewReader. destruct (_ && _) eqn:E; [|done]. intros _. cbn. split; [done|].
  breflect. set (d := bytes_of_string domain) in *.
  transitivity (take (length d) p ++ drop (length d) p); [by rewrite take_drop|by f_equal].
Qed.

(** A failed read leaves the reader exactly as it was. *)
Lemma Reader_take_latched r n e : r_err r = Some e -> Reader_take r n = (None, r).
Proof. unfold Reader_take. by intros ->. Qed.

Lemma Reader_Bytes_latched m r e : r_err r = Some e -> Reader_Bytes m r = (None, r).
Proof.
  intros H. unfold Reader_Bytes, Reader_Uint32, Reader_Uint.
  rewrite (Reader_take_latched _ _ _ H). by rewrite H.
Qed.

(** ** Properties *)

(** the canonical codec round-trips.  Whatever fields an object type fixes,
    writing them under a domain separator and decoding the preimage with the
    reader, under bounds the fields respect, returns exactly those fields and
    no error. *)
Theorem canon_roundtrip domain ks fs :
  Forall2 field_fits ks fs ->
  exists p, encode_object domain fs = Ok p /\ decode_object domain ks p = Ok fs.
Proof.
  intros H. exists (bytes_of_string domain ++ fields_bytes fs). split.
  - apply encode_object_ok. by eapply Forall2_Forall_r; [|apply Forall_forall; eauto with tosdb].
  - unfold decode_object.
    destruct (read_fields_at (NewReader domain (bytes_of_string domain ++ fields_bytes fs)) ks fs [])
      as (r & -> & He & Ho & Hd); [done|rewrite app_nil_r; apply NewReader_at|].
    unfold Reader_Done. rewrite He. apply (f_equal length) in Hd. rewrite length_drop in Hd.
    cbn in Hd. by rewrite (proj2 (Nat.eqb_eq _ _)) by lia.
Qed.

Definition sample_kinds : list kind := [KText 64; KUint64; KHash32].
Definition sample_hash : string :=
  "00112233445566778899aabbccddeeff00112233445566778899aabbccddeeff".
Definition sample_fields : list field :=
  [FText "hello"; FUint64 7; FHash32 sample_hash].

Lemma canon_roundtrip_witness :
  exists p, encode_object "tos.test.v1" sample_fields = Ok p
    /\ decode_object "tos.test.v1" sample_kinds p = Ok sample_fields.
Proof.
  apply (canon_roundtrip "tos.test.v1" sample_kinds sample_fields).
  repeat constructor; vm_compute; (reflexivity || discriminate).
Defined.

(** decoding is canonical.  A preimage the reader accepts, all fields read
    and no trailing byte, is the one and only preimage those fields are written
    to; two different byte strings never decode to the same object. *)
Theorem canon_decode_unique domain ks p fs :
  decode_object domain ks p = Ok fs -> encode_object domain fs = Ok p.
Proof.
  unfold decode_object. destruct (read_fields ks (NewReader domain p)) as [gs r] eqn:E.
  unfold Reader_Done. destruct (r_err r) eqn:Er; [done|].
  destruct (Nat.eqb_spec (r_offset r) (length (r_buffer r))) as [Ho|]; [|done].
  intros [= <-]. destruct (read_fields_inv _ _ _ _ E Er) as (Hw & He & Hb & Hd).
  rewrite encode_object_ok by done. f_equal.
  destruct (NewReader_inv domain p He) as [Hp Hdom]. rewrite Hp in Hd.
  rewrite Hdom at 1. rewrite Hd. f_equal.
  rewrite (drop_ge p), app_nil_r; [done|]. rewrite Ho, Hb, Hp. lia.
Qed.

Lemma canon_decode_unique_witness :
  encode_object "d" [FText "hi"; FUint32 3]
  = Ok (bytes_of_string "d" ++ [x00; x00; x00; x02; x68; x69; x00; x00; x00; x03]).
Proof.
  apply (canon_decode_unique "d" [KText 8; KUint32]). vm_compute. reflexivity.
Defined.

(** field splits cannot be confused.  Two objects of one type whose
    preimages are equal have equal fields, so a signature or digest over one
    is never a signature or digest over another. *)
Theorem canon_injective domain fs gs p :
  Forall2 same_kind fs gs ->
  encode_object domain fs = Ok p -> encode_object domain gs = Ok p -> fs = gs.
Proof.
  intros H. assert (Forall writable fs /\ Forall writable gs) as [Hf Hg].
  { clear p. induction H as [|f g fs gs Hfg _ [IH1 IH2]]; [done|].
    split; (constructor; [|done]); by destruct f, g; destruct Hfg. }
  rewrite !encode_object_ok by done. intros [= <-] [= E]. apply app_inv_head in E.
  by apply (fields_bytes_inj fs gs [] []); [|rewrite !app_nil_r].
Qed.

Lemma canon_injective_witness : sample_fields = sample_fields.
Proof.
  apply (canon_injective "tos.test.v1" sample_fields sample_fields
    (bytes_of_string "tos.test.v1" ++ fields_bytes sample_fields)).
  - repeat constructor; vm_compute; (reflexivity || discriminate).
  - vm_compute. reflexivity.
  - vm_compute. reflexivity.
Defined.

(** a failed reader is latched.  After any failure every further read
    returns Go's zero value, moves nothing, and [Done] reports the first error,
    so a caller that ignored an error cannot read from a shifted offset. *)
Theorem reader_latched r e :
  r_err r = Some e ->
  (forall n, Reader_take r n = (None, r)) /\
  Reader_Uint8 r = (0, r) /\ Reader_Uint32 r = (0, r) /\ Reader_Uint64 r = (0, r) /\
  (forall m, Reader_Bytes m r = (None, r) /\ Reader_Text m r = (EmptyString, r) /\
             Reader_Count m r = (0, r)) /\
  Reader_Hash32 r = (EmptyString, r) /\ Reader_Done r = Some e.
Proof.
  intros H. pose proof (fun n => Reader_take_latched r n e H) as Ht.
  pose proof (fun m => Reader_Bytes_latched m r e H) as Hb.
  repeat split; intros;
    unfold Reader_Uint8, Reader_Uint32, Reader_Uint64, Reader_Count, Reader_Text, Reader_Hash32,
      Reader_Done, Reader_Uint32, Reader_Uint; rewrite ?Ht, ?Hb, ?H; done.
Qed.

Lemma reader_latched_witness :
  Reader_Done (NewReader "d" [x00]) = Some (NewError "preimage is not in the expected domain").
Proof. apply (reader_latched (NewReader "d" [x00])). vm_compute. reflexivity. Defined.
