(* ===== verification/Files.v ===== *)
(** * Record files: the storage layer of [pkg/eventlog/journal.go]

    Every durable object of the event log is one JSON file of a private
    directory.  A record is created with [O_EXCL] or replaced through a
    temporary file and an atomic rename, and a reader refuses whatever is not a
    regular, private, bounded file.  A directory is a map from file names to
    what is found there, and the outcome of each write, which the operating
    system decides, is an argument of the operation that makes it.

    A record is kept as the value its JSON decodes to: [json.Marshal] and
    [json.Unmarshal] of the record types are inverse to each other on the
    strings that occur (identifiers, digits, base64, all ASCII). *)

From S2P Require Import Prelude.

(** What a directory entry is: a directory; something the reader refuses before
    decoding (not a regular, private, bounded file); a file whose bytes do not
    decode; or a file that decodes to a record. *)
Inductive dirent (A : Type) : Type :=
  | EDir
  | EForeign
  | EJunk
  | ERec (a : A).
Arguments EDir {A}.
Arguments EForeign {A}.
Arguments EJunk {A}.
Arguments ERec {A} a.

Abbreviation directory A := (gmap string (dirent A)) (only parsing).

(** [os.ErrNotExist] and [os.ErrExist] *)
Definition ErrNotExist : error := Sentinel "file does not exist".
Definition ErrExist : error := Sentinel "file already exists".

(** How one [replace] ended: done; failed with the old record in place (the
    bound, the temporary file, its write or the rename); or failed with the new
    record in place (the directory sync after the rename). *)
Inductive write_outcome : Type := WOk | WFailOld | WFailNew.

(** How one exclusive creation ended: done; failed with nothing left behind;
    or failed where removing the file failed too, so that a partial or a whole
    record stays. *)
Inductive create_outcome : Type := COk | CFail | CLeftPartial | CLeftWhole.

Section Directory.
  Context {A : Type}.
  Implicit Types (d : directory A) (name : string) (a : A).

(** [readRecordBytes] and the decoding after it; [undecodable] is the caller's
    error for bytes that do not decode. *)
Definition read_file (undecodable : error) d name : result A :=
  match d !! name with
  | None => Err ErrNotExist
  | Some EDir | Some EForeign => Err (NewError "invalid event journal record")
  | Some EJunk => Err undecodable
  | Some (ERec a) => Ok a
  end.

(** [replace]; renaming a file over a directory fails. *)
Definition file_replace (w : write_outcome) name a d : result unit * directory A :=
  match d !! name with
  | Some EDir => (Err (NewError "commit event transition"), d)
  | _ =>
      match w with
      | WOk => (Ok tt, <[name := ERec a]> d)
      | WFailOld => (Err (NewError "commit event transition"), d)
      | WFailNew => (Err (NewError "sync event journal directory"), <[name := ERec a]> d)
      end
  end.

(** [OpenFile(O_EXCL)], [writeAndSync] and [syncDirectory] *)
Definition file_create (c : create_outcome) name a d : result unit * directory A :=
  match d !! name with
  | Some _ => (Err ErrExist, d)
  | None =>
      match c with
      | COk => (Ok tt, <[name := ERec a]> d)
      | CFail => (Err (NewError "create record"), d)
      | CLeftPartial => (Err (NewError "write event record"), <[name := EJunk]> d)
      | CLeftWhole => (Err (NewError "sync event journal directory"), <[name := ERec a]> d)
      end
  end.

(** [os.ReadDir] lists by file name. *)
Definition dir_names d : list string := sort_strings (elements (dom d)).
Definition is_dir d name : bool :=
  match d !! name with Some EDir => true | _ => false end.

Lemma elem_of_dir_names d name : name ∈ dir_names d <-> is_Some (d !! name).
Proof. unfold dir_names. rewrite sort_strings_perm, elem_of_elements. apply elem_of_dom. Qed.

Lemma NoDup_dir_names d : NoDup (dir_names d).
Proof. unfold dir_names. rewrite sort_strings_perm. apply NoDup_elements. Qed.

Lemma read_file_Ok e d name a : read_file e d name = Ok a <-> d !! name = Some (ERec a).
Proof. unfold read_file. destruct (d !! name) as [[]|]; split; intros; simplify_eq; done. Qed.

Lemma read_file_NotExist e d name :
  e <> ErrNotExist -> (read_file e d name = Err ErrNotExist <-> d !! name = None).
Proof. intros. unfold read_file. destruct (d !! name) as [[]|]; split; intros; simplify_eq; done. Qed.

(** A replacement touches one file, and leaves it as it was or with the new
    record whole. *)
Lemma file_replace_cases w name a d r d' :
  file_replace w name a d = (r, d') ->
  d' = d /\ is_ok r = false \/ d' = <[name := ERec a]> d /\ d !! name <> Some EDir.
Proof.
  unfold file_replace. intros H.
  destruct (d !! name) as [[]|], w; simplify_eq; auto.
Qed.

Lemma file_replace_Ok w name a d r d' :
  file_replace w name a d = (Ok r, d') -> d' = <[name := ERec a]> d.
Proof. unfold file_replace. destruct (d !! name) as [[]|], w; intros; by simplify_eq. Qed.

Lemma file_replace_granted name a d :
  d !! name <> Some EDir -> file_replace WOk name a d = (Ok tt, <[name := ERec a]> d).
Proof. unfold file_replace. by destruct (d !! name) as [[]|]. Qed.

Lemma file_create_old c name a d r d' n e :
  file_create c name a d = (r, d') -> d !! n = Some e -> d' !! n = Some e.
Proof.
  unfold file_create. destruct (d !! name) eqn:Hn; [by intros [= _ <-]|].
  intros H Hl. assert (name <> n) by congruence.
  destruct c; simplify_eq; by rewrite ?lookup_insert_ne.
Qed.
End Directory.

(** [s[n:]] *)
Fixpoint sdrop (n : nat) (s : string) : string :=
  match n, s with
  | O, _ => s
  | S n', String _ s' => sdrop n' s'
  | S _, EmptyString => EmptyString
  end.

Lemma sdrop_app p s : sdrop (String.length p) (p +:+ s) = s.
Proof. induction p as [|c p IH]; [done|]. exact IH. Qed.

(** [filepath.Ext(name) == ".json"] *)
Definition json_name (name : string) : bool :=
  String.eqb (sdrop (String.length name - 5) name) ".json".

Lemma json_name_path s : json_name (s +:+ ".json") = true.
Proof.
  unfold json_name. apply String.eqb_eq.
  replace (String.length (s +:+ ".json") - 5)%nat with (String.length s); [apply sdrop_app|].
  pose proof (slen_app s ".json") as H. unfold slen in H. cbn [String.length] in H. lia.
Qed.
