(* ===== verification/Fault.v ===== *)
(** * Typed failures: [pkg/fault]

    The fixed classification of failure codes ([fault.go]), the retry schedule
    derived from it ([retry.go]) and what a peer may be told ([response.go]).
    The theorems give the schedule in closed form, show that every retry budget
    is spent, and that a hidden code cannot be told apart from any other hidden
    code by looking at the response. *)

From S2P Require Import Prelude.

(** ** Codes and dispositions ([fault.go]) *)

Inductive Disposition : Type := Permanent | Transient | Refresh | DispApproval.

#[global] Instance Disposition_eq_dec : EqDecision Disposition.
Proof. solve_decision. Defined.

(** A [Code] is a Go string; an unclassified one is representable. *)
Abbreviation Code := string (only parsing).

Definition CodeRejected : Code := "rejected".
Definition CodeInternal : Code := "internal".
Definition CodeTimeout : Code := "timeout".
Definition CodeEventOutsideWindow : Code := "event-outside-window".
Definition CodeApprovalRequired : Code := "approval-required".
Definition CodeUnreachable : Code := "unreachable".
Definition CodeQuotaExceeded : Code := "quota-exceeded".

Record spec : Type := Spec {
  disposition : Disposition;
  peerVisible : bool;
  retryHint : bool;
}.

Definition registry_list : list (Code * spec) :=
  [ ("network-mismatch", Spec Permanent true false);
    ("delegation-uncommitted", Spec Refresh true false);
    ("delegation-expired", Spec Refresh true false);
    ("agent-tombstoned", Spec Permanent true false);
    ("device-revoked", Spec Permanent true false);
    ("signature-invalid", Spec Permanent true false);
    ("sender-mismatch", Spec Permanent true false);
    ("descriptor-expired", Spec Refresh true false);
    ("descriptor-unbound", Spec Permanent true false);
    ("locator-stale", Spec Refresh false false);
    ("no-route-advertised", Spec Permanent true false);
    (CodeUnreachable, Spec Transient false false);
    (CodeTimeout, Spec Transient false false);
    ("rate-limited", Spec Transient true true);
    ("oversized", Spec Permanent true false);
    ("not-authentic", Spec Permanent false false);
    ("replayed", Spec Permanent false false);
    ("session-expired", Spec Refresh true false);
    ("suite-unsupported", Spec Permanent true false);
    ("class-not-delegated", Spec Permanent true false);
    ("admission-required", Spec Refresh true true);
    ("unknown-event-kind", Spec Permanent true false);
    ("not-a-room-member", Spec Refresh true false);
    ("content-too-large", Spec Permanent true false);
    ("payload-malformed", Spec Permanent true false);
    (CodeEventOutsideWindow, Spec Permanent true false);
    (CodeApprovalRequired, Spec DispApproval false false);
    ("relay-full", Spec Transient true true);
    ("retention-exceeded", Spec Permanent true false);
    (CodeQuotaExceeded, Spec Transient true true);
    (CodeInternal, Spec Transient false false);
    (CodeRejected, Spec Permanent true false) ]%string.

Definition registry : gmap string spec := list_to_map registry_list.

Definition Known (code : Code) : bool :=
  match registry !! code with Some _ => true | None => false end.

Definition DispositionOf (code : Code) : Disposition :=
  match registry !! code with
  | Some classification => disposition classification
  | None => Permanent
  end.

Definition PeerVisible (code : Code) : bool :=
  match registry !! code with
  | Some classification => peerVisible classification
  | None => false
  end.

(** An error chain as [errors.As] walks it: a [Fault] without or with a cause, a
    wrapper around another error, or a plain error. *)
Inductive chain : Type :=
  | CPlain (msg : string)
  | CWrapped (msg : string) (inner : chain)
  | CFault (code : Code) (detail : string)
  | CFaultOf (code : Code) (detail : string) (cause : chain).

Definition fault_New (code : Code) (detail : string) : chain := CFault code detail.

Fixpoint chain_Error (e : chain) : string :=
  match e with
  | CPlain msg => msg
  | CWrapped msg inner => msg +:+ chain_Error inner
  | CFault code detail | CFaultOf code detail _ =>
      if String.eqb detail "" then code else code +:+ ": " +:+ detail
  end.

Definition fault_Wrap (code : Code) (cause : option chain) : chain :=
  match cause with
  | Some c => CFaultOf code (chain_Error c) c
  | None => CFault code EmptyString
  end.

(** [Of]: the outermost fault of the chain. *)
Fixpoint fault_Of (e : chain) : option (Code * string) :=
  match e with
  | CPlain _ => None
  | CWrapped _ inner => fault_Of inner
  | CFault code detail | CFaultOf code detail _ => Some (code, detail)
  end.

Definition CodeOf (e : chain) : Code :=
  match fault_Of e with
  | Some (code, _) => code
  | None => CodeInternal
  end.

(** ** The retry schedule ([retry.go]); durations are nanoseconds *)

Definition Second : Z := 1000000000.
Definition Minute : Z := 60 * Second.

Definition TransientBase : Z := Second.
Definition TransientCap : Z := 5 * Minute.
Definition TransientAttempts : Z := 8.
Definition RefreshBase : Z := 5 * Second.
Definition RefreshCap : Z := 15 * Minute.
Definition RefreshAttempts : Z := 4.

Record Retry : Type := MkRetry {
  ry_Disposition : Disposition;
  ry_Allowed : bool;
  ry_After : Z;
  ry_Final : bool;
  ry_ResolveFirst : bool;
}.

(** The loop of [backoff]: [n] iterations left. *)
Fixpoint backoff_loop (n : nat) (cap delay : Z) : Z :=
  match n with
  | O => if cap <? delay then cap else delay
  | S n' => if cap / 2 <? delay then cap else backoff_loop n' cap (delay * 2)
  end.

Definition backoff (base cap attempt : Z) : Z :=
  backoff_loop (Z.to_nat (attempt - 1)) cap base.

Definition NextCode (code : Code) (attempt : Z) : Retry :=
  let attempt := if attempt <? 1 then 1 else attempt in
  let d := DispositionOf code in
  match d with
  | Transient =>
      if TransientAttempts <? attempt then MkRetry d false 0 true false
      else MkRetry d true (backoff TransientBase TransientCap attempt) false false
  | Refresh =>
      if RefreshAttempts <? attempt then MkRetry d false 0 true false
      else MkRetry d true (backoff RefreshBase RefreshCap attempt) false true
  | DispApproval => MkRetry d false 0 false false
  | Permanent => MkRetry Permanent false 0 true false
  end.

Definition Next (e : chain) (attempt : Z) : Retry := NextCode (CodeOf e) attempt.

(** ** What a peer is told ([response.go]) *)

Definition MaxRetryAfterSeconds : Z := 24 * 60 * 60.

Record Response : Type := MkResponse {
  rs_Code : Code;
  rs_RetryAfterSeconds : Z;
}.

Definition PeerCode (code : Code) (retryAfterSeconds : Z) : Response :=
  if negb (PeerVisible code) then MkResponse CodeRejected 0 else
  let hint := match registry !! code with Some c => retryHint c | None => false end in
  if negb hint || (retryAfterSeconds =? 0) then MkResponse code 0 else
  if MaxRetryAfterSeconds <? retryAfterSeconds
  then MkResponse code MaxRetryAfterSeconds
  else MkResponse code retryAfterSeconds.

Definition Peer (e : chain) (retryAfterSeconds : Z) : Response :=
  PeerCode (CodeOf e) retryAfterSeconds.

Definition ValidateResponse (response : Response) : result unit :=
  match registry !! rs_Code response with
  | None => Err (NewError "unknown fault code")
  | Some classification =>
      refuse negb (peerVisible classification)
        with NewError "fault code may not be disclosed to a peer";
      refuse negb (rs_RetryAfterSeconds response =? 0) && negb (retryHint classification)
        with NewError "fault code carries no retry hint";
      refuse negb (rs_RetryAfterSeconds response =? 0)
             && (MaxRetryAfterSeconds <? rs_RetryAfterSeconds response)
        with NewError "retry hint exceeds its bound";
      Ok tt
  end.

(** ** Lemmas *)

Lemma backoff_loop_spec n cap delay :
  0 < delay -> delay <= cap -> backoff_loop n cap delay = Z.min cap (delay * 2 ^ Z.of_nat n).
Proof.
  revert delay. induction n as [|n IH]; intros delay H0 Hc; cbn [backoff_loop].
  - destruct (Z.ltb_spec cap delay); lia.
  - rewrite Nat2Z.inj_succ, Z.pow_succ_r by lia.
    assert (1 <= 2 ^ Z.of_nat n) by (pose proof (Z.pow_pos_nonneg 2 (Z.of_nat n)); lia).
    destruct (Z.ltb_spec (cap / 2) delay).
    + assert (cap < delay * 2) by dlia. nia.
    + rewrite IH by dlia. f_equal. lia.
Qed.

Lemma backoff_eq base cap attempt :
  0 < base -> base <= cap -> 1 <= attempt ->
  backoff base cap attempt = Z.min cap (base * 2 ^ (attempt - 1)).
Proof.
  intros. unfold backoff. rewrite backoff_loop_spec by done. by rewrite Z2Nat.id by lia.
Qed.

(** The bounds the schedule of any code respects. *)
Definition max_attempts : Z := Z.max TransientAttempts RefreshAttempts.
Definition max_delay : Z := Z.max TransientCap RefreshCap.

Lemma NextCode_cases code attempt :
  let a := Z.max 1 attempt in
  NextCode code attempt =
  match DispositionOf code with
  | Transient =>
      if a <=? TransientAttempts
      then MkRetry Transient true (Z.min TransientCap (TransientBase * 2 ^ (a - 1))) false false
      else MkRetry Transient false 0 true false
  | Refresh =>
      if a <=? RefreshAttempts
      then MkRetry Refresh true (Z.min RefreshCap (RefreshBase * 2 ^ (a - 1))) false true
      else MkRetry Refresh false 0 true false
  | DispApproval => MkRetry DispApproval false 0 false false
  | Permanent => MkRetry Permanent false 0 true false
  end.
Proof.
  intros a. assert (1 <= a) as Ha by lia. unfold NextCode.
  replace (if attempt <? 1 then 1 else attempt) with a
    by (subst a; destruct (Z.ltb_spec attempt 1); lia).
  clearbody a. destruct (DispositionOf code); try done; rewrite Z.ltb_antisym;
    destruct (a <=? _); cbn [negb]; try done;
    (rewrite backoff_eq; [done|vm_compute; reflexivity|vm_compute; discriminate|done]).
Qed.

Lemma PeerCode_visible_known code : PeerVisible code = true -> Known code = true.
Proof. unfold PeerVisible, Known. by destruct (registry !! code). Qed.

Lemma CodeRejected_spec : registry !! CodeRejected = Some (Spec Permanent true false).
Proof. vm_compute. reflexivity. Qed.

Lemma ValidateResponse_ok r c :
  registry !! rs_Code r = Some c -> peerVisible c = true ->
  (rs_RetryAfterSeconds r = 0 \/
   retryHint c = true /\ rs_RetryAfterSeconds r <= MaxRetryAfterSeconds) ->
  ValidateResponse r = Ok tt.
Proof.
  intros Hr Hv Hh. unfold ValidateResponse. rewrite Hr, Hv. cbn [negb].
  destruct Hh as [->|[-> Hle]]; [done|]. cbn [negb]. rewrite andb_false_r.
  by rewrite (proj2 (Z.ltb_ge _ _)), andb_false_r by done.
Qed.

(** ** Properties *)

(** the backoff is a capped doubling.  From a positive base no larger than
    the cap, the delay before attempt [n] is [min cap (base * 2^(n-1))]: it is
    positive, never exceeds the cap and never shrinks as attempts go on. *)
Theorem backoff_capped_doubling base cap attempt :
  0 < base -> base <= cap -> 1 <= attempt ->
  backoff base cap attempt = Z.min cap (base * 2 ^ (attempt - 1)) /\
  0 < backoff base cap attempt <= cap /\
  backoff base cap attempt <= backoff base cap (attempt + 1).
Proof.
  intros Hb Hc Ha. rewrite !backoff_eq by lia.
  assert (0 < 2 ^ (attempt - 1)) by (apply Z.pow_pos_nonneg; lia).
  replace (attempt + 1 - 1) with (Z.succ (attempt - 1)) by lia.
  rewrite Z.pow_succ_r by lia. split; [done|]. split; nia.
Qed.

Lemma backoff_capped_doubling_witness : backoff RefreshBase RefreshCap 4 = 40 * Second.
Proof.
  pose proof (backoff_capped_doubling RefreshBase RefreshCap 4 ltac:(vm_compute; reflexivity)
    ltac:(vm_compute; discriminate) ltac:(lia)) as [-> _]. vm_compute. reflexivity.
Defined.

(** every retry budget is spent.  For any code, classified or not, a timed
    retry is allowed only within the attempt budget of its class, always with a
    positive delay bounded by the largest cap; past [max_attempts] no code is
    retried on a timer; an allowed retry is never also final; and only a code
    waiting on an owner's decision is neither allowed nor final. *)
Theorem retry_budget_spent code attempt :
  let r := NextCode code attempt in
  (ry_Allowed r = true ->
     attempt <= max_attempts /\ 0 < ry_After r <= max_delay /\ ry_Final r = false) /\
  (max_attempts < attempt -> ry_Allowed r = false) /\
  (ry_Allowed r = false -> ry_Final r = false -> DispositionOf code = DispApproval) /\
  (ry_ResolveFirst r = true -> DispositionOf code = Refresh).
Proof.
  intros r. subst r. rewrite NextCode_cases.
  assert (0 < 2 ^ (Z.max 1 attempt - 1)) by (apply Z.pow_pos_nonneg; lia).
  unfold max_attempts, max_delay, TransientAttempts, RefreshAttempts, TransientCap, RefreshCap,
    TransientBase, RefreshBase, Minute, Second.
  destruct (DispositionOf code); cbn; repeat split; intros; try done; try lia;
    match goal with H : context [Z.max 1 attempt <=? ?k] |- _ =>
      destruct (Z.leb_spec (Z.max 1 attempt) k)
    | |- context [Z.max 1 attempt <=? ?k] => destruct (Z.leb_spec (Z.max 1 attempt) k)
    end; cbn in *; try done; try lia.
Qed.

(** hidden failures are indistinguishable.  What a peer is told about any
    two failures whose codes are not peer-visible is the same response,
    whatever the codes, the details, the causes and the retry hints were; and a
    response never names a code that is not peer-visible. *)
Theorem peer_hidden_uniform e1 e2 n1 n2 :
  PeerVisible (CodeOf e1) = false -> PeerVisible (CodeOf e2) = false ->
  Peer e1 n1 = Peer e2 n2 /\ PeerVisible (rs_Code (Peer e1 n1)) = true.
Proof.
  intros H1 H2. unfold Peer, PeerCode. rewrite H1, H2. split; [done|]. vm_compute. reflexivity.
Qed.

Lemma peer_hidden_uniform_witness :
  Peer (fault_New "replayed" "seen before") 30
  = Peer (CWrapped "send: " (fault_Wrap "not-authentic" (Some (CPlain "bad tag")))) 0.
Proof.
  apply (peer_hidden_uniform (fault_New "replayed" "seen before")
    (CWrapped "send: " (fault_Wrap "not-authentic" (Some (CPlain "bad tag")))) 30 0);
    vm_compute; reflexivity.
Defined.

(** every response this build produces is one this build accepts: whatever
    the failure and the (32-bit) hint, [ValidateResponse] passes, and a hint is
    carried only by a code for which waiting is the remedy, never above a day. *)
Theorem peer_response_valid e n :
  0 <= n ->
  ValidateResponse (Peer e n) = Ok tt /\ 0 <= rs_RetryAfterSeconds (Peer e n) <= MaxRetryAfterSeconds.
Proof.
  intros Hn. assert (0 <= MaxRetryAfterSeconds) by (vm_compute; discriminate). unfold Peer, PeerCode.
  destruct (PeerVisible (CodeOf e)) eqn:Ev; cbn [negb].
  - unfold PeerVisible in Ev. destruct (registry !! CodeOf e) as [c|] eqn:Ec; [|done].
    destruct (negb (retryHint c) || (n =? 0)) eqn:Eh.
    { split; [eapply ValidateResponse_ok; eauto|cbn [rs_RetryAfterSeconds]; lia]. }
    breflect. destruct (Z.ltb_spec MaxRetryAfterSeconds n);
      (split; [eapply ValidateResponse_ok; eauto|]); cbn [rs_RetryAfterSeconds]; auto with lia; lia.
  - split; [|cbn [rs_RetryAfterSeconds]; lia].
    eapply ValidateResponse_ok; [apply CodeRejected_spec|done|by left].
Qed.

Lemma peer_response_valid_witness :
  ValidateResponse (Peer (fault_New "rate-limited" "slow down") 4000000000) = Ok tt.
Proof. apply (peer_response_valid (fault_New "rate-limited" "slow down") 4000000000). lia. Defined.
