(* ===== verification/Money.v ===== *)
(** * Networks, assets and exact amounts: [pkg/negotiation/network.go] and
    [money.go]

    An amount is a canonical decimal string of atomic units of one asset, and an
    asset is a contract on one network.  The file models validation, comparison,
    addition, canonical encoding and rendering, and proves that the decimal
    form is exact: one value has one spelling, and comparison and addition are
    those of the integers. *)

From S2P Require Import Prelude Encoding Canon.

(** ** Networks ([network.go]) *)

Record Network : Type := MkNetwork {
  nw_ID : string;
  nw_GenesisRootHash : string;
  nw_GenesisFileHash : string;
}.

#[global] Instance Network_eq_dec : EqDecision Network.
Proof. solve_decision. Defined.

(** The three fields of the protocol's [NetworkDomain] message that are read
    here; the Go pointer is an [option]. *)
Record NetworkDomain : Type := MkNetworkDomain {
  nd_NetworkId : string;
  nd_GenesisRootHash : string;
  nd_GenesisFileHash : string;
}.

#[global] Instance NetworkDomain_eq_dec : EqDecision NetworkDomain.
Proof. solve_decision. Defined.

Definition Network_Validate (n : Network) : result unit :=
  refuse String.eqb (nw_ID n) "" || (128 <? slen (nw_ID n))
         || negb (HashPattern (nw_GenesisRootHash n)) || negb (HashPattern (nw_GenesisFileHash n))
    with NewError "invalid network identity";
  Ok tt.

Definition Network_Same (n other : Network) : bool :=
  String.eqb (nw_ID n) (nw_ID other)
  && String.eqb (nw_GenesisRootHash n) (nw_GenesisRootHash other)
  && String.eqb (nw_GenesisFileHash n) (nw_GenesisFileHash other).

Definition Network_canonical (n : Network) (buffer : bytes) : result bytes :=
  let buffer := canon_Text buffer (nw_ID n) in
  let* buffer := canon_Hash32 buffer (nw_GenesisRootHash n) in
  let* buffer := canon_Hash32 buffer (nw_GenesisFileHash n) in
  Ok buffer.

Definition NetworkFromDomain (domain : option NetworkDomain) : result Network :=
  match domain with
  | None => Err (NewError "no network domain")
  | Some d =>
      let network := MkNetwork (nd_NetworkId d) (nd_GenesisRootHash d) (nd_GenesisFileHash d) in
      call Network_Validate network;
      Ok network
  end.

(** ** Assets ([money.go]) *)

Definition MaxDecimals : Z := 36.

Definition accountPattern (s : string) : bool := hex64 s.
Definition codeHashRegexp (s : string) : bool := prefixed_hex64 "tvm-cell-sha256:" s.

(** [^(0|[1-9][0-9]{0,77})$] *)
Definition atomicPattern (s : string) : bool :=
  match list_ascii_of_string s with
  | [] => false
  | c :: rest =>
      if Ascii.eqb c "0" then bool_decide (rest = [])
      else is_digit c && forallb is_digit rest && (Z.of_nat (length rest) <=? 77)
  end.

Record Asset : Type := MkAsset {
  a_Network : Network;
  a_Workchain : Z;
  a_AccountID : string;
  a_MasterCodeHash : string;
  a_WalletCodeHash : string;
  a_Decimals : Z;
}.

#[global] Instance Asset_eq_dec : EqDecision Asset.
Proof. solve_decision. Defined.

Definition Asset_Validate (a : Asset) : result unit :=
  refuse negb (is_ok (Network_Validate (a_Network a))) with NewError "asset names no network";
  refuse (a_Workchain a <? -128) || (127 <? a_Workchain a)
    with NewError "asset workchain is outside the addressable range";
  refuse negb (accountPattern (a_AccountID a)) with NewError "asset names no master contract account";
  refuse negb (codeHashRegexp (a_MasterCodeHash a)) with NewError "asset names no master code hash";
  refuse negb (codeHashRegexp (a_WalletCodeHash a)) with NewError "asset names no wallet code hash";
  refuse MaxDecimals <? a_Decimals a with NewError "asset precision exceeds its bound";
  Ok tt.

Definition Asset_Same (a other : Asset) : bool :=
  Network_Same (a_Network a) (a_Network other)
  && (a_Workchain a =? a_Workchain other) && String.eqb (a_AccountID a) (a_AccountID other)
  && String.eqb (a_MasterCodeHash a) (a_MasterCodeHash other)
  && String.eqb (a_WalletCodeHash a) (a_WalletCodeHash other)
  && (a_Decimals a =? a_Decimals other).

Definition Asset_canonical (a : Asset) (buffer : bytes) : result bytes :=
  let* buffer := Network_canonical (a_Network a) buffer in
  let buffer := canon_Uint32 buffer (u32 (a_Workchain a)) in
  let buffer := canon_Text buffer (a_AccountID a) in
  let buffer := canon_Text buffer (a_MasterCodeHash a) in
  let buffer := canon_Text buffer (a_WalletCodeHash a) in
  let buffer := canon_Uint32 buffer (a_Decimals a) in
  Ok buffer.

(** The package's own hex decoder. *)
Definition hexDigit (character : ascii) : Z :=
  if is_digit character then code character - 48
  else if in_range "a" "f" character then code character - 97 + 10
  else -1.

Fixpoint decodeHex (value : string) : result bytes :=
  match value with
  | String h (String l rest) =>
      let high := hexDigit h in
      let low := hexDigit l in
      refuse (high <? 0) || (low <? 0) with NewError "invalid hex value";
      let* raw := decodeHex rest in
      Ok (byte_of_Z (Z.lor (Z.shiftl high 4) low) :: raw)
  | _ => Ok []
  end.

(** The protocol form of an asset identity. *)
Record TOSAssetIdentityV1 : Type := MkAssetIdentity {
  ai_Workchain : Z;
  ai_AccountId : bytes;
  ai_CodeHash : string;
  ai_WalletCodeHash : string;
  ai_Decimals : Z;
}.

Definition Asset_Proto (a : Asset) : result TOSAssetIdentityV1 :=
  call Asset_Validate a;
  let* account := decodeHex (a_AccountID a) in
  Ok (MkAssetIdentity (a_Workchain a) account (a_MasterCodeHash a)
        (a_WalletCodeHash a) (a_Decimals a)).

(** ** Amounts ([money.go]) *)

Record Money : Type := MkMoney {
  mo_Asset : Asset;
  mo_Atomic : string;
}.

#[global] Instance Money_eq_dec : EqDecision Money.
Proof. solve_decision. Defined.

Definition Money_Validate (m : Money) : result unit :=
  call Asset_Validate (mo_Asset m);
  refuse negb (atomicPattern (mo_Atomic m))
    with NewError "an amount must be a canonical decimal count of atomic units";
  Ok tt.

(** [atomic] is the [*big.Int], [None] for a nil pointer. *)
Definition NewMoney (asset : Asset) (atomic : option Z) : result Money :=
  match atomic with
  | None => Err (NewError "an amount cannot be negative or absent")
  | Some n =>
      refuse n <? 0 with NewError "an amount cannot be negative or absent";
      let value := MkMoney asset (decimal_string n) in
      call Money_Validate value;
      Ok value
  end.

Definition Money_Int (m : Money) : result Z :=
  call Money_Validate m;
  match parse_decimal (mo_Atomic m) with
  | Some n => Ok n
  | None => Err (NewError "invalid atomic amount")
  end.

Definition Money_SameAsset (m other : Money) : bool := Asset_Same (mo_Asset m) (mo_Asset other).

Definition Money_AtMost (m ceiling : Money) : result bool :=
  refuse negb (Money_SameAsset m ceiling)
    with NewError "amounts of different assets are not comparable";
  let* lhs := Money_Int m in
  let* rhs := Money_Int ceiling in
  Ok (lhs <=? rhs).

Definition Money_Add (m other : Money) : result Money :=
  refuse negb (Money_SameAsset m other)
    with NewError "amounts of different assets cannot be added";
  let* lhs := Money_Int m in
  let* rhs := Money_Int other in
  NewMoney (mo_Asset m) (Some (lhs + rhs)).

Definition Money_Equal (m other : Money) : bool :=
  Money_SameAsset m other && String.eqb (mo_Atomic m) (mo_Atomic other).

Definition Money_Zero (m : Money) : Money := MkMoney (mo_Asset m) "0".

Definition Money_canonical (m : Money) (buffer : bytes) : result bytes :=
  let* buffer := Asset_canonical (mo_Asset m) buffer in
  Ok (canon_Text buffer (mo_Atomic m)).

(** ** Rendering ([Money.String]) *)

Definition trim_right_zeros (l : list ascii) : list ascii :=
  let fix go (l : list ascii) : list ascii :=
    match l with
    | c :: l' => if Ascii.eqb c "0" then go l' else l
    | [] => []
    end in
  rev (go (rev l)).

(** [for uint32(len(digits)) <= Decimals { digits = "0" + digits }] *)
Fixpoint pad_zeros (fuel : nat) (decimals : Z) (digits : list ascii) : list ascii :=
  match fuel with
  | O => digits
  | S f => if Z.of_nat (length digits) <=? decimals
           then pad_zeros f decimals ("0"%char :: digits) else digits
  end.

(** [None] when the slice [AccountID[:8]] is out of range, which panics. *)
Definition account_tag (a : Asset) : option string :=
  if 8 <=? slen (a_AccountID a)
  then Some (" (" +:+ String.substring 0 8 (a_AccountID a) +:+ ")") else None.

Definition Money_String (m : Money) : option string :=
  match account_tag (mo_Asset m) with
  | None => None
  | Some tag =>
      let decimals := a_Decimals (mo_Asset m) in
      if decimals =? 0 then Some (mo_Atomic m +:+ tag) else
      let digits := pad_zeros (S (Z.to_nat decimals)) decimals (list_ascii_of_string (mo_Atomic m)) in
      let split := Z.to_nat (Z.of_nat (length digits) - decimals) in
      let whole := string_of_list_ascii (take split digits) in
      let fraction := trim_right_zeros (drop split digits) in
      Some (match fraction with
            | [] => whole +:+ tag
            | _ => whole +:+ "." +:+ string_of_list_ascii fraction +:+ tag
            end)
  end.

(** ** Canonical field lists *)

Definition Network_fields (n : Network) : list field :=
  [FText (nw_ID n); FHash32 (nw_GenesisRootHash n); FHash32 (nw_GenesisFileHash n)].

Definition Asset_fields (a : Asset) : list field :=
  Network_fields (a_Network a) ++
  [FUint32 (u32 (a_Workchain a)); FText (a_AccountID a); FText (a_MasterCodeHash a);
   FText (a_WalletCodeHash a); FUint32 (a_Decimals a)].

Definition Money_fields (m : Money) : list field :=
  Asset_fields (mo_Asset m) ++ [FText (mo_Atomic m)].

(** The widths Go's types give the integer fields. *)
Definition Asset_typed (a : Asset) : Prop :=
  - 2 ^ 31 <= a_Workchain a < 2 ^ 31 /\ is_u32 (a_Decimals a).
Definition Money_typed (m : Money) : Prop := Asset_typed (mo_Asset m).

Lemma Network_canonical_fields n buffer :
  Network_canonical n buffer = write_fields buffer (Network_fields n).
Proof.
  unfold Network_canonical. cbn [Network_fields write_fields write_field].
  destruct (canon_Hash32 _ (nw_GenesisRootHash n)); [|done].
  by destruct (canon_Hash32 _ (nw_GenesisFileHash n)).
Qed.

Lemma write_fields_app buffer fs gs :
  write_fields buffer (fs ++ gs) = (let* b := write_fields buffer fs in write_fields b gs).
Proof.
  revert buffer. induction fs as [|f fs IH]; intros buffer; [done|].
  cbn [write_fields app]. destruct (write_field buffer f); [apply IH|done].
Qed.

Lemma Asset_canonical_fields a buffer :
  Asset_canonical a buffer = write_fields buffer (Asset_fields a).
Proof.
  unfold Asset_canonical, Asset_fields. rewrite write_fields_app, Network_canonical_fields.
  by destruct (write_fields buffer (Network_fields (a_Network a))).
Qed.

Lemma Money_canonical_fields m buffer :
  Money_canonical m buffer = write_fields buffer (Money_fields m).
Proof.
  unfold Money_canonical, Money_fields. rewrite write_fields_app, Asset_canonical_fields.
  by destruct (write_fields buffer (Asset_fields (mo_Asset m))).
Qed.

(** ** Identity *)

Lemma Network_Same_eq n n' : Network_Same n n' = true <-> n = n'.
Proof.
  unfold Network_Same. destruct n, n'; cbn. rewrite !andb_true_iff, !String.eqb_eq.
  split; [by intros [[-> ->] ->]|by intros [= -> -> ->]].
Qed.

Lemma Asset_Same_eq a a' : Asset_Same a a' = true <-> a = a'.
Proof.
  unfold Asset_Same. destruct a, a'; cbn.
  rewrite !andb_true_iff, !String.eqb_eq, !Z.eqb_eq, Network_Same_eq.
  split; [by intros [[[[[-> ->] ->] ->] ->] ->]|by intros [= -> -> -> -> -> ->]].
Qed.

Lemma Money_Equal_eq m m' : Money_Equal m m' = true <-> m = m'.
Proof.
  unfold Money_Equal, Money_SameAsset. destruct m, m'; cbn.
  rewrite andb_true_iff, Asset_Same_eq, String.eqb_eq.
  split; [by intros [-> ->]|by intros [= -> ->]].
Qed.

(** ** The decimal form is exact *)

Lemma atomicPattern_canonical s :
  atomicPattern s = true <->
  canonical_digits (list_ascii_of_string s) /\ (length (list_ascii_of_string s) <= 78)%nat.
Proof.
  unfold atomicPattern, canonical_digits. destruct (list_ascii_of_string s) as [|c l]; cbn [forallb length].
  { split; [done|]. intros [[_ [|(?&?&?&_)]] _]; done. }
  destruct (Ascii.eqb_spec c "0") as [->|Hc].
  - rewrite bool_decide_eq_true. split.
    + intros ->. repeat split; [by left|cbn; lia].
    + intros [[_ [[= ->]|(c & l' & [= <- <-] & H)]] _]; [done|]. by contradict H.
  - rewrite !andb_true_iff, Z.leb_le. split.
    + intros [[H1 H2] H3]. repeat split; [done..| |lia]. right. eexists _, _. split; [done|].
      intros H0. apply Hc. apply is_digit_inv in H1 as [_ H1]. by rewrite <- H1, H0.
    + intros [[[H1 H2] _] H3]. repeat split; [done..|lia].
Qed.

(** The pattern accepts exactly the decimal spellings of counts below 10^78. *)
Lemma atomicPattern_spec s :
  atomicPattern s = true <-> exists n, 0 <= n < 10 ^ 78 /\ s = decimal_string n.
Proof.
  rewrite atomicPattern_canonical. split.
  - intros [Hc Hl]. pose proof (decimal_string_value s Hc) as Hs.
    assert (0 <= decimal_value (list_ascii_of_string s)) as Hnn by apply decimal_value_nonneg, Hc.
    eexists. split; [|symmetry; exact Hs]. split; [done|].
    rewrite <- Hs in Hl. unfold decimal_string in Hl.
    rewrite list_ascii_of_string_of_list_ascii in Hl.
    apply length_decimal_digits in Hl; [exact Hl|by apply decimal_fuel_enough|lia].
  - intros (n & Hn & ->). unfold decimal_string. rewrite list_ascii_of_string_of_list_ascii.
    pose proof (decimal_fuel_enough n ltac:(lia)) as Hf.
    split; [by apply canonical_decimal_digits|].
    apply length_decimal_digits; [done|lia|]. apply Hn.
Qed.

Lemma atomicPattern_decimal n : 0 <= n -> atomicPattern (decimal_string n) = (n <? 10 ^ 78).
Proof.
  intros Hn. destruct (Z.ltb_spec n (10 ^ 78)) as [Hlt|Hge].
  - apply atomicPattern_spec. eauto.
  - apply not_true_iff_false. intros (k & Hk & E)%atomicPattern_spec.
    apply (f_equal parse_decimal) in E. rewrite !parse_decimal_string in E by lia.
    injection E as ->. lia.
Qed.

Lemma Money_Validate_inv m :
  Money_Validate m = Ok tt -> Asset_Validate (mo_Asset m) = Ok tt /\ atomicPattern (mo_Atomic m) = true.
Proof.
  unfold Money_Validate. intros H. inv_ok H. breflect. split; [|done].
  by destruct a.
Qed.

Lemma Money_Int_Ok m n :
  Money_Int m = Ok n ->
  Money_Validate m = Ok tt /\ 0 <= n < 10 ^ 78 /\ mo_Atomic m = decimal_string n.
Proof.
  unfold Money_Int. intros H. inv_ok H. destruct a. injection H as <-.
  split; [done|]. destruct (Money_Validate_inv m) as [_ Hp]; [done|].
  apply atomicPattern_spec in Hp as (k & Hk & E). rewrite E in *.
  rewrite parse_decimal_string in * by lia. simplify_eq. done.
Qed.

Lemma Money_Int_valid m : Money_Validate m = Ok tt -> exists n, Money_Int m = Ok n.
Proof.
  intros H. destruct (Money_Validate_inv m H) as [_ Hp].
  unfold Money_Int. rewrite H. apply atomicPattern_spec in Hp as (k & Hk & ->).
  rewrite parse_decimal_string by lia. eauto.
Qed.

Lemma Money_Int_build a n :
  Asset_Validate a = Ok tt -> 0 <= n < 10 ^ 78 -> Money_Int (MkMoney a (decimal_string n)) = Ok n.
Proof.
  intros Ha Hn. unfold Money_Int, Money_Validate. cbn [mo_Asset mo_Atomic].
  rewrite Ha, atomicPattern_decimal by lia. rewrite (proj2 (Z.ltb_lt _ _)) by apply Hn. cbn [negb].
  by rewrite parse_decimal_string by lia.
Qed.

Lemma Money_Int_inj m m' n :
  Money_Int m = Ok n -> Money_Int m' = Ok n -> mo_Asset m = mo_Asset m' -> m = m'.
Proof.
  intros (_ & _ & H1)%Money_Int_Ok (_ & _ & H2)%Money_Int_Ok H. destruct m, m'; cbn in *. congruence.
Qed.

Lemma Money_AtMost_Ok m c b :
  Money_AtMost m c = Ok b ->
  mo_Asset m = mo_Asset c /\
  exists x y, Money_Int m = Ok x /\ Money_Int c = Ok y /\ b = (x <=? y).
Proof.
  unfold Money_AtMost. intros H. inv_ok H. breflect. injection H as <-.
  split; [by apply Asset_Same_eq|eauto 6].
Qed.

Lemma Money_AtMost_compute m c x y :
  mo_Asset m = mo_Asset c -> Money_Int m = Ok x -> Money_Int c = Ok y ->
  Money_AtMost m c = Ok (x <=? y).
Proof.
  intros Ha Hx Hy. unfold Money_AtMost, Money_SameAsset.
  rewrite (proj2 (Asset_Same_eq _ _)) by done. cbn [negb]. by rewrite Hx, Hy.
Qed.

Lemma Money_Add_Ok m o r :
  Money_Add m o = Ok r ->
  mo_Asset m = mo_Asset o /\ mo_Asset r = mo_Asset m /\
  exists x y, Money_Int m = Ok x /\ Money_Int o = Ok y /\ Money_Int r = Ok (x + y).
Proof.
  unfold Money_Add, NewMoney. intros H. inv_ok H. breflect. simplify_eq.
  split; [by apply Asset_Same_eq|]. split; [done|]. eexists _, _. split_and!; [done..|].
  unfold Money_Int at 1. rewrite Heqr2. cbn [mo_Atomic].
  by rewrite parse_decimal_string by lia.
Qed.

Lemma Money_Add_compute m o x y :
  mo_Asset m = mo_Asset o -> Money_Int m = Ok x -> Money_Int o = Ok y ->
  Money_Add m o =
    if x + y <? 10 ^ 78 then Ok (MkMoney (mo_Asset m) (decimal_string (x + y)))
    else Err (NewError "an amount must be a canonical decimal count of atomic units").
Proof.
  intros Ha Hx Hy. unfold Money_Add, Money_SameAsset.
  rewrite (proj2 (Asset_Same_eq _ _)) by done. cbn [negb]. rewrite Hx, Hy.
  apply Money_Int_Ok in Hx as (Hv & Hx & _). apply Money_Int_Ok in Hy as (_ & Hy & _).
  apply Money_Validate_inv in Hv as [Hv _].
  unfold NewMoney, Money_Validate. cbn [mo_Asset mo_Atomic]. rewrite Hv.
  rewrite (proj2 (Z.ltb_ge _ _)) by lia. rewrite atomicPattern_decimal by lia.
  by destruct (x + y <? 10 ^ 78).
Qed.

(** ** Rendering drops no digit *)

Lemma decimal_value_acc l acc :
  fold_left (fun a c => a * 10 + digit_val c) l acc
  = acc * 10 ^ Z.of_nat (length l) + decimal_value l.
Proof.
  unfold decimal_value. revert acc. induction l as [|c l IH]; intros acc; cbn [fold_left length].
  - rewrite Z.mul_1_r. lia.
  - rewrite IH, (IH (0 * 10 + digit_val c)), Nat2Z.inj_succ, Z.pow_succ_r by lia. lia.
Qed.

Lemma decimal_value_app a b :
  decimal_value (a ++ b) = decimal_value a * 10 ^ Z.of_nat (length b) + decimal_value b.
Proof. unfold decimal_value. by rewrite fold_left_app, decimal_value_acc. Qed.

Lemma decimal_value_zeros n : decimal_value (replicate n "0"%char) = 0.
Proof. induction n as [|n IH]; [done|]. apply IH. Qed.

Lemma pad_zeros_value fuel d l :
  decimal_value (pad_zeros fuel d l) = decimal_value l.
Proof.
  revert l. induction fuel as [|fuel IH]; intros l; [done|]. cbn [pad_zeros].
  destruct (_ <=? d); [|done]. rewrite IH.
  change ("0"%char :: l) with (["0"%char] ++ l). by rewrite decimal_value_app.
Qed.

Lemma pad_zeros_length fuel d l :
  d < Z.of_nat (length l) + Z.of_nat fuel -> d < Z.of_nat (length (pad_zeros fuel d l)).
Proof.
  revert l. induction fuel as [|fuel IH]; intros l H; cbn [pad_zeros]; [lia|].
  destruct (Z.leb_spec (Z.of_nat (length l)) d); [|lia]. apply IH. cbn [length]. lia.
Qed.

Lemma trim_right_zeros_spec l :
  exists k, l = trim_right_zeros l ++ replicate k "0"%char.
Proof.
  induction l as [|c l IH] using rev_ind; [by exists 0%nat|].
  unfold trim_right_zeros in *. rewrite rev_app_distr. cbn [rev app].
  destruct (Ascii.eqb_spec c "0") as [->|].
  - destruct IH as [k IH]. exists (S k). by rewrite replicate_S_end, app_assoc, <- IH.
  - exists 0%nat. cbn. by rewrite rev_involutive, app_nil_r.
Qed.

(** ** Properties *)

(** an amount is exact.  A valid amount denotes one count of atomic units
    below 10^78, rebuilding an amount from that count gives the same string
    back, and two amounts of one asset with the same count are the same value,
    so one price has one digest. *)
Theorem money_int_exact m :
  Money_Validate m = Ok tt ->
  exists n, Money_Int m = Ok n /\ 0 <= n < 10 ^ 78 /\ NewMoney (mo_Asset m) (Some n) = Ok m /\
    forall m', mo_Asset m' = mo_Asset m -> Money_Int m' = Ok n -> m' = m.
Proof.
  intros Hv. destruct (Money_Int_valid m Hv) as [n Hn]. exists n. split; [done|].
  pose proof (Money_Int_Ok _ _ Hn) as (_ & Hr & Hs). split; [done|]. split.
  - unfold NewMoney. rewrite (proj2 (Z.ltb_ge _ _)) by lia. rewrite <- Hs.
    destruct m; cbn in *. by rewrite Hv.
  - intros m' Ha Hm'. by apply (Money_Int_inj m' m n).
Qed.

Definition sample_network : Network := MkNetwork "tos-local" sample_hash sample_hash.
Definition sample_asset : Asset :=
  MkAsset sample_network 0 sample_hash ("tvm-cell-sha256:" +:+ sample_hash)
    ("tvm-cell-sha256:" +:+ sample_hash) 6.
Definition sample_money (n : Z) : Money := MkMoney sample_asset (decimal_string n).

Lemma money_int_exact_witness :
  exists n, Money_Int (sample_money 1500000) = Ok n /\ 0 <= n < 10 ^ 78 /\
    NewMoney (mo_Asset (sample_money 1500000)) (Some n) = Ok (sample_money 1500000) /\
    forall m', mo_Asset m' = mo_Asset (sample_money 1500000) -> Money_Int m' = Ok n ->
      m' = sample_money 1500000.
Proof. apply (money_int_exact (sample_money 1500000)). vm_compute. reflexivity. Defined.

(** comparison and addition are those of the integers.  On two valid
    amounts of one asset, [AtMost] answers whether one count is at most the
    other, and [Add] returns the exact sum, or refuses when the sum no longer
    fits the 78 digits an amount may have; amounts of different assets are
    refused by both. *)
Theorem money_arithmetic_exact m o :
  Money_Validate m = Ok tt -> Money_Validate o = Ok tt ->
  (mo_Asset m <> mo_Asset o ->
     is_ok (Money_AtMost m o) = false /\ is_ok (Money_Add m o) = false) /\
  (mo_Asset m = mo_Asset o ->
     exists x y, Money_Int m = Ok x /\ Money_Int o = Ok y /\
       Money_AtMost m o = Ok (x <=? y) /\
       (x + y < 10 ^ 78 -> exists r, Money_Add m o = Ok r /\ mo_Asset r = mo_Asset m
                                   /\ Money_Int r = Ok (x + y)) /\
       (10 ^ 78 <= x + y -> is_ok (Money_Add m o) = false)).
Proof.
  intros Hm Ho. split; intros Ha.
  - assert (Money_SameAsset m o = false) as Hs.
    { apply not_true_iff_false. by intros H%Asset_Same_eq. }
    unfold Money_AtMost, Money_Add. by rewrite Hs.
  - destruct (Money_Int_valid m Hm) as [x Hx]. destruct (Money_Int_valid o Ho) as [y Hy].
    exists x, y. split_and!; [done..|by apply Money_AtMost_compute| |];
      intros Hb; rewrite (Money_Add_compute m o x y) by done.
    + rewrite (proj2 (Z.ltb_lt _ _)) by done. eexists. split_and!; [done..|].
      apply Money_Validate_inv in Hm as [Hm _]. apply Money_Int_Ok in Hx. apply Money_Int_Ok in Hy.
      apply Money_Int_build; [done|lia].
    + by rewrite (proj2 (Z.ltb_ge _ _)) by done.
Qed.

Lemma money_arithmetic_exact_witness :
  exists x y, Money_Int (sample_money 5) = Ok x /\ Money_Int (sample_money 7) = Ok y /\
    Money_AtMost (sample_money 5) (sample_money 7) = Ok (x <=? y) /\
    (x + y < 10 ^ 78 -> exists r, Money_Add (sample_money 5) (sample_money 7) = Ok r /\
       mo_Asset r = mo_Asset (sample_money 5) /\ Money_Int r = Ok (x + y)) /\
    (10 ^ 78 <= x + y -> is_ok (Money_Add (sample_money 5) (sample_money 7)) = false).
Proof.
  apply (money_arithmetic_exact (sample_money 5) (sample_money 7));
    [vm_compute; reflexivity|vm_compute; reflexivity|reflexivity].
Defined.

(** what a person is shown is the amount.  For a valid amount whose asset
    declares [d] decimals, the rendering succeeds and splits the count into a
    whole part and a fraction of at most [d] digits without changing its
    value: padding and trimming zeros lose nothing. *)
Theorem money_render_exact m n :
  Money_Int m = Ok n -> 0 < a_Decimals (mo_Asset m) ->
  exists whole fraction zeros,
    Money_String m = Some (string_of_list_ascii whole
        +:+ (match fraction with [] => "" | _ => "." +:+ string_of_list_ascii fraction end)
        +:+ " (" +:+ String.substring 0 8 (a_AccountID (mo_Asset m)) +:+ ")") /\
    whole <> [] /\
    Z.of_nat (length fraction + length zeros) = a_Decimals (mo_Asset m) /\
    decimal_value whole * 10 ^ a_Decimals (mo_Asset m) + decimal_value (fraction ++ zeros) = n.
Proof.
  intros Hn Hd. pose proof (Money_Int_Ok _ _ Hn) as (Hv & Hr & Hs).
  set (d := a_Decimals (mo_Asset m)) in *.
  set (l := list_ascii_of_string (mo_Atomic m)).
  set (p := pad_zeros (S (Z.to_nat d)) d l).
  set (split := Z.to_nat (Z.of_nat (length p) - d)).
  assert (d < Z.of_nat (length p)) as Hlen by (apply pad_zeros_length; lia).
  assert (decimal_value p = n) as Hval.
  { unfold p. rewrite pad_zeros_value. unfold l. rewrite Hs.
    pose proof (parse_decimal_string n ltac:(lia)) as Hp. unfold parse_decimal in Hp.
    destruct (list_ascii_of_string (decimal_string n)); [done|].
    destruct (forallb _ _); congruence. }
  destruct (trim_right_zeros_spec (drop split p)) as [k Hk].
  exists (take split p), (trim_right_zeros (drop split p)), (replicate k "0"%char).
  assert (length (drop split p) = Z.to_nat d) as Hfl by (rewrite length_drop; unfold split; lia).
  split_and!.
  - unfold Money_String, account_tag. rewrite (proj2 (Z.leb_le _ _)).
    2:{ apply Money_Validate_inv in Hv as [Hv _]. unfold Asset_Validate in Hv. inv_ok Hv. breflect.
        rewrite (hex64_slen (a_AccountID (mo_Asset m))) by done. lia. }
    rewrite (proj2 (Z.eqb_neq _ _)) by lia. fold d l p split.
    destruct (trim_right_zeros (drop split p)); done.
  - intros H. apply (f_equal length) in H. rewrite length_take in H.
    change (length []) with 0%nat in H. unfold split in H. lia.
  - rewrite <- length_app, <- Hk. lia.
  - rewrite <- Hk, <- Hval. transitivity (decimal_value (take split p ++ drop split p)).
    + by rewrite decimal_value_app, Hfl, Z2Nat.id by lia.
    + by rewrite take_drop.
Qed.

Lemma money_render_exact_witness :
  exists whole fraction zeros,
    Money_String (sample_money 1500000) = Some (string_of_list_ascii whole
        +:+ (match fraction with [] => "" | _ => "." +:+ string_of_list_ascii fraction end)
        +:+ " (" +:+ String.substring 0 8 sample_hash +:+ ")") /\
    whole <> [] /\ Z.of_nat (length fraction + length zeros) = 6 /\
    decimal_value whole * 10 ^ 6 + decimal_value (fraction ++ zeros) = 1500000.
Proof.
  apply (money_render_exact (sample_money 1500000) 1500000);
    [vm_compute; reflexivity|vm_compute; reflexivity].
Defined.

Example money_string_sample : Money_String (sample_money 1500000) = Some "1.5 (00112233)".
Proof. vm_compute. reflexivity. Qed.
