(* ===== verification/Terms.v ===== *)
(** * What is agreed and what is permitted: [pkg/negotiation/terms.go],
    [mandate.go], [intent.go] and [execution.go]

    Terms are the exact conditions of one purchase, a mandate is what the owner
    permitted beforehand, [Compile] turns an untrusted candidate into terms, and
    an execution identifier names one purchase whatever way it is described.
    The theorems say that a digest binds every field, that a mandate admits
    terms exactly when every one of its bounds holds, and that nothing is
    inferred or repaired on the way. *)

From S2P Require Import Prelude Encoding Canon Money.

(** ** Terms ([terms.go]) *)

Definition is_class_char (c : ascii) : bool := is_lower c || is_digit c.

(** The automaton of [^[a-z][a-z0-9]*(\.[a-z0-9]+)*$] after its first letter;
    [after_dot] is set when a dot still needs a character behind it. *)
Fixpoint class_tail (after_dot : bool) (s : string) : bool :=
  match s with
  | EmptyString => negb after_dot
  | String c s' =>
      if is_class_char c then class_tail false s'
      else Ascii.eqb c "." && negb after_dot && class_tail true s'
  end.

Definition capabilityClassPattern (s : string) : bool :=
  match s with
  | EmptyString => false
  | String c s' => is_lower c && class_tail false s'
  end.

Definition tvmCellPrefix : string := "tvm-cell-sha256:".

Definition digestPattern (s : string) : bool :=
  prefixed_hex64 "sha256:" s || prefixed_hex64 tvmCellPrefix s.

Record Terms : Type := MkTerms {
  t_CapabilityID : string;
  t_CapabilityVersion : string;
  t_CapabilityClass : string;
  t_ProviderAgentID : string;
  t_ManifestDigest : string;
  t_TransportBindingDigest : string;
  t_Price : Money;
  t_EscrowTermsDigest : string;
  t_DisputePolicyDigest : string;
  t_NotAfterUnix : Z;
}.

#[global] Instance Terms_eq_dec : EqDecision Terms.
Proof. solve_decision. Defined.

Definition normalizeDigest (digest : string) : string :=
  match strip_prefix tvmCellPrefix digest with
  | Some (String c rest) => "sha256:" +:+ String c rest
  | _ => digest
  end.

(** The loop over the four named commitments.  Go ranges over a map, whose
    order is unspecified; the order only chooses which of several bad
    commitments the error names.  The model takes the order of the literal. *)
Fixpoint check_commitments (named : list (string * string)) : result unit :=
  match named with
  | [] => Ok tt
  | (name, digest) :: rest =>
      refuse negb (digestPattern digest) || negb (ValidDigest (normalizeDigest digest))
        with NewError ("terms carry no " +:+ name +:+ " commitment");
      check_commitments rest
  end.

Definition Terms_Validate (t : Terms) : result unit :=
  refuse negb (ids_Capability (t_CapabilityID t)) with NewError "terms name no capability";
  refuse String.eqb (t_CapabilityVersion t) "" || (64 <? slen (t_CapabilityVersion t))
    with NewError "terms name no capability version";
  refuse negb (capabilityClassPattern (t_CapabilityClass t))
    with NewError "terms name no capability class";
  refuse negb (ids_Agent (t_ProviderAgentID t)) with NewError "terms name no provider";
  call check_commitments
    [("manifest", t_ManifestDigest t); ("transport binding", t_TransportBindingDigest t);
     ("escrow terms", t_EscrowTermsDigest t); ("dispute policy", t_DisputePolicyDigest t)];
  call Money_Validate (t_Price t);
  refuse t_NotAfterUnix t =? 0 with NewError "terms must expire";
  Ok tt.

Definition DomainNegotiationTerms : string := "tos.messaging.negotiation-terms.v3" +:+ NUL.
Definition DomainMandate : string := "tos.messaging.mandate.v3" +:+ NUL.
Definition DomainEconomicExecution : string := "tos.messaging.economic-execution.v1" +:+ NUL.

Definition Terms_CanonicalBytes (t : Terms) : result bytes :=
  call Terms_Validate t;
  let buffer := bytes_of_string DomainNegotiationTerms in
  let buffer := canon_Text buffer (t_CapabilityID t) in
  let buffer := canon_Text buffer (t_CapabilityVersion t) in
  let buffer := canon_Text buffer (t_CapabilityClass t) in
  let buffer := canon_Text buffer (t_ProviderAgentID t) in
  let buffer := canon_Text buffer (t_ManifestDigest t) in
  let buffer := canon_Text buffer (t_TransportBindingDigest t) in
  let* buffer := Money_canonical (t_Price t) buffer in
  let buffer := canon_Text buffer (t_EscrowTermsDigest t) in
  let buffer := canon_Text buffer (t_DisputePolicyDigest t) in
  let buffer := canon_Uint64 buffer (t_NotAfterUnix t) in
  Ok buffer.

Definition Terms_Digest (t : Terms) : result string :=
  let* preimage := Terms_CanonicalBytes t in
  Ok (canon_Digest preimage).

Definition Terms_Equal (t other : Terms) : bool :=
  String.eqb (t_CapabilityID t) (t_CapabilityID other)
  && String.eqb (t_CapabilityVersion t) (t_CapabilityVersion other)
  && String.eqb (t_CapabilityClass t) (t_CapabilityClass other)
  && String.eqb (t_ProviderAgentID t) (t_ProviderAgentID other)
  && String.eqb (t_ManifestDigest t) (t_ManifestDigest other)
  && String.eqb (t_TransportBindingDigest t) (t_TransportBindingDigest other)
  && Money_Equal (t_Price t) (t_Price other)
  && String.eqb (t_EscrowTermsDigest t) (t_EscrowTermsDigest other)
  && String.eqb (t_DisputePolicyDigest t) (t_DisputePolicyDigest other)
  && (t_NotAfterUnix t =? t_NotAfterUnix other).

(** ** Mandates ([mandate.go]) *)

Definition AuthorityConverse : string := "conversation".
Definition AuthorityPropose : string := "proposal".
Definition AuthorityCommit : string := "commit".
Definition known_authority (a : string) : bool :=
  String.eqb a AuthorityConverse || String.eqb a AuthorityPropose || String.eqb a AuthorityCommit.

Definition MaxCounteroffers : Z := 32.

Record Mandate : Type := MkMandate {
  m_Objective : string;
  m_Authority : string;
  m_CapabilityClass : string;
  m_MaxTotal : Money;
  m_ApprovalAbove : Money;
  m_MaxCounteroffers : Z;
  m_ExpiresAtUnix : Z;
}.

#[global] Instance Mandate_eq_dec : EqDecision Mandate.
Proof. solve_decision. Defined.

Definition Mandate_Validate (m : Mandate) : result unit :=
  refuse String.eqb (m_Objective m) "" || (512 <? slen (m_Objective m))
    with NewError "a mandate needs an objective";
  refuse negb (known_authority (m_Authority m)) with NewError "invalid mandate authority";
  refuse negb (capabilityClassPattern (m_CapabilityClass m)) || (64 <? slen (m_CapabilityClass m))
    with NewError "invalid mandate capability class";
  call Money_Validate (m_MaxTotal m);
  call Money_Validate (m_ApprovalAbove m);
  refuse negb (Money_SameAsset (m_MaxTotal m) (m_ApprovalAbove m))
    with NewError "a mandate's ceiling and approval point must use one asset";
  let* within := Money_AtMost (m_ApprovalAbove m) (m_MaxTotal m) in
  refuse negb within with NewError "a mandate's approval point is above its own ceiling";
  refuse (m_MaxCounteroffers m =? 0) || (MaxCounteroffers <? m_MaxCounteroffers m)
    with NewError "invalid mandate counteroffer bound";
  refuse m_ExpiresAtUnix m =? 0 with NewError "a mandate must expire";
  Ok tt.

Definition Mandate_Live (m : Mandate) (now : time) : result unit :=
  call Mandate_Validate m;
  refuse time_invalid now with NewError "invalid mandate time";
  refuse m_ExpiresAtUnix m <=? now with NewError "mandate has expired";
  Ok tt.

(** The boolean is whether the owner still has to decide personally. *)
Definition Mandate_permits (m : Mandate) (terms : Terms) (now : time) (requireCommit : bool)
    : result bool :=
  call Mandate_Live m now;
  call Terms_Validate terms;
  refuse String.eqb (m_Authority m) AuthorityConverse
    with NewError "this mandate permits conversation and nothing else";
  refuse requireCommit && negb (String.eqb (m_Authority m) AuthorityCommit)
    with NewError "this mandate may propose but not commit";
  refuse negb (String.eqb (t_CapabilityClass terms) (m_CapabilityClass m))
    with NewError "these terms buy something the mandate does not cover";
  refuse negb (Money_SameAsset (t_Price terms) (m_MaxTotal m))
    with NewError "these terms are priced in an asset the mandate does not name";
  let* within := Money_AtMost (t_Price terms) (m_MaxTotal m) in
  refuse negb within with NewError "these terms are above the mandate's ceiling";
  refuse t_NotAfterUnix terms <=? now with NewError "these terms have already expired";
  refuse m_ExpiresAtUnix m <? t_NotAfterUnix terms
    with NewError "these terms outlive the mandate that permits them";
  let* under := Money_AtMost (t_Price terms) (m_ApprovalAbove m) in
  Ok (negb under).

Definition Mandate_Permits (m : Mandate) (terms : Terms) (now : time) : result bool :=
  Mandate_permits m terms now false.
Definition Mandate_PermitsCommit (m : Mandate) (terms : Terms) (now : time) : result bool :=
  Mandate_permits m terms now true.

Definition Mandate_CanonicalBytes (m : Mandate) : result bytes :=
  call Mandate_Validate m;
  let buffer := bytes_of_string DomainMandate in
  let buffer := canon_Text buffer (m_Objective m) in
  let buffer := canon_Text buffer (m_Authority m) in
  let buffer := canon_Text buffer (m_CapabilityClass m) in
  let* buffer := Money_canonical (m_MaxTotal m) buffer in
  let* buffer := Money_canonical (m_ApprovalAbove m) buffer in
  let buffer := canon_Uint32 buffer (m_MaxCounteroffers m) in
  let buffer := canon_Uint64 buffer (m_ExpiresAtUnix m) in
  Ok buffer.

Definition Mandate_Digest (m : Mandate) : result string :=
  let* preimage := Mandate_CanonicalBytes m in
  Ok (canon_Digest preimage).

(** ** Compiling a candidate ([intent.go]) *)

Definition ErrRenderingConflict : error :=
  Sentinel "structured terms and their rendering disagree".

Record Candidate : Type := MkCandidate {
  cd_CapabilityID : string;
  cd_CapabilityVersion : string;
  cd_CapabilityClass : string;
  cd_ProviderAgentID : string;
  cd_ManifestDigest : string;
  cd_TransportBindingDigest : string;
  cd_EscrowTermsDigest : string;
  cd_DisputePolicyDigest : string;
  cd_Price : Money;
  cd_NotAfterUnix : Z;
  cd_RenderedPrice : option Money;
}.

Definition candidate_terms (c : Candidate) : Terms :=
  MkTerms (cd_CapabilityID c) (cd_CapabilityVersion c) (cd_CapabilityClass c)
    (cd_ProviderAgentID c) (cd_ManifestDigest c) (cd_TransportBindingDigest c)
    (cd_Price c) (cd_EscrowTermsDigest c) (cd_DisputePolicyDigest c) (cd_NotAfterUnix c).

Definition Compile (candidate : Candidate) (mandate : Mandate) (now : time) : result (Terms * bool) :=
  call Money_Validate (cd_Price candidate);
  refuse String.eqb (mo_Atomic (cd_Price candidate)) "0" with NewError "no amount was named";
  refuse String.eqb (cd_CapabilityID candidate) "" || String.eqb (cd_CapabilityVersion candidate) ""
         || String.eqb (cd_CapabilityClass candidate) ""
    with NewError "no capability, version, or class was named";
  refuse cd_NotAfterUnix candidate =? 0 with NewError "no expiry was named";
  let terms := candidate_terms candidate in
  call Terms_Validate terms;
  call match cd_RenderedPrice candidate with
       | None => Ok tt
       | Some rendered =>
           call Money_Validate rendered;
           refuse negb (Money_Equal rendered (t_Price terms)) with ErrRenderingConflict;
           Ok tt
       end;
  let* needsApproval := Mandate_Permits mandate terms now in
  Ok (terms, needsApproval).

(** ** Execution identity ([execution.go]) *)

Definition ExecutionID (mandateID : string) (terms : Terms) : result string :=
  refuse String.eqb mandateID "" || (128 <? slen mandateID)
    with NewError "an economic execution needs the mandate that authorises it";
  let* digest := Terms_Digest terms in
  let buffer := bytes_of_string DomainEconomicExecution in
  let buffer := canon_Text buffer mandateID in
  let buffer := canon_Text buffer digest in
  Ok ("eex_" +:+ digest_hex (canon_Digest buffer)).

(** ** Canonical field lists *)

Definition Terms_fields (t : Terms) : list field :=
  [FText (t_CapabilityID t); FText (t_CapabilityVersion t); FText (t_CapabilityClass t);
   FText (t_ProviderAgentID t); FText (t_ManifestDigest t); FText (t_TransportBindingDigest t)]
  ++ Money_fields (t_Price t) ++
  [FText (t_EscrowTermsDigest t); FText (t_DisputePolicyDigest t); FUint64 (t_NotAfterUnix t)].

Definition Mandate_fields (m : Mandate) : list field :=
  [FText (m_Objective m); FText (m_Authority m); FText (m_CapabilityClass m)]
  ++ Money_fields (m_MaxTotal m) ++ Money_fields (m_ApprovalAbove m) ++
  [FUint32 (m_MaxCounteroffers m); FUint64 (m_ExpiresAtUnix m)].

(** The widths of Go's integer types, and that the one string no validation
    bounds is shorter than four gigabytes. *)
Definition Terms_typed (t : Terms) : Prop :=
  is_u64 (t_NotAfterUnix t) /\ Money_typed (t_Price t) /\ slen (t_CapabilityClass t) < 2 ^ 32.
Definition Mandate_typed (m : Mandate) : Prop :=
  is_u64 (m_ExpiresAtUnix m) /\ is_u32 (m_MaxCounteroffers m) /\
  Money_typed (m_MaxTotal m) /\ Money_typed (m_ApprovalAbove m).

Lemma Money_fields_wf m :
  Money_Validate m = Ok tt -> Money_typed m -> Forall field_wf (Money_fields m).
Proof.
  intros [Ha Hp]%Money_Validate_inv [_ Hd]. unfold Asset_Validate in Ha. inv_ok Ha. breflect.
  destruct (Network_Validate (a_Network (mo_Asset m))) eqn:Hn; [|done].
  unfold Network_Validate in Hn. inv_ok Hn. breflect.
  unfold codeHashRegexp, accountPattern, HashPattern in *.
  repeat match goal with
  | H : prefixed_hex64 _ _ = true |- _ => apply prefixed_hex64_slen in H
  | H : hex64 (a_AccountID _) = true |- _ => apply hex64_slen in H
  end.
  apply atomicPattern_canonical in Hp as [_ Hl].
  assert (slen (mo_Atomic m) <= 78) by (rewrite slen_list; lia).
  unfold Money_fields, Asset_fields, Network_fields. cbn [app].
  slen_lit.
  rewrite !Forall_cons. cbn [field_wf]. split_and!; auto using u32_range; try lia.
Qed.

Lemma digestPattern_slen s : digestPattern s = true -> slen s <= 80.
Proof.
  unfold digestPattern. intros [H|H]%orb_prop; apply prefixed_hex64_slen in H; unfold tvmCellPrefix in H; slen_lit; lia.
Qed.

Lemma check_commitments_ok l :
  check_commitments l = Ok tt -> Forall (fun nd => digestPattern nd.2 = true) l.
Proof.
  induction l as [|[name d] l IH]; intros H; [done|]. cbn [check_commitments] in H. inv_ok H.
  breflect. constructor; auto.
Qed.

Lemma Terms_Validate_inv t :
  Terms_Validate t = Ok tt ->
  slen (t_CapabilityID t) = 68 /\ slen (t_CapabilityVersion t) <= 64 /\
  slen (t_ProviderAgentID t) = 70 /\
  slen (t_ManifestDigest t) <= 80 /\ slen (t_TransportBindingDigest t) <= 80 /\
  slen (t_EscrowTermsDigest t) <= 80 /\ slen (t_DisputePolicyDigest t) <= 80 /\
  Money_Validate (t_Price t) = Ok tt /\ t_NotAfterUnix t <> 0.
Proof.
  unfold Terms_Validate. intros H. inv_ok H. destruct a, a0. breflect.
  match goal with H : check_commitments _ = _ |- _ => apply check_commitments_ok in H as Hc end.
  rewrite !Forall_cons in Hc. cbn [snd] in Hc. destruct Hc as (? & ? & ? & ? & _).
  repeat match goal with H : digestPattern _ = true |- _ => apply digestPattern_slen in H end.
  unfold ids_Capability, ids_Agent in *.
  repeat match goal with H : prefixed_hex64 _ _ = true |- _ => apply prefixed_hex64_slen in H end.
  slen_lit.
  split_and!; (lia || done).
Qed.

Lemma Terms_fields_wf t :
  Terms_Validate t = Ok tt -> Terms_typed t -> Forall field_wf (Terms_fields t).
Proof.
  intros (?&?&?&?&?&?&?&Hm&?)%Terms_Validate_inv (Hn & Ht & Hc).
  pose proof (Money_fields_wf _ Hm Ht). unfold Terms_fields.
  rewrite !Forall_app, !Forall_cons. cbn [field_wf]. split_and!; try (assumption || lia); constructor.
Qed.

Lemma Terms_CanonicalBytes_fields t :
  Terms_CanonicalBytes t =
    (call Terms_Validate t;
     write_fields (bytes_of_string DomainNegotiationTerms) (Terms_fields t)).
Proof.
  unfold Terms_CanonicalBytes, Terms_fields. destruct (Terms_Validate t); [|done].
  rewrite write_fields_app. cbn [write_fields write_field]. rewrite write_fields_app.
  rewrite Money_canonical_fields. by destruct (write_fields _ (Money_fields _)).
Qed.

(** The preimage of valid terms always exists. *)
Lemma Terms_CanonicalBytes_ok t :
  Terms_Validate t = Ok tt -> Terms_typed t ->
  Terms_CanonicalBytes t = Ok (bytes_of_string DomainNegotiationTerms ++ fields_bytes (Terms_fields t)).
Proof.
  intros Hv Ht. rewrite Terms_CanonicalBytes_fields, Hv. by apply write_fields_wf, Terms_fields_wf.
Qed.

Lemma Terms_Digest_ok t :
  Terms_Validate t = Ok tt -> Terms_typed t ->
  Terms_Digest t = Ok (canon_Digest (bytes_of_string DomainNegotiationTerms ++ fields_bytes (Terms_fields t))).
Proof. intros Hv Ht. unfold Terms_Digest. by rewrite Terms_CanonicalBytes_ok. Qed.

Lemma Terms_Digest_valid t d : Terms_Digest t = Ok d -> Terms_Validate t = Ok tt.
Proof.
  unfold Terms_Digest, Terms_CanonicalBytes. destruct (Terms_Validate t) as [[]|]; done.
Qed.

Lemma Terms_Digest_slen t d : Terms_Digest t = Ok d -> slen d = 71.
Proof.
  unfold Terms_Digest. destruct (Terms_CanonicalBytes t); [|done]. intros [= <-]. apply slen_canon_Digest.
Qed.

(** Fields determine the value they were taken from. *)
Lemma u32_wrap_inj x y : - 2 ^ 31 <= x < 2 ^ 31 -> - 2 ^ 31 <= y < 2 ^ 31 -> u32 x = u32 y -> x = y.
Proof. unfold u32. intros. dlia. Qed.

Lemma Money_fields_inj m m' l l' :
  Money_typed m -> Money_typed m' -> Money_fields m ++ l = Money_fields m' ++ l' -> m = m' /\ l = l'.
Proof.
  destruct m as [[[] ? ? ? ? ?] ?], m' as [[[] ? ? ? ? ?] ?].
  unfold Money_typed, Asset_typed. cbn. intros [H1 _] [H2 _] E.
  injection E as -> -> -> Hw -> -> -> -> -> ->.
  apply u32_wrap_inj in Hw; [|done..]. by subst.
Qed.

Lemma Terms_fields_inj t t' : Terms_typed t -> Terms_typed t' -> Terms_fields t = Terms_fields t' -> t = t'.
Proof.
  intros (_ & Hp & _) (_ & Hp' & _) E. unfold Terms_fields in E.
  apply app_inj_length in E as [E1 E]; [|done]. injection E1 as H1 H2 H3 H4 H5 H6.
  apply Money_fields_inj in E as [H7 E]; [|done..]. injection E as H8 H9 H10.
  destruct t, t'; cbn in *. by subst.
Qed.

Lemma Terms_Digest_inj t t' d :
  Terms_typed t -> Terms_typed t' -> Terms_Digest t = Ok d -> Terms_Digest t' = Ok d ->
  t = t' \/ sha256_collision.
Proof.
  intros Ht Ht' Hd Hd'.
  pose proof (Terms_Digest_valid _ _ Hd) as Hv. pose proof (Terms_Digest_valid _ _ Hd') as Hv'.
  rewrite Terms_Digest_ok in Hd, Hd' by done. apply Ok_inj in Hd, Hd'.
  rewrite <- Hd' in Hd.
  apply object_digest_inj in Hd as [Hd|]; [left|by right|done|by apply Terms_fields_wf..].
  by apply Terms_fields_inj.
Qed.

(** ** The same for mandates *)

Lemma Mandate_Validate_inv m :
  Mandate_Validate m = Ok tt ->
  slen (m_Objective m) <= 512 /\ known_authority (m_Authority m) = true /\
  slen (m_CapabilityClass m) <= 64 /\
  Money_Validate (m_MaxTotal m) = Ok tt /\ Money_Validate (m_ApprovalAbove m) = Ok tt /\
  mo_Asset (m_MaxTotal m) = mo_Asset (m_ApprovalAbove m) /\
  (exists ceiling above, Money_Int (m_MaxTotal m) = Ok ceiling /\
     Money_Int (m_ApprovalAbove m) = Ok above /\ above <= ceiling) /\
  m_MaxCounteroffers m <> 0 /\ m_MaxCounteroffers m <= MaxCounteroffers /\ m_ExpiresAtUnix m <> 0.
Proof.
  unfold Mandate_Validate. intros H. inv_ok H. destruct a, a0. breflect. subst.
  match goal with H : Money_AtMost _ _ = _ |- _ =>
    apply Money_AtMost_Ok in H as (_ & x & y & Hx & Hy & Hle) end.
  split_and!; try (done || lia); [by apply Asset_Same_eq|].
  exists y, x. split_and!; [done..|lia].
Qed.

Lemma known_authority_slen a : known_authority a = true -> slen a <= 12.
Proof.
  unfold known_authority. intros [[H|H]%orb_prop|H]%orb_prop; apply String.eqb_eq in H as ->;
    vm_compute; discriminate.
Qed.

Lemma Mandate_fields_wf m :
  Mandate_Validate m = Ok tt -> Mandate_typed m -> Forall field_wf (Mandate_fields m).
Proof.
  intros (?&Ha%known_authority_slen&?&Hm&Hp&_)%Mandate_Validate_inv (? & ? & Hm' & Hp').
  pose proof (Money_fields_wf _ Hm Hm'). pose proof (Money_fields_wf _ Hp Hp').
  unfold Mandate_fields.
  rewrite !Forall_app, !Forall_cons. cbn [field_wf]. split_and!; try (assumption || lia); constructor.
Qed.

Lemma Mandate_CanonicalBytes_fields m :
  Mandate_CanonicalBytes m =
    (call Mandate_Validate m; write_fields (bytes_of_string DomainMandate) (Mandate_fields m)).
Proof.
  unfold Mandate_CanonicalBytes, Mandate_fields. destruct (Mandate_Validate m); [|done].
  rewrite write_fields_app. cbn [write_fields write_field]. rewrite write_fields_app.
  rewrite Money_canonical_fields. destruct (write_fields _ (Money_fields (m_MaxTotal m))); [|done].
  rewrite write_fields_app, Money_canonical_fields. by destruct (write_fields _ (Money_fields _)).
Qed.

Lemma Mandate_Digest_ok m :
  Mandate_Validate m = Ok tt -> Mandate_typed m ->
  Mandate_Digest m = Ok (canon_Digest (bytes_of_string DomainMandate ++ fields_bytes (Mandate_fields m))).
Proof.
  intros Hv Ht. unfold Mandate_Digest. rewrite Mandate_CanonicalBytes_fields, Hv.
  by rewrite write_fields_wf by by apply Mandate_fields_wf.
Qed.

Lemma Mandate_Digest_valid m d : Mandate_Digest m = Ok d -> Mandate_Validate m = Ok tt.
Proof.
  unfold Mandate_Digest, Mandate_CanonicalBytes. destruct (Mandate_Validate m) as [[]|]; done.
Qed.

Lemma Mandate_fields_inj m m' :
  Mandate_typed m -> Mandate_typed m' -> Mandate_fields m = Mandate_fields m' -> m = m'.
Proof.
  intros (_ & _ & Hm & Hp) (_ & _ & Hm' & Hp') E. unfold Mandate_fields in E.
  apply app_inj_length in E as [E1 E]; [|done]. injection E1 as H1 H2 H3.
  apply Money_fields_inj in E as [H4 E]; [|done..].
  apply Money_fields_inj in E as [H5 E]; [|done..]. injection E as H6 H7.
  destruct m, m'; cbn in *. by subst.
Qed.

Lemma Mandate_Digest_inj m m' d :
  Mandate_typed m -> Mandate_typed m' -> Mandate_Digest m = Ok d -> Mandate_Digest m' = Ok d ->
  m = m' \/ sha256_collision.
Proof.
  intros Ht Ht' Hd Hd'.
  pose proof (Mandate_Digest_valid _ _ Hd) as Hv. pose proof (Mandate_Digest_valid _ _ Hd') as Hv'.
  rewrite Mandate_Digest_ok in Hd, Hd' by done. apply Ok_inj in Hd, Hd'.
  rewrite <- Hd' in Hd.
  apply object_digest_inj in Hd as [Hd|]; [left|by right|done|by apply Mandate_fields_wf..].
  by apply Mandate_fields_inj.
Qed.

Lemma Terms_Equal_eq t t' : Terms_Equal t t' = true <-> t = t'.
Proof.
  unfold Terms_Equal. destruct t, t'; cbn.
  rewrite !andb_true_iff, !String.eqb_eq, Z.eqb_eq, Money_Equal_eq.
  split; [by intros [[[[[[[[[-> ->] ->] ->] ->] ->] ->] ->] ->] ->]|by intros [= -> -> -> -> -> -> -> -> -> ->]].
Qed.

(** ** What a mandate admits *)

(** The bounds of a mandate as a person would list them, [x] being the price in
    atomic units.  [requireCommit] is the commitment boundary. *)
Record admits (m : Mandate) (t : Terms) (now : time) (requireCommit : bool) (x : Z) : Prop := {
  ad_mandate : Mandate_Validate m = Ok tt;
  ad_terms : Terms_Validate t = Ok tt;
  ad_time : time_invalid now = false;
  ad_live : now < m_ExpiresAtUnix m;
  ad_authority : m_Authority m <> AuthorityConverse;
  ad_commit : requireCommit = true -> m_Authority m = AuthorityCommit;
  ad_class : t_CapabilityClass t = m_CapabilityClass m;
  ad_asset : mo_Asset (t_Price t) = mo_Asset (m_MaxTotal m);
  ad_price : Money_Int (t_Price t) = Ok x;
  ad_ceiling : exists c, Money_Int (m_MaxTotal m) = Ok c /\ x <= c;
  ad_fresh : now < t_NotAfterUnix t;
  ad_within : t_NotAfterUnix t <= m_ExpiresAtUnix m;
}.

Lemma Mandate_Live_iff m now :
  Mandate_Live m now = Ok tt <->
  Mandate_Validate m = Ok tt /\ time_invalid now = false /\ now < m_ExpiresAtUnix m.
Proof.
  unfold Mandate_Live. split.
  - intros H. inv_ok H. destruct a. split_and!; [done..|lia].
  - intros (-> & -> & Hl). by rewrite (proj2 (Z.leb_gt _ _)) by done.
Qed.

Lemma Mandate_permits_admits m t now rc b :
  Mandate_permits m t now rc = Ok b ->
  exists x a, admits m t now rc x /\ Money_Int (m_ApprovalAbove m) = Ok a /\ b = (a <? x).
Proof.
  unfold Mandate_permits. intros H. inv_ok H. destruct a, a0. simplify_eq.
  match goal with H : Mandate_Live _ _ = _ |- _ => apply Mandate_Live_iff in H as (? & ? & ?) end.
  repeat match goal with H : Money_AtMost _ _ = _ |- _ =>
    apply Money_AtMost_Ok in H as (? & ? & ? & ? & ? & ?) end. simplify_eq.
  match goal with H : Money_Int ?p = Ok ?x, H' : Money_Int ?p = Ok ?y |- _ =>
    assert (x = y) as -> by congruence end.
  eexists _, _. split; [|split; [eassumption|]].
  - constructor; try eassumption; breflect; try done; try lia.
    + intros ->. cbn [andb] in *. by breflect.
    + eexists. split; [eassumption|]. lia.
  - apply eq_true_iff_eq. rewrite negb_true_iff. lia.
Qed.

Lemma permits_valid_terms m t now rc b : Mandate_permits m t now rc = Ok b -> Terms_Validate t = Ok tt.
Proof. intros (x & a & Had & _)%Mandate_permits_admits. by apply (ad_terms _ _ _ _ _ Had). Qed.

Lemma admits_Mandate_permits m t now rc x :
  admits m t now rc x ->
  exists a, Money_Int (m_ApprovalAbove m) = Ok a /\ Mandate_permits m t now rc = Ok (a <? x).
Proof.
  intros [Hm Ht Hn Hl Ha Hc Hcl Has Hp (c & Hc1 & Hc2) Hf Hw].
  pose proof (Mandate_Validate_inv _ Hm) as (_&_&_&_&_&Hsame&(c' & a & Hc' & Ha' & _)&_).
  exists a. split; [done|]. unfold Mandate_permits.
  rewrite (proj2 (Mandate_Live_iff m now)) by done. rewrite Ht.
  rewrite (proj2 (String.eqb_neq _ _)) by done.
  replace (rc && negb (String.eqb (m_Authority m) AuthorityCommit)) with false.
  2:{ destruct rc; [|done]. by rewrite Hc. }
  rewrite Hcl, String.eqb_refl. cbn [negb]. unfold Money_SameAsset.
  rewrite (proj2 (Asset_Same_eq _ _)) by done. cbn [negb].
  rewrite (Money_AtMost_compute _ _ x c), (Money_AtMost_compute _ _ x a) by congruence.
  rewrite (proj2 (Z.leb_le _ _)) by done. cbn [negb].
  rewrite (proj2 (Z.leb_gt _ _)) by done. rewrite (proj2 (Z.ltb_ge _ _)) by done.
  by rewrite <- Z.ltb_antisym.
Qed.

Lemma admits_commit_weaken m t now x : admits m t now true x -> admits m t now false x.
Proof. intros []. by constructor. Qed.

Lemma admits_price_fun m t now rc x rc' y : admits m t now rc x -> admits m t now rc' y -> x = y.
Proof. intros H H'. pose proof (ad_price _ _ _ _ _ H). pose proof (ad_price _ _ _ _ _ H'). congruence. Qed.

(** ** Properties *)

(** a terms digest binds every field.  Valid terms always have a digest,
    and two sets of terms with one digest are equal in every field (so [Equal]
    answers true), short of a SHA-256 collision: an approval bound to the digest
    cannot be carried to a changed provider, manifest, price, asset, escrow,
    dispute policy or expiry. *)
Theorem terms_digest_binds t t' :
  Terms_Validate t = Ok tt -> Terms_Validate t' = Ok tt -> Terms_typed t -> Terms_typed t' ->
  exists d d', Terms_Digest t = Ok d /\ Terms_Digest t' = Ok d' /\
    (d = d' -> (t = t' /\ Terms_Equal t t' = true) \/ sha256_collision).
Proof.
  intros Hv Hv' Ht Ht'. pose proof (Terms_Digest_ok _ Hv Ht) as Hd.
  pose proof (Terms_Digest_ok _ Hv' Ht') as Hd'. eexists _, _. split_and!; [exact Hd|exact Hd'|].
  intros E. rewrite <- E in Hd'. destruct (Terms_Digest_inj _ _ _ Ht Ht' Hd Hd') as [->|]; [left|by right].
  split; [done|]. by apply Terms_Equal_eq.
Qed.

Definition sample_digest : string := "sha256:" +:+ sample_hash.
Definition sample_terms : Terms :=
  MkTerms ("cap_" +:+ sample_hash) "v1" "compute.gpu" ("agent_" +:+ sample_hash)
    sample_digest sample_digest (sample_money 700) sample_digest sample_digest 2000.
Definition sample_mandate : Mandate :=
  MkMandate "rent a machine" AuthorityCommit "compute.gpu" (sample_money 1000) (sample_money 500) 4 3000.

Lemma sample_terms_valid : Terms_Validate sample_terms = Ok tt.
Proof. vm_compute. reflexivity. Qed.
Lemma sample_terms_typed : Terms_typed sample_terms.
Proof. vm_compute. repeat split; discriminate. Qed.
Lemma sample_mandate_valid : Mandate_Validate sample_mandate = Ok tt.
Proof. vm_compute. reflexivity. Qed.

Lemma terms_digest_binds_witness :
  exists d d', Terms_Digest sample_terms = Ok d /\ Terms_Digest sample_terms = Ok d' /\
    (d = d' -> (sample_terms = sample_terms /\ Terms_Equal sample_terms sample_terms = true)
               \/ sha256_collision).
Proof.
  apply (terms_digest_binds sample_terms sample_terms);
    (apply sample_terms_valid || apply sample_terms_typed).
Defined.

(** C9: a mandate admits terms exactly when every bound it states holds: the
    mandate is valid and live, grants more than conversation (and commitment,
    where commitment is asked), covers the class, names the price's asset, the
    price is at most its ceiling, and the terms have not expired and do not
    outlive it.  The answer asks for the owner exactly when the price exceeds
    the approval point. *)
Theorem mandate_permits_exact m t now rc b :
  Mandate_permits m t now rc = Ok b <->
  exists x a, admits m t now rc x /\ Money_Int (m_ApprovalAbove m) = Ok a /\ b = (a <? x).
Proof.
  split; [apply Mandate_permits_admits|].
  intros (x & a & Had & Ha & ->). destruct (admits_Mandate_permits _ _ _ _ _ Had) as (a' & Ha' & ->).
  congruence.
Qed.

(** the commitment boundary is stricter than conversation and otherwise the
    same.  Terms [PermitsCommit] admits, [Permits] admits with the same answer
    about the owner, under a mandate that grants commitment; a mandate with any
    lesser authority commits to nothing. *)
Theorem permits_commit_stricter m t now :
  (forall b, Mandate_PermitsCommit m t now = Ok b <->
     Mandate_Permits m t now = Ok b /\ m_Authority m = AuthorityCommit) /\
  (m_Authority m <> AuthorityCommit -> is_ok (Mandate_PermitsCommit m t now) = false).
Proof.
  assert (forall b, Mandate_PermitsCommit m t now = Ok b <->
     Mandate_Permits m t now = Ok b /\ m_Authority m = AuthorityCommit) as H.
  { intros b. unfold Mandate_PermitsCommit, Mandate_Permits. split.
    - intros (x & a & Had & Ha & ->)%Mandate_permits_admits. split; [|by apply (ad_commit _ _ _ _ _ Had)].
      destruct (admits_Mandate_permits m t now false x) as (a' & Ha' & ->);
        [by apply admits_commit_weaken|congruence].
    - intros [(x & a & Had & Ha & ->)%Mandate_permits_admits Hc].
      destruct (admits_Mandate_permits m t now true x) as (a' & Ha' & ->); [|congruence].
      by destruct Had; constructor. }
  split; [exact H|]. intros Hn. destruct (Mandate_PermitsCommit m t now) as [b|]; [|done].
  by destruct (proj1 (H b) eq_refl).
Qed.

(** the compiler infers and repairs nothing.  When it accepts a candidate,
    the terms are the candidate's own fields, the amount is a positive count,
    any rendered price it was given is that very amount, and the mandate
    permits the terms with the returned answer about the owner. *)
Theorem compile_sound c m now t b :
  Compile c m now = Ok (t, b) ->
  t = candidate_terms c /\ Terms_Validate t = Ok tt /\
  (exists x, Money_Int (cd_Price c) = Ok x /\ 0 < x) /\
  (forall r, cd_RenderedPrice c = Some r -> r = cd_Price c) /\
  Mandate_Permits m t now = Ok b.
Proof.
  unfold Compile. intros H. inv_ok H. destruct a, a0, a1. simplify_eq.
  split_and!; [done|done| | |done].
  - destruct (Money_Int_valid (cd_Price c)) as [x Hx]; [done|]. exists x. split; [done|].
    apply Money_Int_Ok in Hx as (_ & Hx & Hs). rewrite Hs in *.
    destruct (Z.eq_dec x 0) as [->|]; [discriminate|lia].
  - intros r Hr. rewrite Hr in *.
    match goal with H : (match Money_Validate r with _ => _ end) = _ |- _ => inv_ok H end.
    breflect. by apply Money_Equal_eq.
Qed.

Definition sample_candidate (rendered : option Money) : Candidate :=
  MkCandidate ("cap_" +:+ sample_hash) "v1" "compute.gpu" ("agent_" +:+ sample_hash)
    sample_digest sample_digest sample_digest sample_digest (sample_money 700) 2000 rendered.

Lemma compile_sound_witness :
  sample_terms = candidate_terms (sample_candidate (Some (sample_money 700))) /\
  Terms_Validate sample_terms = Ok tt /\
  (exists x, Money_Int (cd_Price (sample_candidate (Some (sample_money 700)))) = Ok x /\ 0 < x) /\
  (forall r, cd_RenderedPrice (sample_candidate (Some (sample_money 700))) = Some r ->
     r = cd_Price (sample_candidate (Some (sample_money 700)))) /\
  Mandate_Permits sample_mandate sample_terms 100 = Ok true.
Proof.
  apply (compile_sound (sample_candidate (Some (sample_money 700))) sample_mandate 100 sample_terms true).
  vm_compute. reflexivity.
Defined.

(** a rendering that disagrees is a conflict, never a choice.  Whatever the
    mandate says, a candidate that would compile without its rendered price is
    refused with [ErrRenderingConflict] when that price is a valid amount
    different from the structured one. *)
Theorem compile_rendering_conflict c m now r t b :
  Compile (MkCandidate (cd_CapabilityID c) (cd_CapabilityVersion c) (cd_CapabilityClass c)
             (cd_ProviderAgentID c) (cd_ManifestDigest c) (cd_TransportBindingDigest c)
             (cd_EscrowTermsDigest c) (cd_DisputePolicyDigest c) (cd_Price c)
             (cd_NotAfterUnix c) None) m now = Ok (t, b) ->
  cd_RenderedPrice c = Some r -> Money_Validate r = Ok tt -> r <> cd_Price c ->
  Compile c m now = Err ErrRenderingConflict.
Proof.
  unfold Compile. intros H Hr Hv Hne. cbn [cd_RenderedPrice cd_Price cd_CapabilityID
    cd_CapabilityVersion cd_CapabilityClass cd_NotAfterUnix] in H.
  change (candidate_terms (MkCandidate _ _ _ _ _ _ _ _ _ _ _)) with (candidate_terms c) in H.
  inv_ok H. rewrite Hr, Hv.
  replace (Money_Equal r (t_Price (candidate_terms c))) with false; [done|].
  symmetry. apply not_true_iff_false. by intros ?%Money_Equal_eq.
Qed.

Lemma compile_rendering_conflict_witness :
  Compile (sample_candidate (Some (sample_money 699))) sample_mandate 100 = Err ErrRenderingConflict.
Proof.
  apply (compile_rendering_conflict (sample_candidate (Some (sample_money 699))) sample_mandate 100
           (sample_money 699) sample_terms true).
  - vm_compute. reflexivity.
  - reflexivity.
  - vm_compute. reflexivity.
  - vm_compute. discriminate.
Defined.

(** an execution identifier names one purchase under one mandate.  Two
    purchases with the same identifier have the same mandate and the same
    terms, short of a SHA-256 collision, and the identifier depends on nothing
    else, so re-describing a purchase does not make a second one. *)
Theorem execution_id_binds mid mid' t t' e :
  Terms_typed t -> Terms_typed t' ->
  ExecutionID mid t = Ok e -> ExecutionID mid' t' = Ok e ->
  (mid = mid' /\ t = t') \/ sha256_collision.
Proof.
  unfold ExecutionID. intros Ht Ht' H H'. inv_ok H. inv_ok H'. breflect.
  apply Ok_inj in H, H'. rewrite <- H' in H. apply string_app_inj_l, digest_hex_inj in H.
  rewrite !canon_Text_app, <- !app_assoc in H.
  assert (forall x y : string, field_bytes (FText x) ++ field_bytes (FText y)
            = fields_bytes [FText x; FText y]) as Hf.
  { intros x y. unfold fields_bytes. cbn [List.map List.concat]. by rewrite app_nil_r. }
  rewrite !Hf in H.
  repeat match goal with H : Terms_Digest _ = Ok ?d |- _ =>
    lazymatch goal with
    | _ : slen d = 71 |- _ => fail
    | _ => pose proof (Terms_Digest_slen _ _ H) end end.
  apply object_digest_inj in H as [H|]; [|by right|done|..].
  - injection H as -> ->. destruct (Terms_Digest_inj t t' a0) as [->|]; auto.
  - rewrite !Forall_cons. cbn [field_wf]. split_and!; [lia..|done].
  - rewrite !Forall_cons. cbn [field_wf]. split_and!; [lia..|done].
Qed.

Lemma execution_id_binds_witness :
  exists e, ExecutionID "mandate-1" sample_terms = Ok e /\
    (("mandate-1" = "mandate-1" /\ sample_terms = sample_terms) \/ sha256_collision).
Proof.
  eexists. split.
  - unfold ExecutionID. cbn [String.eqb orb]. rewrite (Terms_Digest_ok _ sample_terms_valid sample_terms_typed).
    reflexivity.
  - apply (execution_id_binds "mandate-1" "mandate-1" sample_terms sample_terms
             (match ExecutionID "mandate-1" sample_terms with Ok e => e | Err _ => "" end));
      [apply sample_terms_typed..| |];
      unfold ExecutionID; rewrite (Terms_Digest_ok _ sample_terms_valid sample_terms_typed); reflexivity.
Defined.
