(* ===== verification/Payload.v ===== *)
(** * Payloads: [pkg/payload]

    Every event kind carries one typed body with a fixed schema.  A body is a
    record, validated, written field by field after a domain that names its schema,
    and read back with a latching reader whose bounds the caller gives.  This file has
    the record, the checks, the writer and the reader of every kind, and the registry
    that dispatches on the kind; what reading and writing have to do with each other is
    proved in [PayloadCodec.v].

    Bodies of the agreement and commerce protocol are carried as bytes that a library
    of the protocol decodes; that library is the class [Protocol].  References to
    attachments are decoded by [pkg/attachments], the class [AttachmentFormats]. *)

From S2P Require Import Prelude Encoding Canon Money Terms.

Definition MaxTextBytes : Z := Z.shiftl 128 10.
Definition MaxShortTextBytes : Z := 512.
Definition MaxDigestBytes : Z := 128.
Definition MaxOpaqueBytes : Z := Z.shiftl 128 10.
Definition MaxGiftCanonicalBytes : Z := Z.shiftl 64 10.
Definition MaxIntentApplicationBytes : Z := Z.shiftl 64 10.
Definition MaxInlineOperationOutcomeBytes : Z := Z.shiftl 96 10.
Definition MaxPrivateHandoffControlBytes : Z := Z.shiftl 96 10.
Definition MaxAgreementPromotionBytes : Z := Z.shiftl 96 10.
Definition MaxHistoryEventsPerSegment : Z := 16.
Definition MaxHistorySegmentEventBytes : Z := Z.shiftl 96 10.
Definition DomainPayload : string := "tos.messaging.payload.v1" +:+ NUL.

(** ** Checks of single fields ([fields.go]) *)

Definition mediaTypes : list string := ["text/plain; charset=utf-8"; "text/markdown"].
Definition presenceStates : list string := ["available"; "busy"; "away"].
Definition taskOutcomes : list string := ["succeeded"; "failed"; "refused"].
Definition applicationOutcomes : list string := ["applied"; "rejected"; "held-for-approval"].

(** Labels of lower-case letters and digits, the first starting with a letter,
    between separators; [open] says that a label has begun. *)
Fixpoint label_rest (separator : ascii -> bool) (open : bool) (s : string) : bool :=
  match s with
  | EmptyString => open
  | String c rest =>
      if is_lower c || is_digit c then label_rest separator true rest
      else open && separator c && label_rest separator false rest
  end.
Definition labels (separator : ascii -> bool) (s : string) : bool :=
  match s with
  | EmptyString => false
  | String c rest => is_lower c && label_rest separator true rest
  end.
Definition protocolPattern : string -> bool := labels (fun c => Ascii.eqb c ".").
Definition tokenPattern : string -> bool :=
  labels (fun c => Ascii.eqb c "." || Ascii.eqb c "_" || Ascii.eqb c "-").

(** [requireText]; [strings.ContainsAny(value, "\x00\r")] *)
Definition requireText (name value : string) (maximum : Z) : result unit :=
  refuse String.eqb value "" with NewError (name +:+ " is required");
  refuse maximum <? slen value with NewError (name +:+ " exceeds its bound");
  refuse negb (utf8_valid (bytes_of_string value)) with NewError (name +:+ " is not valid UTF-8");
  refuse negb (sforall (fun c => negb (code c =? 0) && negb (code c =? 13)) value)
    with NewError (name +:+ " contains control characters");
  Ok tt.
Definition optionalText (name value : string) (maximum : Z) : result unit :=
  if String.eqb value "" then Ok tt else requireText name value maximum.
Definition requireMatch (name value : string) (pattern : string -> bool) : result unit :=
  refuse negb (pattern value) with NewError (name +:+ " is not a valid identifier"); Ok tt.
Definition optionalMatch (name value : string) (pattern : string -> bool) : result unit :=
  if String.eqb value "" then Ok tt else requireMatch name value pattern.
Definition requireDigest (name value : string) : result unit :=
  refuse negb (ValidDigest value) with NewError (name +:+ " is not a usable digest"); Ok tt.
Definition optionalDigest (name value : string) : result unit :=
  if String.eqb value "" then Ok tt else requireDigest name value.
Definition requireTime (name : string) (value : Z) : result unit :=
  refuse value =? 0 with NewError (name +:+ " is required"); Ok tt.
Definition requireMember (name value : string) (members : list string) : result unit :=
  refuse negb (bool_decide (value ∈ members)) with NewError (name +:+ " is not a recognised value"); Ok tt.
Definition requireEvent (name value : string) : result unit := requireMatch name value ids_Event.
Definition validateGiftCanonical (value : bytes) : result unit :=
  refuse (blen value =? 0) || (MaxGiftCanonicalBytes <? blen value)
    with NewError "canonical Agent Gift object has invalid size"; Ok tt.

(** ** Code outside this repository, and attachments *)

(** [int64(x)] of a [uint64]. *)
Definition i64 (z : Z) : Z := if z <? 2 ^ 63 then z else z - 2 ^ 64.
(** [int32(x)] of a [uint32]. *)
Definition i32 (z : Z) : Z := if z <? 2 ^ 31 then z else z - 2 ^ 32.

(** [err != nil || value != expected] of the source, negated. *)
Definition agrees {A} `{EqDecision A} (r : result A) (expected : A) : bool :=
  match r with Ok a => bool_decide (a = expected) | Err _ => false end.

(** [tos-service-protocol]: [pkg/agentcommerce] and [pkg/codec]. *)
Class Protocol := {
  MaxProfileEventBytes : Z;
  ProfileEvent : Type;
  pe_unmarshal : bytes -> result ProfileEvent;
  pe_ObjectDigest : ProfileEvent -> string;
  pe_CreatedAtUnix : ProfileEvent -> Z;
  pe_canonical : ProfileEvent -> time -> result bytes;
  DecodeIntentApplication : bytes -> result unit;
  OperationRequest : Type;
  oq_unmarshal : bytes -> result OperationRequest;
  oq_validate : OperationRequest -> result unit;
  oq_OperationID : OperationRequest -> string;
  oq_OperationEnvelopeDigest : OperationRequest -> string;
  oq_marshal : OperationRequest -> result bytes;
  HandoffChallenge : Type;
  hc_unmarshal : bytes -> result HandoffChallenge;
  hc_IssuedAtUnix : HandoffChallenge -> Z;
  hc_validate : HandoffChallenge -> time -> result unit;
  hc_digest : HandoffChallenge -> result string;
  HandoffAuthorization : Type;
  ha_unmarshal : bytes -> result HandoffAuthorization;
  ha_digest : HandoffAuthorization -> result string;
  ha_ChallengeDigest : HandoffAuthorization -> string;
  HandoffAcknowledgement : Type;
  hk_unmarshal : bytes -> result HandoffAcknowledgement;
  hk_digest : HandoffAcknowledgement -> result string;
  hk_ChallengeDigest : HandoffAcknowledgement -> string;
  AgreementBody : Type;
  ab_unmarshal : bytes -> result AgreementBody;
  ab_validate : AgreementBody -> result unit;
  ab_digest : AgreementBody -> result string;
  SignedAcceptance : Type;
  DecodeSignedAgreementAcceptance : bytes -> result SignedAcceptance;
  aa_AgreementBodyDigest : SignedAcceptance -> string;
  AuthorizationEvidence : Type;
  ae_unmarshal : bytes -> result AuthorizationEvidence;
  ae_AgreementBodyDigest : AuthorizationEvidence -> string;
  ae_digest : AuthorizationEvidence -> result string;
  SignedProviderOffer : Type;
  po_unmarshal : bytes -> result SignedProviderOffer;
  po_AgreementBodyDigest : SignedProviderOffer -> string;
  po_digest : SignedProviderOffer -> result string;
}.

(** [pkg/attachments]: references, grants and locators. *)
Class AttachmentFormats := {
  Reference : Type;
  DecodeReferenceJSON : bytes -> result Reference;
  ref_ManifestDigest : Reference -> result string;
  ref_PlaintextBytes : Reference -> Z;
  ref_ChunkDigests : Reference -> list string;
  ref_ExpiresAtUnix : Reference -> Z;
  ParseHTTPSLocator : string -> string -> result unit;
  CapabilityGrant : Type;
  DecodeGrantJSON : bytes -> result CapabilityGrant;
  gr_ManifestDigest : CapabilityGrant -> string;
  gr_CiphertextBytes : CapabilityGrant -> Z;
  gr_RetainUntilUnix : CapabilityGrant -> Z;
  gr_ChunkDigests : CapabilityGrant -> list string;
  gr_Operations : CapabilityGrant -> list string;
  gr_CapabilityPublicKeyHex : CapabilityGrant -> string;
  gr_NetworkID : CapabilityGrant -> string;
  gr_GenesisRootHash : CapabilityGrant -> string;
  gr_GenesisFileHash : CapabilityGrant -> string;
  gr_AgentID : CapabilityGrant -> string;
  gr_EndpointID : CapabilityGrant -> string;
  gr_IssuedAtUnix : CapabilityGrant -> Z;
}.

(** ** Bodies ([kinds.go], [kinds_more.go] and the files of the other kinds) *)

Record Text : Type := MkText {
  Text_MediaType : string;
  Text_Body : string;
  Text_ReplyToEventID : string;
}.

Definition Text_Validate (v : Text) : result unit :=
  call requireMember "media type" (Text_MediaType v) mediaTypes;
  call requireText "body" (Text_Body v) MaxTextBytes;
  optionalMatch "reply-to event" (Text_ReplyToEventID v) ids_Event.

Definition Text_encode (v : Text) (buffer : bytes) : bytes :=
  let buffer := canon_Text buffer (Text_MediaType v) in
  let buffer := canon_Text buffer (Text_Body v) in
  canon_Text buffer (Text_ReplyToEventID v).

Definition decodeText (reader : Reader) : Text * Reader :=
  let '(MediaType, reader) := Reader_Text MaxShortTextBytes reader in
  let '(Body, reader) := Reader_Text MaxTextBytes reader in
  let '(ReplyToEventID, reader) := Reader_Text MaxShortTextBytes reader in
  (MkText MediaType Body ReplyToEventID, reader).

Record ConversationInvite : Type := MkConversationInvite {
  ConversationInvite_Purpose : string;
  ConversationInvite_ExpiresAtUnix : Z;
}.

Definition ConversationInvite_Validate (v : ConversationInvite) : result unit :=
  call requireText "purpose" (ConversationInvite_Purpose v) MaxShortTextBytes;
  requireTime "invitation expiry" (ConversationInvite_ExpiresAtUnix v).

Definition ConversationInvite_encode (v : ConversationInvite) (buffer : bytes) : bytes :=
  let buffer := canon_Text buffer (ConversationInvite_Purpose v) in
  canon_Uint64 buffer (ConversationInvite_ExpiresAtUnix v).

Definition decodeConversationInvite (reader : Reader) : ConversationInvite * Reader :=
  let '(Purpose, reader) := Reader_Text MaxShortTextBytes reader in
  let '(ExpiresAtUnix, reader) := Reader_Uint64 reader in
  (MkConversationInvite Purpose ExpiresAtUnix, reader).

Record ConversationAccept : Type := MkConversationAccept {
  ConversationAccept_InviteEventID : string;
}.

Definition ConversationAccept_Validate (v : ConversationAccept) : result unit :=
  requireEvent "invitation event" (ConversationAccept_InviteEventID v).

Definition ConversationAccept_encode (v : ConversationAccept) (buffer : bytes) : bytes :=
  canon_Text buffer (ConversationAccept_InviteEventID v).

Definition decodeConversationAccept (reader : Reader) : ConversationAccept * Reader :=
  let '(InviteEventID, reader) := Reader_Text MaxShortTextBytes reader in
  (MkConversationAccept InviteEventID, reader).

Record PresenceHint : Type := MkPresenceHint {
  PresenceHint_State : string;
  PresenceHint_StaleAfterUnix : Z;
}.

Definition PresenceHint_Validate (v : PresenceHint) : result unit :=
  call requireMember "presence state" (PresenceHint_State v) presenceStates;
  requireTime "presence staleness" (PresenceHint_StaleAfterUnix v).

Definition PresenceHint_encode (v : PresenceHint) (buffer : bytes) : bytes :=
  let buffer := canon_Text buffer (PresenceHint_State v) in
  canon_Uint64 buffer (PresenceHint_StaleAfterUnix v).

Definition decodePresenceHint (reader : Reader) : PresenceHint * Reader :=
  let '(State, reader) := Reader_Text MaxShortTextBytes reader in
  let '(StaleAfterUnix, reader) := Reader_Uint64 reader in
  (MkPresenceHint State StaleAfterUnix, reader).

Record TaskRequest : Type := MkTaskRequest {
  TaskRequest_TaskID : string;
  TaskRequest_CapabilityID : string;
  TaskRequest_InputDigest : string;
  TaskRequest_DeadlineUnix : Z;
  TaskRequest_AcceptedQuoteRef : string;
}.

Definition TaskRequest_Validate (v : TaskRequest) : result unit :=
  call requireText "task identifier" (TaskRequest_TaskID v) MaxShortTextBytes;
  call requireMatch "capability" (TaskRequest_CapabilityID v) ids_Capability;
  call requireDigest "input digest" (TaskRequest_InputDigest v);
  call requireTime "task deadline" (TaskRequest_DeadlineUnix v);
  optionalDigest "accepted quote reference" (TaskRequest_AcceptedQuoteRef v).

Definition TaskRequest_encode (v : TaskRequest) (buffer : bytes) : bytes :=
  let buffer := canon_Text buffer (TaskRequest_TaskID v) in
  let buffer := canon_Text buffer (TaskRequest_CapabilityID v) in
  let buffer := canon_Text buffer (TaskRequest_InputDigest v) in
  let buffer := canon_Uint64 buffer (TaskRequest_DeadlineUnix v) in
  canon_Text buffer (TaskRequest_AcceptedQuoteRef v).

Definition decodeTaskRequest (reader : Reader) : TaskRequest * Reader :=
  let '(TaskID, reader) := Reader_Text MaxShortTextBytes reader in
  let '(CapabilityID, reader) := Reader_Text MaxShortTextBytes reader in
  let '(InputDigest, reader) := Reader_Text MaxDigestBytes reader in
  let '(DeadlineUnix, reader) := Reader_Uint64 reader in
  let '(AcceptedQuoteRef, reader) := Reader_Text MaxDigestBytes reader in
  (MkTaskRequest TaskID CapabilityID InputDigest DeadlineUnix AcceptedQuoteRef, reader).

Record TaskProgress : Type := MkTaskProgress {
  TaskProgress_TaskID : string;
  TaskProgress_Stage : string;
  TaskProgress_PercentComplete : Z;
  TaskProgress_Note : string;
}.

Definition TaskProgress_Validate (v : TaskProgress) : result unit :=
  call requireText "task identifier" (TaskProgress_TaskID v) MaxShortTextBytes;
  call requireMatch "stage" (TaskProgress_Stage v) tokenPattern;
  refuse 100 <? TaskProgress_PercentComplete v with NewError "progress exceeds its own scale";
  optionalText "note" (TaskProgress_Note v) MaxShortTextBytes.

Definition TaskProgress_encode (v : TaskProgress) (buffer : bytes) : bytes :=
  let buffer := canon_Text buffer (TaskProgress_TaskID v) in
  let buffer := canon_Text buffer (TaskProgress_Stage v) in
  let buffer := canon_Uint32 buffer (TaskProgress_PercentComplete v) in
  canon_Text buffer (TaskProgress_Note v).

Definition decodeTaskProgress (reader : Reader) : TaskProgress * Reader :=
  let '(TaskID, reader) := Reader_Text MaxShortTextBytes reader in
  let '(Stage, reader) := Reader_Text MaxShortTextBytes reader in
  let '(PercentComplete, reader) := Reader_Uint32 reader in
  let '(Note, reader) := Reader_Text MaxShortTextBytes reader in
  (MkTaskProgress TaskID Stage PercentComplete Note, reader).

Record TaskResult : Type := MkTaskResult {
  TaskResult_TaskID : string;
  TaskResult_Outcome : string;
  TaskResult_OutputDigest : string;
  TaskResult_Reason : string;
}.

Definition TaskResult_Validate (v : TaskResult) : result unit :=
  call requireText "task identifier" (TaskResult_TaskID v) MaxShortTextBytes;
  call requireMember "task outcome" (TaskResult_Outcome v) taskOutcomes;
  if String.eqb (TaskResult_Outcome v) "succeeded" then
    call requireDigest "output digest" (TaskResult_OutputDigest v);
    optionalText "reason" (TaskResult_Reason v) MaxShortTextBytes
  else
    refuse negb (String.eqb (TaskResult_OutputDigest v) "")
      with NewError "a task that did not succeed reported an output";
    requireText "reason" (TaskResult_Reason v) MaxShortTextBytes.

Definition TaskResult_encode (v : TaskResult) (buffer : bytes) : bytes :=
  let buffer := canon_Text buffer (TaskResult_TaskID v) in
  let buffer := canon_Text buffer (TaskResult_Outcome v) in
  let buffer := canon_Text buffer (TaskResult_OutputDigest v) in
  canon_Text buffer (TaskResult_Reason v).

Definition decodeTaskResult (reader : Reader) : TaskResult * Reader :=
  let '(TaskID, reader) := Reader_Text MaxShortTextBytes reader in
  let '(Outcome, reader) := Reader_Text MaxShortTextBytes reader in
  let '(OutputDigest, reader) := Reader_Text MaxDigestBytes reader in
  let '(Reason, reader) := Reader_Text MaxShortTextBytes reader in
  (MkTaskResult TaskID Outcome OutputDigest Reason, reader).

Record TaskStatusRequest : Type := MkTaskStatusRequest {
  TaskStatusRequest_TaskID : string;
}.

Definition TaskStatusRequest_Validate (v : TaskStatusRequest) : result unit :=
  requireText "task identifier" (TaskStatusRequest_TaskID v) MaxShortTextBytes.

Definition TaskStatusRequest_encode (v : TaskStatusRequest) (buffer : bytes) : bytes :=
  canon_Text buffer (TaskStatusRequest_TaskID v).

Definition decodeTaskStatusRequest (reader : Reader) : TaskStatusRequest * Reader :=
  let '(TaskID, reader) := Reader_Text MaxShortTextBytes reader in
  (MkTaskStatusRequest TaskID, reader).

Record NegotiationWithdraw : Type := MkNegotiationWithdraw {
  NegotiationWithdraw_NegotiationID : string;
  NegotiationWithdraw_Reason : string;
}.

Definition NegotiationWithdraw_Validate (v : NegotiationWithdraw) : result unit :=
  call requireText "negotiation identifier" (NegotiationWithdraw_NegotiationID v) MaxShortTextBytes;
  requireText "reason" (NegotiationWithdraw_Reason v) MaxShortTextBytes.

Definition NegotiationWithdraw_encode (v : NegotiationWithdraw) (buffer : bytes) : bytes :=
  let buffer := canon_Text buffer (NegotiationWithdraw_NegotiationID v) in
  canon_Text buffer (NegotiationWithdraw_Reason v).

Definition decodeNegotiationWithdraw (reader : Reader) : NegotiationWithdraw * Reader :=
  let '(NegotiationID, reader) := Reader_Text MaxShortTextBytes reader in
  let '(Reason, reader) := Reader_Text MaxShortTextBytes reader in
  (MkNegotiationWithdraw NegotiationID Reason, reader).

Record NegotiationIntentReject : Type := MkNegotiationIntentReject {
  NegotiationIntentReject_NegotiationID : string;
  NegotiationIntentReject_Reason : string;
}.

Definition NegotiationIntentReject_Validate (v : NegotiationIntentReject) : result unit :=
  call requireText "negotiation identifier" (NegotiationIntentReject_NegotiationID v) MaxShortTextBytes;
  requireText "reason" (NegotiationIntentReject_Reason v) MaxShortTextBytes.

Definition NegotiationIntentReject_encode (v : NegotiationIntentReject) (buffer : bytes) : bytes :=
  let buffer := canon_Text buffer (NegotiationIntentReject_NegotiationID v) in
  canon_Text buffer (NegotiationIntentReject_Reason v).

Definition decodeNegotiationIntentReject (reader : Reader) : NegotiationIntentReject * Reader :=
  let '(NegotiationID, reader) := Reader_Text MaxShortTextBytes reader in
  let '(Reason, reader) := Reader_Text MaxShortTextBytes reader in
  (MkNegotiationIntentReject NegotiationID Reason, reader).

Record CounterpartyApprovalRequest : Type := MkCounterpartyApprovalRequest {
  CounterpartyApprovalRequest_ApprovalID : string;
  CounterpartyApprovalRequest_Subject : string;
  CounterpartyApprovalRequest_Detail : string;
}.

Definition CounterpartyApprovalRequest_Validate (v : CounterpartyApprovalRequest) : result unit :=
  call requireText "approval identifier" (CounterpartyApprovalRequest_ApprovalID v) MaxShortTextBytes;
  call requireMatch "subject" (CounterpartyApprovalRequest_Subject v) tokenPattern;
  optionalText "detail" (CounterpartyApprovalRequest_Detail v) MaxShortTextBytes.

Definition CounterpartyApprovalRequest_encode (v : CounterpartyApprovalRequest) (buffer : bytes) : bytes :=
  let buffer := canon_Text buffer (CounterpartyApprovalRequest_ApprovalID v) in
  let buffer := canon_Text buffer (CounterpartyApprovalRequest_Subject v) in
  canon_Text buffer (CounterpartyApprovalRequest_Detail v).

Definition decodeCounterpartyApprovalRequest (reader : Reader) : CounterpartyApprovalRequest * Reader :=
  let '(ApprovalID, reader) := Reader_Text MaxShortTextBytes reader in
  let '(Subject, reader) := Reader_Text MaxShortTextBytes reader in
  let '(Detail, reader) := Reader_Text MaxShortTextBytes reader in
  (MkCounterpartyApprovalRequest ApprovalID Subject Detail, reader).

Record CounterpartyApprovalGranted : Type := MkCounterpartyApprovalGranted {
  CounterpartyApprovalGranted_ApprovalID : string;
  CounterpartyApprovalGranted_DecidedAtUnix : Z;
}.

Definition CounterpartyApprovalGranted_Validate (v : CounterpartyApprovalGranted) : result unit :=
  call requireText "approval identifier" (CounterpartyApprovalGranted_ApprovalID v) MaxShortTextBytes;
  requireTime "decision time" (CounterpartyApprovalGranted_DecidedAtUnix v).

Definition CounterpartyApprovalGranted_encode (v : CounterpartyApprovalGranted) (buffer : bytes) : bytes :=
  let buffer := canon_Text buffer (CounterpartyApprovalGranted_ApprovalID v) in
  canon_Uint64 buffer (CounterpartyApprovalGranted_DecidedAtUnix v).

Definition decodeCounterpartyApprovalGranted (reader : Reader) : CounterpartyApprovalGranted * Reader :=
  let '(ApprovalID, reader) := Reader_Text MaxShortTextBytes reader in
  let '(DecidedAtUnix, reader) := Reader_Uint64 reader in
  (MkCounterpartyApprovalGranted ApprovalID DecidedAtUnix, reader).

Record CounterpartyApprovalDenied : Type := MkCounterpartyApprovalDenied {
  CounterpartyApprovalDenied_ApprovalID : string;
  CounterpartyApprovalDenied_DecidedAtUnix : Z;
  CounterpartyApprovalDenied_Reason : string;
}.

Definition CounterpartyApprovalDenied_Validate (v : CounterpartyApprovalDenied) : result unit :=
  call requireText "approval identifier" (CounterpartyApprovalDenied_ApprovalID v) MaxShortTextBytes;
  call requireTime "decision time" (CounterpartyApprovalDenied_DecidedAtUnix v);
  optionalText "reason" (CounterpartyApprovalDenied_Reason v) MaxShortTextBytes.

Definition CounterpartyApprovalDenied_encode (v : CounterpartyApprovalDenied) (buffer : bytes) : bytes :=
  let buffer := canon_Text buffer (CounterpartyApprovalDenied_ApprovalID v) in
  let buffer := canon_Uint64 buffer (CounterpartyApprovalDenied_DecidedAtUnix v) in
  canon_Text buffer (CounterpartyApprovalDenied_Reason v).

Definition decodeCounterpartyApprovalDenied (reader : Reader) : CounterpartyApprovalDenied * Reader :=
  let '(ApprovalID, reader) := Reader_Text MaxShortTextBytes reader in
  let '(DecidedAtUnix, reader) := Reader_Uint64 reader in
  let '(Reason, reader) := Reader_Text MaxShortTextBytes reader in
  (MkCounterpartyApprovalDenied ApprovalID DecidedAtUnix Reason, reader).

Record OwnerApprovalGrant : Type := MkOwnerApprovalGrant {
  OwnerApprovalGrant_ApprovalID : string;
  OwnerApprovalGrant_EventID : string;
  OwnerApprovalGrant_DecidedAtUnix : Z;
}.

Definition OwnerApprovalGrant_Validate (v : OwnerApprovalGrant) : result unit :=
  call requireText "approval identifier" (OwnerApprovalGrant_ApprovalID v) MaxShortTextBytes;
  call requireEvent "approved event" (OwnerApprovalGrant_EventID v);
  requireTime "decision time" (OwnerApprovalGrant_DecidedAtUnix v).

Definition OwnerApprovalGrant_encode (v : OwnerApprovalGrant) (buffer : bytes) : bytes :=
  let buffer := canon_Text buffer (OwnerApprovalGrant_ApprovalID v) in
  let buffer := canon_Text buffer (OwnerApprovalGrant_EventID v) in
  canon_Uint64 buffer (OwnerApprovalGrant_DecidedAtUnix v).

Definition decodeOwnerApprovalGrant (reader : Reader) : OwnerApprovalGrant * Reader :=
  let '(ApprovalID, reader) := Reader_Text MaxShortTextBytes reader in
  let '(EventID, reader) := Reader_Text MaxShortTextBytes reader in
  let '(DecidedAtUnix, reader) := Reader_Uint64 reader in
  (MkOwnerApprovalGrant ApprovalID EventID DecidedAtUnix, reader).

Record OwnerApprovalDeny : Type := MkOwnerApprovalDeny {
  OwnerApprovalDeny_ApprovalID : string;
  OwnerApprovalDeny_EventID : string;
  OwnerApprovalDeny_DecidedAtUnix : Z;
  OwnerApprovalDeny_Reason : string;
}.

Definition OwnerApprovalDeny_Validate (v : OwnerApprovalDeny) : result unit :=
  call requireText "approval identifier" (OwnerApprovalDeny_ApprovalID v) MaxShortTextBytes;
  call requireEvent "refused event" (OwnerApprovalDeny_EventID v);
  call requireTime "decision time" (OwnerApprovalDeny_DecidedAtUnix v);
  optionalText "reason" (OwnerApprovalDeny_Reason v) MaxShortTextBytes.

Definition OwnerApprovalDeny_encode (v : OwnerApprovalDeny) (buffer : bytes) : bytes :=
  let buffer := canon_Text buffer (OwnerApprovalDeny_ApprovalID v) in
  let buffer := canon_Text buffer (OwnerApprovalDeny_EventID v) in
  let buffer := canon_Uint64 buffer (OwnerApprovalDeny_DecidedAtUnix v) in
  canon_Text buffer (OwnerApprovalDeny_Reason v).

Definition decodeOwnerApprovalDeny (reader : Reader) : OwnerApprovalDeny * Reader :=
  let '(ApprovalID, reader) := Reader_Text MaxShortTextBytes reader in
  let '(EventID, reader) := Reader_Text MaxShortTextBytes reader in
  let '(DecidedAtUnix, reader) := Reader_Uint64 reader in
  let '(Reason, reader) := Reader_Text MaxShortTextBytes reader in
  (MkOwnerApprovalDeny ApprovalID EventID DecidedAtUnix Reason, reader).

Record Foreign : Type := MkForeign {
  Foreign_Protocol : string;
  Foreign_Version : string;
  Foreign_Body : bytes;
}.

Definition Foreign_Validate (v : Foreign) : result unit :=
  call requireMatch "protocol" (Foreign_Protocol v) protocolPattern;
  call requireText "protocol version" (Foreign_Version v) MaxShortTextBytes;
  refuse blen (Foreign_Body v) =? 0 with NewError "a carried message has no body";
  refuse MaxOpaqueBytes <? blen (Foreign_Body v) with NewError "a carried message exceeds its bound";
  Ok tt.

Definition Foreign_encode (v : Foreign) (buffer : bytes) : bytes :=
  let buffer := canon_Text buffer (Foreign_Protocol v) in
  let buffer := canon_Text buffer (Foreign_Version v) in
  canon_Bytes buffer (Foreign_Body v).

Definition decodeForeign (reader : Reader) : Foreign * Reader :=
  let '(Protocol, reader) := Reader_Text MaxShortTextBytes reader in
  let '(Version, reader) := Reader_Text MaxShortTextBytes reader in
  let '(Body, reader) := Reader_Bytes MaxOpaqueBytes reader in
  (MkForeign Protocol Version (default [] Body), reader).

Record ArtifactOffer : Type := MkArtifactOffer {
  ArtifactOffer_ArtifactDigest : string;
  ArtifactOffer_MediaType : string;
  ArtifactOffer_SizeBytes : Z;
  ArtifactOffer_Description : string;
}.

Definition ArtifactOffer_Validate (v : ArtifactOffer) : result unit :=
  call requireDigest "artifact digest" (ArtifactOffer_ArtifactDigest v);
  call requireText "media type" (ArtifactOffer_MediaType v) MaxShortTextBytes;
  refuse ArtifactOffer_SizeBytes v =? 0 with NewError "an offered artifact has no size";
  optionalText "description" (ArtifactOffer_Description v) MaxShortTextBytes.

Definition ArtifactOffer_encode (v : ArtifactOffer) (buffer : bytes) : bytes :=
  let buffer := canon_Text buffer (ArtifactOffer_ArtifactDigest v) in
  let buffer := canon_Text buffer (ArtifactOffer_MediaType v) in
  let buffer := canon_Uint64 buffer (ArtifactOffer_SizeBytes v) in
  canon_Text buffer (ArtifactOffer_Description v).

Definition decodeArtifactOffer (reader : Reader) : ArtifactOffer * Reader :=
  let '(ArtifactDigest, reader) := Reader_Text MaxDigestBytes reader in
  let '(MediaType, reader) := Reader_Text MaxShortTextBytes reader in
  let '(SizeBytes, reader) := Reader_Uint64 reader in
  let '(Description, reader) := Reader_Text MaxShortTextBytes reader in
  (MkArtifactOffer ArtifactDigest MediaType SizeBytes Description, reader).

Record ArtifactReference : Type := MkArtifactReference {
  ArtifactReference_ArtifactDigest : string;
  ArtifactReference_Locator : string;
}.

Definition ArtifactReference_Validate (v : ArtifactReference) : result unit :=
  call requireDigest "artifact digest" (ArtifactReference_ArtifactDigest v);
  requireText "locator" (ArtifactReference_Locator v) MaxShortTextBytes.

Definition ArtifactReference_encode (v : ArtifactReference) (buffer : bytes) : bytes :=
  let buffer := canon_Text buffer (ArtifactReference_ArtifactDigest v) in
  canon_Text buffer (ArtifactReference_Locator v).

Definition decodeArtifactReference (reader : Reader) : ArtifactReference * Reader :=
  let '(ArtifactDigest, reader) := Reader_Text MaxDigestBytes reader in
  let '(Locator, reader) := Reader_Text MaxShortTextBytes reader in
  (MkArtifactReference ArtifactDigest Locator, reader).

Record ChainReference : Type := MkChainReference {
  ChainReference_Account : string;
  ChainReference_StateDigest : string;
}.

Definition ChainReference_Validate (v : ChainReference) : result unit :=
  call requireText "account" (ChainReference_Account v) MaxShortTextBytes;
  requireDigest "state digest" (ChainReference_StateDigest v).

Definition ChainReference_encode (v : ChainReference) (buffer : bytes) : bytes :=
  let buffer := canon_Text buffer (ChainReference_Account v) in
  canon_Text buffer (ChainReference_StateDigest v).

Definition decodeChainReference (reader : Reader) : ChainReference * Reader :=
  let '(Account, reader) := Reader_Text MaxShortTextBytes reader in
  let '(StateDigest, reader) := Reader_Text MaxDigestBytes reader in
  (MkChainReference Account StateDigest, reader).

Record DeliveryAck : Type := MkDeliveryAck {
  DeliveryAck_EventID : string;
  DeliveryAck_ReceivedAtUnix : Z;
}.

Definition DeliveryAck_Validate (v : DeliveryAck) : result unit :=
  call requireEvent "acknowledged event" (DeliveryAck_EventID v);
  requireTime "arrival time" (DeliveryAck_ReceivedAtUnix v).

Definition DeliveryAck_encode (v : DeliveryAck) (buffer : bytes) : bytes :=
  let buffer := canon_Text buffer (DeliveryAck_EventID v) in
  canon_Uint64 buffer (DeliveryAck_ReceivedAtUnix v).

Definition decodeDeliveryAck (reader : Reader) : DeliveryAck * Reader :=
  let '(EventID, reader) := Reader_Text MaxShortTextBytes reader in
  let '(ReceivedAtUnix, reader) := Reader_Uint64 reader in
  (MkDeliveryAck EventID ReceivedAtUnix, reader).

Record ApplicationAck : Type := MkApplicationAck {
  ApplicationAck_EventID : string;
  ApplicationAck_Outcome : string;
  ApplicationAck_DecidedAtUnix : Z;
  ApplicationAck_Reason : string;
}.

Definition ApplicationAck_Validate (v : ApplicationAck) : result unit :=
  call requireEvent "acknowledged event" (ApplicationAck_EventID v);
  call requireMember "application outcome" (ApplicationAck_Outcome v) applicationOutcomes;
  call requireTime "decision time" (ApplicationAck_DecidedAtUnix v);
  if String.eqb (ApplicationAck_Outcome v) "rejected"
  then requireText "reason" (ApplicationAck_Reason v) MaxShortTextBytes
  else optionalText "reason" (ApplicationAck_Reason v) MaxShortTextBytes.

Definition ApplicationAck_encode (v : ApplicationAck) (buffer : bytes) : bytes :=
  let buffer := canon_Text buffer (ApplicationAck_EventID v) in
  let buffer := canon_Text buffer (ApplicationAck_Outcome v) in
  let buffer := canon_Uint64 buffer (ApplicationAck_DecidedAtUnix v) in
  canon_Text buffer (ApplicationAck_Reason v).

Definition decodeApplicationAck (reader : Reader) : ApplicationAck * Reader :=
  let '(EventID, reader) := Reader_Text MaxShortTextBytes reader in
  let '(Outcome, reader) := Reader_Text MaxShortTextBytes reader in
  let '(DecidedAtUnix, reader) := Reader_Uint64 reader in
  let '(Reason, reader) := Reader_Text MaxShortTextBytes reader in
  (MkApplicationAck EventID Outcome DecidedAtUnix Reason, reader).

Record ReadAck : Type := MkReadAck {
  ReadAck_EventID : string;
  ReadAck_ReadAtUnix : Z;
}.

Definition ReadAck_Validate (v : ReadAck) : result unit :=
  call requireEvent "read event" (ReadAck_EventID v);
  requireTime "read time" (ReadAck_ReadAtUnix v).

Definition ReadAck_encode (v : ReadAck) (buffer : bytes) : bytes :=
  let buffer := canon_Text buffer (ReadAck_EventID v) in
  canon_Uint64 buffer (ReadAck_ReadAtUnix v).

Definition decodeReadAck (reader : Reader) : ReadAck * Reader :=
  let '(EventID, reader) := Reader_Text MaxShortTextBytes reader in
  let '(ReadAtUnix, reader) := Reader_Uint64 reader in
  (MkReadAck EventID ReadAtUnix, reader).

Record RoomInvite : Type := MkRoomInvite {
  RoomInvite_RoomID : string;
  RoomInvite_InviteeAgentID : string;
  RoomInvite_Purpose : string;
  RoomInvite_ExpiresAtUnix : Z;
}.

Definition RoomInvite_Validate (v : RoomInvite) : result unit :=
  call requireMatch "room" (RoomInvite_RoomID v) ids_Room;
  call requireMatch "invitee" (RoomInvite_InviteeAgentID v) ids_Agent;
  call requireText "purpose" (RoomInvite_Purpose v) MaxShortTextBytes;
  requireTime "invitation expiry" (RoomInvite_ExpiresAtUnix v).

Definition RoomInvite_encode (v : RoomInvite) (buffer : bytes) : bytes :=
  let buffer := canon_Text buffer (RoomInvite_RoomID v) in
  let buffer := canon_Text buffer (RoomInvite_InviteeAgentID v) in
  let buffer := canon_Text buffer (RoomInvite_Purpose v) in
  canon_Uint64 buffer (RoomInvite_ExpiresAtUnix v).

Definition decodeRoomInvite (reader : Reader) : RoomInvite * Reader :=
  let '(RoomID, reader) := Reader_Text MaxShortTextBytes reader in
  let '(InviteeAgentID, reader) := Reader_Text MaxShortTextBytes reader in
  let '(Purpose, reader) := Reader_Text MaxShortTextBytes reader in
  let '(ExpiresAtUnix, reader) := Reader_Uint64 reader in
  (MkRoomInvite RoomID InviteeAgentID Purpose ExpiresAtUnix, reader).

Record RoomMembershipCommit : Type := MkCommit {
  rc_RoomID : string;
  rc_Epoch : Z;
  rc_MembershipDigest : string;
  rc_MemberCount : Z;
}.

Definition RoomMembershipCommit_Validate (v : RoomMembershipCommit) : result unit :=
  call requireMatch "room" (rc_RoomID v) ids_Room;
  refuse rc_Epoch v =? 0 with NewError "a membership commit has no epoch";
  call requireDigest "membership digest" (rc_MembershipDigest v);
  refuse rc_MemberCount v =? 0 with NewError "a room with no members is not a room";
  Ok tt.

Definition RoomMembershipCommit_encode (v : RoomMembershipCommit) (buffer : bytes) : bytes :=
  let buffer := canon_Text buffer (rc_RoomID v) in
  let buffer := canon_Uint64 buffer (rc_Epoch v) in
  let buffer := canon_Text buffer (rc_MembershipDigest v) in
  canon_Uint32 buffer (rc_MemberCount v).

Definition decodeRoomMembershipCommit (reader : Reader) : RoomMembershipCommit * Reader :=
  let '(RoomID, reader) := Reader_Text MaxShortTextBytes reader in
  let '(Epoch, reader) := Reader_Uint64 reader in
  let '(MembershipDigest, reader) := Reader_Text MaxDigestBytes reader in
  let '(MemberCount, reader) := Reader_Uint32 reader in
  (MkCommit RoomID Epoch MembershipDigest MemberCount, reader).

Record RoomMessage : Type := MkRoomMessage {
  RoomMessage_RoomID : string;
  RoomMessage_Epoch : Z;
  RoomMessage_MediaType : string;
  RoomMessage_Body : string;
}.

Definition RoomMessage_Validate (v : RoomMessage) : result unit :=
  call requireMatch "room" (RoomMessage_RoomID v) ids_Room;
  refuse RoomMessage_Epoch v =? 0 with NewError "a room message names no membership epoch";
  call requireMember "media type" (RoomMessage_MediaType v) mediaTypes;
  requireText "body" (RoomMessage_Body v) MaxTextBytes.

Definition RoomMessage_encode (v : RoomMessage) (buffer : bytes) : bytes :=
  let buffer := canon_Text buffer (RoomMessage_RoomID v) in
  let buffer := canon_Uint64 buffer (RoomMessage_Epoch v) in
  let buffer := canon_Text buffer (RoomMessage_MediaType v) in
  canon_Text buffer (RoomMessage_Body v).

Definition decodeRoomMessage (reader : Reader) : RoomMessage * Reader :=
  let '(RoomID, reader) := Reader_Text MaxShortTextBytes reader in
  let '(Epoch, reader) := Reader_Uint64 reader in
  let '(MediaType, reader) := Reader_Text MaxShortTextBytes reader in
  let '(Body, reader) := Reader_Text MaxTextBytes reader in
  (MkRoomMessage RoomID Epoch MediaType Body, reader).

Record RoomModeration : Type := MkModeration {
  rm_RoomID : string;
  rm_MembershipEpoch : Z;
  rm_RolePolicyRevision : Z;
  rm_TargetEventID : string;
  rm_DecisionRevision : Z;
  rm_Action : string;
  rm_Reason : string;
}.

Definition RoomModeration_Validate (v : RoomModeration) : result unit :=
  call requireMatch "room" (rm_RoomID v) ids_Room;
  refuse (rm_MembershipEpoch v =? 0) || (rm_RolePolicyRevision v =? 0) || (rm_DecisionRevision v =? 0)
    with NewError "room moderation has no authority revision";
  call requireEvent "moderation target" (rm_TargetEventID v);
  refuse negb (String.eqb (rm_Action v) "hide") && negb (String.eqb (rm_Action v) "restore")
    with NewError "unknown room moderation action";
  requireText "moderation reason" (rm_Reason v) MaxShortTextBytes.

Definition RoomModeration_encode (v : RoomModeration) (buffer : bytes) : bytes :=
  let buffer := canon_Text buffer (rm_RoomID v) in
  let buffer := canon_Uint64 buffer (rm_MembershipEpoch v) in
  let buffer := canon_Uint64 buffer (rm_RolePolicyRevision v) in
  let buffer := canon_Text buffer (rm_TargetEventID v) in
  let buffer := canon_Uint64 buffer (rm_DecisionRevision v) in
  let buffer := canon_Text buffer (rm_Action v) in
  canon_Text buffer (rm_Reason v).

Definition decodeRoomModeration (reader : Reader) : RoomModeration * Reader :=
  let '(RoomID, reader) := Reader_Text MaxShortTextBytes reader in
  let '(MembershipEpoch, reader) := Reader_Uint64 reader in
  let '(RolePolicyRevision, reader) := Reader_Uint64 reader in
  let '(TargetEventID, reader) := Reader_Text MaxShortTextBytes reader in
  let '(DecisionRevision, reader) := Reader_Uint64 reader in
  let '(Action, reader) := Reader_Text MaxShortTextBytes reader in
  let '(Reason, reader) := Reader_Text MaxShortTextBytes reader in
  (MkModeration RoomID MembershipEpoch RolePolicyRevision TargetEventID DecisionRevision Action Reason, reader).

Record GiftAddressRequest : Type := MkGiftAddressRequest {
  GiftAddressRequest_CanonicalRequest : bytes;
}.

Definition GiftAddressRequest_Validate (v : GiftAddressRequest) : result unit :=
  validateGiftCanonical (GiftAddressRequest_CanonicalRequest v).

Definition GiftAddressRequest_encode (v : GiftAddressRequest) (buffer : bytes) : bytes :=
  canon_Bytes buffer (GiftAddressRequest_CanonicalRequest v).

Definition decodeGiftAddressRequest (reader : Reader) : GiftAddressRequest * Reader :=
  let '(CanonicalRequest, reader) := Reader_Bytes MaxGiftCanonicalBytes reader in
  (MkGiftAddressRequest (default [] CanonicalRequest), reader).

Record GiftAddressResponse : Type := MkGiftAddressResponse {
  GiftAddressResponse_CanonicalResponse : bytes;
}.

Definition GiftAddressResponse_Validate (v : GiftAddressResponse) : result unit :=
  validateGiftCanonical (GiftAddressResponse_CanonicalResponse v).

Definition GiftAddressResponse_encode (v : GiftAddressResponse) (buffer : bytes) : bytes :=
  canon_Bytes buffer (GiftAddressResponse_CanonicalResponse v).

Definition decodeGiftAddressResponse (reader : Reader) : GiftAddressResponse * Reader :=
  let '(CanonicalResponse, reader) := Reader_Bytes MaxGiftCanonicalBytes reader in
  (MkGiftAddressResponse (default [] CanonicalResponse), reader).

Record GiftSignedBOCOffer : Type := MkGiftSignedBOCOffer {
  GiftSignedBOCOffer_CanonicalOffer : bytes;
}.

Definition GiftSignedBOCOffer_Validate (v : GiftSignedBOCOffer) : result unit :=
  validateGiftCanonical (GiftSignedBOCOffer_CanonicalOffer v).

Definition GiftSignedBOCOffer_encode (v : GiftSignedBOCOffer) (buffer : bytes) : bytes :=
  canon_Bytes buffer (GiftSignedBOCOffer_CanonicalOffer v).

Definition decodeGiftSignedBOCOffer (reader : Reader) : GiftSignedBOCOffer * Reader :=
  let '(CanonicalOffer, reader) := Reader_Bytes MaxGiftCanonicalBytes reader in
  (MkGiftSignedBOCOffer (default [] CanonicalOffer), reader).

Record CommerceProfileEvent : Type := MkCommerceProfileEvent {
  CommerceProfileEvent_ObjectDigest : string;
  CommerceProfileEvent_CanonicalEvent : bytes;
}.

Definition CommerceProfileEvent_encode (v : CommerceProfileEvent) (buffer : bytes) : bytes :=
  let buffer := canon_Text buffer (CommerceProfileEvent_ObjectDigest v) in
  canon_Bytes buffer (CommerceProfileEvent_CanonicalEvent v).

Record IntentApplication : Type := MkIntentApplication {
  IntentApplication_CanonicalApplication : bytes;
}.

Definition IntentApplication_encode (v : IntentApplication) (buffer : bytes) : bytes :=
  canon_Bytes buffer (IntentApplication_CanonicalApplication v).

Definition decodeIntentApplication (reader : Reader) : IntentApplication * Reader :=
  let '(CanonicalApplication, reader) := Reader_Bytes MaxIntentApplicationBytes reader in
  (MkIntentApplication (default [] CanonicalApplication), reader).

Record OperationOutcome : Type := MkOperationOutcome {
  OperationOutcome_OperationID : string;
  OperationOutcome_OperationEnvelopeDigest : string;
  OperationOutcome_CanonicalRequest : bytes;
}.

Definition OperationOutcome_encode (v : OperationOutcome) (buffer : bytes) : bytes :=
  let buffer := canon_Text buffer (OperationOutcome_OperationID v) in
  let buffer := canon_Text buffer (OperationOutcome_OperationEnvelopeDigest v) in
  canon_Bytes buffer (OperationOutcome_CanonicalRequest v).

Definition decodeOperationOutcome (reader : Reader) : OperationOutcome * Reader :=
  let '(OperationID, reader) := Reader_Text MaxDigestBytes reader in
  let '(OperationEnvelopeDigest, reader) := Reader_Text MaxDigestBytes reader in
  let '(CanonicalRequest, reader) := Reader_Bytes MaxInlineOperationOutcomeBytes reader in
  (MkOperationOutcome OperationID OperationEnvelopeDigest (default [] CanonicalRequest), reader).

Record PrivateHandoffChallenge : Type := MkPrivateHandoffChallenge {
  PrivateHandoffChallenge_ChallengeDigest : string;
  PrivateHandoffChallenge_CanonicalChallenge : bytes;
}.

Definition PrivateHandoffChallenge_encode (v : PrivateHandoffChallenge) (buffer : bytes) : bytes :=
  let buffer := canon_Text buffer (PrivateHandoffChallenge_ChallengeDigest v) in
  canon_Bytes buffer (PrivateHandoffChallenge_CanonicalChallenge v).

Definition decodePrivateHandoffChallenge (reader : Reader) : PrivateHandoffChallenge * Reader :=
  let '(ChallengeDigest, reader) := Reader_Text MaxDigestBytes reader in
  let '(CanonicalChallenge, reader) := Reader_Bytes MaxPrivateHandoffControlBytes reader in
  (MkPrivateHandoffChallenge ChallengeDigest (default [] CanonicalChallenge), reader).

Record PrivateHandoffAuthorization : Type := MkPrivateHandoffAuthorization {
  PrivateHandoffAuthorization_ChallengeDigest : string;
  PrivateHandoffAuthorization_AuthorizationDigest : string;
  PrivateHandoffAuthorization_CanonicalAuthorization : bytes;
}.

Definition PrivateHandoffAuthorization_encode (v : PrivateHandoffAuthorization) (buffer : bytes) : bytes :=
  let buffer := canon_Text buffer (PrivateHandoffAuthorization_ChallengeDigest v) in
  let buffer := canon_Text buffer (PrivateHandoffAuthorization_AuthorizationDigest v) in
  canon_Bytes buffer (PrivateHandoffAuthorization_CanonicalAuthorization v).

Definition decodePrivateHandoffAuthorization (reader : Reader) : PrivateHandoffAuthorization * Reader :=
  let '(ChallengeDigest, reader) := Reader_Text MaxDigestBytes reader in
  let '(AuthorizationDigest, reader) := Reader_Text MaxDigestBytes reader in
  let '(CanonicalAuthorization, reader) := Reader_Bytes MaxPrivateHandoffControlBytes reader in
  (MkPrivateHandoffAuthorization ChallengeDigest AuthorizationDigest (default [] CanonicalAuthorization), reader).

Record PrivateHandoffAcknowledgement : Type := MkPrivateHandoffAcknowledgement {
  PrivateHandoffAcknowledgement_ChallengeDigest : string;
  PrivateHandoffAcknowledgement_AcknowledgementDigest : string;
  PrivateHandoffAcknowledgement_CanonicalAcknowledgement : bytes;
}.

Definition PrivateHandoffAcknowledgement_encode (v : PrivateHandoffAcknowledgement) (buffer : bytes) : bytes :=
  let buffer := canon_Text buffer (PrivateHandoffAcknowledgement_ChallengeDigest v) in
  let buffer := canon_Text buffer (PrivateHandoffAcknowledgement_AcknowledgementDigest v) in
  canon_Bytes buffer (PrivateHandoffAcknowledgement_CanonicalAcknowledgement v).

Definition decodePrivateHandoffAcknowledgement (reader : Reader) : PrivateHandoffAcknowledgement * Reader :=
  let '(ChallengeDigest, reader) := Reader_Text MaxDigestBytes reader in
  let '(AcknowledgementDigest, reader) := Reader_Text MaxDigestBytes reader in
  let '(CanonicalAcknowledgement, reader) := Reader_Bytes MaxPrivateHandoffControlBytes reader in
  (MkPrivateHandoffAcknowledgement ChallengeDigest AcknowledgementDigest (default [] CanonicalAcknowledgement), reader).

Record PrivateHandoffStatus : Type := MkPrivateHandoffStatus {
  PrivateHandoffStatus_HandoffID : string;
  PrivateHandoffStatus_ActionID : string;
  PrivateHandoffStatus_State : string;
  PrivateHandoffStatus_EvidenceDigest : string;
}.

Definition PrivateHandoffStatus_Validate (v : PrivateHandoffStatus) : result unit :=
  call requireText "private handoff ID" (PrivateHandoffStatus_HandoffID v) MaxShortTextBytes;
  call requireDigest "private handoff action ID" (PrivateHandoffStatus_ActionID v);
  call requireMatch "private handoff state" (PrivateHandoffStatus_State v) tokenPattern;
  optionalDigest "private handoff evidence" (PrivateHandoffStatus_EvidenceDigest v).

Definition PrivateHandoffStatus_encode (v : PrivateHandoffStatus) (buffer : bytes) : bytes :=
  let buffer := canon_Text buffer (PrivateHandoffStatus_HandoffID v) in
  let buffer := canon_Text buffer (PrivateHandoffStatus_ActionID v) in
  let buffer := canon_Text buffer (PrivateHandoffStatus_State v) in
  canon_Text buffer (PrivateHandoffStatus_EvidenceDigest v).

Definition decodePrivateHandoffStatus (reader : Reader) : PrivateHandoffStatus * Reader :=
  let '(HandoffID, reader) := Reader_Text MaxShortTextBytes reader in
  let '(ActionID, reader) := Reader_Text MaxDigestBytes reader in
  let '(State, reader) := Reader_Text MaxShortTextBytes reader in
  let '(EvidenceDigest, reader) := Reader_Text MaxDigestBytes reader in
  (MkPrivateHandoffStatus HandoffID ActionID State EvidenceDigest, reader).

Record PrivateHandoffDelete : Type := MkPrivateHandoffDelete {
  PrivateHandoffDelete_HandoffID : string;
  PrivateHandoffDelete_ContentManifestDigest : string;
  PrivateHandoffDelete_RetentionPolicyDigest : string;
  PrivateHandoffDelete_DeleteActionID : string;
}.

(** The source checks the three digests in the order of a Go map; which of several
    errors is reported is not fixed. *)
Definition PrivateHandoffDelete_Validate (v : PrivateHandoffDelete) : result unit :=
  call requireText "private handoff ID" (PrivateHandoffDelete_HandoffID v) MaxShortTextBytes;
  call requireDigest "content manifest" (PrivateHandoffDelete_ContentManifestDigest v);
  call requireDigest "retention policy" (PrivateHandoffDelete_RetentionPolicyDigest v);
  requireDigest "delete action" (PrivateHandoffDelete_DeleteActionID v).

Definition PrivateHandoffDelete_encode (v : PrivateHandoffDelete) (buffer : bytes) : bytes :=
  let buffer := canon_Text buffer (PrivateHandoffDelete_HandoffID v) in
  let buffer := canon_Text buffer (PrivateHandoffDelete_ContentManifestDigest v) in
  let buffer := canon_Text buffer (PrivateHandoffDelete_RetentionPolicyDigest v) in
  canon_Text buffer (PrivateHandoffDelete_DeleteActionID v).

Definition decodePrivateHandoffDelete (reader : Reader) : PrivateHandoffDelete * Reader :=
  let '(HandoffID, reader) := Reader_Text MaxShortTextBytes reader in
  let '(ContentManifestDigest, reader) := Reader_Text MaxDigestBytes reader in
  let '(RetentionPolicyDigest, reader) := Reader_Text MaxDigestBytes reader in
  let '(DeleteActionID, reader) := Reader_Text MaxDigestBytes reader in
  (MkPrivateHandoffDelete HandoffID ContentManifestDigest RetentionPolicyDigest DeleteActionID, reader).

Record AgreementPropose : Type := MkAgreementPropose {
  AgreementPropose_AgreementBodyDigest : string;
  AgreementPropose_CanonicalBody : bytes;
}.

Definition AgreementPropose_encode (v : AgreementPropose) (buffer : bytes) : bytes :=
  let buffer := canon_Text buffer (AgreementPropose_AgreementBodyDigest v) in
  canon_Bytes buffer (AgreementPropose_CanonicalBody v).

Definition decodeAgreementPropose (reader : Reader) : AgreementPropose * Reader :=
  let '(AgreementBodyDigest, reader) := Reader_Text MaxDigestBytes reader in
  let '(CanonicalBody, reader) := Reader_Bytes MaxAgreementPromotionBytes reader in
  (MkAgreementPropose AgreementBodyDigest (default [] CanonicalBody), reader).

Record AgreementAccept : Type := MkAgreementAccept {
  AgreementAccept_AgreementBodyDigest : string;
  AgreementAccept_CanonicalAcceptance : bytes;
}.

Definition AgreementAccept_encode (v : AgreementAccept) (buffer : bytes) : bytes :=
  let buffer := canon_Text buffer (AgreementAccept_AgreementBodyDigest v) in
  canon_Bytes buffer (AgreementAccept_CanonicalAcceptance v).

Definition decodeAgreementAccept (reader : Reader) : AgreementAccept * Reader :=
  let '(AgreementBodyDigest, reader) := Reader_Text MaxDigestBytes reader in
  let '(CanonicalAcceptance, reader) := Reader_Bytes MaxAgreementPromotionBytes reader in
  (MkAgreementAccept AgreementBodyDigest (default [] CanonicalAcceptance), reader).

Record AgreementEvidence : Type := MkAgreementEvidence {
  AgreementEvidence_AgreementBodyDigest : string;
  AgreementEvidence_EvidenceDigest : string;
  AgreementEvidence_CanonicalEvidence : bytes;
}.

Definition AgreementEvidence_encode (v : AgreementEvidence) (buffer : bytes) : bytes :=
  let buffer := canon_Text buffer (AgreementEvidence_AgreementBodyDigest v) in
  let buffer := canon_Text buffer (AgreementEvidence_EvidenceDigest v) in
  canon_Bytes buffer (AgreementEvidence_CanonicalEvidence v).

Definition decodeAgreementEvidence (reader : Reader) : AgreementEvidence * Reader :=
  let '(AgreementBodyDigest, reader) := Reader_Text MaxDigestBytes reader in
  let '(EvidenceDigest, reader) := Reader_Text MaxDigestBytes reader in
  let '(CanonicalEvidence, reader) := Reader_Bytes MaxAgreementPromotionBytes reader in
  (MkAgreementEvidence AgreementBodyDigest EvidenceDigest (default [] CanonicalEvidence), reader).

Record PaidDemandProviderOffer : Type := MkPaidDemandProviderOffer {
  PaidDemandProviderOffer_AgreementBodyDigest : string;
  PaidDemandProviderOffer_ProviderOfferDigest : string;
  PaidDemandProviderOffer_CanonicalOffer : bytes;
}.

Definition PaidDemandProviderOffer_encode (v : PaidDemandProviderOffer) (buffer : bytes) : bytes :=
  let buffer := canon_Text buffer (PaidDemandProviderOffer_AgreementBodyDigest v) in
  let buffer := canon_Text buffer (PaidDemandProviderOffer_ProviderOfferDigest v) in
  canon_Bytes buffer (PaidDemandProviderOffer_CanonicalOffer v).

Definition decodePaidDemandProviderOffer (reader : Reader) : PaidDemandProviderOffer * Reader :=
  let '(AgreementBodyDigest, reader) := Reader_Text MaxDigestBytes reader in
  let '(ProviderOfferDigest, reader) := Reader_Text MaxDigestBytes reader in
  let '(CanonicalOffer, reader) := Reader_Bytes MaxAgreementPromotionBytes reader in
  (MkPaidDemandProviderOffer AgreementBodyDigest ProviderOfferDigest (default [] CanonicalOffer), reader).

Record AgreementWithdraw : Type := MkAgreementWithdraw {
  AgreementWithdraw_AgreementBodyDigest : string;
  AgreementWithdraw_ProposalActionID : string;
  AgreementWithdraw_Reason : string;
}.

Definition AgreementWithdraw_Validate (v : AgreementWithdraw) : result unit :=
  refuse negb (ValidDigest (AgreementWithdraw_AgreementBodyDigest v)) || negb (ValidDigest (AgreementWithdraw_ProposalActionID v))
    with NewError "Agreement withdrawal does not bind its exact proposal";
  requireText "Agreement withdrawal reason" (AgreementWithdraw_Reason v) MaxShortTextBytes.

Definition AgreementWithdraw_encode (v : AgreementWithdraw) (buffer : bytes) : bytes :=
  let buffer := canon_Text buffer (AgreementWithdraw_AgreementBodyDigest v) in
  let buffer := canon_Text buffer (AgreementWithdraw_ProposalActionID v) in
  canon_Text buffer (AgreementWithdraw_Reason v).

Definition decodeAgreementWithdraw (reader : Reader) : AgreementWithdraw * Reader :=
  let '(AgreementBodyDigest, reader) := Reader_Text MaxDigestBytes reader in
  let '(ProposalActionID, reader) := Reader_Text MaxDigestBytes reader in
  let '(Reason, reader) := Reader_Text MaxShortTextBytes reader in
  (MkAgreementWithdraw AgreementBodyDigest ProposalActionID Reason, reader).

Record AgreementDelivery : Type := MkAgreementDelivery {
  AgreementDelivery_AgreementBodyDigest : string;
  AgreementDelivery_ObligationID : string;
  AgreementDelivery_DeliverableManifestDigest : string;
}.

Definition AgreementDelivery_Validate (v : AgreementDelivery) : result unit :=
  refuse negb (ValidDigest (AgreementDelivery_AgreementBodyDigest v))
         || negb (ValidDigest (AgreementDelivery_DeliverableManifestDigest v))
    with NewError "Agreement delivery digest is invalid";
  requireText "Agreement delivery obligation" (AgreementDelivery_ObligationID v) MaxShortTextBytes.

Definition AgreementDelivery_encode (v : AgreementDelivery) (buffer : bytes) : bytes :=
  let buffer := canon_Text buffer (AgreementDelivery_AgreementBodyDigest v) in
  let buffer := canon_Text buffer (AgreementDelivery_ObligationID v) in
  canon_Text buffer (AgreementDelivery_DeliverableManifestDigest v).

Definition decodeAgreementDelivery (reader : Reader) : AgreementDelivery * Reader :=
  let '(AgreementBodyDigest, reader) := Reader_Text MaxDigestBytes reader in
  let '(ObligationID, reader) := Reader_Text MaxShortTextBytes reader in
  let '(DeliverableManifestDigest, reader) := Reader_Text MaxDigestBytes reader in
  (MkAgreementDelivery AgreementBodyDigest ObligationID DeliverableManifestDigest, reader).

(** *** Negotiation terms *)

(** [canon.MustHash32] panics on a malformed hash, which [Validate] excludes; the
    model then writes nothing. *)
Definition MustHash32 (buffer : bytes) (h : string) : bytes :=
  match canon_Hash32 buffer h with Ok b => b | Err _ => buffer end.

Definition encodeTerms (buffer : bytes) (terms : Terms) : bytes :=
  let asset := mo_Asset (t_Price terms) in
  let buffer := canon_Text buffer (t_CapabilityID terms) in
  let buffer := canon_Text buffer (t_CapabilityVersion terms) in
  let buffer := canon_Text buffer (t_CapabilityClass terms) in
  let buffer := canon_Text buffer (t_ProviderAgentID terms) in
  let buffer := canon_Text buffer (t_ManifestDigest terms) in
  let buffer := canon_Text buffer (t_TransportBindingDigest terms) in
  let buffer := canon_Text buffer (nw_ID (a_Network asset)) in
  let buffer := MustHash32 buffer (nw_GenesisRootHash (a_Network asset)) in
  let buffer := MustHash32 buffer (nw_GenesisFileHash (a_Network asset)) in
  let buffer := canon_Uint32 buffer (u32 (a_Workchain asset)) in
  let buffer := canon_Text buffer (a_AccountID asset) in
  let buffer := canon_Text buffer (a_MasterCodeHash asset) in
  let buffer := canon_Text buffer (a_WalletCodeHash asset) in
  let buffer := canon_Uint32 buffer (a_Decimals asset) in
  let buffer := canon_Text buffer (mo_Atomic (t_Price terms)) in
  let buffer := canon_Text buffer (t_EscrowTermsDigest terms) in
  let buffer := canon_Text buffer (t_DisputePolicyDigest terms) in
  canon_Uint64 buffer (t_NotAfterUnix terms).

Definition decodeTerms (reader : Reader) : Terms * Reader :=
  let '(CapabilityID, reader) := Reader_Text MaxShortTextBytes reader in
  let '(CapabilityVersion, reader) := Reader_Text MaxShortTextBytes reader in
  let '(CapabilityClass, reader) := Reader_Text MaxShortTextBytes reader in
  let '(ProviderAgentID, reader) := Reader_Text MaxShortTextBytes reader in
  let '(ManifestDigest, reader) := Reader_Text MaxDigestBytes reader in
  let '(TransportBindingDigest, reader) := Reader_Text MaxDigestBytes reader in
  let '(ID, reader) := Reader_Text MaxShortTextBytes reader in
  let '(GenesisRootHash, reader) := Reader_Hash32 reader in
  let '(GenesisFileHash, reader) := Reader_Hash32 reader in
  let '(Workchain, reader) := Reader_Uint32 reader in
  let '(AccountID, reader) := Reader_Text MaxShortTextBytes reader in
  let '(MasterCodeHash, reader) := Reader_Text MaxDigestBytes reader in
  let '(WalletCodeHash, reader) := Reader_Text MaxDigestBytes reader in
  let '(Decimals, reader) := Reader_Uint32 reader in
  let '(Atomic, reader) := Reader_Text MaxShortTextBytes reader in
  let '(EscrowTermsDigest, reader) := Reader_Text MaxDigestBytes reader in
  let '(DisputePolicyDigest, reader) := Reader_Text MaxDigestBytes reader in
  let '(NotAfterUnix, reader) := Reader_Uint64 reader in
  (MkTerms CapabilityID CapabilityVersion CapabilityClass ProviderAgentID ManifestDigest TransportBindingDigest
     (MkMoney (MkAsset (MkNetwork ID GenesisRootHash GenesisFileHash) (i32 Workchain) AccountID MasterCodeHash
                 WalletCodeHash Decimals) Atomic)
     EscrowTermsDigest DisputePolicyDigest NotAfterUnix, reader).

Record NegotiationProposal : Type := MkNegotiationProposal {
  NegotiationProposal_NegotiationID : string;
  NegotiationProposal_Terms : Terms;
}.

Definition NegotiationProposal_Validate (v : NegotiationProposal) : result unit :=
  call requireText "negotiation identifier" (NegotiationProposal_NegotiationID v) MaxShortTextBytes;
  Terms_Validate (NegotiationProposal_Terms v).

Definition NegotiationProposal_encode (v : NegotiationProposal) (buffer : bytes) : bytes :=
  let buffer := canon_Text buffer (NegotiationProposal_NegotiationID v) in
  encodeTerms buffer (NegotiationProposal_Terms v).

Definition decodeNegotiationProposal (reader : Reader) : NegotiationProposal * Reader :=
  let '(NegotiationID, reader) := Reader_Text MaxShortTextBytes reader in
  let '(Terms, reader) := decodeTerms reader in
  (MkNegotiationProposal NegotiationID Terms, reader).

Record NegotiationCounterproposal : Type := MkNegotiationCounterproposal {
  NegotiationCounterproposal_NegotiationID : string;
  NegotiationCounterproposal_Terms : Terms;
}.

Definition NegotiationCounterproposal_Validate (v : NegotiationCounterproposal) : result unit :=
  call requireText "negotiation identifier" (NegotiationCounterproposal_NegotiationID v) MaxShortTextBytes;
  Terms_Validate (NegotiationCounterproposal_Terms v).

Definition NegotiationCounterproposal_encode (v : NegotiationCounterproposal) (buffer : bytes) : bytes :=
  let buffer := canon_Text buffer (NegotiationCounterproposal_NegotiationID v) in
  encodeTerms buffer (NegotiationCounterproposal_Terms v).

Definition decodeNegotiationCounterproposal (reader : Reader) : NegotiationCounterproposal * Reader :=
  let '(NegotiationID, reader) := Reader_Text MaxShortTextBytes reader in
  let '(Terms, reader) := decodeTerms reader in
  (MkNegotiationCounterproposal NegotiationID Terms, reader).

Record NegotiationIntentAccept : Type := MkNegotiationIntentAccept {
  NegotiationIntentAccept_NegotiationID : string;
  NegotiationIntentAccept_Terms : Terms;
}.

Definition NegotiationIntentAccept_Validate (v : NegotiationIntentAccept) : result unit :=
  call requireText "negotiation identifier" (NegotiationIntentAccept_NegotiationID v) MaxShortTextBytes;
  Terms_Validate (NegotiationIntentAccept_Terms v).

Definition NegotiationIntentAccept_encode (v : NegotiationIntentAccept) (buffer : bytes) : bytes :=
  let buffer := canon_Text buffer (NegotiationIntentAccept_NegotiationID v) in
  encodeTerms buffer (NegotiationIntentAccept_Terms v).

Definition decodeNegotiationIntentAccept (reader : Reader) : NegotiationIntentAccept * Reader :=
  let '(NegotiationID, reader) := Reader_Text MaxShortTextBytes reader in
  let '(Terms, reader) := decodeTerms reader in
  (MkNegotiationIntentAccept NegotiationID Terms, reader).

(** *** Carried messages and chain references: one body under several schemas *)

Record A2AMessage : Type := MkA2AMessage { A2AMessage_Foreign : Foreign }.

Definition A2AMessage_Validate (v : A2AMessage) : result unit :=
  refuse negb (String.eqb (Foreign_Protocol (A2AMessage_Foreign v)) "a2a")
    with NewError "invalid A2A carriage profile";
  Foreign_Validate (A2AMessage_Foreign v).

Definition A2AMessage_encode (v : A2AMessage) (buffer : bytes) : bytes := Foreign_encode (A2AMessage_Foreign v) buffer.

Definition decodeA2AMessage (reader : Reader) : A2AMessage * Reader :=
  let '(body, reader) := decodeForeign reader in (MkA2AMessage body, reader).

Record MCPCall : Type := MkMCPCall { MCPCall_Foreign : Foreign }.

Definition MCPCall_Validate (v : MCPCall) : result unit :=
  refuse negb (String.eqb (Foreign_Protocol (MCPCall_Foreign v)) "mcp")
    with NewError "invalid MCP call carriage profile";
  Foreign_Validate (MCPCall_Foreign v).

Definition MCPCall_encode (v : MCPCall) (buffer : bytes) : bytes := Foreign_encode (MCPCall_Foreign v) buffer.

Definition decodeMCPCall (reader : Reader) : MCPCall * Reader :=
  let '(body, reader) := decodeForeign reader in (MkMCPCall body, reader).

Record MCPResult : Type := MkMCPResult { MCPResult_Foreign : Foreign }.

Definition MCPResult_Validate (v : MCPResult) : result unit :=
  refuse negb (String.eqb (Foreign_Protocol (MCPResult_Foreign v)) "mcp")
    with NewError "invalid MCP result carriage profile";
  Foreign_Validate (MCPResult_Foreign v).

Definition MCPResult_encode (v : MCPResult) (buffer : bytes) : bytes := Foreign_encode (MCPResult_Foreign v) buffer.

Definition decodeMCPResult (reader : Reader) : MCPResult * Reader :=
  let '(body, reader) := decodeForeign reader in (MkMCPResult body, reader).

Record AgentPacketMessage : Type := MkAgentPacketMessage { AgentPacketMessage_Foreign : Foreign }.

Definition AgentPacketMessage_Validate (v : AgentPacketMessage) : result unit :=
  refuse negb (String.eqb (Foreign_Protocol (AgentPacketMessage_Foreign v)) "agentpacket")
         || negb (String.eqb (Foreign_Version (AgentPacketMessage_Foreign v)) "1")
    with NewError "invalid Agent Packet carriage profile";
  Foreign_Validate (AgentPacketMessage_Foreign v).

Definition AgentPacketMessage_encode (v : AgentPacketMessage) (buffer : bytes) : bytes := Foreign_encode (AgentPacketMessage_Foreign v) buffer.

Definition decodeAgentPacketMessage (reader : Reader) : AgentPacketMessage * Reader :=
  let '(body, reader) := decodeForeign reader in (MkAgentPacketMessage body, reader).

Record QuoteReference : Type := MkQuoteReference { QuoteReference_ChainReference : ChainReference }.

Definition QuoteReference_Validate (v : QuoteReference) : result unit :=
  ChainReference_Validate (QuoteReference_ChainReference v).

Definition QuoteReference_encode (v : QuoteReference) (buffer : bytes) : bytes := ChainReference_encode (QuoteReference_ChainReference v) buffer.

Definition decodeQuoteReference (reader : Reader) : QuoteReference * Reader :=
  let '(body, reader) := decodeChainReference reader in (MkQuoteReference body, reader).

Record EscrowReference : Type := MkEscrowReference { EscrowReference_ChainReference : ChainReference }.

Definition EscrowReference_Validate (v : EscrowReference) : result unit :=
  ChainReference_Validate (EscrowReference_ChainReference v).

Definition EscrowReference_encode (v : EscrowReference) (buffer : bytes) : bytes := ChainReference_encode (EscrowReference_ChainReference v) buffer.

Definition decodeEscrowReference (reader : Reader) : EscrowReference * Reader :=
  let '(body, reader) := decodeChainReference reader in (MkEscrowReference body, reader).

Record ReceiptReference : Type := MkReceiptReference { ReceiptReference_ChainReference : ChainReference }.

Definition ReceiptReference_Validate (v : ReceiptReference) : result unit :=
  ChainReference_Validate (ReceiptReference_ChainReference v).

Definition ReceiptReference_encode (v : ReceiptReference) (buffer : bytes) : bytes := ChainReference_encode (ReceiptReference_ChainReference v) buffer.

Definition decodeReceiptReference (reader : Reader) : ReceiptReference * Reader :=
  let '(body, reader) := decodeChainReference reader in (MkReceiptReference body, reader).

(** *** History segments *)

Record DeviceHistorySegment : Type := MkDeviceHistorySegment {
  DeviceHistorySegment_SourceDeviceID : string;
  DeviceHistorySegment_TargetDeviceID : string;
  DeviceHistorySegment_ConversationID : string;
  DeviceHistorySegment_Sequence : Z;
  DeviceHistorySegment_PreviousSegmentDigest : string;
  DeviceHistorySegment_AfterCreatedAtUnix : Z;
  DeviceHistorySegment_AfterEventID : string;
  DeviceHistorySegment_Events : list bytes;
}.

Fixpoint check_segment_events (total : Z) (events : list bytes) : result unit :=
  match events with
  | [] => Ok tt
  | event :: rest =>
      refuse (blen event =? 0) || (MaxOpaqueBytes <? blen event) with NewError "history segment contains an invalid event";
      let total := total + blen event in
      refuse MaxHistorySegmentEventBytes <? total with NewError "history segment exceeds its content bound";
      check_segment_events total rest
  end.

Definition DeviceHistorySegment_Validate (v : DeviceHistorySegment) : result unit :=
  let source := DeviceHistorySegment_SourceDeviceID v in
  let target := DeviceHistorySegment_TargetDeviceID v in
  let count := Z.of_nat (length (DeviceHistorySegment_Events v)) in
  refuse negb (ids_Device source) || negb (ids_Device target) || String.eqb source target
    with NewError "history segment needs two distinct device identifiers";
  refuse negb (ids_Conversation (DeviceHistorySegment_ConversationID v))
    with NewError "history segment has an invalid conversation";
  refuse DeviceHistorySegment_Sequence v =? 0 with NewError "history segment sequence must start at one";
  refuse (DeviceHistorySegment_Sequence v =? 1)
         && (negb (String.eqb (DeviceHistorySegment_PreviousSegmentDigest v) "")
             || negb (DeviceHistorySegment_AfterCreatedAtUnix v =? 0)
             || negb (String.eqb (DeviceHistorySegment_AfterEventID v) ""))
    with NewError "first history segment cannot name a predecessor or cursor";
  refuse negb (DeviceHistorySegment_Sequence v =? 1)
         && (negb (ValidDigest (DeviceHistorySegment_PreviousSegmentDigest v))
             || (DeviceHistorySegment_AfterCreatedAtUnix v =? 0)
             || negb (ids_Event (DeviceHistorySegment_AfterEventID v)))
    with NewError "history segment needs its exact predecessor and cursor";
  refuse (count =? 0) || (MaxHistoryEventsPerSegment <? count)
    with NewError "history segment event count is outside its bound";
  check_segment_events 0 (DeviceHistorySegment_Events v).

Definition DeviceHistorySegment_encode (v : DeviceHistorySegment) (buffer : bytes) : bytes :=
  let buffer := canon_Text buffer (DeviceHistorySegment_SourceDeviceID v) in
  let buffer := canon_Text buffer (DeviceHistorySegment_TargetDeviceID v) in
  let buffer := canon_Text buffer (DeviceHistorySegment_ConversationID v) in
  let buffer := canon_Uint64 buffer (DeviceHistorySegment_Sequence v) in
  let buffer := canon_Text buffer (DeviceHistorySegment_PreviousSegmentDigest v) in
  let buffer := canon_Uint64 buffer (DeviceHistorySegment_AfterCreatedAtUnix v) in
  let buffer := canon_Text buffer (DeviceHistorySegment_AfterEventID v) in
  let buffer := canon_Uint32 buffer (u32 (Z.of_nat (length (DeviceHistorySegment_Events v)))) in
  fold_left canon_Bytes (DeviceHistorySegment_Events v) buffer.

(** The loop over the counted events. *)
Fixpoint read_events (n : nat) (reader : Reader) : list bytes * Reader :=
  match n with
  | O => ([], reader)
  | S n' =>
      let '(event, reader) := Reader_Bytes MaxOpaqueBytes reader in
      let '(events, reader) := read_events n' reader in
      (default [] event :: events, reader)
  end.

Definition decodeDeviceHistorySegment (reader : Reader) : DeviceHistorySegment * Reader :=
  let '(SourceDeviceID, reader) := Reader_Text MaxShortTextBytes reader in
  let '(TargetDeviceID, reader) := Reader_Text MaxShortTextBytes reader in
  let '(ConversationID, reader) := Reader_Text MaxShortTextBytes reader in
  let '(Sequence, reader) := Reader_Uint64 reader in
  let '(PreviousSegmentDigest, reader) := Reader_Text MaxDigestBytes reader in
  let '(AfterCreatedAtUnix, reader) := Reader_Uint64 reader in
  let '(AfterEventID, reader) := Reader_Text MaxShortTextBytes reader in
  let '(count, reader) := Reader_Count MaxHistoryEventsPerSegment reader in
  let '(Events, reader) := read_events (Z.to_nat count) reader in
  (MkDeviceHistorySegment SourceDeviceID TargetDeviceID ConversationID Sequence PreviousSegmentDigest
     AfterCreatedAtUnix AfterEventID Events, reader).

(** *** Encrypted attachments *)

Record EncryptedAttachment : Type := MkEncryptedAttachment {
  EncryptedAttachment_ManifestDigest : string;
  EncryptedAttachment_ReferenceJSON : bytes;
  EncryptedAttachment_Locator : string;
  EncryptedAttachment_FetchGrantJSON : bytes;
  EncryptedAttachment_FetchCapabilityPrivateKeyHex : string;
  EncryptedAttachment_schema : string;
}.

Definition encryptedAttachmentV1Schema : string := "tos.messaging.payload.encrypted-attachment.v1".
Definition encryptedAttachmentV2Schema : string := "tos.messaging.payload.encrypted-attachment.v2".
Definition encryptedAttachmentV3Schema : string := "tos.messaging.payload.encrypted-attachment.v3".
Definition OperationFetch : string := "fetch".

Definition EncryptedAttachment_Schema (v : EncryptedAttachment) : string :=
  if String.eqb (EncryptedAttachment_schema v) "" then encryptedAttachmentV3Schema else EncryptedAttachment_schema v.

Definition EncryptedAttachment_encode (v : EncryptedAttachment) (buffer : bytes) : bytes :=
  let buffer := canon_Text buffer (EncryptedAttachment_ManifestDigest v) in
  let buffer := canon_Bytes buffer (EncryptedAttachment_ReferenceJSON v) in
  let buffer := canon_Text buffer (EncryptedAttachment_Locator v) in
  if String.eqb (EncryptedAttachment_Schema v) encryptedAttachmentV3Schema then
    let buffer := canon_Bytes buffer (EncryptedAttachment_FetchGrantJSON v) in
    canon_Text buffer (EncryptedAttachment_FetchCapabilityPrivateKeyHex v)
  else buffer.

Definition decodeEncryptedAttachment (reader : Reader) : EncryptedAttachment * Reader :=
  let '(ManifestDigest, reader) := Reader_Text MaxDigestBytes reader in
  let '(ReferenceJSON, reader) := Reader_Bytes MaxOpaqueBytes reader in
  let '(Locator, reader) := Reader_Text MaxShortTextBytes reader in
  let '(FetchGrantJSON, reader) := Reader_Bytes MaxOpaqueBytes reader in
  let '(FetchCapabilityPrivateKeyHex, reader) := Reader_Text (2 * 64) reader in
  (MkEncryptedAttachment ManifestDigest (default [] ReferenceJSON) Locator (default [] FetchGrantJSON)
     FetchCapabilityPrivateKeyHex "", reader).

(** The two older schemas, which differ in the schema they record. *)
Definition decode_older_attachment (schema : string) (reader : Reader) : EncryptedAttachment * Reader :=
  let '(ManifestDigest, reader) := Reader_Text MaxDigestBytes reader in
  let '(ReferenceJSON, reader) := Reader_Bytes MaxOpaqueBytes reader in
  let '(Locator, reader) := Reader_Text MaxShortTextBytes reader in
  (MkEncryptedAttachment ManifestDigest (default [] ReferenceJSON) Locator [] "" schema, reader).
Definition decodeEncryptedAttachmentV2 : Reader -> EncryptedAttachment * Reader :=
  decode_older_attachment encryptedAttachmentV2Schema.
Definition decodeEncryptedAttachmentV1 : Reader -> EncryptedAttachment * Reader :=
  decode_older_attachment encryptedAttachmentV1Schema.

(** ** Checks that call the protocol library or [pkg/attachments] *)

Section External.
  Context `{PR : Protocol} `{AF : AttachmentFormats}.

Definition CommerceProfileEvent_Validate (v : CommerceProfileEvent) : result unit :=
  refuse negb (ValidDigest (CommerceProfileEvent_ObjectDigest v)) || (blen (CommerceProfileEvent_CanonicalEvent v) =? 0)
         || (MaxProfileEventBytes <? blen (CommerceProfileEvent_CanonicalEvent v))
    with NewError "commerce profile event payload is invalid or oversized";
  let* event := pe_unmarshal (CommerceProfileEvent_CanonicalEvent v) in
  refuse negb (String.eqb (pe_ObjectDigest event) (CommerceProfileEvent_ObjectDigest v)) || (pe_CreatedAtUnix event =? 0)
    with NewError "commerce profile event payload digest mismatch";
  refuse negb (agrees (pe_canonical event (i64 (pe_CreatedAtUnix event))) (CommerceProfileEvent_CanonicalEvent v))
    with NewError "commerce profile event payload is not canonical";
  Ok tt.

Definition IntentApplication_Validate (v : IntentApplication) : result unit :=
  refuse (blen (IntentApplication_CanonicalApplication v) =? 0)
         || (MaxIntentApplicationBytes <? blen (IntentApplication_CanonicalApplication v))
    with NewError "Intent application is absent or oversized";
  DecodeIntentApplication (IntentApplication_CanonicalApplication v).

Definition OperationOutcome_Validate (v : OperationOutcome) : result unit :=
  refuse negb (ValidDigest (OperationOutcome_OperationID v)) || negb (ValidDigest (OperationOutcome_OperationEnvelopeDigest v))
         || (blen (OperationOutcome_CanonicalRequest v) =? 0)
         || (MaxInlineOperationOutcomeBytes <? blen (OperationOutcome_CanonicalRequest v))
    with NewError "operation outcome payload is invalid or oversized";
  match oq_unmarshal (OperationOutcome_CanonicalRequest v) with
  | Err _ => Err (NewError "operation outcome request binding is invalid")
  | Ok request =>
      refuse negb (is_ok (oq_validate request)) || negb (String.eqb (oq_OperationID request) (OperationOutcome_OperationID v))
             || negb (String.eqb (oq_OperationEnvelopeDigest request) (OperationOutcome_OperationEnvelopeDigest v))
        with NewError "operation outcome request binding is invalid";
      refuse negb (agrees (oq_marshal request) (OperationOutcome_CanonicalRequest v))
        with NewError "operation outcome request is not canonical";
      Ok tt
  end.

Definition PrivateHandoffChallenge_Validate (v : PrivateHandoffChallenge) : result unit :=
  refuse negb (ValidDigest (PrivateHandoffChallenge_ChallengeDigest v))
         || (blen (PrivateHandoffChallenge_CanonicalChallenge v) =? 0)
         || (MaxPrivateHandoffControlBytes <? blen (PrivateHandoffChallenge_CanonicalChallenge v))
    with NewError "private handoff challenge payload is invalid";
  let* challenge := hc_unmarshal (PrivateHandoffChallenge_CanonicalChallenge v) in
  call hc_validate challenge (i64 (hc_IssuedAtUnix challenge));
  refuse negb (agrees (hc_digest challenge) (PrivateHandoffChallenge_ChallengeDigest v))
    with NewError "private handoff challenge digest mismatch";
  Ok tt.

Definition PrivateHandoffAuthorization_Validate (v : PrivateHandoffAuthorization) : result unit :=
  refuse negb (ValidDigest (PrivateHandoffAuthorization_ChallengeDigest v))
         || negb (ValidDigest (PrivateHandoffAuthorization_AuthorizationDigest v))
         || (blen (PrivateHandoffAuthorization_CanonicalAuthorization v) =? 0)
         || (MaxPrivateHandoffControlBytes <? blen (PrivateHandoffAuthorization_CanonicalAuthorization v))
    with NewError "private handoff authorization payload is invalid";
  let* authorization := ha_unmarshal (PrivateHandoffAuthorization_CanonicalAuthorization v) in
  refuse negb (agrees (ha_digest authorization) (PrivateHandoffAuthorization_AuthorizationDigest v))
         || negb (String.eqb (ha_ChallengeDigest authorization) (PrivateHandoffAuthorization_ChallengeDigest v))
    with NewError "private handoff authorization digest mismatch";
  Ok tt.

Definition PrivateHandoffAcknowledgement_Validate (v : PrivateHandoffAcknowledgement) : result unit :=
  refuse negb (ValidDigest (PrivateHandoffAcknowledgement_ChallengeDigest v))
         || negb (ValidDigest (PrivateHandoffAcknowledgement_AcknowledgementDigest v))
         || (blen (PrivateHandoffAcknowledgement_CanonicalAcknowledgement v) =? 0)
         || (MaxPrivateHandoffControlBytes <? blen (PrivateHandoffAcknowledgement_CanonicalAcknowledgement v))
    with NewError "private handoff acknowledgement payload is invalid";
  let* acknowledgement := hk_unmarshal (PrivateHandoffAcknowledgement_CanonicalAcknowledgement v) in
  refuse negb (agrees (hk_digest acknowledgement) (PrivateHandoffAcknowledgement_AcknowledgementDigest v))
         || negb (String.eqb (hk_ChallengeDigest acknowledgement) (PrivateHandoffAcknowledgement_ChallengeDigest v))
    with NewError "private handoff acknowledgement digest mismatch";
  Ok tt.

Definition AgreementPropose_Validate (v : AgreementPropose) : result unit :=
  refuse negb (ValidDigest (AgreementPropose_AgreementBodyDigest v)) || (blen (AgreementPropose_CanonicalBody v) =? 0)
         || (MaxAgreementPromotionBytes <? blen (AgreementPropose_CanonicalBody v))
    with NewError "Agreement proposal is invalid or oversized";
  let* body := ab_unmarshal (AgreementPropose_CanonicalBody v) in
  call ab_validate body;
  refuse negb (agrees (ab_digest body) (AgreementPropose_AgreementBodyDigest v))
    with NewError "Agreement proposal digest mismatch";
  Ok tt.

Definition AgreementAccept_Validate (v : AgreementAccept) : result unit :=
  refuse negb (ValidDigest (AgreementAccept_AgreementBodyDigest v)) || (blen (AgreementAccept_CanonicalAcceptance v) =? 0)
         || (MaxAgreementPromotionBytes <? blen (AgreementAccept_CanonicalAcceptance v))
    with NewError "Agreement acceptance is invalid or oversized";
  let* decoded := DecodeSignedAgreementAcceptance (AgreementAccept_CanonicalAcceptance v) in
  refuse negb (String.eqb (aa_AgreementBodyDigest decoded) (AgreementAccept_AgreementBodyDigest v))
    with NewError "Agreement acceptance digest mismatch";
  Ok tt.

Definition AgreementEvidence_Validate (v : AgreementEvidence) : result unit :=
  refuse negb (ValidDigest (AgreementEvidence_AgreementBodyDigest v)) || negb (ValidDigest (AgreementEvidence_EvidenceDigest v))
         || (blen (AgreementEvidence_CanonicalEvidence v) =? 0)
         || (MaxAgreementPromotionBytes <? blen (AgreementEvidence_CanonicalEvidence v))
    with NewError "Agreement evidence is invalid or oversized";
  match ae_unmarshal (AgreementEvidence_CanonicalEvidence v) with
  | Err _ => Err (NewError "Agreement evidence body mismatch")
  | Ok decoded =>
      refuse negb (String.eqb (ae_AgreementBodyDigest decoded) (AgreementEvidence_AgreementBodyDigest v))
        with NewError "Agreement evidence body mismatch";
      refuse negb (agrees (ae_digest decoded) (AgreementEvidence_EvidenceDigest v))
        with NewError "Agreement evidence digest mismatch";
      Ok tt
  end.

Definition PaidDemandProviderOffer_Validate (v : PaidDemandProviderOffer) : result unit :=
  refuse negb (ValidDigest (PaidDemandProviderOffer_AgreementBodyDigest v))
         || negb (ValidDigest (PaidDemandProviderOffer_ProviderOfferDigest v))
         || (blen (PaidDemandProviderOffer_CanonicalOffer v) =? 0)
         || (MaxAgreementPromotionBytes <? blen (PaidDemandProviderOffer_CanonicalOffer v))
    with NewError "Paid Demand Provider Offer is invalid or oversized";
  match po_unmarshal (PaidDemandProviderOffer_CanonicalOffer v) with
  | Err _ => Err (NewError "Paid Demand Provider Offer Agreement mismatch")
  | Ok decoded =>
      refuse negb (String.eqb (po_AgreementBodyDigest decoded) (PaidDemandProviderOffer_AgreementBodyDigest v))
        with NewError "Paid Demand Provider Offer Agreement mismatch";
      refuse negb (agrees (po_digest decoded) (PaidDemandProviderOffer_ProviderOfferDigest v))
        with NewError "Paid Demand Provider Offer digest mismatch";
      Ok tt
  end.

Definition decodeCommerceProfileEvent (reader : Reader) : CommerceProfileEvent * Reader :=
  let '(ObjectDigest, reader) := Reader_Text MaxDigestBytes reader in
  let '(CanonicalEvent, reader) := Reader_Bytes MaxProfileEventBytes reader in
  (MkCommerceProfileEvent ObjectDigest (default [] CanonicalEvent), reader).

Definition FetchAccess (v : EncryptedAttachment) : result (CapabilityGrant * bytes) :=
  refuse negb (String.eqb (EncryptedAttachment_Schema v) encryptedAttachmentV3Schema)
         || (blen (EncryptedAttachment_FetchGrantJSON v) =? 0)
         || (MaxOpaqueBytes <? blen (EncryptedAttachment_FetchGrantJSON v))
    with NewError "encrypted attachment has no bounded v3 fetch grant";
  let* grant := DecodeGrantJSON (EncryptedAttachment_FetchGrantJSON v) in
  match hex_decode (EncryptedAttachment_FetchCapabilityPrivateKeyHex v) with
  | None => Err (NewError "invalid attachment fetch capability private key")
  | Some key =>
      refuse negb (blen key =? 64) || negb (String.eqb (hex_encode key) (EncryptedAttachment_FetchCapabilityPrivateKeyHex v))
        with NewError "invalid attachment fetch capability private key";
      match hex_decode (gr_CapabilityPublicKeyHex grant) with
      | None => Err (NewError "attachment fetch capability key does not match its grant")
      | Some public =>
          refuse negb (bool_decide (drop 32 key = public))
            with NewError "attachment fetch capability key does not match its grant";
          Ok (grant, key)
      end
  end.

Definition check_fetch_grant (v : EncryptedAttachment) (reference : Reference) (grant : CapabilityGrant) : result unit :=
  refuse negb (String.eqb (gr_ManifestDigest grant) (EncryptedAttachment_ManifestDigest v))
         || negb (gr_CiphertextBytes grant
                  =? u64 (ref_PlaintextBytes reference + Z.of_nat (length (ref_ChunkDigests reference)) * 16))
         || negb (gr_RetainUntilUnix grant =? ref_ExpiresAtUnix reference)
         || negb (length (gr_ChunkDigests grant) =? length (ref_ChunkDigests reference))%nat
    with NewError "attachment fetch grant does not match its secret reference";
  refuse negb (bool_decide (gr_ChunkDigests grant = ref_ChunkDigests reference))
    with NewError "attachment fetch grant substituted a ciphertext object";
  refuse negb (bool_decide (gr_Operations grant = [OperationFetch]))
    with NewError "attachment recipient grant must be fetch-only";
  Ok tt.

Definition EncryptedAttachment_Validate (v : EncryptedAttachment) : result unit :=
  call requireDigest "attachment manifest digest" (EncryptedAttachment_ManifestDigest v);
  refuse (blen (EncryptedAttachment_ReferenceJSON v) =? 0) || (MaxOpaqueBytes <? blen (EncryptedAttachment_ReferenceJSON v))
    with NewError "invalid encrypted attachment reference size";
  let* reference := DecodeReferenceJSON (EncryptedAttachment_ReferenceJSON v) in
  refuse negb (agrees (ref_ManifestDigest reference) (EncryptedAttachment_ManifestDigest v))
    with NewError "encrypted attachment reference does not match its manifest digest";
  if String.eqb (EncryptedAttachment_Schema v) encryptedAttachmentV1Schema then
    requireText "attachment locator" (EncryptedAttachment_Locator v) MaxShortTextBytes
  else
    refuse (slen (EncryptedAttachment_Locator v) =? 0) || (MaxShortTextBytes <? slen (EncryptedAttachment_Locator v))
      with NewError "invalid attachment locator size";
    call ParseHTTPSLocator (EncryptedAttachment_Locator v) (EncryptedAttachment_ManifestDigest v);
    if String.eqb (EncryptedAttachment_Schema v) encryptedAttachmentV2Schema then
      refuse negb (blen (EncryptedAttachment_FetchGrantJSON v) =? 0)
             || negb (String.eqb (EncryptedAttachment_FetchCapabilityPrivateKeyHex v) "")
        with NewError "historical encrypted attachment carries fetch authority";
      Ok tt
    else
      refuse negb (String.eqb (EncryptedAttachment_Schema v) encryptedAttachmentV3Schema)
        with NewError "unsupported encrypted attachment schema";
      let* (grant, _) := FetchAccess v in
      check_fetch_grant v reference grant.

(** ** The registry ([payload.go], [registry.go]) *)

Inductive Payload : Type :=
  | PText (v : Text)
  | PConversationInvite (v : ConversationInvite)
  | PConversationAccept (v : ConversationAccept)
  | PPresenceHint (v : PresenceHint)
  | PGiftAddressRequest (v : GiftAddressRequest)
  | PGiftAddressResponse (v : GiftAddressResponse)
  | PGiftSignedBOCOffer (v : GiftSignedBOCOffer)
  | PTaskRequest (v : TaskRequest)
  | PTaskProgress (v : TaskProgress)
  | PTaskResult (v : TaskResult)
  | PTaskStatusRequest (v : TaskStatusRequest)
  | PNegotiationProposal (v : NegotiationProposal)
  | PNegotiationCounterproposal (v : NegotiationCounterproposal)
  | PNegotiationWithdraw (v : NegotiationWithdraw)
  | PNegotiationIntentAccept (v : NegotiationIntentAccept)
  | PNegotiationIntentReject (v : NegotiationIntentReject)
  | PIntentApplication (v : IntentApplication)
  | PAgreementPropose (v : AgreementPropose)
  | PAgreementAccept (v : AgreementAccept)
  | PAgreementEvidence (v : AgreementEvidence)
  | PAgreementWithdraw (v : AgreementWithdraw)
  | PAgreementDelivery (v : AgreementDelivery)
  | PPaidDemandProviderOffer (v : PaidDemandProviderOffer)
  | PCommerceProfileEvent (v : CommerceProfileEvent)
  | POperationOutcome (v : OperationOutcome)
  | PPrivateHandoffChallenge (v : PrivateHandoffChallenge)
  | PPrivateHandoffAuthorization (v : PrivateHandoffAuthorization)
  | PPrivateHandoffAcknowledgement (v : PrivateHandoffAcknowledgement)
  | PPrivateHandoffStatus (v : PrivateHandoffStatus)
  | PPrivateHandoffDelete (v : PrivateHandoffDelete)
  | PCounterpartyApprovalRequest (v : CounterpartyApprovalRequest)
  | PCounterpartyApprovalGranted (v : CounterpartyApprovalGranted)
  | PCounterpartyApprovalDenied (v : CounterpartyApprovalDenied)
  | POwnerApprovalGrant (v : OwnerApprovalGrant)
  | POwnerApprovalDeny (v : OwnerApprovalDeny)
  | PA2AMessage (v : A2AMessage)
  | PMCPCall (v : MCPCall)
  | PMCPResult (v : MCPResult)
  | PAgentPacketMessage (v : AgentPacketMessage)
  | PArtifactOffer (v : ArtifactOffer)
  | PArtifactReference (v : ArtifactReference)
  | PEncryptedAttachment (v : EncryptedAttachment)
  | PQuoteReference (v : QuoteReference)
  | PEscrowReference (v : EscrowReference)
  | PReceiptReference (v : ReceiptReference)
  | PDeliveryAck (v : DeliveryAck)
  | PApplicationAck (v : ApplicationAck)
  | PReadAck (v : ReadAck)
  | PDeviceHistorySegment (v : DeviceHistorySegment)
  | PRoomInvite (v : RoomInvite)
  | PRoomMembershipCommit (v : RoomMembershipCommit)
  | PRoomMessage (v : RoomMessage)
  | PRoomModeration (v : RoomModeration).

Definition Schema (p : Payload) : string :=
  match p with
  | PText _ => "tos.messaging.payload.text.v1"
  | PConversationInvite _ => "tos.messaging.payload.conversation-invite.v1"
  | PConversationAccept _ => "tos.messaging.payload.conversation-accept.v1"
  | PPresenceHint _ => "tos.messaging.payload.presence-hint.v1"
  | PGiftAddressRequest _ => "tos.messaging.payload.agent-gift-address-request.v1"
  | PGiftAddressResponse _ => "tos.messaging.payload.agent-gift-address-response.v1"
  | PGiftSignedBOCOffer _ => "tos.messaging.payload.agent-gift-signed-boc-offer.v1"
  | PTaskRequest _ => "tos.messaging.payload.task-request.v1"
  | PTaskProgress _ => "tos.messaging.payload.task-progress.v1"
  | PTaskResult _ => "tos.messaging.payload.task-result.v1"
  | PTaskStatusRequest _ => "tos.messaging.payload.task-status-request.v1"
  | PNegotiationProposal _ => "tos.messaging.payload.negotiation-proposal.v3"
  | PNegotiationCounterproposal _ => "tos.messaging.payload.negotiation-counterproposal.v3"
  | PNegotiationWithdraw _ => "tos.messaging.payload.negotiation-withdraw.v1"
  | PNegotiationIntentAccept _ => "tos.messaging.payload.negotiation-intent-accept.v3"
  | PNegotiationIntentReject _ => "tos.messaging.payload.negotiation-intent-reject.v1"
  | PIntentApplication _ => "tos.messaging.payload.intent-application.v1"
  | PAgreementPropose _ => "tos.messaging.payload.agreement-propose.v1"
  | PAgreementAccept _ => "tos.messaging.payload.agreement-accept.v1"
  | PAgreementEvidence _ => "tos.messaging.payload.agreement-evidence.v1"
  | PAgreementWithdraw _ => "tos.messaging.payload.agreement-withdraw.v1"
  | PAgreementDelivery _ => "tos.messaging.payload.agreement-delivery.v1"
  | PPaidDemandProviderOffer _ => "tos.messaging.payload.paid-demand-provider-offer.v1"
  | PCommerceProfileEvent _ => "tos.messaging.payload.commerce-profile-event.v1"
  | POperationOutcome _ => "tos.messaging.payload.operation-outcome.v1"
  | PPrivateHandoffChallenge _ => "tos.messaging.payload.private-handoff-challenge.v1"
  | PPrivateHandoffAuthorization _ => "tos.messaging.payload.private-handoff-authorization.v1"
  | PPrivateHandoffAcknowledgement _ => "tos.messaging.payload.private-handoff-acknowledgement.v1"
  | PPrivateHandoffStatus _ => "tos.messaging.payload.private-handoff-status.v1"
  | PPrivateHandoffDelete _ => "tos.messaging.payload.private-handoff-delete.v1"
  | PCounterpartyApprovalRequest _ => "tos.messaging.payload.counterparty-approval-request.v1"
  | PCounterpartyApprovalGranted _ => "tos.messaging.payload.counterparty-approval-granted.v1"
  | PCounterpartyApprovalDenied _ => "tos.messaging.payload.counterparty-approval-denied.v1"
  | POwnerApprovalGrant _ => "tos.messaging.payload.owner-approval-grant.v1"
  | POwnerApprovalDeny _ => "tos.messaging.payload.owner-approval-deny.v1"
  | PA2AMessage _ => "tos.messaging.payload.a2a-message.v1"
  | PMCPCall _ => "tos.messaging.payload.mcp-call.v1"
  | PMCPResult _ => "tos.messaging.payload.mcp-result.v1"
  | PAgentPacketMessage _ => "tos.messaging.payload.agent-packet.v1"
  | PArtifactOffer _ => "tos.messaging.payload.artifact-offer.v1"
  | PArtifactReference _ => "tos.messaging.payload.artifact-reference.v1"
  | PEncryptedAttachment v => EncryptedAttachment_Schema v
  | PQuoteReference _ => "tos.messaging.payload.quote-reference.v1"
  | PEscrowReference _ => "tos.messaging.payload.escrow-reference.v1"
  | PReceiptReference _ => "tos.messaging.payload.receipt-reference.v1"
  | PDeliveryAck _ => "tos.messaging.payload.delivery-ack.v1"
  | PApplicationAck _ => "tos.messaging.payload.application-ack.v1"
  | PReadAck _ => "tos.messaging.payload.read-ack.v1"
  | PDeviceHistorySegment _ => "tos.messaging.payload.device-history-segment.v1"
  | PRoomInvite _ => "tos.messaging.payload.room-invite.v1"
  | PRoomMembershipCommit _ => "tos.messaging.payload.room-membership-commit.v1"
  | PRoomMessage _ => "tos.messaging.payload.room-message.v1"
  | PRoomModeration _ => "tos.messaging.payload.room-moderation.v1"
  end.

Definition payload_Validate (p : Payload) : result unit :=
  match p with
  | PText v => Text_Validate v
  | PConversationInvite v => ConversationInvite_Validate v
  | PConversationAccept v => ConversationAccept_Validate v
  | PPresenceHint v => PresenceHint_Validate v
  | PGiftAddressRequest v => GiftAddressRequest_Validate v
  | PGiftAddressResponse v => GiftAddressResponse_Validate v
  | PGiftSignedBOCOffer v => GiftSignedBOCOffer_Validate v
  | PTaskRequest v => TaskRequest_Validate v
  | PTaskProgress v => TaskProgress_Validate v
  | PTaskResult v => TaskResult_Validate v
  | PTaskStatusRequest v => TaskStatusRequest_Validate v
  | PNegotiationProposal v => NegotiationProposal_Validate v
  | PNegotiationCounterproposal v => NegotiationCounterproposal_Validate v
  | PNegotiationWithdraw v => NegotiationWithdraw_Validate v
  | PNegotiationIntentAccept v => NegotiationIntentAccept_Validate v
  | PNegotiationIntentReject v => NegotiationIntentReject_Validate v
  | PIntentApplication v => IntentApplication_Validate v
  | PAgreementPropose v => AgreementPropose_Validate v
  | PAgreementAccept v => AgreementAccept_Validate v
  | PAgreementEvidence v => AgreementEvidence_Validate v
  | PAgreementWithdraw v => AgreementWithdraw_Validate v
  | PAgreementDelivery v => AgreementDelivery_Validate v
  | PPaidDemandProviderOffer v => PaidDemandProviderOffer_Validate v
  | PCommerceProfileEvent v => CommerceProfileEvent_Validate v
  | POperationOutcome v => OperationOutcome_Validate v
  | PPrivateHandoffChallenge v => PrivateHandoffChallenge_Validate v
  | PPrivateHandoffAuthorization v => PrivateHandoffAuthorization_Validate v
  | PPrivateHandoffAcknowledgement v => PrivateHandoffAcknowledgement_Validate v
  | PPrivateHandoffStatus v => PrivateHandoffStatus_Validate v
  | PPrivateHandoffDelete v => PrivateHandoffDelete_Validate v
  | PCounterpartyApprovalRequest v => CounterpartyApprovalRequest_Validate v
  | PCounterpartyApprovalGranted v => CounterpartyApprovalGranted_Validate v
  | PCounterpartyApprovalDenied v => CounterpartyApprovalDenied_Validate v
  | POwnerApprovalGrant v => OwnerApprovalGrant_Validate v
  | POwnerApprovalDeny v => OwnerApprovalDeny_Validate v
  | PA2AMessage v => A2AMessage_Validate v
  | PMCPCall v => MCPCall_Validate v
  | PMCPResult v => MCPResult_Validate v
  | PAgentPacketMessage v => AgentPacketMessage_Validate v
  | PArtifactOffer v => ArtifactOffer_Validate v
  | PArtifactReference v => ArtifactReference_Validate v
  | PEncryptedAttachment v => EncryptedAttachment_Validate v
  | PQuoteReference v => QuoteReference_Validate v
  | PEscrowReference v => EscrowReference_Validate v
  | PReceiptReference v => ReceiptReference_Validate v
  | PDeliveryAck v => DeliveryAck_Validate v
  | PApplicationAck v => ApplicationAck_Validate v
  | PReadAck v => ReadAck_Validate v
  | PDeviceHistorySegment v => DeviceHistorySegment_Validate v
  | PRoomInvite v => RoomInvite_Validate v
  | PRoomMembershipCommit v => RoomMembershipCommit_Validate v
  | PRoomMessage v => RoomMessage_Validate v
  | PRoomModeration v => RoomModeration_Validate v
  end.

Definition payload_encode (p : Payload) (buffer : bytes) : bytes :=
  match p with
  | PText v => Text_encode v buffer
  | PConversationInvite v => ConversationInvite_encode v buffer
  | PConversationAccept v => ConversationAccept_encode v buffer
  | PPresenceHint v => PresenceHint_encode v buffer
  | PGiftAddressRequest v => GiftAddressRequest_encode v buffer
  | PGiftAddressResponse v => GiftAddressResponse_encode v buffer
  | PGiftSignedBOCOffer v => GiftSignedBOCOffer_encode v buffer
  | PTaskRequest v => TaskRequest_encode v buffer
  | PTaskProgress v => TaskProgress_encode v buffer
  | PTaskResult v => TaskResult_encode v buffer
  | PTaskStatusRequest v => TaskStatusRequest_encode v buffer
  | PNegotiationProposal v => NegotiationProposal_encode v buffer
  | PNegotiationCounterproposal v => NegotiationCounterproposal_encode v buffer
  | PNegotiationWithdraw v => NegotiationWithdraw_encode v buffer
  | PNegotiationIntentAccept v => NegotiationIntentAccept_encode v buffer
  | PNegotiationIntentReject v => NegotiationIntentReject_encode v buffer
  | PIntentApplication v => IntentApplication_encode v buffer
  | PAgreementPropose v => AgreementPropose_encode v buffer
  | PAgreementAccept v => AgreementAccept_encode v buffer
  | PAgreementEvidence v => AgreementEvidence_encode v buffer
  | PAgreementWithdraw v => AgreementWithdraw_encode v buffer
  | PAgreementDelivery v => AgreementDelivery_encode v buffer
  | PPaidDemandProviderOffer v => PaidDemandProviderOffer_encode v buffer
  | PCommerceProfileEvent v => CommerceProfileEvent_encode v buffer
  | POperationOutcome v => OperationOutcome_encode v buffer
  | PPrivateHandoffChallenge v => PrivateHandoffChallenge_encode v buffer
  | PPrivateHandoffAuthorization v => PrivateHandoffAuthorization_encode v buffer
  | PPrivateHandoffAcknowledgement v => PrivateHandoffAcknowledgement_encode v buffer
  | PPrivateHandoffStatus v => PrivateHandoffStatus_encode v buffer
  | PPrivateHandoffDelete v => PrivateHandoffDelete_encode v buffer
  | PCounterpartyApprovalRequest v => CounterpartyApprovalRequest_encode v buffer
  | PCounterpartyApprovalGranted v => CounterpartyApprovalGranted_encode v buffer
  | PCounterpartyApprovalDenied v => CounterpartyApprovalDenied_encode v buffer
  | POwnerApprovalGrant v => OwnerApprovalGrant_encode v buffer
  | POwnerApprovalDeny v => OwnerApprovalDeny_encode v buffer
  | PA2AMessage v => A2AMessage_encode v buffer
  | PMCPCall v => MCPCall_encode v buffer
  | PMCPResult v => MCPResult_encode v buffer
  | PAgentPacketMessage v => AgentPacketMessage_encode v buffer
  | PArtifactOffer v => ArtifactOffer_encode v buffer
  | PArtifactReference v => ArtifactReference_encode v buffer
  | PEncryptedAttachment v => EncryptedAttachment_encode v buffer
  | PQuoteReference v => QuoteReference_encode v buffer
  | PEscrowReference v => EscrowReference_encode v buffer
  | PReceiptReference v => ReceiptReference_encode v buffer
  | PDeliveryAck v => DeliveryAck_encode v buffer
  | PApplicationAck v => ApplicationAck_encode v buffer
  | PReadAck v => ReadAck_encode v buffer
  | PDeviceHistorySegment v => DeviceHistorySegment_encode v buffer
  | PRoomInvite v => RoomInvite_encode v buffer
  | PRoomMembershipCommit v => RoomMembershipCommit_encode v buffer
  | PRoomMessage v => RoomMessage_encode v buffer
  | PRoomModeration v => RoomModeration_encode v buffer
  end.

Definition decoder : Type := Reader -> Payload * Reader.
Definition as_payload {A} (inject : A -> Payload) (decode : Reader -> A * Reader) : decoder :=
  fun reader => let '(v, reader) := decode reader in (inject v, reader).

Record codec : Type := MkCodec {
  co_schema : string;
  co_decode : decoder;
  co_legacy : list (string * decoder);
}.

Definition codecs : list (string * codec) :=
  [("text", MkCodec "tos.messaging.payload.text.v1" (as_payload PText decodeText) []);
   ("conversation.invite", MkCodec "tos.messaging.payload.conversation-invite.v1" (as_payload PConversationInvite decodeConversationInvite) []);
   ("conversation.accept", MkCodec "tos.messaging.payload.conversation-accept.v1" (as_payload PConversationAccept decodeConversationAccept) []);
   ("presence.hint", MkCodec "tos.messaging.payload.presence-hint.v1" (as_payload PPresenceHint decodePresenceHint) []);
   ("agent.gift.address-request", MkCodec "tos.messaging.payload.agent-gift-address-request.v1" (as_payload PGiftAddressRequest decodeGiftAddressRequest) []);
   ("agent.gift.address-response", MkCodec "tos.messaging.payload.agent-gift-address-response.v1" (as_payload PGiftAddressResponse decodeGiftAddressResponse) []);
   ("agent.gift.signed-boc-offer", MkCodec "tos.messaging.payload.agent-gift-signed-boc-offer.v1" (as_payload PGiftSignedBOCOffer decodeGiftSignedBOCOffer) []);
   ("agent.task.request", MkCodec "tos.messaging.payload.task-request.v1" (as_payload PTaskRequest decodeTaskRequest) []);
   ("agent.task.progress", MkCodec "tos.messaging.payload.task-progress.v1" (as_payload PTaskProgress decodeTaskProgress) []);
   ("agent.task.result", MkCodec "tos.messaging.payload.task-result.v1" (as_payload PTaskResult decodeTaskResult) []);
   ("agent.task.status.request", MkCodec "tos.messaging.payload.task-status-request.v1" (as_payload PTaskStatusRequest decodeTaskStatusRequest) []);
   ("negotiation.proposal", MkCodec "tos.messaging.payload.negotiation-proposal.v3" (as_payload PNegotiationProposal decodeNegotiationProposal) []);
   ("negotiation.counterproposal", MkCodec "tos.messaging.payload.negotiation-counterproposal.v3" (as_payload PNegotiationCounterproposal decodeNegotiationCounterproposal) []);
   ("negotiation.withdraw", MkCodec "tos.messaging.payload.negotiation-withdraw.v1" (as_payload PNegotiationWithdraw decodeNegotiationWithdraw) []);
   ("negotiation.intent.accept", MkCodec "tos.messaging.payload.negotiation-intent-accept.v3" (as_payload PNegotiationIntentAccept decodeNegotiationIntentAccept) []);
   ("negotiation.intent.reject", MkCodec "tos.messaging.payload.negotiation-intent-reject.v1" (as_payload PNegotiationIntentReject decodeNegotiationIntentReject) []);
   ("intent.application", MkCodec "tos.messaging.payload.intent-application.v1" (as_payload PIntentApplication decodeIntentApplication) []);
   ("agreement.propose", MkCodec "tos.messaging.payload.agreement-propose.v1" (as_payload PAgreementPropose decodeAgreementPropose) []);
   ("agreement.accept", MkCodec "tos.messaging.payload.agreement-accept.v1" (as_payload PAgreementAccept decodeAgreementAccept) []);
   ("agreement.evidence", MkCodec "tos.messaging.payload.agreement-evidence.v1" (as_payload PAgreementEvidence decodeAgreementEvidence) []);
   ("agreement.withdraw", MkCodec "tos.messaging.payload.agreement-withdraw.v1" (as_payload PAgreementWithdraw decodeAgreementWithdraw) []);
   ("agreement.delivery", MkCodec "tos.messaging.payload.agreement-delivery.v1" (as_payload PAgreementDelivery decodeAgreementDelivery) []);
   ("agreement.provider-offer", MkCodec "tos.messaging.payload.paid-demand-provider-offer.v1" (as_payload PPaidDemandProviderOffer decodePaidDemandProviderOffer) []);
   ("commerce.profile-event", MkCodec "tos.messaging.payload.commerce-profile-event.v1" (as_payload PCommerceProfileEvent decodeCommerceProfileEvent) []);
   ("operation.outcome", MkCodec "tos.messaging.payload.operation-outcome.v1" (as_payload POperationOutcome decodeOperationOutcome) []);
   ("private.handoff.challenge", MkCodec "tos.messaging.payload.private-handoff-challenge.v1" (as_payload PPrivateHandoffChallenge decodePrivateHandoffChallenge) []);
   ("private.handoff.authorization", MkCodec "tos.messaging.payload.private-handoff-authorization.v1" (as_payload PPrivateHandoffAuthorization decodePrivateHandoffAuthorization) []);
   ("private.handoff.acknowledgement", MkCodec "tos.messaging.payload.private-handoff-acknowledgement.v1" (as_payload PPrivateHandoffAcknowledgement decodePrivateHandoffAcknowledgement) []);
   ("private.handoff.status", MkCodec "tos.messaging.payload.private-handoff-status.v1" (as_payload PPrivateHandoffStatus decodePrivateHandoffStatus) []);
   ("private.handoff.delete", MkCodec "tos.messaging.payload.private-handoff-delete.v1" (as_payload PPrivateHandoffDelete decodePrivateHandoffDelete) []);
   ("counterparty.approval.request", MkCodec "tos.messaging.payload.counterparty-approval-request.v1" (as_payload PCounterpartyApprovalRequest decodeCounterpartyApprovalRequest) []);
   ("counterparty.approval.granted", MkCodec "tos.messaging.payload.counterparty-approval-granted.v1" (as_payload PCounterpartyApprovalGranted decodeCounterpartyApprovalGranted) []);
   ("counterparty.approval.denied", MkCodec "tos.messaging.payload.counterparty-approval-denied.v1" (as_payload PCounterpartyApprovalDenied decodeCounterpartyApprovalDenied) []);
   ("owner.approval.grant", MkCodec "tos.messaging.payload.owner-approval-grant.v1" (as_payload POwnerApprovalGrant decodeOwnerApprovalGrant) []);
   ("owner.approval.deny", MkCodec "tos.messaging.payload.owner-approval-deny.v1" (as_payload POwnerApprovalDeny decodeOwnerApprovalDeny) []);
   ("a2a.message", MkCodec "tos.messaging.payload.a2a-message.v1" (as_payload PA2AMessage decodeA2AMessage) []);
   ("mcp.call", MkCodec "tos.messaging.payload.mcp-call.v1" (as_payload PMCPCall decodeMCPCall) []);
   ("mcp.result", MkCodec "tos.messaging.payload.mcp-result.v1" (as_payload PMCPResult decodeMCPResult) []);
   ("agent.packet", MkCodec "tos.messaging.payload.agent-packet.v1" (as_payload PAgentPacketMessage decodeAgentPacketMessage) []);
   ("artifact.offer", MkCodec "tos.messaging.payload.artifact-offer.v1" (as_payload PArtifactOffer decodeArtifactOffer) []);
   ("artifact.reference", MkCodec "tos.messaging.payload.artifact-reference.v1" (as_payload PArtifactReference decodeArtifactReference) []);
   ("artifact.encrypted", MkCodec encryptedAttachmentV3Schema (as_payload PEncryptedAttachment decodeEncryptedAttachment) 
      [(encryptedAttachmentV1Schema, as_payload PEncryptedAttachment decodeEncryptedAttachmentV1);
       (encryptedAttachmentV2Schema, as_payload PEncryptedAttachment decodeEncryptedAttachmentV2)]);
   ("service.quote.reference", MkCodec "tos.messaging.payload.quote-reference.v1" (as_payload PQuoteReference decodeQuoteReference) []);
   ("service.escrow.reference", MkCodec "tos.messaging.payload.escrow-reference.v1" (as_payload PEscrowReference decodeEscrowReference) []);
   ("service.receipt.reference", MkCodec "tos.messaging.payload.receipt-reference.v1" (as_payload PReceiptReference decodeReceiptReference) []);
   ("delivery.ack", MkCodec "tos.messaging.payload.delivery-ack.v1" (as_payload PDeliveryAck decodeDeliveryAck) []);
   ("application.ack", MkCodec "tos.messaging.payload.application-ack.v1" (as_payload PApplicationAck decodeApplicationAck) []);
   ("read.ack", MkCodec "tos.messaging.payload.read-ack.v1" (as_payload PReadAck decodeReadAck) []);
   ("device.history.segment", MkCodec "tos.messaging.payload.device-history-segment.v1" (as_payload PDeviceHistorySegment decodeDeviceHistorySegment) []);
   ("room.invite", MkCodec "tos.messaging.payload.room-invite.v1" (as_payload PRoomInvite decodeRoomInvite) []);
   ("room.membership.commit", MkCodec "tos.messaging.payload.room-membership-commit.v1" (as_payload PRoomMembershipCommit decodeRoomMembershipCommit) []);
   ("room.message", MkCodec "tos.messaging.payload.room-message.v1" (as_payload PRoomMessage decodeRoomMessage) []);
   ("room.moderation", MkCodec "tos.messaging.payload.room-moderation.v1" (as_payload PRoomModeration decodeRoomModeration) [])].

Fixpoint assoc {A} (key : string) (l : list (string * A)) : option A :=
  match l with
  | [] => None
  | (k, a) :: rest => if String.eqb k key then Some a else assoc key rest
  end.

Definition domainFor (schema : string) : string := DomainPayload +:+ schema +:+ NUL.

Definition Encode (value : Payload) : result bytes :=
  call payload_Validate value;
  Ok (payload_encode value (bytes_of_string (domainFor (Schema value)))).

Definition decodeSchema (spec : codec) (schema : string) (content : bytes) : result Payload :=
  match (if String.eqb schema (co_schema spec) then Some (co_decode spec) else assoc schema (co_legacy spec)) with
  | None => Err (NewError "unsupported payload schema")
  | Some decode =>
      let '(value, reader) := decode (NewReader (domainFor schema) content) in
      match Reader_Done reader with
      | Some e => Err e
      | None => call payload_Validate value; Ok value
      end
  end.

Definition DecodeSchema (kind schema : string) (content : bytes) : result Payload :=
  match assoc kind codecs with
  | None => Err (NewError ("no payload codec for event kind " +:+ kind))
  | Some spec => decodeSchema spec schema content
  end.

Definition payload_Decode (kind : string) (content : bytes) : result Payload :=
  match assoc kind codecs with
  | None => Err (NewError ("no payload codec for event kind " +:+ kind))
  | Some spec => decodeSchema spec (co_schema spec) content
  end.

Definition SupportsSchema (kind schema : string) : bool :=
  match assoc kind codecs with
  | None => false
  | Some spec => String.eqb schema (co_schema spec) || bool_decide (is_Some (assoc schema (co_legacy spec)))
  end.

Definition payload_ValidateContent (kind : string) (content : bytes) : result unit :=
  call payload_Decode kind content; Ok tt.

Definition SchemaFor (kind : string) : option string := co_schema <$> assoc kind codecs.

Definition Kinds : list string := sort_strings (List.map fst codecs).
End External.
