(* ===== verification/PayloadCodec.v ===== *)
(** * Payloads on the wire

    Reading back what was written, and writing what was read, for every kind of
    [Payload.v].  The interface [Wire] says what a pair of writer and reader owe each
    other; each body type is an instance, and the theorems about the registry follow
    from the interface. *)

From S2P Require Import Prelude Encoding Canon Money Terms Payload.

(** ** The interface *)

(** [encode] appends [wire_bytes]; [decode] reads exactly those bytes back when the
    value is within the reader's bounds, and whatever it reads without error it read
    from the bytes of the value it returns. *)
Class Wire (A : Type) (encode : A -> bytes -> bytes) (decode : Reader -> A * Reader) := {
  wire_bytes : A -> bytes;
  wire_valid : A -> Prop;
  wire_fits : A -> Prop;
  wire_fits_valid v : wire_fits v -> wire_valid v;
  wire_encode v b : wire_valid v -> encode v b = b ++ wire_bytes v;
  wire_read v r rest : wire_fits v -> reader_at r (wire_bytes v ++ rest) ->
    exists r', decode r = (v, r') /\ reader_at r' rest;
  wire_inv r v r' : decode r = (v, r') -> r_err r' = None -> wire_valid v /\ consumed r r' (wire_bytes v);
}.

(** A body that is a fixed list of fields. *)
Definition fields_wire {A} (encode : A -> bytes -> bytes) (decode : Reader -> A * Reader)
    (ks : list kind) (fs : A -> list field)
    (Henc : forall v b, encode v b = b ++ fields_bytes (fs v))
    (Hdec : forall r, (fs (decode r).1, (decode r).2) = read_fields ks r)
    (Hinj : forall v w, fs v = fs w -> v = w) : Wire A encode decode.
Proof.
  refine {| wire_bytes := fun v => fields_bytes (fs v); wire_valid := fun _ => True;
            wire_fits := fun v => Forall2 field_fits ks (fs v) |}.
  - done.
  - intros v b _. apply Henc.
  - intros v r rest Hfit Hat. destruct (read_fields_at r ks (fs v) rest Hfit Hat) as (r' & Hr & Hat').
    exists r'. split; [|done]. specialize (Hdec r). rewrite Hr in Hdec. injection Hdec as Hf <-.
    apply Hinj in Hf. by rewrite <- Hf, <- surjective_pairing.
  - intros r v r' Hd He. specialize (Hdec r). rewrite Hd in Hdec. cbn [fst snd] in Hdec. symmetry in Hdec.
    split; [done|]. by apply (read_fields_inv _ _ _ _ Hdec He).
Defined.

(** The three obligations of [fields_wire] for a record. *)
Ltac solve_encode encode :=
  intros v b; unfold encode;
  rewrite ?canon_Text_app, ?canon_Bytes_app, ?canon_Uint32_app, ?canon_Uint64_app, ?fields_bytes_cons, ?fields_bytes_nil,
    ?app_nil_r, <- ?app_assoc; reflexivity.
(** Names the result of every read in the goal, in order. *)
Ltac run_reads :=
  repeat match goal with
  | |- context [Reader_Text ?m ?x] => is_var x; destruct (Reader_Text m x)
  | |- context [Reader_Bytes ?m ?x] => is_var x; destruct (Reader_Bytes m x)
  | |- context [Reader_Uint32 ?x] => is_var x; destruct (Reader_Uint32 x)
  | |- context [Reader_Uint64 ?x] => is_var x; destruct (Reader_Uint64 x)
  | |- context [Reader_Hash32 ?x] => is_var x; destruct (Reader_Hash32 x)
  end.
Ltac solve_decode decode :=
  intros r; unfold decode; cbn [read_fields read_field];
  run_reads; reflexivity.
Ltac solve_inj := intros [] []; cbn; intros E; simplify_eq; reflexivity.
Ltac solve_fields encode decode ks fs :=
  refine (fields_wire _ _ ks fs _ _ _); [solve_encode encode|solve_decode decode|solve_inj].

(** A body whose fields are computed back from what was read. *)
Definition kind_shape (k : kind) (f : field) : Prop :=
  match k, f with
  | KText _, FText _ | KBytes _, FBytes _ | KUint32, FUint32 _ | KUint64, FUint64 _ | KHash32, FHash32 _ => True
  | _, _ => False
  end.

Lemma read_fields_shape ks r fs r' : read_fields ks r = (fs, r') -> Forall2 kind_shape ks fs.
Proof.
  revert r fs. induction ks as [|k ks IH]; intros r fs; cbn [read_fields]; [intros [= <- _]; constructor|].
  destruct (read_field k r) as [f r1] eqn:E1. destruct (read_fields ks r1) as [gs r2] eqn:E2. intros [= <- <-].
  constructor; [|by eapply IH]. clear E2.
  destruct k; cbn [read_field] in E1; match type of E1 with (let '(_, _) := ?x in _) = _ => destruct x end; by injection E1 as <- _.
Qed.

Lemma fits_shapes ks fs : Forall2 field_fits ks fs -> Forall2 kind_shape ks fs.
Proof. intros H. eapply Forall2_impl; [exact H|]. intros [] []; cbn [field_fits kind_shape]; tauto. Qed.

Lemma fits_writables ks fs : Forall2 field_fits ks fs -> Forall writable fs.
Proof. induction 1; constructor; [by eapply fits_writable|done]. Qed.

Definition of_wire {A} (encode : A -> bytes -> bytes) (decode : Reader -> A * Reader)
    (ks : list kind) (fs : A -> list field) (build : list field -> A) (valid fits : A -> Prop)
    (Henc : forall v b, valid v -> encode v b = b ++ fields_bytes (fs v))
    (Hdec : forall r, decode r = (build (read_fields ks r).1, (read_fields ks r).2))
    (Hof : forall v, fits v -> Forall2 field_fits ks (fs v) /\ build (fs v) = v)
    (Hback : forall l, Forall2 kind_shape ks l -> Forall writable l ->
       valid (build l) /\ fields_bytes (fs (build l)) = fields_bytes l) : Wire A encode decode.
Proof.
  refine {| wire_bytes := fun v => fields_bytes (fs v); wire_valid := valid; wire_fits := fits |}.
  - intros v Hfit. destruct (Hof v Hfit) as [Hf Hv]. rewrite <- Hv.
    apply Hback; [by eapply fits_shapes|by eapply fits_writables].
  - apply Henc.
  - intros v r rest Hfit Hat. destruct (Hof v Hfit) as [Hf Hv].
    destruct (read_fields_at r ks (fs v) rest Hf Hat) as (r' & Hr & Hat').
    exists r'. split; [|done]. rewrite Hdec, Hr. cbn [fst snd]. by rewrite Hv.
  - intros r v r' Hd He. rewrite Hdec in Hd. injection Hd as <- Hr'. destruct (read_fields ks r) as [l r1] eqn:E.
    cbn [fst snd] in *. subst r1. destruct (read_fields_inv _ _ _ _ E He) as [Hw Hc].
    destruct (Hback l (read_fields_shape _ _ _ _ E) Hw) as [Hv Heq]. split; [done|]. by rewrite Heq.
Defined.

(** A body that is another one under a different name. *)
Definition map_wire {A B} (encode : A -> bytes -> bytes) (decode : Reader -> A * Reader)
    (encode' : B -> bytes -> bytes) (decode' : Reader -> B * Reader) (W : Wire B encode' decode')
    (f : A -> B) (g : B -> A)
    (Henc : forall v b, encode v b = encode' (f v) b)
    (Hdec : forall r, decode r = (g (decode' r).1, (decode' r).2))
    (Hfg : forall b, f (g b) = b) (Hgf : forall a, g (f a) = a) : Wire A encode decode.
Proof.
  refine {| wire_bytes := fun v => wire_bytes (f v); wire_valid := fun v => wire_valid (f v);
            wire_fits := fun v => wire_fits (f v) |}.
  - intros v. apply wire_fits_valid.
  - intros v b Hv. rewrite Henc. by apply wire_encode.
  - intros v r rest Hfit Hat. destruct (wire_read (f v) r rest Hfit Hat) as (r' & Hr & Hat').
    exists r'. split; [|done]. rewrite Hdec, Hr. cbn [fst snd]. by rewrite Hgf.
  - intros r v r' Hd He. rewrite Hdec in Hd. destruct (decode' r) as [b r1] eqn:E. cbn [fst snd] in Hd. injection Hd as <- <-.
    rewrite Hfg. by apply (wire_inv r b r1).
Defined.


(** ** The bodies *)

#[export] Instance Text_wire : Wire Text Text_encode decodeText.
Proof.
  solve_fields Text_encode decodeText [KText MaxShortTextBytes; KText MaxTextBytes; KText MaxShortTextBytes]
    (fun v => [FText (Text_MediaType v); FText (Text_Body v); FText (Text_ReplyToEventID v)]).
Defined.

#[export] Instance ConversationInvite_wire : Wire ConversationInvite ConversationInvite_encode decodeConversationInvite.
Proof.
  solve_fields ConversationInvite_encode decodeConversationInvite [KText MaxShortTextBytes; KUint64]
    (fun v => [FText (ConversationInvite_Purpose v); FUint64 (ConversationInvite_ExpiresAtUnix v)]).
Defined.

#[export] Instance ConversationAccept_wire : Wire ConversationAccept ConversationAccept_encode decodeConversationAccept.
Proof.
  solve_fields ConversationAccept_encode decodeConversationAccept [KText MaxShortTextBytes]
    (fun v => [FText (ConversationAccept_InviteEventID v)]).
Defined.

#[export] Instance PresenceHint_wire : Wire PresenceHint PresenceHint_encode decodePresenceHint.
Proof.
  solve_fields PresenceHint_encode decodePresenceHint [KText MaxShortTextBytes; KUint64]
    (fun v => [FText (PresenceHint_State v); FUint64 (PresenceHint_StaleAfterUnix v)]).
Defined.

#[export] Instance TaskRequest_wire : Wire TaskRequest TaskRequest_encode decodeTaskRequest.
Proof.
  solve_fields TaskRequest_encode decodeTaskRequest [KText MaxShortTextBytes; KText MaxShortTextBytes; KText MaxDigestBytes; KUint64; KText MaxDigestBytes]
    (fun v => [FText (TaskRequest_TaskID v); FText (TaskRequest_CapabilityID v); FText (TaskRequest_InputDigest v); FUint64 (TaskRequest_DeadlineUnix v); FText (TaskRequest_AcceptedQuoteRef v)]).
Defined.

#[export] Instance TaskProgress_wire : Wire TaskProgress TaskProgress_encode decodeTaskProgress.
Proof.
  solve_fields TaskProgress_encode decodeTaskProgress [KText MaxShortTextBytes; KText MaxShortTextBytes; KUint32; KText MaxShortTextBytes]
    (fun v => [FText (TaskProgress_TaskID v); FText (TaskProgress_Stage v); FUint32 (TaskProgress_PercentComplete v); FText (TaskProgress_Note v)]).
Defined.

#[export] Instance TaskResult_wire : Wire TaskResult TaskResult_encode decodeTaskResult.
Proof.
  solve_fields TaskResult_encode decodeTaskResult [KText MaxShortTextBytes; KText MaxShortTextBytes; KText MaxDigestBytes; KText MaxShortTextBytes]
    (fun v => [FText (TaskResult_TaskID v); FText (TaskResult_Outcome v); FText (TaskResult_OutputDigest v); FText (TaskResult_Reason v)]).
Defined.

#[export] Instance TaskStatusRequest_wire : Wire TaskStatusRequest TaskStatusRequest_encode decodeTaskStatusRequest.
Proof.
  solve_fields TaskStatusRequest_encode decodeTaskStatusRequest [KText MaxShortTextBytes]
    (fun v => [FText (TaskStatusRequest_TaskID v)]).
Defined.

#[export] Instance NegotiationWithdraw_wire : Wire NegotiationWithdraw NegotiationWithdraw_encode decodeNegotiationWithdraw.
Proof.
  solve_fields NegotiationWithdraw_encode decodeNegotiationWithdraw [KText MaxShortTextBytes; KText MaxShortTextBytes]
    (fun v => [FText (NegotiationWithdraw_NegotiationID v); FText (NegotiationWithdraw_Reason v)]).
Defined.

#[export] Instance NegotiationIntentReject_wire : Wire NegotiationIntentReject NegotiationIntentReject_encode decodeNegotiationIntentReject.
Proof.
  solve_fields NegotiationIntentReject_encode decodeNegotiationIntentReject [KText MaxShortTextBytes; KText MaxShortTextBytes]
    (fun v => [FText (NegotiationIntentReject_NegotiationID v); FText (NegotiationIntentReject_Reason v)]).
Defined.

#[export] Instance CounterpartyApprovalRequest_wire : Wire CounterpartyApprovalRequest CounterpartyApprovalRequest_encode decodeCounterpartyApprovalRequest.
Proof.
  solve_fields CounterpartyApprovalRequest_encode decodeCounterpartyApprovalRequest [KText MaxShortTextBytes; KText MaxShortTextBytes; KText MaxShortTextBytes]
    (fun v => [FText (CounterpartyApprovalRequest_ApprovalID v); FText (CounterpartyApprovalRequest_Subject v); FText (CounterpartyApprovalRequest_Detail v)]).
Defined.

#[export] Instance CounterpartyApprovalGranted_wire : Wire CounterpartyApprovalGranted CounterpartyApprovalGranted_encode decodeCounterpartyApprovalGranted.
Proof.
  solve_fields CounterpartyApprovalGranted_encode decodeCounterpartyApprovalGranted [KText MaxShortTextBytes; KUint64]
    (fun v => [FText (CounterpartyApprovalGranted_ApprovalID v); FUint64 (CounterpartyApprovalGranted_DecidedAtUnix v)]).
Defined.

#[export] Instance CounterpartyApprovalDenied_wire : Wire CounterpartyApprovalDenied CounterpartyApprovalDenied_encode decodeCounterpartyApprovalDenied.
Proof.
  solve_fields CounterpartyApprovalDenied_encode decodeCounterpartyApprovalDenied [KText MaxShortTextBytes; KUint64; KText MaxShortTextBytes]
    (fun v => [FText (CounterpartyApprovalDenied_ApprovalID v); FUint64 (CounterpartyApprovalDenied_DecidedAtUnix v); FText (CounterpartyApprovalDenied_Reason v)]).
Defined.

#[export] Instance OwnerApprovalGrant_wire : Wire OwnerApprovalGrant OwnerApprovalGrant_encode decodeOwnerApprovalGrant.
Proof.
  solve_fields OwnerApprovalGrant_encode decodeOwnerApprovalGrant [KText MaxShortTextBytes; KText MaxShortTextBytes; KUint64]
    (fun v => [FText (OwnerApprovalGrant_ApprovalID v); FText (OwnerApprovalGrant_EventID v); FUint64 (OwnerApprovalGrant_DecidedAtUnix v)]).
Defined.

#[export] Instance OwnerApprovalDeny_wire : Wire OwnerApprovalDeny OwnerApprovalDeny_encode decodeOwnerApprovalDeny.
Proof.
  solve_fields OwnerApprovalDeny_encode decodeOwnerApprovalDeny [KText MaxShortTextBytes; KText MaxShortTextBytes; KUint64; KText MaxShortTextBytes]
    (fun v => [FText (OwnerApprovalDeny_ApprovalID v); FText (OwnerApprovalDeny_EventID v); FUint64 (OwnerApprovalDeny_DecidedAtUnix v); FText (OwnerApprovalDeny_Reason v)]).
Defined.

#[export] Instance Foreign_wire : Wire Foreign Foreign_encode decodeForeign.
Proof.
  solve_fields Foreign_encode decodeForeign [KText MaxShortTextBytes; KText MaxShortTextBytes; KBytes MaxOpaqueBytes]
    (fun v => [FText (Foreign_Protocol v); FText (Foreign_Version v); FBytes (Foreign_Body v)]).
Defined.

#[export] Instance ArtifactOffer_wire : Wire ArtifactOffer ArtifactOffer_encode decodeArtifactOffer.
Proof.
  solve_fields ArtifactOffer_encode decodeArtifactOffer [KText MaxDigestBytes; KText MaxShortTextBytes; KUint64; KText MaxShortTextBytes]
    (fun v => [FText (ArtifactOffer_ArtifactDigest v); FText (ArtifactOffer_MediaType v); FUint64 (ArtifactOffer_SizeBytes v); FText (ArtifactOffer_Description v)]).
Defined.

#[export] Instance ArtifactReference_wire : Wire ArtifactReference ArtifactReference_encode decodeArtifactReference.
Proof.
  solve_fields ArtifactReference_encode decodeArtifactReference [KText MaxDigestBytes; KText MaxShortTextBytes]
    (fun v => [FText (ArtifactReference_ArtifactDigest v); FText (ArtifactReference_Locator v)]).
Defined.

#[export] Instance ChainReference_wire : Wire ChainReference ChainReference_encode decodeChainReference.
Proof.
  solve_fields ChainReference_encode decodeChainReference [KText MaxShortTextBytes; KText MaxDigestBytes]
    (fun v => [FText (ChainReference_Account v); FText (ChainReference_StateDigest v)]).
Defined.

#[export] Instance DeliveryAck_wire : Wire DeliveryAck DeliveryAck_encode decodeDeliveryAck.
Proof.
  solve_fields DeliveryAck_encode decodeDeliveryAck [KText MaxShortTextBytes; KUint64]
    (fun v => [FText (DeliveryAck_EventID v); FUint64 (DeliveryAck_ReceivedAtUnix v)]).
Defined.

#[export] Instance ApplicationAck_wire : Wire ApplicationAck ApplicationAck_encode decodeApplicationAck.
Proof.
  solve_fields ApplicationAck_encode decodeApplicationAck [KText MaxShortTextBytes; KText MaxShortTextBytes; KUint64; KText MaxShortTextBytes]
    (fun v => [FText (ApplicationAck_EventID v); FText (ApplicationAck_Outcome v); FUint64 (ApplicationAck_DecidedAtUnix v); FText (ApplicationAck_Reason v)]).
Defined.

#[export] Instance ReadAck_wire : Wire ReadAck ReadAck_encode decodeReadAck.
Proof.
  solve_fields ReadAck_encode decodeReadAck [KText MaxShortTextBytes; KUint64]
    (fun v => [FText (ReadAck_EventID v); FUint64 (ReadAck_ReadAtUnix v)]).
Defined.

#[export] Instance RoomInvite_wire : Wire RoomInvite RoomInvite_encode decodeRoomInvite.
Proof.
  solve_fields RoomInvite_encode decodeRoomInvite [KText MaxShortTextBytes; KText MaxShortTextBytes; KText MaxShortTextBytes; KUint64]
    (fun v => [FText (RoomInvite_RoomID v); FText (RoomInvite_InviteeAgentID v); FText (RoomInvite_Purpose v); FUint64 (RoomInvite_ExpiresAtUnix v)]).
Defined.

#[export] Instance RoomMembershipCommit_wire : Wire RoomMembershipCommit RoomMembershipCommit_encode decodeRoomMembershipCommit.
Proof.
  solve_fields RoomMembershipCommit_encode decodeRoomMembershipCommit [KText MaxShortTextBytes; KUint64; KText MaxDigestBytes; KUint32]
    (fun v => [FText (rc_RoomID v); FUint64 (rc_Epoch v); FText (rc_MembershipDigest v); FUint32 (rc_MemberCount v)]).
Defined.

#[export] Instance RoomMessage_wire : Wire RoomMessage RoomMessage_encode decodeRoomMessage.
Proof.
  solve_fields RoomMessage_encode decodeRoomMessage [KText MaxShortTextBytes; KUint64; KText MaxShortTextBytes; KText MaxTextBytes]
    (fun v => [FText (RoomMessage_RoomID v); FUint64 (RoomMessage_Epoch v); FText (RoomMessage_MediaType v); FText (RoomMessage_Body v)]).
Defined.

#[export] Instance RoomModeration_wire : Wire RoomModeration RoomModeration_encode decodeRoomModeration.
Proof.
  solve_fields RoomModeration_encode decodeRoomModeration [KText MaxShortTextBytes; KUint64; KUint64; KText MaxShortTextBytes; KUint64; KText MaxShortTextBytes; KText MaxShortTextBytes]
    (fun v => [FText (rm_RoomID v); FUint64 (rm_MembershipEpoch v); FUint64 (rm_RolePolicyRevision v); FText (rm_TargetEventID v); FUint64 (rm_DecisionRevision v); FText (rm_Action v); FText (rm_Reason v)]).
Defined.

#[export] Instance GiftAddressRequest_wire : Wire GiftAddressRequest GiftAddressRequest_encode decodeGiftAddressRequest.
Proof.
  solve_fields GiftAddressRequest_encode decodeGiftAddressRequest [KBytes MaxGiftCanonicalBytes]
    (fun v => [FBytes (GiftAddressRequest_CanonicalRequest v)]).
Defined.

#[export] Instance GiftAddressResponse_wire : Wire GiftAddressResponse GiftAddressResponse_encode decodeGiftAddressResponse.
Proof.
  solve_fields GiftAddressResponse_encode decodeGiftAddressResponse [KBytes MaxGiftCanonicalBytes]
    (fun v => [FBytes (GiftAddressResponse_CanonicalResponse v)]).
Defined.

#[export] Instance GiftSignedBOCOffer_wire : Wire GiftSignedBOCOffer GiftSignedBOCOffer_encode decodeGiftSignedBOCOffer.
Proof.
  solve_fields GiftSignedBOCOffer_encode decodeGiftSignedBOCOffer [KBytes MaxGiftCanonicalBytes]
    (fun v => [FBytes (GiftSignedBOCOffer_CanonicalOffer v)]).
Defined.

#[export] Instance IntentApplication_wire : Wire IntentApplication IntentApplication_encode decodeIntentApplication.
Proof.
  solve_fields IntentApplication_encode decodeIntentApplication [KBytes MaxIntentApplicationBytes]
    (fun v => [FBytes (IntentApplication_CanonicalApplication v)]).
Defined.

#[export] Instance OperationOutcome_wire : Wire OperationOutcome OperationOutcome_encode decodeOperationOutcome.
Proof.
  solve_fields OperationOutcome_encode decodeOperationOutcome [KText MaxDigestBytes; KText MaxDigestBytes; KBytes MaxInlineOperationOutcomeBytes]
    (fun v => [FText (OperationOutcome_OperationID v); FText (OperationOutcome_OperationEnvelopeDigest v); FBytes (OperationOutcome_CanonicalRequest v)]).
Defined.

#[export] Instance PrivateHandoffChallenge_wire : Wire PrivateHandoffChallenge PrivateHandoffChallenge_encode decodePrivateHandoffChallenge.
Proof.
  solve_fields PrivateHandoffChallenge_encode decodePrivateHandoffChallenge [KText MaxDigestBytes; KBytes MaxPrivateHandoffControlBytes]
    (fun v => [FText (PrivateHandoffChallenge_ChallengeDigest v); FBytes (PrivateHandoffChallenge_CanonicalChallenge v)]).
Defined.

#[export] Instance PrivateHandoffAuthorization_wire : Wire PrivateHandoffAuthorization PrivateHandoffAuthorization_encode decodePrivateHandoffAuthorization.
Proof.
  solve_fields PrivateHandoffAuthorization_encode decodePrivateHandoffAuthorization [KText MaxDigestBytes; KText MaxDigestBytes; KBytes MaxPrivateHandoffControlBytes]
    (fun v => [FText (PrivateHandoffAuthorization_ChallengeDigest v); FText (PrivateHandoffAuthorization_AuthorizationDigest v); FBytes (PrivateHandoffAuthorization_CanonicalAuthorization v)]).
Defined.

#[export] Instance PrivateHandoffAcknowledgement_wire : Wire PrivateHandoffAcknowledgement PrivateHandoffAcknowledgement_encode decodePrivateHandoffAcknowledgement.
Proof.
  solve_fields PrivateHandoffAcknowledgement_encode decodePrivateHandoffAcknowledgement [KText MaxDigestBytes; KText MaxDigestBytes; KBytes MaxPrivateHandoffControlBytes]
    (fun v => [FText (PrivateHandoffAcknowledgement_ChallengeDigest v); FText (PrivateHandoffAcknowledgement_AcknowledgementDigest v); FBytes (PrivateHandoffAcknowledgement_CanonicalAcknowledgement v)]).
Defined.

#[export] Instance PrivateHandoffStatus_wire : Wire PrivateHandoffStatus PrivateHandoffStatus_encode decodePrivateHandoffStatus.
Proof.
  solve_fields PrivateHandoffStatus_encode decodePrivateHandoffStatus [KText MaxShortTextBytes; KText MaxDigestBytes; KText MaxShortTextBytes; KText MaxDigestBytes]
    (fun v => [FText (PrivateHandoffStatus_HandoffID v); FText (PrivateHandoffStatus_ActionID v); FText (PrivateHandoffStatus_State v); FText (PrivateHandoffStatus_EvidenceDigest v)]).
Defined.

#[export] Instance PrivateHandoffDelete_wire : Wire PrivateHandoffDelete PrivateHandoffDelete_encode decodePrivateHandoffDelete.
Proof.
  solve_fields PrivateHandoffDelete_encode decodePrivateHandoffDelete [KText MaxShortTextBytes; KText MaxDigestBytes; KText MaxDigestBytes; KText MaxDigestBytes]
    (fun v => [FText (PrivateHandoffDelete_HandoffID v); FText (PrivateHandoffDelete_ContentManifestDigest v); FText (PrivateHandoffDelete_RetentionPolicyDigest v); FText (PrivateHandoffDelete_DeleteActionID v)]).
Defined.

#[export] Instance AgreementPropose_wire : Wire AgreementPropose AgreementPropose_encode decodeAgreementPropose.
Proof.
  solve_fields AgreementPropose_encode decodeAgreementPropose [KText MaxDigestBytes; KBytes MaxAgreementPromotionBytes]
    (fun v => [FText (AgreementPropose_AgreementBodyDigest v); FBytes (AgreementPropose_CanonicalBody v)]).
Defined.

#[export] Instance AgreementAccept_wire : Wire AgreementAccept AgreementAccept_encode decodeAgreementAccept.
Proof.
  solve_fields AgreementAccept_encode decodeAgreementAccept [KText MaxDigestBytes; KBytes MaxAgreementPromotionBytes]
    (fun v => [FText (AgreementAccept_AgreementBodyDigest v); FBytes (AgreementAccept_CanonicalAcceptance v)]).
Defined.

#[export] Instance AgreementEvidence_wire : Wire AgreementEvidence AgreementEvidence_encode decodeAgreementEvidence.
Proof.
  solve_fields AgreementEvidence_encode decodeAgreementEvidence [KText MaxDigestBytes; KText MaxDigestBytes; KBytes MaxAgreementPromotionBytes]
    (fun v => [FText (AgreementEvidence_AgreementBodyDigest v); FText (AgreementEvidence_EvidenceDigest v); FBytes (AgreementEvidence_CanonicalEvidence v)]).
Defined.

#[export] Instance PaidDemandProviderOffer_wire : Wire PaidDemandProviderOffer PaidDemandProviderOffer_encode decodePaidDemandProviderOffer.
Proof.
  solve_fields PaidDemandProviderOffer_encode decodePaidDemandProviderOffer [KText MaxDigestBytes; KText MaxDigestBytes; KBytes MaxAgreementPromotionBytes]
    (fun v => [FText (PaidDemandProviderOffer_AgreementBodyDigest v); FText (PaidDemandProviderOffer_ProviderOfferDigest v); FBytes (PaidDemandProviderOffer_CanonicalOffer v)]).
Defined.

#[export] Instance AgreementWithdraw_wire : Wire AgreementWithdraw AgreementWithdraw_encode decodeAgreementWithdraw.
Proof.
  solve_fields AgreementWithdraw_encode decodeAgreementWithdraw [KText MaxDigestBytes; KText MaxDigestBytes; KText MaxShortTextBytes]
    (fun v => [FText (AgreementWithdraw_AgreementBodyDigest v); FText (AgreementWithdraw_ProposalActionID v); FText (AgreementWithdraw_Reason v)]).
Defined.

#[export] Instance AgreementDelivery_wire : Wire AgreementDelivery AgreementDelivery_encode decodeAgreementDelivery.
Proof.
  solve_fields AgreementDelivery_encode decodeAgreementDelivery [KText MaxDigestBytes; KText MaxShortTextBytes; KText MaxDigestBytes]
    (fun v => [FText (AgreementDelivery_AgreementBodyDigest v); FText (AgreementDelivery_ObligationID v); FText (AgreementDelivery_DeliverableManifestDigest v)]).
Defined.

(** *** Terms *)

Definition terms_kinds : list kind :=
  [KText MaxShortTextBytes; KText MaxShortTextBytes; KText MaxShortTextBytes; KText MaxShortTextBytes;
   KText MaxDigestBytes; KText MaxDigestBytes; KText MaxShortTextBytes; KHash32; KHash32; KUint32;
   KText MaxShortTextBytes; KText MaxDigestBytes; KText MaxDigestBytes; KUint32; KText MaxShortTextBytes;
   KText MaxDigestBytes; KText MaxDigestBytes; KUint64].

Definition terms_fields (t : Terms) : list field :=
  let a := mo_Asset (t_Price t) in
  [FText (t_CapabilityID t); FText (t_CapabilityVersion t); FText (t_CapabilityClass t); FText (t_ProviderAgentID t);
   FText (t_ManifestDigest t); FText (t_TransportBindingDigest t); FText (nw_ID (a_Network a));
   FHash32 (nw_GenesisRootHash (a_Network a)); FHash32 (nw_GenesisFileHash (a_Network a)); FUint32 (u32 (a_Workchain a));
   FText (a_AccountID a); FText (a_MasterCodeHash a); FText (a_WalletCodeHash a); FUint32 (a_Decimals a);
   FText (mo_Atomic (t_Price t)); FText (t_EscrowTermsDigest t); FText (t_DisputePolicyDigest t);
   FUint64 (t_NotAfterUnix t)].

Definition no_terms : Terms := MkTerms "" "" "" "" "" "" (MkMoney (MkAsset (MkNetwork "" "" "") 0 "" "" "" 0) "") "" "" 0.
Definition terms_of (l : list field) : Terms :=
  match l with
  | [FText id; FText version; FText class; FText provider; FText manifest; FText transport; FText network; FHash32 root;
     FHash32 file; FUint32 workchain; FText account; FText master; FText wallet; FUint32 decimals; FText atomic;
     FText escrow; FText dispute; FUint64 expiry] =>
      MkTerms id version class provider manifest transport
        (MkMoney (MkAsset (MkNetwork network root file) (i32 workchain) account master wallet decimals) atomic)
        escrow dispute expiry
  | _ => no_terms
  end.

Definition terms_writable (t : Terms) : Prop :=
  hex64 (nw_GenesisRootHash (a_Network (mo_Asset (t_Price t)))) = true /\
  hex64 (nw_GenesisFileHash (a_Network (mo_Asset (t_Price t)))) = true.
Definition terms_fit (t : Terms) : Prop :=
  Forall2 field_fits terms_kinds (terms_fields t) /\ - 2 ^ 31 <= a_Workchain (mo_Asset (t_Price t)) < 2 ^ 31.

Lemma MustHash32_app buffer h : hex64 h = true -> MustHash32 buffer h = buffer ++ field_bytes (FHash32 h).
Proof.
  intros Hh. unfold MustHash32. pose proof (write_field_ok buffer (FHash32 h) Hh) as H. cbn [write_field] in H. by rewrite H.
Qed.

Lemma encodeTerms_app t b : terms_writable t -> encodeTerms b t = b ++ fields_bytes (terms_fields t).
Proof.
  intros [Hr Hf]. unfold encodeTerms, terms_fields. cbv zeta.
  rewrite !canon_Text_app, !canon_Uint32_app, canon_Uint64_app, !MustHash32_app by done.
  by rewrite !fields_bytes_cons, fields_bytes_nil, app_nil_r, <- !app_assoc.
Qed.

Lemma decodeTerms_fields r : decodeTerms r = (terms_of (read_fields terms_kinds r).1, (read_fields terms_kinds r).2).
Proof.
  unfold decodeTerms, terms_kinds. cbn [read_fields read_field].
  run_reads. reflexivity.
Qed.

Lemma i32_u32 z : - 2 ^ 31 <= z < 2 ^ 31 -> i32 (u32 z) = z.
Proof.
  intros H. unfold i32, u32. destruct (Z.lt_ge_cases z 0).
  - rewrite <- (Z.mod_add z 1 (2 ^ 32)), Z.mod_small by lia. rewrite (proj2 (Z.ltb_ge _ _)); lia.
  - rewrite Z.mod_small by lia. rewrite (proj2 (Z.ltb_lt _ _)); lia.
Qed.

Lemma u32_i32_bytes z : field_bytes (FUint32 (u32 (i32 z))) = field_bytes (FUint32 z).
Proof.
  cbn [field_bytes]. unfold u32. change (2 ^ 32) with (256 ^ Z.of_nat 4). rewrite be_bytes_mod. unfold i32.
  destruct (z <? 2 ^ 31); [done|]. rewrite <- (be_bytes_mod 4 (z - 2 ^ 32)), <- (be_bytes_mod 4 z). f_equal.
  change (256 ^ Z.of_nat 4) with (2 ^ 32). replace (z - 2 ^ 32) with (z + (-1) * 2 ^ 32) by lia. by rewrite Z.mod_add.
Qed.

Lemma terms_of_fields t : terms_fit t -> terms_of (terms_fields t) = t.
Proof.
  intros [_ Hw]. destruct t as [? ? ? ? ? ? [[[] w] ] ? ? ?]. cbn [terms_fields terms_of t_Price mo_Asset a_Workchain] in *.
  cbn. by rewrite i32_u32.
Qed.

(** Takes a list of fields of a known shape apart. *)
Ltac inv_shape :=
  repeat match goal with
  | H : Forall2 kind_shape (_ :: _) ?l |- _ => apply Forall2_cons_inv_l in H as (? & ? & ? & H & ->)
  | H : Forall2 kind_shape [] ?l |- _ => apply Forall2_nil_inv_l in H as ->
  | H : kind_shape _ ?f |- _ => is_var f; destruct f; cbn [kind_shape] in H; try done; clear H
  end.

Lemma terms_fields_of l :
  Forall2 kind_shape terms_kinds l -> Forall writable l ->
  terms_writable (terms_of l) /\ fields_bytes (terms_fields (terms_of l)) = fields_bytes l.
Proof.
  intros H Hw. unfold terms_kinds in H. inv_shape. cbn [terms_of].
  repeat match goal with E : Forall writable (_ :: _) |- _ => apply Forall_cons in E as [? E] end.
  split; [done|]. unfold terms_fields. cbn [t_CapabilityID t_CapabilityVersion t_CapabilityClass t_ProviderAgentID
    t_ManifestDigest t_TransportBindingDigest t_Price t_EscrowTermsDigest t_DisputePolicyDigest t_NotAfterUnix mo_Asset mo_Atomic
    a_Network a_Workchain a_AccountID a_MasterCodeHash a_WalletCodeHash a_Decimals nw_ID nw_GenesisRootHash nw_GenesisFileHash].
  by rewrite !fields_bytes_cons, u32_i32_bytes.
Qed.

(** An identifier followed by terms. *)
Definition terms_wire {A} (encode : A -> bytes -> bytes) (decode : Reader -> A * Reader)
    (id : A -> string) (terms : A -> Terms) (make : string -> Terms -> A)
    (Henc : forall v b, encode v b = encodeTerms (canon_Text b (id v)) (terms v))
    (Hdec : forall r, decode r = (let '(i, r1) := Reader_Text MaxShortTextBytes r in
                                  let '(t, r2) := decodeTerms r1 in (make i t, r2)))
    (Hid : forall i t, id (make i t) = i) (Hterms : forall i t, terms (make i t) = t)
    (Hmake : forall v, make (id v) (terms v) = v) : Wire A encode decode.
Proof.
  refine (of_wire encode decode (KText MaxShortTextBytes :: terms_kinds) (fun v => FText (id v) :: terms_fields (terms v))
    (fun l => match l with FText i :: rest => make i (terms_of rest) | _ => make "" no_terms end)
    (fun v => terms_writable (terms v))
    (fun v => field_fits (KText MaxShortTextBytes) (FText (id v)) /\ terms_fit (terms v)) _ _ _ _).
  - intros v b Hv. rewrite Henc, encodeTerms_app, canon_Text_app, fields_bytes_cons by done. by rewrite <- app_assoc.
  - intros r. rewrite Hdec. cbn [read_fields read_field]. destruct (Reader_Text _ r) as [i r1].
    rewrite decodeTerms_fields. by destruct (read_fields terms_kinds r1).
  - intros v [Hi Ht]. split; [by constructor; [|apply Ht]|]. by rewrite terms_of_fields, Hmake.
  - intros l Hl Hw. apply Forall2_cons_inv_l in Hl as (f & rest & Hf & Hl & ->). destruct f; try done.
    apply Forall_cons in Hw as [_ Hw]. rewrite Hid, Hterms. destruct (terms_fields_of rest Hl Hw) as [Hv He].
    split; [done|]. by rewrite !fields_bytes_cons, He.
Defined.

#[export] Instance NegotiationProposal_wire : Wire NegotiationProposal NegotiationProposal_encode decodeNegotiationProposal.
Proof.
  refine (terms_wire _ _ NegotiationProposal_NegotiationID NegotiationProposal_Terms MkNegotiationProposal _ _ _ _ _); try done. by intros [].
Defined.

#[export] Instance NegotiationCounterproposal_wire : Wire NegotiationCounterproposal NegotiationCounterproposal_encode decodeNegotiationCounterproposal.
Proof.
  refine (terms_wire _ _ NegotiationCounterproposal_NegotiationID NegotiationCounterproposal_Terms MkNegotiationCounterproposal _ _ _ _ _); try done. by intros [].
Defined.

#[export] Instance NegotiationIntentAccept_wire : Wire NegotiationIntentAccept NegotiationIntentAccept_encode decodeNegotiationIntentAccept.
Proof.
  refine (terms_wire _ _ NegotiationIntentAccept_NegotiationID NegotiationIntentAccept_Terms MkNegotiationIntentAccept _ _ _ _ _); try done. by intros [].
Defined.

#[export] Instance A2AMessage_wire : Wire A2AMessage A2AMessage_encode decodeA2AMessage.
Proof.
  refine (map_wire _ _ _ _ Foreign_wire A2AMessage_Foreign MkA2AMessage _ _ _ _); try done; [|by intros []].
  intros r. unfold decodeA2AMessage. by destruct (decodeForeign r).
Defined.

#[export] Instance MCPCall_wire : Wire MCPCall MCPCall_encode decodeMCPCall.
Proof.
  refine (map_wire _ _ _ _ Foreign_wire MCPCall_Foreign MkMCPCall _ _ _ _); try done; [|by intros []].
  intros r. unfold decodeMCPCall. by destruct (decodeForeign r).
Defined.

#[export] Instance MCPResult_wire : Wire MCPResult MCPResult_encode decodeMCPResult.
Proof.
  refine (map_wire _ _ _ _ Foreign_wire MCPResult_Foreign MkMCPResult _ _ _ _); try done; [|by intros []].
  intros r. unfold decodeMCPResult. by destruct (decodeForeign r).
Defined.

#[export] Instance AgentPacketMessage_wire : Wire AgentPacketMessage AgentPacketMessage_encode decodeAgentPacketMessage.
Proof.
  refine (map_wire _ _ _ _ Foreign_wire AgentPacketMessage_Foreign MkAgentPacketMessage _ _ _ _); try done; [|by intros []].
  intros r. unfold decodeAgentPacketMessage. by destruct (decodeForeign r).
Defined.

#[export] Instance QuoteReference_wire : Wire QuoteReference QuoteReference_encode decodeQuoteReference.
Proof.
  refine (map_wire _ _ _ _ ChainReference_wire QuoteReference_ChainReference MkQuoteReference _ _ _ _); try done; [|by intros []].
  intros r. unfold decodeQuoteReference. by destruct (decodeChainReference r).
Defined.

#[export] Instance EscrowReference_wire : Wire EscrowReference EscrowReference_encode decodeEscrowReference.
Proof.
  refine (map_wire _ _ _ _ ChainReference_wire EscrowReference_ChainReference MkEscrowReference _ _ _ _); try done; [|by intros []].
  intros r. unfold decodeEscrowReference. by destruct (decodeChainReference r).
Defined.

#[export] Instance ReceiptReference_wire : Wire ReceiptReference ReceiptReference_encode decodeReceiptReference.
Proof.
  refine (map_wire _ _ _ _ ChainReference_wire ReceiptReference_ChainReference MkReceiptReference _ _ _ _); try done; [|by intros []].
  intros r. unfold decodeReceiptReference. by destruct (decodeChainReference r).
Defined.

(** *** History segments *)

Definition segment_kinds : list kind :=
  [KText MaxShortTextBytes; KText MaxShortTextBytes; KText MaxShortTextBytes; KUint64; KText MaxDigestBytes; KUint64;
   KText MaxShortTextBytes].
Definition segment_fields (v : DeviceHistorySegment) : list field :=
  [FText (DeviceHistorySegment_SourceDeviceID v); FText (DeviceHistorySegment_TargetDeviceID v);
   FText (DeviceHistorySegment_ConversationID v); FUint64 (DeviceHistorySegment_Sequence v);
   FText (DeviceHistorySegment_PreviousSegmentDigest v); FUint64 (DeviceHistorySegment_AfterCreatedAtUnix v);
   FText (DeviceHistorySegment_AfterEventID v)].
Definition event_count (v : DeviceHistorySegment) : Z := Z.of_nat (length (DeviceHistorySegment_Events v)).
Definition segment_tail (v : DeviceHistorySegment) : list field :=
  FUint32 (u32 (event_count v)) :: (FBytes <$> DeviceHistorySegment_Events v).

Lemma fold_Bytes l b : fold_left canon_Bytes l b = b ++ fields_bytes (FBytes <$> l).
Proof.
  revert b. induction l as [|x l IH]; intros b; cbn [fold_left fmap list_fmap]; [by rewrite fields_bytes_nil, app_nil_r|].
  by rewrite IH, canon_Bytes_app, fields_bytes_cons, <- app_assoc.
Qed.

Lemma read_events_fields n r :
  (FBytes <$> (read_events n r).1, (read_events n r).2) = read_fields (replicate n (KBytes MaxOpaqueBytes)) r.
Proof.
  revert r. induction n as [|n IH]; intros r; cbn [read_events replicate read_fields read_field]; [done|].
  destruct (Reader_Bytes MaxOpaqueBytes r) as [e r1]. rewrite <- IH. by destruct (read_events n r1).
Qed.

Lemma length_read_events n r : length (read_events n r).1 = n.
Proof.
  revert r. induction n as [|n IH]; intros r; cbn [read_events]; [done|].
  destruct (Reader_Bytes MaxOpaqueBytes r) as [e r1]. specialize (IH r1). destruct (read_events n r1). cbn in *. lia.
Qed.

Lemma read_count_at r m z rest :
  0 <= z <= m -> m < 2 ^ 32 -> reader_at r (field_bytes (FUint32 (u32 z)) ++ rest) ->
  exists r', Reader_Count m r = (z, r') /\ reader_at r' rest.
Proof.
  intros Hz Hm Hat. cbn [field_bytes] in Hat. destruct (reader_at_Uint r 4 _ rest Hat) as (r' & Hr & Hat').
  exists r'. split; [|done]. unfold Reader_Count, Reader_Uint32. rewrite Hr.
  rewrite (proj1 Hat'). change (256 ^ Z.of_nat 4) with (2 ^ 32). unfold u32. rewrite Z.mod_mod, Z.mod_small by lia.
  by rewrite (proj2 (Z.ltb_ge _ _)) by lia.
Qed.

Lemma read_count_inv r m z r' :
  Reader_Count m r = (z, r') -> r_err r' = None -> 0 <= z <= m /\ consumed r r' (field_bytes (FUint32 (u32 z))).
Proof.
  unfold Reader_Count, Reader_Uint32. destruct (Reader_Uint 4 r) as [c r1] eqn:E. destruct (r_err r1) eqn:E1;
    [intros [= <- <-]; congruence|].
  destruct (Reader_Uint_inv _ _ _ _ E E1) as [Hc Hr]. change (256 ^ Z.of_nat 4) with (2 ^ 32) in Hr.
  destruct (Z.ltb_spec m c); [intros [= _ <-] H'; by apply Reader_fail_err in H'|].
  intros [= <- <-] _. split; [lia|]. cbn [field_bytes]. by rewrite u32_id.
Qed.

#[export] Instance DeviceHistorySegment_wire :
  Wire DeviceHistorySegment DeviceHistorySegment_encode decodeDeviceHistorySegment.
Proof.
  refine {| wire_bytes := fun v => fields_bytes (segment_fields v ++ segment_tail v); wire_valid := fun _ => True;
            wire_fits := fun v => Forall2 field_fits segment_kinds (segment_fields v) /\
              event_count v <= MaxHistoryEventsPerSegment /\
              Forall (fun e => field_fits (KBytes MaxOpaqueBytes) (FBytes e)) (DeviceHistorySegment_Events v) |}.
  - done.
  - intros v b _. unfold DeviceHistorySegment_encode. rewrite fold_Bytes.
    rewrite !canon_Text_app, !canon_Uint64_app, canon_Uint32_app. unfold segment_fields, segment_tail. cbn [app].
    by rewrite !fields_bytes_cons, <- !app_assoc.
  - intros v r rest (Hf & Hn & He) Hat. rewrite fields_bytes_app, <- app_assoc in Hat.
    destruct (read_fields_at r _ _ _ Hf Hat) as (r1 & H1 & Hat1). unfold segment_tail in Hat1.
    rewrite fields_bytes_cons, <- app_assoc in Hat1.
    apply (read_count_at r1 MaxHistoryEventsPerSegment) in Hat1 as (r2 & H2 & Hat2);
      [|unfold event_count in *; lia|done].
    set (n := length (DeviceHistorySegment_Events v)).
    assert (Forall2 field_fits (replicate n (KBytes MaxOpaqueBytes)) (FBytes <$> DeviceHistorySegment_Events v)) as Hfe.
    { subst n. clear -He. induction He; cbn; constructor; auto. }
    destruct (read_fields_at r2 _ _ _ Hfe Hat2) as (r3 & H3 & Hat3). exists r3. split; [|done].
    rewrite <- read_events_fields in H3. injection H3 as H3 H3'. apply (list_fmap_eq_inj FBytes) in H3; [|by intros ? ? [=]].
    revert H1. unfold decodeDeviceHistorySegment, segment_kinds, segment_fields. cbn [read_fields read_field]. run_reads.
    intros H1. simplify_eq. rewrite H2. unfold event_count. rewrite Nat2Z.id. fold n.
    destruct (read_events n r2). cbn [fst snd] in *. subst. by destruct v.
  - intros r v r' Hd He. split; [done|]. unfold decodeDeviceHistorySegment in Hd.
    destruct (read_fields segment_kinds r) as [fs rf] eqn:E. pose proof E as E'. revert Hd E'. unfold segment_kinds.
    cbn [read_fields read_field]. run_reads. intros Hd [= <- ->].
    destruct (Reader_Count _ rf) as [c rc] eqn:Ec. destruct (read_events (Z.to_nat c) rc) as [es re] eqn:Ee. simplify_eq.
    pose proof (read_events_fields (Z.to_nat c) rc) as Hre. pose proof (length_read_events (Z.to_nat c) rc) as Hl.
    rewrite Ee in Hre, Hl. cbn [fst snd] in *. symmetry in Hre.
    destruct (read_fields_inv _ _ _ _ Hre He) as [_ Hc3].
    destruct (read_count_inv _ _ _ _ Ec (proj1 Hc3)) as [Hb Hc2].
    destruct (read_fields_inv _ _ _ _ E (proj1 Hc2)) as [_ Hc1].
    rewrite fields_bytes_app. unfold segment_tail. rewrite fields_bytes_cons. unfold event_count. cbn [DeviceHistorySegment_Events].
    rewrite Hl, Z2Nat.id by lia. eapply consumed_trans; [exact Hc1|]. by eapply consumed_trans.
Defined.

(** *** Encrypted attachments: one writer, a reader per schema *)

Definition attachment_kinds : list kind := [KText MaxDigestBytes; KBytes MaxOpaqueBytes; KText MaxShortTextBytes].
Definition attachment_fields (v : EncryptedAttachment) : list field :=
  [FText (EncryptedAttachment_ManifestDigest v); FBytes (EncryptedAttachment_ReferenceJSON v);
   FText (EncryptedAttachment_Locator v)].
Definition access_fields (v : EncryptedAttachment) : list field :=
  [FBytes (EncryptedAttachment_FetchGrantJSON v); FText (EncryptedAttachment_FetchCapabilityPrivateKeyHex v)].
Definition no_attachment : EncryptedAttachment := MkEncryptedAttachment "" [] "" [] "" "".

Definition attachment_of (l : list field) : EncryptedAttachment :=
  match l with
  | [FText digest; FBytes reference; FText locator; FBytes grant; FText key] =>
      MkEncryptedAttachment digest reference locator grant key ""
  | _ => no_attachment
  end.
Definition older_attachment_of (schema : string) (l : list field) : EncryptedAttachment :=
  match l with
  | [FText digest; FBytes reference; FText locator] => MkEncryptedAttachment digest reference locator [] "" schema
  | _ => no_attachment
  end.

Definition EncryptedAttachment_wire : Wire EncryptedAttachment EncryptedAttachment_encode decodeEncryptedAttachment.
Proof.
  set (ks := attachment_kinds ++ [KBytes MaxOpaqueBytes; KText (2 * 64)]).
  refine (of_wire _ _ ks (fun v => attachment_fields v ++ access_fields v) attachment_of
    (fun v => EncryptedAttachment_Schema v = encryptedAttachmentV3Schema)
    (fun v => EncryptedAttachment_schema v = "" /\ Forall2 field_fits ks (attachment_fields v ++ access_fields v)) _ _ _ _).
  - intros v b Hv. unfold EncryptedAttachment_encode. rewrite Hv, String.eqb_refl.
    rewrite !canon_Text_app, !canon_Bytes_app. unfold attachment_fields, access_fields.
    by rewrite fields_bytes_app, !fields_bytes_cons, fields_bytes_nil, !app_nil_r, <- !app_assoc.
  - intros r. unfold decodeEncryptedAttachment, ks, attachment_kinds. cbn [app read_fields read_field].
    run_reads. reflexivity.
  - intros v [Hs Hf]. split; [done|]. destruct v. cbn in *. by subst.
  - intros l Hl _. unfold ks, attachment_kinds in Hl. cbn [app] in Hl. inv_shape.
Defined.

Definition older_attachment_wire schema (Hs : schema <> "") (H3 : schema <> encryptedAttachmentV3Schema) :
  Wire EncryptedAttachment EncryptedAttachment_encode (decode_older_attachment schema).
Proof.
  refine (of_wire _ _ attachment_kinds attachment_fields (older_attachment_of schema)
    (fun v => EncryptedAttachment_schema v = schema)
    (fun v => EncryptedAttachment_schema v = schema /\ EncryptedAttachment_FetchGrantJSON v = [] /\
       EncryptedAttachment_FetchCapabilityPrivateKeyHex v = "" /\ Forall2 field_fits attachment_kinds (attachment_fields v))
    _ _ _ _).
  - intros v b Hv. unfold EncryptedAttachment_encode, EncryptedAttachment_Schema. rewrite Hv.
    rewrite (proj2 (String.eqb_neq _ _) Hs), (proj2 (String.eqb_neq _ _) H3).
    rewrite !canon_Text_app, !canon_Bytes_app. unfold attachment_fields.
    by rewrite !fields_bytes_cons, fields_bytes_nil, app_nil_r, <- !app_assoc.
  - intros r. unfold decode_older_attachment, attachment_kinds. cbn [read_fields read_field]. run_reads. reflexivity.
  - intros v (Hv & Hg & Hk & Hf). split; [done|]. destruct v. cbn in *. by subst.
  - intros l Hl _. unfold attachment_kinds in Hl. inv_shape.
Defined.

Definition EncryptedAttachmentV2_wire : Wire EncryptedAttachment EncryptedAttachment_encode decodeEncryptedAttachmentV2 :=
  older_attachment_wire encryptedAttachmentV2Schema ltac:(done) ltac:(done).
Definition EncryptedAttachmentV1_wire : Wire EncryptedAttachment EncryptedAttachment_encode decodeEncryptedAttachmentV1 :=
  older_attachment_wire encryptedAttachmentV1Schema ltac:(done) ltac:(done).

(** ** The registry *)

Section Registry.
  Context `{PR : Protocol} `{AF : AttachmentFormats}.

#[export] Instance CommerceProfileEvent_wire : Wire CommerceProfileEvent CommerceProfileEvent_encode decodeCommerceProfileEvent.
Proof.
  refine (fields_wire _ _ [KText MaxDigestBytes; KBytes MaxProfileEventBytes]
    (fun v => [FText (CommerceProfileEvent_ObjectDigest v); FBytes (CommerceProfileEvent_CanonicalEvent v)]) _ _ _).
  - solve_encode CommerceProfileEvent_encode.
  - intros r. unfold decodeCommerceProfileEvent. cbn [read_fields read_field]. run_reads. reflexivity.
  - solve_inj.
Defined.

(** The kind each body is registered under. *)
Definition payload_kind (p : Payload) : string :=
  match p with
  | PText _ => "text"
  | PConversationInvite _ => "conversation.invite"
  | PConversationAccept _ => "conversation.accept"
  | PPresenceHint _ => "presence.hint"
  | PGiftAddressRequest _ => "agent.gift.address-request"
  | PGiftAddressResponse _ => "agent.gift.address-response"
  | PGiftSignedBOCOffer _ => "agent.gift.signed-boc-offer"
  | PTaskRequest _ => "agent.task.request"
  | PTaskProgress _ => "agent.task.progress"
  | PTaskResult _ => "agent.task.result"
  | PTaskStatusRequest _ => "agent.task.status.request"
  | PNegotiationProposal _ => "negotiation.proposal"
  | PNegotiationCounterproposal _ => "negotiation.counterproposal"
  | PNegotiationWithdraw _ => "negotiation.withdraw"
  | PNegotiationIntentAccept _ => "negotiation.intent.accept"
  | PNegotiationIntentReject _ => "negotiation.intent.reject"
  | PIntentApplication _ => "intent.application"
  | PAgreementPropose _ => "agreement.propose"
  | PAgreementAccept _ => "agreement.accept"
  | PAgreementEvidence _ => "agreement.evidence"
  | PAgreementWithdraw _ => "agreement.withdraw"
  | PAgreementDelivery _ => "agreement.delivery"
  | PPaidDemandProviderOffer _ => "agreement.provider-offer"
  | PCommerceProfileEvent _ => "commerce.profile-event"
  | POperationOutcome _ => "operation.outcome"
  | PPrivateHandoffChallenge _ => "private.handoff.challenge"
  | PPrivateHandoffAuthorization _ => "private.handoff.authorization"
  | PPrivateHandoffAcknowledgement _ => "private.handoff.acknowledgement"
  | PPrivateHandoffStatus _ => "private.handoff.status"
  | PPrivateHandoffDelete _ => "private.handoff.delete"
  | PCounterpartyApprovalRequest _ => "counterparty.approval.request"
  | PCounterpartyApprovalGranted _ => "counterparty.approval.granted"
  | PCounterpartyApprovalDenied _ => "counterparty.approval.denied"
  | POwnerApprovalGrant _ => "owner.approval.grant"
  | POwnerApprovalDeny _ => "owner.approval.deny"
  | PA2AMessage _ => "a2a.message"
  | PMCPCall _ => "mcp.call"
  | PMCPResult _ => "mcp.result"
  | PAgentPacketMessage _ => "agent.packet"
  | PArtifactOffer _ => "artifact.offer"
  | PArtifactReference _ => "artifact.reference"
  | PEncryptedAttachment _ => "artifact.encrypted"
  | PQuoteReference _ => "service.quote.reference"
  | PEscrowReference _ => "service.escrow.reference"
  | PReceiptReference _ => "service.receipt.reference"
  | PDeliveryAck _ => "delivery.ack"
  | PApplicationAck _ => "application.ack"
  | PReadAck _ => "read.ack"
  | PDeviceHistorySegment _ => "device.history.segment"
  | PRoomInvite _ => "room.invite"
  | PRoomMembershipCommit _ => "room.membership.commit"
  | PRoomMessage _ => "room.message"
  | PRoomModeration _ => "room.moderation"
  end.

(** The body is within the bounds of its reader: every text is valid UTF-8 no longer than the
    reader takes there, every byte string is within its bound and every number within its width. *)
Definition payload_fits (p : Payload) : Prop :=
  match p with
  | PText v => @wire_fits _ _ _ Text_wire v
  | PConversationInvite v => @wire_fits _ _ _ ConversationInvite_wire v
  | PConversationAccept v => @wire_fits _ _ _ ConversationAccept_wire v
  | PPresenceHint v => @wire_fits _ _ _ PresenceHint_wire v
  | PGiftAddressRequest v => @wire_fits _ _ _ GiftAddressRequest_wire v
  | PGiftAddressResponse v => @wire_fits _ _ _ GiftAddressResponse_wire v
  | PGiftSignedBOCOffer v => @wire_fits _ _ _ GiftSignedBOCOffer_wire v
  | PTaskRequest v => @wire_fits _ _ _ TaskRequest_wire v
  | PTaskProgress v => @wire_fits _ _ _ TaskProgress_wire v
  | PTaskResult v => @wire_fits _ _ _ TaskResult_wire v
  | PTaskStatusRequest v => @wire_fits _ _ _ TaskStatusRequest_wire v
  | PNegotiationProposal v => @wire_fits _ _ _ NegotiationProposal_wire v
  | PNegotiationCounterproposal v => @wire_fits _ _ _ NegotiationCounterproposal_wire v
  | PNegotiationWithdraw v => @wire_fits _ _ _ NegotiationWithdraw_wire v
  | PNegotiationIntentAccept v => @wire_fits _ _ _ NegotiationIntentAccept_wire v
  | PNegotiationIntentReject v => @wire_fits _ _ _ NegotiationIntentReject_wire v
  | PIntentApplication v => @wire_fits _ _ _ IntentApplication_wire v
  | PAgreementPropose v => @wire_fits _ _ _ AgreementPropose_wire v
  | PAgreementAccept v => @wire_fits _ _ _ AgreementAccept_wire v
  | PAgreementEvidence v => @wire_fits _ _ _ AgreementEvidence_wire v
  | PAgreementWithdraw v => @wire_fits _ _ _ AgreementWithdraw_wire v
  | PAgreementDelivery v => @wire_fits _ _ _ AgreementDelivery_wire v
  | PPaidDemandProviderOffer v => @wire_fits _ _ _ PaidDemandProviderOffer_wire v
  | PCommerceProfileEvent v => @wire_fits _ _ _ CommerceProfileEvent_wire v
  | POperationOutcome v => @wire_fits _ _ _ OperationOutcome_wire v
  | PPrivateHandoffChallenge v => @wire_fits _ _ _ PrivateHandoffChallenge_wire v
  | PPrivateHandoffAuthorization v => @wire_fits _ _ _ PrivateHandoffAuthorization_wire v
  | PPrivateHandoffAcknowledgement v => @wire_fits _ _ _ PrivateHandoffAcknowledgement_wire v
  | PPrivateHandoffStatus v => @wire_fits _ _ _ PrivateHandoffStatus_wire v
  | PPrivateHandoffDelete v => @wire_fits _ _ _ PrivateHandoffDelete_wire v
  | PCounterpartyApprovalRequest v => @wire_fits _ _ _ CounterpartyApprovalRequest_wire v
  | PCounterpartyApprovalGranted v => @wire_fits _ _ _ CounterpartyApprovalGranted_wire v
  | PCounterpartyApprovalDenied v => @wire_fits _ _ _ CounterpartyApprovalDenied_wire v
  | POwnerApprovalGrant v => @wire_fits _ _ _ OwnerApprovalGrant_wire v
  | POwnerApprovalDeny v => @wire_fits _ _ _ OwnerApprovalDeny_wire v
  | PA2AMessage v => @wire_fits _ _ _ A2AMessage_wire v
  | PMCPCall v => @wire_fits _ _ _ MCPCall_wire v
  | PMCPResult v => @wire_fits _ _ _ MCPResult_wire v
  | PAgentPacketMessage v => @wire_fits _ _ _ AgentPacketMessage_wire v
  | PArtifactOffer v => @wire_fits _ _ _ ArtifactOffer_wire v
  | PArtifactReference v => @wire_fits _ _ _ ArtifactReference_wire v
  | PEncryptedAttachment v =>
      let schema := EncryptedAttachment_schema v in
      if String.eqb schema encryptedAttachmentV1Schema then @wire_fits _ _ _ EncryptedAttachmentV1_wire v
      else if String.eqb schema encryptedAttachmentV2Schema then @wire_fits _ _ _ EncryptedAttachmentV2_wire v
      else @wire_fits _ _ _ EncryptedAttachment_wire v
  | PQuoteReference v => @wire_fits _ _ _ QuoteReference_wire v
  | PEscrowReference v => @wire_fits _ _ _ EscrowReference_wire v
  | PReceiptReference v => @wire_fits _ _ _ ReceiptReference_wire v
  | PDeliveryAck v => @wire_fits _ _ _ DeliveryAck_wire v
  | PApplicationAck v => @wire_fits _ _ _ ApplicationAck_wire v
  | PReadAck v => @wire_fits _ _ _ ReadAck_wire v
  | PDeviceHistorySegment v => @wire_fits _ _ _ DeviceHistorySegment_wire v
  | PRoomInvite v => @wire_fits _ _ _ RoomInvite_wire v
  | PRoomMembershipCommit v => @wire_fits _ _ _ RoomMembershipCommit_wire v
  | PRoomMessage v => @wire_fits _ _ _ RoomMessage_wire v
  | PRoomModeration v => @wire_fits _ _ _ RoomModeration_wire v
  end.

(** What a reader of the registry owes: a value it returns without error is of its kind and schema,
    and was read from exactly the bytes the writer appends for it. *)
Definition codec_ok (kind schema : string) (decode : decoder) : Prop :=
  forall r p r', decode r = (p, r') -> r_err r' = None ->
    payload_kind p = kind /\ Schema p = schema /\
    exists body, consumed r r' body /\ forall b, payload_encode p b = b ++ body.

Lemma wire_codec_ok {A} encode decode (W : Wire A encode decode) (inject : A -> Payload) kind schema :
  (forall v, payload_kind (inject v) = kind) -> (forall v, wire_valid v -> Schema (inject v) = schema) ->
  (forall v b, payload_encode (inject v) b = encode v b) -> codec_ok kind schema (as_payload inject decode).
Proof.
  intros Hk Hs Henc r p r' Hd He. unfold as_payload in Hd. destruct (decode r) as [v r1] eqn:E. injection Hd as <- <-.
  destruct (wire_inv _ _ _ E He) as [Hv Hc]. split; [apply Hk|]. split; [by apply Hs|].
  exists (wire_bytes v). split; [done|]. intros b. rewrite Henc. by apply wire_encode.
Qed.

Definition spec_ok (entry : string * codec) : Prop :=
  codec_ok entry.1 (co_schema entry.2) (co_decode entry.2) /\
  Forall (fun old => codec_ok entry.1 old.1 old.2) (co_legacy entry.2).

Ltac codec_case W :=
  split; cbn [fst snd co_schema co_decode co_legacy]; [by apply (wire_codec_ok _ _ W)|try by constructor].

Lemma codecs_ok : Forall spec_ok codecs.
Proof.
  unfold codecs.
  constructor; [codec_case Text_wire|].
  constructor; [codec_case ConversationInvite_wire|].
  constructor; [codec_case ConversationAccept_wire|].
  constructor; [codec_case PresenceHint_wire|].
  constructor; [codec_case GiftAddressRequest_wire|].
  constructor; [codec_case GiftAddressResponse_wire|].
  constructor; [codec_case GiftSignedBOCOffer_wire|].
  constructor; [codec_case TaskRequest_wire|].
  constructor; [codec_case TaskProgress_wire|].
  constructor; [codec_case TaskResult_wire|].
  constructor; [codec_case TaskStatusRequest_wire|].
  constructor; [codec_case NegotiationProposal_wire|].
  constructor; [codec_case NegotiationCounterproposal_wire|].
  constructor; [codec_case NegotiationWithdraw_wire|].
  constructor; [codec_case NegotiationIntentAccept_wire|].
  constructor; [codec_case NegotiationIntentReject_wire|].
  constructor; [codec_case IntentApplication_wire|].
  constructor; [codec_case AgreementPropose_wire|].
  constructor; [codec_case AgreementAccept_wire|].
  constructor; [codec_case AgreementEvidence_wire|].
  constructor; [codec_case AgreementWithdraw_wire|].
  constructor; [codec_case AgreementDelivery_wire|].
  constructor; [codec_case PaidDemandProviderOffer_wire|].
  constructor; [codec_case CommerceProfileEvent_wire|].
  constructor; [codec_case OperationOutcome_wire|].
  constructor; [codec_case PrivateHandoffChallenge_wire|].
  constructor; [codec_case PrivateHandoffAuthorization_wire|].
  constructor; [codec_case PrivateHandoffAcknowledgement_wire|].
  constructor; [codec_case PrivateHandoffStatus_wire|].
  constructor; [codec_case PrivateHandoffDelete_wire|].
  constructor; [codec_case CounterpartyApprovalRequest_wire|].
  constructor; [codec_case CounterpartyApprovalGranted_wire|].
  constructor; [codec_case CounterpartyApprovalDenied_wire|].
  constructor; [codec_case OwnerApprovalGrant_wire|].
  constructor; [codec_case OwnerApprovalDeny_wire|].
  constructor; [codec_case A2AMessage_wire|].
  constructor; [codec_case MCPCall_wire|].
  constructor; [codec_case MCPResult_wire|].
  constructor; [codec_case AgentPacketMessage_wire|].
  constructor; [codec_case ArtifactOffer_wire|].
  constructor; [codec_case ArtifactReference_wire|].
  constructor.
  { codec_case EncryptedAttachment_wire. constructor; [|constructor; [|constructor]]; cbn [fst snd].
    - apply (wire_codec_ok _ _ EncryptedAttachmentV1_wire); try done. intros v Hv. cbn in Hv |- *.
      unfold EncryptedAttachment_Schema. by rewrite Hv.
    - apply (wire_codec_ok _ _ EncryptedAttachmentV2_wire); try done. intros v Hv. cbn in Hv |- *.
      unfold EncryptedAttachment_Schema. by rewrite Hv. }
  constructor; [codec_case QuoteReference_wire|].
  constructor; [codec_case EscrowReference_wire|].
  constructor; [codec_case ReceiptReference_wire|].
  constructor; [codec_case DeliveryAck_wire|].
  constructor; [codec_case ApplicationAck_wire|].
  constructor; [codec_case ReadAck_wire|].
  constructor; [codec_case DeviceHistorySegment_wire|].
  constructor; [codec_case RoomInvite_wire|].
  constructor; [codec_case RoomMembershipCommit_wire|].
  constructor; [codec_case RoomMessage_wire|].
  constructor; [codec_case RoomModeration_wire|].
  constructor.
Qed.

Lemma assoc_In {A} key (l : list (string * A)) a : assoc key l = Some a -> (key, a) ∈ l.
Proof.
  induction l as [|[k x] l IH]; cbn [assoc]; [done|]. destruct (String.eqb_spec k key) as [->|]; [intros [= ->]; by left|].
  intros H. right. by apply IH.
Qed.

Lemma consumed_all domain p r' body :
  consumed (NewReader domain p) r' body -> Reader_Done r' = None -> p = bytes_of_string domain ++ body.
Proof.
  intros (He & Hb & Hd) Hdone. destruct (NewReader_inv domain p He) as [Hp Hsplit].
  unfold Reader_Done in Hdone. destruct (r_err r'); [done|]. destruct (Nat.eqb_spec (r_offset r') (length (r_buffer r'))) as [Ho|]; [|done].
  rewrite Hp in Hd. rewrite Hd in Hsplit. rewrite Ho, Hb, Hp, drop_all, app_nil_r in Hsplit. done.
Qed.

Lemma reader_done r : reader_at r [] -> Reader_Done r = None.
Proof.
  intros (He & Ho & Hd). unfold Reader_Done. rewrite He.
  assert (length (drop (r_offset r) (r_buffer r)) = 0)%nat as Hl by by rewrite Hd.
  rewrite length_drop in Hl. by rewrite (proj2 (Nat.eqb_eq _ _)) by lia.
Qed.

(** A reader of the registry reads back what was written for a value within its bounds. *)
Lemma decodeSchema_written {A} encode decode (W : Wire A encode decode) (inject : A -> Payload) spec schema v :
  (if String.eqb schema (co_schema spec) then Some (co_decode spec) else assoc schema (co_legacy spec)) =
    Some (as_payload inject decode) ->
  wire_fits v -> payload_Validate (inject v) = Ok tt ->
  decodeSchema spec schema (encode v (bytes_of_string (domainFor schema))) = Ok (inject v).
Proof.
  intros Hspec Hfit Hval. unfold decodeSchema. rewrite Hspec, wire_encode by by apply wire_fits_valid.
  destruct (wire_read v (NewReader (domainFor schema) (bytes_of_string (domainFor schema) ++ wire_bytes v)) [])
    as (r' & Hr & Hat); [done|rewrite app_nil_r; apply NewReader_at|].
  unfold as_payload. rewrite Hr, (reader_done _ Hat), Hval. done.
Qed.

Lemma DecodeSchema_written {A} encode decode (W : Wire A encode decode) (inject : A -> Payload) v content spec :
  assoc (payload_kind (inject v)) codecs = Some spec ->
  (if String.eqb (Schema (inject v)) (co_schema spec) then Some (co_decode spec)
   else assoc (Schema (inject v)) (co_legacy spec)) = Some (as_payload inject decode) ->
  (forall b, payload_encode (inject v) b = encode v b) ->
  wire_fits v -> Encode (inject v) = Ok content ->
  DecodeSchema (payload_kind (inject v)) (Schema (inject v)) content = Ok (inject v).
Proof.
  intros Hk Hs Henc Hfit HE. unfold Encode in HE. destruct (payload_Validate (inject v)) as [[]|] eqn:Hv; [|done].
  apply Ok_inj in HE as <-. rewrite Henc. unfold DecodeSchema. rewrite Hk.
  by apply (decodeSchema_written encode decode W inject).
Qed.

Ltac written W inject :=
  intros Hfit HE; eapply (DecodeSchema_written _ _ W inject); [reflexivity|reflexivity|reflexivity|exact Hfit|exact HE].

Lemma attachment_written v content :
  payload_fits (PEncryptedAttachment v) -> Encode (PEncryptedAttachment v) = Ok content ->
  DecodeSchema "artifact.encrypted" (EncryptedAttachment_Schema v) content = Ok (PEncryptedAttachment v).
Proof.
  intros Hfit HE. cbn [payload_fits] in Hfit.
  pose proof (fun D W => DecodeSchema_written EncryptedAttachment_encode D W PEncryptedAttachment v content _ eq_refl) as Hw.
  cbn [Schema payload_kind] in Hw. revert Hfit. destruct (String.eqb_spec (EncryptedAttachment_schema v) encryptedAttachmentV1Schema) as [E1|E1];
    [|destruct (String.eqb_spec (EncryptedAttachment_schema v) encryptedAttachmentV2Schema) as [E2|E2]]; intros Hfit.
  - apply (Hw _ EncryptedAttachmentV1_wire); try done. unfold EncryptedAttachment_Schema. by rewrite E1.
  - apply (Hw _ EncryptedAttachmentV2_wire); try done. unfold EncryptedAttachment_Schema. by rewrite E2.
  - apply (Hw _ EncryptedAttachment_wire); try done. destruct Hfit as [E _]. unfold EncryptedAttachment_Schema. by rewrite E.
Qed.

Lemma payload_written p content :
  payload_fits p -> Encode p = Ok content -> DecodeSchema (payload_kind p) (Schema p) content = Ok p.
Proof.
  destruct p.
  - written Text_wire PText.
  - written ConversationInvite_wire PConversationInvite.
  - written ConversationAccept_wire PConversationAccept.
  - written PresenceHint_wire PPresenceHint.
  - written GiftAddressRequest_wire PGiftAddressRequest.
  - written GiftAddressResponse_wire PGiftAddressResponse.
  - written GiftSignedBOCOffer_wire PGiftSignedBOCOffer.
  - written TaskRequest_wire PTaskRequest.
  - written TaskProgress_wire PTaskProgress.
  - written TaskResult_wire PTaskResult.
  - written TaskStatusRequest_wire PTaskStatusRequest.
  - written NegotiationProposal_wire PNegotiationProposal.
  - written NegotiationCounterproposal_wire PNegotiationCounterproposal.
  - written NegotiationWithdraw_wire PNegotiationWithdraw.
  - written NegotiationIntentAccept_wire PNegotiationIntentAccept.
  - written NegotiationIntentReject_wire PNegotiationIntentReject.
  - written IntentApplication_wire PIntentApplication.
  - written AgreementPropose_wire PAgreementPropose.
  - written AgreementAccept_wire PAgreementAccept.
  - written AgreementEvidence_wire PAgreementEvidence.
  - written AgreementWithdraw_wire PAgreementWithdraw.
  - written AgreementDelivery_wire PAgreementDelivery.
  - written PaidDemandProviderOffer_wire PPaidDemandProviderOffer.
  - written CommerceProfileEvent_wire PCommerceProfileEvent.
  - written OperationOutcome_wire POperationOutcome.
  - written PrivateHandoffChallenge_wire PPrivateHandoffChallenge.
  - written PrivateHandoffAuthorization_wire PPrivateHandoffAuthorization.
  - written PrivateHandoffAcknowledgement_wire PPrivateHandoffAcknowledgement.
  - written PrivateHandoffStatus_wire PPrivateHandoffStatus.
  - written PrivateHandoffDelete_wire PPrivateHandoffDelete.
  - written CounterpartyApprovalRequest_wire PCounterpartyApprovalRequest.
  - written CounterpartyApprovalGranted_wire PCounterpartyApprovalGranted.
  - written CounterpartyApprovalDenied_wire PCounterpartyApprovalDenied.
  - written OwnerApprovalGrant_wire POwnerApprovalGrant.
  - written OwnerApprovalDeny_wire POwnerApprovalDeny.
  - written A2AMessage_wire PA2AMessage.
  - written MCPCall_wire PMCPCall.
  - written MCPResult_wire PMCPResult.
  - written AgentPacketMessage_wire PAgentPacketMessage.
  - written ArtifactOffer_wire PArtifactOffer.
  - written ArtifactReference_wire PArtifactReference.
  - apply attachment_written.
  - written QuoteReference_wire PQuoteReference.
  - written EscrowReference_wire PEscrowReference.
  - written ReceiptReference_wire PReceiptReference.
  - written DeliveryAck_wire PDeliveryAck.
  - written ApplicationAck_wire PApplicationAck.
  - written ReadAck_wire PReadAck.
  - written DeviceHistorySegment_wire PDeviceHistorySegment.
  - written RoomInvite_wire PRoomInvite.
  - written RoomMembershipCommit_wire PRoomMembershipCommit.
  - written RoomMessage_wire PRoomMessage.
  - written RoomModeration_wire PRoomModeration.
Qed.

(** C37: Encoding and reading back: for every kind of body of the registry, what [Encode] produces for a
    valid body within the reader's bounds is decoded under its own kind and schema to exactly that body. *)
Theorem payload_roundtrip p content :
  Encode p = Ok content -> payload_fits p ->
  DecodeSchema (payload_kind p) (Schema p) content = Ok p.
Proof. intros HE Hf. by apply payload_written. Qed.


(** A stage one byte longer than the reader takes. *)
Definition long_stage : string := string_of_bytes (replicate 513 x61).
Definition long_progress : TaskProgress := MkTaskProgress "task-1" long_stage 50 "".

(** [Encode] accepts bodies [Decode] refuses: a task progress whose stage is 513 lower-case letters passes
    [Validate], which only matches the stage against [tokenPattern], and is encoded, and the reader, which takes
    512 bytes there, refuses what was written; the sender's own copy is unreadable too. *)
Theorem oversized_stage_unreadable :
  exists content, Encode (PTaskProgress long_progress) = Ok content /\
    payload_Decode "agent.task.progress" content = Err (NewError "canonical value exceeds its bound").
Proof. eexists. split; [vm_compute; reflexivity|]. vm_compute. reflexivity. Qed.

End Registry.

(** ** Witnesses *)

(** A protocol and attachment formats that accept nothing: the bodies below need neither. *)
Definition toy_Protocol : Protocol := {|
  MaxProfileEventBytes := 1024;
  ProfileEvent := unit; pe_unmarshal _ := Err (NewError "none"); pe_ObjectDigest _ := ""; pe_CreatedAtUnix _ := 0;
  pe_canonical _ _ := Err (NewError "none");
  DecodeIntentApplication _ := Err (NewError "none");
  OperationRequest := unit; oq_unmarshal _ := Err (NewError "none"); oq_validate _ := Ok tt; oq_OperationID _ := "";
  oq_OperationEnvelopeDigest _ := ""; oq_marshal _ := Err (NewError "none");
  HandoffChallenge := unit; hc_unmarshal _ := Err (NewError "none"); hc_IssuedAtUnix _ := 0; hc_validate _ _ := Ok tt;
  hc_digest _ := Err (NewError "none");
  HandoffAuthorization := unit; ha_unmarshal _ := Err (NewError "none"); ha_digest _ := Err (NewError "none");
  ha_ChallengeDigest _ := "";
  HandoffAcknowledgement := unit; hk_unmarshal _ := Err (NewError "none"); hk_digest _ := Err (NewError "none");
  hk_ChallengeDigest _ := "";
  AgreementBody := unit; ab_unmarshal _ := Err (NewError "none"); ab_validate _ := Ok tt; ab_digest _ := Err (NewError "none");
  SignedAcceptance := unit; DecodeSignedAgreementAcceptance _ := Err (NewError "none"); aa_AgreementBodyDigest _ := "";
  AuthorizationEvidence := unit; ae_unmarshal _ := Err (NewError "none"); ae_AgreementBodyDigest _ := "";
  ae_digest _ := Err (NewError "none");
  SignedProviderOffer := unit; po_unmarshal _ := Err (NewError "none"); po_AgreementBodyDigest _ := "";
  po_digest _ := Err (NewError "none");
|}.

Definition toy_AttachmentFormats : AttachmentFormats := {|
  Reference := unit; DecodeReferenceJSON _ := Err (NewError "none"); ref_ManifestDigest _ := Err (NewError "none");
  ref_PlaintextBytes _ := 0; ref_ChunkDigests _ := []; ref_ExpiresAtUnix _ := 0;
  ParseHTTPSLocator _ _ := Err (NewError "none");
  CapabilityGrant := unit; DecodeGrantJSON _ := Err (NewError "none"); gr_ManifestDigest _ := ""; gr_CiphertextBytes _ := 0;
  gr_RetainUntilUnix _ := 0; gr_ChunkDigests _ := []; gr_Operations _ := []; gr_CapabilityPublicKeyHex _ := "";
  gr_NetworkID _ := ""; gr_GenesisRootHash _ := ""; gr_GenesisFileHash _ := ""; gr_AgentID _ := ""; gr_EndpointID _ := "";
  gr_IssuedAtUnix _ := 0;
|}.

#[local] Existing Instances toy_Protocol toy_AttachmentFormats.

Definition sample_payload : Payload := PTaskProgress (MkTaskProgress "task-1" "fetching.inputs" 50 "halfway").
Definition sample_content : bytes :=
  Eval vm_compute in match Encode sample_payload with Ok c => c | Err _ => [] end.

Lemma payload_roundtrip_witness : DecodeSchema (payload_kind sample_payload) (Schema sample_payload) sample_content = Ok sample_payload.
Proof.
  apply (payload_roundtrip sample_payload sample_content); [vm_compute; reflexivity|].
  repeat constructor; vm_compute; first [reflexivity|discriminate].
Defined.

