(* ===== verification/Firewall.v ===== *)
(** * The context firewall: [pkg/firewall]

    What an Agent may do because of content that arrived.  [firewall.go] judges a
    proposed action against an owner policy and gives it a content-addressed
    identifier, [spend.go] adds the mandate for actions that commit value, and
    [channel.go] frames received content for reading.  The theorems say exactly
    when an action is allowed unattended, which actions no policy can allow, and
    that an action identifier binds everything an owner approves. *)

From S2P Require Import Prelude Encoding Canon Money Terms.

(** ** Effects *)

Definition EffectNone : string := "none".
Definition EffectLocalRead : string := "local-read".
Definition EffectLocalWrite : string := "local-write".
Definition EffectMessage : string := "message".
Definition EffectToolCall : string := "tool-call".
Definition EffectPhysicalIO : string := "physical-io".
Definition EffectSpend : string := "spend".
Definition EffectKeyUse : string := "key-use".
Definition EffectConfiguration : string := "configuration".

Definition rank_list : list (string * Z) :=
  [(EffectNone, 0); (EffectLocalRead, 1); (EffectLocalWrite, 2); (EffectMessage, 3); (EffectToolCall, 4);
   (EffectSpend, 5); (EffectKeyUse, 6); (EffectPhysicalIO, 7); (EffectConfiguration, 8)].

Fixpoint rank_lookup (l : list (string * Z)) (effect : string) : option Z :=
  match l with
  | [] => None
  | (e, r) :: rest => if String.eqb e effect then Some r else rank_lookup rest effect
  end.

(** [rank[effect]], Go's zero for an effect the map does not hold. *)
Definition rank (effect : string) : Z := default 0 (rank_lookup rank_list effect).
Definition Known (effect : string) : bool := bool_decide (is_Some (rank_lookup rank_list effect)).
Definition atLeast (effect floor : string) : bool := rank floor <=? rank effect.

(** ** Origins and policies *)

Record Origin : Type := MkOrigin {
  o_AgentID : string;
  o_EndpointID : string;
  o_DeviceID : string;
  o_EventID : string;
  o_ConversationID : string;
  o_Kind : string;
  o_ReceivedAtUnix : Z;
}.

#[global] Instance Origin_eq_dec : EqDecision Origin.
Proof. solve_decision. Defined.

Definition Origin_Validate (o : Origin) : result unit :=
  refuse negb (ids_Agent (o_AgentID o)) with NewError "origin names no Agent";
  refuse negb (ids_Endpoint (o_EndpointID o)) with NewError "origin names no endpoint";
  refuse negb (ids_Device (o_DeviceID o)) with NewError "origin names no device";
  refuse negb (ids_Event (o_EventID o)) with NewError "origin names no event";
  refuse negb (ids_Conversation (o_ConversationID o)) with NewError "origin names no conversation";
  refuse String.eqb (o_Kind o) "" || (128 <? slen (o_Kind o)) with NewError "origin names no event kind";
  refuse o_ReceivedAtUnix o =? 0 with NewError "origin has no arrival time";
  Ok tt.

Record Policy : Type := MkPolicy {
  p_UnattendedCeiling : string;
  p_OwnInitiativeCeiling : string;
}.

Definition Policy_Validate (p : Policy) : result unit :=
  refuse negb (Known (p_UnattendedCeiling p)) || negb (Known (p_OwnInitiativeCeiling p))
    with NewError "a firewall policy names an effect this build does not recognise";
  refuse atLeast (p_UnattendedCeiling p) EffectKeyUse
    with NewError "received content may never reach a key or this installation's configuration unattended";
  refuse atLeast (p_OwnInitiativeCeiling p) EffectConfiguration
    with NewError "only the owner changes this installation's configuration";
  refuse rank (p_OwnInitiativeCeiling p) <? rank (p_UnattendedCeiling p)
    with NewError "received content cannot be trusted further than the Agent's own initiative";
  Ok tt.

Definition firewall_Default : Policy := MkPolicy EffectMessage EffectToolCall.

(** ** Actions *)

(** What [encoding/json] makes of the arguments of a physical operation: the
    object decoded from the text, its canonical re-encoding, and its "action"
    member when that is a string.  The object itself is never inspected
    otherwise, so the decoder and the encoder are parameters. *)
Class JSONObjects := {
  json_object : Type;
  json_Unmarshal : string -> option json_object;
  json_Marshal : json_object -> option string;
  json_action : json_object -> option string;
}.

Record PhysicalOperation : Type := MkPhysical {
  ph_CapabilityID : string;
  ph_Tool : string;
  ph_Operation : string;
  ph_ArgumentsDigest : string;
  ph_ArgumentsJSON : string;
}.

Record Action : Type := MkAction {
  ac_Effect : string;
  ac_Summary : string;
  ac_IdempotencyKey : string;
  ac_DerivedFrom : list Origin;
  ac_Terms : option Terms;
  ac_Physical : option PhysicalOperation;
}.

Definition MaxProvenance : Z := 32.
Definition MaxSummaryBytes : Z := 512.
Definition MaxPhysicalArgumentsBytes : Z := 8 * 1024.

Definition idempotencyKeyPattern (s : string) : bool := prefixed_hex64 "idem_" s.
Definition capabilityIDPattern (s : string) : bool := prefixed_hex64 "cap_" s.
Definition is_tool_char (c : ascii) : bool :=
  is_lower c || is_digit c || Ascii.eqb c "_" || Ascii.eqb c "-".
(** [^[a-z][a-z0-9_-]{0,63}$], the tool and the operation pattern *)
Definition physicalToolPattern (s : string) : bool :=
  match s with
  | EmptyString => false
  | String c rest => is_lower c && sforall is_tool_char rest && (slen rest <=? 63)
  end.

Section Physical.
  Context `{JSONObjects}.

Definition PhysicalOperation_Validate (p : PhysicalOperation) : result unit :=
  refuse negb (capabilityIDPattern (ph_CapabilityID p))
    with NewError "physical I/O names no canonical local Capability";
  refuse negb (physicalToolPattern (ph_Tool p)) || negb (physicalToolPattern (ph_Operation p))
    with NewError "physical I/O names no bounded tool operation";
  refuse negb (ValidDigest (ph_ArgumentsDigest p))
    with NewError "physical I/O has no canonical argument digest";
  refuse (slen (ph_ArgumentsJSON p) =? 0) || (MaxPhysicalArgumentsBytes <? slen (ph_ArgumentsJSON p))
    with NewError "physical I/O arguments exceed their review bound";
  match json_Unmarshal (ph_ArgumentsJSON p) with
  | None => Err (NewError "physical I/O arguments are not JSON")
  | Some arguments =>
      refuse negb (bool_decide (json_Marshal arguments = Some (ph_ArgumentsJSON p)))
        with NewError "physical I/O arguments are not canonical JSON";
      refuse negb (bool_decide (json_action arguments = Some (ph_Operation p)))
        with NewError "physical I/O operation does not match its arguments";
      refuse negb (String.eqb (ph_ArgumentsDigest p)
                     ("sha256:" +:+ hex_encode (sha256 (bytes_of_string (ph_ArgumentsJSON p)))))
        with NewError "physical I/O argument digest does not match reviewable arguments";
      Ok tt
  end.

(** The loop over the origins, with the identifiers already [seen]. *)
Fixpoint check_origins (seen : gset string) (origins : list Origin) : result unit :=
  match origins with
  | [] => Ok tt
  | origin :: rest =>
      call Origin_Validate origin;
      refuse bool_decide (o_EventID origin ∈ seen) with NewError "action cites one event twice";
      check_origins ({[ o_EventID origin ]} ∪ seen) rest
  end.

Definition Action_Validate (a : Action) : result unit :=
  let is_spend := String.eqb (ac_Effect a) EffectSpend in
  refuse negb (Known (ac_Effect a)) with NewError "action names an effect this build does not recognise";
  refuse String.eqb (ac_Summary a) "" || (MaxSummaryBytes <? slen (ac_Summary a))
    with NewError "an action must describe itself";
  refuse negb (String.eqb (ac_IdempotencyKey a) "") && negb (idempotencyKeyPattern (ac_IdempotencyKey a))
    with NewError "invalid action idempotency key";
  refuse MaxProvenance <? Z.of_nat (length (ac_DerivedFrom a))
    with NewError "action cites more origins than an owner could review";
  refuse is_spend && negb (bool_decide (is_Some (ac_Terms a)))
    with NewError "a spend must say what it is buying";
  refuse negb is_spend && bool_decide (is_Some (ac_Terms a)) with NewError "only a spend carries terms";
  call (if String.eqb (ac_Effect a) EffectPhysicalIO then
          match ac_Physical a with
          | None => Err (NewError "physical I/O must name its local Capability and operation")
          | Some p =>
              refuse String.eqb (ac_IdempotencyKey a) ""
                with NewError "physical I/O must carry a one-shot invocation key";
              PhysicalOperation_Validate p
          end
        else
          refuse bool_decide (is_Some (ac_Physical a))
            with NewError "only physical I/O carries a physical operation";
          Ok tt);
  check_origins ∅ (ac_DerivedFrom a).

Definition Untrusted (a : Action) : bool := 0 <? Z.of_nat (length (ac_DerivedFrom a)).

(** ** Decisions *)

Inductive Outcome : Type := Allow | RequireOwnerApproval | Refuse.

#[global] Instance Outcome_eq_dec : EqDecision Outcome.
Proof. solve_decision. Defined.

Record fw_Decision : Type := MkDecision {
  d_Outcome : Outcome;
  d_Reason : string;
  d_Effect : string;
  d_Ceiling : string;
  d_Provenance : list Origin;
}.

Definition error_text (e : error) : string := match e with NewError m | Sentinel m => m end.

(** [sort.Slice] by event identifier. *)
Definition event_le (o o' : Origin) : Prop := str_le (o_EventID o) (o_EventID o').
#[global] Instance event_le_dec o o' : Decision (event_le o o').
Proof. unfold event_le. apply _. Defined.
Definition sort_origins (l : list Origin) : list Origin := merge_sort event_le l.

Definition Evaluate (policy : Policy) (action : Action) : result fw_Decision :=
  call Policy_Validate policy;
  match Action_Validate action with
  | Err e => Ok (MkDecision Refuse (error_text e) (ac_Effect action) "" [])
  | Ok _ =>
      let provenance := sort_origins (ac_DerivedFrom action) in
      let ceiling := if Untrusted action then p_UnattendedCeiling policy else p_OwnInitiativeCeiling policy in
      let answer outcome reason := Ok (MkDecision outcome reason (ac_Effect action) ceiling provenance) in
      if String.eqb (ac_Effect action) EffectPhysicalIO
      then answer RequireOwnerApproval "physical I/O always requires a local one-shot owner decision"
      else if String.eqb (ac_Effect action) EffectConfiguration
      then answer RequireOwnerApproval "changing this installation's configuration is the owner's decision"
      else if Untrusted action && atLeast (ac_Effect action) EffectKeyUse
      then answer RequireOwnerApproval "an action derived from received content would use a key"
      else if atLeast (ac_Effect action) ceiling && negb (String.eqb (ac_Effect action) ceiling)
      then answer RequireOwnerApproval "this action is stronger than what may happen unattended"
      else answer Allow "within what the owner permitted unattended"
  end.

Definition set_outcome (d : fw_Decision) (o : Outcome) (reason : string) : fw_Decision :=
  MkDecision o reason (d_Effect d) (d_Ceiling d) (d_Provenance d).

Definition EvaluateSpend (policy : Policy) (mandate : Mandate) (action : Action) (now : time)
    : result fw_Decision :=
  refuse negb (String.eqb (ac_Effect action) EffectSpend) with NewError "EvaluateSpend judges a spend";
  let* decision := Evaluate policy action in
  if bool_decide (d_Outcome decision = Refuse) then Ok decision else
  match ac_Terms action with
  | None => Ok (set_outcome decision Refuse "a spend must say what it is buying")
  | Some terms =>
      match Terms_Validate terms with
      | Err e => Ok (set_outcome decision Refuse ("the terms are not a complete purchase: " +:+ error_text e))
      | Ok _ =>
          match Mandate_PermitsCommit mandate terms now with
          | Err e =>
              Ok (set_outcome decision RequireOwnerApproval
                    ("outside what the owner authorised in advance: " +:+ error_text e))
          | Ok true =>
              Ok (set_outcome decision RequireOwnerApproval
                    "above the amount the owner chose to decide personally")
          | Ok false => Ok decision
          end
      end
  end.

(** ** Action identifiers *)

Definition DomainAgentAction : string := "tos.messaging.agent-action.v1" +:+ NUL.

Definition write_origin (buffer : bytes) (origin : Origin) : bytes :=
  let buffer := canon_Text buffer (o_AgentID origin) in
  let buffer := canon_Text buffer (o_EndpointID origin) in
  let buffer := canon_Text buffer (o_DeviceID origin) in
  let buffer := canon_Text buffer (o_EventID origin) in
  let buffer := canon_Text buffer (o_ConversationID origin) in
  let buffer := canon_Text buffer (o_Kind origin) in
  canon_Uint64 buffer (o_ReceivedAtUnix origin).

Definition ActionID (action : Action) : result string :=
  call Action_Validate action;
  let origins := sort_origins (ac_DerivedFrom action) in
  let buffer := bytes_of_string DomainAgentAction in
  let buffer := canon_Text buffer (ac_Effect action) in
  let buffer := canon_Text buffer (ac_Summary action) in
  let buffer :=
    if negb (String.eqb (ac_IdempotencyKey action) "")
    then canon_Text (canon_Text buffer "idempotency-key") (ac_IdempotencyKey action) else buffer in
  let buffer := canon_Uint32 buffer (u32 (Z.of_nat (length origins))) in
  let buffer := fold_left write_origin origins buffer in
  let* buffer :=
    match ac_Terms action with
    | None => Ok buffer
    | Some terms => let* digest := Terms_Digest terms in Ok (canon_Text buffer digest)
    end in
  let buffer :=
    match ac_Physical action with
    | None => buffer
    | Some p =>
        let buffer := canon_Text buffer "physical-operation" in
        let buffer := canon_Text buffer (ph_CapabilityID p) in
        let buffer := canon_Text buffer (ph_Tool p) in
        let buffer := canon_Text buffer (ph_Operation p) in
        let buffer := canon_Text buffer (ph_ArgumentsDigest p) in
        canon_Text buffer (ph_ArgumentsJSON p)
    end in
  Ok ("act_" +:+ digest_hex (canon_Digest buffer)).

End Physical.

(** ** Reading received content ([channel.go]) *)

Definition MaxQuotationBytes : Z := 128 * 1024.

(** The two types are distinct and nothing converts between them. *)
Record Instruction : Type := MkInstruction { i_text : string }.
Record Quotation : Type := MkQuotation { qt_origin : Origin; qt_body : string }.

Definition OwnerInstruction (text : string) : result Instruction :=
  refuse String.eqb text "" || (MaxQuotationBytes <? slen text)
    with NewError "an instruction must say something";
  refuse negb (utf8_valid (bytes_of_string text)) with NewError "an instruction is not valid UTF-8";
  Ok (MkInstruction text).

Definition firewall_Quote (origin : Origin) (body : string) : result Quotation :=
  call Origin_Validate origin;
  refuse String.eqb body "" || (MaxQuotationBytes <? slen body) with NewError "a quotation must have a body";
  refuse negb (utf8_valid (bytes_of_string body)) with NewError "quoted content is not valid UTF-8";
  Ok (MkQuotation origin body).

Definition delimiter (q : Quotation) : string :=
  "tos-received-" +:+ String.substring 7 16 (canon_Digest (bytes_of_string (qt_body q))).

Definition LF : string := String "010" EmptyString.

Definition Quotation_String (q : Quotation) : string :=
  let marker := delimiter q in
  "<<<" +:+ marker +:+ " received-content"
  +:+ " agent=" +:+ o_AgentID (qt_origin q)
  +:+ " endpoint=" +:+ o_EndpointID (qt_origin q)
  +:+ " event=" +:+ o_EventID (qt_origin q)
  +:+ " kind=" +:+ o_Kind (qt_origin q)
  +:+ ">>>" +:+ LF
  +:+ qt_body q
  +:+ LF +:+ "<<<" +:+ marker +:+ " end-received-content>>>".

Fixpoint compose_quotations (built : string) (quotations : list Quotation) : result string :=
  match quotations with
  | [] => Ok built
  | quotation :: rest =>
      refuse String.eqb (qt_body quotation) ""
        with NewError "a quotation with no body cannot be composed";
      compose_quotations (built +:+ LF +:+ LF +:+ Quotation_String quotation) rest
  end.

Definition Compose (instruction : Instruction) (quotations : list Quotation) : result string :=
  refuse String.eqb (i_text instruction) "" with NewError "nothing to compose without an instruction";
  refuse MaxProvenance <? Z.of_nat (length quotations)
    with NewError "more quotations than an owner could review";
  compose_quotations (i_text instruction) quotations.

Fixpoint origins_loop (seen : gset string) (quotations : list Quotation) : list Origin :=
  match quotations with
  | [] => []
  | quotation :: rest =>
      let origin := qt_origin quotation in
      if bool_decide (o_EventID origin ∈ seen) then origins_loop seen rest
      else origin :: origins_loop ({[ o_EventID origin ]} ∪ seen) rest
  end.

Definition Origins (quotations : list Quotation) : list Origin := origins_loop ∅ quotations.

(** ** Amounts beside their rendering ([spend.go]) *)

Record AmountRendering : Type := MkAmountRendering {
  ar_Structured : string;
  ar_Rendered : string;
  ar_Agrees : bool;
}.

(** [strings.Contains] *)
Fixpoint contains (s sub : string) : bool :=
  match strip_prefix sub s with
  | Some _ => true
  | None => match s with EmptyString => false | String _ s' => contains s' sub end
  end.

(** A valid amount always renders; [None] would be the panic of a slice out of
    range. *)
Definition CheckAmountRendering (amount : Money) (rendering : string) : result (option AmountRendering) :=
  call Money_Validate amount;
  refuse MaxSummaryBytes <? slen rendering with NewError "rendering exceeds its bound";
  Ok (match Money_String amount with
      | None => None
      | Some canonical =>
          Some (MkAmountRendering canonical rendering (contains rendering canonical))
      end).

(** ** Lemmas: effects and policies *)

Lemma rank_lookup_inv e r :
  rank_lookup rank_list e = Some r -> In (e, r) rank_list.
Proof.
  generalize rank_list. induction l as [|[e' r'] l IH]; cbn; [done|].
  destruct (String.eqb_spec e' e) as [->|]; [intros [= ->]; by left|right; auto].
Qed.

Lemma Known_rank e : Known e = true -> In (e, rank e) rank_list.
Proof.
  unfold Known, rank. intros H. breflect. destruct H as [r Hr]. rewrite Hr. by apply rank_lookup_inv.
Qed.

(** Known effects are ranked injectively. *)
Lemma rank_inj e e' : Known e = true -> Known e' = true -> rank e = rank e' -> e = e'.
Proof.
  intros H%Known_rank H'%Known_rank E. rewrite E in H.
  assert (forall x y r, In (x, r) rank_list -> In (y, r) rank_list -> x = y) as Hf; [|eauto].
  intros x y r. cbn. intuition congruence.
Qed.

Lemma Policy_Validate_inv p :
  Policy_Validate p = Ok tt ->
  Known (p_UnattendedCeiling p) = true /\ Known (p_OwnInitiativeCeiling p) = true /\
  rank (p_UnattendedCeiling p) < rank EffectKeyUse /\
  rank (p_OwnInitiativeCeiling p) < rank EffectConfiguration /\
  rank (p_UnattendedCeiling p) <= rank (p_OwnInitiativeCeiling p).
Proof.
  unfold Policy_Validate, atLeast. intros H. inv_ok H. breflect. split_and!; (done || lia).
Qed.

Lemma check_origins_ok seen l :
  check_origins seen l = Ok tt <->
  Forall (fun o => Origin_Validate o = Ok tt) l /\ NoDup (o_EventID <$> l) /\
  Forall (fun o => o_EventID o ∉ seen) l.
Proof.
  revert seen. induction l as [|o l IH]; intros seen; cbn [check_origins].
  { repeat split; auto using NoDup_nil_2. }
  rewrite fmap_cons, !Forall_cons, NoDup_cons. split.
  - intros H. inv_ok H. destruct a. breflect. apply IH in H as (H1 & H2 & H3).
    split_and!; try done.
    + intros Hin. apply list_elem_of_fmap in Hin as (o' & He & Hin).
      rewrite Forall_forall in H3. specialize (H3 o' Hin). set_solver.
    + eapply Forall_impl; [exact H3|]. set_solver.
  - intros ((Hv & H1) & (Hn & H2) & Ho & H3). rewrite Hv, bool_decide_eq_false_2 by done.
    apply IH. split_and!; [done..|]. rewrite Forall_forall in *. intros o' Hin.
    specialize (H3 o' Hin). assert (o_EventID o' <> o_EventID o); [|set_solver].
    intros E. apply Hn. rewrite <- E. by apply list_elem_of_fmap_2.
Qed.

(** ** Lemmas: sorting origins *)

#[global] Instance event_le_total : Total event_le.
Proof. intros o o'. apply (total str_le). Qed.
#[global] Instance event_le_trans : Transitive event_le.
Proof. intros a b c. unfold event_le. apply (transitivity (R := str_le)). Qed.

Lemma sort_origins_perm l : sort_origins l ≡ₚ l.
Proof. apply merge_sort_Permutation. Qed.

Lemma event_unique (l : list Origin) o o' :
  NoDup (o_EventID <$> l) -> o ∈ l -> o' ∈ l -> o_EventID o = o_EventID o' -> o = o'.
Proof.
  intros Hnd (i & Hi)%list_elem_of_lookup (j & Hj)%list_elem_of_lookup E.
  assert (i = j) as ->; [|congruence].
  eapply (NoDup_lookup _ i j (o_EventID o)); [exact Hnd|..]; rewrite list_lookup_fmap.
  - by rewrite Hi.
  - by rewrite Hj, E.
Qed.

(** With distinct event identifiers the order the origins were given in does not
    matter. *)
Lemma sort_origins_unique l l' :
  l ≡ₚ l' -> NoDup (o_EventID <$> l) -> sort_origins l = sort_origins l'.
Proof.
  intros Hp Hnd. apply (Sorted_unique_strong event_le).
  - intros o o' Ho Ho' H1 H2. rewrite sort_origins_perm in Ho. rewrite sort_origins_perm, <- Hp in Ho'.
    eapply event_unique; [exact Hnd|done..|]. by apply (anti_symm str_le).
  - apply Sorted_merge_sort, _.
  - apply Sorted_merge_sort, _.
  - by rewrite !sort_origins_perm.
Qed.

(** ** Lemmas: the preimage of an action identifier *)

Definition origin_fields (o : Origin) : list field :=
  [FText (o_AgentID o); FText (o_EndpointID o); FText (o_DeviceID o); FText (o_EventID o);
   FText (o_ConversationID o); FText (o_Kind o); FUint64 (o_ReceivedAtUnix o)].

Definition key_fields (key : string) : list field :=
  if negb (String.eqb key "") then [FText "idempotency-key"; FText key] else [].

Definition physical_fields (p : PhysicalOperation) : list field :=
  [FText "physical-operation"; FText (ph_CapabilityID p); FText (ph_Tool p); FText (ph_Operation p);
   FText (ph_ArgumentsDigest p); FText (ph_ArgumentsJSON p)].

Definition origins_fields (l : list Origin) : list field := List.concat (List.map origin_fields l).

Definition tail_fields (digest : option string) (physical : option PhysicalOperation) : list field :=
  match digest with Some d => [FText d] | None => [] end
  ++ match physical with Some p => physical_fields p | None => [] end.

Definition Action_typed (a : Action) : Prop :=
  Forall (fun o => is_u64 (o_ReceivedAtUnix o)) (ac_DerivedFrom a) /\
  (forall t, ac_Terms a = Some t -> Terms_typed t).

Lemma write_origin_fields buffer o : write_origin buffer o = buffer ++ fields_bytes (origin_fields o).
Proof.
  unfold write_origin, fields_bytes, origin_fields. cbn [List.map List.concat].
  rewrite !canon_Text_app. unfold canon_Uint64. cbn [field_bytes]. by rewrite <- !app_assoc, app_nil_r.
Qed.

Lemma fold_write_origin l buffer :
  fold_left write_origin l buffer = buffer ++ fields_bytes (origins_fields l).
Proof.
  revert buffer. induction l as [|o l IH]; intros buffer; cbn [fold_left].
  - unfold origins_fields, fields_bytes. cbn. by rewrite app_nil_r.
  - rewrite IH, write_origin_fields. unfold origins_fields. cbn [List.map List.concat].
    by rewrite fields_bytes_app, app_assoc.
Qed.

Lemma Origin_fields_wf o :
  Origin_Validate o = Ok tt -> is_u64 (o_ReceivedAtUnix o) -> Forall field_wf (origin_fields o).
Proof.
  unfold Origin_Validate. intros H Ht. inv_ok H. breflect.
  unfold ids_Agent, ids_Endpoint, ids_Device, ids_Event, ids_Conversation in *.
  repeat match goal with H : prefixed_hex64 _ _ = true |- _ => apply prefixed_hex64_slen in H end.
  slen_lit. unfold origin_fields. rewrite !Forall_cons. cbn [field_wf].
  split_and!; try (assumption || lia). constructor.
Qed.

Lemma origin_fields_inj o o' : origin_fields o = origin_fields o' -> o = o'.
Proof. destruct o, o'. unfold origin_fields. cbn. by intros [= -> -> -> -> -> -> ->]. Qed.

(** Two lists of origins of one length have one field layout. *)
Lemma origins_bytes_inj l l' c d :
  length l = length l' ->
  Forall (fun o => Forall field_wf (origin_fields o)) l ->
  Forall (fun o => Forall field_wf (origin_fields o)) l' ->
  fields_bytes (origins_fields l) ++ c = fields_bytes (origins_fields l') ++ d -> l = l' /\ c = d.
Proof.
  revert l'. induction l as [|o l IH]; intros [|o' l'] Hlen Hl Hl' E; try done.
  unfold origins_fields in E. cbn [List.map List.concat] in E.
  rewrite !fields_bytes_app, <- !app_assoc in E. inversion_clear Hl. inversion_clear Hl'.
  apply fields_bytes_inj in E as [Ho E]; [|by apply same_kind_wf].
  apply origin_fields_inj in Ho as ->. apply IH in E as [-> ->]; try done. by injection Hlen.
Qed.

(** The marker of the idempotency key cannot be read as a count of origins:
    fifteen origins would follow, and the first starts with a length. *)
Lemma key_count_disjoint key n l c d :
  0 <= n <= MaxProvenance -> n = Z.of_nat (length l) ->
  Forall (fun o => slen (o_AgentID o) = 70) l ->
  field_bytes (FText "idempotency-key") ++ field_bytes (FText key) ++ c
  <> field_bytes (FUint32 n) ++ fields_bytes (origins_fields l) ++ d.
Proof.
  intros Hn Hl Ha E. unfold MaxProvenance in Hn. cbn [field_bytes] in E. rewrite <- !app_assoc in E.
  apply app_inj_length in E as [E1 E]; [|by rewrite !length_be_bytes].
  apply be_bytes_inj in E1; [|vm_compute; split; [discriminate|reflexivity]|simpl Z.pow; lia].
  change (u32 (slen "idempotency-key")) with 15 in E1.
  destruct l as [|o l]; [cbn in Hl; lia|]. inversion_clear Ha as [|? ? Ho _].
  unfold origins_fields in E. cbn [List.map List.concat] in E.
  rewrite fields_bytes_app in E. unfold fields_bytes at 1 in E.
  cbn [origin_fields List.map List.concat field_bytes] in E. rewrite Ho, <- !app_assoc in E.
  apply (f_equal (List.hd x00)) in E. vm_compute in E. discriminate E.
Qed.

Section Binding.
  Context `{JSONObjects}.

Lemma Action_Validate_inv a :
  Action_Validate a = Ok tt ->
  Known (ac_Effect a) = true /\ slen (ac_Summary a) <= 512 /\
  (ac_IdempotencyKey a = "" \/ slen (ac_IdempotencyKey a) = 69) /\
  Z.of_nat (length (ac_DerivedFrom a)) <= MaxProvenance /\
  (is_Some (ac_Terms a) <-> ac_Effect a = EffectSpend) /\
  (is_Some (ac_Physical a) <-> ac_Effect a = EffectPhysicalIO) /\
  (forall p, ac_Physical a = Some p -> PhysicalOperation_Validate p = Ok tt) /\
  Forall (fun o => Origin_Validate o = Ok tt) (ac_DerivedFrom a) /\
  NoDup (o_EventID <$> ac_DerivedFrom a).
Proof.
  unfold Action_Validate. intros H0. inv_ok H0. apply check_origins_ok in H0 as (Hv & Hnd & _). breflect.
  assert (ac_IdempotencyKey a = "" \/ slen (ac_IdempotencyKey a) = 69) as Hk.
  { destruct (String.eqb_spec (ac_IdempotencyKey a) "") as [|Hne]; [by left|right]. cbn [negb andb] in *.
    breflect. unfold idempotencyKeyPattern in *.
    match goal with E : prefixed_hex64 _ _ = true |- _ => apply prefixed_hex64_slen in E end. slen_lit. lia. }
  assert (is_Some (ac_Terms a) <-> ac_Effect a = EffectSpend) as Ht.
  { destruct (String.eqb_spec (ac_Effect a) EffectSpend) as [He|Hne]; cbn [negb andb] in *; breflect.
    - split; [done|]. auto.
    - split; [|done]. intros. by exfalso. }
  destruct (String.eqb_spec (ac_Effect a) EffectPhysicalIO) as [He|Hne].
  - destruct (ac_Physical a) as [p|] eqn:Hp; [|done].
    match goal with E : (if String.eqb (ac_IdempotencyKey a) "" then _ else _) = _ |- _ => inv_ok E end.
    unfold MaxSummaryBytes in *. split_and!; try (done || lia).
    intros p' [= <-]. match goal with u : unit |- _ => by destruct u end.
  - match goal with E : (if bool_decide (is_Some (ac_Physical a)) then _ else _) = _ |- _ => inv_ok E end. breflect.
    unfold MaxSummaryBytes in *. split_and!; try (done || lia).
    intros p Hp. exfalso. rewrite Hp in *. eauto.
Qed.

Lemma Known_slen e : Known e = true -> slen e <= 13.
Proof.
  intros Hk%Known_rank. cbn in Hk.
  repeat destruct Hk as [Hk|Hk]; try done; injection Hk as <- _; vm_compute; discriminate.
Qed.

Lemma physical_fields_wf p :
  PhysicalOperation_Validate p = Ok tt -> Forall field_wf (physical_fields p).
Proof.
  unfold PhysicalOperation_Validate. intros H0. inv_ok H0. breflect.
  unfold capabilityIDPattern in *.
  repeat match goal with
  | E : prefixed_hex64 _ _ = true |- _ => apply prefixed_hex64_slen in E
  | E : ValidDigest _ = true |- _ => apply ValidDigest_slen in E
  end.
  assert (forall s, physicalToolPattern s = true -> slen s <= 64) as Ht.
  { intros [|c s]; [done|]. cbn [physicalToolPattern]. intros Hs. breflect.
    change (String c s) with ((String c "") +:+ s). rewrite slen_app. slen_lit. lia. }
  repeat match goal with E : physicalToolPattern _ = true |- _ => apply Ht in E end.
  unfold physical_fields, MaxPhysicalArgumentsBytes in *. slen_lit. rewrite !Forall_cons. cbn [field_wf].
  slen_lit. split_and!; (lia || constructor).
Qed.

(** The preimage as fields. *)
Lemma ActionID_fields a id :
  ActionID a = Ok id ->
  Action_Validate a = Ok tt /\
  exists digest, (match ac_Terms a with
                  | Some t => exists d, Terms_Digest t = Ok d /\ digest = Some d
                  | None => digest = None
                  end) /\
  id = "act_" +:+ digest_hex (canon_Digest (bytes_of_string DomainAgentAction ++ fields_bytes
         ([FText (ac_Effect a); FText (ac_Summary a)] ++ key_fields (ac_IdempotencyKey a)
          ++ [FUint32 (Z.of_nat (length (sort_origins (ac_DerivedFrom a))))]
          ++ origins_fields (sort_origins (ac_DerivedFrom a)) ++ tail_fields digest (ac_Physical a)))).
Proof.
  unfold ActionID. intros H0. inv_ok H0. destruct a0. split; [done|].
  match goal with E : Action_Validate a = _ |- _ =>
    destruct (Action_Validate_inv _ E) as (_&_&_&Hlen&_) end.
  set (l := sort_origins (ac_DerivedFrom a)) in *.
  assert (Z.of_nat (length l) <= 32) as Hl by (unfold l; rewrite sort_origins_perm; done).
  rewrite u32_id in * by (unfold is_u32; lia).
  rewrite !fold_write_origin in *. apply Ok_inj in H0. subst id.
  exists (match ac_Terms a with Some t => match Terms_Digest t with Ok d => Some d | Err _ => None end | None => None end).
  assert (forall b f, b ++ field_bytes f = b ++ fields_bytes [f]) as Hf.
  { intros b f. unfold fields_bytes. cbn. by rewrite app_nil_r. }
  split.
  { destruct (ac_Terms a) as [t|]; [|done]. destruct (Terms_Digest t) as [d|]; [eauto|done]. }
  do 3 f_equal. unfold canon_Uint32 in *. change (be_bytes 4 ?z) with (field_bytes (FUint32 z)) in *.
  rewrite !canon_Text_app in *.
  unfold tail_fields, physical_fields, key_fields.
  rewrite !fields_bytes_app.
  destruct (ac_Terms a) as [t|]; [destruct (Terms_Digest t) as [d|]; [|done]|];
    match goal with E : Ok _ = Ok _ |- _ => apply Ok_inj in E; subst end;
    destruct (negb (String.eqb (ac_IdempotencyKey a) "")), (ac_Physical a) as [p|];
    rewrite ?canon_Text_app; unfold fields_bytes; cbn [List.map List.concat];
    rewrite <- ?app_assoc, ?app_nil_r; cbn [app]; rewrite ?app_nil_r; done.
Qed.

Lemma origins_wf a :
  Action_Validate a = Ok tt -> Action_typed a ->
  Forall (fun o => Forall field_wf (origin_fields o)) (sort_origins (ac_DerivedFrom a)) /\
  Forall (fun o => slen (o_AgentID o) = 70) (sort_origins (ac_DerivedFrom a)).
Proof.
  intros (_&_&_&_&_&_&_&Hv&_)%Action_Validate_inv [Ht _]. rewrite !sort_origins_perm.
  rewrite !Forall_forall in *. split; intros o Ho.
  - apply Origin_fields_wf; auto.
  - specialize (Hv o Ho). unfold Origin_Validate in Hv. inv_ok Hv. breflect. unfold ids_Agent in *.
    match goal with E : prefixed_hex64 "agent_" _ = true |- _ => apply prefixed_hex64_slen in E end.
    slen_lit. lia.
Qed.

(** After the effect and the summary: the key, the origins and the tail. *)
Lemma action_rest_inj a a' c d :
  Action_Validate a = Ok tt -> Action_Validate a' = Ok tt -> Action_typed a -> Action_typed a' ->
  let rest x c := fields_bytes (key_fields (ac_IdempotencyKey x))
         ++ field_bytes (FUint32 (Z.of_nat (length (sort_origins (ac_DerivedFrom x)))))
         ++ fields_bytes (origins_fields (sort_origins (ac_DerivedFrom x))) ++ c in
  rest a c = rest a' d ->
  ac_IdempotencyKey a = ac_IdempotencyKey a' /\
  sort_origins (ac_DerivedFrom a) = sort_origins (ac_DerivedFrom a') /\ c = d.
Proof.
  intros Hv Hv' Ht Ht' rest E. unfold rest in E.
  destruct (origins_wf a Hv Ht) as [Hw Hs]. destruct (origins_wf a' Hv' Ht') as [Hw' Hs'].
  destruct (Action_Validate_inv a Hv) as (_&_&Hk&Hn&_). destruct (Action_Validate_inv a' Hv') as (_&_&Hk'&Hn'&_).
  rewrite <- (sort_origins_perm (ac_DerivedFrom a)) in Hn. rewrite <- (sort_origins_perm (ac_DerivedFrom a')) in Hn'.
  set (l := sort_origins (ac_DerivedFrom a)) in *. set (l' := sort_origins (ac_DerivedFrom a')) in *.
  assert (forall x y z w, fields_bytes [FText x; FText y] ++ z = w ->
            field_bytes (FText x) ++ field_bytes (FText y) ++ z = w) as Hf.
  { intros x y z w <-. unfold fields_bytes. cbn [List.map List.concat]. by rewrite app_nil_r, <- app_assoc. }
  assert (forall x y, 0 <= Z.of_nat (length l) <= MaxProvenance /\ 0 <= Z.of_nat (length l') <= MaxProvenance ->
            field_bytes (FUint32 (Z.of_nat (length l))) ++ fields_bytes (origins_fields l) ++ x
            = field_bytes (FUint32 (Z.of_nat (length l'))) ++ fields_bytes (origins_fields l') ++ y ->
            l = l' /\ x = y) as Horig.
  { intros x y [Hr Hr'] Ex. unfold MaxProvenance in *.
    apply field_bytes_inj in Ex as [El Ex]; [|cbn; unfold is_u32; lia]. injection El as El.
    apply origins_bytes_inj in Ex; [done|lia|done..]. }
  assert (0 <= Z.of_nat (length l) <= MaxProvenance /\ 0 <= Z.of_nat (length l') <= MaxProvenance) as Hr by lia.
  unfold key_fields in E.
  destruct (String.eqb_spec (ac_IdempotencyKey a) "") as [Ke|Ke];
    destruct (String.eqb_spec (ac_IdempotencyKey a') "") as [Ke'|Ke']; cbn [negb] in E.
  - destruct (Horig _ _ Hr E) as [-> ->]. split_and!; congruence.
  - symmetry in E. apply Hf in E. exfalso.
    exact (key_count_disjoint _ _ l _ _ (proj1 Hr) eq_refl Hs E).
  - apply Hf in E. exfalso. exact (key_count_disjoint _ _ l' _ _ (proj2 Hr) eq_refl Hs' E).
  - apply fields_bytes_inj in E as [Ek E].
    + injection Ek as ->. by destruct (Horig _ _ Hr E) as [-> ->].
    + apply same_kind_wf; [done|..]; rewrite !Forall_cons; cbn [field_wf]; slen_lit;
        (split_and!; [lia|destruct Hk, Hk'; try done; lia|constructor]).
Qed.

End Binding.

(** ** Properties *)

Section Properties.
  Context `{JSONObjects}.

(** C8: an action is allowed unattended exactly when the policy and the action
    are well formed, the action is neither physical I/O nor a configuration
    change, and its effect is at most the ceiling that applies: the tighter one,
    and below key use, if anything received contributed to it. *)
Theorem firewall_allow_exact policy action :
  (exists d, Evaluate policy action = Ok d /\ d_Outcome d = Allow) <->
  Policy_Validate policy = Ok tt /\ Action_Validate action = Ok tt /\
  ac_Effect action <> EffectPhysicalIO /\ ac_Effect action <> EffectConfiguration /\
  (if Untrusted action
   then rank (ac_Effect action) <= rank (p_UnattendedCeiling policy) < rank EffectKeyUse
   else rank (ac_Effect action) <= rank (p_OwnInitiativeCeiling policy)).
Proof.
  unfold Evaluate. split.
  - intros (d & Hd & Ha). destruct (Policy_Validate policy) as [[]|] eqn:Hp; [|done].
    destruct (Action_Validate action) as [[]|] eqn:Hv; [|by injection Hd as <-].
    destruct (Policy_Validate_inv _ Hp) as (Hk1 & Hk2 & Hr1 & Hr2 & Hr3).
    destruct (Action_Validate_inv _ Hv) as (Hk & _).
    destruct (String.eqb_spec (ac_Effect action) EffectPhysicalIO); [by injection Hd as <-|].
    destruct (String.eqb_spec (ac_Effect action) EffectConfiguration); [by injection Hd as <-|].
    destruct (Untrusted action && _) eqn:Hu; [by injection Hd as <-|].
    destruct (atLeast (ac_Effect action) _ && _) eqn:Hc; [by injection Hd as <-|].
    split_and!; [done..|]. unfold atLeast in *.
    apply andb_false_iff in Hc as [Hc|Hc]; [|breflect; rewrite Hc];
      destruct (Untrusted action); lia.
  - intros (Hp & Hv & Hne1 & Hne2 & Hc). rewrite Hp, Hv.
    destruct (Policy_Validate_inv _ Hp) as (Hk1 & Hk2 & _).
    destruct (Action_Validate_inv _ Hv) as (Hk & _).
    rewrite (proj2 (String.eqb_neq _ _) Hne1), (proj2 (String.eqb_neq _ _) Hne2).
    assert (forall c, Known c = true -> rank (ac_Effect action) <= rank c ->
              atLeast (ac_Effect action) c && negb (String.eqb (ac_Effect action) c) = false) as Hcl.
    { intros c Hkc Hle. destruct (String.eqb_spec (ac_Effect action) c) as [|Hne]; [by rewrite andb_false_r|].
      rewrite andb_true_r. unfold atLeast. apply Z.leb_gt.
      assert (rank (ac_Effect action) <> rank c); [|lia]. intros E. by apply Hne, rank_inj. }
    destruct (Untrusted action); cbn [andb].
    + unfold atLeast at 1. rewrite (proj2 (Z.leb_gt _ _)) by lia. rewrite Hcl by (done || lia). eauto.
    + rewrite Hcl by done. eauto.
Qed.

(** no policy reaches the unreachable.  Whatever an operator configures,
    an action derived from received content is never allowed unattended if it
    uses a key, performs physical I/O or changes the configuration, and physical
    I/O and configuration changes are never allowed unattended at all. *)
Theorem firewall_no_policy_allows policy action d :
  Evaluate policy action = Ok d ->
  ac_Effect action = EffectPhysicalIO \/ ac_Effect action = EffectConfiguration \/
  (Untrusted action = true /\ rank EffectKeyUse <= rank (ac_Effect action)) ->
  d_Outcome d <> Allow.
Proof.
  unfold Evaluate. intros Hd Hc. destruct (Policy_Validate policy); [|done].
  destruct (Action_Validate action); [|by injection Hd as <-].
  destruct (String.eqb_spec (ac_Effect action) EffectPhysicalIO); [by injection Hd as <-|].
  destruct (String.eqb_spec (ac_Effect action) EffectConfiguration); [by injection Hd as <-|].
  destruct Hc as [|[|[Hu Hr]]]; [done..|]. rewrite Hu in Hd. unfold atLeast at 1 in Hd.
  rewrite (proj2 (Z.leb_le _ _)) in Hd by done. by injection Hd as <-.
Qed.

(** C7: a spend needs both the firewall and the mandate.  [EvaluateSpend] allows
    a spend exactly when the firewall alone would allow it and the mandate
    pre-authorises committing to its complete terms without asking the owner;
    neither check substitutes for the other. *)
Theorem spend_needs_both policy mandate action now :
  (exists d, EvaluateSpend policy mandate action now = Ok d /\ d_Outcome d = Allow) <->
  ac_Effect action = EffectSpend /\
  (exists d, Evaluate policy action = Ok d /\ d_Outcome d = Allow) /\
  exists t, ac_Terms action = Some t /\ Mandate_PermitsCommit mandate t now = Ok false.
Proof.
  unfold EvaluateSpend. split.
  - intros (d & Hd & Ha). inv_ok Hd. breflect. rename a into d0.
    destruct (bool_decide (d_Outcome d0 = Refuse)) eqn:Hr; [injection Hd as <-; by breflect; congruence|].
    destruct (ac_Terms action) as [t|]; [|by injection Hd as <-].
    destruct (Terms_Validate t); [|by injection Hd as <-].
    destruct (Mandate_PermitsCommit mandate t now) as [[]|] eqn:Hm; [by injection Hd as <-| |by injection Hd as <-].
    injection Hd as <-. eauto 10.
  - intros (He & (d & Hd & Ha) & t & Ht & Hm). exists d. split; [|done].
    rewrite He, String.eqb_refl, Hd. cbn [negb]. rewrite bool_decide_eq_false_2 by congruence.
    unfold Mandate_PermitsCommit in Hm. rewrite Ht, (permits_valid_terms _ _ _ _ _ Hm).
    unfold Mandate_PermitsCommit. by rewrite Hm.
Qed.

(** an action identifier binds everything an owner approves.  Two valid
    actions with one identifier have the same effect, description, invocation
    key, cited origins, terms and physical operation, short of a SHA-256
    collision; in particular the optional key and the variable number of
    origins cannot be confused with each other. *)
Theorem action_id_binds a a' id :
  Action_typed a -> Action_typed a' -> ActionID a = Ok id -> ActionID a' = Ok id ->
  (ac_Effect a = ac_Effect a' /\ ac_Summary a = ac_Summary a' /\
   ac_IdempotencyKey a = ac_IdempotencyKey a' /\ ac_DerivedFrom a ≡ₚ ac_DerivedFrom a' /\
   ac_Terms a = ac_Terms a' /\ ac_Physical a = ac_Physical a')
  \/ sha256_collision.
Proof.
  intros Ht Ht' (Hv & dg & Hdg & ->)%ActionID_fields (Hv' & dg' & Hdg' & E)%ActionID_fields.
  apply string_app_inj_l, digest_hex_inj, canon_Digest_inj in E as [E|]; [|by right].
  apply app_inv_head in E. rewrite !fields_bytes_app in E.
  destruct (Action_Validate_inv a Hv) as (Hk & Hs & _ & _ & Htm & Hph & Hpv & _).
  destruct (Action_Validate_inv a' Hv') as (Hk' & Hs' & _ & _ & Htm' & Hph' & Hpv' & _).
  apply Known_slen in Hk, Hk'.
  apply fields_bytes_inj in E as [E1 E].
  2:{ apply same_kind_wf; [done|..]; rewrite !Forall_cons; cbn [field_wf];
        (split_and!; [lia|lia|constructor]). }
  injection E1 as He Hsum. unfold fields_bytes at 2 6 in E. cbn [List.map List.concat] in E.
  rewrite !app_nil_r in E. apply action_rest_inj in E as (Hkey & Horig & E); [|done..].
  rewrite <- He in Htm', Hph'.
  assert (ac_DerivedFrom a ≡ₚ ac_DerivedFrom a') as Hperm
    by by rewrite <- (sort_origins_perm (ac_DerivedFrom a)), Horig, sort_origins_perm.
  destruct (ac_Terms a) as [t|] eqn:Eta; destruct (ac_Terms a') as [t'|] eqn:Eta'.
  2, 3: exfalso; revert Htm Htm'; rewrite !is_Some_alt; tauto.
  - destruct Hdg as (d & Hd & ->), Hdg' as (d' & Hd' & ->).
    assert (ac_Physical a = None /\ ac_Physical a' = None) as [Hp Hp'].
    { assert (ac_Effect a = EffectSpend) as Hsp by (apply Htm; eauto).
      rewrite Hsp in Hph, Hph'. split; apply eq_None_not_Some; [intros Hx%Hph|intros Hx%Hph']; done. }
    rewrite Hp, Hp' in *. unfold tail_fields in E. cbn [app] in E.
    apply (object_bytes_inj [] [FText d] [FText d']) in E; [|done|..].
    + injection E as ->. destruct (Terms_Digest_inj t t' d') as [->|]; [by apply Ht|by apply Ht'|done|done| |by right].
      left. by split_and!.
    + apply Terms_Digest_slen in Hd. rewrite Forall_singleton. cbn. lia.
    + apply Terms_Digest_slen in Hd'. rewrite Forall_singleton. cbn. lia.
  - subst dg dg'. unfold tail_fields in E. cbn [app] in E.
    left. split_and!; try done.
    destruct (ac_Physical a) as [p|] eqn:Ep; destruct (ac_Physical a') as [p'|] eqn:Ep'; [| | |done].
    2, 3: exfalso; revert Hph Hph'; rewrite !is_Some_alt; tauto.
    apply (object_bytes_inj [] (physical_fields p) (physical_fields p')) in E; [|done|..].
    + destruct p, p'. unfold physical_fields in E. cbn in E. by injection E as -> -> -> -> ->.
    + apply physical_fields_wf; auto.
    + apply physical_fields_wf; auto.
Qed.

(** the order origins are cited in does not matter.  Two valid actions that
    differ only in the order of their origins have the same identifier, so a
    retry that lists them differently reuses the owner's decision. *)
Theorem action_id_order_independent a l :
  Action_Validate a = Ok tt -> ac_DerivedFrom a ≡ₚ l ->
  ActionID (MkAction (ac_Effect a) (ac_Summary a) (ac_IdempotencyKey a) l (ac_Terms a) (ac_Physical a))
  = ActionID a.
Proof.
  intros Hv Hp. destruct (Action_Validate_inv _ Hv) as (_&_&_&_&_&_&_&Hall&Hnd).
  unfold ActionID. cbn [ac_Effect ac_Summary ac_IdempotencyKey ac_DerivedFrom ac_Terms ac_Physical].
  rewrite (sort_origins_unique _ _ Hp Hnd), Hv.
  replace (Action_Validate (MkAction _ _ _ l _ _)) with (@Ok unit tt); [done|].
  symmetry. revert Hv. unfold Action_Validate.
  cbn [ac_Effect ac_Summary ac_IdempotencyKey ac_DerivedFrom ac_Terms ac_Physical].
  rewrite (Permutation_length Hp). intros Hv. inv_ok Hv.
  apply check_origins_ok. split_and!.
  - by rewrite <- Hp.
  - by rewrite <- Hp.
  - apply Forall_forall. set_solver.
Qed.

(** what was read can be cited.  The origins collected from quotations made
    by [Quote] are exactly the events quoted, each once, in first-read order,
    and within the bound of one composition they form a valid provenance. *)
Theorem origins_citable quotations :
  Forall (fun q => exists o body, firewall_Quote o body = Ok q) quotations ->
  check_origins ∅ (Origins quotations) = Ok tt /\
  (forall e, e ∈ (o_EventID <$> Origins quotations) <-> e ∈ ((fun q => o_EventID (qt_origin q)) <$> quotations)) /\
  Origins quotations `sublist_of` (qt_origin <$> quotations).
Proof.
  intros Hq. unfold Origins. rewrite check_origins_ok.
  assert (forall seen, Forall (fun o => Origin_Validate o = Ok tt) (origins_loop seen quotations) /\
    NoDup (o_EventID <$> origins_loop seen quotations) /\
    Forall (fun o => o_EventID o ∉ seen) (origins_loop seen quotations) /\
    (forall e, e ∉ seen -> e ∈ (o_EventID <$> origins_loop seen quotations)
                           <-> e ∈ ((fun q => o_EventID (qt_origin q)) <$> quotations)) /\
    origins_loop seen quotations `sublist_of` (qt_origin <$> quotations)) as Hloop.
  { induction Hq as [|q l (o & body & Hqo) Hq IH]; intros seen; cbn [origins_loop].
    - split_and!; auto using NoDup_nil_2.
    - rewrite !fmap_cons. destruct (bool_decide _) eqn:Hin; breflect.
      + destruct (IH seen) as (H1 & H2 & H3 & H4 & H5). split_and!; try done.
        * intros e He. rewrite H4, elem_of_cons by done. set_solver.
        * by apply sublist_cons.
      + destruct (IH ({[o_EventID (qt_origin q)]} ∪ seen)) as (H1 & H2 & H3 & H4 & H5).
        unfold firewall_Quote in Hqo. inv_ok Hqo. injection Hqo as <-. cbn [qt_origin] in *.
        rewrite fmap_cons. split_and!.
        * constructor; [by destruct a|done].
        * apply NoDup_cons. split; [|done]. intros (o' & He & Ho')%list_elem_of_fmap.
          rewrite Forall_forall in H3. specialize (H3 o' Ho'). set_solver.
        * constructor; [done|]. eapply Forall_impl; [exact H3|]. set_solver.
        * intros e He. rewrite !elem_of_cons. destruct (decide (e = o_EventID o)) as [->|]; [tauto|].
          rewrite H4 by set_solver. tauto.
        * by apply sublist_skip. }
  destruct (Hloop ∅) as (H1 & H2 & H3 & H4 & H5). split_and!; try done. intros e. apply H4. set_solver.
Qed.

End Properties.

(** ** Instances *)

(** A decoder that knows one object. *)
#[global] Instance sample_json : JSONObjects := {|
  json_object := string;
  json_Unmarshal s := Some s;
  json_Marshal o := Some o;
  json_action o := Some "open";
|}.

Definition sample_origin : Origin :=
  MkOrigin ("agent_" +:+ sample_hash) ("mep_" +:+ sample_hash) ("dev_" +:+ sample_hash)
    ("evt_" +:+ sample_hash) ("conv_" +:+ sample_hash) "chat" 5.
Definition sample_spend (origins : list Origin) : Action :=
  MkAction EffectSpend "rent a machine" ("idem_" +:+ sample_hash) origins (Some sample_terms) None.
Definition sample_reply : Action := MkAction EffectMessage "answer" "" [sample_origin] None None.

Lemma sample_spend_valid : Action_Validate (sample_spend [sample_origin]) = Ok tt.
Proof. vm_compute. reflexivity. Qed.

Lemma sample_spend_typed : Action_typed (sample_spend [sample_origin]).
Proof.
  split; [apply Forall_singleton; vm_compute; split; [discriminate|reflexivity]|].
  intros t [= <-]. apply sample_terms_typed.
Qed.

Lemma sample_spend_id : exists id, ActionID (sample_spend [sample_origin]) = Ok id.
Proof.
  unfold ActionID. rewrite sample_spend_valid. cbn [sample_spend ac_Terms].
  rewrite (Terms_Digest_ok _ sample_terms_valid sample_terms_typed). eauto.
Qed.

Example reply_allowed :
  exists d, Evaluate firewall_Default sample_reply = Ok d /\ d_Outcome d = Allow.
Proof. eexists. split; [vm_compute; reflexivity|reflexivity]. Qed.

Lemma firewall_no_policy_allows_witness :
  d_Outcome (MkDecision RequireOwnerApproval "changing this installation's configuration is the owner's decision"
               EffectConfiguration EffectToolCall []) <> Allow.
Proof.
  apply (firewall_no_policy_allows firewall_Default (MkAction EffectConfiguration "raise a ceiling" "" [] None None)).
  - vm_compute. reflexivity.
  - right. left. reflexivity.
Defined.

Lemma action_id_binds_witness :
  (ac_Effect (sample_spend [sample_origin]) = ac_Effect (sample_spend [sample_origin]) /\
   ac_Summary (sample_spend [sample_origin]) = ac_Summary (sample_spend [sample_origin]) /\
   ac_IdempotencyKey (sample_spend [sample_origin]) = ac_IdempotencyKey (sample_spend [sample_origin]) /\
   ac_DerivedFrom (sample_spend [sample_origin]) ≡ₚ ac_DerivedFrom (sample_spend [sample_origin]) /\
   ac_Terms (sample_spend [sample_origin]) = ac_Terms (sample_spend [sample_origin]) /\
   ac_Physical (sample_spend [sample_origin]) = ac_Physical (sample_spend [sample_origin]))
  \/ sha256_collision.
Proof.
  destruct sample_spend_id as [id Hid].
  apply (action_id_binds (sample_spend [sample_origin]) (sample_spend [sample_origin]) id);
    (apply sample_spend_typed || exact Hid).
Defined.

Lemma action_id_order_independent_witness :
  ActionID (sample_spend [sample_origin]) = ActionID (sample_spend [sample_origin]).
Proof.
  apply (action_id_order_independent (sample_spend [sample_origin]) [sample_origin]).
  - apply sample_spend_valid.
  - reflexivity.
Defined.

Lemma origins_citable_witness :
  let qs := [MkQuotation sample_origin "hello"; MkQuotation sample_origin "again"] in
  check_origins ∅ (Origins qs) = Ok tt /\
  (forall e, e ∈ (o_EventID <$> Origins qs) <-> e ∈ ((fun q => o_EventID (qt_origin q)) <$> qs)) /\
  Origins qs `sublist_of` (qt_origin <$> qs).
Proof.
  apply (origins_citable [MkQuotation sample_origin "hello"; MkQuotation sample_origin "again"]).
  rewrite !Forall_cons. split_and!; [| |constructor].
  - exists sample_origin, "hello". vm_compute. reflexivity.
  - exists sample_origin, "again". vm_compute. reflexivity.
Defined.
