(* ===== verification/Budget.v ===== *)
(** * One budget behind several negotiations: [pkg/negotiation/budget.go]

    A budget is a total, what has been spent of it and what is held for each
    negotiation, kept in memory and written whole to a ledger.  The ledger is an
    interface: the file states what a ledger promises as a type class and proves
    the budget against it, so that the durable ledger of the event log and any
    other one discharge the same laws.

    Every exported method runs under the budget's mutex, so concurrent callers
    are sequences of whole operations; [budget_step] is one of them. *)

From S2P Require Import Prelude Encoding Canon Files Money.

Definition MaxReservations : Z := 256.

Definition ErrBudgetExceeded : error := Sentinel "this would commit more than the budget allows".

Record BudgetState : Type := MkBudgetState {
  bs_Total : Money;
  bs_Spent : Money;
  bs_Reserved : gmap string Money;
}.

(** ** The ledger interface

    [ledger_Load] answers [None] when nothing was stored ([found] is false).
    [L] is whatever the ledger keeps, its medium and that medium's failures
    included. *)
Class Ledger (L : Type) := {
  ledger_Load : L -> result (option BudgetState);
  ledger_Record : BudgetState -> action L unit;
}.

Record Budget : Type := MkBudget {
  bd_total : Money;
  bd_spent : Money;
  bd_reserved : gmap string Money;
}.

Definition set_reserved (b : Budget) (r : gmap string Money) : Budget :=
  MkBudget (bd_total b) (bd_spent b) r.
Definition set_spent (b : Budget) (s : Money) : Budget :=
  MkBudget (bd_total b) s (bd_reserved b).

(** The zero value of [Money], which Go's map lookup returns for a missing key. *)
Definition Money_zero_value : Money :=
  MkMoney (MkAsset (MkNetwork "" "" "") 0 "" "" "" 0) "".

Section Operations.
  Context {L : Type} `{Ledger L}.

Definition Budget_record (b : Budget) : action L unit :=
  ledger_Record (MkBudgetState (bd_total b) (bd_spent b) (bd_reserved b)).

(** [ledger] is nil for [None]. *)
Definition OpenBudget (total : Money) (ledger : option L) : result Budget * option L :=
  match Money_Validate total with
  | Err e => (Err e, ledger)
  | Ok _ =>
      match ledger with
      | None => (Err (NewError "a budget needs somewhere to survive a restart"), None)
      | Some l =>
          let budget := MkBudget total (Money_Zero total) ∅ in
          match ledger_Load l with
          | Err e => (Err e, Some l)
          | Ok None =>
              match Budget_record budget l with
              | (Ok _, l') => (Ok budget, Some l')
              | (Err e, l') => (Err e, Some l')
              end
          | Ok (Some stored) =>
              if negb (Money_Equal (bs_Total stored) total)
              then (Err (NewError "this budget was opened before with a different total"), Some l)
              else (Ok (MkBudget total (bs_Spent stored) (bs_Reserved stored)), Some l)
          end
      end
  end.

(** The additions of [committedLocked], over the sorted identifiers. *)
Fixpoint add_holds (total : Money) (reserved : gmap string Money) (identifiers : list string)
    : result Money :=
  match identifiers with
  | [] => Ok total
  | id :: rest =>
      let* sum := Money_Add total (default Money_zero_value (reserved !! id)) in
      add_holds sum reserved rest
  end.

Definition committedLocked (b : Budget) : result Money :=
  add_holds (bd_spent b) (bd_reserved b) (sort_strings (elements (dom (bd_reserved b)))).

Definition Budget_restore (b : Budget) (negotiationID : string) (previous : option Money) : Budget :=
  match previous with
  | Some p => set_reserved b (<[negotiationID := p]> (bd_reserved b))
  | None => set_reserved b (delete negotiationID (bd_reserved b))
  end.

(** The methods below are the bodies for a receiver that is not nil;
    [Budget_method] adds the nil check they share. *)
Definition Budget_method {A} (op : action (Budget * L) A) : action (option Budget * L) A :=
  fun '(receiver, l) =>
    match receiver with
    | None => (Err (NewError "no budget"), (None, l))
    | Some b => let '(r, (b', l')) := op (b, l) in (r, (Some b', l'))
    end.

Definition Budget_Reserve (negotiationID : string) (amount : Money) : action (Budget * L) unit :=
  fun '(b, l) =>
  let fail e := (Err e, (b, l)) in
  if String.eqb negotiationID "" || (128 <? slen negotiationID)
  then fail (NewError "invalid negotiation identifier") else
  match Money_Validate amount with Err e => fail e | Ok _ =>
  if negb (Money_SameAsset amount (bd_total b))
  then fail (NewError "this amount is in an asset the budget does not hold") else
  if negb (bool_decide (is_Some (bd_reserved b !! negotiationID)))
     && (MaxReservations <=? Z.of_nat (size (bd_reserved b)))
  then fail (NewError "this budget holds as many reservations as it may") else
  let previous := bd_reserved b !! negotiationID in
  let b1 := set_reserved b (<[negotiationID := amount]> (bd_reserved b)) in
  let undo e l' := (Err e, (Budget_restore b1 negotiationID previous, l')) in
  match committedLocked b1 with Err e => undo e l | Ok committed =>
  match Money_AtMost committed (bd_total b1) with Err e => undo e l | Ok within =>
  if negb within then undo ErrBudgetExceeded l else
  match Budget_record b1 l with
  | (Err e, l') => undo e l'
  | (Ok _, l') => (Ok tt, (b1, l'))
  end end end end.

Definition Budget_Release (negotiationID : string) : action (Budget * L) unit :=
  fun '(b, l) =>
  match bd_reserved b !! negotiationID with
  | None => (Ok tt, (b, l))
  | Some previous =>
      let b1 := set_reserved b (delete negotiationID (bd_reserved b)) in
      match Budget_record b1 l with
      | (Err e, l') => (Err e, (set_reserved b1 (<[negotiationID := previous]> (bd_reserved b1)), l'))
      | (Ok _, l') => (Ok tt, (b1, l'))
      end
  end.

Definition Budget_Commit (negotiationID : string) : action (Budget * L) unit :=
  fun '(b, l) =>
  let fail e := (Err e, (b, l)) in
  match bd_reserved b !! negotiationID with
  | None => fail (NewError "this negotiation holds no reservation")
  | Some amount =>
      match Money_Add (bd_spent b) amount with Err e => fail e | Ok spent =>
      match Money_AtMost spent (bd_total b) with Err e => fail e | Ok within =>
      if negb within then fail ErrBudgetExceeded else
      let previousSpent := bd_spent b in
      let b1 := set_reserved (set_spent b spent) (delete negotiationID (bd_reserved b)) in
      match Budget_record b1 l with
      | (Err e, l') =>
          (Err e, (set_reserved (set_spent b1 previousSpent)
                     (<[negotiationID := amount]> (bd_reserved b1)), l'))
      | (Ok _, l') => (Ok tt, (b1, l'))
      end end end
  end.

Definition Budget_Remaining (b : Budget) : result Money :=
  let* committed := committedLocked b in
  let* total := Money_Int (bd_total b) in
  let* used := Money_Int committed in
  NewMoney (mo_Asset (bd_total b)) (Some (total - used)).

Definition Budget_Spent (b : Budget) : Money := bd_spent b.
Definition Budget_Reserved (b : Budget) (negotiationID : string) : option Money :=
  bd_reserved b !! negotiationID.

(** ** Operations as steps *)

Inductive budget_op : Type :=
  | OpReserve (negotiationID : string) (amount : Money)
  | OpRelease (negotiationID : string)
  | OpCommit (negotiationID : string).

Definition run_op (op : budget_op) : action (Budget * L) unit :=
  match op with
  | OpReserve id amount => Budget_Reserve id amount
  | OpRelease id => Budget_Release id
  | OpCommit id => Budget_Commit id
  end.

(** One call, whatever it returned, or the process ending and the budget being
    opened again from the ledger. *)
Inductive budget_step : Budget * L -> Budget * L -> Prop :=
  | step_op op bl r bl' : run_op op bl = (r, bl') -> budget_step bl bl'
  | step_restart b l b' l' :
      OpenBudget (bd_total b) (Some l) = (Ok b', Some l') -> budget_step (b, l) (b', l').

End Operations.

(** ** What a budget promises *)

(** The count an amount denotes; only used for amounts that are valid. *)
Definition mval (m : Money) : Z := match Money_Int m with Ok n => n | Err _ => 0 end.

(** The sum of the holds. *)
Definition holds (r : gmap string Money) : Z := map_fold (fun _ a s => mval a + s) 0 r.

Definition good_amount (asset : Asset) (m : Money) : Prop :=
  Money_Validate m = Ok tt /\ mo_Asset m = asset.

(** The invariant: everything is an exact amount of the budget's asset, the
    holds are bounded in number, and what is spent and held together is within
    the total. *)
Record state_wf (s : BudgetState) : Prop := {
  sw_total : Money_Validate (bs_Total s) = Ok tt;
  sw_spent : good_amount (mo_Asset (bs_Total s)) (bs_Spent s);
  sw_holds : map_Forall (fun _ => good_amount (mo_Asset (bs_Total s))) (bs_Reserved s);
  sw_count : Z.of_nat (size (bs_Reserved s)) <= MaxReservations;
  sw_bound : mval (bs_Spent s) + holds (bs_Reserved s) <= mval (bs_Total s);
}.

Definition budget_state (b : Budget) : BudgetState :=
  MkBudgetState (bd_total b) (bd_spent b) (bd_reserved b).
Definition budget_wf (b : Budget) : Prop := state_wf (budget_state b).

(** ** What a ledger promises

    What a budget relies on: a write of a well-formed state that succeeded is
    what the next load answers, and one that failed left either what was there
    or the whole new state, because a ledger is written whole. *)
Class LedgerLaws (L : Type) `{Ledger L} : Prop := {
  ledger_record_ok l s l' :
    state_wf s -> ledger_Record s l = (Ok tt, l') -> ledger_Load l' = Ok (Some s);
  ledger_record_err l s e l' :
    state_wf s -> ledger_Record s l = (Err e, l') ->
    ledger_Load l' = ledger_Load l \/ ledger_Load l' = Ok (Some s);
}.

(** A ledger over a script of write outcomes, the simplest medium that fails in
    every way a replaced file can: not at all, before the new content is in
    place, or after. *)
Record scripted_ledger : Type := MkScripted {
  sl_stored : option BudgetState;
  sl_script : list write_outcome;
}.

#[global] Instance scripted_Ledger : Ledger scripted_ledger := {
  ledger_Load l := Ok (sl_stored l);
  ledger_Record s l :=
    match sl_script l with
    | [] => (Ok tt, MkScripted (Some s) [])
    | WOk :: rest => (Ok tt, MkScripted (Some s) rest)
    | WFailOld :: rest => (Err (NewError "write"), MkScripted (sl_stored l) rest)
    | WFailNew :: rest => (Err (NewError "sync"), MkScripted (Some s) rest)
    end;
}.

#[global] Instance scripted_LedgerLaws : LedgerLaws scripted_ledger.
Proof.
  split; intros [st [|[] sc]] s; cbn; intros; simplify_eq; cbn; auto.
Qed.

Lemma good_amount_Int a m : good_amount a m -> Money_Int m = Ok (mval m) /\ 0 <= mval m < 10 ^ 78.
Proof.
  intros [Hv _]. destruct (Money_Int_valid m Hv) as [n Hn]. unfold mval. rewrite Hn.
  split; [done|]. by apply Money_Int_Ok in Hn as (_ & ? & _).
Qed.

Lemma holds_insert r i a : r !! i = None -> holds (<[i := a]> r) = mval a + holds r.
Proof. intros Hi. unfold holds. rewrite map_fold_insert_L; [done|intros; lia|done]. Qed.

Lemma holds_delete r i a : r !! i = Some a -> holds r = mval a + holds (delete i r).
Proof. intros Hi. unfold holds. rewrite (map_fold_delete_L _ _ i a r); [done|intros; lia|done]. Qed.

Lemma holds_nonneg asset r : map_Forall (fun _ => good_amount asset) r -> 0 <= holds r.
Proof.
  induction r as [|i a r Hi IH] using map_ind; [done|]. intros [Ha Hall]%map_Forall_insert; [|done].
  rewrite holds_insert by done. apply good_amount_Int in Ha as [_ ?]. specialize (IH Hall). lia.
Qed.

Lemma Add_good a m o :
  good_amount a m -> good_amount a o -> mval m + mval o < 10 ^ 78 ->
  exists r, Money_Add m o = Ok r /\ good_amount a r /\ mval r = mval m + mval o.
Proof.
  intros Hm Ho Hb. destruct (good_amount_Int _ _ Hm) as [Hmi Hmr].
  destruct (good_amount_Int _ _ Ho) as [Hoi Hor]. destruct Hm as [Hmv Hma], Ho as [Hov Hoa].
  rewrite (Money_Add_compute m o (mval m) (mval o)) by congruence.
  rewrite (proj2 (Z.ltb_lt _ _)) by done. eexists. split; [done|].
  apply Money_Validate_inv in Hmv as [Hav _].
  pose proof (Money_Int_build (mo_Asset m) (mval m + mval o) Hav ltac:(lia)) as Hi.
  split; [split; [by apply Money_Int_Ok in Hi as [? _]|done]|].
  unfold mval at 1. by rewrite Hi.
Qed.

Lemma Add_Ok_good a m o r :
  good_amount a m -> good_amount a o -> Money_Add m o = Ok r ->
  good_amount a r /\ mval r = mval m + mval o.
Proof.
  intros Hm Ho H. destruct (good_amount_Int _ _ Hm) as [Hmi _].
  destruct (good_amount_Int _ _ Ho) as [Hoi _].
  apply Money_Add_Ok in H as (_ & Hra & x & y & Hx & Hy & Hr). simplify_eq.
  unfold mval at 1. rewrite Hr. destruct Hm as [_ <-]. split; [|congruence].
  split; [|done]. by apply Money_Int_Ok in Hr as [? _].
Qed.

(** The additions give the exact sum, when the sum still fits an amount. *)
Definition id_sum (r : gmap string Money) (ids : list string) : Z :=
  foldr (fun id s => mval (default Money_zero_value (r !! id)) + s) 0 ids.

Lemma id_sum_perm r ids ids' : ids ≡ₚ ids' -> id_sum r ids = id_sum r ids'.
Proof. unfold id_sum. induction 1; cbn [foldr]; lia. Qed.

Lemma id_sum_elements r : id_sum r (sort_strings (elements (dom r))) = holds r.
Proof.
  rewrite (id_sum_perm _ _ (map_to_list r).*1).
  - unfold holds. rewrite map_fold_foldr. unfold id_sum.
    assert (Forall (fun kv => r !! kv.1 = Some kv.2) (map_to_list r)) as Hall.
    { apply Forall_forall. intros [k v] Hin. by apply elem_of_map_to_list. }
    induction Hall as [|[k v] l Hk Hl IH]; [done|]. cbn [fst snd] in Hk.
    cbn [fmap list_fmap foldr fst snd uncurry]. by rewrite IH, Hk.
  - rewrite sort_strings_perm. apply NoDup_Permutation; [apply NoDup_elements|apply NoDup_fst_map_to_list|].
    intros x. rewrite elem_of_elements, elem_of_dom, list_elem_of_fmap. split.
    + intros [v Hv]. exists (x, v). split; [done|]. by apply elem_of_map_to_list.
    + intros ([k v] & -> & Hv%elem_of_map_to_list). by exists v.
Qed.

Lemma add_holds_exact a r ids m :
  good_amount a m -> Forall (fun id => exists x, r !! id = Some x /\ good_amount a x) ids ->
  (forall c, add_holds m r ids = Ok c -> good_amount a c /\ mval c = mval m + id_sum r ids) /\
  (mval m + id_sum r ids < 10 ^ 78 -> exists c, add_holds m r ids = Ok c).
Proof.
  intros Hm Hids. revert m Hm.
  induction Hids as [|id ids (x & Hx & Hgx) Hids IH]; intros m Hm; cbn [add_holds id_sum foldr].
  - split; [intros c [= <-]; split; [done|lia]|eauto].
  - rewrite Hx. cbn [default]. fold (id_sum r ids).
    assert (0 <= id_sum r ids) as Hnn.
    { clear -Hids. induction Hids as [|? ? (? & Hx & Hg) _ IH]; [done|]. cbn. rewrite Hx.
      apply good_amount_Int in Hg as [_ ?]. cbn. unfold id_sum in IH. lia. }
    split.
    + intros c Hc. inv_ok Hc. rename a0 into sum.
      match goal with H : Money_Add _ _ = _ |- _ => destruct (Add_Ok_good _ _ _ _ Hm Hgx H) as [Hs Hv] end.
      destruct (proj1 (IH sum Hs) c Hc) as [Hgc Hvc]. split; [done|]. cbn. lia.
    + cbn. intros Hb. destruct (Add_good a m x Hm Hgx ltac:(lia)) as (s & -> & Hs & Hv).
      apply (IH s Hs). lia.
Qed.

Lemma committedLocked_exact a b :
  good_amount a (bd_spent b) -> map_Forall (fun _ => good_amount a) (bd_reserved b) ->
  (forall c, committedLocked b = Ok c ->
     good_amount a c /\ mval c = mval (bd_spent b) + holds (bd_reserved b)) /\
  (mval (bd_spent b) + holds (bd_reserved b) < 10 ^ 78 -> exists c, committedLocked b = Ok c).
Proof.
  intros Hs Hr. unfold committedLocked. rewrite <- id_sum_elements.
  apply add_holds_exact; [done|]. apply Forall_forall. intros id Hid.
  rewrite sort_strings_perm, elem_of_elements, elem_of_dom in Hid. destruct Hid as [x Hx].
  exists x. split; [done|]. by apply (Hr id).
Qed.

Lemma AtMost_good a m c b :
  good_amount a m -> good_amount a c -> Money_AtMost m c = Ok b -> b = (mval m <=? mval c).
Proof.
  intros Hm Hc (_ & x & y & Hx & Hy & ->)%Money_AtMost_Ok.
  apply good_amount_Int in Hm as [Hm _]. apply good_amount_Int in Hc as [Hc _]. congruence.
Qed.

Lemma AtMost_good_compute a m c :
  good_amount a m -> good_amount a c -> Money_AtMost m c = Ok (mval m <=? mval c).
Proof.
  intros Hm Hc. apply Money_AtMost_compute.
  - destruct Hm, Hc. congruence.
  - by apply good_amount_Int in Hm as [? _].
  - by apply good_amount_Int in Hc as [? _].
Qed.

Lemma wf_total_good b : budget_wf b -> good_amount (mo_Asset (bd_total b)) (bd_total b).
Proof. intros [H _ _ _ _]. by split. Qed.

(** Undoing a reservation gives back exactly the budget before it. *)
Lemma restore_insert b id amount :
  Budget_restore (set_reserved b (<[id := amount]> (bd_reserved b))) id (bd_reserved b !! id) = b.
Proof.
  destruct b as [t s r]. unfold Budget_restore, set_reserved. cbn.
  destruct (r !! id) as [p|] eqn:E.
  - by rewrite insert_insert_eq, insert_id.
  - by rewrite delete_insert_id.
Qed.

Lemma set_reserved_undo b id a :
  bd_reserved b !! id = Some a ->
  set_reserved (set_reserved b (delete id (bd_reserved b)))
    (<[id := a]> (bd_reserved (set_reserved b (delete id (bd_reserved b))))) = b.
Proof.
  intros Ha. destruct b as [t s r]. unfold set_reserved. cbn in *. by rewrite insert_delete_id.
Qed.

(** ** Every operation is one whole write *)

Section Correctness.
  Context {L : Type} `{Ledger L}.

(** How a call on behalf of [id] can end: nothing happened, a new budget [b1]
    was written and adopted, or writing it failed and the old one stands.  The
    new budget differs in the hold of [id] only. *)
Record next_budget (id : string) (b b1 : Budget) : Prop := {
  nb_total : bd_total b1 = bd_total b;
  nb_wf : budget_wf b -> budget_wf b1;
  nb_spent : budget_wf b -> mval (bd_spent b) <= mval (bd_spent b1);
  nb_other : forall j, j <> id -> bd_reserved b1 !! j = bd_reserved b !! j;
}.

Inductive outcome (id : string) (b : Budget) (l : L) : result unit -> Budget -> L -> Prop :=
  | out_unchanged r : outcome id b l r b l
  | out_written b1 l' : Budget_record b1 l = (Ok tt, l') -> next_budget id b b1 ->
      outcome id b l (Ok tt) b1 l'
  | out_failed b1 e l' : Budget_record b1 l = (Err e, l') -> next_budget id b b1 ->
      outcome id b l (Err e) b l'.

Definition op_id (op : budget_op) : string :=
  match op with OpReserve id _ => id | OpRelease id => id | OpCommit id => id end.

Lemma wf_reserve b id amount c :
  budget_wf b -> good_amount (mo_Asset (bd_total b)) amount ->
  (is_Some (bd_reserved b !! id) \/ Z.of_nat (size (bd_reserved b)) < MaxReservations) ->
  let b1 := set_reserved b (<[id := amount]> (bd_reserved b)) in
  committedLocked b1 = Ok c -> mval c <= mval (bd_total b) -> budget_wf b1.
Proof.
  intros [Ht Hs Hh Hc Hb] Ha Hn b1 Hcm Hle. cbn in *.
  assert (map_Forall (fun _ => good_amount (mo_Asset (bd_total b))) (bd_reserved b1)) as Hall.
  { cbn. by apply map_Forall_insert_2. }
  destruct (proj1 (committedLocked_exact (mo_Asset (bd_total b)) b1 Hs Hall) _ Hcm) as [Hg Hv].
  constructor; cbn; try done; [|cbn in Hv; lia].
  destruct (bd_reserved b !! id) as [p|] eqn:E.
  - by rewrite map_size_insert_Some by eauto.
  - rewrite map_size_insert_None by done. destruct Hn as [[? ?]|]; [done|lia].
Qed.

Lemma Reserve_outcome id amount b l r b' l' :
  Budget_Reserve id amount (b, l) = (r, (b', l')) -> outcome id b l r b' l'.
Proof.
  unfold Budget_Reserve. intros E.
  destruct (String.eqb id "" || (128 <? slen id)); [simplify_eq; constructor|].
  destruct (Money_Validate amount) as [[]|] eqn:Hv; [|simplify_eq; constructor].
  destruct (negb (Money_SameAsset amount (bd_total b))) eqn:Ha; [simplify_eq; constructor|].
  destruct (negb (bool_decide _) && _) eqn:Hn; [simplify_eq; constructor|].
  set (b1 := set_reserved b _) in *.
  assert (Budget_restore b1 id (bd_reserved b !! id) = b) as Hu by apply restore_insert.
  destruct (committedLocked b1) as [c|] eqn:Hc; [|rewrite Hu in E; simplify_eq; constructor].
  destruct (Money_AtMost c (bd_total b1)) as [w|] eqn:Hw;
    [|rewrite Hu in E; simplify_eq; constructor].
  destruct w; cbn [negb] in E; [|rewrite Hu in E; simplify_eq; constructor].
  assert (budget_wf b -> budget_wf b1) as Hwf.
  { intros Hb. breflect. apply Asset_Same_eq in Ha.
    apply (wf_reserve b id amount c Hb); [by split| |done|].
    - apply andb_false_iff in Hn as [Hn|Hn]; [left|right; lia]. by breflect.
    - apply Money_AtMost_Ok in Hw as (_ & x & y & Hx & Hy & Hle). unfold mval.
      cbn in Hy. rewrite Hx, Hy. lia. }
  assert (next_budget id b b1) as Hnb.
  { constructor; [done|exact Hwf|done|]. intros j Hj. cbn. by rewrite lookup_insert_ne. }
  destruct (Budget_record b1 l) as [[[]|e] l1] eqn:Hr.
  - simplify_eq. by apply out_written.
  - rewrite Hu in E. simplify_eq. by eapply out_failed.
Qed.

Lemma wf_delete b id p :
  budget_wf b -> bd_reserved b !! id = Some p ->
  budget_wf (set_reserved b (delete id (bd_reserved b))).
Proof.
  intros [Ht Hs Hh Hc Hb] Hp. cbn in *. constructor; cbn; try done.
  - by apply map_Forall_delete.
  - rewrite map_size_delete, Hp. lia.
  - rewrite (holds_delete _ _ _ Hp) in Hb. pose proof (Hh _ _ Hp) as Hg.
    apply good_amount_Int in Hg as [_ ?]. lia.
Qed.

Lemma Release_outcome id b l r b' l' :
  Budget_Release id (b, l) = (r, (b', l')) -> outcome id b l r b' l'.
Proof.
  unfold Budget_Release. intros E.
  destruct (bd_reserved b !! id) as [p|] eqn:Hp; [|simplify_eq; constructor].
  rewrite set_reserved_undo in E by done.
  assert (next_budget id b (set_reserved b (delete id (bd_reserved b)))) as Hnb.
  { constructor; [done| |done|]; [intros Hb; by eapply wf_delete|].
    intros j Hj. cbn. by rewrite lookup_delete_ne. }
  destruct (Budget_record _ l) as [[[]|e] l1] eqn:Hr; simplify_eq.
  - by apply out_written.
  - by eapply out_failed.
Qed.

Lemma wf_commit b id amount spent :
  budget_wf b -> bd_reserved b !! id = Some amount -> Money_Add (bd_spent b) amount = Ok spent ->
  let b1 := set_reserved (set_spent b spent) (delete id (bd_reserved b)) in
  budget_wf b1 /\ mval spent = mval (bd_spent b) + mval amount.
Proof.
  intros Hb Hp Ha. pose proof Hb as [Ht Hs Hh Hc Hbd]. cbn in *. pose proof (Hh _ _ Hp) as Hg.
  destruct (Add_Ok_good _ _ _ _ Hs Hg Ha) as [Hgs Hv].
  rewrite (holds_delete _ _ _ Hp) in Hbd.
  split; [|done]. constructor; cbn; try done.
  - by apply map_Forall_delete.
  - rewrite map_size_delete, Hp. lia.
  - lia.
Qed.

Lemma Commit_undo b id amount spent :
  bd_reserved b !! id = Some amount ->
  let b1 := set_reserved (set_spent b spent) (delete id (bd_reserved b)) in
  set_reserved (set_spent b1 (bd_spent b)) (<[id := amount]> (bd_reserved b1)) = b.
Proof.
  intros Hp. destruct b as [t s r]. unfold set_reserved, set_spent. cbn in *.
  by rewrite insert_delete_id.
Qed.

Lemma Commit_outcome id b l r b' l' :
  Budget_Commit id (b, l) = (r, (b', l')) -> outcome id b l r b' l'.
Proof.
  unfold Budget_Commit. intros E.
  destruct (bd_reserved b !! id) as [p|] eqn:Hp; [|simplify_eq; constructor].
  destruct (Money_Add (bd_spent b) p) as [s|] eqn:Ha; [|simplify_eq; constructor].
  destruct (Money_AtMost s (bd_total b)) as [w|]; [|simplify_eq; constructor].
  destruct w; cbn [negb] in E; [|simplify_eq; constructor].
  rewrite Commit_undo in E by done.
  assert (budget_wf b -> mval (bd_spent b) <= mval s) as Hmono.
  { intros Hb. destruct (wf_commit _ _ _ _ Hb Hp Ha) as [_ ->].
    pose proof (sw_holds _ Hb _ _ Hp) as Hg. apply good_amount_Int in Hg as [_ ?]. lia. }
  assert (next_budget id b (set_reserved (set_spent b s) (delete id (bd_reserved b)))) as Hnb.
  { constructor; [done| |exact Hmono|]; [intros Hb; by eapply wf_commit|].
    intros j Hj. cbn. by rewrite lookup_delete_ne. }
  destruct (Budget_record _ l) as [[[]|e] l1] eqn:Hr; simplify_eq.
  - by apply out_written.
  - by eapply out_failed.
Qed.

Lemma run_op_outcome op b l r b' l' : run_op op (b, l) = (r, (b', l')) -> outcome (op_id op) b l r b' l'.
Proof.
  destruct op; cbn [run_op]; [apply Reserve_outcome|apply Release_outcome|apply Commit_outcome].
Qed.

(** A granted reservation is the hold now in memory, and was written. *)
Lemma Reserve_granted id amount b l b' l' :
  Budget_Reserve id amount (b, l) = (Ok tt, (b', l')) ->
  bd_reserved b' !! id = Some amount /\ Budget_record b' l = (Ok tt, l').
Proof.
  unfold Budget_Reserve. intros E.
  repeat match type of E with
  | (if ?c then _ else _) = _ => destruct c; [by simplify_eq|]
  | (match ?c with Ok _ => _ | Err _ => _ end) = _ => destruct c; [|by simplify_eq]
  end.
  destruct (Budget_record _ l) as [[[]|] l1] eqn:Hr; simplify_eq.
  split; [|done]. cbn. by rewrite lookup_insert_eq.
Qed.

Lemma Commit_granted id b l b' l' :
  Budget_Commit id (b, l) = (Ok tt, (b', l')) ->
  exists amount spent, bd_reserved b !! id = Some amount /\ Money_Add (bd_spent b) amount = Ok spent /\
    b' = set_reserved (set_spent b spent) (delete id (bd_reserved b)) /\
    Budget_record b' l = (Ok tt, l').
Proof.
  unfold Budget_Commit. intros E.
  destruct (bd_reserved b !! id) as [amount|]; [|by simplify_eq].
  destruct (Money_Add (bd_spent b) amount) as [spent|] eqn:Ha; [|by simplify_eq].
  destruct (Money_AtMost spent (bd_total b)) as [[]|]; [|by simplify_eq|by simplify_eq].
  cbn [negb] in E. destruct (Budget_record _ l) as [[[]|] l1] eqn:Hr; simplify_eq.
  exists amount, spent. done.
Qed.

(** ** The invariant of a budget and its ledger *)

(** Whatever the ledger holds is well formed, for the same total, and says at
    least as much is spent as the process believes. *)
Definition world_inv (bl : Budget * L) : Prop :=
  budget_wf bl.1 /\ ledger_Load bl.2 <> Ok None /\
  forall s, ledger_Load bl.2 = Ok (Some s) ->
    state_wf s /\ bs_Total s = bd_total bl.1 /\ mval (bd_spent bl.1) <= mval (bs_Spent s).

Lemma wf_empty total : Money_Validate total = Ok tt -> budget_wf (MkBudget total (Money_Zero total) ∅).
Proof.
  intros Ht. assert (good_amount (mo_Asset total) (Money_Zero total)) as Hz.
  { split; [|done]. apply Money_Validate_inv in Ht as [Ha _]. unfold Money_Validate, Money_Zero.
    cbn [mo_Asset mo_Atomic]. by rewrite Ha. }
  constructor; cbn [bs_Total bs_Spent bs_Reserved budget_state bd_total bd_spent bd_reserved]; try done.
  unfold holds. rewrite map_fold_empty.
  assert (mval (Money_Zero total) = 0) as ->.
  { unfold mval, Money_Int. destruct Hz as [-> _]. done. }
  destruct (good_amount_Int (mo_Asset total) total) as [_ ?]; [by split|lia].
Qed.

Context `{!LedgerLaws L}.

Lemma outcome_inv id b l r b' l' : world_inv (b, l) -> outcome id b l r b' l' -> world_inv (b', l').
Proof.
  intros (Hb & Hn & Hl) Ho. destruct Ho as [r|b1 l' Hr [Ht Hwf Hsp _]|b1 e l' Hr [Ht Hwf Hsp _]].
  - done.
  - apply ledger_record_ok in Hr; [|by apply Hwf]. split; [by apply Hwf|]. cbn. rewrite Hr. split; [done|].
    intros s [= <-]. split; [by apply Hwf|]. split; [done|cbn; lia].
  - apply ledger_record_err in Hr; [|by apply Hwf]. split; [done|]. cbn. split.
    { destruct Hr as [-> | ->]; done. }
    intros s Hs. destruct Hr as [Hr|Hr]; rewrite Hr in Hs; [by apply Hl|].
    injection Hs as <-. split; [by apply Hwf|]. split; [done|]. by apply Hsp.
Qed.

Lemma restart_inv b l b' l' :
  world_inv (b, l) -> OpenBudget (bd_total b) (Some l) = (Ok b', Some l') ->
  world_inv (b', l') /\ bd_total b' = bd_total b /\ mval (bd_spent b) <= mval (bd_spent b').
Proof.
  intros (Hb & Hn & Hl) Ho. unfold OpenBudget in Ho. cbn in Hn, Hl.
  destruct (Money_Validate (bd_total b)) as [[]|] eqn:Hv; [|done].
  destruct (ledger_Load l) as [[s|]|] eqn:Hld; [|done|done].
  destruct (Hl s eq_refl) as (Hs & Hst & Hsp).
  destruct (negb _) eqn:He; [done|]. simplify_eq. cbn.
  split; [|done]. split.
  - destruct Hs as [H1 H2 H3 H4 H5]. rewrite Hst in *. by constructor.
  - cbn. rewrite Hld. split; [done|]. intros s' [= <-]. split_and!; [done|done|lia].
Qed.

Lemma budget_step_inv bl bl' :
  world_inv bl -> budget_step bl bl' ->
  world_inv bl' /\ bd_total bl'.1 = bd_total bl.1 /\ mval (bd_spent bl.1) <= mval (bd_spent bl'.1).
Proof.
  intros Hi Hs. destruct Hs as [op [b l] r [b' l'] Hr|b l b' l' Ho].
  - apply run_op_outcome in Hr. split; [by eapply outcome_inv|]. destruct Hi as [Hb _].
    destruct Hr as [r|b1 l' _ [? ? ? _]|]; cbn; [done| |done]. auto.
  - by eapply restart_inv.
Qed.

Lemma budget_steps_inv bl bl' :
  world_inv bl -> rtc budget_step bl bl' ->
  world_inv bl' /\ bd_total bl'.1 = bd_total bl.1 /\ mval (bd_spent bl.1) <= mval (bd_spent bl'.1).
Proof.
  intros Hi Hs. revert Hi. induction Hs as [bl|bl bl1 bl2 H1 _ IH]; intros Hi; [done|].
  destruct (budget_step_inv _ _ Hi H1) as (Hi1 & Ht1 & Hs1).
  destruct (IH Hi1) as (Hi2 & Ht2 & Hs2). split_and!; [done|congruence|lia].
Qed.

Lemma open_fresh_inv total l b l' :
  ledger_Load l = Ok None -> OpenBudget total (Some l) = (Ok b, Some l') ->
  world_inv (b, l') /\ bd_total b = total.
Proof.
  unfold OpenBudget. intros -> Ho.
  destruct (Money_Validate total) as [[]|] eqn:Hv; [|done].
  destruct (Budget_record _ l) as [[[]|] l1] eqn:Hr; [|done]. simplify_eq.
  pose proof (wf_empty total Hv) as Hwf. apply ledger_record_ok in Hr; [|done].
  split; [|done]. split; [done|]. cbn. rewrite Hr. split; [done|]. intros s [= <-]. by split_and!.
Qed.

End Correctness.

(** ** Properties *)

Section Properties.
  Context {L : Type} `{LedgerLaws L}.

(** C4: the budget is never exceeded, by any interleaving of negotiations,
    refused writes and restarts.  From a budget opened on an empty ledger,
    after any sequence of reservations, releases, commitments and reopenings,
    with every write allowed to fail before or after reaching the medium, what
    is spent plus what is held stays within the total, in memory and in
    whatever the ledger holds. *)
Theorem budget_never_exceeded total l b0 l0 b l' :
  ledger_Load l = Ok None -> OpenBudget total (Some l) = (Ok b0, Some l0) ->
  rtc budget_step (b0, l0) (b, l') ->
  bd_total b = total /\
  mval (bd_spent b) + holds (bd_reserved b) <= mval total /\
  Z.of_nat (size (bd_reserved b)) <= MaxReservations /\
  forall s, ledger_Load l' = Ok (Some s) ->
    bs_Total s = total /\ mval (bs_Spent s) + holds (bs_Reserved s) <= mval total.
Proof.
  intros Hl Ho Hr. destruct (open_fresh_inv _ _ _ _ Hl Ho) as [Hi Ht].
  destruct (budget_steps_inv _ _ Hi Hr) as ((Hb & _ & Hs) & Ht' & _). cbn in *.
  destruct Hb as [_ _ _ Hc Hbd]. cbn in *. rewrite Ht', Ht in *.
  split_and!; [done..|]. intros s Hls. destruct (Hs s Hls) as ([_ _ _ _ Hsb] & Hst & _).
  rewrite Hst in Hsb. done.
Qed.

(** what has been spent stays spent.  No operation, failed write or restart
    lowers the spent amount, so a restart cannot hand the same money out
    again. *)
Theorem budget_spent_monotone bl bl' :
  world_inv bl -> rtc budget_step bl bl' ->
  mval (bd_spent bl.1) <= mval (bd_spent bl'.1) /\ world_inv bl'.
Proof. intros Hi Hr. destruct (budget_steps_inv _ _ Hi Hr) as (? & _ & ?). done. Qed.

(** every operation is all or nothing.  A call that returns no error left
    memory and ledger agreeing or changed nothing; a call that returns an error
    left the budget in memory exactly as it was, and the ledger with either its
    old content or the complete content the call was about to adopt. *)
Theorem budget_op_atomic op b l r b' l' :
  budget_wf b -> run_op op (b, l) = (r, (b', l')) ->
  (r = Ok tt /\ ((b' = b /\ l' = l) \/ ledger_Load l' = Ok (Some (budget_state b')))) \/
  (is_ok r = false /\ b' = b /\
   (ledger_Load l' = ledger_Load l \/
    exists b1, ledger_Load l' = Ok (Some (budget_state b1)) /\ budget_wf b1 /\
      bd_total b1 = bd_total b)).
Proof.
  intros Hb Hr%run_op_outcome. destruct Hr as [r|b1 l' Hr [Ht Hwf Hsp _]|b1 e l' Hr [Ht Hwf Hsp _]].
  - destruct r as [[]|]; [left|right]; auto.
  - left. split; [done|right]. exact (ledger_record_ok _ (budget_state b1) _ (Hwf Hb) Hr).
  - right. split_and!; [done..|].
    destruct (ledger_record_err _ (budget_state b1) _ _ (Hwf Hb) Hr) as [|]; [by left|right].
    exists b1. auto.
Qed.

(** a reservation is granted exactly when it fits.  For a usable identifier
    and a valid amount of the budget's asset, replacing any earlier hold of the
    same negotiation, [Reserve] writes the new hold when spent plus held stays
    within the total, and otherwise refuses and touches neither memory nor
    ledger. *)
Theorem budget_reserve_exact id amount b l :
  budget_wf b -> id <> "" -> slen id <= 128 ->
  good_amount (mo_Asset (bd_total b)) amount ->
  (is_Some (bd_reserved b !! id) \/ Z.of_nat (size (bd_reserved b)) < MaxReservations) ->
  let b1 := set_reserved b (<[id := amount]> (bd_reserved b)) in
  if mval (bd_spent b) + mval amount + holds (delete id (bd_reserved b)) <=? mval (bd_total b)
  then Budget_Reserve id amount (b, l)
       = (match Budget_record b1 l with (Ok _, l') => (Ok tt, (b1, l')) | (Err e, l') => (Err e, (b, l')) end)
  else exists e, Budget_Reserve id amount (b, l) = (Err e, (b, l)).
Proof.
  intros Hb Hid Hlen Ha Hn b1. pose proof Hb as [Ht Hs Hh Hc Hbd]. cbn in *.
  assert (holds (bd_reserved b1) = mval amount + holds (delete id (bd_reserved b))) as Hsum.
  { cbn. rewrite <- insert_delete_eq, holds_insert by apply lookup_delete_eq. done. }
  destruct (committedLocked_exact (mo_Asset (bd_total b)) b1 Hs) as [Hex Hok];
    [cbn; by apply map_Forall_insert_2|].
  unfold Budget_Reserve. rewrite (proj2 (String.eqb_neq _ _)) by done.
  rewrite (proj2 (Z.ltb_ge _ _)) by done. cbn [orb]. rewrite (proj1 Ha).
  unfold Money_SameAsset. rewrite (proj2 (Asset_Same_eq _ _)) by apply Ha. cbn [negb].
  replace (negb (bool_decide (is_Some (bd_reserved b !! id))) && _) with false.
  2:{ symmetry. apply andb_false_iff. destruct Hn as [Hn|]; [left|right; lia].
      by rewrite bool_decide_eq_true_2. }
  fold b1. rewrite (restore_insert b id amount : Budget_restore b1 id (bd_reserved b !! id) = b).
  pose proof (wf_total_good b Hb) as Htg. rewrite Hsum in Hex, Hok. change (bd_spent b1) with (bd_spent b) in *.
  destruct (Z.leb_spec (mval (bd_spent b) + mval amount + holds (delete id (bd_reserved b)))
              (mval (bd_total b))) as [Hle|Hgt].
  - destruct Hok as [c Hcm]; [apply good_amount_Int in Htg as [_ ?]; lia|]. rewrite Hcm.
    destruct (Hex c Hcm) as [Hgc Hvc]. change (bd_total b1) with (bd_total b).
    rewrite (AtMost_good_compute _ _ _ Hgc Htg). rewrite (proj2 (Z.leb_le _ _)) by lia. cbn [negb].
    by destruct (Budget_record b1 l) as [[]].
  - destruct (committedLocked b1) as [c|e] eqn:Hcm; [|eauto].
    destruct (Hex c eq_refl) as [Hgc Hvc]. change (bd_total b1) with (bd_total b).
    rewrite (AtMost_good_compute _ _ _ Hgc Htg). rewrite (proj2 (Z.leb_gt _ _)) by lia. cbn [negb]. eauto.
Qed.

(** a commitment cannot fail for lack of budget.  When a negotiation holds a
    reservation, [Commit] moves exactly that amount from held to spent and
    fails only if the ledger refuses the write: the bound was enforced when the
    hold was taken. *)
Theorem budget_commit_exact id amount b l :
  budget_wf b -> bd_reserved b !! id = Some amount ->
  exists spent, Money_Add (bd_spent b) amount = Ok spent /\
    mval spent = mval (bd_spent b) + mval amount /\
    let b1 := set_reserved (set_spent b spent) (delete id (bd_reserved b)) in
    mval (bd_spent b1) + holds (bd_reserved b1) = mval (bd_spent b) + holds (bd_reserved b) /\
    Budget_Commit id (b, l)
    = (match Budget_record b1 l with (Ok _, l') => (Ok tt, (b1, l')) | (Err e, l') => (Err e, (b, l')) end).
Proof.
  intros Hb Hp. pose proof Hb as [Ht Hs Hh Hc Hbd]. cbn in *. pose proof (Hh _ _ Hp) as Hg.
  pose proof (wf_total_good b Hb) as Htg.
  pose proof (holds_delete _ _ _ Hp) as Hd.
  pose proof (holds_nonneg _ _ (map_Forall_delete _ _ id Hh)) as Hnn.
  destruct (Add_good _ _ _ Hs Hg) as (s & Hadd & Hgs & Hv).
  { apply good_amount_Int in Htg as [_ ?]. lia. }
  exists s. split_and!; [done|done|cbn; lia|].
  unfold Budget_Commit. rewrite Hp, Hadd, (AtMost_good_compute _ _ _ Hgs Htg).
  rewrite (proj2 (Z.leb_le _ _)) by lia. cbn [negb]. rewrite Commit_undo by done.
  by destruct (Budget_record _ l) as [[]].
Qed.

(** what is reported as remaining is exact: the total less what is spent
    and held, never an error and never negative. *)
Theorem budget_remaining_exact b :
  budget_wf b ->
  exists r, Budget_Remaining b = Ok r /\
    mval r = mval (bd_total b) - mval (bd_spent b) - holds (bd_reserved b) /\ 0 <= mval r.
Proof.
  intros Hb. pose proof Hb as [Ht Hs Hh Hc Hbd]. cbn in *.
  pose proof (wf_total_good b Hb) as Htg. destruct (good_amount_Int _ _ Htg) as [Hti Htr].
  destruct (committedLocked_exact _ b Hs Hh) as [Hex Hok]. destruct Hok as [c Hcm]; [lia|].
  destruct (Hex c Hcm) as [Hgc Hv]. destruct (good_amount_Int _ _ Hgc) as [Hci Hcr].
  unfold Budget_Remaining. rewrite Hcm, Hti, Hci. unfold NewMoney.
  rewrite (proj2 (Z.ltb_ge _ _)) by lia.
  apply Money_Validate_inv in Ht as [Ha _].
  pose proof (Money_Int_build (mo_Asset (bd_total b)) (mval (bd_total b) - mval c) Ha ltac:(lia)) as Hi.
  destruct (Money_Int_Ok _ _ Hi) as (Hvd & _). rewrite Hvd. eexists. split; [done|].
  assert (forall m n, Money_Int m = Ok n -> mval m = n) as Hmv by (unfold mval; by intros ? ? ->).
  rewrite (Hmv _ _ Hi). lia.
Qed.

End Properties.

(** ** Witnesses on a scripted ledger *)

Definition sample_total : Money := sample_money 1000.
Definition empty_ledger (script : list write_outcome) : scripted_ledger := MkScripted None script.
Definition sample_budget : Budget := MkBudget sample_total (sample_money 0) ∅.
Definition sample_ledger (script : list write_outcome) : scripted_ledger :=
  MkScripted (Some (budget_state sample_budget)) script.
Definition held_budget : Budget :=
  MkBudget sample_total (sample_money 0) {[ "n1" := sample_money 700 ]}.

Lemma sample_amount_good n :
  Money_Validate (sample_money n) = Ok tt -> good_amount sample_asset (sample_money n).
Proof. by split. Qed.

Lemma sample_budget_wf : budget_wf sample_budget.
Proof. apply (wf_empty sample_total). vm_compute. reflexivity. Qed.

Lemma held_budget_wf : budget_wf held_budget.
Proof.
  constructor; cbn [bs_Total bs_Spent bs_Reserved budget_state held_budget bd_total bd_spent bd_reserved].
  - vm_compute. reflexivity.
  - by apply sample_amount_good.
  - apply map_Forall_singleton. by apply sample_amount_good.
  - rewrite map_size_singleton. unfold MaxReservations. lia.
  - unfold holds. rewrite map_fold_singleton. vm_compute. discriminate.
Qed.

Lemma sample_world_inv script : world_inv (sample_budget, sample_ledger script).
Proof.
  split; [apply sample_budget_wf|]. split; [done|]. intros s [= <-].
  split; [apply sample_budget_wf|]. split; [done|]. cbn. lia.
Qed.

(** The first hold is taken, the second write reaches the medium but reports
    failure, so memory refuses it; the process then restarts. *)
Lemma budget_never_exceeded_witness :
  exists b l', rtc budget_step (sample_budget, sample_ledger [WOk; WFailNew]) (b, l') /\
    bd_reserved b !! "n1" = Some (sample_money 700) /\
    (bd_total b = sample_total /\
     mval (bd_spent b) + holds (bd_reserved b) <= mval sample_total /\
     Z.of_nat (size (bd_reserved b)) <= MaxReservations /\
     forall s, ledger_Load l' = Ok (Some s) ->
       bs_Total s = sample_total /\ mval (bs_Spent s) + holds (bs_Reserved s) <= mval sample_total).
Proof.
  eexists _, _. split; [|split].
  - eapply rtc_l; [eapply step_op with (op := OpReserve "n1" (sample_money 700)); vm_compute; reflexivity|].
    eapply rtc_l; [eapply step_op with (op := OpReserve "n2" (sample_money 300)); vm_compute; reflexivity|].
    eapply rtc_l; [eapply step_restart; vm_compute; reflexivity|]. apply rtc_refl.
  - vm_compute. reflexivity.
  - eapply (budget_never_exceeded sample_total (empty_ledger [WOk; WOk; WFailNew])).
    + reflexivity.
    + vm_compute. reflexivity.
    + eapply rtc_l; [eapply step_op with (op := OpReserve "n1" (sample_money 700)); vm_compute; reflexivity|].
      eapply rtc_l; [eapply step_op with (op := OpReserve "n2" (sample_money 300)); vm_compute; reflexivity|].
      eapply rtc_l; [eapply step_restart; vm_compute; reflexivity|]. apply rtc_refl.
Defined.

Lemma budget_spent_monotone_witness :
  mval (bd_spent sample_budget) <= mval (bd_spent sample_budget) /\
  world_inv (sample_budget, sample_ledger []).
Proof.
  apply (budget_spent_monotone (sample_budget, sample_ledger []) (sample_budget, sample_ledger [])).
  - apply sample_world_inv.
  - eapply rtc_l; [eapply step_op with (op := OpRelease "n1"); vm_compute; reflexivity|]. apply rtc_refl.
Defined.

Lemma budget_op_atomic_witness :
  let r := run_op (OpReserve "n1" (sample_money 700)) (sample_budget, sample_ledger [WFailNew]) in
  (r.1 = Ok tt /\ ((r.2.1 = sample_budget /\ r.2.2 = sample_ledger [WFailNew])
                  \/ ledger_Load r.2.2 = Ok (Some (budget_state r.2.1)))) \/
  (is_ok r.1 = false /\ r.2.1 = sample_budget /\
   (ledger_Load r.2.2 = ledger_Load (sample_ledger [WFailNew]) \/
    exists b1, ledger_Load r.2.2 = Ok (Some (budget_state b1)) /\ budget_wf b1 /\
      bd_total b1 = bd_total sample_budget)).
Proof.
  intros r. apply (budget_op_atomic (OpReserve "n1" (sample_money 700)) sample_budget (sample_ledger [WFailNew])).
  - apply sample_budget_wf.
  - vm_compute. reflexivity.
Defined.

Lemma budget_reserve_exact_witness :
  Budget_Reserve "n1" (sample_money 700) (sample_budget, sample_ledger [])
  = (Ok tt, (held_budget, MkScripted (Some (budget_state held_budget)) [])).
Proof.
  refine (budget_reserve_exact "n1" (sample_money 700) sample_budget (sample_ledger []) _ _ _ _ _).
  - apply sample_budget_wf.
  - discriminate.
  - vm_compute. discriminate.
  - by apply sample_amount_good.
  - right. vm_compute. reflexivity.
Defined.

Lemma budget_commit_exact_witness :
  exists spent, Money_Add (bd_spent held_budget) (sample_money 700) = Ok spent /\
    mval spent = mval (bd_spent held_budget) + mval (sample_money 700) /\
    let b1 := set_reserved (set_spent held_budget spent) (delete "n1" (bd_reserved held_budget)) in
    mval (bd_spent b1) + holds (bd_reserved b1)
      = mval (bd_spent held_budget) + holds (bd_reserved held_budget) /\
    Budget_Commit "n1" (held_budget, sample_ledger [])
    = (match Budget_record b1 (sample_ledger []) with
       | (Ok _, l') => (Ok tt, (b1, l')) | (Err e, l') => (Err e, (held_budget, l')) end).
Proof.
  apply (budget_commit_exact "n1" (sample_money 700) held_budget (sample_ledger [])).
  - apply held_budget_wf.
  - reflexivity.
Defined.

Lemma budget_remaining_exact_witness :
  exists r, Budget_Remaining held_budget = Ok r /\
    mval r = mval (bd_total held_budget) - mval (bd_spent held_budget) - holds (bd_reserved held_budget)
    /\ 0 <= mval r.
Proof. apply (budget_remaining_exact held_budget). apply held_budget_wf. Defined.
