(* ===== verification/Negotiation.v ===== *)
(** * One negotiation under one mandate: [pkg/negotiation/negotiation.go],
    [commitment.go] and [snapshot.go]

    A negotiation is an in-memory object, a snapshot of it in a store and a hold
    in a budget shared with other negotiations.  Every operation of the object is
    modelled whole, with its writes to the store and the budget in the order the
    code makes them, and every write may fail, before or after reaching the
    medium.  The store is an interface like the ledger. *)

From S2P Require Import Prelude Encoding Canon Files Money Terms Budget.

(** ** States *)

Inductive State : Type :=
  | StateDiscussing
  | StateProposalPending
  | StateCounterproposalPending
  | StateIntentAgreed
  | StateCanonicalizationPending
  | StateFinalized
  | StateRejected
  | StateWithdrawn
  | StateExpired.

#[global] Instance State_eq_dec : EqDecision State.
Proof. solve_decision. Defined.

Definition State_string (s : State) : string :=
  match s with
  | StateDiscussing => "discussing"
  | StateProposalPending => "proposal-pending"
  | StateCounterproposalPending => "counterproposal-pending"
  | StateIntentAgreed => "intent-agreed"
  | StateCanonicalizationPending => "canonicalization-pending"
  | StateFinalized => "finalized"
  | StateRejected => "rejected"
  | StateWithdrawn => "withdrawn"
  | StateExpired => "expired"
  end.

Definition all_states : list State :=
  [StateDiscussing; StateProposalPending; StateCounterproposalPending; StateIntentAgreed;
   StateCanonicalizationPending; StateFinalized; StateRejected; StateWithdrawn; StateExpired].

(** The lookup in the [states] map; [None] for a state this build does not know. *)
Definition State_of_string (s : string) : option State :=
  List.find (fun st => String.eqb (State_string st) s) all_states.

(** ** Approvals and verified quotes *)

Record Approval : Type := MkApproval {
  ap_TermsDigest : string;
  ap_Generation : Z;
  ap_MandateDigest : string;
  ap_AtUnix : Z;
}.

(** Of the chain reference only the checkpoint is read here. *)
Record ChainReference : Type := MkChainReference { cr_FinalizedCheckpoint : Z }.

Record VerifiedAcceptedQuote : Type := MkQuote {
  q_Commitment : string;
  q_Terms : Terms;
  q_Reference : option ChainReference;
  q_Network : option NetworkDomain;
  q_FinalizedAtUnix : Z;
}.

Definition validateNetworkDomain (network : option NetworkDomain) : result unit :=
  match network with
  | None => Err (NewError "invalid negotiation network domain")
  | Some n =>
      refuse String.eqb (nd_NetworkId n) "" || (128 <? slen (nd_NetworkId n))
             || negb (HashPattern (nd_GenesisRootHash n)) || negb (HashPattern (nd_GenesisFileHash n))
        with NewError "invalid negotiation network domain";
      Ok tt
  end.

Definition sameNetwork (expected got : option NetworkDomain) : bool :=
  match expected, got with
  | Some e, Some g =>
      String.eqb (nd_NetworkId e) (nd_NetworkId g)
      && String.eqb (nd_GenesisRootHash e) (nd_GenesisRootHash g)
      && String.eqb (nd_GenesisFileHash e) (nd_GenesisFileHash g)
  | _, _ => false
  end.

(** A copy of the three identifying fields, which is all the model keeps. *)
Definition cloneNetwork (network : option NetworkDomain) : option NetworkDomain :=
  match network with
  | None => None
  | Some n => Some (MkNetworkDomain (nd_NetworkId n) (nd_GenesisRootHash n) (nd_GenesisFileHash n))
  end.

Definition Quote_Validate (q : VerifiedAcceptedQuote) : result unit :=
  refuse negb (digestPattern (q_Commitment q)) with NewError "verified quote carries no commitment";
  call Terms_Validate (q_Terms q);
  refuse match q_Reference q with None => true | Some r => cr_FinalizedCheckpoint r =? 0 end
    with NewError "verified quote was not read from finalized state";
  refuse negb (is_ok (validateNetworkDomain (q_Network q)))
    with NewError "verified quote names no network";
  match NetworkFromDomain (q_Network q) with
  | Err _ => Err (NewError "verified quote names no network")
  | Ok read =>
      refuse negb (Network_Same (a_Network (mo_Asset (t_Price (q_Terms q)))) read)
        with NewError "verified quote's terms are priced on a network other than the one it was read from";
      refuse q_FinalizedAtUnix q =? 0 with NewError "verified quote has no finalization time";
      Ok tt
  end.

(** [QuoteResolver.ResolveAcceptedQuote]: implemented by the service protocol, so
    an argument wherever it is used; [None] inside [Ok] is [found] false. *)
Definition QuoteResolver : Type := string -> result (option VerifiedAcceptedQuote).

Definition ErrFinalizedQuoteMismatch : error :=
  Sentinel "the finalized quote does not match the expected purchase".

Definition MatchAcceptedQuote (quote : VerifiedAcceptedQuote) (commitment : string) (expected : Terms)
    (network : option NetworkDomain) : result VerifiedAcceptedQuote :=
  refuse negb (digestPattern commitment) with NewError "invalid commitment digest";
  call Terms_Validate expected;
  call validateNetworkDomain network;
  call Quote_Validate quote;
  refuse negb (String.eqb (q_Commitment quote) commitment)
         || negb (Terms_Equal expected (q_Terms quote)) || negb (sameNetwork network (q_Network quote))
    with ErrFinalizedQuoteMismatch;
  Ok quote.

Definition ResolveMatchingAcceptedQuote (resolver : option QuoteResolver) (commitment : string)
    (expected : Terms) (network : option NetworkDomain) : result VerifiedAcceptedQuote :=
  match resolver with
  | None => Err (NewError "a commitment must be verified against finalized state")
  | Some resolve =>
      refuse negb (digestPattern commitment) with NewError "invalid commitment digest";
      call Terms_Validate expected;
      call validateNetworkDomain network;
      let* found := resolve commitment in
      match found with
      | None => Err (NewError "no Accepted Quote exists under this commitment")
      | Some quote => MatchAcceptedQuote quote commitment expected network
      end
  end.

(** ** The object

    The budget and the store are shared objects; the object keeps whether it
    has a budget ([budget != nil]) and the world below keeps their state. *)

Record Negotiation : Type := MkNegotiation {
  n_ID : string;
  n_ConversationID : string;
  n_CounterpartyAgentID : string;
  n_Mandate : Mandate;
  n_state : State;
  n_generation : Z;
  n_counteroffers : Z;
  n_onTable : option Terms;
  n_agreed : option Terms;
  n_needsApproval : bool;
  n_network : option NetworkDomain;
  n_approval : option Approval;
  n_commitment : string;
  n_quote : option VerifiedAcceptedQuote;
  n_failure : string;
  n_hasBudget : bool;
  n_poisoned : bool;
}.

Definition ErrPoisoned : error :=
  Sentinel "this negotiation's last write failed and it must be reloaded".

(** Assignments to the object's fields. *)
Definition set_state (n : Negotiation) (s : State) : Negotiation :=
  MkNegotiation (n_ID n) (n_ConversationID n) (n_CounterpartyAgentID n) (n_Mandate n) s
    (n_generation n) (n_counteroffers n) (n_onTable n) (n_agreed n) (n_needsApproval n)
    (n_network n) (n_approval n) (n_commitment n) (n_quote n) (n_failure n) (n_hasBudget n) (n_poisoned n).
Definition set_generation (n : Negotiation) (g : Z) : Negotiation :=
  MkNegotiation (n_ID n) (n_ConversationID n) (n_CounterpartyAgentID n) (n_Mandate n) (n_state n)
    g (n_counteroffers n) (n_onTable n) (n_agreed n) (n_needsApproval n)
    (n_network n) (n_approval n) (n_commitment n) (n_quote n) (n_failure n) (n_hasBudget n) (n_poisoned n).
Definition set_counteroffers (n : Negotiation) (c : Z) : Negotiation :=
  MkNegotiation (n_ID n) (n_ConversationID n) (n_CounterpartyAgentID n) (n_Mandate n) (n_state n)
    (n_generation n) c (n_onTable n) (n_agreed n) (n_needsApproval n)
    (n_network n) (n_approval n) (n_commitment n) (n_quote n) (n_failure n) (n_hasBudget n) (n_poisoned n).
Definition set_onTable (n : Negotiation) (t : option Terms) : Negotiation :=
  MkNegotiation (n_ID n) (n_ConversationID n) (n_CounterpartyAgentID n) (n_Mandate n) (n_state n)
    (n_generation n) (n_counteroffers n) t (n_agreed n) (n_needsApproval n)
    (n_network n) (n_approval n) (n_commitment n) (n_quote n) (n_failure n) (n_hasBudget n) (n_poisoned n).
Definition set_agreed (n : Negotiation) (t : option Terms) (needsApproval : bool) : Negotiation :=
  MkNegotiation (n_ID n) (n_ConversationID n) (n_CounterpartyAgentID n) (n_Mandate n) (n_state n)
    (n_generation n) (n_counteroffers n) (n_onTable n) t needsApproval
    (n_network n) (n_approval n) (n_commitment n) (n_quote n) (n_failure n) (n_hasBudget n) (n_poisoned n).
Definition set_approval (n : Negotiation) (a : option Approval) : Negotiation :=
  MkNegotiation (n_ID n) (n_ConversationID n) (n_CounterpartyAgentID n) (n_Mandate n) (n_state n)
    (n_generation n) (n_counteroffers n) (n_onTable n) (n_agreed n) (n_needsApproval n)
    (n_network n) a (n_commitment n) (n_quote n) (n_failure n) (n_hasBudget n) (n_poisoned n).
Definition set_commitment (n : Negotiation) (c : string) (q : option VerifiedAcceptedQuote) : Negotiation :=
  MkNegotiation (n_ID n) (n_ConversationID n) (n_CounterpartyAgentID n) (n_Mandate n) (n_state n)
    (n_generation n) (n_counteroffers n) (n_onTable n) (n_agreed n) (n_needsApproval n)
    (n_network n) (n_approval n) c q (n_failure n) (n_hasBudget n) (n_poisoned n).
Definition set_failure (n : Negotiation) (f : string) : Negotiation :=
  MkNegotiation (n_ID n) (n_ConversationID n) (n_CounterpartyAgentID n) (n_Mandate n) (n_state n)
    (n_generation n) (n_counteroffers n) (n_onTable n) (n_agreed n) (n_needsApproval n)
    (n_network n) (n_approval n) (n_commitment n) (n_quote n) f (n_hasBudget n) (n_poisoned n).
Definition set_poisoned (n : Negotiation) (p : bool) : Negotiation :=
  MkNegotiation (n_ID n) (n_ConversationID n) (n_CounterpartyAgentID n) (n_Mandate n) (n_state n)
    (n_generation n) (n_counteroffers n) (n_onTable n) (n_agreed n) (n_needsApproval n)
    (n_network n) (n_approval n) (n_commitment n) (n_quote n) (n_failure n) (n_hasBudget n) p.

(** ** Snapshots ([snapshot.go]) *)

Definition SnapshotSchema : string := "tos.messaging.negotiation-state.v1".

Record Snapshot : Type := MkSnapshot {
  s_Schema : string;
  s_ID : string;
  s_ConversationID : string;
  s_CounterpartyAgentID : string;
  s_MandateDigest : string;
  s_Network : option NetworkDomain;
  s_State : string;
  s_Generation : Z;
  s_Counteroffers : Z;
  s_NeedsApproval : bool;
  s_OnTable : option Terms;
  s_Agreed : option Terms;
  s_Approval : option Approval;
  s_Commitment : string;
  s_Quote : option VerifiedAcceptedQuote;
  s_Failure : string;
}.

Definition Negotiation_Snapshot (n : Negotiation) : result Snapshot :=
  let* mandateDigest := Mandate_Digest (n_Mandate n) in
  Ok (MkSnapshot SnapshotSchema (n_ID n) (n_ConversationID n) (n_CounterpartyAgentID n) mandateDigest
        (cloneNetwork (n_network n)) (State_string (n_state n)) (n_generation n) (n_counteroffers n)
        (n_needsApproval n) (n_onTable n) (n_agreed n) (n_approval n) (n_commitment n) (n_quote n)
        (n_failure n)).

(** One turn of the loop over the terms a snapshot carries. *)
Definition check_snapshot_terms (bound : Network) (terms : option Terms) : result unit :=
  match terms with
  | None => Ok tt
  | Some t =>
      call Terms_Validate t;
      refuse negb (Network_Same (a_Network (mo_Asset (t_Price t))) bound)
        with NewError "snapshot carries terms priced on a network the negotiation is not bound to";
      Ok tt
  end.

Definition check_finalized (s : Snapshot) (bound : Network) : result unit :=
  refuse String.eqb (s_Commitment s) "" with NewError "a finalized negotiation carries no commitment";
  match s_Quote s with
  | None => Err (NewError "a finalized negotiation carries no quote evidence")
  | Some quote =>
      call Quote_Validate quote;
      refuse negb (String.eqb (q_Commitment quote) (s_Commitment s))
        with NewError "the finalized quote does not match the commitment";
      refuse negb (Network_Same (a_Network (mo_Asset (t_Price (q_Terms quote)))) bound)
        with NewError "the finalized quote is priced on a network the negotiation is not bound to";
      Ok tt
  end.

Definition Snapshot_Validate (s : Snapshot) : result unit :=
  refuse negb (String.eqb (s_Schema s) SnapshotSchema)
    with NewError "unsupported negotiation snapshot schema";
  refuse String.eqb (s_ID s) "" || (128 <? slen (s_ID s)) with NewError "snapshot names no negotiation";
  match State_of_string (s_State s) with
  | None => Err (NewError "snapshot carries a state this build does not know")
  | Some st =>
      refuse String.eqb (s_MandateDigest s) "" with NewError "snapshot names no mandate";
      refuse negb (is_ok (validateNetworkDomain (s_Network s))) with NewError "snapshot names no network";
      match NetworkFromDomain (s_Network s) with
      | Err _ => Err (NewError "snapshot names no network")
      | Ok bound =>
          call check_snapshot_terms bound (s_OnTable s);
          call check_snapshot_terms bound (s_Agreed s);
          refuse match s_Approval s with
                 | Some a => s_Generation s <? ap_Generation a
                 | None => false
                 end with NewError "snapshot carries an approval from a later version of itself";
          if bool_decide (st = StateFinalized) then check_finalized s bound else Ok tt
      end
  end.

(** [hasBudget] and [hasStore] are the nil tests on the pointers passed in. *)
Definition Restore (snapshot : Snapshot) (mandate : Mandate) (hasBudget hasStore : bool)
    : result Negotiation :=
  call Snapshot_Validate snapshot;
  let* digest := Mandate_Digest mandate in
  refuse negb (String.eqb digest (s_MandateDigest snapshot))
    with NewError "this negotiation was authorised by a mandate that no longer stands";
  let* bound := NetworkFromDomain (s_Network snapshot) in
  refuse negb (Network_Same (a_Network (mo_Asset (m_MaxTotal mandate))) bound)
    with NewError "the mandate is priced on a network this negotiation is not bound to";
  refuse String.eqb (m_Authority mandate) AuthorityCommit && negb hasBudget
    with NewError "a mandate that may commit needs a budget to commit against";
  refuse negb hasStore with NewError "a negotiation needs somewhere to survive a restart";
  match State_of_string (s_State snapshot) with
  | None => Err (NewError "snapshot carries a state this build does not know")
  | Some st =>
      Ok (MkNegotiation (s_ID snapshot) (s_ConversationID snapshot) (s_CounterpartyAgentID snapshot)
            mandate st (s_Generation snapshot) (s_Counteroffers snapshot) (s_OnTable snapshot)
            (s_Agreed snapshot) (s_NeedsApproval snapshot) (cloneNetwork (s_Network snapshot))
            (s_Approval snapshot) (s_Commitment snapshot) (s_Quote snapshot) (s_Failure snapshot)
            hasBudget false)
  end.

(** ** The store interface *)

Class Store (S : Type) := {
  store_Save : Snapshot -> action S unit;
}.

(** ** Operations *)

Section Operations.
  Context {L S : Type} {LI : Ledger L} {SI : Store S}.

(** Everything one negotiation acts on. *)
Record world : Type := MkWorld {
  w_n : Negotiation;
  w_b : Budget;
  w_l : L;
  w_s : S;
}.

Definition set_n (w : world) (n : Negotiation) : world := MkWorld n (w_b w) (w_l w) (w_s w).

(** Reading and assigning the receiver's fields. *)
Definition this : action world Negotiation := fun w => (Ok (w_n w), w).
Definition assign (f : Negotiation -> Negotiation) : action world unit :=
  fun w => (Ok tt, set_n w (f (w_n w))).

Definition on_budget (op : action (Budget * L) unit) : action world unit :=
  fun w => let '(r, (b, l)) := op (w_b w, w_l w) in (r, MkWorld (w_n w) b l (w_s w)).

Definition persist : action world unit :=
  fun w =>
  match Negotiation_Snapshot (w_n w) with
  | Err e => (Err e, w)
  | Ok snapshot =>
      match store_Save snapshot (w_s w) with
      | (Err e, s') => (Err e, MkWorld (set_poisoned (w_n w) true) (w_b w) (w_l w) s')
      | (Ok _, s') => (Ok tt, MkWorld (w_n w) (w_b w) (w_l w) s')
      end
  end.

Definition New (id conversationID counterpartyAgentID : string) (mandate : Mandate)
    (network : option NetworkDomain) (hasBudget : bool) (store : option S) (b : Budget) (l : L)
    (now : time) : result world :=
  refuse negb (ids_Conversation conversationID) with NewError "invalid conversation identifier";
  refuse negb (ids_Agent counterpartyAgentID) with NewError "invalid counterparty identifier";
  refuse String.eqb id "" || (128 <? slen id) with NewError "invalid negotiation identifier";
  call validateNetworkDomain network;
  call Mandate_Live mandate now;
  let* bound := NetworkFromDomain network in
  refuse negb (Network_Same (a_Network (mo_Asset (m_MaxTotal mandate))) bound)
    with NewError "the mandate is priced on a network this negotiation is not bound to";
  refuse String.eqb (m_Authority mandate) AuthorityCommit && negb hasBudget
    with NewError "a mandate that may commit needs a budget to commit against";
  match store with
  | None => Err (NewError "a negotiation needs somewhere to survive a restart")
  | Some s =>
      let instance :=
        MkNegotiation id conversationID counterpartyAgentID mandate StateDiscussing 0 0 None None false
          (cloneNetwork network) None "" None "" hasBudget false in
      match persist (MkWorld instance b l s) with
      | (Ok _, w) => Ok w
      | (Err e, _) => Err e
      end
  end.

Definition settled (n : Negotiation) : bool :=
  match n_state n with
  | StateFinalized | StateRejected | StateWithdrawn | StateExpired => true
  | _ => false
  end.

Definition open (n : Negotiation) (now : time) : result unit :=
  refuse n_poisoned n with ErrPoisoned;
  refuse settled n with NewError "this negotiation has already ended";
  refuse bool_decide (n_state n = StateCanonicalizationPending)
    with NewError "this negotiation is being canonicalised";
  refuse bool_decide (n_state n = StateIntentAgreed)
    with NewError "these terms are agreed; reopen the negotiation to change them";
  Mandate_Live (n_Mandate n) now.

Definition bindsCounterparty (n : Negotiation) (terms : Terms) : result unit :=
  refuse negb (String.eqb (t_ProviderAgentID terms) (n_CounterpartyAgentID n))
    with NewError "these terms name a provider that is not the counterparty";
  Ok tt.

Definition bindsNetwork (n : Negotiation) (terms : Terms) : result unit :=
  let* bound := NetworkFromDomain (n_network n) in
  refuse negb (Network_Same (a_Network (mo_Asset (t_Price terms))) bound)
    with NewError "these terms are priced on a network this negotiation is not bound to";
  Ok tt.

Definition n_end (state : State) (reason : string) (n : Negotiation) : Negotiation :=
  set_onTable (set_failure (set_state n state) reason) None.

Definition settle (state : State) (reason : string) : action world unit :=
  assign (n_end state reason) ;;;
  persist ;;;
  n <~ this ;;;
  if n_hasBudget n && negb (bool_decide (state = StateFinalized))
  then on_budget (Budget_Release (n_ID n))
  else act_ret tt.

Definition ReceiveProposal (terms : Terms) (now : time) : action world unit :=
  n <~ this ;;;
  act_lift (open n now) ;;;
  act_lift (Terms_Validate terms) ;;;
  act_lift (bindsCounterparty n terms) ;;;
  act_lift (bindsNetwork n terms) ;;;
  assign (fun n => set_state (set_onTable n (Some terms)) StateProposalPending) ;;;
  persist.

Definition Counter (terms : Terms) (now : time) : action world unit :=
  n <~ this ;;;
  act_lift (open n now) ;;;
  if m_MaxCounteroffers (n_Mandate n) <=? n_counteroffers n
  then settle StateWithdrawn "counteroffer budget exhausted" ;;;
       act_err (NewError "the mandate's counteroffer budget is exhausted")
  else
  act_lift (Mandate_Permits (n_Mandate n) terms now) ;;;
  act_lift (bindsCounterparty n terms) ;;;
  act_lift (bindsNetwork n terms) ;;;
  assign (fun n => set_state (set_counteroffers (set_onTable n (Some terms)) (u32 (n_counteroffers n + 1)))
                     StateCounterproposalPending) ;;;
  persist.

Definition AcceptIntent (now : time) : action world unit :=
  n <~ this ;;;
  refuse_st n_poisoned n with ErrPoisoned;
  act_lift (open n now) ;;;
  match n_onTable n with
  | None => act_err (NewError "there is nothing on the table to accept")
  | Some terms =>
      needsApproval <~ act_lift (Mandate_Permits (n_Mandate n) terms now) ;;;
      (if n_hasBudget n then on_budget (Budget_Reserve (n_ID n) (t_Price terms)) else act_ret tt) ;;;
      assign (fun n => set_state (set_agreed n (Some terms) needsApproval) StateIntentAgreed) ;;;
      persist
  end.

Definition Reopen (reason : string) (now : time) : action world unit :=
  n <~ this ;;;
  refuse_st negb (bool_decide (n_state n = StateIntentAgreed))
    with NewError "only an agreed intent can be reopened";
  act_lift (Mandate_Live (n_Mandate n) now) ;;;
  refuse_st String.eqb reason "" || (512 <? slen reason) with NewError "reopening must say why";
  assign (fun n => set_state (set_generation (set_approval (set_agreed n None false) None)
                                (u64 (n_generation n + 1))) StateDiscussing) ;;;
  persist ;;;
  if n_hasBudget n then on_budget (Budget_Release (n_ID n)) else act_ret tt.

Definition RejectIntent (reason : string) : action world unit :=
  n <~ this ;;;
  refuse_st settled n with NewError "this negotiation has already ended";
  settle StateRejected reason.

Definition Withdraw (reason : string) : action world unit :=
  n <~ this ;;;
  refuse_st settled n with NewError "this negotiation has already ended";
  settle StateWithdrawn reason.

Definition ApproveByOwner (termsDigest : string) (now : time) : action world unit :=
  n <~ this ;;;
  refuse_st negb (bool_decide (n_state n = StateIntentAgreed))
    with NewError "there is no agreed intent to approve";
  act_lift (Mandate_Live (n_Mandate n) now) ;;;
  refuse_st negb (n_needsApproval n)
    with NewError "these terms are inside what the owner already permitted";
  match n_agreed n with
  | None => act_err (NewError "there are no agreed terms to approve")
  | Some agreed =>
      current <~ act_lift (Terms_Digest agreed) ;;;
      refuse_st negb (String.eqb termsDigest current)
        with NewError "the owner approved terms other than the ones on the table";
      mandateDigest <~ act_lift (Mandate_Digest (n_Mandate n)) ;;;
      assign (fun n => set_approval n (Some (MkApproval current (n_generation n) mandateDigest now))) ;;;
      persist
  end.

Definition DenyByOwner (reason : string) : action world unit :=
  n <~ this ;;;
  refuse_st negb (bool_decide (n_state n = StateIntentAgreed))
    with NewError "there is no agreed intent to refuse";
  settle StateRejected reason.

Definition approvalStands (n : Negotiation) : result unit :=
  match n_approval n with
  | None => Err (NewError "these terms need the owner's decision first")
  | Some approval =>
      match n_agreed n with
      | None => Err (NewError "there are no agreed terms to act on")
      | Some agreed =>
          let* current := Terms_Digest agreed in
          refuse negb (String.eqb (ap_TermsDigest approval) current)
            with NewError "the terms changed after the owner approved them";
          refuse negb (ap_Generation approval =? n_generation n)
            with NewError "this negotiation was reopened after the owner approved it";
          let* mandateDigest := Mandate_Digest (n_Mandate n) in
          refuse negb (String.eqb (ap_MandateDigest approval) mandateDigest)
            with NewError "the mandate changed after the owner approved these terms";
          Ok tt
      end
  end.

Definition BeginCanonicalization (now : time) : action world unit :=
  n <~ this ;;;
  refuse_st n_poisoned n with ErrPoisoned;
  refuse_st negb (bool_decide (n_state n = StateIntentAgreed))
    with NewError "only an agreed intent can be canonicalised";
  refuse_st negb (String.eqb (m_Authority (n_Mandate n)) AuthorityCommit)
    with NewError "only a mandate that may commit can canonicalise terms";
  refuse_st negb (n_hasBudget n) with NewError "canonicalisation needs a budget to commit against";
  act_lift (Mandate_Live (n_Mandate n) now) ;;;
  (if n_needsApproval n then act_lift (approvalStands n) else act_ret tt) ;;;
  assign (fun n => set_state n StateCanonicalizationPending) ;;;
  persist.

(** Whether it ended the negotiation, beside the error of ending it. *)
Definition Expire (now : time) : world -> bool * result unit * world :=
  fun w =>
  let n := w_n w in
  if settled n then (false, Ok tt, w) else
  let reason :=
    match Mandate_Live (n_Mandate n) now with
    | Err _ => "the mandate expired"
    | Ok _ =>
        match n_agreed n with
        | Some agreed => if t_NotAfterUnix agreed <=? now then "the agreed terms expired" else ""
        | None => ""
        end
    end in
  if String.eqb reason "" then (false, Ok tt, w) else
  let '(r, w') := settle StateExpired reason w in (true, r, w').

Definition Finalize (resolver : option QuoteResolver) (commitment : string) (now : time)
    : action world unit :=
  n <~ this ;;;
  refuse_st n_poisoned n with ErrPoisoned;
  refuse_st negb (bool_decide (n_state n = StateCanonicalizationPending))
    with NewError "nothing is being canonicalised";
  refuse_st negb (bool_decide (is_Some resolver))
    with NewError "a commitment must be verified against finalized state";
  refuse_st negb (String.eqb (m_Authority (n_Mandate n)) AuthorityCommit)
    with NewError "only a mandate that may commit can finalize";
  refuse_st negb (n_hasBudget n) with NewError "finalizing needs a budget to commit against";
  match Mandate_Live (n_Mandate n) now with
  | Err e => settle StateExpired "the mandate expired before the commitment existed" ;;; act_err e
  | Ok _ =>
  refuse_st negb (digestPattern commitment) with NewError "invalid commitment digest";
  match n_agreed n with
  | None => act_err (NewError "canonicalization has no agreed terms")
  | Some agreed =>
  match ResolveMatchingAcceptedQuote resolver commitment agreed (n_network n) with
  | Err e =>
      if bool_decide (e = ErrFinalizedQuoteMismatch)
      then settle StateRejected "the finalized quote does not match what was agreed" ;;;
           act_err ErrFinalizedQuoteMismatch
      else act_err e
  | Ok quote =>
  (if n_needsApproval n then act_lift (approvalStands n) else act_ret tt) ;;;
  match Mandate_PermitsCommit (n_Mandate n) (q_Terms quote) now with
  | Err e => settle StateRejected "the finalized quote falls outside the mandate" ;;; act_err e
  | Ok _ =>
      assign (fun n => set_state (set_commitment n commitment (Some quote)) StateFinalized) ;;;
      persist ;;;
      if n_hasBudget n then on_budget (Budget_Commit (n_ID n)) else act_ret tt
  end end end end.

(** ** Queries *)

Definition Agreed (n : Negotiation) : option Terms := n_agreed n.
Definition Committed (n : Negotiation) : option string :=
  if negb (bool_decide (n_state n = StateFinalized)) || String.eqb (n_commitment n) ""
  then None else Some (n_commitment n).
Definition ActiveAgreement (n : Negotiation) : bool := bool_decide (is_Some (Committed n)).
Definition Quote (n : Negotiation) : option VerifiedAcceptedQuote :=
  if negb (bool_decide (n_state n = StateFinalized)) then None else n_quote n.

(** ** Operations as steps *)

Inductive neg_op : Type :=
  | OpReceiveProposal (terms : Terms) (now : time)
  | OpCounter (terms : Terms) (now : time)
  | OpAcceptIntent (now : time)
  | OpReopen (reason : string) (now : time)
  | OpRejectIntent (reason : string)
  | OpWithdraw (reason : string)
  | OpApproveByOwner (termsDigest : string) (now : time)
  | OpDenyByOwner (reason : string)
  | OpBeginCanonicalization (now : time)
  | OpExpire (now : time)
  | OpFinalize (resolver : option QuoteResolver) (commitment : string) (now : time).

Definition run_neg (op : neg_op) : action world unit :=
  match op with
  | OpReceiveProposal t now => ReceiveProposal t now
  | OpCounter t now => Counter t now
  | OpAcceptIntent now => AcceptIntent now
  | OpReopen r now => Reopen r now
  | OpRejectIntent r => RejectIntent r
  | OpWithdraw r => Withdraw r
  | OpApproveByOwner d now => ApproveByOwner d now
  | OpDenyByOwner r => DenyByOwner r
  | OpBeginCanonicalization now => BeginCanonicalization now
  | OpExpire now => fun w => let '(_, r, w') := Expire now w in (r, w')
  | OpFinalize res c now => Finalize res c now
  end.

End Operations.

Arguments world : clear implicits.

(** ** Running an operation *)

Section Running.
  Context {L S : Type} {LI : Ledger L} {SI : Store S}.
  Implicit Types w : world L S.

Lemma bind_this {A} (k : Negotiation -> action (world L S) A) w :
  act_bind this k w = k (w_n w) w.
Proof. done. Qed.
Lemma bind_lift {A B} (r : result A) (k : A -> action (world L S) B) w :
  act_bind (act_lift r) k w = match r with Ok a => k a w | Err e => (Err e, w) end.
Proof. unfold act_bind, act_lift. by destruct r. Qed.
Lemma bind_assign {A} f (k : unit -> action (world L S) A) w :
  act_bind (assign f) k w = k tt (set_n w (f (w_n w))).
Proof. done. Qed.
Lemma bind_ret {A B} (a : A) (k : A -> action (world L S) B) w :
  act_bind (act_ret a) k w = k a w.
Proof. done. Qed.
Lemma bind_err {A B} e (k : A -> action (world L S) B) w :
  act_bind (act_err e) k w = (Err e, w).
Proof. done. Qed.

(** What [persist] may do to the object: nothing, or poison it. *)
Definition same_n (n n' : Negotiation) : Prop := n' = n \/ n' = set_poisoned n true.

Lemma persist_n w r w' :
  persist w = (r, w') -> same_n (w_n w) (w_n w') /\ w_b w' = w_b w /\ w_l w' = w_l w.
Proof.
  unfold persist, same_n. destruct (Negotiation_Snapshot (w_n w)) as [snap|]; [|intros; simplify_eq; auto].
  destruct (store_Save snap (w_s w)) as [[]]; intros; simplify_eq; cbn; auto.
Qed.

Lemma on_budget_n op w r w' : on_budget op w = (r, w') -> w_n w' = w_n w /\ w_s w' = w_s w.
Proof.
  unfold on_budget. destruct (op (w_b w, w_l w)) as [r0 [b l]]. intros; simplify_eq; done.
Qed.

Lemma settle_n st reason w r w' :
  settle st reason w = (r, w') -> same_n (n_end st reason (w_n w)) (w_n w').
Proof.
  unfold settle. rewrite bind_assign. unfold act_bind at 1.
  destruct (persist (set_n w _)) as [[[]|e] w1] eqn:Hp; apply persist_n in Hp as [Hn _]; cbn [w_n set_n] in Hn.
  - rewrite bind_this. destruct (_ && _); intros Hb.
    + by apply on_budget_n in Hb as [-> _].
    + by injection Hb as <- <-.
  - intros [= <- <-]. done.
Qed.

Lemma settle_err_n st reason e w (r : result unit) w' :
  act_bind (settle st reason) (fun _ => act_err e) w = (r, w') ->
  same_n (n_end st reason (w_n w)) (w_n w').
Proof.
  unfold act_bind. destruct (settle st reason w) as [[]] eqn:Hs; intros [= <- <-];
    by apply settle_n in Hs.
Qed.

End Running.

(** ** What every reachable negotiation satisfies *)

(** Terms this negotiation could be about. *)
Definition binds (n : Negotiation) (t : Terms) : Prop :=
  Terms_Validate t = Ok tt /\ t_ProviderAgentID t = n_CounterpartyAgentID n /\
  NetworkFromDomain (n_network n) = Ok (a_Network (mo_Asset (t_Price t))).

(** Agreed terms were permitted when they were agreed, and the flag says
    whether they are above the owner's approval point. *)
Definition agreed_under (n : Negotiation) (t : Terms) : Prop :=
  exists now x a, admits (n_Mandate n) t now false x /\
    Money_Int (m_ApprovalAbove (n_Mandate n)) = Ok a /\ n_needsApproval n = (a <? x).

Definition talking (s : State) : Prop :=
  s = StateDiscussing \/ s = StateProposalPending \/ s = StateCounterproposalPending.
Definition committing (s : State) : Prop := s = StateCanonicalizationPending \/ s = StateFinalized.

Record neg_ok (n : Negotiation) : Prop := {
  ok_id : n_ID n <> "" /\ slen (n_ID n) <= 128;
  ok_mandate : Mandate_Validate (n_Mandate n) = Ok tt /\ Mandate_typed (n_Mandate n);
  ok_network : NetworkFromDomain (n_network n) = Ok (a_Network (mo_Asset (m_MaxTotal (n_Mandate n))));
  ok_budgeted : m_Authority (n_Mandate n) = AuthorityCommit -> n_hasBudget n = true;
  ok_counter : 0 <= n_counteroffers n <= m_MaxCounteroffers (n_Mandate n);
  ok_table : forall t, n_onTable n = Some t -> binds n t;
  ok_agreed : forall t, n_agreed n = Some t -> binds n t /\ agreed_under n t;
  ok_talking : talking (n_state n) -> n_agreed n = None /\ n_approval n = None;
  ok_agreed_state : n_state n = StateIntentAgreed \/ committing (n_state n) -> is_Some (n_agreed n);
  ok_approval : forall a, n_approval n = Some a -> n_needsApproval n = true /\
      ap_Generation a = n_generation n /\ Mandate_Digest (n_Mandate n) = Ok (ap_MandateDigest a) /\
      exists t, n_agreed n = Some t /\ Terms_Digest t = Ok (ap_TermsDigest a);
  ok_committing : committing (n_state n) ->
      m_Authority (n_Mandate n) = AuthorityCommit /\ n_hasBudget n = true /\
      (n_needsApproval n = true -> is_Some (n_approval n));
  ok_finalized : n_state n = StateFinalized -> exists q,
      n_quote n = Some q /\ n_commitment n = q_Commitment q /\ n_agreed n = Some (q_Terms q) /\
      Quote_Validate q = Ok tt /\ sameNetwork (n_network n) (q_Network q) = true /\
      exists now x, admits (n_Mandate n) (q_Terms q) now true x;
}.

Lemma neg_ok_poisoned n p : neg_ok n -> neg_ok (set_poisoned n p).
Proof. intros []. by constructor. Qed.

Lemma same_n_ok n n' : same_n n n' -> neg_ok n -> neg_ok n'.
Proof. intros [->| ->]; auto using neg_ok_poisoned. Qed.

(** Ending a negotiation keeps the invariant, unless it ends as finalized. *)
Lemma neg_ok_end n st reason :
  st = StateRejected \/ st = StateWithdrawn \/ st = StateExpired ->
  neg_ok n -> neg_ok (n_end st reason n).
Proof.
  intros Hst []. constructor; cbn; try done; unfold talking, committing; intros Hs; exfalso;
    destruct Hst as [->|[->| ->]]; intuition discriminate.
Qed.

Lemma bindsNetwork_Ok n t :
  bindsNetwork n t = Ok tt -> NetworkFromDomain (n_network n) = Ok (a_Network (mo_Asset (t_Price t))).
Proof.
  unfold bindsNetwork. intros H. inv_ok H. breflect.
  match goal with H : Network_Same _ _ = true |- _ => apply Network_Same_eq in H as -> end. done.
Qed.

Lemma bindsCounterparty_Ok n t :
  bindsCounterparty n t = Ok tt -> t_ProviderAgentID t = n_CounterpartyAgentID n.
Proof. unfold bindsCounterparty. intros H. inv_ok H. by breflect. Qed.

Lemma open_Ok n now :
  open n now = Ok tt ->
  n_poisoned n = false /\ talking (n_state n) /\ Mandate_Live (n_Mandate n) now = Ok tt.
Proof.
  unfold open, settled, talking. intros H. inv_ok H. breflect.
  split; [done|]. split; [|done]. destruct (n_state n); auto; discriminate || done.
Qed.

(** [act H] runs the operation of [H] up to its next effect, one goal per way
    it can stop; the ways that leave the world as it was are closed. *)
Ltac act_step H :=
  lazymatch type of H with
  | act_bind this _ _ = _ => rewrite bind_this in H
  | act_bind (act_lift ?r) _ _ = _ =>
      rewrite bind_lift in H;
      let E := fresh "E" in destruct r as [?|?] eqn:E; [|injection H as <- <-]
  | act_bind (assign _) _ _ = _ => rewrite bind_assign in H
  | act_bind (act_ret _) _ _ = _ => rewrite bind_ret in H
  | act_bind (act_err _) _ _ = _ => rewrite bind_err in H
  | act_bind (if ?b then _ else _) _ _ = _ => let E := fresh "E" in destruct b eqn:E
  | act_err _ _ = _ => injection H as <- <-
  | act_ret _ _ = _ => injection H as <- <-
  | (if ?b then _ else _) _ = _ => let E := fresh "E" in destruct b eqn:E
  | (match ?c with Some _ => _ | None => _ end) _ = _ =>
      let E := fresh "E" in destruct c as [?|] eqn:E
  | (match ?c with Ok _ => _ | Err _ => _ end) _ = _ =>
      let E := fresh "E" in destruct c as [?|?] eqn:E
  end; try (cbv beta in H).
Ltac act H := cbv beta in H; repeat (act_step H; try assumption).

(** ** Each transition keeps the invariant *)

(** Putting terms on the table while talking. *)
Lemma neg_ok_offer n t st c :
  neg_ok n -> talking (n_state n) -> talking st -> binds n t ->
  0 <= c <= m_MaxCounteroffers (n_Mandate n) ->
  neg_ok (set_state (set_counteroffers (set_onTable n (Some t)) c) st).
Proof.
  intros [] Ht Hst Hb Hc. destruct (ok_talking0 Ht) as [Ha Hp].
  constructor; cbn; try done; unfold talking, committing in *.
  - by intros t' [= <-].
  - intros Hs. exfalso. intuition congruence.
  - intros Hs. exfalso. intuition congruence.
  - intros Hs. exfalso. intuition congruence.
Qed.

Lemma neg_ok_agree n t b now :
  neg_ok n -> talking (n_state n) -> n_onTable n = Some t ->
  Mandate_Permits (n_Mandate n) t now = Ok b ->
  neg_ok (set_state (set_agreed n (Some t) b) StateIntentAgreed).
Proof.
  intros [] Ht Hon (x & a & Had & Ha & ->)%Mandate_permits_admits.
  destruct (ok_talking0 Ht) as [_ Hp].
  constructor; cbn; try done; unfold talking, committing in *.
  - intros t' [= <-]. split; [by apply ok_table0|]. by exists now, x, a.
  - intros Hs. exfalso. intuition congruence.
  - intros ap Hap. congruence.
  - intros Hs. exfalso. intuition congruence.
Qed.

Lemma neg_ok_reopen n g :
  neg_ok n ->
  neg_ok (set_state (set_generation (set_approval (set_agreed n None false) None) g) StateDiscussing).
Proof.
  intros []. constructor; cbn; try done; unfold talking, committing; intros Hs; exfalso;
    intuition discriminate.
Qed.

Lemma neg_ok_approve n t d md now :
  neg_ok n -> n_state n = StateIntentAgreed -> n_needsApproval n = true -> n_agreed n = Some t ->
  Terms_Digest t = Ok d -> Mandate_Digest (n_Mandate n) = Ok md ->
  neg_ok (set_approval n (Some (MkApproval d (n_generation n) md now))).
Proof.
  intros [] Hst Hn Ha Hd Hm. constructor; cbn; try done.
  - rewrite Hst. unfold talking. intros Hs. exfalso. intuition discriminate.
  - intros ap [= <-]. cbn. split_and!; [done..|]. by exists t.
  - rewrite Hst. unfold committing. intros Hs. exfalso. intuition discriminate.
Qed.

Lemma approvalStands_Ok n : approvalStands n = Ok tt -> is_Some (n_approval n).
Proof. unfold approvalStands. destruct (n_approval n); [eauto|done]. Qed.

Lemma neg_ok_canonicalise n :
  neg_ok n -> n_state n = StateIntentAgreed -> m_Authority (n_Mandate n) = AuthorityCommit ->
  n_hasBudget n = true -> (n_needsApproval n = true -> is_Some (n_approval n)) ->
  neg_ok (set_state n StateCanonicalizationPending).
Proof.
  intros [] Hst Hauth Hb Hap. constructor; cbn; try done.
  - unfold talking. intros Hs. exfalso. intuition discriminate.
  - intros _. apply ok_agreed_state0. auto.
Qed.

(** What the resolver step establishes about the quote it returns. *)
Lemma ResolveMatching_Ok resolver c t net q :
  ResolveMatchingAcceptedQuote resolver c t net = Ok q ->
  q_Commitment q = c /\ q_Terms q = t /\ Quote_Validate q = Ok tt /\
  sameNetwork net (q_Network q) = true /\
  exists resolve, resolver = Some resolve /\ resolve c = Ok (Some q).
Proof.
  unfold ResolveMatchingAcceptedQuote, MatchAcceptedQuote. intros H.
  destruct resolver as [resolve|]; [|done]. inv_ok H.
  match goal with o : option VerifiedAcceptedQuote |- _ => destruct o; [|done] end.
  inv_ok H. simplify_eq. breflect. split_and!; try done.
  - symmetry. by apply Terms_Equal_eq.
  - match goal with E : Quote_Validate _ = Ok ?u |- _ => by destruct u end.
  - eauto.
Qed.

Lemma neg_ok_finalize n c q t now b :
  neg_ok n -> n_state n = StateCanonicalizationPending -> n_agreed n = Some t ->
  q_Commitment q = c -> q_Terms q = t -> Quote_Validate q = Ok tt ->
  sameNetwork (n_network n) (q_Network q) = true ->
  Mandate_PermitsCommit (n_Mandate n) (q_Terms q) now = Ok b ->
  neg_ok (set_state (set_commitment n c (Some q)) StateFinalized).
Proof.
  intros [] Hst Ha Hc Ht Hv Hnet (x & a & Had & _)%Mandate_permits_admits.
  unfold committing in *. rewrite Hst in *. constructor; cbn; try done; unfold talking.
  - intros Hs. exfalso. intuition discriminate.
  - intros _. apply ok_committing0. auto.
  - intros _. exists q. split_and!; [done..|by rewrite Ht|done|done|eauto].
Qed.

(** ** What a store promises

    [store_saved] is what a reader of the store would find under an identifier.
    A write that succeeded is found; one that failed left what was there or the
    whole new snapshot; other identifiers are untouched either way, short of a
    SHA-256 collision, because a store may name its records by a digest. *)
Class StoreLaws (S : Type) `{Store S} := {
  store_saved : S -> string -> option Snapshot;
  store_save_ok s snap s' :
    store_Save snap s = (Ok tt, s') -> store_saved s' (s_ID snap) = Some snap;
  store_save_err s snap e s' :
    store_Save snap s = (Err e, s') ->
    store_saved s' (s_ID snap) = store_saved s (s_ID snap) \/ store_saved s' (s_ID snap) = Some snap;
  store_save_other s snap r s' id :
    store_Save snap s = (r, s') -> id <> s_ID snap ->
    store_saved s' id = store_saved s id \/ sha256_collision;
}.

(** ** A negotiation among others

    One operation of this negotiation; a budget operation or a saved snapshot
    of another one sharing the budget and the store; or the process ending and
    everything being rebuilt from what was written, under whatever mandate is
    supplied then.  A crash in the middle of an operation is that operation with
    its interrupted write failing, followed by a restart. *)
Section System.
  Context {L S : Type} {LI : Ledger L} {SI : Store S} {LL : LedgerLaws L} {SL : StoreLaws S}.
  Implicit Types w : world L S.

Inductive neg_step : world L S -> world L S -> Prop :=
  | ns_op op w r w' : run_neg op w = (r, w') -> neg_step w w'
  | ns_other_budget op w r b' l' :
      op_id op <> n_ID (w_n w) -> run_op op (w_b w, w_l w) = (r, (b', l')) ->
      neg_step w (MkWorld (w_n w) b' l' (w_s w))
  | ns_other_save snap w r s' :
      s_ID snap <> n_ID (w_n w) -> store_Save snap (w_s w) = (r, s') ->
      neg_step w (MkWorld (w_n w) (w_b w) (w_l w) s')
  | ns_restart w snap mandate n' b' l' :
      store_saved (w_s w) (n_ID (w_n w)) = Some snap -> Mandate_typed mandate ->
      Restore snap mandate (n_hasBudget (w_n w)) true = Ok n' ->
      OpenBudget (bd_total (w_b w)) (Some (w_l w)) = (Ok b', Some l') ->
      neg_step w (MkWorld n' b' l' (w_s w)).

(** ** Snapshots determine the object *)

Lemma State_of_string_of st : State_of_string (State_string st) = Some st.
Proof. by destruct st. Qed.

Lemma State_string_inj s s' : State_string s = State_string s' -> s = s'.
Proof. intros H. apply (f_equal State_of_string) in H. rewrite !State_of_string_of in H. by injection H. Qed.

Lemma cloneNetwork_id net : cloneNetwork net = net.
Proof. by destruct net as [[]|]. Qed.

Definition same_identity (n n0 : Negotiation) : Prop :=
  n_ID n0 = n_ID n /\ n_Mandate n0 = n_Mandate n /\ n_hasBudget n0 = n_hasBudget n.

Lemma Snapshot_inj n n0 snap :
  Negotiation_Snapshot n = Ok snap -> Negotiation_Snapshot n0 = Ok snap -> same_identity n n0 ->
  n0 = set_poisoned n (n_poisoned n0).
Proof.
  unfold Negotiation_Snapshot. intros H1 H2 (_ & Hm & Hb). inv_ok H1. inv_ok H2.
  rewrite !cloneNetwork_id in *. apply Ok_inj in H1, H2. rewrite <- H1 in H2.
  injection H2 as ?? ? ? ? Hst ?????????. apply State_string_inj in Hst.
  destruct n, n0; cbn in *. by subst.
Qed.

Lemma Restore_Snapshot n snap mandate hb n' :
  Negotiation_Snapshot n = Ok snap -> Restore snap mandate hb true = Ok n' ->
  Mandate_typed (n_Mandate n) -> Mandate_typed mandate -> hb = n_hasBudget n ->
  n' = set_poisoned n false \/ sha256_collision.
Proof.
  unfold Negotiation_Snapshot, Restore. intros Hs Hr Ht Ht' ->. inv_ok Hs. apply Ok_inj in Hs. subst snap.
  cbn [s_State s_MandateDigest s_ID s_ConversationID s_CounterpartyAgentID s_Network s_Generation
    s_Counteroffers s_OnTable s_Agreed s_NeedsApproval s_Approval s_Commitment s_Quote s_Failure] in Hr.
  rewrite State_of_string_of, !cloneNetwork_id in Hr. inv_ok Hr. breflect. subst.
  match goal with H : Mandate_Digest mandate = Ok ?d, H' : Mandate_Digest (n_Mandate n) = Ok ?d |- _ =>
    destruct (Mandate_Digest_inj _ _ _ Ht' Ht H H') as [->|]; [left|by right] end.
  injection Hr as <-. by destruct n.
Qed.

(** ** The invariant of a negotiation, its budget and its store *)

Definition agreedish (n : Negotiation) : Prop :=
  n_state n = StateIntentAgreed \/ n_state n = StateCanonicalizationPending.

Definition disk_hold (l : L) (id : string) (p : Money) : Prop :=
  forall st, ledger_Load l = Ok (Some st) -> bs_Reserved st !! id = Some p.

(** An agreed negotiation with a budget is backed by its hold, in memory and in
    the ledger. *)
Definition hold_backed (b : Budget) (l : L) (n : Negotiation) : Prop :=
  n_hasBudget n = true -> agreedish n -> forall t, n_agreed n = Some t ->
  bd_reserved b !! n_ID n = Some (t_Price t) /\ disk_hold l (n_ID n) (t_Price t).

Record full_inv w : Prop := {
  fi_ok : neg_ok (w_n w);
  fi_budget : world_inv (w_b w, w_l w);
  fi_backed : hold_backed (w_b w) (w_l w) (w_n w);
  fi_saved : forall snap, store_saved (w_s w) (n_ID (w_n w)) = Some snap ->
      exists n0, neg_ok n0 /\ Negotiation_Snapshot n0 = Ok snap /\ same_identity (w_n w) n0 /\
        hold_backed (w_b w) (w_l w) n0;
  fi_clean : n_poisoned (w_n w) = false ->
      exists snap, Negotiation_Snapshot (w_n w) = Ok snap /\
        store_saved (w_s w) (n_ID (w_n w)) = Some snap;
}.

Lemma hold_backed_poisoned b l n p : hold_backed b l n -> hold_backed b l (set_poisoned n p).
Proof. done. Qed.

Lemma Snapshot_valid n :
  Mandate_Validate (n_Mandate n) = Ok tt -> Mandate_typed (n_Mandate n) ->
  exists snap, Negotiation_Snapshot n = Ok snap.
Proof.
  intros Hv Ht. unfold Negotiation_Snapshot. rewrite Mandate_Digest_ok by done. eauto.
Qed.

Lemma Snapshot_ID n snap : Negotiation_Snapshot n = Ok snap -> s_ID snap = n_ID n.
Proof. unfold Negotiation_Snapshot. intros H. inv_ok H. apply Ok_inj in H. by subst. Qed.

(** Writing a new state [n1] of the object. *)
Lemma persist_inv w n1 r w' :
  full_inv w -> neg_ok n1 -> same_identity (w_n w) n1 -> n_poisoned n1 = n_poisoned (w_n w) ->
  hold_backed (w_b w) (w_l w) n1 -> persist (set_n w n1) = (r, w') ->
  full_inv w' /\ (r = Ok tt -> w_n w' = n1 /\
    exists snap, Negotiation_Snapshot n1 = Ok snap /\ store_saved (w_s w') (n_ID n1) = Some snap).
Proof.
  intros [Hok Hbd Hbk Hsv Hcl] Hok1 (Hid & Hm & Hhb) Hpo Hbk1 Hp. unfold persist in Hp. cbn [w_n set_n w_s w_b w_l] in Hp.
  destruct (Snapshot_valid n1) as [snap Hsnap]; [apply Hok1..|]. rewrite Hsnap in Hp.
  pose proof (Snapshot_ID _ _ Hsnap) as Hsid.
  destruct (store_Save snap (w_s w)) as [[[]|e] s'] eqn:Hsave; simplify_eq.
  - apply store_save_ok in Hsave. rewrite Hsid in Hsave. split; [|intros _; split; [done|by exists snap]].
    constructor; cbn; [done..| |intros _; by exists snap].
    intros snap' Hs'. exists n1. rewrite Hsave in Hs'. simplify_eq. done.
  - apply store_save_err in Hsave. rewrite Hsid, Hid in Hsave. split; [|done].
    constructor; cbn; [by apply neg_ok_poisoned|done|done| |done].
    rewrite Hid. intros snap' Hs'. destruct Hsave as [Hsave|Hsave]; rewrite Hsave in Hs'.
    + destruct (Hsv _ Hs') as (n0 & ? & ? & (?&?&?) & ?). exists n0.
      split_and!; [done..|split_and!; cbn; congruence|done].
    + simplify_eq. exists n1. done.
Qed.

(** A budget operation on this negotiation's own hold, when neither the object
    nor its snapshot relies on it. *)
Lemma own_budget_inv w op r b' l' :
  full_inv w -> ~ agreedish (w_n w) ->
  (exists n1 snap, Negotiation_Snapshot n1 = Ok snap /\ ~ agreedish n1 /\ same_identity (w_n w) n1 /\
     store_saved (w_s w) (n_ID (w_n w)) = Some snap) ->
  run_op op (w_b w, w_l w) = (r, (b', l')) ->
  full_inv (MkWorld (w_n w) b' l' (w_s w)).
Proof.
  intros [Hok Hbd Hbk Hsv Hcl] Hna (n1 & snap & Hs1 & Hna1 & Hi1 & Hsaved) Hr%run_op_outcome.
  constructor; cbn; [done|by eapply outcome_inv| | |done].
  - intros _ Ha. done.
  - intros snap' Hs'. destruct (Hsv _ Hs') as (n0 & Hok0 & Hs0 & Hi0 & _). exists n0.
    split_and!; [done..|]. intros _ Ha. exfalso. apply Hna1.
    rewrite Hsaved in Hs'. simplify_eq. rewrite (Snapshot_inj n1 n0 snap' Hs1 Hs0) in Ha; [exact Ha|].
    destruct Hi1 as (?&?&?), Hi0 as (?&?&?). repeat split; congruence.
Qed.

Lemma next_budget_backed id b b1 l l' n :
  n_ID n <> id -> hold_backed b l n -> next_budget id b b1 ->
  (ledger_Load l' = ledger_Load l \/ ledger_Load l' = Ok (Some (budget_state b1))) ->
  hold_backed b1 l' n /\ hold_backed b l' n.
Proof.
  intros Hid Hbk [_ _ _ Hother] Hl. pose proof (Hother (n_ID n) Hid) as Hsame.
  assert (forall t, bd_reserved b !! n_ID n = Some (t_Price t) -> disk_hold l (n_ID n) (t_Price t) ->
            disk_hold l' (n_ID n) (t_Price t)) as Hdisk.
  { intros t Hm Hd st Hst. destruct Hl as [Hl|Hl]; rewrite Hl in Hst; [by apply Hd|].
    injection Hst as <-. cbn. by rewrite Hsame. }
  split; intros Hb Ha t Ht; destruct (Hbk Hb Ha t Ht) as [Hm Hd]; [rewrite Hsame|]; split; eauto.
Qed.

(** Another negotiation's budget operation does not touch this one's hold. *)
Lemma other_backed op b l r b' l' n :
  op_id op <> n_ID n -> world_inv (b, l) -> run_op op (b, l) = (r, (b', l')) ->
  hold_backed b l n -> hold_backed b' l' n.
Proof.
  intros Hid (Hwf & _) Hr%run_op_outcome Hbk.
  destruct Hr as [r|b1 l' Hr Hnb|b1 e l' Hr Hnb]; [done| |].
  - apply (ledger_record_ok _ (budget_state b1)) in Hr; [|by apply Hnb].
    destruct (next_budget_backed (op_id op) b b1 l l' n) as [? ?]; auto.
  - apply (ledger_record_err _ (budget_state b1)) in Hr; [|by apply Hnb].
    destruct (next_budget_backed (op_id op) b b1 l l' n) as [? ?]; auto.
Qed.

(** A failed or granted budget call inside an operation. *)
Lemma on_budget_run op w r w' :
  on_budget (run_op op) w = (r, w') ->
  exists b' l', run_op op (w_b w, w_l w) = (r, (b', l')) /\ w' = MkWorld (w_n w) b' l' (w_s w).
Proof.
  unfold on_budget. destruct (run_op op (w_b w, w_l w)) as [r0 [b l]]. intros; simplify_eq. eauto.
Qed.

(** The tail shared by the operations that let go of a hold: write a state that
    needs none, then release or commit. *)
Lemma persist_then_budget w n1 op r w' :
  act_bind persist (fun _ => on_budget (run_op op)) (set_n w n1) = (r, w') ->
  full_inv w -> same_identity (w_n w) n1 -> n_poisoned n1 = n_poisoned (w_n w) ->
  neg_ok n1 -> ~ agreedish n1 -> full_inv w'.
Proof.
  intros H Hf Hi Hpo Hok1 Hna. unfold act_bind in H.
  assert (hold_backed (w_b w) (w_l w) n1) as Hbk by by intros _ Ha.
  destruct (persist (set_n w n1)) as [[[]|e] w1] eqn:Hp;
    destruct (persist_inv w n1 _ w1 Hf Hok1 Hi Hpo Hbk Hp) as [Hf1 Hd].
  - destruct (Hd eq_refl) as [Hn (snap & Hs & Hsv)].
    apply on_budget_run in H as (b' & l' & Hr & ->).
    eapply own_budget_inv; [done|by rewrite Hn| |exact Hr].
    exists n1, snap. rewrite Hn. split_and!; try done.
  - by injection H as <- <-.
Qed.

Lemma persist_only w n1 r w' :
  persist (set_n w n1) = (r, w') -> full_inv w -> same_identity (w_n w) n1 ->
  n_poisoned n1 = n_poisoned (w_n w) -> neg_ok n1 -> hold_backed (w_b w) (w_l w) n1 -> full_inv w'.
Proof. intros Hp Hf Hi Hpo Hok Hb. by eapply persist_inv. Qed.

Lemma n_end_not_agreedish st reason n :
  st = StateRejected \/ st = StateWithdrawn \/ st = StateExpired -> ~ agreedish (n_end st reason n).
Proof. unfold agreedish. cbn. intros [->|[->| ->]] [|]; discriminate. Qed.

Lemma settle_inv st reason w r w' :
  st = StateRejected \/ st = StateWithdrawn \/ st = StateExpired ->
  settle st reason w = (r, w') -> full_inv w -> full_inv w'.
Proof.
  intros Hst Hs Hf. unfold settle in Hs. rewrite bind_assign in Hs.
  assert (neg_ok (n_end st reason (w_n w))) as Hok by (apply neg_ok_end; [done|apply Hf]).
  pose proof (n_end_not_agreedish st reason (w_n w) Hst) as Hna.
  destruct (n_hasBudget (w_n w)) eqn:Hb.
  - eapply (persist_then_budget w (n_end st reason (w_n w)) (OpRelease (n_ID (w_n w)))); try done.
    rewrite <- Hs. unfold act_bind. destruct (persist _) as [[[]|] w1] eqn:Hp; [|done].
    apply persist_n in Hp as [Hn _]. cbn [w_n set_n this] in *.
    assert (n_hasBudget (w_n w1) = true /\ n_ID (w_n w1) = n_ID (w_n w)) as [-> ->]
      by (destruct Hn as [-> | ->]; done).
    rewrite bool_decide_eq_false_2 by (destruct Hst as [->|[->| ->]]; done). done.
  - unfold act_bind in Hs. destruct (persist _) as [[[]|] w1] eqn:Hp;
      (assert (full_inv w1) as Hf1 by (eapply (persist_only _ _ _ _ Hp Hf); [done..|by intros _ Ha])).
    + apply persist_n in Hp as [Hn _]. cbn [w_n set_n this] in *.
      assert (n_hasBudget (w_n w1) = false) as Hb1 by (destruct Hn as [-> | ->]; done).
      rewrite Hb1 in Hs. by injection Hs as <- <-.
    + by injection Hs as <- <-.
Qed.

Lemma settle_err_inv st reason e w (r : result unit) w' :
  st = StateRejected \/ st = StateWithdrawn \/ st = StateExpired ->
  act_bind (settle st reason) (fun _ => act_err e) w = (r, w') -> full_inv w -> full_inv w'.
Proof.
  intros Hst Hs Hf. unfold act_bind in Hs.
  destruct (settle st reason w) as [[] w1] eqn:E; injection Hs as <- <-; by eapply settle_inv.
Qed.

(** ** Every operation keeps the invariant *)

Lemma ReceiveProposal_inv t now w r w' :
  ReceiveProposal t now w = (r, w') -> full_inv w -> full_inv w'.
Proof.
  unfold ReceiveProposal. intros H Hf. act H. pose proof (fi_ok _ Hf) as Hok.
  destruct a, a0, a1, a2. apply open_Ok in E as (_ & Ht & _).
  apply bindsCounterparty_Ok in E1. apply bindsNetwork_Ok in E2.
  apply (persist_only _ _ _ _ H Hf); [done|done| |by intros _ [|]].
  apply (neg_ok_offer (w_n w) t StateProposalPending (n_counteroffers (w_n w)) Hok Ht);
    [right; by left|by split_and!|apply Hok].
Qed.

Lemma Counter_inv t now w r w' : Counter t now w = (r, w') -> full_inv w -> full_inv w'.
Proof.
  unfold Counter. intros H Hf. act H.
  { eapply settle_err_inv; [|exact H|done]. auto. }
  pose proof (fi_ok _ Hf) as Hok. destruct a, a1, a2. apply open_Ok in E as (_ & Ht & _).
  apply bindsCounterparty_Ok in E2. apply bindsNetwork_Ok in E3. apply permits_valid_terms in E1.
  apply (persist_only _ _ _ _ H Hf); [done|done| |by intros _ [|]].
  apply neg_ok_offer; [done..|right; by right|by split_and!|].
  pose proof (ok_counter _ Hok).
  pose proof (Mandate_Validate_inv _ (proj1 (ok_mandate _ Hok))) as (_&_&_&_&_&_&_&_&Hm&_).
  unfold MaxCounteroffers in Hm. rewrite u32_id by (unfold is_u32; lia). lia.
Qed.

Lemma clean_snapshot w :
  full_inv w -> n_poisoned (w_n w) = false -> ~ agreedish (w_n w) ->
  exists n1 snap, Negotiation_Snapshot n1 = Ok snap /\ ~ agreedish n1 /\ same_identity (w_n w) n1 /\
     store_saved (w_s w) (n_ID (w_n w)) = Some snap.
Proof.
  intros Hf Hp Hna. destruct (fi_clean _ Hf Hp) as (snap & Hs & Hsv). by exists (w_n w), snap.
Qed.

Lemma talking_not_agreedish n : talking (n_state n) -> ~ agreedish n.
Proof. unfold talking, agreedish. intros [->|[->| ->]] [|]; discriminate. Qed.

Lemma AcceptIntent_inv now w r w' : AcceptIntent now w = (r, w') -> full_inv w -> full_inv w'.
Proof.
  unfold AcceptIntent. intros H Hf. pose proof (fi_ok _ Hf) as Hok.
  act H; destruct a; apply open_Ok in E0 as (_ & Ht & _).
  - change (Budget_Reserve (n_ID (w_n w)) (t_Price t)) with (run_op (L:=L) (OpReserve (n_ID (w_n w)) (t_Price t))) in H.
    unfold act_bind at 1 in H.
    destruct (on_budget _ w) as [[[]|e] w1] eqn:Hb; apply on_budget_run in Hb as (b' & l' & Hr & ->);
      (assert (full_inv (MkWorld (w_n w) b' l' (w_s w))) as Hf1
        by (eapply own_budget_inv; [done|by apply talking_not_agreedish| |exact Hr];
            apply clean_snapshot; [done..|by apply talking_not_agreedish])).
    + act H. apply Reserve_granted in Hr as [Hh Hrec].
      apply (persist_only _ _ _ _ H Hf1); [done|done| |].
      * by eapply neg_ok_agree.
      * intros _ _ t' [= <-]. cbn. split; [done|]. intros st Hst.
        apply (ledger_record_ok _ (budget_state b')) in Hrec; [|exact (proj1 (fi_budget _ Hf1))].
        rewrite Hrec in Hst. by injection Hst as <-.
    + by injection H as <- <-.
  - apply (persist_only _ _ _ _ H Hf); [done|done| |].
    + by eapply neg_ok_agree.
    + intros Hb. cbn in Hb. congruence.
Qed.

Lemma Reopen_inv reason now w r w' : Reopen reason now w = (r, w') -> full_inv w -> full_inv w'.
Proof.
  unfold Reopen. intros H Hf. act H. pose proof (fi_ok _ Hf) as Hok.
  destruct (n_hasBudget (w_n w)) eqn:Hb.
  - apply (persist_then_budget w _ (OpRelease (n_ID (w_n w))) _ _ H Hf); [done|done| |].
    + by apply neg_ok_reopen.
    + by intros [|].
  - unfold act_bind in H. destruct (persist _) as [[[]|] w1] eqn:Hp;
      injection H as <- <-;
      (apply (persist_only _ _ _ _ Hp Hf); [done|done|by apply neg_ok_reopen|by intros _ [|]]).
Qed.

Lemma ApproveByOwner_inv d now w r w' :
  ApproveByOwner d now w = (r, w') -> full_inv w -> full_inv w'.
Proof.
  unfold ApproveByOwner. intros H Hf. act H. pose proof (fi_ok _ Hf) as Hok. breflect. subst.
  apply (persist_only _ _ _ _ H Hf); [done|done| |].
  - by eapply neg_ok_approve.
  - intros Hb Ha. by apply (fi_backed _ Hf).
Qed.

Lemma BeginCanonicalization_inv now w r w' :
  BeginCanonicalization now w = (r, w') -> full_inv w -> full_inv w'.
Proof.
  unfold BeginCanonicalization. intros H Hf. act H; pose proof (fi_ok _ Hf) as Hok; breflect;
    (apply (persist_only _ _ _ _ H Hf); [done|done| |]).
  2, 4: intros Hb _; apply (fi_backed _ Hf); [done|by left].
  - apply neg_ok_canonicalise; try done. intros _. destruct a0. by eapply approvalStands_Ok.
  - apply neg_ok_canonicalise; try done. congruence.
Qed.

Lemma Expire_inv now w b r w' : Expire now w = (b, r, w') -> full_inv w -> full_inv w'.
Proof.
  unfold Expire. intros H Hf. destruct (settled (w_n w)); [by simplify_eq|].
  destruct (String.eqb _ ""); [by simplify_eq|].
  destruct (settle _ _ w) as [r1 w1] eqn:Hs. simplify_eq. eapply settle_inv; [|exact Hs|done]. auto.
Qed.

Lemma finalize_tail resolver c t q now b w r w' :
  full_inv w -> n_state (w_n w) = StateCanonicalizationPending -> n_agreed (w_n w) = Some t ->
  n_hasBudget (w_n w) = true ->
  ResolveMatchingAcceptedQuote resolver c t (n_network (w_n w)) = Ok q ->
  Mandate_PermitsCommit (n_Mandate (w_n w)) (q_Terms q) now = Ok b ->
  act_bind persist
    (fun _ => if n_hasBudget (w_n w) then on_budget (Budget_Commit (n_ID (w_n w))) else act_ret tt)
    (set_n w (set_state (set_commitment (w_n w) c (Some q)) StateFinalized)) = (r, w') -> full_inv w'.
Proof.
  intros Hf Hst Ha Hb (? & ? & ? & ? & _)%ResolveMatching_Ok Hp Hr. rewrite Hb in Hr.
  apply (persist_then_budget _ _ (OpCommit (n_ID (w_n w))) _ _ Hr Hf); [done|done| |by intros [|]].
  eapply neg_ok_finalize; [apply Hf|done..].
Qed.

Lemma Finalize_inv resolver c now w r w' :
  Finalize resolver c now w = (r, w') -> full_inv w -> full_inv w'.
Proof.
  unfold Finalize. intros H Hf. act H; pose proof (fi_ok _ Hf) as Hok; breflect;
    try (eapply settle_err_inv; [|exact H|done]; auto; fail).
  - by eapply finalize_tail.
  - by eapply finalize_tail.
Qed.

Lemma run_neg_inv op w r w' : run_neg op w = (r, w') -> full_inv w -> full_inv w'.
Proof.
  destruct op; cbn [run_neg]; intros H; revert H.
  - apply ReceiveProposal_inv.
  - apply Counter_inv.
  - apply AcceptIntent_inv.
  - apply Reopen_inv.
  - unfold RejectIntent. intros H Hf. act H. eapply settle_inv; [|exact H|done]. auto.
  - unfold Withdraw. intros H Hf. act H. eapply settle_inv; [|exact H|done]. auto.
  - apply ApproveByOwner_inv.
  - unfold DenyByOwner. intros H Hf. act H. eapply settle_inv; [|exact H|done]. auto.
  - apply BeginCanonicalization_inv.
  - intros H Hf. destruct (Expire now w) as [[b r1] w1] eqn:He. simplify_eq. by eapply Expire_inv.
  - apply Finalize_inv.
Qed.

(** ** Reachable worlds *)

Lemma restart_backed b l b' l' n :
  world_inv (b, l) -> OpenBudget (bd_total b) (Some l) = (Ok b', Some l') ->
  hold_backed b l n -> hold_backed b' l' n.
Proof.
  intros (_ & Hn & _) Ho Hbk. unfold OpenBudget in Ho. cbn in Hn.
  destruct (Money_Validate (bd_total b)); [|done].
  destruct (ledger_Load l) as [[st|]|] eqn:Hld; [|done|done].
  destruct (negb _); [done|]. simplify_eq. intros Hb Ha t Ht.
  destruct (Hbk Hb Ha t Ht) as [_ Hd]. split; [|done]. cbn. by apply Hd.
Qed.

Lemma neg_step_inv w w' : full_inv w -> neg_step w w' -> full_inv w' \/ sha256_collision.
Proof.
  intros Hf Hs. destruct Hs as [op w r w' Hr|op w r b' l' Hid Hr|snap w r s' Hid Hr|w snap m n' b' l' Hsv Hm Hr Ho].
  - left. by eapply run_neg_inv.
  - left. destruct Hf as [Hok Hbd Hbk Hsv Hcl].
    constructor; cbn; [done| |by eapply other_backed| |done].
    + by eapply outcome_inv, run_op_outcome.
    + intros snap Hs. destruct (Hsv _ Hs) as (n0 & ? & ? & Hi & ?). exists n0. split_and!; try done.
      eapply other_backed; [|done..]. by destruct Hi as [-> _].
  - destruct Hf as [Hok Hbd Hbk Hsv Hcl].
    destruct (store_save_other _ _ _ _ (n_ID (w_n w)) Hr (not_eq_sym Hid)) as [Ho|]; [left|by right].
    constructor; cbn; [done..|by rewrite Ho|by rewrite Ho].
  - destruct Hf as [Hok Hbd Hbk Hsaved Hcl].
    destruct (Hsaved _ Hsv) as (n0 & Hok0 & Hs0 & (Hi1 & Hi2 & Hi3) & Hbk0).
    destruct (Restore_Snapshot n0 snap m (n_hasBudget (w_n w)) n' Hs0 Hr) as [->|]; [|done|done| |by right];
      [apply Hok0|left].
    constructor; cbn [w_n w_b w_l w_s].
    + by apply neg_ok_poisoned.
    + by eapply restart_inv.
    + by eapply hold_backed_poisoned, restart_backed.
    + cbn. rewrite Hi1. intros snap' Hs'. rewrite Hsv in Hs'. simplify_eq.
      exists n0. split_and!; [done..|by eapply restart_backed].
    + intros _. exists snap. cbn. by rewrite Hi1.
Qed.

(** Started by [New] under a typed mandate on a sound budget, and any number of
    steps later. *)
Inductive reachable : world L S -> Prop :=
  | reach_new id conv cp mandate network hb s b l now w :
      world_inv (b, l) -> Mandate_typed mandate ->
      New id conv cp mandate network hb (Some s) b l now = Ok w -> reachable w
  | reach_step w w' : reachable w -> neg_step w w' -> reachable w'.

Lemma New_inv id conv cp m net hb s b l now w :
  world_inv (b, l) -> Mandate_typed m ->
  New id conv cp m net hb (Some s) b l now = Ok w -> full_inv w.
Proof.
  intros Hw Ht H. unfold New in H. inv_ok H. breflect.
  match goal with E : Mandate_Live m now = Ok ?u |- _ =>
    destruct u; apply Mandate_Live_iff in E as (Hv & _) end.
  match goal with E : Network_Same _ _ = true |- _ => apply Network_Same_eq in E end. subst.
  injection H as ->.
  match goal with E : persist (MkWorld ?n _ _ _) = _ |- _ => set (n1 := n) in E; rename E into Hp end.
  assert (neg_ok n1) as Hok.
  { unfold n1. constructor; cbn; try done; try (split; [done|lia]).
    - by rewrite cloneNetwork_id.
    - intros Ha. rewrite Ha in *. destruct hb; done.
    - pose proof (Mandate_Validate_inv _ Hv) as (_&_&_&_&_&_&_&_&_). destruct Ht as (_ & [? _] & _). lia.
    - intros [|[|]]; discriminate.
    - intros [|]; discriminate. }
  unfold persist in Hp. cbn [w_n w_s w_b w_l] in Hp.
  destruct (Snapshot_valid n1 Hv Ht) as [snap Hs]. rewrite Hs in Hp.
  destruct (store_Save snap s) as [[[]|] s'] eqn:Hsave; [|done]. injection Hp as _ <-.
  apply store_save_ok in Hsave. rewrite (Snapshot_ID _ _ Hs) in Hsave.
  constructor; cbn [w_n w_b w_l w_s]; [done|done|by intros _ [|]| |eauto].
  rewrite Hsave. intros snap' [= <-]. exists n1. split_and!; [done..|by intros _ [|]].
Qed.

Lemma reachable_inv w : reachable w -> full_inv w \/ sha256_collision.
Proof.
  induction 1 as [|w w' _ [IH|] Hs]; [left; by eapply New_inv|by eapply neg_step_inv|by right].
Qed.

End System.

(** ** Restoring what was written *)

Lemma NetworkFromDomain_valid net bound :
  NetworkFromDomain net = Ok bound -> validateNetworkDomain net = Ok tt.
Proof.
  unfold NetworkFromDomain, validateNetworkDomain. destruct net as [d|]; [|done]. intros H. inv_ok H.
  unfold Network_Validate in *. cbn [nw_ID nw_GenesisRootHash nw_GenesisFileHash] in *.
  destruct (String.eqb (nd_NetworkId d) "" || _ || _ || _); done.
Qed.

Lemma Network_Same_refl n : Network_Same n n = true.
Proof. by apply Network_Same_eq. Qed.

Lemma check_snapshot_terms_ok bound o :
  (forall t, o = Some t -> Terms_Validate t = Ok tt /\ a_Network (mo_Asset (t_Price t)) = bound) ->
  check_snapshot_terms bound o = Ok tt.
Proof.
  intros H. destruct o as [t|]; [|done]. destruct (H t eq_refl) as [Hv <-]. cbn.
  by rewrite Hv, Network_Same_refl.
Qed.

Lemma digestPattern_nonempty d : digestPattern d = true -> String.eqb d "" = false.
Proof. by destruct d. Qed.

Lemma Snapshot_Validate_ok n snap :
  neg_ok n -> Negotiation_Snapshot n = Ok snap -> Snapshot_Validate snap = Ok tt.
Proof.
  intros Hok Hs. unfold Negotiation_Snapshot in Hs. inv_ok Hs. apply Ok_inj in Hs. subst snap.
  unfold Snapshot_Validate. cbn [s_Schema s_ID s_State s_MandateDigest s_Network s_OnTable s_Agreed
    s_Approval s_Generation]. rewrite cloneNetwork_id, State_of_string_of.
  destruct (ok_id _ Hok) as [Hid Hlen]. rewrite (proj2 (String.eqb_neq _ _) Hid).
  rewrite (proj2 (Z.ltb_ge _ _)) by done.
  pose proof (ok_network _ Hok) as Hnet. rewrite (NetworkFromDomain_valid _ _ Hnet), Hnet.
  assert (forall t, binds n t -> Terms_Validate t = Ok tt /\
            a_Network (mo_Asset (t_Price t)) = a_Network (mo_Asset (m_MaxTotal (n_Mandate n)))) as Hb.
  { intros t (Hv & _ & Hn). split; congruence. }
  rewrite !check_snapshot_terms_ok;
    [|intros t Ht; apply Hb; first [by apply (ok_table _ Hok)|by apply (ok_agreed _ Hok)]..].
  assert (String.eqb a "" = false) as ->.
  { apply String.eqb_neq. intros ->. unfold Mandate_Digest in *.
    match goal with E : (match Mandate_CanonicalBytes _ with _ => _ end) = _ |- _ => inv_ok E end.
    match goal with E : Ok (canon_Digest ?p) = _ |- _ =>
      apply Ok_inj in E; pose proof (slen_canon_Digest p) as Hl; rewrite E in Hl end. discriminate. }
  cbn [negb is_ok orb]. replace (match n_approval n with Some a0 => _ | None => false end) with false.
  2:{ destruct (n_approval n) as [ap|] eqn:Ha; [|done].
      destruct (ok_approval _ Hok _ Ha) as (_ & -> & _). symmetry. apply Z.ltb_irrefl. }
  destruct (bool_decide _) eqn:Hst; [|done]. breflect.
  destruct (ok_finalized _ Hok Hst) as (q & Hq & Hc & Hag & Hqv & _).
  unfold check_finalized. cbn [s_Commitment s_Quote]. rewrite Hq, Hc.
  pose proof Hqv as Hqv'. unfold Quote_Validate in Hqv'. inv_ok Hqv'. breflect.
  rewrite digestPattern_nonempty by done. rewrite Hqv, String.eqb_refl. cbn [negb].
  destruct (Hb (q_Terms q)) as [_ ->]; [exact (proj1 (ok_agreed _ Hok _ Hag))|]. by rewrite String.eqb_refl, Network_Same_refl.
Qed.

Lemma Restore_ok n snap :
  neg_ok n -> Negotiation_Snapshot n = Ok snap ->
  Restore snap (n_Mandate n) (n_hasBudget n) true = Ok (set_poisoned n false).
Proof.
  intros Hok Hs. pose proof (ok_budgeted _ Hok) as Hb. pose proof (Snapshot_Validate_ok _ _ Hok Hs) as Hv.
  unfold Restore. rewrite Hv. unfold Negotiation_Snapshot in Hs. inv_ok Hs. apply Ok_inj in Hs. subst snap.
  cbn [s_State s_MandateDigest s_ID s_ConversationID s_CounterpartyAgentID s_Network s_Generation
    s_Counteroffers s_OnTable s_Agreed s_NeedsApproval s_Approval s_Commitment s_Quote s_Failure].
  rewrite !cloneNetwork_id, State_of_string_of, String.eqb_refl, (ok_network _ Hok), Network_Same_refl.
  cbn [negb]. destruct (String.eqb_spec (m_Authority (n_Mandate n)) AuthorityCommit) as [Ha|].
  - specialize (Hb Ha). clear -Hb. destruct n; cbn in *. by subst.
  - cbn. by destruct n.
Qed.

Lemma settle_err_not_ok {L S} {LI : Ledger L} {SI : Store S} st reason e (w : world L S) (u : unit) w' :
  act_bind (settle st reason) (fun _ => act_err e) w = (Ok u, w') -> False.
Proof. unfold act_bind. by destruct (settle st reason w) as [[]]. Qed.

(** A [Finalize] that returns no error went all the way. *)
Lemma Finalize_granted {L S} {LI : Ledger L} {SI : Store S} resolver c now (w w' : world L S) :
  Finalize resolver c now w = (Ok tt, w') ->
  exists q t b, ResolveMatchingAcceptedQuote resolver c t (n_network (w_n w)) = Ok q /\
    n_agreed (w_n w) = Some t /\ n_state (w_n w) = StateCanonicalizationPending /\
    n_hasBudget (w_n w) = true /\ digestPattern c = true /\
    Mandate_PermitsCommit (n_Mandate (w_n w)) (q_Terms q) now = Ok b /\
    act_bind persist (fun _ => on_budget (Budget_Commit (n_ID (w_n w))))
      (set_n w (set_state (set_commitment (w_n w) c (Some q)) StateFinalized)) = (Ok tt, w').
Proof.
  unfold Finalize. intros H. remember (Ok tt) as r eqn:Hok in H. act H; try discriminate Hok; subst r; breflect.
  all: try (by apply settle_err_not_ok in H).
  - eexists _, _, _. split_and!; try (eassumption || reflexivity). by rewrite E3 in H.
  - eexists _, _, _. split_and!; try (eassumption || reflexivity). by rewrite E3 in H.
Qed.

(** ** A store over a script of write outcomes *)

Record scripted_store : Type := MkScriptedStore {
  ss_saved : gmap string Snapshot;
  ss_script : list write_outcome;
}.

#[global] Instance scripted_Store : Store scripted_store := {
  store_Save snap s :=
    match ss_script s with
    | [] => (Ok tt, MkScriptedStore (<[s_ID snap := snap]> (ss_saved s)) [])
    | WOk :: rest => (Ok tt, MkScriptedStore (<[s_ID snap := snap]> (ss_saved s)) rest)
    | WFailOld :: rest => (Err (NewError "write"), MkScriptedStore (ss_saved s) rest)
    | WFailNew :: rest => (Err (NewError "sync"), MkScriptedStore (<[s_ID snap := snap]> (ss_saved s)) rest)
    end;
}.

#[global] Instance scripted_StoreLaws : StoreLaws scripted_store.
Proof.
  refine {| store_saved s id := ss_saved s !! id |};
    intros [st [|[] sc]] snap; cbn; intros; simplify_eq; cbn;
    rewrite ?lookup_insert_eq, ?lookup_insert_ne by done; auto.
Defined.

(** ** Properties *)

Section Properties.
  Context {L S : Type} {LI : Ledger L} {SI : Store S} {LL : LedgerLaws L} {SL : StoreLaws S}.
  Implicit Types w : world L S.




(** an ended negotiation stays ended.  Once finalized, rejected, withdrawn
    or expired, every operation leaves the object, the budget, the ledger and
    the store exactly as they were, and all but [Expire], which reports that it
    did nothing, return an error. *)
Theorem settled_terminal op w r w' :
  settled (w_n w) = true -> run_neg op w = (r, w') ->
  w' = w /\ ((exists now, op = OpExpire now) \/ is_ok r = false).
Proof.
  intros Hs. assert (forall st, st = StateIntentAgreed \/ st = StateCanonicalizationPending ->
                       bool_decide (n_state (w_n w) = st) = false) as Hne.
  { intros st Hst. apply bool_decide_eq_false. intros E. unfold settled in Hs. rewrite E in Hs.
    by destruct Hst as [->| ->]. }
  assert (forall now, is_ok (open (w_n w) now) = false) as Hopen.
  { intros now. unfold open. rewrite Hs. by destruct (n_poisoned (w_n w)). }
  destruct op; cbn [run_neg];
    unfold ReceiveProposal, Counter, AcceptIntent, Reopen, RejectIntent, Withdraw, ApproveByOwner,
      DenyByOwner, BeginCanonicalization, Finalize, Expire; rewrite ?bind_this, ?bind_lift, ?Hs,
      ?Hne by auto.
  1-3: try (specialize (Hopen now); destruct (open (w_n w) now); [done|]).
  1-2: intros [= <- <-]; auto.
  2: { intros [= <- <-]; auto. }
  2, 3: intros [= <- <-]; auto.
  2: { intros [= <- <-]; auto. }
  2: { intros [= <- <-]; auto. }
  - destruct (n_poisoned (w_n w)); [intros [= <- <-]; auto|]. rewrite bind_lift. intros [= <- <-]; auto.
  - destruct (n_poisoned (w_n w)); intros [= <- <-]; auto.
  - intros [= <- <-]. eauto.
  - destruct (n_poisoned (w_n w)); intros [= <- <-]; auto.
Qed.

(** terms freeze when both sides say yes.  While terms are agreed or being
    canonicalised, no offer, counteroffer or acceptance is taken: each is
    refused and nothing changes, so an approval and a hold can never be carried
    to terms the owner did not see. *)
Theorem agreed_terms_frozen w t now :
  agreedish (w_n w) ->
  (exists e, ReceiveProposal t now w = (Err e, w)) /\
  (exists e, Counter t now w = (Err e, w)) /\
  (exists e, AcceptIntent now w = (Err e, w)).
Proof.
  intros Ha. assert (exists e, open (w_n w) now = Err e) as [e He].
  { unfold open, settled. destruct (n_poisoned (w_n w)); [eauto|].
    destruct Ha as [-> | ->]; cbn; eauto. }
  unfold ReceiveProposal, Counter, AcceptIntent. rewrite !bind_this.
  split_and!; [rewrite bind_lift, He; eauto..|].
  destruct (n_poisoned (w_n w)); [by exists ErrPoisoned|]. rewrite bind_lift, He. eauto.
Qed.

(** finalizing spends the agreed price once.  When [Finalize] returns
    without an error in a reachable world, the quote it resolved is recorded,
    the finalized snapshot is in the store, the hold is gone and the spent
    amount grew by exactly the agreed price, in memory and in the ledger (short
    of a SHA-256 collision). *)
Theorem finalize_spends_price resolver c now w w' :
  reachable w -> Finalize resolver c now w = (Ok tt, w') ->
  (exists resolve q t snap,
     resolver = Some resolve /\ resolve c = Ok (Some q) /\ n_agreed (w_n w) = Some t /\ q_Terms q = t /\
     Committed (w_n w') = Some c /\ Quote (w_n w') = Some q /\
     Negotiation_Snapshot (w_n w') = Ok snap /\ store_saved (w_s w') (n_ID (w_n w)) = Some snap /\
     mval (bd_spent (w_b w')) = mval (bd_spent (w_b w)) + mval (t_Price t) /\
     bd_reserved (w_b w') = delete (n_ID (w_n w)) (bd_reserved (w_b w)) /\
     ledger_Load (w_l w') = Ok (Some (budget_state (w_b w'))))
  \/ sha256_collision.
Proof.
  intros Hr H. destruct (reachable_inv w Hr) as [Hf|]; [left|by right].
  destruct (Finalize_granted _ _ _ _ _ H) as (q & t & b & Hres & Hag & Hst & Hb & Hpat & Hperm & Hrun).
  destruct (ResolveMatching_Ok _ _ _ _ _ Hres) as (Hc & Ht & Hqv & Hnet & resolve & Hrs & Hq).
  unfold act_bind in Hrun. destruct (persist _) as [[[]|] w1] eqn:Hp; [|discriminate Hrun].
  pose proof (persist_n _ _ _ Hp) as (_ & Hpb & Hpl). cbn in Hpb, Hpl.
  destruct (persist_inv w (set_state (set_commitment (w_n w) c (Some q)) StateFinalized) (Ok tt) w1 Hf)
    as [Hf1 Hd]; [|done|done|by intros _ [|]|done|].
  { eapply neg_ok_finalize; [apply Hf|done..]. }
  destruct (Hd eq_refl) as [Hn1 (snap & Hs1 & Hsv)].
  apply (on_budget_run (OpCommit (n_ID (w_n w)))) in Hrun as (b' & l' & Hcm & ->).
  apply Commit_granted in Hcm as (amount & spent & Hh & Hadd & -> & Hrec).
  destruct (wf_commit _ _ _ _ (proj1 (fi_budget _ Hf1)) Hh Hadd) as [Hwf Hv].
  destruct (fi_backed _ Hf Hb) with (t := t) as [Hm _]; [by right|done|].
  rewrite Hpb in *. assert (amount = t_Price t) as -> by congruence.
  exists resolve, q, t, snap. cbn [w_n w_b w_l w_s]. rewrite Hn1 in *.
  split_and!; try done.
  - unfold Committed. cbn. by rewrite digestPattern_nonempty.
  - by apply (ledger_record_ok _ (budget_state _)) in Hrec.
Qed.

(** a restart resumes exactly where the last write left off.  In a reachable
    world whose last write did not fail, restoring the stored snapshot under the
    same mandate succeeds and rebuilds the very object that was in memory
    (short of a SHA-256 collision). *)
Theorem restore_roundtrip w :
  reachable w -> n_poisoned (w_n w) = false ->
  (exists snap, store_saved (w_s w) (n_ID (w_n w)) = Some snap /\ Snapshot_Validate snap = Ok tt /\
     Restore snap (n_Mandate (w_n w)) (n_hasBudget (w_n w)) true = Ok (w_n w))
  \/ sha256_collision.
Proof.
  intros Hr Hp. destruct (reachable_inv w Hr) as [Hf|]; [left|by right].
  destruct (fi_clean _ Hf Hp) as (snap & Hs & Hsv). exists snap.
  split_and!; [done|by eapply Snapshot_Validate_ok, Hs; apply Hf|].
  rewrite (Restore_ok _ _ (fi_ok _ Hf) Hs). f_equal. destruct (w_n w); cbn in *. by subst.
Qed.

(** a write that failed does not stop every further operation.  The object
    is then poisoned, which its documentation says refuses everything until it
    is reloaded; [Reopen] nevertheless goes through on a poisoned object, moves
    its generation and clears the owner's approval. *)
Theorem poisoned_reopen_succeeds w reason now snap s' :
  n_poisoned (w_n w) = true -> n_state (w_n w) = StateIntentAgreed -> n_hasBudget (w_n w) = false ->
  Mandate_Live (n_Mandate (w_n w)) now = Ok tt -> reason <> "" -> slen reason <= 512 ->
  let n1 := set_state (set_generation (set_approval (set_agreed (w_n w) None false) None)
              (u64 (n_generation (w_n w) + 1))) StateDiscussing in
  Negotiation_Snapshot n1 = Ok snap -> store_Save snap (w_s w) = (Ok tt, s') ->
  Reopen reason now w = (Ok tt, MkWorld n1 (w_b w) (w_l w) s').
Proof.
  intros Hp Hst Hb Hl Hr Hlen n1 Hs Hsave. unfold Reopen. rewrite bind_this, Hst.
  rewrite bool_decide_eq_true_2 by done. cbn [negb]. rewrite bind_lift, Hl.
  rewrite (proj2 (String.eqb_neq _ _)) by done. rewrite (proj2 (Z.ltb_ge _ _)) by done. cbn [orb].
  rewrite bind_assign. fold n1. unfold act_bind, persist. cbn [w_n set_n w_s w_b w_l].
  rewrite Hs, Hsave, Hb. done.
Qed.

End Properties.
