(* ===== verification/NegotiationRun.v ===== *)
(** * One complete negotiation, evaluated

    A negotiation from [New] to [Finalize] on a scripted store and ledger: an
    offer above the approval point, agreement, the owner's decision,
    canonicalisation and the finalized quote.  The worlds along the way are
    written out and every transition is checked by running the operation; they
    instantiate the theorems of [Negotiation]. *)

From S2P Require Import Prelude Encoding Canon Files Money Terms Budget Negotiation.

(** Digests are named, not computed. *)
Definition run_mandate_digest : string :=
  canon_Digest (bytes_of_string DomainMandate ++ fields_bytes (Mandate_fields sample_mandate)).
Definition run_terms_digest : string :=
  canon_Digest (bytes_of_string DomainNegotiationTerms ++ fields_bytes (Terms_fields sample_terms)).

Lemma sample_mandate_typed : Mandate_typed sample_mandate.
Proof. vm_compute. repeat split; discriminate. Qed.

Lemma run_mandate_Digest : Mandate_Digest sample_mandate = Ok run_mandate_digest.
Proof. apply Mandate_Digest_ok; [apply sample_mandate_valid|apply sample_mandate_typed]. Qed.
Lemma run_terms_Digest : Terms_Digest sample_terms = Ok run_terms_digest.
Proof. apply Terms_Digest_ok; [apply sample_terms_valid|apply sample_terms_typed]. Qed.

Definition run_domain : NetworkDomain := MkNetworkDomain "tos-local" sample_hash sample_hash.
Definition run_quote : VerifiedAcceptedQuote :=
  MkQuote sample_digest sample_terms (Some (MkChainReference 9)) (Some run_domain) 150.
Definition run_resolver : QuoteResolver :=
  fun c => if String.eqb c sample_digest then Ok (Some run_quote) else Ok None.

Definition n_new : Negotiation :=
  MkNegotiation "n1" ("conv_" +:+ sample_hash) ("agent_" +:+ sample_hash) sample_mandate StateDiscussing
    0 0 None None false (Some run_domain) None "" None "" true false.
Definition n_offered : Negotiation := set_state (set_onTable n_new (Some sample_terms)) StateProposalPending.
Definition n_agreed_ : Negotiation := set_state (set_agreed n_offered (Some sample_terms) true) StateIntentAgreed.
Definition n_approved : Negotiation :=
  set_approval n_agreed_ (Some (MkApproval run_terms_digest 0 run_mandate_digest 100)).
Definition n_canonical : Negotiation := set_state n_approved StateCanonicalizationPending.
Definition n_final : Negotiation :=
  set_state (set_commitment n_canonical sample_digest (Some run_quote)) StateFinalized.

Definition run_snapshot (n : Negotiation) : Snapshot :=
  MkSnapshot SnapshotSchema (n_ID n) (n_ConversationID n) (n_CounterpartyAgentID n) run_mandate_digest
    (cloneNetwork (n_network n)) (State_string (n_state n)) (n_generation n) (n_counteroffers n)
    (n_needsApproval n) (n_onTable n) (n_agreed n) (n_approval n) (n_commitment n) (n_quote n) (n_failure n).

Lemma run_Snapshot n : n_Mandate n = sample_mandate -> Negotiation_Snapshot n = Ok (run_snapshot n).
Proof. intros H. unfold Negotiation_Snapshot. by rewrite H, run_mandate_Digest. Qed.

Definition run_store (n : Negotiation) : scripted_store :=
  MkScriptedStore {[ "n1" := run_snapshot n ]} [].
Definition run_spent : Budget := MkBudget sample_total (sample_money 700) ∅.
Definition run_ledger (b : Budget) : scripted_ledger := MkScripted (Some (budget_state b)) [].

Definition run_world (n : Negotiation) (b : Budget) : world scripted_ledger scripted_store :=
  MkWorld n b (run_ledger b) (run_store n).

(** Writing state [n1] over a run world. *)
Lemma run_persist n n1 b :
  n_Mandate n1 = sample_mandate -> n_ID n1 = "n1" ->
  persist (set_n (run_world n b) n1) = (Ok tt, run_world n1 b).
Proof.
  intros Hm Hid. unfold persist. cbn [w_n set_n w_s w_b w_l run_world]. rewrite run_Snapshot by done.
  unfold store_Save. cbn [scripted_Store ss_script run_store ss_saved].
  change (s_ID (run_snapshot n1)) with (n_ID n1). rewrite Hid.
  unfold run_world, run_store. by rewrite insert_singleton_eq.
Qed.

Lemma run_new :
  New "n1" ("conv_" +:+ sample_hash) ("agent_" +:+ sample_hash) sample_mandate (Some run_domain) true
    (Some (MkScriptedStore ∅ [])) sample_budget (run_ledger sample_budget) 100
  = Ok (run_world n_new sample_budget).
Proof.
  unfold New.
  replace (Mandate_Live sample_mandate 100) with (@Ok unit tt) by (vm_compute; reflexivity).
  unfold persist. cbn [w_n]. change (MkNegotiation _ _ _ _ _ _ _ _ _ _ _ _ _ _ _ _ _) with n_new.
  rewrite run_Snapshot by done. reflexivity.
Qed.

(** One check of an operation that passes, evaluated; one budget call. *)
Ltac run_check c v :=
  rewrite ?bind_lift; replace c with v by (vm_compute; reflexivity); cbv beta iota.

Lemma run_on_budget op r b l b' l' n s :
  op (b, l) = (r, (b', l')) ->
  on_budget (L := scripted_ledger) (S := scripted_store) op (MkWorld n b l s) = (r, MkWorld n b' l' s).
Proof. intros H. unfold on_budget. cbn [w_b w_l w_n w_s]. by rewrite H. Qed.

Lemma run_offer : run_neg (OpReceiveProposal sample_terms 100) (run_world n_new sample_budget)
  = (Ok tt, run_world n_offered sample_budget).
Proof.
  cbn [run_neg]. unfold ReceiveProposal. rewrite bind_this. cbn [w_n run_world].
  run_check (open n_new 100) (@Ok unit tt).
  run_check (Terms_Validate sample_terms) (@Ok unit tt).
  run_check (bindsCounterparty n_new sample_terms) (@Ok unit tt).
  run_check (bindsNetwork n_new sample_terms) (@Ok unit tt).
  rewrite bind_assign. by apply run_persist.
Qed.

Lemma run_accept : run_neg (OpAcceptIntent 100) (run_world n_offered sample_budget)
  = (Ok tt, run_world n_agreed_ held_budget).
Proof.
  cbn [run_neg]. unfold AcceptIntent. rewrite bind_this. cbn [w_n run_world].
  change (n_poisoned n_offered) with false. cbv beta iota.
  run_check (open n_offered 100) (@Ok unit tt).
  change (n_onTable n_offered) with (Some sample_terms). cbv beta iota.
  change (n_Mandate n_offered) with sample_mandate.
  run_check (Mandate_Permits sample_mandate sample_terms 100) (@Ok bool true).
  change (n_hasBudget n_offered) with true. cbv beta iota. unfold act_bind at 1, run_world at 1.
  rewrite (run_on_budget _ (Ok tt) _ _ held_budget (run_ledger held_budget)) by (vm_compute; reflexivity).
  rewrite bind_assign. by apply (run_persist n_offered n_agreed_ held_budget).
Qed.

Lemma run_approve : run_neg (OpApproveByOwner run_terms_digest 100) (run_world n_agreed_ held_budget)
  = (Ok tt, run_world n_approved held_budget).
Proof.
  cbn [run_neg]. unfold ApproveByOwner. rewrite bind_this. cbn [w_n run_world].
  change (n_state n_agreed_) with StateIntentAgreed. rewrite bool_decide_eq_true_2 by done. cbn [negb].
  change (n_Mandate n_agreed_) with sample_mandate.
  run_check (Mandate_Live sample_mandate 100) (@Ok unit tt).
  change (n_needsApproval n_agreed_) with true. change (n_agreed n_agreed_) with (Some sample_terms).
  cbn [negb]. cbv beta iota. rewrite bind_lift, run_terms_Digest, String.eqb_refl. cbn [negb].
  rewrite bind_lift, run_mandate_Digest, bind_assign.
  by apply (run_persist n_agreed_ n_approved held_budget).
Qed.

Lemma run_stands n : n_approval n = n_approval n_approved -> n_agreed n = Some sample_terms ->
  n_generation n = 0 -> n_Mandate n = sample_mandate -> approvalStands n = Ok tt.
Proof.
  intros Ha Ht Hg Hm. unfold approvalStands. rewrite Ha, Ht, Hg, Hm.
  cbn [n_approval n_approved set_approval]. cbn [ap_TermsDigest ap_Generation ap_MandateDigest].
  by rewrite run_terms_Digest, String.eqb_refl, run_mandate_Digest, String.eqb_refl.
Qed.

Lemma run_canonicalise : run_neg (OpBeginCanonicalization 100) (run_world n_approved held_budget)
  = (Ok tt, run_world n_canonical held_budget).
Proof.
  cbn [run_neg]. unfold BeginCanonicalization. rewrite bind_this. cbn [w_n run_world].
  change (n_poisoned n_approved) with false. change (n_state n_approved) with StateIntentAgreed.
  rewrite bool_decide_eq_true_2 by done. change (n_Mandate n_approved) with sample_mandate.
  change (String.eqb (m_Authority sample_mandate) AuthorityCommit) with true.
  change (n_hasBudget n_approved) with true. cbn [negb].
  run_check (Mandate_Live sample_mandate 100) (@Ok unit tt).
  change (n_needsApproval n_approved) with true. cbv beta iota.
  rewrite bind_lift, run_stands, bind_assign by done.
  by apply (run_persist n_approved n_canonical held_budget).
Qed.

Lemma run_finalize :
  Finalize (Some run_resolver) sample_digest 100 (run_world n_canonical held_budget)
  = (Ok tt, MkWorld n_final run_spent (run_ledger run_spent) (run_store n_final)).
Proof.
  unfold Finalize. rewrite bind_this. cbn [w_n run_world].
  change (n_poisoned n_canonical) with false. change (n_state n_canonical) with StateCanonicalizationPending.
  rewrite !bool_decide_eq_true_2 by (done || by eexists). change (n_Mandate n_canonical) with sample_mandate.
  change (String.eqb (m_Authority sample_mandate) AuthorityCommit) with true.
  change (n_hasBudget n_canonical) with true. cbn [negb].
  run_check (Mandate_Live sample_mandate 100) (@Ok unit tt).
  run_check (digestPattern sample_digest) true. cbn [negb].
  change (n_agreed n_canonical) with (Some sample_terms). cbv beta iota.
  change (n_network n_canonical) with (Some run_domain).
  run_check (ResolveMatchingAcceptedQuote (Some run_resolver) sample_digest sample_terms (Some run_domain))
    (@Ok VerifiedAcceptedQuote run_quote).
  change (n_needsApproval n_canonical) with true. cbv beta iota.
  rewrite bind_lift, run_stands by done. change (q_Terms run_quote) with sample_terms.
  run_check (Mandate_PermitsCommit sample_mandate sample_terms 100) (@Ok bool true).
  rewrite bind_assign. unfold act_bind.
  change (set_n _ _) with (set_n (run_world n_canonical held_budget) n_final).
  rewrite (run_persist n_canonical n_final held_budget) by done. unfold run_world.
  apply run_on_budget. vm_compute. reflexivity.
Qed.

(** ** The run is reachable *)

Lemma reach_new_world : reachable (run_world n_new sample_budget).
Proof.
  eapply reach_new; [|apply sample_mandate_typed|apply run_new]. apply sample_world_inv.
Qed.

Lemma reach_agreed : reachable (run_world n_agreed_ held_budget).
Proof.
  eapply reach_step; [|eapply ns_op, run_accept].
  eapply reach_step; [|eapply ns_op, run_offer]. apply reach_new_world.
Qed.

Lemma reach_canonical : reachable (run_world n_canonical held_budget).
Proof.
  eapply reach_step; [|eapply ns_op, run_canonicalise].
  eapply reach_step; [|eapply ns_op, run_approve]. apply reach_agreed.
Qed.

Lemma reach_final : reachable (MkWorld n_final run_spent (run_ledger run_spent) (run_store n_final)).
Proof.
  eapply reach_step; [|eapply (ns_op (OpFinalize (Some run_resolver) sample_digest 100)), run_finalize].
  apply reach_canonical.
Qed.

(** ** Instances of the theorems *)




Lemma settled_terminal_witness :
  let w := MkWorld n_final run_spent (run_ledger run_spent) (run_store n_final) in
  w = w /\ ((exists now, OpWithdraw "late" = OpExpire now) \/ is_ok (run_neg (OpWithdraw "late") w).1 = false).
Proof.
  intros w. apply (settled_terminal (OpWithdraw "late") w (run_neg (OpWithdraw "late") w).1 w).
  - reflexivity.
  - reflexivity.
Defined.

Lemma agreed_terms_frozen_witness :
  (exists e, ReceiveProposal sample_terms 100 (run_world n_agreed_ held_budget)
             = (Err e, run_world n_agreed_ held_budget)) /\
  (exists e, Counter sample_terms 100 (run_world n_agreed_ held_budget)
             = (Err e, run_world n_agreed_ held_budget)) /\
  (exists e, AcceptIntent 100 (run_world n_agreed_ held_budget) = (Err e, run_world n_agreed_ held_budget)).
Proof. apply (agreed_terms_frozen (run_world n_agreed_ held_budget)). left. reflexivity. Defined.

Lemma finalize_spends_price_witness :
  (exists resolve q t snap,
     Some run_resolver = Some resolve /\ resolve sample_digest = Ok (Some q) /\
     n_agreed n_canonical = Some t /\ q_Terms q = t /\
     Committed n_final = Some sample_digest /\ Quote n_final = Some q /\
     Negotiation_Snapshot n_final = Ok snap /\ store_saved (run_store n_final) "n1" = Some snap /\
     mval (bd_spent run_spent) = mval (bd_spent held_budget) + mval (t_Price t) /\
     bd_reserved run_spent = delete "n1" (bd_reserved held_budget) /\
     ledger_Load (run_ledger run_spent) = Ok (Some (budget_state run_spent)))
  \/ sha256_collision.
Proof.
  apply (finalize_spends_price (Some run_resolver) sample_digest 100 (run_world n_canonical held_budget)
           (MkWorld n_final run_spent (run_ledger run_spent) (run_store n_final))).
  - apply reach_canonical.
  - apply run_finalize.
Defined.

Lemma restore_roundtrip_witness :
  (exists snap, store_saved (run_store n_canonical) "n1" = Some snap /\ Snapshot_Validate snap = Ok tt /\
     Restore snap sample_mandate true true = Ok n_canonical)
  \/ sha256_collision.
Proof.
  apply (restore_roundtrip (run_world n_canonical held_budget)).
  - apply reach_canonical.
  - reflexivity.
Defined.

Definition n_poisoned_ : Negotiation :=
  MkNegotiation "n1" ("conv_" +:+ sample_hash) ("agent_" +:+ sample_hash) sample_mandate StateIntentAgreed
    0 0 (Some sample_terms) (Some sample_terms) true (Some run_domain) None "" None "" false true.

Lemma poisoned_reopen_succeeds_witness :
  let n1 := set_state (set_generation (set_approval (set_agreed n_poisoned_ None false) None) 1) StateDiscussing in
  Reopen "better price" 100 (run_world n_poisoned_ sample_budget) = (Ok tt, run_world n1 sample_budget).
Proof.
  intros n1.
  apply (poisoned_reopen_succeeds (run_world n_poisoned_ sample_budget) "better price" 100
           (run_snapshot n1) (run_store n1)).
  - reflexivity.
  - reflexivity.
  - reflexivity.
  - vm_compute. reflexivity.
  - discriminate.
  - vm_compute. discriminate.
  - by apply run_Snapshot.
  - unfold store_Save. cbn [scripted_Store ss_script run_world w_s run_store ss_saved].
    change (s_ID (run_snapshot n1)) with "n1". by rewrite insert_singleton_eq.
Defined.
