(* ===== verification/Commerce.v ===== *)
(** * Durable budgets and negotiations: [pkg/eventlog/budget.go] and [negotiation.go]

    The event log's implementations of the two interfaces the negotiation
    package is written against: a budget ledger is one file per asset or per
    mandate, a negotiation one file per identifier.  The file shows that they
    keep the promises [Budget.v] and [Negotiation.v] rely on, so every theorem
    there holds of a negotiation run on this storage; and that the repair run
    when the journal is opened, [reconcileCommerce], settles every hold that a
    crash left between the two records.

    These files are read with [os.ReadFile], so an [EForeign] entry here is one
    that cannot be read.  Holds are keyed by negotiation identifiers, which the
    store accepts only in printable ASCII, so JSON keeps the keys as they are. *)

From S2P Require Import Prelude Encoding Canon Files Money Terms Budget Negotiation.

(** ** Budget records ([budget.go]) *)

Definition BudgetSchema : string := "tos.messaging.budget-ledger.v1".

Record StoredAsset : Type := MkStoredAsset {
  sa_NetworkID : string;
  sa_GenesisRootHash : string;
  sa_GenesisFileHash : string;
  sa_Workchain : Z;
  sa_AccountID : string;
  sa_MasterCodeHash : string;
  sa_WalletCodeHash : string;
  sa_Decimals : Z;
}.

Record BudgetRecord : Type := MkBudgetRecord {
  br_Schema : string;
  br_BudgetID : string;
  br_Asset : StoredAsset;
  br_Total : string;
  br_Spent : string;
  br_Reserved : gmap string string;
}.

Definition DomainBudget : string := "tos.messaging.budget.v3" +:+ NUL.
Definition DomainMandateBudget : string := "tos.messaging.mandate-budget.v3" +:+ NUL.

(** The fields of an asset both identifiers fold in. *)
Definition write_asset (asset : Asset) (buffer : bytes) : result bytes :=
  let buffer := canon_Text buffer (nw_ID (a_Network asset)) in
  let* buffer := canon_Hash32 buffer (nw_GenesisRootHash (a_Network asset)) in
  let* buffer := canon_Hash32 buffer (nw_GenesisFileHash (a_Network asset)) in
  let buffer := canon_Uint32 buffer (u32 (a_Workchain asset)) in
  let buffer := canon_Text buffer (a_AccountID asset) in
  let buffer := canon_Text buffer (a_MasterCodeHash asset) in
  let buffer := canon_Text buffer (a_WalletCodeHash asset) in
  let buffer := canon_Uint32 buffer (a_Decimals asset) in
  Ok buffer.

Definition BudgetID (asset : Asset) : result string :=
  call Asset_Validate asset;
  let* buffer := write_asset asset (bytes_of_string DomainBudget) in
  Ok ("bgt_" +:+ digest_hex (canon_Digest buffer)).

Definition MandateBudgetID (mandateID : string) (asset : Asset) : result string :=
  refuse String.eqb mandateID "" || (128 <? slen mandateID)
    with NewError "a mandate budget needs the mandate that bounds it";
  call Asset_Validate asset;
  let* buffer := write_asset asset (canon_Text (bytes_of_string DomainMandateBudget) mandateID) in
  Ok ("mbg_" +:+ digest_hex (canon_Digest buffer)).

(** [dir] of a ledger handle. *)
Inductive budget_dir : Type := BudgetDir | MandateBudgetDir.
#[global] Instance budget_dir_eq_dec : EqDecision budget_dir.
Proof. solve_decision. Defined.

Record BudgetLedger : Type := MkBudgetLedger {
  bl_budgetID : string;
  bl_dir : budget_dir;
  bl_stem : string;
  bl_asset : Asset;
}.

(** The part of the journal a budget ledger touches; [bk_script] is how the
    coming writes end. *)
Record budget_disk : Type := MkBudgetDisk {
  bk_held : bool;
  bk_budgets : directory BudgetRecord;
  bk_mandate_budgets : directory BudgetRecord;
  bk_script : list write_outcome;
}.

Definition next_outcome (script : list write_outcome) : write_outcome * list write_outcome :=
  match script with
  | [] => (WOk, [])
  | w :: rest => (w, rest)
  end.

Definition err_owned : error := NewError "event journal is not owned by this process".

Definition OpenBudgetLedger (asset : Asset) (disk : budget_disk) : result BudgetLedger :=
  refuse negb (bk_held disk) with err_owned;
  let* budgetID := BudgetID asset in
  Ok (MkBudgetLedger budgetID BudgetDir (sdrop 4 budgetID) asset).

Definition OpenMandateBudgetLedger (mandateID : string) (asset : Asset) (disk : budget_disk)
    : result BudgetLedger :=
  refuse negb (bk_held disk) with err_owned;
  let* budgetID := MandateBudgetID mandateID asset in
  Ok (MkBudgetLedger budgetID MandateBudgetDir (sdrop 4 budgetID) asset).

Definition ledger_path (l : BudgetLedger) : string := bl_stem l +:+ ".json".

Definition ledger_files (dir : budget_dir) (disk : budget_disk) : directory BudgetRecord :=
  match dir with BudgetDir => bk_budgets disk | MandateBudgetDir => bk_mandate_budgets disk end.
Definition set_ledger_files (dir : budget_dir) (files : directory BudgetRecord)
    (script : list write_outcome) (disk : budget_disk) : budget_disk :=
  match dir with
  | BudgetDir => MkBudgetDisk (bk_held disk) files (bk_mandate_budgets disk) script
  | MandateBudgetDir => MkBudgetDisk (bk_held disk) (bk_budgets disk) files script
  end.

Definition asset_of_stored (a : StoredAsset) : Asset :=
  MkAsset (MkNetwork (sa_NetworkID a) (sa_GenesisRootHash a) (sa_GenesisFileHash a))
    (sa_Workchain a) (sa_AccountID a) (sa_MasterCodeHash a) (sa_WalletCodeHash a) (sa_Decimals a).
Definition stored_of_asset (a : Asset) : StoredAsset :=
  MkStoredAsset (nw_ID (a_Network a)) (nw_GenesisRootHash (a_Network a))
    (nw_GenesisFileHash (a_Network a)) (a_Workchain a) (a_AccountID a) (a_MasterCodeHash a)
    (a_WalletCodeHash a) (a_Decimals a).

(** [os.ReadFile] of a ledger file; [None] when there is none. *)
Definition read_ledger_file (files : directory BudgetRecord) (name : string)
    : result (option BudgetRecord) :=
  match files !! name with
  | None => Ok None
  | Some EDir | Some EForeign => Err (NewError "read budget ledger")
  | Some EJunk => Err (NewError "invalid budget ledger")
  | Some (ERec r) => Ok (Some r)
  end.

(** The loop over [record.Reserved]: all the amounts have to be valid, so the
    order Go visits them in makes no difference to what is loaded. *)
Definition holds_valid (asset : Asset) (reserved : gmap string string) : bool :=
  bool_decide (map_Forall (fun _ atomic => is_ok (Money_Validate (MkMoney asset atomic)) = true) reserved).

Definition BudgetLedger_Load (l : BudgetLedger) (disk : budget_disk) : result (option BudgetState) :=
  refuse negb (bk_held disk) with err_owned;
  let* found := read_ledger_file (ledger_files (bl_dir l) disk) (ledger_path l) in
  match found with
  | None => Ok None
  | Some record =>
      refuse negb (String.eqb (br_Schema record) BudgetSchema)
             || negb (String.eqb (br_BudgetID record) (bl_budgetID l))
        with NewError "budget ledger describes another budget";
      let asset := asset_of_stored (br_Asset record) in
      refuse negb (Asset_Same asset (bl_asset l)) with NewError "budget ledger holds another asset";
      let total := MkMoney asset (br_Total record) in
      let spent := MkMoney asset (br_Spent record) in
      call Money_Validate total;
      call Money_Validate spent;
      refuse MaxReservations <? Z.of_nat (size (br_Reserved record))
        with NewError "budget ledger holds more reservations than it may";
      refuse negb (holds_valid asset (br_Reserved record))
        with NewError "an amount must be a canonical decimal count of atomic units";
      Ok (Some (MkBudgetState total spent (MkMoney asset <$> br_Reserved record)))
  end.

Definition ledger_record (l : BudgetLedger) (state : BudgetState) : BudgetRecord :=
  MkBudgetRecord BudgetSchema (bl_budgetID l) (stored_of_asset (bl_asset l))
    (mo_Atomic (bs_Total state)) (mo_Atomic (bs_Spent state)) (mo_Atomic <$> bs_Reserved state).

Definition BudgetLedger_Record (l : BudgetLedger) (state : BudgetState) : action budget_disk unit :=
  fun disk =>
  if negb (bk_held disk) then (Err err_owned, disk) else
  if negb (Asset_Same (mo_Asset (bs_Total state)) (bl_asset l))
  then (Err (NewError "this budget holds another asset"), disk) else
  let '(w, script) := next_outcome (bk_script disk) in
  let '(r, files) := file_replace w (ledger_path l) (ledger_record l state) (ledger_files (bl_dir l) disk) in
  (r, set_ledger_files (bl_dir l) files script disk).

(** A ledger as the budget sees it: the handle and the disk behind it. *)
Record disk_ledger : Type := MkDiskLedger {
  dk_handle : BudgetLedger;
  dk_disk : budget_disk;
}.

#[global] Instance disk_Ledger : Ledger disk_ledger := {
  ledger_Load l := BudgetLedger_Load (dk_handle l) (dk_disk l);
  ledger_Record state l :=
    let '(r, disk) := BudgetLedger_Record (dk_handle l) state (dk_disk l) in
    (r, MkDiskLedger (dk_handle l) disk);
}.

(** ** Negotiation records ([negotiation.go]) *)

Definition MaxNegotiations : Z := 512.
Definition ErrNegotiationsFull : error :=
  Sentinel "this installation carries as many negotiations as it may".

Definition DomainNegotiationRecord : string := "tos.messaging.negotiation-record.v1" +:+ NUL.

Record neg_disk : Type := MkNegDisk {
  nk_held : bool;
  nk_files : directory Snapshot;
  nk_script : list write_outcome;
}.

(** The regular expression [[\x20-\x7e]{1,128}] anchored at both ends. *)
Definition negotiationNamePattern (s : string) : bool :=
  (1 <=? slen s) && (slen s <=? 128) && sforall (in_range " " "~") s.

Definition store_path (negotiationID : string) : result string :=
  refuse negb (negotiationNamePattern negotiationID) with NewError "invalid negotiation identifier";
  Ok (digest_hex (canon_Digest (bytes_of_string (DomainNegotiationRecord +:+ negotiationID))) +:+ ".json").

(** [read]; the file holds what [DecodeSnapshotJSON] parses, which validates it. *)
Definition store_read (files : directory Snapshot) (name : string) : result (option Snapshot) :=
  match files !! name with
  | None => Ok None
  | Some EDir | Some EForeign => Err (NewError "read negotiation record")
  | Some EJunk => Err (NewError "invalid negotiation snapshot")
  | Some (ERec snapshot) => call Snapshot_Validate snapshot; Ok (Some snapshot)
  end.

Definition settledState (state : string) : bool :=
  match State_of_string state with
  | Some StateFinalized | Some StateRejected | Some StateWithdrawn | Some StateExpired => true
  | _ => false
  end.

Fixpoint read_snapshots (files : directory Snapshot) (names : list string) : list Snapshot :=
  match names with
  | [] => []
  | name :: rest =>
      if is_dir files name || negb (json_name name) then read_snapshots files rest else
      match store_read files name with
      | Ok (Some snapshot) => snapshot :: read_snapshots files rest
      | _ => read_snapshots files rest
      end
  end.

Definition snapshot_le (x y : Snapshot) : Prop := str_le (s_ID x) (s_ID y).
#[global] Instance snapshot_le_dec x y : Decision (snapshot_le x y).
Proof. unfold snapshot_le. apply _. Defined.

Definition store_all (files : directory Snapshot) : list Snapshot :=
  merge_sort snapshot_le (read_snapshots files (dir_names files)).

Definition store_count (files : directory Snapshot) : Z :=
  Z.of_nat (length (List.filter (fun snapshot => negb (settledState (s_State snapshot))) (store_all files))).

Definition NegotiationStore_Save (snapshot : Snapshot) : action neg_disk unit :=
  fun disk =>
  if negb (nk_held disk) then (Err err_owned, disk) else
  match Snapshot_Validate snapshot with Err e => (Err e, disk) | Ok _ =>
  match store_path (s_ID snapshot) with Err e => (Err e, disk) | Ok path =>
  if bool_decide (nk_files disk !! path = None) && (MaxNegotiations <=? store_count (nk_files disk))
  then (Err ErrNegotiationsFull, disk) else
  let '(w, script) := next_outcome (nk_script disk) in
  let '(r, files) := file_replace w path snapshot (nk_files disk) in
  (r, MkNegDisk (nk_held disk) files script)
  end end.

Definition NegotiationStore_Load (negotiationID : string) (disk : neg_disk) : result (option Snapshot) :=
  refuse negb (nk_held disk) with err_owned;
  let* path := store_path negotiationID in
  store_read (nk_files disk) path.

Definition NegotiationStore_List (disk : neg_disk) : result (list Snapshot) :=
  refuse negb (nk_held disk) with err_owned;
  Ok (store_all (nk_files disk)).

(** [Remove] and the directory sync; the failures are those of a write. *)
Definition NegotiationStore_Drop (negotiationID : string) (now : time) : action neg_disk unit :=
  fun disk =>
  if negb (nk_held disk) then (Err err_owned, disk) else
  if time_invalid now then (Err (NewError "invalid time"), disk) else
  match store_path negotiationID with Err e => (Err e, disk) | Ok path =>
  match store_read (nk_files disk) path with
  | Err e => (Err e, disk)
  | Ok None => (Ok tt, disk)
  | Ok (Some snapshot) =>
      if negb (settledState (s_State snapshot))
      then (Err (NewError "this negotiation is still open"), disk) else
      let '(w, script) := next_outcome (nk_script disk) in
      match w with
      | WOk => (Ok tt, MkNegDisk (nk_held disk) (delete path (nk_files disk)) script)
      | WFailOld => (Err (NewError "remove negotiation record"), MkNegDisk (nk_held disk) (nk_files disk) script)
      | WFailNew => (Err (NewError "sync event journal directory"),
                     MkNegDisk (nk_held disk) (delete path (nk_files disk)) script)
      end
  end end.

#[global] Instance disk_Store : Store neg_disk := { store_Save := NegotiationStore_Save }.

(** ** The repair at opening *)

Inductive hold_disposition : Type := holdStands | holdReturns | holdBecomesSpend.

Definition holdDisposition (negotiations : directory Snapshot) (negotiationID : string)
    : result hold_disposition :=
  match store_path negotiationID with
  | Err _ => Ok holdReturns
  | Ok path =>
      let* found := store_read negotiations path in
      match found with
      | None => Ok holdReturns
      | Some snapshot =>
          match State_of_string (s_State snapshot) with
          | Some StateIntentAgreed | Some StateCanonicalizationPending => Ok holdStands
          | Some StateFinalized => Ok holdBecomesSpend
          | _ => Ok holdReturns
          end
      end
  end.

(** [new(big.Int).SetString(s, 10)] and [big.Int.String] *)
Definition big_SetString (s : string) : option Z :=
  match s with
  | String "-" digits => Z.opp <$> parse_decimal digits
  | String "+" digits => parse_decimal digits
  | _ => parse_decimal s
  end.
Definition big_String (z : Z) : string :=
  if z <? 0 then "-" +:+ decimal_string (- z) else decimal_string z.

Definition set_br (record : BudgetRecord) (spent : string) (reserved : gmap string string) : BudgetRecord :=
  MkBudgetRecord (br_Schema record) (br_BudgetID record) (br_Asset record) (br_Total record) spent reserved.

(** The loop over [record.Reserved], in the order [holds] Go happens to visit
    it; the flag says whether the record changed. *)
Fixpoint reconcile_holds (negotiations : directory Snapshot) (holds : list (string * string))
    (record : BudgetRecord) (changed : bool) : result (BudgetRecord * bool) :=
  match holds with
  | [] => Ok (record, changed)
  | (id, atomic) :: rest =>
      let* disposition := holdDisposition negotiations id in
      match disposition with
      | holdStands => reconcile_holds negotiations rest record changed
      | holdReturns =>
          reconcile_holds negotiations rest
            (set_br record (br_Spent record) (delete id (br_Reserved record))) true
      | holdBecomesSpend =>
          match big_SetString (br_Spent record), big_SetString atomic with
          | Some spent, Some amount =>
              reconcile_holds negotiations rest
                (set_br record (big_String (spent + amount)) (delete id (br_Reserved record))) true
          | _, _ => Err (NewError "budget ledger holds a non-numeric amount")
          end
      end
  end.

(** [order] is the order Go's map iteration takes, any permutation of the entries. *)
Definition reconcileBudgetFile (order : gmap string string -> list (string * string))
    (w : write_outcome) (negotiations : directory Snapshot) (name : string)
    : action (directory BudgetRecord) unit :=
  fun budgets =>
  match budgets !! name with
  | None | Some EDir | Some EForeign => (Err (NewError "read budget ledger"), budgets)
  | Some EJunk => (Ok tt, budgets)
  | Some (ERec record) =>
      if negb (String.eqb (br_Schema record) BudgetSchema) then (Ok tt, budgets) else
      match reconcile_holds negotiations (order (br_Reserved record)) record false with
      | Err e => (Err e, budgets)
      | Ok (record', changed) =>
          if negb changed then (Ok tt, budgets) else file_replace w name record' budgets
      end
  end.

Fixpoint reconcile_files (order : gmap string string -> list (string * string))
    (ws : string -> write_outcome) (negotiations : directory Snapshot) (names : list string)
    : action (directory BudgetRecord) unit :=
  match names with
  | [] => act_ret tt
  | name :: rest =>
      fun budgets =>
      if is_dir budgets name || negb (json_name name)
      then reconcile_files order ws negotiations rest budgets else
      (reconcileBudgetFile order (ws name) negotiations name;;;
       reconcile_files order ws negotiations rest) budgets
  end.

Definition reconcileCommerce (order : gmap string string -> list (string * string))
    (ws : string -> write_outcome) (negotiations : directory Snapshot)
    : action (directory BudgetRecord) unit :=
  fun budgets => reconcile_files order ws negotiations (dir_names budgets) budgets.

(** ** The ledger keeps its promises *)

Lemma asset_stored_id a : asset_of_stored (stored_of_asset a) = a.
Proof. by destruct a as [[]]. Qed.

Lemma reserved_id asset (r : gmap string Money) :
  map_Forall (fun _ => good_amount asset) r -> MkMoney asset <$> (mo_Atomic <$> r) = r.
Proof.
  intros Hall. rewrite <- map_fmap_compose. rewrite <- (map_fmap_id r) at 2.
  apply map_fmap_ext. intros i m Hi. destruct (Hall i m Hi) as [_ <-]. by destruct m.
Qed.

Lemma Load_written l s disk :
  state_wf s -> mo_Asset (bs_Total s) = bl_asset l -> bk_held disk = true ->
  ledger_files (bl_dir l) disk !! ledger_path l = Some (ERec (ledger_record l s)) ->
  BudgetLedger_Load l disk = Ok (Some s).
Proof.
  intros [Hvt [Hvs Hsa] Hr Hc _] Ha Hh Hf. unfold BudgetLedger_Load, read_ledger_file.
  rewrite Hh, Hf. cbn -[Asset_Same MaxReservations]. rewrite !String.eqb_refl, asset_stored_id. cbn -[Asset_Same MaxReservations].
  rewrite (proj2 (Asset_Same_eq _ _)) by done. cbn [negb]. destruct s as [total spent reserved]. cbn in *.
  rewrite <- Ha. assert (MkMoney (mo_Asset total) (mo_Atomic total) = total) as -> by (by destruct total).
  rewrite <- Hsa. assert (MkMoney (mo_Asset spent) (mo_Atomic spent) = spent) as -> by (by destruct spent).
  rewrite Hvt, Hvs, Hsa, map_size_fmap, (proj2 (Z.ltb_ge _ _)) by lia.
  unfold holds_valid. rewrite bool_decide_true.
  - cbn. by rewrite reserved_id.
  - intros i x (m & <- & Hm)%lookup_fmap_Some. destruct (Hr i m Hm) as [Hv <-]. destruct m; cbn in *. by rewrite Hv.
Qed.

Lemma ledger_files_set dir dir' files script disk :
  ledger_files dir (set_ledger_files dir' files script disk) =
  if bool_decide (dir = dir') then files else ledger_files dir disk.
Proof. by destruct dir, dir'. Qed.

(** What one [Record] does to the disk. *)
Lemma BudgetLedger_Record_cases l s disk r disk' :
  BudgetLedger_Record l s disk = (r, disk') ->
  (is_ok r = false /\ (forall l2, BudgetLedger_Load l2 disk' = BudgetLedger_Load l2 disk)) \/
  (bk_held disk = true /\ mo_Asset (bs_Total s) = bl_asset l /\ bk_held disk' = true /\
   forall dir, ledger_files dir disk' =
     if bool_decide (dir = bl_dir l) then <[ledger_path l := ERec (ledger_record l s)]> (ledger_files dir disk)
     else ledger_files dir disk).
Proof.
  unfold BudgetLedger_Record. destruct (bk_held disk) eqn:Hh; cbn [negb]; [|intros; simplify_eq; auto].
  destruct (Asset_Same _ _) eqn:Ha; cbn [negb]; [|intros; simplify_eq; auto].
  apply Asset_Same_eq in Ha. destruct (next_outcome _) as [w script].
  destruct (file_replace _ _ _ _) as [r0 files] eqn:Hw. intros; simplify_eq.
  assert (forall dir files, bk_held (set_ledger_files dir files script disk) = true) as Hh' by (by intros []).
  apply file_replace_cases in Hw as [[-> Hr]|[-> _]].
  - left. split; [done|]. intros l2. unfold BudgetLedger_Load. rewrite Hh, Hh', ledger_files_set.
    case_bool_decide as E; [by rewrite E|done].
  - right. split_and!; [done..|]. intros dir. rewrite ledger_files_set. case_bool_decide as E; [by rewrite E|done].
Qed.

Lemma Record_Load l s disk r disk' :
  state_wf s -> BudgetLedger_Record l s disk = (r, disk') ->
  (is_ok r = false /\ BudgetLedger_Load l disk' = BudgetLedger_Load l disk) \/
  BudgetLedger_Load l disk' = Ok (Some s).
Proof.
  intros Hs [[? Hl]|(_ & Ha & Hh & Hf)]%BudgetLedger_Record_cases; [left; auto|right].
  apply Load_written; [done..|]. by rewrite Hf, bool_decide_true, lookup_insert_eq by done.
Qed.

#[global] Instance disk_LedgerLaws : LedgerLaws disk_ledger.
Proof.
  split; intros [h disk] s; cbn; destruct (BudgetLedger_Record h s disk) as [r disk1] eqn:E; intros; simplify_eq.
  - by destruct (Record_Load _ _ _ _ _ H E) as [[? _]|].
  - by destruct (Record_Load _ _ _ _ _ H E) as [[_ ?]|]; [left|right].
Qed.

(** ** The store keeps its promises *)

Lemma store_path_inj id id' name :
  store_path id = Ok name -> store_path id' = Ok name -> id = id' \/ sha256_collision.
Proof.
  unfold store_path. intros H H'. inv_ok H. inv_ok H'. apply Ok_inj in H, H'. rewrite <- H' in H.
  apply string_app_inj_r, digest_hex_inj in H.
  apply canon_Digest_inj in H as [H|]; [left|by right].
  apply bytes_of_string_inj in H. by apply string_app_inj_l in H.
Qed.

Definition disk_saved (disk : neg_disk) (id : string) : option Snapshot :=
  match store_path id with
  | Ok path => match store_read (nk_files disk) path with Ok found => found | Err _ => None end
  | Err _ => None
  end.

Lemma Save_cases snap disk r disk' :
  NegotiationStore_Save snap disk = (r, disk') ->
  (is_ok r = false /\ nk_files disk' = nk_files disk) \/
  (Snapshot_Validate snap = Ok tt /\ exists path, store_path (s_ID snap) = Ok path /\
   nk_files disk' = <[path := ERec snap]> (nk_files disk)).
Proof.
  unfold NegotiationStore_Save. destruct (negb _); [intros; simplify_eq; auto|].
  destruct (Snapshot_Validate snap) as [[]|]; [|intros; simplify_eq; auto].
  destruct (store_path _) as [path|]; [|intros; simplify_eq; auto].
  destruct (_ && _); [intros; simplify_eq; auto|].
  destruct (next_outcome _) as [w script]. destruct (file_replace _ _ _ _) as [r0 files] eqn:Hw.
  intros; simplify_eq. apply file_replace_cases in Hw as [[-> ?]|[-> _]]; [left; auto|right].
  split; [done|]. eauto.
Qed.

Lemma Save_saved snap disk r disk' :
  NegotiationStore_Save snap disk = (r, disk') ->
  (is_ok r = false /\ disk_saved disk' (s_ID snap) = disk_saved disk (s_ID snap)) \/
  disk_saved disk' (s_ID snap) = Some snap.
Proof.
  intros [[? E]|(Hv & path & Hp & E)]%Save_cases; [left|right]; unfold disk_saved; [by rewrite E|].
  rewrite Hp, E. unfold store_read. by rewrite lookup_insert_eq, Hv.
Qed.

#[global] Instance disk_StoreLaws : StoreLaws neg_disk.
Proof.
  refine {| store_saved := disk_saved |}; cbn.
  - intros s snap s' H. by destruct (Save_saved _ _ _ _ H) as [[? _]|].
  - intros s snap e s' H. by destruct (Save_saved _ _ _ _ H) as [[_ ?]|]; [left|right].
  - intros s snap r s' id [[_ E]|(_ & path & Hp & E)]%Save_cases Hne; unfold disk_saved; rewrite E; [by left|].
    destruct (store_path id) as [path'|] eqn:Hp'; [|by left].
    destruct (decide (path = path')) as [<-|].
    + destruct (store_path_inj _ _ _ Hp Hp') as [E2|]; [by destruct Hne|by right].
    + left. unfold store_read. by rewrite lookup_insert_ne.
Defined.

(** ** What the repair does *)

#[global] Instance hold_disposition_eq_dec : EqDecision hold_disposition.
Proof. solve_decision. Defined.

(** What the negotiation behind a hold says about it. *)
Definition disposed (negotiations : directory Snapshot) (d : hold_disposition) (id : string) : bool :=
  match holdDisposition negotiations id with Ok d' => bool_decide (d' = d) | Err _ => false end.

Definition holds_of (negotiations : directory Snapshot) (d : hold_disposition)
    (reserved : gmap string Money) : gmap string Money :=
  filter (fun kv : string * Money => disposed negotiations d kv.1 = true) reserved.

(** The holds among [ids] that become a spend. *)
Definition spending (negotiations : directory Snapshot) (ids : list string)
    (reserved : gmap string Money) : gmap string Money :=
  filter (fun kv : string * Money => kv.1 ∈ ids /\ disposed negotiations holdBecomesSpend kv.1 = true) reserved.

Lemma spending_lookup neg ids M i m :
  spending neg ids M !! i = Some m <-> M !! i = Some m /\ i ∈ ids /\ disposed neg holdBecomesSpend i = true.
Proof. unfold spending. by rewrite map_lookup_filter_Some. Qed.

Lemma spending_cons_other neg id ids M :
  disposed neg holdBecomesSpend id = false -> spending neg (id :: ids) M = spending neg ids M.
Proof.
  intros Hd. apply map_eq. intros i. apply option_eq. intros m. rewrite !spending_lookup, elem_of_cons.
  split; intros (? & H & ?); split_and!; auto. destruct H as [->|]; [congruence|done].
Qed.

Lemma spending_delete neg id ids M :
  id ∉ ids -> spending neg ids (delete id M) = spending neg ids M.
Proof.
  intros Hid. apply map_eq. intros i. apply option_eq. intros m. rewrite !spending_lookup, lookup_delete_Some.
  split; [intros ([? ?] & ? & ?); auto|]. intros (? & ? & ?). split_and!; auto. by intros ->.
Qed.

Lemma spending_cons neg id ids M m :
  id ∉ ids -> disposed neg holdBecomesSpend id = true -> M !! id = Some m ->
  holds (spending neg (id :: ids) M) = mval m + holds (spending neg ids (delete id M)).
Proof.
  intros Hid Hd Hm. rewrite (holds_delete _ id m).
  - f_equal. f_equal. apply map_eq. intros i. apply option_eq. intros x.
    rewrite lookup_delete_Some, !spending_lookup, lookup_delete_Some, elem_of_cons.
    split; [intros (? & ? & [->|] & ?); [done|auto]|intros ([? ?] & ? & ?); split_and!; auto].
  - apply spending_lookup. split_and!; [done|by left|done].
Qed.

Lemma big_SetString_decimal n : 0 <= n -> big_SetString (decimal_string n) = Some n.
Proof.
  intros Hn. pose proof (parse_decimal_string n Hn) as Hp. unfold big_SetString.
  destruct (decimal_string n) as [|c rest] eqn:E; [done|].
  assert (is_digit c = true) as Hc.
  { unfold parse_decimal in Hp. cbn [list_ascii_of_string] in Hp.
    destruct (forallb is_digit _) eqn:Hd; [|done]. cbn in Hd. by apply andb_prop in Hd as [? _]. }
  assert (c <> "-"%char /\ c <> "+"%char) as [H1 H2] by (split; intros ->; discriminate Hc).
  destruct c as [[] [] [] [] [] [] [] []]; done.
Qed.

Lemma good_amount_atomic asset m : good_amount asset m -> mo_Atomic m = decimal_string (mval m) /\ 0 <= mval m < 10 ^ 78.
Proof.
  intros Hg. apply good_amount_Int in Hg as [H ?]. by apply Money_Int_Ok in H as (_ & _ & ?).
Qed.

(** What is left of the holds after visiting [ids]. *)
Definition left_after (neg : directory Snapshot) (ids : list string) (M M' : gmap string Money) : Prop :=
  forall i, M' !! i = if bool_decide (i ∈ ids) && negb (disposed neg holdStands i) then None else M !! i.

Lemma left_after_stand neg id ids M M' :
  disposed neg holdStands id = true -> left_after neg ids M M' -> left_after neg (id :: ids) M M'.
Proof.
  intros Hd HM i. rewrite HM. destruct (decide (i = id)) as [->|]; [by rewrite Hd, !andb_false_r|].
  by rewrite (bool_decide_ext (i ∈ ids) (i ∈ id :: ids)) by set_solver.
Qed.

Lemma left_after_drop neg id ids M M' :
  disposed neg holdStands id = false -> left_after neg ids (delete id M) M' -> left_after neg (id :: ids) M M'.
Proof.
  intros Hd HM i. rewrite HM. destruct (decide (i = id)) as [->|].
  - rewrite Hd, lookup_delete_eq, (bool_decide_true (id ∈ id :: _)) by set_solver. by destruct (bool_decide _).
  - rewrite lookup_delete_ne by done. by rewrite (bool_decide_ext (i ∈ ids) (i ∈ id :: ids)) by set_solver.
Qed.

(** The loop over any list of distinct holds of the record. *)
Lemma reconcile_holds_spec neg asset l record M sp changed record' changed' :
  NoDup l.*1 -> Forall (fun kv => exists m, M !! kv.1 = Some m /\ kv.2 = mo_Atomic m) l ->
  map_Forall (fun _ => good_amount asset) M ->
  br_Reserved record = mo_Atomic <$> M -> br_Spent record = decimal_string sp -> 0 <= sp ->
  reconcile_holds neg l record changed = Ok (record', changed') ->
  exists M', record' = set_br record (decimal_string (sp + holds (spending neg l.*1 M))) (mo_Atomic <$> M') /\
    left_after neg l.*1 M M' /\
    (changed' = false -> changed = false /\ record' = record).
Proof.
  intros Hnd Hl. revert record M sp changed Hl. induction l as [|[id a] l IH]; intros record M sp changed Hl Hg Hr Hs Hsp.
  { cbn. intros [= <- <-]. exists M. split_and!; [|done|done].
    assert (spending neg [] M = ∅) as ->.
    { apply map_eq. intros i. rewrite lookup_empty. apply eq_None_not_Some. intros [m Hm].
      by apply spending_lookup in Hm as (_ & ?%elem_of_nil & _). }
    unfold holds. rewrite map_fold_empty, Z.add_0_r. destruct record; cbn in *. by subst. }
  cbn [fmap list_fmap fst] in Hnd |- *. apply NoDup_cons in Hnd as [Hid Hnd].
  apply Forall_cons in Hl as [(m & Hm & Ha) Hl]. cbn in Hm, Ha. subst a.
  assert (forall d, holdDisposition neg id = Ok d -> forall d', disposed neg d' id = bool_decide (d = d')) as Hdis.
  { intros d H d'. unfold disposed. by rewrite H. }
  cbn [reconcile_holds]. destruct (holdDisposition neg id) as [d|] eqn:Hd; [|done].
  specialize (Hdis d eq_refl).
  assert (Forall (fun kv => exists m, delete id M !! kv.1 = Some m /\ kv.2 = mo_Atomic m) l) as Hl'.
  { rewrite !Forall_forall in *. intros [i b] Hi. destruct (Hl _ Hi) as (x & Hx & Eb). exists x. split; [|done].
    cbn in *. rewrite lookup_delete_ne; [done|]. intros ->. apply Hid. apply list_elem_of_fmap. by exists (i, b). }
  destruct d.
  - intros H. apply (IH Hnd record M sp changed) in H as (M' & -> & HM & Hc); [|done..].
    exists M'. split_and!; [|by apply left_after_stand; [rewrite Hdis|]|done].
    by rewrite spending_cons_other by (by rewrite Hdis).
  - intros H. apply (IH Hnd _ (delete id M) sp true) in H as (M' & -> & HM & Hc); [|done|by apply map_Forall_delete|
      cbn; by rewrite fmap_delete, Hr|done|done].
    exists M'. split_and!; [|by apply left_after_drop; [rewrite Hdis|]|intros ?; by destruct Hc].
    by rewrite spending_delete, spending_cons_other by (done || by rewrite Hdis).
  - destruct (good_amount_atomic _ _ (Hg _ _ Hm)) as [Ham Hmv].
    rewrite Hs, Ham, !big_SetString_decimal by lia. unfold big_String. rewrite (proj2 (Z.ltb_ge _ _)) by lia.
    intros H. apply (IH Hnd _ (delete id M) (sp + mval m) true) in H as (M' & -> & HM & Hc); [|done|by apply map_Forall_delete|
      cbn; by rewrite fmap_delete, Hr|done|lia].
    exists M'. split_and!; [|by apply left_after_drop; [rewrite Hdis|]|intros ?; by destruct Hc].
    rewrite (spending_cons _ _ _ _ m) by (done || by rewrite Hdis). by rewrite Z.add_assoc.
Qed.

(** How a successful repair changes one directory entry. *)
Definition repaired (order : gmap string string -> list (string * string))
    (neg : directory Snapshot) (e e' : dirent BudgetRecord) : Prop :=
  match e with
  | ERec record =>
      if String.eqb (br_Schema record) BudgetSchema
      then exists record' changed,
             reconcile_holds neg (order (br_Reserved record)) record false = Ok (record', changed) /\
             e' = ERec (if changed : bool then record' else record)
      else e' = e
  | EJunk => e' = e
  | EDir | EForeign => False
  end.

Lemma reconcileBudgetFile_ok order w neg name b u b' :
  reconcileBudgetFile order w neg name b = (Ok u, b') ->
  (exists e e', b !! name = Some e /\ b' !! name = Some e' /\ repaired order neg e e') /\
  forall m, m <> name -> b' !! m = b !! m.
Proof.
  unfold reconcileBudgetFile, repaired. destruct (b !! name) as [[| | |record]|] eqn:Hn; try done.
  { intros [= _ <-]. split; [|done]. by exists EJunk, EJunk. }
  destruct (String.eqb _ _) eqn:Hs; cbn [negb].
  2: { intros [= _ <-]. split; [|done]. exists (ERec record), (ERec record). by rewrite Hs. }
  destruct (reconcile_holds _ _ _ _) as [[record' []]|] eqn:Hr; cbn [negb]; [| |done].
  - intros ->%file_replace_Ok. split; [|intros m Hm; by rewrite lookup_insert_ne].
    exists (ERec record), (ERec record'). rewrite lookup_insert_eq, Hs. eauto 6.
  - intros [= _ <-]. split; [|done]. exists (ERec record), (ERec record). rewrite Hs. eauto 6.
Qed.

Lemma reconcile_files_ok order ws neg names b u b' :
  NoDup names -> reconcile_files order ws neg names b = (Ok u, b') ->
  (forall m, m ∉ names -> b' !! m = b !! m) /\
  (forall name e, name ∈ names -> b !! name = Some e -> is_dir b name = false -> json_name name = true ->
     exists e', b' !! name = Some e' /\ repaired order neg e e').
Proof.
  intros Hnd. revert b. induction Hnd as [|x names Hx Hnd IH]; intros b; cbn [reconcile_files].
  { intros [= _ <-]. split; [done|]. by intros name e ?%elem_of_nil. }
  destruct (is_dir b x || negb (json_name x)) eqn:Hskip.
  - intros [H1 H2]%IH. split; [intros; apply H1; set_solver|].
    intros name e [->|Hin]%elem_of_cons He Hd Hj; [by rewrite Hd, Hj in Hskip|by apply H2].
  - unfold act_bind. destruct (reconcileBudgetFile _ _ _ _ _) as [[u1|] b1] eqn:Hf; [|done].
    apply reconcileBudgetFile_ok in Hf as [(e0 & e1 & Hb & Hb1 & Hrep) Hother].
    intros [H1 H2]%IH. split.
    + intros m [Hm Hm']%not_elem_of_cons. by rewrite H1, Hother.
    + intros name e [->|Hin]%elem_of_cons He Hd Hj.
      * rewrite H1, Hb1 by done. exists e1. split; [done|]. by assert (e = e0) as -> by congruence.
      * assert (name <> x) by (by intros ->). apply H2; [done|by rewrite Hother| |done].
        unfold is_dir in *. by rewrite Hother.
Qed.

Lemma holds_split (P Q : string -> bool) asset M :
  (forall id, P id = true -> Q id = false) -> map_Forall (fun _ => good_amount asset) M ->
  holds (filter (fun kv : string * Money => P kv.1 = true) M) +
  holds (filter (fun kv : string * Money => Q kv.1 = true) M) <= holds M.
Proof.
  intros HPQ. induction M as [|i m M Hi IH] using map_ind.
  { intros _. by rewrite !map_filter_empty. }
  intros [Hm Hall]%map_Forall_insert; [|done]. specialize (IH Hall).
  apply good_amount_Int in Hm as [_ Hm]. rewrite (holds_insert M i m Hi).
  assert (forall R : string -> bool,
    holds (filter (fun kv : string * Money => R kv.1 = true) (<[i:=m]> M)) =
    (if R i then mval m else 0) + holds (filter (fun kv : string * Money => R kv.1 = true) M)) as Hstep.
  { intros R. destruct (R i) eqn:HR.
    - rewrite map_filter_insert_True by done. apply holds_insert.
      apply map_lookup_filter_None. by left.
    - rewrite map_filter_insert_not by (intros ?; cbn; congruence). lia. }
  rewrite !Hstep. specialize (HPQ i). destruct (P i), (Q i); lia || by specialize (HPQ eq_refl).
Qed.

(** What a ledger file that loads looks like. *)
Lemma Load_inv l disk s :
  BudgetLedger_Load l disk = Ok (Some s) ->
  bk_held disk = true /\ exists record,
    ledger_files (bl_dir l) disk !! ledger_path l = Some (ERec record) /\
    br_Schema record = BudgetSchema /\ br_BudgetID record = bl_budgetID l /\
    asset_of_stored (br_Asset record) = bl_asset l /\
    bs_Total s = MkMoney (bl_asset l) (br_Total record) /\ bs_Spent s = MkMoney (bl_asset l) (br_Spent record) /\
    bs_Reserved s = MkMoney (bl_asset l) <$> br_Reserved record.
Proof.
  unfold BudgetLedger_Load, read_ledger_file. destruct (bk_held disk); [cbn [negb]|done].
  destruct (_ !! _) as [[| | |record]|] eqn:Hf; try done. cbv zeta. intros H. inv_ok H. breflect.
  match goal with E : Asset_Same _ _ = true |- _ => apply Asset_Same_eq in E; rename E into Ha end.
  rewrite Ha in *. apply Ok_inj in H. injection H as <-. split; [done|]. exists record. split_and!; done.
Qed.

Lemma atomic_reserved asset (r : gmap string string) : mo_Atomic <$> (MkMoney asset <$> r) = r.
Proof. rewrite <- map_fmap_compose. rewrite <- (map_fmap_id r) at 2. by apply map_fmap_ext. Qed.

Lemma disposed_disjoint neg id : disposed neg holdStands id = true -> disposed neg holdBecomesSpend id = false.
Proof.
  unfold disposed. destruct (holdDisposition neg id) as [d|]; [|done].
  intros ->%bool_decide_eq_true. by rewrite bool_decide_false.
Qed.

(** The record the repair writes loads as the repaired state. *)
Lemma Load_repaired l disk files s M' sp' :
  BudgetLedger_Load l disk = Ok (Some s) -> state_wf s ->
  M' ⊆ bs_Reserved s -> mval (bs_Spent s) <= sp' -> sp' + holds M' <= mval (bs_Total s) ->
  (forall record, ledger_files (bl_dir l) disk !! ledger_path l = Some (ERec record) ->
     files !! ledger_path l = Some (ERec (set_br record (decimal_string sp') (mo_Atomic <$> M')))) ->
  let s' := MkBudgetState (bs_Total s) (MkMoney (bl_asset l) (decimal_string sp')) M' in
  BudgetLedger_Load l (set_ledger_files (bl_dir l) files (bk_script disk) disk) = Ok (Some s') /\
  state_wf s' /\ mval (bs_Spent s') = sp'.
Proof.
  intros Hload Hwf Hsub Hge Hbound Hfiles s'. pose proof Hwf as [Hvt Hgs Hgr Hc Hb].
  destruct (Load_inv _ _ _ Hload) as (Hh & record & Hf & Hsch & Hid & Ha & Ht & Hsp & Hr).
  assert (mo_Asset (bs_Total s) = bl_asset l) as Hta by (by rewrite Ht).
  assert (map_Forall (fun _ => good_amount (bl_asset l)) M') as Hg'.
  { intros i m Hi. rewrite <- Hta. apply (Hgr i), (lookup_weaken _ _ _ _ Hi Hsub). }
  pose proof (holds_nonneg _ _ Hg') as Hnn.
  destruct (good_amount_Int _ _ Hgs) as [_ Hsr].
  destruct (good_amount_Int (bl_asset l) (bs_Total s)) as [_ Htr]; [by split|].
  apply Money_Validate_inv in Hvt as [Hav _]. rewrite Hta in Hav.
  pose proof (Money_Int_build (bl_asset l) sp' Hav ltac:(lia)) as Hint.
  pose proof (Money_Int_Ok _ _ Hint) as (Hvs & _ & _).
  assert (mval (MkMoney (bl_asset l) (decimal_string sp')) = sp') as Hmv by (unfold mval; by rewrite Hint).
  assert (state_wf s') as Hwf'.
  { subst s'. constructor; cbn [bs_Total bs_Spent bs_Reserved]; rewrite ?Hmv, ?Hta; [apply Hwf|done|done| |done].
    pose proof (map_subseteq_size _ _ Hsub). lia. }
  split_and!; [|done|exact Hmv].
  apply Load_written; [done|done|by destruct (bl_dir l)|].
  rewrite ledger_files_set, bool_decide_true, (Hfiles _ Hf) by done. do 2 f_equal.
  unfold ledger_record, set_br. subst s'. cbn [bs_Total bs_Spent bs_Reserved]. rewrite Ht, Hsch, Hid. cbn [mo_Atomic].
  f_equal. rewrite <- Ha. by destruct (br_Asset record).
Qed.

(** The ledger file after the repair, whatever order the holds were visited in. *)
Lemma reconcile_record order ws neg l disk s budgets' :
  (forall m, order m ≡ₚ map_to_list m) -> bl_dir l = BudgetDir ->
  BudgetLedger_Load l disk = Ok (Some s) -> state_wf s ->
  reconcileCommerce order ws neg (bk_budgets disk) = (Ok tt, budgets') ->
  forall record, bk_budgets disk !! ledger_path l = Some (ERec record) ->
  budgets' !! ledger_path l = Some (ERec (set_br record
    (decimal_string (mval (bs_Spent s) + holds (holds_of neg holdBecomesSpend (bs_Reserved s))))
    (mo_Atomic <$> holds_of neg holdStands (bs_Reserved s)))).
Proof.
  intros Hord Hdir Hload [Hvt Hgs Hgr _ _] Hrec record0 Hf0.
  destruct (Load_inv _ _ _ Hload) as (Hh & record & Hf & Hsch & _ & _ & Ht & Hsp & Hr).
  rewrite Hdir in Hf. cbn in Hf. assert (record0 = record) as -> by congruence. clear Hf0.
  destruct (reconcile_files_ok _ _ _ _ _ _ _ (NoDup_dir_names _) Hrec) as [_ Hin].
  destruct (Hin (ledger_path l) (ERec record)) as (e' & He' & Hrep);
    [apply elem_of_dir_names; by eexists|done|unfold is_dir; by rewrite Hf|apply json_name_path|].
  rewrite He'. unfold repaired in Hrep. rewrite Hsch, String.eqb_refl in Hrep.
  destruct Hrep as (record' & changed & Hrh & ->).
  set (l0 := order (br_Reserved record)) in *. pose proof (Hord (br_Reserved record)) as Hperm. fold l0 in Hperm.
  assert (forall i, i ∈ l0.*1 <-> is_Some (bs_Reserved s !! i)) as Hdom.
  { intros i. rewrite Hperm, Hr, lookup_fmap, fmap_is_Some, list_elem_of_fmap. split.
    - intros ([k v] & -> & Hv%elem_of_map_to_list). by eexists.
    - intros [v Hv]. exists (i, v). split; [done|]. by apply elem_of_map_to_list. }
  destruct (good_amount_atomic _ _ Hgs) as [Hsa Hsv]. rewrite Hsp in Hsa at 1. cbn in Hsa.
  destruct (reconcile_holds_spec neg (mo_Asset (bs_Total s)) l0 record (bs_Reserved s) (mval (bs_Spent s)) false record' changed)
    as (M' & Hrec' & HM & Hch); [rewrite Hperm; apply NoDup_fst_map_to_list| |done|by rewrite Hr, atomic_reserved|done|lia|done|].
  { rewrite Hperm. apply Forall_forall. intros [k v] Hv%elem_of_map_to_list. exists (MkMoney (bl_asset l) v).
    rewrite Hr, lookup_fmap. cbn. by rewrite Hv. }
  assert ((if changed then record' else record) = record') as -> by (destruct changed; [done|]; by destruct Hch).
  rewrite Hrec'. do 2 f_equal. unfold set_br. f_equal; [do 3 f_equal|f_equal].
  - apply map_eq. intros i. apply option_eq. intros m. unfold holds_of.
    rewrite spending_lookup, map_lookup_filter_Some, Hdom. cbn.
    split; [intros (? & _ & ?); auto|]. intros [Hm ?]. split_and!; [done|by eexists|done].
  - apply map_eq. intros i. rewrite HM. unfold holds_of. symmetry.
    destruct (bs_Reserved s !! i) as [m|] eqn:Hm.
    + rewrite bool_decide_true by (apply Hdom; by eexists). cbn [andb].
      destruct (disposed neg holdStands i) eqn:Hd; cbn [negb].
      * by apply map_lookup_filter_Some.
      * apply map_lookup_filter_None. right. intros x _. cbn. congruence.
    + destruct (_ && _); apply map_lookup_filter_None; by left.
Qed.

Lemma reconcile_loaded order ws neg l disk s budgets' :
  (forall m, order m ≡ₚ map_to_list m) -> bl_dir l = BudgetDir ->
  BudgetLedger_Load l disk = Ok (Some s) -> state_wf s ->
  reconcileCommerce order ws neg (bk_budgets disk) = (Ok tt, budgets') ->
  exists s', BudgetLedger_Load l (set_ledger_files BudgetDir budgets' (bk_script disk) disk) = Ok (Some s') /\
    state_wf s' /\ bs_Total s' = bs_Total s /\ bs_Reserved s' = holds_of neg holdStands (bs_Reserved s) /\
    mval (bs_Spent s') = mval (bs_Spent s) + holds (holds_of neg holdBecomesSpend (bs_Reserved s)).
Proof.
  intros Hord Hdir Hload Hwf Hrec.
  pose proof (reconcile_record _ _ _ _ _ _ _ Hord Hdir Hload Hwf Hrec) as Hfiles.
  pose proof Hwf as [_ _ Hgr _ Hb].
  pose proof (holds_split _ _ _ _ (disposed_disjoint neg) Hgr) as Hsplit.
  assert (map_Forall (fun _ => good_amount (mo_Asset (bs_Total s))) (holds_of neg holdBecomesSpend (bs_Reserved s))) as Hg.
  { intros i m [Hi _]%map_lookup_filter_Some. by apply (Hgr i). }
  pose proof (holds_nonneg _ _ Hg) as Hnn.
  destruct (Load_repaired l disk budgets' s (holds_of neg holdStands (bs_Reserved s))
    (mval (bs_Spent s) + holds (holds_of neg holdBecomesSpend (bs_Reserved s)))) as (Hl & Hw & Hm);
    [done..|apply map_filter_subseteq|lia| |rewrite Hdir; done|].
  - unfold holds_of in *. cbn in *. lia.
  - rewrite Hdir in Hl. eexists. split; [exact Hl|]. done.
Qed.

(** ** After a repair every hold left is one that stands *)

Lemma reconcile_holds_changed neg l record record' changed' :
  reconcile_holds neg l record true = Ok (record', changed') -> changed' = true.
Proof.
  revert record. induction l as [|[id a] l IH]; intros record; cbn [reconcile_holds]; [by intros [= _ <-]|].
  destruct (holdDisposition neg id) as [[]|]; [apply IH..| |done].
  destruct (big_SetString (br_Spent record)), (big_SetString a); try done. apply IH.
Qed.

Lemma reconcile_holds_rest neg l record changed record' changed' :
  reconcile_holds neg l record changed = Ok (record', changed') ->
  br_Schema record' = br_Schema record /\
  (forall i a, br_Reserved record' !! i = Some a -> br_Reserved record !! i = Some a /\
     (i ∈ l.*1 -> disposed neg holdStands i = true)) /\
  (changed' = false -> record' = record).
Proof.
  revert record changed. induction l as [|[id a] l IH]; intros record changed; cbn [reconcile_holds].
  { intros [= <- <-]. split_and!; [done| |done]. intros i b Hi. split; [done|]. by intros ?%elem_of_nil. }
  destruct (holdDisposition neg id) as [d|] eqn:Hd; [|done].
  assert (forall spent,
    reconcile_holds neg l (set_br record spent (delete id (br_Reserved record))) true = Ok (record', changed') ->
    br_Schema record' = br_Schema record /\
    (forall i b, br_Reserved record' !! i = Some b -> br_Reserved record !! i = Some b /\
       (i ∈ ((id, a) :: l).*1 -> disposed neg holdStands i = true)) /\
    (changed' = false -> record' = record)) as Hdel.
  { intros spent H. pose proof (reconcile_holds_changed _ _ _ _ _ H) as ->.
    apply IH in H as (Hs & Hi & _). cbn in Hs, Hi. split_and!; [done| |done].
    intros i b [Hb Hin]%Hi. apply lookup_delete_Some in Hb as [Hne Hb]. split; [done|].
    intros [?|?]%elem_of_cons; [done|auto]. }
  destruct d.
  - intros (Hs & Hi & Hc)%IH. split_and!; [done| |done]. intros i b [Hb Hin]%Hi. split; [done|].
    intros [->|?]%elem_of_cons; [|auto]. unfold disposed. cbn. by rewrite Hd.
  - apply Hdel.
  - destruct (big_SetString (br_Spent record)), (big_SetString a); try done. apply Hdel.
Qed.

Lemma reconcile_holds_standing neg l record :
  Forall (fun kv => disposed neg holdStands kv.1 = true) l -> reconcile_holds neg l record false = Ok (record, false).
Proof.
  induction 1 as [|[id a] l Hd Hl IH]; [done|]. cbn [reconcile_holds]. unfold disposed in Hd. cbn in Hd.
  destruct (holdDisposition neg id) as [d|]; [|done]. by apply bool_decide_eq_true in Hd as ->.
Qed.

(** A repaired entry is left alone by any later repair. *)
Lemma repaired_stable order order2 w neg e e' name b :
  (forall m, order m ≡ₚ map_to_list m) -> (forall m, order2 m ≡ₚ map_to_list m) ->
  repaired order neg e e' -> b !! name = Some e' -> reconcileBudgetFile order2 w neg name b = (Ok tt, b).
Proof.
  intros Hord Hord2 Hrep Hb. unfold reconcileBudgetFile. rewrite Hb. destruct e as [| | |record]; try done.
  { by rewrite Hrep. }
  cbn in Hrep. destruct (String.eqb _ _) eqn:Hs.
  2: { rewrite Hrep, Hs. done. }
  destruct Hrep as (record' & changed & Hr & ->). apply reconcile_holds_rest in Hr as (Hsch & Hi & Hc).
  assert ((if changed then record' else record) = record') as -> by (destruct changed; [done|by rewrite Hc]).
  rewrite Hsch, Hs. cbn [negb]. rewrite reconcile_holds_standing; [done|].
  rewrite Hord2. apply Forall_forall. intros [i a] Ha%elem_of_map_to_list. apply Hi in Ha as [Ha Hst]. apply Hst.
  rewrite Hord. apply list_elem_of_fmap. exists (i, a). split; [done|]. by apply elem_of_map_to_list.
Qed.

Lemma reconcile_files_dir order ws neg names b u b' name :
  reconcile_files order ws neg names b = (Ok u, b') -> b !! name = Some EDir -> b' !! name = b !! name.
Proof.
  revert b. induction names as [|x names IH]; intros b; cbn [reconcile_files]; [by intros [= _ <-]|].
  destruct (is_dir b x || negb (json_name x)) eqn:Hskip; [apply IH|].
  unfold act_bind. destruct (reconcileBudgetFile _ _ _ _ _) as [[u1|] b1] eqn:Hf; [|done].
  apply reconcileBudgetFile_ok in Hf as [_ Hother]. intros H Hd.
  assert (name <> x) as Hne. { intros ->. unfold is_dir in Hskip. by rewrite Hd in Hskip. }
  rewrite <- (Hother _ Hne). apply (IH b1 H). by rewrite Hother.
Qed.

Lemma reconcile_twice order ws order2 ws2 neg b b' :
  (forall m, order m ≡ₚ map_to_list m) -> (forall m, order2 m ≡ₚ map_to_list m) ->
  reconcileCommerce order ws neg b = (Ok tt, b') ->
  reconcileCommerce order2 ws2 neg b' = (Ok tt, b').
Proof.
  intros Hord Hord2 H. unfold reconcileCommerce in *.
  destruct (reconcile_files_ok _ _ _ _ _ _ _ (NoDup_dir_names _) H) as [Hout Hin].
  assert (forall name, is_dir b' name = false -> json_name name = true -> is_Some (b' !! name) ->
            reconcileBudgetFile order2 (ws2 name) neg name b' = (Ok tt, b')) as Hstable.
  { intros name Hd Hj [e' He'].
    assert (is_Some (b !! name)) as [e He].
    { destruct (b !! name) eqn:E; [by eexists|]. rewrite Hout in He'; [congruence|].
      intros [? ?]%elem_of_dir_names. congruence. }
    assert (is_dir b name = false) as Hd0.
    { unfold is_dir. rewrite He. destruct e; [|done..]. exfalso.
      assert (b' !! name = Some EDir) as Hk; [|unfold is_dir in Hd; by rewrite Hk in Hd].
      rewrite <- He. by apply (reconcile_files_dir _ _ _ _ _ _ _ _ H). }
    destruct (Hin name e) as (e1 & He1 & Hrep); [apply elem_of_dir_names; by eexists|done..|].
    by apply (repaired_stable order order2 _ _ e e1). }
  assert (forall names, Forall (fun n => is_Some (b' !! n)) names ->
            reconcile_files order2 ws2 neg names b' = (Ok tt, b')) as Hall.
  { induction 1 as [|x names Hx Hl IH]; [done|]. cbn [reconcile_files].
    destruct (is_dir b' x) eqn:Hd; [done|]. destruct (json_name x) eqn:Hj; [|done]. cbn [orb negb].
    unfold act_bind. by rewrite Hstable. }
  apply Hall, Forall_forall. intros n Hn. by apply elem_of_dir_names.
Qed.

Lemma holds_elem asset M i m :
  map_Forall (fun _ => good_amount asset) M -> M !! i = Some m -> mval m <= holds M.
Proof.
  intros Hg Hi. rewrite (holds_delete _ _ _ Hi).
  pose proof (holds_nonneg _ _ (map_Forall_delete _ _ i Hg)). lia.
Qed.

(** A stored snapshot decides what becomes of its hold. *)
Lemma disposed_saved disk id snap d :
  disk_saved disk id = Some snap ->
  match State_of_string (s_State snap) with
  | Some StateIntentAgreed | Some StateCanonicalizationPending => d = holdStands
  | Some StateFinalized => d = holdBecomesSpend
  | _ => d = holdReturns
  end -> disposed (nk_files disk) d id = true.
Proof.
  unfold disk_saved, disposed, holdDisposition. intros H Hd.
  destruct (store_path id) as [p|]; [|done]. destruct (store_read _ _) as [o|]; [|done]. subst o.
  destruct (State_of_string _) as [[]|]; subst d; by apply bool_decide_eq_true.
Qed.

(** ** Identifiers of budgets *)

Lemma Asset_fields_wf a : Asset_Validate a = Ok tt -> Asset_typed a -> Forall field_wf (Asset_fields a).
Proof.
  intros Hv Ht. assert (Money_Validate (MkMoney a "0") = Ok tt) as Hm.
  { unfold Money_Validate. cbn [mo_Asset mo_Atomic]. by rewrite Hv. }
  apply Money_fields_wf in Hm; [|done]. by apply Forall_app in Hm as [? _].
Qed.

Lemma Asset_fields_inj a a' : Asset_typed a -> Asset_typed a' -> Asset_fields a = Asset_fields a' -> a = a'.
Proof.
  intros Ha Ha' E. destruct (Money_fields_inj (MkMoney a "0") (MkMoney a' "0") [] []) as [H _]; [done..| |].
  - unfold Money_fields. cbn [mo_Asset mo_Atomic]. by rewrite E.
  - congruence.
Qed.

Lemma write_asset_fields asset buffer : write_asset asset buffer = write_fields buffer (Asset_fields asset).
Proof.
  rewrite <- Asset_canonical_fields. unfold write_asset, Asset_canonical, Network_canonical.
  destruct (canon_Hash32 _ (nw_GenesisRootHash _)); [|done].
  by destruct (canon_Hash32 _ (nw_GenesisFileHash _)).
Qed.

Lemma OpenBudgetLedger_path a disk l :
  Asset_typed a -> OpenBudgetLedger a disk = Ok l ->
  Asset_Validate a = Ok tt /\ bl_dir l = BudgetDir /\
  ledger_path l = digest_hex (canon_Digest (bytes_of_string DomainBudget ++ fields_bytes (Asset_fields a))) +:+ ".json".
Proof.
  intros Ht H. unfold OpenBudgetLedger, BudgetID in H. inv_ok H. inv_ok Heqr.
  destruct a1. apply Ok_inj in H, Heqr. rewrite write_asset_fields, write_fields_wf in Heqr1 by (by apply Asset_fields_wf).
  apply Ok_inj in Heqr1. subst. split_and!; done.
Qed.

Lemma OpenMandateBudgetLedger_path m a disk l :
  Asset_typed a -> OpenMandateBudgetLedger m a disk = Ok l ->
  Asset_Validate a = Ok tt /\ slen m <= 128 /\ bl_dir l = MandateBudgetDir /\
  ledger_path l = digest_hex (canon_Digest (bytes_of_string DomainMandateBudget ++
                    fields_bytes (FText m :: Asset_fields a))) +:+ ".json".
Proof.
  intros Ht H. unfold OpenMandateBudgetLedger, MandateBudgetID in H. inv_ok H. inv_ok Heqr. breflect.
  destruct a1. apply Ok_inj in H, Heqr.
  rewrite write_asset_fields, write_fields_wf, canon_Text_app, <- app_assoc in Heqr1 by (by apply Asset_fields_wf).
  apply Ok_inj in Heqr1. subst. split_and!; [done|lia|done|done].
Qed.

(** ** Properties *)

(** C30: The durable ledger is a ledger: a well-formed state that was recorded is
    exactly what is loaded next, a failed write leaves the old or the whole new
    state, and no write to one budget changes what any other budget of the
    installation loads. *)
Theorem disk_ledger_roundtrip l s disk r disk' :
  state_wf s -> BudgetLedger_Record l s disk = (r, disk') ->
  (r = Ok tt -> BudgetLedger_Load l disk' = Ok (Some s)) /\
  (BudgetLedger_Load l disk' = BudgetLedger_Load l disk \/ BudgetLedger_Load l disk' = Ok (Some s)) /\
  (forall l2, bl_dir l2 <> bl_dir l \/ ledger_path l2 <> ledger_path l ->
     BudgetLedger_Load l2 disk' = BudgetLedger_Load l2 disk).
Proof.
  intros Hs H. split_and!.
  - intros ->. by destruct (Record_Load _ _ _ _ _ Hs H) as [[? _]|].
  - destruct (Record_Load _ _ _ _ _ Hs H) as [[_ ?]|]; auto.
  - intros l2 Hne. apply BudgetLedger_Record_cases in H as [[_ H]|(Hh & _ & Hh' & Hf)]; [done|].
    unfold BudgetLedger_Load, read_ledger_file. rewrite Hh, Hh', Hf. case_bool_decide as E; [|done].
    rewrite lookup_insert_ne; [done|]. destruct Hne as [|Hne]; [done|]. congruence.
Qed.


(** Opening again repairs nothing more: after a successful repair, a second
    one over the same negotiations succeeds without a single write, whatever
    order it visits the holds in and however its writes would have ended. *)
Theorem reconcile_idempotent order ws order2 ws2 neg b b' :
  (forall m, order m ≡ₚ map_to_list m) -> (forall m, order2 m ≡ₚ map_to_list m) ->
  reconcileCommerce order ws neg b = (Ok tt, b') ->
  reconcileCommerce order2 ws2 neg b' = (Ok tt, b').
Proof. apply reconcile_twice. Qed.

(** No two budgets share a file: two mandates, or one mandate over two assets,
    get different per-mandate ledgers, two assets get different per-asset ones,
    short of a SHA-256 collision, and the two kinds live in different
    directories. *)
Theorem budgets_separate m a m' a' disk l l' :
  Asset_typed a -> Asset_typed a' ->
  (OpenMandateBudgetLedger m a disk = Ok l -> OpenMandateBudgetLedger m' a' disk = Ok l' ->
   ledger_path l = ledger_path l' -> (m = m' /\ a = a') \/ sha256_collision) /\
  (OpenBudgetLedger a disk = Ok l -> OpenBudgetLedger a' disk = Ok l' ->
   ledger_path l = ledger_path l' -> a = a' \/ sha256_collision) /\
  (OpenBudgetLedger a disk = Ok l -> OpenMandateBudgetLedger m' a' disk = Ok l' -> bl_dir l <> bl_dir l').
Proof.
  intros Ht Ht'. split_and!.
  - intros (Hv & Hm & _ & ->)%OpenMandateBudgetLedger_path (Hv' & Hm' & _ & ->)%OpenMandateBudgetLedger_path E; [|done..].
    apply string_app_inj_r, digest_hex_inj in E. apply object_digest_inj in E as [E|]; [|by right|done|..].
    + injection E as -> E. left. split; [done|]. apply Asset_fields_inj; [done..|]. unfold Asset_fields, Network_fields.
      cbn. congruence.
    + apply Forall_cons. split; [cbn; lia|by apply Asset_fields_wf].
    + apply Forall_cons. split; [cbn; lia|by apply Asset_fields_wf].
  - intros (Hv & _ & ->)%OpenBudgetLedger_path (Hv' & _ & ->)%OpenBudgetLedger_path E; [|done..].
    apply string_app_inj_r, digest_hex_inj in E.
    apply object_digest_inj in E as [E|]; [|by right|done|by apply Asset_fields_wf..].
    left. by apply Asset_fields_inj.
  - intros (_ & -> & _)%OpenBudgetLedger_path (_ & _ & -> & _)%OpenMandateBudgetLedger_path; [done..].
Qed.

(** The durable negotiation store keeps what it is given: a snapshot that was
    saved is the one loaded under its identifier, a failed save leaves the old or
    the whole new one, other negotiations are untouched short of a SHA-256
    collision, and a negotiation not yet stored is refused while the bound of
    open ones is reached. *)
Theorem negotiation_store_roundtrip snap disk r disk' :
  NegotiationStore_Save snap disk = (r, disk') ->
  (r = Ok tt -> nk_held disk' = true -> NegotiationStore_Load (s_ID snap) disk' = Ok (Some snap)) /\
  (disk_saved disk' (s_ID snap) = disk_saved disk (s_ID snap) \/ disk_saved disk' (s_ID snap) = Some snap) /\
  (forall id, id <> s_ID snap -> disk_saved disk' id = disk_saved disk id \/ sha256_collision) /\
  (forall path, store_path (s_ID snap) = Ok path -> nk_files disk !! path = None ->
     MaxNegotiations <= store_count (nk_files disk) -> is_ok r = false /\ disk' = disk).
Proof.
  intros H. split_and!.
  - intros -> Hh. destruct (Save_cases _ _ _ _ H) as [[? _]|(Hv & path & Hp & E)]; [done|].
    unfold NegotiationStore_Load. rewrite Hh, Hp, E. cbn. unfold store_read. by rewrite lookup_insert_eq, Hv.
  - destruct (Save_saved _ _ _ _ H) as [[_ ?]|]; auto.
  - intros id Hne. exact (store_save_other _ _ _ _ id H Hne).
  - intros path Hp Hn Hc. unfold NegotiationStore_Save in H.
    destruct (nk_held disk); cbn [negb] in H; [|by simplify_eq].
    destruct (Snapshot_Validate snap); [|by simplify_eq]. rewrite Hp in H.
    rewrite bool_decide_true, (proj2 (Z.leb_le _ _) Hc) in H by done. cbn [andb] in H. by simplify_eq.
Qed.

(** Dropping removes only ended negotiations: a negotiation that is not
    finalized, rejected, withdrawn or expired is refused and stays, and no other
    record is touched. *)
Theorem drop_only_settled id now disk r disk' :
  NegotiationStore_Drop id now disk = (r, disk') ->
  (forall path, store_path id <> Ok path -> nk_files disk' !! path = nk_files disk !! path) /\
  (forall snap, disk_saved disk id = Some snap -> settledState (s_State snap) = false ->
     is_ok r = false /\ disk' = disk).
Proof.
  unfold NegotiationStore_Drop. intros H. split.
  - intros path Hp. destruct (negb _); [by simplify_eq|]. destruct (time_invalid now); [by simplify_eq|].
    destruct (store_path id) as [p|] eqn:Hid; [|by simplify_eq].
    assert (p <> path) by (by intros ->).
    destruct (store_read _ _) as [[snap|]|]; [|by simplify_eq..]. destruct (negb _); [by simplify_eq|].
    destruct (next_outcome _) as [[] script]; simplify_eq; cbn; by rewrite ?lookup_delete_ne.
  - intros snap Hs Hst. unfold disk_saved in Hs. destruct (negb _); [by simplify_eq|].
    destruct (time_invalid now); [by simplify_eq|].
    destruct (store_path id) as [p|]; [|done]. destruct (store_read _ _) as [[x|]|]; [|done..].
    simplify_eq. rewrite Hst in H. cbn [negb] in H. by simplify_eq.
Qed.


(** Dropping a finalized negotiation before its hold became a spend loses the
    spend: once the record is gone the repair finds nothing behind the hold and
    returns it, although the repair's own rule is that a finalized exchange's hold
    becomes the spend it was about to become. *)
Theorem dropped_finalized_hold_returns id now disk disk' snap :
  disk_saved disk id = Some snap -> s_State snap = State_string StateFinalized ->
  NegotiationStore_Drop id now disk = (Ok tt, disk') ->
  holdDisposition (nk_files disk) id = Ok holdBecomesSpend /\
  holdDisposition (nk_files disk') id = Ok holdReturns.
Proof.
  unfold disk_saved, NegotiationStore_Drop, holdDisposition. intros Hs Hst H.
  destruct (negb _); [done|]. destruct (time_invalid now); [done|].
  destruct (store_path id) as [p|]; [|done]. destruct (store_read (nk_files disk) p) as [[x|]|]; [|done..].
  injection Hs as ->. rewrite Hst in *. split; [reflexivity|].
  change (settledState (State_string StateFinalized)) with true in H. cbn [negb] in H.
  destruct (next_outcome _) as [[] script]; simplify_eq. cbn [nk_files]. unfold store_read. by rewrite lookup_delete_eq.
Qed.
