(* ===== verification/CommerceRun.v ===== *)
(** * One negotiation on the durable storage, evaluated

    The negotiation of [NegotiationRun] up to its agreement, run on the files of
    [Commerce] instead of the scripted store and ledger, then interrupted and
    repaired.  The disks along the way are written out; they instantiate the
    theorems of [Commerce]. *)

From S2P Require Import Prelude Encoding Canon Files Money Terms Budget Negotiation.
From S2P Require Import NegotiationRun Commerce.

Definition run_handle : BudgetLedger := MkBudgetLedger "bgt_1" BudgetDir "1" sample_asset.
Definition disk_of (b : Budget) : budget_disk :=
  MkBudgetDisk true {[ "1.json" := ERec (ledger_record run_handle (budget_state b)) ]} ∅ [].
Definition ledger_of (b : Budget) : disk_ledger := MkDiskLedger run_handle (disk_of b).

Definition run_path : string :=
  digest_hex (canon_Digest (bytes_of_string (DomainNegotiationRecord +:+ "n1"))) +:+ ".json".
Definition store_of (n : Negotiation) : neg_disk :=
  MkNegDisk true {[ run_path := ERec (run_snapshot n) ]} [].

Definition disk_world (n : Negotiation) (b : Budget) : world disk_ledger neg_disk :=
  MkWorld n b (ledger_of b) (store_of n).

Lemma run_store_path : store_path "n1" = Ok run_path.
Proof. reflexivity. Qed.

Lemma disk_new :
  New "n1" ("conv_" +:+ sample_hash) ("agent_" +:+ sample_hash) sample_mandate (Some run_domain) true
    (Some (MkNegDisk true ∅ [])) sample_budget (ledger_of sample_budget) 100
  = Ok (disk_world n_new sample_budget).
Proof. vm_compute. reflexivity. Qed.

Lemma disk_offer : run_neg (OpReceiveProposal sample_terms 100) (disk_world n_new sample_budget)
  = (Ok tt, disk_world n_offered sample_budget).
Proof. vm_compute. reflexivity. Qed.

Lemma disk_accept : run_neg (OpAcceptIntent 100) (disk_world n_offered sample_budget)
  = (Ok tt, disk_world n_agreed_ held_budget).
Proof. vm_compute. reflexivity. Qed.

Lemma disk_load b : budget_wf b -> bd_total b = sample_total ->
  BudgetLedger_Load run_handle (disk_of b) = Ok (Some (budget_state b)).
Proof.
  intros Hwf Ht. apply Load_written; [exact Hwf|cbn; by rewrite Ht|done|]. apply lookup_singleton_eq.
Qed.

Lemma disk_world_inv : world_inv (sample_budget, ledger_of sample_budget).
Proof.
  assert (ledger_Load (ledger_of sample_budget) = Ok (Some (budget_state sample_budget))) as Hl
    by (apply (disk_load sample_budget); [apply sample_budget_wf|done]).
  split; [apply sample_budget_wf|]. cbn [snd]. rewrite Hl. split; [done|]. intros s [= <-].
  split; [apply sample_budget_wf|]. split; [done|]. cbn. lia.
Qed.

Lemma disk_reach_agreed : reachable (disk_world n_agreed_ held_budget).
Proof.
  eapply reach_step; [|eapply ns_op, disk_accept]. eapply reach_step; [|eapply ns_op, disk_offer].
  eapply reach_new; [apply disk_world_inv|apply sample_mandate_typed|apply disk_new].
Qed.

(** ** Instances of the theorems *)

Lemma disk_ledger_roundtrip_witness :
  BudgetLedger_Load run_handle (disk_of held_budget) = Ok (Some (budget_state held_budget)).
Proof.
  apply (disk_ledger_roundtrip run_handle (budget_state held_budget) (disk_of sample_budget) (Ok tt) (disk_of held_budget)).
  - apply held_budget_wf.
  - vm_compute. reflexivity.
  - reflexivity.
Defined.


Lemma reconcile_idempotent_witness :
  let b' := snd (reconcileCommerce map_to_list (fun _ => WOk) (nk_files (store_of n_final)) (bk_budgets (disk_of held_budget))) in
  reconcileCommerce map_to_list (fun _ => WFailOld) (nk_files (store_of n_final)) b' = (Ok tt, b').
Proof.
  intros b'. apply (reconcile_idempotent map_to_list (fun _ => WOk) map_to_list (fun _ => WFailOld) _
    (bk_budgets (disk_of held_budget))); [done|done|]. vm_compute. reflexivity.
Defined.

Lemma budgets_separate_witness :
  exists l, OpenMandateBudgetLedger "mandate-1" sample_asset (disk_of sample_budget) = Ok l /\
    (("mandate-1" = "mandate-1" /\ sample_asset = sample_asset) \/ sha256_collision).
Proof.
  assert (Asset_typed sample_asset) as Ht by (vm_compute; repeat split; discriminate).
  eexists. split; [vm_compute; reflexivity|].
  eapply (budgets_separate "mandate-1" sample_asset "mandate-1" sample_asset (disk_of sample_budget));
    [exact Ht|exact Ht|vm_compute; reflexivity|vm_compute; reflexivity|reflexivity].
Defined.

Lemma negotiation_store_roundtrip_witness :
  NegotiationStore_Load "n1" (store_of n_agreed_) = Ok (Some (run_snapshot n_agreed_)).
Proof.
  apply (negotiation_store_roundtrip (run_snapshot n_agreed_) (store_of n_offered) (Ok tt) (store_of n_agreed_)).
  - vm_compute. reflexivity.
  - reflexivity.
  - reflexivity.
Defined.

Lemma drop_only_settled_witness :
  is_ok (NegotiationStore_Drop "n1" 100 (store_of n_agreed_)).1 = false /\
  (NegotiationStore_Drop "n1" 100 (store_of n_agreed_)).2 = store_of n_agreed_.
Proof.
  apply (drop_only_settled "n1" 100 (store_of n_agreed_) _ _ (surjective_pairing _)) with (run_snapshot n_agreed_).
  - vm_compute. reflexivity.
  - vm_compute. reflexivity.
Defined.


Lemma dropped_finalized_hold_returns_witness :
  holdDisposition (nk_files (store_of n_final)) "n1" = Ok holdBecomesSpend /\
  holdDisposition ∅ "n1" = Ok holdReturns.
Proof.
  apply (dropped_finalized_hold_returns "n1" 200 (store_of n_final) (MkNegDisk true ∅ []) (run_snapshot n_final)).
  - vm_compute. reflexivity.
  - reflexivity.
  - vm_compute. reflexivity.
Defined.
