(* ===== verification/Delivery.v ===== *)
(** * Outbound deliveries: [pkg/eventlog/delivery.go]

    One file per outbound device copy records how far its delivery has got:
    waiting for an attempt, held for an owner's decision, delivered or
    abandoned.  A sweep lists what is due, claims one delivery under a lease,
    and reports the attempt's end; the retry schedule is that of [pkg/fault].

    Every method runs under the journal's mutex, so concurrent callers are
    sequences of whole operations; [delivery_op] is one of them. *)

From S2P Require Import Prelude Encoding Canon Files Fault.

(** ** Data *)

Inductive DeliveryState : Type :=
  | StatePending
  | StateHeld
  | StateDelivered
  | StateAbandoned
  | OtherState (s : string). (** a string on disk that is none of the above *)

#[global] Instance DeliveryState_eq_dec : EqDecision DeliveryState.
Proof. solve_decision. Defined.

Definition DeliverySchema : string := "tos.messaging.delivery-journal.v1".

Definition MaxPayloadBytes : Z := Z.shiftl 160 10.
Definition MinLeaseSeconds : Z := 1.
Definition MaxLeaseSeconds : Z := 60 * 60.

Definition ErrConflict : error := Sentinel "event identity conflicts with an existing claim".
Definition ErrUnknown : error := Sentinel "event has no journal record".
Definition ErrLeaseMismatch : error := Sentinel "application lease does not hold this event".
Definition ErrNotPending : error := Sentinel "delivery is not awaiting an attempt".

Definition eventPattern : string -> bool := ids_Event.
Definition endpointPattern : string -> bool := ids_Endpoint.
Definition convPattern : string -> bool := ids_Conversation.
Definition sessionPattern : string -> bool := prefixed_hex64 "ses_".
Definition attemptPattern : string -> bool := prefixed_hex64 "send_".
Definition deliveryCopyPattern : string -> bool := prefixed_hex64 "cpy_".

Record Delivery : Type := MkDelivery {
  dl_Schema : string;
  dl_DeliveryID : string;
  dl_EventID : string;
  dl_SessionID : string;
  dl_PayloadBase64 : string;
  dl_PayloadDigest : string;
  dl_CiphertextBase64 : string;
  dl_CiphertextDigest : string;
  dl_AttemptID : string;
  dl_AttemptExpiresAt : Z;
  dl_RecipientEndpointID : string;
  dl_RecipientDeviceID : string;
  dl_ConversationID : string;
  dl_State : DeliveryState;
  dl_Attempts : Z;
  dl_LastCode : Code;
  dl_NextAttemptAtUnix : Z;
  dl_CreatedAtUnix : Z;
  dl_ExpiresAtUnix : Z;
  dl_SettledAtUnix : Z;
}.

Record Outbound : Type := MkOutbound {
  or_DeliveryID : string;
  or_EventID : string;
  or_SessionID : string;
  or_RecipientEndpointID : string;
  or_RecipientDeviceID : string;
  or_ConversationID : string;
  or_Payload : bytes;
  or_CreatedAtUnix : Z;
  or_ExpiresAtUnix : Z;
}.

(** The part of the journal these operations touch: whether this process still
    holds the directory lock, and the outbound directory. *)
Record Outbox : Type := MkOutbox {
  ob_held : bool;
  ob_files : directory Delivery;
}.

(** Field updates, in the order the code assigns them. *)
Definition set_attempt (d : Delivery) (attempt : string) (expires : Z) : Delivery :=
  MkDelivery (dl_Schema d) (dl_DeliveryID d) (dl_EventID d) (dl_SessionID d) (dl_PayloadBase64 d)
    (dl_PayloadDigest d) (dl_CiphertextBase64 d) (dl_CiphertextDigest d) attempt expires
    (dl_RecipientEndpointID d) (dl_RecipientDeviceID d) (dl_ConversationID d) (dl_State d)
    (dl_Attempts d) (dl_LastCode d) (dl_NextAttemptAtUnix d) (dl_CreatedAtUnix d)
    (dl_ExpiresAtUnix d) (dl_SettledAtUnix d).
Definition set_failure (d : Delivery) (attempts : Z) (code : Code) : Delivery :=
  MkDelivery (dl_Schema d) (dl_DeliveryID d) (dl_EventID d) (dl_SessionID d) (dl_PayloadBase64 d)
    (dl_PayloadDigest d) (dl_CiphertextBase64 d) (dl_CiphertextDigest d) (dl_AttemptID d)
    (dl_AttemptExpiresAt d) (dl_RecipientEndpointID d) (dl_RecipientDeviceID d)
    (dl_ConversationID d) (dl_State d) attempts code (dl_NextAttemptAtUnix d) (dl_CreatedAtUnix d)
    (dl_ExpiresAtUnix d) (dl_SettledAtUnix d).
Definition set_schedule (d : Delivery) (state : DeliveryState) (next settled : Z) : Delivery :=
  MkDelivery (dl_Schema d) (dl_DeliveryID d) (dl_EventID d) (dl_SessionID d) (dl_PayloadBase64 d)
    (dl_PayloadDigest d) (dl_CiphertextBase64 d) (dl_CiphertextDigest d) (dl_AttemptID d)
    (dl_AttemptExpiresAt d) (dl_RecipientEndpointID d) (dl_RecipientDeviceID d)
    (dl_ConversationID d) state (dl_Attempts d) (dl_LastCode d) next (dl_CreatedAtUnix d)
    (dl_ExpiresAtUnix d) settled.

(** ** Reading a record *)

Definition Delivery_Payload (d : Delivery) : result bytes :=
  match b64_decode (dl_PayloadBase64 d) with
  | None => Err (NewError "invalid queued event payload")
  | Some payload =>
      refuse negb (String.eqb (canon_Digest payload) (dl_PayloadDigest d))
        with NewError "queued event payload does not match its digest";
      Ok payload
  end.

(** [nil] for a delivery without a ciphertext. *)
Definition Delivery_Ciphertext (d : Delivery) : result (option bytes) :=
  if String.eqb (dl_CiphertextBase64 d) "" then Ok None else
  match b64_decode (dl_CiphertextBase64 d) with
  | None => Err (NewError "invalid sealed ciphertext")
  | Some ciphertext =>
      refuse negb (String.eqb (canon_Digest ciphertext) (dl_CiphertextDigest d))
        with NewError "sealed ciphertext does not match its digest";
      Ok (Some ciphertext)
  end.

Definition Delivery_Key (d : Delivery) : string :=
  if String.eqb (dl_DeliveryID d) "" then dl_EventID d else dl_DeliveryID d.

Definition validDeliveryID (value : string) : bool :=
  eventPattern value || deliveryCopyPattern value.

(** [deliveryPath]: [evt_] and [cpy_] have the same length, and the file name is
    what follows either. *)
Definition deliveryPath (deliveryID : string) : string := sdrop 4 deliveryID +:+ ".json".

Definition known_state (s : DeliveryState) : bool :=
  match s with
  | StatePending | StateHeld | StateDelivered | StateAbandoned => true
  | OtherState _ => false
  end.

Definition err_record : error := NewError "invalid delivery record".

Definition check_delivery (d : Delivery) : result Delivery :=
  refuse negb (String.eqb (dl_Schema d) DeliverySchema) || negb (eventPattern (dl_EventID d))
         || negb (endpointPattern (dl_RecipientEndpointID d))
         || negb (convPattern (dl_ConversationID d))
         || (dl_CreatedAtUnix d =? 0) || (dl_ExpiresAtUnix d <=? dl_CreatedAtUnix d)
         || negb (ValidDigest (dl_PayloadDigest d)) with err_record;
  refuse negb (String.eqb (dl_DeliveryID d) "")
         && (negb (deliveryCopyPattern (dl_DeliveryID d)) || negb (ids_Device (dl_RecipientDeviceID d)))
    with err_record;
  refuse String.eqb (dl_DeliveryID d) "" && negb (String.eqb (dl_RecipientDeviceID d) "")
         && negb (ids_Device (dl_RecipientDeviceID d)) with err_record;
  refuse negb (sessionPattern (dl_SessionID d)) with err_record;
  refuse negb (is_ok (Delivery_Payload d)) with err_record;
  refuse negb (String.eqb (dl_CiphertextBase64 d) "") && negb (is_ok (Delivery_Ciphertext d))
    with err_record;
  refuse negb (known_state (dl_State d)) with err_record;
  refuse negb (String.eqb (dl_LastCode d) "") && negb (Known (dl_LastCode d)) with err_record;
  Ok d.

Definition readDelivery (files : directory Delivery) (name : string) : result Delivery :=
  let* d := read_file err_record files name in
  check_delivery d.

(** ** Recording an outbound event *)

Definition validateOutbound (request : Outbound) : result unit :=
  refuse negb (eventPattern (or_EventID request)) with NewError "invalid event identifier";
  refuse negb (String.eqb (or_DeliveryID request) "")
         && negb (deliveryCopyPattern (or_DeliveryID request))
    with NewError "invalid delivery copy identifier";
  refuse negb (endpointPattern (or_RecipientEndpointID request))
    with NewError "invalid delivery recipient endpoint";
  refuse negb (String.eqb (or_DeliveryID request) "") && negb (ids_Device (or_RecipientDeviceID request))
    with NewError "a delivery copy needs a recipient device";
  refuse String.eqb (or_DeliveryID request) "" && negb (String.eqb (or_RecipientDeviceID request) "")
         && negb (ids_Device (or_RecipientDeviceID request))
    with NewError "invalid delivery recipient device";
  refuse negb (convPattern (or_ConversationID request))
    with NewError "invalid delivery conversation identifier";
  refuse negb (sessionPattern (or_SessionID request))
    with NewError "invalid delivery session identifier";
  refuse (blen (or_Payload request) =? 0) || (MaxPayloadBytes <? blen (or_Payload request))
    with NewError "invalid queued event payload";
  refuse (or_CreatedAtUnix request =? 0) || (or_ExpiresAtUnix request <=? or_CreatedAtUnix request)
    with NewError "invalid delivery validity window";
  Ok tt.

Definition usable (j : Outbox) : result unit :=
  refuse negb (ob_held j) with NewError "event journal is not owned by this process"; Ok tt.

Definition outbound_key (request : Outbound) : string :=
  if String.eqb (or_DeliveryID request) "" then or_EventID request else or_DeliveryID request.

Definition outbound_delivery (request : Outbound) : Delivery :=
  MkDelivery DeliverySchema (or_DeliveryID request) (or_EventID request) (or_SessionID request)
    (b64_encode (or_Payload request)) (canon_Digest (or_Payload request)) "" "" "" 0
    (or_RecipientEndpointID request) (or_RecipientDeviceID request) (or_ConversationID request)
    StatePending 0 "" (or_CreatedAtUnix request) (or_CreatedAtUnix request)
    (or_ExpiresAtUnix request) 0.

Definition same_request (existing : Delivery) (request : Outbound) : bool :=
  String.eqb (dl_RecipientEndpointID existing) (or_RecipientEndpointID request)
  && String.eqb (dl_RecipientDeviceID existing) (or_RecipientDeviceID request)
  && String.eqb (dl_ConversationID existing) (or_ConversationID request)
  && String.eqb (dl_SessionID existing) (or_SessionID request)
  && String.eqb (dl_PayloadDigest existing) (canon_Digest (or_Payload request)).

(** The result says whether the record is fresh. *)
Definition Enqueue (c : create_outcome) (request : Outbound) : action Outbox (bool * Delivery) :=
  fun j =>
  match usable j with Err e => (Err e, j) | Ok _ =>
  match validateOutbound request with Err e => (Err e, j) | Ok _ =>
  let path := deliveryPath (outbound_key request) in
  let delivery := outbound_delivery request in
  match file_create c path delivery (ob_files j) with
  | (Ok _, files) => (Ok (true, delivery), MkOutbox (ob_held j) files)
  | (Err e, files) =>
      if negb (bool_decide (e = ErrExist)) then (Err e, MkOutbox (ob_held j) files) else
      match readDelivery (ob_files j) path with
      | Err e => (Err e, j)
      | Ok existing =>
          if negb (same_request existing request) then (Err ErrConflict, j)
          else (Ok (false, existing), j)
      end
  end end end.

(** ** Listing what is due *)

Definition is_due (seconds : Z) (d : Delivery) : bool :=
  bool_decide (dl_State d = StatePending)
  && negb (dl_ExpiresAtUnix d <=? seconds)
  && negb (seconds <? dl_NextAttemptAtUnix d)
  && negb (seconds <? dl_AttemptExpiresAt d).

Fixpoint due_records (seconds : Z) (files : directory Delivery) (names : list string)
    : list Delivery :=
  match names with
  | [] => []
  | name :: rest =>
      if is_dir files name then due_records seconds files rest else
      match readDelivery files name with
      | Err _ => due_records seconds files rest
      | Ok d =>
          if is_due seconds d then d :: due_records seconds files rest
          else due_records seconds files rest
      end
  end.

(** The order [sort.Slice] sorts by: the earlier attempt first, then the key. *)
Definition due_le (d e : Delivery) : Prop :=
  dl_NextAttemptAtUnix d < dl_NextAttemptAtUnix e \/
  (dl_NextAttemptAtUnix d = dl_NextAttemptAtUnix e /\ str_le (Delivery_Key d) (Delivery_Key e)).
#[global] Instance due_le_dec d e : Decision (due_le d e).
Proof. unfold due_le. apply _. Defined.

Definition Due (now : time) (j : Outbox) : result (list Delivery) :=
  call usable j;
  refuse time_invalid now with NewError "invalid delivery sweep time";
  Ok (merge_sort due_le (due_records now (ob_files j) (dir_names (ob_files j)))).

(** ** Transitions of one record *)

Definition commitDelivery (w : write_outcome) (path : string) (d : Delivery) : action Outbox Delivery :=
  fun j =>
  match file_replace w path d (ob_files j) with
  | (Ok _, files) => (Ok d, MkOutbox (ob_held j) files)
  | (Err e, files) => (Err e, MkOutbox (ob_held j) files)
  end.

(** The body the methods share: read the record, let [rule] refuse it or say
    what it becomes, and commit that. *)
Definition transition (w : write_outcome) (deliveryID : string) (rule : Delivery -> result Delivery)
    : action Outbox Delivery :=
  fun j =>
  let path := deliveryPath deliveryID in
  match readDelivery (ob_files j) path with
  | Err e => (Err (if bool_decide (e = ErrNotExist) then ErrUnknown else e), j)
  | Ok d =>
      match rule d with
      | Err e => (Err e, j)
      | Ok d' => commitDelivery w path d' j
      end
  end.

Definition guarded {A} (j : Outbox) (checks : result unit) (body : action Outbox A)
    : result A * Outbox :=
  match usable j with Err e => (Err e, j) | Ok _ =>
  match checks with Err e => (Err e, j) | Ok _ => body j end end.

Definition holdsAttempt (d : Delivery) (attemptID : string) : result unit :=
  refuse String.eqb (dl_AttemptID d) "" || negb (String.eqb (dl_AttemptID d) attemptID)
    with ErrLeaseMismatch;
  Ok tt.

(** [lease] is a [time.Duration], in nanoseconds. *)
Definition claim_decision (attemptID : string) (current seconds : Z) (d : Delivery) : result Delivery :=
  refuse negb (bool_decide (dl_State d = StatePending)) with ErrNotPending;
  refuse (current <? dl_AttemptExpiresAt d) && negb (String.eqb (dl_AttemptID d) attemptID)
    with ErrLeaseMismatch;
  Ok (set_attempt d attemptID (u64 (current + seconds))).

Definition ClaimForSend (w : write_outcome) (deliveryID attemptID : string) (now : time) (lease : Z)
    : action Outbox Delivery :=
  fun j =>
  let seconds := Z.quot lease Second in
  guarded j
    (refuse negb (validDeliveryID deliveryID) with NewError "invalid delivery identifier";
     refuse negb (attemptPattern attemptID) with NewError "invalid send attempt identifier";
     refuse time_invalid now with NewError "invalid send claim time";
     refuse (seconds <? MinLeaseSeconds) || (MaxLeaseSeconds <? seconds)
       with NewError "send lease is outside its bounds";
     Ok tt)
    (transition w deliveryID (claim_decision attemptID now seconds)).

Definition failed_record (code : Code) (seconds : Z) (d : Delivery) : Delivery :=
  let d1 := set_failure (set_attempt d "" 0) (u32 (dl_Attempts d + 1)) code in
  let retry := NextCode code (dl_Attempts d1) in
  let abandon := set_schedule d1 StateAbandoned 0 seconds in
  if dl_ExpiresAtUnix d1 <=? seconds then abandon else
  if ry_Allowed retry then
    let next := u64 (seconds + Z.quot (ry_After retry) Second) in
    if dl_ExpiresAtUnix d1 <=? next then abandon
    else set_schedule d1 (dl_State d1) next (dl_SettledAtUnix d1)
  else if bool_decide (ry_Disposition retry = DispApproval)
  then set_schedule d1 StateHeld 0 (dl_SettledAtUnix d1)
  else abandon.

Definition failed_decision (attemptID : string) (code : Code) (seconds : Z) (d : Delivery)
    : result Delivery :=
  refuse negb (bool_decide (dl_State d = StatePending)) with ErrNotPending;
  call holdsAttempt d attemptID;
  Ok (failed_record code seconds d).

Definition Failed (w : write_outcome) (deliveryID attemptID : string) (code : Code) (now : time)
    : action Outbox Delivery :=
  fun j =>
  guarded j
    (refuse negb (validDeliveryID deliveryID) with NewError "invalid delivery identifier";
     refuse time_invalid now with NewError "invalid delivery attempt time";
     Ok tt)
    (transition w deliveryID (failed_decision attemptID code now)).

Definition settle_decision (attemptID : string) (state : DeliveryState) (seconds : Z) (d : Delivery)
    : result Delivery :=
  refuse negb (bool_decide (dl_State d = StatePending)) && negb (bool_decide (dl_State d = StateHeld))
    with ErrNotPending;
  call (if String.eqb attemptID "" then Ok tt else holdsAttempt d attemptID);
  Ok (set_attempt (set_schedule d state 0 seconds) "" 0).

Definition settle (w : write_outcome) (deliveryID attemptID : string) (state : DeliveryState)
    (now : time) : action Outbox Delivery :=
  fun j =>
  guarded j
    (refuse negb (validDeliveryID deliveryID) with NewError "invalid delivery identifier";
     refuse time_invalid now with NewError "invalid delivery settle time";
     Ok tt)
    (transition w deliveryID (settle_decision attemptID state now)).

Definition Delivered (w : write_outcome) (deliveryID attemptID : string) (now : time)
    : action Outbox Delivery := settle w deliveryID attemptID StateDelivered now.
Definition Abandon (w : write_outcome) (deliveryID : string) (now : time) : action Outbox Delivery :=
  settle w deliveryID "" StateAbandoned now.

Definition resume_decision (seconds : Z) (d : Delivery) : result Delivery :=
  refuse negb (bool_decide (dl_State d = StateHeld)) with ErrNotPending;
  refuse dl_ExpiresAtUnix d <=? seconds with NewError "delivery expired while it was held";
  Ok (set_attempt (set_schedule d StatePending seconds (dl_SettledAtUnix d)) "" 0).

Definition Resume (w : write_outcome) (deliveryID : string) (now : time) : action Outbox Delivery :=
  fun j =>
  guarded j
    (refuse negb (validDeliveryID deliveryID) with NewError "invalid delivery identifier";
     refuse time_invalid now with NewError "invalid delivery resume time";
     Ok tt)
    (transition w deliveryID (resume_decision now)).

(** ** Lookups *)

Definition lookupDelivery (deliveryID : string) (j : Outbox) : result (option Delivery) :=
  call usable j;
  refuse negb (validDeliveryID deliveryID) with NewError "invalid delivery identifier";
  match readDelivery (ob_files j) (deliveryPath deliveryID) with
  | Ok d => Ok (Some d)
  | Err e => if bool_decide (e = ErrNotExist) then Ok None else Err e
  end.

Definition LookupDelivery (eventID : string) (j : Outbox) : result (option Delivery) :=
  lookupDelivery eventID j.
Definition LookupDeliveryCopy (deliveryID : string) (j : Outbox) : result (option Delivery) :=
  refuse negb (deliveryCopyPattern deliveryID) with NewError "invalid delivery copy identifier";
  lookupDelivery deliveryID j.

Definition DomainDeliveryCopy : string :=
  "tos.messaging.delivery-copy.v1" +:+ String "000" EmptyString.

Definition NewDeliveryCopyID (eventID endpointID deviceID : string) : result string :=
  refuse negb (eventPattern eventID) || negb (endpointPattern endpointID)
         || negb (ids_Device deviceID) with NewError "invalid delivery copy authority";
  let buffer := bytes_of_string DomainDeliveryCopy in
  let buffer := canon_Text buffer eventID in
  let buffer := canon_Text buffer endpointID in
  let buffer := canon_Text buffer deviceID in
  Ok ("cpy_" +:+ digest_hex (canon_Digest buffer)).

(** ** Expiry *)

Definition expired_record (seconds : Z) (d : Delivery) : Delivery :=
  let d1 := set_attempt (set_schedule d StateAbandoned 0 seconds) "" 0 in
  if String.eqb (dl_LastCode d1) "" then set_failure d1 (dl_Attempts d1) CodeTimeout else d1.

Definition expires_now (seconds : Z) (d : Delivery) : bool :=
  (bool_decide (dl_State d = StatePending) || bool_decide (dl_State d = StateHeld))
  && (dl_ExpiresAtUnix d <=? seconds).

(** The loop; [ws] is the outcome of the write to each file, and the count is
    returned with the error too. *)
Fixpoint expire_loop (ws : string -> write_outcome) (seconds : Z) (names : list string)
    (expired : Z) (j : Outbox) : (Z * option error) * Outbox :=
  match names with
  | [] => ((expired, None), j)
  | name :: rest =>
      if is_dir (ob_files j) name then expire_loop ws seconds rest expired j else
      match readDelivery (ob_files j) name with
      | Err _ => expire_loop ws seconds rest expired j
      | Ok d =>
          if negb (expires_now seconds d) then expire_loop ws seconds rest expired j else
          match commitDelivery (ws name) name (expired_record seconds d) j with
          | (Ok _, j') => expire_loop ws seconds rest (expired + 1) j'
          | (Err e, j') => ((expired, Some e), j')
          end
      end
  end.

Definition ExpireDeliveries (ws : string -> write_outcome) (now : time) (j : Outbox)
    : (Z * option error) * Outbox :=
  match usable j with Err e => ((0, Some e), j) | Ok _ =>
  if time_invalid now then ((0, Some (NewError "invalid delivery expiry time")), j) else
  expire_loop ws now (dir_names (ob_files j)) 0 j
  end.

(** ** Operations as steps *)

Inductive delivery_op : Type :=
  | OpEnqueue (c : create_outcome) (request : Outbound)
  | OpClaim (w : write_outcome) (deliveryID attemptID : string) (now lease : Z)
  | OpFailed (w : write_outcome) (deliveryID attemptID : string) (code : Code) (now : time)
  | OpDelivered (w : write_outcome) (deliveryID attemptID : string) (now : time)
  | OpAbandon (w : write_outcome) (deliveryID : string) (now : time)
  | OpResume (w : write_outcome) (deliveryID : string) (now : time)
  | OpExpire (ws : string -> write_outcome) (now : time).

Definition run_delivery (j : Outbox) (op : delivery_op) : Outbox :=
  match op with
  | OpEnqueue c request => snd (Enqueue c request j)
  | OpClaim w id attempt now lease => snd (ClaimForSend w id attempt now lease j)
  | OpFailed w id attempt code now => snd (Failed w id attempt code now j)
  | OpDelivered w id attempt now => snd (Delivered w id attempt now j)
  | OpAbandon w id now => snd (Abandon w id now j)
  | OpResume w id now => snd (Resume w id now j)
  | OpExpire ws now => snd (ExpireDeliveries ws now j)
  end.

Definition run_deliveries (ops : list delivery_op) (j : Outbox) : Outbox := foldl run_delivery j ops.

(** How one operation may change a record that is there. *)
Inductive evolves (name : string) : delivery_op -> Delivery -> Delivery -> Prop :=
  | ev_claim w id attempt now lease d d' :
      deliveryPath id = name -> attemptPattern attempt = true -> time_invalid now = false ->
      MinLeaseSeconds <= Z.quot lease Second <= MaxLeaseSeconds ->
      claim_decision attempt now (Z.quot lease Second) d = Ok d' ->
      evolves name (OpClaim w id attempt now lease) d d'
  | ev_failed w id attempt code now d d' :
      deliveryPath id = name -> failed_decision attempt code now d = Ok d' ->
      evolves name (OpFailed w id attempt code now) d d'
  | ev_delivered w id attempt now d d' :
      deliveryPath id = name -> settle_decision attempt StateDelivered now d = Ok d' ->
      evolves name (OpDelivered w id attempt now) d d'
  | ev_abandon w id now d d' :
      deliveryPath id = name -> settle_decision "" StateAbandoned now d = Ok d' ->
      evolves name (OpAbandon w id now) d d'
  | ev_resume w id now d d' :
      deliveryPath id = name -> resume_decision now d = Ok d' ->
      evolves name (OpResume w id now) d d'
  | ev_expire ws now d :
      expires_now now d = true -> evolves name (OpExpire ws now) d (expired_record now d).

Lemma readDelivery_file files name d :
  readDelivery files name = Ok d <-> files !! name = Some (ERec d) /\ check_delivery d = Ok d.
Proof.
  unfold readDelivery. rewrite <- (read_file_Ok err_record).
  destruct (read_file err_record files name) as [d0|e]; [|naive_solver].
  split; [|naive_solver]. intros H. assert (d0 = d) as ->; [|done].
  unfold check_delivery in H. inv_ok H. by simplify_eq.
Qed.

(** One method on one record either leaves every file alone or commits what
    [rule] answered for the record it read. *)
Lemma guarded_transition j checks w id rule r j' :
  guarded j checks (transition w id rule) = (r, j') ->
  (j' = j /\ is_ok r = false) \/
  (ob_held j = true /\ exists u d d', checks = Ok u /\ readDelivery (ob_files j) (deliveryPath id) = Ok d /\
     rule d = Ok d' /\
     (j' = MkOutbox (ob_held j) (<[deliveryPath id := ERec d']> (ob_files j)) /\ (r = Ok d' \/ is_ok r = false)
      \/ j' = j /\ is_ok r = false)).
Proof.
  unfold guarded, usable, transition, commitDelivery. destruct (ob_held j) eqn:Hheld; cbn [negb];
    [|intros; simplify_eq; auto].
  destruct checks as [u|]; [|intros; simplify_eq; auto].
  destruct (readDelivery _ _) as [d|] eqn:Hr; [|intros; simplify_eq; auto].
  destruct (rule d) as [d'|] eqn:Hd; [|intros; simplify_eq; auto].
  destruct (file_replace w _ d' _) as [[u'|e] files] eqn:Hf; intros; simplify_eq; right;
    (split; [done|]); exists u, d, d'; split_and!; try done.
  - apply file_replace_Ok in Hf as ->. auto.
  - apply file_replace_cases in Hf as [[-> _]|[-> _]]; [right|left; auto].
    rewrite <- Hheld. by destruct j.
Qed.

Definition file_step (name : string) (op : delivery_op) (old new : option (dirent Delivery)) : Prop :=
  new = old \/
  (old = None /\ exists c r, op = OpEnqueue c r /\ deliveryPath (outbound_key r) = name /\
     (new = Some EJunk \/ new = Some (ERec (outbound_delivery r)))) \/
  (exists d d', old = Some (ERec d) /\ check_delivery d = Ok d /\ new = Some (ERec d') /\
     evolves name op d d').

Lemma transition_file_step name op j checks w id rule r j' :
  guarded j checks (transition w id rule) = (r, j') ->
  (forall u d d', checks = Ok u -> rule d = Ok d' -> evolves (deliveryPath id) op d d') ->
  file_step name op (ob_files j !! name) (ob_files j' !! name).
Proof.
  intros H Hev. apply guarded_transition in H as [[-> _]|(_ & u & d & d' & Hc & Hr & Hd & Hj)];
    [by left|]. apply readDelivery_file in Hr as [Hf Hck].
  destruct Hj as [[-> _]|[-> _]]; [cbn|by left].
  destruct (decide (name = deliveryPath id)) as [->|Hne].
  - right; right. exists d, d'. rewrite lookup_insert_eq. eauto.
  - left. by rewrite lookup_insert_ne.
Qed.

Lemma Enqueue_file_step name c request j r j' :
  Enqueue c request j = (r, j') ->
  file_step name (OpEnqueue c request) (ob_files j !! name) (ob_files j' !! name).
Proof.
  unfold Enqueue, file_create. intros H.
  destruct (usable j); [|simplify_eq; by left]. destruct (validateOutbound request); [|simplify_eq; by left].
  destruct (ob_files j !! deliveryPath (outbound_key request)) as [e|] eqn:Hn.
  { cbn in H. rewrite bool_decide_true in H by done. cbn in H.
    destruct (readDelivery _ _); [destruct (negb _)|]; simplify_eq; by left. }
  assert (j' = match c with COk | CLeftWhole => MkOutbox (ob_held j)
                  (<[deliveryPath (outbound_key request) := ERec (outbound_delivery request)]> (ob_files j))
               | CFail => MkOutbox (ob_held j) (ob_files j)
               | CLeftPartial => MkOutbox (ob_held j)
                  (<[deliveryPath (outbound_key request) := EJunk]> (ob_files j)) end) as ->.
  { destruct c; try rewrite bool_decide_false in H by done; cbn in H; by simplify_eq. }
  clear H. destruct (decide (name = deliveryPath (outbound_key request))) as [->|Hne].
  - destruct c; cbn; rewrite ?lookup_insert_eq, ?Hn; [right; left|by left|right; left|right; left];
      (split; [done|]); eauto 8.
  - left. destruct c; cbn; by rewrite ?lookup_insert_ne.
Qed.

(** The expiry loop visits each name once, so each file takes at most one step. *)
Lemma expire_loop_step ws seconds names n j out j' name :
  NoDup names -> expire_loop ws seconds names n j = (out, j') ->
  file_step name (OpExpire ws seconds) (ob_files j !! name) (ob_files j' !! name) /\
  (name ∉ names -> ob_files j' !! name = ob_files j !! name).
Proof.
  intros Hnd. revert n j. induction Hnd as [|m names Hm Hnd IH]; intros n j; cbn [expire_loop].
  { intros; simplify_eq. split; [by left|done]. }
  assert (forall n' j1, expire_loop ws seconds names n' j1 = (out, j') ->
            ob_files j1 = ob_files j ->
            file_step name (OpExpire ws seconds) (ob_files j !! name) (ob_files j' !! name) /\
            (name ∉ m :: names -> ob_files j' !! name = ob_files j !! name)) as Hskip.
  { intros n' j1 H Hj. apply IH in H as [H1 H2]. rewrite Hj in H1, H2. split; [done|].
    intros Hni. apply H2. set_solver. }
  destruct (is_dir _ _); [intros H; by apply (Hskip _ _ H)|].
  destruct (readDelivery (ob_files j) m) as [d|] eqn:Hr; [|intros H; by apply (Hskip _ _ H)].
  destruct (expires_now seconds d) eqn:He; cbn [negb]; [|intros H; by apply (Hskip _ _ H)].
  apply readDelivery_file in Hr as [Hf Hck].
  assert (file_step m (OpExpire ws seconds) (ob_files j !! m) (Some (ERec (expired_record seconds d))))
    as Hstep by (right; right; exists d, (expired_record seconds d); eauto using evolves).
  unfold commitDelivery. destruct (file_replace _ _ _ _) as [[u|e] files] eqn:Hw.
  - apply file_replace_Ok in Hw as ->. intros H. apply IH in H as [H1 H2]. cbn in H1, H2.
    destruct (decide (name = m)) as [->|Hne].
    + rewrite H2, lookup_insert_eq by done. split; [done|set_solver].
    + rewrite lookup_insert_ne in H1, H2 by done. split; [done|]. intros; apply H2; set_solver.
  - intros; simplify_eq. cbn. apply file_replace_cases in Hw as [[-> _]|[-> _]].
    + split; [by left|done].
    + destruct (decide (name = m)) as [->|Hne].
      * rewrite lookup_insert_eq. split; [done|set_solver].
      * rewrite lookup_insert_ne by done. split; [by left|done].
Qed.

Lemma run_delivery_step name j op :
  file_step name op (ob_files j !! name) (ob_files (run_delivery j op) !! name).
Proof.
  destruct op as [c r|w id a now l|w id a code now|w id a now|w id now|w id now|ws now]; cbn [run_delivery].
  - destruct (Enqueue c r j) as [x j'] eqn:E. apply (Enqueue_file_step _ _ _ _ _ _ E).
  - destruct (ClaimForSend w id a now l j) as [x j'] eqn:E.
    apply (transition_file_step name _ _ _ _ _ _ _ _ E). intros u d d' Hc Hd. inv_ok Hc. breflect.
    constructor; try done. lia.
  - destruct (Failed w id a code now j) as [x j'] eqn:E.
    apply (transition_file_step name _ _ _ _ _ _ _ _ E). intros. by constructor.
  - destruct (Delivered w id a now j) as [x j'] eqn:E.
    apply (transition_file_step name _ _ _ _ _ _ _ _ E). intros. by constructor.
  - destruct (Abandon w id now j) as [x j'] eqn:E.
    apply (transition_file_step name _ _ _ _ _ _ _ _ E). intros. by constructor.
  - destruct (Resume w id now j) as [x j'] eqn:E.
    apply (transition_file_step name _ _ _ _ _ _ _ _ E). intros. by constructor.
  - destruct (ExpireDeliveries ws now j) as [x j'] eqn:E. cbn [snd]. unfold ExpireDeliveries in E.
    destruct (usable j); [|simplify_eq; by left]. destruct (time_invalid now); [simplify_eq; by left|].
    by apply (expire_loop_step _ _ _ _ _ _ _ name (NoDup_dir_names _)) in E as [? _].
Qed.

(** ** What no operation changes *)

(** The identity and content of a delivery: everything but its progress. *)
Definition binding (d : Delivery) : Delivery :=
  MkDelivery (dl_Schema d) (dl_DeliveryID d) (dl_EventID d) (dl_SessionID d) (dl_PayloadBase64 d)
    (dl_PayloadDigest d) (dl_CiphertextBase64 d) (dl_CiphertextDigest d) "" 0
    (dl_RecipientEndpointID d) (dl_RecipientDeviceID d) (dl_ConversationID d) StatePending 0 "" 0
    (dl_CreatedAtUnix d) (dl_ExpiresAtUnix d) 0.

Definition waiting (d : Delivery) : Prop := dl_State d = StatePending \/ dl_State d = StateHeld.
Definition is_settled (d : Delivery) : Prop := dl_State d = StateDelivered \/ dl_State d = StateAbandoned.

Definition code_ok (code : Code) : bool := String.eqb code "" || Known code.
(** The caller of [Failed] reports a classified code. *)
Definition classified (op : delivery_op) : bool :=
  match op with OpFailed _ _ _ code _ => code_ok code | _ => true end.

Lemma failed_record_cases code seconds d :
  let d' := failed_record code seconds d in
  binding d' = binding d /\ dl_LastCode d' = code /\ dl_AttemptID d' = "" /\ dl_AttemptExpiresAt d' = 0 /\
  dl_Attempts d' = u32 (dl_Attempts d + 1) /\
  (dl_State d' = StateAbandoned \/ dl_State d' = StateHeld \/ dl_State d' = dl_State d).
Proof.
  unfold failed_record. cbv zeta. destruct (_ <=? seconds); [by split_and!; auto|].
  destruct (ry_Allowed _); [|destruct (bool_decide _); by split_and!; auto].
  destruct (_ <=? u64 _); by split_and!; auto.
Qed.

Lemma expired_record_cases seconds d :
  let d' := expired_record seconds d in
  binding d' = binding d /\ dl_State d' = StateAbandoned /\ dl_SettledAtUnix d' = seconds /\
  (dl_LastCode d' = CodeTimeout \/ dl_LastCode d' = dl_LastCode d).
Proof. unfold expired_record. cbv zeta. destruct (String.eqb _ _); by split_and!; auto. Qed.

Lemma evolves_facts name op d d' :
  evolves name op d d' ->
  waiting d /\ binding d' = binding d /\ (waiting d' \/ is_settled d') /\
  (dl_LastCode d' = dl_LastCode d \/ code_ok (dl_LastCode d') = classified op).
Proof.
  unfold waiting, is_settled. intros [w id a now l x y _ _ _ _ H|w id a code now x y _ H|w id a now x y _ H
    |w id now x y _ H|w id now x y _ H|ws now x H].
  - unfold claim_decision in H. inv_ok H. breflect. simplify_eq. split_and!; auto.
  - unfold failed_decision in H. inv_ok H. breflect. simplify_eq.
    destruct (failed_record_cases code now x) as (? & Hc & _ & _ & _ & Hs). cbn [classified].
    rewrite Hc. split_and!; auto. destruct Hs as [->|[->| ->]]; auto.
  - unfold settle_decision in H. inv_ok H. simplify_eq. split_and!; auto.
    destruct (decide (dl_State x = StatePending)); [by left|right].
    destruct (decide (dl_State x = StateHeld)); [done|]. by rewrite !bool_decide_false in Heqb.
  - unfold settle_decision in H. inv_ok H. simplify_eq. split_and!; auto.
    destruct (decide (dl_State x = StatePending)); [by left|right].
    destruct (decide (dl_State x = StateHeld)); [done|]. by rewrite !bool_decide_false in Heqb.
  - unfold resume_decision in H. inv_ok H. breflect. simplify_eq. split_and!; auto.
  - destruct (expired_record_cases now x) as (? & Hs & _ & Hc). rewrite Hs. unfold expires_now in H.
    breflect. split_and!; auto.
    + apply orb_prop in H as [H|H]; apply bool_decide_eq_true in H; auto.
    + destruct Hc as [->|]; [right; by vm_compute|by left].
Qed.

Lemma check_delivery_binding d d' :
  binding d' = binding d -> known_state (dl_State d') = true -> code_ok (dl_LastCode d') = true ->
  check_delivery d = Ok d -> check_delivery d' = Ok d'.
Proof.
  destruct d, d'. unfold binding. cbn -[b64_decode]. intros Hb Hs Hc Hk. injection Hb; clear Hb; intros; subst.
  unfold code_ok, check_delivery, Delivery_Payload, Delivery_Ciphertext in *. cbn -[b64_decode] in *.
  inv_ok Hk. rewrite Hs. cbn. by rewrite <- negb_orb, Hc.
Qed.

Lemma check_delivery_facts d :
  check_delivery d = Ok d -> code_ok (dl_LastCode d) = true /\ known_state (dl_State d) = true.
Proof.
  unfold check_delivery, code_ok. intros H. inv_ok H. split; [|by breflect].
  rewrite <- negb_orb in Heqb6. by breflect.
Qed.

Lemma waiting_settled d : waiting d -> is_settled d -> False.
Proof. intros [H|H] [H'|H']; congruence. Qed.

Lemma run_delivery_kept name j op d :
  ob_files j !! name = Some (ERec d) ->
  exists d', ob_files (run_delivery j op) !! name = Some (ERec d') /\
    (d' = d \/ check_delivery d = Ok d /\ evolves name op d d').
Proof.
  intros Hf. destruct (run_delivery_step name j op) as [H|[(H & _)|(x & y & H & Hck & Hy & Hev)]];
    [|congruence|].
  - rewrite H. eauto.
  - assert (x = d) as -> by congruence. eauto.
Qed.

Lemma run_delivery_readable name j op d :
  readDelivery (ob_files j) name = Ok d -> classified op = true ->
  exists d', readDelivery (ob_files (run_delivery j op)) name = Ok d' /\ binding d' = binding d.
Proof.
  setoid_rewrite readDelivery_file. intros [Hf Hck] Hop.
  destruct (run_delivery_kept name j op d Hf) as (d' & Hf' & [->|[_ Hev]]); [eauto|].
  exists d'. destruct (evolves_facts _ _ _ _ Hev) as (_ & Hb & Hs & Hc).
  destruct (check_delivery_facts _ Hck) as [Hcd _]. split_and!; try done.
  apply (check_delivery_binding d); try done.
  - by destruct Hs as [[->| ->]|[->| ->]].
  - by destruct Hc as [-> | ->].
Qed.

(** ** Samples used by the witnesses *)

Definition sample_event : string := "evt_" +:+ sample_hash.
Definition sample_outbound : Outbound :=
  MkOutbound "" sample_event ("ses_" +:+ sample_hash) ("mep_" +:+ sample_hash) ""
    ("conv_" +:+ sample_hash) [x01; x02; x03]%byte 100 5000.
Definition sample_attempt : string := "send_" +:+ sample_hash.
Definition other_attempt : string := "send_" +:+ hex_encode (List.repeat x07%byte 32).
Definition empty_outbox : Outbox := MkOutbox true ∅.
Definition queued_outbox : Outbox := snd (Enqueue COk sample_outbound empty_outbox).
Definition sample_name : string := deliveryPath sample_event.

Lemma ValidDigest_payload : ValidDigest (canon_Digest [x01; x02; x03]%byte) = true.
Proof. vm_compute. reflexivity. Qed.

(** A fresh record is one the journal reads back, unless its payload hashes to
    the all-zero digest, which [ValidDigest] refuses. *)
Lemma outbound_readable r :
  validateOutbound r = Ok tt -> ValidDigest (canon_Digest (or_Payload r)) = true ->
  check_delivery (outbound_delivery r) = Ok (outbound_delivery r).
Proof.
  intros Hv Hd. unfold validateOutbound in Hv. inv_ok Hv. clear Hv.
  unfold check_delivery, Delivery_Payload. cbn -[b64_decode b64_encode].
  rewrite b64_decode_encode, !String.eqb_refl, Hd, Heqb, Heqb1, Heqb3, Heqb4, Heqb5. cbn.
  rewrite orb_false_r, Heqb7. revert Heqb0 Heqb2.
  by destruct (String.eqb (or_DeliveryID r) ""), (deliveryCopyPattern (or_DeliveryID r)),
    (ids_Device (or_RecipientDeviceID r)).
Qed.

Lemma Enqueue_fresh r j d j' c :
  Enqueue c r j = (Ok (true, d), j') ->
  ob_held j = true /\ validateOutbound r = Ok tt /\ d = outbound_delivery r /\
  ob_files j !! deliveryPath (outbound_key r) = None /\
  j' = MkOutbox true (<[deliveryPath (outbound_key r) := ERec d]> (ob_files j)).
Proof.
  unfold Enqueue, usable, file_create. destruct (ob_held j); [cbn|done].
  destruct (validateOutbound r) as [[]|]; [|done].
  destruct (ob_files j !! _) eqn:Hn; cbn.
  { rewrite bool_decide_true by done. cbn. destruct (readDelivery _ _); [destruct (negb _)|]; done. }
  destruct c; try (rewrite bool_decide_false by done); cbn; try done. intros; by simplify_eq.
Qed.

Lemma Enqueue_granted r j :
  ob_held j = true -> validateOutbound r = Ok tt -> ob_files j !! deliveryPath (outbound_key r) = None ->
  Enqueue COk r j = (Ok (true, outbound_delivery r),
    MkOutbox true (<[deliveryPath (outbound_key r) := ERec (outbound_delivery r)]> (ob_files j))).
Proof. unfold Enqueue, usable, file_create. by intros -> -> ->. Qed.

Lemma sample_queued :
  queued_outbox = MkOutbox true {[ sample_name := ERec (outbound_delivery sample_outbound) ]}.
Proof. unfold queued_outbox. by rewrite Enqueue_granted. Qed.

Lemma sample_readable : readDelivery (ob_files queued_outbox) sample_name = Ok (outbound_delivery sample_outbound).
Proof.
  rewrite sample_queued. apply readDelivery_file. split; [apply lookup_insert_eq|].
  by apply outbound_readable; [|exact ValidDigest_payload].
Qed.

Lemma run_deliveries_app ops op j :
  run_deliveries (ops ++ [op]) j = run_delivery (run_deliveries ops j) op.
Proof. unfold run_deliveries. by rewrite foldl_app. Qed.

Lemma run_deliveries_kept ops j name d :
  readDelivery (ob_files j) name = Ok d -> forallb classified ops = true ->
  exists d', readDelivery (ob_files (run_deliveries ops j)) name = Ok d' /\ binding d' = binding d.
Proof.
  intros Hr. induction ops as [|op ops IH] using rev_ind; [eauto|].
  rewrite forallb_app. intros [Hops Hop]%andb_prop. cbn in Hop. rewrite andb_true_r in Hop.
  destruct (IH Hops) as (d1 & H1 & Hb1). rewrite run_deliveries_app.
  destruct (run_delivery_readable _ _ _ _ H1 Hop) as (d2 & H2 & Hb2). exists d2. by rewrite Hb2.
Qed.

Lemma transition_held j checks w id rule :
  ob_held (snd (guarded j checks (transition w id rule))) = ob_held j.
Proof.
  destruct (guarded j checks (transition w id rule)) as [r j'] eqn:E.
  apply guarded_transition in E as [[-> _]|(_ & u & d & d' & _ & _ & _ & [[-> _]|[-> _]])]; done.
Qed.

Lemma expire_loop_held ws seconds names n j : ob_held (snd (expire_loop ws seconds names n j)) = ob_held j.
Proof.
  revert n j. induction names as [|m names IH]; intros n j; cbn [expire_loop]; [done|].
  destruct (is_dir _ _); [done|]. destruct (readDelivery _ _); [|done]. destruct (negb _); [done|].
  unfold commitDelivery. destruct (file_replace _ _ _ _) as [[] files]; [by rewrite IH|done].
Qed.

Lemma run_delivery_held j op : ob_held (run_delivery j op) = ob_held j.
Proof.
  destruct op; try apply transition_held; cbn [run_delivery].
  - unfold Enqueue. destruct (usable j); [|done]. destruct (validateOutbound request); [|done].
    destruct (file_create _ _ _ _) as [[] files]; [done|]. destruct (negb _); [done|].
    destruct (readDelivery _ _); [destruct (negb _)|]; done.
  - unfold ExpireDeliveries. destruct (usable j); [|done]. destruct (time_invalid now); [done|].
    apply expire_loop_held.
Qed.

Lemma run_deliveries_held ops j : ob_held (run_deliveries ops j) = ob_held j.
Proof.
  induction ops as [|op ops IH] using rev_ind; [done|]. by rewrite run_deliveries_app, run_delivery_held.
Qed.

(** ** Properties *)

(** A delivery that was delivered or abandoned stays exactly as it is,
    whatever operations follow, whoever calls them, with whatever arguments, and
    however the writes end. *)
Theorem delivery_settled_final ops j name d :
  readDelivery (ob_files j) name = Ok d -> is_settled d ->
  readDelivery (ob_files (run_deliveries ops j)) name = Ok d.
Proof.
  intros Hr Hs. induction ops as [|op ops IH] using rev_ind; [done|].
  rewrite run_deliveries_app. apply readDelivery_file in IH as [Hf Hck].
  apply readDelivery_file. destruct (run_delivery_kept name _ op d Hf) as (d' & Hf' & [->|[_ Hev]]); [done|].
  destruct (evolves_facts _ _ _ _ Hev) as (Hw & _). destruct (waiting_settled _ Hw Hs).
Qed.

(** Once an event is queued its record never disappears or becomes
    unreadable, and its identity, its recipient, its payload and its expiry never
    change, whatever operations follow, as long as failures are reported with
    codes of the registry. *)
Theorem delivery_record_kept ops j name d :
  readDelivery (ob_files j) name = Ok d -> forallb classified ops = true ->
  exists d', readDelivery (ob_files (run_deliveries ops j)) name = Ok d' /\ binding d' = binding d.
Proof. apply run_deliveries_kept. Qed.

(** Enqueueing is idempotent: after a request was recorded as fresh, and any
    operations in between, a valid request for the same file is answered from the
    record that is there, which is left as it is, so a resubmission restarts no
    backoff; a request whose binding differs is refused as a conflict. *)
Theorem enqueue_once c r j d j' ops c2 r2 :
  Enqueue c r j = (Ok (true, d), j') -> ValidDigest (dl_PayloadDigest d) = true ->
  forallb classified ops = true ->
  validateOutbound r2 = Ok tt -> deliveryPath (outbound_key r2) = deliveryPath (outbound_key r) ->
  exists d', readDelivery (ob_files (run_deliveries ops j')) (deliveryPath (outbound_key r)) = Ok d' /\
    binding d' = binding (outbound_delivery r) /\
    Enqueue c2 r2 (run_deliveries ops j') =
      (if same_request (outbound_delivery r) r2 then Ok (false, d') else Err ErrConflict,
       run_deliveries ops j').
Proof.
  intros (Hh & Hv & -> & Hn & ->)%Enqueue_fresh Hd Hops Hv2 Hp.
  destruct (run_deliveries_kept ops (MkOutbox true (<[deliveryPath (outbound_key r) := ERec (outbound_delivery r)]> (ob_files j)))
              (deliveryPath (outbound_key r)) (outbound_delivery r)) as (d' & Hr' & Hb); [|done|].
  { apply readDelivery_file. split; [apply lookup_insert_eq|]. by apply outbound_readable. }
  exists d'. split; [done|]. split; [done|].
  assert (same_request d' r2 = same_request (outbound_delivery r) r2) as <-.
  { unfold same_request. f_equal; [f_equal; [f_equal; [f_equal|]|]|].
    all: [> exact (f_equal (fun x => String.eqb (dl_RecipientEndpointID x) _) Hb)
          | exact (f_equal (fun x => String.eqb (dl_RecipientDeviceID x) _) Hb)
          | exact (f_equal (fun x => String.eqb (dl_ConversationID x) _) Hb)
          | exact (f_equal (fun x => String.eqb (dl_SessionID x) _) Hb)
          | exact (f_equal (fun x => String.eqb (dl_PayloadDigest x) _) Hb)]. }
  unfold Enqueue, usable, file_create. rewrite run_deliveries_held, Hv2, Hp. cbn.
  rewrite Hr'. apply readDelivery_file in Hr' as [-> _]. rewrite bool_decide_true by done. cbn.
  by destruct (same_request d' r2).
Qed.

(** What others may do while an attempt holds a delivery: anything on another
    record, and on this one anything but the owner's own acts ([Abandon], or
    settling without naming an attempt), the holder's reports, a claim after the
    lease ended and an expiry sweep after the event's own expiry. *)
Definition foreign (name attempt : string) (d : Delivery) (op : delivery_op) : bool :=
  match op with
  | OpEnqueue _ _ | OpResume _ _ _ => true
  | OpClaim _ id a now _ =>
      negb (String.eqb (deliveryPath id) name)
      || negb (String.eqb a attempt) && (now <? dl_AttemptExpiresAt d)
  | OpFailed _ id a _ _ => negb (String.eqb (deliveryPath id) name) || negb (String.eqb a attempt)
  | OpDelivered _ id a _ =>
      negb (String.eqb (deliveryPath id) name)
      || negb (String.eqb a attempt) && negb (String.eqb a "")
  | OpAbandon _ id _ => negb (String.eqb (deliveryPath id) name)
  | OpExpire _ now => now <? dl_ExpiresAtUnix d
  end.

Lemma foreign_refused name op d d' :
  dl_State d = StatePending -> foreign name (dl_AttemptID d) d op = true -> evolves name op d d' -> False.
Proof.
  intros Hst Hf Hev. destruct Hev as [w id a now l x y Hn _ _ _ H|w id a code now x y Hn H|w id a now x y Hn H
    |w id now x y Hn H|w id now x y Hn H|ws now x H];
    cbn [foreign] in Hf; try (rewrite Hn, String.eqb_refl in Hf; cbn in Hf).
  - unfold claim_decision in H. breflect. inv_ok H. rewrite String.eqb_sym in Heqb0.
    rewrite H1, (proj2 (String.eqb_neq _ _) H0) in Heqb0. done.
  - unfold failed_decision, holdsAttempt in H. inv_ok H. inv_ok Heqr. breflect. congruence.
  - unfold settle_decision, holdsAttempt in H. inv_ok H. breflect.
    rewrite (proj2 (String.eqb_neq _ _) H1) in Heqr. inv_ok Heqr. breflect. congruence.
  - done.
  - unfold resume_decision in H. inv_ok H. breflect. congruence.
  - unfold expires_now in H. breflect. lia.
Qed.

Lemma ClaimForSend_ok w id a now lease j d j' :
  ClaimForSend w id a now lease j = (Ok d, j') ->
  ob_held j = true /\ validDeliveryID id = true /\ readDelivery (ob_files j') (deliveryPath id) = Ok d /\
  ob_held j' = true /\ dl_State d = StatePending /\ dl_AttemptID d = a /\
  dl_AttemptExpiresAt d = u64 (now + Z.quot lease Second).
Proof.
  intros H. apply guarded_transition in H as [[_ ?]|(Hh & u & x & d' & Hc & Hr & Hd & Hj)]; [done|].
  destruct Hj as [[-> Hok]|[_ ?]]; [|done]. destruct Hok as [[= <-]|]; [|done].
  inv_ok Hc. breflect. apply readDelivery_file in Hr as [_ Hck]. rewrite readDelivery_file. cbn.
  rewrite lookup_insert_eq. unfold claim_decision in Hd. inv_ok Hd. breflect. simplify_eq.
  split_and!; try done. destruct (check_delivery_facts _ Hck).
  by apply (check_delivery_binding x).
Qed.


(** The delay before attempt [n + 1] in seconds, in closed form; [None] when the
    code allows no further attempt by itself. *)
Definition retry_seconds (code : Code) (n : Z) : option Z :=
  match DispositionOf code with
  | Transient => if n <=? 8 then Some (Z.min 300 (2 ^ (n - 1))) else None
  | Refresh => if n <=? 4 then Some (Z.min 900 (5 * 2 ^ (n - 1))) else None
  | DispApproval | Permanent => None
  end.

(** Where a failed attempt leaves the delivery: its state, the time of the next
    attempt and the time it settled. *)
Definition after_failure (code : Code) (n now expires settled_at : Z) : DeliveryState * Z * Z :=
  if expires <=? now then (StateAbandoned, 0, now) else
  match retry_seconds code n with
  | Some s => if now + s <? expires then (StatePending, now + s, settled_at) else (StateAbandoned, 0, now)
  | None =>
      if bool_decide (DispositionOf code = DispApproval) then (StateHeld, 0, settled_at)
      else (StateAbandoned, 0, now)
  end.

Lemma min_scale cap base k : 0 <= cap -> 0 <= base -> 0 <= k ->
  Z.quot (Z.min (cap * Second) (base * Second * k)) Second = Z.min cap (base * k).
Proof.
  intros. replace (base * Second * k) with (base * k * Second) by lia.
  rewrite Z.mul_min_distr_nonneg_r by (unfold Second; lia). apply Z.quot_mul. unfold Second; lia.
Qed.

Lemma retry_seconds_NextCode code n :
  retry_seconds code (Z.max 1 n) =
  (if ry_Allowed (NextCode code n) then Some (Z.quot (ry_After (NextCode code n)) Second) else None) /\
  ry_Disposition (NextCode code n) = DispositionOf code.
Proof.
  rewrite NextCode_cases. unfold retry_seconds.
  assert (0 <= 2 ^ (Z.max 1 n - 1)) by (apply Z.pow_nonneg; lia).
  destruct (DispositionOf code); [done| | |done].
  - unfold TransientAttempts. destruct (_ <=? 8); [|done]. cbn [ry_Allowed ry_After ry_Disposition].
    split; [|done]. f_equal. unfold TransientCap, TransientBase, Minute.
    replace (5 * (60 * Second)) with (300 * Second) by lia.
    rewrite <- (Z.mul_1_l Second) at 2. rewrite min_scale; lia.
  - unfold RefreshAttempts. destruct (_ <=? 4); [|done]. cbn [ry_Allowed ry_After ry_Disposition].
    split; [|done]. f_equal. unfold RefreshCap, RefreshBase, Minute.
    replace (15 * (60 * Second)) with (900 * Second) by lia. rewrite min_scale; lia.
Qed.

Lemma retry_seconds_bounds code n s : 1 <= n -> retry_seconds code n = Some s ->
  1 <= s <= 900 /\ n <= max_attempts.
Proof.
  intros Hn. unfold retry_seconds, max_attempts, TransientAttempts, RefreshAttempts.
  assert (0 < 2 ^ (n - 1)) by (apply Z.pow_pos_nonneg; lia).
  destruct (DispositionOf code); [done| | |done]; destruct (Z.leb_spec n 8), (Z.leb_spec n 4);
    intros; simplify_eq; lia.
Qed.

Lemma failed_record_exact code now d :
  0 <= now < 2 ^ 63 -> dl_State d = StatePending ->
  let d' := failed_record code now d in
  (dl_State d', dl_NextAttemptAtUnix d', dl_SettledAtUnix d') =
  after_failure code (Z.max 1 (dl_Attempts d')) now (dl_ExpiresAtUnix d) (dl_SettledAtUnix d).
Proof.
  intros Hnow Hst. cbv zeta. destruct (failed_record_cases code now d) as (_ & _ & _ & _ & -> & _).
  unfold after_failure, failed_record. cbv zeta. cbn [dl_ExpiresAtUnix dl_Attempts set_failure set_attempt].
  set (n := u32 _). destruct (retry_seconds_NextCode code n) as [Hr ->].
  destruct (_ <=? now); [done|]. destruct (retry_seconds code (Z.max 1 n)) as [s|] eqn:Hs.
  - destruct (ry_Allowed _); [|done]. apply (inj Some) in Hr. rewrite <- Hr.
    apply retry_seconds_bounds in Hs; [|lia]. rewrite u64_id by (unfold is_u64; lia).
    rewrite Z.leb_antisym. destruct (now + s <? _); [|done]. cbn. by rewrite Hst.
  - destruct (ry_Allowed _); [done|]. by destruct (bool_decide _).
Qed.

(** A failed attempt is recorded exactly along the fixed curve: only the
    attempt that holds the pending delivery may report it, its claim is
    released, the attempt is counted, and the state, the next attempt and the
    settlement time are those of the closed-form schedule; the delivery stays
    pending only while its code's attempt budget lasts and only for a time
    between now and its expiry. *)
Theorem failed_schedule w id a code now j d' j' :
  Failed w id a code now j = (Ok d', j') -> now < 2 ^ 63 ->
  exists d, readDelivery (ob_files j) (deliveryPath id) = Ok d /\
    dl_State d = StatePending /\ dl_AttemptID d = a /\ a <> "" /\
    binding d' = binding d /\ dl_AttemptID d' = "" /\ dl_AttemptExpiresAt d' = 0 /\
    dl_LastCode d' = code /\ dl_Attempts d' = u32 (dl_Attempts d + 1) /\
    (dl_State d', dl_NextAttemptAtUnix d', dl_SettledAtUnix d') =
      after_failure code (Z.max 1 (dl_Attempts d')) now (dl_ExpiresAtUnix d) (dl_SettledAtUnix d) /\
    (dl_State d' = StatePending ->
       now < dl_NextAttemptAtUnix d' < dl_ExpiresAtUnix d /\ dl_Attempts d' <= max_attempts).
Proof.
  intros H Hnow. apply guarded_transition in H as [[_ ?]|(Hh & u & d & x & Hc & Hr & Hd & Hj)]; [done|].
  assert (x = d') as -> by (destruct Hj as [[_ [[= ?]|?]]|[_ ?]]; done).
  inv_ok Hc. apply time_valid_nonneg in Heqb0. unfold failed_decision in Hd. inv_ok Hd. breflect.
  unfold holdsAttempt in Heqr. inv_ok Heqr. breflect. simplify_eq.
  destruct (failed_record_cases code now d) as (Hb & Hcode & Ha & Hx & Hat & _).
  pose proof (failed_record_exact code now d ltac:(lia) Heqb1) as He. cbv zeta in He.
  exists d. split_and!; try done. intros Hst. rewrite Hst in He. unfold after_failure in He.
  destruct (_ <=? now); [done|]. destruct (retry_seconds _ _) as [s|] eqn:Hs;
    [|destruct (bool_decide _); done].
  apply retry_seconds_bounds in Hs; [|lia]. destruct (Z.ltb_spec (now + s) (dl_ExpiresAtUnix d)); [|done].
  injection He as -> ?. lia.
Qed.

(** ** The due list *)

#[global] Instance due_le_total : Total due_le.
Proof.
  intros d e. unfold due_le.
  destruct (Z.lt_total (dl_NextAttemptAtUnix d) (dl_NextAttemptAtUnix e)) as [?|[->|?]]; auto.
  destruct (total str_le (Delivery_Key d) (Delivery_Key e)); auto.
Qed.

#[global] Instance due_le_trans : Transitive due_le.
Proof.
  unfold due_le. intros d e f [?|[? ?]] [?|[? ?]]; [left; lia..|right]. split; [congruence|].
  by transitivity (Delivery_Key e).
Qed.

(** A directory in which every record is filed under its own key. *)
Definition well_filed (files : directory Delivery) : Prop :=
  forall name d, readDelivery files name = Ok d -> deliveryPath (Delivery_Key d) = name.

Definition due_at (seconds : Z) (files : directory Delivery) (name : string) : option Delivery :=
  match readDelivery files name with
  | Ok d => if is_due seconds d then Some d else None
  | Err _ => None
  end.

Lemma due_records_omap seconds files names :
  due_records seconds files names = omap (due_at seconds files) names.
Proof.
  induction names as [|n names IH]; [done|]. cbn [due_records omap list_omap]. rewrite IH. unfold due_at, is_dir.
  destruct (readDelivery files n) as [d|] eqn:Hr.
  - apply readDelivery_file in Hr as [-> _]. by destruct (is_due seconds d).
  - by destruct (files !! n) as [[]|].
Qed.

Lemma due_at_Some seconds files name d :
  due_at seconds files name = Some d <-> readDelivery files name = Ok d /\ is_due seconds d = true.
Proof.
  unfold due_at. destruct (readDelivery files name) as [x|]; [|by split; [|intros [? _]]].
  destruct (is_due seconds x) eqn:?; split; [by intros [= ->]|by intros [[= ->] _]|done|].
  intros [[= ->] ?]. congruence.
Qed.

Lemma due_keys_NoDup seconds files names :
  well_filed files -> NoDup names -> NoDup (Delivery_Key <$> omap (due_at seconds files) names).
Proof.
  intros Hwf. induction 1 as [|n names Hn Hnd IH]; cbn [omap list_omap]; [constructor|].
  destruct (due_at seconds files n) as [d|] eqn:Hd; [|exact IH].
  cbn [fmap list_fmap]. constructor; [|exact IH].
  intros (e & Hk & (m & Hm & He)%list_elem_of_omap)%list_elem_of_fmap.
  apply due_at_Some in Hd as [Hd%Hwf _]. apply due_at_Some in He as [He%Hwf _]. congruence.
Qed.

(** A sweep's list is exactly the readable pending deliveries that have not
    expired, whose next attempt has arrived and which no live attempt holds,
    ordered by the time of that attempt and then by key; with every record filed
    under its own key, no key is listed twice. *)
Theorem due_exact now j l :
  Due now j = Ok l ->
  (forall d, d ∈ l <-> exists name, readDelivery (ob_files j) name = Ok d /\
     dl_State d = StatePending /\ now < dl_ExpiresAtUnix d /\ dl_NextAttemptAtUnix d <= now /\
     dl_AttemptExpiresAt d <= now) /\
  Sorted due_le l /\
  (well_filed (ob_files j) -> NoDup (Delivery_Key <$> l)).
Proof.
  unfold Due. intros H. inv_ok H. apply Ok_inj in H as <-. rewrite due_records_omap. split_and!.
  - intros d. rewrite merge_sort_Permutation, list_elem_of_omap. split.
    + intros (name & _ & [Hr Hd]%due_at_Some). exists name. unfold is_due in Hd. breflect. split_and!; [done..|lia|lia|lia].
    + intros (name & Hr & Hs & He & Hn & Ha). exists name. split.
      * apply elem_of_dir_names. apply readDelivery_file in Hr as [-> _]. by eexists.
      * apply due_at_Some. split; [done|]. unfold is_due. rewrite bool_decide_true by done. lia.
  - apply Sorted_merge_sort, _.
  - intros Hwf. rewrite merge_sort_Permutation. apply due_keys_NoDup; [done|apply NoDup_dir_names].
Qed.

(** ** Expiry *)

(** What an expiry sweep makes of one directory entry. *)
Definition expire_entry (seconds : Z) (e : dirent Delivery) : dirent Delivery :=
  match e with
  | ERec d => if is_ok (check_delivery d) && expires_now seconds d then ERec (expired_record seconds d) else e
  | _ => e
  end.
Definition expiring (seconds : Z) (files : directory Delivery) (name : string) : bool :=
  match readDelivery files name with Ok d => expires_now seconds d | Err _ => false end.

Lemma expiring_false seconds files name :
  expiring seconds files name = false -> expire_entry seconds <$> files !! name = files !! name.
Proof.
  unfold expiring, readDelivery, read_file. destruct (files !! name) as [[| | |d]|]; try done. cbn.
  destruct (check_delivery d) as [d'|] eqn:Hc; [|done]. cbn.
  assert (d' = d) as ->; [|by intros ->]. unfold check_delivery in Hc. inv_ok Hc. by simplify_eq.
Qed.

Lemma expire_loop_complete ws seconds names n j m j' :
  NoDup names -> expire_loop ws seconds names n j = ((m, None), j') ->
  m = n + Z.of_nat (length (List.filter (expiring seconds (ob_files j)) names)) /\
  forall name, ob_files j' !! name =
    if bool_decide (name ∈ names) then expire_entry seconds <$> ob_files j !! name else ob_files j !! name.
Proof.
  intros Hnd. revert n j. induction Hnd as [|x names Hx Hnd IH]; intros n j; cbn [expire_loop List.filter].
  { intros [= -> ->]. split; [cbn; lia|]. intros name. by rewrite bool_decide_false by set_solver. }
  destruct (expiring seconds (ob_files j) x) eqn:He.
  - unfold expiring in He. destruct (readDelivery (ob_files j) x) as [d|] eqn:Hr; [|done].
    pose proof (proj1 (readDelivery_file _ _ _) Hr) as [Hf Hck].
    unfold is_dir. rewrite Hf, He. cbn [negb]. unfold commitDelivery.
    destruct (file_replace _ _ _ _) as [[u|e] files] eqn:Hw; [|done].
    apply file_replace_Ok in Hw as ->. intros H. apply IH in H as [-> Hl]. cbn in Hl |- *. split.
    + replace (List.filter (expiring seconds (<[x := ERec (expired_record seconds d)]> (ob_files j))) names)
        with (List.filter (expiring seconds (ob_files j)) names); [lia|].
      apply List.filter_ext_in. intros y Hy. unfold expiring, readDelivery, read_file.
      rewrite lookup_insert_ne; [done|]. intros ->. apply Hx. by apply list_elem_of_In.
    + intros name. rewrite Hl. destruct (decide (name = x)) as [->|Hne].
      * rewrite bool_decide_false, bool_decide_true, lookup_insert_eq, Hf by set_solver. cbn. by rewrite Hck, He.
      * rewrite lookup_insert_ne by done.
        by rewrite (bool_decide_ext (name ∈ names) (name ∈ x :: names)) by set_solver.
  - intros H. assert (expire_loop ws seconds names n j = ((m, None), j')) as H'.
    { unfold expiring in He. destruct (is_dir _ _); [done|].
      destruct (readDelivery (ob_files j) x); [|done]. by rewrite He in H. }
    apply IH in H' as [-> Hl]. split; [done|]. intros name. rewrite Hl.
    destruct (decide (name = x)) as [->|Hne].
    + rewrite bool_decide_false, bool_decide_true by set_solver. symmetry. by apply expiring_false.
    + by rewrite (bool_decide_ext (name ∈ names) (name ∈ x :: names)) by set_solver.
Qed.

Lemma expire_loop_total seconds names n j :
  exists m j', expire_loop (fun _ => WOk) seconds names n j = ((m, None), j').
Proof.
  revert n j. induction names as [|x names IH]; intros n j; cbn [expire_loop]; [eauto|].
  destruct (is_dir (ob_files j) x) eqn:Hd; [apply IH|].
  destruct (readDelivery _ _) as [d|]; [|apply IH]. destruct (negb _); [apply IH|].
  unfold commitDelivery. rewrite file_replace_granted; [apply IH|].
  intros Hf. unfold is_dir in Hd. by rewrite Hf in Hd.
Qed.

(** An expiry sweep that reports no error turned exactly the readable waiting
    deliveries whose expiry had come into abandoned ones, counted them, left
    every other entry alone, and left no waiting delivery past its expiry; and
    it reports no error when its writes succeed. *)
Theorem expire_deliveries_exact ws now j :
  ob_held j = true -> time_invalid now = false ->
  (forall n j', ExpireDeliveries ws now j = ((n, None), j') ->
     n = Z.of_nat (length (List.filter (expiring now (ob_files j)) (dir_names (ob_files j)))) /\
     ob_files j' = expire_entry now <$> ob_files j /\
     forall name d, readDelivery (ob_files j') name = Ok d -> waiting d -> now < dl_ExpiresAtUnix d) /\
  (exists n j', ExpireDeliveries (fun _ => WOk) now j = ((n, None), j')).
Proof.
  intros Hh Ht. unfold ExpireDeliveries, usable. rewrite Hh, Ht. cbn. split; [|apply expire_loop_total].
  intros n j' [Hn Hl]%expire_loop_complete; [|apply NoDup_dir_names].
  assert (ob_files j' = expire_entry now <$> ob_files j) as Hfiles.
  { apply map_eq. intros name. rewrite Hl, lookup_fmap.
    destruct (bool_decide_reflect (name ∈ dir_names (ob_files j))) as [|Hni]; [done|].
    rewrite elem_of_dir_names in Hni. destruct (ob_files j !! name) eqn:E; [|done].
    destruct Hni. by eexists. }
  split_and!; [lia|done|]. intros name d. rewrite readDelivery_file, Hfiles, lookup_fmap.
  destruct (ob_files j !! name) as [[| | |x]|]; try (intros [? _]; done). cbn. intros [Hx Hck] Hw.
  destruct (is_ok (check_delivery x)) eqn:Hok, (expires_now now x) eqn:He; cbn in Hx; simplify_eq.
  - destruct (expired_record_cases now x) as (_ & Hs & _). destruct Hw; congruence.
  - unfold expires_now in He. apply andb_false_iff in He as [He|He]; [|lia].
    breflect. by destruct Hw.
  - by rewrite Hck in Hok.
  - by rewrite Hck in Hok.
Qed.

(** ** Copy identifiers *)

(** A delivery-copy identifier names one device copy of one event: equal
    identifiers mean the same event, endpoint and device, short of a SHA-256
    collision. *)
Theorem copy_id_binds e p d e' p' d' c :
  NewDeliveryCopyID e p d = Ok c -> NewDeliveryCopyID e' p' d' = Ok c ->
  (e = e' /\ p = p' /\ d = d') \/ sha256_collision.
Proof.
  unfold NewDeliveryCopyID. intros H H'. inv_ok H. inv_ok H'. breflect.
  apply Ok_inj in H, H'. rewrite <- H' in H. apply string_app_inj_l, digest_hex_inj in H.
  rewrite !canon_Text_app, <- !app_assoc in H.
  assert (forall x y z : string, field_bytes (FText x) ++ field_bytes (FText y) ++ field_bytes (FText z)
            = fields_bytes [FText x; FText y; FText z]) as Hf.
  { intros x y z. unfold fields_bytes. cbn [List.map List.concat]. by rewrite app_nil_r. }
  rewrite !Hf in H.
  repeat match goal with H : _ ?x = true |- _ => apply prefixed_hex64_slen in H; slen_lit end.
  apply object_digest_inj in H as [H|]; [|by right|done|..].
  - injection H as -> -> ->. auto.
  - rewrite !Forall_cons. cbn [field_wf]. split_and!; [lia..|done].
  - rewrite !Forall_cons. cbn [field_wf]. split_and!; [lia..|done].
Qed.

Lemma copy_id_binds_witness :
  exists c, NewDeliveryCopyID sample_event ("mep_" +:+ sample_hash) ("dev_" +:+ sample_hash) = Ok c /\
   ((sample_event = sample_event /\ "mep_" +:+ sample_hash = "mep_" +:+ sample_hash /\
     "dev_" +:+ sample_hash = "dev_" +:+ sample_hash) \/ sha256_collision).
Proof. eexists. split; [reflexivity|]. eapply copy_id_binds; reflexivity. Defined.

(** ** Two ways around the rules *)

(** [Delivered] called with an empty attempt identifier settles a waiting
    delivery whichever attempt holds it, although its comment says that only the
    sweep holding the attempt may. *)
Theorem delivered_without_attempt id now j d :
  ob_held j = true -> validDeliveryID id = true -> time_invalid now = false ->
  readDelivery (ob_files j) (deliveryPath id) = Ok d -> waiting d ->
  exists d' j', Delivered WOk id "" now j = (Ok d', j') /\ dl_State d' = StateDelivered.
Proof.
  intros Hh Hid Ht Hr Hw. unfold Delivered, settle, guarded, usable. rewrite Hh, Hid, Ht. cbn.
  unfold transition. rewrite Hr. unfold settle_decision. cbn [String.eqb].
  assert (negb (bool_decide (dl_State d = StatePending)) && negb (bool_decide (dl_State d = StateHeld)) = false) as ->.
  { destruct Hw as [->| ->]; [by rewrite bool_decide_true|]. by rewrite andb_comm, bool_decide_true. }
  unfold commitDelivery. rewrite file_replace_granted; [eauto|].
  apply readDelivery_file in Hr as [-> _]. done.
Qed.

(** [Failed] does not check that the code it is given is in the registry, and
    the reader does: a failure reported with an unclassified code leaves a record
    that every later operation refuses as invalid. *)
Theorem failed_unclassified_unreadable w id a code now j d' j' :
  Failed w id a code now j = (Ok d', j') -> code <> "" -> Known code = false ->
  readDelivery (ob_files j') (deliveryPath id) = Err err_record.
Proof.
  intros H Hne Hk. apply guarded_transition in H as [[_ ?]|(Hh & u & d & x & Hc & Hr & Hd & Hj)]; [done|].
  destruct Hj as [[-> [[= <-]|?]]|[_ ?]]; [|done|done].
  unfold failed_decision in Hd. inv_ok Hd. apply Ok_inj in Hd as <-.
  unfold readDelivery, read_file. cbn [ob_files]. rewrite lookup_insert_eq.
  destruct (check_delivery _) as [y|e] eqn:Hck.
  - assert (y = failed_record code now d) as -> by (unfold check_delivery in Hck; inv_ok Hck; by simplify_eq).
    apply check_delivery_facts in Hck as [Hck _].
    destruct (failed_record_cases code now d) as (_ & Hcode & _). rewrite Hcode in Hck.
    unfold code_ok in Hck. apply orb_prop in Hck as [?%String.eqb_eq|]; congruence.
  - unfold check_delivery in Hck.
    repeat match type of Hck with (if ?b then _ else _) = _ => destruct b; [by simplify_eq|] end. done.
Qed.

(** ** Witnesses: one delivery queued, claimed, failed once and then settled *)

Definition claimed_delivery : Delivery := set_attempt (outbound_delivery sample_outbound) sample_attempt 160.
Definition claimed_outbox : Outbox := MkOutbox true {[ sample_name := ERec claimed_delivery ]}.

Lemma sample_claim :
  ClaimForSend WOk sample_event sample_attempt 100 (60 * Second) queued_outbox = (Ok claimed_delivery, claimed_outbox).
Proof.
  unfold ClaimForSend, guarded, transition. change (deliveryPath sample_event) with sample_name.
  rewrite sample_readable, sample_queued. unfold commitDelivery, file_replace. cbn [ob_files ob_held].
  rewrite lookup_singleton_eq. unfold claimed_outbox.
  rewrite <- (insert_singleton_eq (M := gmap string) sample_name (ERec (outbound_delivery sample_outbound))
                (ERec claimed_delivery)). reflexivity.
Qed.

Lemma claimed_readable : readDelivery (ob_files claimed_outbox) sample_name = Ok claimed_delivery.
Proof. pose proof sample_claim as H. by apply ClaimForSend_ok in H as (_ & _ & ? & _). Qed.

Lemma sample_failed code : exists d j,
  Failed WOk sample_event sample_attempt code 101 claimed_outbox = (Ok d, j) /\ d = failed_record code 101 claimed_delivery.
Proof.
  unfold Failed, guarded, transition. pose proof claimed_readable as Hr. unfold sample_name in Hr.
  rewrite Hr. unfold commitDelivery, file_replace, claimed_outbox, sample_name. cbn [ob_files ob_held].
  rewrite lookup_singleton_eq. eexists _, _. split; reflexivity.
Qed.

Lemma sample_delivered : exists d j,
  Delivered WOk sample_event sample_attempt 120 claimed_outbox = (Ok d, j) /\
  readDelivery (ob_files j) sample_name = Ok d /\ is_settled d.
Proof.
  unfold Delivered, settle, guarded, transition. change (deliveryPath sample_event) with sample_name.
  pose proof claimed_readable as Hr. rewrite Hr.
  unfold commitDelivery, file_replace, claimed_outbox. cbn [ob_files ob_held]. rewrite lookup_singleton_eq.
  eexists _, _. split; [reflexivity|]. split; [|by left]. apply readDelivery_file. split; [apply lookup_insert_eq|].
  apply readDelivery_file in Hr as [_ Hr]. by apply (check_delivery_binding claimed_delivery).
Qed.

Lemma delivery_settled_final_witness : exists d j,
  Delivered WOk sample_event sample_attempt 120 claimed_outbox = (Ok d, j) /\
    readDelivery (ob_files (run_deliveries [OpFailed WOk sample_event sample_attempt CodeTimeout 121;
      OpExpire (fun _ => WOk) 6000; OpEnqueue COk sample_outbound] j)) sample_name = Ok d.
Proof.
  destruct sample_delivered as (d & j & H & Hr & Hs). exists d, j. split; [exact H|].
  by apply delivery_settled_final.
Defined.

Lemma delivery_record_kept_witness :
  exists d', readDelivery (ob_files (run_deliveries
      [OpFailed WOk sample_event sample_attempt CodeTimeout 101; OpAbandon WFailNew sample_event 102] claimed_outbox))
      sample_name = Ok d' /\ binding d' = binding claimed_delivery.
Proof. apply delivery_record_kept; [exact claimed_readable|vm_compute; reflexivity]. Defined.

Lemma enqueue_once_witness : exists d',
  readDelivery (ob_files (run_deliveries [OpClaim WOk sample_event sample_attempt 100 (60 * Second)] queued_outbox))
    sample_name = Ok d' /\
  binding d' = binding (outbound_delivery sample_outbound) /\
  Enqueue COk sample_outbound (run_deliveries [OpClaim WOk sample_event sample_attempt 100 (60 * Second)] queued_outbox) =
    (if same_request (outbound_delivery sample_outbound) sample_outbound then Ok (false, d') else Err ErrConflict,
     run_deliveries [OpClaim WOk sample_event sample_attempt 100 (60 * Second)] queued_outbox).
Proof.
  apply (enqueue_once COk sample_outbound empty_outbox (outbound_delivery sample_outbound));
    [unfold queued_outbox; by rewrite Enqueue_granted|exact ValidDigest_payload|reflexivity..].
Defined.


Lemma failed_schedule_witness : exists d j,
  Failed WOk sample_event sample_attempt CodeTimeout 101 claimed_outbox = (Ok d, j) /\
  (dl_State d, dl_NextAttemptAtUnix d, dl_SettledAtUnix d) = (StatePending, 102, 0) /\ dl_Attempts d = 1.
Proof.
  destruct (sample_failed CodeTimeout) as (d & j & H & Hd). exists d, j. split; [done|].
  destruct (failed_schedule _ _ _ _ _ _ _ _ H ltac:(lia)) as (x & Hx & _ & _ & _ & _ & _ & _ & _ & Ha & He & _).
  change (deliveryPath sample_event) with sample_name in Hx. rewrite claimed_readable in Hx.
  apply Ok_inj in Hx as <-. rewrite He, Ha. split; vm_compute; reflexivity.
Defined.

Lemma due_exact_witness : exists l, Due 100 queued_outbox = Ok l /\ outbound_delivery sample_outbound ∈ l.
Proof.
  eexists. split; [reflexivity|].
  eapply (due_exact 100 queued_outbox); [reflexivity|]. exists sample_name. split; [exact sample_readable|].
  vm_compute. split_and!; congruence.
Defined.

Lemma expire_deliveries_exact_witness : exists n j',
  ExpireDeliveries (fun _ => WOk) 6000 claimed_outbox = ((n, None), j') /\
  ob_files j' = expire_entry 6000 <$> ob_files claimed_outbox.
Proof.
  destruct (expire_deliveries_exact (fun _ => WOk) 6000 claimed_outbox eq_refl eq_refl) as [H (n & j' & He)].
  exists n, j'. split; [done|]. by destruct (H n j' He) as (_ & ? & _).
Defined.

Lemma delivered_without_attempt_witness : exists d' j',
  Delivered WOk sample_event "" 120 claimed_outbox = (Ok d', j') /\ dl_State d' = StateDelivered.
Proof.
  apply (delivered_without_attempt sample_event 120 claimed_outbox claimed_delivery);
    [reflexivity..|exact claimed_readable|left; reflexivity].
Defined.

Lemma failed_unclassified_unreadable_witness : exists d j,
  Failed WOk sample_event sample_attempt "no-such-code" 101 claimed_outbox = (Ok d, j) /\
  readDelivery (ob_files j) sample_name = Err err_record.
Proof.
  destruct (sample_failed "no-such-code") as (d & j & H & _). exists d, j. split; [done|].
  apply (failed_unclassified_unreadable _ _ _ _ _ _ _ _ H); [discriminate|vm_compute; reflexivity].
Defined.

(** ** Retries end *)

(** How many failed attempts at the record [name] were answered as recorded. *)
Fixpoint recorded_failures (name : string) (ops : list delivery_op) (j : Outbox) : Z :=
  match ops with
  | [] => 0
  | op :: rest =>
      (match op with
       | OpFailed w id a code now => if String.eqb (deliveryPath id) name && is_ok (fst (Failed w id a code now j)) then 1 else 0
       | _ => 0
       end) + recorded_failures name rest (run_delivery j op)
  end.

Definition not_resumed (name : string) (op : delivery_op) : Prop :=
  match op with OpResume _ id _ => deliveryPath id <> name | _ => True end.

(** The failures a record has left. *)
Definition failures_left (d : Delivery) : Z :=
  if bool_decide (dl_State d = StatePending) then TransientAttempts + 1 - dl_Attempts d else 0.
Definition retries_counted (d : Delivery) : Prop :=
  0 <= dl_Attempts d /\ (dl_State d = StatePending -> dl_Attempts d <= TransientAttempts).

Lemma failed_record_counts code seconds d :
  retries_counted d -> dl_State d = StatePending ->
  retries_counted (failed_record code seconds d) /\ failures_left (failed_record code seconds d) <= failures_left d - 1.
Proof.
  intros [H0 Hp] Hs. specialize (Hp Hs). unfold failures_left at 2. rewrite bool_decide_true by done.
  assert (u32 (dl_Attempts d + 1) = dl_Attempts d + 1) as Hu by (unfold u32, TransientAttempts in *; apply Z.mod_small; lia).
  unfold failed_record. cbv zeta. rewrite Hu. cbn [dl_Attempts set_failure].
  assert (forall st n t, st <> StatePending ->
    retries_counted (set_schedule (set_failure (set_attempt d "" 0) (dl_Attempts d + 1) code) st n t)
    /\ failures_left (set_schedule (set_failure (set_attempt d "" 0) (dl_Attempts d + 1) code) st n t)
       <= TransientAttempts + 1 - dl_Attempts d - 1) as Hend.
  { intros st n t Hst. unfold retries_counted, failures_left. cbn [dl_State dl_Attempts set_schedule set_failure set_attempt].
    rewrite bool_decide_false by done. split; [split; [lia|done]|unfold TransientAttempts in *; lia]. }
  destruct (_ <=? seconds); [by apply Hend|]. destruct (ry_Allowed _) eqn:Ha; [|case_bool_decide; by apply Hend].
  destruct (_ <=? _); [by apply Hend|]. clear Hend.
  assert (dl_Attempts d + 1 <= TransientAttempts) as Hle.
  { unfold NextCode in Ha. cbv zeta in Ha. replace (dl_Attempts d + 1 <? 1) with false in Ha by (symmetry; apply Z.ltb_ge; lia).
    destruct (DispositionOf code); try done.
    - destruct (TransientAttempts <? dl_Attempts d + 1) eqn:E; [done|]. by apply Z.ltb_ge in E.
    - destruct (RefreshAttempts <? dl_Attempts d + 1) eqn:E; [done|]. apply Z.ltb_ge in E. unfold RefreshAttempts, TransientAttempts in *. lia. }
  unfold retries_counted, failures_left. cbn [dl_State dl_Attempts set_schedule set_failure set_attempt].
  rewrite Hs, bool_decide_true by done. split; [split; lia|lia].
Qed.

Lemma evolves_retries name op d d' :
  evolves name op d d' -> not_resumed name op -> retries_counted d ->
  retries_counted d' /\ failures_left d' <= failures_left d.
Proof.
  intros Hev Hn Hc. pose proof Hc as [H0 Hp].
  assert (forall d', dl_State d' <> StatePending -> dl_Attempts d' = dl_Attempts d ->
    retries_counted d' /\ failures_left d' <= failures_left d) as Hend.
  { intros e He Ha. split; [split; [lia|done]|]. unfold failures_left at 1. rewrite bool_decide_false by done.
    unfold failures_left. case_bool_decide as Hx; [specialize (Hp Hx); unfold TransientAttempts in *; lia|lia]. }
  destruct Hev as [w id a now l x y _ _ _ _ H|w id a code now x y _ H|w id a now x y _ H
    |w id now x y _ H|w id now x y E H|ws now x H].
  - unfold claim_decision in H. inv_ok H. breflect. simplify_eq. by split.
  - unfold failed_decision in H. inv_ok H. breflect. simplify_eq.
    destruct (failed_record_counts code now x Hc) as [? ?]; [done|]. split; [done|lia].
  - unfold settle_decision in H. inv_ok H. simplify_eq. by apply Hend.
  - unfold settle_decision in H. inv_ok H. simplify_eq. by apply Hend.
  - by destruct Hn.
  - apply Hend; unfold expired_record; by destruct (String.eqb _ _).
Qed.

Lemma failed_takes_one w id a code now j d :
  ob_files j !! deliveryPath id = Some (ERec d) -> is_ok (fst (Failed w id a code now j)) = true -> retries_counted d ->
  exists d', ob_files (run_delivery j (OpFailed w id a code now)) !! deliveryPath id = Some (ERec d')
  /\ retries_counted d' /\ failures_left d' <= failures_left d - 1.
Proof.
  intros Hf Hok Hc. cbn [run_delivery]. destruct (Failed w id a code now j) as [r j'] eqn:E. cbn [fst snd] in *.
  apply guarded_transition in E as [[_ Hr]|(_ & u & x & y & _ & Hr & Hy & Hj)]; [congruence|].
  apply readDelivery_file in Hr as [Hx _]. rewrite Hf in Hx. injection Hx as <-.
  destruct Hj as [[-> _]|[_ Hr]]; [|congruence]. cbn [ob_files]. exists y. split; [apply lookup_insert_eq|].
  unfold failed_decision in Hy. inv_ok Hy. breflect. simplify_eq. by apply failed_record_counts.
Qed.

(** C16: Retrying ends.  Whatever codes attempts at a delivery fail with, at
    whatever times and in whatever interleaving with claims, sweeps, failed writes and
    other deliveries, at most nine failures of it are ever recorded unless the owner
    resumes it: after that it is settled or waits for the owner, and no further failure
    is taken. *)
Theorem retries_end ops j name d :
  ob_files j !! name = Some (ERec d) -> 0 <= dl_Attempts d <= TransientAttempts -> Forall (not_resumed name) ops ->
  recorded_failures name ops j <= TransientAttempts + 1 - dl_Attempts d
  /\ (dl_State d <> StatePending -> recorded_failures name ops j = 0).
Proof.
  intros Hf Hb Hn.
  assert (forall ops j d, ob_files j !! name = Some (ERec d) -> retries_counted d -> Forall (not_resumed name) ops ->
    0 <= recorded_failures name ops j <= failures_left d) as Hall.
  { clear. intros ops. induction ops as [|op ops IH]; intros j d Hf Hc Hn.
    - cbn [recorded_failures]. unfold failures_left. destruct Hc as [? Hp]. case_bool_decide as Hs; [specialize (Hp Hs)|];
        unfold TransientAttempts in *; lia.
    - apply Forall_cons in Hn as [Ho Hn]. cbn [recorded_failures].
      assert (exists d', ob_files (run_delivery j op) !! name = Some (ERec d') /\ retries_counted d' /\ failures_left d' <= failures_left d)
        as (d' & Hf' & Hc' & Hl).
      { destruct (run_delivery_kept name j op d Hf) as (d' & Hf' & [->|[_ Hev]]); [by exists d|].
        destruct (evolves_retries _ _ _ _ Hev Ho Hc) as [? ?]. by exists d'. }
      destruct op as [| |w id a code now| | | |]; try (specialize (IH _ _ Hf' Hc' Hn); lia).
      destruct (String.eqb_spec (deliveryPath id) name) as [<-|]; cbn [andb]; [|specialize (IH _ _ Hf' Hc' Hn); lia].
      destruct (is_ok _) eqn:Hok; [|specialize (IH _ _ Hf' Hc' Hn); lia].
      destruct (failed_takes_one _ _ _ _ _ _ _ Hf Hok Hc) as (y & Hy & Hcy & Hly). specialize (IH _ _ Hy Hcy Hn). lia. }
  assert (retries_counted d) as Hc by (split; [lia|intros _; lia]). specialize (Hall ops j d Hf Hc Hn). unfold failures_left in Hall.
  case_bool_decide as Hs; split; try done; unfold TransientAttempts in *; lia.
Qed.

(** A delivery that is claimed and fails over and over, with no connection. *)
Definition failing_round (now : Z) : list delivery_op :=
  [OpClaim WOk sample_event sample_attempt now (60 * Second); OpFailed WOk sample_event sample_attempt CodeTimeout now].
Lemma retries_end_witness :
  recorded_failures sample_name (failing_round 100) queued_outbox = 1
  /\ recorded_failures sample_name (List.concat (List.map failing_round (seqZ 100 20))) queued_outbox <= 9.
Proof.
  assert (ob_files queued_outbox !! sample_name = Some (ERec (outbound_delivery sample_outbound))) as Hf
    by exact (proj1 (proj1 (readDelivery_file _ _ _) sample_readable)).
  split; [vm_compute; reflexivity|].
  apply (retries_end (List.concat (List.map failing_round (seqZ 100 20))) queued_outbox sample_name (outbound_delivery sample_outbound) Hf).
  - vm_compute. split; discriminate.
  - vm_compute. repeat constructor.
Defined.
