(* ===== verification/Json.v ===== *)
(** * JSON as [encoding/json] reads and writes it

    The wire forms of bundles, bootstraps and delegations are JSON objects with
    string, integer, string-list and raw fields, decoded with
    [DisallowUnknownFields] and a check for trailing content.  This file models
    the part of Go's [encoding/json] that this uses: the grammar, strings with
    their escapes and the replacement of invalid UTF-8, the matching of object
    keys to struct fields (exact, else case-folded; the last one wins), [null]
    as "leave the field alone", and the writer with its HTML escapes.

    [decode_struct] reads a struct; [struct_roundtrip] says that it reads back
    what the writer wrote. *)

From S2P Require Import Prelude Encoding.

#[local] Open Scope nat_scope.

(** ** Trees *)

#[local] Unset Elimination Schemes.
Inductive json : Type :=
  | JNull
  | JBool (b : bool)
  | JNumber (literal : bytes)
  | JString (s : bytes)
  | JArray (items : list json)
  | JObject (members : list (bytes * json)).
#[local] Set Elimination Schemes.

(** ** UTF-8 sequences *)

Definition two_bytes (a b : byte) : bool := byte_in 194 223 a && byte_in 128 191 b.
Definition three_bytes (a b c : byte) : bool :=
  byte_in 224 239 a && byte_in 128 191 c &&
  (if byte_in 224 224 a then byte_in 160 191 b
   else if byte_in 237 237 a then byte_in 128 159 b
   else byte_in 128 191 b).
Definition four_bytes (a b c d : byte) : bool :=
  byte_in 240 244 a && byte_in 128 191 c && byte_in 128 191 d &&
  (if byte_in 240 240 a then byte_in 144 191 b
   else if byte_in 244 244 a then byte_in 128 143 b
   else byte_in 128 191 b).

(** [utf8.EncodeRune] *)
Definition encode_rune (r : Z) : bytes :=
  (if r <? 128 then [byte_of_Z r]
   else if r <? 2048 then [byte_of_Z (192 + r / 64); byte_of_Z (128 + r mod 64)]
   else if ((55296 <=? r) && (r <=? 57343)) || (1114111 <? r)
   then [xef; xbf; xbd]
   else if r <? 65536
   then [byte_of_Z (224 + r / 4096); byte_of_Z (128 + r / 64 mod 64); byte_of_Z (128 + r mod 64)]
   else [byte_of_Z (240 + r / 262144); byte_of_Z (128 + r / 4096 mod 64);
         byte_of_Z (128 + r / 64 mod 64); byte_of_Z (128 + r mod 64)])%Z.

Definition replacement : bytes := [xef; xbf; xbd].

(** ** Reading strings *)

Definition byte_hex (b : byte) : option Z := hexval (ascii_of_byte b).

Definition hex4 (a b c d : byte) : option Z :=
  match byte_hex a, byte_hex b, byte_hex c, byte_hex d with
  | Some x, Some y, Some z, Some w => Some (((x * 16 + y) * 16 + z) * 16 + w)%Z
  | _, _, _, _ => None
  end.

Definition is_surrogate (r : Z) : bool := ((55296 <=? r) && (r <=? 57343))%Z.

(** [utf16.DecodeRune], when the two form a pair *)
Definition surrogate_pair (high low : Z) : option Z :=
  if ((55296 <=? high) && (high <? 56320) && (56320 <=? low) && (low <? 57344))%Z
  then Some (65536 + (high - 55296) * 1024 + (low - 56320))%Z else None.

Definition simple_escape (b : byte) : option byte :=
  match b with
  | x22 => Some x22 | x5c => Some x5c | x2f => Some x2f
  | x62 => Some x08 | x66 => Some x0c | x6e => Some x0a | x72 => Some x0d | x74 => Some x09
  | _ => None
  end.

Definition out (c : bytes) (o : option (bytes * bytes)) : option (bytes * bytes) :=
  match o with Some (s, rest) => Some (c ++ s, rest) | None => None end.

(** The rest of the input when it starts with [b]. *)
Definition after (b : byte) (l : bytes) : option bytes :=
  match l with
  | a :: rest => if Byte.eqb a b then Some rest else None
  | [] => None
  end.

Fixpoint after_all (p l : bytes) : option bytes :=
  match p with
  | [] => Some l
  | b :: p' => match after b l with Some rest => after_all p' rest | None => None end
  end.

(** The characters of a string up to its closing quote, and what follows. *)
Fixpoint parse_chars (l : bytes) : option (bytes * bytes) :=
  match l with
  | [] => None
  | a :: l1 =>
      if Byte.eqb a x22 then Some ([], l1) else
      if Byte.eqb a x5c then
        match l1 with
        | [] => None
        | e :: l2 =>
            if Byte.eqb e x75 then
              match l2 with
              | h1 :: h2 :: h3 :: h4 :: rest =>
                  match hex4 h1 h2 h3 h4 with
                  | None => None
                  | Some u =>
                      if is_surrogate u then
                        match rest with
                        | s :: t :: k1 :: k2 :: k3 :: k4 :: rest' =>
                            let low :=
                              if Byte.eqb s x5c && Byte.eqb t x75 then hex4 k1 k2 k3 k4 else None in
                            match low ≫= surrogate_pair u with
                            | Some r => out (encode_rune r) (parse_chars rest')
                            | None => out replacement (parse_chars rest)
                            end
                        | _ => out replacement (parse_chars rest)
                        end
                      else out (encode_rune u) (parse_chars rest)
                  end
              | _ => None
              end
            else
              match simple_escape e with Some c => out [c] (parse_chars l2) | None => None end
        end
      else
      if (byteZ a <? 32)%Z then None else
      if (byteZ a <? 128)%Z then out [a] (parse_chars l1) else
      match l1 with
      | b :: l2 =>
          if two_bytes a b then out [a; b] (parse_chars l2) else
          match l2 with
          | c :: l3 =>
              if three_bytes a b c then out [a; b; c] (parse_chars l3) else
              match l3 with
              | d :: l4 =>
                  if four_bytes a b c d then out [a; b; c; d] (parse_chars l4)
                  else out replacement (parse_chars l1)
              | [] => out replacement (parse_chars l1)
              end
          | [] => out replacement (parse_chars l1)
          end
      | [] => None
      end
  end.

(** ** Reading numbers *)

Definition is_digit_byte (b : byte) : bool := byte_in 48 57 b.

Fixpoint span_digits (l : bytes) : bytes * bytes :=
  match l with
  | b :: rest =>
      if is_digit_byte b then let '(ds, rest') := span_digits rest in (b :: ds, rest') else ([], l)
  | [] => ([], [])
  end.

Definition some_digits (l : bytes) : option (bytes * bytes) :=
  match span_digits l with ([], _) => None | (ds, rest) => Some (ds, rest) end.

Definition parse_int (l : bytes) : option (bytes * bytes) :=
  match after x30 l with
  | Some rest => Some ([x30], rest)
  | None => some_digits l
  end.

Definition parse_frac (l : bytes) : option (bytes * bytes) :=
  match after x2e l with
  | Some rest => out [x2e] (some_digits rest)
  | None => Some ([], l)
  end.

Definition parse_exp (l : bytes) : option (bytes * bytes) :=
  match l with
  | e :: rest =>
      if Byte.eqb e x65 || Byte.eqb e x45 then
        match rest with
        | s :: rest' =>
            if Byte.eqb s x2b || Byte.eqb s x2d then out [e; s] (some_digits rest')
            else out [e] (some_digits rest)
        | [] => None
        end
      else Some ([], l)
  | [] => Some ([], l)
  end.

Definition parse_number (l : bytes) : option (bytes * bytes) :=
  let '(sign, l0) := match after x2d l with Some rest => ([x2d], rest) | None => ([], l) end in
  match parse_int l0 with
  | None => None
  | Some (i, l1) =>
      match parse_frac l1 with
      | None => None
      | Some (f, l2) => out (sign ++ i ++ f) (parse_exp l2)
      end
  end.

(** ** Reading values *)

Definition is_space (b : byte) : bool :=
  match b with x20 | x09 | x0a | x0d => true | _ => false end.

Fixpoint skip_space (l : bytes) : bytes :=
  match l with
  | b :: rest => if is_space b then skip_space rest else l
  | [] => []
  end.

Definition maxNestingDepth : Z := 10000.

Definition keyword (word : string) (v : json) (l : bytes) : option (json * bytes) :=
  match after_all (bytes_of_string word) l with Some rest => Some (v, rest) | None => None end.

(** The fuel is the length of the input, and each call consumes a byte
    ([parse_print] shows it is enough for whatever the writer wrote). *)
Fixpoint parse_value (fuel : nat) (depth : Z) (l : bytes) : option (json * bytes) :=
  match fuel with
  | O => None
  | S fuel =>
      match skip_space l with
      | [] => None
      | b :: rest =>
          if Byte.eqb b x22 then
            match parse_chars rest with Some (s, rest') => Some (JString s, rest') | None => None end
          else if Byte.eqb b x5b then
            if (depth <=? 0)%Z then None else
            match after x5d (skip_space rest) with
            | Some rest' => Some (JArray [], rest')
            | None =>
                match parse_items fuel (depth - 1)%Z rest with
                | Some (vs, rest') => Some (JArray vs, rest')
                | None => None
                end
            end
          else if Byte.eqb b x7b then
            if (depth <=? 0)%Z then None else
            match after x7d (skip_space rest) with
            | Some rest' => Some (JObject [], rest')
            | None =>
                match parse_members fuel (depth - 1)%Z rest with
                | Some (ms, rest') => Some (JObject ms, rest')
                | None => None
                end
            end
          else if Byte.eqb b x6e then keyword "ull" JNull rest
          else if Byte.eqb b x74 then keyword "rue" (JBool true) rest
          else if Byte.eqb b x66 then keyword "alse" (JBool false) rest
          else match parse_number (b :: rest) with
               | Some (n, rest') => Some (JNumber n, rest')
               | None => None
               end
      end
  end
with parse_items (fuel : nat) (depth : Z) (l : bytes) : option (list json * bytes) :=
  match fuel with
  | O => None
  | S fuel =>
      match parse_value fuel depth l with
      | None => None
      | Some (v, rest) =>
          match after x5d (skip_space rest), after x2c (skip_space rest) with
          | Some rest', _ => Some ([v], rest')
          | None, Some rest' =>
              match parse_items fuel depth rest' with
              | Some (vs, rest'') => Some (v :: vs, rest'')
              | None => None
              end
          | None, None => None
          end
      end
  end
with parse_members (fuel : nat) (depth : Z) (l : bytes) : option (list (bytes * json) * bytes) :=
  match fuel with
  | O => None
  | S fuel =>
      match after x22 (skip_space l) ≫= parse_chars with
      | None => None
      | Some (key, rest) =>
          match after x3a (skip_space rest) ≫= parse_value fuel depth with
          | None => None
          | Some (v, rest) =>
              match after x7d (skip_space rest), after x2c (skip_space rest) with
              | Some rest', _ => Some ([(key, v)], rest')
              | None, Some rest' =>
                  match parse_members fuel depth rest' with
                  | Some (ms, rest'') => Some ((key, v) :: ms, rest'')
                  | None => None
                  end
              | None, None => None
              end
          end
      end
  end.

Definition parse_json (l : bytes) : option (json * bytes) :=
  parse_value (S (List.length l)) maxNestingDepth l.

(** ** Writing *)

Definition hexbyte (v : Z) : byte := byte_of_ascii (hexchar v).

(** One ASCII character of a string, with the HTML escapes [Marshal] makes. *)
Definition escape_ascii (b : byte) : bytes :=
  match b with
  | x22 => [x5c; x22]
  | x5c => [x5c; x5c]
  | x08 => [x5c; x62]
  | x0c => [x5c; x66]
  | x0a => [x5c; x6e]
  | x0d => [x5c; x72]
  | x09 => [x5c; x74]
  | x3c | x3e | x26 => [x5c; x75; x30; x30; hexbyte (byteZ b / 16); hexbyte (byteZ b mod 16)]
  | _ =>
      if (byteZ b <? 32)%Z
      then [x5c; x75; x30; x30; hexbyte (byteZ b / 16); hexbyte (byteZ b mod 16)]
      else [b]
  end.

(** U+2028 and U+2029 are escaped, every other sequence is copied, and a byte
    that starts none becomes the escaped replacement character. *)
Definition escape_three (a b c : byte) : bytes :=
  if bool_decide ([a; b; c] = [xe2; x80; xa8]) then [x5c; x75; x32; x30; x32; x38]
  else if bool_decide ([a; b; c] = [xe2; x80; xa9]) then [x5c; x75; x32; x30; x32; x39]
  else [a; b; c].
Definition escape_invalid : bytes := [x5c; x75; x66; x66; x66; x64].

Fixpoint print_chars (l : bytes) : bytes :=
  match l with
  | [] => []
  | a :: l1 =>
      if (byteZ a <? 128)%Z then escape_ascii a ++ print_chars l1 else
      match l1 with
      | b :: l2 =>
          if two_bytes a b then [a; b] ++ print_chars l2 else
          match l2 with
          | c :: l3 =>
              if three_bytes a b c then escape_three a b c ++ print_chars l3 else
              match l3 with
              | d :: l4 =>
                  if four_bytes a b c d then [a; b; c; d] ++ print_chars l4
                  else escape_invalid ++ print_chars l1
              | [] => escape_invalid ++ print_chars l1
              end
          | [] => escape_invalid ++ print_chars l1
          end
      | [] => escape_invalid
      end
  end.

Definition print_string (s : bytes) : bytes := [x22] ++ print_chars s ++ [x22].

Fixpoint join (sep : bytes) (parts : list bytes) : bytes :=
  match parts with
  | [] => []
  | [p] => p
  | p :: rest => p ++ sep ++ join sep rest
  end.

Fixpoint print_value (v : json) : bytes :=
  match v with
  | JNull => bytes_of_string "null"
  | JBool b => bytes_of_string (if b then "true" else "false")
  | JNumber n => n
  | JString s => print_string s
  | JArray items => [x5b] ++ join [x2c] (List.map print_value items) ++ [x5d]
  | JObject members =>
      [x7b] ++ join [x2c] (List.map (fun m => print_string m.1 ++ [x3a] ++ print_value m.2) members)
      ++ [x7d]
  end.

(** ** Structs *)

(** The field types that occur: [string], [uint64], [uint32], [[]string],
    [[]uint32] and [[]json.RawMessage].  A raw message is kept as the tree it
    parses to. *)
Inductive jkind : Type := JK_String | JK_Uint (bits : Z) | JK_Strings | JK_Uints (bits : Z) | JK_Raws.

Inductive jval : Type :=
  | VString (s : string)
  | VUint (n : Z)
  | VStrings (l : list string)
  | VUints (l : list Z)
  | VRaws (l : list json).

Definition jzero (k : jkind) : jval :=
  match k with
  | JK_String => VString ""
  | JK_Uint _ => VUint 0
  | JK_Strings => VStrings []
  | JK_Uints _ => VUints []
  | JK_Raws => VRaws []
  end.

(** [strconv.ParseUint(literal, 10, bits)] *)
Definition parse_uint (bits : Z) (literal : bytes) : option Z :=
  match parse_decimal (string_of_bytes literal) with
  | Some n => if (n <? 2 ^ bits)%Z then Some n else None
  | None => None
  end.

(** An element of a list; [null] leaves a fresh element at its zero value. *)
Definition string_item (v : json) : option string :=
  match v with
  | JString s => Some (string_of_bytes s)
  | JNull => Some EmptyString
  | _ => None
  end.
Definition uint_item (bits : Z) (v : json) : option Z :=
  match v with
  | JNumber n => parse_uint bits n
  | JNull => Some 0%Z
  | _ => None
  end.

(** One member assigned to a field that holds [old]. *)
Definition decode_field (k : jkind) (old : jval) (v : json) : option jval :=
  match k, v with
  | (JK_String | JK_Uint _), JNull => Some old
  | (JK_Strings | JK_Uints _ | JK_Raws), JNull => Some (jzero k)
  | JK_String, JString s => Some (VString (string_of_bytes s))
  | JK_Uint bits, JNumber n => VUint <$> parse_uint bits n
  | JK_Strings, JArray l => VStrings <$> mapM string_item l
  | JK_Uints bits, JArray l => VUints <$> mapM (uint_item bits) l
  | JK_Raws, JArray l => Some (VRaws l)
  | _, _ => None
  end.

(** [foldName] on keys: ASCII letters and the two other runes that fold to one.
    The field names are ASCII, so no other rune can match. *)
Definition upper (b : byte) : byte :=
  if byte_in 97 122 b then byte_of_Z (byteZ b - 32) else b.
Fixpoint fold_name (l : bytes) : bytes :=
  match l with
  | [] => []
  | a :: l1 =>
      match l1 with
      | b :: l2 =>
          if bool_decide ([a; b] = [xc5; xbf]) then x53 :: fold_name l2 else
          match l2 with
          | c :: l3 =>
              if bool_decide ([a; b; c] = [xe2; x84; xaa]) then x4b :: fold_name l3
              else upper a :: fold_name l1
          | [] => upper a :: fold_name l1
          end
      | [] => [upper a]
      end
  end.

Abbreviation schema := (list (string * jkind)) (only parsing).

Fixpoint field_at (p : bytes -> bool) (fields : schema) : option nat :=
  match fields with
  | [] => None
  | (name, _) :: rest =>
      if p (bytes_of_string name) then Some O else S <$> field_at p rest
  end.

Definition find_field (key : bytes) (fields : schema) : option nat :=
  match field_at (fun name => bool_decide (name = key)) fields with
  | Some i => Some i
  | None => field_at (fun name => bool_decide (fold_name name = fold_name key)) fields
  end.

Definition decode_member (strict : bool) (fields : schema) (vals : list jval) (m : bytes * json)
    : option (list jval) :=
  match find_field m.1 fields with
  | None => if strict then None else Some vals
  | Some i =>
      match fields !! i, vals !! i with
      | Some (_, k), Some old => (fun v => <[i := v]> vals) <$> decode_field k old m.2
      | _, _ => None
      end
  end.

Fixpoint decode_members (strict : bool) (fields : schema) (vals : list jval)
    (ms : list (bytes * json)) : option (list jval) :=
  match ms with
  | [] => Some vals
  | m :: rest =>
      match decode_member strict fields vals m with
      | Some vals' => decode_members strict fields vals' rest
      | None => None
      end
  end.

(** A tree decoded into a struct.  [Unmarshal] reports the first error after
    going through all members, so a failing member fails the whole. *)
Definition decode_tree (strict : bool) (fields : schema) (v : json) : option (list jval) :=
  let zeros := List.map (fun f => jzero f.2) fields in
  match v with
  | JNull => Some zeros
  | JObject ms => decode_members strict fields zeros ms
  | _ => None
  end.

(** How a decoding with a [Decoder] and a check for trailing content ended. *)
Inductive decoded : Type := Decoded (vals : list jval) | Malformed | Trailing.

Definition decode_struct (fields : schema) (raw : bytes) : decoded :=
  match parse_json raw with
  | None => Malformed
  | Some (v, rest) =>
      match decode_tree true fields v with
      | None => Malformed
      | Some vals => match skip_space rest with [] => Decoded vals | _ => Trailing end
      end
  end.

(** [json.Unmarshal] into a struct, unknown keys ignored *)
Definition unmarshal_struct (fields : schema) (raw : bytes) : option (list jval) :=
  match parse_json raw with
  | Some (v, rest) =>
      match skip_space rest with [] => decode_tree false fields v | _ => None end
  | None => None
  end.

Definition string_tree (s : string) : json := JString (bytes_of_string s).
Definition uint_tree (n : Z) : json := JNumber (bytes_of_string (decimal_string n)).

Definition tree_of (v : jval) : json :=
  match v with
  | VString s => string_tree s
  | VUint n => uint_tree n
  | VStrings l => JArray (List.map string_tree l)
  | VUints l => JArray (List.map uint_tree l)
  | VRaws l => JArray l
  end.

(** [omitempty] *)
Definition is_empty (v : jval) : bool :=
  match v with
  | VString s => String.eqb s ""
  | VUint n => (n =? 0)%Z
  | VStrings [] | VUints [] | VRaws [] => true
  | _ => false
  end.

(** [json.Marshal] of a struct; [omit] names its [omitempty] fields.  A nil list
    would be written as [null]; the callers here refuse empty lists before they
    write. *)
Fixpoint struct_members (omit : string -> bool) (fields : schema) (vals : list jval)
    : list (bytes * json) :=
  match fields, vals with
  | (name, _) :: fields', v :: vals' =>
      let rest := struct_members omit fields' vals' in
      if omit name && is_empty v then rest else (bytes_of_string name, tree_of v) :: rest
  | _, _ => []
  end.
Definition marshal_struct (omit : string -> bool) (fields : schema) (vals : list jval) : bytes :=
  print_value (JObject (struct_members omit fields vals)).

Definition no_omit (name : string) : bool := false.

(** ** Strings read back *)

Inductive utf8_text : bytes -> Prop :=
  | utf8_nil : utf8_text []
  | utf8_1 a l : (byteZ a < 128)%Z -> utf8_text l -> utf8_text (a :: l)
  | utf8_2 a b l : two_bytes a b = true -> utf8_text l -> utf8_text (a :: b :: l)
  | utf8_3 a b c l : three_bytes a b c = true -> utf8_text l -> utf8_text (a :: b :: c :: l)
  | utf8_4 a b c d l : four_bytes a b c d = true -> utf8_text l -> utf8_text (a :: b :: c :: d :: l).

Lemma utf8_valid_text l : utf8_valid l = true -> utf8_text l.
Proof.
  remember (List.length l) as n eqn:Hn. revert l Hn.
  induction (lt_wf n) as [n _ IH]. intros l -> H.
  assert (forall l', List.length l' < List.length l -> utf8_valid l' = true -> utf8_text l')
    as IH' by (intros l' Hl; exact (IH _ Hl l' eq_refl)). clear IH.
  destruct l as [|a l1]; [constructor|]. cbn [utf8_valid] in H.
  destruct (byte_in 0 127 a) eqn:Ha.
  { apply utf8_1; [unfold byte_in in Ha; lia|]. apply IH'; [cbn; lia|done]. }
  destruct l1 as [|b l2]; [done|]. destruct (byte_in 194 223 a) eqn:Ha2.
  { apply andb_prop in H as [Hb H]. apply utf8_2; [unfold two_bytes; by rewrite Ha2, Hb|].
    apply IH'; [cbn; lia|done]. }
  destruct l2 as [|c l3]; [done|]. destruct (byte_in 224 239 a) eqn:Ha3.
  { apply andb_prop in H as [[Hs Hc]%andb_prop H].
    apply utf8_3; [unfold three_bytes; by rewrite Ha3, Hc, Hs|]. apply IH'; [cbn; lia|done]. }
  destruct l3 as [|d l4]; [done|].
  apply andb_prop in H as [[[[HA HS]%andb_prop HC]%andb_prop HD]%andb_prop H].
  apply utf8_4; [|apply IH'; [cbn; lia|done]].
  unfold four_bytes. rewrite HA, HC, HD. exact HS.
Qed.

Lemma parse_ascii a l :
  (byteZ a < 128)%Z -> parse_chars (escape_ascii a ++ l) = out [a] (parse_chars l).
Proof. destruct a; intros H; try (exfalso; revert H; by vm_compute); reflexivity. Qed.

Lemma byte_in_high lo hi a : byte_in lo hi a = true -> (lo <= byteZ a <= hi)%Z.
Proof. unfold byte_in. lia. Qed.

Lemma byteZ_neqb a b : byteZ a <> byteZ b -> Byte.eqb a b = false.
Proof. intros H. destruct (Byte.eqb a b) eqn:E; [|done]. apply Byte.byte_dec_bl in E. congruence. Qed.

(** The branch of [parse_chars] a byte above ASCII takes. *)
Lemma parse_high a l1 :
  (128 <= byteZ a)%Z ->
  parse_chars (a :: l1) =
    match l1 with
    | b :: l2 =>
        if two_bytes a b then out [a; b] (parse_chars l2) else
        match l2 with
        | c :: l3 =>
            if three_bytes a b c then out [a; b; c] (parse_chars l3) else
            match l3 with
            | d :: l4 =>
                if four_bytes a b c d then out [a; b; c; d] (parse_chars l4)
                else out replacement (parse_chars l1)
            | [] => out replacement (parse_chars l1)
            end
        | [] => out replacement (parse_chars l1)
        end
    | [] => None
    end.
Proof.
  intros H. cbn [parse_chars].
  rewrite (byteZ_neqb a x22), (byteZ_neqb a x5c) by (change (byteZ x22) with 34%Z ||
    change (byteZ x5c) with 92%Z; lia).
  rewrite (proj2 (Z.ltb_ge (byteZ a) 32)), (proj2 (Z.ltb_ge (byteZ a) 128)) by lia. done.
Qed.

Lemma two_bytes_high a b : two_bytes a b = true -> (128 <= byteZ a)%Z.
Proof. unfold two_bytes. intros [H%byte_in_high _]%andb_prop. lia. Qed.
Lemma three_bytes_high a b c :
  three_bytes a b c = true -> (128 <= byteZ a)%Z /\ two_bytes a b = false.
Proof.
  unfold three_bytes. intros [[H%byte_in_high _]%andb_prop _]%andb_prop. split; [lia|].
  unfold two_bytes, byte_in. lia.
Qed.
Lemma four_bytes_high a b c d :
  four_bytes a b c d = true ->
  (128 <= byteZ a)%Z /\ two_bytes a b = false /\ three_bytes a b c = false.
Proof.
  unfold four_bytes. intros [[[H%byte_in_high _]%andb_prop _]%andb_prop _]%andb_prop.
  unfold two_bytes, three_bytes, byte_in. split_and!; lia.
Qed.

Lemma parse_two a b l : two_bytes a b = true -> parse_chars (a :: b :: l) = out [a; b] (parse_chars l).
Proof. intros H. rewrite parse_high by (by eapply two_bytes_high). by rewrite H. Qed.

Lemma parse_three a b c l :
  three_bytes a b c = true -> parse_chars (escape_three a b c ++ l) = out [a; b; c] (parse_chars l).
Proof.
  intros H. unfold escape_three. case_bool_decide as E1; [by simplify_eq|].
  case_bool_decide as E2; [by simplify_eq|]. destruct (three_bytes_high _ _ _ H) as [Ha H2].
  cbn [app]. rewrite parse_high by done. by rewrite H2, H.
Qed.

Lemma parse_four a b c d l :
  four_bytes a b c d = true -> parse_chars (a :: b :: c :: d :: l) = out [a; b; c; d] (parse_chars l).
Proof.
  intros H. destruct (four_bytes_high _ _ _ _ H) as (Ha & H2 & H3).
  rewrite parse_high by done. by rewrite H2, H3, H.
Qed.

Lemma parse_chars_print s rest :
  utf8_text s -> parse_chars (print_chars s ++ x22 :: rest) = Some (s, rest).
Proof.
  induction 1 as [|a l Ha _ IH|a b l H _ IH|a b c l H _ IH|a b c d l H _ IH]; cbn [print_chars].
  - done.
  - rewrite (proj2 (Z.ltb_lt _ _)) by done. by rewrite <- app_assoc, parse_ascii, IH.
  - rewrite (proj2 (Z.ltb_ge _ _)) by (by eapply two_bytes_high).
    rewrite H, <- app_assoc. cbn [app]. by rewrite parse_two, IH.
  - destruct (three_bytes_high _ _ _ H) as [Ha H2]. rewrite (proj2 (Z.ltb_ge _ _)) by done.
    rewrite H2, H, <- app_assoc. by rewrite parse_three, IH.
  - destruct (four_bytes_high _ _ _ _ H) as (Ha & H2 & H3). rewrite (proj2 (Z.ltb_ge _ _)) by done.
    rewrite H2, H3, H, <- app_assoc. cbn [app]. by rewrite parse_four, IH.
Qed.

(** ** Numbers read back *)

(** What may follow a number without becoming part of it. *)
Definition number_stop (rest : bytes) : bool :=
  match rest with
  | [] => true
  | b :: _ => negb (is_digit_byte b) && match b with x2e | x65 | x45 => false | _ => true end
  end.

Lemma span_digits_app ds rest :
  forallb is_digit_byte ds = true -> number_stop rest = true -> span_digits (ds ++ rest) = (ds, rest).
Proof.
  intros H Hr. induction ds as [|d ds IH]; cbn in *.
  - destruct rest as [|b rest]; [done|]. cbn in *. by destruct (is_digit_byte b).
  - apply andb_prop in H as [-> H]. by rewrite IH.
Qed.

Lemma parse_tail_stop rest : number_stop rest = true ->
  parse_frac rest = Some ([], rest) /\ parse_exp rest = Some ([], rest).
Proof.
  destruct rest as [|b rest]; [done|].
  intros H. destruct b; try discriminate H; split; reflexivity.
Qed.

Definition canonical_literal (ds : bytes) : Prop :=
  forallb is_digit_byte ds = true /\ (ds = [x30] \/ exists d ds', ds = d :: ds' /\ d <> x30).

Lemma after_digit b d l : is_digit_byte d = true -> is_digit_byte b = false -> after b (d :: l) = None.
Proof.
  intros Hd Hb. unfold after. rewrite byteZ_neqb; [done|].
  intros E%byteZ_inj. congruence.
Qed.

Lemma parse_number_canonical ds rest :
  canonical_literal ds -> number_stop rest = true -> parse_number (ds ++ rest) = Some (ds, rest).
Proof.
  intros [Hd Hc] Hr. destruct (parse_tail_stop _ Hr) as [Hf He].
  assert (parse_int (ds ++ rest) = Some (ds, rest)) as Hi.
  { destruct Hc as [->|(d & ds' & -> & Hz)]; [done|].
    unfold parse_int, after. cbn [app]. rewrite byteZ_neqb by (intros E%byteZ_inj; done).
    unfold some_digits. rewrite app_comm_cons, span_digits_app by done. done. }
  assert (after x2d (ds ++ rest) = None) as Hs.
  { destruct ds as [|d ds]; [by destruct Hc as [|(?&?&?&?)]|].
    cbn in Hd. apply andb_prop in Hd as [Hd _]. by apply after_digit. }
  unfold parse_number. rewrite Hs, Hi, Hf, He. cbn. by rewrite !app_nil_r.
Qed.

Lemma is_digit_byte_ascii c : is_digit c = is_digit_byte (byte_of_ascii c).
Proof. destruct c as [[] [] [] [] [] [] [] []]; reflexivity. Qed.

Lemma bytes_of_list_ascii l : bytes_of_string (string_of_list_ascii l) = List.map byte_of_ascii l.
Proof. induction l as [|c l IH]; [done|]. cbn. by f_equal. Qed.

Lemma decimal_literal n : (0 <= n)%Z -> canonical_literal (bytes_of_string (decimal_string n)).
Proof.
  intros Hn. unfold decimal_string. rewrite bytes_of_list_ascii.
  destruct (canonical_decimal_digits (decimal_fuel n) n (decimal_fuel_enough n Hn)) as [Hd Hc].
  split.
  - clear Hc. induction (decimal_digits _ _ _) as [|c l IH]; [done|]. cbn in *.
    apply andb_prop in Hd as [Hd1 Hd2]. rewrite <- is_digit_byte_ascii, Hd1. by apply IH.
  - destruct Hc as [->|(c & l & -> & Hc)]; [by left|right].
    exists (byte_of_ascii c), (List.map byte_of_ascii l). split; [done|].
    intros E. apply Hc. destruct c as [[] [] [] [] [] [] [] []]; try discriminate E. done.
Qed.

(** ** Values read back *)

#[local] Arguments Z.max : simpl never.
#[local] Arguments Z.add : simpl never.

Fixpoint vsize (v : json) : nat :=
  match v with
  | JArray l => S (list_sum (List.map (fun v => S (vsize v)) l))
  | JObject l => S (list_sum (List.map (fun m => S (vsize m.2)) l))
  | _ => 1
  end.

Fixpoint vdepth (v : json) : Z :=
  match v with
  | JArray l => (1 + foldr (fun v d => Z.max (vdepth v) d) 0 l)%Z
  | JObject l => (1 + foldr (fun m d => Z.max (vdepth m.2) d) 0 l)%Z
  | _ => 0%Z
  end.

(** Trees whose strings are UTF-8 and whose numbers are decimal integers. *)
Fixpoint printable (v : json) : Prop :=
  match v with
  | JNumber n => canonical_literal n
  | JString s => utf8_text s
  | JArray l => foldr (fun v P => printable v /\ P) True l
  | JObject l => foldr (fun m P => (utf8_text m.1 /\ printable m.2) /\ P) True l
  | _ => True
  end.

Definition items_text (l : list json) : bytes := join [x2c] (List.map print_value l).
Definition member_text (m : bytes * json) : bytes := print_string m.1 ++ [x3a] ++ print_value m.2.
Definition members_text (l : list (bytes * json)) : bytes := join [x2c] (List.map member_text l).

Lemma skip_space_other b l : is_space b = false -> skip_space (b :: l) = b :: l.
Proof. cbn. by intros ->. Qed.

Lemma canonical_head ds : canonical_literal ds ->
  exists d ds', ds = d :: ds' /\ is_digit_byte d = true.
Proof.
  intros [Hd Hc]. destruct ds as [|d ds]; [by destruct Hc as [|(?&?&?&?)]|].
  cbn in Hd. apply andb_prop in Hd as [? _]. eauto.
Qed.

(** No printed value starts with a space or a closing bracket. *)
Definition value_start (b : byte) : bool :=
  negb (is_space b) && negb (Byte.eqb b x5d) && negb (Byte.eqb b x7d).

Lemma digit_start d : is_digit_byte d = true ->
  value_start d = true /\ Byte.eqb d x22 = false /\ Byte.eqb d x5b = false /\ Byte.eqb d x7b = false
  /\ Byte.eqb d x6e = false /\ Byte.eqb d x74 = false /\ Byte.eqb d x66 = false.
Proof. intros H. destruct d; try discriminate H; by repeat split. Qed.

Lemma print_value_start v : printable v -> exists b l, print_value v = b :: l /\ value_start b = true.
Proof.
  intros H. destruct v as [|[]|n|s|l|l]; try (by eexists _, _).
  destruct (canonical_head _ H) as (d & ds & -> & Hd). exists d, ds. split; [done|].
  apply (digit_start d Hd).
Qed.

Lemma after_same b l : after b (b :: l) = Some l.
Proof. unfold after. by rewrite Byte.byte_dec_lb. Qed.

Lemma after_start b v l :
  printable v -> (b = x5d \/ b = x7d) -> after b (skip_space (print_value v ++ l)) = None.
Proof.
  intros H Hb. destruct (print_value_start v H) as (c & t & -> & Hs). cbn [app].
  unfold value_start in Hs. breflect.
  rewrite skip_space_other by done. unfold after. destruct Hb as [->| ->];
    by match goal with E : Byte.eqb _ _ = false |- _ => rewrite E end.
Qed.

Lemma join_cons v l :
  l <> [] -> items_text (v :: l) = print_value v ++ x2c :: items_text l.
Proof. destruct l; done. Qed.
Lemma join_member m l :
  l <> [] -> members_text (m :: l) = member_text m ++ x2c :: members_text l.
Proof. destruct l; done. Qed.

Lemma parse_number_value fuel depth n rest :
  canonical_literal n -> number_stop rest = true ->
  parse_value (S fuel) depth (n ++ rest) = Some (JNumber n, rest).
Proof.
  intros Hn Hr. destruct (canonical_head _ Hn) as (d & ds & E & Hd).
  destruct (digit_start d Hd) as (Hs & E1 & E2 & E3 & E4 & E5 & E6). unfold value_start in Hs. breflect.
  cbn [parse_value]. rewrite E at 1. cbn [app]. rewrite skip_space_other by done.
  rewrite E1, E2, E3, E4, E5, E6, app_comm_cons, <- E, parse_number_canonical by done. done.
Qed.

(** The parser reads back what the writer wrote and stops where it ended. *)
Definition reads_values (fuel : nat) : Prop := forall v depth rest,
  vsize v <= fuel -> (vdepth v <= depth)%Z -> printable v -> number_stop rest = true ->
  parse_value fuel depth (print_value v ++ rest) = Some (v, rest).
Definition reads_items (fuel : nat) : Prop := forall l depth rest,
  l <> [] -> list_sum (List.map (fun v => S (vsize v)) l) <= fuel ->
  (foldr (fun v d => Z.max (vdepth v) d) 0 l <= depth)%Z ->
  foldr (fun v P => printable v /\ P) True l ->
  parse_items fuel depth (items_text l ++ x5d :: rest) = Some (l, rest).
Definition reads_members (fuel : nat) : Prop := forall l depth rest,
  l <> [] -> list_sum (List.map (fun m => S (vsize m.2)) l) <= fuel ->
  (foldr (fun (m : bytes * json) d => Z.max (vdepth m.2) d) 0 l <= depth)%Z ->
  foldr (fun (m : bytes * json) P => (utf8_text m.1 /\ printable m.2) /\ P) True l ->
  parse_members fuel depth (members_text l ++ x7d :: rest) = Some (l, rest).

Lemma reads_items_step fuel : reads_values fuel -> reads_items fuel -> reads_items (S fuel).
Proof.
  intros IHv IHi l depth rest Hne Hs Hd Hp. destruct l as [|v l]; [done|].
  cbn in Hs, Hd, Hp. destruct Hp as [Hpv Hpl]. cbn [parse_items].
  destruct (decide (l = [])) as [->|Hl].
  - change (items_text [v]) with (print_value v). rewrite IHv by (done || lia).
    by rewrite skip_space_other, after_same.
  - rewrite join_cons, <- app_assoc by done. cbn [app].
    rewrite IHv by (done || lia). rewrite skip_space_other, after_same by done. cbn [after Byte.eqb].
    by rewrite IHi by (done || unfold list_sum; lia).
Qed.

Lemma parse_string_text s rest :
  utf8_text s -> after x22 (skip_space (print_string s ++ rest)) ≫= parse_chars = Some (s, rest).
Proof.
  intros H. unfold print_string. rewrite <- !app_assoc. cbn [app].
  rewrite skip_space_other, after_same by done. cbn. by apply parse_chars_print.
Qed.

Lemma reads_members_step fuel : reads_values fuel -> reads_members fuel -> reads_members (S fuel).
Proof.
  intros IHv IHm l depth rest Hne Hs Hd Hp. destruct l as [|[key v] l]; [done|].
  cbn in Hs, Hd, Hp. destruct Hp as [[Hk Hpv] Hpl]. cbn [parse_members].
  destruct (decide (l = [])) as [->|Hl].
  - change (members_text [(key, v)]) with (member_text (key, v)). unfold member_text. cbn [fst snd].
    rewrite <- !app_assoc. cbn [app]. rewrite parse_string_text by done.
    rewrite skip_space_other, after_same by done. cbn [mbind option_bind].
    rewrite IHv by (done || lia). by rewrite skip_space_other, after_same.
  - rewrite join_member by done. unfold member_text. cbn [fst snd].
    rewrite <- !app_assoc. cbn [app]. rewrite parse_string_text by done.
    rewrite skip_space_other, after_same by done. cbn [mbind option_bind].
    rewrite IHv by (done || lia). rewrite skip_space_other, after_same by done. cbn [after Byte.eqb].
    by rewrite IHm by (done || unfold list_sum; lia).
Qed.

Lemma reads_values_step fuel : reads_items fuel -> reads_members fuel -> reads_values (S fuel).
Proof.
  intros IHi IHm v depth rest Hs Hd Hp Hr. destruct v as [|[]|n|s|l|l]; try done.
  - by apply parse_number_value.
  - cbn [print_value]. unfold print_string. rewrite <- !app_assoc. cbn [app parse_value].
    rewrite skip_space_other by done. cbn [Byte.eqb]. change (Byte.eqb x22 x22) with true.
    cbn beta iota. rewrite parse_chars_print by done. done.
  - destruct l as [|v l]; [cbn in Hd |- *; by rewrite (proj2 (Z.leb_gt depth 0)) by lia|].
    cbn [print_value]. fold (items_text (v :: l)). rewrite <- !app_assoc.
    cbn in Hs. cbn [vdepth] in Hd.
    assert (0 <= foldr (fun v d => Z.max (vdepth v) d) 0 (v :: l))%Z
      by (generalize (v :: l) as l'; induction l' as [|v' l' IH]; cbn; lia).
    change ([x5b] ++ ?t) with (x5b :: t). cbn [parse_value].
    rewrite skip_space_other by done.
    change (Byte.eqb x5b x22) with false. change (Byte.eqb x5b x5b) with true. cbn beta iota.
    rewrite (proj2 (Z.leb_gt depth 0)) by lia.
    change ([x5d] ++ rest) with (x5d :: rest). rewrite IHi; [|done|cbn; lia|lia|done].
    assert (after x5d (skip_space (items_text (v :: l) ++ x5d :: rest)) = None) as ->; [|done].
    destruct Hp as [Hpv _]. destruct (decide (l = [])) as [->|Hl].
    + apply after_start; auto.
    + rewrite join_cons, <- app_assoc by done. apply after_start; auto.
  - destruct l as [|[key v] l]; [cbn in Hd |- *; by rewrite (proj2 (Z.leb_gt depth 0)) by lia|].
    cbn [print_value]. change (List.map _ ((key, v) :: l)) with (List.map member_text ((key, v) :: l)).
    fold (members_text ((key, v) :: l)). rewrite <- !app_assoc.
    cbn in Hs. cbn [vdepth] in Hd.
    assert (0 <= foldr (fun (m : bytes * json) d => Z.max (vdepth m.2) d) 0 ((key, v) :: l))%Z
      by (generalize ((key, v) :: l) as l'; induction l' as [|v' l' IH]; cbn; lia).
    change ([x7b] ++ ?t) with (x7b :: t). cbn [parse_value].
    rewrite skip_space_other by done.
    change (Byte.eqb x7b x22) with false. change (Byte.eqb x7b x5b) with false.
    change (Byte.eqb x7b x7b) with true. cbn beta iota.
    rewrite (proj2 (Z.leb_gt depth 0)) by lia.
    change ([x7d] ++ rest) with (x7d :: rest). rewrite IHm; [|done|cbn; lia|lia|done].
    assert (after x7d (skip_space (members_text ((key, v) :: l) ++ x7d :: rest)) = None) as ->; [|done].
    destruct l as [|m l]; [done|]. by rewrite join_member.
Qed.

Lemma parse_print fuel : reads_values fuel /\ reads_items fuel /\ reads_members fuel.
Proof.
  induction fuel as [|fuel (IHv & IHi & IHm)].
  - split_and!; intros v depth rest; [destruct v; cbn; lia|destruct v; cbn; [done|lia]..].
  - split_and!; auto using reads_values_step, reads_items_step, reads_members_step.
Qed.

Lemma length_join sep parts :
  List.length sep = 1 -> parts <> [] ->
  List.length (join sep parts) + 1 = list_sum (List.map (fun p => S (List.length p)) parts).
Proof.
  intros Hs. induction parts as [|p parts IH]; [done|]. intros _.
  destruct (decide (parts = [])) as [->|Hp]; [cbn; lia|].
  assert (join sep (p :: parts) = p ++ sep ++ join sep parts) as -> by (by destruct parts).
  rewrite !length_app. cbn [List.map list_sum fold_right]. change (fold_right Nat.add 0) with list_sum.
  specialize (IH Hp). lia.
Qed.

Lemma list_sum_le {A} (f g : A -> nat) l :
  (forall x, x ∈ l -> f x <= g x) -> list_sum (List.map f l) <= list_sum (List.map g l).
Proof.
  induction l as [|x l IH]; intros H; [done|]. cbn. change (fold_right Nat.add 0) with list_sum.
  pose proof (H x ltac:(left)). assert (list_sum (List.map f l) <= list_sum (List.map g l)).
  { apply IH. intros y Hy. apply H. by right. }
  unfold list_sum in *. lia.
Qed.

Lemma list_sum_elem {A} (f : A -> nat) l x : x ∈ l -> f x <= list_sum (List.map f l).
Proof. induction 1; cbn; unfold list_sum in *; lia. Qed.

Lemma foldr_and {A} (P : A -> Prop) l : foldr (fun x Q => P x /\ Q) True l <-> Forall P l.
Proof. induction l; cbn; [done|]. by rewrite Forall_cons, IHl. Qed.

Lemma vsize_length v : printable v -> vsize v <= List.length (print_value v).
Proof.
  remember (vsize v) as n eqn:Hn. rewrite Hn. assert (vsize v <= n) as Hle by lia. clear Hn.
  revert v Hle. induction n as [|n IH]; intros v Hle Hp; [destruct v; cbn in Hle; lia|].
  destruct v as [|[]|d|s|l|l]; cbn [vsize] in *; try (cbn; lia).
  - destruct (canonical_head _ Hp) as (x & ds & -> & _). cbn. lia.
  - cbn [printable] in Hp. rewrite foldr_and, Forall_forall in Hp.
    destruct (decide (l = [])) as [->|Hl]; [cbn; lia|].
    cbn [print_value]. rewrite !length_app. cbn [List.length].
    pose proof (length_join [x2c] (List.map print_value l) eq_refl) as Hj.
    rewrite List.map_map in Hj. specialize (Hj ltac:(by destruct l)).
    assert (list_sum (List.map (fun v => S (vsize v)) l)
            <= list_sum (List.map (fun v => S (List.length (print_value v))) l)); [|lia].
    apply list_sum_le. intros x Hx. pose proof (list_sum_elem (fun v => S (vsize v)) l x Hx) as Hle'.
    cbn beta in Hle'. pose proof (IH x ltac:(lia) (Hp x Hx)). lia.
  - cbn [printable] in Hp. rewrite (foldr_and (fun m => utf8_text m.1 /\ printable m.2)), Forall_forall in Hp.
    destruct (decide (l = [])) as [->|Hl]; [cbn; lia|].
    cbn [print_value]. rewrite !length_app. cbn [List.length].
    pose proof (length_join [x2c] (List.map member_text l) eq_refl) as Hj.
    rewrite List.map_map in Hj. specialize (Hj ltac:(by destruct l)).
    change (List.map (fun m => print_string m.1 ++ [x3a] ++ print_value m.2) l)
      with (List.map member_text l).
    assert (list_sum (List.map (fun m => S (vsize m.2)) l)
            <= list_sum (List.map (fun m => S (List.length (member_text m))) l)); [|lia].
    apply list_sum_le. intros x Hx. pose proof (list_sum_elem (fun m => S (vsize m.2)) l x Hx) as Hle'.
    cbn beta in Hle'. pose proof (IH x.2 ltac:(lia) (proj2 (Hp x Hx))).
    unfold member_text. rewrite !length_app. lia.
Qed.

Lemma parse_json_print v :
  printable v -> (vdepth v <= maxNestingDepth)%Z -> parse_json (print_value v) = Some (v, []).
Proof.
  intros Hp Hd. unfold parse_json. rewrite <- (app_nil_r (print_value v)) at 2.
  apply (proj1 (parse_print _)); try done. pose proof (vsize_length v Hp). lia.
Qed.

(** ** Structs read back *)

Definition utf8_string (s : string) : Prop := utf8_valid (bytes_of_string s) = true.

(** A value of a field's type.  Raw messages may nest up to the parser's own
    bound, less the levels of the struct around them. *)
Definition has_kind (k : jkind) (v : jval) : Prop :=
  match k, v with
  | JK_String, VString s => utf8_string s
  | JK_Uint bits, VUint n => (0 <= n < 2 ^ bits)%Z
  | JK_Strings, VStrings l => Forall utf8_string l
  | JK_Uints bits, VUints l => Forall (fun n => (0 <= n < 2 ^ bits)%Z) l
  | JK_Raws, VRaws l => Forall (fun v => printable v /\ (vdepth v <= maxNestingDepth - 2)%Z) l
  | _, _ => False
  end.

Lemma parse_uint_tree bits n :
  (0 <= n < 2 ^ bits)%Z -> parse_uint bits (bytes_of_string (decimal_string n)) = Some n.
Proof.
  intros H. unfold parse_uint. rewrite string_of_bytes_of_string, parse_decimal_string by lia.
  by rewrite (proj2 (Z.ltb_lt _ _)) by lia.
Qed.

Lemma mapM_map {A B C} (f : B -> option C) (g : A -> B) (h : A -> C) l :
  Forall (fun x => f (g x) = Some (h x)) l -> mapM f (List.map g l) = Some (List.map h l).
Proof. induction 1 as [|x l Hx _ IH]; [done|]. cbn. rewrite Hx. cbn. by rewrite IH. Qed.

Lemma decode_tree_of k old v : has_kind k v -> decode_field k old (tree_of v) = Some v.
Proof.
  destruct k, v; cbn [decode_field tree_of has_kind string_tree uint_tree]; try done; intros H.
  - by rewrite string_of_bytes_of_string.
  - by rewrite parse_uint_tree.
  - rewrite (mapM_map _ _ id), map_id; [done|]. apply Forall_forall. intros s _. cbn.
    by rewrite string_of_bytes_of_string.
  - rewrite (mapM_map _ _ id), map_id; [done|]. eapply Forall_impl; [exact H|]. intros n Hn.
    by apply parse_uint_tree.
Qed.

Lemma printable_tree_of k v : has_kind k v -> printable (tree_of v).
Proof.
  destruct k, v; cbn [printable tree_of has_kind string_tree uint_tree]; try done; intros H.
  - by apply utf8_valid_text.
  - apply decimal_literal. lia.
  - rewrite foldr_and, List.Forall_map. eapply Forall_impl; [exact H|]. intros s Hs. by apply utf8_valid_text.
  - rewrite foldr_and, List.Forall_map. eapply Forall_impl; [exact H|]. intros n [Hn _]. by apply decimal_literal.
  - rewrite foldr_and. eapply Forall_impl; [exact H|]. by intros x [? _].
Qed.

Lemma foldr_depth {A} (d : A -> Z) (b : Z) l :
  (0 <= b)%Z -> (foldr (fun x m => Z.max (d x) m) 0 l <= b)%Z <-> Forall (fun x => (d x <= b)%Z) l.
Proof. intros Hb. induction l; cbn; [done|]. rewrite Forall_cons, <- IHl. lia. Qed.

Lemma vdepth_tree_of k v : has_kind k v -> (vdepth (tree_of v) <= maxNestingDepth - 1)%Z.
Proof.
  destruct k, v; try done; intros H; cbn [tree_of vdepth]; unfold maxNestingDepth in *;
    try (cbn; lia);
    match goal with |- (_ + foldr _ _ ?l <= _)%Z =>
      enough (foldr (fun v d => Z.max (vdepth v) d) 0 l <= 9998)%Z by lia;
      apply foldr_depth; [lia|] end;
    rewrite ?List.Forall_map; (eapply Forall_impl; [exact H|]); try done.
  intros x [_ Hx]. unfold maxNestingDepth in Hx. lia.
Qed.

Lemma field_at_app p pre name k post :
  (forall f, f ∈ pre -> p (bytes_of_string f.1) = false) -> p (bytes_of_string name) = true ->
  field_at p (pre ++ (name, k) :: post) = Some (List.length pre).
Proof.
  intros Hpre Hp. induction pre as [|[n0 k0] pre IH]; cbn [app field_at].
  - by rewrite Hp.
  - pose proof (Hpre (n0, k0) ltac:(left)) as E. cbn [fst] in E. rewrite E, IH by (intros f Hf; apply Hpre; by right). done.
Qed.

Lemma find_field_app pre name k post :
  name ∉ pre.*1 -> find_field (bytes_of_string name) (pre ++ (name, k) :: post) = Some (List.length pre).
Proof.
  intros Hn. unfold find_field. rewrite field_at_app; [done| |by apply bool_decide_true].
  intros [n0 k0] Hf. apply bool_decide_false. intros E%bytes_of_string_inj. cbn in E. subst n0.
  apply Hn. apply list_elem_of_fmap. by exists (name, k0).
Qed.

Lemma is_empty_zero k v : has_kind k v -> is_empty v = true -> v = jzero k.
Proof.
  destruct k, v; cbn; try done; intros _ H; try (by destruct l).
  - by apply String.eqb_eq in H as ->.
  - f_equal. lia.
Qed.

(** The fields before have been read, the ones from here on are still zero. *)
Lemma decode_members_app strict omit pre fields pv vals :
  List.length pre = List.length pv -> NoDup (pre ++ fields).*1 ->
  Forall2 (fun f v => has_kind f.2 v) fields vals ->
  decode_members strict (pre ++ fields) (pv ++ List.map (fun f => jzero f.2) fields)
    (struct_members omit fields vals) = Some (pv ++ vals).
Proof.
  intros Hl Hnd HF. revert pre pv Hl Hnd.
  induction HF as [|[name k] v fields vals Hk HF IH]; intros pre pv Hl Hnd; [done|].
  cbn [struct_members List.map snd].
  specialize (IH (pre ++ [(name, k)]) (pv ++ [v])).
  rewrite <- !app_assoc in IH. cbn [app] in IH.
  assert (List.length (pre ++ [(name, k)]) = List.length (pv ++ [v])) as Hl'
    by (rewrite !length_app; cbn; lia).
  specialize (IH Hl' Hnd).
  destruct (omit name && is_empty v) eqn:Ho.
  { apply andb_prop in Ho as [_ He]. by rewrite (is_empty_zero k v Hk He) in *. }
  cbn [decode_members]. unfold decode_member. cbn [fst snd].
  rewrite find_field_app.
  2:{ rewrite fmap_app in Hnd. apply NoDup_app in Hnd as (_ & Hd & _).
      intros Hin. apply (Hd name Hin). cbn. left. }
  rewrite list_lookup_middle by done. rewrite list_lookup_middle by done.
  rewrite (decode_tree_of k) by done. cbn [fmap option_fmap option_map].
  rewrite Hl, insert_app_r_alt, Nat.sub_diag by lia. exact IH.
Qed.

Definition well_kinded (fields : schema) (vals : list jval) : Prop :=
  NoDup fields.*1 /\ Forall (fun f => utf8_string f.1) fields
  /\ Forall2 (fun f v => has_kind f.2 v) fields vals.

Lemma decode_tree_struct strict omit fields vals :
  well_kinded fields vals ->
  decode_tree strict fields (JObject (struct_members omit fields vals)) = Some vals.
Proof.
  intros (Hnd & _ & HF). exact (decode_members_app strict omit [] fields [] vals eq_refl Hnd HF).
Qed.

Lemma printable_struct omit fields vals :
  well_kinded fields vals ->
  printable (JObject (struct_members omit fields vals))
  /\ (vdepth (JObject (struct_members omit fields vals)) <= maxNestingDepth)%Z.
Proof.
  intros (_ & Hn & HF). cbn [printable vdepth].
  rewrite (foldr_and (fun m => utf8_text m.1 /\ printable m.2)).
  enough (Forall (fun m => (utf8_text m.1 /\ printable m.2) /\ (vdepth m.2 <= maxNestingDepth - 1)%Z)
            (struct_members omit fields vals)) as HA.
  { split; [eapply Forall_impl; [exact HA|]; by intros m [? _]|].
    enough (foldr (fun m d => Z.max (vdepth m.2) d) 0 (struct_members omit fields vals)
            <= maxNestingDepth - 1)%Z by lia.
    apply (foldr_depth (fun m : bytes * json => vdepth m.2)); [unfold maxNestingDepth; lia|].
    eapply Forall_impl; [exact HA|]. by intros m [_ ?]. }
  induction HF as [|[name k] v fields vals Hk HF IH]; [constructor|].
  apply Forall_cons in Hn as [Hn1 Hn2]. cbn [struct_members].
  destruct (omit name && is_empty v); [by apply IH|]. apply Forall_cons. split; [|by apply IH].
  cbn [fst snd]. split_and!; [by apply utf8_valid_text|by eapply printable_tree_of|by eapply vdepth_tree_of].
Qed.

(** A struct reads back from its JSON, strictly, with nothing after it. *)
Lemma struct_roundtrip omit fields vals :
  well_kinded fields vals -> decode_struct fields (marshal_struct omit fields vals) = Decoded vals.
Proof.
  intros H. destruct (printable_struct omit fields vals H) as [Hp Hd].
  unfold decode_struct, marshal_struct. rewrite parse_json_print by done.
  by rewrite decode_tree_struct.
Qed.
