(* ===== verification/Identity.v ===== *)
(** * Endpoint delegations: [pkg/identity]

    A messaging endpoint acts for an agent only under a delegation whose
    canonical digest the finalized agent account commits.  This file models
    [delegation.go] (validation, the canonical form and its digest, the JSON
    form, the checks of [Verify]) and [chain.go] (what is re-checked of a state a
    resolver returned). *)

From S2P Require Import Prelude Encoding Canon Json Money.

(** [crypto/ed25519]. *)
Class Ed25519 := {
  ed25519_Verify : bytes -> bytes -> bytes -> bool; (** key, message, signature *)
  ed25519_Sign : bytes -> bytes -> bytes; (** private key, message *)
}.
Definition PublicKeySize : Z := 32.
Definition PrivateKeySize : Z := 64.
Definition SignatureSize : Z := 64.

(** ** Data *)

Record Delegation : Type := MkDelegation {
  dg_Network : option NetworkDomain;
  dg_AgentID : string;
  dg_EndpointID : string;
  dg_IdentityPublicKey : bytes;
  dg_ADNLID : string;
  dg_AllowedProtocolVersions : list Z;
  dg_AllowedOutboundEventClasses : list string;
  dg_NotBeforeUnix : Z;
  dg_ExpiresAtUnix : Z;
  dg_MaximumSessionLifetimeSeconds : Z;
  dg_ContactDescriptorPolicyDigest : string;
  dg_InboxAdmissionPolicyDigest : string;
}.

Definition identity_Schema : string := "tos.messaging.endpoint-delegation.v2".
Definition MaxProtocolVersions : Z := 16.
Definition MaxEventClasses : Z := 64.
Definition MaxEventClassBytes : Z := 64.
Definition MaxDelegationLifetimeSeconds : Z := 365 * 24 * 60 * 60.
Definition MinSessionLifetimeSeconds : Z := 60.
Definition MaxSessionLifetimeSeconds : Z := 30 * 24 * 60 * 60.

Definition DomainEndpointDelegation : string := "tos.messaging.endpoint-delegation.v2" +:+ NUL.
Definition DomainEndpointID : string := "tos.messaging.endpoint-id.v2" +:+ NUL.

(** The pattern of an event class: labels of lower-case letters and digits that
    start with a letter, separated by dots.  [start] says that a label begins. *)
Fixpoint class_labels (start : bool) (s : string) : bool :=
  match s with
  | EmptyString => negb start
  | String c rest =>
      if start then is_lower c && class_labels false rest
      else if Ascii.eqb c "." then class_labels true rest
      else (is_lower c || is_digit c) && class_labels false rest
  end.
Definition eventClassPattern (s : string) : bool := class_labels true s.

(** ** Validation *)

Definition validateNetwork (network : option NetworkDomain) : result NetworkDomain :=
  match network with
  | None => Err (NewError "invalid delegation network domain")
  | Some n =>
      refuse String.eqb (nd_NetworkId n) "" || (128 <? slen (nd_NetworkId n))
             || negb (HashPattern (nd_GenesisRootHash n)) || negb (HashPattern (nd_GenesisFileHash n))
        with NewError "invalid delegation network domain";
      Ok n
  end.

Definition validateKey (key : bytes) : result unit :=
  refuse negb (blen key =? PublicKeySize) || IsZero key
    with NewError "invalid delegation identity key";
  Ok tt.

Definition DeriveEndpointID (network : option NetworkDomain) (agentID : string) (key : bytes)
    : result string :=
  let* n := validateNetwork network in
  refuse negb (ids_Agent agentID) with NewError "invalid delegation Agent identifier";
  call validateKey key;
  let buffer := canon_Text (bytes_of_string DomainEndpointID) (nd_NetworkId n) in
  let* buffer := canon_Hash32 buffer (nd_GenesisRootHash n) in
  let* buffer := canon_Hash32 buffer (nd_GenesisFileHash n) in
  let buffer := canon_Text buffer agentID ++ key in
  Ok ("mep_" +:+ hex_encode (sha256 buffer)).

Definition str_ltb (s t : string) : bool := bool_decide (String.compare s t = Lt).

Fixpoint check_versions (previous : option Z) (versions : list Z) : result unit :=
  match versions with
  | [] => Ok tt
  | version :: rest =>
      refuse version =? 0 with NewError "invalid delegation protocol versions";
      refuse match previous with Some p => version <=? p | None => false end
        with NewError "delegation protocol versions must be sorted and unique";
      check_versions (Some version) rest
  end.

Definition validateVersions (versions : list Z) : result unit :=
  let n := Z.of_nat (length versions) in
  refuse (n =? 0) || (MaxProtocolVersions <? n) with NewError "invalid delegation protocol versions";
  check_versions None versions.

Fixpoint check_classes (previous : option string) (classes : list string) : result unit :=
  match classes with
  | [] => Ok tt
  | class :: rest =>
      refuse (MaxEventClassBytes <? slen class) || negb (eventClassPattern class)
        with NewError "invalid delegation event classes";
      refuse match previous with Some p => negb (str_ltb p class) | None => false end
        with NewError "delegation event classes must be sorted and unique";
      check_classes (Some class) rest
  end.

Definition validateEventClasses (classes : list string) : result unit :=
  let n := Z.of_nat (length classes) in
  refuse (n =? 0) || (MaxEventClasses <? n) with NewError "invalid delegation event classes";
  check_classes None classes.

(** [uint64] subtraction is safe here: the first check orders the operands. *)
Definition validateWindowFields (d : Delegation) : result unit :=
  refuse (dg_NotBeforeUnix d =? 0) || (dg_ExpiresAtUnix d =? 0)
         || (dg_ExpiresAtUnix d <=? dg_NotBeforeUnix d)
    with NewError "invalid delegation validity window";
  let lifetime := dg_ExpiresAtUnix d - dg_NotBeforeUnix d in
  refuse MaxDelegationLifetimeSeconds <? lifetime with NewError "delegation lifetime exceeds its bound";
  refuse (dg_MaximumSessionLifetimeSeconds d <? MinSessionLifetimeSeconds)
         || (MaxSessionLifetimeSeconds <? dg_MaximumSessionLifetimeSeconds d)
         || (lifetime <? dg_MaximumSessionLifetimeSeconds d)
    with NewError "invalid delegation session lifetime";
  Ok tt.

Definition validate_adnl (adnl : string) : result unit :=
  if String.eqb adnl "" then Ok tt else
  match strip_prefix "adnl:" adnl with
  | Some h =>
      refuse negb (hex64 h) with NewError "invalid delegation ADNL identifier";
      match hex_decode h with
      | Some raw => refuse IsZero raw with NewError "invalid delegation ADNL identifier"; Ok tt
      | None => Err (NewError "invalid delegation ADNL identifier")
      end
  | None => Err (NewError "invalid delegation ADNL identifier")
  end.

Definition identity_Validate (d : Delegation) : result unit :=
  call validateNetwork (dg_Network d);
  refuse negb (ids_Agent (dg_AgentID d)) with NewError "invalid delegation Agent identifier";
  call validateKey (dg_IdentityPublicKey d);
  let* derived := DeriveEndpointID (dg_Network d) (dg_AgentID d) (dg_IdentityPublicKey d) in
  refuse negb (ids_Endpoint (dg_EndpointID d)) || negb (String.eqb (dg_EndpointID d) derived)
    with NewError "delegation endpoint identifier does not bind its key";
  call validate_adnl (dg_ADNLID d);
  call validateVersions (dg_AllowedProtocolVersions d);
  call validateEventClasses (dg_AllowedOutboundEventClasses d);
  call validateWindowFields d;
  refuse negb (ValidDigest (dg_ContactDescriptorPolicyDigest d))
         || negb (ValidDigest (dg_InboxAdmissionPolicyDigest d))
    with NewError "invalid delegation policy digest";
  Ok tt.

(** ** The canonical form *)

Definition identity_CanonicalBytes (d : Delegation) : result bytes :=
  call identity_Validate d;
  let* n := validateNetwork (dg_Network d) in
  let buffer := canon_Text (bytes_of_string DomainEndpointDelegation) identity_Schema in
  let buffer := canon_Text buffer (nd_NetworkId n) in
  let* buffer := canon_Hash32 buffer (nd_GenesisRootHash n) in
  let* buffer := canon_Hash32 buffer (nd_GenesisFileHash n) in
  let buffer := canon_Text buffer (dg_AgentID d) in
  let buffer := canon_Text buffer (dg_EndpointID d) in
  let buffer := buffer ++ dg_IdentityPublicKey d in
  let buffer := canon_Text buffer (dg_ADNLID d) in
  let buffer := canon_Uint32 buffer (u32 (Z.of_nat (length (dg_AllowedProtocolVersions d)))) in
  let buffer := fold_left canon_Uint32 (dg_AllowedProtocolVersions d) buffer in
  let buffer := canon_Uint32 buffer (u32 (Z.of_nat (length (dg_AllowedOutboundEventClasses d)))) in
  let buffer := fold_left canon_Text (dg_AllowedOutboundEventClasses d) buffer in
  let buffer := canon_Uint64 buffer (dg_NotBeforeUnix d) in
  let buffer := canon_Uint64 buffer (dg_ExpiresAtUnix d) in
  let buffer := canon_Uint64 buffer (dg_MaximumSessionLifetimeSeconds d) in
  let buffer := canon_Text buffer (dg_ContactDescriptorPolicyDigest d) in
  Ok (canon_Text buffer (dg_InboxAdmissionPolicyDigest d)).

Definition identity_Digest (d : Delegation) : result string :=
  let* canonical := identity_CanonicalBytes d in
  Ok (canon_Digest canonical).

(** ** The JSON form *)

Definition wireDelegation : list (string * jkind) :=
  [("schema", JK_String); ("network_id", JK_String); ("genesis_root_hash", JK_String);
   ("genesis_file_hash", JK_String); ("agent_id", JK_String); ("messaging_endpoint_id", JK_String);
   ("messaging_identity_public_key_hex", JK_String); ("adnl_id", JK_String);
   ("allowed_protocol_versions", JK_Uints 32); ("allowed_outbound_event_classes", JK_Strings);
   ("not_before_unix", JK_Uint 64); ("expires_at_unix", JK_Uint 64);
   ("maximum_session_lifetime_seconds", JK_Uint 64);
   ("contact_descriptor_policy_digest", JK_String); ("inbox_admission_policy_digest", JK_String)].

Definition delegation_vals (d : Delegation) (n : NetworkDomain) : list jval :=
  [VString identity_Schema; VString (nd_NetworkId n); VString (nd_GenesisRootHash n);
   VString (nd_GenesisFileHash n); VString (dg_AgentID d); VString (dg_EndpointID d);
   VString (hex_encode (dg_IdentityPublicKey d)); VString (dg_ADNLID d);
   VUints (dg_AllowedProtocolVersions d); VStrings (dg_AllowedOutboundEventClasses d);
   VUint (dg_NotBeforeUnix d); VUint (dg_ExpiresAtUnix d);
   VUint (dg_MaximumSessionLifetimeSeconds d);
   VString (dg_ContactDescriptorPolicyDigest d); VString (dg_InboxAdmissionPolicyDigest d)].

Definition identity_EncodeJSON (d : Delegation) : result bytes :=
  call identity_Validate d;
  let* n := validateNetwork (dg_Network d) in
  Ok (marshal_struct (fun name => String.eqb name "adnl_id") wireDelegation (delegation_vals d n)).

Definition identity_DecodeJSON (raw : bytes) : result Delegation :=
  match decode_struct wireDelegation raw with
  | Decoded
      [VString schema; VString networkID; VString root; VString file; VString agentID;
       VString endpointID; VString keyHex; VString adnl; VUints versions; VStrings classes;
       VUint notBefore; VUint expires; VUint session; VString contact; VString inbox] =>
      refuse negb (String.eqb schema identity_Schema) with NewError "unsupported delegation schema";
      match hex_decode keyHex with
      | Some key =>
          refuse negb (blen key =? PublicKeySize) with NewError "invalid delegation identity key";
          let d := MkDelegation (Some (MkNetworkDomain networkID root file)) agentID endpointID key adnl
                     versions classes notBefore expires session contact inbox in
          call identity_Validate d;
          Ok d
      | None => Err (NewError "invalid delegation identity key")
      end
  | Trailing => Err (NewError "delegation has trailing JSON")
  | _ => Err (NewError "json")
  end.

(** ** The finalized agent ([chain.go])

    The messages of the chain protocol, with the fields read here. *)

Record ChainReference : Type := MkReference {
  cr_FinalizedCheckpoint : Z;
  cr_ContractCodeHash : string;
  cr_Account : string;
  cr_TransactionHash : string;
}.

Record AgentState : Type := MkAgentState {
  as_AgentId : string;
  as_Tombstoned : bool;
  as_HasPolicy : bool;
  as_DelegationDigests : list string;
}.

Record NativeState : Type := MkNativeState {
  ns_Network : option NetworkDomain;
  ns_TvmStateHash : string;
  ns_Reference : option ChainReference;
  ns_Agent : option AgentState;
}.

(** The two interfaces: a chain reader, and the address an object must live at
    under a registry's code. *)
Abbreviation AgentResolver := (string -> result (option NativeState * bool)) (only parsing).
Abbreviation AccountLocator := (string -> string -> result string) (only parsing).

Record ChainPolicy : Type := MkChainPolicy {
  cp_RegistryCodeHashes : list string;
  cp_MinFinalizedCheckpoint : Z;
  cp_Locator : option AccountLocator;
}.

Definition MaxRegistryCodeHashes : Z := 8.
Definition cellDigestPattern : string -> bool := prefixed_hex64 "tvm-cell-sha256:".
Definition chainDigestPattern (s : string) : bool :=
  prefixed_hex64 "sha256:" s || prefixed_hex64 "tvm-cell-sha256:" s.
(** [^[0-9A-Za-z_:+/=-]{1,128}$] *)
Definition is_account_char (c : ascii) : bool :=
  is_digit c || in_range "A" "Z" c || is_lower c || Ascii.eqb c "_" || Ascii.eqb c ":"
  || Ascii.eqb c "+" || Ascii.eqb c "/" || Ascii.eqb c "=" || Ascii.eqb c "-".
Definition chainAccountPattern (s : string) : bool :=
  (1 <=? slen s) && (slen s <=? 128) && sforall is_account_char s.

Fixpoint check_registries (seen hashes : list string) : result unit :=
  match hashes with
  | [] => Ok tt
  | hash :: rest =>
      refuse negb (cellDigestPattern hash) with NewError "invalid registry code hash";
      refuse bool_decide (hash ∈ seen)
        with NewError "a chain policy cannot name the same registry code twice";
      check_registries (hash :: seen) rest
  end.

Definition ChainPolicy_Validate (c : ChainPolicy) : result AccountLocator :=
  let n := Z.of_nat (length (cp_RegistryCodeHashes c)) in
  refuse (n =? 0) || (MaxRegistryCodeHashes <? n)
    with NewError "a chain policy must name the registry code it accepts";
  call check_registries [] (cp_RegistryCodeHashes c);
  match cp_Locator c with
  | None => Err (NewError "a chain policy must be able to recompute account addresses")
  | Some locate => Ok locate
  end.

Definition AcceptsRegistry (c : ChainPolicy) (hash : string) : bool :=
  bool_decide (hash ∈ cp_RegistryCodeHashes c).

Definition error_text (e : error) : string :=
  match e with NewError m | Sentinel m => m end.

Definition CheckState (policy : ChainPolicy) (network : option NetworkDomain) (agentID : string)
    (state : option NativeState) : result AgentState :=
  let* locate := ChainPolicy_Validate policy in
  let* n := validateNetwork network in
  refuse negb (ids_Agent agentID) with NewError "invalid Agent identifier";
  match state with
  | None => Err (NewError "resolver returned no state")
  | Some s =>
      refuse negb (bool_decide (ns_Network s = Some n))
        with NewError "resolver returned state from another network";
      refuse negb (chainDigestPattern (ns_TvmStateHash s))
        with NewError "resolver returned state with no typed state hash";
      match ns_Reference s with
      | None => Err (NewError "resolver returned state with no chain reference")
      | Some reference =>
          refuse cr_FinalizedCheckpoint reference =? 0
            with NewError "resolver returned state that is not finalized";
          refuse cr_FinalizedCheckpoint reference <? cp_MinFinalizedCheckpoint policy
            with NewError "resolver returned state older than the operator's known checkpoint";
          refuse negb (AcceptsRegistry policy (cr_ContractCodeHash reference))
            with NewError "resolver returned state from an unrecognised registry contract";
          refuse negb (chainAccountPattern (cr_Account reference))
            with NewError "resolver returned state with no account";
          refuse negb (chainDigestPattern (cr_TransactionHash reference))
            with NewError "resolver returned state with no transaction hash";
          match locate (cr_ContractCodeHash reference) agentID with
          | Err e =>
              Err (NewError ("could not recompute the Agent account address: " +:+ error_text e))
          | Ok expected =>
              refuse negb (String.eqb expected (cr_Account reference))
                with NewError "resolver returned Agent state from the wrong account";
              match ns_Agent s with
              | None => Err (NewError "resolver returned state that is not an Agent")
              | Some agent =>
                  refuse negb (String.eqb (as_AgentId agent) agentID)
                    with NewError "resolver returned state for another Agent";
                  refuse as_Tombstoned agent || negb (as_HasPolicy agent)
                    with NewError "Agent is not finalized and live";
                  Ok agent
              end
          end
      end
  end.

(** ** Verification *)

Definition CheckWindow (d : Delegation) (now : time) : result unit :=
  refuse now =? zero_time_unix with NewError "invalid delegation time";
  refuse now <? 0 with NewError "invalid delegation time";
  refuse now <? dg_NotBeforeUnix d with NewError "delegation is not yet valid";
  refuse dg_ExpiresAtUnix d <=? now with NewError "delegation is expired";
  Ok tt.

Definition VerifyWithCheckpoint (resolver : option AgentResolver) (network : option NetworkDomain)
    (chain : ChainPolicy) (raw : bytes) (now : time) : result (Delegation * Z) :=
  match resolver with
  | None => Err (NewError "invalid delegation verification context")
  | Some ResolveAgent =>
      refuse now =? zero_time_unix with NewError "invalid delegation verification context";
      let* n := validateNetwork network in
      let* d := identity_DecodeJSON raw in
      refuse negb (bool_decide (dg_Network d = Some n))
        with NewError "delegation network tuple mismatch";
      let* found := ResolveAgent (dg_AgentID d) in
      refuse negb found.2 with NewError "delegation Agent is not finalized";
      let* agent := CheckState chain network (dg_AgentID d) found.1 in
      let* digest := identity_Digest d in
      refuse negb (bool_decide (digest ∈ as_DelegationDigests agent))
        with NewError "delegation is not committed by the finalized Agent";
      call CheckWindow d now;
      match found.1 with
      | Some s =>
          match ns_Reference s with
          | Some reference => Ok (d, cr_FinalizedCheckpoint reference)
          | None => Err (NewError "nil dereference")
          end
      | None => Err (NewError "nil dereference")
      end
  end.

Definition identity_Verify (resolver : option AgentResolver) (network : option NetworkDomain)
    (chain : ChainPolicy) (raw : bytes) (now : time) : result Delegation :=
  let* verified := VerifyWithCheckpoint resolver network chain raw now in
  Ok verified.1.

Definition AllowsEventClass (d : Delegation) (class : string) : bool :=
  eventClassPattern class && bool_decide (class ∈ dg_AllowedOutboundEventClasses d).

Definition AllowsProtocolVersion (d : Delegation) (version : Z) : bool :=
  bool_decide (version ∈ dg_AllowedProtocolVersions d).

(** ** What validation establishes *)

Lemma validateNetwork_inv network n :
  validateNetwork network = Ok n ->
  network = Some n /\ 1 <= slen (nd_NetworkId n) <= 128
  /\ hex64 (nd_GenesisRootHash n) = true /\ hex64 (nd_GenesisFileHash n) = true.
Proof.
  unfold validateNetwork. destruct network as [m|]; [|done]. intros H. inv_ok H. simplify_eq. breflect.
  split_and!; try done; [|lia].
  destruct (nd_NetworkId n); [done|]. unfold slen. cbn. lia.
Qed.

Lemma validateKey_inv key u : validateKey key = Ok u -> blen key = 32.
Proof. unfold validateKey, PublicKeySize. intros H. inv_ok H. breflect. lia. Qed.

Lemma check_classes_inv previous classes u :
  check_classes previous classes = Ok u ->
  Forall (fun c => slen c <= 64 /\ eventClassPattern c = true) classes.
Proof.
  revert previous. induction classes as [|c l IH]; intros previous H; [constructor|].
  cbn [check_classes] in H. inv_ok H. breflect. unfold MaxEventClassBytes in *.
  apply Forall_cons. split; [split; [lia|done]|]. by eapply IH.
Qed.

Definition Delegation_typed (d : Delegation) : Prop :=
  Forall is_u32 (dg_AllowedProtocolVersions d) /\ is_u64 (dg_NotBeforeUnix d)
  /\ is_u64 (dg_ExpiresAtUnix d) /\ is_u64 (dg_MaximumSessionLifetimeSeconds d).

(** The bounds of a valid delegation's fields. *)
Record valid_delegation (d : Delegation) (n : NetworkDomain) : Prop := {
  vd_network : validateNetwork (dg_Network d) = Ok n;
  vd_agent : ids_Agent (dg_AgentID d) = true;
  vd_key : blen (dg_IdentityPublicKey d) = 32;
  vd_endpoint : ids_Endpoint (dg_EndpointID d) = true;
  vd_derived : DeriveEndpointID (dg_Network d) (dg_AgentID d) (dg_IdentityPublicKey d)
               = Ok (dg_EndpointID d);
  vd_adnl : slen (dg_ADNLID d) <= 69;
  vd_versions : Z.of_nat (length (dg_AllowedProtocolVersions d)) <= 16;
  vd_classes : Z.of_nat (length (dg_AllowedOutboundEventClasses d)) <= 64
    /\ Forall (fun c => slen c <= 64 /\ eventClassPattern c = true) (dg_AllowedOutboundEventClasses d);
  vd_digests : ValidDigest (dg_ContactDescriptorPolicyDigest d) = true
               /\ ValidDigest (dg_InboxAdmissionPolicyDigest d) = true;
}.

Lemma validate_adnl_inv adnl u :
  validate_adnl adnl = Ok u -> adnl = "" \/ prefixed_hex64 "adnl:" adnl = true.
Proof.
  unfold validate_adnl, prefixed_hex64. destruct (String.eqb_spec adnl ""); [by left|].
  destruct (strip_prefix "adnl:" adnl); [|done]. intros H. inv_ok H. breflect. by right.
Qed.

Lemma identity_Validate_inv d u :
  identity_Validate d = Ok u -> exists n, valid_delegation d n.
Proof.
  unfold identity_Validate. intros H. inv_ok H. breflect.
  match goal with E : validateNetwork _ = Ok ?n |- _ => exists n end.
  match goal with E : validate_adnl _ = Ok _ |- _ => apply validate_adnl_inv in E as HA end.
  match goal with E : validateEventClasses _ = Ok _ |- _ => unfold validateEventClasses in E; inv_ok E end.
  match goal with E : validateVersions _ = Ok _ |- _ => unfold validateVersions in E; inv_ok E end.
  breflect. unfold MaxEventClasses, MaxProtocolVersions in *.
  constructor; try done; try lia; try (by eapply validateKey_inv); try congruence.
  - destruct HA as [->|HA%prefixed_hex64_slen]; [done|]. slen_lit. lia.
  - split; [lia|by eapply check_classes_inv].
Qed.

(** ** The digest binds the delegation *)

Lemma fold_Uint32 l buffer : fold_left canon_Uint32 l buffer = buffer ++ fields_bytes (FUint32 <$> l).
Proof.
  revert buffer. induction l as [|x l IH]; intros buffer; cbn [fold_left].
  - unfold fields_bytes. cbn. by rewrite app_nil_r.
  - rewrite IH. unfold canon_Uint32, fields_bytes. cbn. by rewrite <- app_assoc.
Qed.

(** The four runs of fields around the key, the versions and the classes. *)
Definition head_fields (d : Delegation) (n : NetworkDomain) : list field :=
  [FText identity_Schema; FText (nd_NetworkId n); FHash32 (nd_GenesisRootHash n);
   FHash32 (nd_GenesisFileHash n); FText (dg_AgentID d); FText (dg_EndpointID d)].
Definition versions_count (d : Delegation) : list field :=
  [FText (dg_ADNLID d); FUint32 (u32 (Z.of_nat (length (dg_AllowedProtocolVersions d))))].
Definition classes_count (d : Delegation) : list field :=
  [FUint32 (u32 (Z.of_nat (length (dg_AllowedOutboundEventClasses d))))].
Definition tail_fields (d : Delegation) : list field :=
  [FUint64 (dg_NotBeforeUnix d); FUint64 (dg_ExpiresAtUnix d);
   FUint64 (dg_MaximumSessionLifetimeSeconds d); FText (dg_ContactDescriptorPolicyDigest d);
   FText (dg_InboxAdmissionPolicyDigest d)].

Definition delegation_bytes (d : Delegation) (n : NetworkDomain) : bytes :=
  fields_bytes (head_fields d n) ++ dg_IdentityPublicKey d ++ fields_bytes (versions_count d)
  ++ fields_bytes (FUint32 <$> dg_AllowedProtocolVersions d) ++ fields_bytes (classes_count d)
  ++ fields_bytes (FText <$> dg_AllowedOutboundEventClasses d) ++ fields_bytes (tail_fields d).

Lemma identity_CanonicalBytes_form d p :
  identity_CanonicalBytes d = Ok p ->
  exists n, valid_delegation d n
    /\ p = bytes_of_string DomainEndpointDelegation ++ delegation_bytes d n.
Proof.
  unfold identity_CanonicalBytes. destruct (identity_Validate d) eqn:HV; [|done].
  destruct (identity_Validate_inv _ _ HV) as [n Hv]. rewrite (vd_network d n Hv).
  destruct (validateNetwork_inv _ _ (vd_network d n Hv)) as (_ & _ & Hr & Hf).
  rewrite !canon_Hash32_ok by done. intros H. apply Ok_inj in H. exists n. split; [done|].
  rewrite <- H. clear H. unfold delegation_bytes, head_fields, versions_count, classes_count, tail_fields.
  rewrite fold_Text, fold_Uint32, !canon_Text_app, !canon_Uint32_app, !canon_Uint64_app,
    !fields_bytes_cons, !fields_bytes_nil, !app_nil_r.
  by rewrite <- !app_assoc.
Qed.

Lemma ids_slen_small p s : prefixed_hex64 p s = true -> slen p <= 16 -> slen s < 2 ^ 32.
Proof. intros H%prefixed_hex64_slen ?. lia. Qed.

Lemma is_u32_small k : 0 <= k <= 64 -> is_u32 (u32 k) /\ u32 k = k.
Proof. intros. unfold is_u32. rewrite u32_id by (unfold is_u32; lia). lia. Qed.

Lemma head_same_kind d n e m :
  valid_delegation d n -> valid_delegation e m ->
  Forall2 same_kind (head_fields d n) (head_fields e m).
Proof.
  intros Hd He.
  destruct (validateNetwork_inv _ _ (vd_network d n Hd)) as (_ & ? & ? & ?).
  destruct (validateNetwork_inv _ _ (vd_network e m He)) as (_ & ? & ? & ?).
  assert (forall x y, valid_delegation x y -> slen (dg_AgentID x) < 2 ^ 32 /\ slen (dg_EndpointID x) < 2 ^ 32)
    as Hids.
  { intros x y Hx. split; [eapply (ids_slen_small "agent_"); [exact (vd_agent _ _ Hx)|done]|].
    eapply (ids_slen_small "mep_"); [exact (vd_endpoint _ _ Hx)|done]. }
  destruct (Hids _ _ Hd), (Hids _ _ He).
  repeat constructor; try done; lia.
Qed.

Lemma counts_same_kind d n e m :
  valid_delegation d n -> valid_delegation e m ->
  Forall2 same_kind (versions_count d) (versions_count e)
  /\ Forall2 same_kind (classes_count d) (classes_count e).
Proof.
  intros Hd He. pose proof (vd_adnl _ _ Hd). pose proof (vd_adnl _ _ He).
  split; repeat constructor; cbn; try lia; apply u32_range.
Qed.

Lemma tail_same_kind d n e m :
  valid_delegation d n -> valid_delegation e m -> Delegation_typed d -> Delegation_typed e ->
  Forall2 same_kind (tail_fields d) (tail_fields e).
Proof.
  intros Hd He (_ & ? & ? & ?) (_ & ? & ? & ?).
  destruct (vd_digests _ _ Hd) as [?%ValidDigest_slen ?%ValidDigest_slen].
  destruct (vd_digests _ _ He) as [?%ValidDigest_slen ?%ValidDigest_slen].
  unfold tail_fields. repeat (apply Forall2_cons; split); [done|done|done|cbn; lia|cbn; lia|constructor].
Qed.

Lemma fmap_same_kind {A} (F : A -> field) (P : A -> Prop) l l' :
  (forall x y, P x -> P y -> same_kind (F x) (F y)) -> length l = length l' ->
  Forall P l -> Forall P l' -> Forall2 same_kind (F <$> l) (F <$> l').
Proof.
  intros HF Hl H H'. revert l' Hl H'. induction H as [|x l Hx H IH]; intros [|y l'] Hl H'; try done.
  apply Forall_cons in H' as [Hy H']. apply Forall2_cons. split; [by apply HF|]. apply IH; [by injection Hl|done].
Qed.

Lemma u32_count_inj {A} (l l' : list A) :
  Z.of_nat (length l) <= 64 -> Z.of_nat (length l') <= 64 ->
  u32 (Z.of_nat (length l)) = u32 (Z.of_nat (length l')) -> length l = length l'.
Proof.
  intros H H'. destruct (is_u32_small (Z.of_nat (length l))) as [_ ->]; [lia|].
  destruct (is_u32_small (Z.of_nat (length l'))) as [_ ->]; lia.
Qed.

#[global] Instance FUint32_inj : Inj (=) (=) FUint32.
Proof. by intros x y [= ->]. Qed.
#[global] Instance FText_inj : Inj (=) (=) FText.
Proof. by intros x y [= ->]. Qed.

Lemma delegation_bytes_inj d n e m :
  valid_delegation d n -> valid_delegation e m -> Delegation_typed d -> Delegation_typed e ->
  delegation_bytes d n = delegation_bytes e m -> d = e.
Proof.
  intros Hd He Td Te E. unfold delegation_bytes in E.
  apply fields_bytes_inj in E as [Eh E]; [|by apply head_same_kind].
  apply app_inj_length in E as [Ek E].
  2:{ pose proof (vd_key _ _ Hd). pose proof (vd_key _ _ He). unfold blen in *. lia. }
  destruct (counts_same_kind _ _ _ _ Hd He) as [Kv Kc].
  apply fields_bytes_inj in E as [Ev E]; [|done].
  pose proof (vd_versions _ _ Hd). pose proof (vd_versions _ _ He).
  injection Ev as Ea Ev. apply u32_count_inj in Ev; [|lia..].
  apply fields_bytes_inj in E as [Evs E].
  2:{ apply (fmap_same_kind _ is_u32); [done|done|apply Td|apply Te]. }
  apply (inj (fmap FUint32)) in Evs.
  apply fields_bytes_inj in E as [Ec E]; [|done].
  destruct (vd_classes _ _ Hd) as [? Cd]. destruct (vd_classes _ _ He) as [? Ce].
  injection Ec as Ec. apply u32_count_inj in Ec; [|lia..].
  apply fields_bytes_inj in E as [Ecs E].
  2:{ apply (fmap_same_kind _ (fun c => slen c <= 64 /\ eventClassPattern c = true)); [|done..].
      intros x y [? _] [? _]. cbn. lia. }
  apply (inj (fmap FText)) in Ecs.
  rewrite <- (app_nil_r (fields_bytes (tail_fields d))), <- (app_nil_r (fields_bytes (tail_fields e))) in E.
  apply fields_bytes_inj in E as [Et _]; [|by eapply tail_same_kind].
  destruct (validateNetwork_inv _ _ (vd_network _ _ Hd)) as (Nd & _).
  destruct (validateNetwork_inv _ _ (vd_network _ _ He)) as (Ne & _).
  destruct d, e, n, m; cbn in *. unfold head_fields, tail_fields in *; cbn in *. by simplify_eq.
Qed.

(** ** JSON *)

Lemma sforall_utf8 p s :
  (forall c, p c = true -> code c < 128) -> sforall p s = true -> utf8_string s.
Proof.
  unfold utf8_string. intros Hp. induction s as [|c s IH]; [done|].
  cbn [sforall]. intros [Hc H]%andb_prop. apply Hp in Hc. specialize (IH H).
  change (bytes_of_string (String c s)) with (byte_of_ascii c :: bytes_of_string s).
  assert (byteZ (byte_of_ascii c) = code c) as E.
  { by destruct c as [[] [] [] [] [] [] [] []]. }
  assert (0 <= code c) by (unfold code; lia).
  cbn [utf8_valid]. unfold byte_in at 1. rewrite E.
  rewrite (proj2 (Z.leb_le 0 (code c))), (proj2 (Z.leb_le (code c) 127)) by lia. exact IH.
Qed.

Lemma is_hex_ascii c : is_hex c = true -> code c < 128.
Proof.
  unfold is_hex, is_digit, in_range. change (code "9") with 57. change (code "f") with 102. lia.
Qed.

Lemma utf8_string_app s t : utf8_string s -> utf8_string t -> utf8_string (s +:+ t).
Proof.
  unfold utf8_string. intros Hs Ht.
  assert (bytes_of_string (s +:+ t) = bytes_of_string s ++ bytes_of_string t) as ->.
  { clear. induction s as [|c s IH]; [done|].
    change (byte_of_ascii c :: bytes_of_string (s +:+ t)
            = byte_of_ascii c :: (bytes_of_string s ++ bytes_of_string t)). by rewrite IH. }
  apply utf8_valid_text in Hs. generalize (bytes_of_string t) Ht. clear -Hs. intros l Hl.
  induction Hs as [|a k Ha _ IH|a b k H _ IH|a b c k H _ IH|a b c d k H _ IH]; cbn [app utf8_valid].
  - done.
  - unfold byte_in at 1. rewrite (proj2 (Z.leb_le (byteZ a) 127)) by lia.
    pose proof (byteZ_range a). rewrite (proj2 (Z.leb_le 0 (byteZ a))) by lia. exact IH.
  - pose proof (two_bytes_high _ _ H). unfold two_bytes in H. apply andb_prop in H as [Ha Hb].
    unfold byte_in at 1. rewrite (proj2 (Z.leb_gt (byteZ a) 127)) by lia. rewrite andb_false_r.
    by rewrite Ha, Hb.
  - destruct (three_bytes_high _ _ _ H) as [Hh H2]. unfold three_bytes in H.
    apply andb_prop in H as [[Ha Hc]%andb_prop Hs].
    assert (byte_in 194 223 a = false) as E2 by (unfold byte_in in *; lia).
    unfold byte_in at 1. rewrite (proj2 (Z.leb_gt (byteZ a) 127)) by lia. rewrite andb_false_r.
    by rewrite E2, Ha, Hs, Hc.
  - destruct (four_bytes_high _ _ _ _ H) as (Hh & _ & _). unfold four_bytes in H.
    apply andb_prop in H as [[[Ha Hc]%andb_prop Hd]%andb_prop Hs].
    assert (byte_in 194 223 a = false /\ byte_in 224 239 a = false) as [E2 E3]
      by (unfold byte_in in *; lia).
    unfold byte_in at 1. rewrite (proj2 (Z.leb_gt (byteZ a) 127)) by lia. rewrite andb_false_r.
    by rewrite E2, E3, Ha, Hs, Hc, Hd.
Qed.

Lemma utf8_prefixed_hex p s : utf8_string p -> prefixed_hex64 p s = true -> utf8_string s.
Proof.
  intros Hp. unfold prefixed_hex64. destruct (strip_prefix p s) as [r|] eqn:E; [|done].
  intros [_ H]%andb_prop. apply strip_prefix_Some in E as ->. apply utf8_string_app; [done|].
  eapply sforall_utf8, H. apply is_hex_ascii.
Qed.

Lemma utf8_hex64 s : hex64 s = true -> utf8_string s.
Proof. intros [_ H]%andb_prop. eapply sforall_utf8, H. apply is_hex_ascii. Qed.

Lemma utf8_hex_encode b : utf8_string (hex_encode b).
Proof. eapply sforall_utf8, hex_encode_is_hex. apply is_hex_ascii. Qed.

Lemma utf8_ValidDigest s : ValidDigest s = true -> utf8_string s.
Proof.
  unfold ValidDigest. destruct (strip_prefix "sha256:" s) as [h|] eqn:E; [|done].
  intros [H _]%andb_prop. apply strip_prefix_Some in E as ->.
  apply utf8_string_app; [done|by apply utf8_hex64].
Qed.

Lemma class_labels_ascii start s : class_labels start s = true -> sforall (fun c => code c <? 128) s = true.
Proof.
  revert start. induction s as [|c s IH]; intros start H; [done|]. cbn [class_labels sforall] in *.
  assert (forall c, is_lower c || is_digit c = true -> (code c <? 128) = true) as Hlow.
  { intros x. unfold is_lower, is_digit, in_range. change (code "z") with 122.
    change (code "9") with 57. lia. }
  destruct start.
  - apply andb_prop in H as [Hc H]. rewrite (Hlow c) by (by rewrite Hc). by eapply IH.
  - destruct (Ascii.eqb_spec c "."); [subst c; by eapply IH|].
    apply andb_prop in H as [Hc H]. rewrite (Hlow c) by done. by eapply IH.
Qed.

Lemma utf8_class s : eventClassPattern s = true -> utf8_string s.
Proof. intros H%class_labels_ascii. eapply sforall_utf8, H. cbn. lia. Qed.

Lemma wireDelegation_kinded d n :
  valid_delegation d n -> Delegation_typed d -> utf8_string (nd_NetworkId n) ->
  validate_adnl (dg_ADNLID d) = Ok tt ->
  well_kinded wireDelegation (delegation_vals d n).
Proof.
  intros Hv (Tv & Tn & Te & Ts) Hu Ha.
  destruct (validateNetwork_inv _ _ (vd_network _ _ Hv)) as (_ & _ & Hr & Hf).
  destruct (vd_classes _ _ Hv) as [_ Hc]. destruct (vd_digests _ _ Hv) as [D1 D2].
  split; [|split].
  - apply (bool_decide_unpack _). by vm_compute.
  - repeat constructor.
  - unfold wireDelegation, delegation_vals.
    repeat (apply Forall2_cons; split; [cbn [has_kind snd]|]); try done;
      auto using utf8_hex64, utf8_hex_encode, utf8_ValidDigest.
    + eapply (utf8_prefixed_hex "agent_"), (vd_agent _ _ Hv). done.
    + eapply (utf8_prefixed_hex "mep_"), (vd_endpoint _ _ Hv). done.
    + destruct (validate_adnl_inv _ _ Ha) as [->|H]; [done|]. by eapply utf8_prefixed_hex, H.
    + eapply Forall_impl; [exact Hc|]. intros c [_ H]. by apply utf8_class.
Qed.

Lemma identity_DecodeJSON_valid raw d : identity_DecodeJSON raw = Ok d -> identity_Validate d = Ok tt.
Proof.
  unfold identity_DecodeJSON. destruct (decode_struct wireDelegation raw) as [vals| |]; try done.
  repeat (match goal with |- context [match ?x with _ => _ end] => is_var x; destruct x; try done end).
  intros H. inv_ok H. apply Ok_inj in H as <-.
  match goal with E : identity_Validate _ = Ok ?u |- _ => by destruct u end.
Qed.

(** ** Properties *)

(** a delegation's digest binds all of it: two valid delegations with the
    same digest are the same delegation, short of a SHA-256 collision.  The key is
    written without a length and the lists with a count, so this is where the
    canonical form could have been ambiguous. *)
Theorem delegation_digest_binds d e h :
  Delegation_typed d -> Delegation_typed e ->
  identity_Digest d = Ok h -> identity_Digest e = Ok h -> d = e \/ sha256_collision.
Proof.
  intros Td Te Hd He. unfold identity_Digest in *. inv_ok Hd. inv_ok He.
  apply Ok_inj in Hd, He. rewrite <- He in Hd.
  match goal with E : identity_CanonicalBytes d = _ |- _ =>
    apply identity_CanonicalBytes_form in E as (n & Vd & ->) end.
  match goal with E : identity_CanonicalBytes e = _ |- _ =>
    apply identity_CanonicalBytes_form in E as (m & Ve & ->) end.
  apply canon_Digest_inj in Hd as [E|]; [left|by right]. apply app_inv_head in E.
  by eapply delegation_bytes_inj.
Qed.

(** the transport form of a delegation decodes to exactly the delegation that
    was encoded. *)
Theorem delegation_json_roundtrip d raw n :
  Delegation_typed d -> dg_Network d = Some n -> utf8_string (nd_NetworkId n) ->
  identity_EncodeJSON d = Ok raw -> identity_DecodeJSON raw = Ok d.
Proof.
  intros Td Hn Hu HE. unfold identity_EncodeJSON in HE.
  destruct (identity_Validate d) as [[]|] eqn:HV; [|done].
  destruct (identity_Validate_inv _ _ HV) as [m Hv]. rewrite (vd_network _ _ Hv) in HE.
  apply Ok_inj in HE as <-.
  destruct (validateNetwork_inv _ _ (vd_network _ _ Hv)) as (Hm & _).
  assert (m = n) as -> by congruence.
  assert (validate_adnl (dg_ADNLID d) = Ok tt) as Ha.
  { unfold identity_Validate in HV. inv_ok HV. by repeat match goal with u : unit |- _ => destruct u end. }
  unfold identity_DecodeJSON. rewrite struct_roundtrip by (by apply wireDelegation_kinded).
  unfold delegation_vals. rewrite String.eqb_refl. cbn [negb]. rewrite hex_decode_encode, (vd_key _ _ Hv).
  change (32 =? PublicKeySize) with true. cbn [negb].
  assert (MkDelegation (Some (MkNetworkDomain (nd_NetworkId n) (nd_GenesisRootHash n) (nd_GenesisFileHash n)))
    (dg_AgentID d) (dg_EndpointID d) (dg_IdentityPublicKey d) (dg_ADNLID d)
    (dg_AllowedProtocolVersions d) (dg_AllowedOutboundEventClasses d) (dg_NotBeforeUnix d)
    (dg_ExpiresAtUnix d) (dg_MaximumSessionLifetimeSeconds d) (dg_ContactDescriptorPolicyDigest d)
    (dg_InboxAdmissionPolicyDigest d) = d) as ->.
  { destruct d, n. cbn in *. by rewrite Hn. }
  by rewrite HV.
Qed.

Lemma ChainPolicy_Validate_Ok c locate : ChainPolicy_Validate c = Ok locate -> cp_Locator c = Some locate.
Proof. unfold ChainPolicy_Validate. intros H. inv_ok H. by apply Ok_inj in H as <-. Qed.

(** What a state must say about an agent before anything it commits counts. *)
Record live_agent (chain : ChainPolicy) (n : NetworkDomain) (agentID : string)
    (s : NativeState) (agent : AgentState) (reference : ChainReference) : Prop := {
  la_network : ns_Network s = Some n;
  la_reference : ns_Reference s = Some reference;
  la_final : cr_FinalizedCheckpoint reference <> 0
             /\ cp_MinFinalizedCheckpoint chain <= cr_FinalizedCheckpoint reference;
  la_registry : cr_ContractCodeHash reference ∈ cp_RegistryCodeHashes chain;
  la_account : exists locate, cp_Locator chain = Some locate
               /\ locate (cr_ContractCodeHash reference) agentID = Ok (cr_Account reference);
  la_agent : ns_Agent s = Some agent;
  la_identity : as_AgentId agent = agentID;
  la_live : as_Tombstoned agent = false /\ as_HasPolicy agent = true;
}.

Lemma CheckState_live chain network agentID state agent :
  CheckState chain network agentID state = Ok agent ->
  exists n s reference, validateNetwork network = Ok n /\ state = Some s
    /\ live_agent chain n agentID s agent reference.
Proof.
  unfold CheckState. intros H. inv_ok_step H. inv_ok_step H. inv_ok_step H.
  match goal with E : ChainPolicy_Validate chain = Ok ?l |- _ =>
    apply ChainPolicy_Validate_Ok in E; rename l into locate end.
  destruct state as [s|]; [|done]. inv_ok_step H. inv_ok_step H.
  destruct (ns_Reference s) as [reference|] eqn:Hr; [|done].
  do 5 inv_ok_step H.
  destruct (locate (cr_ContractCodeHash reference) agentID) as [expected|] eqn:Hl; [|done].
  inv_ok_step H. destruct (ns_Agent s) as [a|] eqn:Ha; [|done]. inv_ok H. apply Ok_inj in H as ->.
  unfold AcceptsRegistry in *. breflect.
  eexists _, s, reference. split_and!; [done..|]. constructor; try done; try lia.
  exists locate. split; [done|]. by subst expected.
Qed.

(** a delegation verifies only if the finalized agent account commits it: the
    state is of the configured network, finalized at or after the operator's
    checkpoint, produced by an accepted registry at the account recomputed for
    the agent; that agent is the delegation's, is live, and lists the digest of
    the decoded delegation; the delegation is valid as a document and the time is
    inside its window. *)
Theorem delegation_verify_sound resolve network chain raw now d :
  identity_Verify (Some resolve) network chain raw now = Ok d ->
  exists n s agent reference digest,
    identity_DecodeJSON raw = Ok d /\ identity_Validate d = Ok tt /\ dg_Network d = Some n
    /\ network = Some n /\ resolve (dg_AgentID d) = Ok (Some s, true)
    /\ live_agent chain n (dg_AgentID d) s agent reference
    /\ identity_Digest d = Ok digest /\ digest ∈ as_DelegationDigests agent
    /\ 0 <= now /\ dg_NotBeforeUnix d <= now < dg_ExpiresAtUnix d.
Proof.
  unfold identity_Verify, VerifyWithCheckpoint. intros H. inv_ok_step H.
  apply Ok_inj in H. destruct a as [d0 checkpoint]. cbn [fst] in H. subst d0.
  match goal with E : _ = Ok (d, checkpoint) |- _ => rename E into H end.
  inv_ok_step H. inv_ok_step H. inv_ok_step H. inv_ok_step H. inv_ok_step H. inv_ok_step H.
  inv_ok_step H. inv_ok_step H. inv_ok_step H. inv_ok_step H.
  match goal with E : CheckState _ _ _ _ = Ok _ |- _ =>
    apply CheckState_live in E as (m & s & reference & Hn & Hs & Hlive) end.
  match goal with E : resolve _ = Ok ?f |- _ => destruct f as [state found] end.
  cbn [fst snd] in *. subst state. rewrite (la_reference _ _ _ _ _ _ Hlive) in H.
  apply Ok_inj in H. assert (a0 = d) as -> by congruence. breflect.
  unfold CheckWindow in *. match goal with E : _ = Ok ?u |- _ => is_var u; inv_ok E end. breflect. subst found.
  assert (m = a) as -> by congruence.
  destruct (validateNetwork_inv _ _ Hn) as (-> & _).
  eexists a, s, _, reference, _. split_and!; try done; try lia.
  by eapply identity_DecodeJSON_valid.
Qed.

(** ** A delegation on a chain, for the witnesses *)

Definition sample_domain : NetworkDomain := MkNetworkDomain "tos-local" sample_hash sample_hash.
Definition sample_agent_id : string := "agent_" +:+ sample_hash.
Definition endpoint_of (agentID : string) (key : bytes) : string :=
  match DeriveEndpointID (Some sample_domain) agentID key with Ok e => e | Err _ => "" end.
Definition sample_delegation_of (agentID : string) (key : bytes) : Delegation :=
  MkDelegation (Some sample_domain) agentID (endpoint_of agentID key) key "" [1; 2]
    ["chat"; "room.admin"] 1000 100000 3600 ("sha256:" +:+ sample_hash) ("sha256:" +:+ sample_hash).
Definition sample_delegation : Delegation := Eval vm_compute in sample_delegation_of sample_agent_id (replicate 32 x11).

Definition sample_code_hash : string := "tvm-cell-sha256:" +:+ sample_hash.
Definition sample_reference : ChainReference :=
  MkReference 7 sample_code_hash "account" ("sha256:" +:+ sample_hash).
Definition sample_policy : ChainPolicy :=
  MkChainPolicy [sample_code_hash] 5 (Some (fun _ _ => Ok "account")).
Definition digest_of (d : Delegation) : string :=
  match identity_Digest d with Ok h => h | Err _ => "" end.
Definition sample_resolver : AgentResolver := fun agentID =>
  Ok (Some (MkNativeState (Some sample_domain) ("sha256:" +:+ sample_hash) (Some sample_reference)
              (Some (MkAgentState agentID false true [digest_of sample_delegation]))), true).
Definition sample_delegation_json : bytes := Eval vm_compute in
  match identity_EncodeJSON sample_delegation with Ok raw => raw | Err _ => [] end.

Lemma delegation_digest_binds_witness : sample_delegation = sample_delegation \/ sha256_collision.
Proof.
  apply (delegation_digest_binds sample_delegation sample_delegation (digest_of sample_delegation)).
  - repeat split; repeat constructor; by vm_compute.
  - repeat split; repeat constructor; by vm_compute.
  - vm_compute. reflexivity.
  - vm_compute. reflexivity.
Defined.

Lemma delegation_json_roundtrip_witness : identity_DecodeJSON sample_delegation_json = Ok sample_delegation.
Proof.
  apply (delegation_json_roundtrip sample_delegation sample_delegation_json sample_domain).
  - repeat split; repeat constructor; by vm_compute.
  - reflexivity.
  - vm_compute. reflexivity.
  - vm_compute. reflexivity.
Defined.

Lemma delegation_verify_sound_witness :
  exists n s agent reference digest,
    identity_DecodeJSON sample_delegation_json = Ok sample_delegation
    /\ identity_Validate sample_delegation = Ok tt /\ dg_Network sample_delegation = Some n
    /\ Some sample_domain = Some n
    /\ sample_resolver (dg_AgentID sample_delegation) = Ok (Some s, true)
    /\ live_agent sample_policy n (dg_AgentID sample_delegation) s agent reference
    /\ identity_Digest sample_delegation = Ok digest /\ digest ∈ as_DelegationDigests agent
    /\ 0 <= 2000 /\ dg_NotBeforeUnix sample_delegation <= 2000 < dg_ExpiresAtUnix sample_delegation.
Proof.
  apply (delegation_verify_sound sample_resolver (Some sample_domain) sample_policy
           sample_delegation_json 2000).
  vm_compute. reflexivity.
Defined.
