(* ===== verification/E2ee.v ===== *)
(** * Prekey bundles, device sets and session identities: [pkg/e2ee]

    An endpoint publishes one signed bundle of prekey material per device; a
    contact descriptor commits the digest of the whole set.  This file models the
    material checks of [suite.go], the associated data of [binding.go], bundles
    and sets ([bundle.go], [bundle_set.go]), the succession of device sets, the
    session identifier of a device pair and the fan-out of one event
    ([devices.go]), and the public evidence of a first contact ([bootstrap.go]).
    The cryptographic suite behind the interface is in [Ratchet.v]. *)

From S2P Require Import Prelude Encoding Canon Json Money Identity.

(** ** Suites ([suite.go]) *)

Definition MaxSessionStateBytes : Z := Z.shiftl 256 10.
Definition ErrStateUnusable : error := Sentinel "session state is unusable".

(** The longest prefix of characters in [p], and the rest. *)
Fixpoint span_str (p : ascii -> bool) (s : string) : string * string :=
  match s with
  | EmptyString => (EmptyString, EmptyString)
  | String c rest =>
      if p c then let '(a, b) := span_str p rest in (String c a, b) else (EmptyString, s)
  end.

(** [^tos\.messaging\.e2ee\.[a-z0-9-]{1,32}\.v[0-9]{1,3}$] *)
Definition AlgorithmPattern (s : string) : bool :=
  match strip_prefix "tos.messaging.e2ee." s with
  | None => false
  | Some rest =>
      let '(name, rest) := span_str (fun c => is_lower c || is_digit c || Ascii.eqb c "-") rest in
      (1 <=? slen name) && (slen name <=? 32) &&
      match strip_prefix ".v" rest with
      | None => false
      | Some version => (1 <=? slen version) && (slen version <=? 3) && sforall is_digit version
      end
  end.

Definition ValidateAlgorithmID (algorithm : string) : result unit :=
  refuse negb (AlgorithmPattern algorithm)
    with NewError "invalid end-to-end encryption algorithm identifier";
  Ok tt.

Definition ValidateState (state : bytes) : result unit :=
  refuse blen state =? 0 with ErrStateUnusable;
  refuse MaxSessionStateBytes <? blen state with NewError "session state exceeds its bound";
  Ok tt.

(** The network check every signed object makes, with its own message. *)
Definition network_of (message : string) (network : option NetworkDomain) : result NetworkDomain :=
  match network with
  | None => Err (NewError message)
  | Some n =>
      refuse String.eqb (nd_NetworkId n) "" || (128 <? slen (nd_NetworkId n))
             || negb (HashPattern (nd_GenesisRootHash n)) || negb (HashPattern (nd_GenesisFileHash n))
        with NewError message;
      Ok n
  end.

(** ** Bindings ([binding.go]) *)

Record Binding : Type := MkBinding {
  bi_Network : option NetworkDomain;
  bi_AlgorithmID : string;
  bi_ConversationID : string;
  bi_SenderAgentID : string;
  bi_SenderEndpointID : string;
  bi_SenderDeviceID : string;
  bi_RecipientAgentID : string;
  bi_RecipientEndpointID : string;
  bi_RecipientDeviceID : string;
}.

Definition DomainE2EEBinding : string := "tos.messaging.e2ee-binding.v2" +:+ NUL.

Definition Binding_Validate (b : Binding) : result NetworkDomain :=
  let* n := network_of "invalid binding network domain" (bi_Network b) in
  call ValidateAlgorithmID (bi_AlgorithmID b);
  refuse negb (ids_Conversation (bi_ConversationID b))
    with NewError "invalid binding conversation identifier";
  refuse negb (ids_Agent (bi_SenderAgentID b)) || negb (ids_Endpoint (bi_SenderEndpointID b))
         || negb (ids_Device (bi_SenderDeviceID b)) with NewError "invalid binding sender identity";
  refuse negb (ids_Agent (bi_RecipientAgentID b)) || negb (ids_Endpoint (bi_RecipientEndpointID b))
         || negb (ids_Device (bi_RecipientDeviceID b)) with NewError "invalid binding recipient identity";
  refuse String.eqb (bi_SenderDeviceID b) (bi_RecipientDeviceID b)
    with NewError "a device cannot hold a session with itself";
  Ok n.

Definition Binding_Bytes (b : Binding) : result bytes :=
  let* n := Binding_Validate b in
  let buffer := canon_Text (bytes_of_string DomainE2EEBinding) (nd_NetworkId n) in
  let* buffer := canon_Hash32 buffer (nd_GenesisRootHash n) in
  let* buffer := canon_Hash32 buffer (nd_GenesisFileHash n) in
  let buffer := canon_Text buffer (bi_AlgorithmID b) in
  let buffer := canon_Text buffer (bi_ConversationID b) in
  let buffer := canon_Text buffer (bi_SenderAgentID b) in
  let buffer := canon_Text buffer (bi_SenderEndpointID b) in
  let buffer := canon_Text buffer (bi_SenderDeviceID b) in
  let buffer := canon_Text buffer (bi_RecipientAgentID b) in
  let buffer := canon_Text buffer (bi_RecipientEndpointID b) in
  Ok (canon_Text buffer (bi_RecipientDeviceID b)).

Definition Binding_Reply (b : Binding) : Binding :=
  MkBinding (bi_Network b) (bi_AlgorithmID b) (bi_ConversationID b)
    (bi_RecipientAgentID b) (bi_RecipientEndpointID b) (bi_RecipientDeviceID b)
    (bi_SenderAgentID b) (bi_SenderEndpointID b) (bi_SenderDeviceID b).

(** ** Bundles ([bundle.go]) *)

Record Bundle : Type := MkBundle {
  bn_Network : option NetworkDomain;
  bn_AgentID : string;
  bn_EndpointID : string;
  bn_DeviceID : string;
  bn_AlgorithmID : string;
  bn_Material : bytes;
  bn_IssuedAtUnix : Z;
  bn_ExpiresAtUnix : Z;
  bn_EndpointSignature : bytes;
}.

Definition BundleSchema : string := "tos.messaging.prekey-bundle.v2".
Definition MaxMaterialBytes : Z := Z.shiftl 4 10.
Definition MaxBundleLifetimeSeconds : Z := 30 * 24 * 60 * 60.
Definition MaxDevicesPerSet : Z := 16.
Definition DomainPrekeyBundle : string := "tos.messaging.prekey-bundle.v2" +:+ NUL.
Definition DomainPrekeyBundleSet : string := "tos.messaging.prekey-bundle-set.v2" +:+ NUL.

Definition ValidateBundle (b : Bundle) (signed : bool) : result NetworkDomain :=
  let* n := network_of "invalid bundle network domain" (bn_Network b) in
  refuse negb (ids_Agent (bn_AgentID b)) || negb (ids_Endpoint (bn_EndpointID b))
         || negb (ids_Device (bn_DeviceID b)) with NewError "invalid bundle identity";
  call ValidateAlgorithmID (bn_AlgorithmID b);
  refuse (blen (bn_Material b) =? 0) || (MaxMaterialBytes <? blen (bn_Material b))
         || IsZero (bn_Material b) with NewError "invalid bundle material";
  refuse (bn_IssuedAtUnix b =? 0) || (bn_ExpiresAtUnix b <=? bn_IssuedAtUnix b)
         || (MaxBundleLifetimeSeconds <? bn_ExpiresAtUnix b - bn_IssuedAtUnix b)
    with NewError "invalid bundle validity window";
  refuse signed && negb (blen (bn_EndpointSignature b) =? SignatureSize)
    with NewError "invalid bundle signature";
  Ok n.

Definition BundleSigningBytes (b : Bundle) : result bytes :=
  let* n := ValidateBundle b false in
  let buffer := canon_Text (bytes_of_string DomainPrekeyBundle) BundleSchema in
  let buffer := canon_Text buffer (nd_NetworkId n) in
  let* buffer := canon_Hash32 buffer (nd_GenesisRootHash n) in
  let* buffer := canon_Hash32 buffer (nd_GenesisFileHash n) in
  let buffer := canon_Text buffer (bn_AgentID b) in
  let buffer := canon_Text buffer (bn_EndpointID b) in
  let buffer := canon_Text buffer (bn_DeviceID b) in
  let buffer := canon_Text buffer (bn_AlgorithmID b) in
  let buffer := canon_Bytes buffer (bn_Material b) in
  let buffer := canon_Uint64 buffer (bn_IssuedAtUnix b) in
  Ok (canon_Uint64 buffer (bn_ExpiresAtUnix b)).

Definition BundleDigest (b : Bundle) : result string :=
  let* preimage := BundleSigningBytes b in
  Ok (canon_Digest preimage).

Fixpoint validate_members (first : Bundle) (devices : list string) (bundles : list Bundle)
    : result unit :=
  match bundles with
  | [] => Ok tt
  | b :: rest =>
      call ValidateBundle b true;
      refuse negb (String.eqb (bn_EndpointID b) (bn_EndpointID first))
        with NewError "a prekey bundle set belongs to one endpoint";
      refuse negb (String.eqb (bn_AgentID b) (bn_AgentID first))
        with NewError "a prekey bundle set belongs to one Agent";
      refuse negb (bool_decide (bn_Network b = bn_Network first))
        with NewError "a prekey bundle set belongs to one network";
      refuse negb (String.eqb (bn_AlgorithmID b) (bn_AlgorithmID first))
        with NewError "a prekey bundle set uses one suite";
      refuse bool_decide (bn_DeviceID b ∈ devices)
        with NewError "a prekey bundle set cannot list one device twice";
      validate_members first (bn_DeviceID b :: devices) rest
  end.

Definition ValidateSet (bundles : list Bundle) : result unit :=
  match bundles with
  | [] => Err (NewError "invalid prekey bundle set size")
  | first :: _ =>
      refuse MaxDevicesPerSet <? Z.of_nat (length bundles) with NewError "invalid prekey bundle set size";
      validate_members first [] bundles
  end.

Fixpoint bundle_digests (bundles : list Bundle) : result (list string) :=
  match bundles with
  | [] => Ok []
  | b :: rest =>
      let* digest := BundleDigest b in
      let* digests := bundle_digests rest in
      Ok (digest :: digests)
  end.

Definition SetCanonicalBytes (bundles : list Bundle) : result bytes :=
  call ValidateSet bundles;
  let* digests := bundle_digests bundles in
  let digests := sort_strings digests in
  let buffer := canon_Uint32 (bytes_of_string DomainPrekeyBundleSet) (u32 (Z.of_nat (length digests))) in
  Ok (fold_left canon_Text digests buffer).

Definition SetDigest (bundles : list Bundle) : result string :=
  let* preimage := SetCanonicalBytes bundles in
  Ok (canon_Digest preimage).

Definition MatchesDescriptorDigest (committed : string) (bundles : list Bundle) : result unit :=
  refuse negb (ValidDigest committed) with NewError "invalid committed prekey bundle digest";
  let* digest := SetDigest bundles in
  refuse negb (String.eqb digest committed)
    with NewError "published prekey material does not match the descriptor commitment";
  Ok tt.

(** A [crypto.Signer]: its public key, when that is an Ed25519 key, and signing. *)
Record Signer : Type := MkSigner {
  sg_Public : option bytes;
  sg_Sign : bytes -> result bytes;
}.

Definition with_signature (b : Bundle) (signature : bytes) : Bundle :=
  MkBundle (bn_Network b) (bn_AgentID b) (bn_EndpointID b) (bn_DeviceID b) (bn_AlgorithmID b)
    (bn_Material b) (bn_IssuedAtUnix b) (bn_ExpiresAtUnix b) signature.

Section Signed.
  Context `{Ed25519}.

Definition SignBundleWith (b : Bundle) (signer : option Signer) : result Bundle :=
  match signer with
  | None => Err (NewError "no bundle signer")
  | Some signer =>
      match sg_Public signer with
      | None => Err (NewError "bundle signer is not Ed25519")
      | Some public =>
          refuse negb (blen public =? PublicKeySize) with NewError "bundle signer is not Ed25519";
          let* preimage := BundleSigningBytes (with_signature b []) in
          match sg_Sign signer preimage with
          | Err _ => Err (NewError "sign prekey bundle")
          | Ok signature =>
              refuse negb (blen signature =? SignatureSize)
                     || negb (ed25519_Verify public preimage signature)
                with NewError "bundle signer returned an invalid signature";
              Ok (with_signature b signature)
          end
      end
  end.

(** A private key is its seed followed by its public key. *)
Definition SignBundle (b : Bundle) (endpointKey : bytes) : result Bundle :=
  refuse negb (blen endpointKey =? PrivateKeySize) with NewError "invalid bundle signing key";
  SignBundleWith b (Some (MkSigner (Some (drop 32 endpointKey))
                            (fun m => Ok (ed25519_Sign endpointKey m)))).

Definition BindBundle (d : Delegation) (b : Bundle) (now : time) : result unit :=
  refuse now =? zero_time_unix with NewError "invalid bundle verification time";
  call ValidateBundle b true;
  call CheckWindow d now;
  refuse negb (String.eqb (bn_AgentID b) (dg_AgentID d))
         || negb (String.eqb (bn_EndpointID b) (dg_EndpointID d))
    with NewError "bundle identity does not match its delegation";
  refuse negb (bool_decide (bn_Network b = dg_Network d))
    with NewError "bundle network tuple does not match its delegation";
  refuse dg_ExpiresAtUnix d <? bn_ExpiresAtUnix b with NewError "bundle outlives its delegation";
  refuse (now <? 0) || (bn_ExpiresAtUnix b <=? now) with NewError "bundle is expired";
  refuse now <? bn_IssuedAtUnix b with NewError "bundle is not yet issued";
  let* preimage := BundleSigningBytes b in
  refuse negb (ed25519_Verify (dg_IdentityPublicKey d) preimage (bn_EndpointSignature b))
    with NewError "bundle signature is not from the delegated endpoint key";
  Ok tt.

Fixpoint bind_all (d : Delegation) (bundles : list Bundle) (now : time) : result unit :=
  match bundles with
  | [] => Ok tt
  | b :: rest => call BindBundle d b now; bind_all d rest now
  end.

Definition BindBundleSet (d : Delegation) (bundles : list Bundle) (committed : string) (now : time)
    : result unit :=
  call ValidateSet bundles;
  call bind_all d bundles now;
  MatchesDescriptorDigest committed bundles.
End Signed.

(** ** The JSON forms *)

Definition wireBundle : list (string * jkind) :=
  [("schema", JK_String); ("network_id", JK_String); ("genesis_root_hash", JK_String);
   ("genesis_file_hash", JK_String); ("agent_id", JK_String); ("messaging_endpoint_id", JK_String);
   ("device_id", JK_String); ("algorithm_id", JK_String); ("material_base64", JK_String);
   ("issued_at_unix", JK_Uint 64); ("expires_at_unix", JK_Uint 64);
   ("endpoint_signature_hex", JK_String)].

Definition bundle_vals (b : Bundle) (n : NetworkDomain) : list jval :=
  [VString BundleSchema; VString (nd_NetworkId n); VString (nd_GenesisRootHash n);
   VString (nd_GenesisFileHash n); VString (bn_AgentID b); VString (bn_EndpointID b);
   VString (bn_DeviceID b); VString (bn_AlgorithmID b); VString (b64_encode (bn_Material b));
   VUint (bn_IssuedAtUnix b); VUint (bn_ExpiresAtUnix b);
   VString (hex_encode (bn_EndpointSignature b))].

Definition bundle_tree (b : Bundle) : result json :=
  let* n := ValidateBundle b true in
  Ok (JObject (struct_members no_omit wireBundle (bundle_vals b n))).

Definition EncodeBundleJSON (b : Bundle) : result bytes :=
  let* v := bundle_tree b in
  Ok (print_value v).

(** What [DecodeBundleJSON] does with the decoded fields. *)
Definition bundle_of_vals (vals : list jval) : result Bundle :=
  match vals with
  | [VString schema; VString networkID; VString root; VString file; VString agentID;
     VString endpointID; VString deviceID; VString algorithm; VString material64;
     VUint issued; VUint expires; VString signatureHex] =>
      refuse negb (String.eqb schema BundleSchema) with NewError "unsupported prekey bundle schema";
      match b64_decode material64 with
      | None => Err (NewError "invalid prekey bundle material")
      | Some material =>
          match hex_decode signatureHex with
          | None => Err (NewError "invalid prekey bundle signature")
          | Some signature =>
              refuse negb (blen signature =? SignatureSize) with NewError "invalid prekey bundle signature";
              let b := MkBundle (Some (MkNetworkDomain networkID root file)) agentID endpointID deviceID
                         algorithm material issued expires signature in
              call ValidateBundle b true;
              Ok b
          end
      end
  | _ => Err (NewError "json")
  end.

Definition DecodeBundleJSON (raw : bytes) : result Bundle :=
  match decode_struct wireBundle raw with
  | Decoded vals => bundle_of_vals vals
  | Malformed => Err (NewError "json")
  | Trailing => Err (NewError "prekey bundle has trailing JSON")
  end.

Definition BundleSetSchema : string := "tos.messaging.prekey-bundle-set.v2".
Definition MaxBundleSetWireBytes : Z := Z.shiftl 128 10.
Definition wireBundleSet : list (string * jkind) := [("schema", JK_String); ("bundles", JK_Raws)].

Fixpoint bundle_trees (bundles : list Bundle) : result (list json) :=
  match bundles with
  | [] => Ok []
  | b :: rest =>
      let* v := bundle_tree b in
      let* vs := bundle_trees rest in
      Ok (v :: vs)
  end.

Definition EncodeBundleSetJSON (bundles : list Bundle) : result bytes :=
  call ValidateSet bundles;
  let* trees := bundle_trees bundles in
  let raw := marshal_struct no_omit wireBundleSet [VString BundleSetSchema; VRaws trees] in
  refuse MaxBundleSetWireBytes <? blen raw with NewError "prekey bundle set exceeds its wire size bound";
  Ok raw.

(** A raw message decoded as a bundle: the tree has nothing after it. *)
Definition bundle_of_tree (v : json) : result Bundle :=
  match decode_tree true wireBundle v with
  | Some vals => bundle_of_vals vals
  | None => Err (NewError "json")
  end.

Fixpoint bundles_of_trees (trees : list json) : result (list Bundle) :=
  match trees with
  | [] => Ok []
  | v :: rest =>
      let* b := bundle_of_tree v in
      let* bs := bundles_of_trees rest in
      Ok (b :: bs)
  end.

Definition DecodeBundleSetJSON (raw : bytes) : result (list Bundle) :=
  refuse (blen raw =? 0) || (MaxBundleSetWireBytes <? blen raw)
    with NewError "invalid prekey bundle set wire size";
  match decode_struct wireBundleSet raw with
  | Decoded [VString schema; VRaws trees] =>
      refuse negb (String.eqb schema BundleSetSchema)
        with NewError "unsupported prekey bundle set schema";
      refuse (Z.of_nat (length trees) =? 0) || (MaxDevicesPerSet <? Z.of_nat (length trees))
        with NewError "invalid prekey bundle set size";
      let* bundles := bundles_of_trees trees in
      call ValidateSet bundles;
      Ok bundles
  | Trailing => Err (NewError "prekey bundle set has trailing JSON")
  | _ => Err (NewError "json")
  end.

(** ** Device sets over time ([devices.go]) *)

Definition ErrSetRollback : error := Sentinel "prekey device set rolled back".
(** [SetEquivocationError] unwraps to this; the two digests it also carries are
    not kept. *)
Definition ErrSetEquivocation : error := Sentinel "prekey device set equivocated".

Record SetSummary : Type := MkSummary {
  ss_Digest : string;
  ss_EndpointID : string;
  ss_DeviceIDs : list string;
  ss_BundleDigests : list string;
  ss_NewestIssuedAtUnix : Z;
}.

Definition zero_summary : SetSummary := MkSummary "" "" [] [] 0.

Definition Summarize (bundles : list Bundle) : result SetSummary :=
  call ValidateSet bundles;
  let* digest := SetDigest bundles in
  let* digests := bundle_digests bundles in
  match bundles with
  | [] => Err (NewError "index out of range")
  | first :: _ =>
      Ok (MkSummary digest (bn_EndpointID first)
            (sort_strings (List.map bn_DeviceID bundles)) (sort_strings digests)
            (fold_left (fun newest b => Z.max newest (bn_IssuedAtUnix b)) bundles 0))
  end.

Record Succession : Type := MkSuccession {
  su_Accepted : SetSummary;
  su_Removed : list string;
}.

Definition missingFrom (current next : list string) : list string :=
  List.filter (fun device => negb (bool_decide (device ∈ next))) current.
Definition isSubset (smaller larger : list string) : bool :=
  forallb (fun digest => bool_decide (digest ∈ larger)) smaller.

Definition Succeed (current : SetSummary) (tombstones : list string) (next : list Bundle)
    : result Succession :=
  let* summary := Summarize next in
  refuse negb (String.eqb (ss_EndpointID current) "")
         && negb (String.eqb (ss_EndpointID summary) (ss_EndpointID current))
    with NewError "a device set cannot change whose it is";
  refuse existsb (fun device => bool_decide (device ∈ tombstones)) (ss_DeviceIDs summary)
    with NewError "a revoked device cannot return to the set";
  if String.eqb (ss_Digest current) "" || String.eqb (ss_Digest summary) (ss_Digest current)
  then Ok (MkSuccession summary []) else
  let removed := missingFrom (ss_DeviceIDs current) (ss_DeviceIDs summary) in
  refuse ss_NewestIssuedAtUnix summary <? ss_NewestIssuedAtUnix current with ErrSetRollback;
  if isSubset (ss_BundleDigests summary) (ss_BundleDigests current) then
    refuse Z.of_nat (length removed) =? 0 with NewError "a successor set must change something";
    Ok (MkSuccession summary removed)
  else
    refuse ss_NewestIssuedAtUnix summary =? ss_NewestIssuedAtUnix current with ErrSetEquivocation;
    Ok (MkSuccession summary removed).

(** ** Device-pair sessions *)

Definition DomainDeviceSession : string := "tos.messaging.device-session.v1" +:+ NUL.

Definition DeviceSessionID (deviceA deviceB : string) : result string :=
  refuse negb (ids_Device deviceA) || negb (ids_Device deviceB)
    with NewError "a device session needs two device identifiers";
  refuse String.eqb deviceA deviceB with NewError "a device does not hold a session with itself";
  let '(first, second) := if str_ltb deviceB deviceA then (deviceB, deviceA) else (deviceA, deviceB) in
  let buffer := canon_Text (bytes_of_string DomainDeviceSession) first in
  let buffer := canon_Text buffer second in
  Ok ("ses_" +:+ digest_hex (canon_Digest buffer)).

(** ** The fan-out of one event *)

Record Target : Type := MkTarget {
  tg_DeviceID : string;
  tg_SessionID : string;
  tg_Bootstrap : bool;
  tg_BundleDigest : string;
}.

Record PlanInput : Type := MkPlanInput {
  pi_SenderDeviceID : string;
  pi_SenderSet : list Bundle;
  pi_RecipientSet : list Bundle;
  pi_Now : time;
  pi_SessionExists : option (string -> bool);
}.

Record PlanResult : Type := MkPlanResult {
  pr_Recipients : list Target;
  pr_SelfCopies : list Target;
  pr_Unreachable : list string;
}.

(** [appendTarget] for one bundle: a target, or nothing when the device is
    unreachable. *)
Definition target_for (sender : string) (now : time) (exists_ : string -> bool) (b : Bundle)
    : result (option Target) :=
  let* sessionID := DeviceSessionID sender (bn_DeviceID b) in
  if exists_ sessionID then Ok (Some (MkTarget (bn_DeviceID b) sessionID false "")) else
  if bn_ExpiresAtUnix b <=? now then Ok None else
  let* digest := BundleDigest b in
  Ok (Some (MkTarget (bn_DeviceID b) sessionID true digest)).

Fixpoint targets_for (sender : string) (now : time) (exists_ : string -> bool) (bundles : list Bundle)
    : result (list Target * list string) :=
  match bundles with
  | [] => Ok ([], [])
  | b :: rest =>
      let* target := target_for sender now exists_ b in
      let* others := targets_for sender now exists_ rest in
      Ok (match target with
          | Some t => (t :: others.1, others.2)
          | None => (others.1, bn_DeviceID b :: others.2)
          end)
  end.

Definition target_le (t u : Target) : Prop := str_le (tg_DeviceID t) (tg_DeviceID u).
#[global] Instance target_le_dec t u : Decision (target_le t u).
Proof. unfold target_le. apply _. Defined.

Definition FanOut (input : PlanInput) : result PlanResult :=
  let sender := pi_SenderDeviceID input in
  refuse negb (ids_Device sender) with NewError "a fan-out needs the sending device";
  match pi_SessionExists input with
  | None => Err (NewError "a fan-out needs to know which sessions exist")
  | Some exists_ =>
      refuse time_invalid (pi_Now input) with NewError "invalid fan-out time";
      call ValidateSet (pi_RecipientSet input);
      call ValidateSet (pi_SenderSet input);
      refuse negb (existsb (fun b => String.eqb (bn_DeviceID b) sender) (pi_SenderSet input))
        with NewError "the sending device is not in its own published set";
      let* recipients := targets_for sender (pi_Now input) exists_ (pi_RecipientSet input) in
      let* copies := targets_for sender (pi_Now input) exists_
                       (List.filter (fun b => negb (String.eqb (bn_DeviceID b) sender))
                                    (pi_SenderSet input)) in
      Ok (MkPlanResult (merge_sort target_le recipients.1) (merge_sort target_le copies.1)
            (sort_strings (recipients.2 ++ copies.2)))
  end.

(** ** First contact ([bootstrap.go]) *)

Record FirstContact : Type := MkFirstContact {
  fc_Binding : Binding;
  fc_SenderBundle : Bundle;
  fc_RecipientBundleDigest : string;
  fc_Initial : bytes;
}.

Definition FirstContactSchema : string := "tos.messaging.e2ee.first-contact.v1".
Definition MaxInitialMessageBytes : Z := Z.shiftl 4 10.

Definition ValidateFirstContact (value : FirstContact) : result unit :=
  let b := fc_Binding value in
  let bundle := fc_SenderBundle value in
  call Binding_Bytes b;
  call ValidateBundle bundle true;
  refuse negb (bool_decide (bn_Network bundle = bi_Network b))
         || negb (String.eqb (bn_AgentID bundle) (bi_SenderAgentID b))
         || negb (String.eqb (bn_EndpointID bundle) (bi_SenderEndpointID b))
         || negb (String.eqb (bn_DeviceID bundle) (bi_SenderDeviceID b))
         || negb (String.eqb (bn_AlgorithmID bundle) (bi_AlgorithmID b))
    with NewError "first-contact sender bundle does not match its binding";
  refuse negb (ValidDigest (fc_RecipientBundleDigest value))
    with NewError "invalid first-contact recipient bundle digest";
  refuse (blen (fc_Initial value) =? 0) || (MaxInitialMessageBytes <? blen (fc_Initial value))
    with NewError "invalid first-contact initial message";
  Ok tt.

Definition wireFirstContact : list (string * jkind) :=
  [("schema", JK_String); ("network_id", JK_String); ("genesis_root_hash", JK_String);
   ("genesis_file_hash", JK_String); ("algorithm_id", JK_String); ("conversation_id", JK_String);
   ("sender_agent_id", JK_String); ("sender_messaging_endpoint_id", JK_String);
   ("sender_device_id", JK_String); ("recipient_agent_id", JK_String);
   ("recipient_messaging_endpoint_id", JK_String); ("recipient_device_id", JK_String);
   ("sender_bundle_base64", JK_String); ("sender_bundle_digest", JK_String);
   ("recipient_bundle_digest", JK_String); ("initial_base64", JK_String); ("initial_digest", JK_String)].

Definition first_contact_vals (value : FirstContact) (n : NetworkDomain) (bundleJSON : bytes)
    (bundleDigest : string) : list jval :=
  let b := fc_Binding value in
  [VString FirstContactSchema; VString (nd_NetworkId n); VString (nd_GenesisRootHash n);
   VString (nd_GenesisFileHash n); VString (bi_AlgorithmID b); VString (bi_ConversationID b);
   VString (bi_SenderAgentID b); VString (bi_SenderEndpointID b); VString (bi_SenderDeviceID b);
   VString (bi_RecipientAgentID b); VString (bi_RecipientEndpointID b);
   VString (bi_RecipientDeviceID b); VString (b64_encode bundleJSON); VString bundleDigest;
   VString (fc_RecipientBundleDigest value); VString (b64_encode (fc_Initial value));
   VString (canon_Digest (fc_Initial value))].

Definition EncodeFirstContactJSON (value : FirstContact) : result bytes :=
  call ValidateFirstContact value;
  let* bundleJSON := EncodeBundleJSON (fc_SenderBundle value) in
  let* bundleDigest := BundleDigest (fc_SenderBundle value) in
  let* n := Binding_Validate (fc_Binding value) in
  Ok (marshal_struct no_omit wireFirstContact (first_contact_vals value n bundleJSON bundleDigest)).

Definition DecodeFirstContactJSON (raw : bytes) : result FirstContact :=
  match decode_struct wireFirstContact raw with
  | Decoded
      [VString schema; VString networkID; VString root; VString file; VString algorithm;
       VString conversation; VString senderAgent; VString senderEndpoint; VString senderDevice;
       VString recipientAgent; VString recipientEndpoint; VString recipientDevice;
       VString bundle64; VString wireBundleDigest; VString recipientDigest; VString initial64;
       VString initialDigest] =>
      refuse negb (String.eqb schema FirstContactSchema)
        with NewError "unsupported first-contact bootstrap schema";
      match b64_decode bundle64 with
      | None => Err (NewError "invalid first-contact sender bundle")
      | Some bundleJSON =>
          match DecodeBundleJSON bundleJSON with
          | Err _ => Err (NewError "invalid first-contact sender bundle")
          | Ok bundle =>
              match BundleDigest bundle with
              | Err _ => Err (NewError "first-contact sender bundle digest mismatch")
              | Ok bundleDigest =>
                  refuse negb (String.eqb bundleDigest wireBundleDigest)
                    with NewError "first-contact sender bundle digest mismatch";
                  match b64_decode initial64 with
                  | None => Err (NewError "first-contact initial message digest mismatch")
                  | Some initial =>
                      refuse negb (String.eqb (canon_Digest initial) initialDigest)
                        with NewError "first-contact initial message digest mismatch";
                      let value :=
                        MkFirstContact
                          (MkBinding (Some (MkNetworkDomain networkID root file)) algorithm conversation
                             senderAgent senderEndpoint senderDevice recipientAgent recipientEndpoint
                             recipientDevice)
                          bundle recipientDigest initial in
                      call ValidateFirstContact value;
                      Ok value
                  end
              end
          end
      end
  | Trailing => Err (NewError "first-contact bootstrap has trailing content")
  | _ => Err (NewError "invalid first-contact bootstrap")
  end.

(** ** What validation establishes *)

Lemma network_of_inv m network n :
  network_of m network = Ok n ->
  network = Some n /\ 1 <= slen (nd_NetworkId n) <= 128
  /\ hex64 (nd_GenesisRootHash n) = true /\ hex64 (nd_GenesisFileHash n) = true.
Proof.
  unfold network_of. destruct network as [x|]; [|done]. intros H. inv_ok H. simplify_eq. breflect.
  split_and!; try done; [|lia]. destruct (nd_NetworkId n); [done|]. unfold slen. cbn. lia.
Qed.

Lemma span_str_spec p s a b : span_str p s = (a, b) -> s = a +:+ b /\ sforall p a = true.
Proof.
  revert a b. induction s as [|c s IH]; intros a b H; cbn [span_str] in H; [by simplify_eq|].
  destruct (p c) eqn:Hc; [|by simplify_eq].
  destruct (span_str p s) as [a' b'] eqn:E. simplify_eq. destruct (IH _ _ eq_refl) as [-> Ha].
  split; [done|]. cbn [sforall]. by rewrite Hc.
Qed.

Lemma AlgorithmPattern_inv s : AlgorithmPattern s = true -> slen s <= 64 /\ utf8_string s.
Proof.
  unfold AlgorithmPattern. destruct (strip_prefix _ s) as [rest|] eqn:E1; [|done].
  destruct (span_str _ rest) as [name rest'] eqn:E2. apply span_str_spec in E2 as [-> Hn].
  intros H. apply andb_prop in H as [[_ Hl]%andb_prop H].
  destruct (strip_prefix ".v" rest') as [version|] eqn:E3; [|done].
  apply andb_prop in H as [[_ Hv]%andb_prop Hd].
  apply strip_prefix_Some in E1 as ->. apply strip_prefix_Some in E3 as ->.
  split; [rewrite !slen_app; slen_lit; lia|].
  repeat apply utf8_string_app; try done.
  - eapply sforall_utf8, Hn. intros c. unfold is_lower, is_digit, in_range.
    change (code "z") with 122. change (code "9") with 57.
    destruct (Ascii.eqb_spec c "-"); [subst c; done|]. lia.
  - eapply sforall_utf8, Hd. intros c. unfold is_digit, in_range. change (code "9") with 57. lia.
Qed.

Lemma ValidateAlgorithmID_inv s u : ValidateAlgorithmID s = Ok u -> AlgorithmPattern s = true.
Proof. unfold ValidateAlgorithmID. intros H. inv_ok H. by breflect. Qed.

Definition Bundle_typed (b : Bundle) : Prop := is_u64 (bn_IssuedAtUnix b) /\ is_u64 (bn_ExpiresAtUnix b).

Record valid_bundle (b : Bundle) (n : NetworkDomain) : Prop := {
  vb_network : bn_Network b = Some n;
  vb_domain : network_of "invalid bundle network domain" (bn_Network b) = Ok n;
  vb_agent : ids_Agent (bn_AgentID b) = true;
  vb_endpoint : ids_Endpoint (bn_EndpointID b) = true;
  vb_device : ids_Device (bn_DeviceID b) = true;
  vb_algorithm : AlgorithmPattern (bn_AlgorithmID b) = true;
  vb_material : 0 < blen (bn_Material b) <= 4096;
  vb_window : 0 <> bn_IssuedAtUnix b /\ bn_IssuedAtUnix b < bn_ExpiresAtUnix b;
}.

Lemma ValidateBundle_inv b signed n :
  ValidateBundle b signed = Ok n ->
  valid_bundle b n /\ (signed = true -> blen (bn_EndpointSignature b) = 64).
Proof.
  unfold ValidateBundle. intros H. inv_ok H. apply Ok_inj in H as ->. breflect.
  match goal with E : network_of _ _ = Ok _ |- _ => destruct (network_of_inv _ _ _ E) as (? & _) end.
  match goal with E : ValidateAlgorithmID _ = Ok _ |- _ => apply ValidateAlgorithmID_inv in E end.
  unfold MaxMaterialBytes, SignatureSize in *. change (Z.shiftl 4 10) with 4096 in *.
  split; [constructor; try done; unfold blen in *; lia|].
  intros ->. cbn [andb] in *. breflect. lia.
Qed.

Lemma ValidateBundle_unsigned b n : ValidateBundle b true = Ok n -> ValidateBundle b false = Ok n.
Proof. unfold ValidateBundle. intros H. inv_ok H. by rewrite H. Qed.

Lemma ValidateBundle_with b s : ValidateBundle (with_signature b s) false = ValidateBundle b false.
Proof. done. Qed.

(** ** A bundle's digest binds everything but its signature *)

Definition bundle_fields (b : Bundle) (n : NetworkDomain) : list field :=
  [FText BundleSchema; FText (nd_NetworkId n); FHash32 (nd_GenesisRootHash n);
   FHash32 (nd_GenesisFileHash n); FText (bn_AgentID b); FText (bn_EndpointID b);
   FText (bn_DeviceID b); FText (bn_AlgorithmID b); FBytes (bn_Material b);
   FUint64 (bn_IssuedAtUnix b); FUint64 (bn_ExpiresAtUnix b)].

Lemma BundleSigningBytes_form b n :
  ValidateBundle b false = Ok n ->
  BundleSigningBytes b = Ok (bytes_of_string DomainPrekeyBundle ++ fields_bytes (bundle_fields b n)).
Proof.
  intros HV. destruct (ValidateBundle_inv _ _ _ HV) as [Hv _].
  destruct (network_of_inv _ _ _ (vb_domain _ _ Hv)) as (_ & _ & Hr & Hf).
  unfold BundleSigningBytes. rewrite HV, !canon_Hash32_ok by done. f_equal.
  unfold bundle_fields.
  rewrite !canon_Uint64_app, canon_Bytes_app, !canon_Text_app, !fields_bytes_cons, fields_bytes_nil, app_nil_r.
  by rewrite <- !app_assoc.
Qed.

Lemma BundleDigest_Ok b n : ValidateBundle b false = Ok n -> exists h, BundleDigest b = Ok h.
Proof. intros H. unfold BundleDigest. rewrite (BundleSigningBytes_form b n H). eauto. Qed.

Lemma BundleDigest_valid b h : BundleDigest b = Ok h -> exists n, ValidateBundle b false = Ok n
  /\ h = canon_Digest (bytes_of_string DomainPrekeyBundle ++ fields_bytes (bundle_fields b n)).
Proof.
  unfold BundleDigest. intros H. inv_ok H. apply Ok_inj in H as <-.
  destruct (ValidateBundle b false) as [n|] eqn:HV.
  - exists n. split; [done|]. rewrite (BundleSigningBytes_form _ _ HV) in *. by simplify_eq.
  - unfold BundleSigningBytes in *. by rewrite HV in *.
Qed.

Lemma bundle_fields_wf b n :
  valid_bundle b n -> Bundle_typed b -> Forall field_wf (bundle_fields b n).
Proof.
  intros Hv [Ti Te]. destruct (network_of_inv _ _ _ (vb_domain _ _ Hv)) as (_ & ? & ? & ?).
  pose proof (prefixed_hex64_slen _ _ (vb_agent _ _ Hv)).
  pose proof (prefixed_hex64_slen _ _ (vb_endpoint _ _ Hv)).
  pose proof (prefixed_hex64_slen _ _ (vb_device _ _ Hv)).
  destruct (AlgorithmPattern_inv _ (vb_algorithm _ _ Hv)) as [? _].
  pose proof (vb_material _ _ Hv). slen_lit.
  unfold bundle_fields. rewrite !Forall_cons. cbn [field_wf].
  split_and!; try done; try lia.
Qed.

Definition unsigned (b : Bundle) : Bundle := with_signature b [].

Lemma BundleDigest_inj b c h :
  Bundle_typed b -> Bundle_typed c -> BundleDigest b = Ok h -> BundleDigest c = Ok h ->
  unsigned b = unsigned c \/ sha256_collision.
Proof.
  intros Tb Tc Hb Hc.
  destruct (BundleDigest_valid _ _ Hb) as (n & Vb & Eb). destruct (BundleDigest_valid _ _ Hc) as (m & Vc & Ec).
  destruct (ValidateBundle_inv _ _ _ Vb) as [Wb _]. destruct (ValidateBundle_inv _ _ _ Vc) as [Wc _].
  rewrite Eb in Ec. apply object_digest_inj in Ec as [E|]; [left|by right|done|by apply bundle_fields_wf..].
  pose proof (vb_network _ _ Wb) as Nb. pose proof (vb_network _ _ Wc) as Nc.
  destruct b, c, n, m. cbn in *. unfold unsigned, with_signature, bundle_fields in *. cbn in *. by simplify_eq.
Qed.

(** ** Sets *)

(** What one endpoint's bundles have in common. *)
Definition set_key (b : Bundle) : string * string * option NetworkDomain * string :=
  (bn_EndpointID b, bn_AgentID b, bn_Network b, bn_AlgorithmID b).

Definition coherent_set (bundles : list Bundle) : Prop :=
  bundles <> [] /\ Z.of_nat (length bundles) <= 16
  /\ Forall (fun b => is_ok (ValidateBundle b true) = true) bundles
  /\ (exists k, Forall (fun b => set_key b = k) bundles)
  /\ NoDup (List.map bn_DeviceID bundles).

Lemma is_ok_inv {A} (r : result A) : is_ok r = true <-> exists a, r = Ok a.
Proof. destruct r; split; try done; eauto. by intros [? ?]. Qed.

Lemma validate_members_iff first devices bundles :
  validate_members first devices bundles = Ok tt <->
  Forall (fun b => is_ok (ValidateBundle b true) = true) bundles
  /\ Forall (fun b => set_key b = set_key first) bundles
  /\ NoDup (List.map bn_DeviceID bundles) /\ Forall (fun b => bn_DeviceID b ∉ devices) bundles.
Proof.
  revert devices. induction bundles as [|b l IH]; intros devices; cbn [validate_members List.map].
  { split; [|done]. intros _. split_and!; constructor. }
  rewrite !Forall_cons, NoDup_cons. split.
  - intros H. do 6 inv_ok_step H. apply IH in H as (H1 & H2 & H3 & H4). breflect.
    assert (bn_DeviceID b ∉ List.map bn_DeviceID l) as Hn.
    { intros (c & Hc & Hin)%list_elem_of_fmap. rewrite Forall_forall in H4.
      apply (H4 c Hin). rewrite Hc. left. }
    split_and!; try done; [unfold set_key; congruence|].
    eapply Forall_impl; [exact H4|]. intros c Hc Hin. apply Hc. by right.
  - intros ([(n & Hb)%is_ok_inv H1] & [Hk H2] & [Hn H3] & [Hd H4]). unfold set_key in Hk.
    injection Hk as K1 K2 K3 K4. rewrite Hb, K1, K2, K3, K4, !String.eqb_refl. cbn [negb].
    rewrite !(bool_decide_true (bn_Network first = _)), (bool_decide_false (bn_DeviceID b ∈ devices)) by done.
    cbn [negb]. apply IH. split_and!; try done.
    apply Forall_forall. intros c Hc [Hin|Hin]%elem_of_cons.
    + apply Hn. apply list_elem_of_fmap. by exists c.
    + rewrite Forall_forall in H4. by apply (H4 c).
Qed.

Lemma ValidateSet_iff bundles : ValidateSet bundles = Ok tt <-> coherent_set bundles.
Proof.
  unfold ValidateSet, coherent_set, MaxDevicesPerSet. destruct bundles as [|first l]; [by split; [|intros [? _]]|].
  split.
  - intros H. inv_ok_step H. apply validate_members_iff in H as (H1 & H2 & H3 & _).
    split_and!; [done|lia|done|by exists (set_key first)|done].
  - intros (_ & Hl & H1 & [k H2] & H3). rewrite (proj2 (Z.ltb_ge _ _)) by lia.
    apply validate_members_iff. split_and!; [done| |done|].
    + apply Forall_cons in H2 as [<- H2]. by apply Forall_cons.
    + apply Forall_forall. intros c _. apply not_elem_of_nil.
Qed.

Lemma coherent_set_perm bs bs' : bs ≡ₚ bs' -> coherent_set bs -> coherent_set bs'.
Proof.
  intros HP (Hn & Hl & H1 & [k H2] & H3). split_and!.
  - intros ->. by apply Permutation_nil_r in HP.
  - by rewrite <- HP.
  - by rewrite <- HP.
  - exists k. by rewrite <- HP.
  - change (NoDup (bn_DeviceID <$> bs')). by rewrite <- HP.
Qed.

Lemma bundle_digests_Forall2 bs ds :
  bundle_digests bs = Ok ds <-> Forall2 (fun b d => BundleDigest b = Ok d) bs ds.
Proof.
  revert ds. induction bs as [|b bs IH]; intros ds; cbn [bundle_digests].
  - split; [intros [= <-]; constructor|]. by intros ->%Forall2_nil_inv_l.
  - split.
    + intros H. inv_ok H. apply Ok_inj in H as <-. apply Forall2_cons. split; [done|]. by apply IH.
    + intros (d & ds' & Hd & HF & ->)%Forall2_cons_inv_l. apply IH in HF. by rewrite Hd, HF.
Qed.

Lemma coherent_digests bs : coherent_set bs -> exists ds, bundle_digests bs = Ok ds.
Proof.
  intros (_ & _ & H & _). induction H as [|b bs (n & Hb)%is_ok_inv H [ds IH]]; [by exists []|].
  destruct (BundleDigest_Ok b n (ValidateBundle_unsigned _ _ Hb)) as [d Hd].
  exists (d :: ds). cbn [bundle_digests]. by rewrite Hd, IH.
Qed.

Definition set_preimage (ds : list string) : bytes :=
  bytes_of_string DomainPrekeyBundleSet
  ++ fields_bytes (FUint32 (u32 (Z.of_nat (length ds))) :: (FText <$> sort_strings ds)).

Lemma SetDigest_form bs h :
  SetDigest bs = Ok h <->
  coherent_set bs /\ exists ds, bundle_digests bs = Ok ds /\ h = canon_Digest (set_preimage ds).
Proof.
  unfold SetDigest, SetCanonicalBytes. rewrite <- ValidateSet_iff.
  assert (forall ds, fold_left canon_Text (sort_strings ds)
    (canon_Uint32 (bytes_of_string DomainPrekeyBundleSet) (u32 (Z.of_nat (length (sort_strings ds)))))
    = set_preimage ds) as Hf.
  { intros ds. rewrite fold_Text, canon_Uint32_app, <- app_assoc.
    unfold set_preimage. rewrite fields_bytes_cons.
    by rewrite (Permutation_length (sort_strings_perm ds)). }
  split.
  - intros H. inv_ok H. apply Ok_inj in H as <-.
    match goal with E : _ = Ok _ |- _ => inv_ok E; apply Ok_inj in E as <- end.
    repeat match goal with u : unit |- _ => destruct u end.
    split; [done|]. eexists. split; [done|]. by rewrite Hf.
  - intros [-> (ds & -> & ->)]. by rewrite Hf.
Qed.

Lemma slen_BundleDigest b d : BundleDigest b = Ok d -> slen d = 71.
Proof. intros (n & _ & ->)%BundleDigest_valid. apply slen_canon_Digest. Qed.

Lemma digests_short bs ds :
  coherent_set bs -> bundle_digests bs = Ok ds ->
  length ds = length bs /\ Forall (fun d => slen d = 71) (sort_strings ds) /\ Z.of_nat (length ds) <= 64.
Proof.
  intros (_ & Hl & _) H. apply bundle_digests_Forall2 in H.
  pose proof (Forall2_length _ _ _ H) as E. split_and!; [done| |lia].
  rewrite sort_strings_perm. apply Forall_forall. intros d (i & Hi)%list_elem_of_lookup.
  destruct (Forall2_lookup_r _ _ _ _ _ H Hi) as (b & _ & Hb). by eapply slen_BundleDigest.
Qed.

Lemma set_preimage_inj bs bs' ds ds' :
  coherent_set bs -> coherent_set bs' -> bundle_digests bs = Ok ds -> bundle_digests bs' = Ok ds' ->
  set_preimage ds = set_preimage ds' -> ds ≡ₚ ds'.
Proof.
  intros Hc Hc' Hd Hd' E. destruct (digests_short _ _ Hc Hd) as (_ & S & L).
  destruct (digests_short _ _ Hc' Hd') as (_ & S' & L').
  unfold set_preimage in E. apply app_inv_head in E. rewrite !fields_bytes_cons in E.
  apply field_bytes_inj in E as [Ec E]; [|split; apply u32_range].
  injection Ec as Ec. apply u32_count_inj in Ec; [|lia..].
  rewrite <- (app_nil_r (fields_bytes _)), <- (app_nil_r (fields_bytes (FText <$> sort_strings ds'))) in E.
  apply fields_bytes_inj in E as [E _].
  - apply (inj (fmap FText)) in E. by rewrite <- (sort_strings_perm ds), <- (sort_strings_perm ds'), E.
  - apply (fmap_same_kind _ (fun d => slen d = 71)); [| |done..].
    2:{ by rewrite !(Permutation_length (sort_strings_perm _)). }
    intros x y Hx Hy. cbn. lia.
Qed.

(** Equal digest lists of typed bundles come from equal bundles. *)
Lemma digests_inj bs bs' ds :
  Forall Bundle_typed bs -> Forall Bundle_typed bs' ->
  bundle_digests bs = Ok ds -> bundle_digests bs' = Ok ds ->
  List.map unsigned bs = List.map unsigned bs' \/ sha256_collision.
Proof.
  intros T T' H H'. apply bundle_digests_Forall2 in H, H'. revert bs' T' H'.
  induction H as [|b d bs ds Hb H IH]; intros bs' T' H'.
  - apply Forall2_nil_inv_r in H' as ->. by left.
  - apply Forall2_cons_inv_r in H' as (b' & l' & Hb' & H' & ->).
    apply Forall_cons in T as [Tb T]. apply Forall_cons in T' as [Tb' T'].
    destruct (BundleDigest_inj _ _ _ Tb Tb' Hb Hb') as [E|]; [|by right].
    destruct (IH T _ T' H') as [E'|]; [|by right]. left. cbn. by rewrite E, E'.
Qed.

Lemma bundle_digests_perm bs ds ds' :
  bundle_digests bs = Ok ds -> ds ≡ₚ ds' -> exists bs', bs ≡ₚ bs' /\ bundle_digests bs' = Ok ds'.
Proof.
  intros H HP. apply bundle_digests_Forall2 in H.
  apply Forall2_flip in H. destruct (Permutation_Forall2 HP H) as (bs' & HP' & H').
  exists bs'. split; [done|]. apply bundle_digests_Forall2. by apply Forall2_flip.
Qed.

Lemma digests_unsigned bs ds : bundle_digests bs = Ok ds -> bundle_digests (List.map unsigned bs) = Ok ds.
Proof.
  rewrite !bundle_digests_Forall2. intros H. induction H; cbn; [constructor|]. by apply Forall2_cons.
Qed.

Lemma sort_strings_unique l l' : l ≡ₚ l' -> sort_strings l = sort_strings l'.
Proof.
  intros HP. apply (Sorted_unique str_le); [apply sort_strings_sorted..|].
  by rewrite !sort_strings_perm.
Qed.

Lemma set_preimage_perm ds ds' : ds ≡ₚ ds' -> set_preimage ds = set_preimage ds'.
Proof.
  intros HP. unfold set_preimage. by rewrite (Permutation_length HP), (sort_strings_unique _ _ HP).
Qed.

Lemma bundle_digests_unsigned bs ds :
  bundle_digests (List.map unsigned bs) = Ok ds -> bundle_digests bs = Ok ds.
Proof.
  rewrite !bundle_digests_Forall2. revert ds. induction bs as [|b bs IH]; intros ds H; cbn in *.
  - by apply Forall2_nil_inv_l in H as ->.
  - apply Forall2_cons_inv_l in H as (d & l & Hd & H & ->). apply Forall2_cons. split; [done|by apply IH].
Qed.

Lemma bundle_digests_perm_l bs bs' ds :
  bundle_digests bs = Ok ds -> bs ≡ₚ bs' -> exists ds', ds ≡ₚ ds' /\ bundle_digests bs' = Ok ds'.
Proof.
  intros H HP. apply bundle_digests_Forall2 in H.
  destruct (Permutation_Forall2 HP H) as (ds' & HP' & H'). exists ds'. split; [done|].
  by apply bundle_digests_Forall2.
Qed.


(** The identifier as a digest of the pair in order, and its symmetry. *)
Lemma DeviceSessionID_form x y s :
  DeviceSessionID x y = Ok s -> exists u v,
    ((u = x /\ v = y) \/ (u = y /\ v = x)) /\ slen u = 68 /\ slen v = 68
    /\ DeviceSessionID y x = Ok s
    /\ s = "ses_" +:+ digest_hex (canon_Digest (bytes_of_string DomainDeviceSession
             ++ fields_bytes [FText u; FText v])).
Proof.
  intros H. unfold DeviceSessionID in *. inv_ok H. breflect.
  match goal with E : ids_Device x = true |- _ => pose proof (prefixed_hex64_slen _ _ E) as Lx; rewrite E end.
  match goal with E : ids_Device y = true |- _ => pose proof (prefixed_hex64_slen _ _ E) as Ly; rewrite E end.
  slen_lit. cbn [negb orb].
  match goal with E : x <> y |- _ => rewrite (proj2 (String.eqb_neq y x)) by congruence end.
  assert (str_ltb x y = negb (str_ltb y x)) as Hlt.
  { unfold str_ltb. rewrite (String.compare_antisym y x).
    destruct (String.compare x y) eqn:Ec; 
      [apply String.compare_eq_iff in Ec; congruence|reflexivity|reflexivity]. }
  match goal with E : _ = (_, _) |- _ => rename E into Ep end.
  destruct (str_ltb y x) eqn:El; injection Ep as <- <-.
  - exists y, x. split_and!; [by right|lia|lia| |].
    + rewrite Hlt. cbn [negb]. exact H.
    + apply Ok_inj in H as <-. by rewrite !canon_Text_app, !fields_bytes_cons, fields_bytes_nil, app_nil_r, <- app_assoc.
  - exists x, y. split_and!; [by left|lia|lia| |].
    + rewrite Hlt. cbn [negb]. exact H.
    + apply Ok_inj in H as <-. by rewrite !canon_Text_app, !fields_bytes_cons, fields_bytes_nil, app_nil_r, <- app_assoc.
Qed.

(** the two ends of a device pair compute the same session identifier
    without talking to each other, and no other pair of devices computes it,
    short of a SHA-256 collision. *)
Theorem device_session_binds a b c d s :
  DeviceSessionID a b = Ok s -> DeviceSessionID c d = Ok s ->
  DeviceSessionID b a = Ok s /\ ids_Session s = true
  /\ ((a = c /\ b = d) \/ (a = d /\ b = c) \/ sha256_collision).
Proof.
  intros H1 H2. destruct (DeviceSessionID_form _ _ _ H1) as (u & v & Huv & Lu & Lv & Hsym & Es).
  destruct (DeviceSessionID_form _ _ _ H2) as (u' & v' & Huv' & Lu' & Lv' & _ & Es').
  split; [done|]. split.
  { rewrite Es. unfold ids_Session, prefixed_hex64. rewrite strip_prefix_app, digest_hex_Digest.
    apply hex64_encode, length_sha256. }
  rewrite Es in Es'. apply string_app_inj_l, digest_hex_inj in Es'.
  apply object_digest_inj in Es' as [E|]; [|by auto|done|..].
  - injection E as -> ->. destruct Huv as [[-> ->]|[-> ->]], Huv' as [[-> ->]|[-> ->]]; auto.
  - rewrite !Forall_cons. cbn [field_wf]. split_and!; [lia|lia|constructor].
  - rewrite !Forall_cons. cbn [field_wf]. split_and!; [lia|lia|constructor].
Qed.

(** ** JSON round trips *)

Lemma code_ascii_of_N n : (n < 128)%N -> code (ascii_of_N n) < 128.
Proof. intros H. unfold code. rewrite N_ascii_embedding by lia. lia. Qed.

Lemma b64char_ascii v : code (b64char v) < 128.
Proof.
  unfold b64char. destruct (Z.ltb_spec v 26); [apply code_ascii_of_N; lia|].
  destruct (Z.ltb_spec v 52); [apply code_ascii_of_N; lia|].
  destruct (Z.ltb_spec v 62); [apply code_ascii_of_N; lia|]. by destruct (v =? 62).
Qed.

Lemma b64_encode_ascii b : Forall (fun c => code c < 128) (b64_encode_list b).
Proof.
  enough (forall n b, (length b <= n)%nat -> Forall (fun c => code c < 128) (b64_encode_list b)) by eauto.
  clear b. induction n as [|n IH]; intros b Hn; [by destruct b; [constructor|simpl in Hn; lia]|].
  destruct b as [|x [|y [|z b]]]; cbn [b64_encode_list]; rewrite ?Forall_cons;
    split_and?; try apply b64char_ascii; try done; try constructor.
  apply IH. simpl in Hn. lia.
Qed.

Lemma utf8_b64 b : utf8_string (b64_encode b).
Proof.
  apply (sforall_utf8 (fun c => code c <? 128)); [intros c; lia|]. unfold b64_encode.
  induction (b64_encode_ascii b) as [|c l Hc _ IH]; [done|]. cbn [string_of_list_ascii sforall].
  by rewrite (proj2 (Z.ltb_lt _ _)).
Qed.

Lemma utf8_canon_Digest p : utf8_string (canon_Digest p).
Proof. eapply (utf8_prefixed_hex "sha256:"); [done|]. apply canon_Digest_pattern. Qed.

Create HintDb utf8.
#[export] Hint Resolve utf8_hex64 utf8_hex_encode utf8_b64 utf8_canon_Digest utf8_ValidDigest : utf8.

Lemma wireBundle_kinded b n :
  valid_bundle b n -> Bundle_typed b -> utf8_string (nd_NetworkId n) ->
  well_kinded wireBundle (bundle_vals b n).
Proof.
  intros Hv [Ti Te] Hu. destruct (network_of_inv _ _ _ (vb_domain _ _ Hv)) as (_ & _ & Hr & Hf).
  split; [|split].
  - apply (bool_decide_unpack _). by vm_compute.
  - repeat constructor.
  - unfold wireBundle, bundle_vals.
    repeat (apply Forall2_cons; split; [cbn [has_kind snd]|]); try done; auto with utf8.
    + eapply (utf8_prefixed_hex "agent_"), (vb_agent _ _ Hv). done.
    + eapply (utf8_prefixed_hex "mep_"), (vb_endpoint _ _ Hv). done.
    + eapply (utf8_prefixed_hex "dev_"), (vb_device _ _ Hv). done.
    + apply AlgorithmPattern_inv, (vb_algorithm _ _ Hv).
Qed.

Lemma bundle_of_vals_roundtrip b n :
  ValidateBundle b true = Ok n -> bundle_of_vals (bundle_vals b n) = Ok b.
Proof.
  intros HV. destruct (ValidateBundle_inv _ _ _ HV) as [Hv Hs]. unfold bundle_of_vals, bundle_vals.
  rewrite String.eqb_refl. cbn [negb]. rewrite b64_decode_encode, hex_decode_encode, (Hs eq_refl).
  change (64 =? SignatureSize) with true. cbn [negb].
  assert (MkBundle (Some (MkNetworkDomain (nd_NetworkId n) (nd_GenesisRootHash n) (nd_GenesisFileHash n)))
    (bn_AgentID b) (bn_EndpointID b) (bn_DeviceID b) (bn_AlgorithmID b) (bn_Material b)
    (bn_IssuedAtUnix b) (bn_ExpiresAtUnix b) (bn_EndpointSignature b) = b) as ->.
  { pose proof (vb_network _ _ Hv). destruct b, n. cbn in *. by subst. }
  by rewrite HV.
Qed.

Lemma bundle_json_roundtrip b n raw :
  Bundle_typed b -> bn_Network b = Some n -> utf8_string (nd_NetworkId n) ->
  EncodeBundleJSON b = Ok raw -> DecodeBundleJSON raw = Ok b.
Proof.
  intros Tb Hn Hu HE. unfold EncodeBundleJSON, bundle_tree in HE.
  destruct (ValidateBundle b true) as [m|] eqn:HV; [|done]. apply Ok_inj in HE as <-.
  destruct (ValidateBundle_inv _ _ _ HV) as [Hv _].
  assert (m = n) as -> by (pose proof (vb_network _ _ Hv); congruence).
  unfold DecodeBundleJSON. fold (marshal_struct no_omit wireBundle (bundle_vals b n)).
  rewrite struct_roundtrip by (by apply wireBundle_kinded). by apply bundle_of_vals_roundtrip.
Qed.

Lemma EncodeBundleJSON_Ok b n : ValidateBundle b true = Ok n ->
  EncodeBundleJSON b = Ok (marshal_struct no_omit wireBundle (bundle_vals b n)).
Proof. unfold EncodeBundleJSON, bundle_tree. by intros ->. Qed.

Record valid_binding (b : Binding) (n : NetworkDomain) : Prop := {
  vi_network : bi_Network b = Some n;
  vi_hashes : hex64 (nd_GenesisRootHash n) = true /\ hex64 (nd_GenesisFileHash n) = true;
  vi_algorithm : AlgorithmPattern (bi_AlgorithmID b) = true;
  vi_conversation : ids_Conversation (bi_ConversationID b) = true;
  vi_sender : ids_Agent (bi_SenderAgentID b) = true /\ ids_Endpoint (bi_SenderEndpointID b) = true
              /\ ids_Device (bi_SenderDeviceID b) = true;
  vi_recipient : ids_Agent (bi_RecipientAgentID b) = true /\ ids_Endpoint (bi_RecipientEndpointID b) = true
                 /\ ids_Device (bi_RecipientDeviceID b) = true;
  vi_distinct : bi_SenderDeviceID b <> bi_RecipientDeviceID b;
}.

Lemma Binding_Validate_inv b n : Binding_Validate b = Ok n -> valid_binding b n.
Proof.
  unfold Binding_Validate. intros H. inv_ok H. apply Ok_inj in H as ->. breflect.
  match goal with E : network_of _ _ = Ok _ |- _ => destruct (network_of_inv _ _ _ E) as (? & _ & ? & ?) end.
  match goal with E : ValidateAlgorithmID _ = Ok _ |- _ => apply ValidateAlgorithmID_inv in E end.
  by constructor.
Qed.

Lemma Binding_Bytes_Validate b p : Binding_Bytes b = Ok p -> exists n, Binding_Validate b = Ok n.
Proof. unfold Binding_Bytes. destruct (Binding_Validate b) as [n|]; [by exists n|done]. Qed.

Lemma wireFirstContact_kinded value n raw h :
  valid_binding (fc_Binding value) n -> utf8_string (nd_NetworkId n) -> utf8_string h ->
  ValidDigest (fc_RecipientBundleDigest value) = true ->
  well_kinded wireFirstContact (first_contact_vals value n raw h).
Proof.
  intros Hv Hu Hh Hd. destruct (vi_hashes _ _ Hv) as [Hr Hf].
  destruct (vi_sender _ _ Hv) as (S1 & S2 & S3). destruct (vi_recipient _ _ Hv) as (R1 & R2 & R3).
  assert (forall p s, utf8_string p -> prefixed_hex64 p s = true -> utf8_string s) as Hp
    by (intros; by eapply utf8_prefixed_hex).
  split; [|split].
  - apply (bool_decide_unpack _). by vm_compute.
  - repeat constructor.
  - unfold wireFirstContact, first_contact_vals.
    repeat (apply Forall2_cons; split; [cbn [has_kind snd]|]); try done; auto with utf8.
    + apply AlgorithmPattern_inv, (vi_algorithm _ _ Hv).
    + by eapply (Hp "conv_"), (vi_conversation _ _ Hv).
    + by eapply (Hp "agent_").
    + by eapply (Hp "mep_").
    + by eapply (Hp "dev_").
    + by eapply (Hp "agent_").
    + by eapply (Hp "mep_").
    + by eapply (Hp "dev_").
Qed.

Lemma first_contact_json value n raw :
  Bundle_typed (fc_SenderBundle value) -> bi_Network (fc_Binding value) = Some n ->
  utf8_string (nd_NetworkId n) ->
  EncodeFirstContactJSON value = Ok raw -> DecodeFirstContactJSON raw = Ok value.
Proof.
  intros Tb Hn Hu HE. unfold EncodeFirstContactJSON in HE.
  destruct (ValidateFirstContact value) as [[]|] eqn:HF; [|done].
  pose proof HF as HF'. unfold ValidateFirstContact in HF'. do 4 inv_ok_step HF'. clear HF'. breflect.
  match goal with E : Binding_Bytes _ = Ok _ |- _ => destruct (Binding_Bytes_Validate _ _ E) as [m HB] end.
  match goal with E : ValidateBundle _ _ = Ok ?x |- _ => rename E into HV, x into k end.
  pose proof (Binding_Validate_inv _ _ HB) as Hvb.
  assert (m = n) as -> by (pose proof (vi_network _ _ Hvb); congruence).
  destruct (ValidateBundle_inv _ _ _ HV) as [Hv _].
  assert (k = n) as -> by (pose proof (vb_network _ _ Hv); congruence).
  destruct (BundleDigest_Ok _ n (ValidateBundle_unsigned _ _ HV)) as [h Hh].
  rewrite (EncodeBundleJSON_Ok _ _ HV), Hh, HB in HE. apply Ok_inj in HE as <-.
  pose proof (BundleDigest_valid _ _ Hh) as (? & _ & Eh).
  unfold DecodeFirstContactJSON.
  rewrite struct_roundtrip by (apply wireFirstContact_kinded; try done; rewrite Eh; auto with utf8).
  unfold first_contact_vals. rewrite !String.eqb_refl. cbn [negb]. rewrite !b64_decode_encode.
  rewrite (bundle_json_roundtrip (fc_SenderBundle value) n); [| done | congruence | done |
    by apply EncodeBundleJSON_Ok].
  rewrite Hh, !String.eqb_refl. cbn [negb].
  assert (MkFirstContact (MkBinding (Some (MkNetworkDomain (nd_NetworkId n) (nd_GenesisRootHash n)
    (nd_GenesisFileHash n))) (bi_AlgorithmID (fc_Binding value)) (bi_ConversationID (fc_Binding value))
    (bi_SenderAgentID (fc_Binding value)) (bi_SenderEndpointID (fc_Binding value))
    (bi_SenderDeviceID (fc_Binding value)) (bi_RecipientAgentID (fc_Binding value))
    (bi_RecipientEndpointID (fc_Binding value)) (bi_RecipientDeviceID (fc_Binding value)))
    (fc_SenderBundle value) (fc_RecipientBundleDigest value) (fc_Initial value) = value) as ->.
  { destruct value as [[] ? ? ?], n. cbn in *. by subst. }
  by rewrite HF.
Qed.

(** first-contact evidence survives its wire form: what was encoded decodes
    to the same binding, bundle, recipient digest and initial message, with every
    digest and identity relation checked again on the way in. *)
Theorem first_contact_roundtrip value n raw :
  Bundle_typed (fc_SenderBundle value) -> bi_Network (fc_Binding value) = Some n ->
  utf8_string (nd_NetworkId n) ->
  EncodeFirstContactJSON value = Ok raw -> DecodeFirstContactJSON raw = Ok value.
Proof. apply first_contact_json. Qed.

Lemma bundle_trees_roundtrip bs trees :
  Forall (fun b => Bundle_typed b /\ forall n, bn_Network b = Some n -> utf8_string (nd_NetworkId n)) bs ->
  bundle_trees bs = Ok trees ->
  bundles_of_trees trees = Ok bs /\ length trees = length bs
  /\ Forall (fun v => printable v /\ vdepth v <= maxNestingDepth - 2) trees.
Proof.
  intros H. revert trees. induction H as [|b bs [Tb Hu] H IH]; intros trees HE; cbn [bundle_trees] in HE.
  - apply Ok_inj in HE as <-. split_and!; [done|done|constructor].
  - inv_ok HE. apply Ok_inj in HE as <-.
    destruct (IH _ eq_refl) as (Hd & Hl & HF).
    match goal with E : bundle_tree b = Ok _ |- _ => rename E into HB end.
    unfold bundle_tree in HB. destruct (ValidateBundle b true) as [n|] eqn:HV; [|done].
    apply Ok_inj in HB as <-.
    destruct (ValidateBundle_inv _ _ _ HV) as [Hv _].
    pose proof (wireBundle_kinded b _ Hv Tb (Hu _ (vb_network _ _ Hv))) as HK.
    split_and!; [|cbn; by rewrite Hl|apply Forall_cons; split; [|done]].
    + cbn [bundles_of_trees]. unfold bundle_of_tree.
      rewrite decode_tree_struct by done. by rewrite bundle_of_vals_roundtrip, Hd.
    + split; [by apply printable_struct|].
      unfold maxNestingDepth. vm_compute. by intros ?.
Qed.

Lemma bundle_set_json_roundtrip bs raw :
  Forall (fun b => Bundle_typed b /\ forall n, bn_Network b = Some n -> utf8_string (nd_NetworkId n)) bs ->
  EncodeBundleSetJSON bs = Ok raw -> DecodeBundleSetJSON raw = Ok bs.
Proof.
  intros HT HE. unfold EncodeBundleSetJSON in HE. do 3 inv_ok_step HE. apply Ok_inj in HE as <-.
  match goal with E : ValidateSet bs = Ok ?u |- _ => destruct u; rename E into HS end.
  match goal with E : bundle_trees bs = Ok ?l |- _ => rename l into trees;
    destruct (bundle_trees_roundtrip _ _ HT E) as (Hd & Hl & HF) end.
  pose proof (proj1 (ValidateSet_iff bs) HS) as (Hne & Hlen & _).
  assert (length bs <> 0)%nat by (by destruct bs).
  unfold DecodeBundleSetJSON. rewrite struct_roundtrip.
  2:{ split; [|split]; [apply (bool_decide_unpack _); by vm_compute|repeat constructor|].
      repeat (apply Forall2_cons; split); [done|exact HF|constructor]. }
  match goal with E : (_ <? blen ?r) = false |- _ =>
    assert ((blen r =? 0) = false) as -> by (apply Z.eqb_neq; unfold marshal_struct, print_value, blen; cbn; lia);
    rewrite E end.
  cbn [orb]. rewrite String.eqb_refl. cbn [negb]. unfold MaxDevicesPerSet.
  rewrite (proj2 (Z.eqb_neq _ _)), (proj2 (Z.ltb_ge _ _)) by lia. cbn [orb]. by rewrite Hd, HS.
Qed.

(** ** Succession *)

Lemma missingFrom_elem current next d : d ∈ missingFrom current next <-> d ∈ current /\ d ∉ next.
Proof.
  unfold missingFrom. rewrite list_elem_of_In, filter_In, <- list_elem_of_In.
  rewrite negb_true_iff, bool_decide_eq_false. done.
Qed.

(** What an accepted succession guarantees about the set that replaces another. *)
Record sound_succession (current : SetSummary) (tombstones : list string) (s : Succession) : Prop := {
  sc_fresh : Forall (fun device => device ∉ tombstones) (ss_DeviceIDs (su_Accepted s));
  sc_owner : ss_EndpointID current = "" \/ ss_EndpointID (su_Accepted s) = ss_EndpointID current;
  sc_replaces :
    ss_Digest current <> "" -> ss_Digest (su_Accepted s) <> ss_Digest current ->
    ss_NewestIssuedAtUnix current <= ss_NewestIssuedAtUnix (su_Accepted s)
    /\ su_Removed s = missingFrom (ss_DeviceIDs current) (ss_DeviceIDs (su_Accepted s))
    /\ (ss_NewestIssuedAtUnix (su_Accepted s) = ss_NewestIssuedAtUnix current ->
        (forall h, h ∈ ss_BundleDigests (su_Accepted s) -> h ∈ ss_BundleDigests current)
        /\ su_Removed s <> []);
  sc_first : ss_Digest current = "" \/ ss_Digest (su_Accepted s) = ss_Digest current -> su_Removed s = [];
}.

Lemma Succeed_sound current tombstones next s :
  Succeed current tombstones next = Ok s ->
  Summarize next = Ok (su_Accepted s) /\ sound_succession current tombstones s.
Proof.
  unfold Succeed. intros H. inv_ok_step H. rename a into summary. do 2 inv_ok_step H.
  match goal with E : existsb _ _ = false |- _ => apply existsb_false in E; rename E into HT end.
  assert (Forall (fun device => device ∉ tombstones) (ss_DeviceIDs summary)) as HT'.
  { eapply Forall_impl; [exact HT|]. intros d Hd. by apply bool_decide_eq_false in Hd. }
  assert (ss_EndpointID current = "" \/ ss_EndpointID summary = ss_EndpointID current) as HO.
  { match goal with E : _ && _ = false |- _ => apply andb_false_elim in E as [E|E] end; breflect; auto. }
  destruct (String.eqb (ss_Digest current) "" || String.eqb (ss_Digest summary) (ss_Digest current)) eqn:Hd.
  { apply Ok_inj in H as <-. split; [done|]. constructor; cbn; try done.
    intros N1 N2. apply orb_true_iff in Hd as [Hd|Hd]; breflect; done. }
  apply orb_false_elim in Hd as [N1 N2]. breflect. inv_ok_step H.
  destruct (isSubset (ss_BundleDigests summary) (ss_BundleDigests current)) eqn:Hs.
  - inv_ok_step H. apply Ok_inj in H as <-. split; [done|]. constructor; cbn [su_Accepted su_Removed]; try done.
    2:{ by intros [?|?]. }
    intros _ _. split_and!; [lia|done|]. intros _. split.
    + intros h Hh. unfold isSubset in Hs. rewrite forallb_forall in Hs.
      apply list_elem_of_In in Hh. apply Hs in Hh. by apply bool_decide_eq_true in Hh.
    + intros E. rewrite E in *. done.
  - inv_ok_step H. apply Ok_inj in H as <-. split; [done|]. constructor; cbn [su_Accepted su_Removed]; try done.
    2:{ by intros [?|?]. }
    intros _ _. split_and!; [lia|done|]. intros E. lia.
Qed.

Lemma Summarize_inv bs s :
  Summarize bs = Ok s ->
  coherent_set bs /\ SetDigest bs = Ok (ss_Digest s) /\ slen (ss_Digest s) = 71
  /\ ss_DeviceIDs s ≡ₚ List.map bn_DeviceID bs
  /\ Forall (fun b => bn_EndpointID b = ss_EndpointID s) bs
  /\ Forall (fun b => bn_IssuedAtUnix b <= ss_NewestIssuedAtUnix s) bs.
Proof.
  unfold Summarize. intros H. do 3 inv_ok_step H. destruct bs as [|first l] eqn:Eb; [done|].
  rewrite <- Eb in *. apply Ok_inj in H as <-. cbn.
  match goal with E : ValidateSet bs = Ok ?u |- _ => destruct u; apply ValidateSet_iff in E as Hc end.
  split_and!; [done|done| |apply sort_strings_perm| |].
  - match goal with E : SetDigest bs = Ok _ |- _ => apply SetDigest_form in E as (_ & ds & _ & ->) end.
    apply slen_canon_Digest.
  - destruct Hc as (_ & _ & _ & [k Hk] & _). rewrite Eb in Hk |- *. apply Forall_cons in Hk as [<- Hk].
    apply Forall_cons. split; [done|]. eapply Forall_impl; [exact Hk|]. unfold set_key. by intros b [= -> _ _ _].
  - clear. generalize 0. induction bs as [|b bs IH]; intros z; [constructor|]. cbn [fold_left].
    apply Forall_cons. split; [|apply IH]. clear IH.
    assert (forall m, m <= fold_left (fun newest b => Z.max newest (bn_IssuedAtUnix b)) bs m) as Hm.
    { induction bs as [|c bs IH]; intros m; [done|]. cbn [fold_left].
      etransitivity; [|apply IH]. lia. }
    specialize (Hm (Z.max z (bn_IssuedAtUnix b))). lia.
Qed.

(** ** Fan-out *)

(** Why a device is in its place in the plan. *)
Definition planned (sender : string) (now : time) (exists_ : string -> bool) (bundles : list Bundle)
    (t : Target) : Prop :=
  exists b, b ∈ bundles /\ bn_DeviceID b = tg_DeviceID t
    /\ DeviceSessionID sender (tg_DeviceID t) = Ok (tg_SessionID t)
    /\ tg_Bootstrap t = negb (exists_ (tg_SessionID t))
    /\ (tg_Bootstrap t = true -> now < bn_ExpiresAtUnix b /\ BundleDigest b = Ok (tg_BundleDigest t)).
Definition cut_off (sender : string) (now : time) (exists_ : string -> bool) (bundles : list Bundle)
    (device : string) : Prop :=
  exists b s, b ∈ bundles /\ bn_DeviceID b = device /\ DeviceSessionID sender device = Ok s
    /\ exists_ s = false /\ bn_ExpiresAtUnix b <= now.

Lemma planned_mono sender now exists_ l l' t :
  (forall b, b ∈ l -> b ∈ l') -> planned sender now exists_ l t -> planned sender now exists_ l' t.
Proof. intros Hl (b & Hb & H). exists b. auto. Qed.
Lemma cut_off_mono sender now exists_ l l' d :
  (forall b, b ∈ l -> b ∈ l') -> cut_off sender now exists_ l d -> cut_off sender now exists_ l' d.
Proof. intros Hl (b & s & Hb & H). exists b, s. auto. Qed.

Lemma targets_for_spec sender now exists_ bundles ts us :
  targets_for sender now exists_ bundles = Ok (ts, us) ->
  List.map tg_DeviceID ts ++ us ≡ₚ List.map bn_DeviceID bundles
  /\ Forall (planned sender now exists_ bundles) ts /\ Forall (cut_off sender now exists_ bundles) us.
Proof.
  revert ts us. induction bundles as [|b bundles IH]; intros ts us H; cbn [targets_for] in H.
  { injection H as <- <-. split_and!; [done|constructor..]. }
  do 2 inv_ok_step H. destruct a0 as [ts' us'].
  destruct (IH _ _ eq_refl) as (HP & HT & HU).
  assert (forall c, c ∈ bundles -> c ∈ b :: bundles) as Hin by (intros c Hc; by right).
  match goal with E : target_for _ _ _ _ = _ |- _ => rename E into Ht end.
  unfold target_for in Ht. inv_ok_step Ht. rename a0 into session.
  destruct (exists_ session) eqn:He.
  - apply Ok_inj in Ht as <-. injection H as <- <-. split_and!; cbn; [by constructor| |].
    + apply Forall_cons. split; [|eapply Forall_impl; [exact HT|]; intros; by eapply planned_mono].
      exists b. cbn. rewrite He. split_and!; try done. left.
    + eapply Forall_impl; [exact HU|]. intros. by eapply cut_off_mono.
  - destruct (Z.leb_spec (bn_ExpiresAtUnix b) now) as [Hle|Hlt].
    + apply Ok_inj in Ht as <-. injection H as <- <-. split_and!; cbn.
      * rewrite <- Permutation_middle. by constructor.
      * eapply Forall_impl; [exact HT|]. intros. by eapply planned_mono.
      * apply Forall_cons. split; [|eapply Forall_impl; [exact HU|]; intros; by eapply cut_off_mono].
        exists b, session. split_and!; try done. left.
    + inv_ok_step Ht. apply Ok_inj in Ht as <-. injection H as <- <-. split_and!; cbn; [by constructor| |].
      * apply Forall_cons. split; [|eapply Forall_impl; [exact HT|]; intros; by eapply planned_mono].
        exists b. cbn. rewrite He. split_and!; try done. left.
      * eapply Forall_impl; [exact HU|]. intros. by eapply cut_off_mono.
Qed.

Lemma filter_elem {A} (p : A -> bool) l x : x ∈ List.filter p l -> x ∈ l.
Proof. rewrite !list_elem_of_In, filter_In. by intros [? _]. Qed.

#[global] Instance target_le_total : Total target_le.
Proof. intros t u. apply str_le_total. Qed.

(** a fan-out owes every device of the recipient and every other device of
    the sender exactly one place: a target over the pair's session, a bootstrap
    exactly when that session does not exist yet and then from a bundle that has
    not expired, or the unreachable list, which holds only devices with neither
    a session nor a live bundle.  Targets come sorted by device. *)
Theorem fanout_exact input exists_ r :
  pi_SessionExists input = Some exists_ -> FanOut input = Ok r ->
  let sender := pi_SenderDeviceID input in
  let others := List.filter (fun b => negb (String.eqb (bn_DeviceID b) sender)) (pi_SenderSet input) in
  let all := pi_RecipientSet input ++ others in
  List.map tg_DeviceID (pr_Recipients r ++ pr_SelfCopies r) ++ pr_Unreachable r
    ≡ₚ List.map bn_DeviceID all
  /\ Forall (planned sender (pi_Now input) exists_ (pi_RecipientSet input)) (pr_Recipients r)
  /\ Forall (planned sender (pi_Now input) exists_ (pi_SenderSet input)) (pr_SelfCopies r)
  /\ Forall (fun t => tg_DeviceID t <> sender) (pr_SelfCopies r)
  /\ Forall (cut_off sender (pi_Now input) exists_ all) (pr_Unreachable r)
  /\ Sorted target_le (pr_Recipients r) /\ Sorted target_le (pr_SelfCopies r).
Proof.
  intros Hex H. unfold FanOut in H. rewrite Hex in H. do 7 inv_ok_step H. apply Ok_inj in H as <-. cbn zeta.
  destruct a1 as [ts us]. destruct a2 as [ts' us'].
  match goal with E : targets_for _ _ _ (pi_RecipientSet _) = _ |- _ =>
    destruct (targets_for_spec _ _ _ _ _ _ E) as (HP & HT & HU) end.
  match goal with E : targets_for _ _ _ (List.filter _ _) = _ |- _ =>
    destruct (targets_for_spec _ _ _ _ _ _ E) as (HP' & HT' & HU') end.
  cbn [pr_Recipients pr_SelfCopies pr_Unreachable fst snd].
  assert (merge_sort target_le ts ≡ₚ ts) as Hts by apply merge_sort_Permutation.
  assert (merge_sort target_le ts' ≡ₚ ts') as Hts' by apply merge_sort_Permutation.
  split_and!; try (apply Sorted_merge_sort, _).
  - rewrite sort_strings_perm, !List.map_app, <- HP, <- HP'.
    rewrite (Permutation_map tg_DeviceID Hts), (Permutation_map tg_DeviceID Hts').
    rewrite <- !app_assoc. apply Permutation_app_head. rewrite !app_assoc.
    by rewrite (Permutation_app_comm (List.map tg_DeviceID ts') us).
  - by rewrite Hts.
  - rewrite Hts'. eapply Forall_impl; [exact HT'|]. intros t Ht. eapply planned_mono, Ht.
    intros b. apply filter_elem.
  - rewrite Hts'. eapply Forall_impl; [exact HT'|]. intros t (b & Hb & Hd & _).
    rewrite list_elem_of_In, filter_In in Hb. destruct Hb as [_ Hb]. breflect. congruence.
  - rewrite sort_strings_perm. apply Forall_app. split.
    + eapply Forall_impl; [exact HU|]. intros d Hd. eapply cut_off_mono, Hd.
      intros b Hb. apply elem_of_app. by left.
    + eapply Forall_impl; [exact HU'|]. intros d Hd. eapply cut_off_mono, Hd.
      intros b Hb. apply elem_of_app. by right.
Qed.

(** ** A published set, for the witnesses *)

Definition sample_digits (c : ascii) : string := string_of_list_ascii (replicate 64 c).
Definition sample_device (c : ascii) : string := "dev_" +:+ sample_digits c.
Definition sample_algorithm : string := "tos.messaging.e2ee.x3dh-dr.v1".
Definition sample_bundle (endpoint device : string) : Bundle :=
  MkBundle (Some sample_domain) sample_agent_id endpoint device sample_algorithm [x01; x02] 1000 5000
    (replicate 64 x07).
Definition sample_endpoint (c : ascii) : string := "mep_" +:+ sample_digits c.
Definition sample_set : list Bundle :=
  [sample_bundle (sample_endpoint "a") (sample_device "1"); sample_bundle (sample_endpoint "a") (sample_device "2")].
Definition sample_set_digest : string := match SetDigest sample_set with Ok h => h | Err _ => "" end.
Definition sample_session : string :=
  match DeviceSessionID (sample_device "1") (sample_device "2") with Ok s => s | Err _ => "" end.
Definition sample_plan : PlanInput :=
  MkPlanInput (sample_device "1") sample_set
    [sample_bundle (sample_endpoint "b") (sample_device "3")] 2000
    (Some (fun s => String.eqb s sample_session)).
Definition sample_plan_result : PlanResult :=
  match FanOut sample_plan with Ok r => r | Err _ => MkPlanResult [] [] [] end.
Definition sample_binding : Binding :=
  MkBinding (Some sample_domain) sample_algorithm ("conv_" +:+ sample_hash)
    sample_agent_id (sample_endpoint "a") (sample_device "1")
    sample_agent_id (sample_endpoint "b") (sample_device "3").
Definition sample_first_contact : FirstContact :=
  MkFirstContact sample_binding (sample_bundle (sample_endpoint "a") (sample_device "1"))
    ("sha256:" +:+ sample_hash) [x01; x02; x03].
Definition sample_first_contact_json : bytes :=
  match EncodeFirstContactJSON sample_first_contact with Ok raw => raw | Err _ => [] end.


Lemma device_session_binds_witness :
  DeviceSessionID (sample_device "2") (sample_device "1") = Ok sample_session
  /\ ids_Session sample_session = true
  /\ ((sample_device "1" = sample_device "2" /\ sample_device "2" = sample_device "1")
      \/ (sample_device "1" = sample_device "1" /\ sample_device "2" = sample_device "2")
      \/ sha256_collision).
Proof.
  apply (device_session_binds (sample_device "1") (sample_device "2") (sample_device "2") (sample_device "1"));
    vm_compute; reflexivity.
Defined.

Lemma first_contact_roundtrip_witness :
  DecodeFirstContactJSON sample_first_contact_json = Ok sample_first_contact.
Proof.
  apply (first_contact_roundtrip sample_first_contact sample_domain).
  - split; by vm_compute.
  - reflexivity.
  - vm_compute. reflexivity.
  - vm_compute. reflexivity.
Defined.

Lemma fanout_exact_witness :
  List.map tg_DeviceID (pr_Recipients sample_plan_result) = [sample_device "3"]
  /\ List.map tg_DeviceID (pr_Recipients sample_plan_result ++ pr_SelfCopies sample_plan_result)
     ++ pr_Unreachable sample_plan_result ≡ₚ [sample_device "3"; sample_device "2"].
Proof.
  split; [vm_compute; reflexivity|].
  eapply (fun H => proj1 (fanout_exact sample_plan (fun s => String.eqb s sample_session) sample_plan_result
            eq_refl H)).
  vm_compute. reflexivity.
Defined.
