(* ===== verification/Ratchet.v ===== *)
(** * The default suite: [pkg/e2ee/default_suite.go]

    An X3DH handshake and a double ratchet: each message is sealed under the
    next key of a hash chain, a change of direction mixes a new Diffie-Hellman
    secret into the root, keys of messages that have not arrived are kept, and the
    whole state is bytes that survive a restart.

    HMAC and HKDF are defined over the SHA-256 of [Encoding.v].  X25519 and
    AES-256-GCM are the class [Primitives]; what the suite relies on of them is
    [PrimitiveLaws]. *)

From S2P Require Import Prelude Encoding Canon E2ee.

(** ** HMAC and HKDF ([crypto/hmac], [crypto/hkdf]) *)

Definition byte_xor (a b : byte) : byte := byte_of_Z (Z.lxor (byteZ a) (byteZ b)).
Definition zeros (n : nat) : bytes := List.repeat x00%byte n.

Definition hmac_sha256 (key message : bytes) : bytes :=
  let key := if (64 <? length key)%nat then sha256 key else key in
  let block := key ++ zeros (64 - length key) in
  sha256 (map (byte_xor x5c%byte) block ++ sha256 (map (byte_xor x36%byte) block ++ message)).

(** The blocks of the expansion, [n] of them from the [i]th. *)
Fixpoint hkdf_expand (prk info previous : bytes) (i : Z) (n : nat) : bytes :=
  match n with
  | O => []
  | S n' =>
      let t := hmac_sha256 prk (previous ++ info ++ [byte_of_Z i]) in
      t ++ hkdf_expand prk info t (i + 1) n'
  end.

(** [hkdf.Key(sha256.New, secret, salt, info, length)]; the lengths used are two
    blocks at most, far from the bound at which it fails. *)
Definition hkdf_Key (secret salt info : bytes) (n : nat) : bytes :=
  take n (hkdf_expand (hmac_sha256 salt secret) info [] 1 ((n + 31) / 32)).

(** ** X25519 and AES-256-GCM ([crypto/ecdh], [crypto/cipher])

    A private or public key is 32 bytes, any 32 bytes; [ECDH] refuses a result of
    all zeros. *)
Class Primitives := {
  x25519_public : bytes -> bytes; (** of a private key *)
  x25519_ecdh : bytes -> bytes -> option bytes; (** private key, public key *)
  gcm_seal : bytes -> bytes -> bytes -> bytes -> bytes; (** key, nonce, plaintext, additional *)
  gcm_open : bytes -> bytes -> bytes -> bytes -> option bytes; (** key, nonce, ciphertext, additional *)
}.

Class PrimitiveLaws (P : Primitives) : Prop := {
  public_length k : length k = 32%nat -> length (x25519_public k) = 32%nat;
  ecdh_agrees a b : length a = 32%nat -> length b = 32%nat ->
    x25519_ecdh a (x25519_public b) = x25519_ecdh b (x25519_public a);
  gcm_open_seal key nonce p additional : gcm_open key nonce (gcm_seal key nonce p additional) additional = Some p;
  gcm_seal_length key nonce p additional : length (gcm_seal key nonce p additional) = (length p + 16)%nat;
}.

(** ** Constants *)

Definition DefaultCandidateAlgorithmID : string := "tos.messaging.e2ee.x3dh-aes256gcm-dr.v2".
Definition materialVersion : byte := x01%byte.
Definition stateVersion : byte := x01%byte.
Definition headerVersion : byte := x01%byte.
Definition publicMaterialBytes : nat := 65.
Definition privateMaterialBytes : nat := 65.
Definition initialMessageBytes : nat := 33.
Definition headerBytes : nat := 41.
Definition maxSkippedKeys : Z := 1024.
Definition maxSeenMessages : Z := 1024.
Definition initialKDFLabel : bytes := bytes_of_string "x3dh-aes256gcm-dr initial root and chain".
Definition rootKDFLabel : bytes := bytes_of_string "x3dh-aes256gcm-dr ratchet root and chain".
Definition messageKDFLabel : bytes := bytes_of_string "x3dh-aes256gcm-dr message key and nonce".
Definition stateMagic : bytes := bytes_of_string "TSE2".

Definition ErrReplayed : error := Sentinel "message was already opened".
Definition ErrNotAuthentic : error := Sentinel "message is not authentic for this binding".
Definition ErrSessionExpired : error := Sentinel "session has expired".

(** ** State *)

Record skippedKey : Type := MkSkipped { sk_public : bytes; sk_number : Z; sk_key : bytes }.

Record ratchetState : Type := MkRatchet {
  rs_root : bytes;
  rs_selfPrivate : bytes;
  rs_selfPublic : bytes;
  rs_peerPublic : bytes;
  rs_sendChain : bytes;
  rs_receiveChain : bytes;
  rs_hasSend : bool;
  rs_hasReceive : bool;
  rs_sendNumber : Z;
  rs_receiveNumber : Z;
  rs_previousSendNumber : Z;
  rs_skipped : list skippedKey;
  rs_seen : list bytes;
}.

#[global] Instance skippedKey_eq_dec : EqDecision skippedKey.
Proof. solve_decision. Defined.

Definition zero32 : bytes := zeros 32.

Definition array32 (value : bytes) : bytes := take 32 (value ++ zero32).

(** *** Encoding *)

Definition byte_leb (a b : byte) : bool := byteZ a <=? byteZ b.
(** [bytes.Compare(a, b) <= 0] *)
Fixpoint bytes_leb (a b : bytes) : bool :=
  match a, b with
  | [], _ => true
  | _ :: _, [] => false
  | x :: a', y :: b' => if Byte.eqb x y then bytes_leb a' b' else byte_leb x y
  end.
Definition skipped_le (a b : skippedKey) : Prop :=
  (if bool_decide (sk_public a = sk_public b) then sk_number a <=? sk_number b
   else bytes_leb (sk_public a) (sk_public b)) = true.
#[global] Instance skipped_le_dec a b : Decision (skipped_le a b).
Proof. unfold skipped_le. apply _. Defined.

Definition encode_skipped (k : skippedKey) : bytes := sk_public k ++ be_bytes 4 (sk_number k) ++ sk_key k.

Definition state_flags (s : ratchetState) : Z :=
  Z.lor (if rs_hasSend s then 1 else 0) (if rs_hasReceive s then 2 else 0).

Definition encodeRatchetState (s : ratchetState) : result bytes :=
  refuse (maxSkippedKeys <? Z.of_nat (length (rs_skipped s))) || (maxSeenMessages <? Z.of_nat (length (rs_seen s)))
    with ErrStateUnusable;
  let skipped := merge_sort skipped_le (rs_skipped s) in
  let encoded :=
    stateMagic ++ [stateVersion] ++ rs_root s ++ rs_selfPrivate s ++ rs_selfPublic s ++ rs_peerPublic s
    ++ rs_sendChain s ++ rs_receiveChain s ++ [byte_of_Z (state_flags s)]
    ++ be_bytes 4 (rs_sendNumber s) ++ be_bytes 4 (rs_receiveNumber s) ++ be_bytes 4 (rs_previousSendNumber s)
    ++ be_bytes 2 (Z.of_nat (length skipped)) ++ List.concat (map encode_skipped skipped)
    ++ be_bytes 2 (Z.of_nat (length (rs_seen s))) ++ List.concat (rs_seen s) in
  call ValidateState encoded;
  Ok encoded.

(** [io.ReadFull] of [n] bytes. *)
Definition rd_take (n : nat) (b : bytes) : result (bytes * bytes) :=
  if (length b <? n)%nat then Err ErrStateUnusable else Ok (take n b, drop n b).
(** [binary.Read] of an unsigned integer of [n] bytes. *)
Definition rd_uint (n : nat) (b : bytes) : result (Z * bytes) :=
  let* (v, rest) := rd_take n b in Ok (be_value v, rest).
Definition rd_byte (b : bytes) : result (byte * bytes) :=
  match b with [] => Err ErrStateUnusable | x :: rest => Ok (x, rest) end.

Fixpoint read_skipped (n : nat) (b : bytes) : result (list skippedKey * bytes) :=
  match n with
  | O => Ok ([], b)
  | S n' =>
      let* (public, b) := rd_take 32 b in
      let* (number, b) := rd_uint 4 b in
      let* (key, b) := rd_take 32 b in
      let* (others, b) := read_skipped n' b in
      Ok (MkSkipped public number key :: others, b)
  end.

Fixpoint read_seen (n : nat) (seen : list bytes) (b : bytes) : result (list bytes * bytes) :=
  match n with
  | O => Ok (seen, b)
  | S n' =>
      let* (digest, b) := rd_take 32 b in
      refuse bool_decide (digest ∈ seen) with ErrStateUnusable;
      read_seen n' (seen ++ [digest]) b
  end.

Definition skipped_identity (k : skippedKey) : bytes * Z := (sk_public k, sk_number k).

Section Suite.
  Context {P : Primitives}.

Definition decodeRatchetState (raw : bytes) : result ratchetState :=
  call ValidateState raw;
  let* (magic, b) := rd_take 4 raw in
  refuse negb (bool_decide (magic = stateMagic)) with ErrStateUnusable;
  let* (version, b) := rd_byte b in
  refuse negb (Byte.eqb version stateVersion) with ErrStateUnusable;
  let* (root, b) := rd_take 32 b in
  let* (selfPrivate, b) := rd_take 32 b in
  let* (selfPublic, b) := rd_take 32 b in
  let* (peerPublic, b) := rd_take 32 b in
  let* (sendChain, b) := rd_take 32 b in
  let* (receiveChain, b) := rd_take 32 b in
  let* (flags, b) := rd_byte b in
  refuse negb (Z.land (byteZ flags) (Z.lnot 3) =? 0) with ErrStateUnusable;
  let hasSend := negb (Z.land (byteZ flags) 1 =? 0) in
  let hasReceive := negb (Z.land (byteZ flags) 2 =? 0) in
  let* (sendNumber, b) := rd_uint 4 b in
  let* (receiveNumber, b) := rd_uint 4 b in
  let* (previousSendNumber, b) := rd_uint 4 b in
  let* (skippedCount, b) := rd_uint 2 b in
  refuse maxSkippedKeys <? skippedCount with ErrStateUnusable;
  let* (skipped, b) := read_skipped (Z.to_nat skippedCount) b in
  let* (seenCount, b) := rd_uint 2 b in
  refuse maxSeenMessages <? seenCount with ErrStateUnusable;
  let* (seen, b) := read_seen (Z.to_nat seenCount) [] b in
  refuse negb (length b =? 0)%nat with ErrStateUnusable;
  refuse negb (bool_decide (x25519_public selfPrivate = selfPublic)) with ErrStateUnusable;
  refuse (negb hasSend && negb (bool_decide (sendChain = zero32)))
         || (negb hasReceive && negb (bool_decide (receiveChain = zero32))) with ErrStateUnusable;
  refuse negb (bool_decide (NoDup (map skipped_identity skipped))) with ErrStateUnusable;
  Ok (MkRatchet root selfPrivate selfPublic peerPublic sendChain receiveChain hasSend hasReceive sendNumber
        receiveNumber previousSendNumber skipped seen).

(** *** Keys *)

Definition advanceChain (chain : bytes) : bytes * bytes :=
  (array32 (hmac_sha256 chain [x01]%byte), array32 (hmac_sha256 chain [x02]%byte)).

Definition deriveInitial (shared binding : bytes) : bytes * bytes :=
  let salt := sha256 (initialKDFLabel ++ binding) in
  let derived := hkdf_Key shared salt initialKDFLabel 64 in
  (array32 (take 32 derived), array32 (drop 32 derived)).

Definition deriveRoot (root shared : bytes) : bytes * bytes :=
  let derived := hkdf_Key shared root rootKDFLabel 64 in
  (array32 (take 32 derived), array32 (drop 32 derived)).

(** [messageAEAD]: the key and the nonce. *)
Definition messageAEAD (messageKey : bytes) : bytes * bytes :=
  let material := hkdf_Key messageKey [] messageKDFLabel 44 in
  (take 32 material, drop 32 material).

Definition sealMessage (messageKey plaintext additional : bytes) : bytes :=
  let '(key, nonce) := messageAEAD messageKey in gcm_seal key nonce plaintext additional.
Definition openMessage (messageKey ciphertext additional : bytes) : option bytes :=
  let '(key, nonce) := messageAEAD messageKey in gcm_open key nonce ciphertext additional.

(** *** Material *)

Definition err_public_material : error := NewError "prekey public material is unusable".
Definition err_private_material : error := NewError "prekey private material is unusable".
Definition err_initial_message : error := NewError "initial message is unusable".

(** Identity and prekey. *)
Definition parse_material (size : nat) (e : error) (material : bytes) : result (bytes * bytes) :=
  match material with
  | version :: body =>
      refuse negb (length material =? size)%nat || negb (Byte.eqb version materialVersion) with e;
      Ok (take 32 body, drop 32 body)
  | [] => Err e
  end.
Definition parsePublicMaterial : bytes -> result (bytes * bytes) :=
  parse_material publicMaterialBytes err_public_material.
Definition parsePrivateMaterial : bytes -> result (bytes * bytes) :=
  parse_material privateMaterialBytes err_private_material.

Definition parseInitialMessage (initial : bytes) : result bytes :=
  match initial with
  | version :: public =>
      refuse negb (length initial =? initialMessageBytes)%nat || negb (Byte.eqb version materialVersion)
        with err_initial_message;
      Ok public
  | [] => Err err_initial_message
  end.

(** [generateX25519]: what the random source answered, or its failure. *)
Definition generateX25519 (random : result bytes) : result bytes := random.

Definition NewPrekeyMaterial (random1 random2 : result bytes) : result (bytes * bytes) :=
  let* identity := generateX25519 random1 in
  let* prekey := generateX25519 random2 in
  Ok (materialVersion :: x25519_public identity ++ x25519_public prekey, materialVersion :: identity ++ prekey).

Definition ecdh (e : error) (private public : bytes) : result bytes :=
  match x25519_ecdh private public with Some shared => Ok shared | None => Err e end.

(** *** The handshake *)

Definition Initiate (random : result bytes) (private peerPublic binding : bytes) : result (bytes * bytes) :=
  let* (identity, _) := parsePrivateMaterial private in
  let* (peerIdentity, peerPrekey) := parsePublicMaterial peerPublic in
  let* self := generateX25519 random in
  let* first := ecdh ErrNotAuthentic identity peerPrekey in
  let* second := ecdh ErrNotAuthentic self peerIdentity in
  let* third := ecdh ErrNotAuthentic self peerPrekey in
  let '(root, chain) := deriveInitial (first ++ second ++ third) binding in
  let* encoded := encodeRatchetState
    (MkRatchet root (array32 self) (array32 (x25519_public self)) (array32 peerPrekey) chain zero32 true false 0 0 0 [] []) in
  Ok (encoded, materialVersion :: x25519_public self).

Definition ratchet_Accept (private peerPublic initial binding : bytes) : result bytes :=
  let* (identity, prekey) := parsePrivateMaterial private in
  let* (remoteIdentity, _) := parsePublicMaterial peerPublic in
  let* peer := parseInitialMessage initial in
  let* first := ecdh ErrNotAuthentic prekey remoteIdentity in
  let* second := ecdh ErrNotAuthentic identity peer in
  let* third := ecdh ErrNotAuthentic prekey peer in
  let '(root, chain) := deriveInitial (first ++ second ++ third) binding in
  encodeRatchetState
    (MkRatchet root (array32 prekey) (array32 (x25519_public prekey)) (array32 peer) zero32 chain false true 0 0 0 [] []).

(** *** Headers *)

Record messageHeader : Type := MkHeader { mh_public : bytes; mh_previousNumber : Z; mh_number : Z }.

Definition encodeHeader (h : messageHeader) : bytes :=
  headerVersion :: mh_public h ++ be_bytes 4 (mh_previousNumber h) ++ be_bytes 4 (mh_number h).

Definition decodeHeader (ciphertext : bytes) : result (messageHeader * bytes) :=
  refuse (length ciphertext <? headerBytes + 16)%nat
         || negb (Byte.eqb (List.hd x00%byte ciphertext) headerVersion) with ErrNotAuthentic;
  Ok (MkHeader (array32 (take 32 (drop 1 ciphertext))) (be_value (take 4 (drop 33 ciphertext)))
        (be_value (take 4 (drop 37 ciphertext))),
      drop headerBytes ciphertext).

(** *** Turning the ratchet *)

Definition advanceSendingRatchet (random : result bytes) (s : ratchetState) : result ratchetState :=
  let* self := generateX25519 random in
  let* shared := ecdh (NewError "ecdh") self (rs_peerPublic s) in
  let '(root, chain) := deriveRoot (rs_root s) shared in
  Ok (MkRatchet root (array32 self) (array32 (x25519_public self)) (rs_peerPublic s) chain (rs_receiveChain s)
        true (rs_hasReceive s) 0 (rs_receiveNumber s) (rs_sendNumber s) (rs_skipped s) (rs_seen s)).

Definition advanceReceivingRatchet (public : bytes) (s : ratchetState) : result ratchetState :=
  let* shared := ecdh (NewError "ecdh") (rs_selfPrivate s) public in
  let '(root, chain) := deriveRoot (rs_root s) shared in
  Ok (MkRatchet root (rs_selfPrivate s) (rs_selfPublic s) public zero32 chain false true (rs_sendNumber s) 0
        (rs_previousSendNumber s) (rs_skipped s) (rs_seen s)).

Definition set_send (s : ratchetState) (chain : bytes) (number : Z) : ratchetState :=
  MkRatchet (rs_root s) (rs_selfPrivate s) (rs_selfPublic s) (rs_peerPublic s) chain (rs_receiveChain s)
    (rs_hasSend s) (rs_hasReceive s) number (rs_receiveNumber s) (rs_previousSendNumber s) (rs_skipped s) (rs_seen s).
Definition set_receive (s : ratchetState) (chain : bytes) (number : Z) (skipped : list skippedKey) : ratchetState :=
  MkRatchet (rs_root s) (rs_selfPrivate s) (rs_selfPublic s) (rs_peerPublic s) (rs_sendChain s) chain
    (rs_hasSend s) (rs_hasReceive s) (rs_sendNumber s) number (rs_previousSendNumber s) skipped (rs_seen s).
Definition set_seen (s : ratchetState) (seen : list bytes) : ratchetState :=
  MkRatchet (rs_root s) (rs_selfPrivate s) (rs_selfPublic s) (rs_peerPublic s) (rs_sendChain s) (rs_receiveChain s)
    (rs_hasSend s) (rs_hasReceive s) (rs_sendNumber s) (rs_receiveNumber s) (rs_previousSendNumber s) (rs_skipped s) seen.

(** *** Skipped keys and replays *)

(** The loop of [skipTo]; it runs [gap] times, each adding one key. *)
Fixpoint skip_keys (gap : nat) (s : ratchetState) : ratchetState :=
  match gap with
  | O => s
  | S n =>
      let '(key, next) := advanceChain (rs_receiveChain s) in
      skip_keys n (set_receive s next (rs_receiveNumber s + 1)
                     (rs_skipped s ++ [MkSkipped (rs_peerPublic s) (rs_receiveNumber s) key]))
  end.

Definition skipTo (number : Z) (s : ratchetState) : result ratchetState :=
  refuse number <? rs_receiveNumber s with ErrReplayed;
  let gap := number - rs_receiveNumber s in
  refuse (maxSkippedKeys <? gap) || (maxSkippedKeys <? Z.of_nat (length (rs_skipped s)) + gap)
    with NewError "message is beyond the skipped-key bound";
  refuse (0 <? gap) && negb (rs_hasReceive s) with ErrNotAuthentic;
  Ok (skip_keys (Z.to_nat gap) s).

Fixpoint take_skipped (public : bytes) (number : Z) (skipped : list skippedKey)
    : option (bytes * list skippedKey) :=
  match skipped with
  | [] => None
  | k :: rest =>
      if bool_decide (sk_public k = public) && (sk_number k =? number) then Some (sk_key k, rest)
      else match take_skipped public number rest with
           | Some (key, rest') => Some (key, k :: rest')
           | None => None
           end
  end.

Definition hasSeen (s : ratchetState) (digest : bytes) : bool := bool_decide (digest ∈ rs_seen s).

Definition remember (digest : bytes) (s : ratchetState) : ratchetState :=
  set_seen s (if Z.of_nat (length (rs_seen s)) =? maxSeenMessages then drop 1 (rs_seen s) ++ [digest]
              else rs_seen s ++ [digest]).

(** *** Messages *)

Definition u32_limit : Z := 2 ^ 32 - 1.

(** [Seal] after the state is decoded. *)
Definition seal_state (random : result bytes) (s : ratchetState) (plaintext binding : bytes)
    : result (bytes * ratchetState) :=
  let* s := (if rs_hasSend s then Ok s else advanceSendingRatchet random s) in
  refuse rs_sendNumber s =? u32_limit with ErrSessionExpired;
  let header := encodeHeader (MkHeader (rs_selfPublic s) (rs_previousSendNumber s) (rs_sendNumber s)) in
  let '(messageKey, nextChain) := advanceChain (rs_sendChain s) in
  Ok (header ++ sealMessage messageKey plaintext (header ++ binding),
      set_send s nextChain (u32 (rs_sendNumber s + 1))).

Definition ratchet_Seal (random : result bytes) (raw plaintext binding : bytes) : result (bytes * bytes) :=
  let* s := decodeRatchetState raw in
  let* (ciphertext, s') := seal_state random s plaintext binding in
  let* next := encodeRatchetState s' in
  Ok (ciphertext, next).

Definition open_message (key body additional digest : bytes) (s : ratchetState) : result (bytes * ratchetState) :=
  match openMessage key body additional with
  | None => Err ErrNotAuthentic
  | Some plaintext => Ok (plaintext, remember digest s)
  end.

(** [Open] after the state is decoded and before the next one is encoded. *)
Definition open_state (s : ratchetState) (ciphertext binding : bytes) : result (bytes * ratchetState) :=
  let digest := sha256 ciphertext in
  refuse hasSeen s digest with ErrReplayed;
  let* (header, body) := decodeHeader ciphertext in
  let additional := take headerBytes ciphertext ++ binding in
  match take_skipped (mh_public header) (mh_number header) (rs_skipped s) with
  | Some (key, rest) =>
      open_message key body additional digest (set_receive s (rs_receiveChain s) (rs_receiveNumber s) rest)
  | None =>
      let* s :=
        (if bool_decide (mh_public header = rs_peerPublic s) then Ok s else
         let* s := skipTo (mh_previousNumber header) s in
         match advanceReceivingRatchet (mh_public header) s with
         | Ok s' => Ok s'
         | Err _ => Err ErrNotAuthentic
         end) in
      refuse mh_number header <? rs_receiveNumber s with ErrReplayed;
      let* s := skipTo (mh_number header) s in
      refuse negb (rs_hasReceive s) with ErrNotAuthentic;
      let '(messageKey, nextChain) := advanceChain (rs_receiveChain s) in
      open_message messageKey body additional digest
        (set_receive s nextChain (u32 (rs_receiveNumber s + 1)) (rs_skipped s))
  end.

Definition ratchet_Open (raw ciphertext binding : bytes) : result (bytes * bytes) :=
  let* s := decodeRatchetState raw in
  let* (plaintext, s') := open_state s ciphertext binding in
  let* next := encodeRatchetState s' in
  Ok (plaintext, next).

Definition KeyMaterial (raw : bytes) : result bytes :=
  let* s := decodeRatchetState raw in
  encodeRatchetState (set_seen s []).
End Suite.

(** ** States survive their bytes *)

Definition key32 (k : bytes) : Prop := length k = 32%nat.
Definition is_uint32 (z : Z) : Prop := 0 <= z < 2 ^ 32.

(** The sizes the Go types fix, and the two bounds. *)
Record shaped (s : ratchetState) : Prop := {
  sh_root : key32 (rs_root s);
  sh_private : key32 (rs_selfPrivate s);
  sh_public : key32 (rs_selfPublic s);
  sh_peer : key32 (rs_peerPublic s);
  sh_send : key32 (rs_sendChain s);
  sh_receive : key32 (rs_receiveChain s);
  sh_numbers : is_uint32 (rs_sendNumber s) /\ is_uint32 (rs_receiveNumber s) /\ is_uint32 (rs_previousSendNumber s);
  sh_skipped : Forall (fun k => key32 (sk_public k) /\ is_uint32 (sk_number k) /\ key32 (sk_key k)) (rs_skipped s);
  sh_skipped_bound : Z.of_nat (length (rs_skipped s)) <= maxSkippedKeys;
  sh_seen : Forall key32 (rs_seen s);
  sh_seen_bound : Z.of_nat (length (rs_seen s)) <= maxSeenMessages;
}.

Section Laws.
  Context `{PL : PrimitiveLaws}.

(** What a state must satisfy besides to be read back. *)
Record usable_state (s : ratchetState) : Prop := {
  us_shaped : shaped s;
  us_pair : x25519_public (rs_selfPrivate s) = rs_selfPublic s;
  us_send : rs_hasSend s = false -> rs_sendChain s = zero32;
  us_receive : rs_hasReceive s = false -> rs_receiveChain s = zero32;
  us_seen : NoDup (rs_seen s);
  us_skipped : NoDup (map skipped_identity (rs_skipped s));
}.

(** The order of the skipped keys is the encoder's. *)
Definition sorted_state (s : ratchetState) : ratchetState :=
  set_receive s (rs_receiveChain s) (rs_receiveNumber s) (merge_sort skipped_le (rs_skipped s)).

Lemma rd_take_app n a b : length a = n -> rd_take n (a ++ b) = Ok (a, b).
Proof.
  intros <-. unfold rd_take. rewrite (proj2 (Nat.ltb_ge _ _)) by (rewrite length_app; lia).
  by rewrite take_app_length, drop_app_length.
Qed.

Lemma rd_uint_app n z b : 0 <= z < 256 ^ Z.of_nat n -> rd_uint n (be_bytes n z ++ b) = Ok (z, b).
Proof.
  intros Hz. unfold rd_uint. rewrite rd_take_app by apply length_be_bytes. by rewrite be_value_bytes, Z.mod_small.
Qed.

Lemma read_skipped_app l b :
  Forall (fun k => key32 (sk_public k) /\ is_uint32 (sk_number k) /\ key32 (sk_key k)) l ->
  read_skipped (length l) (List.concat (map encode_skipped l) ++ b) = Ok (l, b).
Proof.
  induction 1 as [|k l (Hp & Hn & Hk) _ IH]; cbn [read_skipped length map List.concat]; [done|].
  unfold encode_skipped at 1. rewrite <- !app_assoc, (rd_take_app 32), (rd_uint_app 4), (rd_take_app 32), IH by done.
  by destruct k.
Qed.

Lemma read_seen_app seen l b :
  Forall key32 l -> NoDup (seen ++ l) -> read_seen (length l) seen (List.concat l ++ b) = Ok (seen ++ l, b).
Proof.
  intros Hl. revert seen. induction Hl as [|d l Hd _ IH]; intros seen Hnd; cbn [read_seen length List.concat].
  - by rewrite app_nil_r.
  - rewrite <- app_assoc, (rd_take_app 32) by done. rewrite bool_decide_false.
    + rewrite IH; [by rewrite <- app_assoc|]. by rewrite <- app_assoc.
    + apply NoDup_app in Hnd as (_ & Hd' & _). intros Hin. apply (Hd' d Hin). left.
Qed.

Lemma concat_length {A} (l : list (list A)) n :
  Forall (fun x => length x = n) l -> length (List.concat l) = (n * length l)%nat.
Proof. induction 1 as [|x l Hx _ IH]; cbn [List.concat length]; [lia|]. rewrite length_app, IH, Hx. lia. Qed.

Lemma sort_shaped s : shaped s -> shaped (sorted_state s).
Proof.
  intros []. constructor; try done; cbn.
  - by rewrite merge_sort_Permutation.
  - by rewrite (Permutation_length (merge_sort_Permutation skipped_le (rs_skipped s))).
Qed.

Lemma encode_length s :
  shaped s ->
  length (List.concat (map encode_skipped (rs_skipped s))) = (68 * length (rs_skipped s))%nat /\
  length (List.concat (rs_seen s)) = (32 * length (rs_seen s))%nat.
Proof.
  intros []. split; [|by apply concat_length].
  rewrite (concat_length _ 68); [by rewrite length_map|]. rewrite Forall_map.
  eapply Forall_impl; [exact sh_skipped0|]. intros k (H1 & _ & H3). cbn. unfold encode_skipped.
  rewrite !length_app, length_be_bytes, H1, H3. done.
Qed.

(** Encoding a state within its bounds succeeds. *)
Lemma encode_granted s :
  shaped s -> exists raw, encodeRatchetState s = Ok raw /\ ValidateState raw = Ok tt /\
    raw = stateMagic ++ [stateVersion] ++ rs_root s ++ rs_selfPrivate s ++ rs_selfPublic s ++ rs_peerPublic s
    ++ rs_sendChain s ++ rs_receiveChain s ++ [byte_of_Z (state_flags s)]
    ++ be_bytes 4 (rs_sendNumber s) ++ be_bytes 4 (rs_receiveNumber s) ++ be_bytes 4 (rs_previousSendNumber s)
    ++ be_bytes 2 (Z.of_nat (length (rs_skipped (sorted_state s))))
    ++ List.concat (map encode_skipped (rs_skipped (sorted_state s)))
    ++ be_bytes 2 (Z.of_nat (length (rs_seen s))) ++ List.concat (rs_seen s) ++ [].
Proof.
  intros Hs. pose proof (sort_shaped _ Hs) as Hs'. destruct (encode_length _ Hs') as [L1 L2].
  pose proof (sh_skipped_bound _ Hs') as B1. pose proof (sh_seen_bound _ Hs) as B2. pose proof (sh_skipped_bound _ Hs) as B0.
  unfold maxSkippedKeys, maxSeenMessages in *. destruct Hs. unfold key32 in *.
  unfold encodeRatchetState. rewrite (proj2 (Z.ltb_ge _ _)), (proj2 (Z.ltb_ge _ _)) by done. cbn [orb]. cbv zeta.
  match goal with |- context [ValidateState ?x] => set (raw := x) end.
  assert (blen raw = 4 + 1 + 192 + 1 + 12 + 2 + 2 + 68 * Z.of_nat (length (rs_skipped (sorted_state s)))
                     + 32 * Z.of_nat (length (rs_seen s))) as Hlen.
  { unfold raw, blen. cbn [rs_skipped rs_seen sorted_state set_receive] in *.
    rewrite !length_app, !length_be_bytes, L1, L2. cbn [length stateMagic bytes_of_string].
    change (length stateMagic) with 4%nat. lia. }
  assert (ValidateState raw = Ok tt) as HV.
  { unfold ValidateState, MaxSessionStateBytes. rewrite Hlen, (proj2 (Z.eqb_neq _ _)) by lia.
    rewrite (proj2 (Z.ltb_ge _ _)); [done|]. change (Z.shiftl 256 10) with 262144. lia. }
  exists raw. rewrite HV. split_and!; try done. unfold raw. cbn [rs_skipped sorted_state set_receive].
  by rewrite app_nil_r.
Qed.

Lemma flags_read s :
  let f := byteZ (byte_of_Z (state_flags s)) in
  (Z.land f (Z.lnot 3) =? 0) = true /\ negb (Z.land f 1 =? 0) = rs_hasSend s /\
  negb (Z.land f 2 =? 0) = rs_hasReceive s.
Proof. unfold state_flags. destruct (rs_hasSend s), (rs_hasReceive s); by vm_compute. Qed.

Lemma sort_usable s : usable_state s -> usable_state (sorted_state s).
Proof.
  intros []. constructor; try done; [by apply sort_shaped|]. cbn.
  eapply NoDup_Permutation_proper; [|exact us_skipped0]. apply Permutation_map, merge_sort_Permutation.
Qed.

Lemma decode_encoded s raw :
  usable_state s -> encodeRatchetState s = Ok raw -> decodeRatchetState raw = Ok (sorted_state s).
Proof.
  intros Hu He. destruct (encode_granted s (us_shaped _ Hu)) as (raw' & He' & HV & Hraw).
  rewrite He' in He. apply Ok_inj in He as <-. pose proof (sort_usable _ Hu) as Hu'.
  destruct Hu' as [[] Hpair Hcs Hcr Hseen Hskip]. unfold maxSkippedKeys, maxSeenMessages in *.
  destruct sh_numbers0 as (N1 & N2 & N3). destruct (flags_read s) as (F1 & F2 & F3).
  cbn [sorted_state set_receive rs_root rs_selfPrivate rs_selfPublic rs_peerPublic rs_sendChain rs_receiveChain
       rs_hasSend rs_hasReceive rs_sendNumber rs_receiveNumber rs_previousSendNumber rs_seen] in *.
  unfold decodeRatchetState. rewrite HV, Hraw.
  rewrite (rd_take_app 4), bool_decide_true by done. cbn [negb app rd_byte].
  change (Byte.eqb stateVersion stateVersion) with true. cbn [negb].
  rewrite !(rd_take_app 32) by done. cbn [rd_byte app]. rewrite F1, F2, F3. cbn [negb].
  rewrite !(rd_uint_app 4) by done.
  rewrite (rd_uint_app 2) by (change (256 ^ Z.of_nat 2) with 65536; lia).
  rewrite (proj2 (Z.ltb_ge _ _)) by done. rewrite Nat2Z.id, read_skipped_app by done.
  rewrite (rd_uint_app 2) by (change (256 ^ Z.of_nat 2) with 65536; lia).
  rewrite (proj2 (Z.ltb_ge _ _)) by done. rewrite Nat2Z.id, read_seen_app by done. cbn [length Nat.eqb negb app].
  rewrite bool_decide_true by done. cbn [negb].
  assert (forall (h : bool) c, (h = false -> c = zero32) -> negb h && negb (bool_decide (c = zero32)) = false) as Hz.
  { intros [] c Hc; [done|]. by rewrite bool_decide_true by auto. }
  rewrite !Hz by done. cbn [orb]. rewrite bool_decide_true by done. by destruct s.
Qed.

Lemma rd_take_inv n b v rest : rd_take n b = Ok (v, rest) -> length v = n /\ b = v ++ rest.
Proof.
  unfold rd_take. destruct (Nat.ltb_spec (length b) n); [done|]. intros [= <- <-].
  split; [by rewrite length_take_le|by rewrite take_drop].
Qed.

Lemma rd_uint_inv n b z rest : rd_uint n b = Ok (z, rest) -> 0 <= z < 256 ^ Z.of_nat n.
Proof.
  unfold rd_uint. destruct (rd_take n b) as [[v r]|] eqn:E; [|done]. intros [= <- _].
  apply rd_take_inv in E as [<- _]. apply be_value_range.
Qed.

Lemma read_skipped_inv n b l rest :
  read_skipped n b = Ok (l, rest) ->
  length l = n /\ Forall (fun k => key32 (sk_public k) /\ is_uint32 (sk_number k) /\ key32 (sk_key k)) l.
Proof.
  revert b l. induction n as [|n IH]; intros b l; cbn [read_skipped]; [intros [= <- _]; done|]. intros H.
  destruct (rd_take 32 b) as [[p b1]|] eqn:E1; [|done]. destruct (rd_uint 4 b1) as [[z b2]|] eqn:E2; [|done].
  destruct (rd_take 32 b2) as [[k b3]|] eqn:E3; [|done]. destruct (read_skipped n b3) as [[others b4]|] eqn:E4; [|done].
  simplify_eq. apply rd_take_inv in E1 as [? _], E3 as [? _]. apply rd_uint_inv in E2. apply IH in E4 as [<- HF].
  split; [done|]. by constructor.
Qed.

Lemma read_seen_inv n seen b l rest :
  read_seen n seen b = Ok (l, rest) -> NoDup seen -> Forall key32 seen ->
  length l = (length seen + n)%nat /\ NoDup l /\ Forall key32 l.
Proof.
  revert seen b. induction n as [|n IH]; intros seen b; cbn [read_seen]; [intros [= <- _] ? ?; split_and!; try done; lia|].
  destruct (rd_take 32 b) as [[d b1]|] eqn:E1; [|done]. apply rd_take_inv in E1 as [Hd _].
  case_bool_decide as Hin; [done|]. intros H Hnd HF. apply IH in H as (HL & ? & ?).
  - rewrite length_app in HL. cbn in HL. split_and!; try done. lia.
  - apply NoDup_app. split_and!; [done| |apply NoDup_singleton]. set_solver.
  - apply Forall_app. split; [done|]. by constructor.
Qed.

Lemma chain_absent (h : bool) c : negb h && negb (bool_decide (c = zero32)) = false -> h = false -> c = zero32.
Proof. intros H ->. by case_bool_decide. Qed.

(** What is read is usable. *)
Lemma decode_usable raw s : decodeRatchetState raw = Ok s -> usable_state s.
Proof.
  unfold decodeRatchetState. intros H. inv_ok H. apply Ok_inj in H as <-.
  repeat match goal with
  | E : rd_take _ _ = Ok _ |- _ => apply rd_take_inv in E as [E _]
  | E : rd_uint _ _ = Ok _ |- _ => apply rd_uint_inv in E
  | E : read_skipped _ _ = Ok _ |- _ => apply read_skipped_inv in E as [? ?]
  | E : read_seen _ _ _ = Ok _ |- _ => apply read_seen_inv in E as (? & ? & ?); [|constructor..]
  end. breflect. unfold maxSkippedKeys, maxSeenMessages in *. change (256 ^ Z.of_nat 4) with (2 ^ 32) in *.
  change (256 ^ Z.of_nat 2) with 65536 in *. cbn [length Nat.add] in *.
  constructor; try done; [constructor; try done; cbn; unfold maxSkippedKeys, maxSeenMessages; lia|..];
    by apply chain_absent.
Qed.

(** The bytes of a session state are read back as the state that was written,
    with its skipped keys in the encoder's order; every usable state, at the
    bounds of its two lists too, has such bytes within the size a session state
    may have; and whatever is read is usable. *)
Theorem ratchet_state_roundtrip s :
  usable_state s ->
  (exists raw, encodeRatchetState s = Ok raw /\ ValidateState raw = Ok tt /\
     decodeRatchetState raw = Ok (sorted_state s)) /\
  rs_skipped (sorted_state s) ≡ₚ rs_skipped s /\
  (forall raw s', decodeRatchetState raw = Ok s' -> usable_state s').
Proof.
  intros Hu. destruct (encode_granted s (us_shaped _ Hu)) as (raw & He & HV & _). split_and!.
  - exists raw. split_and!; try done. by apply decode_encoded.
  - apply merge_sort_Permutation.
  - apply decode_usable.
Qed.

(** ** Keys have their size *)

Lemma array32_length v : key32 (array32 v).
Proof. unfold key32, array32, zero32, zeros. rewrite length_take, length_app, repeat_length. lia. Qed.

Lemma array32_id v : key32 v -> array32 v = v.
Proof. unfold key32, array32. intros H. by rewrite take_app_le, take_ge by lia. Qed.

Lemma zero32_length : key32 zero32.
Proof. reflexivity. Qed.

(** ** Chains *)

Fixpoint chain_at (c : bytes) (n : nat) : bytes :=
  match n with O => c | S n' => snd (advanceChain (chain_at c n')) end.
Definition message_key (c : bytes) (n : nat) : bytes := fst (advanceChain (chain_at c n)).

Lemma chain_at_key c n : key32 c -> key32 (chain_at c n).
Proof. intros H. destruct n; [done|]. apply array32_length. Qed.

Lemma advanceChain_at c n : advanceChain (chain_at c n) = (message_key c n, chain_at c (S n)).
Proof. unfold message_key. cbn [chain_at]. apply surjective_pairing. Qed.

(** The [i]th message of the chain [c] under the ratchet key [public]. *)
Definition chain_message (public : bytes) (previous : Z) (c binding : bytes) (i : nat) (plaintext : bytes) : bytes :=
  let header := encodeHeader (MkHeader public previous (Z.of_nat i)) in
  header ++ sealMessage (message_key c i) plaintext (header ++ binding).

Lemma sealMessage_open key p additional : openMessage key (sealMessage key p additional) additional = Some p.
Proof. unfold openMessage, sealMessage. destruct (messageAEAD key). apply gcm_open_seal. Qed.

Lemma sealMessage_length key p additional : length (sealMessage key p additional) = (length p + 16)%nat.
Proof. unfold sealMessage. destruct (messageAEAD key). apply gcm_seal_length. Qed.

Lemma encodeHeader_length h : key32 (mh_public h) -> length (encodeHeader h) = headerBytes.
Proof. unfold key32, encodeHeader. intros H. cbn [length]. rewrite !length_app, !length_be_bytes, H. done. Qed.

Lemma header_read h body :
  key32 (mh_public h) -> is_uint32 (mh_previousNumber h) -> is_uint32 (mh_number h) -> (16 <= length body)%nat ->
  decodeHeader (encodeHeader h ++ body) = Ok (h, body) /\
  take headerBytes (encodeHeader h ++ body) = encodeHeader h.
Proof.
  intros Hp Hq Hn Hb. pose proof (encodeHeader_length h Hp) as HL. split.
  2:{ by rewrite take_app_length'. }
  unfold decodeHeader. rewrite length_app, HL.
  rewrite (proj2 (Nat.ltb_ge _ _)) by lia. unfold encodeHeader. cbn [List.hd app].
  change (Byte.eqb headerVersion headerVersion) with true. cbn [negb orb].
  unfold key32 in Hp. f_equal. f_equal.
  - change (drop 1 (headerVersion :: ?l)) with l. change (drop 33 (headerVersion :: ?l)) with (drop 32 l).
    change (drop 37 (headerVersion :: ?l)) with (drop (32 + 4) l). rewrite <- drop_drop, <- !app_assoc.
    rewrite (take_app_length' (mh_public h)), !(drop_app_length' (mh_public h)), array32_id by done.
    rewrite (take_app_length' (be_bytes 4 (mh_previousNumber h))), (drop_app_length' (be_bytes 4 (mh_previousNumber h)))
      by (by rewrite length_be_bytes).
    rewrite take_app_length' by (by rewrite length_be_bytes).
    rewrite !be_value_bytes, !Z.mod_small by done. by destruct h.
  - change (drop headerBytes (headerVersion :: ?l)) with (drop 40 l). apply drop_app_length'.
    by rewrite !length_app, !length_be_bytes, Hp.
Qed.

(** ** Following a chain *)

(** The receiver holds chain [c] of the ratchet key [public] from its current
    number on, and the keys of what it skipped. *)
Record tracks (public c : bytes) (s : ratchetState) : Prop := {
  tk_usable : usable_state s;
  tk_peer : rs_peerPublic s = public;
  tk_has : rs_hasReceive s = true;
  tk_chain : rs_receiveChain s = chain_at c (Z.to_nat (rs_receiveNumber s));
  tk_skipped : forall k, k ∈ rs_skipped s -> sk_public k = public ->
    sk_number k < rs_receiveNumber s /\ sk_key k = message_key c (Z.to_nat (sk_number k));
}.

Definition unread (public : bytes) (s : ratchetState) (i : nat) : Prop :=
  rs_receiveNumber s <= Z.of_nat i \/
  exists k, k ∈ rs_skipped s /\ skipped_identity k = (public, Z.of_nat i).

(** The skipped keys leave room to reach message [m]. *)
Definition room_for (m : Z) (s : ratchetState) : Prop :=
  m + Z.of_nat (length (rs_skipped s)) - rs_receiveNumber s <= maxSkippedKeys.

Lemma remember_usable digest s :
  usable_state s -> key32 digest -> digest ∉ rs_seen s -> usable_state (remember digest s).
Proof.
  intros Hu Hd Hn. destruct Hu as [[] Hp Hs Hr Hseen Hsk]. unfold remember. constructor; try done; [constructor; try done|].
  - cbn. destruct (_ =? _); apply Forall_app; (split; [|by constructor]); [by apply Forall_drop|done].
  - cbn. unfold maxSeenMessages in *. destruct (Z.eqb_spec (Z.of_nat (length (rs_seen s))) 1024);
      rewrite length_app, ?length_drop; cbn; lia.
  - cbn. destruct (_ =? _); apply NoDup_app; split_and!; try apply NoDup_singleton; try done.
    + destruct (rs_seen s); [done|]. cbn. rewrite drop_0. by apply NoDup_cons in Hseen as [_ ?].
    + intros x Hx ->%list_elem_of_singleton. apply Hn. rewrite <- (take_drop 1). apply elem_of_app. by right.
    + intros x Hx ->%list_elem_of_singleton. done.
Qed.

Lemma remember_tracks public c digest s :
  tracks public c s -> key32 digest -> digest ∉ rs_seen s -> tracks public c (remember digest s).
Proof. intros [] Hd Hn. constructor; try done. by apply remember_usable. Qed.

Lemma take_skipped_Some public number l key rest :
  take_skipped public number l = Some (key, rest) ->
  exists k l1 l2, l = l1 ++ k :: l2 /\ rest = l1 ++ l2 /\ skipped_identity k = (public, number) /\ sk_key k = key.
Proof.
  revert key rest. induction l as [|k l IH]; intros key rest; cbn [take_skipped]; [done|].
  destruct (bool_decide (sk_public k = public) && (sk_number k =? number)) eqn:E.
  - intros [= <- <-]. exists k, [], l. split_and!; try done. unfold skipped_identity.
    apply andb_prop in E as [E1%bool_decide_eq_true E2%Z.eqb_eq]. congruence.
  - destruct (take_skipped public number l) as [[key' rest']|]; [|done]. intros [= <- <-].
    destruct (IH key' rest' eq_refl) as (k' & l1 & l2 & -> & -> & Hi & Hk). by exists k', (k :: l1), l2.
Qed.

Lemma take_skipped_None public number l :
  take_skipped public number l = None -> forall k, k ∈ l -> skipped_identity k <> (public, number).
Proof.
  induction l as [|k l IH]; cbn [take_skipped]; [set_solver|].
  destruct (bool_decide (sk_public k = public) && (sk_number k =? number)) eqn:E; [done|].
  destruct (take_skipped public number l) as [[? ?]|]; [done|]. intros _ k' [->|Hk]%elem_of_cons; [|by apply IH].
  unfold skipped_identity. intros [= <- <-]. rewrite bool_decide_true, Z.eqb_refl in E; done.
Qed.

(** Removing one key keeps a state usable and tracking. *)
Lemma tracks_remove public c s k l1 l2 :
  tracks public c s -> rs_skipped s = l1 ++ k :: l2 ->
  tracks public c (set_receive s (rs_receiveChain s) (rs_receiveNumber s) (l1 ++ l2)).
Proof.
  intros [[[] Hp Hs Hr Hseen Hsk] Htp Hth Htc Hts] E. rewrite E in *.
  constructor; try done; [constructor; try done; [constructor; try done|]|]; cbn.
  - apply Forall_app in sh_skipped0 as [? [_ ?]%Forall_cons]. by apply Forall_app.
  - rewrite length_app in *. cbn in *. lia.
  - rewrite map_app in *. cbn in Hsk. rewrite NoDup_app, NoDup_cons in Hsk. rewrite NoDup_app.
    destruct Hsk as (? & H1 & ? & ?). split_and!; try done. intros x Hx Hx2. apply (H1 x Hx). by right.
  - intros k' Hk'. apply Hts. set_solver.
Qed.

Lemma skip_keys_number n s :
  rs_receiveNumber (skip_keys n s) = rs_receiveNumber s + Z.of_nat n /\
  rs_peerPublic (skip_keys n s) = rs_peerPublic s /\ rs_hasReceive (skip_keys n s) = rs_hasReceive s /\
  rs_seen (skip_keys n s) = rs_seen s /\ length (rs_skipped (skip_keys n s)) = (length (rs_skipped s) + n)%nat /\
  (forall k, k ∈ rs_skipped s -> k ∈ rs_skipped (skip_keys n s)).
Proof.
  revert s. induction n as [|n IH]; intros s; cbn [skip_keys]; [split_and!; try done; lia|].
  destruct (advanceChain _) as [key next].
  destruct (IH (set_receive s next (rs_receiveNumber s + 1)
     (rs_skipped s ++ [MkSkipped (rs_peerPublic s) (rs_receiveNumber s) key]))) as (H1 & H2 & H3 & H4 & H5 & H6).
  cbn in H1, H2, H3, H4, H5, H6. rewrite length_app in H5. cbn in H5. split_and!; try done; try lia.
  intros k Hk. apply H6. set_solver.
Qed.

Lemma skip_keys_rest n s :
  rs_root (skip_keys n s) = rs_root s /\ rs_hasSend (skip_keys n s) = rs_hasSend s /\
  rs_sendNumber (skip_keys n s) = rs_sendNumber s /\ rs_selfPrivate (skip_keys n s) = rs_selfPrivate s.
Proof.
  revert s. induction n as [|n IH]; intros s; cbn [skip_keys]; [done|].
  destruct (advanceChain _) as [key next]. apply (IH (set_receive _ _ _ _)).
Qed.

(** Only numbers not reached before are added. *)
Lemma skip_keys_from n s k :
  k ∈ rs_skipped (skip_keys n s) -> k ∈ rs_skipped s \/ rs_receiveNumber s <= sk_number k.
Proof.
  revert s. induction n as [|n IH]; intros s; cbn [skip_keys]; [auto|].
  destruct (advanceChain _) as [key next]. intros [Hk|Hk]%IH; cbn in Hk.
  - apply elem_of_app in Hk as [Hk| ->%list_elem_of_singleton]; [by left|right; cbn; lia].
  - right. lia.
Qed.

(** Skipping adds, for the current key, exactly the numbers passed. *)
Lemma skip_keys_tracks public c n s :
  tracks public c s -> rs_receiveNumber s + Z.of_nat n < 2 ^ 32 ->
  Z.of_nat (length (rs_skipped s)) + Z.of_nat n <= maxSkippedKeys ->
  tracks public c (skip_keys n s) /\
  (forall i, rs_receiveNumber s <= i < rs_receiveNumber s + Z.of_nat n ->
     exists k, k ∈ rs_skipped (skip_keys n s) /\ skipped_identity k = (public, i)).
Proof.
  revert s. induction n as [|n IH]; intros s Ht Hn Hb; cbn [skip_keys]; [split; [done|lia]|].
  pose proof Ht as [[[] Hp Hs Hr Hseen Hsk] Htp Hth Htc Hts]. destruct sh_numbers0 as (? & N2 & ?). unfold is_uint32 in N2.
  rewrite Htc, advanceChain_at.
  set (s1 := set_receive s (chain_at c (S (Z.to_nat (rs_receiveNumber s)))) (rs_receiveNumber s + 1)
     (rs_skipped s ++ [MkSkipped (rs_peerPublic s) (rs_receiveNumber s) (message_key c (Z.to_nat (rs_receiveNumber s)))])).
  assert (tracks public c s1) as Ht1.
  { constructor; try done; [constructor; try done; [constructor; try done| |]| |]; cbn.
    - split_and!; try done; unfold is_uint32; lia.
    - apply Forall_app. split; [done|]. constructor; [|constructor]. split_and!; [done|done|apply array32_length].
    - rewrite length_app. cbn. lia.
    - intros H'. congruence.
    - rewrite map_app. cbn. apply NoDup_app. split_and!; [done| |apply NoDup_singleton].
      intros x (k & -> & Hk)%list_elem_of_fmap Hx%list_elem_of_singleton. unfold skipped_identity in Hx. cbn in Hx.
      injection Hx as Hx1 Hx2. destruct (Hts k Hk) as [Hlt _]; [congruence|]. lia.
    - f_equal. by rewrite Z2Nat.inj_add by lia; rewrite Nat.add_comm.
    - intros k [Hk| ->%list_elem_of_singleton]%elem_of_app Hpk; cbn in *.
      + destruct (Hts k Hk Hpk). split; [lia|done].
      + split; [lia|done]. }
  destruct (IH s1 Ht1) as [Ht2 Hk2]; [cbn; lia|cbn; rewrite length_app; cbn; lia|]. split; [done|].
  intros i Hi. destruct (decide (i = rs_receiveNumber s)) as [->|Hne].
  - exists (MkSkipped (rs_peerPublic s) (rs_receiveNumber s) (message_key c (Z.to_nat (rs_receiveNumber s)))).
    split; [|unfold skipped_identity; cbn; congruence]. apply skip_keys_number. cbn. set_solver.
  - apply Hk2. cbn. lia.
Qed.

Lemma chain_message_read public previous c binding i p :
  key32 public -> is_uint32 previous -> Z.of_nat i < u32_limit ->
  let h := MkHeader public previous (Z.of_nat i) in
  let ct := chain_message public previous c binding i p in
  decodeHeader ct = Ok (h, sealMessage (message_key c i) p (encodeHeader h ++ binding)) /\
  take headerBytes ct = encodeHeader h.
Proof.
  intros Hp Hq Hi h ct. unfold u32_limit in Hi. apply header_read; try done; [unfold is_uint32; cbn; lia|].
  rewrite sealMessage_length. lia.
Qed.

(** Advancing past the current number. *)
Lemma tracks_next public c s :
  tracks public c s -> rs_receiveNumber s < u32_limit ->
  let s' := set_receive s (chain_at c (S (Z.to_nat (rs_receiveNumber s)))) (u32 (rs_receiveNumber s + 1)) (rs_skipped s) in
  tracks public c s' /\ rs_receiveNumber s' = rs_receiveNumber s + 1.
Proof.
  intros Ht Hn s'. pose proof Ht as [[[] Hp Hs Hr Hseen Hsk] Htp Hth Htc Hts]. unfold u32_limit in Hn.
  destruct sh_numbers0 as (? & N2 & ?). unfold is_uint32 in N2.
  assert (u32 (rs_receiveNumber s + 1) = rs_receiveNumber s + 1) as E by (apply Z.mod_small; lia).
  split; [|done]. subst s'. rewrite E. constructor; try done; [constructor; try done; [constructor; try done|]|..]; cbn [set_receive rs_sendNumber rs_receiveNumber rs_previousSendNumber rs_hasReceive rs_receiveChain rs_skipped].
  - split_and!; try done; unfold is_uint32; lia.
  - congruence.
  - f_equal. lia.
  - intros k Hk Hpk. destruct (Hts k Hk Hpk). split; [lia|done].
Qed.

(** What opening a message of the chain leaves. *)
Definition opened_one (public c : bytes) (s s' : ratchetState) (i : nat) (ct : bytes) : Prop :=
  tracks public c s' /\ ~ unread public s' i /\ (forall j, j <> i -> unread public s j <-> unread public s' j) /\
  rs_receiveNumber s' = Z.max (rs_receiveNumber s) (Z.of_nat i + 1) /\
  Z.of_nat (length (rs_skipped s')) - rs_receiveNumber s' =
    Z.of_nat (length (rs_skipped s)) - rs_receiveNumber s - 1 /\
  (forall d, d ∈ rs_seen s' -> d ∈ rs_seen s \/ d = sha256 ct) /\
  (rs_root s', rs_hasSend s', rs_sendNumber s') = (rs_root s, rs_hasSend s, rs_sendNumber s).

Lemma remember_seen digest s d : d ∈ rs_seen (remember digest s) -> d ∈ rs_seen s \/ d = digest.
Proof.
  unfold remember. cbn. destruct (_ =? _); intros [H|H%list_elem_of_singleton]%elem_of_app; auto.
  left. rewrite <- (take_drop 1 (rs_seen s)). apply elem_of_app. by right.
Qed.

Lemma unread_remember public digest s i : unread public (remember digest s) i <-> unread public s i.
Proof. done. Qed.

Lemma skipped_gone public c s k l1 l2 i :
  tracks public c s -> rs_skipped s = l1 ++ k :: l2 -> skipped_identity k = (public, Z.of_nat i) ->
  ~ unread public (set_receive s (rs_receiveChain s) (rs_receiveNumber s) (l1 ++ l2)) i.
Proof.
  intros Ht E Hk [Hge|(k' & Hin & Hk')]; cbn in *.
  - destruct (tk_skipped _ _ _ Ht k) as [Hlt _]; [rewrite E; set_solver|by injection Hk|]. injection Hk as _ Hk. lia.
  - pose proof (us_skipped _ (tk_usable _ _ _ Ht)) as Hnd. rewrite E, map_app in Hnd. cbn in Hnd.
    rewrite NoDup_app, NoDup_cons in Hnd. destruct Hnd as (_ & H1 & H2 & _).
    apply elem_of_app in Hin as [Hin|Hin].
    + apply (H1 (skipped_identity k')); [by apply list_elem_of_fmap_2|]. rewrite Hk', Hk. left.
    + apply H2. rewrite Hk, <- Hk'. by apply list_elem_of_fmap_2.
Qed.

(** A message of the chain that was not opened is opened, whatever arrived
    before it. *)
Lemma open_chain_message public previous c binding i p s :
  tracks public c s -> unread public s i -> Z.of_nat i < u32_limit -> is_uint32 previous -> room_for (Z.of_nat i) s ->
  let ct := chain_message public previous c binding i p in
  sha256 ct ∉ rs_seen s ->
  exists s', open_state s ct binding = Ok (p, s') /\ opened_one public c s s' i ct.
Proof.
  intros Ht Hun Hi Hq Hroom ct Hseen. pose proof (us_shaped _ (tk_usable _ _ _ Ht)) as Hsh.
  assert (key32 public) as Hpub by (rewrite <- (tk_peer _ _ _ Ht); apply Hsh).
  destruct (chain_message_read public previous c binding i p Hpub Hq Hi) as [Hdec Htake].
  assert (key32 (sha256 ct)) as Hd32 by apply length_sha256.
  unfold open_state, hasSeen. rewrite bool_decide_false by done. fold ct in Hdec, Htake. rewrite Hdec, Htake.
  cbn [mh_public mh_number mh_previousNumber].
  destruct (take_skipped public (Z.of_nat i) (rs_skipped s)) as [[key rest]|] eqn:Hts.
  - destruct (take_skipped_Some _ _ _ _ _ Hts) as (k & l1 & l2 & Hl & -> & Hk & <-).
    destruct (tk_skipped _ _ _ Ht k) as [Hlt Hkey]; [rewrite Hl; set_solver|by injection Hk|].
    injection Hk as Hk1 Hk2. rewrite Hk2, Nat2Z.id in Hkey. rewrite Hkey. unfold open_message. rewrite sealMessage_open.
    eexists. split; [done|]. pose proof (tracks_remove _ _ _ _ _ _ Ht Hl) as Ht'. unfold opened_one. split_and!.
    + by apply remember_tracks.
    + apply (skipped_gone public c s k l1 l2 i Ht Hl). unfold skipped_identity. congruence.
    + intros j Hj. rewrite unread_remember. split; intros [?|(k' & Hin & Hk')]; [by left| |by left|]; right; cbn in *; cycle 1.
      { exists k'. split; [rewrite Hl; set_solver|done]. }
      exists k'. split; [|done]. rewrite Hl in Hin. apply elem_of_app in Hin as [?|[->|?]%elem_of_cons]; [set_solver| |set_solver].
      unfold skipped_identity in Hk'. injection Hk' as _ Hj'. lia.
    + cbn. lia.
    + cbn [remember set_seen set_receive rs_skipped rs_receiveNumber]. rewrite Hl, !length_app. cbn [length]. lia.
    + intros d Hd%remember_seen. exact Hd.
    + done.
  - pose proof (take_skipped_None _ _ _ Hts) as Hnone. destruct Hun as [Hge|(k & Hin & Hk)]; [|by destruct (Hnone k)].
    rewrite (tk_peer _ _ _ Ht), bool_decide_true by done. rewrite (proj2 (Z.ltb_ge _ _)) by done.
    unfold room_for, maxSkippedKeys in Hroom. destruct (sh_numbers _ Hsh) as (_ & N2 & _). unfold is_uint32, u32_limit in *.
    unfold skipTo, maxSkippedKeys. rewrite (proj2 (Z.ltb_ge _ _)) by done.
    rewrite (proj2 (Z.ltb_ge _ _)), (proj2 (Z.ltb_ge _ _)) by lia. cbn [orb]. rewrite (tk_has _ _ _ Ht), andb_false_r.
    set (n := Z.to_nat (Z.of_nat i - rs_receiveNumber s)).
    destruct (skip_keys_tracks public c n s Ht) as [Ht1 Hk1]; [lia|unfold maxSkippedKeys; lia|].
    destruct (skip_keys_number n s) as (Hn & _ & _ & Hse & Hlen & Hold).
    assert (rs_receiveNumber (skip_keys n s) = Z.of_nat i) as Hni by lia.
    rewrite (tk_has _ _ _ Ht1). cbn [negb]. rewrite (tk_chain _ _ _ Ht1), Hni, Nat2Z.id, advanceChain_at.
    unfold open_message. rewrite sealMessage_open. eexists. split; [done|].
    destruct (tracks_next public c (skip_keys n s) Ht1) as [Ht2 Hn2]; [unfold u32_limit; lia|].
    rewrite Hni, Nat2Z.id in Ht2. cbn [set_receive rs_receiveNumber] in Hn2. rewrite Hni in Hn2. unfold opened_one. split_and!.
    + apply remember_tracks; [done..|]. cbn. by rewrite Hse.
    + rewrite unread_remember. intros [Hge'|(k & Hin & Hk)]; cbn in *; [lia|].
      destruct (tk_skipped _ _ _ Ht1 k Hin) as [Hlt _]; [by injection Hk|]. injection Hk as _ Hk. lia.
    + intros j Hj. rewrite unread_remember. unfold unread. cbn [set_receive rs_receiveNumber rs_skipped]. rewrite Hn2.
      split; intros [Hge'|(k & Hin & Hk)]; [|right; exists k; auto|left; lia|]; cycle 1.
      { destruct (skip_keys_from _ _ _ Hin); [by right; exists k|]. left. injection Hk as _ Hk. lia. }
      destruct (decide (Z.of_nat i + 1 <= Z.of_nat j)); [by left|right]. apply Hk1. lia.
    + cbn [remember set_seen set_receive rs_skipped rs_receiveNumber]. rewrite Hn2. lia.
    + cbn [remember set_seen set_receive rs_skipped rs_receiveNumber]. rewrite Hn2, Hlen. lia.
    + intros d Hd%remember_seen. cbn in Hd. by rewrite Hse in Hd.
    + cbn. destruct (skip_keys_rest n s) as (-> & -> & -> & _). done.
Qed.

(** An opened message of the chain is refused for good. *)
Lemma reopen_refused public previous c binding i p s :
  tracks public c s -> ~ unread public s i -> Z.of_nat i < u32_limit -> is_uint32 previous ->
  open_state s (chain_message public previous c binding i p) binding = Err ErrReplayed.
Proof.
  intros Ht Hun Hi Hq. pose proof (us_shaped _ (tk_usable _ _ _ Ht)) as Hsh.
  assert (key32 public) as Hpub by (rewrite <- (tk_peer _ _ _ Ht); apply Hsh).
  destruct (chain_message_read public previous c binding i p Hpub Hq Hi) as [Hdec _].
  unfold open_state, hasSeen. destruct (bool_decide _); [done|]. rewrite Hdec. cbn [mh_public mh_number mh_previousNumber].
  destruct (take_skipped public (Z.of_nat i) (rs_skipped s)) as [[key rest]|] eqn:Hts.
  - destruct (take_skipped_Some _ _ _ _ _ Hts) as (k & l1 & l2 & Hl & _ & Hk & _). destruct Hun. right.
    exists k. split; [rewrite Hl; set_solver|done].
  - rewrite (tk_peer _ _ _ Ht), bool_decide_true by done. rewrite (proj2 (Z.ltb_lt _ _)); [done|].
    destruct (Z.lt_ge_cases (Z.of_nat i) (rs_receiveNumber s)); [done|]. destruct Hun. by left.
Qed.

(** ** Both ends of a session *)

(** [a] sends along chain [c], [b] follows it and has opened everything, and so
    has [a] of what [b] sent before. *)
Record lockstep (c : bytes) (a b : ratchetState) : Prop := {
  lk_usable : usable_state a;
  lk_tracks : tracks (rs_selfPublic a) c b;
  lk_sends : rs_hasSend a = true;
  lk_waits : rs_hasSend b = false;
  lk_chain : rs_sendChain a = chain_at c (Z.to_nat (rs_sendNumber a));
  lk_number : rs_receiveNumber b = rs_sendNumber a;
  lk_back : rs_receiveNumber a = rs_sendNumber b;
  lk_root : rs_root a = rs_root b;
}.

(** The two stored states of a session. *)
Definition in_session (c ra rb : bytes) : Prop :=
  exists a b, decodeRatchetState ra = Ok a /\ decodeRatchetState rb = Ok b /\ lockstep c a b.

Lemma tracks_sorted public c s : tracks public c s -> tracks public c (sorted_state s).
Proof.
  intros []. constructor; try done; [by apply sort_usable|]. cbn. intros k. rewrite merge_sort_Permutation. apply tk_skipped0.
Qed.

Lemma lockstep_sorted c a b : lockstep c a b -> lockstep c (sorted_state a) (sorted_state b).
Proof. intros []. constructor; try done; [by apply sort_usable|by apply tracks_sorted]. Qed.

Lemma unread_sorted public s i : unread public (sorted_state s) i <-> unread public s i.
Proof. unfold unread. cbn. by setoid_rewrite merge_sort_Permutation. Qed.

Lemma sorted_length s : length (rs_skipped (sorted_state s)) = length (rs_skipped s).
Proof. cbn. apply Permutation_length, merge_sort_Permutation. Qed.

(** A usable state can be stored, and is read back sorted. *)
Lemma store_usable s : usable_state s -> exists raw,
  encodeRatchetState s = Ok raw /\ decodeRatchetState raw = Ok (sorted_state s).
Proof.
  intros Hu. destruct (encode_granted s (us_shaped _ Hu)) as (raw & He & _). exists raw. split; [done|].
  by apply decode_encoded.
Qed.

(** *** Sending a batch *)

Fixpoint seal_all (random : result bytes) (raw : bytes) (plaintexts : list bytes) (binding : bytes)
    : result (list bytes * bytes) :=
  match plaintexts with
  | [] => Ok ([], raw)
  | p :: rest =>
      let* (ct, raw) := ratchet_Seal random raw p binding in
      let* (cts, raw) := seal_all random raw rest binding in
      Ok (ct :: cts, raw)
  end.

Fixpoint open_all (raw : bytes) (ciphertexts : list bytes) (binding : bytes) : result (list bytes * bytes) :=
  match ciphertexts with
  | [] => Ok ([], raw)
  | ct :: rest =>
      let* (p, raw) := ratchet_Open raw ct binding in
      let* (ps, raw) := open_all raw rest binding in
      Ok (p :: ps, raw)
  end.

(** A sender at number [n] of chain [c]. *)
Record sending (c : bytes) (n : nat) (s : ratchetState) : Prop := {
  sd_usable : usable_state s;
  sd_has : rs_hasSend s = true;
  sd_chain : rs_sendChain s = chain_at c n;
  sd_number : rs_sendNumber s = Z.of_nat n;
}.

Lemma seal_chain_message random c n s p binding ct s' :
  sending c n s -> seal_state random s p binding = Ok (ct, s') ->
  Z.of_nat n < u32_limit /\ ct = chain_message (rs_selfPublic s) (rs_previousSendNumber s) c binding n p /\
  sending c (S n) s' /\ s' = set_send s (chain_at c (S n)) (Z.of_nat (S n)).
Proof.
  intros [Hu Hh Hc Hn]. unfold seal_state. rewrite Hh, Hc, Hn, advanceChain_at.
  destruct (Z.eqb_spec (Z.of_nat n) u32_limit); [done|]. intros [= <- <-].
  pose proof (us_shaped _ Hu) as Hs. destruct (sh_numbers _ Hs) as (N1 & N2 & N3). rewrite Hn in N1.
  unfold is_uint32, u32_limit in *.
  assert (u32 (Z.of_nat n + 1) = Z.of_nat (S n)) as -> by (unfold u32; rewrite Z.mod_small by lia; lia).
  split_and!; [lia|done| |done]. constructor; try done.
  destruct Hu as [[] Hp Hcs Hcr Hse Hsk]. constructor; try done; [constructor; try done|].
  - split_and!; try done. unfold is_uint32. cbn. lia.
  - cbn. congruence.
Qed.

(** The messages of a batch, numbered. *)
Definition numbered (n : nat) (ps : list bytes) : list (nat * bytes) := imap (fun i p => ((n + i)%nat, p)) ps.

Lemma numbered_cons n p ps : numbered n (p :: ps) = (n, p) :: numbered (S n) ps.
Proof.
  unfold numbered. rewrite imap_cons, Nat.add_0_r. f_equal. apply imap_ext. intros i x _. cbn. by rewrite Nat.add_succ_r.
Qed.

Lemma seal_all_messages random c n raw s ps binding cts raw' :
  decodeRatchetState raw = Ok s -> sending c n s -> seal_all random raw ps binding = Ok (cts, raw') ->
  exists s', decodeRatchetState raw' = Ok s' /\ sending c (n + length ps) s' /\
    cts = map (fun '(i, p) => chain_message (rs_selfPublic s) (rs_previousSendNumber s) c binding i p) (numbered n ps) /\
    (ps <> [] -> Z.of_nat (n + length ps) <= u32_limit) /\
    (rs_selfPublic s', rs_root s', rs_receiveNumber s', rs_previousSendNumber s') =
    (rs_selfPublic s, rs_root s, rs_receiveNumber s, rs_previousSendNumber s).
Proof.
  revert n raw s cts. induction ps as [|p ps IH]; intros n raw s cts Hd Hs H; cbn [seal_all] in H.
  { injection H as <- <-. exists s. split_and!; try done. by rewrite Nat.add_0_r. }
  unfold ratchet_Seal in H. rewrite Hd in H. destruct (seal_state random s p binding) as [[ct s1]|] eqn:E1; [|done].
  destruct (seal_chain_message _ _ _ _ _ _ _ _ Hs E1) as (Hlt & Hct & Hs1 & Hs1').
  destruct (store_usable s1 (sd_usable _ _ _ Hs1)) as (raw1 & He1 & Hd1). rewrite He1 in H.
  destruct (seal_all random raw1 ps binding) as [[cts1 raw2]|] eqn:E2; [|done]. injection H as <- <-.
  assert (sending c (S n) (sorted_state s1)) as Hs2.
  { destruct Hs1. constructor; try done. by apply sort_usable. }
  destruct (IH (S n) raw1 (sorted_state s1) cts1 Hd1 Hs2 E2) as (s' & Hd' & Hs' & Hcts & Hb & Heq).
  exists s'. replace (n + length (p :: ps))%nat with (S n + length ps)%nat by (cbn; lia). split_and!; try done.
  - rewrite numbered_cons. cbn [map]. rewrite Hct, Hcts. f_equal. by rewrite Hs1'.
  - intros _. destruct ps as [|q qs]; [cbn; unfold u32_limit in *; lia|by apply Hb].
  - rewrite Heq. by rewrite Hs1'.
Qed.

(** *** Reading a batch in any order *)

(** A batch of messages of one chain. *)
Definition message_of (public : bytes) (previous : Z) (c binding : bytes) (m : nat * bytes) : bytes :=
  chain_message public previous c binding m.1 m.2.

(** What reading a batch leaves of the state. *)
Record opened_batch (public c : bytes) (s s' : ratchetState) (top : Z) (batch : list (nat * bytes)) : Prop := {
  ob_tracks : tracks public c s';
  ob_read : forall m, m ∈ batch -> ~ unread public s' m.1;
  ob_low : rs_receiveNumber s <= rs_receiveNumber s';
  ob_high : rs_receiveNumber s' <= Z.max (rs_receiveNumber s) (top + 1);
  ob_still : forall j, ~ unread public s j -> ~ unread public s' j;
  ob_kept : (rs_root s', rs_hasSend s', rs_sendNumber s') = (rs_root s, rs_hasSend s, rs_sendNumber s);
}.

Lemma open_batch public previous c binding batch top raw s :
  decodeRatchetState raw = Ok s -> tracks public c s -> is_uint32 previous -> top < u32_limit -> room_for top s ->
  NoDup (map fst batch) -> (forall m, m ∈ batch -> unread public s m.1 /\ Z.of_nat m.1 <= top) ->
  let cts := map (message_of public previous c binding) batch in
  NoDup (map sha256 cts) -> (forall ct, ct ∈ cts -> sha256 ct ∉ rs_seen s) ->
  exists raw' s', open_all raw cts binding = Ok (map snd batch, raw') /\ decodeRatchetState raw' = Ok s' /\
    opened_batch public c s s' top batch.
Proof.
  intros Hd Ht Hq Htop Hroom Hnd Hun cts Hsha Hseen. subst cts. revert raw s Hd Ht Hroom Hun Hseen.
  induction batch as [|[i p] batch IH]; intros raw s Hd Ht Hroom Hun Hseen; cbn [map open_all fmap list_fmap].
  { exists raw, s. split_and!; try done. constructor; try done; [set_solver|lia]. }
  cbn [map fst] in Hnd, Hsha. apply NoDup_cons in Hnd as [Hi Hnd]. apply NoDup_cons in Hsha as [Hsi Hsha].
  destruct (Hun (i, p)) as [Hui Hit]; [left|]. cbn in Hui, Hit.
  destruct (open_chain_message public previous c binding i p s) as (s1 & Ho & Ht1 & Hr1 & Hoth & Hn1 & Hb1 & Hs1 & Hk1);
    try done; [lia|unfold room_for in *; lia|apply Hseen; left|].
  destruct (store_usable s1 (tk_usable _ _ _ Ht1)) as (raw1 & He1 & Hd1).
  destruct (IH Hnd Hsha raw1 (sorted_state s1)) as (raw' & s' & Hall & Hd' & [Htr Hread Hlow Hhigh Hstill Hkept]); try done.
  - by apply tracks_sorted.
  - unfold room_for in *. rewrite sorted_length. cbn [sorted_state set_receive rs_receiveNumber]. lia.
  - intros m Hm. destruct (Hun m) as [Hum Hmt]; [by right|]. split; [|done]. apply unread_sorted.
    apply Hoth; [|done]. intros E. apply Hi. rewrite <- E. by apply list_elem_of_fmap_2.
  - intros ct Hct Hin. cbn in Hin. apply Hs1 in Hin as [Hin|Hin].
    + by apply (Hseen ct); [right|].
    + apply Hsi. change (message_of _ _ _ _ (i, p)) with (chain_message public previous c binding i p).
      rewrite <- Hin. by apply list_elem_of_fmap_2.
  - exists raw', s'. unfold ratchet_Open. rewrite Hd. change (message_of _ _ _ _ (i, p)) with (chain_message public previous c binding i p).
    rewrite Ho, He1, Hall. split_and!; try done.
    assert (forall j, ~ unread public s1 j -> ~ unread public s' j) as Hst.
    { intros j Hj. apply Hstill. by rewrite unread_sorted. }
    constructor; try done.
    + intros m [->|Hm]%elem_of_cons; [by apply Hst|by apply Hread].
    + cbn in Hlow. lia.
    + cbn in Hhigh. lia.
    + intros j Hj. apply Hst. destruct (decide (j = i)) as [->|Hne]; [done|]. by rewrite <- Hoth.
    + rewrite Hkept. exact Hk1.
Qed.

Lemma numbered_spec n ps m : m ∈ numbered n ps -> (n <= m.1 < n + length ps)%nat.
Proof.
  revert n. induction ps as [|p ps IH]; intros n; [set_solver|]. rewrite numbered_cons.
  intros [->|Hm%IH]%elem_of_cons; cbn; lia.
Qed.

Lemma numbered_fst n ps : map fst (numbered n ps) = seq n (length ps).
Proof. revert n. induction ps as [|p ps IH]; intros n; [done|]. rewrite numbered_cons. cbn. f_equal. apply IH. Qed.

Lemma numbered_zip (f : nat * bytes -> bytes) n ps :
  zip (map f (numbered n ps)) ps = map (fun m => (f m, m.2)) (numbered n ps).
Proof.
  revert n. induction ps as [|p ps IH]; intros n; [done|]. rewrite numbered_cons. cbn [map zip zip_with snd].
  f_equal. apply IH.
Qed.

Lemma numbered_last n ps : ps <> [] -> exists p, ((n + length ps - 1)%nat, p) ∈ numbered n ps.
Proof.
  revert n. induction ps as [|p ps IH]; intros n; [done|]. intros _. rewrite numbered_cons.
  destruct ps as [|q qs]; [exists p; apply elem_of_cons; left; f_equal; cbn; lia|].
  destruct (IH (S n)) as [p' Hp]; [done|]. exists p'. right.
  by replace (n + length (p :: q :: qs) - 1)%nat with (S n + length (q :: qs) - 1)%nat by (cbn; lia).
Qed.

(** C36: A batch sealed by the sending end is opened by the receiving end whatever
    the order it arrives in, each message to its own plaintext, as long as the
    skipped keys the receiver holds leave room for it; the two ends are then in
    session again, and every message of the batch is refused as a replay from then
    on.  The receiver is assumed to see no digest twice. *)
Theorem ratchet_any_order c ra rb b random binding ps cts ra' arrived :
  in_session c ra rb -> decodeRatchetState rb = Ok b ->
  seal_all random ra ps binding = Ok (cts, ra') -> arrived ≡ₚ zip cts ps ->
  Z.of_nat (length ps) + Z.of_nat (length (rs_skipped b)) <= maxSkippedKeys + 1 ->
  NoDup (map sha256 cts) -> (forall ct, ct ∈ cts -> sha256 ct ∉ rs_seen b) ->
  exists rb', open_all rb (map fst arrived) binding = Ok (map snd arrived, rb') /\ in_session c ra' rb' /\
    forall ct, ct ∈ cts -> ratchet_Open rb' ct binding = Err ErrReplayed.
Proof.
  intros (a & b' & Ha & Hb' & L) Hb Hseal Harr Hroom Hnd Hseen. rewrite Hb in Hb'. apply Ok_inj in Hb' as <-.
  pose proof (us_shaped _ (lk_usable _ _ _ L)) as Hsa. destruct (sh_numbers _ Hsa) as (N1 & _ & N3). unfold is_uint32 in N1.
  set (n := Z.to_nat (rs_sendNumber a)).
  assert (sending c n a) as Hsend by (constructor; try apply L; lia).
  destruct (seal_all_messages _ _ _ _ _ _ _ _ _ Ha Hsend Hseal) as (a' & Ha' & Hs' & Hcts & Hlim & Heq).
  change (cts = map (fun '(i, p) => message_of (rs_selfPublic a) (rs_previousSendNumber a) c binding (i, p)) (numbered n ps)) in Hcts.
  assert (cts = map (message_of (rs_selfPublic a) (rs_previousSendNumber a) c binding) (numbered n ps)) as Hcts'.
  { rewrite Hcts. apply map_ext. by intros []. }
  clear Hcts. rewrite Hcts', numbered_zip in Harr. apply Permutation_map_inv in Harr as (batch & -> & Hperm).
  rewrite !map_map. cbn [fst snd].
  assert (forall m, m ∈ batch -> (n <= m.1 < n + length ps)%nat) as Hrange.
  { intros m. rewrite <- Hperm. apply numbered_spec. }
  pose proof (lk_number _ _ _ L) as Hnum.
  destruct (open_batch (rs_selfPublic a) (rs_previousSendNumber a) c binding batch (rs_sendNumber a + Z.of_nat (length ps) - 1) rb b)
    as (rb' & b1 & Hopen & Hb1 & [Htr Hread Hlow Hhigh _ Hkept]); try done; [apply L|..].
  - destruct ps; [cbn; unfold u32_limit; lia|]. specialize (Hlim ltac:(done)). lia.
  - unfold room_for. lia.
  - rewrite <- (Permutation_map fst Hperm), numbered_fst. apply NoDup_seq.
  - intros m Hm%Hrange. split; [left; lia|lia].
  - by rewrite <- Hperm, <- Hcts'.
  - intros ct. rewrite <- Hperm, <- Hcts'. apply Hseen.
  - exists rb'. injection Heq as Hpub Hroot Hrn _. injection Hkept as Hroot' Hhs Hsn. split_and!.
    + done.
    + exists a', b1. split_and!; try done. destruct Hs' as [Hu Hh Hc Hn]. constructor; try done; try congruence.
      * rewrite Hhs. apply L.
      * by rewrite Hn, Nat2Z.id.
      * rewrite Hn. destruct (decide (ps = [])) as [->|Hne]; [cbn in *; lia|].
        destruct (numbered_last n ps Hne) as [p Hp]. rewrite Hperm in Hp. apply Hread in Hp. cbn in Hp.
        destruct (Z.lt_ge_cases (Z.of_nat (n + length ps - 1)) (rs_receiveNumber b1)); [lia|]. destruct Hp. by left.
      * rewrite Hrn, Hsn. apply L.
      * rewrite Hroot, Hroot'. apply L.
    + rewrite Hcts'. intros ct ([i p] & -> & Hm)%list_elem_of_fmap. rewrite Hperm in Hm.
      pose proof (Hrange _ Hm) as Hi. cbn in Hi. unfold ratchet_Open. rewrite Hb1.
      unfold message_of. cbn [fst snd]. rewrite (reopen_refused (rs_selfPublic a)); try done; [by apply (Hread (i, p))|].
      destruct ps; [cbn in Hi; lia|]. specialize (Hlim ltac:(done)). lia.
Qed.

(** *** Changing direction *)

Lemma deriveRoot_keys root shared : key32 (deriveRoot root shared).1 /\ key32 (deriveRoot root shared).2.
Proof. unfold deriveRoot. cbn [fst snd]. split; apply array32_length. Qed.

(** The state of the answering end after its first message of a new chain. *)
Definition turned (f shared : bytes) (b : ratchetState) : ratchetState :=
  let '(root, c) := deriveRoot (rs_root b) shared in
  MkRatchet root f (x25519_public f) (rs_peerPublic b) (chain_at c 1) (rs_receiveChain b) true (rs_hasReceive b) 1
    (rs_receiveNumber b) (rs_sendNumber b) (rs_skipped b) (rs_seen b).

Lemma turned_fields f shared b :
  rs_selfPublic (turned f shared b) = x25519_public f /\ rs_receiveNumber (turned f shared b) = rs_receiveNumber b /\
  rs_root (turned f shared b) = (deriveRoot (rs_root b) shared).1.
Proof. unfold turned. by destruct (deriveRoot _ _). Qed.

Lemma seal_turn f shared b p binding :
  usable_state b -> rs_hasSend b = false -> key32 f -> x25519_ecdh f (rs_peerPublic b) = Some shared ->
  let c := (deriveRoot (rs_root b) shared).2 in
  seal_state (Ok f) b p binding =
    Ok (chain_message (x25519_public f) (rs_sendNumber b) c binding 0 p, turned f shared b) /\
  sending c 1 (turned f shared b).
Proof.
  intros Hu Hw Hf Hs c. subst c. destruct (deriveRoot_keys (rs_root b) shared) as [K1 K2]. split.
  - unfold seal_state, advanceSendingRatchet, generateX25519, ecdh, turned. rewrite Hw, Hs.
    destruct (deriveRoot (rs_root b) shared) as [root c]. cbn [snd rs_sendNumber rs_selfPublic rs_previousSendNumber rs_sendChain].
    rewrite (array32_id f), (array32_id (x25519_public f)) by (try apply public_length; done).
    change (0 =? u32_limit) with false. by rewrite (advanceChain_at c 0 : advanceChain c = _).
  - unfold turned. destruct (deriveRoot (rs_root b) shared) as [root c]. cbn [fst snd] in *.
    destruct Hu as [[] Hp Hcs Hcr Hse Hsk]. destruct sh_numbers0 as (? & ? & ?). constructor; try done.
    constructor; try done. constructor; try done. by apply public_length.
Qed.

(** What the other end becomes when it reads the new key. *)
Lemma receive_turn f shared a :
  usable_state a -> key32 f -> x25519_ecdh (rs_selfPrivate a) (x25519_public f) = Some shared ->
  (forall k, k ∈ rs_skipped a -> sk_public k <> x25519_public f) ->
  exists a', advanceReceivingRatchet (x25519_public f) a = Ok a' /\
    tracks (x25519_public f) (deriveRoot (rs_root a) shared).2 a' /\
    (rs_root a', rs_hasSend a', rs_sendNumber a', rs_receiveNumber a', rs_skipped a', rs_seen a') =
    ((deriveRoot (rs_root a) shared).1, false, rs_sendNumber a, 0, rs_skipped a, rs_seen a).
Proof.
  intros Hu Hf Hs Hk. destruct (deriveRoot_keys (rs_root a) shared) as [K1 K2].
  unfold advanceReceivingRatchet, ecdh. rewrite Hs. destruct (deriveRoot (rs_root a) shared) as [root c].
  cbn [fst snd] in *. eexists. split; [done|]. split; [|done]. destruct Hu as [[] Hp Hcs Hcr Hse Hsk].
  destruct sh_numbers0 as (? & ? & ?). constructor; try done; cbn.
  - constructor; try done. constructor; try done. by apply public_length.
  - intros k Hin E. by destruct (Hk k Hin).
Qed.

(** When the end that was receiving answers, it turns the ratchet with a fresh
    key: its message is sealed whenever the key agreement succeeds, the other end
    opens it, both have derived the same chain, and they are in session with their
    roles exchanged, so that either direction can go on indefinitely. *)
Theorem ratchet_turns c ra rb a b f shared p binding :
  in_session c ra rb -> decodeRatchetState ra = Ok a -> decodeRatchetState rb = Ok b ->
  key32 f -> x25519_ecdh f (rs_selfPublic a) = Some shared ->
  x25519_public f ∉ rs_peerPublic a :: map sk_public (rs_skipped a) ->
  exists ct rb', ratchet_Seal (Ok f) rb p binding = Ok (ct, rb') /\
    (sha256 ct ∉ rs_seen a ->
     exists ra', ratchet_Open ra ct binding = Ok (p, ra') /\ in_session (deriveRoot (rs_root a) shared).2 rb' ra').
Proof.
  intros (a' & b' & Ha' & Hb' & L) Ha Hb Hf Hs Hfresh. rewrite Ha in Ha'. rewrite Hb in Hb'.
  apply Ok_inj in Ha' as <-, Hb' as <-. destruct L as [Hua Htb Hsa Hwb _ Hnum Hback Hroot].
  apply not_elem_of_cons in Hfresh as [Hpeer Hfresh].
  assert (forall k, k ∈ rs_skipped a -> sk_public k <> x25519_public f) as Hk.
  { intros k Hin E. apply Hfresh. rewrite <- E. by apply list_elem_of_fmap_2. }
  pose proof (us_shaped _ Hua) as Hsh. pose proof (sh_private _ Hsh) as Hpa. pose proof (public_length f Hf) as HF.
  assert (x25519_ecdh (rs_selfPrivate a) (x25519_public f) = Some shared) as Hs'.
  { by rewrite (ecdh_agrees (rs_selfPrivate a) f), (us_pair _ Hua). }
  destruct (seal_turn f shared b p binding) as [Hseal Hsend]; try done; [apply Htb|by rewrite (tk_peer _ _ _ Htb)|].
  destruct (store_usable _ (sd_usable _ _ _ Hsend)) as (rb' & He & Hd).
  set (c' := (deriveRoot (rs_root b) shared).2) in *.
  exists (chain_message (x25519_public f) (rs_sendNumber b) c' binding 0 p), rb'. unfold ratchet_Seal. rewrite Hb, Hseal, He.
  split; [done|]. intros Hseen.
  destruct (receive_turn f shared a) as (a1 & Hadv & Htr & Heq); try done. rewrite Hroot in Htr, Heq |- *. fold c' in Htr |- *.
  injection Heq as R1 R2 R3 R4 R5 R6.
  assert (is_uint32 (rs_sendNumber b)) as HN by apply (us_shaped _ (tk_usable _ _ _ Htb)).
  destruct (chain_message_read (x25519_public f) (rs_sendNumber b) c' binding 0 p) as [Hdec Htake]; try done.
  destruct (open_chain_message (x25519_public f) (rs_sendNumber b) c' binding 0 p a1) as (a2 & Ho & Ht2 & _ & _ & Hn2 & _ & _ & Hk2);
    try done; [left; rewrite R4; done|unfold room_for; rewrite R4, R5; pose proof (sh_skipped_bound _ Hsh); lia|by rewrite R6|].
  assert (open_state a (chain_message (x25519_public f) (rs_sendNumber b) c' binding 0 p) binding = Ok (p, a2)) as Hopen.
  { rewrite <- Ho. unfold open_state, hasSeen. rewrite R6, !bool_decide_false by done. rewrite Hdec, Htake, R5.
    cbn [mh_public mh_number mh_previousNumber].
    destruct (take_skipped (x25519_public f) (Z.of_nat 0) (rs_skipped a)) as [[key rest]|] eqn:Et.
    { destruct (take_skipped_Some _ _ _ _ _ Et) as (k & l1 & l2 & El & _ & Ek & _). destruct (Hk k).
      - rewrite El. set_solver.
      - by injection Ek. }
    rewrite (bool_decide_false (_ = rs_peerPublic a)) by done. rewrite (bool_decide_true (_ = rs_peerPublic a1)) by (by rewrite (tk_peer _ _ _ Htr)).
    unfold skipTo at 1. rewrite Hback, Z.ltb_irrefl, Z.sub_diag, Z.add_0_r.
    rewrite (proj2 (Z.ltb_ge maxSkippedKeys (Z.of_nat _))) by apply Hsh. cbn [Z.to_nat skip_keys Z.ltb Z.compare maxSkippedKeys orb andb].
    change (skip_keys (Z.to_nat 0) a) with a. by rewrite Hadv. }
  destruct (store_usable _ (tk_usable _ _ _ Ht2)) as (ra' & He2 & Hd2). exists ra'. unfold ratchet_Open.
  rewrite Ha, Hopen, He2. split; [done|]. exists (sorted_state (turned f shared b)), (sorted_state a2). split_and!; try done.
  apply lockstep_sorted. injection Hk2 as K1 K2 K3. destruct Hsend as [U1 U2 U3 U4].
  destruct (turned_fields f shared b) as (T1 & T2 & T3).
  clearbody c'. constructor.
  - exact U1.
  - rewrite T1. exact Ht2.
  - exact U2.
  - rewrite K2. exact R2.
  - rewrite U4. exact U3.
  - rewrite Hn2, R4, U4. reflexivity.
  - rewrite T2, K3, R3. exact Hnum.
  - rewrite T3, K1. symmetry. exact R1.
Qed.

(** ** The handshake *)

Lemma parse_material_read size e a b :
  key32 a -> key32 b -> size = 65%nat -> parse_material size e (materialVersion :: a ++ b) = Ok (a, b).
Proof.
  intros Ha Hb ->. unfold parse_material, key32 in *. cbn [length]. rewrite length_app, Ha, Hb. cbn [Nat.eqb Nat.add negb orb].
  change (Byte.eqb materialVersion materialVersion) with true. cbn [negb].
  by rewrite take_app_length', drop_app_length'.
Qed.

Lemma parseInitialMessage_read public : key32 public -> parseInitialMessage (materialVersion :: public) = Ok public.
Proof. intros H. unfold parseInitialMessage. cbn [length]. rewrite H. done. Qed.

Lemma deriveInitial_keys shared binding :
  key32 (deriveInitial shared binding).1 /\ key32 (deriveInitial shared binding).2.
Proof. unfold deriveInitial. cbn [fst snd]. split; apply array32_length. Qed.

(** The two states of a session that was just set up. *)
Lemma fresh_lockstep root chain e prekey :
  key32 root -> key32 chain -> key32 e -> key32 prekey ->
  lockstep chain
    (MkRatchet root e (x25519_public e) (x25519_public prekey) chain zero32 true false 0 0 0 [] [])
    (MkRatchet root prekey (x25519_public prekey) (x25519_public e) zero32 chain false true 0 0 0 [] []).
Proof.
  intros Hr Hc He Hp. pose proof (public_length e He). pose proof (public_length prekey Hp).
  assert (is_uint32 0) by done. pose proof zero32_length.
  constructor; try done; [|constructor; try done]; try (constructor; try done; try constructor; try done; by constructor).
  cbn. intros k Hk. by apply elem_of_nil in Hk.
Qed.

(** Two agents that made prekey material for each other agree on a session: when
    the key agreements succeed the initiator gets a state and an initial message, and
    from that message, its own private material and the initiator's public material
    the acceptor derives the same root and chain, so that the two are in session. *)
Theorem handshake_agrees ia pa ib pb e s1 s2 s3 pubA privA pubB privB binding :
  Forall key32 [ia; pa; ib; pb; e] ->
  NewPrekeyMaterial (Ok ia) (Ok pa) = Ok (pubA, privA) -> NewPrekeyMaterial (Ok ib) (Ok pb) = Ok (pubB, privB) ->
  x25519_ecdh ia (x25519_public pb) = Some s1 -> x25519_ecdh e (x25519_public ib) = Some s2 ->
  x25519_ecdh e (x25519_public pb) = Some s3 ->
  exists ra initial rb, Initiate (Ok e) privA pubB binding = Ok (ra, initial) /\
    ratchet_Accept privB pubA initial binding = Ok rb /\
    in_session (deriveInitial (s1 ++ s2 ++ s3) binding).2 ra rb.
Proof.
  intros HF HA HB E1 E2 E3. apply Ok_inj in HA, HB. injection HA as <- <-. injection HB as <- <-.
  apply Forall_cons in HF as (Hia & (Hpa & (Hib & (Hpb & (He & _)%Forall_cons)%Forall_cons)%Forall_cons)%Forall_cons).
  destruct (deriveInitial_keys (s1 ++ s2 ++ s3) binding) as [K1 K2].
  unfold Initiate, ratchet_Accept, parsePrivateMaterial, parsePublicMaterial, generateX25519, ecdh.
  rewrite !parse_material_read by (try apply public_length; done). rewrite E1, E2, E3.
  rewrite (ecdh_agrees pb ia), E1 by done. destruct (deriveInitial (s1 ++ s2 ++ s3) binding) as [root chain] eqn:ED.
  cbn [fst snd] in *. pose proof (fresh_lockstep root chain e pb K1 K2 He Hpb) as L.
  rewrite !array32_id by (try apply public_length; done).
  destruct (store_usable _ (lk_usable _ _ _ L)) as (ra & Ha & Hda).
  destruct (store_usable _ (tk_usable _ _ _ (lk_tracks _ _ _ L))) as (rb & Hb & Hdb).
  exists ra, (materialVersion :: x25519_public e), rb. rewrite Ha. split; [done|].
  rewrite parseInitialMessage_read by (by apply public_length).
  rewrite (ecdh_agrees ib e), E2, (ecdh_agrees pb e), E3, ED by done.
  rewrite !array32_id by (try apply public_length; done). rewrite Hb. split; [done|].
  exists (sorted_state (MkRatchet root e (x25519_public e) (x25519_public pb) chain zero32 true false 0 0 0 [] [])),
    (sorted_state (MkRatchet root pb (x25519_public pb) (x25519_public e) zero32 chain false true 0 0 0 [] [])).
  split_and!; [exact Hda|exact Hdb|by apply lockstep_sorted].
Qed.
End Laws.

(** ** A concrete suite

    Stand-ins for the two primitives that satisfy the laws, to run the suite on. *)
Definition toy_tag (key nonce p additional : bytes) : bytes := take 16 (sha256 (key ++ nonce ++ additional ++ p)).

Definition toy : Primitives := {|
  x25519_public k := k;
  x25519_ecdh a b :=
    let shared := zip_with byte_xor a b in if bool_decide (shared = zero32) then None else Some shared;
  gcm_seal key nonce p additional := p ++ toy_tag key nonce p additional;
  gcm_open key nonce ct additional :=
    let p := take (length ct - 16) ct in
    if bool_decide (drop (length ct - 16) ct = toy_tag key nonce p additional) then Some p else None;
|}.

Lemma toy_tag_length key nonce p additional : length (toy_tag key nonce p additional) = 16%nat.
Proof. unfold toy_tag. by rewrite length_take, length_sha256. Qed.

Lemma byte_xor_comm a b : byte_xor a b = byte_xor b a.
Proof. unfold byte_xor. by rewrite Z.lxor_comm. Qed.

Lemma xor_comm a b : zip_with byte_xor a b = zip_with byte_xor b a.
Proof. revert b. induction a as [|x a IH]; intros [|y b]; cbn [zip_with]; [done..|]. by rewrite byte_xor_comm, IH. Qed.

#[global] Instance toy_laws : PrimitiveLaws toy.
Proof.
  constructor; cbn [toy x25519_public x25519_ecdh gcm_seal gcm_open].
  - done.
  - intros a b _ _. by rewrite xor_comm.
  - intros. rewrite length_app, toy_tag_length, Nat.add_sub, take_app_length, drop_app_length.
    by rewrite bool_decide_true.
  - intros. by rewrite length_app, toy_tag_length.
Qed.

Definition toy_key (n : Z) : bytes := List.repeat (byte_of_Z n) 32.
Definition toy_raw (s : ratchetState) : bytes := match encodeRatchetState s with Ok raw => raw | Err _ => [] end.
Definition toy_chain : bytes := toy_key 9.
Definition toy_a : ratchetState :=
  MkRatchet (toy_key 7) (toy_key 1) (toy_key 1) (toy_key 2) toy_chain zero32 true false 0 0 0 [] [].
Definition toy_b : ratchetState :=
  MkRatchet (toy_key 7) (toy_key 2) (toy_key 2) (toy_key 1) zero32 toy_chain false true 0 0 0 [] [].

Lemma toy_lockstep : lockstep (P := toy) toy_chain toy_a toy_b.
Proof. apply (fresh_lockstep (P := toy) (toy_key 7) toy_chain (toy_key 1) (toy_key 2)); done. Qed.

Lemma toy_session : in_session (P := toy) toy_chain (toy_raw toy_a) (toy_raw toy_b).
Proof. exists toy_a, toy_b. split_and!; [vm_compute; reflexivity..|exact toy_lockstep]. Qed.

Lemma ratchet_state_roundtrip_witness : exists raw, encodeRatchetState toy_b = Ok raw /\ ValidateState raw = Ok tt /\
  decodeRatchetState (P := toy) raw = Ok (sorted_state toy_b).
Proof. apply (ratchet_state_roundtrip (P := toy) toy_b). apply toy_lockstep. Defined.

Definition toy_plain : list bytes := map bytes_of_string ["first"; "second"; "third"]%string.
Definition toy_sealed : list bytes :=
  match seal_all (P := toy) (Err ErrNotAuthentic) (toy_raw toy_a) toy_plain [] with Ok (cts, _) => cts | Err _ => [] end.
Definition toy_after : bytes :=
  match seal_all (P := toy) (Err ErrNotAuthentic) (toy_raw toy_a) toy_plain [] with Ok (_, raw) => raw | Err _ => [] end.

Lemma toy_arrived : map fst (reverse (zip toy_sealed toy_plain)) = reverse toy_sealed.
Proof. vm_compute. reflexivity. Qed.
Lemma toy_arrived_plain : map snd (reverse (zip toy_sealed toy_plain)) = reverse toy_plain.
Proof. vm_compute. reflexivity. Qed.

(** The batch read in reverse. *)
Lemma ratchet_any_order_witness : exists rb',
  open_all (P := toy) (toy_raw toy_b) (reverse toy_sealed) [] = Ok (reverse toy_plain, rb') /\
  in_session (P := toy) toy_chain toy_after rb'.
Proof.
  destruct (ratchet_any_order (P := toy) toy_chain (toy_raw toy_a) (toy_raw toy_b) toy_b (Err ErrNotAuthentic) [] toy_plain toy_sealed
    toy_after (reverse (zip toy_sealed toy_plain))) as (rb' & H & H' & _).
  - exact toy_session.
  - vm_compute. reflexivity.
  - vm_compute. reflexivity.
  - apply reverse_Permutation.
  - vm_compute. discriminate.
  - apply (bool_decide_unpack _). vm_compute. exact I.
  - intros ct _. apply not_elem_of_nil.
  - exists rb'. rewrite toy_arrived, toy_arrived_plain in H. split; [exact H|exact H'].
Defined.

Lemma ratchet_turns_witness : exists ct rb',
  ratchet_Seal (P := toy) (Ok (toy_key 5)) (toy_raw toy_b) (bytes_of_string "reply") [] = Ok (ct, rb') /\
  exists ra', ratchet_Open (P := toy) (toy_raw toy_a) ct [] = Ok (bytes_of_string "reply", ra').
Proof.
  destruct (ratchet_turns (P := toy) toy_chain (toy_raw toy_a) (toy_raw toy_b) toy_a toy_b (toy_key 5) (toy_key 4) (bytes_of_string "reply") [])
    as (ct & rb' & Hs & Ho).
  - exact toy_session.
  - vm_compute. reflexivity.
  - vm_compute. reflexivity.
  - reflexivity.
  - vm_compute. reflexivity.
  - apply (bool_decide_unpack _). vm_compute. exact I.
  - exists ct, rb'. split; [exact Hs|]. destruct Ho as (ra' & Ho & _); [apply not_elem_of_nil|]. exists ra'. exact Ho.
Defined.

Lemma handshake_agrees_witness : exists ra initial rb,
  Initiate (P := toy) (Ok (toy_key 5)) (materialVersion :: toy_key 1 ++ toy_key 2) (materialVersion :: toy_key 3 ++ toy_key 4) []
    = Ok (ra, initial) /\
  ratchet_Accept (P := toy) (materialVersion :: toy_key 3 ++ toy_key 4) (materialVersion :: toy_key 1 ++ toy_key 2) initial []
    = Ok rb.
Proof.
  destruct (handshake_agrees (P := toy) (toy_key 1) (toy_key 2) (toy_key 3) (toy_key 4) (toy_key 5) (toy_key 5) (toy_key 6) (toy_key 1)
    (materialVersion :: toy_key 1 ++ toy_key 2) (materialVersion :: toy_key 1 ++ toy_key 2)
    (materialVersion :: toy_key 3 ++ toy_key 4) (materialVersion :: toy_key 3 ++ toy_key 4) []) as (ra & initial & rb & Hi & Ha & _).
  - repeat constructor.
  - reflexivity.
  - reflexivity.
  - vm_compute. reflexivity.
  - vm_compute. reflexivity.
  - vm_compute. reflexivity.
  - exists ra, initial, rb. split; [exact Hi|exact Ha].
Defined.
