(* ===== verification/Journal.v ===== *)
(** * The journal's inbound, session and moderation records

    Data and readers of [pkg/eventlog/journal.go], [session.go] and
    [moderation.go]: what the records are, what a reader refuses, and the state
    of the journal as the operations of [Inbound.v] and [Session.v] see it. *)

From S2P Require Import Prelude Encoding Canon Files Fault Payload Json Identity E2ee Delivery.

(** ** States

    Strings on disk that are none of the known ones are kept apart. *)

Inductive AdmissionState : Type :=
  | AdmissionAdmitted | AdmissionPending | AdmissionDenied | OtherAdmission (s : string).
Inductive CryptoState : Type :=
  | CryptoUnbound | CryptoStaged | CryptoCommitted | CryptoAbandoned | OtherCrypto (s : string).
Inductive ApplicationState : Type :=
  | StateQueued | StateClaimed | StateApplied | StateRejected | OtherApplication (s : string).

#[global] Instance AdmissionState_eq_dec : EqDecision AdmissionState.
Proof. solve_decision. Defined.
#[global] Instance CryptoState_eq_dec : EqDecision CryptoState.
Proof. solve_decision. Defined.
#[global] Instance ApplicationState_eq_dec : EqDecision ApplicationState.
Proof. solve_decision. Defined.

Definition journal_Schema : string := "tos.messaging.event-journal.v1".
Definition MaxCiphertextBytes : Z := MaxPayloadBytes + Z.shiftl 4 10.
Definition leasePattern : string -> bool := prefixed_hex64 "lease_".

Definition ErrNotAdmitted : error := Sentinel "event has not been admitted".
Definition ErrApplicationKind : error := Sentinel "event belongs to another application adapter".

(** ** Records *)

Record SessionAuthority : Type := MkAuthority {
  sa_LocalAgentID : string;
  sa_LocalEndpointID : string;
  sa_LocalDeviceID : string;
  sa_PeerAgentID : string;
  sa_PeerEndpointID : string;
  sa_PeerDeviceID : string;
}.
#[global] Instance SessionAuthority_eq_dec : EqDecision SessionAuthority.
Proof. solve_decision. Defined.

Record Transition : Type := MkTransition {
  tr_SessionID : string;
  tr_Algorithm : string;
  tr_ExpectedGeneration : Z;
  tr_NextState : bytes;
  tr_Authority : option SessionAuthority;
}.

Record Entry : Type := MkEntry {
  en_EventID : string;
  en_SenderEndpointID : string;
  en_ConversationID : string;
  en_Payload : bytes;
  en_Admission : AdmissionState;
  en_ReceivedAtUnix : Z;
  en_ExpiresAtUnix : Z;
  en_Transition : option Transition;
}.

(** Go's [Record]. *)
Record EventRecord : Type := MkRecord {
  rc_Schema : string;
  rc_EventID : string;
  rc_SenderEndpointID : string;
  rc_ConversationID : string;
  rc_Admission : AdmissionState;
  rc_AdmissionAtUnix : Z;
  rc_AdmissionCode : Code;
  rc_PayloadBase64 : string;
  rc_PayloadDigest : string;
  rc_ReceivedAtUnix : Z;
  rc_EventExpiresAt : Z;
  rc_Crypto : CryptoState;
  rc_CryptoAtUnix : Z;
  rc_SessionID : string;
  rc_AlgorithmID : string;
  rc_ExpectedGen : Z;
  rc_NextStateBase64 : string;
  rc_NextStateDigest : string;
  rc_SessionAuthority : option SessionAuthority;
  rc_Application : ApplicationState;
  rc_LeaseID : string;
  rc_LeaseExpiresAt : Z;
  rc_AppliedAtUnix : Z;
  rc_RejectedAtUnix : Z;
  rc_RejectionCode : Code;
  rc_ReadAtUnix : Z;
}.

(** The groups of fields the operations assign. *)
Definition set_admission (r : EventRecord) (state : AdmissionState) (at_ : Z) (code : Code) : EventRecord :=
  MkRecord (rc_Schema r) (rc_EventID r) (rc_SenderEndpointID r) (rc_ConversationID r) state at_ code
    (rc_PayloadBase64 r) (rc_PayloadDigest r) (rc_ReceivedAtUnix r) (rc_EventExpiresAt r)
    (rc_Crypto r) (rc_CryptoAtUnix r) (rc_SessionID r) (rc_AlgorithmID r) (rc_ExpectedGen r)
    (rc_NextStateBase64 r) (rc_NextStateDigest r) (rc_SessionAuthority r) (rc_Application r)
    (rc_LeaseID r) (rc_LeaseExpiresAt r) (rc_AppliedAtUnix r) (rc_RejectedAtUnix r)
    (rc_RejectionCode r) (rc_ReadAtUnix r).
Definition set_application (r : EventRecord) (state : ApplicationState) (lease : string) (expires : Z)
    : EventRecord :=
  MkRecord (rc_Schema r) (rc_EventID r) (rc_SenderEndpointID r) (rc_ConversationID r) (rc_Admission r)
    (rc_AdmissionAtUnix r) (rc_AdmissionCode r)
    (rc_PayloadBase64 r) (rc_PayloadDigest r) (rc_ReceivedAtUnix r) (rc_EventExpiresAt r)
    (rc_Crypto r) (rc_CryptoAtUnix r) (rc_SessionID r) (rc_AlgorithmID r) (rc_ExpectedGen r)
    (rc_NextStateBase64 r) (rc_NextStateDigest r) (rc_SessionAuthority r) state
    lease expires (rc_AppliedAtUnix r) (rc_RejectedAtUnix r)
    (rc_RejectionCode r) (rc_ReadAtUnix r).
Definition set_applied (r : EventRecord) (at_ : Z) : EventRecord :=
  MkRecord (rc_Schema r) (rc_EventID r) (rc_SenderEndpointID r) (rc_ConversationID r) (rc_Admission r)
    (rc_AdmissionAtUnix r) (rc_AdmissionCode r)
    (rc_PayloadBase64 r) (rc_PayloadDigest r) (rc_ReceivedAtUnix r) (rc_EventExpiresAt r)
    (rc_Crypto r) (rc_CryptoAtUnix r) (rc_SessionID r) (rc_AlgorithmID r) (rc_ExpectedGen r)
    (rc_NextStateBase64 r) (rc_NextStateDigest r) (rc_SessionAuthority r) (rc_Application r)
    (rc_LeaseID r) (rc_LeaseExpiresAt r) at_ (rc_RejectedAtUnix r)
    (rc_RejectionCode r) (rc_ReadAtUnix r).
Definition set_rejected (r : EventRecord) (at_ : Z) (code : Code) : EventRecord :=
  MkRecord (rc_Schema r) (rc_EventID r) (rc_SenderEndpointID r) (rc_ConversationID r) (rc_Admission r)
    (rc_AdmissionAtUnix r) (rc_AdmissionCode r)
    (rc_PayloadBase64 r) (rc_PayloadDigest r) (rc_ReceivedAtUnix r) (rc_EventExpiresAt r)
    (rc_Crypto r) (rc_CryptoAtUnix r) (rc_SessionID r) (rc_AlgorithmID r) (rc_ExpectedGen r)
    (rc_NextStateBase64 r) (rc_NextStateDigest r) (rc_SessionAuthority r) (rc_Application r)
    (rc_LeaseID r) (rc_LeaseExpiresAt r) (rc_AppliedAtUnix r) at_ code (rc_ReadAtUnix r).
Definition set_read (r : EventRecord) (at_ : Z) : EventRecord :=
  MkRecord (rc_Schema r) (rc_EventID r) (rc_SenderEndpointID r) (rc_ConversationID r) (rc_Admission r)
    (rc_AdmissionAtUnix r) (rc_AdmissionCode r)
    (rc_PayloadBase64 r) (rc_PayloadDigest r) (rc_ReceivedAtUnix r) (rc_EventExpiresAt r)
    (rc_Crypto r) (rc_CryptoAtUnix r) (rc_SessionID r) (rc_AlgorithmID r) (rc_ExpectedGen r)
    (rc_NextStateBase64 r) (rc_NextStateDigest r) (rc_SessionAuthority r) (rc_Application r)
    (rc_LeaseID r) (rc_LeaseExpiresAt r) (rc_AppliedAtUnix r) (rc_RejectedAtUnix r)
    (rc_RejectionCode r) at_.
Definition set_crypto (r : EventRecord) (state : CryptoState) (at_ : Z) : EventRecord :=
  MkRecord (rc_Schema r) (rc_EventID r) (rc_SenderEndpointID r) (rc_ConversationID r) (rc_Admission r)
    (rc_AdmissionAtUnix r) (rc_AdmissionCode r)
    (rc_PayloadBase64 r) (rc_PayloadDigest r) (rc_ReceivedAtUnix r) (rc_EventExpiresAt r)
    state at_ (rc_SessionID r) (rc_AlgorithmID r) (rc_ExpectedGen r)
    (rc_NextStateBase64 r) (rc_NextStateDigest r) (rc_SessionAuthority r) (rc_Application r)
    (rc_LeaseID r) (rc_LeaseExpiresAt r) (rc_AppliedAtUnix r) (rc_RejectedAtUnix r)
    (rc_RejectionCode r) (rc_ReadAtUnix r).

Definition Record_Payload (r : EventRecord) : result bytes :=
  match b64_decode (rc_PayloadBase64 r) with
  | None => Err (NewError "invalid stored event payload")
  | Some payload =>
      refuse negb (String.eqb (canon_Digest payload) (rc_PayloadDigest r))
        with NewError "stored event payload does not match its digest";
      Ok payload
  end.

Definition Record_NextState (r : EventRecord) : result bytes :=
  refuse String.eqb (rc_NextStateBase64 r) "" with NewError "record carries no session transition";
  match b64_decode (rc_NextStateBase64 r) with
  | None => Err (NewError "invalid stored session transition")
  | Some state =>
      refuse negb (String.eqb (canon_Digest state) (rc_NextStateDigest r))
        with NewError "stored session transition does not match its digest";
      Ok state
  end.

Definition Deliverable (r : EventRecord) : bool :=
  bool_decide (rc_Crypto r = CryptoCommitted) || bool_decide (rc_Crypto r = CryptoUnbound).
Definition Terminal (r : EventRecord) : bool :=
  bool_decide (rc_Application r = StateApplied) || bool_decide (rc_Application r = StateRejected).

(** ** Authority *)

Definition authorityFromBinding (binding : Binding) (initiator : bool) : SessionAuthority :=
  if initiator
  then MkAuthority (bi_SenderAgentID binding) (bi_SenderEndpointID binding) (bi_SenderDeviceID binding)
         (bi_RecipientAgentID binding) (bi_RecipientEndpointID binding) (bi_RecipientDeviceID binding)
  else MkAuthority (bi_RecipientAgentID binding) (bi_RecipientEndpointID binding) (bi_RecipientDeviceID binding)
         (bi_SenderAgentID binding) (bi_SenderEndpointID binding) (bi_SenderDeviceID binding).

Definition Authority_validate (a : SessionAuthority) (sessionID : string) : result unit :=
  refuse negb (ids_Agent (sa_LocalAgentID a)) || negb (ids_Endpoint (sa_LocalEndpointID a))
         || negb (ids_Device (sa_LocalDeviceID a)) || negb (ids_Agent (sa_PeerAgentID a))
         || negb (ids_Endpoint (sa_PeerEndpointID a)) || negb (ids_Device (sa_PeerDeviceID a))
    with NewError "invalid session authority";
  match DeviceSessionID (sa_LocalDeviceID a) (sa_PeerDeviceID a) with
  | Ok expected =>
      refuse negb (String.eqb expected sessionID)
        with NewError "session authority belongs to another device pair";
      Ok tt
  | Err _ => Err (NewError "session authority belongs to another device pair")
  end.

Definition authority_ok (a : option SessionAuthority) (sessionID : string) : bool :=
  match a with Some a => is_ok (Authority_validate a sessionID) | None => true end.

(** ** Reading an event record *)

Definition err_journal_record : error := NewError "invalid event journal record".

Definition known_admission (s : AdmissionState) : bool :=
  match s with AdmissionAdmitted | AdmissionPending | AdmissionDenied => true | _ => false end.
Definition known_application (s : ApplicationState) : bool :=
  match s with StateQueued | StateClaimed | StateApplied | StateRejected => true | _ => false end.

Definition check_record (r : EventRecord) : result EventRecord :=
  refuse negb (known_admission (rc_Admission r)) with err_journal_record;
  refuse negb (String.eqb (rc_AdmissionCode r) "") && negb (Known (rc_AdmissionCode r))
    with err_journal_record;
  refuse negb (String.eqb (rc_Schema r) journal_Schema) || negb (eventPattern (rc_EventID r))
         || negb (endpointPattern (rc_SenderEndpointID r)) || negb (convPattern (rc_ConversationID r))
         || (rc_ReceivedAtUnix r =? 0) || negb (ValidDigest (rc_PayloadDigest r))
    with err_journal_record;
  refuse negb (known_application (rc_Application r)) with err_journal_record;
  refuse bool_decide (rc_Application r = StateClaimed)
         && (negb (leasePattern (rc_LeaseID r)) || (rc_LeaseExpiresAt r =? 0))
    with err_journal_record;
  refuse negb (String.eqb (rc_RejectionCode r) "") && negb (Known (rc_RejectionCode r))
    with err_journal_record;
  refuse negb (is_ok (Record_Payload r)) with err_journal_record;
  refuse negb (authority_ok (rc_SessionAuthority r) (rc_SessionID r)) with err_journal_record;
  Ok r.

Definition readRecord (files : directory EventRecord) (name : string) : result EventRecord :=
  let* r := read_file err_journal_record files name in
  check_record r.

(** ** Session records ([session.go]) *)

Record SessionRecord : Type := MkSession {
  sn_Schema : string;
  sn_Generation : Z;
  sn_SessionID : string;
  sn_AlgorithmID : string;
  sn_StateBase64 : string;
  sn_StateDigest : string;
  sn_UpdatedAtUnix : Z;
  sn_LastInboundEventID : string;
  sn_BootstrapBase64 : string;
  sn_BootstrapDigest : string;
  sn_Authority : option SessionAuthority;
}.

Definition SessionSchema : string := "tos.messaging.session-state.v1".
Definition ErrSessionConflict : error :=
  Sentinel "session advanced while this transition was being prepared".
Definition ErrAlreadySealed : error := Sentinel "delivery has already been sealed".

Definition Session_State (s : SessionRecord) : result bytes :=
  match b64_decode (sn_StateBase64 s) with
  | None => Err (NewError "invalid persisted session state")
  | Some state =>
      refuse negb (String.eqb (canon_Digest state) (sn_StateDigest s))
        with NewError "persisted session state does not match its digest";
      Ok state
  end.

Definition Session_Bootstrap (s : SessionRecord) : result (option FirstContact) :=
  if String.eqb (sn_BootstrapBase64 s) "" && String.eqb (sn_BootstrapDigest s) "" then Ok None else
  match b64_decode (sn_BootstrapBase64 s) with
  | None => Err (NewError "invalid persisted session bootstrap")
  | Some raw =>
      refuse negb (String.eqb (canon_Digest raw) (sn_BootstrapDigest s))
        with NewError "invalid persisted session bootstrap";
      match DecodeFirstContactJSON raw with
      | Err _ => Err (NewError "invalid persisted session bootstrap")
      | Ok value => Ok (Some value)
      end
  end.

Definition err_session_record : error := NewError "invalid session record".

Definition check_session (s : SessionRecord) : result SessionRecord :=
  refuse negb (String.eqb (sn_Schema s) SessionSchema) || negb (sessionPattern (sn_SessionID s))
         || (sn_Generation s =? 0) || (sn_UpdatedAtUnix s =? 0) || negb (ValidDigest (sn_StateDigest s))
         || negb (is_ok (ValidateAlgorithmID (sn_AlgorithmID s)))
    with err_session_record;
  refuse negb (is_ok (Session_State s)) with err_session_record;
  refuse negb (is_ok (Session_Bootstrap s)) with err_session_record;
  refuse negb (authority_ok (sn_Authority s) (sn_SessionID s)) with err_session_record;
  Ok s.

Definition readSession (files : directory SessionRecord) (name : string) : result SessionRecord :=
  let* s := read_file err_session_record files name in
  check_session s.

(** ** Moderation records ([moderation.go]) *)

Record ModerationDecision : Type := MkDecision {
  md_Schema : string;
  md_RoomID : string;
  md_TargetEventID : string;
  md_DecisionEventID : string;
  md_DecisionRevision : Z;
  md_MembershipEpoch : Z;
  md_RolePolicyRevision : Z;
  md_ActorAgentID : string;
  md_Action : string;
  md_Reason : string;
  md_DecidedAtUnix : Z;
}.

Definition ModerationRecordSchema : string := "tos.messaging.room-moderation-record.v1".
Definition err_moderation : error := NewError "invalid moderation record".

Definition moderation_body (d : ModerationDecision) : RoomModeration :=
  MkModeration (md_RoomID d) (md_MembershipEpoch d) (md_RolePolicyRevision d) (md_TargetEventID d)
    (md_DecisionRevision d) (md_Action d) (md_Reason d).

Definition moderation_path (targetEventID : string) : string := sdrop 4 targetEventID +:+ ".json".

Definition Moderation_read (files : directory ModerationDecision) (targetEventID : string)
    : result (option ModerationDecision) :=
  match read_file err_moderation files (moderation_path targetEventID) with
  | Err e => if bool_decide (e = ErrNotExist) then Ok None else Err e
  | Ok d =>
      refuse negb (String.eqb (md_Schema d) ModerationRecordSchema)
             || negb (String.eqb (md_TargetEventID d) targetEventID)
             || negb (ids_Event (md_DecisionEventID d)) || negb (ids_Agent (md_ActorAgentID d))
             || (md_DecidedAtUnix d =? 0) || negb (is_ok (RoomModeration_Validate (moderation_body d)))
        with err_moderation;
      Ok (Some d)
  end.

(** ** Quotas ([quota.go]) *)

Record Quota : Type := MkQuota {
  qt_MaxPendingAdmissions : Z;
  qt_MaxPendingPerSender : Z;
  qt_MaxPendingBytes : Z;
  qt_MaxPendingAge : Z; (** a [time.Duration], in nanoseconds *)
}.

Definition ErrPendingFull : error :=
  Sentinel "this installation holds as many undecided events as it may".

Definition DefaultQuota : Quota := MkQuota 256 16 (Z.shiftl 32 20) (7 * 24 * 60 * Minute).

Definition Quota_Validate (q : Quota) : result unit :=
  refuse (qt_MaxPendingAdmissions q <=? 0) || (qt_MaxPendingPerSender q <=? 0)
    with NewError "a pending quota must bound how many events may wait";
  refuse qt_MaxPendingAdmissions q <? qt_MaxPendingPerSender q
    with NewError "a per-sender bound above the total bounds nothing";
  refuse qt_MaxPendingBytes q <=? 0 with NewError "a pending quota must bound how much may wait";
  refuse qt_MaxPendingAge q <=? 0
    with NewError "a pending quota must bound how long an undecided event is kept";
  Ok tt.

Definition record_expired (r : EventRecord) (quota : Quota) (seconds : Z) : bool :=
  if negb (rc_EventExpiresAt r =? 0) && (rc_EventExpiresAt r <=? seconds) then true else
  let age := u64 (Z.quot (qt_MaxPendingAge quota) Second) in
  negb (rc_ReceivedAtUnix r =? 0) && (u64 (rc_ReceivedAtUnix r + age) <=? seconds).

(** ** The journal

    The directory lock and the outbound directory are those of [Delivery.v]. *)

Record Journal : Type := MkJournal {
  jr_outbox : Outbox;
  jr_quota : Quota;
  jr_inbound : directory EventRecord;
  jr_sessions : directory SessionRecord;
  jr_moderation : directory ModerationDecision;
}.

Definition with_inbound (j : Journal) (files : directory EventRecord) : Journal :=
  MkJournal (jr_outbox j) (jr_quota j) files (jr_sessions j) (jr_moderation j).
Definition with_sessions (j : Journal) (files : directory SessionRecord) : Journal :=
  MkJournal (jr_outbox j) (jr_quota j) (jr_inbound j) files (jr_moderation j).
Definition with_outbox (j : Journal) (o : Outbox) : Journal :=
  MkJournal o (jr_quota j) (jr_inbound j) (jr_sessions j) (jr_moderation j).

Definition journal_usable (j : Journal) : result unit := usable (jr_outbox j).

(** [path] and [sessionPath] *)
Definition inbound_path (eventID : string) : string := sdrop 4 eventID +:+ ".json".
Definition sessionPath (sessionID : string) : string := sdrop 4 sessionID +:+ ".json".

(** A record file named after what follows an identifier's prefix names one
    identifier. *)
Lemma prefixed_path_inj p ext a b :
  prefixed_hex64 p a = true -> prefixed_hex64 p b = true ->
  sdrop (String.length p) a +:+ ext = sdrop (String.length p) b +:+ ext -> a = b.
Proof.
  unfold prefixed_hex64. intros Ha Hb H%string_app_inj_r.
  destruct (strip_prefix p a) as [x|] eqn:Ea; [|done]. destruct (strip_prefix p b) as [y|] eqn:Eb; [|done].
  apply strip_prefix_Some in Ea as ->, Eb as ->. rewrite !sdrop_app in H. by rewrite H.
Qed.

(** [commit] of an event record. *)
Definition commit_record (w : write_outcome) (path : string) (r : EventRecord) : action Journal EventRecord :=
  fun j =>
  match file_replace w path r (jr_inbound j) with
  | (Ok _, files) => (Ok r, with_inbound j files)
  | (Err e, files) => (Err e, with_inbound j files)
  end.

(** [NewLeaseID], [NewAttemptID] and [NewSessionID] *)
Definition NewLeaseID (raw : bytes) : result string := ids_Format "lease_" raw.
Definition NewAttemptID (raw : bytes) : result string := ids_Format "send_" raw.
Definition NewSessionID (raw : bytes) : result string := ids_Format "ses_" raw.
