(* ===== verification/Inbound.v ===== *)
(** * Inbound events: [pkg/eventlog/journal.go] and [quota.go]

    An inbound event is recorded once, waits for the owner when it has to, is
    offered to a runtime under a lease, and ends applied or rejected.  This file
    models the operations of the inbound half of the journal over the records of
    [Journal.v], and proves what each dimension of a record promises.  The
    session side of an inbound event is in [Session.v]. *)

From S2P Require Import Prelude Encoding Canon Files Fault Json Identity E2ee Delivery Journal.

(** ** Accepting an event *)

Definition validateEntry (entry : Entry) : result unit :=
  refuse negb (eventPattern (en_EventID entry)) with NewError "invalid event identifier";
  refuse negb (endpointPattern (en_SenderEndpointID entry)) with NewError "invalid event sender endpoint";
  refuse negb (convPattern (en_ConversationID entry))
    with NewError "invalid event conversation identifier";
  refuse (blen (en_Payload entry) =? 0) || (MaxPayloadBytes <? blen (en_Payload entry))
    with NewError "invalid stored event payload";
  refuse en_ReceivedAtUnix entry =? 0 with NewError "invalid event receipt time";
  refuse negb (known_admission (en_Admission entry))
    with NewError "an entry must say whether it was admitted";
  Ok tt.

(** The undecided records that still count against the quota at [seconds]. *)
Definition counts_pending (quota : Quota) (seconds : Z) (r : EventRecord) : bool :=
  bool_decide (rc_Admission r = AdmissionPending) && negb (record_expired r quota seconds).

Fixpoint pending_records (quota : Quota) (seconds : Z) (files : directory EventRecord)
    (names : list string) : list EventRecord :=
  match names with
  | [] => []
  | name :: rest =>
      if is_dir files name then pending_records quota seconds files rest else
      match readRecord files name with
      | Err _ => pending_records quota seconds files rest
      | Ok r =>
          if counts_pending quota seconds r then r :: pending_records quota seconds files rest
          else pending_records quota seconds files rest
      end
  end.

Definition from_sender (sender : string) (r : EventRecord) : bool :=
  String.eqb (rc_SenderEndpointID r) sender.

Definition pendingCapacity (sender : string) (size : Z) (now : time) (j : Journal) : result unit :=
  let waiting := pending_records (jr_quota j) (u64 now) (jr_inbound j) (dir_names (jr_inbound j)) in
  let total := Z.of_nat (length waiting) in
  let forSender := Z.of_nat (length (List.filter (from_sender sender) waiting)) in
  let bytes := fold_left (fun n r => n + slen (rc_PayloadBase64 r)) waiting size in
  refuse qt_MaxPendingAdmissions (jr_quota j) <=? total with ErrPendingFull;
  refuse qt_MaxPendingPerSender (jr_quota j) <=? forSender with ErrPendingFull;
  refuse qt_MaxPendingBytes (jr_quota j) <? bytes with ErrPendingFull;
  Ok tt.

Definition entry_record (entry : Entry) : EventRecord :=
  let r := MkRecord journal_Schema (en_EventID entry) (en_SenderEndpointID entry)
             (en_ConversationID entry) (en_Admission entry) 0 ""
             (b64_encode (en_Payload entry)) (canon_Digest (en_Payload entry))
             (en_ReceivedAtUnix entry) (en_ExpiresAtUnix entry) CryptoUnbound 0 "" "" 0 "" "" None
             StateQueued "" 0 0 0 "" 0 in
  match en_Transition entry with
  | None => r
  | Some t =>
      MkRecord journal_Schema (en_EventID entry) (en_SenderEndpointID entry)
        (en_ConversationID entry) (en_Admission entry) 0 ""
        (b64_encode (en_Payload entry)) (canon_Digest (en_Payload entry))
        (en_ReceivedAtUnix entry) (en_ExpiresAtUnix entry)
        CryptoStaged (en_ReceivedAtUnix entry) (tr_SessionID t) (tr_Algorithm t)
        (tr_ExpectedGeneration t) (b64_encode (tr_NextState t)) (canon_Digest (tr_NextState t))
        (tr_Authority t) StateQueued "" 0 0 0 "" 0
  end.

Definition same_event (existing : EventRecord) (entry : Entry) : bool :=
  String.eqb (rc_SenderEndpointID existing) (en_SenderEndpointID entry)
  && String.eqb (rc_ConversationID existing) (en_ConversationID entry)
  && String.eqb (rc_PayloadDigest existing) (canon_Digest (en_Payload entry)).

(** The result says whether the record is fresh. *)
Definition Accept (c : create_outcome) (entry : Entry) : action Journal (bool * EventRecord) :=
  fun j =>
  match journal_usable j with Err e => (Err e, j) | Ok _ =>
  match validateEntry entry with Err e => (Err e, j) | Ok _ =>
  let capacity :=
    if bool_decide (en_Admission entry = AdmissionPending)
    then pendingCapacity (en_SenderEndpointID entry) (blen (en_Payload entry)) (en_ReceivedAtUnix entry) j
    else Ok tt in
  match capacity with Err e => (Err e, j) | Ok _ =>
  let path := inbound_path (en_EventID entry) in
  let record := entry_record entry in
  match file_create c path record (jr_inbound j) with
  | (Ok _, files) => (Ok (true, record), with_inbound j files)
  | (Err e, files) =>
      if negb (bool_decide (e = ErrExist)) then (Err e, with_inbound j files) else
      match readRecord (jr_inbound j) path with
      | Err e => (Err e, j)
      | Ok existing =>
          if negb (same_event existing entry) then (Err ErrConflict, j)
          else (Ok (false, existing), j)
      end
  end end end end.

(** ** What a runtime is offered *)

Definition offerable (seconds : Z) (r : EventRecord) : bool :=
  bool_decide (rc_Admission r = AdmissionAdmitted) && Deliverable r &&
  match rc_Application r with
  | StateQueued => true
  | StateClaimed => negb (seconds <? rc_LeaseExpiresAt r)
  | _ => false
  end.

Fixpoint offered_records (seconds : Z) (j : Journal) (names : list string)
    : result (list EventRecord) :=
  match names with
  | [] => Ok []
  | name :: rest =>
      if is_dir (jr_inbound j) name then offered_records seconds j rest else
      match readRecord (jr_inbound j) name with
      | Err _ => offered_records seconds j rest
      | Ok r =>
          if negb (offerable seconds r) then offered_records seconds j rest else
          let* decision := Moderation_read (jr_moderation j) (rc_EventID r) in
          let* others := offered_records seconds j rest in
          Ok (match decision with
              | Some d => if String.eqb (md_Action d) "hide" then others else r :: others
              | None => r :: others
              end)
      end
  end.

(** The order [sort.Slice] sorts by: the earlier receipt first, then the event. *)
Definition receipt_le (r s : EventRecord) : Prop :=
  rc_ReceivedAtUnix r < rc_ReceivedAtUnix s \/
  (rc_ReceivedAtUnix r = rc_ReceivedAtUnix s /\ str_le (rc_EventID r) (rc_EventID s)).
#[global] Instance receipt_le_dec r s : Decision (receipt_le r s).
Proof. unfold receipt_le. apply _. Defined.

Definition limited {A} (limit : Z) (l : list A) : list A :=
  if (0 <? limit) && (limit <? Z.of_nat (length l)) then take (Z.to_nat limit) l else l.

Definition ListPending (now : time) (limit : Z) (j : Journal) : result (list EventRecord) :=
  call journal_usable j;
  refuse time_invalid now with NewError "invalid pending sweep time";
  let* pending := offered_records now j (dir_names (jr_inbound j)) in
  Ok (limited limit (merge_sort receipt_le pending)).

Definition ListAwaitingAdmission (now : time) (limit : Z) (j : Journal) : result (list EventRecord) :=
  call journal_usable j;
  Ok (limited limit (merge_sort receipt_le
        (pending_records (jr_quota j) (u64 now) (jr_inbound j) (dir_names (jr_inbound j))))).

(** ** Transitions of one record *)

Definition inbound_transition (w : write_outcome) (eventID : string)
    (rule : EventRecord -> result EventRecord) : action Journal EventRecord :=
  fun j =>
  let path := inbound_path eventID in
  match readRecord (jr_inbound j) path with
  | Err e => (Err (if bool_decide (e = ErrNotExist) then ErrUnknown else e), j)
  | Ok r =>
      match rule r with
      | Err e => (Err e, j)
      | Ok r' => commit_record w path r' j
      end
  end.

Definition checked {A} (j : Journal) (checks : result unit) (body : action Journal A)
    : result A * Journal :=
  match journal_usable j with Err e => (Err e, j) | Ok _ =>
  match checks with Err e => (Err e, j) | Ok _ => body j end end.

(** [json.Unmarshal] of a payload into a struct with its [event_kind]. *)
Definition event_kind (payload : bytes) : result string :=
  match unmarshal_struct [("event_kind", JK_String)] payload with
  | Some [VString kind] =>
      refuse String.eqb kind "" with NewError "stored event has no application kind"; Ok kind
  | _ => Err (NewError "stored event has no application kind")
  end.

Definition kind_allows (required : string) (excluded allowed : list string) (r : EventRecord)
    : result unit :=
  if String.eqb required "" && bool_decide (excluded = []) && bool_decide (allowed = []) then Ok tt else
  let* payload := Record_Payload r in
  let* kind := event_kind payload in
  refuse negb (String.eqb required "") && negb (String.eqb kind required) with ErrApplicationKind;
  refuse bool_decide (kind ∈ excluded) with ErrApplicationKind;
  refuse negb (bool_decide (allowed = [])) && negb (bool_decide (kind ∈ allowed)) with ErrApplicationKind;
  Ok tt.

Definition claim_application (leaseID : string) (current seconds : Z) (required : string)
    (excluded allowed : list string) (r : EventRecord) : result EventRecord :=
  call kind_allows required excluded allowed r;
  refuse negb (bool_decide (rc_Admission r = AdmissionAdmitted)) with ErrNotAdmitted;
  call match rc_Application r with
       | StateQueued => Ok tt
       | StateClaimed => refuse current <? rc_LeaseExpiresAt r with ErrLeaseMismatch; Ok tt
       | _ => Err ErrNotPending
       end;
  refuse String.eqb (rc_LeaseID r) leaseID with NewError "application lease identifier was reused";
  Ok (set_application r StateClaimed leaseID (u64 (current + seconds))).

(** [lease] is a [time.Duration], in nanoseconds. *)
Definition claimForApplicationKind (w : write_outcome) (eventID leaseID : string) (now : time) (lease : Z)
    (required : string) (excluded allowed : list string) : action Journal EventRecord :=
  fun j =>
  let seconds := Z.quot lease Second in
  checked j
    (refuse negb (eventPattern eventID) with NewError "invalid event identifier";
     refuse negb (leasePattern leaseID) with NewError "invalid application lease identifier";
     refuse time_invalid now with NewError "invalid application claim time";
     refuse (seconds <? MinLeaseSeconds) || (MaxLeaseSeconds <? seconds)
       with NewError "application lease is outside its bounds";
     Ok tt)
    (inbound_transition w eventID (claim_application leaseID now seconds required excluded allowed)).

Fixpoint kinds_unique (what : string) (seen kinds : list string) : result unit :=
  match kinds with
  | [] => Ok tt
  | kind :: rest =>
      refuse String.eqb kind "" with NewError (what +:+ " application event kind is required");
      refuse bool_decide (kind ∈ seen)
        with NewError (what +:+ " application event kinds must be unique");
      kinds_unique what (kind :: seen) rest
  end.

Definition kind_list (what : string) (kinds : list string) : result unit :=
  refuse (Z.of_nat (length kinds) =? 0) || (32 <? Z.of_nat (length kinds))
    with NewError (what +:+ " application event kinds are required and bounded");
  kinds_unique what [] kinds.

Definition ClaimForApplication w eventID leaseID now lease : action Journal EventRecord :=
  claimForApplicationKind w eventID leaseID now lease "" [] [].
Definition ClaimForApplicationKind w eventID leaseID now lease kind : action Journal EventRecord :=
  fun j =>
  if String.eqb kind "" then (Err (NewError "application event kind is required"), j)
  else claimForApplicationKind w eventID leaseID now lease kind [] [] j.
Definition ClaimForApplicationKinds w eventID leaseID now lease kinds : action Journal EventRecord :=
  fun j =>
  match kind_list "allowed" kinds with
  | Err e => (Err e, j)
  | Ok _ => claimForApplicationKind w eventID leaseID now lease "" [] kinds j
  end.
Definition ClaimForApplicationExceptKinds w eventID leaseID now lease kinds : action Journal EventRecord :=
  fun j =>
  match kind_list "excluded" kinds with
  | Err e => (Err e, j)
  | Ok _ => claimForApplicationKind w eventID leaseID now lease "" kinds [] j
  end.
Definition ClaimForApplicationExceptKind w eventID leaseID now lease kind : action Journal EventRecord :=
  fun j =>
  if String.eqb kind "" then (Err (NewError "excluded application event kind is required"), j)
  else ClaimForApplicationExceptKinds w eventID leaseID now lease [kind] j.

Definition finish_decision (leaseID : string) (state : ApplicationState) (code : Code) (current : Z)
    (r : EventRecord) : result EventRecord :=
  refuse negb (bool_decide (rc_Application r = StateClaimed)) with ErrNotPending;
  refuse negb (String.eqb (rc_LeaseID r) leaseID) with ErrLeaseMismatch;
  let r := set_application r state "" 0 in
  Ok (if bool_decide (state = StateApplied) then set_applied r current else set_rejected r current code).

Definition finish (w : write_outcome) (eventID leaseID : string) (state : ApplicationState) (code : Code)
    (now : time) : action Journal EventRecord :=
  fun j =>
  checked j
    (refuse negb (eventPattern eventID) with NewError "invalid event identifier";
     refuse negb (leasePattern leaseID) with NewError "invalid application lease identifier";
     refuse time_invalid now with NewError "invalid application completion time";
     Ok tt)
    (inbound_transition w eventID (finish_decision leaseID state code now)).

Definition CompleteApplication w eventID leaseID now : action Journal EventRecord :=
  finish w eventID leaseID StateApplied "" now.
Definition RejectApplication w eventID leaseID (code : Code) now : action Journal EventRecord :=
  fun j =>
  if negb (String.eqb code "") && negb (Known code) then (Err (NewError "unknown rejection code"), j)
  else finish w eventID leaseID StateRejected code now j.

(** An event already read is returned as it is, without a write. *)
Definition MarkRead (w : write_outcome) (eventID : string) (now : time) : action Journal EventRecord :=
  fun j =>
  checked j
    (refuse negb (eventPattern eventID) with NewError "invalid event identifier";
     refuse time_invalid now with NewError "invalid read time";
     Ok tt)
    (fun j =>
     let path := inbound_path eventID in
     match readRecord (jr_inbound j) path with
     | Err e => (Err (if bool_decide (e = ErrNotExist) then ErrUnknown else e), j)
     | Ok r =>
         if negb (rc_ReadAtUnix r =? 0) then (Ok r, j) else
         if now <? rc_ReceivedAtUnix r then (Err (NewError "event read before it was received"), j)
         else commit_record w path (set_read r now) j
     end).

Definition Lookup (eventID : string) (j : Journal) : result (option EventRecord) :=
  call journal_usable j;
  refuse negb (eventPattern eventID) with NewError "invalid event identifier";
  match readRecord (jr_inbound j) (inbound_path eventID) with
  | Err e => if bool_decide (e = ErrNotExist) then Ok None else Err e
  | Ok r => Ok (Some r)
  end.

(** ** The owner's decision *)

Definition admission_decision (state : AdmissionState) (code : Code) (current : Z) (r : EventRecord)
    : result EventRecord :=
  refuse negb (bool_decide (rc_Admission r = AdmissionPending)) with ErrNotPending;
  let r' := set_admission r state current code in
  Ok (if bool_decide (state = AdmissionDenied)
      then set_rejected (set_application r' StateRejected (rc_LeaseID r) (rc_LeaseExpiresAt r)) current
             (if String.eqb (rc_RejectionCode r) "" then code else rc_RejectionCode r)
      else r').

Definition decideAdmission (w : write_outcome) (eventID : string) (state : AdmissionState) (code : Code)
    (now : time) : action Journal EventRecord :=
  fun j =>
  checked j
    (refuse negb (eventPattern eventID) with NewError "invalid event identifier";
     refuse time_invalid now with NewError "invalid admission time";
     Ok tt)
    (inbound_transition w eventID (admission_decision state code now)).

Definition AdmitEvent w eventID now : action Journal EventRecord :=
  decideAdmission w eventID AdmissionAdmitted "" now.
Definition DenyEvent w eventID (code : Code) now : action Journal EventRecord :=
  fun j =>
  if negb (String.eqb code "") && negb (Known code) then (Err (NewError "unknown admission code"), j)
  else decideAdmission w eventID AdmissionDenied code now j.

(** ** Expiry of what nobody decided ([quota.go]) *)

Definition expiredCode : Code := CodeEventOutsideWindow.

Definition expire_record (seconds : Z) (r : EventRecord) : EventRecord :=
  set_rejected
    (set_application (set_admission r AdmissionDenied seconds expiredCode) StateRejected
       (rc_LeaseID r) (rc_LeaseExpiresAt r))
    seconds expiredCode.

Definition must_expire (quota : Quota) (seconds : Z) (r : EventRecord) : bool :=
  bool_decide (rc_Admission r = AdmissionPending) && record_expired r quota seconds.

(** The count is returned also when a write fails. *)
Fixpoint expire_pending (ws : string -> write_outcome) (seconds : Z) (names : list string) (n : Z)
    (j : Journal) : option error * Z * Journal :=
  match names with
  | [] => (None, n, j)
  | name :: rest =>
      if is_dir (jr_inbound j) name then expire_pending ws seconds rest n j else
      match readRecord (jr_inbound j) name with
      | Err _ => expire_pending ws seconds rest n j
      | Ok r =>
          if negb (must_expire (jr_quota j) seconds r) then expire_pending ws seconds rest n j else
          match commit_record (ws name) name (expire_record seconds r) j with
          | (Err e, j') => (Some e, n, j')
          | (Ok _, j') => expire_pending ws seconds rest (n + 1) j'
          end
      end
  end.

Definition ExpirePendingAdmissions (ws : string -> write_outcome) (now : time) (j : Journal)
    : option error * Z * Journal :=
  match journal_usable j with
  | Err e => (Some e, 0, j)
  | Ok _ =>
      if time_invalid now then (Some (NewError "invalid expiry time"), 0, j)
      else expire_pending ws now (dir_names (jr_inbound j)) 0 j
  end.

(** ** Operations *)

Inductive inbound_op : Type :=
  | OpAccept (c : create_outcome) (entry : Entry)
  | OpClaim (w : write_outcome) (eventID leaseID : string) (now : time) (lease : Z)
      (required : string) (excluded allowed : list string)
  | OpComplete (w : write_outcome) (eventID leaseID : string) (now : time)
  | OpReject (w : write_outcome) (eventID leaseID : string) (code : Code) (now : time)
  | OpMarkRead (w : write_outcome) (eventID : string) (now : time)
  | OpAdmit (w : write_outcome) (eventID : string) (now : time)
  | OpDeny (w : write_outcome) (eventID : string) (code : Code) (now : time)
  | OpExpirePending (ws : string -> write_outcome) (now : time).

Definition run_inbound (j : Journal) (op : inbound_op) : Journal :=
  match op with
  | OpAccept c entry => snd (Accept c entry j)
  | OpClaim w e l now lease required excluded allowed =>
      snd (claimForApplicationKind w e l now lease required excluded allowed j)
  | OpComplete w e l now => snd (CompleteApplication w e l now j)
  | OpReject w e l code now => snd (RejectApplication w e l code now j)
  | OpMarkRead w e now => snd (MarkRead w e now j)
  | OpAdmit w e now => snd (AdmitEvent w e now j)
  | OpDeny w e code now => snd (DenyEvent w e code now j)
  | OpExpirePending ws now => snd (ExpirePendingAdmissions ws now j)
  end.

Definition run_inbounds (ops : list inbound_op) (j : Journal) : Journal := foldl run_inbound j ops.


(** ** One operation on one file *)

(** How one operation may change a record that is there. *)
Inductive inbound_evolves (name : string) : inbound_op -> EventRecord -> EventRecord -> Prop :=
  | ie_claim w e l now lease required excluded allowed r r' :
      inbound_path e = name -> leasePattern l = true -> time_invalid now = false ->
      MinLeaseSeconds <= Z.quot lease Second <= MaxLeaseSeconds ->
      claim_application l now (Z.quot lease Second) required excluded allowed r = Ok r' ->
      inbound_evolves name (OpClaim w e l now lease required excluded allowed) r r'
  | ie_complete w e l now r r' :
      inbound_path e = name -> finish_decision l StateApplied "" now r = Ok r' ->
      inbound_evolves name (OpComplete w e l now) r r'
  | ie_reject w e l code now r r' :
      inbound_path e = name -> code_ok code = true -> finish_decision l StateRejected code now r = Ok r' ->
      inbound_evolves name (OpReject w e l code now) r r'
  | ie_read w e now r :
      inbound_path e = name -> rc_ReadAtUnix r = 0 -> rc_ReceivedAtUnix r <= now ->
      inbound_evolves name (OpMarkRead w e now) r (set_read r now)
  | ie_admit w e now r r' :
      inbound_path e = name -> admission_decision AdmissionAdmitted "" now r = Ok r' ->
      inbound_evolves name (OpAdmit w e now) r r'
  | ie_deny w e code now r r' :
      inbound_path e = name -> code_ok code = true -> admission_decision AdmissionDenied code now r = Ok r' ->
      inbound_evolves name (OpDeny w e code now) r r'
  | ie_expire ws now r quota :
      must_expire quota now r = true ->
      inbound_evolves name (OpExpirePending ws now) r (expire_record now r).

Lemma check_record_same r r' : check_record r = Ok r' -> r' = r.
Proof. unfold check_record. intros H. inv_ok H. by simplify_eq. Qed.

Lemma readRecord_file files name r :
  readRecord files name = Ok r <-> files !! name = Some (ERec r) /\ check_record r = Ok r.
Proof.
  unfold readRecord. rewrite <- (read_file_Ok err_journal_record).
  destruct (read_file err_journal_record files name) as [r0|e]; [|naive_solver].
  split; [|naive_solver]. intros H. pose proof (check_record_same _ _ H) as ->. done.
Qed.

Lemma with_inbound_same j : with_inbound j (jr_inbound j) = j.
Proof. by destruct j. Qed.

(** What a method on one record does: nothing, or it commits what [rule]
    answered for the record it read. *)
Lemma inbound_transition_cases w e rule j r j' :
  inbound_transition w e rule j = (r, j') ->
  (j' = j /\ is_ok r = false) \/
  (exists x x', readRecord (jr_inbound j) (inbound_path e) = Ok x /\ rule x = Ok x' /\
     j' = with_inbound j (<[inbound_path e := ERec x']> (jr_inbound j)) /\ (r = Ok x' \/ is_ok r = false)).
Proof.
  unfold inbound_transition, commit_record.
  destruct (readRecord _ _) as [x|] eqn:Hr; [|intros; simplify_eq; auto].
  destruct (rule x) as [x'|] eqn:Hx; [|intros; simplify_eq; auto].
  destruct (file_replace w _ x' _) as [[u|err] files] eqn:Hf; intros; simplify_eq.
  - apply file_replace_Ok in Hf as ->. right. eauto 10.
  - apply file_replace_cases in Hf as [[-> _]|[-> _]]; [left; by rewrite with_inbound_same|right; eauto 10].
Qed.

Lemma checked_cases {A} j checks (body : action Journal A) r j' :
  checked j checks body = (r, j') ->
  (j' = j /\ is_ok r = false) \/ (ob_held (jr_outbox j) = true /\ (exists u, checks = Ok u) /\ body j = (r, j')).
Proof.
  unfold checked, journal_usable, usable. destruct (ob_held _); cbn [negb]; [|intros; simplify_eq; auto].
  destruct checks; intros; simplify_eq; eauto 6.
Qed.

Definition inbound_step (name : string) (op : inbound_op) (old new : option (dirent EventRecord)) : Prop :=
  new = old \/
  (old = None /\ exists c entry, op = OpAccept c entry /\ inbound_path (en_EventID entry) = name /\
     validateEntry entry = Ok tt /\
     (new = Some EJunk \/ new = Some (ERec (entry_record entry)))) \/
  (exists r r', old = Some (ERec r) /\ check_record r = Ok r /\ new = Some (ERec r') /\
     inbound_evolves name op r r').

Lemma inbound_transition_step name op j checks w e rule r j' :
  checked j checks (inbound_transition w e rule) = (r, j') ->
  (forall u x x', checks = Ok u -> rule x = Ok x' -> inbound_evolves (inbound_path e) op x x') ->
  inbound_step name op (jr_inbound j !! name) (jr_inbound j' !! name).
Proof.
  intros H Hev. apply checked_cases in H as [[-> _]|(_ & [u Hu] & H)]; [by left|].
  apply inbound_transition_cases in H as [[-> _]|(x & x' & Hr & Hx & -> & _)]; [by left|].
  apply readRecord_file in Hr as [Hf Hck]. cbn.
  destruct (decide (name = inbound_path e)) as [->|Hne].
  - right; right. exists x, x'. rewrite lookup_insert_eq. eauto.
  - left. by rewrite lookup_insert_ne.
Qed.

Lemma Accept_step name c entry j r j' :
  Accept c entry j = (r, j') ->
  inbound_step name (OpAccept c entry) (jr_inbound j !! name) (jr_inbound j' !! name).
Proof.
  unfold Accept, file_create. intros H.
  destruct (journal_usable j); [|simplify_eq; by left].
  destruct (validateEntry entry) as [[]|] eqn:Hv; [|simplify_eq; by left].
  destruct (if bool_decide _ then _ else _); [|simplify_eq; by left]. cbv zeta in H.
  destruct (jr_inbound j !! inbound_path (en_EventID entry)) as [e|] eqn:Hn.
  { rewrite bool_decide_true in H by done. cbn [negb] in H.
    destruct (readRecord _ _); [destruct (negb _)|]; simplify_eq; by left. }
  assert (j' = with_inbound j (match c with
               | COk | CLeftWhole => <[inbound_path (en_EventID entry) := ERec (entry_record entry)]> (jr_inbound j)
               | CFail => jr_inbound j
               | CLeftPartial => <[inbound_path (en_EventID entry) := EJunk]> (jr_inbound j) end)) as ->.
  { destruct c; try rewrite bool_decide_false in H by done; cbn [negb] in H; by simplify_eq. }
  clear H. destruct (decide (name = inbound_path (en_EventID entry))) as [->|Hne].
  - destruct c; cbn; rewrite ?lookup_insert_eq, ?Hn; [right; left|by left|right; left|right; left];
      (split; [done|]); eauto 10.
  - left. destruct c; cbn; by rewrite ?lookup_insert_ne.
Qed.

Lemma MarkRead_step name w e now j r j' :
  MarkRead w e now j = (r, j') ->
  inbound_step name (OpMarkRead w e now) (jr_inbound j !! name) (jr_inbound j' !! name).
Proof.
  unfold MarkRead. intros H. apply checked_cases in H as [[-> _]|(_ & _ & H)]; [by left|].
  destruct (readRecord _ _) as [x|] eqn:Hr; [|simplify_eq; by left].
  destruct (negb (_ =? 0)) eqn:H0; [simplify_eq; by left|]. destruct (now <? _) eqn:Hlt; [simplify_eq; by left|].
  assert (inbound_transition w e (fun x => Ok (set_read x now)) j = (r, j')) as H'
    by (unfold inbound_transition; by rewrite Hr).
  clear H. apply inbound_transition_cases in H' as [[-> _]|(y & y' & Hy & Hx & -> & _)]; [by left|].
  rewrite Hr in Hy. simplify_eq. apply readRecord_file in Hr as [Hf Hck]. cbn.
  destruct (decide (name = inbound_path e)) as [->|Hne].
  - right; right. exists y, (set_read y now). rewrite lookup_insert_eq. breflect.
    split_and!; try done. constructor; [done|lia..].
  - left. by rewrite lookup_insert_ne.
Qed.

Lemma commit_record_cases w path r j x j' :
  commit_record w path r j = (x, j') ->
  j' = with_inbound j (<[path := ERec r]> (jr_inbound j)) \/ (j' = j /\ is_ok x = false).
Proof.
  unfold commit_record. destruct (file_replace w path r _) as [[u|e] files] eqn:Hf; intros; simplify_eq.
  - apply file_replace_Ok in Hf as ->. by left.
  - apply file_replace_cases in Hf as [[-> _]|[-> _]]; [right; by rewrite with_inbound_same|by left].
Qed.

(** The expiry loop visits each name once, so each file takes at most one step. *)
Lemma expire_pending_step ws seconds names n j err m j' name :
  NoDup names -> expire_pending ws seconds names n j = (err, m, j') ->
  inbound_step name (OpExpirePending ws seconds) (jr_inbound j !! name) (jr_inbound j' !! name) /\
  (name ∉ names -> jr_inbound j' !! name = jr_inbound j !! name).
Proof.
  intros Hnd. revert n j. induction Hnd as [|f names Hm Hnd IH]; intros n j; cbn [expire_pending].
  { intros; simplify_eq. split; [by left|done]. }
  assert (forall n' j1, expire_pending ws seconds names n' j1 = (err, m, j') -> jr_inbound j1 = jr_inbound j ->
            inbound_step name (OpExpirePending ws seconds) (jr_inbound j !! name) (jr_inbound j' !! name) /\
            (name ∉ f :: names -> jr_inbound j' !! name = jr_inbound j !! name)) as Hskip.
  { intros n' j1 H Hj. apply IH in H as [H1 H2]. rewrite Hj in H1, H2. split; [done|].
    intros Hni. apply H2. set_solver. }
  destruct (is_dir _ _); [intros H; by apply (Hskip _ _ H)|].
  destruct (readRecord (jr_inbound j) f) as [r|] eqn:Hr; [|intros H; by apply (Hskip _ _ H)].
  destruct (must_expire _ seconds r) eqn:He; cbn [negb]; [|intros H; by apply (Hskip _ _ H)].
  apply readRecord_file in Hr as [Hf Hck].
  assert (inbound_step f (OpExpirePending ws seconds) (jr_inbound j !! f) (Some (ERec (expire_record seconds r))))
    as Hstep by (right; right; exists r, (expire_record seconds r); eauto using inbound_evolves).
  destruct (commit_record (ws f) f _ j) as [[x|e] j1] eqn:Hw;
    apply commit_record_cases in Hw as [->|[-> Hx]]; try discriminate Hx.
  - intros H. apply IH in H as [H1 H2]. cbn in H1, H2.
    destruct (decide (name = f)) as [->|Hne].
    + rewrite H2, lookup_insert_eq by done. split; [done|set_solver].
    + rewrite lookup_insert_ne in H1, H2 by done. split; [done|]. intros; apply H2; set_solver.
  - intros; simplify_eq. cbn. destruct (decide (name = f)) as [->|Hne].
    + rewrite lookup_insert_eq. split; [done|set_solver].
    + rewrite lookup_insert_ne by done. split; [by left|done].
  - intros; simplify_eq. split; [by left|done].
Qed.

Lemma run_inbound_step name j op :
  inbound_step name op (jr_inbound j !! name) (jr_inbound (run_inbound j op) !! name).
Proof.
  destruct op as [c entry|w e l now lease rq ex al|w e l now|w e l code now|w e now|w e now|w e code now|ws now];
    cbn [run_inbound].
  - destruct (Accept c entry j) as [x j'] eqn:E. apply (Accept_step _ _ _ _ _ _ E).
  - destruct (claimForApplicationKind w e l now lease rq ex al j) as [x j'] eqn:E.
    apply (inbound_transition_step name _ _ _ _ _ _ _ _ E). intros u d d' Hc Hd. inv_ok Hc. breflect.
    constructor; try done. lia.
  - destruct (CompleteApplication w e l now j) as [x j'] eqn:E.
    apply (inbound_transition_step name _ _ _ _ _ _ _ _ E). intros. by constructor.
  - destruct (RejectApplication w e l code now j) as [x j'] eqn:E. unfold RejectApplication in E.
    destruct (negb _ && negb _) eqn:Hk; [simplify_eq; by left|].
    apply (inbound_transition_step name _ _ _ _ _ _ _ _ E). intros. constructor; try done.
    unfold code_ok. rewrite <- negb_orb in Hk. by breflect.
  - destruct (MarkRead w e now j) as [x j'] eqn:E. apply (MarkRead_step _ _ _ _ _ _ _ E).
  - destruct (AdmitEvent w e now j) as [x j'] eqn:E.
    apply (inbound_transition_step name _ _ _ _ _ _ _ _ E). intros. by constructor.
  - destruct (DenyEvent w e code now j) as [x j'] eqn:E. unfold DenyEvent in E.
    destruct (negb _ && negb _) eqn:Hk; [simplify_eq; by left|].
    apply (inbound_transition_step name _ _ _ _ _ _ _ _ E). intros. constructor; try done.
    unfold code_ok. rewrite <- negb_orb in Hk. by breflect.
  - destruct (ExpirePendingAdmissions ws now j) as [[x n] j'] eqn:E. cbn [snd]. unfold ExpirePendingAdmissions in E.
    destruct (journal_usable j); [|simplify_eq; by left]. destruct (time_invalid now); [simplify_eq; by left|].
    by apply (expire_pending_step _ _ _ _ _ _ _ _ name (NoDup_dir_names _)) in E as [? _].
Qed.

(** The rest of the journal is untouched. *)
Definition surroundings (j : Journal) := (jr_outbox j, jr_quota j, jr_sessions j, jr_moderation j).

Lemma expire_pending_surroundings ws seconds names n j :
  surroundings (snd (expire_pending ws seconds names n j)) = surroundings j.
Proof.
  revert n j. induction names as [|f names IH]; intros n j; cbn [expire_pending]; [done|].
  destruct (is_dir _ _); [done|]. destruct (readRecord _ _); [|done]. destruct (negb _); [done|].
  unfold commit_record. destruct (file_replace _ _ _ _) as [[]]; [by rewrite IH|done].
Qed.

Lemma run_inbound_surroundings j op : surroundings (run_inbound j op) = surroundings j.
Proof.
  assert (forall checks w e rule,
    surroundings (snd (checked j checks (inbound_transition w e rule))) = surroundings j) as Ht.
  { intros checks w e rule. destruct (checked _ _ _) as [r j'] eqn:E.
    apply checked_cases in E as [[-> _]|(_ & _ & E)]; [done|].
    by apply inbound_transition_cases in E as [[-> _]|(?&?&_&_&->&_)]. }
  destruct op as [c entry|w e l now lease rq ex al|w e l now|w e l code now|w e now|w e now|w e code now|ws now];
    cbn [run_inbound]; try apply Ht.
  - unfold Accept. destruct (journal_usable j); [|done]. destruct (validateEntry _); [|done].
    destruct (if bool_decide _ then _ else _); [|done]. cbv zeta.
    destruct (file_create _ _ _ _) as [[]]; [done|]. destruct (negb _); [done|].
    destruct (readRecord _ _); [destruct (negb _)|]; done.
  - unfold RejectApplication. destruct (_ && _); [done|apply Ht].
  - unfold MarkRead. destruct (checked _ _ _) as [r j'] eqn:E.
    apply checked_cases in E as [[-> _]|(_ & _ & E)]; [done|].
    destruct (readRecord _ _); [|by simplify_eq]. destruct (negb _); [by simplify_eq|].
    destruct (now <? _); [by simplify_eq|]. by apply commit_record_cases in E as [->|[-> _]].
  - unfold DenyEvent. destruct (_ && _); [done|apply Ht].
  - unfold ExpirePendingAdmissions. destruct (journal_usable j); [|done]. destruct (time_invalid now); [done|].
    pose proof (expire_pending_surroundings ws now (dir_names (jr_inbound j)) 0 j) as H.
    by destruct (expire_pending _ _ _ _ _) as [[]].
Qed.

(** ** What no operation changes *)

(** What a record says about the event, and its place in a session. *)
Definition event_identity (r : EventRecord) :=
  ((rc_EventID r, rc_SenderEndpointID r, rc_ConversationID r, rc_PayloadBase64 r, rc_PayloadDigest r),
   (rc_ReceivedAtUnix r, rc_EventExpiresAt r),
   (rc_Crypto r, rc_CryptoAtUnix r, rc_SessionID r, rc_AlgorithmID r, rc_ExpectedGen r),
   (rc_NextStateBase64 r, rc_NextStateDigest r, rc_SessionAuthority r)).
Definition admission_of (r : EventRecord) := (rc_Admission r, rc_AdmissionAtUnix r, rc_AdmissionCode r).
Definition outcome_of (r : EventRecord) := (rc_Application r, rc_AppliedAtUnix r, rc_RejectedAtUnix r, rc_RejectionCode r).
Definition decided (r : EventRecord) : Prop := rc_Admission r <> AdmissionPending.

(** Only an admitted event is claimed or applied, and an undecided one is not
    rejected either. *)
Definition settled_right (r : EventRecord) : Prop :=
  match rc_Admission r with
  | AdmissionAdmitted => True
  | AdmissionPending => rc_Application r = StateQueued
  | _ => rc_Application r = StateQueued \/ rc_Application r = StateRejected
  end.

(** Clocks are [int64] seconds. *)
Definition clock_ok (op : inbound_op) : Prop :=
  match op with OpClaim _ _ _ now _ _ _ _ => now < 2 ^ 63 | _ => True end.

Lemma evolves_identity name op r r' :
  inbound_evolves name op r r' -> event_identity r' = event_identity r /\ rc_Schema r' = rc_Schema r.
Proof.
  intros [? ? ? ? ? ? ? ? x y _ _ _ _ H|? ? ? ? x y _ H|? ? ? ? ? x y _ _ H|? ? ? x _ _ _|? ? ? x y _ H
         |? ? ? ? x y _ _ H|? ? x ? H]; try done.
  - unfold claim_application in H. inv_ok H. by simplify_eq.
  - unfold finish_decision in H. inv_ok H. by simplify_eq.
  - unfold finish_decision in H. inv_ok H. by simplify_eq.
  - unfold admission_decision in H. inv_ok H. by simplify_eq.
  - unfold admission_decision in H. inv_ok H. by simplify_eq.
Qed.

Lemma evolves_admission name op r r' :
  inbound_evolves name op r r' -> decided r -> admission_of r' = admission_of r.
Proof.
  unfold decided.
  intros [? ? ? ? ? ? ? ? x y _ _ _ _ H|? ? ? ? x y _ H|? ? ? ? ? x y _ _ H|? ? ? x _ _ _|? ? ? x y _ H
         |? ? ? ? x y _ _ H|? ? x ? H] Hd; try done.
  - unfold claim_application in H. inv_ok H. by simplify_eq.
  - unfold finish_decision in H. inv_ok H. by simplify_eq.
  - unfold finish_decision in H. inv_ok H. by simplify_eq.
  - unfold admission_decision in H. inv_ok H. breflect. done.
  - unfold admission_decision in H. inv_ok H. breflect. done.
  - unfold must_expire in H. breflect. done.
Qed.

Lemma evolves_terminal name op r r' :
  inbound_evolves name op r r' -> Terminal r = true -> settled_right r -> outcome_of r' = outcome_of r.
Proof.
  unfold Terminal, settled_right.
  intros [? ? ? ? ? ? ? ? x y _ _ _ _ H|? ? ? ? x y _ H|? ? ? ? ? x y _ _ H|? ? ? x _ _ _|? ? ? x y _ H
         |? ? ? ? x y _ _ H|? ? x ? H] Ht Hs; try done.
  - unfold claim_application in H. inv_ok H. by destruct (rc_Application x).
  - unfold finish_decision in H. inv_ok H. breflect. by rewrite Heqb in Ht.
  - unfold finish_decision in H. inv_ok H. breflect. by rewrite Heqb in Ht.
  - unfold admission_decision in H. inv_ok H. breflect. by rewrite Heqb in Hs; rewrite Hs in Ht.
  - unfold admission_decision in H. inv_ok H. breflect. by rewrite Heqb in Hs; rewrite Hs in Ht.
  - unfold must_expire in H. breflect. by rewrite H in Hs; rewrite Hs in Ht.
Qed.

Lemma evolves_settled_right name op r r' :
  inbound_evolves name op r r' -> settled_right r -> settled_right r'.
Proof.
  unfold settled_right.
  intros [? ? ? ? ? ? ? ? x y _ _ _ _ H|? ? ? ? x y _ H|? ? ? ? ? x y _ _ H|? ? ? x _ _ _|? ? ? x y _ H
         |? ? ? ? x y _ _ H|? ? x ? H] Hs; try done.
  - unfold claim_application in H. inv_ok H. breflect. simplify_eq. cbn. by rewrite Heqb.
  - unfold finish_decision in H. inv_ok H. breflect. simplify_eq. cbn.
    destruct (rc_Admission x); rewrite ?Heqb in Hs; naive_solver.
  - unfold finish_decision in H. inv_ok H. breflect. simplify_eq. cbn.
    destruct (rc_Admission x); rewrite ?Heqb in Hs; naive_solver.
  - unfold admission_decision in H. inv_ok H. by simplify_eq.
  - unfold admission_decision in H. inv_ok H. simplify_eq. by right.
  - by right.
Qed.

Lemma Known_code_ok code : code_ok code = true -> negb (String.eqb code "") && negb (Known code) = false.
Proof. unfold code_ok. by destruct (String.eqb _ _), (Known code). Qed.

Lemma check_record_facts r :
  check_record r = Ok r ->
  known_admission (rc_Admission r) = true /\ code_ok (rc_AdmissionCode r) = true /\
  known_application (rc_Application r) = true /\ code_ok (rc_RejectionCode r) = true /\
  rc_ReceivedAtUnix r <> 0.
Proof.
  unfold check_record, code_ok. intros H. inv_ok H. clear H. rewrite <- negb_orb in *. breflect.
  split_and!; try done; lia.
Qed.

(** A record stays readable when what it says of the event stays, its states
    are known, its codes are registered, and a claim has its lease. *)
Lemma check_record_evolves r r' :
  check_record r = Ok r -> event_identity r' = event_identity r -> rc_Schema r' = rc_Schema r ->
  known_admission (rc_Admission r') = true -> code_ok (rc_AdmissionCode r') = true ->
  known_application (rc_Application r') = true -> code_ok (rc_RejectionCode r') = true ->
  (rc_Application r' = StateClaimed -> leasePattern (rc_LeaseID r') = true /\ rc_LeaseExpiresAt r' <> 0) ->
  check_record r' = Ok r'.
Proof.
  destruct r, r'. unfold event_identity. cbn -[b64_decode]. intros Hk Hid Hs Ha Hac Hap Hrc Hl.
  injection Hid; clear Hid; intros; subst.
  unfold check_record, Record_Payload in *. cbn -[b64_decode] in *. inv_ok Hk. clear Hk Heqb3. rewrite Ha, Hap. cbn.
  rewrite !Known_code_ok by done. case_bool_decide as Hc; [|done]. destruct (Hl Hc) as [-> Hx]. cbn.
  by apply Z.eqb_neq in Hx as ->.
Qed.

Lemma check_record_lease r :
  check_record r = Ok r -> rc_Application r = StateClaimed ->
  leasePattern (rc_LeaseID r) = true /\ rc_LeaseExpiresAt r <> 0.
Proof.
  unfold check_record. intros H Hc. inv_ok H. rewrite Hc, bool_decide_true in Heqb3 by done.
  cbn in Heqb3. breflect. split; [done|lia].
Qed.

Lemma lease_expiry_nonzero now seconds :
  time_invalid now = false -> now < 2 ^ 63 -> MinLeaseSeconds <= seconds <= MaxLeaseSeconds ->
  u64 (now + seconds) = now + seconds.
Proof.
  unfold MinLeaseSeconds, MaxLeaseSeconds, u64. intros H%time_valid_nonneg ? ?. apply Z.mod_small. lia.
Qed.

Lemma evolves_readable name op r r' :
  inbound_evolves name op r r' -> clock_ok op -> check_record r = Ok r -> check_record r' = Ok r'.
Proof.
  intros Hev Hck Hr. destruct (evolves_identity _ _ _ _ Hev) as [Hid Hsch].
  destruct (check_record_facts _ Hr) as (Ka & Kc & Kp & Kr & _).
  apply (check_record_evolves r); try done;
  destruct Hev as [? ? ? ? ? ? ? ? x y _ Hl Ht Hb H|? ? ? ? x y _ H|? ? ? ? ? x y _ Hk H|? ? ? x _ _ _|? ? ? x y _ H
         |? ? ? ? x y _ Hk H|? ? x ? H]; try done;
  try (unfold claim_application in H; inv_ok H; simplify_eq; done);
  try (unfold finish_decision in H; inv_ok H; simplify_eq; done);
  try (unfold admission_decision in H; inv_ok H; simplify_eq; done).
  - unfold admission_decision in H. inv_ok H. simplify_eq. cbn. by destruct (String.eqb _ _).
  - unfold claim_application in H. inv_ok H. simplify_eq. cbn. intros _. split; [done|].
    rewrite lease_expiry_nonzero by done. unfold MinLeaseSeconds in Hb. apply time_valid_nonneg in Ht. lia.
  - apply (check_record_lease _ Hr).
  - unfold admission_decision in H. inv_ok H. simplify_eq. apply (check_record_lease _ Hr).
Qed.

Lemma run_inbound_kept name j op r :
  jr_inbound j !! name = Some (ERec r) ->
  exists r', jr_inbound (run_inbound j op) !! name = Some (ERec r') /\
    (r' = r \/ check_record r = Ok r /\ inbound_evolves name op r r').
Proof.
  intros Hf. destruct (run_inbound_step name j op) as [H|[(H & _)|(x & y & H & Hck & Hy & Hev)]];
    [|congruence|].
  - rewrite H. eauto.
  - assert (x = r) as -> by congruence. eauto.
Qed.

(** An invariant of one readable record that every step keeps holds after any
    sequence of operations. *)
Lemma run_inbounds_invariant (P : EventRecord -> Prop) ops j name r :
  (forall op x y, op ∈ ops -> inbound_evolves name op x y -> check_record x = Ok x -> P x -> P y) ->
  Forall clock_ok ops -> readRecord (jr_inbound j) name = Ok r -> P r ->
  exists r', readRecord (jr_inbound (run_inbounds ops j)) name = Ok r' /\ P r'.
Proof.
  intros Hstep Hck. revert j r. induction Hck as [|op ops Hop Hck IH]; intros j r Hr HP; [eauto|].
  cbn [run_inbounds foldl]. apply readRecord_file in Hr as [Hf Hchk].
  destruct (run_inbound_kept name j op r Hf) as (r1 & Hf1 & [->|[_ Hev]]).
  - apply (IH ltac:(intros; eapply Hstep; [by right|done..]) _ r); [by apply readRecord_file|done].
  - apply (IH ltac:(intros; eapply Hstep; [by right|done..]) _ r1).
    + apply readRecord_file. split; [done|]. by apply (evolves_readable name op r).
    + eapply Hstep; [by left|done..].
Qed.

Definition inbound_keeps (r r' : EventRecord) : Prop :=
  event_identity r' = event_identity r /\ settled_right r' /\
  (decided r -> admission_of r' = admission_of r) /\ (Terminal r = true -> outcome_of r' = outcome_of r).

Lemma admission_decided r r' : admission_of r' = admission_of r -> decided r -> decided r'.
Proof. unfold admission_of, decided. intros [= -> _ _]. done. Qed.
Lemma outcome_Terminal r r' : outcome_of r' = outcome_of r -> Terminal r = true -> Terminal r' = true.
Proof. unfold outcome_of, Terminal. intros [= -> _ _ _]. done. Qed.


(** ** Leases *)

(** The record is an admitted event held under lease [l] until [until]. *)
Definition held_under (l : string) (until : Z) (r : EventRecord) : Prop :=
  rc_Admission r = AdmissionAdmitted /\ rc_Application r = StateClaimed /\ rc_LeaseID r = l /\
  rc_LeaseExpiresAt r = until.

(** The operation is neither the holder finishing nor a claim after the lease. *)
Definition within_lease (name l : string) (until : Z) (op : inbound_op) : Prop :=
  match op with
  | OpClaim _ e _ now _ _ _ _ => inbound_path e = name -> now < until
  | OpComplete _ e l' _ | OpReject _ e l' _ _ => inbound_path e = name -> l' <> l
  | _ => True
  end.

Lemma within_lease_held name l until op r r' :
  inbound_evolves name op r r' -> within_lease name l until op -> held_under l until r -> held_under l until r'.
Proof.
  unfold held_under.
  intros [? ? ? ? ? ? ? ? x y Hn _ _ _ H|? ? ? ? x y Hn H|? ? ? ? ? x y Hn _ H|? ? ? x _ _ _|? ? ? x y _ H
         |? ? ? ? x y _ _ H|? ? x ? H] Hw (Ha & Hc & Hl & Hu); cbn in Hw; try done.
  - specialize (Hw Hn). unfold claim_application in H. inv_ok H. rewrite Hc in Heqr1. breflect.
    inv_ok Heqr1. breflect. lia.
  - unfold finish_decision in H. inv_ok H. breflect. naive_solver.
  - unfold finish_decision in H. inv_ok H. breflect. naive_solver.
  - unfold admission_decision in H. inv_ok H. breflect. congruence.
  - unfold admission_decision in H. inv_ok H. breflect. congruence.
  - unfold must_expire in H. breflect. congruence.
Qed.

Lemma claim_granted_inv w e l now lease rq ex al j r j' :
  claimForApplicationKind w e l now lease rq ex al j = (Ok r, j') -> now < 2 ^ 63 ->
  ob_held (jr_outbox j') = true /\ eventPattern e = true /\ leasePattern l = true /\
  readRecord (jr_inbound j') (inbound_path e) = Ok r /\ held_under l (now + Z.quot lease Second) r.
Proof.
  unfold claimForApplicationKind. cbv zeta. intros H Hnow.
  apply checked_cases in H as [[_ ?]|(Hh & [u Hu] & H)]; [done|].
  apply inbound_transition_cases in H as [[_ ?]|(x & x' & Hr & Hx & -> & [[= <-]|?])]; [done| |done].
  inv_ok Hu. breflect. apply readRecord_file in Hr as [_ Hck].
  assert (inbound_evolves (inbound_path e) (OpClaim w e l now lease rq ex al) x r) as Hev
    by (constructor; try done; lia).
  split_and!; try done.
  - apply readRecord_file. cbn. rewrite lookup_insert_eq. split; [done|].
    by apply (evolves_readable _ _ _ _ Hev).
  - unfold claim_application in Hx. inv_ok Hx. breflect. simplify_eq. unfold held_under. cbn.
    rewrite lease_expiry_nonzero by (try done; lia). done.
Qed.

Lemma run_inbounds_surroundings ops j : surroundings (run_inbounds ops j) = surroundings j.
Proof.
  revert j. induction ops as [|op ops IH]; intros j; [done|]. cbn. fold (run_inbounds ops (run_inbound j op)).
  by rewrite IH, run_inbound_surroundings.
Qed.

Lemma run_inbounds_held ops j : ob_held (jr_outbox (run_inbounds ops j)) = ob_held (jr_outbox j).
Proof. pose proof (run_inbounds_surroundings ops j) as H. unfold surroundings in H. congruence. Qed.


(** A lease on an event is exclusive: from a granted claim until the lease
    runs out or its holder finishes, whatever other runtimes, the owner and the
    expiry sweep do, the record stays under this lease; every other claim is
    refused and every completion under another lease changes nothing, and the
    holder can complete it. *)
Theorem application_lease_exclusive w e l now lease rq ex al j r j' ops :
  claimForApplicationKind w e l now lease rq ex al j = (Ok r, j') -> now < 2 ^ 63 ->
  Forall clock_ok ops -> Forall (within_lease (inbound_path e) l (now + Z.quot lease Second)) ops ->
  let J := run_inbounds ops j' in
  (exists r', readRecord (jr_inbound J) (inbound_path e) = Ok r' /\
     held_under l (now + Z.quot lease Second) r' /\ event_identity r' = event_identity r) /\
  (forall w2 l2 now2 lease2 rq2 ex2 al2, now2 < now + Z.quot lease Second ->
     exists err, claimForApplicationKind w2 e l2 now2 lease2 rq2 ex2 al2 J = (Err err, J)) /\
  (forall w2 l2 state code now2, l2 <> l -> exists err, finish w2 e l2 state code now2 J = (Err err, J)) /\
  (forall now2, time_invalid now2 = false ->
     exists r' J', CompleteApplication WOk e l now2 J = (Ok r', J') /\ rc_Application r' = StateApplied).
Proof.
  intros Hc Hnow Hck Hw J. destruct (claim_granted_inv _ _ _ _ _ _ _ _ _ _ _ Hc Hnow) as (Hh & He & Hl & Hr & Hu).
  destruct (run_inbounds_invariant
    (fun x => held_under l (now + Z.quot lease Second) x /\ event_identity x = event_identity r)
    ops j' (inbound_path e) r) as (r' & Hr' & Hu' & Hid); [|done..|].
  { intros op x y Hin Hev _ [Hx Hidx]. rewrite Forall_forall in Hw. split.
    - by apply (within_lease_held _ _ _ _ _ _ Hev (Hw op Hin)).
    - destruct (evolves_identity _ _ _ _ Hev) as [-> _]. done. }
  fold J in Hr'. assert (journal_usable J = Ok tt) as HJ.
  { unfold journal_usable, usable, J. by rewrite run_inbounds_held, Hh. }
  destruct Hu' as (Ha & Hap & Hlr & Hx). split_and!.
  - exists r'. by split_and!.
  - intros w2 l2 now2 lease2 rq2 ex2 al2 Hlt. unfold claimForApplicationKind, checked. rewrite HJ. cbv zeta.
    destruct (if negb (eventPattern e) then _ else _); [|eauto]. unfold inbound_transition. rewrite Hr'.
    unfold claim_application. destruct (kind_allows _ _ _ _); [|eauto].
    rewrite Ha, bool_decide_true by done. cbn [negb]. rewrite Hap, Hx, (proj2 (Z.ltb_lt _ _)) by done. eauto.
  - intros w2 l2 state code now2 Hne. unfold finish, checked. rewrite HJ.
    destruct (if negb (eventPattern e) then _ else _); [|eauto]. unfold inbound_transition. rewrite Hr'.
    unfold finish_decision. rewrite Hap, bool_decide_true, Hlr, (proj2 (String.eqb_neq _ _)) by done. cbn. eauto.
  - intros now2 Ht. unfold CompleteApplication, finish, checked. rewrite HJ, He, Hl, Ht. cbn [negb].
    unfold inbound_transition. rewrite Hr'. unfold finish_decision. rewrite Hap, bool_decide_true by done. cbn [negb].
    rewrite Hlr, String.eqb_refl. cbn [negb]. rewrite bool_decide_true by done. unfold commit_record.
    rewrite file_replace_granted; [by eauto|]. apply readRecord_file in Hr' as [-> _]. done.
Qed.

(** ** Listings *)

#[global] Instance receipt_le_total : Total receipt_le.
Proof.
  intros r s. unfold receipt_le. destruct (Z.lt_trichotomy (rc_ReceivedAtUnix r) (rc_ReceivedAtUnix s)) as [?|[?|?]];
    [by left; left| |by right; left].
  destruct (total str_le (rc_EventID r) (rc_EventID s)); [left|right]; right; split; congruence.
Qed.

Definition hidden (j : Journal) (r : EventRecord) : Prop :=
  exists d, Moderation_read (jr_moderation j) (rc_EventID r) = Ok (Some d) /\ md_Action d = "hide".

Definition offered_at (seconds : Z) (j : Journal) (name : string) : option EventRecord :=
  match readRecord (jr_inbound j) name with
  | Ok r => if offerable seconds r then
              match Moderation_read (jr_moderation j) (rc_EventID r) with
              | Ok (Some d) => if String.eqb (md_Action d) "hide" then None else Some r
              | _ => Some r
              end else None
  | Err _ => None
  end.

Lemma is_dir_unreadable files name : is_dir files name = true -> is_ok (readRecord files name) = false.
Proof. unfold is_dir, readRecord, read_file. by destruct (files !! name) as [[]|]. Qed.

Lemma offered_records_omap seconds j names l :
  offered_records seconds j names = Ok l -> l = omap (offered_at seconds j) names.
Proof.
  revert l. induction names as [|n names IH]; intros l; cbn [offered_records omap list_omap]; [by intros [= <-]|].
  unfold offered_at at 1. destruct (is_dir (jr_inbound j) n) eqn:Hd.
  { apply is_dir_unreadable in Hd. destruct (readRecord _ _); [done|]. apply IH. }
  destruct (readRecord (jr_inbound j) n) as [r|]; [|apply IH].
  destruct (offerable seconds r); cbn [negb]; [|apply IH].
  destruct (Moderation_read _ _) as [[d|]|]; [| |done]; destruct (offered_records _ _ _); try done;
    intros [= <-]; rewrite <- (IH _ eq_refl); [|done]. by destruct (String.eqb _ _).
Qed.

(** Free for a runtime at [now]: admitted, opened by its session or without
    one, and neither finished nor under a live lease. *)
Definition free_at (now : Z) (r : EventRecord) : Prop :=
  rc_Admission r = AdmissionAdmitted /\ (rc_Crypto r = CryptoCommitted \/ rc_Crypto r = CryptoUnbound) /\
  (rc_Application r = StateQueued \/ rc_Application r = StateClaimed /\ rc_LeaseExpiresAt r <= now).

Lemma offerable_iff now r : offerable now r = true <-> free_at now r.
Proof.
  unfold offerable, Deliverable, free_at.
  rewrite !andb_true_iff, orb_true_iff, !bool_decide_eq_true.
  destruct (rc_Application r); rewrite ?negb_true_iff, ?Z.ltb_ge; naive_solver.
Qed.

Lemma offered_at_Some now j name r :
  is_ok (Moderation_read (jr_moderation j) (rc_EventID r)) = true ->
  (offered_at now j name = Some r <->
   readRecord (jr_inbound j) name = Ok r /\ free_at now r /\ ~ hidden j r).
Proof.
  intros Hm. unfold offered_at, hidden. rewrite <- offerable_iff.
  destruct (readRecord (jr_inbound j) name) as [x|]; [|naive_solver].
  destruct (offerable now x) eqn:Ho; [|naive_solver congruence].
  split.
  - intros H. assert (x = r) as ->.
    { destruct (Moderation_read _ (rc_EventID x)) as [[d|]|]; [destruct (String.eqb _ _)|..]; congruence. }
    split_and!; [done..|]. intros (d & Hd & Ha). rewrite Hd, Ha in H. done.
  - intros ([= ->] & _ & Hh). destruct (Moderation_read _ _) as [[d|]|]; [|done..].
    destruct (String.eqb_spec (md_Action d) "hide"); [|done]. destruct Hh. eauto.
Qed.

Lemma offered_moderated seconds j names l name r :
  offered_records seconds j names = Ok l -> name ∈ names -> readRecord (jr_inbound j) name = Ok r ->
  free_at seconds r -> is_ok (Moderation_read (jr_moderation j) (rc_EventID r)) = true.
Proof.
  revert l. induction names as [|n names IH]; intros l; cbn [offered_records]; [set_solver|].
  rewrite elem_of_cons. intros H Hin Hr Hf. destruct (is_dir (jr_inbound j) n) eqn:Hd.
  { destruct Hin as [->|Hin]; [|eauto]. apply is_dir_unreadable in Hd. by rewrite Hr in Hd. }
  destruct (readRecord (jr_inbound j) n) as [x|] eqn:Hx; [|destruct Hin as [->|Hin]; [congruence|eauto]].
  destruct (offerable seconds x) eqn:Ho; cbn [negb] in H.
  - destruct (Moderation_read _ (rc_EventID x)) eqn:Hm; [|done]. destruct Hin as [->|Hin].
    + rewrite Hr in Hx. simplify_eq. by rewrite Hm.
    + destruct (offered_records _ _ names); [|done]. eauto.
  - destruct Hin as [->|Hin]; [|eauto]. rewrite Hr in Hx. simplify_eq. apply offerable_iff in Hf. congruence.
Qed.

(** An admitted event that is not held or finished is granted to the next
    runtime that asks with a new lease. *)
Lemma claim_granted e l now lease j r :
  ob_held (jr_outbox j) = true -> readRecord (jr_inbound j) (inbound_path e) = Ok r ->
  rc_Admission r = AdmissionAdmitted ->
  (rc_Application r = StateQueued \/ rc_Application r = StateClaimed /\ rc_LeaseExpiresAt r <= now) ->
  eventPattern e = true -> leasePattern l = true -> l <> rc_LeaseID r -> time_invalid now = false ->
  MinLeaseSeconds <= Z.quot lease Second <= MaxLeaseSeconds ->
  let r' := set_application r StateClaimed l (u64 (now + Z.quot lease Second)) in
  ClaimForApplication WOk e l now lease j =
    (Ok r', with_inbound j (<[inbound_path e := ERec r']> (jr_inbound j))).
Proof.
  intros Hh Hr Ha Hap He Hl Hne Ht Hb. unfold ClaimForApplication, claimForApplicationKind, checked,
    journal_usable, usable. rewrite Hh, He, Hl, Ht. cbn [negb]. cbv zeta.
  rewrite (proj2 (Z.ltb_ge _ _)), (proj2 (Z.ltb_ge _ _)) by lia. cbn [orb].
  unfold inbound_transition. rewrite Hr. unfold claim_application, kind_allows. cbn [String.eqb andb].
  rewrite bool_decide_true, Ha, bool_decide_true by done. cbn [negb].
  rewrite String.eqb_sym, (proj2 (String.eqb_neq _ _)) by done.
  assert (readRecord (jr_inbound j) (inbound_path e) = Ok r) as [Hf _]%readRecord_file by done.
  assert (match rc_Application r with
          | StateQueued => Ok tt
          | StateClaimed => if now <? rc_LeaseExpiresAt r then Err ErrLeaseMismatch else Ok tt
          | _ => Err ErrNotPending
          end = Ok tt) as -> by (destruct Hap as [->|[-> Hx]]; [done|]; by rewrite (proj2 (Z.ltb_ge _ _)) by lia).
  cbn [andb]. unfold commit_record. by rewrite file_replace_granted by (by rewrite Hf).
Qed.

(** A runtime's list is exactly the admitted events whose session has
    recorded them (or that have none), that are not finished, not under a live
    lease and not hidden by a moderator, oldest receipt first; a limit keeps a
    prefix; and every listed event filed under its own identifier is granted to
    the next claim with a new lease. *)
Theorem list_pending_exact now j l :
  ListPending now 0 j = Ok l ->
  (forall r, r ∈ l <-> exists name, readRecord (jr_inbound j) name = Ok r /\ free_at now r /\ ~ hidden j r) /\
  Sorted receipt_le l /\
  (forall limit, 0 < limit -> ListPending now limit j = Ok (take (Z.to_nat limit) l)) /\
  (forall r lease duration, r ∈ l -> readRecord (jr_inbound j) (inbound_path (rc_EventID r)) = Ok r ->
     leasePattern lease = true -> lease <> rc_LeaseID r ->
     MinLeaseSeconds <= Z.quot duration Second <= MaxLeaseSeconds ->
     is_ok (fst (ClaimForApplication WOk (rc_EventID r) lease now duration j)) = true).
Proof.
  unfold ListPending, journal_usable, usable. intros H. destruct (negb (ob_held _)) eqn:Hheld; [done|].
  destruct (time_invalid now) eqn:Ht; [done|]. destruct (offered_records _ _ _) as [l0|] eqn:Ho; [|done].
  unfold limited in H at 1. cbn in H. apply Ok_inj in H as <-.
  assert (forall r, r ∈ merge_sort receipt_le l0 <->
     exists name, readRecord (jr_inbound j) name = Ok r /\ free_at now r /\ ~ hidden j r) as Hmem.
  { intros r. rewrite merge_sort_Permutation, (offered_records_omap _ _ _ _ Ho), list_elem_of_omap. split.
    - intros (name & Hn & Hs). exists name. pose proof Hs as Hs'. unfold offered_at in Hs'.
      destruct (readRecord (jr_inbound j) name) as [x|] eqn:Hx; [|done].
      destruct (offerable now x) eqn:Hox; [|done]. assert (x = r) as ->.
      { destruct (Moderation_read _ _) as [[d|]|]; [destruct (String.eqb _ _)|..]; congruence. }
      apply offered_at_Some in Hs; [by rewrite Hx in Hs|].
      apply offerable_iff in Hox. apply (offered_moderated _ _ _ _ _ _ Ho Hn Hx Hox).
    - intros (name & Hr & Hf & Hh).
      assert (name ∈ dir_names (jr_inbound j)) as Hn.
      { apply elem_of_dir_names. apply readRecord_file in Hr as [-> _]. by eexists. }
      exists name. split; [done|]. apply offered_at_Some; [|done].
      apply (offered_moderated _ _ _ _ _ _ Ho Hn Hr Hf). }
  split_and!; [exact Hmem|apply Sorted_merge_sort, _| |].
  - intros limit Hlim. f_equal. unfold limited. rewrite (proj2 (Z.ltb_lt _ _)) by done. cbn [andb].
    destruct (Z.ltb_spec limit (Z.of_nat (length (merge_sort receipt_le l0)))); [done|].
    rewrite take_ge; [done|lia].
  - intros r lease duration (_ & _ & (? & _ & ?) & _)%Hmem Hr Hl Hne Hb.
    rewrite (claim_granted _ _ _ _ _ r); try done; [by apply negb_false_iff in Hheld|].
    apply readRecord_file in Hr as [_ Hck]. unfold check_record in Hck. inv_ok Hck. by breflect.
Qed.

(** ** Accepting once *)

Definition entry_authority (entry : Entry) : bool :=
  match en_Transition entry with
  | Some t => authority_ok (tr_Authority t) (tr_SessionID t)
  | None => true
  end.

(** A fresh record is one the journal reads back, unless its payload hashes to
    the all-zero digest, which [ValidDigest] refuses. *)
Lemma entry_record_readable entry :
  validateEntry entry = Ok tt -> ValidDigest (canon_Digest (en_Payload entry)) = true ->
  entry_authority entry = true -> check_record (entry_record entry) = Ok (entry_record entry).
Proof.
  unfold validateEntry, entry_authority. intros Hv Hd Ha. inv_ok Hv. breflect.
  unfold check_record, entry_record, Record_Payload.
  destruct (en_Transition entry) as [t|]; cbn -[b64_decode b64_encode];
    rewrite b64_decode_encode, !String.eqb_refl, Hd, Heqb, Heqb0, Heqb1, Heqb3, Heqb4; cbn; by rewrite ?Ha.
Qed.

Lemma entry_record_identity entry :
  let r := entry_record entry in
  rc_EventID r = en_EventID entry /\ rc_SenderEndpointID r = en_SenderEndpointID entry /\
  rc_ConversationID r = en_ConversationID entry /\ rc_PayloadDigest r = canon_Digest (en_Payload entry) /\
  rc_PayloadBase64 r = b64_encode (en_Payload entry) /\
  rc_Admission r = en_Admission entry /\ rc_ReceivedAtUnix r = en_ReceivedAtUnix entry /\
  rc_Application r = StateQueued /\
  rc_Crypto r = match en_Transition entry with Some _ => CryptoStaged | None => CryptoUnbound end.
Proof. unfold entry_record. by destruct (en_Transition entry). Qed.

Lemma entry_record_settled entry : settled_right (entry_record entry).
Proof.
  destruct (entry_record_identity entry) as (_ & _ & _ & _ & _ & _ & _ & H & _). unfold settled_right.
  rewrite H. destruct (rc_Admission _); auto.
Qed.

(** What [Accept] first asks of the quota. *)
Definition capacity (entry : Entry) (j : Journal) : result unit :=
  if bool_decide (en_Admission entry = AdmissionPending)
  then pendingCapacity (en_SenderEndpointID entry) (blen (en_Payload entry)) (en_ReceivedAtUnix entry) j
  else Ok tt.

Lemma Accept_fresh c entry j r j' :
  Accept c entry j = (Ok (true, r), j') ->
  ob_held (jr_outbox j) = true /\ validateEntry entry = Ok tt /\ capacity entry j = Ok tt /\
  r = entry_record entry /\ jr_inbound j !! inbound_path (en_EventID entry) = None /\
  j' = with_inbound j (<[inbound_path (en_EventID entry) := ERec r]> (jr_inbound j)).
Proof.
  unfold Accept, journal_usable, usable, capacity. destruct (ob_held _); [cbn [negb]|done].
  destruct (validateEntry entry) as [[]|]; [|done].
  destruct (if bool_decide _ then _ else _) as [[]|]; [|done]. cbv zeta. unfold file_create.
  destruct (jr_inbound j !! _).
  { rewrite bool_decide_true by done. cbn [negb]. destruct (readRecord _ _); [destruct (negb _)|]; done. }
  destruct c; try (rewrite bool_decide_false by done); cbn [negb]; try done. intros; by simplify_eq.
Qed.

(** [Accept] of an identifier that has a readable record. *)
Lemma Accept_existing c entry j r :
  ob_held (jr_outbox j) = true -> validateEntry entry = Ok tt ->
  readRecord (jr_inbound j) (inbound_path (en_EventID entry)) = Ok r ->
  Accept c entry j =
    (call capacity entry j; if same_event r entry then Ok (false, r) else Err ErrConflict, j).
Proof.
  intros Hh Hv Hr. unfold Accept, journal_usable, usable. rewrite Hh, Hv. cbn [negb].
  fold (capacity entry j). destruct (capacity entry j); [|done]. cbv zeta. unfold file_create.
  rewrite Hr. apply readRecord_file in Hr as [-> _]. rewrite bool_decide_true by done. cbn [negb].
  by destruct (same_event r entry).
Qed.

(** An event is accepted once: after a fresh acceptance, and whatever the
    inbound operations did since, accepting its identifier again never writes;
    quota permitting it answers the existing record, with what was accepted
    unchanged, when sender, conversation and payload digest agree, and a conflict
    otherwise. *)
Theorem accept_once c entry j r j' ops c2 entry2 :
  Accept c entry j = (Ok (true, r), j') ->
  ValidDigest (canon_Digest (en_Payload entry)) = true -> entry_authority entry = true ->
  Forall clock_ok ops -> en_EventID entry2 = en_EventID entry -> validateEntry entry2 = Ok tt ->
  let J := run_inbounds ops j' in
  exists r', readRecord (jr_inbound J) (inbound_path (en_EventID entry)) = Ok r' /\
    event_identity r' = event_identity (entry_record entry) /\
    Accept c2 entry2 J =
      (call capacity entry2 J;
       if String.eqb (en_SenderEndpointID entry) (en_SenderEndpointID entry2)
          && String.eqb (en_ConversationID entry) (en_ConversationID entry2)
          && String.eqb (canon_Digest (en_Payload entry)) (canon_Digest (en_Payload entry2))
       then Ok (false, r') else Err ErrConflict, J).
Proof.
  intros (Hh & Hv & _ & -> & _ & ->)%Accept_fresh Hd Ha Hck Hid Hv2 J.
  destruct (run_inbounds_invariant (fun x => event_identity x = event_identity (entry_record entry)) ops
    (with_inbound j (<[inbound_path (en_EventID entry) := ERec (entry_record entry)]> (jr_inbound j)))
    (inbound_path (en_EventID entry)) (entry_record entry)) as (r' & Hr' & Hi); try done.
  { intros op x y _ Hev _ <-. by destruct (evolves_identity _ _ _ _ Hev). }
  { apply readRecord_file. cbn. rewrite lookup_insert_eq. split; [done|by apply entry_record_readable]. }
  exists r'. split_and!; [done..|]. rewrite (Accept_existing c2 entry2 J r'); [|by unfold J; rewrite run_inbounds_held|done|by rewrite Hid].
  destruct (entry_record_identity entry) as (_ & E1 & E2 & E3 & _).
  unfold event_identity in Hi. injection Hi as Hi1 Hi2 Hi3 Hi4 Hi5 _.
  unfold same_event. rewrite Hi2, Hi3, Hi5, E1, E2, E3. done.
Qed.

(** ** The quota *)

Section Waiting.
  (** Whose events are counted: everyone's, or one sender's. *)
  Context (whose : string -> bool).

Definition waits (quota : Quota) (seconds : Z) (files : directory EventRecord) (name : string) : Prop :=
  exists r, readRecord files name = Ok r /\ counts_pending quota seconds r = true /\
    whose (rc_SenderEndpointID r) = true.

#[local] Instance waits_dec quota seconds files name : Decision (waits quota seconds files name).
Proof.
  unfold waits. destruct (readRecord files name) as [r|].
  - destruct (decide (counts_pending quota seconds r = true /\ whose (rc_SenderEndpointID r) = true));
      [left; naive_solver|right; naive_solver].
  - right. naive_solver.
Defined.

Definition waiting_set (quota : Quota) (seconds : Z) (files : directory EventRecord) : gset string :=
  filter (waits quota seconds files) (dom files).

Definition waiting_list (quota : Quota) (seconds : Z) (files : directory EventRecord) : list EventRecord :=
  List.filter (fun r => whose (rc_SenderEndpointID r)) (pending_records quota seconds files (dir_names files)).

Lemma elem_of_waiting quota seconds files name :
  name ∈ waiting_set quota seconds files <-> waits quota seconds files name.
Proof.
  unfold waiting_set. rewrite elem_of_filter. split; [by intros [? _]|]. intros H. split; [done|].
  destruct H as (r & Hr & _). apply readRecord_file in Hr as [Hr _]. apply elem_of_dom. by eexists.
Qed.

Lemma pending_records_length quota seconds files names :
  length (List.filter (fun r => whose (rc_SenderEndpointID r)) (pending_records quota seconds files names)) =
  length (filter (waits quota seconds files) names).
Proof.
  induction names as [|n names IH]; cbn [pending_records]; [done|]. rewrite filter_cons.
  destruct (is_dir files n) eqn:Hd.
  { apply is_dir_unreadable in Hd. rewrite decide_False; [done|]. intros (r & Hr & _). by rewrite Hr in Hd. }
  destruct (readRecord files n) as [r|] eqn:Hr.
  2:{ rewrite decide_False; [done|]. intros (r & Hr' & _). congruence. }
  destruct (counts_pending quota seconds r) eqn:Hc.
  - cbn [List.filter]. destruct (whose (rc_SenderEndpointID r)) eqn:Hw.
    + rewrite decide_True by (exists r; done). cbn. by f_equal.
    + rewrite decide_False; [done|]. intros (r' & Hr' & _ & Hw'). congruence.
  - rewrite decide_False; [done|]. intros (r' & Hr' & Hc' & _). congruence.
Qed.

Lemma waiting_list_size quota seconds files :
  length (waiting_list quota seconds files) = size (waiting_set quota seconds files).
Proof.
  unfold waiting_list. rewrite pending_records_length.
  assert (waiting_set quota seconds files = list_to_set (filter (waits quota seconds files) (dir_names files))) as ->.
  { apply set_eq. intros n. rewrite elem_of_waiting, elem_of_list_to_set, list_elem_of_filter, elem_of_dir_names.
    split; [|by intros [? _]]. intros H. split; [done|].
    destruct H as (r & Hr & _). apply readRecord_file in Hr as [-> _]. by eexists. }
  rewrite size_list_to_set; [done|]. apply NoDup_filter, NoDup_dir_names.
Qed.

Lemma record_expired_later r quota s t : s <= t -> record_expired r quota s = true -> record_expired r quota t = true.
Proof. unfold record_expired. intros Hst. repeat case_match; breflect; lia. Qed.

Lemma waiting_later quota s t files : s <= t -> waiting_set quota t files ⊆ waiting_set quota s files.
Proof.
  intros Hst n. rewrite !elem_of_waiting. intros (r & Hr & Hc & Hw). exists r. split_and!; try done.
  unfold counts_pending in *. apply andb_prop in Hc as [-> Hc]. cbn. apply negb_true_iff in Hc. apply negb_true_iff.
  destruct (record_expired r quota s) eqn:He; [|done]. by rewrite (record_expired_later _ _ _ _ Hst He) in Hc.
Qed.

(** A record still undecided after a step was undecided before it. *)
Lemma evolves_counts name op r r' quota s :
  inbound_evolves name op r r' -> counts_pending quota s r' = true -> counts_pending quota s r = true.
Proof.
  intros Hev. destruct (evolves_identity _ _ _ _ Hev) as [Hid _]. unfold counts_pending, record_expired.
  unfold event_identity in Hid. injection Hid as _ _ _ _ _ HR HE _ _ _ _ _ _ _ _. rewrite HR, HE.
  intros [Hp ->]%andb_prop. rewrite andb_true_r. apply bool_decide_eq_true in Hp. apply bool_decide_eq_true.
  destruct (decide (rc_Admission r = AdmissionPending)) as [|Hn]; [done|].
  pose proof (evolves_admission _ _ _ _ Hev Hn) as H. unfold admission_of in H. congruence.
Qed.

Definition accept_time (op : inbound_op) : option Z :=
  match op with OpAccept _ entry => Some (en_ReceivedAtUnix entry) | _ => None end.

Lemma waiting_step quota s j op :
  waiting_set quota s (jr_inbound (run_inbound j op)) ⊆
  waiting_set quota s (jr_inbound j) ∪
    match op with OpAccept _ entry => {[inbound_path (en_EventID entry)]} | _ => ∅ end.
Proof.
  intros n. rewrite elem_of_union, !elem_of_waiting. intros (r & Hr & Hc & Hw).
  pose proof (run_inbound_step n j op) as Hstep. apply readRecord_file in Hr as [Hf Hck]. rewrite Hf in Hstep.
  destruct Hstep as [H|[(_ & c & entry & -> & Hn & _)|(x & y & Hx & Hcx & [= <-] & Hev)]].
  - left. exists r. split_and!; try done. by apply readRecord_file.
  - right. set_solver.
  - left. exists x. split_and!.
    + by apply readRecord_file.
    + by apply (evolves_counts _ _ _ _ _ _ Hev).
    + destruct (evolves_identity _ _ _ _ Hev) as [Hid _]. unfold event_identity in Hid.
      injection Hid as _ Hs _ _ _ _ _ _ _ _ _ _ _ _ _. congruence.
Qed.

Lemma run_inbound_quota j op : jr_quota (run_inbound j op) = jr_quota j.
Proof. pose proof (run_inbound_surroundings j op) as H. unfold surroundings in H. congruence. Qed.

(** An acceptance that adds a waiting event was granted by the quota. *)
Lemma accept_waiting c entry j n :
  n ∈ waiting_set (jr_quota j) (en_ReceivedAtUnix entry) (jr_inbound (run_inbound j (OpAccept c entry))) ->
  n ∉ waiting_set (jr_quota j) (en_ReceivedAtUnix entry) (jr_inbound j) ->
  capacity entry j = Ok tt /\ en_Admission entry = AdmissionPending /\ whose (en_SenderEndpointID entry) = true.
Proof.
  rewrite !elem_of_waiting. intros (r & Hr & Hc & Hw) Hn. apply readRecord_file in Hr as [Hf Hck].
  destruct (jr_inbound j !! n) as [e|] eqn:Hold.
  { destruct Hn. pose proof (run_inbound_step n j (OpAccept c entry)) as Hs. rewrite Hf, Hold in Hs.
    destruct Hs as [[= <-]|[(? & _)|(x & y & _ & _ & _ & Hev)]]; [|done|by inversion Hev].
    exists r. split_and!; try done. by apply readRecord_file. }
  cbn [run_inbound] in Hf. destruct (Accept c entry j) as [x j'] eqn:E. cbn [snd] in Hf.
  assert (capacity entry j = Ok tt /\ r = entry_record entry) as [Hcap ->].
  { pose proof (Accept_step n _ _ _ _ _ E) as Hs. rewrite Hf, Hold in Hs.
    destruct Hs as [?|[(_ & ? & ? & [= <- <-] & _ & _ & [?|[= ->]])|(? & ? & ? & _)]]; try done.
    split; [|done]. unfold Accept in E. destruct (journal_usable j); [|by simplify_eq].
    destruct (validateEntry entry); [|by simplify_eq]. fold (capacity entry j) in E.
    destruct (capacity entry j) as [[]|]; [done|by simplify_eq]. }
  destruct (entry_record_identity entry) as (_ & Es & _ & _ & _ & Ea & _). rewrite <- Es, <- Ea.
  split_and!; try done. unfold counts_pending in Hc. breflect. done.
Qed.

(** The bound holds at the time of the last acceptance, while acceptances come
    in the order of their times. *)
Fixpoint in_time (s : Z) (ops : list inbound_op) : Prop :=
  match ops with
  | [] => True
  | op :: rest =>
      match accept_time op with
      | Some t => s <= t < 2 ^ 64 /\ in_time t rest
      | None => in_time s rest
      end
  end.
Fixpoint last_time (s : Z) (ops : list inbound_op) : Z :=
  match ops with
  | [] => s
  | op :: rest => last_time (match accept_time op with Some t => t | None => s end) rest
  end.

Lemma waiting_bounded_op (K : nat) s j op :
  (forall entry, capacity entry j = Ok tt -> en_Admission entry = AdmissionPending ->
     whose (en_SenderEndpointID entry) = true -> 0 <= en_ReceivedAtUnix entry < 2 ^ 64 ->
     (size (waiting_set (jr_quota j) (en_ReceivedAtUnix entry) (jr_inbound j)) < K)%nat) ->
  0 <= s -> in_time s [op] -> (size (waiting_set (jr_quota j) s (jr_inbound j)) <= K)%nat ->
  (size (waiting_set (jr_quota j) (last_time s [op]) (jr_inbound (run_inbound j op))) <= K)%nat.
Proof.
  intros Hcap Hs Hin HK. cbn in Hin |- *. destruct (accept_time op) as [t|] eqn:Ht.
  - destruct op as [c entry| | | | | | |]; try discriminate. injection Ht as <-.
    pose proof (waiting_later (jr_quota j) s (en_ReceivedAtUnix entry) (jr_inbound j) ltac:(lia)) as Hl.
    pose proof (waiting_step (jr_quota j) (en_ReceivedAtUnix entry) j (OpAccept c entry)) as Hst. cbn beta iota in Hst.
    set (X := waiting_set (jr_quota j) (en_ReceivedAtUnix entry) (jr_inbound j)) in *.
    set (Y := waiting_set (jr_quota j) (en_ReceivedAtUnix entry) (jr_inbound (run_inbound j (OpAccept c entry)))) in *.
    destruct (set_choose_or_empty (Y ∖ X)) as [[n [Hn Hn']%elem_of_difference]|Hsub].
    2:{ assert (Y ⊆ X) as Hyx%subseteq_size.
        { intros n Hn. destruct (decide (n ∈ X)); [done|]. set_solver. }
        apply subseteq_size in Hl. lia. }
    destruct (accept_waiting _ _ _ _ Hn Hn') as (H1 & H2 & H3).
    specialize (Hcap entry H1 H2 H3 ltac:(lia)). apply subseteq_size in Hst.
      rewrite size_union_alt in Hst. fold X in Hcap.
      assert ({[inbound_path (en_EventID entry)]} ∖ X ⊆ {[inbound_path (en_EventID entry)]}) as H%subseteq_size
        by set_solver.
      rewrite size_singleton in H. lia.
  - pose proof (waiting_step (jr_quota j) s j op) as Hst.
    assert (match op with OpAccept _ entry => {[inbound_path (en_EventID entry)]} | _ => (∅ : gset string) end = ∅) as E
      by (destruct op; [discriminate Ht|done..]).
    rewrite E, union_empty_r_L in Hst. apply subseteq_size in Hst. lia.
Qed.
End Waiting.

Definition awaiting (now : Z) (j : Journal) : list EventRecord :=
  pending_records (jr_quota j) now (jr_inbound j) (dir_names (jr_inbound j)).

Lemma filter_all {A} (l : list A) : List.filter (fun _ => true) l = l.
Proof. induction l as [|x l IH]; [done|]. cbn. by rewrite IH. Qed.

Lemma awaiting_size now j : length (awaiting now j) = size (waiting_set (fun _ => true) (jr_quota j) now (jr_inbound j)).
Proof. rewrite <- waiting_list_size. unfold waiting_list. by rewrite filter_all. Qed.

Lemma awaiting_sender_size now sender j :
  length (List.filter (from_sender sender) (awaiting now j)) =
  size (waiting_set (fun s => String.eqb s sender) (jr_quota j) now (jr_inbound j)).
Proof. by rewrite <- waiting_list_size. Qed.

Lemma capacity_inv entry j :
  capacity entry j = Ok tt -> en_Admission entry = AdmissionPending -> 0 <= en_ReceivedAtUnix entry < 2 ^ 64 ->
  Z.of_nat (length (awaiting (en_ReceivedAtUnix entry) j)) < qt_MaxPendingAdmissions (jr_quota j) /\
  Z.of_nat (length (List.filter (from_sender (en_SenderEndpointID entry)) (awaiting (en_ReceivedAtUnix entry) j)))
    < qt_MaxPendingPerSender (jr_quota j).
Proof.
  unfold capacity, pendingCapacity. intros H Ha Ht. rewrite Ha, bool_decide_true in H by done.
  unfold u64 in H. rewrite Z.mod_small in H by done. cbv zeta in H. inv_ok H. breflect.
  unfold awaiting. split; lia.
Qed.

Lemma run_inbounds_waiting whose (K : nat) ops s j :
  (forall j' entry, jr_quota j' = jr_quota j -> capacity entry j' = Ok tt -> en_Admission entry = AdmissionPending ->
     whose (en_SenderEndpointID entry) = true -> 0 <= en_ReceivedAtUnix entry < 2 ^ 64 ->
     (size (waiting_set whose (jr_quota j') (en_ReceivedAtUnix entry) (jr_inbound j')) < K)%nat) ->
  0 <= s -> in_time s ops -> (size (waiting_set whose (jr_quota j) s (jr_inbound j)) <= K)%nat ->
  (size (waiting_set whose (jr_quota j) (last_time s ops) (jr_inbound (run_inbounds ops j))) <= K)%nat.
Proof.
  revert s j. induction ops as [|op ops IH]; intros s j Hcap Hs Hin HK; [done|].
  assert (in_time s [op]) as Hop by (cbn in Hin |- *; destruct (accept_time op); naive_solver).
  pose proof (waiting_bounded_op whose K s j op (fun e => Hcap j e eq_refl) Hs Hop HK) as H1.
  cbn [last_time run_inbounds foldl] in *. fold (run_inbounds ops (run_inbound j op)).
  rewrite <- (run_inbound_quota j op) in H1 |- *. apply IH; [|cbn in Hin; destruct (accept_time op)..|done].
  - intros j' entry Hq. apply Hcap. by rewrite Hq, run_inbound_quota.
  - lia.
  - done.
  - by destruct Hin.
  - done.
Qed.

(** A stranger cannot fill the journal: while acceptances come in the order
    of their receipt times, no sequence of inbound operations, with any write
    failures, lets more events wait for the owner than the quota allows, in all
    or from one sender. *)
Theorem pending_quota_kept ops s sender j :
  0 <= s -> in_time s ops -> Quota_Validate (jr_quota j) = Ok tt ->
  Z.of_nat (length (awaiting s j)) <= qt_MaxPendingAdmissions (jr_quota j) ->
  Z.of_nat (length (List.filter (from_sender sender) (awaiting s j))) <= qt_MaxPendingPerSender (jr_quota j) ->
  let J := run_inbounds ops j in
  let T := last_time s ops in
  Z.of_nat (length (awaiting T J)) <= qt_MaxPendingAdmissions (jr_quota j) /\
  Z.of_nat (length (List.filter (from_sender sender) (awaiting T J))) <= qt_MaxPendingPerSender (jr_quota j).
Proof.
  intros Hs Hin Hq Ha Hb J T. unfold Quota_Validate in Hq. inv_ok Hq. breflect.
  assert (jr_quota J = jr_quota j) as HJ.
  { pose proof (run_inbounds_surroundings ops j) as H'. unfold surroundings in H'. unfold J. congruence. }
  rewrite awaiting_size, awaiting_sender_size in *. rewrite HJ.
  split.
  - enough (size (waiting_set (fun _ => true) (jr_quota j) T (jr_inbound J))
      <= Z.to_nat (qt_MaxPendingAdmissions (jr_quota j)))%nat by lia.
    apply run_inbounds_waiting; [|done|done|lia].
    intros j' entry Hq' Hc He _ Ht. destruct (capacity_inv _ _ Hc He Ht) as [H1 _].
    rewrite awaiting_size, Hq' in H1. rewrite Hq'. lia.
  - enough (size (waiting_set (fun x => String.eqb x sender) (jr_quota j) T (jr_inbound J))
      <= Z.to_nat (qt_MaxPendingPerSender (jr_quota j)))%nat by lia.
    apply run_inbounds_waiting; [|done|done|lia].
    intros j' entry Hq' Hc He Hw Ht. apply String.eqb_eq in Hw as <-. destruct (capacity_inv _ _ Hc He Ht) as [_ H1].
    rewrite awaiting_sender_size, Hq' in H1. rewrite Hq'. lia.
Qed.

(** C40: [claimForApplicationKind] does not ask whether the event is deliverable:
    an admitted event whose session transition is still staged, or was abandoned,
    is never listed for a runtime, and yet it is granted to a claim that names
    it. *)
Theorem undelivered_claim_granted e l now lease j r :
  ob_held (jr_outbox j) = true -> readRecord (jr_inbound j) (inbound_path e) = Ok r ->
  rc_Admission r = AdmissionAdmitted -> rc_Application r = StateQueued ->
  rc_Crypto r = CryptoStaged \/ rc_Crypto r = CryptoAbandoned ->
  eventPattern e = true -> leasePattern l = true -> l <> rc_LeaseID r -> time_invalid now = false ->
  MinLeaseSeconds <= Z.quot lease Second <= MaxLeaseSeconds ->
  (forall names out, offered_records now j names = Ok out -> r ∉ out) /\
  exists r' j', ClaimForApplication WOk e l now lease j = (Ok r', j') /\ rc_Application r' = StateClaimed.
Proof.
  intros Hh Hr Ha Hq Hc He Hl Hne Ht Hb. split.
  - intros names out Ho. rewrite (offered_records_omap _ _ _ _ Ho), list_elem_of_omap. intros (n & _ & Hs).
    unfold offered_at in Hs. destruct (readRecord _ n) as [x|]; [|done].
    destruct (offerable now x) eqn:Hx; [|done]. assert (x = r) as ->.
    { destruct (Moderation_read _ _) as [[d|]|]; [destruct (String.eqb _ _)|..]; congruence. }
    apply offerable_iff in Hx as (_ & [?|?] & _); destruct Hc; congruence.
  - rewrite (claim_granted _ _ _ _ _ r) by auto. by eexists _, _.
Qed.

(** ** Witnesses: an event accepted, offered, claimed and decided *)

Definition sample_entry (admission : AdmissionState) : Entry :=
  MkEntry sample_event ("mep_" +:+ sample_hash) ("conv_" +:+ sample_hash) [x01; x02; x03]%byte admission 100 5000 None.
Definition empty_journal : Journal := MkJournal empty_outbox DefaultQuota ∅ ∅ ∅.
Definition sample_lease : string := "lease_" +:+ sample_hash.
Definition sample_record (admission : AdmissionState) : EventRecord := entry_record (sample_entry admission).
Definition sample_inbound (admission : AdmissionState) : Journal :=
  MkJournal empty_outbox DefaultQuota {[ inbound_path sample_event := ERec (sample_record admission) ]} ∅ ∅.

Lemma sample_record_readable admission :
  known_admission admission = true ->
  readRecord (jr_inbound (sample_inbound admission)) (inbound_path sample_event) = Ok (sample_record admission).
Proof.
  intros H. apply readRecord_file. split; [apply lookup_singleton_eq|].
  apply entry_record_readable; [|exact ValidDigest_payload|done].
  unfold validateEntry. cbn [en_Admission sample_entry]. rewrite H. vm_compute. reflexivity.
Qed.


Lemma sample_claim_inbound :
  ClaimForApplication WOk sample_event sample_lease 200 (60 * Second) (sample_inbound AdmissionAdmitted) =
  (Ok (set_application (sample_record AdmissionAdmitted) StateClaimed sample_lease 260),
   with_inbound (sample_inbound AdmissionAdmitted)
     (<[inbound_path sample_event := ERec (set_application (sample_record AdmissionAdmitted) StateClaimed sample_lease 260)]>
        (jr_inbound (sample_inbound AdmissionAdmitted)))).
Proof.
  rewrite (claim_granted sample_event sample_lease 200 (60 * Second) _ (sample_record AdmissionAdmitted)); try done.
  by left.
Qed.

Lemma application_lease_exclusive_witness : exists err J,
  claimForApplicationKind WOk sample_event ("lease_" +:+ hex_encode (List.repeat x07%byte 32)) 230 (60 * Second) "" [] [] J
    = (Err err, J) /\ jr_inbound J <> ∅.
Proof.
  pose proof sample_claim_inbound as Hclaim. unfold ClaimForApplication in Hclaim.
  destruct (application_lease_exclusive _ _ _ _ _ _ _ _ _ _ _ [OpMarkRead WOk sample_event 210] Hclaim)
    as ((r' & Hr & _) & H & _ & _).
  - reflexivity.
  - apply Forall_cons; split; [exact I|constructor].
  - apply Forall_cons; split; [exact I|constructor].
  - destruct (H WOk ("lease_" +:+ hex_encode (List.repeat x07%byte 32)) 230 (60 * Second) "" [] []) as [err He];
      [reflexivity|]. eexists err, _. split; [exact He|].
    intros E. rewrite E in Hr. discriminate Hr.
Defined.

Lemma sample_listed :
  ListPending 200 0 (sample_inbound AdmissionAdmitted) = Ok [sample_record AdmissionAdmitted].
Proof. vm_compute. reflexivity. Qed.

Lemma list_pending_exact_witness :
  sample_record AdmissionAdmitted ∈ [sample_record AdmissionAdmitted] /\
  is_ok (fst (ClaimForApplication WOk sample_event sample_lease 200 (60 * Second) (sample_inbound AdmissionAdmitted))) = true.
Proof.
  destruct (list_pending_exact 200 (sample_inbound AdmissionAdmitted) _ sample_listed) as (Hm & _ & _ & Hc).
  assert (sample_record AdmissionAdmitted ∈ [sample_record AdmissionAdmitted]) as Hin.
  { apply Hm. exists (inbound_path sample_event). split; [by apply sample_record_readable|]. split.
    - vm_compute. auto.
    - intros (d & H & _). vm_compute in H. discriminate. }
  split; [exact Hin|]. apply (Hc (sample_record AdmissionAdmitted) sample_lease (60 * Second) Hin);
    [by apply sample_record_readable|reflexivity|discriminate|vm_compute; split; discriminate].
Defined.

Lemma accept_once_witness : exists r',
  Accept COk (sample_entry AdmissionAdmitted) (run_inbounds [OpMarkRead WOk sample_event 300]
     (snd (Accept COk (sample_entry AdmissionAdmitted) empty_journal))) =
  (Ok (false, r'), run_inbounds [OpMarkRead WOk sample_event 300]
     (snd (Accept COk (sample_entry AdmissionAdmitted) empty_journal))).
Proof.
  destruct (accept_once COk (sample_entry AdmissionAdmitted) empty_journal (sample_record AdmissionAdmitted)
    (snd (Accept COk (sample_entry AdmissionAdmitted) empty_journal)) [OpMarkRead WOk sample_event 300]
    COk (sample_entry AdmissionAdmitted)) as (r' & _ & _ & H);
    [vm_compute; reflexivity|exact ValidDigest_payload|reflexivity|apply Forall_cons; split; [exact I|constructor]
    |reflexivity|vm_compute; reflexivity|].
  exists r'. rewrite H, !String.eqb_refl. reflexivity.
Defined.

Lemma pending_quota_kept_witness :
  Z.of_nat (length (awaiting 100 (run_inbounds [OpAccept COk (sample_entry AdmissionPending)] empty_journal))) <= 256.
Proof.
  destruct (pending_quota_kept [OpAccept COk (sample_entry AdmissionPending)] 0 "" empty_journal) as [H _];
    [lia|cbn; split; [lia|exact I]|reflexivity|vm_compute; discriminate..|]. exact H.
Defined.

Definition staged_entry : Entry :=
  MkEntry sample_event ("mep_" +:+ sample_hash) ("conv_" +:+ sample_hash) [x01; x02; x03]%byte AdmissionAdmitted 100 5000
    (Some (MkTransition ("ses_" +:+ sample_hash) "suite" 0 [x05]%byte None)).
Definition staged_journal : Journal :=
  MkJournal empty_outbox DefaultQuota {[ inbound_path sample_event := ERec (entry_record staged_entry) ]} ∅ ∅.

Lemma staged_readable :
  readRecord (jr_inbound staged_journal) (inbound_path sample_event) = Ok (entry_record staged_entry).
Proof.
  apply readRecord_file. split; [apply lookup_singleton_eq|].
  apply entry_record_readable; [reflexivity|exact ValidDigest_payload|reflexivity].
Qed.

Lemma undelivered_claim_granted_witness : exists r' j',
  ClaimForApplication WOk sample_event sample_lease 200 (60 * Second) staged_journal = (Ok r', j') /\
  rc_Application r' = StateClaimed.
Proof.
  apply (undelivered_claim_granted sample_event sample_lease 200 (60 * Second) staged_journal (entry_record staged_entry));
    [reflexivity|exact staged_readable|reflexivity|reflexivity|left; reflexivity|reflexivity|reflexivity|discriminate
    |reflexivity|vm_compute; split; discriminate].
Defined.
