(* ===== verification/Session.v ===== *)
(** * Session state and its commits: [pkg/eventlog/session.go], [journal.go]

    A session is a ratchet: its state is a value a suite produces, its
    generation counts the commits.  An inbound event is staged before its session
    advances and becomes deliverable after; an outbound delivery is sealed after
    its session advanced.  This file models those commits, with the outcome of
    each write as an argument, and the recovery a restart performs.

    [commitInbound] calls [Accept], which takes the journal's lock and releases
    it, and takes the lock again for the rest; its two halves are two operations
    here, so that others may come in between. *)

From S2P Require Import Prelude Encoding Canon Files Fault Json Money Identity E2ee Delivery Journal Inbound.

(** ** Operations *)

Definition validateSessionInput (sessionID algorithm : string) (state : bytes) (now : time) : result unit :=
  refuse negb (sessionPattern sessionID) with NewError "invalid session identifier";
  call ValidateAlgorithmID algorithm;
  call ValidateState state;
  refuse time_invalid now with NewError "invalid session commit time";
  Ok tt.

Definition SessionState (sessionID : string) (j : Journal) : result (option SessionRecord) :=
  call journal_usable j;
  refuse negb (sessionPattern sessionID) with NewError "invalid session identifier";
  match readSession (jr_sessions j) (sessionPath sessionID) with
  | Err e => if bool_decide (e = ErrNotExist) then Ok None else Err e
  | Ok s => Ok (Some s)
  end.

(** [readSession] where a missing file is the zero [SessionRecord]. *)
Definition currentSession (sessionID : string) (j : Journal) : result (option SessionRecord) :=
  match readSession (jr_sessions j) (sessionPath sessionID) with
  | Err e => if bool_decide (e = ErrNotExist) then Ok None else Err e
  | Ok s => Ok (Some s)
  end.
Definition generation_of (current : option SessionRecord) : Z :=
  match current with Some s => sn_Generation s | None => 0 end.

Definition replace_session (w : write_outcome) (sessionID : string) (s : SessionRecord) : action Journal unit :=
  fun j =>
  let '(r, files) := file_replace w (sessionPath sessionID) s (jr_sessions j) in (r, with_sessions j files).

(** The record [writeSessionInbound] writes over [current]. *)
Definition next_session (sessionID algorithm : string) (generation : Z) (state : bytes) (inboundEventID : string)
    (authority : option SessionAuthority) (seconds : Z) (current : option SessionRecord) : result SessionRecord :=
  let* authority :=
    match current, authority with
    | Some s, None => Ok (sn_Authority s)
    | Some s, Some a =>
        match sn_Authority s with
        | Some b => refuse negb (bool_decide (b = a)) with NewError "session authority cannot change"; Ok authority
        | None => Ok authority
        end
    | None, _ => Ok authority
    end in
  let '(bootstrapBase64, bootstrapDigest) :=
    match current with
    | Some s => (sn_BootstrapBase64 s, sn_BootstrapDigest s)
    | None => ("", "")
    end in
  Ok (MkSession SessionSchema generation sessionID algorithm (b64_encode state) (canon_Digest state) seconds
        inboundEventID bootstrapBase64 bootstrapDigest authority).

Definition writeSessionInbound (w : write_outcome) (sessionID algorithm : string) (generation : Z)
    (state : bytes) (inboundEventID : string) (authority : option SessionAuthority) (seconds : Z)
    : action Journal unit :=
  fun j =>
  match currentSession sessionID j with
  | Err e => (Err e, j)
  | Ok current =>
      match next_session sessionID algorithm generation state inboundEventID authority seconds current with
      | Err e => (Err e, j)
      | Ok s => replace_session w sessionID s j
      end
  end.

Definition writeSessionAt w sessionID algorithm generation state now : action Journal unit :=
  writeSessionInbound w sessionID algorithm generation state "" None (u64 now).

Definition writeSession (w : write_outcome) (sessionID algorithm : string) (state : bytes) (now : time)
    : action Journal unit :=
  fun j =>
  match currentSession sessionID j with
  | Err e => (Err e, j)
  | Ok current => writeSessionAt w sessionID algorithm (u64 (generation_of current + 1)) state now j
  end.

Definition PutSessionState (w : write_outcome) (sessionID algorithm : string) (state : bytes) (now : time)
    : action Journal unit :=
  fun j =>
  checked j (validateSessionInput sessionID algorithm state now) (writeSession w sessionID algorithm state now).

Definition belongs (sessionID : string) (bootstrap : FirstContact) : result unit :=
  let binding := fc_Binding bootstrap in
  match DeviceSessionID (bi_SenderDeviceID binding) (bi_RecipientDeviceID binding) with
  | Ok expected =>
      refuse negb (String.eqb expected sessionID)
        with NewError "first-contact bootstrap belongs to another session"; Ok tt
  | Err _ => Err (NewError "first-contact bootstrap belongs to another session")
  end.

Definition bootstrapped_session (sessionID : string) (state : bytes) (bootstrap : FirstContact) (raw : bytes)
    (now : time) : SessionRecord :=
  MkSession SessionSchema 1 sessionID (bi_AlgorithmID (fc_Binding bootstrap)) (b64_encode state)
    (canon_Digest state) (u64 now) "" (b64_encode raw) (canon_Digest raw)
    (Some (authorityFromBinding (fc_Binding bootstrap) true)).

Definition PutBootstrappedSessionState (w : write_outcome) (sessionID : string) (state : bytes)
    (bootstrap : FirstContact) (now : time) : action Journal unit :=
  fun j =>
  checked j
    (call validateSessionInput sessionID (bi_AlgorithmID (fc_Binding bootstrap)) state now;
     call ValidateFirstContact bootstrap;
     belongs sessionID bootstrap)
    (fun j =>
     match EncodeFirstContactJSON bootstrap with
     | Err e => (Err e, j)
     | Ok raw =>
         match readSession (jr_sessions j) (sessionPath sessionID) with
         | Ok _ => (Err ErrSessionConflict, j)
         | Err e =>
             if negb (bool_decide (e = ErrNotExist)) then (Err e, j)
             else replace_session w sessionID (bootstrapped_session sessionID state bootstrap raw now) j
         end
     end).

(** *** Inbound events *)

Definition with_transition (entry : Entry) (t : Transition) : Entry :=
  MkEntry (en_EventID entry) (en_SenderEndpointID entry) (en_ConversationID entry) (en_Payload entry)
    (en_Admission entry) (en_ReceivedAtUnix entry) (en_ExpiresAtUnix entry) (Some t).

(** [commitInbound] up to the return of [Accept]. *)
Definition stageInbound (c : create_outcome) (sessionID algorithm : string) (expectedGeneration : Z)
    (next : bytes) (entry : Entry) (authority : option SessionAuthority) (now : time)
    : action Journal (bool * EventRecord) :=
  fun j =>
  checked j (validateSessionInput sessionID algorithm next now)
    (Accept c (with_transition entry (MkTransition sessionID algorithm expectedGeneration next authority))).

(** The rest of [commitInbound], under the lock; [w_s] and [w_r] are the writes
    of the session and of the record. *)
Definition advanceInbound (w_s w_r : write_outcome) (sessionID algorithm : string) (expectedGeneration : Z)
    (next : bytes) (eventID : string) (authority : option SessionAuthority) (now : time)
    (fresh : bool) (record : EventRecord) : action Journal (bool * EventRecord) :=
  fun j =>
  if negb fresh && bool_decide (rc_Crypto record = CryptoCommitted) then (Ok (false, record), j) else
  match currentSession sessionID j with
  | Err e => (Err e, j)
  | Ok current =>
      if negb (generation_of current =? expectedGeneration) then
        match commit_record w_r (inbound_path eventID)
                (set_crypto record CryptoAbandoned (rc_CryptoAtUnix record)) j with
        | (Err e, j') => (Err e, j')
        | (Ok _, j') => (Err ErrSessionConflict, j')
        end
      else
        match writeSessionInbound w_s sessionID algorithm (u64 (expectedGeneration + 1)) next eventID
                authority (u64 now) j with
        | (Err e, j') => (Err e, j')
        | (Ok _, j') =>
            match commit_record w_r (inbound_path eventID) (set_crypto record CryptoCommitted (u64 now)) j' with
            | (Err e, j'') => (Err e, j'')
            | (Ok committed, j'') => (Ok (fresh, committed), j'')
            end
        end
  end.

(** Nothing runs between the halves. *)
Definition commitInbound (c : create_outcome) (w_s w_r : write_outcome) (sessionID algorithm : string)
    (expectedGeneration : Z) (next : bytes) (entry : Entry) (authority : option SessionAuthority) (now : time)
    : action Journal (bool * EventRecord) :=
  fun j =>
  match stageInbound c sessionID algorithm expectedGeneration next entry authority now j with
  | (Err e, j') => (Err e, j')
  | (Ok (fresh, record), j') =>
      advanceInbound w_s w_r sessionID algorithm expectedGeneration next (en_EventID entry) authority now
        fresh record j'
  end.

Definition CommitInbound c w_s w_r sessionID algorithm expectedGeneration next entry now
    : action Journal (bool * EventRecord) :=
  commitInbound c w_s w_r sessionID algorithm expectedGeneration next entry None now.

Definition CommitInboundFirstContact (c : create_outcome) (w_s w_r : write_outcome) (sessionID algorithm : string)
    (next : bytes) (entry : Entry) (bootstrap : FirstContact) (now : time)
    : action Journal (bool * EventRecord) :=
  fun j =>
  match ValidateFirstContact bootstrap with Err e => (Err e, j) | Ok _ =>
  match belongs sessionID bootstrap with Err e => (Err e, j) | Ok _ =>
  commitInbound c w_s w_r sessionID algorithm 0 next entry
    (Some (authorityFromBinding (fc_Binding bootstrap) false)) now j
  end end.

(** *** Outbound deliveries *)

Definition set_ciphertext (d : Delivery) (ciphertext : bytes) : Delivery :=
  MkDelivery (dl_Schema d) (dl_DeliveryID d) (dl_EventID d) (dl_SessionID d) (dl_PayloadBase64 d)
    (dl_PayloadDigest d) (b64_encode ciphertext) (canon_Digest ciphertext) (dl_AttemptID d)
    (dl_AttemptExpiresAt d) (dl_RecipientEndpointID d) (dl_RecipientDeviceID d) (dl_ConversationID d)
    (dl_State d) (dl_Attempts d) (dl_LastCode d) (dl_NextAttemptAtUnix d) (dl_CreatedAtUnix d)
    (dl_ExpiresAtUnix d) (dl_SettledAtUnix d).

Definition advanceSession (w : write_outcome) (sessionID algorithm : string) (expectedGeneration : Z)
    (state : bytes) (now : time) : action Journal unit :=
  fun j =>
  match currentSession sessionID j with
  | Err e => (Err e, j)
  | Ok current =>
      if negb (generation_of current =? expectedGeneration) then (Err ErrSessionConflict, j)
      else writeSessionAt w sessionID algorithm (u64 (expectedGeneration + 1)) state now j
  end.

Definition sealable (sessionID attemptID : string) (now : time) (d : Delivery) : result unit :=
  refuse negb (bool_decide (dl_State d = StatePending)) with ErrNotPending;
  refuse negb (String.eqb (dl_SessionID d) sessionID) with NewError "sealed message belongs to another session";
  refuse negb (String.eqb (dl_AttemptID d) attemptID) with ErrLeaseMismatch;
  refuse negb (dl_AttemptExpiresAt d =? 0) && (dl_AttemptExpiresAt d <=? u64 now) with ErrLeaseMismatch;
  refuse negb (String.eqb (dl_CiphertextBase64 d) "") with ErrAlreadySealed;
  Ok tt.

Definition CommitSealed (w_s w_d : write_outcome) (sessionID algorithm : string) (expectedGeneration : Z)
    (next : bytes) (deliveryID attemptID : string) (ciphertext : bytes) (now : time)
    : action Journal Delivery :=
  fun j =>
  checked j
    (call validateSessionInput sessionID algorithm next now;
     refuse negb (validDeliveryID deliveryID) with NewError "invalid delivery identifier";
     refuse negb (attemptPattern attemptID) with NewError "invalid send attempt identifier";
     refuse (blen ciphertext =? 0) || (MaxCiphertextBytes <? blen ciphertext)
       with NewError "invalid sealed ciphertext";
     Ok tt)
    (fun j =>
     match readDelivery (ob_files (jr_outbox j)) (deliveryPath deliveryID) with
     | Err e => (Err (if bool_decide (e = ErrNotExist) then ErrUnknown else e), j)
     | Ok d =>
         match sealable sessionID attemptID now d with
         | Err e => (Err e, j)
         | Ok _ =>
             match advanceSession w_s sessionID algorithm expectedGeneration next now j with
             | (Err e, j') => (Err e, j')
             | (Ok _, j') =>
                 match commitDelivery w_d (deliveryPath deliveryID) (set_ciphertext d ciphertext) (jr_outbox j') with
                 | (r, o) => (r, with_outbox j' o)
                 end
             end
         end
     end).

(** *** Recovery *)

(** [w_s] and [w_r] are the writes of the session and of the record. *)
Definition resolveStaged (w_s w_r : write_outcome) (path : string) (record : EventRecord) : action Journal unit :=
  fun j =>
  let mark state j :=
    match commit_record w_r path (set_crypto record state (rc_CryptoAtUnix record)) j with
    | (Ok _, j') => (Ok tt, j')
    | (Err e, j') => (Err e, j')
    end in
  if negb (sessionPattern (rc_SessionID record)) then mark CryptoAbandoned j else
  match currentSession (rc_SessionID record) j with
  | Err e => (Err e, j)
  | Ok current =>
      if generation_of current =? rc_ExpectedGen record then
        match Record_NextState record with
        | Err _ => mark CryptoAbandoned j
        | Ok next =>
            match writeSessionInbound w_s (rc_SessionID record) (rc_AlgorithmID record)
                    (u64 (rc_ExpectedGen record + 1)) next (rc_EventID record)
                    (rc_SessionAuthority record) (rc_CryptoAtUnix record) j with
            | (Err e, j') => (Err e, j')
            | (Ok _, j') => mark CryptoCommitted j'
            end
        end
      else if (generation_of current =? u64 (rc_ExpectedGen record + 1))
              && String.eqb (match current with Some s => sn_LastInboundEventID s | None => "" end)
                   (rc_EventID record)
      then mark CryptoCommitted j
      else mark CryptoAbandoned j
  end.

Fixpoint recover_loop (ws_s ws_r : string -> write_outcome) (names : list string) : action Journal unit :=
  fun j =>
  match names with
  | [] => (Ok tt, j)
  | name :: rest =>
      if is_dir (jr_inbound j) name then recover_loop ws_s ws_r rest j else
      match readRecord (jr_inbound j) name with
      | Err _ => recover_loop ws_s ws_r rest j
      | Ok record =>
          if negb (bool_decide (rc_Crypto record = CryptoStaged)) then recover_loop ws_s ws_r rest j else
          match resolveStaged (ws_s name) (ws_r name) name record j with
          | (Err e, j') => (Err e, j')
          | (Ok _, j') => recover_loop ws_s ws_r rest j'
          end
      end
  end.

Definition recoverStaged (ws_s ws_r : string -> write_outcome) : action Journal unit :=
  fun j => recover_loop ws_s ws_r (dir_names (jr_inbound j)) j.

(** ** Operations as steps *)

Inductive session_op : Type :=
  | SPut (w : write_outcome) (sessionID algorithm : string) (state : bytes) (now : time)
  | SBootstrap (w : write_outcome) (sessionID : string) (state : bytes) (bootstrap : FirstContact) (now : time)
  | SStage (c : create_outcome) (sessionID algorithm : string) (expected : Z) (next : bytes) (entry : Entry)
      (authority : option SessionAuthority) (now : time)
  | SAdvance (w_s w_r : write_outcome) (sessionID algorithm : string) (expected : Z) (next : bytes)
      (eventID : string) (authority : option SessionAuthority) (now : time) (fresh : bool) (record : EventRecord)
  | SSealed (w_s w_d : write_outcome) (sessionID algorithm : string) (expected : Z) (next : bytes)
      (deliveryID attemptID : string) (ciphertext : bytes) (now : time)
  | SRecover (ws_s ws_r : string -> write_outcome)
  | SInbound (op : inbound_op)
  | SOutbound (op : delivery_op).

Definition run_session (j : Journal) (op : session_op) : Journal :=
  match op with
  | SPut w sid alg state now => snd (PutSessionState w sid alg state now j)
  | SBootstrap w sid state bootstrap now => snd (PutBootstrappedSessionState w sid state bootstrap now j)
  | SStage c sid alg g next entry a now => snd (stageInbound c sid alg g next entry a now j)
  | SAdvance w_s w_r sid alg g next e a now fresh r =>
      snd (advanceInbound w_s w_r sid alg g next e a now fresh r j)
  | SSealed w_s w_d sid alg g next d att ct now => snd (CommitSealed w_s w_d sid alg g next d att ct now j)
  | SRecover ws_s ws_r => snd (recoverStaged ws_s ws_r j)
  | SInbound op => run_inbound j op
  | SOutbound op => with_outbox j (run_delivery (jr_outbox j) op)
  end.

Definition run_sessions (ops : list session_op) (j : Journal) : Journal := foldl run_session j ops.

(** ** The session directory *)

Lemma check_session_same s s' : check_session s = Ok s' -> s' = s.
Proof. unfold check_session. intros H. inv_ok H. by simplify_eq. Qed.

Lemma readSession_file files name s :
  readSession files name = Ok s <-> files !! name = Some (ERec s) /\ check_session s = Ok s.
Proof.
  unfold readSession. rewrite <- (read_file_Ok err_session_record).
  destruct (read_file err_session_record files name) as [s0|e]; [|naive_solver].
  split; [|naive_solver]. intros H. pose proof (check_session_same _ _ H) as ->. done.
Qed.

Lemma check_session_err s e : check_session s = Err e -> e = err_session_record.
Proof. unfold check_session. repeat case_match; intros; by simplify_eq. Qed.

Lemma currentSession_cases sid j current :
  currentSession sid j = Ok current ->
  match current with
  | Some s => readSession (jr_sessions j) (sessionPath sid) = Ok s
  | None => jr_sessions j !! sessionPath sid = None
  end.
Proof.
  unfold currentSession. destruct (readSession _ _) as [s|e] eqn:Hr; [by intros [= <-]|].
  case_bool_decide as He; [|done]. intros [= <-]. subst e. unfold readSession, read_file in Hr.
  destruct (jr_sessions j !! _) as [[]|]; try done. by apply check_session_err in Hr.
Qed.

(** The record a write puts in the place of [current]. *)
Definition follows (current : option SessionRecord) (s : SessionRecord) : Prop :=
  sn_Generation s = u64 (generation_of current + 1) /\
  match current with
  | Some old =>
      sn_BootstrapBase64 s = sn_BootstrapBase64 old /\ sn_BootstrapDigest s = sn_BootstrapDigest old /\
      (sn_Authority old <> None -> sn_Authority s = sn_Authority old)
  | None => True
  end.

(** One write to the session directory. *)
Definition session_write (files files' : directory SessionRecord) : Prop :=
  exists sid current s, follows current s /\
    match current with
    | Some old => readSession files (sessionPath sid) = Ok old
    | None => files !! sessionPath sid = None
    end /\
    files' = <[sessionPath sid := ERec s]> files.

Lemma next_session_follows sid alg g state e a seconds current s :
  next_session sid alg g state e a seconds current = Ok s -> g = u64 (generation_of current + 1) -> follows current s.
Proof.
  unfold next_session, follows. intros H ->. destruct current as [old|]; [|by inv_ok H; simplify_eq].
  destruct a as [a|]; [destruct (sn_Authority old) as [b|] eqn:Hb|].
  - inv_ok H. apply Ok_inj in H as <-. cbn. inv_ok Heqr. breflect. simplify_eq. done.
  - apply Ok_inj in H as <-. done.
  - apply Ok_inj in H as <-. done.
Qed.

(** What a session write does: nothing, or one write over what was read. *)
Lemma writeSessionInbound_cases w sid alg g state e a seconds current j r j' :
  writeSessionInbound w sid alg g state e a seconds j = (r, j') ->
  currentSession sid j = Ok current ->
  (j' = j /\ is_ok r = false) \/
  exists s, next_session sid alg g state e a seconds current = Ok s /\
    j' = with_sessions j (<[sessionPath sid := ERec s]> (jr_sessions j)).
Proof.
  unfold writeSessionInbound, replace_session. intros H Hc. rewrite Hc in H.
  destruct (next_session _ _ _ _ _ _ _ _) as [s|]; [|simplify_eq; auto].
  destruct (file_replace _ _ _ _) as [r' files] eqn:Hf. simplify_eq.
  apply file_replace_cases in Hf as [[-> Hr]|[-> _]]; [left|right; eauto]. by destruct j.
Qed.

Lemma session_write_intro sid alg g state e a seconds current s j :
  currentSession sid j = Ok current -> next_session sid alg g state e a seconds current = Ok s ->
  g = u64 (generation_of current + 1) ->
  session_write (jr_sessions j) (<[sessionPath sid := ERec s]> (jr_sessions j)).
Proof.
  intros Hc Hn Hg. exists sid, current, s. split_and!; [by apply (next_session_follows _ _ _ _ _ _ _ _ _ Hn)| |done].
  by apply currentSession_cases.
Qed.

Lemma writeSessionInbound_write w sid alg g state e a seconds current j r j' :
  writeSessionInbound w sid alg g state e a seconds j = (r, j') ->
  currentSession sid j = Ok current -> g = u64 (generation_of current + 1) ->
  rtc session_write (jr_sessions j) (jr_sessions j').
Proof.
  intros H Hc Hg. destruct (writeSessionInbound_cases _ _ _ _ _ _ _ _ _ _ _ _ H Hc) as [[-> _]|(s & Hs & ->)]; [done|].
  apply rtc_once. cbn. by apply (session_write_intro sid alg g state e a seconds current).
Qed.

Lemma commit_record_sessions w path r j : jr_sessions (snd (commit_record w path r j)) = jr_sessions j.
Proof. unfold commit_record. by destruct (file_replace _ _ _ _) as [[]]. Qed.

Lemma mark_sessions w path r j :
  jr_sessions (snd (match commit_record w path r j with
                    | (Ok _, j') => (Ok tt, j') | (Err e, j') => (Err e, j') end)) = jr_sessions j.
Proof. unfold commit_record. by destruct (file_replace _ _ _ _) as [[]]. Qed.

Lemma resolveStaged_sessions w_s w_r path r j :
  rtc session_write (jr_sessions j) (jr_sessions (snd (resolveStaged w_s w_r path r j))).
Proof.
  unfold resolveStaged. cbv zeta. destruct (negb _); [by rewrite mark_sessions|].
  destruct (currentSession _ j) as [current|] eqn:Hc; [|done].
  destruct (generation_of current =? rc_ExpectedGen r) eqn:Hg.
  - destruct (Record_NextState r); [|by rewrite mark_sessions].
    destruct (writeSessionInbound _ _ _ _ _ _ _ _ j) as [x j'] eqn:Hw.
    apply writeSessionInbound_write with (current := current) in Hw; [|done|f_equal; lia].
    destruct x; [by rewrite mark_sessions|done].
  - destruct (_ && _); by rewrite mark_sessions.
Qed.

Lemma recover_loop_sessions ws_s ws_r names j :
  rtc session_write (jr_sessions j) (jr_sessions (snd (recover_loop ws_s ws_r names j))).
Proof.
  revert j. induction names as [|n names IH]; intros j; cbn [recover_loop]; [done|].
  destruct (is_dir _ _); [apply IH|]. destruct (readRecord _ _) as [r|]; [|apply IH]. destruct (negb _); [apply IH|].
  pose proof (resolveStaged_sessions (ws_s n) (ws_r n) n r j) as H.
  destruct (resolveStaged _ _ _ _ _) as [[] j']; [|done]. cbn in H. by etrans.
Qed.

Lemma run_inbound_sessions j op : jr_sessions (run_inbound j op) = jr_sessions j.
Proof. pose proof (run_inbound_surroundings j op) as H. unfold surroundings in H. congruence. Qed.

Lemma advanceInbound_sessions w_s w_r sid alg g next e a now fresh r j :
  rtc session_write (jr_sessions j) (jr_sessions (snd (advanceInbound w_s w_r sid alg g next e a now fresh r j))).
Proof.
  unfold advanceInbound. destruct (_ && _); [done|]. destruct (currentSession sid j) as [current|] eqn:Hc; [|done].
  destruct (generation_of current =? g) eqn:Hg; cbn [negb].
  - destruct (writeSessionInbound _ _ _ _ _ _ _ _ j) as [x j'] eqn:Hw.
    apply writeSessionInbound_write with (current := current) in Hw; [|done|f_equal; lia].
    destruct x; [|done]. pose proof (commit_record_sessions w_r (inbound_path e) (set_crypto r CryptoCommitted (u64 now)) j') as Hs.
    destruct (commit_record _ _ _ j') as [[] j'']; cbn in *; by rewrite Hs.
  - pose proof (commit_record_sessions w_r (inbound_path e) (set_crypto r CryptoAbandoned (rc_CryptoAtUnix r)) j) as Hs.
    destruct (commit_record _ _ _ j) as [[] j'']; cbn in *; by rewrite Hs.
Qed.

Lemma advanceSession_write w sid alg g state now j r j' :
  advanceSession w sid alg g state now j = (r, j') -> rtc session_write (jr_sessions j) (jr_sessions j').
Proof.
  unfold advanceSession. destruct (currentSession sid j) as [current|] eqn:Hc; [|intros; by simplify_eq].
  destruct (negb _) eqn:Hg; [intros; by simplify_eq|]. intros H.
  apply (writeSessionInbound_write _ _ _ _ _ _ _ _ current _ _ _ H); [done|]. f_equal. lia.
Qed.

(** Every operation writes sessions only one generation after what it read. *)
Lemma run_session_sessions j op : rtc session_write (jr_sessions j) (jr_sessions (run_session j op)).
Proof.
  destruct op as [w sid alg state now|w sid state b now|c sid alg g next entry a now|w_s w_r sid alg g next e a now f r
    |w_s w_d sid alg g next d att ct now|ws_s ws_r|op|op]; cbn [run_session].
  - unfold PutSessionState. destruct (checked _ _ _) as [x j'] eqn:E. cbn.
    apply checked_cases in E as [[-> _]|(_ & _ & E)]; [done|]. unfold writeSession in E.
    destruct (currentSession sid j) as [current|] eqn:Hc; [|by simplify_eq].
    by apply (writeSessionInbound_write _ _ _ _ _ _ _ _ current _ _ _ E).
  - unfold PutBootstrappedSessionState. destruct (checked _ _ _) as [x j'] eqn:E. cbn.
    apply checked_cases in E as [[-> _]|(_ & _ & E)]; [done|].
    destruct (EncodeFirstContactJSON b) as [raw|]; [|by simplify_eq].
    destruct (readSession _ _) as [|err] eqn:Hr; [by simplify_eq|]. destruct (negb _) eqn:Hn; [by simplify_eq|].
    unfold replace_session in E. destruct (file_replace _ _ _ _) as [x' files] eqn:Hf. simplify_eq. cbn.
    apply file_replace_cases in Hf as [[-> _]|[-> _]]; [done|]. apply rtc_once.
    exists sid, None, (bootstrapped_session sid state b raw now). split_and!; try done. breflect. subst err.
    assert (currentSession sid j = Ok None) as Hc%currentSession_cases; [|done].
    unfold currentSession. by rewrite Hr, bool_decide_true.
  - unfold stageInbound. destruct (checked _ _ _) as [x j'] eqn:E. cbn.
    apply checked_cases in E as [[-> _]|(_ & _ & E)]; [done|].
    pose proof (run_inbound_sessions j (OpAccept c (with_transition entry (MkTransition sid alg g next a)))) as H.
    cbn [run_inbound] in H. rewrite E in H. cbn in H. by rewrite H.
  - apply advanceInbound_sessions.
  - unfold CommitSealed. destruct (checked _ _ _) as [x j'] eqn:E. cbn.
    apply checked_cases in E as [[-> _]|(_ & _ & E)]; [done|]. destruct (readDelivery _ _); [|by simplify_eq].
    destruct (sealable _ _ _ _); [|by simplify_eq].
    destruct (advanceSession _ _ _ _ _ _ j) as [y j1] eqn:Ha. apply advanceSession_write in Ha.
    destruct y; [|by simplify_eq]. destruct (commitDelivery _ _ _ _). by simplify_eq.
  - apply recover_loop_sessions.
  - by rewrite run_inbound_sessions.
  - done.
Qed.

(** ** A session's history *)

(** [s'] is [s] after [n] advances. *)
Definition advanced (n : nat) (s s' : SessionRecord) : Prop :=
  sn_Generation s' = u64 (sn_Generation s + Z.of_nat n) /\ (n = O -> s' = s) /\
  sn_BootstrapBase64 s' = sn_BootstrapBase64 s /\ sn_BootstrapDigest s' = sn_BootstrapDigest s /\
  (sn_Authority s <> None -> sn_Authority s' = sn_Authority s).

Lemma u64_add_l a b : u64 (u64 a + b) = u64 (a + b).
Proof. unfold u64. by rewrite Zplus_mod_idemp_l. Qed.

Lemma session_writes_advance files files' name s :
  rtc session_write files files' -> files !! name = Some (ERec s) -> u64 (sn_Generation s) = sn_Generation s ->
  exists n s', files' !! name = Some (ERec s') /\ advanced n s s'.
Proof.
  intros Hrtc. revert s. induction Hrtc as [f|f f1 f2 (sid & current & x & Hfo & Hc & ->) _ IH]; intros s Hs Hu.
  { exists O, s. split; [done|]. unfold advanced. by rewrite Z.add_0_r, Hu. }
  destruct (decide (name = sessionPath sid)) as [->|Hne].
  2:{ apply IH; [by rewrite lookup_insert_ne|done]. }
  destruct current as [old|]; [|congruence]. apply readSession_file in Hc as [Hc _].
  assert (old = s) as -> by congruence. destruct Hfo as (Hg & Hb & Hd & Ha). cbn in Hg.
  destruct (IH x) as (n & s' & Hs' & G & G0 & B & D & A); [apply lookup_insert_eq| |].
  { rewrite Hg. unfold u64. by rewrite Z.mod_mod by lia. }
  exists (S n), s'. split; [done|]. unfold advanced. split_and!.
  - rewrite G, Hg, u64_add_l. f_equal. lia.
  - done.
  - by rewrite B.
  - by rewrite D.
  - intros Hn. rewrite <- Ha by done. apply A. by rewrite Ha.
Qed.

Lemma run_sessions_writes ops j : rtc session_write (jr_sessions j) (jr_sessions (run_sessions ops j)).
Proof.
  revert j. induction ops as [|op ops IH]; intros j; [done|]. etrans; [apply run_session_sessions|apply IH].
Qed.

(** A session only moves forward: under any interleaving of sealing, opening,
    recovery and every other operation of the journal, with any write failures,
    its record never disappears; it is the old record, or it has a later
    generation, one per commit, so no two states ever share a generation short of
    2^64 commits; and its first-contact evidence and its device-pair authority,
    once there, never change. *)
Theorem session_history ops j sessionID s :
  jr_sessions j !! sessionPath sessionID = Some (ERec s) -> 0 <= sn_Generation s < 2 ^ 64 ->
  exists n s', jr_sessions (run_sessions ops j) !! sessionPath sessionID = Some (ERec s') /\ advanced n s s'.
Proof.
  intros Hs Hg. eapply session_writes_advance; [apply run_sessions_writes|done|].
  unfold u64. by apply Z.mod_small.
Qed.

(** ** Well-formed journals *)

Lemma sessionPath_inj a b :
  sessionPattern a = true -> sessionPattern b = true -> sessionPath a = sessionPath b -> a = b.
Proof. apply (prefixed_path_inj "ses_" ".json"). Qed.

(** Every session file holds a readable record of the session it is named
    after. *)
Definition filed_sessions (files : directory SessionRecord) : Prop :=
  forall name e, files !! name = Some e ->
    exists s, e = ERec s /\ check_session s = Ok s /\ sessionPath (sn_SessionID s) = name.

(** What staging checked of a transition; [authority] is set only by a first
    contact, which expects no session. *)
Definition staged_sound (r : EventRecord) : Prop :=
  sessionPattern (rc_SessionID r) = true /\ is_ok (ValidateAlgorithmID (rc_AlgorithmID r)) = true /\
  0 <= rc_ExpectedGen r < 2 ^ 64 - 1 /\ rc_CryptoAtUnix r <> 0 /\
  (forall next, Record_NextState r = Ok next -> ValidDigest (canon_Digest next) = true) /\
  (rc_SessionAuthority r = None \/ rc_ExpectedGen r = 0).

Definition staged_files_sound (files : directory EventRecord) : Prop :=
  forall name r, readRecord files name = Ok r -> rc_Crypto r = CryptoStaged -> staged_sound r.

Lemma check_session_facts s :
  check_session s = Ok s ->
  sessionPattern (sn_SessionID s) = true /\ sn_Generation s <> 0 /\ is_ok (Session_Bootstrap s) = true /\
  authority_ok (sn_Authority s) (sn_SessionID s) = true.
Proof. unfold check_session. intros H. inv_ok H. breflect. split_and!; try done. lia. Qed.

Lemma next_session_readable sid alg g state e a seconds current s :
  next_session sid alg g state e a seconds current = Ok s ->
  sessionPattern sid = true -> is_ok (ValidateAlgorithmID alg) = true -> g <> 0 -> seconds <> 0 ->
  ValidDigest (canon_Digest state) = true -> authority_ok a sid = true ->
  match current with Some old => check_session old = Ok old /\ sn_SessionID old = sid | None => True end ->
  check_session s = Ok s /\ sn_SessionID s = sid.
Proof.
  unfold next_session. intros H Hp Ha Hg Hs Hd Hau Hc.
  assert (exists b bd au, s = MkSession SessionSchema g sid alg (b64_encode state) (canon_Digest state) seconds e b bd au
    /\ authority_ok au sid = true /\ is_ok (Session_Bootstrap s) = true) as (b & bd & au & -> & Hau' & Hb).
  { destruct current as [old|].
    - destruct Hc as [Hc <-]. apply check_session_facts in Hc as (_ & _ & Hb & Ho).
      destruct a as [a|]; [destruct (sn_Authority old) as [x|] eqn:Hx; [destruct (negb _); [done|]|]|];
        apply Ok_inj in H as <-; eexists _, _, _; (split; [done|]); split; done.
    - apply Ok_inj in H as <-. eexists _, _, _; (split; [done|]); split; done. }
  split; [|done]. unfold check_session, Session_State. cbn [sn_Schema sn_SessionID sn_Generation sn_UpdatedAtUnix
    sn_StateDigest sn_AlgorithmID sn_StateBase64 sn_Authority].
  rewrite String.eqb_refl, Hp, Hd, Ha, b64_decode_encode, String.eqb_refl, Hau', Hb.
  rewrite (proj2 (Z.eqb_neq _ _) Hg), (proj2 (Z.eqb_neq _ _) Hs). done.
Qed.

Lemma filed_sessions_insert files sid s :
  filed_sessions files -> check_session s = Ok s -> sn_SessionID s = sid ->
  filed_sessions (<[sessionPath sid := ERec s]> files).
Proof.
  intros Hf Hc <- name e [[<- <-]|[_ ?]]%lookup_insert_Some; [eauto|by apply Hf].
Qed.

Lemma filed_current files sid :
  filed_sessions (jr_sessions files) -> sessionPattern sid = true ->
  exists current, currentSession sid files = Ok current /\
    match current with Some s => check_session s = Ok s /\ sn_SessionID s = sid | None => True end.
Proof.
  intros Hf Hp. unfold currentSession, readSession, read_file.
  destruct (jr_sessions files !! sessionPath sid) as [e|] eqn:He.
  - destruct (Hf _ _ He) as (s & -> & Hc & Hn). rewrite Hc. exists (Some s). split; [done|]. split; [done|].
    apply sessionPath_inj; try done. by apply check_session_facts in Hc as [? _].
  - rewrite bool_decide_true by done. by exists None.
Qed.

Lemma replace_session_granted files sid s :
  filed_sessions (jr_sessions files) ->
  replace_session WOk sid s files = (Ok tt, with_sessions files (<[sessionPath sid := ERec s]> (jr_sessions files))).
Proof.
  intros Hf. unfold replace_session. rewrite file_replace_granted; [done|].
  intros H. destruct (Hf _ _ H) as (? & ? & _). done.
Qed.

Lemma commit_record_granted path r r' j :
  readRecord (jr_inbound j) path = Ok r ->
  commit_record WOk path r' j = (Ok r', with_inbound j (<[path := ERec r']> (jr_inbound j))).
Proof.
  intros [Hf _]%readRecord_file. unfold commit_record. by rewrite file_replace_granted by (by rewrite Hf).
Qed.

Lemma set_crypto_readable r state at_ : check_record r = Ok r -> check_record (set_crypto r state at_) = Ok (set_crypto r state at_).
Proof. unfold check_record, Record_Payload. cbn -[b64_decode]. intros H. by inv_ok H. Qed.

(** ** Recovery *)

(** The three cases of [recoverStaged]'s comment. *)
Definition resolved_state (r : EventRecord) (current : option SessionRecord) : CryptoState :=
  if generation_of current =? rc_ExpectedGen r
  then if is_ok (Record_NextState r) then CryptoCommitted else CryptoAbandoned
  else if (generation_of current =? rc_ExpectedGen r + 1)
          && String.eqb (match current with Some s => sn_LastInboundEventID s | None => "" end) (rc_EventID r)
       then CryptoCommitted else CryptoAbandoned.

(** What a resolution to [state] says of the sessions after it. *)
Definition resolution (r : EventRecord) (j j' : Journal) (state : CryptoState) : Prop :=
  match state with
  | CryptoCommitted =>
      exists s, readSession (jr_sessions j') (sessionPath (rc_SessionID r)) = Ok s /\
        sn_Generation s = rc_ExpectedGen r + 1 /\ sn_LastInboundEventID s = rc_EventID r /\
        (jr_sessions j' = jr_sessions j \/
         (exists next, Record_NextState r = Ok next /\ Session_State s = Ok next) /\
         exists current, currentSession (rc_SessionID r) j = Ok current /\ generation_of current = rc_ExpectedGen r)
  | CryptoAbandoned => jr_sessions j' = jr_sessions j
  | _ => False
  end.

Lemma Session_State_encoded sch g sid alg state u e b d a :
  Session_State (MkSession sch g sid alg (b64_encode state) (canon_Digest state) u e b d a) = Ok state.
Proof. unfold Session_State. cbn [sn_StateBase64 sn_StateDigest]. by rewrite b64_decode_encode, String.eqb_refl. Qed.

Lemma resolveStaged_granted path r j :
  filed_sessions (jr_sessions j) -> readRecord (jr_inbound j) path = Ok r -> staged_sound r ->
  exists state j', resolveStaged WOk WOk path r j = (Ok tt, j') /\ filed_sessions (jr_sessions j') /\
    jr_outbox j' = jr_outbox j /\
    jr_inbound j' = <[path := ERec (set_crypto r state (rc_CryptoAtUnix r))]> (jr_inbound j) /\
    resolution r j j' state /\
    exists current, currentSession (rc_SessionID r) j = Ok current /\ state = resolved_state r current.
Proof.
  intros Hf Hr (Hp & Halg & Hg & Hat & Hd & Hau). unfold resolveStaged. cbv zeta. rewrite Hp. cbn [negb].
  destruct (filed_current j (rc_SessionID r) Hf Hp) as (current & Hcur & Hck). rewrite Hcur.
  assert (u64 (rc_ExpectedGen r + 1) = rc_ExpectedGen r + 1) as Hu by (apply Z.mod_small; lia). rewrite Hu.
  destruct (generation_of current =? rc_ExpectedGen r) eqn:Hgen.
  - destruct (Record_NextState r) as [next|] eqn:Hn.
    2:{ rewrite (commit_record_granted _ r) by done. exists CryptoAbandoned. eexists. split_and!; try done.
        exists current. split; [done|]. unfold resolved_state. by rewrite Hgen, Hn. }
    assert (exists s, next_session (rc_SessionID r) (rc_AlgorithmID r) (rc_ExpectedGen r + 1) next (rc_EventID r)
        (rc_SessionAuthority r) (rc_CryptoAtUnix r) current = Ok s /\ sn_Generation s = rc_ExpectedGen r + 1 /\
        sn_LastInboundEventID s = rc_EventID r /\ Session_State s = Ok next) as (s & Hs & Hsg & Hsl & Hss).
    { unfold next_session. destruct current as [old|].
      - assert (rc_SessionAuthority r = None) as ->.
        { destruct Hau as [?|H0]; [done|]. destruct Hck as [Hck _]. apply check_session_facts in Hck as (_ & ? & _).
          cbn in Hgen. lia. }
        eexists. split_and!; [done..|apply Session_State_encoded].
      - eexists. split_and!; [done..|apply Session_State_encoded]. }
    assert (check_session s = Ok s /\ sn_SessionID s = rc_SessionID r) as [Hcs Hsid].
    { apply (next_session_readable _ _ _ _ _ _ _ _ _ Hs); try done; [lia|by apply Hd|].
      apply readRecord_file in Hr as [_ Hr]. unfold check_record in Hr. inv_ok Hr. by breflect. }
    unfold writeSessionInbound. rewrite Hcur, Hs, replace_session_granted by done.
    rewrite (commit_record_granted _ r) by done. exists CryptoCommitted. eexists. split; [done|]. cbn.
    split_and!; [by apply filed_sessions_insert|done|done| |].
    2:{ exists current. split; [done|]. unfold resolved_state. by rewrite Hgen, Hn. }
    exists s. split_and!; try done.
    + apply readSession_file. by rewrite lookup_insert_eq.
    + right. split; [eauto|]. exists current. split; [done|lia].
  - destruct (_ && _) eqn:Hb; rewrite (commit_record_granted _ r) by done; eexists _, _; (split; [done|]); cbn;
      split_and!; try done.
    2,3: exists current; split; [done|]; unfold resolved_state; by rewrite Hgen, Hb.
    breflect. destruct current as [s|]; cbn [generation_of] in *; [|lia]. exists s. split_and!; try done.
    + by apply currentSession_cases in Hcur.
    + lia.
    + by left.
Qed.

Definition ws_ok (_ : string) : write_outcome := WOk.

(** How recovery leaves a record it read. *)
Definition recovered (r r' : EventRecord) : Prop :=
  if bool_decide (rc_Crypto r = CryptoStaged)
  then r' = set_crypto r CryptoCommitted (rc_CryptoAtUnix r) \/ r' = set_crypto r CryptoAbandoned (rc_CryptoAtUnix r)
  else r' = r.

Lemma recovered_not_staged r r' : recovered r r' -> rc_Crypto r' <> CryptoStaged.
Proof. unfold recovered. case_bool_decide; [intros [->| ->]; done|intros ->; done]. Qed.

Lemma resolution_state r j j' state : resolution r j j' state -> state = CryptoCommitted \/ state = CryptoAbandoned.
Proof. destruct state; cbn; intros; auto; done. Qed.

Lemma readRecord_insert_ne (files : directory EventRecord) n m e :
  n <> m -> readRecord (<[n := e]> files) m = readRecord files m.
Proof. intros H. unfold readRecord, read_file. by rewrite lookup_insert_ne. Qed.

Lemma recover_loop_granted names j :
  NoDup names -> filed_sessions (jr_sessions j) ->
  (forall n r, n ∈ names -> readRecord (jr_inbound j) n = Ok r -> rc_Crypto r = CryptoStaged -> staged_sound r) ->
  exists j', recover_loop ws_ok ws_ok names j = (Ok tt, j') /\ filed_sessions (jr_sessions j') /\
    jr_outbox j' = jr_outbox j /\
    (forall n, n ∉ names -> jr_inbound j' !! n = jr_inbound j !! n) /\
    (forall n, is_dir (jr_inbound j') n = is_dir (jr_inbound j) n) /\
    (forall n, n ∈ names -> match readRecord (jr_inbound j) n with
       | Ok r => exists r', readRecord (jr_inbound j') n = Ok r' /\ recovered r r'
       | Err _ => is_ok (readRecord (jr_inbound j') n) = false
       end).
Proof.
  intros Hnd. revert j. induction Hnd as [|x names Hx Hnd IH]; intros j Hf Hst; cbn [recover_loop].
  { exists j. split_and!; try done. set_solver. }
  assert (forall r0, readRecord (jr_inbound j) x = r0 ->
            (match r0 with Ok r => rc_Crypto r <> CryptoStaged | Err _ => True end) ->
    exists j', recover_loop ws_ok ws_ok names j = (Ok tt, j') /\ filed_sessions (jr_sessions j') /\
    jr_outbox j' = jr_outbox j /\
    (forall n, n ∉ x :: names -> jr_inbound j' !! n = jr_inbound j !! n) /\
    (forall n, is_dir (jr_inbound j') n = is_dir (jr_inbound j) n) /\
    (forall n, n ∈ x :: names -> match readRecord (jr_inbound j) n with
       | Ok r => exists r', readRecord (jr_inbound j') n = Ok r' /\ recovered r r'
       | Err _ => is_ok (readRecord (jr_inbound j') n) = false
       end)) as Hskip.
  { intros r0 Hr0 Hns. destruct (IH j Hf) as (j' & E & Hf' & Ho & Hout & Hdir & Hin); [set_solver|].
    exists j'. split_and!; try done; [set_solver|]. intros n [->|Hn]%elem_of_cons; [|by apply Hin].
    rewrite Hr0. assert (readRecord (jr_inbound j') x = r0) as Hr'.
    { rewrite <- Hr0. unfold readRecord, read_file. by rewrite Hout. }
    destruct r0 as [r|]; [|by rewrite Hr']. exists r. split; [done|]. unfold recovered. by rewrite bool_decide_false. }
  destruct (is_dir (jr_inbound j) x) eqn:Hd.
  { apply is_dir_unreadable in Hd. destruct (readRecord (jr_inbound j) x) eqn:Hr; [done|]. by apply (Hskip _ eq_refl). }
  destruct (readRecord (jr_inbound j) x) as [r|] eqn:Hr; [|by apply (Hskip _ eq_refl)].
  destruct (bool_decide_reflect (rc_Crypto r = CryptoStaged)) as [Hs|Hs]; cbn [negb]; [|by apply (Hskip _ eq_refl)].
  destruct (resolveStaged_granted x r j Hf Hr) as (state & j1 & E1 & Hf1 & Ho1 & Hin1 & Hres & _);
    [apply (Hst x); [left|done..]|].
  unfold ws_ok at 1 2. rewrite E1.
  destruct (IH j1 Hf1) as (j' & E & Hf' & Ho & Hout & Hdir & Hin).
  { intros n r0 Hn. rewrite Hin1, readRecord_insert_ne by set_solver. apply Hst. set_solver. }
  exists j'. split_and!; try done; [congruence|..].
  - intros n Hn. rewrite Hout, Hin1, lookup_insert_ne by set_solver. done.
  - intros n. rewrite Hdir, Hin1. unfold is_dir. destruct (decide (x = n)) as [->|Hne].
    + rewrite lookup_insert_eq. apply readRecord_file in Hr as [-> _]. done.
    + by rewrite lookup_insert_ne.
  - intros n [->|Hn]%elem_of_cons.
    + rewrite Hr. exists (set_crypto r state (rc_CryptoAtUnix r)). split.
      * apply readRecord_file. rewrite Hout, Hin1, lookup_insert_eq by done. split; [done|].
        apply set_crypto_readable. by apply readRecord_file in Hr as [_ ?].
      * unfold recovered. rewrite bool_decide_true by done.
        destruct (resolution_state _ _ _ _ Hres) as [->| ->]; auto.
    + specialize (Hin n Hn). rewrite Hin1, readRecord_insert_ne in Hin by set_solver. exact Hin.
Qed.

Lemma recover_loop_nothing ws_s ws_r names j :
  (forall n r, readRecord (jr_inbound j) n = Ok r -> rc_Crypto r <> CryptoStaged) ->
  recover_loop ws_s ws_r names j = (Ok tt, j).
Proof.
  intros H. induction names as [|n names IH]; cbn [recover_loop]; [done|].
  destruct (is_dir _ _); [done|]. destruct (readRecord _ _) eqn:Hr; [|done].
  rewrite bool_decide_false by (by apply (H n)). done.
Qed.

Lemma recoverStaged_granted j :
  filed_sessions (jr_sessions j) -> staged_files_sound (jr_inbound j) ->
  exists j', recoverStaged ws_ok ws_ok j = (Ok tt, j') /\ filed_sessions (jr_sessions j') /\
    jr_outbox j' = jr_outbox j /\
    (forall n, match readRecord (jr_inbound j) n with
       | Ok r => exists r', readRecord (jr_inbound j') n = Ok r' /\ recovered r r'
       | Err _ => is_ok (readRecord (jr_inbound j') n) = false
       end).
Proof.
  intros Hf Hs. destruct (recover_loop_granted (dir_names (jr_inbound j)) j (NoDup_dir_names _) Hf)
    as (j' & E & Hf' & Ho & Hout & _ & Hin); [intros n r _; apply Hs|].
  exists j'. split_and!; try done. intros n. destruct (decide (n ∈ dir_names (jr_inbound j))) as [Hn|Hn]; [exact (Hin n Hn)|].
  pose proof Hn as Hn'. rewrite elem_of_dir_names in Hn'.
  unfold readRecord, read_file. rewrite Hout by done. destruct (jr_inbound j !! n) eqn:E'; [|done].
  destruct Hn'. by eexists.
Qed.


(** ** Committing an inbound event *)

(** Only [p] is staged: recovery resolves it and nothing else. *)
Lemma recover_loop_single names p r state j j' :
  p ∈ names -> readRecord (jr_inbound j) p = Ok r -> rc_Crypto r = CryptoStaged ->
  (forall n r, n <> p -> readRecord (jr_inbound j) n = Ok r -> rc_Crypto r <> CryptoStaged) ->
  resolveStaged WOk WOk p r j = (Ok tt, j') ->
  jr_inbound j' = <[p := ERec (set_crypto r state (rc_CryptoAtUnix r))]> (jr_inbound j) -> state <> CryptoStaged ->
  recover_loop ws_ok ws_ok names j = (Ok tt, j').
Proof.
  intros Hp Hr Hs Hno Hres Hin Hst. induction names as [|n names IH]; [set_solver|]. cbn [recover_loop].
  destruct (decide (n = p)) as [->|Hne].
  - assert (is_dir (jr_inbound j) p = false) as ->.
    { unfold is_dir. apply readRecord_file in Hr as [-> _]. done. }
    rewrite Hr, bool_decide_true by done. cbn [negb]. unfold ws_ok at 1 2. rewrite Hres.
    apply recover_loop_nothing. intros m x Hx. destruct (decide (m = p)) as [->|Hm].
    + apply readRecord_file in Hx as [Hx _]. rewrite Hin, lookup_insert_eq in Hx. by simplify_eq.
    + rewrite Hin, readRecord_insert_ne in Hx by done. by apply (Hno m).
  - assert (p ∈ names) as Hp' by set_solver. destruct (is_dir (jr_inbound j) n); [by apply IH|].
    destruct (readRecord (jr_inbound j) n) eqn:Hn; [|by apply IH].
    rewrite bool_decide_false by (by apply (Hno n)). by apply IH.
Qed.

Section Commit.
  Context (sid alg : string) (g : Z) (next : bytes) (entry : Entry) (authority : option SessionAuthority) (now : time).
  Context (j : Journal) (current : option SessionRecord).

Let E := with_transition entry (MkTransition sid alg g next authority).
Let path := inbound_path (en_EventID entry).

(** What a caller of [CommitInbound] presents: a valid event that is not
    recorded yet and fits the quota, with a transition made from the session's
    current state; a first contact brings the authority. *)
Record presents : Prop := {
  pr_held : ob_held (jr_outbox j) = true;
  pr_input : validateSessionInput sid alg next now = Ok tt;
  pr_clock : 0 < now < 2 ^ 63;
  pr_entry : validateEntry entry = Ok tt;
  pr_room : capacity entry j = Ok tt;
  pr_new : jr_inbound j !! path = None;
  pr_current : currentSession sid j = Ok current;
  pr_generation : generation_of current = g;
  pr_range : 0 <= g < 2 ^ 64 - 1;
  pr_authority : authority = None \/ g = 0 /\ authority_ok authority sid = true;
  pr_next_digest : ValidDigest (canon_Digest next) = true;
  pr_payload_digest : ValidDigest (canon_Digest (en_Payload entry)) = true;
  pr_filed : filed_sessions (jr_sessions j);
  pr_unstaged : forall n r, readRecord (jr_inbound j) n = Ok r -> rc_Crypto r <> CryptoStaged;
}.

  Context (P : presents).

(** The session after the event, and the record before and after. *)
Definition session_after (seconds : Z) (s : SessionRecord) : Prop :=
  next_session sid alg (g + 1) next (en_EventID entry) authority seconds current = Ok s.

Lemma pr_authority_ok : authority_ok authority sid = true.
Proof. destruct (pr_authority P) as [->|[_ ?]]; done. Qed.

Lemma presented_staged :
  rc_Crypto (entry_record E) = CryptoStaged /\ staged_sound (entry_record E) /\
  check_record (entry_record E) = Ok (entry_record E) /\ Record_NextState (entry_record E) = Ok next.
Proof.
  pose proof (pr_input P) as Hi. unfold validateSessionInput in Hi. inv_ok Hi. breflect.
  pose proof (pr_range P). pose proof (pr_entry P) as He. unfold validateEntry in He. inv_ok He. breflect.
  assert (Record_NextState (entry_record E) = Ok next) as HN.
  { unfold Record_NextState, entry_record. cbn -[b64_decode b64_encode].
    match goal with H : ValidateState next = Ok _ |- _ => unfold ValidateState in H; inv_ok H end. breflect.
    destruct next as [|b rest]; [done|]. rewrite (proj2 (String.eqb_neq _ _)).
    - by rewrite b64_decode_encode, String.eqb_refl.
    - intros Hx. apply (f_equal b64_decode) in Hx. rewrite b64_decode_encode in Hx. discriminate Hx. }
  split_and!; try done.
  - unfold staged_sound. split_and!; try done.
    + by cbn; rewrite Heqr.
    + cbn. lia.
    + cbn. lia.
    + cbn. lia.
    + rewrite HN. intros n' [= <-]. apply (pr_next_digest P).
    + destruct (pr_authority P) as [?|[? _]]; auto.
  - apply entry_record_readable; [apply (pr_entry P)|apply (pr_payload_digest P)|apply pr_authority_ok].
Qed.

(** The event is on disk. *)
Definition event_written (r : EventRecord) : Journal := with_inbound j (<[path := ERec r]> (jr_inbound j)).
(** The session is on disk too. *)
Definition session_written (s : SessionRecord) (r : EventRecord) : Journal :=
  with_inbound (with_sessions j (<[sessionPath sid := ERec s]> (jr_sessions j))) (<[path := ERec r]> (jr_inbound j)).

Lemma session_after_exists seconds : exists s, session_after seconds s.
Proof.
  unfold session_after, next_session. destruct current as [old|] eqn:Hc; [|by eexists].
  destruct (pr_authority P) as [->|[Hg _]]; [by eexists|].
  pose proof (pr_generation P) as Hgen. pose proof (currentSession_cases _ _ _ (pr_current P)) as Hr. rewrite Hc in *.
  apply readSession_file in Hr as [_ Hr]. apply check_session_facts in Hr as (_ & ? & _). cbn in Hgen. lia.
Qed.

Lemma session_after_facts seconds s :
  session_after seconds s -> seconds <> 0 ->
  check_session s = Ok s /\ sn_SessionID s = sid /\ sn_Generation s = g + 1 /\
  sn_LastInboundEventID s = en_EventID entry /\ Session_State s = Ok next.
Proof.
  unfold session_after. intros Hs Hsec. pose proof (pr_range P).
  pose proof (pr_input P) as Hi. unfold validateSessionInput in Hi. inv_ok Hi. breflect.
  destruct (next_session_readable _ _ _ _ _ _ _ _ _ Hs) as [Hc Hsid]; try done.
  - by rewrite Heqr.
  - lia.
  - apply (pr_next_digest P).
  - apply pr_authority_ok.
  - destruct (filed_current j sid (pr_filed P)) as (cur & Hcur & Hck); [done|].
    rewrite (pr_current P) in Hcur. by apply Ok_inj in Hcur as ->.
  - split_and!; try done; unfold next_session in Hs;
      destruct current as [old|], authority as [au|]; try destruct (sn_Authority old); try destruct (negb _);
      try discriminate Hs; apply Ok_inj in Hs as <-; try done; apply Session_State_encoded.
Qed.

Lemma commitInbound_cases c w_s w_r :
  c = COk \/ c = CLeftWhole ->
  let j1 := snd (commitInbound c w_s w_r sid alg g next entry authority now j) in
  let r := entry_record E in
  j1 = event_written r \/
  exists s, session_after now s /\
    (j1 = session_written s r \/ j1 = session_written s (set_crypto r CryptoCommitted now)).
Proof.
  intros Hc j1 r. pose proof (pr_range P) as Hg. pose proof (pr_clock P) as Hnow.
  assert (u64 now = now) as Hun by (apply Z.mod_small; lia).
  assert (u64 (g + 1) = g + 1) as Hug by (apply Z.mod_small; lia).
  assert (stageInbound c sid alg g next entry authority now j =
    (match c with COk => Ok (true, r) | _ => Err (NewError "sync event journal directory") end, event_written r)) as HS.
  { unfold stageInbound, checked, journal_usable, usable. rewrite (pr_held P), (pr_input P). cbn [negb].
    unfold Accept, journal_usable, usable. rewrite (pr_held P). cbn [negb]. fold E.
    change (validateEntry E) with (validateEntry entry). rewrite (pr_entry P).
    change (if bool_decide (en_Admission E = AdmissionPending) then _ else _) with (capacity entry j).
    rewrite (pr_room P). cbv zeta. change (inbound_path (en_EventID E)) with path. unfold file_create.
    rewrite (pr_new P). destruct Hc as [->| ->]; [done|]. rewrite bool_decide_false by done. done. }
  subst j1. unfold commitInbound. rewrite HS. destruct Hc as [->| ->]; [|by left].
  unfold advanceInbound. cbn [negb andb].
  assert (currentSession sid (event_written r) = Ok current) as Hcur by exact (pr_current P). rewrite Hcur.
  rewrite (pr_generation P), Z.eqb_refl. cbn [negb]. rewrite Hun, Hug.
  destruct (writeSessionInbound _ _ _ _ _ _ _ _ _) as [x j1] eqn:Hw.
  destruct (writeSessionInbound_cases _ _ _ _ _ _ _ _ _ _ _ _ Hw Hcur) as [[-> Hx]|(s & Hs & ->)].
  { destruct x; [done|]. by left. }
  right. exists s. split; [done|]. destruct x; [|by left].
  destruct (commit_record _ _ _ _) as [y j2] eqn:Hcm. apply commit_record_cases in Hcm as [->|[-> Hy]].
  - right. destruct y; cbn; unfold session_written, with_inbound, with_sessions; cbn; by rewrite insert_insert_eq.
  - left. destruct y; [done|]. done.
Qed.
End Commit.

(** The session of [sid] has recorded this event as its last step. *)
Definition session_recorded (sid event : string) (generation : Z) (next : bytes) (j : Journal) : Prop :=
  exists s, readSession (jr_sessions j) (sessionPath sid) = Ok s /\ sn_Generation s = generation /\
    sn_LastInboundEventID s = event /\ Session_State s = Ok next.

Lemma set_crypto_payload r state at_ : Record_Payload (set_crypto r state at_) = Record_Payload r.
Proof. done. Qed.

Lemma entry_record_payload entry : Record_Payload (entry_record entry) = Ok (en_Payload entry).
Proof.
  destruct (entry_record_identity entry) as (_ & _ & _ & Hd & Hb & _). unfold Record_Payload.
  by rewrite Hb, Hd, b64_decode_encode, String.eqb_refl.
Qed.

Section Recover.
  Context (sid alg : string) (g : Z) (next : bytes) (entry : Entry) (authority : option SessionAuthority) (now : time).
  Context (j : Journal) (current : option SessionRecord).
  Context (P : presents sid alg g next entry authority now j current).

Let r := entry_record (with_transition entry (MkTransition sid alg g next authority)).
Let path := inbound_path (en_EventID entry).

Lemma session_written_recorded s r' :
  session_after sid alg g next entry authority current now s ->
  session_recorded sid (en_EventID entry) (g + 1) next (session_written sid entry j s r').
Proof.
  intros Hs. pose proof (pr_clock _ _ _ _ _ _ _ _ _ P) as Hn.
  destruct (session_after_facts _ _ _ _ _ _ _ _ _ P now s Hs) as (Hc & Hsid & Hg & Hl & Hst); [lia|].
  exists s. split_and!; try done. apply readSession_file. cbn. by rewrite lookup_insert_eq.
Qed.

(** A journal where only this event is staged is recovered by resolving it. *)
Lemma staged_recovers j1 :
  filed_sessions (jr_sessions j1) -> jr_inbound j1 = <[path := ERec r]> (jr_inbound j) ->
  (exists c1, currentSession sid j1 = Ok c1 /\ resolved_state r c1 = CryptoCommitted) ->
  exists j2 r2, recoverStaged ws_ok ws_ok j1 = (Ok tt, j2) /\ readRecord (jr_inbound j2) path = Ok r2 /\
    Deliverable r2 = true /\ Record_Payload r2 = Ok (en_Payload entry) /\ resolution r j1 j2 CryptoCommitted.
Proof.
  intros Hf Hin (c1 & Hc1 & Hst). destruct (presented_staged _ _ _ _ _ _ _ _ _ P) as (Hs & Hss & Hck & _).
  fold r in Hs, Hss, Hck.
  assert (readRecord (jr_inbound j1) path = Ok r) as Hr.
  { apply readRecord_file. by rewrite Hin, lookup_insert_eq. }
  destruct (resolveStaged_granted path r j1 Hf Hr Hss) as (state & j2 & E2 & _ & _ & Hin2 & Hres & c2 & Hc2 & ->).
  change (rc_SessionID r) with sid in Hc2. rewrite Hc1 in Hc2. apply Ok_inj in Hc2 as <-. rewrite Hst in *.
  exists j2, (set_crypto r CryptoCommitted (rc_CryptoAtUnix r)). split_and!; try done.
  - unfold recoverStaged. apply (recover_loop_single _ path r CryptoCommitted); try done.
    + apply elem_of_dir_names. apply readRecord_file in Hr as [-> _]. by eexists.
    + intros n x Hne. rewrite Hin, readRecord_insert_ne by done. apply (pr_unstaged _ _ _ _ _ _ _ _ _ P).
  - apply readRecord_file. rewrite Hin2, lookup_insert_eq. split; [done|]. by apply set_crypto_readable.
  - rewrite set_crypto_payload. unfold r. by rewrite entry_record_payload.
Qed.

Lemma event_written_recovers : exists j2 r2,
  recoverStaged ws_ok ws_ok (event_written entry j r) = (Ok tt, j2) /\ readRecord (jr_inbound j2) path = Ok r2 /\
  Deliverable r2 = true /\ Record_Payload r2 = Ok (en_Payload entry) /\
  session_recorded sid (en_EventID entry) (g + 1) next j2.
Proof.
  assert (currentSession sid (event_written entry j r) = Ok current) as Hcur by exact (pr_current _ _ _ _ _ _ _ _ _ P).
  destruct (presented_staged _ _ _ _ _ _ _ _ _ P) as (_ & _ & _ & HN). fold r in HN.
  pose proof (pr_generation _ _ _ _ _ _ _ _ _ P) as Hg.
  destruct (staged_recovers (event_written entry j r)) as (j2 & r2 & E2 & Hr2 & Hd & Hp & s & Hs & Hsg & Hsl & Hsn).
  - apply (pr_filed _ _ _ _ _ _ _ _ _ P).
  - done.
  - exists current. split; [done|]. unfold resolved_state. change (rc_ExpectedGen r) with g.
    by rewrite Hg, Z.eqb_refl, HN.
  - exists j2, r2. split_and!; try done. exists s. split_and!; try done.
    change (rc_SessionID r) with sid in *. change (rc_ExpectedGen r) with g in *.
    destruct Hsn as [Hsn|[(n & Hn & Hss) _]].
    + rewrite Hsn in Hs. unfold currentSession in Hcur. rewrite Hs in Hcur. apply Ok_inj in Hcur as <-.
      cbn in Hg. lia.
    + rewrite HN in Hn. by apply Ok_inj in Hn as ->.
Qed.

Lemma session_written_recovers s :
  session_after sid alg g next entry authority current now s -> exists j2 r2,
  recoverStaged ws_ok ws_ok (session_written sid entry j s r) = (Ok tt, j2) /\ readRecord (jr_inbound j2) path = Ok r2 /\
  Deliverable r2 = true /\ Record_Payload r2 = Ok (en_Payload entry) /\
  session_recorded sid (en_EventID entry) (g + 1) next j2.
Proof.
  intros Hs. pose proof (pr_clock _ _ _ _ _ _ _ _ _ P) as Hn.
  destruct (session_after_facts _ _ _ _ _ _ _ _ _ P now s Hs) as (Hc & Hsid & Hg & Hl & Hst); [lia|].
  assert (currentSession sid (session_written sid entry j s r) = Ok (Some s)) as Hcur.
  { unfold currentSession. replace (readSession _ _) with (Ok s); [done|]. symmetry. apply readSession_file. cbn.
    by rewrite lookup_insert_eq. }
  destruct (staged_recovers (session_written sid entry j s r)) as (j2 & r2 & E2 & Hr2 & Hd & Hp & s' & Hs' & Hsg & Hsl & Hsn).
  - apply filed_sessions_insert; [apply (pr_filed _ _ _ _ _ _ _ _ _ P)|done..].
  - done.
  - exists (Some s). split; [done|]. unfold resolved_state. change (rc_ExpectedGen r) with g. cbn [generation_of].
    rewrite Hg, (proj2 (Z.eqb_neq _ _)) by lia. rewrite Z.eqb_refl, Hl. cbn [andb].
    change (rc_EventID r) with (en_EventID entry). by rewrite String.eqb_refl.
  - exists j2, r2. split_and!; try done. change (rc_SessionID r) with sid in *. destruct Hsn as [Hsn|(_ & c & Hcc & Hcg)].
    + rewrite Hsn in Hs'. exists s. split_and!; try done. rewrite Hsn. apply readSession_file. cbn. by rewrite lookup_insert_eq.
    + rewrite Hcur in Hcc. apply Ok_inj in Hcc as <-. change (rc_ExpectedGen r) with g in Hcg. cbn in Hcg. lia.
Qed.
End Recover.


(** ** Every operation keeps the journal well-formed *)

Definition journal_sound (j : Journal) : Prop :=
  filed_sessions (jr_sessions j) /\ staged_files_sound (jr_inbound j).

Definition unix_clock (now : Z) : Prop := 0 < now < 2 ^ 63.
Definition generation_in_range (g : Z) : Prop := 0 <= g < 2 ^ 64 - 1.

(** The inputs the program's own callers present: a clock after 1970, a state
    whose digest is not all zeros, a generation that is not the last one, an
    authority only with a first contact, and what [stageInbound] has checked by
    the time its other half runs. *)
Definition sound_op (j : Journal) (op : session_op) : Prop :=
  match op with
  | SPut _ sid _ state now =>
      unix_clock now /\ ValidDigest (canon_Digest state) = true /\
      (forall current, currentSession sid j = Ok current -> generation_in_range (generation_of current))
  | SBootstrap _ _ state b now =>
      unix_clock now /\ ValidDigest (canon_Digest state) = true /\ Bundle_typed (fc_SenderBundle b) /\
      exists n, bi_Network (fc_Binding b) = Some n /\ utf8_string (nd_NetworkId n)
  | SStage _ sid _ g next entry a _ =>
      generation_in_range g /\ ValidDigest (canon_Digest next) = true /\ (a = None \/ g = 0)
  | SAdvance _ _ sid alg g next _ a now _ _ =>
      unix_clock now /\ ValidDigest (canon_Digest next) = true /\ generation_in_range g /\
      validateSessionInput sid alg next now = Ok tt /\ authority_ok a sid = true
  | SSealed _ _ _ _ g next _ _ _ now =>
      unix_clock now /\ ValidDigest (canon_Digest next) = true /\ generation_in_range g
  | SInbound (OpAccept _ entry) => en_Transition entry = None
  | SRecover _ _ | SInbound _ | SOutbound _ => True
  end.

Lemma unix_clock_u64 now : unix_clock now -> u64 now = now.
Proof. unfold unix_clock. intros. apply Z.mod_small. lia. Qed.

Lemma generation_next g : generation_in_range g -> u64 (g + 1) <> 0.
Proof. unfold generation_in_range, u64. intros. rewrite Z.mod_small by lia. lia. Qed.

Lemma filed_sessions_write w sid alg g state e a seconds j :
  filed_sessions (jr_sessions j) -> sessionPattern sid = true -> is_ok (ValidateAlgorithmID alg) = true ->
  g <> 0 -> seconds <> 0 -> ValidDigest (canon_Digest state) = true -> authority_ok a sid = true ->
  let j' := snd (writeSessionInbound w sid alg g state e a seconds j) in
  filed_sessions (jr_sessions j') /\ jr_inbound j' = jr_inbound j.
Proof.
  intros Hf Hp Ha Hg Hs Hd Hau j'. subst j'. destruct (filed_current j sid Hf Hp) as (current & Hc & Hck).
  destruct (writeSessionInbound _ _ _ _ _ _ _ _ j) as [x j'] eqn:Hw. cbn.
  destruct (writeSessionInbound_cases _ _ _ _ _ _ _ _ _ _ _ _ Hw Hc) as [[-> _]|(s & Hn & ->)]; [done|]. split; [|done].
  cbn. destruct (next_session_readable _ _ _ _ _ _ _ _ _ Hn Hp Ha Hg Hs Hd Hau Hck).
  by apply filed_sessions_insert.
Qed.

Lemma validateSessionInput_inv sid alg state now :
  validateSessionInput sid alg state now = Ok tt ->
  sessionPattern sid = true /\ is_ok (ValidateAlgorithmID alg) = true.
Proof. unfold validateSessionInput. intros H. inv_ok H. by breflect. Qed.

(** A record is staged only by staging it. *)
Lemma staged_files_sound_step files files' :
  staged_files_sound files ->
  (forall n r', files' !! n = Some (ERec r') -> rc_Crypto r' = CryptoStaged ->
     staged_sound r' \/ exists r, readRecord files n = Ok r /\ event_identity r' = event_identity r \/
                                 files !! n = Some (ERec r') /\ r = r') ->
  staged_files_sound files'.
Proof.
  intros Hs H n r' [Hf Hck]%readRecord_file Hst. destruct (H n r' Hf Hst) as [?|(r & [[Hr Hid]|[Hr ->]])]; [done|..].
  - assert (staged_sound r) as Hr'. { apply (Hs n r Hr). unfold event_identity in Hid. congruence. }
    unfold event_identity in Hid. injection Hid as _ _ _ _ _ _ _ _ H1 H2 H3 H4 H5 H6 H7.
    unfold staged_sound, Record_NextState in *. rewrite H1, H2, H3, H4, H5, H6, H7. done.
  - apply (Hs n r'); [by apply readRecord_file|done].
Qed.

Lemma run_inbound_staged j op :
  staged_files_sound (jr_inbound j) ->
  (forall c entry, op = OpAccept c entry -> validateEntry entry = Ok tt ->
     rc_Crypto (entry_record entry) = CryptoStaged -> staged_sound (entry_record entry)) ->
  staged_files_sound (jr_inbound (run_inbound j op)).
Proof.
  intros Hs Hop. apply (staged_files_sound_step (jr_inbound j)); [done|]. intros n r' Hf Hst.
  pose proof (run_inbound_step n j op) as Hstep. rewrite Hf in Hstep.
  destruct Hstep as [H|[(_ & c & entry & -> & _ & Hv & [?|[= ->]])|(x & y & Hx & Hcx & [= <-] & Hev)]].
  - right. exists r'. by right.
  - done.
  - left. by apply (Hop c entry).
  - right. exists x. left. split; [by apply readRecord_file|]. by destruct (evolves_identity _ _ _ _ Hev).
Qed.

(** Writing a settled crypto state stages nothing. *)
Lemma commit_record_staged w path r j :
  rc_Crypto r <> CryptoStaged -> staged_files_sound (jr_inbound j) ->
  staged_files_sound (jr_inbound (snd (commit_record w path r j))) /\
  jr_sessions (snd (commit_record w path r j)) = jr_sessions j.
Proof.
  intros Hr Hs. split; [|apply commit_record_sessions]. destruct (commit_record w path r j) as [x j'] eqn:E.
  apply commit_record_cases in E as [->|[-> _]]; [|done]. cbn.
  intros n y [[[<- [= <-]]|[_ Hn]]%lookup_insert_Some Hck]%readRecord_file Hst; [done|].
  apply (Hs n y); [by apply readRecord_file|done].
Qed.

Lemma resolveStaged_sound w_s w_r path r j :
  journal_sound j -> staged_sound r -> authority_ok (rc_SessionAuthority r) (rc_SessionID r) = true ->
  journal_sound (snd (resolveStaged w_s w_r path r j)).
Proof.
  intros [Hf Hs] (Hp & Halg & Hg & Hat & Hd & _) Hau. unfold resolveStaged, journal_sound. cbv zeta. rewrite Hp. cbn [negb].
  assert (forall j1 st, journal_sound j1 -> st <> CryptoStaged ->
    journal_sound (snd (match commit_record w_r path (set_crypto r st (rc_CryptoAtUnix r)) j1 with
                        | (Ok _, j') => (Ok tt, j') | (Err e, j') => (Err e, j') end))) as Hmark.
  { intros j1 st [Hf1 Hs1] Hst. destruct (commit_record_staged w_r path (set_crypto r st (rc_CryptoAtUnix r)) j1) as [H1 H2];
      [done..|]. unfold journal_sound. destruct (commit_record _ _ _ _) as [[]]; cbn in *; by rewrite H2. }
  destruct (currentSession _ _) as [current|]; [|done].
  destruct (_ =? _).
  - destruct (Record_NextState r) as [next|] eqn:Hn; [|by apply Hmark].
    destruct (filed_sessions_write w_s (rc_SessionID r) (rc_AlgorithmID r) (u64 (rc_ExpectedGen r + 1)) next
      (rc_EventID r) (rc_SessionAuthority r) (rc_CryptoAtUnix r) j) as [H1 H2]; try done.
    + by apply generation_next.
    + by apply Hd.
    + destruct (writeSessionInbound _ _ _ _ _ _ _ _ j) as [[] j1]; cbn in H1, H2.
      * apply Hmark; [|done]. split; [done|by rewrite H2].
      * cbn. split; [done|by rewrite H2].
  - destruct (_ && _); by apply Hmark.
Qed.

Lemma recover_loop_sound ws_s ws_r names j : journal_sound j -> journal_sound (snd (recover_loop ws_s ws_r names j)).
Proof.
  revert j. induction names as [|n names IH]; intros j Hj; cbn [recover_loop]; [done|].
  destruct (is_dir _ _); [by apply IH|]. destruct (readRecord _ _) as [r|] eqn:Hr; [|by apply IH].
  destruct (bool_decide_reflect (rc_Crypto r = CryptoStaged)) as [Hs|]; cbn [negb]; [|by apply IH].
  assert (journal_sound (snd (resolveStaged (ws_s n) (ws_r n) n r j))) as H.
  { apply resolveStaged_sound; [done|by apply (proj2 Hj n)|].
    apply readRecord_file in Hr as [_ Hr]. unfold check_record in Hr. inv_ok Hr. by breflect. }
  destruct (resolveStaged _ _ _ _ _) as [[] j']; [by apply IH|done].
Qed.

Lemma advanceInbound_sound w_s w_r sid alg g next e a now fresh r j :
  journal_sound j -> sound_op j (SAdvance w_s w_r sid alg g next e a now fresh r) ->
  journal_sound (snd (advanceInbound w_s w_r sid alg g next e a now fresh r j)).
Proof.
  intros [Hf Hs] (Hn & Hd & Hg & Hv & Hau). apply validateSessionInput_inv in Hv as [Hp Ha].
  unfold advanceInbound. destruct (_ && _); [done|]. destruct (currentSession sid j) as [current|]; [|done].
  destruct (negb _).
  - destruct (commit_record_staged w_r (inbound_path e) (set_crypto r CryptoAbandoned (rc_CryptoAtUnix r)) j) as [H1 H2];
      [done..|]. unfold journal_sound. destruct (commit_record _ _ _ _) as [[]]; cbn in *; by rewrite H2.
  - destruct (filed_sessions_write w_s sid alg (u64 (g + 1)) next e a (u64 now) j) as [H1 H2]; try done.
    + by apply generation_next.
    + rewrite unix_clock_u64 by done. unfold unix_clock in Hn. lia.
    + destruct (writeSessionInbound _ _ _ _ _ _ _ _ j) as [[] j1]; cbn in H1, H2; [|split; [done|by cbn; rewrite H2]].
      destruct (commit_record_staged w_r (inbound_path e) (set_crypto r CryptoCommitted (u64 now)) j1) as [H3 H4];
        [done|by rewrite H2|]. unfold journal_sound. destruct (commit_record _ _ _ _) as [[]]; cbn in *; by rewrite H4.
Qed.

(** Either end of a first contact derives an authority of its session. *)
Lemma first_contact_authority b sid initiator :
  ValidateFirstContact b = Ok tt -> belongs sid b = Ok tt ->
  authority_ok (Some (authorityFromBinding (fc_Binding b) initiator)) sid = true.
Proof.
  unfold ValidateFirstContact, belongs. intros Hv Hb. inv_ok_step Hv.
  match goal with E : Binding_Bytes _ = Ok _ |- _ => destruct (Binding_Bytes_Validate _ _ E) as [m HB] end.
  apply Binding_Validate_inv in HB. destruct (vi_sender _ _ HB) as (S1 & S2 & S3).
  destruct (vi_recipient _ _ HB) as (R1 & R2 & R3).
  destruct (DeviceSessionID (bi_SenderDeviceID _) (bi_RecipientDeviceID _)) as [s|] eqn:Hs; [|done].
  destruct (String.eqb_spec s sid) as [->|]; [|done].
  destruct (DeviceSessionID_form _ _ _ Hs) as (_ & _ & _ & _ & _ & Hs' & _).
  unfold authority_ok, Authority_validate, authorityFromBinding.
  destruct initiator; cbn [sa_LocalAgentID sa_LocalEndpointID sa_LocalDeviceID sa_PeerAgentID sa_PeerEndpointID
    sa_PeerDeviceID]; rewrite S1, S2, S3, R1, R2, R3; cbn [negb orb]; rewrite ?Hs, ?Hs', String.eqb_refl; done.
Qed.

Lemma bootstrapped_session_readable sid state b raw now :
  unix_clock now -> ValidDigest (canon_Digest state) = true -> Bundle_typed (fc_SenderBundle b) ->
  (exists n, bi_Network (fc_Binding b) = Some n /\ utf8_string (nd_NetworkId n)) ->
  validateSessionInput sid (bi_AlgorithmID (fc_Binding b)) state now = Ok tt ->
  ValidateFirstContact b = Ok tt -> belongs sid b = Ok tt -> EncodeFirstContactJSON b = Ok raw ->
  check_session (bootstrapped_session sid state b raw now) = Ok (bootstrapped_session sid state b raw now).
Proof.
  intros Hn Hd Hb (n & Hnet & Hu) [Hp Ha]%validateSessionInput_inv Hv Hbel Henc.
  pose proof (first_contact_json b n raw Hb Hnet Hu Henc) as Hdec.
  pose proof (first_contact_authority b sid true Hv Hbel) as Hau. unfold unix_clock in Hn.
  unfold check_session, Session_State, Session_Bootstrap, bootstrapped_session.
  cbn [sn_Schema sn_SessionID sn_Generation sn_UpdatedAtUnix sn_StateDigest sn_AlgorithmID sn_StateBase64 sn_Authority
       sn_BootstrapBase64 sn_BootstrapDigest].
  rewrite !b64_decode_encode, !String.eqb_refl, Hp, Hd, Ha, Hdec, Hau, unix_clock_u64 by done.
  rewrite (proj2 (Z.eqb_neq now 0)) by lia. by destruct (_ && _).
Qed.

Lemma sound_step j op : journal_sound j -> sound_op j op -> journal_sound (run_session j op).
Proof.
  intros [Hf Hs] Hop.
  destruct op as [w sid alg state now|w sid state b now|c sid alg g next entry a now|w_s w_r sid alg g next e a now f r
    |w_s w_d sid alg g next d att ct now|ws_s ws_r|op|op]; cbn [run_session].
  - destruct Hop as (Hn & Hd & Hg). unfold PutSessionState. destruct (checked _ _ _) as [x j'] eqn:E. cbn [snd].
    apply checked_cases in E as [[-> _]|(_ & [[] Hv] & E)]; [done|]. apply validateSessionInput_inv in Hv as [Hp Ha].
    unfold writeSession in E. destruct (currentSession sid j) as [current|]; [|by simplify_eq].
    destruct (filed_sessions_write w sid alg (u64 (generation_of current + 1)) state "" None (u64 now) j) as [H1 H2]; try done.
    + by apply generation_next, Hg.
    + rewrite unix_clock_u64 by done. unfold unix_clock in Hn. lia.
    + unfold writeSessionAt in E. rewrite E in H1, H2. cbn in H1, H2. split; [done|by rewrite H2].
  - destruct Hop as (Hn & Hd & Hb & Hnet). unfold PutBootstrappedSessionState.
    destruct (checked _ _ _) as [x j'] eqn:E. cbn [snd].
    apply checked_cases in E as [[-> _]|(_ & [[] Hv] & E)]; [done|].
    destruct (validateSessionInput _ _ _ _) as [[]|] eqn:Hv1; [|done].
    destruct (ValidateFirstContact b) as [[]|] eqn:Hv2; [|done].
    destruct (EncodeFirstContactJSON b) as [raw|] eqn:Hraw; [|by simplify_eq].
    destruct (readSession _ _) as [|err]; [by simplify_eq|]. destruct (negb _); [by simplify_eq|].
    unfold replace_session in E. destruct (file_replace _ _ _ _) as [x' files] eqn:Hw. simplify_eq. split; [cbn|done].
    apply file_replace_cases in Hw as [[-> _]|[-> _]]; [done|].
    apply filed_sessions_insert; [done| |done]. by apply bootstrapped_session_readable.
  - destruct Hop as (Hg & Hd & Ha). unfold stageInbound. destruct (checked _ _ _) as [x j'] eqn:E. cbn [snd].
    apply checked_cases in E as [[-> _]|(_ & [[] Hv] & E)]; [done|]. apply validateSessionInput_inv in Hv as [Hp Halg].
    set (E1 := with_transition entry (MkTransition sid alg g next a)) in *.
    pose proof (run_inbound_sessions j (OpAccept c E1)) as H1.
    pose proof (run_inbound_staged j (OpAccept c E1) Hs) as H2. cbn [run_inbound] in H1, H2. rewrite E in H1, H2.
    cbn [snd] in H1, H2.
    split; [by rewrite H1|]. apply H2. intros c' entry' [= <- <-] Hve _. unfold validateEntry in Hve. inv_ok Hve. breflect.
    unfold generation_in_range in Hg. unfold staged_sound.
    split_and!; [done|done|cbn; lia|cbn; lia|cbn in Heqb3 |- *; lia| |done].
    intros n Hn. unfold Record_NextState, entry_record in Hn. cbn -[b64_decode b64_encode] in Hn. inv_ok Hn.
    rewrite b64_decode_encode in *. simplify_eq. done.
  - by apply advanceInbound_sound.
  - destruct Hop as (Hn & Hd & Hg). unfold CommitSealed. destruct (checked _ _ _) as [x j'] eqn:E. cbn [snd].
    apply checked_cases in E as [[-> _]|(_ & [[] Hv] & E)]; [done|]. destruct (readDelivery _ _); [|by simplify_eq].
    destruct (validateSessionInput _ _ _ _) as [[]|] eqn:Hv1; [|done]. apply validateSessionInput_inv in Hv1 as [Hp Ha].
    destruct (sealable _ _ _ _); [|by simplify_eq]. unfold advanceSession in E.
    destruct (currentSession sid j) as [current|]; [|by simplify_eq].
    destruct (negb (generation_of current =? g)); [by simplify_eq|].
    destruct (filed_sessions_write w_s sid alg (u64 (g + 1)) next "" None (u64 now) j) as [H1 H2]; try done.
    + by apply generation_next.
    + rewrite unix_clock_u64 by done. unfold unix_clock in Hn. lia.
    + unfold writeSessionAt in E. destruct (writeSessionInbound _ _ _ _ _ _ _ _ j) as [[] j1]; cbn in H1, H2.
      * destruct (commitDelivery _ _ _ _). simplify_eq. split; [done|cbn; by rewrite H2].
      * simplify_eq. split; [done|by rewrite H2].
  - by apply recover_loop_sound.
  - split; [by rewrite run_inbound_sessions|]. apply run_inbound_staged; [done|].
    intros c entry -> _. cbn in Hop. destruct (entry_record_identity entry) as (_ & _ & _ & _ & _ & _ & _ & _ & Hc).
    rewrite Hop in Hc. by rewrite Hc.
  - done.
Qed.

(** The operations run one after another, each with sound inputs. *)
Inductive sound_run : list session_op -> Journal -> Prop :=
  | run_done j : sound_run [] j
  | run_next op ops j : sound_op j op -> sound_run ops (run_session j op) -> sound_run (op :: ops) j.

(** C32: Every session file stays a readable record of the session it is named
    after, and every staged event stays one that recovery can resolve, under any
    interleaving of the journal's operations with any write failures. *)
Theorem journal_wellformed ops j :
  journal_sound j -> sound_run ops j -> journal_sound (run_sessions ops j).
Proof.
  intros Hj Hr. revert Hj. induction Hr as [j|op ops j Hop _ IH]; intros Hj; [done|].
  apply IH. by apply sound_step.
Qed.

(** ** Sealing *)

Lemma advanceSession_cases w sid alg g state now j r j' :
  advanceSession w sid alg g state now j = (r, j') -> generation_in_range g ->
  (j' = j /\ is_ok r = false) \/
  (exists current s, currentSession sid j = Ok current /\ generation_of current = g /\
     j' = with_sessions j (<[sessionPath sid := ERec s]> (jr_sessions j)) /\
     sn_Generation s = g + 1 /\ Session_State s = Ok state).
Proof.
  unfold advanceSession, generation_in_range. intros H Hg. destruct (currentSession sid j) as [current|] eqn:Hc;
    [|simplify_eq; auto]. destruct (negb _) eqn:Hgen; [simplify_eq; auto|].
  destruct (writeSessionInbound_cases _ _ _ _ _ _ _ _ _ _ _ _ H Hc) as [?|(s & Hs & ->)]; [auto|right].
  exists current, s. breflect. split_and!; try done; try lia;
    unfold next_session in Hs; destruct current; apply Ok_inj in Hs as <-; try apply Session_State_encoded;
    apply Z.mod_small; lia.
Qed.

Definition session_at (sid : string) (generation : Z) (state : bytes) (j : Journal) : Prop :=
  exists s, jr_sessions j !! sessionPath sid = Some (ERec s) /\ sn_Generation s = generation /\
    Session_State s = Ok state.

(** A ciphertext never reaches the disk before its session: whatever its
    writes do, [CommitSealed] leaves the deliveries alone or has the session on
    disk at the next generation with the new state; and a success means the
    delivery was pending, unsealed and under this attempt's live lease, the
    session was still at the generation the caller read, and no commit prepared
    from that generation, for any delivery, will be accepted after it. *)
Theorem seal_order w_s w_d sid alg g next id attempt ct now j res j' :
  CommitSealed w_s w_d sid alg g next id attempt ct now j = (res, j') -> generation_in_range g ->
  (jr_outbox j' = jr_outbox j \/ session_at sid (g + 1) next j') /\
  (forall d', res = Ok d' ->
     session_at sid (g + 1) next j' /\
     (exists current, currentSession sid j = Ok current /\ generation_of current = g) /\
     (exists d, readDelivery (ob_files (jr_outbox j)) (deliveryPath id) = Ok d /\ d' = set_ciphertext d ct /\
        dl_State d = StatePending /\ dl_SessionID d = sid /\ dl_AttemptID d = attempt /\ dl_CiphertextBase64 d = "" /\
        (dl_AttemptExpiresAt d = 0 \/ u64 now < dl_AttemptExpiresAt d)) /\
     (forall w_s2 w_d2 alg2 next2 id2 attempt2 ct2 now2,
        exists err, CommitSealed w_s2 w_d2 sid alg2 g next2 id2 attempt2 ct2 now2 j' = (Err err, j'))).
Proof.
  unfold CommitSealed. intros H Hg. apply checked_cases in H as [[-> Hr]|(_ & _ & H)].
  { split; [by left|]. by intros d' ->. }
  destruct (readDelivery _ _) as [d|] eqn:Hd; [|by simplify_eq; split; [left|]].
  destruct (sealable sid attempt now d) as [[]|] eqn:Hs; [|by simplify_eq; split; [left|]].
  destruct (advanceSession _ _ _ _ _ _ j) as [x j1] eqn:Ha.
  destruct (advanceSession_cases _ _ _ _ _ _ _ _ _ Ha Hg) as [[-> Hx]|(current & s & Hc & Hcg & -> & Hsg & Hss)].
  { destruct x; [done|]. simplify_eq. split; [by left|done]. }
  assert (forall o, session_at sid (g + 1) next (with_outbox (with_sessions j (<[sessionPath sid:=ERec s]> (jr_sessions j))) o)) as Hat.
  { intros o. exists s. cbn. by rewrite lookup_insert_eq. }
  destruct x; [|simplify_eq; split; [by left|done]].
  destruct (commitDelivery _ _ _ _) as [y o] eqn:Hcd. simplify_eq. split; [right; apply Hat|]. intros d' ->.
  unfold commitDelivery in Hcd. destruct (file_replace _ _ _ _) as [[] files]; simplify_eq.
  split_and!; [apply Hat|by exists current| |].
  - exists d. unfold sealable in Hs. inv_ok Hs. breflect. split_and!; try done.
    destruct (Z.eqb_spec (dl_AttemptExpiresAt d) 0); [by left|right]. cbn in *. lia.
  - clear Hc Hd Hs. intros w_s2 w_d2 alg2 next2 id2 attempt2 ct2 now2. unfold checked.
    destruct (journal_usable _); [|by eauto].
    destruct (match validateSessionInput sid alg2 next2 now2 with Ok _ => _ | Err e => Err e end); [|by eauto].
    destruct (readDelivery _ _); [|by eauto]. destruct (sealable _ _ _ _); [|by eauto].
    unfold advanceSession. destruct (currentSession sid _) as [c2|] eqn:Hc2; [|by eauto].
    apply currentSession_cases in Hc2. destruct c2 as [s2|].
    + apply readSession_file in Hc2 as [Hc2 _]. cbn in Hc2. rewrite lookup_insert_eq in Hc2. simplify_eq. cbn [generation_of].
      rewrite (proj2 (Z.eqb_neq _ _)) by lia. cbn. by eauto.
    + cbn in Hc2. by rewrite lookup_insert_eq in Hc2.
Qed.

(** ** Where the two halves of a commit, or a retry, lose something *)

Lemma writeSessionInbound_granted sid alg g next entry authority now j current r :
  presents sid alg g next entry authority now j current ->
  exists s, session_after sid alg g next entry authority current now s /\
  forall j1, jr_sessions j1 = jr_sessions j -> jr_inbound j1 = <[inbound_path (en_EventID entry) := ERec r]> (jr_inbound j) ->
    jr_outbox j1 = jr_outbox j -> jr_quota j1 = jr_quota j -> jr_moderation j1 = jr_moderation j ->
    writeSessionInbound WOk sid alg (u64 (g + 1)) next (en_EventID entry) authority (u64 now) j1 =
      (Ok tt, session_written sid entry j s r).
Proof.
  intros P. destruct (session_after_exists _ _ _ _ _ _ _ _ _ P now) as [s Hs]. exists s. split; [done|].
  intros j1 H1 H2 H3 H4 H5. pose proof (pr_range _ _ _ _ _ _ _ _ _ P). pose proof (pr_clock _ _ _ _ _ _ _ _ _ P).
  assert (u64 now = now) as -> by (apply Z.mod_small; lia).
  assert (u64 (g + 1) = g + 1) as -> by (apply Z.mod_small; lia).
  unfold writeSessionInbound. assert (currentSession sid j1 = Ok current) as ->.
  { unfold currentSession. rewrite H1. exact (pr_current _ _ _ _ _ _ _ _ _ P). }
  unfold session_after in Hs. rewrite Hs, replace_session_granted by (rewrite H1; apply (pr_filed _ _ _ _ _ _ _ _ _ P)).
  destruct j1. cbn in *. subst. done.
Qed.

(** [commitInbound] releases the journal's lock between accepting an event
    and recording its session, and then writes back the record it accepted: a
    decision the owner takes in between is answered as recorded and then lost,
    leaving the denied event undecided and deliverable. *)
Theorem denial_between_halves_lost sid alg g next entry authority now j current now2 :
  presents sid alg g next entry authority now j current -> en_Admission entry = AdmissionPending ->
  time_invalid now2 = false ->
  exists r j1 denied j2 r' j3,
    stageInbound COk sid alg g next entry authority now j = (Ok (true, r), j1) /\
    DenyEvent WOk (en_EventID entry) "" now2 j1 = (Ok denied, j2) /\ rc_Admission denied = AdmissionDenied /\
    advanceInbound WOk WOk sid alg g next (en_EventID entry) authority now true r j2 = (Ok (true, r'), j3) /\
    readRecord (jr_inbound j3) (inbound_path (en_EventID entry)) = Ok r' /\
    rc_Admission r' = AdmissionPending /\ Deliverable r' = true.
Proof.
  intros P Hpend Ht. destruct (presented_staged _ _ _ _ _ _ _ _ _ P) as (Hst & _ & Hck & _).
  set (r := entry_record (with_transition entry (MkTransition sid alg g next authority))) in *.
  assert (rc_Admission r = AdmissionPending) as Har by done.
  pose proof (pr_entry _ _ _ _ _ _ _ _ _ P) as He. unfold validateEntry in He. inv_ok He. breflect.
  assert (stageInbound COk sid alg g next entry authority now j = (Ok (true, r), event_written entry j r)) as HS.
  { unfold stageInbound, checked, journal_usable, usable.
    rewrite (pr_held _ _ _ _ _ _ _ _ _ P), (pr_input _ _ _ _ _ _ _ _ _ P). cbn [negb].
    unfold Accept, journal_usable, usable. rewrite (pr_held _ _ _ _ _ _ _ _ _ P). cbn [negb].
    change (validateEntry (with_transition entry _)) with (validateEntry entry). rewrite (pr_entry _ _ _ _ _ _ _ _ _ P).
    change (if bool_decide (en_Admission (with_transition entry _) = AdmissionPending) then _ else _) with (capacity entry j).
    rewrite (pr_room _ _ _ _ _ _ _ _ _ P). cbv zeta.
    change (inbound_path (en_EventID (with_transition entry _))) with (inbound_path (en_EventID entry)). unfold file_create.
    by rewrite (pr_new _ _ _ _ _ _ _ _ _ P). }
  assert (readRecord (jr_inbound (event_written entry j r)) (inbound_path (en_EventID entry)) = Ok r) as Hr.
  { apply readRecord_file. cbn. by rewrite lookup_insert_eq. }
  assert (exists denied, DenyEvent WOk (en_EventID entry) "" now2 (event_written entry j r) =
            (Ok denied, event_written entry j denied) /\ rc_Admission denied = AdmissionDenied) as (denied & HD & Hden).
  { unfold DenyEvent. cbn [String.eqb negb andb]. unfold decideAdmission, checked, journal_usable, usable.
    change (jr_outbox (event_written entry j r)) with (jr_outbox j). rewrite (pr_held _ _ _ _ _ _ _ _ _ P), Heqb, Ht.
    cbn [negb]. unfold inbound_transition. rewrite Hr. unfold admission_decision. rewrite Har, bool_decide_true by done.
    cbn [negb]. cbv zeta. rewrite bool_decide_true by done. rewrite (commit_record_granted _ r) by done.
    exists (set_rejected (set_application (set_admission r AdmissionDenied now2 "") StateRejected
      (rc_LeaseID r) (rc_LeaseExpiresAt r)) now2 ""). split; [|done].
    unfold event_written, with_inbound. cbn [jr_outbox jr_quota jr_inbound jr_sessions jr_moderation].
    rewrite insert_insert_eq. reflexivity. }
  destruct (writeSessionInbound_granted _ _ _ _ _ _ _ _ _ denied P) as (s & Hs & HW).
  exists r, (event_written entry j r), denied, (event_written entry j denied), (set_crypto r CryptoCommitted (u64 now)).
  eexists. split_and!; [done|done|done| | |done|done].
  - unfold advanceInbound. cbn [negb andb].
    assert (currentSession sid (event_written entry j denied) = Ok current) as -> by exact (pr_current _ _ _ _ _ _ _ _ _ P).
    rewrite (pr_generation _ _ _ _ _ _ _ _ _ P), Z.eqb_refl. cbn [negb]. rewrite HW by done.
    unfold commit_record. rewrite file_replace_granted; [done|]. cbn. by rewrite lookup_insert_eq.
  - cbn. apply readRecord_file. rewrite lookup_insert_eq. split; [done|by apply set_crypto_readable].
Qed.

(** An abandoned event that is sent again is not staged again: when the
    record's own write fails after the session has advanced by the event, the
    session has recorded the event, the event stays abandoned, and a restart's
    recovery leaves it so. *)
Theorem abandoned_retry_lost sid alg g next entry now j current r c :
  readRecord (jr_inbound j) (inbound_path (en_EventID entry)) = Ok r ->
  rc_Crypto r = CryptoAbandoned -> same_event r entry = true ->
  ob_held (jr_outbox j) = true -> validateSessionInput sid alg next now = Ok tt -> unix_clock now ->
  validateEntry entry = Ok tt -> capacity entry j = Ok tt ->
  currentSession sid j = Ok current -> generation_of current = g -> generation_in_range g ->
  ValidDigest (canon_Digest next) = true -> journal_sound j ->
  (forall n x, readRecord (jr_inbound j) n = Ok x -> rc_Crypto x <> CryptoStaged) ->
  exists j1, snd (CommitInbound c WOk WFailOld sid alg g next entry now j) = j1 /\
    session_recorded sid (en_EventID entry) (g + 1) next j1 /\
    forall ws_s ws_r, exists j2, recoverStaged ws_s ws_r j1 = (Ok tt, j2) /\
      readRecord (jr_inbound j2) (inbound_path (en_EventID entry)) = Ok r /\ Deliverable r = false.
Proof.
  intros Hr Hab Hsame Hh Hv Hn Hve Hcap Hc Hg Hgr Hd [Hf _] Hno.
  pose proof (validateSessionInput_inv _ _ _ _ Hv) as [Hp Ha]. pose proof (generation_next g Hgr) as Hg0.
  assert (u64 (g + 1) = g + 1) as Hu by (unfold generation_in_range in Hgr; apply Z.mod_small; lia).
  set (E := with_transition entry (MkTransition sid alg g next None)).
  assert (stageInbound c sid alg g next entry None now j = (Ok (false, r), j)) as HS.
  { unfold stageInbound, checked, journal_usable, usable. rewrite Hh, Hv. cbn [negb]. fold E.
    rewrite (Accept_existing c E j r); [|done|done|done].
    change (capacity E j) with (capacity entry j). change (same_event r E) with (same_event r entry).
    by rewrite Hcap, Hsame. }
  assert (exists s, next_session sid alg (g + 1) next (en_EventID entry) None now current = Ok s /\
     sn_Generation s = g + 1 /\ sn_LastInboundEventID s = en_EventID entry /\ Session_State s = Ok next)
    as (s & Hs & Hsg & Hsl & Hss).
  { unfold next_session. destruct current; eexists; (split; [done|]); split_and!; try done; apply Session_State_encoded. }
  assert (check_session s = Ok s /\ sn_SessionID s = sid) as [Hck Hsid].
  { apply (next_session_readable _ _ _ _ _ _ _ _ _ Hs); try done; [congruence|unfold unix_clock in Hn; lia|].
    destruct (filed_current j sid Hf Hp) as (cur & Hcur & Hck). rewrite Hc in Hcur. by apply Ok_inj in Hcur as <-. }
  exists (with_sessions j (<[sessionPath sid := ERec s]> (jr_sessions j))). split_and!.
  - unfold CommitInbound, commitInbound. rewrite HS. unfold advanceInbound. rewrite Hab, bool_decide_false by done.
    cbn [negb andb]. rewrite Hc, Hg, Z.eqb_refl. cbn [negb]. unfold writeSessionInbound. rewrite Hc, Hu, unix_clock_u64 by done.
    rewrite Hs, replace_session_granted by done. unfold commit_record, file_replace. cbn [jr_inbound with_sessions].
    apply readRecord_file in Hr as [-> _]. done.
  - exists s. split_and!; try done. apply readSession_file. cbn. by rewrite lookup_insert_eq.
  - intros ws_s ws_r. eexists. split; [by apply recover_loop_nothing|]. cbn. split; [done|].
    unfold Deliverable. by rewrite Hab.
Qed.

(** ** Witnesses: the first event of a session, and its sealed answer *)

Definition sample_sid : string := "ses_" +:+ sample_hash.
Definition sample_state : bytes := [x05]%byte.

Lemma ValidDigest_state : ValidDigest (canon_Digest sample_state) = true.
Proof. vm_compute. reflexivity. Qed.

Lemma sample_presents admission :
  known_admission admission = true ->
  presents sample_sid sample_algorithm 0 sample_state (sample_entry admission) None 200 empty_journal None.
Proof.
  intros H. constructor.
  - reflexivity.
  - vm_compute. reflexivity.
  - lia.
  - unfold validateEntry. cbn [en_Admission sample_entry]. rewrite H. vm_compute. reflexivity.
  - unfold capacity. destruct (bool_decide _); vm_compute; reflexivity.
  - reflexivity.
  - reflexivity.
  - reflexivity.
  - lia.
  - by left.
  - exact ValidDigest_state.
  - exact ValidDigest_payload.
  - intros name e He. discriminate He.
  - intros n r Hr. discriminate Hr.
Qed.


Definition sample_session_record : SessionRecord :=
  MkSession SessionSchema 1 sample_sid sample_algorithm (b64_encode sample_state) (canon_Digest sample_state) 200
    sample_event "" "" None.
Definition session_journal : Journal :=
  MkJournal empty_outbox DefaultQuota ∅ {[ sessionPath sample_sid := ERec sample_session_record ]} ∅.

Lemma session_history_witness : exists n s',
  jr_sessions (run_sessions [SPut WOk sample_sid sample_algorithm sample_state 300;
     SRecover ws_ok ws_ok] session_journal) !! sessionPath sample_sid = Some (ERec s') /\
  advanced n sample_session_record s'.
Proof. apply session_history; [apply lookup_singleton_eq|cbn; lia]. Defined.

Lemma session_journal_sound : journal_sound session_journal.
Proof.
  split.
  - unfold session_journal. cbn [jr_sessions]. intros name e [<- <-]%lookup_singleton_Some. exists sample_session_record. split; [done|]. split; [|done].
    vm_compute. reflexivity.
  - intros n r Hr. discriminate Hr.
Qed.

Lemma journal_wellformed_witness :
  journal_sound (run_sessions [SPut WFailNew sample_sid sample_algorithm sample_state 300] session_journal).
Proof.
  apply journal_wellformed; [exact session_journal_sound|]. apply run_next; [|apply run_done].
  split; [unfold unix_clock; lia|]. split; [exact ValidDigest_state|]. intros current Hc.
  assert (currentSession sample_sid session_journal = Ok (Some sample_session_record)) as E by (vm_compute; reflexivity).
  rewrite E in Hc. apply Ok_inj in Hc as <-. cbn. unfold generation_in_range. lia.
Defined.


Definition sealing_journal : Journal :=
  MkJournal claimed_outbox DefaultQuota ∅ {[ sessionPath sample_sid := ERec sample_session_record ]} ∅.

Lemma seal_order_witness : exists d' j',
  CommitSealed WOk WOk sample_sid sample_algorithm 1 [x06]%byte sample_event sample_attempt [x09]%byte 120 sealing_journal
    = (Ok d', j') /\ session_at sample_sid 2 [x06]%byte j' /\ dl_CiphertextBase64 d' = b64_encode [x09]%byte.
Proof.
  destruct (CommitSealed WOk WOk sample_sid sample_algorithm 1 [x06]%byte sample_event sample_attempt [x09]%byte 120
    sealing_journal) as [res j'] eqn:E.
  assert (exists d', res = Ok d') as [d' ->].
  { apply (f_equal (fun p => is_ok (fst p))) in E. vm_compute in E. destruct res; [by eexists|done]. }
  destruct (seal_order _ _ _ _ _ _ _ _ _ _ _ _ _ E) as [_ H]; [unfold generation_in_range; lia|].
  destruct (H d' eq_refl) as (Hs & _ & (d & _ & -> & _) & _). exists (set_ciphertext d [x09]%byte), j'. by split_and!.
Defined.

Lemma denial_between_halves_lost_witness : exists r' j3,
  readRecord (jr_inbound j3) (inbound_path sample_event) = Ok r' /\ rc_Admission r' = AdmissionPending.
Proof.
  destruct (denial_between_halves_lost _ _ _ _ _ _ _ _ _ 300 (sample_presents AdmissionPending eq_refl))
    as (r & j1 & d & j2 & r' & j3 & _ & _ & _ & _ & H1 & H2 & _); [reflexivity..|]. by exists r', j3.
Defined.

Definition abandoned_record : EventRecord := set_crypto (entry_record staged_entry) CryptoAbandoned 100.
Definition abandoned_journal : Journal :=
  MkJournal empty_outbox DefaultQuota {[ inbound_path sample_event := ERec abandoned_record ]}
    {[ sessionPath sample_sid := ERec sample_session_record ]} ∅.

Lemma abandoned_readable : readRecord (jr_inbound abandoned_journal) (inbound_path sample_event) = Ok abandoned_record.
Proof.
  apply readRecord_file. split; [apply lookup_singleton_eq|]. apply set_crypto_readable.
  apply entry_record_readable; [reflexivity|exact ValidDigest_payload|reflexivity].
Qed.

Lemma abandoned_only n x : readRecord (jr_inbound abandoned_journal) n = Ok x -> x = abandoned_record.
Proof.
  unfold abandoned_journal. cbn [jr_inbound]. intros [[_ H]%lookup_singleton_Some _]%readRecord_file.
  by injection H as <-.
Qed.

Lemma abandoned_retry_lost_witness : exists j1,
  session_recorded sample_sid sample_event 2 sample_state j1 /\
  forall ws_s ws_r, exists j2, recoverStaged ws_s ws_r j1 = (Ok tt, j2) /\
    readRecord (jr_inbound j2) (inbound_path sample_event) = Ok abandoned_record /\
    Deliverable abandoned_record = false.
Proof.
  destruct (abandoned_retry_lost sample_sid sample_algorithm 1 sample_state (sample_entry AdmissionAdmitted) 300
    abandoned_journal (Some sample_session_record) abandoned_record COk) as (j1 & _ & H1 & H2);
    [exact abandoned_readable|reflexivity|reflexivity|reflexivity|vm_compute; reflexivity|unfold unix_clock; lia
    |vm_compute; reflexivity|reflexivity|vm_compute; reflexivity|reflexivity|unfold generation_in_range; lia
    |exact ValidDigest_state| | |].
  - split; [apply session_journal_sound|]. intros n r ->%abandoned_only. discriminate.
  - intros n x ->%abandoned_only. discriminate.
  - by exists j1.
Defined.
