(* ===== verification/Room.v ===== *)
(** * Rooms: [pkg/room]

    A private group is a set of agents that changes by epochs.  [membership.go]
    is the state machine of memberships and their digests, [authority.go] the
    signed authorizations by which one endpoint serializes the changes, and
    [roles.go] the signed policy of elevated roles.  The package keeps no state;
    the ledgers that do are in [Rooms.v]. *)

From S2P Require Import Prelude Encoding Canon Money Payload Identity E2ee.

(** ** Memberships ([membership.go]) *)

Definition MaxMembers : Z := 1024.
Definition ErrEmptyRoom : error := Sentinel "a room with no members is not a room".
Definition ErrRoomFull : error := Sentinel "a room may not hold this many members".
Definition ErrEpochExhausted : error := Sentinel "a room has exhausted its epoch counter".
Definition ErrNoChange : error := Sentinel "a membership transition must change the member set".
Definition DomainRoomMembership : string := "tos.messaging.room-membership.v1" +:+ NUL.

Record Membership : Type := MkMembership {
  mb_RoomID : string;
  mb_Epoch : Z;
  mb_Members : list string;
  mb_Digest : string;
}.

#[global] Instance Membership_eq_dec : EqDecision Membership.
Proof. solve_decision. Defined.

(** The loop of [normalize]. *)
Fixpoint check_members (seen members : list string) : result unit :=
  match members with
  | [] => Ok tt
  | member :: rest =>
      refuse negb (ids_Agent member) with NewError "a room member must be an Agent identifier";
      refuse bool_decide (member ∈ seen) with NewError "a member was listed twice";
      check_members (member :: seen) rest
  end.

Definition normalize (members : list string) : result (list string) :=
  call check_members [] members;
  Ok (sort_strings members).

Definition room_Digest (roomID : string) (epoch : Z) (members : list string) : result string :=
  refuse negb (ids_Room roomID) with NewError "invalid room identifier";
  refuse epoch =? 0 with NewError "a membership digest has no epoch";
  let* sorted := normalize members in
  refuse (length sorted =? 0)%nat with ErrEmptyRoom;
  refuse MaxMembers <? Z.of_nat (length sorted) with ErrRoomFull;
  let buffer := canon_Text (bytes_of_string DomainRoomMembership) roomID in
  let buffer := canon_Uint64 buffer epoch in
  let buffer := canon_Uint32 buffer (u32 (Z.of_nat (length sorted))) in
  Ok (canon_Digest (fold_left canon_Text sorted buffer)).

Definition room_commit (roomID : string) (epoch : Z) (members : list string) : result Membership :=
  let* digest := room_Digest roomID epoch members in
  Ok (MkMembership roomID epoch members digest).

Definition nextEpoch (current : Z) : result Z :=
  let next := u64 (current + 1) in
  refuse next <=? current with ErrEpochExhausted;
  Ok next.

Definition Found (roomID : string) (founders : list string) : result Membership :=
  refuse negb (ids_Room roomID) with NewError "invalid room identifier";
  let* members := normalize founders in
  refuse (length members =? 0)%nat with ErrEmptyRoom;
  room_commit roomID 1 members.

Definition membership_usable (m : Membership) : result unit :=
  refuse negb (ids_Room (mb_RoomID m)) with NewError "invalid room identifier";
  refuse mb_Epoch m =? 0 with NewError "a membership has no epoch";
  refuse (length (mb_Members m) =? 0)%nat with ErrEmptyRoom;
  let* recomputed := room_Digest (mb_RoomID m) (mb_Epoch m) (mb_Members m) in
  refuse negb (String.eqb recomputed (mb_Digest m))
    with NewError "the membership's digest does not match its members";
  Ok tt.

Definition room_Add (m : Membership) (newMembers : list string) : result Membership :=
  call membership_usable m;
  let* incoming := normalize newMembers in
  refuse (length incoming =? 0)%nat with ErrNoChange;
  refuse existsb (fun member => bool_decide (member ∈ mb_Members m)) incoming
    with NewError "a member cannot be added twice";
  let* next := normalize (mb_Members m ++ incoming) in
  refuse MaxMembers <? Z.of_nat (length next) with ErrRoomFull;
  let* epoch := nextEpoch (mb_Epoch m) in
  room_commit (mb_RoomID m) epoch next.

Definition room_Remove (m : Membership) (leaving : list string) : result Membership :=
  call membership_usable m;
  let* departing := normalize leaving in
  refuse (length departing =? 0)%nat with ErrNoChange;
  refuse existsb (fun member => negb (bool_decide (member ∈ mb_Members m))) departing
    with NewError "a member who is not present cannot be removed";
  let next := base.filter (fun member => member ∉ departing) (mb_Members m) in
  refuse (length next =? 0)%nat with ErrEmptyRoom;
  let* epoch := nextEpoch (mb_Epoch m) in
  room_commit (mb_RoomID m) epoch next.

Definition AdvanceForAuthorityTransfer (m : Membership) : result Membership :=
  call membership_usable m;
  let* epoch := nextEpoch (mb_Epoch m) in
  room_commit (mb_RoomID m) epoch (mb_Members m).

Definition Contains (m : Membership) (agentID : string) : bool := bool_decide (agentID ∈ mb_Members m).

Definition Announce (m : Membership) : result RoomMembershipCommit :=
  call membership_usable m;
  refuse MaxMembers <? Z.of_nat (length (mb_Members m)) with ErrRoomFull;
  let commitment := MkCommit (mb_RoomID m) (mb_Epoch m) (mb_Digest m) (u32 (Z.of_nat (length (mb_Members m)))) in
  call RoomMembershipCommit_Validate commitment;
  Ok commitment.

Definition VerifyCommit (m : Membership) (commitment : RoomMembershipCommit) : result unit :=
  call membership_usable m;
  refuse negb (String.eqb (rc_RoomID commitment) (mb_RoomID m)) with NewError "the commit names another room";
  refuse negb (rc_Epoch commitment =? mb_Epoch m) with NewError "the commit names another epoch";
  refuse negb (rc_MemberCount commitment =? u32 (Z.of_nat (length (mb_Members m))))
    with NewError "the commit states a different member count";
  refuse negb (String.eqb (rc_MembershipDigest commitment) (mb_Digest m))
    with NewError "the commit's digest does not match the members";
  Ok tt.

(** ** Authorities ([authority.go]) *)

Record Authority : Type := MkAuthority { au_AgentID : string; au_EndpointID : string }.
#[global] Instance Authority_eq_dec : EqDecision Authority.
Proof. solve_decision. Defined.

Definition Authority_Validate (a : Authority) : result unit :=
  refuse negb (ids_Agent (au_AgentID a)) || negb (ids_Endpoint (au_EndpointID a))
    with NewError "invalid room authority";
  Ok tt.

Definition AuthorityTransferSchema : string := "tos.messaging.room-authority-transfer.v1".
Definition MembershipAuthorizationSchema : string := "tos.messaging.room-membership-authorization.v1".
(** Both windows are 24 hours. *)
Definition MaxAuthorityWindowSeconds : Z := 24 * 60 * 60.
Definition DomainRoomMembershipAuthorization : string := MembershipAuthorizationSchema +:+ NUL.
Definition DomainRoomAuthorityTransfer : string := AuthorityTransferSchema +:+ NUL.

Definition appendAuthorityNetwork (b : bytes) (network : option NetworkDomain) : result bytes :=
  match network with
  | None => Err (NewError "invalid room authority network")
  | Some n =>
      refuse String.eqb (nd_NetworkId n) "" || (128 <? slen (nd_NetworkId n))
             || negb (HashPattern (nd_GenesisRootHash n)) || negb (HashPattern (nd_GenesisFileHash n))
        with NewError "invalid room authority network";
      match hex_decode (nd_GenesisRootHash n), hex_decode (nd_GenesisFileHash n) with
      | Some root, Some file =>
          refuse negb (blen root =? 32) || negb (blen file =? 32)
            with NewError "invalid room authority genesis hashes";
          Ok (canon_Bytes (canon_Bytes (canon_Text b (nd_NetworkId n)) root) file)
      | _, _ => Err (NewError "invalid room authority genesis hashes")
      end
  end.

Definition sameAuthorityNetwork (first second : option NetworkDomain) : bool :=
  match first, second with
  | Some a, Some b =>
      String.eqb (nd_NetworkId a) (nd_NetworkId b) && String.eqb (nd_GenesisRootHash a) (nd_GenesisRootHash b)
      && String.eqb (nd_GenesisFileHash a) (nd_GenesisFileHash b)
  | _, _ => false
  end.

Definition verifyAuthorityDelegation (delegation : Delegation) (now : time) : result unit :=
  call CheckWindow delegation now;
  refuse negb (blen (dg_IdentityPublicKey delegation) =? PublicKeySize)
    with NewError "room authority delegation has no Endpoint key";
  match DeriveEndpointID (dg_Network delegation) (dg_AgentID delegation) (dg_IdentityPublicKey delegation) with
  | Ok derived =>
      refuse negb (String.eqb derived (dg_EndpointID delegation))
        with NewError "room authority delegation key does not derive its Endpoint";
      Ok tt
  | Err _ => Err (NewError "room authority delegation key does not derive its Endpoint")
  end.

(** *** Membership authorizations *)

Record MembershipAuthorization : Type := MkAuthorization {
  ma_Network : option NetworkDomain;
  ma_RoomID : string;
  ma_Epoch : Z;
  ma_MembershipDigest : string;
  ma_Authority : Authority;
  ma_IssuedAtUnix : Z;
  ma_ExpiresAtUnix : Z;
  ma_EndpointSignature : bytes;
}.

Definition validateMembershipAuthorization (value : MembershipAuthorization) (signed : bool) : result unit :=
  refuse negb (ids_Room (ma_RoomID value)) || (ma_Epoch value =? 0) || negb (ValidDigest (ma_MembershipDigest value))
         || negb (is_ok (Authority_Validate (ma_Authority value))) || (ma_IssuedAtUnix value =? 0)
         || (ma_ExpiresAtUnix value <=? ma_IssuedAtUnix value)
         || (MaxAuthorityWindowSeconds <? ma_ExpiresAtUnix value - ma_IssuedAtUnix value)
    with NewError "invalid room membership authorization";
  call appendAuthorityNetwork [] (ma_Network value);
  refuse signed && negb (blen (ma_EndpointSignature value) =? SignatureSize)
    with NewError "invalid room membership authorization signature";
  Ok tt.

Definition MembershipAuthorizationSigningBytes (value : MembershipAuthorization) : result bytes :=
  call validateMembershipAuthorization value false;
  let b := canon_Text (bytes_of_string DomainRoomMembershipAuthorization) MembershipAuthorizationSchema in
  let* b := appendAuthorityNetwork b (ma_Network value) in
  let b := canon_Text b (ma_RoomID value) in
  let b := canon_Uint64 b (ma_Epoch value) in
  let b := canon_Text b (ma_MembershipDigest value) in
  let b := canon_Text b (au_AgentID (ma_Authority value)) in
  let b := canon_Text b (au_EndpointID (ma_Authority value)) in
  let b := canon_Uint64 b (ma_IssuedAtUnix value) in
  Ok (canon_Uint64 b (ma_ExpiresAtUnix value)).

(** *** Transfers *)

Record AuthorityTransfer : Type := MkTransfer {
  at_Network : option NetworkDomain;
  at_RoomID : string;
  at_PriorEpoch : Z;
  at_NextEpoch : Z;
  at_PriorMembershipDigest : string;
  at_NextMembershipDigest : string;
  at_From : Authority;
  at_To : Authority;
  at_IssuedAtUnix : Z;
  at_ExpiresAtUnix : Z;
  at_CurrentEndpointSignature : bytes;
}.

Definition validateAuthorityTransfer (value : AuthorityTransfer) (signed : bool) : result unit :=
  refuse negb (ids_Room (at_RoomID value)) || (at_PriorEpoch value =? 0)
         || (at_NextEpoch value <=? at_PriorEpoch value) || negb (at_NextEpoch value =? u64 (at_PriorEpoch value + 1))
         || negb (ValidDigest (at_PriorMembershipDigest value)) || negb (ValidDigest (at_NextMembershipDigest value))
         || String.eqb (at_PriorMembershipDigest value) (at_NextMembershipDigest value)
         || negb (is_ok (Authority_Validate (at_From value))) || negb (is_ok (Authority_Validate (at_To value)))
         || bool_decide (at_From value = at_To value) || (at_IssuedAtUnix value =? 0)
         || (at_ExpiresAtUnix value <=? at_IssuedAtUnix value)
         || (MaxAuthorityWindowSeconds <? at_ExpiresAtUnix value - at_IssuedAtUnix value)
    with NewError "invalid room authority transfer";
  call appendAuthorityNetwork [] (at_Network value);
  refuse signed && negb (blen (at_CurrentEndpointSignature value) =? SignatureSize)
    with NewError "invalid room authority transfer signature";
  Ok tt.

Definition AuthorityTransferSigningBytes (value : AuthorityTransfer) : result bytes :=
  call validateAuthorityTransfer value false;
  let b := canon_Text (bytes_of_string DomainRoomAuthorityTransfer) AuthorityTransferSchema in
  let* b := appendAuthorityNetwork b (at_Network value) in
  let b := canon_Text b (at_RoomID value) in
  let b := canon_Uint64 b (at_PriorEpoch value) in
  let b := canon_Uint64 b (at_NextEpoch value) in
  let b := canon_Text b (at_PriorMembershipDigest value) in
  let b := canon_Text b (at_NextMembershipDigest value) in
  let b := canon_Text b (au_AgentID (at_From value)) in
  let b := canon_Text b (au_EndpointID (at_From value)) in
  let b := canon_Text b (au_AgentID (at_To value)) in
  let b := canon_Text b (au_EndpointID (at_To value)) in
  let b := canon_Uint64 b (at_IssuedAtUnix value) in
  Ok (canon_Uint64 b (at_ExpiresAtUnix value)).

(** ** Roles ([roles.go]) *)

Definition RolePolicySchema : string := "tos.messaging.room-role-policy.v1".
Definition DomainRoomRolePolicy : string := RolePolicySchema +:+ NUL.
Definition MaxRoomAdmins : Z := 4.
Definition MaxRoomModerators : Z := 16.
Definition MaxRolePolicyWindowSeconds : Z := 24 * 60 * 60.

(** [Role] and [Action] are strings in the source. *)
Definition RoleAdministrator : string := "administrator".
Definition RoleModerator : string := "moderator".
Definition ActionPost : string := "post".
Definition ActionModerate : string := "moderate".
Definition ActionChangeMembership : string := "change-membership".
Definition ActionChangeRoles : string := "change-roles".
Definition ActionTransferAuthority : string := "transfer-authority".

Record RoleAssignment : Type := MkAssignment { ra_AgentID : string; ra_Role : string }.

Record RolePolicy : Type := MkRolePolicy {
  rp_Network : option NetworkDomain;
  rp_RoomID : string;
  rp_MembershipEpoch : Z;
  rp_MembershipDigest : string;
  rp_Revision : Z;
  rp_Assignments : list RoleAssignment;
  rp_Authority : Authority;
  rp_IssuedAtUnix : Z;
  rp_ExpiresAtUnix : Z;
  rp_EndpointSignature : bytes;
}.

(** The loop over the assignments, counting administrators and moderators. *)
Fixpoint check_assignments (previous : option string) (admins moderators : Z) (assignments : list RoleAssignment)
    : result (Z * Z) :=
  match assignments with
  | [] => Ok (admins, moderators)
  | a :: rest =>
      refuse negb (ids_Agent (ra_AgentID a))
             || match previous with Some p => negb (str_ltb p (ra_AgentID a)) | None => false end
        with NewError "room role assignments must be unique and sorted";
      if String.eqb (ra_Role a) RoleAdministrator then check_assignments (Some (ra_AgentID a)) (admins + 1) moderators rest
      else if String.eqb (ra_Role a) RoleModerator then check_assignments (Some (ra_AgentID a)) admins (moderators + 1) rest
      else Err (NewError "invalid room role")
  end.

Definition validateRolePolicy (value : RolePolicy) (signed : bool) : result unit :=
  let n := Z.of_nat (length (rp_Assignments value)) in
  refuse negb (ids_Room (rp_RoomID value)) || (rp_MembershipEpoch value =? 0)
         || negb (ValidDigest (rp_MembershipDigest value)) || (rp_Revision value =? 0)
         || negb (is_ok (Authority_Validate (rp_Authority value))) || (rp_IssuedAtUnix value =? 0)
         || (rp_ExpiresAtUnix value <=? rp_IssuedAtUnix value)
         || (MaxRolePolicyWindowSeconds <? rp_ExpiresAtUnix value - rp_IssuedAtUnix value)
         || (n =? 0) || (MaxRoomAdmins + MaxRoomModerators <? n)
    with NewError "invalid room role policy";
  call appendAuthorityNetwork [] (rp_Network value);
  let* (admins, moderators) := check_assignments None 0 0 (rp_Assignments value) in
  refuse (admins =? 0) || (MaxRoomAdmins <? admins) || (MaxRoomModerators <? moderators)
    with NewError "room elevated roles exceed their bounds";
  refuse signed && negb (blen (rp_EndpointSignature value) =? SignatureSize)
    with NewError "invalid room role-policy signature";
  Ok tt.

Definition RolePolicySigningBytes (value : RolePolicy) : result bytes :=
  call validateRolePolicy value false;
  let b := canon_Text (bytes_of_string DomainRoomRolePolicy) RolePolicySchema in
  let* b := appendAuthorityNetwork b (rp_Network value) in
  let b := canon_Text b (rp_RoomID value) in
  let b := canon_Uint64 b (rp_MembershipEpoch value) in
  let b := canon_Text b (rp_MembershipDigest value) in
  let b := canon_Uint64 b (rp_Revision value) in
  let b := canon_Uint32 b (u32 (Z.of_nat (length (rp_Assignments value)))) in
  let b := fold_left (fun b a => canon_Text (canon_Text b (ra_AgentID a)) (ra_Role a)) (rp_Assignments value) b in
  let b := canon_Text b (au_AgentID (rp_Authority value)) in
  let b := canon_Text b (au_EndpointID (rp_Authority value)) in
  let b := canon_Uint64 b (rp_IssuedAtUnix value) in
  Ok (canon_Uint64 b (rp_ExpiresAtUnix value)).

(** [sort.Search]: the binary search over [[lo, hi)]; each round at least halves
    the interval, so that [hi - lo] rounds are enough. *)
Fixpoint search_loop (fuel : nat) (f : nat -> bool) (lo hi : nat) : nat :=
  match fuel with
  | O => lo
  | S fuel' =>
      if (lo <? hi)%nat then
        let h := ((lo + hi) / 2)%nat in
        if f h then search_loop fuel' f lo h else search_loop fuel' f (S h) hi
      else lo
  end.
Definition sort_Search (n : nat) (f : nat -> bool) : nat := search_loop n f 0 n.

Definition assignment_at (p : RolePolicy) (i : nat) : RoleAssignment :=
  List.nth i (rp_Assignments p) (MkAssignment "" "").

Definition RoleOf (p : RolePolicy) (agentID : string) : string :=
  let n := length (rp_Assignments p) in
  let index := sort_Search n (fun i => negb (str_ltb (ra_AgentID (assignment_at p i)) agentID)) in
  if (index <? n)%nat && String.eqb (ra_AgentID (assignment_at p index)) agentID
  then ra_Role (assignment_at p index) else "".

Definition Allows (p : RolePolicy) (membership : Membership) (agentID action : string) : bool :=
  if negb (Contains membership agentID) || negb (String.eqb (rp_RoomID p) (mb_RoomID membership))
     || negb (rp_MembershipEpoch p =? mb_Epoch membership)
     || negb (String.eqb (rp_MembershipDigest p) (mb_Digest membership)) then false else
  let role := RoleOf p agentID in
  if String.eqb action ActionPost then true
  else if String.eqb action ActionModerate then String.eqb role RoleAdministrator || String.eqb role RoleModerator
  else if String.eqb action ActionChangeMembership || String.eqb action ActionChangeRoles
          || String.eqb action ActionTransferAuthority then String.eqb role RoleAdministrator
  else false.

(** ** Signing and verification *)

Section Signatures.
  Context `{Ed : Ed25519}.

Definition SignMembershipAuthorization (value : MembershipAuthorization) (endpointKey : bytes)
    : result MembershipAuthorization :=
  refuse negb (blen endpointKey =? PrivateKeySize) with NewError "invalid room membership signing key";
  let value := MkAuthorization (ma_Network value) (ma_RoomID value) (ma_Epoch value) (ma_MembershipDigest value)
                 (ma_Authority value) (ma_IssuedAtUnix value) (ma_ExpiresAtUnix value) [] in
  let* preimage := MembershipAuthorizationSigningBytes value in
  Ok (MkAuthorization (ma_Network value) (ma_RoomID value) (ma_Epoch value) (ma_MembershipDigest value)
        (ma_Authority value) (ma_IssuedAtUnix value) (ma_ExpiresAtUnix value) (ed25519_Sign endpointKey preimage)).

Definition VerifyMembershipAuthorization (membership : Membership) (value : MembershipAuthorization)
    (delegation : Delegation) (now : time) : result unit :=
  refuse time_invalid now with NewError "invalid room membership verification time";
  call validateMembershipAuthorization value true;
  call membership_usable membership;
  refuse negb (String.eqb (mb_RoomID membership) (ma_RoomID value)) || negb (mb_Epoch membership =? ma_Epoch value)
         || negb (String.eqb (mb_Digest membership) (ma_MembershipDigest value))
    with NewError "room authorization names another membership";
  refuse negb (String.eqb (au_AgentID (ma_Authority value)) (dg_AgentID delegation))
         || negb (String.eqb (au_EndpointID (ma_Authority value)) (dg_EndpointID delegation))
         || negb (Contains membership (au_AgentID (ma_Authority value)))
    with NewError "room authorization is not from a member authority";
  call verifyAuthorityDelegation delegation now;
  refuse negb (sameAuthorityNetwork (ma_Network value) (dg_Network delegation))
    with NewError "room authorization belongs to another network";
  refuse (now <? ma_IssuedAtUnix value) || (ma_ExpiresAtUnix value <=? now)
         || (dg_ExpiresAtUnix delegation <? ma_ExpiresAtUnix value)
    with NewError "room membership authorization is outside its validity window";
  let* preimage := MembershipAuthorizationSigningBytes value in
  refuse negb (ed25519_Verify (dg_IdentityPublicKey delegation) preimage (ma_EndpointSignature value))
    with NewError "room membership authorization signature is invalid";
  Ok tt.

Definition SignAuthorityTransfer (value : AuthorityTransfer) (endpointKey : bytes) : result AuthorityTransfer :=
  refuse negb (blen endpointKey =? PrivateKeySize) with NewError "invalid room authority signing key";
  let sign s := MkTransfer (at_Network value) (at_RoomID value) (at_PriorEpoch value) (at_NextEpoch value)
                  (at_PriorMembershipDigest value) (at_NextMembershipDigest value) (at_From value) (at_To value)
                  (at_IssuedAtUnix value) (at_ExpiresAtUnix value) s in
  let* preimage := AuthorityTransferSigningBytes (sign []) in
  Ok (sign (ed25519_Sign endpointKey preimage)).

Definition VerifyAuthorityTransfer (current : Authority) (prior next : Membership) (value : AuthorityTransfer)
    (currentDelegation nextDelegation : Delegation) (now : time) : result unit :=
  refuse time_invalid now with NewError "invalid room authority verification time";
  call validateAuthorityTransfer value true;
  refuse negb (bool_decide (current = at_From value))
         || negb (String.eqb (dg_AgentID currentDelegation) (au_AgentID (at_From value)))
         || negb (String.eqb (dg_EndpointID currentDelegation) (au_EndpointID (at_From value)))
    with NewError "room transfer was not made by the current authority";
  refuse negb (String.eqb (dg_AgentID nextDelegation) (au_AgentID (at_To value)))
         || negb (String.eqb (dg_EndpointID nextDelegation) (au_EndpointID (at_To value)))
    with NewError "new room authority is not a finalized Endpoint for its Agent";
  call verifyAuthorityDelegation currentDelegation now;
  call verifyAuthorityDelegation nextDelegation now;
  refuse negb (sameAuthorityNetwork (at_Network value) (dg_Network currentDelegation))
         || negb (sameAuthorityNetwork (at_Network value) (dg_Network nextDelegation))
    with NewError "room transfer belongs to another network";
  refuse negb (String.eqb (mb_RoomID prior) (at_RoomID value)) || negb (String.eqb (mb_RoomID next) (at_RoomID value))
         || negb (mb_Epoch prior =? at_PriorEpoch value) || negb (mb_Epoch next =? at_NextEpoch value)
         || negb (String.eqb (mb_Digest prior) (at_PriorMembershipDigest value))
         || negb (String.eqb (mb_Digest next) (at_NextMembershipDigest value))
         || negb (mb_Epoch next =? u64 (mb_Epoch prior + 1))
    with NewError "room transfer is not bound to one successor epoch";
  call membership_usable prior;
  call membership_usable next;
  refuse negb (Contains prior (au_AgentID (at_From value))) || negb (Contains next (au_AgentID (at_To value)))
    with NewError "room transfer authority is not a member of its epoch";
  refuse (now <? at_IssuedAtUnix value) || (at_ExpiresAtUnix value <=? now)
         || (dg_ExpiresAtUnix currentDelegation <? at_ExpiresAtUnix value)
         || (dg_ExpiresAtUnix nextDelegation <? at_ExpiresAtUnix value)
    with NewError "room authority transfer is outside its validity window";
  let* preimage := AuthorityTransferSigningBytes value in
  refuse negb (ed25519_Verify (dg_IdentityPublicKey currentDelegation) preimage (at_CurrentEndpointSignature value))
    with NewError "room authority transfer signature is invalid";
  Ok tt.

Definition SignRolePolicy (value : RolePolicy) (endpointKey : bytes) : result RolePolicy :=
  refuse negb (blen endpointKey =? PrivateKeySize) with NewError "invalid room role-policy signing key";
  let sign s := MkRolePolicy (rp_Network value) (rp_RoomID value) (rp_MembershipEpoch value) (rp_MembershipDigest value)
                  (rp_Revision value) (rp_Assignments value) (rp_Authority value) (rp_IssuedAtUnix value)
                  (rp_ExpiresAtUnix value) s in
  let* preimage := RolePolicySigningBytes (sign []) in
  Ok (sign (ed25519_Sign endpointKey preimage)).

Definition VerifyRolePolicy (value : RolePolicy) (membership : Membership) (current : Authority)
    (delegation : Delegation) (now : time) : result unit :=
  refuse time_invalid now with NewError "invalid room role-policy verification time";
  call validateRolePolicy value true;
  let* commitment := Announce membership in
  refuse negb (String.eqb (rp_RoomID value) (mb_RoomID membership))
         || negb (rp_MembershipEpoch value =? mb_Epoch membership)
         || negb (String.eqb (rp_MembershipDigest value) (rc_MembershipDigest commitment))
    with NewError "room role policy names another membership";
  refuse negb (bool_decide (rp_Authority value = current))
         || negb (String.eqb (au_AgentID (rp_Authority value)) (dg_AgentID delegation))
         || negb (String.eqb (au_EndpointID (rp_Authority value)) (dg_EndpointID delegation))
    with NewError "room role policy was not made by the current authority";
  call verifyAuthorityDelegation delegation now;
  refuse negb (sameAuthorityNetwork (rp_Network value) (dg_Network delegation))
    with NewError "room role policy belongs to another network";
  refuse (now <? rp_IssuedAtUnix value) || (rp_ExpiresAtUnix value <=? now)
         || (dg_ExpiresAtUnix delegation <? rp_ExpiresAtUnix value)
    with NewError "room role policy is outside its validity window";
  refuse existsb (fun a => negb (Contains membership (ra_AgentID a))) (rp_Assignments value)
    with NewError "room role policy assigns a non-member";
  refuse negb (String.eqb (RoleOf value (au_AgentID (rp_Authority value))) RoleAdministrator)
    with NewError "room authority must remain an administrator";
  let* preimage := RolePolicySigningBytes value in
  refuse negb (ed25519_Verify (dg_IdentityPublicKey delegation) preimage (rp_EndpointSignature value))
    with NewError "room role-policy signature is invalid";
  Ok tt.
End Signatures.

(** ** What a digest commits to *)

Definition member_set (members : list string) : Prop := Forall (fun m => ids_Agent m = true) members /\ NoDup members.

Definition room_fields (roomID : string) (epoch : Z) (sorted : list string) : list field :=
  [FText roomID; FUint64 epoch; FUint32 (u32 (Z.of_nat (length sorted)))] ++ (FText <$> sorted).
Definition room_preimage (roomID : string) (epoch : Z) (members : list string) : bytes :=
  bytes_of_string DomainRoomMembership ++ fields_bytes (room_fields roomID epoch (sort_strings members)).

Record committed (roomID : string) (epoch : Z) (members : list string) (digest : string) : Prop := {
  cm_room : ids_Room roomID = true;
  cm_epoch : epoch <> 0;
  cm_set : member_set members;
  cm_some : members <> [];
  cm_bound : Z.of_nat (length members) <= MaxMembers;
  cm_digest : digest = canon_Digest (room_preimage roomID epoch members);
}.

Lemma check_members_iff seen members :
  check_members seen members = Ok tt <-> member_set members /\ (forall m, m ∈ members -> m ∉ seen).
Proof.
  unfold member_set. revert seen. induction members as [|m members IH]; intros seen; cbn [check_members].
  { split; [|done]. intros _. split_and!; [done|constructor|set_solver]. }
  rewrite Forall_cons, NoDup_cons. destruct (ids_Agent m); cbn [negb]; [|split; [done|naive_solver]].
  case_bool_decide as Hm; [split; [done|]|].
  { intros [_ H]. by destruct (H m); [left|]. }
  rewrite IH. split.
  - intros [[H1 H2] H3]. split_and!; try done.
    + intros Hin. destruct (H3 m Hin). left.
    + intros x [->|Hx]%elem_of_cons; [done|]. intros Hs. destruct (H3 x Hx). by right.
  - intros [[[_ H1] [H2 H3]] H4]. split_and!; try done. intros x Hx [->|Hs]%elem_of_cons; [done|].
    by apply (H4 x); [right|].
Qed.

Lemma check_members_unit seen members u : check_members seen members = Ok u -> check_members seen members = Ok tt.
Proof. by destruct u. Qed.

Lemma normalize_iff members l : normalize members = Ok l <-> member_set members /\ l = sort_strings members.
Proof.
  unfold normalize. destruct (check_members [] members) as [[]|] eqn:E.
  - apply check_members_iff in E as [E _]. split; [by intros <-%Ok_inj|by intros [_ ->]].
  - split; [done|]. intros [H _]. assert (check_members [] members = Ok tt) by (apply check_members_iff; set_solver). congruence.
Qed.

Lemma member_set_perm l l' : l ≡ₚ l' -> member_set l -> member_set l'.
Proof. intros HP [H1 H2]. split; by rewrite <- HP. Qed.

Lemma sort_strings_length l : length (sort_strings l) = length l.
Proof. apply Permutation_length, sort_strings_perm. Qed.

Lemma sort_strings_idem l : sort_strings (sort_strings l) = sort_strings l.
Proof. apply sort_strings_unique, sort_strings_perm. Qed.

Lemma room_Digest_iff roomID epoch members h :
  room_Digest roomID epoch members = Ok h <-> committed roomID epoch members h.
Proof.
  unfold room_Digest. split.
  - intros H. inv_ok H. apply Ok_inj in H.
    match goal with E : normalize _ = Ok _ |- _ => apply normalize_iff in E as [Hset ->] end.
    breflect. rewrite sort_strings_length in *. constructor; try done; [lia|intros ->; done|lia|].
    rewrite <- H. f_equal. unfold room_preimage, room_fields. rewrite fold_Text, canon_Text_app, fields_bytes_app, sort_strings_length.
    unfold canon_Uint64, canon_Uint32. rewrite !fields_bytes_cons, fields_bytes_nil. cbn [field_bytes].
    by rewrite <- !app_assoc.
  - intros [Hr He Hs Hne Hb ->]. rewrite Hr, (proj2 (Z.eqb_neq _ _)) by done.
    rewrite (proj2 (normalize_iff members (sort_strings members)) (conj Hs eq_refl)). cbn [negb].
    rewrite sort_strings_length. destruct members as [|m members]; [done|]. cbn [length Nat.eqb].
    rewrite (proj2 (Z.ltb_ge _ _)) by done. f_equal. f_equal. unfold room_preimage, room_fields.
    rewrite fold_Text, canon_Text_app, fields_bytes_app, sort_strings_length.
    unfold canon_Uint64, canon_Uint32. rewrite !fields_bytes_cons, fields_bytes_nil. cbn [field_bytes].
    by rewrite <- !app_assoc.
Qed.

Lemma usable_iff m :
  membership_usable m = Ok tt <-> committed (mb_RoomID m) (mb_Epoch m) (mb_Members m) (mb_Digest m).
Proof.
  unfold membership_usable. split.
  - intros H. inv_ok H. breflect. match goal with E : room_Digest _ _ _ = Ok _ |- _ => apply room_Digest_iff in E end. congruence.
  - intros H. rewrite (proj2 (room_Digest_iff _ _ _ _) H). destruct H as [Hr He Hs Hne Hb Hd].
    rewrite Hr, (proj2 (Z.eqb_neq _ _)), String.eqb_refl by done. by destruct (mb_Members m).
Qed.

Lemma usable_unit m u : membership_usable m = Ok u -> membership_usable m = Ok tt.
Proof. by destruct u. Qed.

Lemma room_commit_iff roomID epoch members m :
  room_commit roomID epoch members = Ok m <->
  membership_usable m = Ok tt /\ mb_RoomID m = roomID /\ mb_Epoch m = epoch /\ mb_Members m = members.
Proof.
  unfold room_commit. rewrite usable_iff. split.
  - intros H. inv_ok H. apply Ok_inj in H as <-. cbn. split_and!; try done. by apply room_Digest_iff.
  - intros (H & <- & <- & <-). rewrite (proj2 (room_Digest_iff _ _ _ _) H). by destruct m.
Qed.

Lemma nextEpoch_iff e n : is_u64 e -> nextEpoch e = Ok n <-> n = e + 1 /\ e < u64_max.
Proof.
  unfold is_u64, u64_max, nextEpoch, u64. intros He. destruct (Z.eq_dec e (2 ^ 64 - 1)) as [->|Hne].
  { split; [|lia]. by vm_compute. }
  rewrite Z.mod_small by lia. rewrite (proj2 (Z.leb_gt _ _)) by lia. split; [intros <-%Ok_inj; lia|by intros [-> _]].
Qed.

Lemma committed_perm roomID epoch members members' h :
  members ≡ₚ members' -> committed roomID epoch members h -> committed roomID epoch members' h.
Proof.
  intros HP []. constructor; try done.
  - by eapply member_set_perm.
  - intros ->. by apply Permutation_nil_r in HP.
  - by rewrite <- HP.
  - unfold room_preimage in *. by rewrite <- (sort_strings_unique _ _ HP).
Qed.

(** The digest of an epoch depends on exactly the room, the epoch and the set of
    members: the order in which members are listed does not matter, and two epochs
    with one digest are the same epoch of the same room with the same members, short
    of a SHA-256 collision. *)
Theorem membership_digest_binds r e ms r' e' ms' h :
  is_u64 e -> is_u64 e' -> room_Digest r e ms = Ok h ->
  (ms ≡ₚ ms' -> room_Digest r e ms' = Ok h) /\
  (room_Digest r' e' ms' = Ok h -> (r = r' /\ e = e' /\ ms ≡ₚ ms') \/ sha256_collision).
Proof.
  intros He He' H%room_Digest_iff. split; [intros HP; apply room_Digest_iff; by eapply committed_perm|].
  intros H'%room_Digest_iff. destruct H as [Hr _ [Ha _] _ Hb Hd], H' as [Hr' _ [Ha' _] _ Hb' Hd'].
  rewrite Hd in Hd'. apply canon_Digest_inj in Hd' as [E|]; [left|by right]. unfold room_preimage, room_fields in E.
  apply app_inv_head in E. rewrite !fields_bytes_app in E. unfold MaxMembers in *.
  pose proof (prefixed_hex64_slen _ _ Hr) as L. pose proof (prefixed_hex64_slen _ _ Hr') as L'. slen_lit.
  apply fields_bytes_inj in E as [E1 E2].
  2:{ repeat apply Forall2_cons_2; [cbn; lia|done|split; apply u32_range|constructor]. }
  injection E1 as -> -> Ec. split_and!; try done. rewrite !sort_strings_length in Ec.
  unfold u32 in Ec. rewrite !Z.mod_small in Ec by lia.
  rewrite <- (app_nil_r (fields_bytes _)), <- (app_nil_r (fields_bytes (FText <$> sort_strings ms'))) in E2.
  apply fields_bytes_inj in E2 as [E2 _].
  - apply (inj (fmap FText)) in E2. by rewrite <- (sort_strings_perm ms), <- (sort_strings_perm ms'), E2.
  - apply (fmap_same_kind _ (fun d => ids_Agent d = true)); [|rewrite !sort_strings_length; lia|by rewrite sort_strings_perm..].
    intros x y Hx%prefixed_hex64_slen Hy%prefixed_hex64_slen. slen_lit. cbn. lia.
Qed.

(** ** Transitions *)

Definition adds (m : Membership) (new : list string) (m' : Membership) : Prop :=
  new <> [] /\ member_set (mb_Members m ++ new) /\ mb_Members m' = sort_strings (mb_Members m ++ new).
Definition removes (m : Membership) (leaving : list string) (m' : Membership) : Prop :=
  leaving <> [] /\ member_set leaving /\ leaving ⊆ mb_Members m /\
  mb_Members m' = base.filter (fun x => x ∉ leaving) (mb_Members m).
Definition successor (m m' : Membership) : Prop :=
  membership_usable m' = Ok tt /\ mb_RoomID m' = mb_RoomID m /\ mb_Epoch m' = mb_Epoch m + 1 /\ mb_Epoch m < u64_max.

Lemma sort_app l l' : sort_strings (l ++ sort_strings l') = sort_strings (l ++ l').
Proof. apply sort_strings_unique. by rewrite sort_strings_perm. Qed.

Lemma add_iff m new m' :
  membership_usable m = Ok tt -> is_u64 (mb_Epoch m) ->
  room_Add m new = Ok m' <-> adds m new m' /\ successor m m'.
Proof.
  intros Hu He. pose proof (proj1 (usable_iff m) Hu) as Hc. unfold room_Add, adds, successor. rewrite Hu. split.
  - intros H. inv_ok H.
    match goal with E : nextEpoch _ = Ok _ |- _ => apply nextEpoch_iff in E as [-> ?]; [|done] end.
    apply room_commit_iff in H as (? & ? & ? & Hm). 
    match goal with E : normalize new = Ok _ |- _ => apply normalize_iff in E as [? ->] end.
    match goal with E : normalize _ = Ok _ |- _ => apply normalize_iff in E as [Hs ->] end.
    rewrite sort_strings_length in *. rewrite sort_app in Hm. split_and!; try done.
    + intros ->. done.
    + eapply member_set_perm, Hs. by rewrite sort_strings_perm.
  - intros [(Hne & Hs & Hm) (Hu' & Hr & He' & Hlt)].
    assert (member_set new) as Hn.
    { destruct Hs as [[_ Hs1]%Forall_app Hs2]. by apply NoDup_app in Hs2 as (_ & _ & ?). }
    rewrite (proj2 (normalize_iff new (sort_strings new))) by done. rewrite sort_strings_length.
    destruct new as [|x new'] eqn:En; [done|]. rewrite <- En in *. assert ((length new =? 0)%nat = false) as -> by (by rewrite En).
    rewrite (proj2 (existsb_false _ _)).
    2:{ apply Forall_forall. intros y Hy. apply bool_decide_false. rewrite sort_strings_perm in Hy.
        destruct Hs as [_ Hs]. apply NoDup_app in Hs as (_ & Hd & _). intros Hy'. by apply (Hd y). }
    assert (member_set (mb_Members m ++ sort_strings new)) as Hs'.
    { eapply member_set_perm, Hs. by rewrite sort_strings_perm. }
    rewrite (proj2 (normalize_iff _ (sort_strings (mb_Members m ++ sort_strings new)))) by done.
    pose proof (cm_bound _ _ _ _ (proj1 (usable_iff m') Hu')) as Hb. rewrite sort_app, <- Hm, (proj2 (Z.ltb_ge _ _)) by done.
    rewrite (proj2 (nextEpoch_iff _ _ He) (conj eq_refl Hlt)). by apply room_commit_iff.
Qed.

Lemma remove_iff m leaving m' :
  membership_usable m = Ok tt -> is_u64 (mb_Epoch m) ->
  room_Remove m leaving = Ok m' <-> removes m leaving m' /\ successor m m'.
Proof.
  intros Hu He. unfold room_Remove, removes, successor. rewrite Hu.
  assert (base.filter (fun x => x ∉ sort_strings leaving) (mb_Members m) = base.filter (fun x => x ∉ leaving) (mb_Members m)) as Hf.
  { apply list_filter_iff. intros x. by rewrite sort_strings_perm. }
  split.
  - intros H. inv_ok H.
    match goal with E : nextEpoch _ = Ok _ |- _ => apply nextEpoch_iff in E as [-> ?]; [|done] end.
    apply room_commit_iff in H as (? & ? & ? & Hm).
    match goal with E : normalize leaving = Ok _ |- _ => apply normalize_iff in E as [? ->] end.
    rewrite sort_strings_length in *. rewrite Hf in *. split_and!; try done.
    + intros ->. done.
    + match goal with E : existsb _ _ = false |- _ => apply existsb_false in E; rewrite Forall_forall in E; rename E into Hex end.
      intros x Hx. specialize (Hex x). rewrite sort_strings_perm in Hex. specialize (Hex Hx). by breflect.
  - intros [(Hne & Hs & Hsub & Hm) (Hu' & Hr & He' & Hlt)].
    rewrite (proj2 (normalize_iff leaving (sort_strings leaving))) by done. rewrite sort_strings_length.
    destruct leaving as [|x l'] eqn:En; [done|]. rewrite <- En in *. assert ((length leaving =? 0)%nat = false) as -> by (by rewrite En).
    rewrite (proj2 (existsb_false _ _)).
    2:{ apply Forall_forall. intros y. rewrite sort_strings_perm. intros Hy. by rewrite bool_decide_true by auto. }
    rewrite Hf, <- Hm. pose proof (cm_some _ _ _ _ (proj1 (usable_iff m') Hu')) as Hsome.
    destruct (mb_Members m') as [|y ys] eqn:Em; [done|]. cbn [length Nat.eqb].
    rewrite (proj2 (nextEpoch_iff _ _ He) (conj eq_refl Hlt)). apply room_commit_iff. by rewrite Em.
Qed.

Lemma commit_granted roomID epoch members :
  ids_Room roomID = true -> epoch <> 0 -> member_set members -> members <> [] ->
  Z.of_nat (length members) <= MaxMembers -> exists m, room_commit roomID epoch members = Ok m.
Proof.
  intros. eexists. unfold room_commit. erewrite (proj2 (room_Digest_iff _ _ _ _)); [done|]. by constructor.
Qed.

Lemma filter_disjoint (l new : list string) : (forall x, x ∈ l -> x ∉ new) -> base.filter (fun x => x ∉ new) l = l.
Proof.
  induction l as [|x l IH]; intros H; [done|]. rewrite filter_cons, decide_True by (apply H; left).
  f_equal. apply IH. intros y Hy. apply H. by right.
Qed.
Lemma filter_none (l new : list string) : (forall x, x ∈ l -> x ∈ new) -> base.filter (fun x => x ∉ new) l = [].
Proof.
  induction l as [|x l IH]; intros H; [done|]. rewrite filter_cons, decide_False by (intros Hx; apply Hx, H; left).
  apply IH. intros y Hy. apply H. by right.
Qed.
Lemma filter_added (l new : list string) : (forall x, x ∈ l -> x ∉ new) -> base.filter (fun x => x ∉ new) (l ++ new) = l.
Proof. intros H. by rewrite filter_app, filter_disjoint, filter_none, app_nil_r. Qed.

(** On a usable membership, adding succeeds for exactly the non-empty lists of
    distinct agents that are not members, within the size of a room, and removing for
    exactly the non-empty lists of distinct members that leave somebody; the successor
    is usable, names the same room at the next epoch, which never wraps, and holds the
    union or the difference.  Removing what was just added gives the old members back. *)
Theorem room_transitions_exact m :
  membership_usable m = Ok tt -> is_u64 (mb_Epoch m) ->
  (forall new m', room_Add m new = Ok m' <-> adds m new m' /\ successor m m') /\
  (forall leaving m', room_Remove m leaving = Ok m' <-> removes m leaving m' /\ successor m m') /\
  (forall new m1, room_Add m new = Ok m1 -> mb_Epoch m1 < u64_max ->
     exists m2, room_Remove m1 new = Ok m2 /\ mb_Members m2 ≡ₚ mb_Members m).
Proof.
  intros Hu He. split_and!; [by intros; apply add_iff|by intros; apply remove_iff|].
  intros new m1 [(Hne & Hs & Hm1) (Hu1 & Hr1 & He1 & Hlt)]%add_iff Hlt1; [|done..].
  assert (is_u64 (mb_Epoch m1)) as Hu64 by (unfold is_u64, u64_max in *; lia).
  set (rest := base.filter (fun x => x ∉ new) (mb_Members m1)).
  pose proof Hs as [Hs1 (Hnd & Hdis & Hndn)%NoDup_app]. pose proof (proj1 (usable_iff m) Hu) as Hc.
  assert (rest ≡ₚ mb_Members m) as HP.
  { unfold rest. rewrite Hm1, sort_strings_perm. rewrite filter_added; done. }
  destruct (commit_granted (mb_RoomID m1) (mb_Epoch m1 + 1) rest) as [m2 Hm2].
  - rewrite Hr1. apply Hc.
  - unfold is_u64 in *. lia.
  - eapply member_set_perm; [by symmetry|apply Hc].
  - intros E. rewrite E in HP. symmetry in HP. apply Permutation_nil_r in HP. by apply (cm_some _ _ _ _ Hc).
  - rewrite HP. apply Hc.
  - exists m2. apply room_commit_iff in Hm2 as (U2 & R2 & E2 & M2). split; [|by rewrite M2].
    apply remove_iff; [done..|]. split; [|done]. split_and!; try done.
    + split; [|done]. by apply Forall_app in Hs1 as [_ ?].
    + intros x Hx. rewrite Hm1, sort_strings_perm. set_solver.
Qed.

(** ** The search of [RoleOf] *)

Lemma search_loop_spec n fuel f lo hi :
  (hi - lo <= fuel)%nat -> (lo <= hi <= n)%nat ->
  (forall i j, (i <= j < n)%nat -> f i = true -> f j = true) ->
  (forall i, (i < lo)%nat -> f i = false) ->
  let k := search_loop fuel f lo hi in
  (lo <= k <= hi)%nat /\ (forall i, (i < k)%nat -> f i = false) /\ ((k < hi)%nat -> f k = true).
Proof.
  intros Hf Hlo Hmono. revert lo hi Hf Hlo. induction fuel as [|fuel IH]; intros lo hi Hf Hlo Hbelow; cbn [search_loop].
  { split_and!; try done; lia. }
  destruct (Nat.ltb_spec lo hi) as [Hlt|Hge]; [|split_and!; try done; lia].
  set (h := ((lo + hi) / 2)%nat).
  assert (lo <= h < hi)%nat as Hh.
  { unfold h. pose proof (Nat.div_mod_eq (lo + hi) 2). pose proof (Nat.mod_upper_bound (lo + hi) 2). lia. }
  destruct (f h) eqn:Eh.
  - destruct (IH lo h) as (H1 & H2 & H3); [lia..|done|]. split_and!; [lia|lia|done|].
    intros _. destruct (Nat.lt_ge_cases (search_loop fuel f lo h) h); [by apply H3|].
    replace (search_loop fuel f lo h) with h by lia. done.
  - destruct (IH (S h) hi) as (H1 & H2 & H3); [lia..| |split_and!; [lia|lia|done|done]].
    intros i Hi. destruct (f i) eqn:Ei; [|done]. assert (f h = true); [|congruence]. apply (Hmono i); [lia|done].
Qed.

Lemma str_ltb_le s t : str_ltb s t = negb (String.leb t s).
Proof.
  unfold str_ltb, String.leb. rewrite (String.compare_antisym t s). by destruct (String.compare s t).
Qed.

Lemma str_ltb_trans s t u : str_ltb s t = true -> str_ltb t u = true -> str_ltb s u = true.
Proof.
  rewrite !str_ltb_le, !negb_true_iff. intros H1 H2. destruct (String.leb u s) eqn:E; [|done].
  destruct (String.leb_total s t) as [H|H]; [|congruence].
  assert (str_le u t) as Ht by (etrans; [exact E|exact H]). unfold str_le in Ht. congruence.
Qed.

Lemma str_ltb_irrefl s : str_ltb s s = false.
Proof. rewrite str_ltb_le. destruct (String.leb_total s s) as [ -> | -> ]; done. Qed.

(** The assignments of a valid policy are strictly sorted by agent. *)
Definition assignment_lt (a b : RoleAssignment) : Prop := str_ltb (ra_AgentID a) (ra_AgentID b) = true.

Lemma check_assignments_sorted previous n m l r :
  check_assignments previous n m l = Ok r ->
  StronglySorted assignment_lt l /\ (forall p a, previous = Some p -> a ∈ l -> str_ltb p (ra_AgentID a) = true) /\
  Forall (fun a => ra_Role a = RoleAdministrator \/ ra_Role a = RoleModerator) l.
Proof.
  revert previous n m. induction l as [|a l IH]; intros previous n m; cbn [check_assignments].
  { intros _. split_and!; [constructor|set_solver|done]. }
  intros H. destruct (negb (ids_Agent (ra_AgentID a)) || _) eqn:E; [done|]. apply orb_false_elim in E as [_ E].
  assert (exists n' m', check_assignments (Some (ra_AgentID a)) n' m' l = Ok r /\
            (ra_Role a = RoleAdministrator \/ ra_Role a = RoleModerator)) as (n' & m' & H' & Hr).
  { destruct (String.eqb_spec (ra_Role a) RoleAdministrator); [eauto|].
    destruct (String.eqb_spec (ra_Role a) RoleModerator); [eauto|done]. }
  destruct (IH _ _ _ H') as (Hs & Hp & Hf). split_and!; [constructor; [done|]| |by constructor].
  - apply Forall_forall. intros b Hb. by apply (Hp (ra_AgentID a)).
  - intros p b -> [ -> |Hb]%elem_of_cons; [by apply negb_false_iff in E|].
    apply (str_ltb_trans _ (ra_AgentID a)); [by apply negb_false_iff in E|by apply (Hp (ra_AgentID a))].
Qed.

Definition sorted_policy (p : RolePolicy) : Prop :=
  StronglySorted assignment_lt (rp_Assignments p) /\
  Forall (fun a => ra_Role a = RoleAdministrator \/ ra_Role a = RoleModerator) (rp_Assignments p).

Lemma valid_sorted p signed u : validateRolePolicy p signed = Ok u -> sorted_policy p.
Proof.
  unfold validateRolePolicy. intros H. inv_ok H.
  match goal with E : check_assignments _ _ _ _ = Ok _ |- _ => apply check_assignments_sorted in E as (? & _ & ?) end. done.
Qed.

Lemma sorted_nth (l : list RoleAssignment) i j d :
  StronglySorted assignment_lt l -> (i < j < length l)%nat -> assignment_lt (List.nth i l d) (List.nth j l d).
Proof.
  intros H. revert i j. induction H as [|a l H IH HF]; intros i j Hij; [cbn in Hij; lia|].
  destruct j as [|j]; [lia|]. destruct i as [|i]; cbn [List.nth].
  - rewrite Forall_forall in HF. apply HF. apply list_elem_of_In, nth_In. cbn in Hij. lia.
  - apply IH. cbn in Hij. lia.
Qed.

Lemma RoleOf_spec p agentID :
  sorted_policy p ->
  (exists role, MkAssignment agentID role ∈ rp_Assignments p /\ RoleOf p agentID = role /\ role <> "") \/
  ((forall a, a ∈ rp_Assignments p -> ra_AgentID a <> agentID) /\ RoleOf p agentID = "").
Proof.
  intros [Hs Hf]. set (l := rp_Assignments p). set (n := length l).
  set (f := fun i => negb (str_ltb (ra_AgentID (assignment_at p i)) agentID)).
  assert (forall i j, (i < j < n)%nat -> str_ltb (ra_AgentID (assignment_at p i)) (ra_AgentID (assignment_at p j)) = true) as Hlt.
  { intros i j Hij. by apply (sorted_nth l). }
  destruct (search_loop_spec n n f 0 n) as (Hk & Hbelow & Hat).
  { lia. } { lia. }
  { intros i j Hij Hi. unfold f in *. apply negb_true_iff in Hi. apply negb_true_iff.
    destruct (decide (i = j)) as [->|]; [done|]. destruct (str_ltb (ra_AgentID (assignment_at p j)) agentID) eqn:Ej; [|done].
    rewrite (str_ltb_trans _ (ra_AgentID (assignment_at p j))) in Hi; [done| |done]. apply Hlt. lia. }
  { lia. }
  unfold RoleOf, sort_Search. fold l n f. set (k := search_loop n f 0 n) in *.
  destruct (Nat.ltb_spec k n) as [Hkn|Hkn]; cbn [andb]; [destruct (String.eqb_spec (ra_AgentID (assignment_at p k)) agentID) as [Ea|Ea]|].
  - left. assert (assignment_at p k ∈ l) as Hin by (apply list_elem_of_In, nth_In; done).
    exists (ra_Role (assignment_at p k)). split_and!; try done.
    + rewrite <- Ea. by destruct (assignment_at p k).
    + rewrite Forall_forall in Hf. destruct (Hf _ Hin) as [-> | ->]; done.
  - right. split; [|done]. intros a Hin Eag. apply list_elem_of_In, (In_nth _ _ (MkAssignment "" "")) in Hin as (i & Hi & Ei).
    change (assignment_at p i = a) in Ei. destruct (Nat.lt_total i k) as [Hik|[->|Hik]].
    + specialize (Hbelow i Hik). unfold f in Hbelow. by rewrite Ei, Eag, str_ltb_irrefl in Hbelow.
    + congruence.
    + specialize (Hat Hkn). unfold f in Hat. apply negb_true_iff in Hat. specialize (Hlt k i).
      rewrite Ei, Eag in Hlt. rewrite Hlt in Hat by lia. done.
  - right. split; [|done]. intros a Hin Eag. apply list_elem_of_In, (In_nth _ _ (MkAssignment "" "")) in Hin as (i & Hi & Ei).
    change (assignment_at p i = a) in Ei. fold l n in Hi. specialize (Hbelow i). unfold f in Hbelow.
    rewrite Ei, Eag, str_ltb_irrefl in Hbelow. specialize (Hbelow ltac:(lia)). done.
Qed.

(** The reference: the first assignment that names the agent. *)
Definition role_lookup (p : RolePolicy) (agentID : string) : string :=
  match List.find (fun a => String.eqb (ra_AgentID a) agentID) (rp_Assignments p) with
  | Some a => ra_Role a
  | None => ""
  end.

Lemma sorted_unique_role l a r r' :
  StronglySorted assignment_lt l -> MkAssignment a r ∈ l -> MkAssignment a r' ∈ l -> r = r'.
Proof.
  induction 1 as [|x l Hs IH HF]; [set_solver|]. rewrite Forall_forall in HF. unfold assignment_lt in HF.
  intros [<-|H1]%elem_of_cons [E|H2]%elem_of_cons; [by injection E| | |by apply IH].
  - specialize (HF _ H2). cbn in HF. by rewrite str_ltb_irrefl in HF.
  - subst x. specialize (HF _ H1). cbn in HF. by rewrite str_ltb_irrefl in HF.
Qed.

Lemma RoleOf_lookup p agentID : sorted_policy p -> RoleOf p agentID = role_lookup p agentID.
Proof.
  intros Hs. unfold role_lookup. destruct (RoleOf_spec p agentID Hs) as [(role & Hin & -> & _)|[Hno ->]].
  - destruct (List.find _ _) as [a|] eqn:E.
    + apply find_some in E as [Ha Ea%String.eqb_eq]. apply list_elem_of_In in Ha. destruct a as [x r]. cbn in Ea. subst x.
      by apply (sorted_unique_role _ agentID) with (1 := proj1 Hs).
    + apply list_elem_of_In in Hin. apply (find_none _ _ E) in Hin. cbn in Hin. by rewrite String.eqb_refl in Hin.
  - destruct (List.find _ _) as [a|] eqn:E; [|done]. apply find_some in E as [Ha Ea%String.eqb_eq].
    apply list_elem_of_In in Ha. by destruct (Hno a).
Qed.

(** What a role may do. *)
Definition role_permits (role action : string) : Prop :=
  action = ActionPost \/
  (action = ActionModerate /\ (role = RoleAdministrator \/ role = RoleModerator)) \/
  (action ∈ [ActionChangeMembership; ActionChangeRoles; ActionTransferAuthority] /\ role = RoleAdministrator).

Definition bound_to (p : RolePolicy) (m : Membership) : Prop :=
  rp_RoomID p = mb_RoomID m /\ rp_MembershipEpoch p = mb_Epoch m /\ rp_MembershipDigest p = mb_Digest m.

Lemma Allows_iff p m agentID action :
  Allows p m agentID action = true <->
  agentID ∈ mb_Members m /\ bound_to p m /\ role_permits (RoleOf p agentID) action.
Proof.
  unfold Allows, Contains, bound_to, role_permits.
  case_bool_decide as Hm; cbn [negb orb]; [|split; [done|naive_solver]].
  destruct (String.eqb_spec (rp_RoomID p) (mb_RoomID m)) as [Hr|]; cbn [negb orb]; [|split; [done|naive_solver]].
  destruct (Z.eqb_spec (rp_MembershipEpoch p) (mb_Epoch m)) as [He|]; cbn [negb orb]; [|split; [done|naive_solver]].
  destruct (String.eqb_spec (rp_MembershipDigest p) (mb_Digest m)) as [Hd|]; cbn [negb]; [|split; [done|naive_solver]].
  destruct (String.eqb_spec action ActionPost) as [->|N1]; [naive_solver|].
  destruct (String.eqb_spec action ActionModerate) as [->|N2].
  { rewrite orb_true_iff, !String.eqb_eq. split; [naive_solver|]. intros (_ & _ & [|[[_ ?]|[H _]]]); [done..|].
    repeat (apply elem_of_cons in H as [|H]; [done|]). by apply elem_of_nil in H. }
  destruct (String.eqb action ActionChangeMembership || _ || _) eqn:E.
  - rewrite String.eqb_eq. rewrite !orb_true_iff, !String.eqb_eq in E.
    assert (action ∈ [ActionChangeMembership; ActionChangeRoles; ActionTransferAuthority]) by set_solver. naive_solver.
  - split; [done|]. rewrite !orb_false_iff, !String.eqb_neq in E. intros (_ & _ & [|[[? _]|[H _]]]); [done..|].
    set_solver.
Qed.

(** On a valid policy the binary search of [RoleOf] finds exactly the role a
    linear scan finds, and [Allows] grants an action exactly to the members of the very
    membership the policy was signed for whose role permits it: posting to every
    member, moderation to moderators and administrators, the rest to administrators. *)
Theorem roles_exact p signed m agentID action :
  validateRolePolicy p signed = Ok tt ->
  RoleOf p agentID = role_lookup p agentID /\
  (Allows p m agentID action = true <->
   agentID ∈ mb_Members m /\ bound_to p m /\ role_permits (role_lookup p agentID) action).
Proof.
  intros Hv%valid_sorted. rewrite Allows_iff, (RoleOf_lookup p agentID Hv). done.
Qed.

(** ** Witnesses *)

(** A stand-in for the signature scheme: the second half of a private key is its
    public key, as in Go. *)
Definition toy_ed25519 : Ed25519 := {|
  ed25519_Verify public message signature := bool_decide (signature = sha256 (public ++ message) ++ sha256 message);
  ed25519_Sign private message := sha256 (drop 32 private ++ message) ++ sha256 message;
|}.

Definition result_or {A} (default : A) (r : result A) : A := match r with Ok a => a | Err _ => default end.

Definition sample_room : string := "room_" +:+ sample_hash.
Definition agent_named (c : ascii) : string := "agent_" +:+ String.string_of_list_ascii (List.repeat c 64).
Definition no_membership : Membership := MkMembership "" 0 [] "".
Definition sample_first : Membership := Eval vm_compute in
  result_or no_membership (Found sample_room [sample_agent_id; agent_named "1"]).
Definition sample_second : Membership := Eval vm_compute in result_or no_membership (room_Add sample_first [agent_named "2"]).

Lemma membership_digest_binds_witness :
  room_Digest sample_room 1 [agent_named "1"; sample_agent_id] = Ok (mb_Digest sample_first).
Proof.
  apply (membership_digest_binds sample_room 1 [sample_agent_id; agent_named "1"] sample_room 1
           [agent_named "1"; sample_agent_id] (mb_Digest sample_first)).
  - done.
  - done.
  - vm_compute. reflexivity.
  - constructor.
Defined.

Lemma room_transitions_exact_witness : exists m2,
  room_Remove sample_second [agent_named "2"] = Ok m2 /\ mb_Members m2 ≡ₚ mb_Members sample_first.
Proof.
  apply (room_transitions_exact sample_first).
  - vm_compute. reflexivity.
  - vm_compute. split; [discriminate|reflexivity].
  - vm_compute. reflexivity.
  - vm_compute. reflexivity.
Defined.

Definition sample_authority : Authority := Eval vm_compute in MkAuthority (dg_AgentID sample_delegation) (dg_EndpointID sample_delegation).
Definition sample_private : bytes := replicate 32 x22 ++ dg_IdentityPublicKey sample_delegation.
Definition sample_policy_of (m : Membership) : RolePolicy :=
  MkRolePolicy (Some sample_domain) (mb_RoomID m) (mb_Epoch m) (mb_Digest m) 1
    [MkAssignment sample_agent_id RoleAdministrator; MkAssignment (agent_named "1") RoleModerator]
    sample_authority 1500 3000 [].
Definition sample_roles : RolePolicy := Eval vm_compute in
  let unsigned := sample_policy_of sample_first in
  result_or unsigned (SignRolePolicy (Ed := toy_ed25519) unsigned sample_private).

Lemma roles_exact_witness : RoleOf sample_roles (agent_named "1") = role_lookup sample_roles (agent_named "1").
Proof.
  apply (roles_exact sample_roles true sample_first (agent_named "1") ActionModerate). vm_compute. reflexivity.
Defined.
