(* ===== verification/Rooms.v ===== *)
(** * The room ledgers: [pkg/eventlog/rooms.go] and [room_roles.go]

    One record per room holds its current epoch, the full member set, the one
    authority that may serialize the next epoch and the delegation it acted under;
    beside it is the last signed role policy.  A record is replaced only after the
    successor was verified against it, in one locked operation. *)

From S2P Require Import Prelude Encoding Canon Files Money Payload Delivery Identity E2ee Journal Room.

(** ** Records *)

Definition RoomRecordSchema : string := "tos.messaging.room-ledger.v3".
Definition ErrRoomRollback : error := Sentinel "the room's epoch regressed".
Definition ErrRoomGap : error := Sentinel "the room's epoch skipped an unseen transition".
Definition ErrRoomRoleRollback : error := Sentinel "the room role-policy revision regressed".
Definition ErrRoomRoleGap : error := Sentinel "the room role-policy revision skipped an unseen transition".

(** The delegation is stored as JSON; [None] is JSON that does not decode. *)
Record RoomRecord : Type := MkRoomRecord {
  rr_Schema : string;
  rr_RoomID : string;
  rr_Epoch : Z;
  rr_MembershipDigest : string;
  rr_Members : list string;
  rr_AuthorityAgentID : string;
  rr_AuthorityEndpointID : string;
  rr_AuthorityDelegation : option Delegation;
  rr_UpdatedAtUnix : Z;
}.

Definition record_membership (r : RoomRecord) : Membership :=
  MkMembership (rr_RoomID r) (rr_Epoch r) (rr_Members r) (rr_MembershipDigest r).
Definition record_authority (r : RoomRecord) : Authority :=
  MkAuthority (rr_AuthorityAgentID r) (rr_AuthorityEndpointID r).

(** The two kinds of file of the rooms directory, by their extension. *)
Record RoomFiles : Type := MkRoomFiles {
  rf_journal : Journal;
  rf_rooms : directory RoomRecord;
  rf_roles : directory RolePolicy;
}.

Definition with_rooms (s : RoomFiles) (files : directory RoomRecord) : RoomFiles :=
  MkRoomFiles (rf_journal s) files (rf_roles s).
Definition with_roles (s : RoomFiles) (files : directory RolePolicy) : RoomFiles :=
  MkRoomFiles (rf_journal s) (rf_rooms s) files.

Definition room_path (roomID : string) : string := sdrop 5 roomID +:+ ".json".
Definition roles_path (roomID : string) : string := sdrop 5 roomID +:+ ".roles.json".

Definition decodeRoomAuthorityDelegation (raw : option Delegation) : result Delegation :=
  match raw with
  | Some d =>
      match dg_Network d with
      | Some _ => Ok d
      | None => Err (NewError "invalid room authority delegation")
      end
  | None => Err (NewError "invalid room authority delegation")
  end.

Definition RoomLedger_read (files : directory RoomRecord) (roomID : string) : result (option RoomRecord) :=
  match files !! room_path roomID with
  | None => Ok None
  | Some EDir | Some EForeign => Err (NewError "read room record")
  | Some EJunk => Err (NewError "invalid room record")
  | Some (ERec r) =>
      refuse negb (String.eqb (rr_Schema r) RoomRecordSchema) || negb (String.eqb (rr_RoomID r) roomID)
        with NewError "room record describes another room";
      let authority := record_authority r in
      call Authority_Validate authority;
      refuse match decodeRoomAuthorityDelegation (rr_AuthorityDelegation r) with
             | Ok d => negb (String.eqb (dg_AgentID d) (au_AgentID authority))
                       || negb (String.eqb (dg_EndpointID d) (au_EndpointID authority))
             | Err _ => true
             end
        with NewError "room authority delegation does not match its authority";
      let* digest := room_Digest (rr_RoomID r) (rr_Epoch r) (rr_Members r) in
      refuse negb (String.eqb digest (rr_MembershipDigest r))
        with NewError "room record's digest does not match its members";
      refuse negb (bool_decide (rr_AuthorityAgentID r ∈ rr_Members r))
        with NewError "room authority is not a current member";
      Ok (Some r)
  end.

Definition RoleLedger_read (files : directory RolePolicy) (roomID : string) : result (option RolePolicy) :=
  match files !! roles_path roomID with
  | None => Ok None
  | Some EDir | Some EForeign => Err (NewError "read room role policy")
  | Some EJunk => Err (NewError "json")
  | Some (ERec p) =>
      call validateRolePolicy p true;
      refuse negb (String.eqb (rp_RoomID p) roomID) with NewError "room role policy is stored under another room";
      Ok (Some p)
  end.

Definition diffMembers (prior next : list string) : list string * list string :=
  (base.filter (fun m => m ∉ prior) next, base.filter (fun m => m ∉ next) prior).

Record RoomTransition : Type := MkRoomTransition {
  tr_Membership : Membership;
  tr_Joined : list string;
  tr_Departed : list string;
  tr_Authority : Authority;
}.

Definition write_room (w : write_outcome) (roomID : string) (r : RoomRecord) (t : RoomTransition)
    : action RoomFiles RoomTransition :=
  fun s =>
  match file_replace w (room_path roomID) r (rf_rooms s) with
  | (Ok _, files) => (Ok t, with_rooms s files)
  | (Err e, files) => (Err e, with_rooms s files)
  end.

(** ** Memberships *)

Section Ledger.
  Context `{Ed : Ed25519}.

(** The part of [Advance] between reading the record and writing the successor. *)
Definition judge_successor (record : option RoomRecord) (next : Membership) (actor : Authority) : result (list string) :=
  match record with
  | None =>
      refuse negb (mb_Epoch next =? 1) with NewError "a room's first epoch must be epoch 1";
      refuse negb (Contains next (au_AgentID actor)) with NewError "a room's founding authority must be a member";
      Ok []
  | Some r =>
      refuse negb (String.eqb (mb_RoomID next) (rr_RoomID r)) with NewError "the successor names another room";
      refuse mb_Epoch next <=? rr_Epoch r with ErrRoomRollback;
      refuse negb (mb_Epoch next =? u64 (rr_Epoch r + 1)) with ErrRoomGap;
      refuse negb (String.eqb (au_AgentID actor) (rr_AuthorityAgentID r))
             || negb (String.eqb (au_EndpointID actor) (rr_AuthorityEndpointID r))
        with NewError "only the current room authority may advance membership";
      refuse negb (Contains next (au_AgentID actor))
        with NewError "the current authority cannot leave without a signed transfer";
      Ok (rr_Members r)
  end.

Definition RoomLedger_Advance (w : write_outcome) (next : Membership) (authorization : MembershipAuthorization)
    (delegation : Delegation) (now : time) : action RoomFiles RoomTransition :=
  fun s =>
  let judged :=
    call journal_usable (rf_journal s);
    refuse time_invalid now with NewError "invalid time";
    call VerifyMembershipAuthorization next authorization delegation now;
    let actor := ma_Authority authorization in
    let* commitment := Announce next in
    let* record := RoomLedger_read (rf_rooms s) (mb_RoomID next) in
    let* prior := judge_successor record next actor in
    let '(joined, departed) := diffMembers prior (mb_Members next) in
    refuse match record with Some _ => (length joined =? 0)%nat && (length departed =? 0)%nat | None => false end
      with NewError "a room epoch must change its membership";
    Ok (MkRoomRecord RoomRecordSchema (mb_RoomID next) (mb_Epoch next) (rc_MembershipDigest commitment)
          (mb_Members next) (au_AgentID actor) (au_EndpointID actor) (Some delegation) now,
        MkRoomTransition next joined departed actor) in
  match judged with
  | Ok (record, transition) => write_room w (mb_RoomID next) record transition s
  | Err e => (Err e, s)
  end.

Definition TransferAuthority (w : write_outcome) (next : Membership) (transfer : AuthorityTransfer)
    (currentDelegation nextDelegation : Delegation) (now : time) : action RoomFiles RoomTransition :=
  fun s =>
  let judged :=
    call journal_usable (rf_journal s);
    refuse time_invalid now with NewError "invalid time";
    call Announce next;
    let* record := RoomLedger_read (rf_rooms s) (mb_RoomID next) in
    match record with
    | None => Err (NewError "cannot transfer authority for an unknown room")
    | Some r =>
        refuse mb_Epoch next <=? rr_Epoch r with ErrRoomRollback;
        refuse negb (mb_Epoch next =? u64 (rr_Epoch r + 1)) with ErrRoomGap;
        call VerifyAuthorityTransfer (record_authority r) (record_membership r) next transfer currentDelegation
               nextDelegation now;
        let '(joined, departed) := diffMembers (rr_Members r) (mb_Members next) in
        Ok (MkRoomRecord RoomRecordSchema (mb_RoomID next) (mb_Epoch next) (mb_Digest next) (mb_Members next)
              (au_AgentID (at_To transfer)) (au_EndpointID (at_To transfer)) (Some nextDelegation) now,
            MkRoomTransition next joined departed (at_To transfer))
    end in
  match judged with
  | Ok (record, transition) => write_room w (mb_RoomID next) record transition s
  | Err e => (Err e, s)
  end.

(** ** Questions *)

Inductive RoomStanding : Type := RoomMember | RoomNotMember | RoomStale | RoomAhead | RoomUnknown.

Definition member_standing (r : RoomRecord) (agentID : string) : RoomStanding :=
  if bool_decide (agentID ∈ rr_Members r) then RoomMember else RoomNotMember.

Definition Judge (s : RoomFiles) (roomID : string) (epoch : Z) (agentID : string) : result RoomStanding :=
  call journal_usable (rf_journal s);
  refuse negb (ids_Room roomID) with NewError "invalid room identifier";
  refuse negb (ids_Agent agentID) with NewError "invalid member identifier";
  refuse epoch =? 0 with NewError "a membership claim has no epoch";
  let* record := RoomLedger_read (rf_rooms s) roomID in
  match record with
  | None => Ok RoomUnknown
  | Some r =>
      if epoch <? rr_Epoch r then Ok RoomStale
      else if rr_Epoch r <? epoch then Ok RoomAhead
      else Ok (member_standing r agentID)
  end.

Definition JudgeMember (s : RoomFiles) (roomID agentID : string) : result RoomStanding :=
  call journal_usable (rf_journal s);
  refuse negb (ids_Room roomID) with NewError "invalid room identifier";
  refuse negb (ids_Agent agentID) with NewError "invalid member identifier";
  let* record := RoomLedger_read (rf_rooms s) roomID in
  match record with
  | None => Ok RoomUnknown
  | Some r => Ok (member_standing r agentID)
  end.

Definition RoomLedger_Current (s : RoomFiles) (roomID : string) : result (option Membership) :=
  call journal_usable (rf_journal s);
  refuse negb (ids_Room roomID) with NewError "invalid room identifier";
  let* record := RoomLedger_read (rf_rooms s) roomID in
  Ok (record_membership <$> record).

Definition CurrentAuthority (s : RoomFiles) (roomID : string) : result (option Authority) :=
  call journal_usable (rf_journal s);
  refuse negb (ids_Room roomID) with NewError "invalid room identifier";
  let* record := RoomLedger_read (rf_rooms s) roomID in
  Ok (record_authority <$> record).

Definition CurrentAuthorityDelegation (s : RoomFiles) (roomID : string) : result (option Delegation) :=
  call journal_usable (rf_journal s);
  refuse negb (ids_Room roomID) with NewError "invalid room identifier";
  let* record := RoomLedger_read (rf_rooms s) roomID in
  match record with
  | None => Ok None
  | Some r => let* d := decodeRoomAuthorityDelegation (rr_AuthorityDelegation r) in Ok (Some d)
  end.

(** ** Roles *)

Definition judge_revision (prior : option RolePolicy) (policy : RolePolicy) : result unit :=
  match prior with
  | None => refuse negb (rp_Revision policy =? 1) with NewError "a room's first role-policy revision must be 1"; Ok tt
  | Some p =>
      refuse rp_Revision policy <=? rp_Revision p with ErrRoomRoleRollback;
      refuse negb (rp_Revision policy =? u64 (rp_Revision p + 1)) with ErrRoomRoleGap;
      Ok tt
  end.

(** Slicing [roomID[len("room_"):]] of a shorter string. *)
Definition panic_slice_bounds : error := Sentinel "panic: slice bounds out of range".

(** The identifier of the policy is used for a path before it is checked.
    [EncodeRolePolicyJSON] validates; at most 20 assignments never reach its bound. *)
Definition RoleLedger_Advance (w : write_outcome) (policy : RolePolicy) (delegation : Delegation) (now : time)
    : action RoomFiles RolePolicy :=
  fun s =>
  let judged :=
    call journal_usable (rf_journal s);
    refuse time_invalid now with NewError "invalid room role-policy time";
    refuse slen (rp_RoomID policy) <? 5 with panic_slice_bounds;
    let* record := RoomLedger_read (rf_rooms s) (rp_RoomID policy) in
    match record with
    | None => Err (NewError "cannot assign roles for an unknown room")
    | Some r =>
        call VerifyRolePolicy policy (record_membership r) (record_authority r) delegation now;
        let* prior := RoleLedger_read (rf_roles s) (rp_RoomID policy) in
        call judge_revision prior policy;
        validateRolePolicy policy true
    end in
  match judged with
  | Err e => (Err e, s)
  | Ok _ =>
      match file_replace w (roles_path (rp_RoomID policy)) policy (rf_roles s) with
      | (Ok _, files) => (Ok policy, with_roles s files)
      | (Err e, files) => (Err e, with_roles s files)
      end
  end.

Definition RoleLedger_Current (s : RoomFiles) (roomID : string) : result (option RolePolicy) :=
  call journal_usable (rf_journal s);
  refuse negb (ids_Room roomID) with NewError "invalid room identifier";
  RoleLedger_read (rf_roles s) roomID.

Definition AllowsCurrent (s : RoomFiles) (roomID agentID action : string) (delegation : Delegation) (now : time)
    : result bool :=
  call journal_usable (rf_journal s);
  refuse negb (ids_Room roomID) || negb (ids_Agent agentID) with NewError "invalid room role authorization subject";
  let* policy := RoleLedger_read (rf_roles s) roomID in
  match policy with
  | None => Ok false
  | Some p =>
      let* record := RoomLedger_read (rf_rooms s) roomID in
      match record with
      | None => Ok false
      | Some r =>
          call VerifyRolePolicy p (record_membership r) (record_authority r) delegation now;
          Ok (Allows p (record_membership r) agentID action)
      end
  end.
End Ledger.

(** ** What a verification gives *)

Section Verified.
  Context `{Ed : Ed25519}.

(** The delegation is live at [now] and its key derives its endpoint. *)
Definition live_delegation (d : Delegation) (now : time) : Prop :=
  0 <= now /\ dg_NotBeforeUnix d <= now < dg_ExpiresAtUnix d /\
  DeriveEndpointID (dg_Network d) (dg_AgentID d) (dg_IdentityPublicKey d) = Ok (dg_EndpointID d).

Lemma verifyAuthorityDelegation_live d now u : verifyAuthorityDelegation d now = Ok u -> live_delegation d now.
Proof.
  unfold verifyAuthorityDelegation, CheckWindow, live_delegation. intros H. inv_ok H.
  repeat match goal with E : _ = Ok ?a |- _ => is_var a; progress inv_ok E end.
  breflect. subst. split_and!; [lia..|done].
Qed.

Lemma live_network d now : live_delegation d now -> exists n, dg_Network d = Some n.
Proof.
  intros (_ & _ & H). unfold DeriveEndpointID, validateNetwork in H. destruct (dg_Network d) as [n|]; [by exists n|done].
Qed.

(** [v] is the current endpoint's signature over exactly the membership [m]. *)
Record authorizes (m : Membership) (v : MembershipAuthorization) (d : Delegation) (now : time) : Prop := {
  az_usable : membership_usable m = Ok tt;
  az_bound : ma_RoomID v = mb_RoomID m /\ ma_Epoch v = mb_Epoch m /\ ma_MembershipDigest v = mb_Digest m;
  az_actor : ma_Authority v = MkAuthority (dg_AgentID d) (dg_EndpointID d);
  az_valid : Authority_Validate (ma_Authority v) = Ok tt;
  az_member : dg_AgentID d ∈ mb_Members m;
  az_live : live_delegation d now;
  az_window : ma_IssuedAtUnix v <= now < ma_ExpiresAtUnix v /\ ma_ExpiresAtUnix v <= dg_ExpiresAtUnix d;
  az_signed : exists preimage, MembershipAuthorizationSigningBytes v = Ok preimage /\
    ed25519_Verify (dg_IdentityPublicKey d) preimage (ma_EndpointSignature v) = true;
}.

Lemma is_ok_unit (r : result unit) : is_ok r = true -> r = Ok tt.
Proof. by destruct r as [[]|]. Qed.

Lemma VerifyMembershipAuthorization_sound m v d now u :
  VerifyMembershipAuthorization m v d now = Ok u -> authorizes m v d now.
Proof.
  unfold VerifyMembershipAuthorization. intros H. inv_ok H. breflect. unfold Contains in *. breflect.
  match goal with E : verifyAuthorityDelegation _ _ = Ok _ |- _ => apply verifyAuthorityDelegation_live in E end.
  match goal with E : validateMembershipAuthorization _ _ = Ok _ |- _ =>
    unfold validateMembershipAuthorization in E; inv_ok E; breflect end.
  constructor; try done.
  - match goal with E : membership_usable _ = Ok ?x |- _ => by destruct x end.
  - split_and!; [done|lia|done].
  - destruct (ma_Authority v). cbn in *. congruence.
  - by apply is_ok_unit.
  - congruence.
  - lia.
  - eauto.
Qed.

(** [v] is the signature of the current authority over one transfer. *)
Record transfers (current : Authority) (prior next : Membership) (v : AuthorityTransfer) (d e : Delegation) (now : time)
    : Prop := {
  tf_from : at_From v = current /\ current = MkAuthority (dg_AgentID d) (dg_EndpointID d);
  tf_to : at_To v = MkAuthority (dg_AgentID e) (dg_EndpointID e) /\ Authority_Validate (at_To v) = Ok tt;
  tf_live : live_delegation d now /\ live_delegation e now;
  tf_bound : mb_RoomID prior = mb_RoomID next /\ at_RoomID v = mb_RoomID next /\ at_PriorEpoch v = mb_Epoch prior /\
    at_NextEpoch v = mb_Epoch next /\ at_PriorMembershipDigest v = mb_Digest prior /\
    at_NextMembershipDigest v = mb_Digest next;
  tf_usable : membership_usable prior = Ok tt /\ membership_usable next = Ok tt;
  tf_members : au_AgentID current ∈ mb_Members prior /\ au_AgentID (at_To v) ∈ mb_Members next;
  tf_window : at_IssuedAtUnix v <= now < at_ExpiresAtUnix v;
  tf_signed : exists preimage, AuthorityTransferSigningBytes v = Ok preimage /\
    ed25519_Verify (dg_IdentityPublicKey d) preimage (at_CurrentEndpointSignature v) = true;
}.

Lemma VerifyAuthorityTransfer_sound current prior next v d e now u :
  VerifyAuthorityTransfer current prior next v d e now = Ok u -> transfers current prior next v d e now.
Proof.
  unfold VerifyAuthorityTransfer. intros H. inv_ok H. breflect. unfold Contains in *. breflect.
  repeat match goal with E : verifyAuthorityDelegation _ _ = Ok _ |- _ => apply verifyAuthorityDelegation_live in E end.
  match goal with E : validateAuthorityTransfer _ _ = Ok _ |- _ =>
    unfold validateAuthorityTransfer in E; inv_ok E; breflect end.
  repeat match goal with E : membership_usable _ = Ok ?x |- _ => is_var x; destruct x end.
  constructor; try done.
  - split; [done|]. destruct current. subst. cbn in *. destruct (at_From v). cbn in *. congruence.
  - split; [destruct (at_To v); cbn in *; congruence|by apply is_ok_unit].
  - split_and!; try done; try congruence; lia.
  - split; [congruence|done].
  - lia.
  - eauto.
Qed.

(** [p] is signed by the current authority for exactly the membership [m]. *)
Record policy_current (p : RolePolicy) (m : Membership) (current : Authority) (d : Delegation) (now : time) : Prop := {
  pc_valid : validateRolePolicy p true = Ok tt;
  pc_bound : bound_to p m;
  pc_actor : rp_Authority p = current /\ current = MkAuthority (dg_AgentID d) (dg_EndpointID d);
  pc_live : live_delegation d now;
  pc_window : rp_IssuedAtUnix p <= now < rp_ExpiresAtUnix p;
  pc_members : forall a, a ∈ rp_Assignments p -> ra_AgentID a ∈ mb_Members m;
  pc_admin : RoleOf p (au_AgentID current) = RoleAdministrator;
  pc_signed : exists preimage, RolePolicySigningBytes p = Ok preimage /\
    ed25519_Verify (dg_IdentityPublicKey d) preimage (rp_EndpointSignature p) = true;
}.

Lemma Announce_inv m c : Announce m = Ok c ->
  membership_usable m = Ok tt /\ c = MkCommit (mb_RoomID m) (mb_Epoch m) (mb_Digest m) (u32 (Z.of_nat (length (mb_Members m)))).
Proof.
  unfold Announce. intros H. inv_ok H. apply Ok_inj in H as <-. split; [|done].
  match goal with E : membership_usable _ = Ok ?x |- _ => by destruct x end.
Qed.

Lemma VerifyRolePolicy_sound p m current d now u :
  VerifyRolePolicy p m current d now = Ok u -> policy_current p m current d now.
Proof.
  unfold VerifyRolePolicy. intros H. inv_ok H. breflect.
  match goal with E : verifyAuthorityDelegation _ _ = Ok _ |- _ => apply verifyAuthorityDelegation_live in E end.
  match goal with E : Announce _ = Ok _ |- _ => apply Announce_inv in E as [? ->] end.
  match goal with E : validateRolePolicy _ _ = Ok ?x |- _ => destruct x end.
  match goal with E : existsb _ _ = false |- _ => apply existsb_false in E; rewrite Forall_forall in E; rename E into Hm end.
  constructor; try done.
  - unfold bound_to. cbn [rc_MembershipDigest] in *. split_and!; [done|lia|done].
  - split; [done|]. subst. destruct (rp_Authority p). cbn in *. congruence.
  - lia.
  - intros a Ha. specialize (Hm a Ha). unfold Contains in Hm. by breflect.
  - congruence.
  - eauto.
Qed.
End Verified.

(** ** Histories *)

Section History.
  Context `{Ed : Ed25519}.

Definition recorded (s : RoomFiles) (roomID : string) (r : RoomRecord) : Prop :=
  RoomLedger_read (rf_rooms s) roomID = Ok (Some r).

(** One epoch to the next. *)
Inductive succession (r r' : RoomRecord) : Prop :=
  | succeed_members v d now :
      authorizes (record_membership r') v d now ->
      ma_Authority v = record_authority r -> record_authority r' = record_authority r ->
      (exists m, m ∈ rr_Members r /\ m ∉ rr_Members r' \/ m ∈ rr_Members r' /\ m ∉ rr_Members r) ->
      succession r r'
  | succeed_authority v d e now :
      transfers (record_authority r) (record_membership r) (record_membership r') v d e now ->
      record_authority r' = at_To v -> succession r r'.

Definition advanced (r r' : RoomRecord) : Prop :=
  rr_RoomID r' = rr_RoomID r /\ rr_Epoch r' = rr_Epoch r + 1 /\ succession r r'.

(** The first epoch of a room is signed by its founding authority. *)
Definition founded (r : RoomRecord) : Prop :=
  rr_Epoch r = 1 /\ exists v d now, authorizes (record_membership r) v d now /\ record_authority r = ma_Authority v.

(** A record that reads back. *)
Record readable (r : RoomRecord) : Prop := {
  rd_schema : rr_Schema r = RoomRecordSchema;
  rd_authority : Authority_Validate (record_authority r) = Ok tt;
  rd_delegation : exists d n, rr_AuthorityDelegation r = Some d /\ dg_Network d = Some n /\
    dg_AgentID d = rr_AuthorityAgentID r /\ dg_EndpointID d = rr_AuthorityEndpointID r;
  rd_usable : membership_usable (record_membership r) = Ok tt;
  rd_member : rr_AuthorityAgentID r ∈ rr_Members r;
}.

Lemma recorded_iff s roomID r :
  recorded s roomID r <-> rf_rooms s !! room_path roomID = Some (ERec r) /\ rr_RoomID r = roomID /\ readable r.
Proof.
  unfold recorded, RoomLedger_read. split.
  - destruct (rf_rooms s !! room_path roomID) as [[]|] eqn:E; try done. intros H. inv_ok H. apply Ok_inj in H as [= <-].
    breflect. split_and!; try done. constructor; try done.
    + match goal with E : Authority_Validate _ = Ok ?x |- _ => by destruct x end.
    + unfold decodeRoomAuthorityDelegation in *. destruct (rr_AuthorityDelegation a) as [d|]; [|done].
      destruct (dg_Network d) as [n|] eqn:En; [|done]. breflect. by exists d, n.
    + apply usable_iff. match goal with E : room_Digest _ _ _ = Ok _ |- _ => apply room_Digest_iff in E end. cbn. congruence.
  - intros (-> & <- & [Hs Ha (d & n & Hd & Hn & H1 & H2) Hu Hm]). rewrite Hs, !String.eqb_refl, Ha. cbn [negb orb].
    unfold decodeRoomAuthorityDelegation. rewrite Hd, Hn. cbn [record_authority au_AgentID au_EndpointID].
    rewrite H1, H2, !String.eqb_refl. cbn [negb orb].
    apply usable_iff in Hu. cbn in Hu. rewrite (proj2 (room_Digest_iff _ _ _ _) Hu), String.eqb_refl. cbn [negb].
    by rewrite bool_decide_true.
Qed.

Lemma diff_none prior next :
  (length (diffMembers prior next).1 =? 0)%nat && (length (diffMembers prior next).2 =? 0)%nat = false ->
  exists m, m ∈ prior /\ m ∉ next \/ m ∈ next /\ m ∉ prior.
Proof.
  unfold diffMembers. cbn [fst snd]. destruct (base.filter _ next) as [|x l] eqn:E1; cbn [length Nat.eqb andb].
  - destruct (base.filter _ prior) as [|x l] eqn:E2; [done|]. intros _. exists x. left.
    assert (x ∈ base.filter (fun m => m ∉ next) prior) as Hx by (rewrite E2; left). apply list_elem_of_filter in Hx. tauto.
  - intros _. exists x. right.
    assert (x ∈ base.filter (fun m => m ∉ prior) next) as Hx by (rewrite E1; left). apply list_elem_of_filter in Hx. tauto.
Qed.

Lemma next_is_succ e n : 0 <= e -> (n <=? e) = false -> (n =? u64 (e + 1)) = true -> n = e + 1.
Proof.
  intros He H1 H2. apply Z.leb_gt in H1. apply Z.eqb_eq in H2. unfold u64 in H2.
  pose proof (Z.mod_le (e + 1) (2 ^ 64)). lia.
Qed.

(** What a step does to the room files: nothing, or one record that reads back and
    follows from the one before. *)
Definition room_change (files files' : directory RoomRecord) : Prop :=
  files' = files \/
  exists r, files' = <[room_path (rr_RoomID r) := ERec r]> files /\ readable r /\
    match RoomLedger_read files (rr_RoomID r) with
    | Ok None => founded r
    | Ok (Some prior) => 0 <= rr_Epoch prior -> advanced prior r
    | Err _ => False
    end.

Lemma write_room_files w roomID r t s res s' :
  write_room w roomID r t s = (res, s') ->
  rf_roles s' = rf_roles s /\ rf_journal s' = rf_journal s /\
  (rf_rooms s' = rf_rooms s \/ rf_rooms s' = <[room_path roomID := ERec r]> (rf_rooms s)).
Proof.
  unfold write_room. destruct (file_replace _ _ _ _) as [x files] eqn:E.
  apply file_replace_cases in E as [[-> _]|[-> _]]; destruct x; intros [= <- <-]; cbn; auto.
Qed.

Lemma advance_change w next v d now s res s' :
  RoomLedger_Advance w next v d now s = (res, s') ->
  room_change (rf_rooms s) (rf_rooms s') /\ rf_roles s' = rf_roles s /\ rf_journal s' = rf_journal s.
Proof.
  unfold RoomLedger_Advance. match goal with |- match ?c with _ => _ end = _ -> _ => destruct c as [[r t]|] eqn:J end.
  2:{ intros [= _ <-]. split_and!; try done. by left. }
  intros (Hro & Hj & Hw)%write_room_files. split_and!; try done. destruct Hw as [-> | ->]; [by left|right].
  inv_ok J.
  match goal with E : VerifyMembershipAuthorization _ _ _ _ = Ok _ |- _ => apply VerifyMembershipAuthorization_sound in E as Haz end.
  match goal with E : Announce _ = Ok _ |- _ => apply Announce_inv in E as [_ ->] end.
  destruct (live_network _ _ (az_live _ _ _ _ Haz)) as [n Hn]. pose proof (az_actor _ _ _ _ Haz) as Hact.
  match goal with E : diffMembers _ _ = (?x, ?y) |- _ => rename E into Ediff end.
  apply Ok_inj in J. injection J as <- <-. rewrite Hact in *. cbn [au_AgentID au_EndpointID rc_MembershipDigest] in *.
  match goal with |- exists r, <[_ := ERec ?x]> _ = _ /\ _ => exists x end. cbn [rr_RoomID]. split; [done|].
  assert (next = MkMembership (mb_RoomID next) (mb_Epoch next) (mb_Members next) (mb_Digest next)) as Enext by (by destruct next).
  split.
  { constructor; cbn; try done.
    - unfold record_authority. cbn. rewrite <- Hact. apply Haz.
    - by exists d, n.
    - unfold record_membership. cbn. rewrite <- Enext. apply Haz.
    - apply Haz. }
  match goal with E : RoomLedger_read _ _ = Ok _ |- _ => rewrite E; rename E into Hread end.
  match goal with E : judge_successor _ _ _ = Ok _ |- _ => rename E into Hjs end. 
  match type of Hjs with judge_successor ?x _ _ = _ => destruct x as [prior|] end; cbn [judge_successor] in Hjs; inv_ok Hjs;
    apply Ok_inj in Hjs as <-; breflect; cbn [au_AgentID au_EndpointID] in *.
  - intros He. split_and!; [cbn; congruence|cbn; by apply next_is_succ|].
    apply succeed_members with v d now; cbn; try done.
    + unfold record_membership. cbn. by rewrite <- Enext.
    + rewrite Hact. unfold record_authority. congruence.
    + unfold record_authority. cbn. congruence.
    + apply diff_none. by rewrite Ediff.
  - split; [cbn; lia|]. exists v, d, now. unfold record_membership, record_authority. cbn. rewrite <- Enext. split; [done|]. by rewrite Hact.
Qed.

Lemma authority_eta a : MkAuthority (au_AgentID a) (au_EndpointID a) = a.
Proof. by destruct a. Qed.

Lemma transfer_change w next v d e now s res s' :
  TransferAuthority w next v d e now s = (res, s') ->
  room_change (rf_rooms s) (rf_rooms s') /\ rf_roles s' = rf_roles s /\ rf_journal s' = rf_journal s.
Proof.
  unfold TransferAuthority. match goal with |- match ?c with _ => _ end = _ -> _ => destruct c as [[r t]|] eqn:J end.
  2:{ intros [= _ <-]. split_and!; try done. by left. }
  intros (Hro & Hj & Hw)%write_room_files. split_and!; try done. destruct Hw as [-> | ->]; [by left|right].
  inv_ok J. breflect.
  match goal with E : VerifyAuthorityTransfer _ _ _ _ _ _ _ = Ok _ |- _ => apply VerifyAuthorityTransfer_sound in E as Htf end.
  apply Ok_inj in J. injection J as <- <-.
  destruct (live_network _ _ (proj2 (tf_live _ _ _ _ _ _ _ Htf))) as [n Hn].
  destruct (tf_to _ _ _ _ _ _ _ Htf) as [Hto Hval].
  assert (next = MkMembership (mb_RoomID next) (mb_Epoch next) (mb_Members next) (mb_Digest next)) as Enext by (by destruct next).
  match goal with |- exists r, <[_ := ERec ?x]> _ = _ /\ _ => exists x end. cbn [rr_RoomID]. split; [done|]. split.
  { constructor; cbn; try done.
    - exists e, n. by rewrite Hto.
    - unfold record_membership. cbn. rewrite <- Enext. apply Htf.
    - apply Htf. }
  match goal with E : RoomLedger_read _ _ = Ok _ |- _ => rewrite E; rename E into Hread end.
  intros He. split_and!; cbn.
  - apply recorded_iff in Hread. symmetry. apply Hread.
  - by apply next_is_succ.
  - apply succeed_authority with v d e now; [|apply authority_eta].
    unfold record_membership at 2. cbn. by rewrite <- Enext.
Qed.

Inductive room_op : Type :=
  | OpAdvance (w : write_outcome) (next : Membership) (v : MembershipAuthorization) (d : Delegation) (now : time)
  | OpTransfer (w : write_outcome) (next : Membership) (v : AuthorityTransfer) (d e : Delegation) (now : time)
  | OpRoles (w : write_outcome) (p : RolePolicy) (d : Delegation) (now : time).

Definition room_step (s : RoomFiles) (o : room_op) : RoomFiles :=
  match o with
  | OpAdvance w next v d now => (RoomLedger_Advance w next v d now s).2
  | OpTransfer w next v d e now => (TransferAuthority w next v d e now s).2
  | OpRoles w p d now => (RoleLedger_Advance w p d now s).2
  end.
Definition room_run (ops : list room_op) (s : RoomFiles) : RoomFiles := fold_left room_step ops s.

(** What a step does to the role files. *)
Definition role_change (rooms : directory RoomRecord) (files files' : directory RolePolicy) : Prop :=
  files' = files \/
  exists p r d now, files' = <[roles_path (rp_RoomID p) := ERec p]> files /\
    RoomLedger_read rooms (rp_RoomID p) = Ok (Some r) /\
    policy_current p (record_membership r) (record_authority r) d now /\
    match RoleLedger_read files (rp_RoomID p) with
    | Ok None => rp_Revision p = 1
    | Ok (Some prior) => 0 <= rp_Revision prior -> rp_Revision p = rp_Revision prior + 1
    | Err _ => False
    end.

Lemma roles_change w p d now s res s' :
  RoleLedger_Advance w p d now s = (res, s') ->
  role_change (rf_rooms s) (rf_roles s) (rf_roles s') /\ rf_rooms s' = rf_rooms s /\ rf_journal s' = rf_journal s.
Proof.
  unfold RoleLedger_Advance. match goal with |- match ?c with _ => _ end = _ -> _ => destruct c as [u|] eqn:J end.
  2:{ intros [= _ <-]. split_and!; try done. by left. }
  destruct (file_replace _ _ _ _) as [x files] eqn:E. intros H.
  assert (s' = with_roles s files) as -> by (by destruct x; injection H as _ ->). cbn. split_and!; try done.
  apply file_replace_cases in E as [[-> _]|[-> _]]; [by left|right]. inv_ok J.
  match goal with E : RoomLedger_read _ _ = Ok (Some ?r) |- _ => exists p, r, d, now; split_and!; try done end.
  - match goal with E : VerifyRolePolicy _ _ _ _ _ = Ok _ |- _ => by apply VerifyRolePolicy_sound in E end.
  - match goal with E : RoleLedger_read _ _ = Ok _ |- _ => rewrite E end.
    match goal with E : judge_revision ?x _ = Ok _ |- _ => destruct x as [prior|]; cbn [judge_revision] in E; inv_ok E end.
    + breflect. intros. by apply next_is_succ.
    + breflect. lia.
Qed.

Lemma room_step_change s o : room_change (rf_rooms s) (rf_rooms (room_step s o)).
Proof.
  destruct o; cbn [room_step].
  - destruct (RoomLedger_Advance _ _ _ _ _ s) as [res s'] eqn:E. apply advance_change in E. apply E.
  - destruct (TransferAuthority _ _ _ _ _ _ s) as [res s'] eqn:E. apply transfer_change in E. apply E.
  - destruct (RoleLedger_Advance _ _ _ _ s) as [res s'] eqn:E. apply roles_change in E as (_ & E & _). cbn [snd]. rewrite E. by left.
Qed.

Lemma room_path_inj a b : ids_Room a = true -> ids_Room b = true -> room_path a = room_path b -> a = b.
Proof. apply (prefixed_path_inj "room_" ".json"). Qed.

Lemma readable_room r : readable r -> ids_Room (rr_RoomID r) = true.
Proof. intros [_ _ _ Hu _]. apply usable_iff in Hu. apply Hu. Qed.

Lemma change_recorded s s' roomID r :
  room_change (rf_rooms s) (rf_rooms s') -> recorded s roomID r -> 0 <= rr_Epoch r ->
  exists r', recorded s' roomID r' /\ (r' = r \/ advanced r r').
Proof.
  intros Hc Hr He. pose proof Hr as (Hl & Hid & Hrd)%recorded_iff. destruct Hc as [E|(n & E & Hn & Hm)].
  { exists r. split; [|by left]. unfold recorded in *. by rewrite E. }
  destruct (decide (rr_RoomID n = roomID)) as [En|En].
  - rewrite En in *. exists n. split; [apply recorded_iff; split_and!; [by rewrite E, lookup_insert_eq|done|done]|right].
    unfold recorded in Hr. rewrite Hr in Hm. auto.
  - exists r. split; [|by left]. apply recorded_iff. split_and!; try done. rewrite E, lookup_insert_ne; [done|].
    intros Ep. apply En, room_path_inj; [by apply readable_room|by rewrite <- Hid; apply readable_room|done].
Qed.

Lemma history ops s roomID r :
  recorded s roomID r -> 0 <= rr_Epoch r ->
  exists r', recorded (room_run ops s) roomID r' /\ rtc advanced r r' /\ rr_Epoch r <= rr_Epoch r'.
Proof.
  revert s r. induction ops as [|o ops IH]; intros s r Hr He; cbn [room_run fold_left].
  { by exists r. }
  destruct (change_recorded s (room_step s o) roomID r (room_step_change s o) Hr He) as (r1 & Hr1 & H1).
  assert (rr_Epoch r <= rr_Epoch r1) as Hle by (destruct H1 as [->|(_ & H & _)]; lia).
  destruct (IH (room_step s o) r1 Hr1 ltac:(lia)) as (r' & Hr' & Hrtc & Hle'). exists r'. split_and!; try done; [|lia].
  destruct H1 as [->|H1]; [done|]. by apply rtc_l with r1.
Qed.

(** Under any sequence of membership changes, authority transfers and role
    changes, whatever their writes do, the record of a room is never lost, becomes
    unreadable or goes back: it reaches its current form through single epochs, each
    either signed by the authority on record for a changed member set, or a transfer
    signed by that authority for exactly the two memberships; and whatever is found for
    a room that had no file starts at epoch 1, signed by its founding authority. *)
Theorem room_history ops s roomID :
  (forall r, recorded s roomID r -> is_u64 (rr_Epoch r) ->
     exists r', recorded (room_run ops s) roomID r' /\ rtc advanced r r' /\ rr_Epoch r <= rr_Epoch r') /\
  (forall r', ids_Room roomID = true -> rf_rooms s !! room_path roomID = None -> recorded (room_run ops s) roomID r' ->
     exists r0, founded r0 /\ rtc advanced r0 r').
Proof.
  split; [intros r Hr [He _]; by apply history|]. revert s.
  induction ops as [|o ops IH]; intros s r' Hid Hnone Hr'; cbn [room_run fold_left] in Hr'.
  { apply recorded_iff in Hr' as (Hl & _). congruence. }
  destruct (rf_rooms (room_step s o) !! room_path roomID) as [x|] eqn:Hx; [|by apply (IH (room_step s o))].
  destruct (room_step_change s o) as [E|(n & E & Hn & Hm)]; [congruence|].
  rewrite E in Hx. destruct (decide (rr_RoomID n = roomID)) as [En|En].
  2:{ rewrite lookup_insert_ne in Hx; [congruence|]. intros Ep. by apply En, room_path_inj; [apply readable_room|..]. }
  rewrite En in *. assert (RoomLedger_read (rf_rooms s) roomID = Ok None) as Hread by (unfold RoomLedger_read; by rewrite Hnone).
  rewrite Hread in Hm. exists n. split; [done|].
  assert (recorded (room_step s o) roomID n) as Hrec.
  { apply recorded_iff. split_and!; try done. by rewrite E, lookup_insert_eq. }
  destruct Hm as [He _]. destruct (history ops _ _ _ Hrec ltac:(lia)) as (r1 & Hr1 & Hrtc & _).
  unfold recorded in Hr1. unfold room_run in Hr1. unfold recorded in Hr'. rewrite Hr1 in Hr'. apply Ok_inj in Hr' as [= <-]. done.
Qed.

(** A membership that was verified but is not the successor of the recorded
    epoch leaves the ledger as it is: an epoch at or below the recorded one is refused as a
    rollback and one beyond the next as a gap, so that no replay of an earlier epoch,
    however well signed, brings it back. *)
Theorem room_replay_refused w next v d now s r :
  journal_usable (rf_journal s) = Ok tt -> VerifyMembershipAuthorization next v d now = Ok tt ->
  is_ok (Announce next) = true -> recorded s (mb_RoomID next) r -> is_u64 (rr_Epoch r) -> rr_Epoch r < u64_max ->
  mb_Epoch next <> rr_Epoch r + 1 ->
  RoomLedger_Advance w next v d now s =
    (Err (if mb_Epoch next <=? rr_Epoch r then ErrRoomRollback else ErrRoomGap), s).
Proof.
  intros Hj Hv Ha Hr He Hlt Hne. pose proof Hr as (_ & Hid & _)%recorded_iff. unfold recorded in Hr.
  pose proof (VerifyMembershipAuthorization_sound _ _ _ _ _ Hv) as Haz. unfold RoomLedger_Advance.
  rewrite Hj, Hv, Hr. destruct (Announce next) as [c|]; [|done].
  assert (time_invalid now = false) as ->.
  { destruct (az_live _ _ _ _ Haz) as [Hnow _]. unfold time_invalid, zero_time_unix. lia. }
  cbn [judge_successor]. rewrite Hid, String.eqb_refl. cbn [negb].
  destruct (mb_Epoch next <=? rr_Epoch r) eqn:El; [done|]. unfold is_u64, u64_max in *.
  rewrite (proj2 (Z.eqb_neq (mb_Epoch next) _)); [done|]. unfold u64. by rewrite Z.mod_small by lia.
Qed.

(** An elevated power is granted only on the strength of the policy on record,
    and only while that policy stands: it must be signed by the room's current authority, under
    a live delegation and inside its window, for exactly the membership now recorded, and
    the agent must be a member whose role permits the action.  So a change of
    membership or of authority suspends every role until a new revision is signed. *)
Theorem roles_stand s roomID agentID act d now :
  AllowsCurrent s roomID agentID act d now = Ok true ->
  exists p r, RoleLedger_read (rf_roles s) roomID = Ok (Some p) /\ recorded s roomID r /\
    policy_current p (record_membership r) (record_authority r) d now /\
    rp_MembershipEpoch p = rr_Epoch r /\ agentID ∈ rr_Members r /\ role_permits (role_lookup p agentID) act.
Proof.
  unfold AllowsCurrent. intros H. inv_ok_step H. inv_ok_step H. inv_ok_step H.
  destruct a0 as [p|]; [|done]. inv_ok_step H. destruct a0 as [r|]; [|done]. inv_ok H.
  match goal with E : VerifyRolePolicy _ _ _ _ _ = Ok _ |- _ => apply VerifyRolePolicy_sound in E as Hp end.
  apply Ok_inj, Allows_iff in H as (Hm & Hb & Hrole). exists p, r. split_and!; try done.
  - apply Hb.
  - rewrite <- RoleOf_lookup; [done|]. eapply valid_sorted, (pc_valid _ _ _ _ _ Hp).
Qed.
End History.

(** A policy whose identifier is shorter than the prefix [room_] is not refused: the
    path is cut before anything is checked. *)
Lemma short_room_id_panics `{Ed : Ed25519} w p d now s :
  journal_usable (rf_journal s) = Ok tt -> 0 <= now -> slen (rp_RoomID p) < 5 ->
  RoleLedger_Advance w p d now s = (Err panic_slice_bounds, s).
Proof.
  intros Hj Hn Hl. unfold RoleLedger_Advance. rewrite Hj.
  assert (time_invalid now = false) as -> by (unfold time_invalid, zero_time_unix; lia).
  by rewrite (proj2 (Z.ltb_lt _ _)).
Qed.

(** ** Witnesses *)

#[local] Existing Instance toy_ed25519.

Definition sample_authorization (m : Membership) : MembershipAuthorization :=
  let unsigned := MkAuthorization (Some sample_domain) (mb_RoomID m) (mb_Epoch m) (mb_Digest m) sample_authority 1500 3000 [] in
  result_or unsigned (SignMembershipAuthorization unsigned sample_private).
Definition no_rooms : RoomFiles :=
  MkRoomFiles (MkJournal (MkOutbox true ∅) DefaultQuota ∅ ∅ ∅) ∅ ∅.
Definition first_authorization : MembershipAuthorization := Eval vm_compute in sample_authorization sample_first.
Definition second_authorization : MembershipAuthorization := Eval vm_compute in sample_authorization sample_second.
Definition found_op : room_op := OpAdvance WOk sample_first first_authorization sample_delegation 2000.
Definition add_op : room_op := OpAdvance WOk sample_second second_authorization sample_delegation 2000.
Definition one_room : RoomFiles := Eval vm_compute in room_run [found_op] no_rooms.
Definition record_for (m : Membership) : RoomRecord :=
  MkRoomRecord RoomRecordSchema (mb_RoomID m) (mb_Epoch m) (mb_Digest m) (mb_Members m)
    (au_AgentID sample_authority) (au_EndpointID sample_authority) (Some sample_delegation) 2000.

Lemma room_history_witness : exists r0, founded r0 /\ rtc advanced r0 (record_for sample_second).
Proof.
  apply (room_history [found_op; add_op] no_rooms sample_room).
  - vm_compute. reflexivity.
  - vm_compute. reflexivity.
  - vm_compute. reflexivity.
Defined.

Lemma room_replay_refused_witness :
  RoomLedger_Advance WOk sample_first first_authorization sample_delegation 2000 one_room =
    (Err ErrRoomRollback, one_room).
Proof.
  apply (room_replay_refused WOk sample_first first_authorization sample_delegation 2000 one_room
           (record_for sample_first)).
  - vm_compute. reflexivity.
  - vm_compute. reflexivity.
  - vm_compute. reflexivity.
  - vm_compute. reflexivity.
  - vm_compute. split; [discriminate|reflexivity].
  - vm_compute. reflexivity.
  - vm_compute. discriminate.
Defined.

Definition with_policy : RoomFiles := Eval vm_compute in room_run [OpRoles WOk sample_roles sample_delegation 2000] one_room.

Lemma roles_stand_witness : exists p r,
  RoleLedger_read (rf_roles with_policy) sample_room = Ok (Some p) /\ recorded with_policy sample_room r /\
  agent_named "1" ∈ rr_Members r /\ role_permits (role_lookup p (agent_named "1")) ActionModerate.
Proof.
  destruct (roles_stand with_policy sample_room (agent_named "1") ActionModerate sample_delegation 2000)
    as (p & r & Hp & Hr & _ & _ & Hm & Hrole); [vm_compute; reflexivity|].
  exists p, r. split_and!; assumption.
Defined.
