(* ===== verification/Envelope.v ===== *)
(** * Envelopes and events: [pkg/envelope]

    The outer envelope a relay stores ([envelope.go]) and the typed event inside it
    ([event.go]): validation, the canonical form an event identifier commits to, the
    JSON forms of both, and the scope check against a delegation. *)

From S2P Require Import Prelude Encoding Canon Json Money Payload PayloadCodec Identity E2ee.

(** ** The relay envelope ([envelope.go]) *)

Definition RelaySchema : string := "tos.messaging.relay-envelope.v1".
Definition MaxCiphertextBytes : Z := Z.shiftl 1 20.
Definition MinCiphertextBytes : Z := 32.
Definition MaxStorageTokenBytes : Z := 256.
Definition MaxAdmissionTokenBytes : Z := 256.
Definition MaxEnvelopeLifetimeSeconds : Z := 30 * 24 * 60 * 60.

Definition mailboxPattern : string -> bool := prefixed_hex64 "mbx_".
Definition messagePattern : string -> bool := prefixed_hex64 "msg_".
Definition is_upper : ascii -> bool := in_range "A" "Z".
Definition token_char (c : ascii) : bool :=
  is_digit c || is_lower c || is_upper c || Ascii.eqb c "." || Ascii.eqb c "_" || Ascii.eqb c "~" || Ascii.eqb c "-".
Definition storageTokenPattern (s : string) : bool :=
  negb (String.eqb s "") && forallb token_char (list_ascii_of_string s).

Record RelayEnvelope : Type := MkRelay {
  re_OpaqueMailboxID : string;
  re_MessageID : string;
  re_Ciphertext : bytes;
  re_ExpiresAtUnix : Z;
  re_StorageToken : string;
  re_AdmissionToken : string;
}.

Definition ValidateRelay (e : RelayEnvelope) : result unit :=
  refuse negb (mailboxPattern (re_OpaqueMailboxID e)) with NewError "invalid opaque mailbox identifier";
  refuse negb (messagePattern (re_MessageID e)) with NewError "invalid relay message identifier";
  refuse (blen (re_Ciphertext e) <? MinCiphertextBytes) || (MaxCiphertextBytes <? blen (re_Ciphertext e))
    with NewError "relay envelope ciphertext is outside its bounds";
  refuse IsZero (re_Ciphertext e) with NewError "relay envelope ciphertext is empty";
  refuse re_ExpiresAtUnix e =? 0 with NewError "relay envelope has no expiry";
  refuse negb (String.eqb (re_StorageToken e) "")
         && ((MaxStorageTokenBytes <? slen (re_StorageToken e)) || negb (storageTokenPattern (re_StorageToken e)))
    with NewError "invalid relay envelope storage token";
  refuse negb (String.eqb (re_AdmissionToken e) "")
         && ((MaxAdmissionTokenBytes <? slen (re_AdmissionToken e)) || negb (storageTokenPattern (re_AdmissionToken e)))
    with NewError "invalid relay envelope admission token";
  Ok tt.

Definition wireRelayEnvelope : list (string * jkind) :=
  [("schema", JK_String); ("opaque_mailbox_id", JK_String); ("message_id", JK_String); ("ciphertext_base64", JK_String);
   ("ciphertext_size", JK_Uint 32); ("expires_at_unix", JK_Uint 64); ("storage_token", JK_String);
   ("admission_token", JK_String)].
(** The fields marked [omitempty]. *)
Definition relay_omit (name : string) : bool := String.eqb name "storage_token" || String.eqb name "admission_token".

Definition relay_vals (e : RelayEnvelope) : list jval :=
  [VString RelaySchema; VString (re_OpaqueMailboxID e); VString (re_MessageID e); VString (b64_encode (re_Ciphertext e));
   VUint (u32 (blen (re_Ciphertext e))); VUint (re_ExpiresAtUnix e); VString (re_StorageToken e);
   VString (re_AdmissionToken e)].

Definition EncodeRelayJSON (e : RelayEnvelope) : result bytes :=
  call ValidateRelay e;
  Ok (marshal_struct relay_omit wireRelayEnvelope (relay_vals e)).

Definition DecodeRelayJSON (raw : bytes) : result RelayEnvelope :=
  match decode_struct wireRelayEnvelope raw with
  | Decoded [VString schema; VString mailbox; VString message; VString ciphertext64; VUint size; VUint expires;
             VString storage; VString admission] =>
      refuse negb (String.eqb schema RelaySchema) with NewError "unsupported relay envelope schema";
      match b64_decode ciphertext64 with
      | None => Err (NewError "invalid relay envelope ciphertext")
      | Some ciphertext =>
          refuse negb (u32 (blen ciphertext) =? size)
            with NewError "relay envelope size does not match its ciphertext";
          let e := MkRelay mailbox message ciphertext expires storage admission in
          call ValidateRelay e;
          Ok e
      end
  | Trailing => Err (NewError "relay envelope has trailing JSON")
  | _ => Err (NewError "json")
  end.

(** A [time.Duration] is its count of nanoseconds. *)
Definition nanoseconds : Z := 1000000000.

Definition AcceptedForStorage (e : RelayEnvelope) (now : time) (maxRetention : Z) : result unit :=
  refuse now =? zero_time_unix with NewError "invalid relay storage time";
  call ValidateRelay e;
  refuse now <? 0 with NewError "invalid relay storage time";
  refuse re_ExpiresAtUnix e <=? now with NewError "relay envelope is already expired";
  let retention := re_ExpiresAtUnix e - now in
  refuse MaxEnvelopeLifetimeSeconds <? retention with NewError "relay envelope exceeds the protocol retention bound";
  refuse maxRetention <=? 0 with NewError "invalid relay retention bound";
  refuse Z.quot maxRetention nanoseconds <? retention
    with NewError "relay envelope exceeds the operator retention bound";
  Ok tt.

Definition MailboxID (raw : bytes) : result string := ids_Format "mbx_" raw.
Definition MessageID (raw : bytes) : result string := ids_Format "msg_" raw.

(** ** Events ([event.go]) *)

Definition EventSchema : string := "tos.messaging.event.v2".
Definition MaxContentBytes : Z := Z.shiftl 128 10.
Definition MaxCausalParents : Z := 16.
Definition MaxAttachmentReferences : Z := 16.
Definition MaxRenderingBytes : Z := Z.shiftl 4 10.
Definition DomainEventID : string := "tos.messaging.event-id.v2" +:+ NUL.

Definition threadPattern : string -> bool := prefixed_hex64 "thr_".
Definition event_idempotencyPattern : string -> bool := hex64.
Definition bindingPattern (s : string) : bool := prefixed_hex64 "sha256:" s || prefixed_hex64 "tvm-cell-sha256:" s.

(** Labels separated by dots; each starts with a lower-case letter and goes on with
    lower-case letters and digits, and every label but the first may go on with runs of
    these after hyphens.  [first] says that no dot was read yet, and the state what the
    next byte may be. *)
Inductive kind_state : Type := KindLabel | KindRest | KindHyphen.
Fixpoint kind_from (first : bool) (state : kind_state) (s : string) : bool :=
  match s with
  | EmptyString => match state with KindRest => true | _ => false end
  | String c rest =>
      match state with
      | KindLabel => is_lower c && kind_from first KindRest rest
      | KindHyphen => (is_lower c || is_digit c) && kind_from first KindRest rest
      | KindRest =>
          if Ascii.eqb c "." then kind_from false KindLabel rest
          else if Ascii.eqb c "-" then negb first && kind_from first KindHyphen rest
          else (is_lower c || is_digit c) && kind_from first KindRest rest
      end
  end.
Definition eventKindPattern : string -> bool := kind_from true KindLabel.

(** A name of 1 to 48 lower-case letters, digits and hyphens, and a version of 1 to 3 digits. *)
Fixpoint span_chars (p : ascii -> bool) (s : string) : nat * string :=
  match s with
  | String c rest => if p c then let '(n, tail) := span_chars p rest in (S n, tail) else (O, s)
  | EmptyString => (O, s)
  end.
Definition payloadSchemaPattern (s : string) : bool :=
  match strip_prefix "tos.messaging.payload." s with
  | None => false
  | Some rest =>
      let '(n, tail) := span_chars (fun c => is_lower c || is_digit c || Ascii.eqb c "-") rest in
      (1 <=? n)%nat && (n <=? 48)%nat &&
      match strip_prefix ".v" tail with
      | None => false
      | Some digits =>
          let '(m, stop) := span_chars is_digit digits in
          (1 <=? m)%nat && (m <=? 3)%nat && String.eqb stop ""
      end
  end.

Record kindSpec : Type := MkKindSpec { ks_class : string; ks_localOnly : bool }.

Definition eventKinds : list (string * kindSpec) :=
  let kind name class := (name, MkKindSpec class false) in
  let local name class := (name, MkKindSpec class true) in
  [kind "text" "text";
   kind "conversation.invite" "conversation";
   kind "conversation.accept" "conversation";
   kind "presence.hint" "presence";
   kind "agent.gift.address-request" "agent.gift";
   kind "agent.gift.address-response" "agent.gift";
   kind "agent.gift.signed-boc-offer" "agent.gift";
   kind "agent.task.request" "agent.task";
   kind "agent.task.progress" "agent.task";
   kind "agent.task.result" "agent.task";
   kind "agent.task.status.request" "agent.task";
   kind "negotiation.proposal" "negotiation";
   kind "negotiation.counterproposal" "negotiation";
   kind "negotiation.withdraw" "negotiation";
   kind "negotiation.intent.accept" "negotiation";
   kind "negotiation.intent.reject" "negotiation";
   kind "agreement.propose" "agreement";
   kind "intent.application" "negotiation";
   kind "agreement.accept" "agreement";
   kind "agreement.evidence" "agreement";
   kind "agreement.withdraw" "agreement";
   kind "agreement.delivery" "agreement.delivery";
   kind "agreement.provider-offer" "agreement";
   kind "commerce.profile-event" "commerce.profile";
   kind "operation.outcome" "operation.outcome";
   kind "private.handoff.challenge" "private.handoff";
   kind "private.handoff.authorization" "private.handoff";
   kind "private.handoff.acknowledgement" "private.handoff";
   kind "private.handoff.status" "private.handoff";
   kind "private.handoff.delete" "private.handoff";
   kind "counterparty.approval.request" "counterparty.approval";
   kind "counterparty.approval.granted" "counterparty.approval";
   kind "counterparty.approval.denied" "counterparty.approval";
   local "owner.approval.grant" "owner.approval";
   local "owner.approval.deny" "owner.approval";
   kind "a2a.message" "a2a";
   kind "mcp.call" "mcp";
   kind "mcp.result" "mcp";
   kind "agent.packet" "agent.packet";
   kind "artifact.offer" "artifact";
   kind "artifact.reference" "artifact";
   kind "artifact.encrypted" "artifact";
   kind "service.quote.reference" "service";
   kind "service.escrow.reference" "service";
   kind "service.receipt.reference" "service";
   kind "delivery.ack" "delivery";
   kind "application.ack" "application";
   kind "read.ack" "read";
   kind "device.history.segment" "device.sync";
   kind "room.invite" "room";
   kind "room.membership.commit" "room";
   kind "room.message" "room";
   kind "room.moderation" "room"].

Definition ClassOf (kind : string) : option string := ks_class <$> assoc kind eventKinds.
Definition LocalOnly (kind : string) : bool :=
  match assoc kind eventKinds with Some spec => ks_localOnly spec | None => false end.
Definition direct_kinds : list string :=
  ["agent.gift.address-request"; "agent.gift.address-response"; "agent.gift.signed-boc-offer";
   "agreement.propose"; "agreement.accept"; "agreement.evidence"; "agreement.withdraw"; "agreement.delivery";
   "agreement.provider-offer";
   "private.handoff.challenge"; "private.handoff.authorization"; "private.handoff.acknowledgement";
   "private.handoff.status"; "private.handoff.delete"].
Definition RequiresEstablishedDirect (kind : string) : bool := bool_decide (kind ∈ direct_kinds).
Definition KnownKinds : list string := List.map fst eventKinds.

Record Event : Type := MkEvent {
  ev_Network : option NetworkDomain;
  ev_ConversationID : string;
  ev_EventID : string;
  ev_SenderAgentID : string;
  ev_SenderEndpointID : string;
  ev_SenderDeviceID : string;
  ev_RoomID : string;
  ev_ThreadID : string;
  ev_ReplyToEventID : string;
  ev_CausalParents : list string;
  ev_CreatedAtUnix : Z;
  ev_ExpiresAtUnix : Z;
  ev_Kind : string;
  ev_PayloadSchema : string;
  ev_IdempotencyKey : string;
  ev_Content : bytes;
  ev_Rendering : string;
  ev_AttachmentReferences : list string;
  ev_ServiceBinding : string;
}.

(** Sorted and unique, each of a pattern: the loops of [validateCausalParents] and
    [validateAttachments]. *)
Fixpoint check_parents (eventID : string) (previous : option string) (parents : list string) : result unit :=
  match parents with
  | [] => Ok tt
  | parent :: rest =>
      refuse negb (ids_Event parent) with NewError "invalid causal parent";
      refuse match previous with Some p => negb (str_ltb p parent) | None => false end
        with NewError "causal parents must be sorted and unique";
      refuse String.eqb parent eventID with NewError "event cannot be its own causal parent";
      check_parents eventID (Some parent) rest
  end.

Definition validateCausalParents (e : Event) : result unit :=
  refuse MaxCausalParents <? Z.of_nat (length (ev_CausalParents e)) with NewError "too many causal parents";
  check_parents (ev_EventID e) None (ev_CausalParents e).

Fixpoint check_references (previous : option string) (references : list string) : result unit :=
  match references with
  | [] => Ok tt
  | reference :: rest =>
      refuse negb (ValidDigest reference) with NewError "invalid attachment reference";
      refuse match previous with Some p => negb (str_ltb p reference) | None => false end
        with NewError "attachment references must be sorted and unique";
      check_references (Some reference) rest
  end.

Definition validateAttachments (references : list string) : result unit :=
  refuse MaxAttachmentReferences <? Z.of_nat (length references) with NewError "too many attachment references";
  check_references None references.

Definition ConversationID (raw : bytes) : result string := ids_Format "conv_" raw.
Definition DeviceID (raw : bytes) : result string := ids_Format "dev_" raw.

Section Events.
  Context `{PR : Protocol} `{AF : AttachmentFormats}.

Definition PayloadSchemaOf (kind : string) : option string :=
  match assoc kind eventKinds with None => None | Some _ => SchemaFor kind end.

(** The checks of an event that carries an encrypted attachment. *)
Definition validate_encrypted_attachment (e : Event) (n : NetworkDomain) : result unit :=
  let* body := DecodeSchema (ev_Kind e) (ev_PayloadSchema e) (ev_Content e) in
  match body with
  | PEncryptedAttachment attachment =>
      refuse negb (bool_decide (ev_AttachmentReferences e = [EncryptedAttachment_ManifestDigest attachment]))
        with NewError "encrypted attachment event does not name its exact manifest";
      if String.eqb (ev_PayloadSchema e) encryptedAttachmentV3Schema then
        let* (grant, _) := FetchAccess attachment in
        refuse negb (String.eqb (gr_NetworkID grant) (nd_NetworkId n))
               || negb (String.eqb (gr_GenesisRootHash grant) (nd_GenesisRootHash n))
               || negb (String.eqb (gr_GenesisFileHash grant) (nd_GenesisFileHash n))
               || negb (String.eqb (gr_AgentID grant) (ev_SenderAgentID e))
               || negb (String.eqb (gr_EndpointID grant) (ev_SenderEndpointID e))
               || (ev_CreatedAtUnix e <? gr_IssuedAtUnix grant)
          with NewError "encrypted attachment fetch authority does not match its sender Event";
        Ok tt
      else Ok tt
  | _ => Err (NewError "encrypted attachment event does not name its exact manifest")
  end.

(** [validateEventFields]; it returns the network domain it checked to be there. *)
Definition validateEventFields (e : Event) : result NetworkDomain :=
  match ev_Network e with
  | None => Err (NewError "invalid event network domain")
  | Some n =>
      refuse String.eqb (nd_NetworkId n) "" || (128 <? slen (nd_NetworkId n))
             || negb (HashPattern (nd_GenesisRootHash n)) || negb (HashPattern (nd_GenesisFileHash n))
        with NewError "invalid event network domain";
      refuse negb (ids_Conversation (ev_ConversationID e)) with NewError "invalid conversation identifier";
      refuse negb (ids_Agent (ev_SenderAgentID e)) || negb (ids_Endpoint (ev_SenderEndpointID e))
             || negb (ids_Device (ev_SenderDeviceID e)) with NewError "invalid event sender identity";
      refuse negb (String.eqb (ev_RoomID e) "") && negb (ids_Room (ev_RoomID e))
        with NewError "invalid event room identifier";
      refuse RequiresEstablishedDirect (ev_Kind e)
             && (negb (String.eqb (ev_RoomID e) "") || negb (String.eqb (ev_Rendering e) "")
                 || negb (Z.of_nat (length (ev_AttachmentReferences e)) =? 0)
                 || negb (String.eqb (ev_ServiceBinding e) ""))
        with NewError "Agent Gift events are opaque direct-only application data";
      refuse negb (String.eqb (ev_ThreadID e) "") && negb (threadPattern (ev_ThreadID e))
        with NewError "invalid event thread identifier";
      refuse negb (String.eqb (ev_ReplyToEventID e) "") && negb (ids_Event (ev_ReplyToEventID e))
        with NewError "invalid event reply reference";
      call validateCausalParents e;
      refuse ev_CreatedAtUnix e =? 0 with NewError "event has no creation time";
      refuse negb (ev_ExpiresAtUnix e =? 0) && (ev_ExpiresAtUnix e <=? ev_CreatedAtUnix e)
        with NewError "event expires before it was created";
      refuse String.eqb (ev_Kind e) "" || (MaxEventClassBytes <? slen (ev_Kind e)) || negb (eventKindPattern (ev_Kind e))
        with NewError "invalid event kind";
      call (match SchemaFor (ev_Kind e) with
            | Some _ =>
                refuse negb (SupportsSchema (ev_Kind e) (ev_PayloadSchema e))
                  with NewError "event payload schema does not match its kind"; Ok tt
            | None =>
                refuse negb (payloadSchemaPattern (ev_PayloadSchema e)) with NewError "invalid event payload schema"; Ok tt
            end);
      refuse MaxRenderingBytes <? slen (ev_Rendering e) with NewError "event rendering exceeds its bound";
      refuse negb (String.eqb (ev_IdempotencyKey e) "") && negb (event_idempotencyPattern (ev_IdempotencyKey e))
        with NewError "invalid event idempotency key";
      refuse MaxContentBytes <? blen (ev_Content e) with NewError "event content exceeds its bound";
      call validateAttachments (ev_AttachmentReferences e);
      call (if String.eqb (ev_Kind e) "artifact.encrypted" then validate_encrypted_attachment e n else Ok tt);
      refuse negb (String.eqb (ev_ServiceBinding e) "") && negb (bindingPattern (ev_ServiceBinding e))
        with NewError "invalid event service binding";
      Ok n
  end.

Definition EventCanonicalBytes (e : Event) : result bytes :=
  let* n := validateEventFields e in
  let buffer := bytes_of_string DomainEventID in
  let buffer := canon_Text buffer EventSchema in
  let buffer := canon_Text buffer (nd_NetworkId n) in
  let* buffer := canon_Hash32 buffer (nd_GenesisRootHash n) in
  let* buffer := canon_Hash32 buffer (nd_GenesisFileHash n) in
  let buffer := canon_Text buffer (ev_ConversationID e) in
  let buffer := canon_Text buffer (ev_SenderAgentID e) in
  let buffer := canon_Text buffer (ev_SenderEndpointID e) in
  let buffer := canon_Text buffer (ev_SenderDeviceID e) in
  let buffer := canon_Text buffer (ev_RoomID e) in
  let buffer := canon_Text buffer (ev_ThreadID e) in
  let buffer := canon_Text buffer (ev_ReplyToEventID e) in
  let buffer := canon_Uint32 buffer (u32 (Z.of_nat (length (ev_CausalParents e)))) in
  let buffer := fold_left canon_Text (ev_CausalParents e) buffer in
  let buffer := canon_Uint64 buffer (ev_CreatedAtUnix e) in
  let buffer := canon_Uint64 buffer (ev_ExpiresAtUnix e) in
  let buffer := canon_Text buffer (ev_Kind e) in
  let buffer := canon_Text buffer (ev_PayloadSchema e) in
  let buffer := canon_Text buffer (ev_IdempotencyKey e) in
  let buffer := canon_Bytes buffer (ev_Content e) in
  let buffer := canon_Text buffer (ev_Rendering e) in
  let buffer := canon_Uint32 buffer (u32 (Z.of_nat (length (ev_AttachmentReferences e)))) in
  let buffer := fold_left canon_Text (ev_AttachmentReferences e) buffer in
  Ok (canon_Text buffer (ev_ServiceBinding e)).

Definition DeriveEventID (e : Event) : result string :=
  let* preimage := EventCanonicalBytes e in
  Ok ("evt_" +:+ digest_hex (canon_Digest preimage)).

Definition ValidateEvent (e : Event) : result unit :=
  refuse negb (ids_Event (ev_EventID e)) with NewError "invalid event identifier";
  let* derived := DeriveEventID e in
  refuse negb (String.eqb (ev_EventID e) derived) with NewError "event identifier does not match its content";
  Ok tt.

Definition set_event_id (id : string) (e : Event) : Event :=
  MkEvent (ev_Network e) (ev_ConversationID e) id (ev_SenderAgentID e) (ev_SenderEndpointID e) (ev_SenderDeviceID e)
    (ev_RoomID e) (ev_ThreadID e) (ev_ReplyToEventID e) (ev_CausalParents e) (ev_CreatedAtUnix e) (ev_ExpiresAtUnix e)
    (ev_Kind e) (ev_PayloadSchema e) (ev_IdempotencyKey e) (ev_Content e) (ev_Rendering e) (ev_AttachmentReferences e)
    (ev_ServiceBinding e).
Definition set_payload_schema (schema : string) (e : Event) : Event :=
  MkEvent (ev_Network e) (ev_ConversationID e) (ev_EventID e) (ev_SenderAgentID e) (ev_SenderEndpointID e) (ev_SenderDeviceID e)
    (ev_RoomID e) (ev_ThreadID e) (ev_ReplyToEventID e) (ev_CausalParents e) (ev_CreatedAtUnix e) (ev_ExpiresAtUnix e)
    (ev_Kind e) schema (ev_IdempotencyKey e) (ev_Content e) (ev_Rendering e) (ev_AttachmentReferences e)
    (ev_ServiceBinding e).

Definition NewEvent (e : Event) : result Event :=
  let e := set_event_id "" e in
  let* e :=
    match SchemaFor (ev_Kind e) with
    | Some schema =>
        if String.eqb (ev_PayloadSchema e) "" then Ok (set_payload_schema schema e)
        else refuse negb (String.eqb (ev_PayloadSchema e) schema)
               with NewError "new event must use the current payload schema"; Ok e
    | None => Ok e
    end in
  let* eventID := DeriveEventID e in
  let e := set_event_id eventID e in
  call ValidateEvent e;
  Ok e.

Definition wireEvent : list (string * jkind) :=
  [("schema", JK_String); ("network_id", JK_String); ("genesis_root_hash", JK_String); ("genesis_file_hash", JK_String);
   ("conversation_id", JK_String); ("event_id", JK_String); ("sender_agent_id", JK_String);
   ("sender_messaging_endpoint_id", JK_String); ("sender_device_id", JK_String); ("room_id", JK_String);
   ("thread_id", JK_String); ("reply_to_event_id", JK_String); ("causal_parents", JK_Strings);
   ("created_at_unix", JK_Uint 64); ("expires_at_unix", JK_Uint 64); ("event_kind", JK_String);
   ("payload_schema", JK_String); ("idempotency_key", JK_String); ("content_base64", JK_String); ("rendering", JK_String);
   ("attachment_references", JK_Strings); ("service_binding", JK_String)].
Definition event_omit (name : string) : bool :=
  bool_decide (name ∈ ["room_id"; "thread_id"; "reply_to_event_id"; "causal_parents"; "expires_at_unix"; "idempotency_key";
                       "content_base64"; "rendering"; "attachment_references"; "service_binding"]).

Definition content_base64 (content : bytes) : string := if blen content =? 0 then "" else b64_encode content.

Definition event_vals (e : Event) (n : NetworkDomain) : list jval :=
  [VString EventSchema; VString (nd_NetworkId n); VString (nd_GenesisRootHash n); VString (nd_GenesisFileHash n);
   VString (ev_ConversationID e); VString (ev_EventID e); VString (ev_SenderAgentID e); VString (ev_SenderEndpointID e);
   VString (ev_SenderDeviceID e); VString (ev_RoomID e); VString (ev_ThreadID e); VString (ev_ReplyToEventID e);
   VStrings (ev_CausalParents e); VUint (ev_CreatedAtUnix e); VUint (ev_ExpiresAtUnix e); VString (ev_Kind e);
   VString (ev_PayloadSchema e); VString (ev_IdempotencyKey e); VString (content_base64 (ev_Content e));
   VString (ev_Rendering e); VStrings (ev_AttachmentReferences e); VString (ev_ServiceBinding e)].

Definition EncodeEventJSON (e : Event) : result bytes :=
  call ValidateEvent e;
  match ev_Network e with
  | Some n => Ok (marshal_struct event_omit wireEvent (event_vals e n))
  | None => Err (NewError "invalid event network domain")
  end.

Definition decodeEvent (raw : bytes) : result Event :=
  match decode_struct wireEvent raw with
  | Decoded [VString schema; VString networkID; VString root; VString file; VString conversation; VString eventID;
             VString agent; VString endpoint; VString device; VString room; VString thread; VString reply;
             VStrings parents; VUint created; VUint expires; VString kind; VString payloadSchema; VString idempotency;
             VString content64; VString rendering; VStrings references; VString binding] =>
      refuse negb (String.eqb schema EventSchema) with NewError "unsupported event schema";
      match (if String.eqb content64 "" then Some [] else b64_decode content64) with
      | None => Err (NewError "invalid event content")
      | Some content =>
          let e := MkEvent (Some (MkNetworkDomain networkID root file)) conversation eventID agent endpoint device room
                     thread reply parents created expires kind payloadSchema idempotency content rendering references
                     binding in
          call ValidateEvent e;
          Ok e
      end
  | Trailing => Err (NewError "event has trailing JSON")
  | _ => Err (NewError "json")
  end.

Definition DecodeEventJSON (raw : bytes) : result Event :=
  let* e := decodeEvent raw in
  match ClassOf (ev_Kind e) with
  | None => Err (NewError "unrecognised event kind")
  | Some _ => Ok e
  end.

Definition DecodeEventJSONForwardCompatible (raw : bytes) : result Event := decodeEvent raw.

(** The runtime panic of a nil pointer dereference. *)
Definition panic_nil_pointer : error := Sentinel "panic: invalid memory address or nil pointer dereference".

Definition AdmittedBy (d : Delegation) (e : Event) : result unit :=
  call ValidateEvent e;
  refuse negb (String.eqb (ev_SenderAgentID e) (dg_AgentID d)) || negb (String.eqb (ev_SenderEndpointID e) (dg_EndpointID d))
    with NewError "event sender does not match its delegation";
  call match dg_Network d with
       | None => Err panic_nil_pointer
       | Some n => refuse negb (bool_decide (ev_Network e = Some n))
                     with NewError "event network tuple does not match its delegation"; Ok tt
       end;
  match ClassOf (ev_Kind e) with
  | None => Err (NewError "unrecognised event kind")
  | Some class =>
      refuse negb (AllowsEventClass d class) with NewError "event class is outside the delegated scope";
      Ok tt
  end.

End Events.

(** ** What validation establishes *)

(** A text every codec of the repository takes: short, and valid UTF-8. *)
Definition plain (s : string) : Prop := slen s <= 4096 /\ utf8_string s.
Definition optional (p : string -> bool) (s : string) : Prop := s = "" \/ p s = true.

Lemma plain_prefixed p s : slen p <= 64 -> utf8_string p -> prefixed_hex64 p s = true -> plain s.
Proof.
  intros Hl Hp H. split; [|by eapply utf8_prefixed_hex]. apply prefixed_hex64_slen in H. lia.
Qed.

Lemma plain_hex64 s : hex64 s = true -> plain s.
Proof. intros H. split; [apply hex64_slen in H; lia|by apply utf8_hex64]. Qed.

Lemma plain_digest s : ValidDigest s = true -> plain s.
Proof. intros H. split; [apply ValidDigest_slen in H; lia|by apply utf8_ValidDigest]. Qed.

Lemma plain_binding s : bindingPattern s = true -> plain s.
Proof.
  unfold bindingPattern. intros [H|H]%orb_prop; [apply (plain_prefixed "sha256:") in H|apply (plain_prefixed "tvm-cell-sha256:") in H];
    done.
Qed.

Lemma plain_optional p s : (forall x, p x = true -> plain x) -> optional p s -> plain s.
Proof. intros H [->|Hs]; [done|by apply H]. Qed.

Lemma label_char_ascii c : is_lower c || is_digit c = true -> (code c <? 128) = true.
Proof. unfold is_lower, is_digit, in_range. change (code "z") with 122. change (code "9") with 57. lia. Qed.

Lemma kind_from_ascii first state s : kind_from first state s = true -> sforall (fun c => code c <? 128) s = true.
Proof.
  revert first state. induction s as [|c s IH]; intros first state H; [done|]. cbn [kind_from sforall] in *.
  destruct state.
  - apply andb_prop in H as [Hc H]. rewrite label_char_ascii by (by rewrite Hc). by eapply IH.
  - destruct (Ascii.eqb_spec c "."); [subst c; by eapply IH|].
    destruct (Ascii.eqb_spec c "-"); [subst c; apply andb_prop in H as [_ H]; by eapply IH|].
    apply andb_prop in H as [Hc H]. rewrite label_char_ascii by done. by eapply IH.
  - apply andb_prop in H as [Hc H]. rewrite label_char_ascii by done. by eapply IH.
Qed.

Lemma plain_kind s : slen s <= MaxEventClassBytes -> eventKindPattern s = true -> plain s.
Proof.
  unfold MaxEventClassBytes. intros Hl H%kind_from_ascii. split; [lia|]. eapply sforall_utf8, H. cbn. lia.
Qed.

Lemma span_chars_split p s n tail :
  span_chars p s = (n, tail) -> exists run, s = run +:+ tail /\ slen run = Z.of_nat n /\ sforall p run = true.
Proof.
  revert n. induction s as [|c s IH]; intros n; cbn [span_chars]; [intros [= <- <-]; by exists ""|].
  destruct (p c) eqn:Hc; [|intros [= <- <-]; by exists ""].
  destruct (span_chars p s) as [m t]. intros [= <- <-]. destruct (IH m eq_refl) as (run & -> & Hl & Hr).
  exists (String c run). split_and!; [done|unfold slen in *; cbn [String.length]; lia|cbn [sforall]; by rewrite Hc, Hr].
Qed.

Lemma plain_schema s : payloadSchemaPattern s = true -> plain s.
Proof.
  unfold payloadSchemaPattern. destruct (strip_prefix _ s) as [rest|] eqn:E; [|done]. apply strip_prefix_Some in E as ->.
  destruct (span_chars _ rest) as [n tail] eqn:E1. apply span_chars_split in E1 as (run & -> & Hl & Hr).
  destruct (strip_prefix _ tail) as [digits|] eqn:E2; [|by rewrite andb_false_r]. apply strip_prefix_Some in E2 as ->.
  destruct (span_chars _ digits) as [m stop] eqn:E3. apply span_chars_split in E3 as (run' & -> & Hl' & Hr').
  intros H. breflect. subst stop. split.
  - rewrite !slen_app. slen_lit. change (slen "") with 0. clear Hr Hr'.
    repeat match goal with E : (_ <=? _)%nat = true |- _ => apply Nat.leb_le in E end. lia.
  - apply utf8_string_app; [done|]. apply utf8_string_app.
    + eapply sforall_utf8, Hr. intros c [Hc|Hc]%orb_prop; [by apply Z.ltb_lt, label_char_ascii|].
      by apply Ascii.eqb_eq in Hc as ->.
    + apply utf8_string_app; [done|]. apply utf8_string_app; [|done]. eapply sforall_utf8, Hr'.
      intros c Hc. apply Z.ltb_lt, label_char_ascii. by rewrite Hc, orb_true_r.
Qed.

Section Validation.
  Context `{PR : Protocol} `{AF : AttachmentFormats}.

Lemma registry_plain :
  Forall (fun entry => plain (co_schema entry.2) /\ Forall (fun old => plain old.1) (co_legacy entry.2)) codecs.
Proof.
  repeat (apply Forall_cons; split; [split; cbn [fst snd co_schema co_legacy];
    [split; by vm_compute|repeat (apply Forall_cons; split; [split; by vm_compute|]); by constructor]|]). by constructor.
Qed.

Lemma plain_supported kind s : SupportsSchema kind s = true -> plain s.
Proof.
  unfold SupportsSchema. destruct (assoc kind codecs) as [spec|] eqn:E; [|done].
  destruct (proj1 (Forall_forall _ _) registry_plain _ (assoc_In _ _ _ E)) as [Hs Hl]. cbn [fst snd] in *.
  intros [H|H]%orb_prop; breflect; [by subst s|]. destruct H as [d Hd].
  exact (proj1 (Forall_forall _ _) Hl _ (assoc_In _ _ _ Hd)).
Qed.

Record valid_event (e : Event) (n : NetworkDomain) : Prop := {
  ve_network : ev_Network e = Some n;
  ve_domain : slen (nd_NetworkId n) <= 128 /\ hex64 (nd_GenesisRootHash n) = true /\ hex64 (nd_GenesisFileHash n) = true;
  ve_conversation : ids_Conversation (ev_ConversationID e) = true;
  ve_sender : ids_Agent (ev_SenderAgentID e) = true /\ ids_Endpoint (ev_SenderEndpointID e) = true /\
              ids_Device (ev_SenderDeviceID e) = true;
  ve_room : optional ids_Room (ev_RoomID e);
  ve_thread : optional threadPattern (ev_ThreadID e);
  ve_reply : optional ids_Event (ev_ReplyToEventID e);
  ve_parents : Z.of_nat (length (ev_CausalParents e)) <= 16 /\ Forall (fun p => ids_Event p = true) (ev_CausalParents e);
  ve_kind : plain (ev_Kind e);
  ve_schema : plain (ev_PayloadSchema e);
  ve_rendering : slen (ev_Rendering e) <= 4096;
  ve_idempotency : optional hex64 (ev_IdempotencyKey e);
  ve_content : blen (ev_Content e) <= 131072;
  ve_references : Z.of_nat (length (ev_AttachmentReferences e)) <= 16 /\
                  Forall (fun r => ValidDigest r = true) (ev_AttachmentReferences e);
  ve_binding : optional bindingPattern (ev_ServiceBinding e);
}.

Lemma check_parents_inv id previous l u : check_parents id previous l = Ok u -> Forall (fun p => ids_Event p = true) l.
Proof.
  revert previous. induction l as [|p l IH]; intros previous H; [constructor|]. cbn [check_parents] in H. inv_ok H.
  constructor; [by breflect|by eapply IH].
Qed.

Lemma check_references_inv previous l u : check_references previous l = Ok u -> Forall (fun r => ValidDigest r = true) l.
Proof.
  revert previous. induction l as [|p l IH]; intros previous H; [constructor|]. cbn [check_references] in H. inv_ok H.
  constructor; [by breflect|by eapply IH].
Qed.

Lemma optional_check (p : string -> bool) s : negb (String.eqb s "") && negb (p s) = false -> optional p s.
Proof. destruct (String.eqb_spec s ""); [by left|]. destruct (p s) eqn:E; [by right|done]. Qed.

Lemma validateEventFields_inv e n : validateEventFields e = Ok n -> valid_event e n.
Proof.
  unfold validateEventFields. destruct (ev_Network e) as [m|] eqn:En; [|done]. intros H.
  inv_ok H. apply Ok_inj in H as ->.
  match goal with E : validateCausalParents e = Ok _ |- _ => rename E into Hp end. unfold HashPattern, MaxRenderingBytes, MaxContentBytes in *.
  repeat match goal with E : negb (String.eqb _ _) && negb _ = false |- _ => apply optional_check in E end.
  unfold validateCausalParents, MaxCausalParents in Hp. inv_ok Hp. apply check_parents_inv in Hp.
  match goal with E : validateAttachments _ = Ok _ |- _ => unfold validateAttachments, MaxAttachmentReferences in E; inv_ok E;
    apply check_references_inv in E end.
  assert (plain (ev_PayloadSchema e)) as Hs.
  { destruct (SchemaFor (ev_Kind e)); [apply (plain_supported (ev_Kind e))|apply plain_schema];
      match goal with E : (if negb ?b then _ else _) = Ok _ |- ?b = true => by destruct b end. }
  change (Z.shiftl 4 10) with 4096 in *. change (Z.shiftl 128 10) with 131072 in *.
  breflect. split; try done; try (split_and!; try done; lia); try lia. apply plain_kind; [lia|done].
Qed.

(** *** The canonical form *)

Definition event_head (e : Event) (n : NetworkDomain) : list field :=
  [FText EventSchema; FText (nd_NetworkId n); FHash32 (nd_GenesisRootHash n); FHash32 (nd_GenesisFileHash n);
   FText (ev_ConversationID e); FText (ev_SenderAgentID e); FText (ev_SenderEndpointID e); FText (ev_SenderDeviceID e);
   FText (ev_RoomID e); FText (ev_ThreadID e); FText (ev_ReplyToEventID e);
   FUint32 (u32 (Z.of_nat (length (ev_CausalParents e))))].
Definition event_body (e : Event) : list field :=
  [FUint64 (ev_CreatedAtUnix e); FUint64 (ev_ExpiresAtUnix e); FText (ev_Kind e); FText (ev_PayloadSchema e);
   FText (ev_IdempotencyKey e); FBytes (ev_Content e); FText (ev_Rendering e);
   FUint32 (u32 (Z.of_nat (length (ev_AttachmentReferences e))))].
Definition event_bytes (e : Event) (n : NetworkDomain) : bytes :=
  fields_bytes (event_head e n) ++ fields_bytes (FText <$> ev_CausalParents e) ++ fields_bytes (event_body e) ++
  fields_bytes (FText <$> ev_AttachmentReferences e) ++ fields_bytes [FText (ev_ServiceBinding e)].

Lemma canon_Hash32_app buffer h : hex64 h = true -> canon_Hash32 buffer h = Ok (buffer ++ field_bytes (FHash32 h)).
Proof. exact (write_field_ok buffer (FHash32 h)). Qed.

Lemma EventCanonicalBytes_form e b :
  EventCanonicalBytes e = Ok b -> exists n, valid_event e n /\ b = bytes_of_string DomainEventID ++ event_bytes e n.
Proof.
  unfold EventCanonicalBytes. destruct (validateEventFields e) as [n|] eqn:E; [|done].
  pose proof (validateEventFields_inv _ _ E) as Hv. destruct (ve_domain _ _ Hv) as (_ & Hr & Hf). intros H. exists n.
  split; [done|]. rewrite !canon_Hash32_app in H by done. apply Ok_inj in H as <-.
  rewrite !fold_Text, !canon_Text_app, !canon_Uint64_app, !canon_Uint32_app, !canon_Bytes_app.
  unfold event_bytes, event_head, event_body. rewrite !fields_bytes_cons, !fields_bytes_nil.
  by rewrite !app_nil_r, <- !app_assoc.
Qed.

Definition Event_typed (e : Event) : Prop := is_u64 (ev_CreatedAtUnix e) /\ is_u64 (ev_ExpiresAtUnix e).

(** Every text of a valid event. *)
Lemma valid_event_plain e n : valid_event e n ->
  plain (ev_ConversationID e) /\ plain (ev_SenderAgentID e) /\ plain (ev_SenderEndpointID e) /\
  plain (ev_SenderDeviceID e) /\ plain (ev_RoomID e) /\ plain (ev_ThreadID e) /\ plain (ev_ReplyToEventID e) /\
  plain (ev_IdempotencyKey e) /\ plain (ev_ServiceBinding e) /\
  Forall plain (ev_CausalParents e) /\ Forall plain (ev_AttachmentReferences e).
Proof.
  intros Hv. destruct (ve_sender _ _ Hv) as (Ha & He & Hd).
  split_and!.
  - eapply (plain_prefixed "conv_"), (ve_conversation _ _ Hv); done.
  - by eapply (plain_prefixed "agent_").
  - by eapply (plain_prefixed "mep_").
  - by eapply (plain_prefixed "dev_").
  - eapply plain_optional, (ve_room _ _ Hv). intros x. by apply (plain_prefixed "room_").
  - eapply plain_optional, (ve_thread _ _ Hv). intros x. by apply (plain_prefixed "thr_").
  - eapply plain_optional, (ve_reply _ _ Hv). intros x. by apply (plain_prefixed "evt_").
  - eapply plain_optional, (ve_idempotency _ _ Hv). apply plain_hex64.
  - eapply plain_optional, (ve_binding _ _ Hv). apply plain_binding.
  - eapply Forall_impl; [exact (proj2 (ve_parents _ _ Hv))|]. intros x. by apply (plain_prefixed "evt_").
  - eapply Forall_impl; [exact (proj2 (ve_references _ _ Hv))|]. apply plain_digest.
Qed.

Lemma event_head_kind e n f m : valid_event e n -> valid_event f m ->
  Forall2 same_kind (event_head e n) (event_head f m).
Proof.
  intros He Hf. destruct (valid_event_plain _ _ He) as ([? _] & [? _] & [? _] & [? _] & [? _] & [? _] & [? _] & _).
  destruct (valid_event_plain _ _ Hf) as ([? _] & [? _] & [? _] & [? _] & [? _] & [? _] & [? _] & _).
  destruct (ve_domain _ _ He) as (? & ? & ?), (ve_domain _ _ Hf) as (? & ? & ?).
  unfold event_head. repeat (apply Forall2_cons; split); cbn [same_kind]; try done; try lia; try (by split; apply u32_range).
Qed.

Lemma event_body_kind e n f m : valid_event e n -> valid_event f m -> Event_typed e -> Event_typed f ->
  Forall2 same_kind (event_body e) (event_body f).
Proof.
  intros He Hf [? ?] [? ?]. destruct (valid_event_plain _ _ He) as (_ & _ & _ & _ & _ & _ & _ & [? _] & _).
  destruct (valid_event_plain _ _ Hf) as (_ & _ & _ & _ & _ & _ & _ & [? _] & _).
  pose proof (ve_content _ _ He). pose proof (ve_content _ _ Hf). pose proof (ve_rendering _ _ He). pose proof (ve_rendering _ _ Hf).
  destruct (ve_kind _ _ He) as [? _], (ve_kind _ _ Hf) as [? _], (ve_schema _ _ He) as [? _], (ve_schema _ _ Hf) as [? _].
  unfold event_body. repeat (apply Forall2_cons; split); cbn [same_kind]; try done; try lia; try (by split; apply u32_range).
Qed.

Lemma plain_same_kind l l' : length l = length l' -> Forall plain l -> Forall plain l' ->
  Forall2 same_kind (FText <$> l) (FText <$> l').
Proof. apply fmap_same_kind. intros x y [? _] [? _]. cbn. lia. Qed.

Lemma event_bytes_inj e n f m :
  valid_event e n -> valid_event f m -> Event_typed e -> Event_typed f ->
  event_bytes e n = event_bytes f m -> f = set_event_id (ev_EventID f) e.
Proof.
  intros He Hf Te Tf E. unfold event_bytes in E.
  destruct (valid_event_plain _ _ He) as (_ & _ & _ & _ & _ & _ & _ & _ & [? _] & Pe & Re).
  destruct (valid_event_plain _ _ Hf) as (_ & _ & _ & _ & _ & _ & _ & _ & [? _] & Pf & Rf).
  destruct (ve_parents _ _ He) as [? _], (ve_parents _ _ Hf) as [? _].
  destruct (ve_references _ _ He) as [? _], (ve_references _ _ Hf) as [? _].
  apply fields_bytes_inj in E as [Eh E]; [|by apply event_head_kind].
  injection Eh as En1 En2 En3 Ec Ea Ee Ed Er Et Ep Ecount. apply u32_count_inj in Ecount; [|lia..].
  apply fields_bytes_inj in E as [Eps E]; [|by apply plain_same_kind]. apply (inj (fmap FText)) in Eps.
  apply fields_bytes_inj in E as [Eb E]; [|by eapply event_body_kind].
  injection Eb as Eb1 Eb2 Eb3 Eb4 Eb5 Eb6 Eb7 Ecount'. apply u32_count_inj in Ecount'; [|lia..].
  apply fields_bytes_inj in E as [Ers E]; [|by apply plain_same_kind]. apply (inj (fmap FText)) in Ers.
  rewrite <- (app_nil_r (fields_bytes [FText (ev_ServiceBinding e)])),
    <- (app_nil_r (fields_bytes [FText (ev_ServiceBinding f)])) in E.
  apply fields_bytes_inj in E as [[= Es] _]; [|repeat constructor; cbn; lia].
  pose proof (ve_network _ _ He) as Ne. pose proof (ve_network _ _ Hf) as Nf.
  destruct n, m. cbn in *. subst. destruct e, f. cbn in *. by subst.
Qed.

Lemma ValidateEvent_inv e u : ValidateEvent e = Ok u ->
  ids_Event (ev_EventID e) = true /\
  exists b n, EventCanonicalBytes e = Ok b /\ valid_event e n /\ b = bytes_of_string DomainEventID ++ event_bytes e n /\
    ev_EventID e = "evt_" +:+ digest_hex (canon_Digest b).
Proof.
  unfold ValidateEvent, DeriveEventID. destruct (ids_Event (ev_EventID e)); cbn [negb]; [|done].
  destruct (EventCanonicalBytes e) as [b|] eqn:E; [|done].
  destruct (EventCanonicalBytes_form _ _ E) as (n & Hv & Hb). intros H. split; [done|]. exists b, n.
  split_and!; [done..|]. destruct (String.eqb_spec (ev_EventID e) ("evt_" +:+ digest_hex (canon_Digest b))); [done|done].
Qed.

(** *** The JSON form *)

Lemma content_base64_decode content :
  (if String.eqb (content_base64 content) "" then Some [] else b64_decode (content_base64 content)) = Some content.
Proof.
  unfold content_base64. destruct (blen content =? 0) eqn:E.
  - destruct content; [done|]. apply Z.eqb_eq in E. unfold blen in E. cbn [length] in E. lia.
  - destruct (String.eqb_spec (b64_encode content) "") as [H|_]; [|apply b64_decode_encode].
    pose proof (b64_decode_encode content) as D. rewrite H in D. by rewrite <- D.
Qed.

Lemma wireEvent_kinded e n :
  valid_event e n -> Event_typed e -> utf8_string (ev_EventID e) -> utf8_string (nd_NetworkId n) ->
  utf8_string (ev_Rendering e) -> well_kinded wireEvent (event_vals e n).
Proof.
  intros Hv [T1 T2] Hid Hu Hr.
  destruct (valid_event_plain _ _ Hv) as ([_ ?] & [_ ?] & [_ ?] & [_ ?] & [_ ?] & [_ ?] & [_ ?] & [_ ?] & [_ ?] & P & R).
  destruct (ve_domain _ _ Hv) as (_ & ?%utf8_hex64 & ?%utf8_hex64).
  destruct (ve_kind _ _ Hv) as [_ ?], (ve_schema _ _ Hv) as [_ ?].
  split; [|split].
  - apply (bool_decide_unpack _). by vm_compute.
  - repeat constructor.
  - unfold wireEvent, event_vals. repeat (apply Forall2_cons; split; [cbn [has_kind snd]|]); try done.
    + eapply Forall_impl; [exact P|]. by intros x [_ ?].
    + unfold content_base64. destruct (_ =? 0); [done|apply utf8_b64].
    + eapply Forall_impl; [exact R|]. by intros x [_ ?].
Qed.

Lemma event_decodes e n raw :
  Event_typed e -> ev_Network e = Some n -> utf8_string (nd_NetworkId n) -> utf8_string (ev_Rendering e) ->
  EncodeEventJSON e = Ok raw -> decodeEvent raw = Ok e.
Proof.
  intros Te Hn Hu Hr HE. unfold EncodeEventJSON in HE. destruct (ValidateEvent e) as [[]|] eqn:HV; [|done].
  rewrite Hn in HE. apply Ok_inj in HE as <-. destruct (ValidateEvent_inv _ _ HV) as (Hid & b & m & _ & Hv & _).
  assert (m = n) as -> by (pose proof (ve_network _ _ Hv); congruence).
  unfold decodeEvent. rewrite struct_roundtrip by (apply wireEvent_kinded; [done..|eapply (utf8_prefixed_hex "evt_"); done|done|done]).
  unfold event_vals. rewrite String.eqb_refl. cbn [negb]. rewrite content_base64_decode.
  replace (MkEvent _ _ _ _ _ _ _ _ _ _ _ _ _ _ _ _ _ _ _) with e; [by rewrite HV|].
  destruct e, n. cbn in *. by subst.
Qed.

Lemma NewEvent_valid e f : NewEvent e = Ok f ->
  ValidateEvent f = Ok tt /\ exists schema, f = set_event_id (ev_EventID f) (set_payload_schema schema e).
Proof.
  unfold NewEvent. intros H. inv_ok H. apply Ok_inj in H as <-.
  match goal with E : ValidateEvent _ = Ok ?u |- _ => destruct u; split; [exact E|] end.
  repeat match goal with E : match SchemaFor ?k with _ => _ end = Ok _ |- _ => destruct (SchemaFor k) end;
    repeat match goal with E : (if ?b then _ else _) = Ok _ |- _ => destruct b end; simplify_eq.
  - by eexists.
  - exists (ev_PayloadSchema e). by destruct e.
  - exists (ev_PayloadSchema e). by destruct e.
Qed.

(** ** Properties *)

(** An event identifier names one event: two valid events with the same identifier are the same event in every
    field, or their canonical forms exhibit a SHA-256 collision.  The canonical form writes two lists of varying
    length, so this is where it could have been ambiguous. *)
Theorem event_id_binds e f :
  Event_typed e -> Event_typed f -> ValidateEvent e = Ok tt -> ValidateEvent f = Ok tt ->
  ev_EventID e = ev_EventID f -> e = f \/ sha256_collision.
Proof.
  intros Te Tf He Hf E. destruct (ValidateEvent_inv _ _ He) as (_ & b & n & _ & Ve & -> & He').
  destruct (ValidateEvent_inv _ _ Hf) as (_ & c & m & _ & Vf & -> & Hf').
  pose proof E as E'. rewrite He', Hf' in E. apply string_app_inj_l, digest_hex_inj, canon_Digest_inj in E as [E|]; [left|by right].
  apply app_inv_head, event_bytes_inj in E as ->; [|done..]. rewrite <- E'. by destruct e.
Qed.

(** A valid event whose network name and rendering are UTF-8 has a JSON form, and both decoders of events read it
    back as exactly that event, the strict one when the kind is a known one. *)
Theorem event_json_roundtrip e n :
  Event_typed e -> ev_Network e = Some n -> utf8_string (nd_NetworkId n) -> utf8_string (ev_Rendering e) ->
  ValidateEvent e = Ok tt ->
  exists raw, EncodeEventJSON e = Ok raw /\ DecodeEventJSONForwardCompatible raw = Ok e /\
    (is_Some (ClassOf (ev_Kind e)) -> DecodeEventJSON raw = Ok e).
Proof.
  intros Te Hn Hu Hr HV.
  assert (EncodeEventJSON e = Ok (marshal_struct event_omit wireEvent (event_vals e n))) as HE
    by (unfold EncodeEventJSON; by rewrite HV, Hn).
  pose proof (event_decodes _ _ _ Te Hn Hu Hr HE) as HD. eexists. split_and!; [exact HE|exact HD|].
  intros [class Hc]. unfold DecodeEventJSON. by rewrite HD, Hc.
Qed.

Definition coherent_kind (entry : string * kindSpec) : bool :=
  eventKindPattern entry.1 && (slen entry.1 <=? MaxEventClassBytes) && eventClassPattern (ks_class entry.2)
  && (slen (ks_class entry.2) <=? MaxEventClassBytes)
  && match SchemaFor entry.1 with Some schema => SupportsSchema entry.1 schema | None => false end.

(** The two tables of the protocol agree: a kind has a delegated class exactly when it has a payload codec, and
    then its name, its class and the schema of its codec are ones that events and delegations accept. *)
Theorem kinds_coherent kind :
  (is_Some (ClassOf kind) <-> is_Some (SchemaFor kind)) /\
  forall class, ClassOf kind = Some class ->
    eventKindPattern kind = true /\ slen kind <= MaxEventClassBytes /\
    eventClassPattern class = true /\ slen class <= MaxEventClassBytes /\
    exists schema, PayloadSchemaOf kind = Some schema /\ SupportsSchema kind schema = true.
Proof.
  assert (forallb coherent_kind eventKinds = true) as Hall by (vm_compute; reflexivity).
  assert (forallb (fun k => match ClassOf k with Some _ => true | None => false end) (List.map fst codecs) = true) as Hback
    by (vm_compute; reflexivity).
  rewrite forallb_forall in Hall, Hback. unfold ClassOf, SchemaFor, PayloadSchemaOf in *.
  assert (forall spec, assoc kind eventKinds = Some spec -> coherent_kind (kind, spec) = true) as Hk
    by (intros spec E; by apply Hall, list_elem_of_In, assoc_In).
  split.
  - split.
    + intros [class (spec & E & _)%fmap_Some]. specialize (Hk spec E). unfold coherent_kind in Hk. breflect.
      cbn [fst snd] in *. unfold SchemaFor in *. by destruct (co_schema <$> assoc kind codecs).
    + intros [schema (spec & E & _)%fmap_Some]. apply assoc_In, list_elem_of_In in E.
      specialize (Hback kind (in_map fst _ _ E)). by destruct (ks_class <$> assoc kind eventKinds).
  - intros class (spec & E & ->)%fmap_Some. specialize (Hk spec E). rewrite E. unfold coherent_kind in Hk. breflect.
    cbn [fst snd] in *. split_and!; [done|lia|done|lia|]. unfold SchemaFor in *.
    destruct (co_schema <$> assoc kind codecs) as [schema|]; [by exists schema|done].
Qed.

End Validation.

(** *** The relay envelope *)

Lemma ValidateRelay_inv e u : ValidateRelay e = Ok u ->
  mailboxPattern (re_OpaqueMailboxID e) = true /\ messagePattern (re_MessageID e) = true /\
  32 <= blen (re_Ciphertext e) <= 1048576 /\ IsZero (re_Ciphertext e) = false /\ re_ExpiresAtUnix e <> 0 /\
  optional storageTokenPattern (re_StorageToken e) /\ optional storageTokenPattern (re_AdmissionToken e).
Proof.
  unfold ValidateRelay, MinCiphertextBytes, MaxCiphertextBytes. intros H. inv_ok H.
  change (Z.shiftl 1 20) with 1048576 in *.
  assert (forall t m, negb (String.eqb t "") && ((m <? slen t) || negb (storageTokenPattern t)) = false ->
    optional storageTokenPattern t) as Ho.
  { intros t m E. apply optional_check. destruct (String.eqb t ""); [done|]. cbn in *. by apply orb_false_elim in E as [_ ->]. }
  repeat match goal with E : negb (String.eqb _ _) && _ = false |- _ => apply Ho in E end.
  breflect. split_and!; try done; lia.
Qed.

Lemma utf8_token s : optional storageTokenPattern s -> utf8_string s.
Proof.
  intros [->|H]; [done|]. unfold storageTokenPattern in H. apply andb_prop in H as [_ H].
  apply (sforall_utf8 token_char).
  - intros c. unfold token_char, is_upper, is_lower, is_digit, in_range. change (code "9") with 57. change (code "z") with 122.
    change (code "Z") with 90. intros Hc.
    repeat match type of Hc with _ || _ = true => apply orb_prop in Hc as [Hc|Hc] end;
      try lia; apply Ascii.eqb_eq in Hc as ->; by vm_compute.
  - clear -H. induction s as [|c s IH]; [done|]. cbn in *. apply andb_prop in H as [-> H]. by apply IH.
Qed.

(** A relay envelope reads back from its JSON form exactly, declared size included. *)
Theorem relay_json_roundtrip e :
  is_u64 (re_ExpiresAtUnix e) -> ValidateRelay e = Ok tt ->
  exists raw, EncodeRelayJSON e = Ok raw /\ DecodeRelayJSON raw = Ok e.
Proof.
  intros He HV. destruct (ValidateRelay_inv _ _ HV) as (Hm & Hg & Hl & _ & _ & Hs & Ha).
  unfold EncodeRelayJSON. rewrite HV. eexists. split; [reflexivity|]. unfold DecodeRelayJSON. rewrite struct_roundtrip.
  2:{ split; [|split]; [apply (bool_decide_unpack _); by vm_compute|repeat constructor|].
      unfold wireRelayEnvelope, relay_vals. repeat (apply Forall2_cons; split; [cbn [has_kind snd]|]); try done.
      - by eapply (utf8_prefixed_hex "mbx_").
      - by eapply (utf8_prefixed_hex "msg_").
      - apply utf8_b64.
      - apply u32_range.
      - by apply utf8_token.
      - by apply utf8_token. }
  unfold relay_vals. rewrite String.eqb_refl. cbn [negb]. rewrite b64_decode_encode, Z.eqb_refl. cbn [negb].
  replace (MkRelay _ _ _ _ _ _) with e by (by destruct e). by rewrite HV.
Qed.

(** A relay takes an envelope for storage exactly when it is well formed, expires after now, and asks for no more
    time than both the protocol and the operator allow. *)
Theorem storage_exact e now maxRetention :
  AcceptedForStorage e now maxRetention = Ok tt <->
  ValidateRelay e = Ok tt /\ 0 <= now /\ 0 < maxRetention /\
  now < re_ExpiresAtUnix e <= now + Z.min MaxEnvelopeLifetimeSeconds (maxRetention / nanoseconds).
Proof.
  unfold AcceptedForStorage, zero_time_unix, nanoseconds, MaxEnvelopeLifetimeSeconds.
  destruct (Z.eqb_spec now (-62135596800)); [split; [done|lia]|].
  destruct (ValidateRelay e) as [[]|]; [|split; [done|by intros [? _]]].
  destruct (Z.ltb_spec now 0); [split; [done|lia]|].
  destruct (Z.leb_spec (re_ExpiresAtUnix e) now); [split; [done|lia]|].
  destruct (Z.ltb_spec (30 * 24 * 60 * 60) (re_ExpiresAtUnix e - now)); [split; [done|lia]|].
  destruct (Z.leb_spec maxRetention 0); [split; [done|lia]|].
  rewrite Z.quot_div_nonneg by lia.
  destruct (Z.ltb_spec (maxRetention / 1000000000) (re_ExpiresAtUnix e - now)); [split; [done|lia]|].
  split; [intros _; split_and!; [done|lia..]|done].
Qed.

(** ** Witnesses *)

#[local] Existing Instances toy_Protocol toy_AttachmentFormats.

Definition id_named (prefix : string) (c : ascii) : string := prefix +:+ String.string_of_list_ascii (List.repeat c 64).
Definition sample_ack (p : Payload) `{Protocol} `{AttachmentFormats} : bytes := match Encode p with Ok c => c | Err _ => [] end.
Definition sample_draft (rendering : string) : Event :=
  MkEvent (Some sample_domain) (id_named "conv_" "1") "" sample_agent_id (id_named "mep_" "2") (id_named "dev_" "3") "" ""
    "" [id_named "evt_" "4"; id_named "evt_" "5"] 1000 2000 "delivery.ack" "" ""
    (sample_ack (PDeliveryAck (MkDeliveryAck (id_named "evt_" "4") 900))) rendering [] "".
Definition sample_event : Event :=
  Eval vm_compute in match NewEvent (sample_draft "received") with Ok e => e | Err _ => sample_draft "" end.

Lemma event_id_binds_witness : sample_event = sample_event \/ sha256_collision.
Proof.
  apply (event_id_binds sample_event sample_event); [split; by vm_compute|split; by vm_compute|vm_compute; reflexivity..].
Defined.

Lemma event_json_roundtrip_witness :
  exists raw, EncodeEventJSON sample_event = Ok raw /\ DecodeEventJSONForwardCompatible raw = Ok sample_event /\
    (is_Some (ClassOf (ev_Kind sample_event)) -> DecodeEventJSON raw = Ok sample_event).
Proof.
  apply (event_json_roundtrip sample_event sample_domain); [split; by vm_compute|vm_compute; reflexivity..].
Defined.

Definition sample_relay : RelayEnvelope :=
  MkRelay (id_named "mbx_" "1") (id_named "msg_" "2") (replicate 40 x07) 5000 "tok-1" "".
Lemma relay_json_roundtrip_witness : exists raw, EncodeRelayJSON sample_relay = Ok raw /\ DecodeRelayJSON raw = Ok sample_relay.
Proof. apply (relay_json_roundtrip sample_relay); [by vm_compute|vm_compute; reflexivity]. Defined.

(** A rendering that is one byte 0xff. *)
Definition broken_draft : Event := sample_draft (string_of_bytes [xff]).

(** An event whose rendering is not UTF-8 is built, validated and encoded, and no decoder reads it back: the writer
    replaces the byte, and the identifier no longer matches the content. *)
Theorem invalid_rendering_unreadable :
  exists e raw, NewEvent broken_draft = Ok e /\ EncodeEventJSON e = Ok raw /\
    DecodeEventJSON raw = Err (NewError "event identifier does not match its content").
Proof.
  do 2 eexists. split; [vm_compute; reflexivity|]. split; [vm_compute; reflexivity|]. vm_compute. reflexivity.
Qed.
