(* ===== verification/Devices.v ===== *)
(** * Device sets of peers over time: [pkg/eventlog/devices.go]

    The ledger that remembers, per peer endpoint, the device set last accepted and
    every device that left it.  The files of an installation that admission consults
    are gathered here: the journal with its rooms, the device ledger and the invites. *)

From S2P Require Import Prelude Encoding Canon Files Json Money Payload Delivery Identity E2ee Journal Room Rooms.

Definition DeviceRecordSchema : string := "tos.messaging.device-ledger.v1".
Definition MaxTombstones : Z := 256.

Record DeviceRecord : Type := MkDeviceRecord {
  dr_Schema : string;
  dr_EndpointID : string;
  dr_SetDigest : string;
  dr_DeviceIDs : list string;
  dr_BundleDigests : list string;
  dr_NewestIssuedAtUnix : Z;
  dr_Tombstones : list string;
  dr_UpdatedAtUnix : Z;
}.

(** The record of one invitation; its operations are in [Invites.v]. *)
Record AdmissionInviteRecord : Type := MkInvite {
  ai_Schema : string;
  ai_InviteDigest : string;
  ai_RecipientEndpointID : string;
  ai_InvitedAgentID : string;
  ai_ExpiresAtUnix : Z;
  ai_CreatedAtUnix : Z;
  ai_ClaimedEventID : string;
  ai_ClaimedSenderAgentID : string;
  ai_ClaimedAtUnix : Z;
}.

Record Install : Type := MkInstall {
  in_rooms : RoomFiles;
  in_devices : directory DeviceRecord;
  in_invites : directory AdmissionInviteRecord;
}.
Definition in_journal (s : Install) : Journal := rf_journal (in_rooms s).
Definition with_devices (s : Install) (files : directory DeviceRecord) : Install :=
  MkInstall (in_rooms s) files (in_invites s).
Definition with_invites (s : Install) (files : directory AdmissionInviteRecord) : Install :=
  MkInstall (in_rooms s) (in_devices s) files.
Definition with_journal (s : Install) (j : Journal) : Install :=
  MkInstall (MkRoomFiles j (rf_rooms (in_rooms s)) (rf_roles (in_rooms s))) (in_devices s) (in_invites s).

Definition device_path (endpointID : string) : string := sdrop 4 endpointID +:+ ".json".

Definition Device_read (files : directory DeviceRecord) (endpointID : string) : result (option DeviceRecord) :=
  match files !! device_path endpointID with
  | None => Ok None
  | Some EDir | Some EForeign => Err (NewError "read device record")
  | Some EJunk => Err (NewError "invalid device record")
  | Some (ERec r) =>
      refuse negb (String.eqb (dr_Schema r) DeviceRecordSchema) || negb (String.eqb (dr_EndpointID r) endpointID)
        with NewError "device record describes another endpoint";
      Ok (Some r)
  end.

Definition record_summary (r : DeviceRecord) : SetSummary :=
  MkSummary (dr_SetDigest r) (dr_EndpointID r) (dr_DeviceIDs r) (dr_BundleDigests r) (dr_NewestIssuedAtUnix r).
(** The zero record, which [AcceptSet] holds when there is none on file. *)
Definition zero_record : DeviceRecord := MkDeviceRecord "" "" "" [] [] 0 [] 0.

(** The record that replaces another one. *)
Definition next_record (endpointID : string) (record : DeviceRecord) (s : Succession) (now : time) : DeviceRecord :=
  MkDeviceRecord DeviceRecordSchema endpointID (ss_Digest (su_Accepted s)) (ss_DeviceIDs (su_Accepted s))
    (ss_BundleDigests (su_Accepted s)) (ss_NewestIssuedAtUnix (su_Accepted s)) (dr_Tombstones record ++ su_Removed s) now.

Definition AcceptSet (w : write_outcome) (endpointID : string) (bundles : list Bundle) (now : time)
    : action Install Succession :=
  fun s =>
  let judged :=
    call journal_usable (in_journal s);
    refuse negb (ids_Endpoint endpointID) with NewError "invalid endpoint identifier";
    refuse time_invalid now with NewError "invalid time";
    let* found := Device_read (in_devices s) endpointID in
    let record := default zero_record found in
    let* succession := Succeed (match found with Some r => record_summary r | None => zero_summary end)
                         (dr_Tombstones record) bundles in
    refuse negb (String.eqb (ss_EndpointID (su_Accepted succession)) endpointID)
      with NewError "the set belongs to another endpoint";
    if String.eqb (ss_Digest (su_Accepted succession)) (dr_SetDigest record) then Ok (succession, None) else
    refuse MaxTombstones <? Z.of_nat (length (dr_Tombstones record)) + Z.of_nat (length (su_Removed succession))
      with NewError "this peer has revoked more devices than a record may carry";
    Ok (succession, Some (next_record endpointID record succession now)) in
  match judged with
  | Err e => (Err e, s)
  | Ok (succession, None) => (Ok (MkSuccession (su_Accepted succession) []), s)
  | Ok (succession, Some record) =>
      match file_replace w (device_path endpointID) record (in_devices s) with
      | (Ok _, files) => (Ok succession, with_devices s files)
      | (Err e, files) => (Err e, with_devices s files)
      end
  end.

Definition AdmitPublishedSet `{Ed25519} (w : write_outcome) (delegation : Delegation) (committedDigest : string)
    (bundles : list Bundle) (now : time) : action Install Succession :=
  fun s =>
  match BindBundleSet delegation bundles committedDigest now with
  | Err e => (Err e, s)
  | Ok _ => AcceptSet w (dg_EndpointID delegation) bundles now s
  end.

Inductive DeviceStanding : Type := DeviceCurrent | DeviceRevoked | DeviceUnknown.

Definition Device_Judge (s : Install) (endpointID deviceID : string) : result DeviceStanding :=
  call journal_usable (in_journal s);
  refuse negb (ids_Endpoint endpointID) || negb (ids_Device deviceID) with NewError "invalid device claim";
  let* record := Device_read (in_devices s) endpointID in
  match record with
  | None => Ok DeviceUnknown
  | Some r =>
      if bool_decide (deviceID ∈ dr_Tombstones r) then Ok DeviceRevoked
      else if bool_decide (deviceID ∈ dr_DeviceIDs r) then Ok DeviceCurrent
      else Ok DeviceUnknown
  end.

Definition Device_Record (s : Install) (endpointID : string) : result (option DeviceRecord) :=
  call journal_usable (in_journal s);
  refuse negb (ids_Endpoint endpointID) with NewError "invalid endpoint identifier";
  Device_read (in_devices s) endpointID.

(** ** What one acceptance does *)

(** A record on file for an endpoint. *)
Definition on_file (files : directory DeviceRecord) (endpointID : string) (r : DeviceRecord) : Prop :=
  Device_read files endpointID = Ok (Some r).

Lemma on_file_iff files endpointID r :
  on_file files endpointID r <->
  files !! device_path endpointID = Some (ERec r) /\ dr_Schema r = DeviceRecordSchema /\ dr_EndpointID r = endpointID.
Proof.
  unfold on_file, Device_read. split.
  - destruct (files !! device_path endpointID) as [[]|]; try done. intros H. inv_ok H. apply Ok_inj in H as [= <-].
    by breflect.
  - intros (-> & -> & ->). by rewrite !String.eqb_refl.
Qed.

(** The record names a set, no retired device is on it, and the tombstones are within their bound. *)
Definition sound_record (r : DeviceRecord) : Prop :=
  dr_SetDigest r <> "" /\ (forall d, d ∈ dr_Tombstones r -> d ∉ dr_DeviceIDs r) /\
  Z.of_nat (length (dr_Tombstones r)) <= MaxTombstones.
(** [r'] follows [r]: nothing retired is forgotten, every device that left is retired, and the set is no older. *)
Definition follows (r r' : DeviceRecord) : Prop :=
  dr_EndpointID r' = dr_EndpointID r /\ dr_NewestIssuedAtUnix r <= dr_NewestIssuedAtUnix r' /\
  (forall d, d ∈ dr_Tombstones r -> d ∈ dr_Tombstones r') /\
  (forall d, d ∈ dr_DeviceIDs r -> d ∉ dr_DeviceIDs r' -> d ∈ dr_Tombstones r').

#[export] Instance follows_refl : Reflexive follows.
Proof. intros r. repeat split; [lia|auto|done]. Qed.

#[export] Instance follows_trans : Transitive follows.
Proof.
  intros a b c (E1 & N1 & T1 & D1) (E2 & N2 & T2 & D2). split_and!; [congruence|lia|auto|].
  intros d Ha Hc. destruct (decide (d ∈ dr_DeviceIDs b)); auto.
Qed.

(** What an acceptance that writes something writes. *)
Lemma AcceptSet_cases w endpointID bundles now s r s' :
  AcceptSet w endpointID bundles now s = (r, s') ->
  s' = s \/
  exists found succession,
    Device_read (in_devices s) endpointID = Ok found /\ ids_Endpoint endpointID = true /\
    Succeed (match found with Some r => record_summary r | None => zero_summary end)
      (dr_Tombstones (default zero_record found)) bundles = Ok succession /\
    ss_Digest (su_Accepted succession) <> dr_SetDigest (default zero_record found) /\
    Z.of_nat (length (dr_Tombstones (default zero_record found)) + length (su_Removed succession)) <= MaxTombstones /\
    s' = with_devices s (<[device_path endpointID := ERec (next_record endpointID (default zero_record found) succession now)]> (in_devices s)).
Proof.
  unfold AcceptSet. destruct (call journal_usable (in_journal s); _) as [[succession [record|]]|e] eqn:E; cbn zeta in E;
    [|intros [= _ <-]; by left..].
  inv_ok E. cbn zeta in E. rename a0 into found.
  match type of E with (if ?b then _ else _) = _ => destruct b eqn:Eb; [done|] end. inv_ok E. injection E as <- <-.
  destruct (file_replace _ _ _ _) as [o files] eqn:Ef. apply file_replace_cases in Ef as [[-> Ho]|[-> _]].
  - destruct o; [done|]. intros [= _ <-]. left. by destruct s.
  - intros H. right. exists found. eexists. breflect. split_and!; try done; [lia|]. destruct o; by injection H as _ <-.
Qed.

Lemma next_record_sound endpointID found succession now bundles :
  Succeed (match found with Some r => record_summary r | None => zero_summary end)
    (dr_Tombstones (default zero_record found)) bundles = Ok succession ->
  Z.of_nat (length (dr_Tombstones (default zero_record found)) + length (su_Removed succession)) <= MaxTombstones ->
  sound_record (next_record endpointID (default zero_record found) succession now).
Proof.
  intros HS Hb. apply Succeed_sound in HS as [Hsum [Hfresh _ Hrep Hfirst]].
  apply Summarize_inv in Hsum as (_ & _ & Hl & _). unfold sound_record, next_record. cbn. split_and!.
  - intros E. by rewrite E in Hl.
  - intros d [Hd|Hd]%elem_of_app Hin; [by eapply (proj1 (Forall_forall _ _) Hfresh d)|].
    destruct (decide (ss_Digest (match found with Some r => record_summary r | None => zero_summary end) = "")) as [E|E].
    { rewrite Hfirst in Hd by auto. by apply elem_of_nil in Hd. }
    destruct (decide (ss_Digest (su_Accepted succession) = ss_Digest (match found with Some r => record_summary r | None => zero_summary end))) as [E'|E'].
    { rewrite Hfirst in Hd by auto. by apply elem_of_nil in Hd. }
    destruct (Hrep E E') as (_ & Hr & _). rewrite Hr in Hd. by apply missingFrom_elem in Hd as [_ ?].
  - rewrite length_app. lia.
Qed.

Lemma next_record_follows endpointID r succession now bundles :
  dr_EndpointID r = endpointID -> dr_SetDigest r <> "" ->
  Succeed (record_summary r) (dr_Tombstones r) bundles = Ok succession ->
  ss_Digest (su_Accepted succession) <> dr_SetDigest r ->
  follows r (next_record endpointID r succession now).
Proof.
  intros He Hd HS Hn. apply Succeed_sound in HS as [_ [_ _ Hrep _]]. destruct (Hrep Hd Hn) as (Hnew & Hr & _).
  unfold follows, next_record. cbn in *. split_and!; [done|done|intros d ?; apply elem_of_app; by left|].
  intros d H1 H2. apply elem_of_app. right. rewrite Hr. by apply missingFrom_elem.
Qed.

(** ** Histories *)

Section History.
  Context `{Ed : Ed25519}.

(** Every operation that writes to the ledger. *)
Inductive device_op : Type :=
  | OpAcceptSet (w : write_outcome) (endpointID : string) (bundles : list Bundle) (now : time)
  | OpAdmitPublishedSet (w : write_outcome) (d : Delegation) (committed : string) (bundles : list Bundle) (now : time).

Definition device_step (op : device_op) (s : Install) : Install :=
  match op with
  | OpAcceptSet w endpointID bundles now => (AcceptSet w endpointID bundles now s).2
  | OpAdmitPublishedSet w d committed bundles now => (AdmitPublishedSet w d committed bundles now s).2
  end.
Definition device_run (ops : list device_op) (s : Install) : Install := fold_left (fun s op => device_step op s) ops s.

Definition sound_ledger (s : Install) : Prop := forall endpointID r, on_file (in_devices s) endpointID r -> sound_record r.

Lemma device_path_inj a b : ids_Endpoint a = true -> ids_Endpoint b = true -> device_path a = device_path b -> a = b.
Proof. exact (prefixed_path_inj "mep_" ".json" a b). Qed.

(** One step: the rest of the installation is untouched, and each record follows the one before. *)
Lemma AcceptSet_step w endpointID bundles now s r s' :
  AcceptSet w endpointID bundles now s = (r, s') -> sound_ledger s ->
  sound_ledger s' /\ in_rooms s' = in_rooms s /\ in_invites s' = in_invites s /\
  forall id r, ids_Endpoint id = true -> on_file (in_devices s) id r -> exists r', on_file (in_devices s') id r' /\ follows r r'.
Proof.
  intros H Hs. destruct (AcceptSet_cases _ _ _ _ _ _ _ H) as [->|(found & su & Hr & Hid & HS & Hn & Hb & ->)].
  { split_and!; [done..|]. intros id r0 _ Hf. exists r0. by split. }
  pose proof (next_record_sound endpointID found su now bundles HS Hb) as Hnew. cbn [with_devices in_devices in_rooms in_invites].
  assert (forall id r0, on_file (<[device_path endpointID := ERec (next_record endpointID (default zero_record found) su now)]> (in_devices s)) id r0 ->
    r0 = next_record endpointID (default zero_record found) su now \/ on_file (in_devices s) id r0) as Hcase.
  { intros id r0 (Hl & H1 & H2)%on_file_iff. destruct (decide (device_path id = device_path endpointID)) as [E|E].
    - rewrite E, lookup_insert_eq in Hl. left. congruence.
    - rewrite lookup_insert_ne in Hl by done. right. by apply on_file_iff. }
  split_and!; [|done|done|].
  - intros id r0 Hf. destruct (Hcase id r0 Hf) as [->|]; [done|by eapply Hs].
  - intros id r0 Hv Hf. destruct (decide (id = endpointID)) as [->|Hne].
    + assert (found = Some r0) as -> by (unfold on_file in Hf; congruence). cbn [default] in *.
      eexists. split; [apply on_file_iff; rewrite lookup_insert_eq; done|].
      apply on_file_iff in Hf as (_ & _ & He). eapply next_record_follows; [done| |exact HS|done].
      apply (Hs endpointID r0). unfold on_file in *. by rewrite Hr.
    + exists r0. split; [|done]. apply on_file_iff in Hf as (Hl & H1 & H2). apply on_file_iff.
      rewrite lookup_insert_ne; [done|]. intros E. by apply Hne, device_path_inj.
Qed.

Lemma device_step_follows op s : sound_ledger s ->
  sound_ledger (device_step op s) /\ in_rooms (device_step op s) = in_rooms s /\ in_invites (device_step op s) = in_invites s /\
  forall id r, ids_Endpoint id = true -> on_file (in_devices s) id r ->
    exists r', on_file (in_devices (device_step op s)) id r' /\ follows r r'.
Proof.
  intros Hs. assert (forall id r, on_file (in_devices s) id r -> exists r', on_file (in_devices s) id r' /\ follows r r') as Hid.
  { intros id r Hf. exists r. by split. }
  destruct op; cbn [device_step].
  - destruct (AcceptSet w endpointID bundles now s) as [o s'] eqn:E. by eapply AcceptSet_step.
  - unfold AdmitPublishedSet. destruct (BindBundleSet d bundles committed now); [|by split_and!; try done; auto].
    destruct (AcceptSet w (dg_EndpointID d) bundles now s) as [o s'] eqn:E. by eapply AcceptSet_step.
Qed.

Lemma device_run_follows ops s : sound_ledger s ->
  sound_ledger (device_run ops s) /\ in_rooms (device_run ops s) = in_rooms s /\
  forall id r, ids_Endpoint id = true -> on_file (in_devices s) id r ->
    exists r', on_file (in_devices (device_run ops s)) id r' /\ follows r r'.
Proof.
  revert s. induction ops as [|op ops IH]; intros s Hs; cbn [device_run fold_left].
  { split_and!; [done..|]. intros id r _ Hf. exists r. by split. }
  destruct (device_step_follows op s Hs) as (H1 & H2 & _ & H4). destruct (IH _ H1) as (H5 & H6 & H7).
  split_and!; [done|unfold device_run in *; congruence|]. intros id r Hv Hf. destruct (H4 id r Hv Hf) as (r1 & Hf1 & F1).
  destruct (H7 id r1 Hv Hf1) as (r2 & Hf2 & F2). exists r2. split; [done|by etransitivity].
Qed.

Lemma Judge_record s id d r : journal_usable (in_journal s) = Ok tt -> ids_Endpoint id = true -> ids_Device d = true ->
  on_file (in_devices s) id r ->
  Device_Judge s id d = Ok (if bool_decide (d ∈ dr_Tombstones r) then DeviceRevoked
                            else if bool_decide (d ∈ dr_DeviceIDs r) then DeviceCurrent else DeviceUnknown).
Proof.
  intros Hu Hi Hd Hf. unfold Device_Judge. rewrite Hu, Hi, Hd. cbn [negb orb]. unfold on_file in Hf. rewrite Hf.
  by case_bool_decide; [|case_bool_decide].
Qed.

Lemma Judge_known s id d st : Device_Judge s id d = Ok st -> st <> DeviceUnknown ->
  journal_usable (in_journal s) = Ok tt /\ ids_Endpoint id = true /\ ids_Device d = true /\
  exists r, on_file (in_devices s) id r /\
    st = (if bool_decide (d ∈ dr_Tombstones r) then DeviceRevoked else DeviceCurrent) /\
    (d ∈ dr_Tombstones r \/ d ∈ dr_DeviceIDs r).
Proof.
  unfold Device_Judge. intros H Hst. destruct (journal_usable (in_journal s)) as [[]|] eqn:Eu; [|done]. inv_ok H.
  breflect. split_and!; try done. match goal with E : Device_read _ _ = Ok ?o |- _ => destruct o as [r|]; [|by injection H as <-]; exists r; split; [exact E|] end.
  destruct (bool_decide (d ∈ dr_Tombstones r)) eqn:E1; [injection H as <-; breflect; auto|].
  destruct (bool_decide (d ∈ dr_DeviceIDs r)) eqn:E2; injection H as <-; [|done]. breflect. auto.
Qed.


End History.

(** ** Witnesses *)

#[local] Existing Instance toy_ed25519.

(** A peer that published two devices and then retired the second. *)
Definition one_device : list Bundle := [sample_bundle (sample_endpoint "a") (sample_device "1")].
Definition no_devices : Install := MkInstall no_rooms ∅ ∅.
Definition publish (bundles : list Bundle) : device_op := OpAcceptSet WOk (sample_endpoint "a") bundles 2000.
Definition retired : Install := device_run [publish sample_set; publish one_device] no_devices.

