(* ===== verification/Invites.v ===== *)
(** * One-time admission invites: [pkg/eventlog/admission_invite.go]

    An invite is a random bearer of which only a digest is kept.  The first
    authenticated sender that presents it for an event spends it on that event. *)

From S2P Require Import Prelude Encoding Canon Files Json Money Payload Delivery Identity E2ee Journal Room Rooms Devices.

Definition AdmissionInviteRecordSchema : string := "tos.messaging.admission-invite-record.v1".
Definition AdmissionInvitePrefix : string := "invite_".
Definition MaxAdmissionInvites : Z := 4096.
(** [MaxAdmissionInviteLifetime] and [MinClaimRetention], in seconds. *)
Definition MaxAdmissionInviteLifetime : Z := 30 * 24 * 60 * 60.
Definition MinClaimRetention : Z := 30 * 24 * 60 * 60.
Definition DomainAdmissionInvite : string := "tos.messaging.admission-invite.v1" +:+ NUL.
Definition ErrAdmissionInviteSpent : error := Sentinel "admission invite is already bound to another event".

(** ** Tokens

    [base64.RawURLEncoding] is the standard encoding with two other characters and
    without padding; a token holds 43 of them, for 32 bytes.  The decoder of Go skips
    line breaks, which leaves too few characters for 32 bytes. *)

Definition to_url (c : ascii) : ascii :=
  if Ascii.eqb c "+" then "-"%char else if Ascii.eqb c "/" then "_"%char else c.
Definition of_url (c : ascii) : ascii :=
  if Ascii.eqb c "-" then "+"%char else if Ascii.eqb c "_" then "/"%char else c.
Definition not_url (c : ascii) : bool :=
  Ascii.eqb c "+" || Ascii.eqb c "/" || Ascii.eqb c "=" || is_newline c.

Definition rawurl_encode (raw : bytes) : string :=
  string_of_list_ascii (List.map to_url (List.filter (fun c => negb (Ascii.eqb c "=")) (b64_encode_list raw))).
(** For the 43 characters of a token. *)
Definition rawurl_decode (s : string) : option bytes :=
  let l := list_ascii_of_string s in
  if existsb not_url l then None else b64_decode_list (List.map of_url l ++ ["="%char]).

Definition err_invite_encoding : error := NewError "invalid admission invite encoding".
Definition decodeAdmissionInvite (token : string) : result bytes :=
  refuse negb (slen token =? 7 + 43) || negb (String.eqb (String.substring 0 7 token) AdmissionInvitePrefix)
    with err_invite_encoding;
  match rawurl_decode (sdrop 7 token) with
  | None => Err err_invite_encoding
  | Some raw =>
      refuse negb (blen raw =? 32) || IsZero raw with err_invite_encoding;
      Ok raw
  end.

Definition admissionInviteDigest (raw : bytes) : string :=
  canon_Digest (canon_Bytes (bytes_of_string DomainAdmissionInvite) raw).

(** ** Records *)

Definition invite_path (digest : string) : string := sdrop 7 digest +:+ ".json".

(** [(x == "") != (y == "")] *)
Definition differ (a b : bool) : bool := negb (Bool.eqb a b).

Definition invite_malformed (digest : string) (r : AdmissionInviteRecord) : bool :=
  let unclaimed := String.eqb (ai_ClaimedEventID r) "" in
  negb (String.eqb (ai_Schema r) AdmissionInviteRecordSchema)
  || negb (String.eqb (ai_InviteDigest r) digest) || negb (ids_Endpoint (ai_RecipientEndpointID r))
  || (negb (String.eqb (ai_InvitedAgentID r) "") && negb (ids_Agent (ai_InvitedAgentID r)))
  || (ai_CreatedAtUnix r =? 0) || (ai_ExpiresAtUnix r <=? ai_CreatedAtUnix r)
  || (MaxAdmissionInviteLifetime <? ai_ExpiresAtUnix r - ai_CreatedAtUnix r)
  || differ unclaimed (String.eqb (ai_ClaimedSenderAgentID r) "")
  || differ unclaimed (ai_ClaimedAtUnix r =? 0)
  || (negb unclaimed && (negb (ids_Event (ai_ClaimedEventID r)) || negb (ids_Agent (ai_ClaimedSenderAgentID r))
                         || (ai_ClaimedAtUnix r <? ai_CreatedAtUnix r) || (ai_ExpiresAtUnix r <=? ai_ClaimedAtUnix r))).

Definition readAdmissionInvite (files : directory AdmissionInviteRecord) (digest : string)
    : result (option AdmissionInviteRecord) :=
  refuse negb (ValidDigest digest) with NewError "invalid admission invite digest";
  match files !! invite_path digest with
  | None => Ok None
  | Some EDir | Some EForeign => Err (NewError "read admission invite")
  | Some EJunk => Err (NewError "invalid admission invite record")
  | Some (ERec r) =>
      refuse invite_malformed digest r with NewError "invalid admission invite record";
      Ok (Some r)
  end.

(** ** Checking and claiming *)

(** What the check and the claim decide alike: whether the record is already bound to this event. *)
Definition judge_invite (found : option AdmissionInviteRecord) (recipient sender eventID : string) (now : time)
    : result (AdmissionInviteRecord * bool) :=
  match found with
  | None => Err (NewError "admission invite is unknown or out of scope")
  | Some r =>
      refuse negb (String.eqb (ai_RecipientEndpointID r) recipient)
             || (negb (String.eqb (ai_InvitedAgentID r) "") && negb (String.eqb (ai_InvitedAgentID r) sender))
        with NewError "admission invite is unknown or out of scope";
      if negb (String.eqb (ai_ClaimedEventID r) "") then
        if String.eqb (ai_ClaimedEventID r) eventID && String.eqb (ai_ClaimedSenderAgentID r) sender then Ok (r, true)
        else Err ErrAdmissionInviteSpent
      else
        refuse ai_ExpiresAtUnix r <=? now with NewError "admission invite expired";
        Ok (r, false)
  end.

Definition invite_subject (refusal : error) (token recipient sender eventID : string) (now : time) : result string :=
  match decodeAdmissionInvite token with
  | Err _ => Err refusal
  | Ok raw =>
      refuse negb (ids_Endpoint recipient) || negb (ids_Agent sender) || negb (ids_Event eventID) || time_invalid now
        with refusal;
      Ok (admissionInviteDigest raw)
  end.

Definition CheckAdmissionInvite (s : Install) (token recipient sender eventID : string) (now : time) : result unit :=
  call journal_usable (in_journal s);
  let* digest := invite_subject (NewError "invalid admission invite check") token recipient sender eventID now in
  let* found := readAdmissionInvite (in_invites s) digest in
  call judge_invite found recipient sender eventID now;
  Ok tt.

Definition claimed (r : AdmissionInviteRecord) (sender eventID : string) (now : time) : AdmissionInviteRecord :=
  MkInvite (ai_Schema r) (ai_InviteDigest r) (ai_RecipientEndpointID r) (ai_InvitedAgentID r) (ai_ExpiresAtUnix r)
    (ai_CreatedAtUnix r) eventID sender now.

Definition ClaimAdmissionInvite (w : write_outcome) (token recipient sender eventID : string) (now : time)
    : action Install bool :=
  fun s =>
  let judged :=
    call journal_usable (in_journal s);
    let* digest := invite_subject (NewError "invalid admission invite claim") token recipient sender eventID now in
    let* found := readAdmissionInvite (in_invites s) digest in
    let* (record, bound) := judge_invite found recipient sender eventID now in
    Ok (digest, record, bound) in
  match judged with
  | Err e => (Err e, s)
  | Ok (_, _, true) => (Ok false, s)
  | Ok (digest, record, false) =>
      match file_replace w (invite_path digest) (claimed record sender eventID now) (in_invites s) with
      | (Ok _, files) => (Ok true, with_invites s files)
      | (Err e, files) => (Err e, with_invites s files)
      end
  end.

(** ** Creating and sweeping *)

(** When a record may go: the later of its expiry and the end of the replay window of its claim. *)
Definition retain_until (r : AdmissionInviteRecord) : Z :=
  let after := u64 (ai_ClaimedAtUnix r + MinClaimRetention) in
  if negb (ai_ClaimedAtUnix r =? 0) && (ai_ExpiresAtUnix r <? after) then after else ai_ExpiresAtUnix r.

(** [removable] says which files the operating system lets go.  The result says whether one went. *)
Fixpoint sweep_invites (removable : string -> bool) (now : Z) (names : list string) (removed : bool)
    (files : directory AdmissionInviteRecord) : result bool * directory AdmissionInviteRecord :=
  match names with
  | [] => (Ok removed, files)
  | name :: rest =>
      if is_dir files name || negb (json_name name) then sweep_invites removable now rest removed files else
      let digest := "sha256:" +:+ String.substring 0 (String.length name - 5) name in
      match readAdmissionInvite files digest with
      | Err e => (Err e, files)
      | Ok None => sweep_invites removable now rest removed files
      | Ok (Some r) =>
          if retain_until r <=? now then
            if removable name then sweep_invites removable now rest true (delete (invite_path digest) files)
            else (Err (NewError "remove expired admission invite"), files)
          else sweep_invites removable now rest removed files
      end
  end.

(** [synced] says how the directory sync after a removal ended. *)
Definition sweepAdmissionInvites (removable : string -> bool) (synced : bool) (now : Z) : action Install unit :=
  fun s =>
  match sweep_invites removable now (dir_names (in_invites s)) false (in_invites s) with
  | (Err e, files) => (Err e, with_invites s files)
  | (Ok removed, files) =>
      if removed && negb synced then (Err (NewError "sync event journal directory"), with_invites s files)
      else (Ok tt, with_invites s files)
  end.

Definition CreateAdmissionInvite (removable : string -> bool) (synced : bool) (w : write_outcome) (entropy : bytes)
    (recipient invited : string) (expires now : time) : action Install (string * AdmissionInviteRecord) :=
  fun s =>
  match journal_usable (in_journal s) with Err e => (Err e, s) | Ok _ =>
  if IsZero entropy || negb (ids_Endpoint recipient) || (negb (String.eqb invited "") && negb (ids_Agent invited))
     || time_invalid now || (expires =? zero_time_unix) || (expires <=? now)
     || (MaxAdmissionInviteLifetime <? expires - now)
  then (Err (NewError "invalid admission invite"), s) else
  let token := AdmissionInvitePrefix +:+ rawurl_encode entropy in
  let digest := admissionInviteDigest entropy in
  match sweepAdmissionInvites removable synced now s with
  | (Err e, s) => (Err e, s)
  | (Ok _, s) =>
      match readAdmissionInvite (in_invites s) digest with
      | Err e => (Err e, s)
      | Ok (Some existing) =>
          if negb (String.eqb (ai_RecipientEndpointID existing) recipient)
             || negb (String.eqb (ai_InvitedAgentID existing) invited) || negb (ai_ExpiresAtUnix existing =? expires)
          then (Err ErrConflict, s) else (Ok (token, existing), s)
      | Ok None =>
          if MaxAdmissionInvites <=? Z.of_nat (length (dir_names (in_invites s)))
          then (Err (NewError "admission invite ledger is full"), s) else
          let record := MkInvite AdmissionInviteRecordSchema digest recipient invited expires now "" "" 0 in
          match file_replace w (invite_path digest) record (in_invites s) with
          | (Ok _, files) => (Ok (token, record), with_invites s files)
          | (Err e, files) => (Err e, with_invites s files)
          end
      end
  end end.

(** ** Tokens name their entropy *)

Definition b64_char (c : ascii) : bool := existsb (fun v => Ascii.eqb c (b64char v)) (List.map Z.of_nat (seq 0 64)).

Lemma b64char_range v : 0 <= v < 64 -> b64_char (b64char v) = true.
Proof.
  intros Hv. apply existsb_exists. exists v. split; [|apply Ascii.eqb_refl].
  apply in_map_iff. exists (Z.to_nat v). split; [lia|]. apply in_seq. lia.
Qed.

Definition url_safe (c : ascii) : bool :=
  Ascii.eqb (of_url (to_url c)) c && negb (not_url (to_url c)) && negb (Ascii.eqb c "=").

Lemma b64_char_url c : b64_char c = true -> url_safe c = true.
Proof.
  intros (v & Hv & E%Ascii.eqb_eq)%existsb_exists. subst c.
  assert (forallb (fun v => url_safe (b64char v)) (List.map Z.of_nat (seq 0 64)) = true) as H by (vm_compute; reflexivity).
  rewrite forallb_forall in H. by apply H.
Qed.

Lemma b64_encode_padded n b :
  length b = (3 * n + 2)%nat -> exists l, b64_encode_list b = l ++ ["="%char] /\ Forall (fun c => b64_char c = true) l /\
    length l = (4 * n + 3)%nat.
Proof.
  revert b. induction n as [|n IH]; intros b Hb.
  - destruct b as [|x [|y [|z b]]]; try done. pose proof (byteZ_range x). pose proof (byteZ_range y).
    exists [b64char (byteZ x / 4); b64char (byteZ x mod 4 * 16 + byteZ y / 16); b64char (byteZ y mod 16 * 4)].
    split_and!; [done| |done]. repeat constructor; apply b64char_range; dlia.
  - destruct b as [|x [|y [|z b]]]; try (cbn in Hb; lia). destruct (IH b) as (l & E & Hl & Hn); [cbn in Hb; lia|].
    pose proof (byteZ_range x). pose proof (byteZ_range y). pose proof (byteZ_range z).
    exists (b64char (byteZ x / 4) :: b64char (byteZ x mod 4 * 16 + byteZ y / 16)
      :: b64char (byteZ y mod 16 * 4 + byteZ z / 64) :: b64char (byteZ z mod 64) :: l).
    split_and!; [cbn [b64_encode_list app]; by rewrite E| |cbn [length]; lia].
    repeat (apply Forall_cons; split; [apply b64char_range; dlia|]). done.
Qed.

Lemma rawurl_roundtrip entropy : length entropy = 32%nat ->
  rawurl_decode (rawurl_encode entropy) = Some entropy /\ slen (rawurl_encode entropy) = 43.
Proof.
  intros Hl. destruct (b64_encode_padded 10 entropy Hl) as (l & E & Hs & Hn).
  assert (Forall (fun c => url_safe c = true) l) as Hu by (eapply Forall_impl; [exact Hs|]; apply b64_char_url).
  assert (List.filter (fun c => negb (Ascii.eqb c "=")) (l ++ ["="%char]) = l) as Hf.
  { rewrite List.filter_app. cbn. rewrite app_nil_r. apply forallb_filter_id, forallb_forall. intros c Hc%list_elem_of_In.
    rewrite Forall_forall in Hu. specialize (Hu c Hc). unfold url_safe in Hu. by apply andb_prop in Hu as [_ ->]. }
  unfold rawurl_decode, rawurl_encode. rewrite E, Hf. rewrite list_ascii_of_string_of_list_ascii. split.
  - rewrite (proj2 (existsb_false _ _)).
    2:{ apply Forall_forall. intros c (d & Hd & Hin)%list_elem_of_In%in_map_iff. subst c. rewrite Forall_forall in Hu.
        apply list_elem_of_In in Hin. specialize (Hu d Hin). unfold url_safe in Hu. breflect. done. }
    rewrite List.map_map. replace (List.map (fun c => of_url (to_url c)) l) with l.
    + rewrite <- E. apply b64_decode_encode_list.
    + clear -Hu. induction Hu as [|c l Hc Hu IH]; [done|]. cbn [List.map]. unfold url_safe in Hc.
      apply andb_prop in Hc as [[Hc%Ascii.eqb_eq _]%andb_prop _]. by rewrite Hc, <- IH.
  - rewrite slen_list, list_ascii_of_string_of_list_ascii, length_map, Hn. done.
Qed.

Lemma token_decodes entropy : length entropy = 32%nat -> IsZero entropy = false ->
  decodeAdmissionInvite (AdmissionInvitePrefix +:+ rawurl_encode entropy) = Ok entropy.
Proof.
  intros Hl Hz. destruct (rawurl_roundtrip entropy Hl) as [Hd Hs]. unfold decodeAdmissionInvite.
  rewrite slen_app, Hs. change (slen AdmissionInvitePrefix + 43 =? 7 + 43) with true.
  change (String.substring 0 7 (AdmissionInvitePrefix +:+ rawurl_encode entropy)) with
    ("invite_" +:+ String.substring 0 0 (rawurl_encode entropy)).
  replace (String.substring 0 0 (rawurl_encode entropy)) with "" by (by destruct (rawurl_encode entropy)).
  change (String.eqb ("invite_" +:+ "") AdmissionInvitePrefix) with true. cbn [negb orb].
  change (sdrop 7 (AdmissionInvitePrefix +:+ rawurl_encode entropy)) with (rawurl_encode entropy).
  rewrite Hd. unfold blen. rewrite Hl, Hz. done.
Qed.

(** ** Histories *)

Inductive invite_op : Type :=
  | OpCreateInvite (removable : string -> bool) (synced : bool) (w : write_outcome) (entropy : bytes)
      (recipient invited : string) (expires now : time)
  | OpClaimInvite (w : write_outcome) (token recipient sender eventID : string) (now : time).

Definition invite_step (op : invite_op) (s : Install) : Install :=
  match op with
  | OpCreateInvite removable synced w entropy recipient invited expires now =>
      (CreateAdmissionInvite removable synced w entropy recipient invited expires now s).2
  | OpClaimInvite w token recipient sender eventID now => (ClaimAdmissionInvite w token recipient sender eventID now s).2
  end.
Definition invite_run (ops : list invite_op) (s : Install) : Install := fold_left (fun s op => invite_step op s) ops s.

(** The operation does not create an invite with this digest again. *)
Definition creates_other (digest : string) (op : invite_op) : Prop :=
  match op with
  | OpCreateInvite _ _ _ entropy _ _ _ _ => admissionInviteDigest entropy <> digest
  | OpClaimInvite _ _ _ _ _ _ => True
  end.

(** The invite is bound to the event, or its record is gone. *)
Definition spent (files : directory AdmissionInviteRecord) (digest sender eventID : string) : Prop :=
  match files !! invite_path digest with
  | None => True
  | Some (ERec r) => ai_ClaimedEventID r = eventID /\ ai_ClaimedSenderAgentID r = sender
  | _ => False
  end.

Lemma invite_path_inj p q :
  invite_path (canon_Digest p) = invite_path (canon_Digest q) -> canon_Digest p = canon_Digest q.
Proof. apply (prefixed_path_inj "sha256:" ".json"); apply canon_Digest_pattern. Qed.

Lemma sweep_invites_spent removable now names removed files r files' digest sender eventID :
  sweep_invites removable now names removed files = (r, files') ->
  spent files digest sender eventID -> spent files' digest sender eventID.
Proof.
  revert removed files. induction names as [|name names IH]; intros removed files; cbn [sweep_invites]; [by intros [= _ <-]|].
  destruct (is_dir files name || negb (json_name name)); [apply IH|].
  destruct (readAdmissionInvite files _) as [[rec|]|e]; [|apply IH|by intros [= _ <-]].
  destruct (retain_until rec <=? now); [|apply IH]. destruct (removable name); [|by intros [= _ <-]].
  intros H Hs. apply (IH _ _ H). unfold spent in *.
  destruct (decide (invite_path digest = invite_path ("sha256:" +:+ String.substring 0 (String.length name - 5) name))) as [->|Hne].
  - by rewrite lookup_delete_eq.
  - by rewrite lookup_delete_ne.
Qed.

Lemma judge_spent files raw sender eventID found recipient' sender' eventID' now r b :
  let digest := admissionInviteDigest raw in
  spent files digest sender eventID -> eventID <> "" -> readAdmissionInvite files digest = Ok found ->
  judge_invite found recipient' sender' eventID' now = Ok (r, b) ->
  b = true /\ eventID' = eventID /\ sender' = sender.
Proof.
  cbv zeta. intros Hs He Hr HJ. unfold judge_invite in HJ. destruct found as [rec|]; [|done].
  assert (ai_ClaimedEventID rec = eventID /\ ai_ClaimedSenderAgentID rec = sender) as [<- <-].
  { unfold readAdmissionInvite in Hr. unfold spent in Hs. destruct (negb (ValidDigest _)); [done|].
    destruct (files !! invite_path _) as [[]|]; try done. inv_ok Hr. by injection Hr as <-. }
  inv_ok HJ. destruct (String.eqb_spec (ai_ClaimedEventID rec) ""); [done|]. cbn [negb] in HJ.
  destruct (String.eqb (ai_ClaimedEventID rec) eventID' && String.eqb (ai_ClaimedSenderAgentID rec) sender') eqn:E;
    [|done]. injection HJ as <- <-. by breflect.
Qed.

Lemma invite_subject_Ok refusal token recipient sender eventID now digest :
  invite_subject refusal token recipient sender eventID now = Ok digest ->
  exists raw, decodeAdmissionInvite token = Ok raw /\ digest = admissionInviteDigest raw /\ ids_Event eventID = true.
Proof.
  unfold invite_subject. destruct (decodeAdmissionInvite token) as [raw|] eqn:E; [|done]. intros H. inv_ok H.
  apply Ok_inj in H as <-. exists raw. split_and!; [done|done|]. by breflect.
Qed.

Lemma ids_Event_nonempty id : ids_Event id = true -> id <> "".
Proof. intros H ->. vm_compute in H. done. Qed.

(** What a claim did: nothing, or the binding of an unbound record. *)
Lemma claim_cases w token recipient sender eventID now s r s' :
  ClaimAdmissionInvite w token recipient sender eventID now s = (r, s') ->
  (exists e, r = Err e /\ s' = s)
  \/ exists raw rec bound, decodeAdmissionInvite token = Ok raw /\ eventID <> ""
     /\ readAdmissionInvite (in_invites s) (admissionInviteDigest raw) = Ok (Some rec)
     /\ judge_invite (Some rec) recipient sender eventID now = Ok (rec, bound)
     /\ (if bound then r = Ok false /\ s' = s else
         exists x files, file_replace w (invite_path (admissionInviteDigest raw)) (claimed rec sender eventID now)
           (in_invites s) = (x, files) /\ s' = with_invites s files /\ (is_ok r = true -> is_ok x = true)).
Proof.
  unfold ClaimAdmissionInvite. destruct (journal_usable (in_journal s)) as [[]|e]; [|intros [= <- <-]; left; by eexists].
 
  destruct (invite_subject _ _ _ _ _ _) as [digest|e] eqn:Hd; [|intros [= <- <-]; left; by eexists].
  destruct (invite_subject_Ok _ _ _ _ _ _ _ Hd) as (raw & Hraw & -> & Hev).
  destruct (readAdmissionInvite _ _) as [found|e] eqn:Hr; [|intros [= <- <-]; left; by eexists].
  destruct (judge_invite _ _ _ _ _) as [[rec bound]|e] eqn:HJ; [|intros [= <- <-]; left; by eexists].
  intros H. right. assert (found = Some rec) as ->.
  { clear H. unfold judge_invite in HJ. destruct found as [rec'|]; [|done]. inv_ok HJ.
    repeat (match type of HJ with (if ?c then _ else _) = _ => destruct c end); try done; by injection HJ as -> _. }
  exists raw, rec, bound. split_and!; [done|by apply ids_Event_nonempty|done|done|]. destruct bound; [by injection H as <- <-|].
  destruct (file_replace _ _ _ _) as [x files] eqn:Hf. exists x, files. split; [done|].
  destruct x; injection H as <- <-; done.
Qed.

Lemma invite_step_spent op s raw sender eventID :
  eventID <> "" -> creates_other (admissionInviteDigest raw) op ->
  spent (in_invites s) (admissionInviteDigest raw) sender eventID ->
  spent (in_invites (invite_step op s)) (admissionInviteDigest raw) sender eventID.
Proof.
  intros He Hop Hs. destruct op as [removable synced w entropy recipient invited expires now|w token recipient sender' eventID' now].
  - cbn [invite_step creates_other] in *. unfold CreateAdmissionInvite, sweepAdmissionInvites.
    destruct (journal_usable _); [|done]. destruct (_ || _); [done|].
    destruct (sweep_invites _ _ _ _ _) as [[removed|] files] eqn:Hw; pose proof (sweep_invites_spent _ _ _ _ _ _ _ _ _ _ Hw Hs) as Hs1;
      [|done]. destruct (removed && negb synced); [done|]. cbn [in_invites with_invites].
    destruct (readAdmissionInvite files _) as [[existing|]|]; [destruct (_ || _); done| |done].
    destruct (_ <=? _); [done|].
    destruct (file_replace _ _ _ _) as [x files'] eqn:Hf.
    assert (spent files' (admissionInviteDigest raw) sender eventID) by
      (destruct (file_replace_cases _ _ _ _ _ _ Hf) as [[-> _]|[-> _]]; [done|]; unfold spent in *;
       rewrite lookup_insert_ne; [done|]; intros E%invite_path_inj; done).
    by destruct x.
  - cbn [invite_step]. destruct (ClaimAdmissionInvite _ _ _ _ _ _ s) as [r s'] eqn:Hc.
    destruct (claim_cases _ _ _ _ _ _ _ _ _ Hc) as [(e & -> & ->)|(raw' & rec & bound & _ & _ & Hr & HJ & H)]; [done|].
    destruct bound; [by destruct H as [_ ->]|]. destruct H as (x & files & Hf & -> & _). cbn [snd in_invites with_invites].
    destruct (file_replace_cases _ _ _ _ _ _ Hf) as [[-> _]|[-> _]]; [done|].
    destruct (decide (admissionInviteDigest raw = admissionInviteDigest raw')) as [E|Hne].
    + rewrite E in Hs. by destruct (judge_spent _ _ _ _ _ _ _ _ _ _ _ Hs He Hr HJ) as [? _].
    + unfold spent in *. rewrite lookup_insert_ne; [done|]. intros E%invite_path_inj. done.
Qed.

Lemma invite_run_spent ops s raw sender eventID :
  eventID <> "" -> Forall (creates_other (admissionInviteDigest raw)) ops ->
  spent (in_invites s) (admissionInviteDigest raw) sender eventID ->
  spent (in_invites (invite_run ops s)) (admissionInviteDigest raw) sender eventID.
Proof.
  intros He Hops. revert s. induction Hops as [|op ops Hop _ IH]; intros s Hs; [done|].
  cbn [invite_run fold_left]. apply IH, invite_step_spent; done.
Qed.

(** A claim that was answered leaves its invite bound. *)
Lemma claim_bound w token recipient sender eventID now s b s' raw :
  ClaimAdmissionInvite w token recipient sender eventID now s = (Ok b, s') -> decodeAdmissionInvite token = Ok raw ->
  eventID <> "" /\ exists r, in_invites s' !! invite_path (admissionInviteDigest raw) = Some (ERec r) /\
    ai_ClaimedEventID r = eventID /\ ai_ClaimedSenderAgentID r = sender.
Proof.
  intros Hc Hraw. destruct (claim_cases _ _ _ _ _ _ _ _ _ Hc) as [(e & H & _)|(raw' & rec & bound & Hraw' & He & Hr & HJ & H)]; [done|].
  rewrite Hraw in Hraw'. apply Ok_inj in Hraw' as <-. split; [done|]. destruct bound.
  - destruct H as [_ ->]. unfold readAdmissionInvite in *. destruct (negb (ValidDigest _)); [done|].
    destruct (in_invites s !! _) as [[]|]; try done. inv_ok Hr. injection Hr as ->. unfold judge_invite in HJ. inv_ok HJ.
    destruct (negb (String.eqb (ai_ClaimedEventID rec) "")); [|by inv_ok HJ]. exists rec. split; [done|].
    destruct (String.eqb (ai_ClaimedEventID rec) eventID && String.eqb (ai_ClaimedSenderAgentID rec) sender) eqn:E; [|done].
    by breflect.
  - destruct H as (x & files & Hf & -> & Hok). destruct x as [[]|]; [|by specialize (Hok eq_refl)].
    apply file_replace_Ok in Hf as ->. cbn [in_invites with_invites]. eexists. by rewrite lookup_insert_eq.
Qed.

Lemma claim_binds w token recipient sender eventID now s b s' raw :
  ClaimAdmissionInvite w token recipient sender eventID now s = (Ok b, s') -> decodeAdmissionInvite token = Ok raw ->
  eventID <> "" /\ spent (in_invites s') (admissionInviteDigest raw) sender eventID.
Proof.
  intros Hc Hraw. destruct (claim_bound _ _ _ _ _ _ _ _ _ _ Hc Hraw) as (He & r & Hl & H). split; [done|].
  unfold spent. by rewrite Hl.
Qed.

Lemma check_spent s token raw recipient sender eventID sender' eventID' now :
  decodeAdmissionInvite token = Ok raw -> spent (in_invites s) (admissionInviteDigest raw) sender eventID -> eventID <> "" ->
  (sender', eventID') <> (sender, eventID) -> is_ok (CheckAdmissionInvite s token recipient sender' eventID' now) = false.
Proof.
  intros Hraw Hs He Hne. destruct (CheckAdmissionInvite s _ _ _ _ _) as [[]|e] eqn:HC; [|done].
  unfold CheckAdmissionInvite in HC. inv_ok HC.
  match goal with H : invite_subject _ _ _ _ _ _ = Ok _ |- _ =>
    destruct (invite_subject_Ok _ _ _ _ _ _ _ H) as (raw' & Hraw' & -> & _) end.
  rewrite Hraw in Hraw'. apply Ok_inj in Hraw' as <-.
  match goal with H : judge_invite _ _ _ _ _ = Ok ?p, Hr : readAdmissionInvite _ _ = Ok _ |- _ =>
    destruct p as [rec bound]; destruct (judge_spent _ _ _ _ _ _ _ _ _ _ _ Hs He Hr H) as (_ & -> & ->) end. done.
Qed.

(** An invite admits one event.  Once a claim of it has been answered, whatever
    invites are created and claimed in between (failed writes and sweeps included,
    the same random bytes drawn again excluded), no check and no claim of the same
    bearer for another event or another sender succeeds, and the refused claim
    changes nothing. *)
Theorem invite_spent_once w token raw recipient sender eventID now s b s1 ops :
  decodeAdmissionInvite token = Ok raw ->
  ClaimAdmissionInvite w token recipient sender eventID now s = (Ok b, s1) ->
  Forall (creates_other (admissionInviteDigest raw)) ops ->
  forall w' recipient' sender' eventID' now', (sender', eventID') <> (sender, eventID) ->
  is_ok (CheckAdmissionInvite (invite_run ops s1) token recipient' sender' eventID' now') = false /\
  exists e, ClaimAdmissionInvite w' token recipient' sender' eventID' now' (invite_run ops s1)
            = (Err e, invite_run ops s1).
Proof.
  intros Hraw Hc Hops w' recipient' sender' eventID' now' Hne. destruct (claim_binds _ _ _ _ _ _ _ _ _ _ Hc Hraw) as [He Hs].
  pose proof (invite_run_spent ops s1 raw sender eventID He Hops Hs) as Hs2. set (s2 := invite_run ops s1) in *. clearbody s2.
  split.
  - by eapply check_spent.
  - destruct (ClaimAdmissionInvite w' _ _ _ _ _ s2) as [r s'] eqn:HC.
    destruct (claim_cases _ _ _ _ _ _ _ _ _ HC) as [(e & -> & ->)|(raw' & rec & bound & Hraw' & _ & Hr & HJ & _)]; [by exists e|].
    rewrite Hraw in Hraw'. apply Ok_inj in Hraw' as <-.
    destruct (judge_spent _ _ _ _ _ _ _ _ _ _ _ Hs2 He Hr HJ) as (_ & -> & ->). done.
Qed.

Definition invite_entropy : bytes := repeat "007"%byte 32.
Definition invite_token : string := AdmissionInvitePrefix +:+ rawurl_encode invite_entropy.
Definition named (prefix : string) (c : ascii) : string := prefix +:+ string_of_list_ascii (repeat c 64).
(** An installation in which the invite was created at second 1000. *)
Definition invited : Install :=
  (CreateAdmissionInvite (fun _ => true) true WOk invite_entropy (named "mep_" "a") "" 2000 1000 no_devices).2.
Definition claim_at (now : time) (e : ascii) : action Install bool :=
  ClaimAdmissionInvite WOk invite_token (named "mep_" "a") (named "agent_" "a") (named "evt_" e) now.

Lemma invite_spent_once_witness :
  exists s1, claim_at 1500 "1" invited = (Ok true, s1) /\
  is_ok (CheckAdmissionInvite (invite_run [OpClaimInvite WOk invite_token (named "mep_" "a") (named "agent_" "a") (named "evt_" "1") 1600]
    s1) invite_token (named "mep_" "a") (named "agent_" "a") (named "evt_" "2") 1700) = false.
Proof.
  eexists. split; [vm_compute; reflexivity|].
  eapply (invite_spent_once WOk invite_token invite_entropy (named "mep_" "a") (named "agent_" "a") (named "evt_" "1") 1500 invited true);
    [vm_compute; reflexivity|vm_compute; reflexivity| |exact WOk|vm_compute; discriminate].
  repeat (apply Forall_cons; split; [exact I|]). apply Forall_nil. exact I.
Defined.

(** An invite claimed by a clock behind the one that created it: the claim is granted and
    writes a record the reader refuses.  From then on the granted claim cannot be retried
    and no invite can be created, because every creation sweeps the directory first. *)
Theorem backdated_claim_blocks_invites :
  exists s1, claim_at 999 "1" invited = (Ok true, s1) /\
  is_ok (claim_at 999 "1" s1).1 = false /\ is_ok (claim_at 1500 "1" s1).1 = false /\
  is_ok (CreateAdmissionInvite (fun _ => true) true WOk (repeat "008"%byte 32) (named "mep_" "a") "" 9000 5000 s1).1 = false.
Proof. eexists. split; [vm_compute; reflexivity|]. split_and!; vm_compute; reflexivity. Qed.
