(* ===== verification/Moderation.v ===== *)
(** * Room moderation: [pkg/eventlog/moderation.go]

    A moderation decision hides or restores one room message.  The message stays in
    the journal; the decision is a record of its own beside it, which only a current
    moderator of the room may write, one revision after the other.  The record and
    its reader are in [Journal.v]. *)

From S2P Require Import Prelude Encoding Canon Files Json Money Payload PayloadCodec Delivery Identity E2ee Journal Inbound Room Rooms Envelope.

Definition ErrModerationTargetMissing : error := Sentinel "room moderation target is not present".
Definition ErrModerationRollback : error := Sentinel "room moderation decision revision regressed".
Definition ErrModerationGap : error := Sentinel "room moderation decision skipped an unseen revision".

Definition with_moderation (s : RoomFiles) (files : directory ModerationDecision) : RoomFiles :=
  let j := rf_journal s in
  MkRoomFiles (MkJournal (jr_outbox j) (jr_quota j) (jr_inbound j) (jr_sessions j) files) (rf_rooms s) (rf_roles s).

Section Ledger.
  Context `{Ed : Ed25519} `{PR : Protocol} `{AF : AttachmentFormats}.

(** What the event says, once its sender is known to be its author. *)
Definition moderation_request (event : Event) (senderDelegation : Delegation) (now : time) : result RoomModeration :=
  refuse time_invalid now with NewError "invalid moderation time";
  refuse negb (String.eqb (ev_Kind event) "room.moderation") with NewError "event is not room moderation";
  call CheckWindow senderDelegation now;
  call AdmittedBy senderDelegation event;
  let* decoded := payload_Decode (ev_Kind event) (ev_Content event) in
  match decoded with
  | PRoomModeration body =>
      refuse negb (String.eqb (ev_RoomID event) (rm_RoomID body)) with NewError "moderation Event names another room";
      Ok body
  | _ => Err (NewError "invalid room moderation body")
  end.

(** Whether the sender moderates the room now. *)
Definition moderation_authority (s : RoomFiles) (body : RoomModeration) (senderAgentID : string)
    (authorityDelegation : Delegation) (now : time) : result unit :=
  let* roomRecord := RoomLedger_read (rf_rooms s) (rm_RoomID body) in
  match roomRecord with
  | None => Err (NewError "moderation room is unknown")
  | Some roomRecord =>
      let membership := record_membership roomRecord in
      let* policy := RoleLedger_read (rf_roles s) (rm_RoomID body) in
      match policy with
      | None => Err (NewError "room has no role policy")
      | Some policy =>
          refuse negb (rm_MembershipEpoch body =? mb_Epoch membership)
                 || negb (rm_RolePolicyRevision body =? rp_Revision policy)
            with NewError "moderation names stale room authority";
          call VerifyRolePolicy policy membership (record_authority roomRecord) authorityDelegation now;
          refuse negb (Allows policy membership senderAgentID ActionModerate)
            with NewError "sender has no room moderation role";
          Ok tt
      end
  end.

(** Whether the target is a message of the room. *)
Definition moderation_target (s : RoomFiles) (body : RoomModeration) : result unit :=
  match readRecord (jr_inbound (rf_journal s)) (inbound_path (rm_TargetEventID body)) with
  | Err e => if bool_decide (e = ErrNotExist) then Err ErrModerationTargetMissing else Err e
  | Ok targetRecord =>
      let* targetRaw := Record_Payload targetRecord in
      let* target := DecodeEventJSON targetRaw in
      refuse negb (String.eqb (ev_EventID target) (rm_TargetEventID body))
             || negb (String.eqb (ev_RoomID target) (rm_RoomID body))
             || negb (String.eqb (ev_Kind target) "room.message")
        with NewError "moderation target is not a message in this room";
      Ok tt
  end.

Definition decision_of (event : Event) (body : RoomModeration) (now : time) : ModerationDecision :=
  MkDecision ModerationRecordSchema (rm_RoomID body) (rm_TargetEventID body) (ev_EventID event)
    (rm_DecisionRevision body) (rm_MembershipEpoch body) (rm_RolePolicyRevision body) (ev_SenderAgentID event)
    (rm_Action body) (rm_Reason body) now.

(** [Some prior] when the decision was recorded before. *)
Definition judge_decision (prior : option ModerationDecision) (decision : ModerationDecision)
    : result (option ModerationDecision) :=
  match prior with
  | Some prior =>
      if String.eqb (md_DecisionEventID prior) (md_DecisionEventID decision) then Ok (Some prior) else
      refuse md_DecisionRevision decision <=? md_DecisionRevision prior with ErrModerationRollback;
      refuse negb (md_DecisionRevision decision =? u64 (md_DecisionRevision prior + 1)) with ErrModerationGap;
      Ok None
  | None =>
      refuse negb (md_DecisionRevision decision =? 1) with NewError "first moderation decision revision must be 1";
      Ok None
  end.

Definition Moderation_Apply (w : write_outcome) (event : Event) (senderDelegation authorityDelegation : Delegation)
    (now : time) : action RoomFiles (bool * ModerationDecision) :=
  fun s =>
  let judged :=
    call journal_usable (rf_journal s);
    let* body := moderation_request event senderDelegation now in
    call moderation_authority s body (ev_SenderAgentID event) authorityDelegation now;
    call moderation_target s body;
    let decision := decision_of event body now in
    let* prior := Moderation_read (jr_moderation (rf_journal s)) (rm_TargetEventID body) in
    let* known := judge_decision prior decision in
    Ok (decision, known) in
  match judged with
  | Err e => (Err e, s)
  | Ok (_, Some prior) => (Ok (false, prior), s)
  | Ok (decision, None) =>
      match file_replace w (moderation_path (md_TargetEventID decision)) decision (jr_moderation (rf_journal s)) with
      | (Ok _, files) => (Ok (true, decision), with_moderation s files)
      | (Err e, files) => (Err e, with_moderation s files)
      end
  end.

(** Whether the target is shown, and the decision it rests on. *)
Definition Visibility (s : RoomFiles) (targetEventID : string) : result (bool * option ModerationDecision) :=
  call journal_usable (rf_journal s);
  refuse negb (ids_Event targetEventID) with NewError "invalid moderation target";
  let* found := Moderation_read (jr_moderation (rf_journal s)) targetEventID in
  match found with
  | None => Ok (true, None)
  | Some decision => Ok (String.eqb (md_Action decision) "restore", Some decision)
  end.
End Ledger.

(** ** What an applied decision rests on *)

Section Proofs.
  Context `{Ed : Ed25519} `{PR : Protocol} `{AF : AttachmentFormats}.

Lemma payload_Decode_valid kind content v : payload_Decode kind content = Ok v -> is_ok (payload_Validate v) = true.
Proof.
  unfold payload_Decode, decodeSchema. intros H. inv_ok H. injection H as <-.
  match goal with H : payload_Validate _ = _ |- _ => by rewrite H end.
Qed.

Lemma allows_moderate p m agent : Allows p m agent ActionModerate = true ->
  agent ∈ mb_Members m /\ RoleOf p agent ∈ [RoleAdministrator; RoleModerator].
Proof.
  unfold Allows, Contains. destruct (negb (bool_decide (agent ∈ mb_Members m)) || _ || _ || _) eqn:E; [done|]. breflect. cbn -[RoleOf].
  intros [E|E]%orb_prop; breflect; (split; [done|]); rewrite E; [apply list_elem_of_here|apply list_elem_of_further, list_elem_of_here].
Qed.

(** Everything a recorded decision was checked for. *)
Record moderated (s : RoomFiles) (event : Event) (sd ad : Delegation) (now : time) (body : RoomModeration) : Prop := {
  mo_request : moderation_request event sd now = Ok body;
  mo_authority : moderation_authority s body (ev_SenderAgentID event) ad now = Ok tt;
  mo_target : moderation_target s body = Ok tt;
}.

Lemma request_valid event sd now body : moderation_request event sd now = Ok body ->
  is_ok (RoomModeration_Validate body) = true /\ ids_Event (ev_EventID event) = true /\
  ids_Agent (ev_SenderAgentID event) = true.
Proof.
  unfold moderation_request. intros H. inv_ok H.
  match goal with H : payload_Decode _ _ = Ok ?p |- _ => rename H into Hd; destruct p; try done end.
  match goal with H : AdmittedBy _ _ = _ |- _ => rename H into HA end.
  inv_ok H. injection H as <-. apply payload_Decode_valid in Hd. split; [done|]. unfold AdmittedBy in HA. destruct (ValidateEvent event) eqn:E; [|done].
  destruct (ValidateEvent_inv _ _ E) as (Hid & b & n & _ & Hv & _). split; [done|]. apply (ve_sender _ _ Hv).
Qed.

Lemma body_target body : is_ok (RoomModeration_Validate body) = true -> ids_Event (rm_TargetEventID body) = true.
Proof.
  unfold RoomModeration_Validate, requireEvent, requireMatch, is_ok. intros H.
  destruct (ids_Room (rm_RoomID body)); cbn [negb] in H; [|done]. destruct (_ || _); [done|].
  by destruct (ids_Event (rm_TargetEventID body)).
Qed.

(** What an application did: nothing, or the write of the next decision. *)
Lemma apply_cases w event sd ad now s r s' :
  Moderation_Apply w event sd ad now s = (r, s') ->
  (exists e, r = Err e /\ s' = s) \/
  exists body prior, moderated s event sd ad now body /\
    Moderation_read (jr_moderation (rf_journal s)) (rm_TargetEventID body) = Ok prior /\
    ((exists d, prior = Some d /\ md_DecisionEventID d = ev_EventID event /\ r = Ok (false, d) /\ s' = s) \/
     judge_decision prior (decision_of event body now) = Ok None /\
     exists x files, file_replace w (moderation_path (rm_TargetEventID body)) (decision_of event body now)
         (jr_moderation (rf_journal s)) = (x, files) /\ s' = with_moderation s files /\
       (x = Ok tt /\ r = Ok (true, decision_of event body now) \/ exists e, x = Err e /\ r = Err e)).
Proof.
  unfold Moderation_Apply. destruct (journal_usable (rf_journal s)) as [[]|e]; [|intros [= <- <-]; left; by eexists].
  destruct (moderation_request event sd now) as [body|e] eqn:Hq; [|intros [= <- <-]; left; by eexists].
  destruct (moderation_authority s body _ ad now) as [[]|e] eqn:Ha; [|intros [= <- <-]; left; by eexists].
  destruct (moderation_target s body) as [[]|e] eqn:Ht; [|intros [= <- <-]; left; by eexists].
  destruct (Moderation_read _ _) as [prior|e] eqn:Hr; [|intros [= <- <-]; left; by eexists].
  destruct (judge_decision prior _) as [[d|]|e] eqn:Hj; [..|intros [= <- <-]; left; by eexists].
  - intros [= <- <-]. right. exists body, prior. split_and!; [done..|]. left. exists d.
    unfold judge_decision in Hj. destruct prior as [p|]; [|by inv_ok Hj].
    destruct (String.eqb_spec (md_DecisionEventID p) (md_DecisionEventID (decision_of event body now))); [|by inv_ok Hj].
    by injection Hj as ->.
  - intros H. right. exists body, prior. split_and!; [done..|]. right. split; [done|].
    change (md_TargetEventID (decision_of event body now)) with (rm_TargetEventID body) in H.
    destruct (file_replace _ _ _ _) as [x files]. exists x, files. split; [done|].
    destruct x as [[]|e]; injection H as <- <-; (split; [done|]); [by left|right; by eexists].
Qed.

(** A written decision is read back. *)
Lemma decision_reads event sd ad now body s files :
  moderated s event sd ad now body -> 0 < now ->
  Moderation_read (<[moderation_path (rm_TargetEventID body) := ERec (decision_of event body now)]> files)
    (rm_TargetEventID body) = Ok (Some (decision_of event body now)).
Proof.
  intros [Hq _ _] Hn. destruct (request_valid _ _ _ _ Hq) as (Hb & He & Hs). unfold Moderation_read, read_file.
  rewrite lookup_insert_eq. cbn [decision_of md_Schema md_TargetEventID md_DecisionEventID md_ActorAgentID md_DecidedAtUnix].
  rewrite !String.eqb_refl, He, Hs. replace (now =? 0) with false by lia.
  change (moderation_body (decision_of event body now)) with
    (MkModeration (rm_RoomID body) (rm_MembershipEpoch body) (rm_RolePolicyRevision body) (rm_TargetEventID body)
       (rm_DecisionRevision body) (rm_Action body) (rm_Reason body)).
  replace (MkModeration _ _ _ _ _ _ _) with body by (by destruct body). by rewrite Hb.
Qed.

Lemma moderation_read_frame path files target d :
  moderation_path target <> path -> Moderation_read (<[path := ERec d]> files) target = Moderation_read files target.
Proof. intros H. unfold Moderation_read, read_file. by rewrite lookup_insert_ne. Qed.

(** ** Histories *)

(** Applications, with whatever else happens to the journal and the rooms in between. *)
Inductive moderation_step : RoomFiles -> RoomFiles -> Prop :=
  | step_apply w event sd ad now s r s' :
      0 < now -> Moderation_Apply w event sd ad now s = (r, s') -> moderation_step s s'
  | step_elsewhere s s' :
      jr_moderation (rf_journal s') = jr_moderation (rf_journal s) -> moderation_step s s'.

(** One decision after another, by another event, numbered from one. *)
Inductive decided : option ModerationDecision -> option ModerationDecision -> Prop :=
  | decided_first d : md_DecisionRevision d = 1 -> decided None (Some d)
  | decided_next d d' :
      md_DecisionRevision d' = md_DecisionRevision d + 1 -> md_DecisionEventID d' <> md_DecisionEventID d ->
      decided (Some d) (Some d').

(** A revision is unsigned. *)
Definition revision_typed (prior : option ModerationDecision) : Prop :=
  match prior with Some d => 0 <= md_DecisionRevision d | None => True end.

Lemma judge_decided prior d : judge_decision prior d = Ok None -> revision_typed prior -> decided prior (Some d).
Proof.
  unfold judge_decision. destruct prior as [p|]; intros H Ht; cbn in Ht.
  - destruct (String.eqb_spec (md_DecisionEventID p) (md_DecisionEventID d)); [done|]. inv_ok H. breflect.
    apply decided_next; [|done]. unfold u64 in *. apply Z.eqb_eq in Heqb0.
    pose proof (Z.mod_le (md_DecisionRevision p + 1) (2 ^ 64)). lia.
  - inv_ok H. breflect. apply decided_first. lia.
Qed.

Lemma decided_typed a b : decided a b -> revision_typed a -> revision_typed b.
Proof. intros []; cbn; lia. Qed.

Lemma decided_rtc_typed a b : rtc decided a b -> revision_typed a -> revision_typed b.
Proof. induction 1; eauto using decided_typed. Qed.

Lemma moderation_step_decided s s' target prior :
  moderation_step s s' -> ids_Event target = true -> revision_typed prior ->
  Moderation_read (jr_moderation (rf_journal s)) target = Ok prior ->
  exists later, Moderation_read (jr_moderation (rf_journal s')) target = Ok later /\ rtc decided prior later.
Proof.
  intros Hstep Ht Hty Hr. destruct Hstep as [w event sd ad now s r s' Hn H|s s' E]; [|rewrite E; by exists prior].
  destruct (apply_cases _ _ _ _ _ _ _ _ H) as [(e & _ & ->)|(body & prior' & Hm & Hr' & [(d & _ & _ & _ & ->)|(Hj & x & files & Hf & -> & _)])];
    [by exists prior..|]. cbn [with_moderation rf_journal jr_moderation].
  destruct (file_replace_cases _ _ _ _ _ _ Hf) as [[-> _]|[-> _]]; [by exists prior|].
  destruct (request_valid _ _ _ _ (mo_request _ _ _ _ _ _ Hm)) as (Hb & _ & _).
  destruct (decide (target = rm_TargetEventID body)) as [->|Hne].
  - rewrite Hr in Hr'. injection Hr' as <-. exists (Some (decision_of event body now)).
    split; [by eapply decision_reads|]. apply rtc_once, judge_decided; done.
  - exists prior. rewrite moderation_read_frame; [by split|].
    intros E. apply Hne, (prefixed_path_inj "evt_" ".json"); [done|by apply body_target|done].
Qed.

(** Under any interleaving of moderation events with everything else that
    happens to the journal and the rooms, failed writes included, the decision on a
    message stays readable, is never lost or replaced out of turn: it moves one
    revision at a time, starting from one, each by another event. *)
Theorem moderation_history s s' target prior :
  rtc moderation_step s s' -> ids_Event target = true -> revision_typed prior ->
  Moderation_read (jr_moderation (rf_journal s)) target = Ok prior ->
  exists later, Moderation_read (jr_moderation (rf_journal s')) target = Ok later /\ rtc decided prior later.
Proof.
  intros Hs Ht. revert prior. induction Hs as [s|s s1 s2 H1 H2 IH]; intros prior Hty Hr; [by exists prior|].
  destruct (moderation_step_decided _ _ _ _ H1 Ht Hty Hr) as (mid & Hmid & Hd).
  destruct (IH mid) as (later & Hl & Hd2); [by eapply decided_rtc_typed|done|]. exists later. split; [done|]. by etrans.
Qed.

(** A decision that is newly recorded was sent by a member whose role in the
    current, verified policy of the room lets it moderate, at the epoch and policy
    revision in force, on a message of that room in the journal; afterwards
    [Visibility] answers by that decision, and nothing but the decision record changed. *)
Theorem moderation_sound w event sd ad now s d s' :
  Moderation_Apply w event sd ad now s = (Ok (true, d), s') -> 0 < now ->
  AdmittedBy sd event = Ok tt /\
  (exists record policy, RoomLedger_read (rf_rooms s) (md_RoomID d) = Ok (Some record) /\
     RoleLedger_read (rf_roles s) (md_RoomID d) = Ok (Some policy) /\
     VerifyRolePolicy policy (record_membership record) (record_authority record) ad now = Ok tt /\
     md_MembershipEpoch d = rr_Epoch record /\ md_RolePolicyRevision d = rp_Revision policy /\
     ev_SenderAgentID event ∈ rr_Members record /\
     RoleOf policy (ev_SenderAgentID event) ∈ [RoleAdministrator; RoleModerator]) /\
  (exists stored raw target, readRecord (jr_inbound (rf_journal s)) (inbound_path (md_TargetEventID d)) = Ok stored /\
     Record_Payload stored = Ok raw /\ DecodeEventJSON raw = Ok target /\ ev_EventID target = md_TargetEventID d /\
     ev_RoomID target = md_RoomID d /\ ev_Kind target = "room.message") /\
  Visibility s' (md_TargetEventID d) = Ok (String.eqb (md_Action d) "restore", Some d) /\
  exists files, s' = with_moderation s files.
Proof.
  intros H Hn. assert (journal_usable (rf_journal s) = Ok tt) as Hu.
  { unfold Moderation_Apply in H. by destruct (journal_usable (rf_journal s)) as [[]|]. }
  destruct (apply_cases _ _ _ _ _ _ _ _ H) as [(e & ? & _)|(body & prior & Hm & _ & [(p & _ & _ & ? & _)|(Hj & x & files & Hf & -> & Hx)])];
    [done..|]. destruct Hx as [[-> Hd]|(e & _ & ?)]; [|done]. injection Hd as ->.
  pose proof (mo_request _ _ _ _ _ _ Hm) as Hq. pose proof (mo_authority _ _ _ _ _ _ Hm) as Ha.
  pose proof (mo_target _ _ _ _ _ _ Hm) as Htg. destruct (request_valid _ _ _ _ Hq) as (Hb & _ & _).
  cbn [decision_of md_RoomID md_TargetEventID md_MembershipEpoch md_RolePolicyRevision md_Action].
  split_and!.
  - unfold moderation_request in Hq. inv_ok Hq.
    match goal with H : AdmittedBy _ _ = Ok ?u |- _ => by destruct u end.
  - unfold moderation_authority in Ha. inv_ok Ha. rename r into record, r0 into policy. exists record, policy.
    breflect. match goal with H : VerifyRolePolicy _ _ _ _ _ = Ok ?u |- _ => destruct u end.
    match goal with H : Allows _ _ _ _ = true |- _ => destruct (allows_moderate _ _ _ H) as [? ?] end.
    cbn [record_membership mb_Epoch] in *. split_and!; try done; lia.
  - unfold moderation_target in Htg. destruct (readRecord _ _) as [stored|e] eqn:Hs; [|by destruct (bool_decide _)].
    inv_ok Htg. breflect. eauto 10.
  - apply file_replace_Ok in Hf as ->. unfold Visibility.
    change (journal_usable _) with (journal_usable (rf_journal s)). rewrite Hu, (body_target _ Hb).
    cbn [negb with_moderation rf_journal jr_moderation].
    by rewrite (decision_reads event sd ad now body s _ Hm Hn).
  - by exists files.
Qed.
End Proofs.

(** ** Witnesses *)

#[local] Existing Instances toy_Protocol toy_AttachmentFormats toy_ed25519.

Definition room_delegation : Delegation :=
  Eval vm_compute in
  let d := sample_delegation in
  MkDelegation (dg_Network d) (dg_AgentID d) (dg_EndpointID d) (dg_IdentityPublicKey d) (dg_ADNLID d)
    (dg_AllowedProtocolVersions d) ["chat"; "room"] (dg_NotBeforeUnix d) (dg_ExpiresAtUnix d)
    (dg_MaximumSessionLifetimeSeconds d) (dg_ContactDescriptorPolicyDigest d) (dg_InboxAdmissionPolicyDigest d).

(** An event of the room's first member. *)
Definition room_event (kind : string) (body : Payload) : Event :=
  let draft := MkEvent (Some sample_domain) (id_named "conv_" "1") "" sample_agent_id (dg_EndpointID sample_delegation)
    (id_named "dev_" "3") sample_room "" "" [] 1800 5000 kind "" "" (sample_ack body) "" [] "" in
  match NewEvent draft with Ok e => e | Err _ => draft end.
Definition room_message : Event :=
  Eval vm_compute in room_event "room.message" (PRoomMessage (MkRoomMessage sample_room 1 "text/markdown" "hello")).
Definition moderation_event (revision : Z) (act : string) : Event :=
  room_event "room.moderation" (PRoomModeration (MkModeration sample_room 1 1 (ev_EventID room_message) revision act "off topic")).
Definition hide_event : Event := Eval vm_compute in moderation_event 1 "hide".

Definition stored (e : Event) : Entry :=
  MkEntry (ev_EventID e) (ev_SenderEndpointID e) (ev_ConversationID e)
    (match EncodeEventJSON e with Ok raw => raw | Err _ => [] end) AdmissionAdmitted 1900 5000 None.
(** A room with its role policy, and the message in the journal. *)
Definition moderated_room : RoomFiles :=
  Eval vm_compute in
  MkRoomFiles (Accept COk (stored room_message) (rf_journal with_policy)).2 (rf_rooms with_policy) (rf_roles with_policy).
Definition hidden : RoomFiles :=
  Eval vm_compute in (Moderation_Apply WOk hide_event room_delegation sample_delegation 2000 moderated_room).2.
Definition hide_decision : ModerationDecision :=
  MkDecision ModerationRecordSchema sample_room (ev_EventID room_message) (ev_EventID hide_event) 1 1 1 sample_agent_id
    "hide" "off topic" 2000.

Lemma hides : Moderation_Apply WOk hide_event room_delegation sample_delegation 2000 moderated_room
  = (Ok (true, hide_decision), hidden).
Proof. vm_compute. reflexivity. Qed.

Lemma moderation_sound_witness : Visibility hidden (ev_EventID room_message) = Ok (false, Some hide_decision).
Proof.
  destruct (moderation_sound WOk hide_event room_delegation sample_delegation 2000 moderated_room hide_decision hidden)
    as (_ & _ & _ & H & _); [exact hides|lia|exact H].
Defined.

Lemma moderation_history_witness : exists later,
  Moderation_read (jr_moderation (rf_journal hidden)) (ev_EventID room_message) = Ok later /\ rtc decided None later.
Proof.
  apply (moderation_history moderated_room hidden (ev_EventID room_message) None); [|reflexivity|exact I|reflexivity].
  apply rtc_once. eapply (step_apply WOk hide_event room_delegation sample_delegation 2000); [lia|exact hides].
Defined.
