(* ===== verification/Admission.v ===== *)
(** * The admission gate: [pkg/admission]

    The gate decides whether a decrypted inbound event enters the journal.  It reads
    the sender's delegation from finalized chain state, the ledgers of devices and
    rooms, the recipient's inbox policy and its one-time invites, and writes the event
    itself, an invite's claim and a moderation decision.  All of that is the state
    [Install] of [Devices.v].

    The clock reading, the outcome of every write and, where the session layer takes
    over the commit, the committer are arguments. *)

From S2P Require Import Prelude Encoding Canon Files Fault Json Money Payload PayloadCodec Delivery Identity E2ee Journal.
From S2P Require Import Inbound Room Rooms Envelope Devices Invites Moderation.

(** ** Inbox policies ([policy.go]) *)

Inductive Admission : Type :=
  | AdmitAllow | AdmitRequireAdmission | AdmitHoldForApproval | AdmitInviteOrHold | AdmitDeny.
#[global] Instance Admission_eq_dec : EqDecision Admission.
Proof. solve_decision. Defined.

Definition RuleOpen : string := "open-inbox".
Definition RuleAllowList : string := "allow-list".
Definition TellThem : string := "require-admission".
Definition AskTheOwner : string := "hold-for-approval".
Definition InviteOrAskOwner : string := "invite-or-hold".

Record InboxPolicyDocument : Type := MkDocument { ip_Rule : string; ip_Unknown : string }.

Definition Document_Validate (d : InboxPolicyDocument) : result unit :=
  if String.eqb (ip_Rule d) RuleOpen then
    refuse negb (String.eqb (ip_Unknown d) "") with NewError "an open inbox has no rule for unknown senders"; Ok tt
  else if String.eqb (ip_Rule d) RuleAllowList then
    refuse negb (String.eqb (ip_Unknown d) TellThem) && negb (String.eqb (ip_Unknown d) AskTheOwner)
           && negb (String.eqb (ip_Unknown d) InviteOrAskOwner)
      with NewError "an allow list must say what happens to an unknown sender";
    Ok tt
  else Err (NewError "this build does not implement that inbox rule").

Definition DomainInboxPolicy : string := "tos.messaging.inbox-policy.v1" +:+ NUL.
Definition Document_Digest (d : InboxPolicyDocument) : result string :=
  call Document_Validate d;
  Ok (canon_Digest (canon_Text (canon_Text (bytes_of_string DomainInboxPolicy) (ip_Rule d)) (ip_Unknown d))).

Record Roster : Type := MkRoster { ro_Known : gset string; ro_Blocked : gset string }.

Record ContactPolicy : Type := MkContactPolicy {
  po_document : InboxPolicyDocument;
  po_roster : Roster;
  po_digest : string;
}.

Definition NewContactPolicy (document : InboxPolicyDocument) (roster : Roster) : result ContactPolicy :=
  let* digest := Document_Digest document in
  Ok (MkContactPolicy document roster digest).

Definition Configured (p : ContactPolicy) : bool := negb (String.eqb (po_digest p) "").

Definition Admits (p : ContactPolicy) (senderAgentID : string) : Admission :=
  if String.eqb (ip_Rule (po_document p)) RuleOpen then AdmitAllow else
  if bool_decide (senderAgentID ∈ ro_Blocked (po_roster p)) then AdmitDeny else
  if bool_decide (senderAgentID ∈ ro_Known (po_roster p)) then AdmitAllow else
  if String.eqb (ip_Unknown (po_document p)) AskTheOwner then AdmitHoldForApproval else
  if String.eqb (ip_Unknown (po_document p)) InviteOrAskOwner then AdmitInviteOrHold else
  AdmitRequireAdmission.

(** The failure codes of [pkg/fault] the gate answers with. *)
Definition CodeNetworkMismatch : Code := "network-mismatch".
Definition CodeDelegationUncommitted : Code := "delegation-uncommitted".
Definition CodeDelegationExpired : Code := "delegation-expired".
Definition CodeDeviceRevoked : Code := "device-revoked".
Definition CodeSenderMismatch : Code := "sender-mismatch".
Definition CodeNotAuthentic : Code := "not-authentic".
Definition CodeReplayed : Code := "replayed".
Definition CodeClassNotDelegated : Code := "class-not-delegated".
Definition CodeAdmissionRequired : Code := "admission-required".
Definition CodeUnknownEventKind : Code := "unknown-event-kind".
Definition CodeNotARoomMember : Code := "not-a-room-member".
Definition CodeContentTooLarge : Code := "content-too-large".
Definition CodePayloadMalformed : Code := "payload-malformed".

Definition codeFor (admission : Admission) : result Code :=
  match admission with
  | AdmitRequireAdmission => Ok CodeAdmissionRequired
  | AdmitHoldForApproval => Ok CodeApprovalRequired
  | AdmitDeny => Ok CodeRejected
  | _ => Err (NewError "policy returned an unknown admission")
  end.

(** ** Arrivals and decisions ([admit.go]) *)

Definition RecordSchema : string := "tos.messaging.admission-record.v1".
Definition DefaultClockSkewSeconds : Z := 300.
Definition MinInstallSaltBytes : Z := 16.

Definition Route : Type := string.
Definition routes : list Route := ["direct"; "tunnel"; "relay"; "https"].

Inductive Outcome : Type := Accepted | Duplicate | Held | Rejected.
#[global] Instance Outcome_eq_dec : EqDecision Outcome.
Proof. solve_decision. Defined.

Record admission_Record : Type := MkAdmissionRecord {
  ar_Schema : string;
  ar_EventID : string;
  ar_SenderRef : string;
  ar_Class : string;
  ar_Outcome : Outcome;
  ar_Code : Code;
  ar_Route : Route;
  ar_AtUnix : Z;
}.

(** The delegation and the event are absent where Go leaves their zero values. *)
Record Decision : Type := MkGateDecision {
  dc_Outcome : Outcome;
  dc_Code : Code;
  dc_Response : option Response;
  dc_Delegation : option Delegation;
  dc_Event : option Event;
  dc_Record : admission_Record;
}.

(** [ReceivedAtUnix] is a [uint64]. *)
Record Arrival : Type := MkArrival {
  ib_Event : Event;
  ib_DelegationJSON : bytes;
  ib_AdmissionToken : string;
  ib_Route : Route;
  ib_ReceivedAtUnix : Z;
}.

(** The fields that are pointers to ledgers say whether they are set. *)
Record Config : Type := MkConfig {
  gc_Network : option NetworkDomain;
  gc_Chain : ChainPolicy;
  gc_Resolver : option AgentResolver;
  gc_Journal : bool;
  gc_Policy : ContactPolicy;
  gc_Devices : bool;
  gc_Rooms : bool;
  gc_LocalDelegationJSON : bytes;
  gc_LocalAgentID : string;
  gc_LocalEndpointID : string;
  gc_MaxContentBytes : Z;
  gc_MaxClockSkewSeconds : Z;
  gc_InstallSalt : bytes;
}.

(** [now] is what the clock of the configuration answers. *)
Definition gate_New (now : time) (config : Config) : result Config :=
  refuse match gc_Network config with
         | None => true
         | Some n => String.eqb (nd_NetworkId n) "" || negb (hex64 (nd_GenesisRootHash n)) || negb (hex64 (nd_GenesisFileHash n))
         end
    with NewError "invalid admission network domain";
  refuse match gc_Resolver config with None => true | Some _ => false end
    with NewError "admission requires a finalized state resolver";
  call ChainPolicy_Validate (gc_Chain config);
  refuse negb (gc_Journal config) with NewError "admission requires a durable journal";
  refuse negb (gc_Devices config) with NewError "admission requires a device ledger to detect revoked devices";
  refuse negb (Configured (gc_Policy config)) with NewError "admission requires an inbox policy";
  match identity_Verify (gc_Resolver config) (gc_Network config) (gc_Chain config) (gc_LocalDelegationJSON config) now with
  | Err e => Err (NewError ("this endpoint's own delegation does not verify: " +:+ error_text e))
  | Ok local =>
      refuse negb (String.eqb (dg_AgentID local) (gc_LocalAgentID config))
             || negb (String.eqb (dg_EndpointID local) (gc_LocalEndpointID config))
        with NewError "this endpoint's delegation belongs to another endpoint";
      refuse negb (String.eqb (po_digest (gc_Policy config)) (dg_InboxAdmissionPolicyDigest local))
        with NewError "the inbox policy in use is not the one this endpoint published";
      refuse blen (gc_InstallSalt config) <? MinInstallSaltBytes with NewError "admission requires a per-install salt";
      Ok (MkConfig (gc_Network config) (gc_Chain config) (gc_Resolver config) (gc_Journal config) (gc_Policy config)
            (gc_Devices config) (gc_Rooms config) (gc_LocalDelegationJSON config) (gc_LocalAgentID config)
            (gc_LocalEndpointID config)
            (if (gc_MaxContentBytes config <=? 0) || (MaxContentBytes <? gc_MaxContentBytes config)
             then MaxContentBytes else gc_MaxContentBytes config)
            (if gc_MaxClockSkewSeconds config =? 0 then DefaultClockSkewSeconds else gc_MaxClockSkewSeconds config)
            (gc_InstallSalt config))
  end.

(** [time.Unix(int64(seconds), 0)] *)
Definition unix_time (seconds : Z) : time := if seconds <? 2 ^ 63 then seconds else seconds - 2 ^ 64.

Definition sameNetwork (first second : option NetworkDomain) : bool :=
  match first, second with
  | Some a, Some b =>
      String.eqb (nd_NetworkId a) (nd_NetworkId b) && String.eqb (nd_GenesisRootHash a) (nd_GenesisRootHash b)
      && String.eqb (nd_GenesisFileHash a) (nd_GenesisFileHash b)
  | _, _ => false
  end.

Definition senderRef (g : Config) (agentID : string) : string :=
  if String.eqb agentID "" then "" else
  "ref_" +:+ hex_encode (take 8 (sha256 (canon_Text (canon_Bytes [] (gc_InstallSalt g)) agentID))).

Definition gate_record (g : Config) (inbound : Arrival) (class : string) (outcome : Outcome) (code : Code) : admission_Record :=
  MkAdmissionRecord RecordSchema (ev_EventID (ib_Event inbound)) (senderRef g (ev_SenderAgentID (ib_Event inbound)))
    class outcome code (ib_Route inbound) (ib_ReceivedAtUnix inbound).

(** [delegation] is what the caller sets on the refusal. *)
Definition gate_refuse (g : Config) (inbound : Arrival) (code : Code) (class : string) (delegation : option Delegation)
    : Decision :=
  MkGateDecision Rejected code (Some (PeerCode code 0)) delegation None (gate_record g inbound class Rejected code).

Definition withinWindow (g : Config) (inbound : Arrival) : bool :=
  let created := ev_CreatedAtUnix (ib_Event inbound) in
  let expires := ev_ExpiresAtUnix (ib_Event inbound) in
  let received := ib_ReceivedAtUnix inbound in
  if u64 (received + gc_MaxClockSkewSeconds g) <? created then false
  else if negb (expires =? 0) && (expires <=? received) then false
  else true.

Definition authority (g : Config) (inbound : Arrival) : Code + Delegation :=
  match identity_DecodeJSON (ib_DelegationJSON inbound) with
  | Err _ => inl CodeDelegationUncommitted
  | Ok delegation =>
      let now := unix_time (ib_ReceivedAtUnix inbound) in
      if negb (is_ok (CheckWindow delegation now)) then inl CodeDelegationExpired else
      match identity_Verify (gc_Resolver g) (gc_Network g) (gc_Chain g) (ib_DelegationJSON inbound) now with
      | Err _ => inl CodeDelegationUncommitted
      | Ok verified => inr verified
      end
  end.

Definition outcome_name (o : Outcome) : string :=
  match o with Accepted => "accepted" | Duplicate => "duplicate" | Held => "held" | Rejected => "rejected" end.

Definition wireRecord : list (string * jkind) :=
  [("schema", JK_String); ("event_id", JK_String); ("sender_ref", JK_String); ("class", JK_String);
   ("outcome", JK_String); ("code", JK_String); ("route", JK_String); ("at_unix", JK_Uint 64)].

Definition EncodeRecordJSON (r : admission_Record) : result bytes :=
  refuse negb (String.eqb (ar_Schema r) RecordSchema) || String.eqb (ar_EventID r) "" || String.eqb (ar_SenderRef r) ""
    with NewError "invalid admission record";
  refuse negb (bool_decide (ar_Route r ∈ routes)) with NewError "invalid admission record route";
  Ok (marshal_struct (fun name => String.eqb name "class" || String.eqb name "code") wireRecord
        [VString (ar_Schema r); VString (ar_EventID r); VString (ar_SenderRef r); VString (ar_Class r);
         VString (outcome_name (ar_Outcome r)); VString (ar_Code r); VString (ar_Route r); VUint (ar_AtUnix r)]).

Section Gate.
  Context `{Ed : Ed25519} `{PR : Protocol} `{AF : AttachmentFormats}.

(** Why [admit] returned before it reached the next stage. *)
Inductive stop : Type :=
  | Refuse (code : Code) (class : string) (delegation : option Delegation)
  | Fail (e : error).

Definition stopped (g : Config) (inbound : Arrival) (why : stop) : result Decision :=
  match why with
  | Refuse code class delegation => Ok (gate_refuse g inbound code class delegation)
  | Fail e => Err e
  end.

(** What came out of the checks: the class, the sender's delegation, the policy's answer
    (with a valid invite taken into account) and whether an invite is to be claimed. *)
Record passed : Type := MkPassed {
  ps_class : string;
  ps_delegation : Delegation;
  ps_admission : Admission;
  ps_usedInvite : bool;
}.

(** The policy's answer once the invite has been looked at. *)
Definition invited_admission (g : Config) (inbound : Arrival) (s : Install) : Admission * bool :=
  let e := ib_Event inbound in
  let admission := Admits (gc_Policy g) (ev_SenderAgentID e) in
  let usedInvite :=
    bool_decide (admission ∈ [AdmitRequireAdmission; AdmitInviteOrHold]) && negb (String.eqb (ib_AdmissionToken inbound) "")
    && is_ok (CheckAdmissionInvite s (ib_AdmissionToken inbound) (gc_LocalEndpointID g) (ev_SenderAgentID e) (ev_EventID e)
                (unix_time (ib_ReceivedAtUnix inbound))) in
  if usedInvite then (AdmitAllow, true)
  else if bool_decide (admission = AdmitInviteOrHold) then (AdmitHoldForApproval, false) else (admission, false).

(** Who sent the event: everything up to the inbox policy. *)
Definition sender_checks (g : Config) (inbound : Arrival) (s : Install) : stop + (string * Delegation) :=
  let e := ib_Event inbound in
  if negb (is_ok (ValidateEvent e)) then inl (Refuse CodeSenderMismatch "" None) else
  match ClassOf (ev_Kind e) with
  | None => inl (Refuse CodeUnknownEventKind "" None)
  | Some class =>
      if LocalOnly (ev_Kind e) then inl (Refuse CodeUnknownEventKind class None) else
      if negb (sameNetwork (ev_Network e) (gc_Network g)) then inl (Refuse CodeNetworkMismatch class None) else
      if negb (withinWindow g inbound) then inl (Refuse CodeEventOutsideWindow class None) else
      if gc_MaxContentBytes g <? blen (ev_Content e) then inl (Refuse CodeContentTooLarge class None) else
      match authority g inbound with
      | inl code => inl (Refuse code class None)
      | inr delegation =>
          if negb (String.eqb (ev_SenderAgentID e) (dg_AgentID delegation))
             || negb (String.eqb (ev_SenderEndpointID e) (dg_EndpointID delegation))
          then inl (Refuse CodeSenderMismatch class None) else
          match Device_Judge s (dg_EndpointID delegation) (ev_SenderDeviceID e) with
          | Err err => inl (Fail err)
          | Ok DeviceRevoked => inl (Refuse CodeDeviceRevoked class None)
          | Ok _ =>
              match (if negb (String.eqb (ev_RoomID e) "") && gc_Rooms g
                     then JudgeMember (in_rooms s) (ev_RoomID e) (ev_SenderAgentID e) else Ok RoomUnknown) with
              | Err err => inl (Fail err)
              | Ok RoomNotMember => inl (Refuse CodeNotARoomMember class None)
              | Ok _ =>
                  if negb (AllowsEventClass delegation class) then inl (Refuse CodeClassNotDelegated class None)
                  else inr (class, delegation)
              end
          end
      end
  end.

(** The inbox policy, and then the body. *)
Definition policy_checks (g : Config) (inbound : Arrival) (class : string) (delegation : Delegation) (s : Install)
    : stop + passed :=
  let e := ib_Event inbound in
  let '(admission, usedInvite) := invited_admission g inbound s in
  if String.eqb (ev_Kind e) "room.moderation" && negb (bool_decide (admission = AdmitAllow))
  then inl (Refuse CodeAdmissionRequired class (Some delegation)) else
  if negb (bool_decide (admission ∈ [AdmitAllow; AdmitHoldForApproval])) then
    match codeFor admission with
    | Err err => inl (Fail err)
    | Ok code => inl (Refuse code class (Some delegation))
    end
  else if negb (is_ok (payload_ValidateContent (ev_Kind e) (ev_Content e)))
  then inl (Refuse CodePayloadMalformed class (Some delegation))
  else inr (MkPassed class delegation admission usedInvite).

Definition gate_checks (g : Config) (inbound : Arrival) (s : Install) : stop + passed :=
  match sender_checks g inbound s with
  | inl why => inl why
  | inr (class, delegation) => policy_checks g inbound class delegation s
  end.

Definition claim_invite (w : write_outcome) (g : Config) (inbound : Arrival) (p : passed) (s : Install)
    : option stop * Install :=
  if ps_usedInvite p then
    match ClaimAdmissionInvite w (ib_AdmissionToken inbound) (gc_LocalEndpointID g) (ev_SenderAgentID (ib_Event inbound))
            (ev_EventID (ib_Event inbound)) (unix_time (ib_ReceivedAtUnix inbound)) s with
    | (Err _, s) => (Some (Refuse CodeAdmissionRequired (ps_class p) (Some (ps_delegation p))), s)
    | (Ok _, s) => (None, s)
    end
  else (None, s).

Definition with_room_files (s : Install) (r : RoomFiles) : Install := MkInstall r (in_devices s) (in_invites s).

Definition moderate (w : write_outcome) (g : Config) (inbound : Arrival) (p : passed) (s : Install)
    : option stop * Install :=
  let e := ib_Event inbound in
  let now := unix_time (ib_ReceivedAtUnix inbound) in
  let refusal := Some (Refuse CodeNotAuthentic (ps_class p) (Some (ps_delegation p))) in
  if negb (String.eqb (ev_Kind e) "room.moderation") then (None, s) else
  if negb (gc_Rooms g) then (refusal, s) else
  match CurrentAuthorityDelegation (in_rooms s) (ev_RoomID e) with
  | Err err => (Some (Fail err), s)
  | Ok None => (refusal, s)
  | Ok (Some authority) =>
      match identity_EncodeJSON authority with
      | Err err => (Some (Fail err), s)
      | Ok rawAuthority =>
          match identity_Verify (gc_Resolver g) (gc_Network g) (gc_Chain g) rawAuthority now with
          | Err _ => (refusal, s)
          | Ok liveAuthority =>
              match journal_usable (in_journal s) with
              | Err err => (Some (Fail err), s)
              | Ok _ =>
                  match Moderation_Apply w e (ps_delegation p) liveAuthority now (in_rooms s) with
                  | (Err _, r) => (refusal, with_room_files s r)
                  | (Ok _, r) => (None, with_room_files s r)
                  end
              end
          end
      end
  end.

Definition Committer : Type := Entry -> action Install bool.
(** [Journal.Accept] as the committer of [Admit]. *)
Definition accept_commit (c : create_outcome) : Committer :=
  fun entry s =>
  match Accept c entry (in_journal s) with
  | (Ok (fresh, _), j) => (Ok fresh, with_journal s j)
  | (Err e, j) => (Err e, with_journal s j)
  end.

Definition gate_entry (inbound : Arrival) (p : passed) (payload : bytes) : Entry :=
  let e := ib_Event inbound in
  MkEntry (ev_EventID e) (ev_SenderEndpointID e) (ev_ConversationID e) payload
    (if bool_decide (ps_admission p = AdmitHoldForApproval) then AdmissionPending else AdmissionAdmitted)
    (ib_ReceivedAtUnix inbound) (ev_ExpiresAtUnix e) None.

Definition gate_commit (commit : Committer) (g : Config) (inbound : Arrival) (p : passed) : action Install Decision :=
  fun s =>
  let e := ib_Event inbound in
  match EncodeEventJSON e with
  | Err err => (Err err, s)
  | Ok payload =>
      match commit (gate_entry inbound p payload) s with
      | (Err err, s) =>
          if bool_decide (err = ErrConflict) then (Ok (gate_refuse g inbound CodeReplayed (ps_class p) None), s) else
          if bool_decide (err = ErrPendingFull) then (Ok (gate_refuse g inbound CodeQuotaExceeded (ps_class p) None), s) else
          (Err err, s)
      | (Ok fresh, s) =>
          if bool_decide (ps_admission p = AdmitHoldForApproval) && fresh then
            (Ok (MkGateDecision Held CodeApprovalRequired (Some (PeerCode CodeApprovalRequired 0)) (Some (ps_delegation p))
                   (Some e) (gate_record g inbound (ps_class p) Held CodeApprovalRequired)), s)
          else
            let outcome := if fresh then Accepted else Duplicate in
            (Ok (MkGateDecision outcome "" None (Some (ps_delegation p)) (Some e)
                   (gate_record g inbound (ps_class p) outcome "")), s)
      end
  end.

(** [wi] and [wm] are how the writes of the invite's claim and of the moderation record end. *)
Definition gate_admit (wi wm : write_outcome) (commit : Committer) (g : Config) (inbound : Arrival) : action Install Decision :=
  fun s =>
  if negb (bool_decide (ib_Route inbound ∈ routes)) then (Err (NewError "invalid arrival route"), s) else
  if ib_ReceivedAtUnix inbound =? 0 then (Err (NewError "invalid arrival time"), s) else
  match gate_checks g inbound s with
  | inl why => (stopped g inbound why, s)
  | inr p =>
      match claim_invite wi g inbound p s with
      | (Some why, s) => (stopped g inbound why, s)
      | (None, s) =>
          match moderate wm g inbound p s with
          | (Some why, s) => (stopped g inbound why, s)
          | (None, s) => gate_commit commit g inbound p s
          end
      end
  end.

(** [c] is how the creation of the event's file ends. *)
Definition Admit (wi wm : write_outcome) (c : create_outcome) : Config -> Arrival -> action Install Decision :=
  gate_admit wi wm (accept_commit c).

Definition AdmitWithCommit (wi wm : write_outcome) (commit : option Committer) (g : Config) (inbound : Arrival)
    : action Install Decision :=
  fun s =>
  match commit with
  | None => (Err (NewError "admission session committer is missing"), s)
  | Some commit => gate_admit wi wm commit g inbound s
  end.
End Gate.

(** ** What the checks establish *)

Section Checks.
  Context `{Ed : Ed25519} `{PR : Protocol} `{AF : AttachmentFormats}.

(** The sender's authority for an event, as the gate found it in state [s]. *)
Record sender_ok (g : Config) (inbound : Arrival) (s : Install) (class : string) (d : Delegation) : Prop := {
  so_valid : is_ok (ValidateEvent (ib_Event inbound)) = true;
  so_class : ClassOf (ev_Kind (ib_Event inbound)) = Some class;
  so_remote : LocalOnly (ev_Kind (ib_Event inbound)) = false;
  so_network : sameNetwork (ev_Network (ib_Event inbound)) (gc_Network g) = true;
  so_window : withinWindow g inbound = true;
  so_content : blen (ev_Content (ib_Event inbound)) <= gc_MaxContentBytes g;
  so_verified : identity_Verify (gc_Resolver g) (gc_Network g) (gc_Chain g) (ib_DelegationJSON inbound)
                  (unix_time (ib_ReceivedAtUnix inbound)) = Ok d;
  so_agent : ev_SenderAgentID (ib_Event inbound) = dg_AgentID d;
  so_endpoint : ev_SenderEndpointID (ib_Event inbound) = dg_EndpointID d;
  so_device : exists standing, Device_Judge s (dg_EndpointID d) (ev_SenderDeviceID (ib_Event inbound)) = Ok standing /\
                standing <> DeviceRevoked;
  so_room : ev_RoomID (ib_Event inbound) <> "" -> gc_Rooms g = true ->
            exists standing, JudgeMember (in_rooms s) (ev_RoomID (ib_Event inbound)) (dg_AgentID d) = Ok standing /\
              standing <> RoomNotMember;
  so_scope : AllowsEventClass d class = true;
}.

Lemma authority_inr g inbound d : authority g inbound = inr d ->
  identity_Verify (gc_Resolver g) (gc_Network g) (gc_Chain g) (ib_DelegationJSON inbound)
    (unix_time (ib_ReceivedAtUnix inbound)) = Ok d.
Proof.
  unfold authority. destruct (identity_DecodeJSON _); [|done]. destruct (negb _); [done|].
  destruct (identity_Verify _ _ _ _ _); [|done]. by intros [= ->].
Qed.

Lemma sender_checks_inr g inbound s class d : sender_checks g inbound s = inr (class, d) -> sender_ok g inbound s class d.
Proof.
  unfold sender_checks. intros H.
  destruct (is_ok (ValidateEvent _)) eqn:Hv; [|done]. cbn [negb] in H.
  destruct (ClassOf _) as [cl|] eqn:Hc; [|done]. destruct (LocalOnly _) eqn:Hl; [done|].
  destruct (sameNetwork _ _) eqn:Hn; [|done]. destruct (withinWindow _ _) eqn:Hw; [|done]. cbn [negb] in H.
  destruct (Z.ltb_spec (gc_MaxContentBytes g) (blen (ev_Content (ib_Event inbound)))); [done|].
  destruct (authority g inbound) as [|d'] eqn:Ha; [done|]. destruct (negb _ || negb _) eqn:Hs; [done|]. breflect.
  destruct (Device_Judge _ _ _) as [standing|] eqn:Hd; [|done].
  assert (standing <> DeviceRevoked) as Hst by (by intros ->).
  destruct (if negb (String.eqb (ev_RoomID _) "") && gc_Rooms g then _ else _) as [rs|] eqn:Hr; [|by destruct standing].
  assert (rs <> RoomNotMember) as Hrs by (intros ->; by destruct standing).
  assert (AllowsEventClass d' cl = true /\ inr (cl, d') = (inr (class, d) : stop + string * Delegation)) as [Hal E].
  { destruct standing; try done; destruct rs; try done; by destruct (AllowsEventClass d' cl). }
  injection E as -> ->. constructor; try done; [by apply authority_inr|by exists standing|].
  intros Hne Hrooms. exists rs. destruct (String.eqb_spec (ev_RoomID (ib_Event inbound)) ""); [done|].
  rewrite Hrooms in Hr. cbn in Hr. match goal with E : ev_SenderAgentID _ = _ |- _ => by rewrite E in Hr end.
Qed.

(** The policy's answer and how the invite changed it. *)
Record policy_ok (g : Config) (inbound : Arrival) (s : Install) (p : passed) : Prop := {
  po_answer : (ps_admission p, ps_usedInvite p) = invited_admission g inbound s;
  po_enters : ps_admission p = AdmitAllow \/ ps_admission p = AdmitHoldForApproval;
  po_moderation : ev_Kind (ib_Event inbound) = "room.moderation" -> ps_admission p = AdmitAllow;
  po_body : is_ok (payload_Decode (ev_Kind (ib_Event inbound)) (ev_Content (ib_Event inbound))) = true;
}.

Lemma policy_checks_inr g inbound class d s p : policy_checks g inbound class d s = inr p ->
  ps_class p = class /\ ps_delegation p = d /\ policy_ok g inbound s p.
Proof.
  unfold policy_checks. destruct (invited_admission g inbound s) as [admission used] eqn:Ha. intros H.
  destruct (String.eqb _ _ && _) eqn:Hm; [done|].
  destruct (bool_decide (admission ∈ [AdmitAllow; AdmitHoldForApproval])) eqn:He; cbn [negb] in H; [|by destruct (codeFor _)].
  destruct (is_ok (payload_ValidateContent _ _)) eqn:Hb; [|done]. injection H as <-. split_and!; [done..|].
  breflect. constructor; cbn; [done| |intros Hk|].
  - set_solver.
  - rewrite Hk in Hm. destruct (decide (admission = AdmitAllow)); [done|]. by rewrite bool_decide_false in Hm.
  - unfold payload_ValidateContent in Hb. by destruct (payload_Decode _ _).
Qed.

Lemma gate_checks_inr g inbound s p : gate_checks g inbound s = inr p ->
  sender_ok g inbound s (ps_class p) (ps_delegation p) /\ policy_ok g inbound s p.
Proof.
  unfold gate_checks. destruct (sender_checks g inbound s) as [|[class d]] eqn:Hs; [done|].
  intros (<- & <- & Hp)%policy_checks_inr. split; [by apply sender_checks_inr|done].
Qed.
End Checks.

(** ** Effects *)

Lemma with_inbound_id j : with_inbound j (jr_inbound j) = j.
Proof. by destruct j. Qed.
Lemma with_journal_id s : with_journal s (in_journal s) = s.
Proof. by destruct s as [[]]. Qed.

(** What an acceptance did, by its answer. *)
Lemma Accept_answers c entry j r j' :
  Accept c entry j = (r, j') ->
  exists files, j' = with_inbound j files /\
  match r with
  | Ok (true, record) =>
      record = entry_record entry /\ jr_inbound j !! inbound_path (en_EventID entry) = None /\
      files = <[inbound_path (en_EventID entry) := ERec record]> (jr_inbound j)
  | Ok (false, record) =>
      files = jr_inbound j /\ readRecord files (inbound_path (en_EventID entry)) = Ok record /\ same_event record entry = true
  | Err e => (e = ErrConflict \/ e = ErrPendingFull) -> files = jr_inbound j
  end.
Proof.
  intros H. destruct r as [[[] record]|e].
  - destruct (Accept_fresh _ _ _ _ _ H) as (_ & Hv & _ & Hr & Hnone & Hj). eexists. split; [exact Hj|]. by split_and!.
  - exists (jr_inbound j). unfold Accept, file_create in H.
    destruct (journal_usable j); [|done]. destruct (validateEntry entry); [|done].
    destruct (if bool_decide _ then _ else _); [|done]. cbv zeta in H.
    destruct (jr_inbound j !! _); [|by destruct c]. cbn [fst snd] in H.
    rewrite bool_decide_true in H by done. cbn [negb] in H.
    destruct (readRecord _ _) as [existing|] eqn:Hx; [|done].
    destruct (same_event existing entry) eqn:Hse; [|done]. injection H as -> <-. by rewrite with_inbound_id.
  - unfold Accept in H. destruct (journal_usable j); [|injection H as -> <-; exists (jr_inbound j); by rewrite with_inbound_id].
    destruct (validateEntry entry); [|injection H as -> <-; exists (jr_inbound j); by rewrite with_inbound_id].
    destruct (if bool_decide _ then _ else _); [|injection H as -> <-; exists (jr_inbound j); by rewrite with_inbound_id].
    cbv zeta in H. destruct (file_create _ _ _ _) as [[]files] eqn:Hf; [done|].
    destruct (bool_decide (e0 = ErrExist)) eqn:He; cbn [negb] in H.
    + exists (jr_inbound j). rewrite with_inbound_id.
      destruct (readRecord _ _) as [existing|]; [|by injection H as -> <-].
      destruct (same_event existing entry); [done|]. by injection H as -> <-.
    + injection H as -> <-. exists files. split; [done|]. unfold file_create in Hf.
      destruct (jr_inbound j !! _); [by injection Hf as <- <-|].
      destruct c; try done; injection Hf as <- <-; intros [|]; done.
Qed.

Section Effects.
  Context `{Ed : Ed25519} `{PR : Protocol} `{AF : AttachmentFormats}.

Lemma claim_invite_frame w g inbound p s o s1 :
  claim_invite w g inbound p s = (o, s1) -> exists files, s1 = with_invites s files.
Proof.
  unfold claim_invite. intros H. assert (exists files, s = with_invites s files) as Hs by (exists (in_invites s); by destruct s).
  destruct (ps_usedInvite p); [|by injection H as <- <-].
  destruct (ClaimAdmissionInvite _ _ _ _ _ _ s) as [r s'] eqn:Hc.
  assert (exists files, s' = with_invites s files) as Hs'.
  { destruct (claim_cases _ _ _ _ _ _ _ _ _ Hc) as [(e & _ & ->)|(raw & rec & bound & _ & _ & _ & _ & H')]; [done|].
    destruct bound; [by destruct H' as [_ ->]|]. destruct H' as (x & files & _ & -> & _). by exists files. }
  by destruct r; injection H as <- <-.
Qed.

Lemma moderate_frame w g inbound p s o s1 :
  moderate w g inbound p s = (o, s1) -> exists files, s1 = with_room_files s (with_moderation (in_rooms s) files).
Proof.
  intros H. assert (exists files, s = with_room_files s (with_moderation (in_rooms s) files)) as Hs.
  { exists (jr_moderation (in_journal s)). by destruct s as [[[]]]. }
  unfold moderate in H. destruct (negb _); [by injection H as <- <-|]. destruct (negb _); [by injection H as <- <-|].
  destruct (CurrentAuthorityDelegation _ _) as [[authority|]|]; [|by injection H as <- <-..].
  destruct (identity_EncodeJSON authority); [|by injection H as <- <-].
  destruct (identity_Verify _ _ _ _ _); [|by injection H as <- <-].
  destruct (journal_usable _); [|by injection H as <- <-].
  destruct (Moderation_Apply _ _ _ _ _ _) as [r rooms] eqn:Hm.
  assert (exists files, rooms = with_moderation (in_rooms s) files) as [files ->].
  { destruct (apply_cases _ _ _ _ _ _ _ _ Hm) as [(e & _ & ->)|(body & prior & _ & _ & [(d & _ & _ & _ & ->)|(_ & x & files & _ & -> & _)])];
      [exists (jr_moderation (in_journal s)); by destruct s as [[[]]]..|by exists files]. }
  destruct r; injection H as <- <-; by exists files.
Qed.

(** How one admission went: stopped with the event's file untouched, or committed. *)
Lemma gate_admit_cases wi wm commit g inbound s r s' :
  gate_admit wi wm commit g inbound s = (r, s') ->
  (exists e, r = Err e /\ s' = s)
  \/ (exists why, gate_checks g inbound s = inl why /\ r = stopped g inbound why /\ s' = s)
  \/ exists p o1 s1, gate_checks g inbound s = inr p /\ claim_invite wi g inbound p s = (o1, s1) /\
     ((exists why, o1 = Some why /\ r = stopped g inbound why /\ s' = s1)
      \/ exists o2 s2, o1 = None /\ moderate wm g inbound p s1 = (o2, s2) /\
         ((exists why, o2 = Some why /\ r = stopped g inbound why /\ s' = s2)
          \/ o2 = None /\ gate_commit commit g inbound p s2 = (r, s'))).
Proof.
  unfold gate_admit. intros H. destruct (negb _); [injection H as <- <-; left; by eexists|].
  destruct (_ =? 0); [injection H as <- <-; left; by eexists|]. right.
  destruct (gate_checks g inbound s) as [why|p]; [injection H as <- <-; left; by eexists|right].
  destruct (claim_invite wi g inbound p s) as [o1 s1] eqn:H1. exists p, o1, s1. split_and!; [done..|].
  destruct o1 as [why|]; [injection H as <- <-; left; by eexists|right].
  destruct (moderate wm g inbound p s1) as [o2 s2] eqn:H2. exists o2, s2. split_and!; [done..|].
  destruct o2 as [why|]; [injection H as <- <-; left; by eexists|by right].
Qed.
End Effects.

(** ** What enters the journal *)

(** The event is on file as [record], which was written by this admission when [fresh]. *)
Definition on_record (before after : Journal) (entry : Entry) (fresh : bool) (record : EventRecord) : Prop :=
  let path := inbound_path (en_EventID entry) in
  if fresh then
    record = entry_record entry /\ jr_inbound before !! path = None /\
    jr_inbound after = <[path := ERec record]> (jr_inbound before)
  else jr_inbound after = jr_inbound before /\ readRecord (jr_inbound after) path = Ok record /\ same_event record entry = true.

Section Decisions.
  Context `{Ed : Ed25519} `{PR : Protocol} `{AF : AttachmentFormats}.

Lemma gate_commit_cases c g inbound p s d s' :
  gate_commit (accept_commit c) g inbound p s = (Ok d, s') ->
  exists payload files, EncodeEventJSON (ib_Event inbound) = Ok payload /\
  s' = with_journal s (with_inbound (in_journal s) files) /\
  if bool_decide (dc_Outcome d = Rejected) then files = jr_inbound (in_journal s) else
  dc_Delegation d = Some (ps_delegation p) /\
  exists fresh record, on_record (in_journal s) (in_journal s') (gate_entry inbound p payload) fresh record /\
    dc_Outcome d = (if fresh then if bool_decide (ps_admission p = AdmitHoldForApproval) then Held else Accepted else Duplicate).
Proof.
  unfold gate_commit, accept_commit. intros H. destruct (EncodeEventJSON _) as [payload|]; [|done].
  exists payload. destruct (Accept c (gate_entry inbound p payload) (in_journal s)) as [r j] eqn:HA.
  destruct (Accept_answers _ _ _ _ _ HA) as (files & -> & Hr). exists files. split; [done|].
  destruct r as [[fresh record]|e].
  - assert (forall o cd rs, s' = with_journal s (with_inbound (in_journal s) files) ->
      o = (if fresh then if bool_decide (ps_admission p = AdmitHoldForApproval) then Held else Accepted else Duplicate) ->
      d = MkGateDecision o cd rs (Some (ps_delegation p)) (Some (ib_Event inbound)) (gate_record g inbound (ps_class p) o cd) ->
      if bool_decide (dc_Outcome d = Rejected) then files = jr_inbound (in_journal s) else
      dc_Delegation d = Some (ps_delegation p) /\
      exists fresh record, on_record (in_journal s) (in_journal s') (gate_entry inbound p payload) fresh record /\
        dc_Outcome d = (if fresh then if bool_decide (ps_admission p = AdmitHoldForApproval) then Held else Accepted else Duplicate)) as Hfin.
    { intros o cd rs -> Ho ->. cbn [dc_Outcome dc_Delegation]. rewrite bool_decide_false; [|subst o; by repeat case_match].
      split; [done|]. exists fresh, record. split; [|done]. unfold on_record. destruct s as [[]]. cbn. destruct fresh; [done|].
      destruct Hr as (-> & ? & ?). done. }
    destruct fresh.
    + rewrite andb_true_r in H. destruct (bool_decide (ps_admission p = AdmitHoldForApproval)) eqn:Hh;
        injection H as <- <-; (split; [done|]); eapply Hfin; done.
    + rewrite andb_false_r in H. injection H as <- <-. split; [done|]. eapply Hfin; done.
  - destruct (decide (e = ErrConflict)) as [->|Hc]; [rewrite bool_decide_true in H by done|
      rewrite bool_decide_false in H by done; destruct (decide (e = ErrPendingFull)) as [->|Hp];
      [rewrite bool_decide_true in H by done|by rewrite bool_decide_false in H by done]];
      injection H as <- <-; (split; [done|]); cbn [dc_Outcome gate_refuse]; rewrite bool_decide_true by done; auto.
Qed.

Lemma stopped_outcome g inbound why d : stopped g inbound why = Ok d -> dc_Outcome d = Rejected.
Proof. destruct why; [|done]. by intros [= <-]. Qed.


(** A refusal writes no event: when the gate rejects, the inbound records, the
    outbox, the sessions, the rooms, the roles and the devices are as they were, and
    when the checks refuse, before the invite is claimed, nothing has changed at all. *)
Theorem refusal_inert wi wm c g inbound s d s' :
  Admit wi wm c g inbound s = (Ok d, s') -> dc_Outcome d = Rejected ->
  (exists invites decisions, s' = with_room_files (with_invites s invites) (with_moderation (in_rooms s) decisions)) /\
  (forall why, gate_checks g inbound s = inl why -> s' = s).
Proof.
  intros H Ho.
  assert (forall f1 f2, with_room_files (with_invites s f1) (with_moderation (in_rooms (with_invites s f1)) f2)
    = with_room_files (with_invites s f1) (with_moderation (in_rooms s) f2)) as Hframe by done.
  assert (forall f1, exists f2, with_invites s f1 = with_room_files (with_invites s f1) (with_moderation (in_rooms s) f2)) as Hinv.
  { intros f1. exists (jr_moderation (in_journal s)). by destruct s as [[[]]]. }
  destruct (gate_admit_cases _ _ _ _ _ _ _ _ H)
    as [(e & ? & _)|[(why & _ & _ & ->)|(p & o1 & s1 & Hg & H1 & Hrest)]]; [done| |].
  - split; [|done]. exists (in_invites s), (jr_moderation (in_journal s)). by destruct s as [[[]]].
  - split; [|intros why Hw; by rewrite Hw in Hg]. destruct (claim_invite_frame _ _ _ _ _ _ _ H1) as [f1 ->]. exists f1.
    destruct Hrest as [(why & _ & _ & ->)|(o2 & s2 & -> & H2 & [(why & _ & _ & ->)|[-> Hc]])]; [apply Hinv| |].
    + destruct (moderate_frame _ _ _ _ _ _ _ H2) as [f2 ->]. exists f2. apply Hframe.
    + destruct (moderate_frame _ _ _ _ _ _ _ H2) as [f2 ->]. exists f2.
      destruct (gate_commit_cases _ _ _ _ _ _ _ Hc) as (payload & files & _ & -> & Hf). rewrite bool_decide_true in Hf by done.
      subst files. destruct s as [[[]]]. done.
Qed.

(** How a sender that may enter came to: the policy lets it, or an invite did. *)
Lemma passed_entitled g inbound s p : policy_ok g inbound s p ->
  let a := Admits (gc_Policy g) (ev_SenderAgentID (ib_Event inbound)) in
  if ps_usedInvite p then
    ps_admission p = AdmitAllow /\ (a = AdmitRequireAdmission \/ a = AdmitInviteOrHold) /\
    is_ok (CheckAdmissionInvite s (ib_AdmissionToken inbound) (gc_LocalEndpointID g) (ev_SenderAgentID (ib_Event inbound))
             (ev_EventID (ib_Event inbound)) (unix_time (ib_ReceivedAtUnix inbound))) = true
  else if bool_decide (ps_admission p = AdmitHoldForApproval) then a = AdmitHoldForApproval \/ a = AdmitInviteOrHold
  else a = AdmitAllow.
Proof.
  cbv zeta. intros [Ha He _ _]. unfold invited_admission in Ha.
  destruct (bool_decide (Admits _ _ ∈ _) && _ && _) eqn:Hu.
  - injection Ha as -> ->. breflect. split_and!; [done|set_solver|done].
  - case_bool_decide as Hi; injection Ha as Ha ->; [rewrite Ha, bool_decide_true by done; auto|].
    destruct He as [He|He]; rewrite He in *; [rewrite bool_decide_false by done|rewrite bool_decide_true by done]; auto.
Qed.

Lemma claim_invite_passed w g inbound p s s1 :
  claim_invite w g inbound p s = (None, s1) -> ps_usedInvite p = true ->
  exists b, ClaimAdmissionInvite w (ib_AdmissionToken inbound) (gc_LocalEndpointID g) (ev_SenderAgentID (ib_Event inbound))
    (ev_EventID (ib_Event inbound)) (unix_time (ib_ReceivedAtUnix inbound)) s = (Ok b, s1).
Proof.
  unfold claim_invite. intros H Hu. rewrite Hu in H. destruct (ClaimAdmissionInvite _ _ _ _ _ _ s) as [[b|] s']; [|done].
  injection H as <-. by exists b.
Qed.

Lemma check_decodes s token recipient sender eventID now :
  is_ok (CheckAdmissionInvite s token recipient sender eventID now) = true -> exists raw, decodeAdmissionInvite token = Ok raw.
Proof.
  unfold CheckAdmissionInvite. destruct (journal_usable _); [|done].
  destruct (invite_subject _ _ _ _ _ _) eqn:H; [|done]. intros _.
  destruct (invite_subject_Ok _ _ _ _ _ _ _ H) as (raw & ? & _). by exists raw.
Qed.

(** A newly admitted event the policy alone keeps out was let in by an invite. *)
Lemma accepted_invite wi wm c g inbound s d s' :
  Admit wi wm c g inbound s = (Ok d, s') -> dc_Outcome d = Accepted ->
  Admits (gc_Policy g) (ev_SenderAgentID (ib_Event inbound)) <> AdmitAllow ->
  is_ok (CheckAdmissionInvite s (ib_AdmissionToken inbound) (gc_LocalEndpointID g) (ev_SenderAgentID (ib_Event inbound))
           (ev_EventID (ib_Event inbound)) (unix_time (ib_ReceivedAtUnix inbound))) = true /\
  exists b s1, ClaimAdmissionInvite wi (ib_AdmissionToken inbound) (gc_LocalEndpointID g) (ev_SenderAgentID (ib_Event inbound))
    (ev_EventID (ib_Event inbound)) (unix_time (ib_ReceivedAtUnix inbound)) s = (Ok b, s1) /\ in_invites s' = in_invites s1.
Proof.
  intros H Ho Hna. destruct (gate_admit_cases _ _ _ _ _ _ _ _ H)
    as [(e & ? & _)|[(why & _ & Hw & _)|(p & o1 & s1 & Hg & H1 & [(why & _ & Hw & _)|(o2 & s2 & -> & H2 & [(why & _ & Hw & _)|[-> Hc]])])]];
    [done|symmetry in Hw; apply stopped_outcome in Hw; by rewrite Hw in Ho..|].
  destruct (gate_checks_inr _ _ _ _ Hg) as [_ Hpo]. pose proof (passed_entitled _ _ _ _ Hpo) as Hent. cbv zeta in Hent.
  destruct (gate_commit_cases _ _ _ _ _ _ _ Hc) as (payload & files & _ & -> & Hf).
  destruct (moderate_frame _ _ _ _ _ _ _ H2) as [f2 ->]. destruct (ps_usedInvite p) eqn:Hu.
  - destruct Hent as (_ & _ & Hck). split; [done|].
    destruct (claim_invite_passed _ _ _ _ _ _ H1 Hu) as [b Hcl]. by exists b, s1.
  - rewrite Ho, bool_decide_false in Hf by done. destruct Hf as (_ & fresh & record & _ & Hout).
    destruct fresh; [|done]. by destruct (bool_decide (ps_admission p = AdmitHoldForApproval)).
Qed.

(** The inbox policy decides who enters.  A newly admitted event is from a sender
    the policy allows, or spent an invite that is now bound to exactly that sender and
    event; a held one is from a sender the policy holds for the owner; and a blocked
    sender is refused without leaving a trace. *)
Theorem inbox_policy_enforced wi wm c g inbound s d s' :
  let sender := ev_SenderAgentID (ib_Event inbound) in
  let a := Admits (gc_Policy g) sender in
  Admit wi wm c g inbound s = (Ok d, s') ->
  (dc_Outcome d = Accepted -> a <> AdmitAllow ->
     exists raw r, decodeAdmissionInvite (ib_AdmissionToken inbound) = Ok raw /\
       in_invites s' !! invite_path (admissionInviteDigest raw) = Some (ERec r) /\
       ai_ClaimedEventID r = ev_EventID (ib_Event inbound) /\ ai_ClaimedSenderAgentID r = sender) /\
  (dc_Outcome d = Held -> a = AdmitHoldForApproval \/ a = AdmitInviteOrHold) /\
  (a = AdmitDeny -> dc_Outcome d = Rejected /\ s' = s).
Proof.
  cbv zeta. intros H. destruct (gate_admit_cases _ _ _ _ _ _ _ _ H)
    as [(e & ? & _)|[(why & _ & Hw & ->)|(p & o1 & s1 & Hg & H1 & Hrest)]]; [done| |].
  - symmetry in Hw. apply stopped_outcome in Hw. rewrite Hw. split_and!; done.
  - destruct (gate_checks_inr _ _ _ _ Hg) as [_ Hpo]. pose proof (passed_entitled _ _ _ _ Hpo) as Hent. cbv zeta in Hent.
    assert (Admits (gc_Policy g) (ev_SenderAgentID (ib_Event inbound)) <> AdmitDeny) as Hnd.
    { intros E. rewrite E in Hent. destruct (ps_usedInvite p); [naive_solver|]. by destruct (bool_decide _); naive_solver. }
    destruct Hrest as [(why & _ & Hw & _)|(o2 & s2 & -> & H2 & [(why & _ & Hw & _)|[-> Hc]])];
      [symmetry in Hw; apply stopped_outcome in Hw; rewrite Hw; by split_and!..|].
    destruct (gate_commit_cases _ _ _ _ _ _ _ Hc) as (payload & files & _ & -> & Hf).
    destruct (moderate_frame _ _ _ _ _ _ _ H2) as [f2 ->].
    split_and!; [| |done].
    + intros Ho Hna. destruct (accepted_invite _ _ _ _ _ _ _ _ H Ho Hna) as (Hck & b & s3 & Hcl & ->).
      destruct (check_decodes _ _ _ _ _ _ Hck) as [raw Hraw].
      destruct (claim_bound _ _ _ _ _ _ _ _ _ _ Hcl Hraw) as (_ & r & Hl & He & Hs). by exists raw, r.
    + intros Ho. rewrite Ho, bool_decide_false in Hf by done. destruct Hf as (_ & fresh & record & _ & Hout).
      destruct fresh; [|done]. destruct (bool_decide (ps_admission p = AdmitHoldForApproval)) eqn:Hh; [|done].
      destruct (ps_usedInvite p); [|done]. destruct Hent as [E _]. rewrite E in Hh. done.
Qed.

(** ** Histories of the gate *)

Inductive gate_op : Type :=
  | OpInvite (op : invite_op)
  | OpAdmit (wi wm : write_outcome) (c : create_outcome) (g : Config) (inbound : Arrival).
Definition gate_step (op : gate_op) (s : Install) : Install :=
  match op with
  | OpInvite op => invite_step op s
  | OpAdmit wi wm c g inbound => (Admit wi wm c g inbound s).2
  end.
Definition gate_run (ops : list gate_op) (s : Install) : Install := fold_left (fun s op => gate_step op s) ops s.
Definition draws_other (digest : string) (op : gate_op) : Prop :=
  match op with OpInvite op => creates_other digest op | OpAdmit _ _ _ _ _ => True end.

(** An admission changes the invites by at most one claim. *)
Lemma admit_invites wi wm c g inbound s :
  in_invites (Admit wi wm c g inbound s).2 = in_invites s \/
  exists op, in_invites (Admit wi wm c g inbound s).2 = in_invites (invite_step op s) /\ forall digest, creates_other digest op.
Proof.
  destruct (Admit wi wm c g inbound s) as [r s'] eqn:H. cbn [snd].
  destruct (gate_admit_cases _ _ _ _ _ _ _ _ H)
    as [(e & _ & ->)|[(why & _ & _ & ->)|(p & o1 & s1 & Hg & H1 & Hrest)]]; [by left..|].
  assert (in_invites s' = in_invites s1) as ->.
  { destruct Hrest as [(why & _ & _ & ->)|(o2 & s2 & -> & H2 & Hc)]; [done|].
    destruct (moderate_frame _ _ _ _ _ _ _ H2) as [f2 ->]. destruct Hc as [(why & _ & _ & ->)|[-> Hc]]; [done|].
    unfold gate_commit, accept_commit in Hc. destruct (EncodeEventJSON _); [|by injection Hc as <- <-].
    destruct (Accept _ _ _) as [[[]|] j]; repeat (case_match; simplify_eq; try done). }
  unfold claim_invite in H1. destruct (ps_usedInvite p); [right|left; by injection H1 as _ <-].
  exists (OpClaimInvite wi (ib_AdmissionToken inbound) (gc_LocalEndpointID g) (ev_SenderAgentID (ib_Event inbound))
    (ev_EventID (ib_Event inbound)) (unix_time (ib_ReceivedAtUnix inbound))). split; [|done]. cbn [invite_step].
  by destruct (ClaimAdmissionInvite _ _ _ _ _ _ s) as [[] s2]; injection H1 as _ <-.
Qed.

Lemma gate_run_spent ops s raw sender eventID :
  eventID <> "" -> Forall (draws_other (admissionInviteDigest raw)) ops ->
  spent (in_invites s) (admissionInviteDigest raw) sender eventID ->
  spent (in_invites (gate_run ops s)) (admissionInviteDigest raw) sender eventID.
Proof.
  intros He Hops. revert s. induction Hops as [|op ops Hop _ IH]; intros s Hs; [done|].
  cbn [gate_run fold_left]. apply IH. destruct op as [op|wi wm c g inbound]; cbn [gate_step].
  - by apply invite_step_spent.
  - destruct (admit_invites wi wm c g inbound s) as [->|(op & -> & Hop2)]; [done|]. by apply invite_step_spent.
Qed.

(** One invite lets one event in.  When the gate admitted an event of a sender the
    policy alone would not have let in, then through any later admissions, creations
    and claims of invites, no other event presented with the same bearer by a sender
    the policy does not allow is newly admitted. *)
Theorem invite_admits_one_event wi wm c g inbound s d s1 ops wi' wm' c' g' other d' s2 :
  Admit wi wm c g inbound s = (Ok d, s1) -> dc_Outcome d = Accepted ->
  Admits (gc_Policy g) (ev_SenderAgentID (ib_Event inbound)) <> AdmitAllow ->
  Forall (fun op => forall raw, decodeAdmissionInvite (ib_AdmissionToken inbound) = Ok raw ->
    draws_other (admissionInviteDigest raw) op) ops ->
  ib_AdmissionToken other = ib_AdmissionToken inbound ->
  (ev_SenderAgentID (ib_Event other), ev_EventID (ib_Event other)) <>
    (ev_SenderAgentID (ib_Event inbound), ev_EventID (ib_Event inbound)) ->
  Admits (gc_Policy g') (ev_SenderAgentID (ib_Event other)) <> AdmitAllow ->
  Admit wi' wm' c' g' other (gate_run ops s1) = (Ok d', s2) -> dc_Outcome d' <> Accepted.
Proof.
  intros H Ho Hna Hops Htok Hne Hna' H' Ho'.
  destruct (accepted_invite _ _ _ _ _ _ _ _ H Ho Hna) as (Hck & b & s3 & Hcl & Hi).
  destruct (check_decodes _ _ _ _ _ _ Hck) as [raw Hraw].
  destruct (claim_binds _ _ _ _ _ _ _ _ _ _ Hcl Hraw) as [He Hs]. rewrite <- Hi in Hs.
  destruct (accepted_invite _ _ _ _ _ _ _ _ H' Ho' Hna') as (Hck' & _). rewrite Htok in Hck'.
  erewrite check_spent in Hck'; [done|done| |done|done]. apply gate_run_spent; [done| |done].
  eapply Forall_impl; [exact Hops|]. intros op Hop. by apply Hop.
Qed.
End Decisions.

(** ** The published policy *)

Definition document_cases : list InboxPolicyDocument :=
  [MkDocument RuleOpen ""; MkDocument RuleAllowList TellThem; MkDocument RuleAllowList AskTheOwner;
   MkDocument RuleAllowList InviteOrAskOwner].

Lemma document_valid d u : Document_Validate d = Ok u -> d ∈ document_cases.
Proof.
  unfold Document_Validate. destruct d as [rule unknown]. cbn [ip_Rule ip_Unknown].
  destruct (String.eqb_spec rule RuleOpen) as [->|]; [destruct (String.eqb_spec unknown "") as [->|]; [set_solver|done]|].
  destruct (String.eqb_spec rule RuleAllowList) as [->|]; [|done].
  destruct (String.eqb_spec unknown TellThem) as [->|]; [set_solver|].
  destruct (String.eqb_spec unknown AskTheOwner) as [->|]; [set_solver|].
  destruct (String.eqb_spec unknown InviteOrAskOwner) as [->|]; [set_solver|done].
Qed.

Definition document_bytes (d : InboxPolicyDocument) : bytes :=
  canon_Text (canon_Text (bytes_of_string DomainInboxPolicy) (ip_Rule d)) (ip_Unknown d).

Lemma document_bytes_inj d d' : d ∈ document_cases -> d' ∈ document_cases -> document_bytes d = document_bytes d' -> d = d'.
Proof.
  intros Hd Hd'. unfold document_cases in *. repeat rewrite elem_of_cons in *.
  destruct Hd as [->|[->|[->|[->|Hd]]]]; destruct Hd' as [->|[->|[->|[->|Hd']]]]; try (by apply not_elem_of_nil in Hd);
    try (by apply not_elem_of_nil in Hd'); intros E; try done; exfalso; vm_compute in E; discriminate E.
Qed.

(** A gate that starts enforces the policy its endpoint published: its own
    delegation verifies against finalized state, is this installation's, and carries
    the digest of exactly the document the evaluator was built from.  No other
    document has that digest, short of a SHA-256 collision. *)
Theorem published_policy_enforced now config g document roster :
  gate_New now config = Ok g -> NewContactPolicy document roster = Ok (gc_Policy config) ->
  gc_Policy g = gc_Policy config /\ po_document (gc_Policy g) = document /\
  exists local,
    identity_Verify (gc_Resolver g) (gc_Network g) (gc_Chain g) (gc_LocalDelegationJSON g) now = Ok local /\
    dg_AgentID local = gc_LocalAgentID g /\ dg_EndpointID local = gc_LocalEndpointID g /\
    Document_Digest document = Ok (dg_InboxAdmissionPolicyDigest local) /\
    forall document', Document_Digest document' = Ok (dg_InboxAdmissionPolicyDigest local) ->
      document' = document \/ sha256_collision.
Proof.
  intros HN HP. unfold NewContactPolicy in HP. destruct (Document_Digest document) as [digest|] eqn:Hd; [|done].
  apply Ok_inj in HP. unfold gate_New in HN. inv_ok HN.
  destruct (identity_Verify _ _ _ _ _) as [local|] eqn:Hv; [|done]. breflect.
  match goal with E : Ok local = Ok _ |- _ => apply Ok_inj in E as <- end. apply Ok_inj in HN as <-.
  cbn [gc_Policy gc_Resolver gc_Network gc_Chain gc_LocalDelegationJSON gc_LocalAgentID gc_LocalEndpointID].
  split; [done|]. split; [by rewrite <- HP|]. exists local. split_and!; [done..| |].
  - match goal with E : po_digest _ = _ |- _ => rewrite <- E, <- HP end. done.
  - intros document' Hd'. match goal with E : po_digest _ = _ |- _ => rewrite <- HP in E; cbn [po_digest] in E; rewrite <- E in Hd' end.
    unfold Document_Digest in Hd, Hd'.
    destruct (Document_Validate document) as [?|] eqn:Hv1; [|done]. destruct (Document_Validate document') as [?|] eqn:Hv2; [|done].
    apply Ok_inj in Hd, Hd'. fold (document_bytes document) in Hd. fold (document_bytes document') in Hd'. rewrite <- Hd in Hd'.
    apply canon_Digest_inj in Hd' as [E|]; [left|by right].
    apply document_bytes_inj; [by eapply document_valid..|done].
Qed.

(** ** Witnesses *)

#[local] Existing Instances toy_Protocol toy_AttachmentFormats toy_ed25519.

Definition inbox_document : InboxPolicyDocument := MkDocument RuleAllowList InviteOrAskOwner.
Definition no_contacts : Roster := MkRoster ∅ ∅.
Definition blocks_sender : Roster := MkRoster ∅ {[ sample_agent_id ]}.
Definition inbox_digest : string := Eval vm_compute in match Document_Digest inbox_document with Ok h => h | Err _ => "" end.
Definition inbox_policy (roster : Roster) : ContactPolicy := MkContactPolicy inbox_document roster inbox_digest.

Definition local_agent : string := named "agent_" "c".
Definition local_delegation : Delegation :=
  Eval vm_compute in
  MkDelegation (Some sample_domain) local_agent (endpoint_of local_agent (replicate 32 x22)) (replicate 32 x22) "" [1]
    ["chat"] 1000 100000 3600 ("sha256:" +:+ sample_hash) inbox_digest.
Definition delegation_json (d : Delegation) : bytes := match identity_EncodeJSON d with Ok raw => raw | Err _ => [] end.
Definition local_json : bytes := Eval vm_compute in delegation_json local_delegation.
Definition sender_json : bytes := Eval vm_compute in delegation_json room_delegation.
(** A chain that commits both delegations. *)
Definition committed : list string := Eval vm_compute in [digest_of room_delegation; digest_of local_delegation].
Definition gate_resolver : AgentResolver := fun agentID =>
  Ok (Some (MkNativeState (Some sample_domain) ("sha256:" +:+ sample_hash) (Some sample_reference)
              (Some (MkAgentState agentID false true committed))), true).

Definition gate_bounds (content skew : Z) (roster : Roster) : Config :=
  MkConfig (Some sample_domain) sample_policy (Some gate_resolver) true (inbox_policy roster) true false
    local_json local_agent (dg_EndpointID local_delegation) content skew (replicate 16 x07).
Definition gate : Roster -> Config := gate_bounds MaxContentBytes DefaultClockSkewSeconds.

Definition second_message : Event :=
  Eval vm_compute in room_event "room.message" (PRoomMessage (MkRoomMessage sample_room 1 "text/markdown" "again")).
Definition bearer : string := Eval vm_compute in invite_token.
Definition arrival (e : Event) : Arrival := MkArrival e sender_json bearer "relay" 1900.

(** An installation that has issued one invite; it admits one event of a stranger, and holds the next. *)
Definition inviting : Install :=
  Eval vm_compute in
  (CreateAdmissionInvite (fun _ => true) true WOk invite_entropy (dg_EndpointID local_delegation) "" 5000 1000 no_devices).2.
Definition first_run : result Decision * Install :=
  Eval vm_compute in Admit WOk WOk COk (gate no_contacts) (arrival room_message) inviting.
Definition second_run : result Decision * Install :=
  Eval vm_compute in Admit WOk WOk COk (gate no_contacts) (arrival second_message) first_run.2.
Definition blocked_run : result Decision * Install :=
  Eval vm_compute in Admit WOk WOk COk (gate blocks_sender) (arrival room_message) inviting.
Definition decision_of_run (run : result Decision * Install) : Decision :=
  match run.1 with Ok d => d | Err _ => gate_refuse (gate no_contacts) (arrival room_message) "" "" None end.

Lemma first_runs : Admit WOk WOk COk (gate no_contacts) (arrival room_message) inviting = first_run.
Proof. vm_compute. reflexivity. Qed.
Lemma second_runs : Admit WOk WOk COk (gate no_contacts) (arrival second_message) first_run.2 = second_run.
Proof. vm_compute. reflexivity. Qed.
Lemma blocked_runs : Admit WOk WOk COk (gate blocks_sender) (arrival room_message) inviting = blocked_run.
Proof. vm_compute. reflexivity. Qed.

Lemma published_policy_enforced_witness : po_document (gc_Policy (gate no_contacts)) = inbox_document.
Proof.
  apply (published_policy_enforced 1900 (gate_bounds 0 0 no_contacts) (gate no_contacts) inbox_document no_contacts);
    vm_compute; reflexivity.
Defined.


Lemma refusal_inert_witness :
  dc_Outcome (decision_of_run blocked_run) = Rejected /\
  forall why, gate_checks (gate blocks_sender) (arrival room_message) inviting = inl why -> blocked_run.2 = inviting.
Proof.
  split; [reflexivity|].
  apply (refusal_inert WOk WOk COk (gate blocks_sender) (arrival room_message) inviting (decision_of_run blocked_run) blocked_run.2);
    [exact blocked_runs|reflexivity].
Defined.

Lemma inbox_policy_enforced_witness : blocked_run.2 = inviting.
Proof.
  apply (inbox_policy_enforced WOk WOk COk (gate blocks_sender) (arrival room_message) inviting
    (decision_of_run blocked_run) blocked_run.2); [exact blocked_runs|reflexivity].
Defined.

Lemma invite_admits_one_event_witness : dc_Outcome (decision_of_run second_run) <> Accepted.
Proof.
  apply (invite_admits_one_event WOk WOk COk (gate no_contacts) (arrival room_message) inviting
    (decision_of_run first_run) first_run.2 [] WOk WOk COk (gate no_contacts)
    (arrival second_message) (decision_of_run second_run) second_run.2);
    [exact first_runs|reflexivity|discriminate|constructor|reflexivity|discriminate|discriminate|exact second_runs].
Defined.

(** An owner who takes one question at a time. *)
Definition one_question : Journal := MkJournal (MkOutbox true ∅) (MkQuota 1 1 1000000 1000000000000) ∅ ∅ ∅.
Definition question : Entry :=
  MkEntry (named "evt_" "1") (named "mep_" "1") (named "conv_" "1") [x01] AdmissionPending 100 5000 None.

(** The resend of an event that waits for the owner is refused as exceeding the quota while the queue is full: the
    capacity is asked before the existing record is looked at. *)
Theorem held_resend_refused :
  exists r j, Accept COk question one_question = (Ok (true, r), j) /\ Accept COk question j = (Err ErrPendingFull, j).
Proof. do 2 eexists. split; [vm_compute; reflexivity|]. vm_compute. reflexivity. Qed.
