(* ===== verification/Prune.v ===== *)
(** * Retention: [pkg/eventlog/prune.go]

    [Prune] removes finished inbound events whose replay window has closed and settled
    deliveries past their retention.  Which removals the operating system grants, and
    whether the directory sync after them succeeds, are arguments. *)

From S2P Require Import Prelude Encoding Canon Files Fault Json Money Payload Delivery Identity E2ee Journal Inbound Envelope.

(** In nanoseconds. *)
Definition prune_MinClaimRetention : Z := MaxEnvelopeLifetimeSeconds * nanoseconds.

Record PruneReport : Type := MkPruneReport {
  pr_ClaimsRemoved : Z;
  pr_DeliveriesRemoved : Z;
  pr_Unreadable : list string;
}.

Section Sweep.
  Context {A : Type}.
  Implicit Types d : directory A.

(** The loop of [sweep]: what was removed so far and which records could not be read. *)
Fixpoint sweep_records (removable : string -> bool) (expired : directory A -> string -> result bool) (names : list string)
    (removed : Z) (unreadable : list string) d : result (Z * list string) * directory A :=
  match names with
  | [] => (Ok (removed, unreadable), d)
  | name :: rest =>
      if is_dir d name then sweep_records removable expired rest removed unreadable d else
      match expired d name with
      | Err _ => sweep_records removable expired rest removed (unreadable ++ [name]) d
      | Ok false => sweep_records removable expired rest removed unreadable d
      | Ok true =>
          if removable name then sweep_records removable expired rest (removed + 1) unreadable (delete name d)
          else (Err (NewError "remove event journal record"), d)
      end
  end.

Definition sweep (removable : string -> bool) (synced : bool) (expired : directory A -> string -> result bool) d
    : result (Z * list string) * directory A :=
  match sweep_records removable expired (dir_names d) 0 [] d with
  | (Err e, d) => (Err e, d)
  | (Ok (removed, unreadable), d) =>
      if (0 <? removed) && negb synced then (Err (NewError "sync event journal directory"), d)
      else (Ok (removed, unreadable), d)
  end.
End Sweep.

Definition claim_expired (horizon seconds : Z) (files : directory EventRecord) (name : string) : result bool :=
  let* record := readRecord files name in
  if negb (Terminal record) then Ok false
  else Ok (u64 (rc_ReceivedAtUnix record + horizon) <=? seconds).

Definition delivery_expired (horizon seconds : Z) (files : directory Delivery) (name : string) : result bool :=
  let* delivery := readDelivery files name in
  if negb (bool_decide (dl_State delivery = StateDelivered)) && negb (bool_decide (dl_State delivery = StateAbandoned))
  then Ok false else
  let settled := if dl_SettledAtUnix delivery =? 0 then dl_CreatedAtUnix delivery else dl_SettledAtUnix delivery in
  Ok (u64 (settled + horizon) <=? seconds).

Definition unreadable_sessions (files : directory SessionRecord) : list string :=
  List.filter (fun name => negb (is_dir files name) && negb (is_ok (readSession files name))) (dir_names files).

(** [inboundRemovable] and [outboundRemovable] say which files the system lets go, the flags whether the syncs end well. *)
Definition Prune (inboundRemovable outboundRemovable : string -> bool) (inboundSynced outboundSynced : bool)
    (now : time) (retention : Z) : action Journal PruneReport :=
  fun j =>
  match journal_usable j with Err e => (Err e, j) | Ok _ =>
  if time_invalid now then (Err (NewError "invalid prune time"), j) else
  if retention <? prune_MinClaimRetention
  then (Err (NewError "retention is shorter than the replay window it must cover"), j) else
  let horizon := Z.quot retention nanoseconds in
  match sweep inboundRemovable inboundSynced (claim_expired horizon now) (jr_inbound j) with
  | (Err e, files) => (Err e, with_inbound j files)
  | (Ok (claims, unreadable), files) =>
      let j := with_inbound j files in
      match sweep outboundRemovable outboundSynced (delivery_expired horizon now) (ob_files (jr_outbox j)) with
      | (Err e, files) => (Err e, with_outbox j (MkOutbox (ob_held (jr_outbox j)) files))
      | (Ok (deliveries, more), files) =>
          (Ok (MkPruneReport claims deliveries (sort_strings (unreadable ++ more ++ unreadable_sessions (jr_sessions j)))),
           with_outbox j (MkOutbox (ob_held (jr_outbox j)) files))
      end
  end end.

(** ** What one sweep does *)

Section SweepSpec.
  Context {A : Type} (expired : directory A -> string -> result bool).
  Hypothesis expired_local : forall d1 d2 name, d1 !! name = d2 !! name -> expired d1 name = expired d2 name.
  Implicit Types d : directory A.

Definition drops d (name : string) : bool :=
  negb (is_dir d name) && match expired d name with Ok b => b | Err _ => false end.
Definition unread d (name : string) : bool := negb (is_dir d name) && negb (is_ok (expired d name)).

Lemma drops_local d1 d2 name : d1 !! name = d2 !! name -> drops d1 name = drops d2 name.
Proof. intros E. unfold drops, is_dir. by rewrite (expired_local _ _ _ E), E. Qed.
Lemma unread_local d1 d2 name : d1 !! name = d2 !! name -> unread d1 name = unread d2 name.
Proof. intros E. unfold unread, is_dir. by rewrite (expired_local _ _ _ E), E. Qed.

Lemma filter_local (f g : string -> bool) l : (forall x, x ∈ l -> f x = g x) -> List.filter f l = List.filter g l.
Proof.
  induction l as [|x l IH]; intros H; [done|]. cbn [List.filter]. rewrite (H x) by set_solver.
  by rewrite IH by set_solver.
Qed.

(** A sweep that ended removed exactly what had expired, and one that did not removed nothing else. *)
Definition swept (names : list string) d (r : result (Z * list string)) d' (removed : Z) (unreadable : list string) : Prop :=
  (forall name, d' !! name = d !! name \/ name ∈ names /\ drops d name = true /\ d' !! name = None) /\
  match r with
  | Err _ => True
  | Ok (n, u) =>
      (forall name, name ∈ names -> drops d name = true -> d' !! name = None) /\
      n = removed + Z.of_nat (length (List.filter (drops d) names)) /\ u = unreadable ++ List.filter (unread d) names
  end.

Lemma sweep_records_swept removable names removed unreadable d r d' :
  NoDup names -> sweep_records removable expired names removed unreadable d = (r, d') ->
  swept names d r d' removed unreadable.
Proof.
  intros Hnd. revert removed unreadable d. induction Hnd as [|name names Hni Hnd IH]; intros removed unreadable d H.
  - injection H as <- <-. split; [by left|]. cbn. rewrite app_nil_r. split_and!; [set_solver|lia|done].
  - cbn [sweep_records] in H.
    assert (forall removed0 unreadable0 d0 r0 d0',
      (forall n, n ∈ names -> d0 !! n = d !! n) -> d0 !! name = (if drops d name then None else d !! name) ->
      (forall n, n <> name -> d0 !! n = d !! n) ->
      removed0 = removed + (if drops d name then 1 else 0) -> unreadable0 = unreadable ++ (if unread d name then [name] else []) ->
      swept names d0 r0 d0' removed0 unreadable0 -> swept (name :: names) d r0 d0' removed unreadable) as Hstep.
    { intros removed0 unreadable0 d0 r0 d0' Hin Hat Helse -> -> [Hf Hr]. split.
      - intros n. destruct (decide (n = name)) as [->|Hne].
        + destruct (Hf name) as [E|(? & _)]; [|done]. rewrite E, Hat. destruct (drops d name) eqn:Hd; [right|by left].
          split_and!; [set_solver|done..].
        + destruct (Hf n) as [E|(? & Hd & E)]; [left; by rewrite E, Helse|right]. split_and!; [set_solver| |done].
          by rewrite <- (drops_local d0 d n (Helse n Hne)).
      - destruct r0 as [[n u]|]; [|done]. destruct Hr as (Hgone & Hn & Hu). split_and!.
        + intros x Hx Hdx. destruct (decide (x = name)) as [->|Hne].
          * destruct (Hf name) as [E|(? & _)]; [|done]. by rewrite E, Hat, Hdx.
          * apply Hgone; [set_solver|]. by rewrite (drops_local d0 d x (Helse x Hne)).
        + rewrite Hn, (filter_local (drops d0) (drops d)) by (intros x Hx; apply drops_local, Hin, Hx).
          cbn [List.filter]. destruct (drops d name); cbn [length]; lia.
        + rewrite Hu, (filter_local (unread d0) (unread d)) by (intros x Hx; apply unread_local, Hin, Hx).
          cbn [List.filter]. rewrite <- app_assoc. by destruct (unread d name). }
    assert (forall n, n ∈ names -> n <> name) as Hdiff by (intros n Hn ->; done).
    unfold drops, unread in Hstep. destruct (is_dir d name); cbn [negb andb] in Hstep.
    { eapply Hstep; [..|by apply IH]; [done..|lia|by rewrite app_nil_r]. }
    destruct (expired d name) as [[]|]; cbn [is_ok negb] in Hstep.
    + destruct (removable name); [|injection H as <- <-; split; [by left|done]].
      eapply Hstep; [..|by apply IH].
      * intros n Hn. apply lookup_delete_ne. intros ->. by eapply Hdiff.
      * apply lookup_delete_eq.
      * intros n Hn. by apply lookup_delete_ne.
      * lia.
      * by rewrite app_nil_r.
    + eapply Hstep; [..|by apply IH]; [done..|lia|by rewrite app_nil_r].
    + eapply Hstep; [..|by apply IH]; [done..|lia|done].
Qed.

Lemma sweep_swept removable synced d r d' :
  sweep removable synced expired d = (r, d') -> swept (dir_names d) d r d' 0 [].
Proof.
  unfold sweep. destruct (sweep_records _ _ _ _ _ _) as [[[removed unreadable]|] d1] eqn:E; intros H;
    apply sweep_records_swept in E; [|apply NoDup_dir_names|by injection H as <- <-|apply NoDup_dir_names].
  destruct (_ && _); injection H as <- <-; [|done]. split; [apply E|done].
Qed.
End SweepSpec.

Lemma claim_expired_local horizon seconds d1 d2 name :
  d1 !! name = d2 !! name -> claim_expired horizon seconds d1 name = claim_expired horizon seconds d2 name.
Proof. intros E. unfold claim_expired, readRecord, read_file. by rewrite E. Qed.
Lemma delivery_expired_local horizon seconds d1 d2 name :
  d1 !! name = d2 !! name -> delivery_expired horizon seconds d1 name = delivery_expired horizon seconds d2 name.
Proof. intros E. unfold delivery_expired, readDelivery, read_file. by rewrite E. Qed.

(** A finished event whose replay window has closed. *)
Definition claim_over (horizon now : Z) (files : directory EventRecord) (name : string) : Prop :=
  exists r, readRecord files name = Ok r /\ Terminal r = true /\ u64 (rc_ReceivedAtUnix r + horizon) <= now.
(** A settled delivery past its retention. *)
Definition delivery_over (horizon now : Z) (files : directory Delivery) (name : string) : Prop :=
  exists d, readDelivery files name = Ok d /\ (dl_State d = StateDelivered \/ dl_State d = StateAbandoned) /\
    u64 ((if dl_SettledAtUnix d =? 0 then dl_CreatedAtUnix d else dl_SettledAtUnix d) + horizon) <= now.

Lemma readable_not_dir {A} e (files : directory A) name a : read_file e files name = Ok a -> is_dir files name = false.
Proof. intros H%read_file_Ok. unfold is_dir. by rewrite H. Qed.

Lemma drops_claim horizon now files name :
  drops (claim_expired horizon now) files name = true <-> claim_over horizon now files name.
Proof.
  unfold drops, claim_expired, claim_over. destruct (readRecord files name) as [r|] eqn:Hr.
  - assert (is_dir files name = false) as ->.
    { unfold readRecord in Hr. destruct (read_file _ _ _) eqn:E; [|done]. by eapply readable_not_dir. }
    cbn [negb andb]. destruct (Terminal r) eqn:Ht; cbn [negb]; split.
    + intros H. exists r. split_and!; [done..|lia].
    + intros (r' & [= <-] & _ & ?). lia.
    + done.
    + intros (r' & [= <-] & ? & _). congruence.
  - rewrite andb_false_r. split; [done|]. by intros (r & ? & _).
Qed.

Lemma drops_delivery horizon now files name :
  drops (delivery_expired horizon now) files name = true <-> delivery_over horizon now files name.
Proof.
  unfold drops, delivery_expired, delivery_over. destruct (readDelivery files name) as [d|] eqn:Hr.
  - assert (is_dir files name = false) as ->.
    { unfold readDelivery in Hr. destruct (read_file _ _ _) eqn:E; [|done]. by eapply readable_not_dir. }
    cbn [negb andb]. destruct (decide (dl_State d = StateDelivered \/ dl_State d = StateAbandoned)) as [Hs|Hs].
    + replace (negb _ && negb _) with false by (destruct Hs as [->| ->]; done). split.
      * intros H. exists d. split_and!; [done..|lia].
      * intros (d' & [= <-] & _ & ?). lia.
    + rewrite !bool_decide_false by tauto. split; [done|]. by intros (d' & [= <-] & ? & _).
  - rewrite andb_false_r. split; [done|]. by intros (d & ? & _).
Qed.

Lemma claim_over_listed horizon now files name : claim_over horizon now files name -> name ∈ dir_names files.
Proof.
  intros (r & Hr & _). apply elem_of_dir_names. apply readRecord_file in Hr as [H _]. by rewrite H.
Qed.
Lemma delivery_over_listed horizon now files name : delivery_over horizon now files name -> name ∈ dir_names files.
Proof.
  intros (d & Hr & _). apply elem_of_dir_names. unfold readDelivery in Hr.
  destruct (read_file _ _ _) eqn:E; [|done]. apply read_file_Ok in E. by rewrite E.
Qed.

(** Files went, and only ones that are over. *)
Definition only_over {A} (over : string -> Prop) (d d' : directory A) : Prop :=
  forall name, d' !! name = d !! name \/ d' !! name = None /\ over name.

Lemma only_over_refl {A} over (d : directory A) : only_over over d d.
Proof. by left. Qed.

Lemma sweep_over {A} (expired : directory A -> string -> result bool) (over : directory A -> string -> Prop)
    removable synced d r d' :
  (forall d1 d2 name, d1 !! name = d2 !! name -> expired d1 name = expired d2 name) ->
  (forall d name, drops expired d name = true <-> over d name) -> (forall d name, over d name -> name ∈ dir_names d) ->
  sweep removable synced expired d = (r, d') ->
  only_over (over d) d d' /\ (is_ok r = true -> forall name, over d name -> d' !! name = None).
Proof.
  intros Hloc Hover Hlist H. apply sweep_swept in H as [Hf Hr]; [|done]. split.
  - intros name. destruct (Hf name) as [?|(_ & Hd & ?)]; [by left|right]. split; [done|]. by apply Hover.
  - intros Hok name Ho. destruct r as [[n u]|]; [|done]. destruct Hr as (Hgone & _).
    apply Hgone; [by apply Hlist|by apply Hover].
Qed.

Lemma sweep_claims horizon now removable synced d r d' :
  sweep removable synced (claim_expired horizon now) d = (r, d') ->
  only_over (claim_over horizon now d) d d' /\ (is_ok r = true -> forall name, claim_over horizon now d name -> d' !! name = None).
Proof.
  apply (sweep_over _ (claim_over horizon now)); [apply claim_expired_local|apply drops_claim|apply claim_over_listed].
Qed.
Lemma sweep_deliveries horizon now removable synced d r d' :
  sweep removable synced (delivery_expired horizon now) d = (r, d') ->
  only_over (delivery_over horizon now d) d d' /\ (is_ok r = true -> forall name, delivery_over horizon now d name -> d' !! name = None).
Proof.
  apply (sweep_over _ (delivery_over horizon now)); [apply delivery_expired_local|apply drops_delivery|apply delivery_over_listed].
Qed.

(** [Prune] removes only history.  Whatever fails on the way, a file it removed
    was a finished event whose replay window had closed, or a settled delivery past
    its retention; sessions, decisions and everything unreadable stay.  When it
    succeeds, all of those and nothing else are gone, and the retention covered the
    time a relay may hold a ciphertext. *)
Theorem prune_exact ri ro si so now retention j r j' :
  Prune ri ro si so now retention j = (r, j') ->
  let horizon := Z.quot retention nanoseconds in
  only_over (claim_over horizon now (jr_inbound j)) (jr_inbound j) (jr_inbound j') /\
  only_over (delivery_over horizon now (ob_files (jr_outbox j))) (ob_files (jr_outbox j)) (ob_files (jr_outbox j')) /\
  (jr_sessions j', jr_moderation j', jr_quota j', ob_held (jr_outbox j')) =
    (jr_sessions j, jr_moderation j, jr_quota j, ob_held (jr_outbox j)) /\
  (is_ok r = true -> MaxEnvelopeLifetimeSeconds <= horizon /\
     (forall name, claim_over horizon now (jr_inbound j) name -> jr_inbound j' !! name = None) /\
     (forall name, delivery_over horizon now (ob_files (jr_outbox j)) name -> ob_files (jr_outbox j') !! name = None)).
Proof.
  cbv zeta. unfold Prune. intros H.
  destruct (journal_usable j); [|injection H as <- <-; split_and!; try apply only_over_refl; done].
  destruct (time_invalid now); [injection H as <- <-; split_and!; try apply only_over_refl; done|].
  destruct (Z.ltb_spec retention prune_MinClaimRetention) as [|Hret];
    [injection H as <- <-; split_and!; try apply only_over_refl; done|].
  destruct (sweep ri si _ (jr_inbound j)) as [[[claims unreadable]|] files] eqn:H1; apply sweep_claims in H1 as [Hc1 Hc2].
  2:{ injection H as <- <-. split_and!; [exact Hc1|apply only_over_refl|done|done]. }
  destruct (sweep ro so _ _) as [[[deliveries more]|] files2] eqn:H2; apply sweep_deliveries in H2 as [Hd1 Hd2];
    injection H as <- <-; (split_and!; [exact Hc1|exact Hd1|done|]); [|done]. intros _. split_and!; [|by apply Hc2|by apply Hd2].
  unfold prune_MinClaimRetention, nanoseconds in *. change MaxEnvelopeLifetimeSeconds with 2592000 in *.
  rewrite Z.quot_div_nonneg by lia. apply Z.div_le_lower_bound; lia.
Qed.

(** ** Witness *)

Definition expired_journal : Journal :=
  MkJournal empty_outbox DefaultQuota
    {[ inbound_path (en_EventID (sample_entry AdmissionPending)) := ERec (expire_record 6000 (sample_record AdmissionPending)) ]} ∅ ∅.

Lemma prune_exact_witness :
  jr_inbound (Prune (fun _ => true) (fun _ => true) true true 2592100 prune_MinClaimRetention expired_journal).2
    !! inbound_path (en_EventID (sample_entry AdmissionPending)) = None.
Proof.
  destruct (prune_exact (fun _ => true) (fun _ => true) true true 2592100 prune_MinClaimRetention expired_journal
    (Prune (fun _ => true) (fun _ => true) true true 2592100 prune_MinClaimRetention expired_journal).1
    (Prune (fun _ => true) (fun _ => true) true true 2592100 prune_MinClaimRetention expired_journal).2)
    as (_ & _ & _ & H); [apply surjective_pairing|].
  destruct H as (_ & H & _); [vm_compute; reflexivity|]. apply H.
  exists (expire_record 6000 (sample_record AdmissionPending)).
  split; [vm_compute; reflexivity|]. split; [vm_compute; reflexivity|]. vm_compute. discriminate.
Defined.
