(* ===== verification/Approvals.v ===== *)
(** * The owner's decisions: [pkg/eventlog/approval.go], [mandate.go], [execution.go], [escrow_locator.go]

    Requests for the owner and what was decided, the mandates the owner placed, the
    executions that are bound to the action that first authorised them, and the escrow
    accounts of funded quotes.  Each is a directory of records beside the others; the
    budgets of mandates are the disk ledgers of [Commerce.v].

    How a write ends is an argument, except for the writes of budgets, whose outcomes
    [budget_disk] carries. *)

From S2P Require Import Prelude Encoding Canon Files Fault Money Terms Firewall Budget Commerce Json Payload Delivery Identity E2ee Journal.

Definition ApprovalSchema : string := "tos.messaging.action-approval.v1".
Definition MaxApprovalsPerListing : Z := 64.
Definition MaxPendingActions : Z := 128.
Definition MaxApprovalSummaryBytes : Z := 512.
Definition MaxApprovalOrigins : Z := 32.
Definition approvalIdempotencyPattern : string -> bool := prefixed_hex64 "idem_".

Inductive ApprovalState : Type := ApprovalPending | ApprovalGranted | ApprovalSpent | ApprovalDenied.
#[global] Instance ApprovalState_eq_dec : EqDecision ApprovalState.
Proof. solve_decision. Defined.

Definition ErrApprovalUnknown : error := Sentinel "no approval request for this action".
Definition ErrApprovalDecided : error := Sentinel "this approval was already decided".
Definition ErrApprovalNotGranted : error := Sentinel "this action is not authorised".

Record ApprovalOrigin : Type := MkApprovalOrigin {
  ao_AgentID : string;
  ao_EndpointID : string;
  ao_DeviceID : string;
  ao_EventID : string;
  ao_ConversationID : string;
  ao_Kind : string;
  ao_ReceivedAtUnix : Z;
}.

(** Go's [ApprovalPhysicalOperation] has the fields of [firewall.PhysicalOperation]. *)
Definition ApprovalPhysicalOperation : Type := PhysicalOperation.

Record ApprovalRequest : Type := MkApprovalRequest {
  aq_ActionID : string;
  aq_Effect : string;
  aq_Summary : string;
  aq_IdempotencyKey : string;
  aq_Reason : string;
  aq_Origins : list ApprovalOrigin;
  aq_Terms : option Terms;
  aq_Physical : option ApprovalPhysicalOperation;
  aq_MandateID : string;
  aq_AskedAt : Z;
}.

(** An approval is a request with what became of it. *)
Record Approval : Type := MkApproval {
  ap_Schema : string;
  ap_Request : ApprovalRequest;
  ap_State : ApprovalState;
  ap_DecidedAtUnix : Z;
  ap_SpentAtUnix : Z;
  ap_DenialReason : string;
}.
Definition ap_ActionID (a : Approval) : string := aq_ActionID (ap_Request a).
Definition ap_AskedAtUnix (a : Approval) : Z := aq_AskedAt (ap_Request a).

(** ** Mandates *)

Definition MandateSchema : string := "tos.messaging.mandate-record.v1".
Definition MaxMandates : Z := 64.
Definition mandatePattern : string -> bool := prefixed_hex64 "mdt_".
Definition ErrMandateUnknown : error := Sentinel "no such mandate".
Definition ErrMandatesFull : error := Sentinel "this installation holds as many mandates as it may".

Record StoredMandate : Type := MkStoredMandate {
  sm_Schema : string;
  sm_MandateID : string;
  sm_Objective : string;
  sm_Authority : string;
  sm_CapabilityClass : string;
  sm_AssetNetworkID : string;
  sm_AssetGenesisRootHash : string;
  sm_AssetGenesisFileHash : string;
  sm_Workchain : Z;
  sm_AssetAccountID : string;
  sm_AssetMasterCodeHash : string;
  sm_AssetWalletCodeHash : string;
  sm_AssetDecimals : Z;
  sm_MaxTotalAtomic : string;
  sm_ApprovalAboveAtomic : string;
  sm_MaxCounteroffers : Z;
  sm_ExpiresAtUnix : Z;
  sm_PlacedAtUnix : Z;
  sm_RevokedAtUnix : Z;
}.

Definition Stored_Live (m : StoredMandate) (now : time) : bool :=
  (sm_RevokedAtUnix m =? 0) && (u64 now <? sm_ExpiresAtUnix m).

Definition validateStoredMandate (m : StoredMandate) : result unit :=
  refuse String.eqb (sm_Objective m) "" || (MaxApprovalSummaryBytes <? slen (sm_Objective m))
    with NewError "a mandate must say what it is for";
  refuse String.eqb (sm_Authority m) "" || (64 <? slen (sm_Authority m))
    with NewError "a mandate must name its authority";
  refuse String.eqb (sm_CapabilityClass m) "" || (128 <? slen (sm_CapabilityClass m))
    with NewError "a mandate must name what may be bought";
  refuse String.eqb (sm_AssetAccountID m) "" || String.eqb (sm_AssetMasterCodeHash m) ""
         || String.eqb (sm_AssetWalletCodeHash m) ""
    with NewError "a mandate must name its asset the way the chain does";
  refuse String.eqb (sm_AssetNetworkID m) "" || (128 <? slen (sm_AssetNetworkID m))
         || negb (hex64 (sm_AssetGenesisRootHash m)) || negb (hex64 (sm_AssetGenesisFileHash m))
    with NewError "a mandate must name the network its asset lives on";
  refuse String.eqb (sm_MaxTotalAtomic m) "" || String.eqb (sm_ApprovalAboveAtomic m) ""
    with NewError "a mandate must name its ceiling and its approval point";
  refuse sm_ExpiresAtUnix m =? 0 with NewError "a mandate must expire";
  Ok tt.


Definition MandateID (m : StoredMandate) : result string :=
  call validateStoredMandate m;
  let buffer := canon_Text (bytes_of_string DomainMandate) (sm_Objective m) in
  let buffer := canon_Text buffer (sm_Authority m) in
  let buffer := canon_Text buffer (sm_CapabilityClass m) in
  let buffer := canon_Text buffer (sm_AssetNetworkID m) in
  let* buffer := canon_Hash32 buffer (sm_AssetGenesisRootHash m) in
  let* buffer := canon_Hash32 buffer (sm_AssetGenesisFileHash m) in
  let buffer := canon_Uint32 buffer (u32 (sm_Workchain m)) in
  let buffer := canon_Text buffer (sm_AssetAccountID m) in
  let buffer := canon_Text buffer (sm_AssetMasterCodeHash m) in
  let buffer := canon_Text buffer (sm_AssetWalletCodeHash m) in
  let buffer := canon_Uint32 buffer (sm_AssetDecimals m) in
  let buffer := canon_Text buffer (sm_MaxTotalAtomic m) in
  let buffer := canon_Text buffer (sm_ApprovalAboveAtomic m) in
  let buffer := canon_Uint32 buffer (sm_MaxCounteroffers m) in
  let buffer := canon_Uint64 buffer (sm_ExpiresAtUnix m) in
  Ok ("mdt_" +:+ digest_hex (canon_Digest buffer)).

(** ** Executions and escrow accounts *)

Definition ExecutionClaimSchema : string := "tos.messaging.economic-execution-claim.v1".
Definition ToolExecutionClaimSchema : string := "tos.messaging.tool-execution-claim.v1".
Definition executionIDPattern : string -> bool := prefixed_hex64 "eex_".
Definition toolExecutionIDPattern : string -> bool := prefixed_hex64 "idem_".

Record ExecutionClaim : Type := MkExecutionClaim {
  ec_Schema : string;
  ec_ExecutionID : string;
  ec_ActionID : string;
  ec_ClaimedAtUnix : Z;
}.

Definition escrowLocatorSchema : string := "tos.messaging.escrow-location.v1".
Definition quoteCommitmentPattern : string -> bool := prefixed_hex64 "tvm-cell-sha256:".

Record escrowLocation : Type := MkEscrowLocation {
  el_Schema : string;
  el_Commitment : string;
  el_EscrowAddress : string;
  el_CapabilityClass : string;
}.
#[global] Instance escrowLocation_eq_dec : EqDecision escrowLocation.
Proof. solve_decision. Defined.

(** ** The state *)

Record Owner : Type := MkOwner {
  ow_held : bool;
  ow_MaxPendingAge : Z; (** of the journal's quota, in nanoseconds *)
  ow_approvals : directory Approval;
  ow_mandates : directory StoredMandate;
  ow_executions : directory ExecutionClaim;
  ow_tools : directory ExecutionClaim;
  ow_escrows : directory escrowLocation;
  ow_budgets : budget_disk;
}.
Definition with_approvals (s : Owner) (d : directory Approval) : Owner :=
  MkOwner (ow_held s) (ow_MaxPendingAge s) d (ow_mandates s) (ow_executions s) (ow_tools s) (ow_escrows s) (ow_budgets s).
Definition with_mandates (s : Owner) (d : directory StoredMandate) : Owner :=
  MkOwner (ow_held s) (ow_MaxPendingAge s) (ow_approvals s) d (ow_executions s) (ow_tools s) (ow_escrows s) (ow_budgets s).
Definition with_executions (s : Owner) (d : directory ExecutionClaim) : Owner :=
  MkOwner (ow_held s) (ow_MaxPendingAge s) (ow_approvals s) (ow_mandates s) d (ow_tools s) (ow_escrows s) (ow_budgets s).
Definition with_tools (s : Owner) (d : directory ExecutionClaim) : Owner :=
  MkOwner (ow_held s) (ow_MaxPendingAge s) (ow_approvals s) (ow_mandates s) (ow_executions s) d (ow_escrows s) (ow_budgets s).
Definition with_escrows (s : Owner) (d : directory escrowLocation) : Owner :=
  MkOwner (ow_held s) (ow_MaxPendingAge s) (ow_approvals s) (ow_mandates s) (ow_executions s) (ow_tools s) d (ow_budgets s).
Definition with_budgets (s : Owner) (b : budget_disk) : Owner :=
  MkOwner (ow_held s) (ow_MaxPendingAge s) (ow_approvals s) (ow_mandates s) (ow_executions s) (ow_tools s) (ow_escrows s) b.

Definition owner_usable (s : Owner) : result unit := refuse negb (ow_held s) with err_owned; Ok tt.

(** A record file that may be absent: [check] is what its reader demands of a parsed record. *)
Definition read_optional {A} (unread invalid : error) (check : A -> result unit) (files : directory A) (path : string)
    : result (option A) :=
  match files !! path with
  | None => Ok None
  | Some EDir | Some EForeign => Err unread
  | Some EJunk => Err invalid
  | Some (ERec a) => call check a; Ok (Some a)
  end.

Definition approval_path (actionID : string) : string := sdrop 4 actionID +:+ ".json".
Definition check_approval (actionID : string) (a : Approval) : result unit :=
  refuse negb (String.eqb (ap_Schema a) ApprovalSchema) || negb (String.eqb (ap_ActionID a) actionID)
    with NewError "approval record does not describe this action";
  Ok tt.
Definition readApproval (files : directory Approval) (actionID : string) : result (option Approval) :=
  read_optional (NewError "read approval record") (NewError "invalid approval record") (check_approval actionID)
    files (approval_path actionID).

Definition commitApproval (w : write_outcome) (a : Approval) : action Owner Approval :=
  fun s =>
  match file_replace w (approval_path (ap_ActionID a)) a (ow_approvals s) with
  | (Ok _, files) => (Ok a, with_approvals s files)
  | (Err e, files) => (Err e, with_approvals s files)
  end.

(** The name a record file stands for. *)
Definition file_id (prefix name : string) : string := prefix +:+ String.substring 0 (String.length name - 5) name.

(** ** Asking *)

Section Requests.
  Context `{JSONObjects}.

Definition origin_check (o : ApprovalOrigin) : result unit :=
  refuse negb (ids_Agent (ao_AgentID o)) || negb (ids_Endpoint (ao_EndpointID o)) || negb (ids_Event (ao_EventID o))
         || negb (ids_Conversation (ao_ConversationID o))
    with NewError "an approval request cites content it cannot identify";
  refuse negb (String.eqb (ao_DeviceID o) "") && negb (ids_Device (ao_DeviceID o))
    with NewError "an approval request cites content from an unidentifiable device";
  refuse String.eqb (ao_Kind o) "" || (128 <? slen (ao_Kind o)) with NewError "an approval request cites content with no kind";
  Ok tt.

Fixpoint check_origins (origins : list ApprovalOrigin) : result unit :=
  match origins with
  | [] => Ok tt
  | o :: rest => call origin_check o; check_origins rest
  end.

Definition validateApprovalRequest (r : ApprovalRequest) : result unit :=
  refuse negb (ids_Action (aq_ActionID r)) with NewError "invalid action identifier";
  refuse String.eqb (aq_Effect r) "" || (64 <? slen (aq_Effect r)) with NewError "an approval request must name an effect";
  refuse String.eqb (aq_Summary r) "" || (MaxApprovalSummaryBytes <? slen (aq_Summary r))
    with NewError "an approval request must describe itself";
  refuse negb (String.eqb (aq_IdempotencyKey r) "") && negb (approvalIdempotencyPattern (aq_IdempotencyKey r))
    with NewError "invalid approval idempotency key";
  refuse String.eqb (aq_Reason r) "" || (MaxApprovalSummaryBytes <? slen (aq_Reason r))
    with NewError "an approval request must say why it is being asked";
  refuse aq_AskedAt r =? 0 with NewError "an approval request has no time";
  refuse MaxApprovalOrigins <? Z.of_nat (length (aq_Origins r))
    with NewError "an approval request cites more content than an owner could review";
  call check_origins (aq_Origins r);
  refuse String.eqb (aq_Effect r) "spend" && negb (bool_decide (is_Some (aq_Terms r)))
    with NewError "a spend approval must carry the structured purchase it is for";
  call match aq_Terms r with Some t => Terms_Validate t | None => Ok tt end;
  call (if String.eqb (aq_Effect r) "physical-io" then
          match aq_Physical r with
          | None => Err (NewError "a physical I/O approval must carry its local Capability and operation")
          | Some p =>
              refuse negb (approvalIdempotencyPattern (aq_IdempotencyKey r)) || negb (is_ok (PhysicalOperation_Validate p))
                with NewError "a physical I/O approval has malformed Capability or invocation evidence";
              Ok tt
          end
        else
          refuse bool_decide (is_Some (aq_Physical r)) with NewError "only physical I/O approval carries a physical operation";
          Ok tt);
  refuse negb (String.eqb (aq_MandateID r) "") && negb (mandatePattern (aq_MandateID r))
    with NewError "invalid mandate identifier";
  refuse String.eqb (aq_Effect r) "spend" && String.eqb (aq_MandateID r) ""
    with NewError "a spend approval must name the mandate it draws on";
  refuse negb (String.eqb (aq_Effect r) "spend") && negb (String.eqb (aq_MandateID r) "")
    with NewError "only a spend approval names a mandate";
  Ok tt.

Definition approvalExpired (s : Owner) (a : Approval) (seconds : Z) : bool :=
  let age := u64 (Z.quot (ow_MaxPendingAge s) Second) in
  negb (ap_AskedAtUnix a =? 0) && (u64 (ap_AskedAtUnix a + age) <=? seconds).

(** The undecided requests that still have time, as the directory lists them. *)
Definition pendingApprovals (s : Owner) (seconds : Z) : list Approval :=
  omap (fun name =>
    if is_dir (ow_approvals s) name || negb (json_name name) then None else
    match readApproval (ow_approvals s) (file_id "act_" name) with
    | Ok (Some a) =>
        if bool_decide (ap_State a = ApprovalPending) && negb (approvalExpired s a seconds) then Some a else None
    | _ => None
    end) (dir_names (ow_approvals s)).

Definition countPendingApprovals (s : Owner) (seconds : Z) : Z := Z.of_nat (length (pendingApprovals s seconds)).

Definition fresh_approval (r : ApprovalRequest) (state : ApprovalState) (decided : Z) : Approval :=
  MkApproval ApprovalSchema r state decided 0 "".

Definition RequestApproval (w : write_outcome) (r : ApprovalRequest) : action Owner Approval :=
  fun s =>
  match (call owner_usable s; call validateApprovalRequest r; readApproval (ow_approvals s) (aq_ActionID r)) with
  | Err e => (Err e, s)
  | Ok (Some existing) => (Ok existing, s)
  | Ok None =>
      if MaxPendingActions <=? countPendingApprovals s (aq_AskedAt r) then (Err ErrPendingFull, s)
      else commitApproval w (fresh_approval r ApprovalPending 0) s
  end.

Definition RecordAutoAuthorization (w : write_outcome) (r : ApprovalRequest) : action Owner Approval :=
  fun s =>
  match (call owner_usable s; call validateApprovalRequest r; readApproval (ow_approvals s) (aq_ActionID r)) with
  | Err e => (Err e, s)
  | Ok (Some existing) => (Ok existing, s)
  | Ok None => commitApproval w (fresh_approval r ApprovalGranted (aq_AskedAt r)) s
  end.

Definition asked_le (a b : Approval) : Prop :=
  ap_AskedAtUnix a < ap_AskedAtUnix b \/ ap_AskedAtUnix a = ap_AskedAtUnix b /\ str_le (ap_ActionID a) (ap_ActionID b).
#[global] Instance asked_le_dec a b : Decision (asked_le a b).
Proof. unfold asked_le. apply _. Defined.

Definition ListPendingApprovals (now : time) (limit : Z) (s : Owner) : result (list Approval) :=
  call owner_usable s;
  let limit := if (limit <=? 0) || (MaxApprovalsPerListing <? limit) then MaxApprovalsPerListing else limit in
  Ok (take (Z.to_nat limit) (merge_sort asked_le (pendingApprovals s (u64 now)))).

(** ** Deciding and spending *)

Definition decided (a : Approval) (state : ApprovalState) (at_ : Z) (reason : string) : Approval :=
  MkApproval (ap_Schema a) (ap_Request a) state at_ (ap_SpentAtUnix a) reason.
Definition spent_approval (a : Approval) (at_ : Z) : Approval :=
  MkApproval (ap_Schema a) (ap_Request a) ApprovalSpent (ap_DecidedAtUnix a) at_ (ap_DenialReason a).

(** The record an operation on one action starts from. *)
Definition approval_on_file (actionID : string) (now : time) (s : Owner) : result Approval :=
  call owner_usable s;
  refuse negb (ids_Action actionID) with NewError "invalid action identifier";
  refuse time_invalid now with NewError "invalid approval time";
  let* found := readApproval (ow_approvals s) actionID in
  match found with None => Err ErrApprovalUnknown | Some a => Ok a end.

Definition decideApproval (w : write_outcome) (actionID : string) (state : ApprovalState) (reason : string) (now : time)
    : action Owner Approval :=
  fun s =>
  match approval_on_file actionID now s with
  | Err e => (Err e, s)
  | Ok a =>
      if negb (bool_decide (ap_State a = ApprovalPending)) then (Err ErrApprovalDecided, s)
      else commitApproval w (decided a state now reason) s
  end.

Definition GrantAction (w : write_outcome) (actionID : string) (now : time) : action Owner Approval :=
  decideApproval w actionID ApprovalGranted "" now.

Definition DenyAction (w : write_outcome) (actionID reason : string) (now : time) : action Owner Approval :=
  fun s =>
  if String.eqb reason "" || (MaxApprovalSummaryBytes <? slen reason)
  then (Err (NewError "a refusal must say why"), s)
  else decideApproval w actionID ApprovalDenied reason now s.

Definition SpendApproval (w : write_outcome) (actionID : string) (now : time) : action Owner Approval :=
  fun s =>
  match approval_on_file actionID now s with
  | Err e => (Err e, s)
  | Ok a =>
      if negb (bool_decide (ap_State a = ApprovalGranted)) then (Err ErrApprovalNotGranted, s)
      else commitApproval w (spent_approval a now) s
  end.

Definition LookupApproval (actionID : string) (s : Owner) : result (option Approval) :=
  call owner_usable s;
  refuse negb (ids_Action actionID) with NewError "invalid action identifier";
  readApproval (ow_approvals s) actionID.

Definition expiry_reason : string := "nobody decided within the window this installation keeps requests for".

(** The loop of [expirePendingApprovalsLocked]; [ws] are how its writes end. *)
Fixpoint expire_approvals (ws : list write_outcome) (seconds : Z) (names : list string) (expired : list Approval)
    : action Owner (list Approval) :=
  fun s =>
  match names with
  | [] => (Ok expired, s)
  | name :: rest =>
      if is_dir (ow_approvals s) name || negb (json_name name) then expire_approvals ws seconds rest expired s else
      match readApproval (ow_approvals s) (file_id "act_" name) with
      | Ok (Some a) =>
          if negb (bool_decide (ap_State a = ApprovalPending)) || negb (approvalExpired s a seconds)
          then expire_approvals ws seconds rest expired s else
          let '(w, ws) := next_outcome ws in
          match commitApproval w (decided a ApprovalDenied seconds expiry_reason) s with
          | (Err e, s) => (Err e, s)
          | (Ok stored, s) => expire_approvals ws seconds rest (expired ++ [stored]) s
          end
      | _ => expire_approvals ws seconds rest expired s
      end
  end.
Definition expirePendingApprovalsLocked (ws : list write_outcome) (now : time) : action Owner (list Approval) :=
  fun s => expire_approvals ws now (dir_names (ow_approvals s)) [] s.
End Requests.

(** ** Placing and withdrawing mandates *)

Definition mandate_path (mandateID : string) : string := sdrop 4 mandateID +:+ ".json".
Definition check_mandate (mandateID : string) (m : StoredMandate) : result unit :=
  refuse negb (String.eqb (sm_Schema m) MandateSchema) || negb (String.eqb (sm_MandateID m) mandateID)
    with NewError "mandate record does not describe this mandate";
  match MandateID m with
  | Ok derived => refuse negb (String.eqb derived mandateID) with NewError "mandate record does not match its identifier"; Ok tt
  | Err _ => Err (NewError "mandate record does not match its identifier")
  end.
Definition readMandate (files : directory StoredMandate) (mandateID : string) : result (option StoredMandate) :=
  read_optional (NewError "read mandate record") (NewError "invalid mandate record") (check_mandate mandateID)
    files (mandate_path mandateID).

Definition commitMandate (w : write_outcome) (m : StoredMandate) : action Owner StoredMandate :=
  fun s =>
  match file_replace w (mandate_path (sm_MandateID m)) m (ow_mandates s) with
  | (Ok _, files) => (Ok m, with_mandates s files)
  | (Err e, files) => (Err e, with_mandates s files)
  end.

Definition placed_le (a b : StoredMandate) : Prop :=
  sm_PlacedAtUnix a < sm_PlacedAtUnix b \/ sm_PlacedAtUnix a = sm_PlacedAtUnix b /\ str_le (sm_MandateID a) (sm_MandateID b).
#[global] Instance placed_le_dec a b : Decision (placed_le a b).
Proof. unfold placed_le. apply _. Defined.

Definition readMandates (files : directory StoredMandate) : list StoredMandate :=
  merge_sort placed_le (omap (fun name =>
    if is_dir files name || negb (json_name name) then None else
    match readMandate files (file_id "mdt_" name) with Ok found => found | Err _ => None end) (dir_names files)).
Definition countMandates (files : directory StoredMandate) : Z :=
  Z.of_nat (length (List.filter (fun m => sm_RevokedAtUnix m =? 0) (readMandates files))).

(** The mandate as it is recorded, and with a withdrawal. *)
Definition placed (m : StoredMandate) (identifier : string) (now : Z) : StoredMandate :=
  MkStoredMandate MandateSchema identifier (sm_Objective m) (sm_Authority m) (sm_CapabilityClass m) (sm_AssetNetworkID m)
    (sm_AssetGenesisRootHash m) (sm_AssetGenesisFileHash m) (sm_Workchain m) (sm_AssetAccountID m) (sm_AssetMasterCodeHash m)
    (sm_AssetWalletCodeHash m) (sm_AssetDecimals m) (sm_MaxTotalAtomic m) (sm_ApprovalAboveAtomic m) (sm_MaxCounteroffers m)
    (sm_ExpiresAtUnix m) now 0.
Definition revoked (m : StoredMandate) (now : Z) : StoredMandate :=
  MkStoredMandate (sm_Schema m) (sm_MandateID m) (sm_Objective m) (sm_Authority m) (sm_CapabilityClass m) (sm_AssetNetworkID m)
    (sm_AssetGenesisRootHash m) (sm_AssetGenesisFileHash m) (sm_Workchain m) (sm_AssetAccountID m) (sm_AssetMasterCodeHash m)
    (sm_AssetWalletCodeHash m) (sm_AssetDecimals m) (sm_MaxTotalAtomic m) (sm_ApprovalAboveAtomic m) (sm_MaxCounteroffers m)
    (sm_ExpiresAtUnix m) (sm_PlacedAtUnix m) now.

Definition PlaceMandate (w : write_outcome) (m : StoredMandate) (now : time) : action Owner StoredMandate :=
  fun s =>
  match (call owner_usable s; refuse time_invalid now with NewError "invalid mandate time";
         let* identifier := MandateID m in
         let* found := readMandate (ow_mandates s) identifier in Ok (identifier, found)) with
  | Err e => (Err e, s)
  | Ok (_, Some existing) => (Ok existing, s)
  | Ok (identifier, None) =>
      if MaxMandates <=? countMandates (ow_mandates s) then (Err ErrMandatesFull, s)
      else commitMandate w (placed m identifier now) s
  end.

Definition RevokeMandate (w : write_outcome) (mandateID : string) (now : time) : action Owner StoredMandate :=
  fun s =>
  match (call owner_usable s; refuse negb (mandatePattern mandateID) with NewError "invalid mandate identifier";
         refuse time_invalid now with NewError "invalid mandate time"; readMandate (ow_mandates s) mandateID) with
  | Err e => (Err e, s)
  | Ok None => (Err ErrMandateUnknown, s)
  | Ok (Some m) => if negb (sm_RevokedAtUnix m =? 0) then (Ok m, s) else commitMandate w (revoked m now) s
  end.

Definition ListMandates (s : Owner) : result (list StoredMandate) :=
  call owner_usable s; Ok (readMandates (ow_mandates s)).

Definition LookupMandate (mandateID : string) (s : Owner) : result (option StoredMandate) :=
  call owner_usable s;
  refuse negb (mandatePattern mandateID) with NewError "invalid mandate identifier";
  readMandate (ow_mandates s) mandateID.

(** ** The budget behind a spend *)

Definition mandate_asset (m : StoredMandate) : Asset :=
  MkAsset (MkNetwork (sm_AssetNetworkID m) (sm_AssetGenesisRootHash m) (sm_AssetGenesisFileHash m)) (sm_Workchain m)
    (sm_AssetAccountID m) (sm_AssetMasterCodeHash m) (sm_AssetWalletCodeHash m) (sm_AssetDecimals m).

(** The budget with its ledger, and the key of the hold. *)
Definition mandateBudgetFor (a : Approval) : action Owner (option (Budget * disk_ledger * string)) :=
  fun s =>
  let r := ap_Request a in
  match aq_Terms r with
  | None => (Ok None, s)
  | Some terms =>
      if negb (String.eqb (aq_Effect r) "spend") || String.eqb (aq_MandateID r) "" then (Ok None, s) else
      match LookupMandate (aq_MandateID r) s with
      | Err e => (Err e, s)
      | Ok None => (Err ErrMandateUnknown, s)
      | Ok (Some stored) =>
          let asset := mandate_asset stored in
          match OpenMandateBudgetLedger (aq_MandateID r) asset (ow_budgets s) with
          | Err e => (Err e, s)
          | Ok handle =>
              match OpenBudget (MkMoney asset (sm_MaxTotalAtomic stored)) (Some (MkDiskLedger handle (ow_budgets s))) with
              | (Ok budget, Some ledger) =>
                  let s := with_budgets s (dk_disk ledger) in
                  match ExecutionID (aq_MandateID r) terms with
                  | Err e => (Err e, s)
                  | Ok executionID => (Ok (Some (budget, ledger, executionID)), s)
                  end
              | (Err e, Some ledger) => (Err e, with_budgets s (dk_disk ledger))
              | (Ok _, None) => (Err (NewError "a budget needs somewhere to survive a restart"), s)
              | (Err e, None) => (Err e, s)
              end
          end
      end
  end.

Definition CommitMandateReservation (a : Approval) : action Owner unit :=
  fun s =>
  match mandateBudgetFor a s with
  | (Err e, s) => (Err e, s)
  | (Ok None, s) => (Ok tt, s)
  | (Ok (Some (budget, ledger, executionID)), s) =>
      match Budget_Reserved budget executionID with
      | None => (Ok tt, s)
      | Some _ =>
          let '(r, (_, ledger)) := Budget_Commit executionID (budget, ledger) in
          (r, with_budgets s (dk_disk ledger))
      end
  end.

Definition ReleaseMandateReservation (a : Approval) : action Owner unit :=
  fun s =>
  match mandateBudgetFor a s with
  | (Err e, s) => (Err e, s)
  | (Ok None, s) => (Ok tt, s)
  | (Ok (Some (budget, ledger, executionID)), s) =>
      let '(r, (_, ledger)) := Budget_Release executionID (budget, ledger) in
      (r, with_budgets s (dk_disk ledger))
  end.

Fixpoint release_reservations (expired : list Approval) : action Owner unit :=
  fun s =>
  match expired with
  | [] => (Ok tt, s)
  | a :: rest =>
      match ReleaseMandateReservation a s with
      | (Err e, s) => (Err e, s)
      | (Ok _, s) => release_reservations rest s
      end
  end.

(** The answer is how many requests were denied, and whether all their holds were returned. *)
Definition ExpirePendingApprovals (ws : list write_outcome) (now : time) : action Owner (Z * option error) :=
  fun s =>
  match (call owner_usable s; refuse time_invalid now with NewError "invalid expiry time"; Ok tt) with
  | Err e => (Err e, s)
  | Ok _ =>
      match expirePendingApprovalsLocked ws now s with
      | (Err e, s) => (Err e, s)
      | (Ok expired, s) =>
          let n := Z.of_nat (length expired) in
          match release_reservations expired s with
          | (Err e, s) => (Ok (n, Some e), s)
          | (Ok _, s) => (Ok (n, None), s)
          end
      end
  end.

(** ** Binding executions *)

Inductive execution_dir : Type := EconomicDir | ToolDir.
Definition execution_files (d : execution_dir) (s : Owner) : directory ExecutionClaim :=
  match d with EconomicDir => ow_executions s | ToolDir => ow_tools s end.
Definition with_execution_files (d : execution_dir) (s : Owner) (files : directory ExecutionClaim) : Owner :=
  match d with EconomicDir => with_executions s files | ToolDir => with_tools s files end.
Definition execution_schema (d : execution_dir) : string :=
  match d with EconomicDir => ExecutionClaimSchema | ToolDir => ToolExecutionClaimSchema end.
Definition execution_pattern (d : execution_dir) : string -> bool :=
  match d with EconomicDir => executionIDPattern | ToolDir => toolExecutionIDPattern end.

Definition executionPath (d : execution_dir) (executionID : string) : string :=
  sdrop (match d with EconomicDir => 4 | ToolDir => 5 end) executionID +:+ ".json".
Definition check_claim (d : execution_dir) (executionID : string) (c : ExecutionClaim) : result unit :=
  refuse negb (String.eqb (ec_Schema c) (execution_schema d)) || negb (String.eqb (ec_ExecutionID c) executionID)
    with NewError "execution claim describes another execution";
  Ok tt.
Definition readExecutionClaim (d : execution_dir) (s : Owner) (executionID : string) : result (option ExecutionClaim) :=
  read_optional (NewError "read execution claim") (NewError "invalid execution claim") (check_claim d executionID)
    (execution_files d s) (executionPath d executionID).

Definition claimExecution (w : write_outcome) (d : execution_dir) (executionID actionID : string) (now : time)
    : action Owner (string * bool) :=
  fun s =>
  match (call owner_usable s;
         refuse negb (execution_pattern d executionID) with NewError "invalid execution identifier";
         refuse negb (ids_Action actionID) with NewError "invalid action identifier";
         refuse time_invalid now with NewError "invalid time";
         readExecutionClaim d s executionID) with
  | Err e => (Err e, s)
  | Ok (Some existing) => (Ok (ec_ActionID existing, false), s)
  | Ok None =>
      match file_replace w (executionPath d executionID) (MkExecutionClaim (execution_schema d) executionID actionID now)
              (execution_files d s) with
      | (Ok _, files) => (Ok (actionID, true), with_execution_files d s files)
      | (Err e, files) => (Err e, with_execution_files d s files)
      end
  end.
Definition ClaimEconomicExecution (w : write_outcome) := claimExecution w EconomicDir.
Definition ClaimToolExecution (w : write_outcome) := claimExecution w ToolDir.

Definition lookup_execution (invalid : error) (d : execution_dir) (executionID : string) (s : Owner) : result (option ExecutionClaim) :=
  call owner_usable s;
  refuse negb (execution_pattern d executionID) with invalid;
  readExecutionClaim d s executionID.
Definition LookupEconomicExecution := lookup_execution (NewError "invalid economic execution identifier") EconomicDir.
Definition LookupToolExecution := lookup_execution (NewError "invalid tool execution identifier") ToolDir.

(** ** Escrow accounts *)

(** [toschain.CanonicalAddress]; a canonical address is its own canonical form. *)
Class ChainAddresses := {
  CanonicalAddress : string -> result string;
}.
Class ChainAddressLaws `{ChainAddresses} : Prop := {
  CanonicalAddress_canonical a b : CanonicalAddress a = Ok b -> CanonicalAddress b = Ok b;
}.

(** The pattern of this file asks for a letter at the start of every label, unlike the one of [Terms.v]. *)
Definition escrow_capabilityClassPattern (s : string) : bool := class_labels true s.

Section Escrow.
  Context `{CA : ChainAddresses}.

Definition validateEscrowLocation (l : escrowLocation) : result escrowLocation :=
  refuse negb (String.eqb (el_Schema l) escrowLocatorSchema) || negb (quoteCommitmentPattern (el_Commitment l))
    with NewError "invalid escrow location commitment";
  match CanonicalAddress (el_EscrowAddress l) with
  | Err _ => Err (NewError "invalid escrow location address")
  | Ok address =>
      refuse negb (escrow_capabilityClassPattern (el_CapabilityClass l)) || (64 <? slen (el_CapabilityClass l))
        with NewError "invalid escrow location capability class";
      Ok (MkEscrowLocation (el_Schema l) (el_Commitment l) address (el_CapabilityClass l))
  end.

Definition escrowLocationPath (commitment : string) : string := sdrop 16 commitment +:+ ".json".

Definition readEscrowLocation (files : directory escrowLocation) (commitment : string) : result (option escrowLocation) :=
  match files !! escrowLocationPath commitment with
  | None => Ok None
  | Some EDir | Some EForeign => Err (NewError "read escrow location")
  | Some EJunk => Err (NewError "invalid escrow location record")
  | Some (ERec l) =>
      match validateEscrowLocation l with
      | Ok l => refuse negb (String.eqb (el_Commitment l) commitment)
                  with NewError "escrow location record does not describe this commitment"; Ok (Some l)
      | Err _ => Err (NewError "escrow location record does not describe this commitment")
      end
  end.

Definition RecordEscrowLocation (w : write_outcome) (commitment escrowAddress capabilityClass : string) : action Owner bool :=
  fun s =>
  match (call owner_usable s;
         let* location := validateEscrowLocation (MkEscrowLocation escrowLocatorSchema commitment escrowAddress capabilityClass) in
         let* found := readEscrowLocation (ow_escrows s) commitment in Ok (location, found)) with
  | Err e => (Err e, s)
  | Ok (location, Some existing) =>
      if negb (bool_decide (existing = location)) then (Err ErrConflict, s) else (Ok false, s)
  | Ok (location, None) =>
      match file_replace w (escrowLocationPath commitment) location (ow_escrows s) with
      | (Ok _, files) => (Ok true, with_escrows s files)
      | (Err e, files) => (Err e, with_escrows s files)
      end
  end.

Definition LocateEscrow (commitment : string) (s : Owner) : result (option (string * string)) :=
  call owner_usable s;
  refuse negb (quoteCommitmentPattern commitment) with NewError "invalid quote commitment";
  let* found := readEscrowLocation (ow_escrows s) commitment in
  Ok ((fun l => (el_EscrowAddress l, el_CapabilityClass l)) <$> found).
End Escrow.

(** ** Histories *)

Inductive owner_op : Type :=
  | OpRequest (w : write_outcome) (r : ApprovalRequest)
  | OpAuto (w : write_outcome) (r : ApprovalRequest)
  | OpGrant (w : write_outcome) (actionID : string) (now : time)
  | OpDeny (w : write_outcome) (actionID reason : string) (now : time)
  | OpSpend (w : write_outcome) (actionID : string) (now : time)
  | OpExpire (ws : list write_outcome) (now : time)
  | OpCommitHold (a : Approval)
  | OpReleaseHold (a : Approval)
  | OpPlace (w : write_outcome) (m : StoredMandate) (now : time)
  | OpRevoke (w : write_outcome) (mandateID : string) (now : time)
  | OpClaim (w : write_outcome) (d : execution_dir) (executionID actionID : string) (now : time)
  | OpEscrow (w : write_outcome) (commitment escrowAddress capabilityClass : string).

Section Run.
  Context `{JO : JSONObjects} `{CA : ChainAddresses}.

Definition owner_step (op : owner_op) (s : Owner) : Owner :=
  match op with
  | OpRequest w r => (RequestApproval w r s).2
  | OpAuto w r => (RecordAutoAuthorization w r s).2
  | OpGrant w id now => (GrantAction w id now s).2
  | OpDeny w id reason now => (DenyAction w id reason now s).2
  | OpSpend w id now => (SpendApproval w id now s).2
  | OpExpire ws now => (ExpirePendingApprovals ws now s).2
  | OpCommitHold a => (CommitMandateReservation a s).2
  | OpReleaseHold a => (ReleaseMandateReservation a s).2
  | OpPlace w m now => (PlaceMandate w m now s).2
  | OpRevoke w id now => (RevokeMandate w id now s).2
  | OpClaim w d id action now => (claimExecution w d id action now s).2
  | OpEscrow w c a cls => (RecordEscrowLocation w c a cls s).2
  end.
Definition owner_run (ops : list owner_op) (s : Owner) : Owner := fold_left (fun s op => owner_step op s) ops s.
End Run.

(** ** One approval *)

(** Everything but [file_replace] on one approval leaves the others alone: a write is of a
    record for its own action, new or one step further. *)
Inductive approval_next : Approval -> Approval -> Prop :=
  | next_granted a at_ : ap_State a = ApprovalPending -> approval_next a (decided a ApprovalGranted at_ "")
  | next_denied a at_ reason : ap_State a = ApprovalPending -> approval_next a (decided a ApprovalDenied at_ reason)
  | next_spent a at_ : ap_State a = ApprovalGranted -> approval_next a (spent_approval a at_).

Definition act_like (id : string) : Prop := exists stem, id = "act_" +:+ stem.

Inductive approvals_step (d : directory Approval) : directory Approval -> Prop :=
  | approvals_new id a :
      act_like id -> readApproval d id = Ok None -> ap_Schema a = ApprovalSchema -> ap_ActionID a = id ->
      ap_State a = ApprovalPending \/ ap_State a = ApprovalGranted ->
      approvals_step d (<[approval_path id := ERec a]> d)
  | approvals_next id a a' :
      act_like id -> readApproval d id = Ok (Some a) -> approval_next a a' ->
      approvals_step d (<[approval_path id := ERec a']> d).

Lemma act_like_path id id' : act_like id -> act_like id' -> approval_path id = approval_path id' -> id = id'.
Proof.
  intros [stem ->] [stem' ->] E. unfold approval_path in E.
  change (sdrop 4 ("act_" +:+ stem)) with stem in E. change (sdrop 4 ("act_" +:+ stem')) with stem' in E.
  apply string_app_inj_r in E. by subst.
Qed.

Lemma ids_Action_like id : ids_Action id = true -> act_like id.
Proof.
  unfold ids_Action, prefixed_hex64. destruct (strip_prefix "act_" id) as [stem|] eqn:E; [|done].
  intros _. exists stem. by apply strip_prefix_Some.
Qed.

Lemma readApproval_at d id a : readApproval d id = Ok (Some a) ->
  d !! approval_path id = Some (ERec a) /\ ap_Schema a = ApprovalSchema /\ ap_ActionID a = id.
Proof.
  unfold readApproval, read_optional. destruct (d !! _) as [[]|]; try done. unfold check_approval.
  destruct (_ || _) eqn:E; [done|]. intros [= ->]. by breflect.
Qed.

Lemma readApproval_write d id a : ap_Schema a = ApprovalSchema -> ap_ActionID a = id ->
  readApproval (<[approval_path id := ERec a]> d) id = Ok (Some a).
Proof.
  intros Hs Hi. unfold readApproval, read_optional. rewrite lookup_insert_eq. unfold check_approval.
  by rewrite Hs, Hi, !String.eqb_refl.
Qed.

Lemma readApproval_frame d id path e : approval_path id <> path -> readApproval (<[path := e]> d) id = readApproval d id.
Proof. intros H. unfold readApproval, read_optional. by rewrite lookup_insert_ne. Qed.

Lemma approval_next_same a a' : approval_next a a' -> ap_Request a' = ap_Request a /\ ap_Schema a' = ap_Schema a.
Proof. by intros []. Qed.

Lemma approvals_step_history d d' id a :
  approvals_step d d' -> act_like id -> readApproval d id = Ok (Some a) ->
  exists a', readApproval d' id = Ok (Some a') /\ rtc approval_next a a'.
Proof.
  intros Hstep Hid Hr. destruct Hstep as [id' n Hid' Hnone Hs Hi _|id' b b' Hid' Hb Hn].
  - exists a. split; [|done]. rewrite readApproval_frame; [done|]. intros E%act_like_path; [|done..]. subst id'. congruence.
  - destruct (decide (id' = id)) as [->|Hne].
    + rewrite Hr in Hb. injection Hb as <-. exists b'. split; [|by apply rtc_once].
      destruct (readApproval_at _ _ _ Hr) as (_ & Hs & Hi). destruct (approval_next_same _ _ Hn) as [Hq Hsc].
      apply readApproval_write; [congruence|]. unfold ap_ActionID in *. by rewrite Hq.
    + exists a. split; [|done]. rewrite readApproval_frame; [done|]. intros E%act_like_path; [|done..]. by subst.
Qed.

(** ** Steps of the whole *)

Section Steps.
  Context `{JO : JSONObjects} `{CA : ChainAddresses}.

Lemma with_approvals_id s : with_approvals s (ow_approvals s) = s.
Proof. by destruct s. Qed.

Lemma commitApproval_cases w a s r s' :
  commitApproval w a s = (r, s') ->
  s' = s /\ is_ok r = false \/
  s' = with_approvals s (<[approval_path (ap_ActionID a) := ERec a]> (ow_approvals s)) /\ (r = Ok a \/ is_ok r = false).
Proof.
  unfold commitApproval. destruct (file_replace _ _ _ _) as [x files] eqn:Hf. intros H.
  destruct (file_replace_cases _ _ _ _ _ _ Hf) as [[-> Hx]|[-> _]]; destruct x; try done; injection H as <- <-.
  - left. by rewrite with_approvals_id.
  - right. split; [done|by left].
  - right. split; [done|by right].
Qed.

(** A write that is a step keeps the rest of the state. *)
Lemma commit_is_step w a s r s' :
  approvals_step (ow_approvals s) (<[approval_path (ap_ActionID a) := ERec a]> (ow_approvals s)) ->
  commitApproval w a s = (r, s') -> rtc approvals_step (ow_approvals s) (ow_approvals s').
Proof. intros Hs H. destruct (commitApproval_cases _ _ _ _ _ H) as [[-> _]|[-> _]]; [done|]. by apply rtc_once. Qed.

Lemma request_like r : is_ok (validateApprovalRequest r) = true -> act_like (aq_ActionID r).
Proof.
  unfold validateApprovalRequest. destruct (ids_Action (aq_ActionID r)) eqn:E; [|done]. intros _. by apply ids_Action_like.
Qed.

Lemma fresh_step s r state decided0 :
  is_ok (validateApprovalRequest r) = true -> readApproval (ow_approvals s) (aq_ActionID r) = Ok None ->
  state = ApprovalPending \/ state = ApprovalGranted ->
  approvals_step (ow_approvals s)
    (<[approval_path (ap_ActionID (fresh_approval r state decided0)) := ERec (fresh_approval r state decided0)]> (ow_approvals s)).
Proof. intros Hv Hn Hst. apply approvals_new; try done. by apply request_like. Qed.

Lemma approval_on_file_Ok id now s a : approval_on_file id now s = Ok a ->
  ow_held s = true /\ ids_Action id = true /\ 0 <= now /\ readApproval (ow_approvals s) id = Ok (Some a).
Proof.
  unfold approval_on_file, owner_usable. intros H. destruct (ow_held s); [|done]. cbn [negb] in H.
  destruct (ids_Action id); [|done]. cbn [negb] in H. destruct (time_invalid now) eqn:Ht; [done|].
  destruct (readApproval _ _) as [[x|]|]; try done. injection H as ->. split_and!; try done. by apply time_valid_nonneg.
Qed.

Lemma next_step s id a a' :
  ids_Action id = true \/ act_like id -> readApproval (ow_approvals s) id = Ok (Some a) -> approval_next a a' ->
  approvals_step (ow_approvals s) (<[approval_path (ap_ActionID a') := ERec a']> (ow_approvals s)).
Proof.
  intros Hid Hr Hn. destruct (readApproval_at _ _ _ Hr) as (_ & _ & Hi). destruct (approval_next_same _ _ Hn) as [Hq _].
  replace (ap_ActionID a') with id by (unfold ap_ActionID in *; by rewrite Hq).
  apply (approvals_next _ id a a'); [|done|done]. destruct Hid; [by apply ids_Action_like|done].
Qed.

Lemma decide_step w id state reason now s :
  state = ApprovalGranted /\ reason = "" \/ state = ApprovalDenied ->
  rtc approvals_step (ow_approvals s) (ow_approvals (decideApproval w id state reason now s).2).
Proof.
  intros Hst. unfold decideApproval. destruct (approval_on_file id now s) as [a|] eqn:Ha; [|done].
  destruct (approval_on_file_Ok _ _ _ _ Ha) as (_ & Hid & _ & Hr).
  destruct (decide (ap_State a = ApprovalPending)) as [Hp|Hp]; [rewrite bool_decide_true by done|by rewrite bool_decide_false].
  cbn [negb]. destruct (commitApproval _ _ s) as [r s'] eqn:Hc. cbn [snd]. eapply commit_is_step; [|exact Hc].
  eapply next_step; [by left|exact Hr|]. destruct Hst as [[-> ->]| ->]; by constructor.
Qed.

Lemma spend_step w id now s : rtc approvals_step (ow_approvals s) (ow_approvals (SpendApproval w id now s).2).
Proof.
  unfold SpendApproval. destruct (approval_on_file id now s) as [a|] eqn:Ha; [|done].
  destruct (approval_on_file_Ok _ _ _ _ Ha) as (_ & Hid & _ & Hr).
  destruct (decide (ap_State a = ApprovalGranted)) as [Hp|Hp]; [rewrite bool_decide_true by done|by rewrite bool_decide_false].
  cbn [negb]. destruct (commitApproval _ _ s) as [r s'] eqn:Hc. cbn [snd]. eapply commit_is_step; [|exact Hc].
  eapply next_step; [by left|exact Hr|by constructor].
Qed.

Lemma expire_step ws seconds names expired s :
  rtc approvals_step (ow_approvals s) (ow_approvals (expire_approvals ws seconds names expired s).2).
Proof.
  revert ws expired s. induction names as [|name names IH]; intros ws expired s; [done|]. cbn [expire_approvals].
  destruct (_ || _); [apply IH|]. destruct (readApproval _ _) as [[a|]|] eqn:Hr; [|apply IH..].
  destruct (negb (bool_decide (ap_State a = ApprovalPending)) || _) eqn:Hp; [apply IH|]. breflect.
  destruct (next_outcome ws) as [w ws']. destruct (commitApproval w _ s) as [r s'] eqn:Hc.
  assert (rtc approvals_step (ow_approvals s) (ow_approvals s')) as Hs.
  { eapply commit_is_step; [|exact Hc]. eapply next_step; [right; by eexists|exact Hr|by constructor]. }
  destruct r as [stored|e]; [|done]. etrans; [exact Hs|apply IH].
Qed.

Lemma mandateBudgetFor_frame a s r s' : mandateBudgetFor a s = (r, s') -> s' = with_budgets s (ow_budgets s').
Proof.
  intros H. assert (s = with_budgets s (ow_budgets s)) as Hs by (by destruct s).
  unfold mandateBudgetFor in H. repeat (case_match; simplify_eq; try done).
Qed.
Lemma CommitMandateReservation_frame a s : exists b, (CommitMandateReservation a s).2 = with_budgets s b.
Proof.
  unfold CommitMandateReservation. destruct (mandateBudgetFor a s) as [r s'] eqn:H. apply mandateBudgetFor_frame in H.
  rewrite H. repeat (case_match; simplify_eq); cbn [snd]; by eexists.
Qed.
Lemma ReleaseMandateReservation_frame a s : exists b, (ReleaseMandateReservation a s).2 = with_budgets s b.
Proof.
  unfold ReleaseMandateReservation. destruct (mandateBudgetFor a s) as [r s'] eqn:H. apply mandateBudgetFor_frame in H.
  rewrite H. repeat (case_match; simplify_eq); cbn [snd]; by eexists.
Qed.
Lemma release_reservations_frame l s : exists b, (release_reservations l s).2 = with_budgets s b.
Proof.
  revert s. induction l as [|a l IH]; intros s; [exists (ow_budgets s); by destruct s|]. cbn [release_reservations].
  destruct (ReleaseMandateReservation_frame a s) as [b Hb]. destruct (ReleaseMandateReservation a s) as [[] s1]; cbn [snd] in *; subst s1.
  - destruct (IH (with_budgets s b)) as [b' ->]. by exists b'.
  - by exists b.
Qed.
End Steps.

Section Theorems.
  Context `{JO : JSONObjects} `{CA : ChainAddresses}.

Lemma commitMandate_frame w m s : exists d, (commitMandate w m s).2 = with_mandates s d.
Proof. unfold commitMandate. destruct (file_replace _ _ _ _) as [[] d]; by exists d. Qed.

Lemma PlaceMandate_frame w m now s : exists d, (PlaceMandate w m now s).2 = with_mandates s d.
Proof.
  assert (s = with_mandates s (ow_mandates s)) as Hs by (by destruct s). unfold PlaceMandate.
  repeat case_match; cbn [snd]; first [exists (ow_mandates s); exact Hs | apply commitMandate_frame].
Qed.
Lemma RevokeMandate_frame w id now s : exists d, (RevokeMandate w id now s).2 = with_mandates s d.
Proof.
  assert (s = with_mandates s (ow_mandates s)) as Hs by (by destruct s). unfold RevokeMandate.
  repeat case_match; cbn [snd]; first [exists (ow_mandates s); exact Hs | apply commitMandate_frame].
Qed.
Lemma claimExecution_frame w d id act now s : exists files, (claimExecution w d id act now s).2 = with_execution_files d s files.
Proof.
  assert (s = with_execution_files d s (execution_files d s)) as Hs by (by destruct s, d). unfold claimExecution.
  repeat case_match; cbn [snd]; by eexists.
Qed.
Lemma RecordEscrowLocation_frame w c a cls s : exists files, (RecordEscrowLocation w c a cls s).2 = with_escrows s files.
Proof.
  assert (s = with_escrows s (ow_escrows s)) as Hs by (by destruct s). unfold RecordEscrowLocation.
  repeat case_match; cbn [snd]; by eexists.
Qed.

Lemma owner_step_approvals op s : rtc approvals_step (ow_approvals s) (ow_approvals (owner_step op s)).
Proof.
  destruct op as [w r|w r|w id now|w id reason now|w id now|ws now|a|a|w m now|w id now|w d id act now|w c a cls]; cbn [owner_step].
  - unfold RequestApproval. destruct (owner_usable s); [|done]. destruct (validateApprovalRequest r) as [u|] eqn:Hv; [|done].
    destruct (readApproval _ _) as [[x|]|] eqn:Hr; [done| |done]. destruct (_ <=? _); [done|].
    destruct (commitApproval _ _ s) as [x s'] eqn:Hc. cbn [snd]. eapply commit_is_step; [|exact Hc].
    apply fresh_step; [by rewrite Hv|done|by left].
  - unfold RecordAutoAuthorization. destruct (owner_usable s); [|done]. destruct (validateApprovalRequest r) as [u|] eqn:Hv; [|done].
    destruct (readApproval _ _) as [[x|]|] eqn:Hr; [done| |done].
    destruct (commitApproval _ _ s) as [x s'] eqn:Hc. cbn [snd]. eapply commit_is_step; [|exact Hc].
    apply fresh_step; [by rewrite Hv|done|by right].
  - apply decide_step. by left.
  - unfold DenyAction. destruct (_ || _); [done|]. apply decide_step. by right.
  - apply spend_step.
  - unfold ExpirePendingApprovals. destruct (owner_usable s); [|done]. destruct (time_invalid now); [done|].
    pose proof (expire_step ws now (dir_names (ow_approvals s)) [] s) as He. unfold expirePendingApprovalsLocked.
    destruct (expire_approvals _ _ _ _ _) as [[expired|] s']; [|done]. cbn [snd] in He.
    destruct (release_reservations_frame expired s') as [b Hb].
    by destruct (release_reservations expired s') as [[] s2]; cbn [snd] in *; subst s2.
  - by destruct (CommitMandateReservation_frame a s) as [b ->].
  - by destruct (ReleaseMandateReservation_frame a s) as [b ->].
  - by destruct (PlaceMandate_frame w m now s) as [b ->].
  - by destruct (RevokeMandate_frame w id now s) as [b ->].
  - destruct (claimExecution_frame w d id act now s) as [b ->]. by destruct d.
  - by destruct (RecordEscrowLocation_frame w c a cls s) as [b ->].
Qed.

Lemma approvals_rtc_history d d' id a :
  rtc approvals_step d d' -> act_like id -> readApproval d id = Ok (Some a) ->
  exists a', readApproval d' id = Ok (Some a') /\ rtc approval_next a a'.
Proof.
  intros Hs Hid. revert a. induction Hs as [d|d d1 d2 H1 H2 IH]; intros a Hr; [by exists a|].
  destruct (approvals_step_history _ _ _ _ H1 Hid Hr) as (a1 & Hr1 & Hn1).
  destruct (IH a1 Hr1) as (a2 & Hr2 & Hn2). exists a2. split; [done|]. by etrans.
Qed.

Lemma owner_run_history ops s id a :
  act_like id -> readApproval (ow_approvals s) id = Ok (Some a) ->
  exists a', readApproval (ow_approvals (owner_run ops s)) id = Ok (Some a') /\ rtc approval_next a a'.
Proof.
  intros Hid. revert s a. induction ops as [|op ops IH]; intros s a Hr; [by exists a|]. cbn [owner_run fold_left].
  destruct (approvals_rtc_history _ _ _ _ (owner_step_approvals op s) Hid Hr) as (a1 & Hr1 & Hn1).
  destruct (IH _ _ Hr1) as (a2 & Hr2 & Hn2). exists a2. split; [done|]. by etrans.
Qed.

Lemma approval_next_rtc a a' : rtc approval_next a a' ->
  ap_Request a' = ap_Request a /\
  (ap_State a = ApprovalSpent \/ ap_State a = ApprovalDenied -> a' = a) /\
  (ap_State a = ApprovalGranted -> a' = a \/ ap_State a' = ApprovalSpent).
Proof.
  induction 1 as [a|a b c Hn _ (IHr & IHf & IHg)]; [split_and!; auto|].
  destruct (approval_next_same _ _ Hn) as [Hq _]. split_and!; [congruence| |].
  - intros Hst. destruct Hn; destruct Hst; congruence.
  - intros Hst. inversion Hn; subst; try congruence. right. rewrite IHf; [done|by left].
Qed.

(** The record of a request keeps its question and only moves forward: under any
    sequence of requests, decisions, spends, expiries and other operations of the
    owner's state, failed writes included, it is never lost, what was asked never
    changes, a denial or a spend is final, and a granted approval can only become spent. *)
Theorem approval_history ops s id a :
  ids_Action id = true -> readApproval (ow_approvals s) id = Ok (Some a) ->
  exists a', readApproval (ow_approvals (owner_run ops s)) id = Ok (Some a') /\ ap_Request a' = ap_Request a /\
    match ap_State a with
    | ApprovalPending => True
    | ApprovalGranted => a' = a \/ ap_State a' = ApprovalSpent
    | ApprovalSpent | ApprovalDenied => a' = a
    end.
Proof.
  intros Hid Hr. destruct (owner_run_history ops s id a (ids_Action_like _ Hid) Hr) as (a' & Hr' & Hn).
  destruct (approval_next_rtc _ _ Hn) as (Hq & Hf & Hg). exists a'. split_and!; [done..|].
  destruct (ap_State a) eqn:E; auto.
Qed.

(** A decision that was answered is on file. *)
Lemma commitApproval_Ok w a s b s' id :
  commitApproval w a s = (Ok b, s') -> ap_Schema a = ApprovalSchema -> ap_ActionID a = id ->
  b = a /\ readApproval (ow_approvals s') id = Ok (Some a).
Proof.
  intros H Hs Hi. destruct (commitApproval_cases _ _ _ _ _ H) as [[_ ?]|[-> [Hb|?]]]; [done| |done].
  injection Hb as ->. split; [done|]. cbn [ow_approvals with_approvals]. rewrite Hi. by apply readApproval_write.
Qed.

Lemma spend_refused w id now s a :
  readApproval (ow_approvals s) id = Ok (Some a) -> ap_State a <> ApprovalGranted ->
  exists e, SpendApproval w id now s = (Err e, s).
Proof.
  intros Hr Hst. unfold SpendApproval. destruct (approval_on_file id now s) as [b|e] eqn:Hb; [|by exists e].
  destruct (approval_on_file_Ok _ _ _ _ Hb) as (_ & _ & _ & Hr'). rewrite Hr in Hr'. injection Hr' as <-.
  rewrite bool_decide_false by done. by eexists.
Qed.

(** C27: An authorisation is used once.  A spend succeeds only on an approval that was
    granted, and once one was answered, or once the owner denied the action, no
    sequence of operations (asking again, automatic authorisation, expiry, failed
    writes) makes a later spend of that action succeed or changes anything. *)
Theorem approval_spent_once w id now s a s1 ops w' now' :
  SpendApproval w id now s = (Ok a, s1) \/ (exists reason, DenyAction w id reason now s = (Ok a, s1)) ->
  (exists e, SpendApproval w' id now' (owner_run ops s1) = (Err e, owner_run ops s1)) /\
  (ap_State a = ApprovalSpent -> exists b, readApproval (ow_approvals s) id = Ok (Some b) /\
     ap_State b = ApprovalGranted /\ ap_Request b = ap_Request a).
Proof.
  intros H. assert (exists b, ids_Action id = true /\ readApproval (ow_approvals s) id = Ok (Some b) /\ ap_Request a = ap_Request b /\
    readApproval (ow_approvals s1) id = Ok (Some a) /\
    (ap_State a = ApprovalSpent /\ ap_State b = ApprovalGranted \/ ap_State a = ApprovalDenied)) as (b & Hid & Hb & Hq & Ha & Hst).
  { destruct H as [H|[reason H]].
    - unfold SpendApproval in H. destruct (approval_on_file id now s) as [b|] eqn:Hb; [|done].
      destruct (approval_on_file_Ok _ _ _ _ Hb) as (_ & Hid & _ & Hr). destruct (readApproval_at _ _ _ Hr) as (_ & Hs & Hi).
      destruct (decide (ap_State b = ApprovalGranted)) as [Hg|]; [rewrite bool_decide_true in H by done|by rewrite bool_decide_false in H].
      destruct (commitApproval_Ok _ _ _ _ _ id H) as [-> Hr']; [done|done|]. exists b. split_and!; try done. by left.
    - unfold DenyAction in H. destruct (_ || _); [done|]. unfold decideApproval in H.
      destruct (approval_on_file id now s) as [b|] eqn:Hb; [|done].
      destruct (approval_on_file_Ok _ _ _ _ Hb) as (_ & Hid & _ & Hr). destruct (readApproval_at _ _ _ Hr) as (_ & Hs & Hi).
      destruct (negb _); [done|].
      destruct (commitApproval_Ok _ _ _ _ _ id H) as [-> Hr']; [done|done|]. exists b. split_and!; try done. by right. }
  split.
  - destruct (owner_run_history ops s1 id a (ids_Action_like _ Hid) Ha) as (a' & Hr' & Hn).
    destruct (approval_next_rtc _ _ Hn) as (_ & Hf & _). rewrite Hf in Hr' by (destruct Hst as [[? _]|?]; auto).
    eapply spend_refused; [exact Hr'|]. destruct Hst as [[-> _]| ->]; done.
  - intros Hsp. exists b. destruct Hst as [[_ ?]|Hd]; [done|]. by rewrite Hsp in Hd.
Qed.
End Theorems.

(** ** Bindings that do not change *)

Lemma prefixed_sdrop p id : prefixed_hex64 p id = true -> id = p +:+ sdrop (String.length p) id.
Proof.
  unfold prefixed_hex64. destruct (strip_prefix p id) as [stem|] eqn:E; [|done].
  apply strip_prefix_Some in E as ->. intros _. by rewrite sdrop_app.
Qed.

Lemma executionPath_inj d id id' : execution_pattern d id = true -> execution_pattern d id' = true ->
  executionPath d id = executionPath d id' -> id = id'.
Proof.
  intros H H' E. destruct d; [exact (prefixed_path_inj "eex_" ".json" id id' H H' E)|exact (prefixed_path_inj "idem_" ".json" id id' H H' E)].
Qed.

Lemma escrowPath_inj c c' : quoteCommitmentPattern c = true -> quoteCommitmentPattern c' = true ->
  escrowLocationPath c = escrowLocationPath c' -> c = c'.
Proof. exact (prefixed_path_inj "tvm-cell-sha256:" ".json" c c'). Qed.

Section Bindings.
  Context `{JO : JSONObjects} `{CA : ChainAddresses}.

Lemma commitApproval_frame w a s : exists d, (commitApproval w a s).2 = with_approvals s d.
Proof. unfold commitApproval. destruct (file_replace _ _ _ _) as [[] d]; by exists d. Qed.

Lemma expire_frame ws seconds names expired s : exists d, (expire_approvals ws seconds names expired s).2 = with_approvals s d.
Proof.
  assert (forall s : Owner, s = with_approvals s (ow_approvals s)) as Hid by (by intros []).
  revert ws expired s. induction names as [|name names IH]; intros ws expired s; [by eexists|]. cbn [expire_approvals].
  repeat case_match; try apply IH; subst;
    match goal with H : commitApproval ?w ?a s = (_, ?s') |- _ =>
      destruct (commitApproval_frame w a s) as [d Hd]; rewrite H in Hd; cbn [snd] in Hd; subst s' end.
  - match goal with |- exists _, (expire_approvals ?ws ?n ?l ?e ?t).2 = _ => destruct (IH ws e t) as [d' ->] end. by exists d'.
  - by exists d.
Qed.

(** What each operation may touch. *)
Lemma owner_step_frame op s :
  match op with
  | OpPlace _ _ _ | OpRevoke _ _ _ => exists d, owner_step op s = with_mandates s d
  | OpClaim _ d _ _ _ => exists f, owner_step op s = with_execution_files d s f
  | OpEscrow _ _ _ _ => exists f, owner_step op s = with_escrows s f
  | _ => exists d b, owner_step op s = with_budgets (with_approvals s d) b
  end.
Proof.
  assert (s = with_budgets (with_approvals s (ow_approvals s)) (ow_budgets s)) as Hs by (by destruct s).
  assert (exists d b, s = with_budgets (with_approvals s d) b) as Hsame by (do 2 eexists; exact Hs).
  assert (forall w a, exists d b, (commitApproval w a s).2 = with_budgets (with_approvals s d) b) as Hc.
  { intros w a. destruct (commitApproval_frame w a s) as [d ->]. by exists d, (ow_budgets s). }
  assert (forall w id st re now, exists d b, (decideApproval w id st re now s).2 = with_budgets (with_approvals s d) b) as Hd.
  { intros w id st re now. unfold decideApproval. repeat case_match; [exact Hsame|apply Hc|exact Hsame]. }
  destruct op as [w r|w r|w id now|w id reason now|w id now|ws now|a|a|w m now|w id now|w d id act now|w c a cls]; cbn [owner_step].
  - unfold RequestApproval. repeat case_match; first [exact Hsame|apply Hc].
  - unfold RecordAutoAuthorization. repeat case_match; first [exact Hsame|apply Hc].
  - apply Hd.
  - unfold DenyAction. case_match; [exact Hsame|apply Hd].
  - unfold SpendApproval. repeat case_match; first [exact Hsame|apply Hc].
  - unfold ExpirePendingApprovals, expirePendingApprovalsLocked.
    destruct (owner_usable s); [|exact Hsame]. destruct (time_invalid now); [exact Hsame|].
    destruct (expire_frame ws now (dir_names (ow_approvals s)) [] s) as [d Hx].
    destruct (expire_approvals _ _ _ _ _) as [[expired|] s']; cbn [snd] in Hx; subst s'; [|by exists d, (ow_budgets s)].
    destruct (release_reservations_frame expired (with_approvals s d)) as [b Hb].
    destruct (release_reservations expired _) as [[] s2]; cbn [snd] in Hb |- *; subst s2; by exists d, b.
  - destruct (CommitMandateReservation_frame a s) as [b ->]. exists (ow_approvals s), b. by destruct s.
  - destruct (ReleaseMandateReservation_frame a s) as [b ->]. exists (ow_approvals s), b. by destruct s.
  - apply PlaceMandate_frame.
  - apply RevokeMandate_frame.
  - apply claimExecution_frame.
  - apply RecordEscrowLocation_frame.
Qed.

(** *** Executions *)

Lemma readExecutionClaim_at d s id c : readExecutionClaim d s id = Ok (Some c) <->
  execution_files d s !! executionPath d id = Some (ERec c) /\ ec_Schema c = execution_schema d /\ ec_ExecutionID c = id.
Proof.
  unfold readExecutionClaim, read_optional, check_claim. split.
  - destruct (execution_files d s !! _) as [[]|]; try done. destruct (_ || _) eqn:E; [done|]. intros [= ->]. by breflect.
  - intros (-> & -> & ->). by rewrite !String.eqb_refl.
Qed.

Lemma execution_files_same d d' s f : execution_files d (with_execution_files d' s f) =
  match d, d' with EconomicDir, EconomicDir | ToolDir, ToolDir => f | _, _ => execution_files d s end.
Proof. by destruct d, d'. Qed.

Lemma owner_step_claim op s d id c : execution_pattern d id = true ->
  readExecutionClaim d s id = Ok (Some c) -> readExecutionClaim d (owner_step op s) id = Ok (Some c).
Proof.
  intros Hid Hr. assert (forall s', execution_files d s' = execution_files d s -> readExecutionClaim d s' id = Ok (Some c)) as Hsame.
  { intros s' E. unfold readExecutionClaim in *. by rewrite E. }
  pose proof (owner_step_frame op s) as Hf.
  destruct op as [w r|w r|w i now|w i reason now|w i now|ws now|a|a|w m now|w i now|w d' id' act now|w cc a cls];
    try (destruct Hf as (? & ? & ->); apply Hsame; by destruct d); try (destruct Hf as (? & ->); apply Hsame; by destruct d).
  clear Hf. cbn [owner_step]. unfold claimExecution.
  destruct (owner_usable s); [|exact Hr]. destruct (execution_pattern d' id') eqn:Hid'; [|exact Hr]. cbn [negb].
  destruct (negb _); [exact Hr|]. destruct (time_invalid now); [exact Hr|].
  destruct (readExecutionClaim d' s id') as [[x|]|] eqn:Hx; [exact Hr| |exact Hr].
  destruct (file_replace _ _ _ _) as [r files] eqn:Hw.
  assert (readExecutionClaim d (with_execution_files d' s files) id = Ok (Some c)) as Hgoal by
    (destruct (file_replace_cases _ _ _ _ _ _ Hw) as [[-> _]|[-> _]]; [apply Hsame; by destruct d, d'|];
     apply readExecutionClaim_at; apply readExecutionClaim_at in Hr as Hr2; rewrite execution_files_same;
     destruct d, d'; try done; rewrite lookup_insert_ne; try done; intros E;
     pose proof (executionPath_inj _ _ _ Hid' Hid E) as Heq; rewrite Heq in Hx; congruence).
  by destruct r.
Qed.

Lemma owner_run_claim ops s d id c : execution_pattern d id = true ->
  readExecutionClaim d s id = Ok (Some c) -> readExecutionClaim d (owner_run ops s) id = Ok (Some c).
Proof.
  intros Hid. revert s. induction ops as [|op ops IH]; intros s Hr; [done|]. cbn [owner_run fold_left].
  by apply IH, owner_step_claim.
Qed.

Lemma claim_answer w d id act now s b fresh s1 : claimExecution w d id act now s = (Ok (b, fresh), s1) ->
  execution_pattern d id = true /\ ow_held s1 = ow_held s /\
  exists c, readExecutionClaim d s1 id = Ok (Some c) /\ ec_ActionID c = b.
Proof.
  unfold claimExecution. destruct (owner_usable s); [|done]. destruct (execution_pattern d id); [|done]. cbn [negb].
  destruct (negb _); [done|]. destruct (time_invalid now); [done|].
  destruct (readExecutionClaim d s id) as [[x|]|] eqn:Hx; [| |done].
  - intros [= <- <- <-]. split_and!; [done..|]. by exists x.
  - destruct (file_replace _ _ _ _) as [[[]|] files] eqn:Hw; [|done]. apply file_replace_Ok in Hw as ->. intros [= <- <- <-].
    split_and!; [done|by destruct d|]. exists (MkExecutionClaim (execution_schema d) id act now). split; [|done].
    apply readExecutionClaim_at. rewrite execution_files_same. by destruct d; rewrite lookup_insert_eq.
Qed.

(** An execution belongs to the action that claimed it first.  Once a claim was
    answered, whatever happens to the owner's state in between, every later claim of
    the same execution that is answered names that action, is not fresh, and changes
    nothing. *)
Theorem execution_bound_once w d id act now s b fresh s1 ops w' act' now' r s2 :
  claimExecution w d id act now s = (Ok (b, fresh), s1) ->
  claimExecution w' d id act' now' (owner_run ops s1) = (r, s2) ->
  s2 = owner_run ops s1 /\ (is_ok r = true -> r = Ok (b, false)).
Proof.
  intros H H'. destruct (claim_answer _ _ _ _ _ _ _ _ _ H) as (Hid & _ & c & Hc & <-).
  apply (owner_run_claim ops) in Hc; [|done]. unfold claimExecution in H'. rewrite Hc in H'.
  repeat (case_match; simplify_eq; try (split; done)).
Qed.

(** *** Escrow accounts *)

Lemma owner_step_escrows op s :
  match op with OpEscrow _ _ _ _ => True | _ => ow_escrows (owner_step op s) = ow_escrows s end.
Proof.
  pose proof (owner_step_frame op s) as Hf. destruct op as [| | | | | | | | | |w d id act now|]; try (by destruct Hf as (? & ? & ->));
    try (by destruct Hf as (? & ->)); try done. destruct Hf as (? & ->). by destruct d.
Qed.

Context {CL : ChainAddressLaws}.

Lemma validateEscrowLocation_again l l' : validateEscrowLocation l = Ok l' ->
  validateEscrowLocation l' = Ok l' /\ el_Commitment l' = el_Commitment l /\ quoteCommitmentPattern (el_Commitment l) = true.
Proof.
  unfold validateEscrowLocation. intros H. destruct (_ || _) eqn:E1; [done|].
  destruct (CanonicalAddress _) as [address|] eqn:Ea; [|done].
  match type of H with (if ?b then _ else _) = _ => destruct b eqn:E2; [done|] end.
  apply Ok_inj in H as <-. cbn [el_Schema el_Commitment el_EscrowAddress el_CapabilityClass]. rewrite E1, (CanonicalAddress_canonical _ _ Ea), E2. breflect. split_and!; done.
Qed.

Lemma readEscrow_write files l l' c : validateEscrowLocation l = Ok l' -> el_Commitment l = c ->
  readEscrowLocation (<[escrowLocationPath c := ERec l']> files) c = Ok (Some l').
Proof.
  intros Hv Hc. destruct (validateEscrowLocation_again _ _ Hv) as (Hv' & Hc' & _).
  unfold readEscrowLocation. by rewrite lookup_insert_eq, Hv', Hc', Hc, String.eqb_refl.
Qed.

Lemma owner_step_escrow op s c l : quoteCommitmentPattern c = true ->
  readEscrowLocation (ow_escrows s) c = Ok (Some l) -> readEscrowLocation (ow_escrows (owner_step op s)) c = Ok (Some l).
Proof.
  intros Hc Hr. pose proof (owner_step_escrows op s) as Hf. destruct op as [| | | | | | | | | | |w c' a cls]; try (by rewrite Hf).
  clear Hf. cbn [owner_step]. unfold RecordEscrowLocation. destruct (owner_usable s); [|done].
  destruct (validateEscrowLocation _) as [location|] eqn:Hv; [|done].
  destruct (readEscrowLocation (ow_escrows s) c') as [[x|]|] eqn:Hx; [by case_match| |done].
  destruct (validateEscrowLocation_again _ _ Hv) as (_ & _ & Hc'). cbn in Hc'.
  destruct (file_replace _ _ _ _) as [r files] eqn:Hw.
  assert (readEscrowLocation files c = Ok (Some l)) as Hgoal.
  { destruct (file_replace_cases _ _ _ _ _ _ Hw) as [[-> _]|[-> _]]; [done|].
    unfold readEscrowLocation. rewrite lookup_insert_ne; [exact Hr|]. intros E. apply escrowPath_inj in E; [subst; congruence|done..]. }
  by destruct r.
Qed.

(** A funded quote has one escrow account.  Once a location was recorded, through
    any operations, [LocateEscrow] answers exactly that account and class, recording
    it again is answered without a write, and a redirect is refused as a conflict. *)
Theorem escrow_location_fixed w c a cls s b s1 ops w' a' cls' r s2 :
  RecordEscrowLocation w c a cls s = (Ok b, s1) ->
  RecordEscrowLocation w' c a' cls' (owner_run ops s1) = (r, s2) ->
  exists l, validateEscrowLocation (MkEscrowLocation escrowLocatorSchema c a cls) = Ok l /\
    (ow_held (owner_run ops s1) = true -> LocateEscrow c (owner_run ops s1) = Ok (Some (el_EscrowAddress l, el_CapabilityClass l))) /\
    s2 = owner_run ops s1 /\
    (forall l', validateEscrowLocation (MkEscrowLocation escrowLocatorSchema c a' cls') = Ok l' -> ow_held (owner_run ops s1) = true ->
       r = if bool_decide (l' = l) then Ok false else Err ErrConflict).
Proof.
  intros H H'. unfold RecordEscrowLocation in H. destruct (owner_usable s); [|done].
  destruct (validateEscrowLocation (MkEscrowLocation escrowLocatorSchema c a cls)) as [l|] eqn:Hv; [|done]. exists l. split; [done|].
  destruct (validateEscrowLocation_again _ _ Hv) as (_ & _ & Hc). cbn in Hc.
  assert (readEscrowLocation (ow_escrows s1) c = Ok (Some l)) as Hl.
  { destruct (readEscrowLocation _ _) as [[x|]|] eqn:Hx; [| |done].
    - destruct (decide (x = l)) as [->|]; [rewrite bool_decide_true in H by done|by rewrite bool_decide_false in H].
      injection H as <- <-. done.
    - destruct (file_replace _ _ _ _) as [[[]|] files] eqn:Hw; [|done]. apply file_replace_Ok in Hw as ->. injection H as <- <-.
      by eapply readEscrow_write. }
  assert (readEscrowLocation (ow_escrows (owner_run ops s1)) c = Ok (Some l)) as Hl2.
  { clear -Hc Hl CL. revert s1 Hl. induction ops as [|op ops IH]; intros s1 Hl; [done|]. cbn [owner_run fold_left].
    apply IH. by apply owner_step_escrow. }
  split_and!.
  - intros Hh. unfold LocateEscrow, owner_usable. rewrite Hh, Hc, Hl2. done.
  - unfold RecordEscrowLocation in H'. rewrite Hl2 in H'. repeat (case_match; simplify_eq; try done).
  - intros l' Hv' Hh. unfold RecordEscrowLocation, owner_usable in H'. rewrite Hh, Hv', Hl2 in H'. cbn [negb] in H'.
    destruct (decide (l = l')) as [->|Hne].
    + rewrite bool_decide_true in H' |- * by done. by injection H' as <- _.
    + rewrite bool_decide_false in H' by done. rewrite bool_decide_false by congruence. by injection H' as <- _.
Qed.
End Bindings.

(** ** Mandates *)

Definition mandate_like (id : string) : Prop := exists stem, id = "mdt_" +:+ stem.

Lemma mandate_like_path id id' : mandate_like id -> mandate_like id' -> mandate_path id = mandate_path id' -> id = id'.
Proof.
  intros [stem ->] [stem' ->] E. unfold mandate_path in E.
  change (sdrop 4 ("mdt_" +:+ stem)) with stem in E. change (sdrop 4 ("mdt_" +:+ stem')) with stem' in E.
  apply string_app_inj_r in E. by subst.
Qed.
Lemma mandatePattern_like id : mandatePattern id = true -> mandate_like id.
Proof. intros H. apply prefixed_sdrop in H. by eexists. Qed.
Lemma MandateID_like m id : MandateID m = Ok id -> mandate_like id.
Proof. unfold MandateID. intros H. inv_ok H. apply Ok_inj in H as <-. by eexists. Qed.

Lemma readMandate_at files id m : readMandate files id = Ok (Some m) <->
  files !! mandate_path id = Some (ERec m) /\ sm_Schema m = MandateSchema /\ sm_MandateID m = id /\ MandateID m = Ok id.
Proof.
  unfold readMandate, read_optional, check_mandate. split.
  - destruct (files !! _) as [[]|]; try done. destruct (_ || _) eqn:E; [done|]. destruct (MandateID a) as [derived|] eqn:Hd; [|done].
    destruct (String.eqb_spec derived id) as [->|]; [|done]. intros [= ->]. breflect. done.
  - intros (-> & -> & -> & ->). by rewrite !String.eqb_refl.
Qed.

(** The identifier does not cover what recording a mandate adds. *)
Lemma MandateID_placed m id now : MandateID (placed m id now) = MandateID m.
Proof. done. Qed.
Lemma MandateID_revoked m now : MandateID (revoked m now) = MandateID m.
Proof. done. Qed.

(** What becomes of a mandate on file: nothing, or its withdrawal. *)
Definition withdrawn (m m' : StoredMandate) : Prop := m' = m \/ sm_RevokedAtUnix m = 0 /\ exists at_, m' = revoked m at_.

Lemma commitMandate_cases w m s : 
  (commitMandate w m s).2 = s \/ (commitMandate w m s).2 = with_mandates s (<[mandate_path (sm_MandateID m) := ERec m]> (ow_mandates s)).
Proof.
  unfold commitMandate. destruct (file_replace _ _ _ _) as [r d] eqn:Hf.
  destruct (file_replace_cases _ _ _ _ _ _ Hf) as [[-> _]|[-> _]]; [left|right]; destruct r; cbn [snd]; try done; by destruct s.
Qed.

Section MandateHistory.
  Context `{JO : JSONObjects} `{CA : ChainAddresses}.

Lemma owner_step_mandates op s :
  match op with OpPlace _ _ _ | OpRevoke _ _ _ => True | _ => ow_mandates (owner_step op s) = ow_mandates s end.
Proof.
  pose proof (owner_step_frame op s) as Hf. destruct op as [| | | | | | | | | |w d id act now|]; try done;
    try (by destruct Hf as (? & ? & ->)); try (by destruct Hf as (? & ->)). destruct Hf as (? & ->). by destruct d.
Qed.

Lemma owner_step_mandate op s id m : mandate_like id -> readMandate (ow_mandates s) id = Ok (Some m) ->
  exists m', readMandate (ow_mandates (owner_step op s)) id = Ok (Some m') /\ withdrawn m m'.
Proof.
  intros Hid Hr. pose proof (owner_step_mandates op s) as Hf.
  assert (readMandate (ow_mandates s) id = Ok (Some m) /\ withdrawn m m) as Hkeep by (split; [done|by left]).
  destruct op as [| | | | | | | |w n now|w id' now| |]; try (exists m; by rewrite Hf); clear Hf; cbn [owner_step].
  - unfold PlaceMandate. destruct (owner_usable s); [|by exists m]. destruct (time_invalid now); [by exists m|].
    destruct (MandateID n) as [id'|] eqn:Hn; [|by exists m].
    destruct (readMandate (ow_mandates s) id') as [[x|]|] eqn:Hx; [by exists m| |by exists m].
    destruct (_ <=? _); [by exists m|]. exists m.
    destruct (commitMandate_cases w (placed n id' now) s) as [->| ->]; [done|]. split; [|by left].
    apply readMandate_at. apply readMandate_at in Hr. cbn [ow_mandates with_mandates placed sm_MandateID].
    rewrite lookup_insert_ne; [done|]. intros E%mandate_like_path; [|by eapply MandateID_like|done]. subst id'.
    apply readMandate_at in Hr. congruence.
  - unfold RevokeMandate. destruct (owner_usable s); [|by exists m]. destruct (mandatePattern id') eqn:Hp; [|by exists m]. cbn [negb].
    destruct (time_invalid now); [by exists m|].
    destruct (readMandate (ow_mandates s) id') as [[x|]|] eqn:Hx; [|by exists m..].
    destruct (Z.eqb_spec (sm_RevokedAtUnix x) 0) as [Hz|]; [|by exists m]. cbn [negb].
    destruct (commitMandate_cases w (revoked x now) s) as [->| ->]; [by exists m|].
    cbn [ow_mandates with_mandates revoked sm_MandateID]. pose proof (proj1 (readMandate_at _ _ _) Hx) as (_ & Hxs & Hxi & Hxd).
    rewrite Hxi. destruct (decide (id' = id)) as [->|Hne].
    + rewrite Hr in Hx. injection Hx as <-. exists (revoked m now). split; [|right; split; [done|by exists now]].
      apply readMandate_at. rewrite lookup_insert_eq. by split_and!.
    + exists m. split; [|by left]. apply readMandate_at. apply readMandate_at in Hr.
      rewrite lookup_insert_ne; [done|]. intros E%mandate_like_path; [done|by apply mandatePattern_like|done].
Qed.

Lemma owner_run_mandate ops s id m : mandate_like id -> readMandate (ow_mandates s) id = Ok (Some m) ->
  exists m', readMandate (ow_mandates (owner_run ops s)) id = Ok (Some m') /\
    (sm_RevokedAtUnix m <> 0 -> m' = m) /\ (m' = m \/ exists at_, m' = revoked m at_).
Proof.
  intros Hid. revert s m. induction ops as [|op ops IH]; intros s m Hr; [exists m; split_and!; auto|]. cbn [owner_run fold_left].
  destruct (owner_step_mandate op s id m Hid Hr) as (m1 & Hr1 & Hw).
  destruct (IH _ _ Hr1) as (m2 & Hr2 & Hfix & Hshape). exists m2. split; [done|]. destruct Hw as [->|(Hz & at_ & ->)]; [done|].
  split; [done|]. right. destruct Hshape as [->|[at2 ->]]; [by exists at_|by exists at2].
Qed.

(** C28: A withdrawn mandate stays withdrawn.  After the owner withdrew it, through any
    operations, the mandate is still on file with the terms the identifier commits to
    and its withdrawal, never live again; and placing a mandate with the same
    identifier answers the withdrawn record and writes nothing. *)
Theorem mandate_withdrawn_forever w id now s m s1 ops : 
  RevokeMandate w id now s = (Ok m, s1) -> 0 < now ->
  let S := owner_run ops s1 in
  readMandate (ow_mandates S) id = Ok (Some m) /\ (forall t, Stored_Live m t = false) /\
  forall w' n now' r S', MandateID n = Ok id -> PlaceMandate w' n now' S = (r, S') ->
    S' = S /\ (is_ok r = true -> r = Ok m).
Proof.
  cbv zeta. intros H Hn. assert (mandate_like id /\ readMandate (ow_mandates s1) id = Ok (Some m) /\ sm_RevokedAtUnix m <> 0)
    as (Hid & Hr & Hrev).
  { unfold RevokeMandate in H. destruct (owner_usable s); [|done]. destruct (mandatePattern id) eqn:Hp; [|done]. cbn [negb] in H.
    destruct (time_invalid now); [done|]. destruct (readMandate (ow_mandates s) id) as [[x|]|] eqn:Hx; [|done..].
    split; [by apply mandatePattern_like|]. destruct (Z.eqb_spec (sm_RevokedAtUnix x) 0) as [Hz|]; cbn [negb] in H; [|by injection H as <- <-].
    unfold commitMandate in H. destruct (file_replace _ _ _ _) as [[[]|] d] eqn:Hf; [|done]. injection H as <- <-.
    apply file_replace_Ok in Hf as ->. pose proof (proj1 (readMandate_at _ _ _) Hx) as (_ & Hxs & Hxi & Hxd). split; [|cbn; lia].
    apply readMandate_at. cbn [ow_mandates with_mandates revoked sm_MandateID]. rewrite Hxi, lookup_insert_eq. by split_and!. }
  destruct (owner_run_mandate ops s1 id m Hid Hr) as (m' & Hr' & Hfix & _). rewrite (Hfix Hrev) in Hr'. split_and!; [done| |].
  - intros t. unfold Stored_Live. destruct (Z.eqb_spec (sm_RevokedAtUnix m) 0); done.
  - intros w' n now' r S' Hd HP. unfold PlaceMandate in HP. rewrite Hd, Hr' in HP. repeat (case_match; simplify_eq; try (split; done)).
Qed.
End MandateHistory.

(** The terms a mandate's identifier commits to. *)
Definition mandate_fields (m : StoredMandate) : list field :=
  [FText (sm_Objective m); FText (sm_Authority m); FText (sm_CapabilityClass m); FText (sm_AssetNetworkID m);
   FHash32 (sm_AssetGenesisRootHash m); FHash32 (sm_AssetGenesisFileHash m); FUint32 (u32 (sm_Workchain m));
   FText (sm_AssetAccountID m); FText (sm_AssetMasterCodeHash m); FText (sm_AssetWalletCodeHash m);
   FUint32 (sm_AssetDecimals m); FText (sm_MaxTotalAtomic m); FText (sm_ApprovalAboveAtomic m);
   FUint32 (sm_MaxCounteroffers m); FUint64 (sm_ExpiresAtUnix m)].
Definition mandate_terms (m : StoredMandate) :=
  (sm_Objective m, sm_Authority m, sm_CapabilityClass m, mandate_asset m, sm_MaxTotalAtomic m, sm_ApprovalAboveAtomic m,
   sm_MaxCounteroffers m, sm_ExpiresAtUnix m).

(** The widths of Go's types, and strings that fit the length the encoding writes. *)
Definition mandate_typed (m : StoredMandate) : Prop :=
  - 2 ^ 31 <= sm_Workchain m < 2 ^ 31 /\ is_u32 (sm_AssetDecimals m) /\ is_u32 (sm_MaxCounteroffers m) /\
  is_u64 (sm_ExpiresAtUnix m) /\ slen (sm_AssetAccountID m) < 2 ^ 32 /\ slen (sm_AssetMasterCodeHash m) < 2 ^ 32 /\
  slen (sm_AssetWalletCodeHash m) < 2 ^ 32 /\ slen (sm_MaxTotalAtomic m) < 2 ^ 32 /\ slen (sm_ApprovalAboveAtomic m) < 2 ^ 32.

Lemma MandateID_form m id : mandate_typed m -> MandateID m = Ok id ->
  Forall field_wf (mandate_fields m) /\
  id = "mdt_" +:+ digest_hex (canon_Digest (bytes_of_string DomainMandate ++ fields_bytes (mandate_fields m))).
Proof.
  intros Ht H. assert (Forall field_wf (mandate_fields m)) as Hwf.
  { unfold MandateID in H. destruct (validateStoredMandate m) as [u|] eqn:Hv; [|done]. unfold validateStoredMandate in Hv. inv_ok Hv. breflect.
    destruct Ht as (? & ? & ? & ? & ? & ? & ? & ? & ?). unfold MaxApprovalSummaryBytes in *.
    repeat (apply Forall_cons; split; [cbn [field_wf]; try done; try lia|]); [|by apply Forall_nil].
    unfold is_u32, u32. apply Z.mod_pos_bound. lia. }
  split; [done|]. unfold MandateID in H. destruct (validateStoredMandate m); [|done].
  assert (write_fields (bytes_of_string DomainMandate) (mandate_fields m)
    = Ok (bytes_of_string DomainMandate ++ fields_bytes (mandate_fields m))) as Hw by (by apply write_fields_wf).
  set (whole := bytes_of_string DomainMandate ++ fields_bytes (mandate_fields m)) in *. clearbody whole.
  cbn [write_fields mandate_fields write_field] in Hw.
  destruct (canon_Hash32 _ (sm_AssetGenesisRootHash m)) as [b1|]; [|done].
  destruct (canon_Hash32 b1 (sm_AssetGenesisFileHash m)) as [b2|]; [|done].
  apply Ok_inj in H, Hw. subst whole. by rewrite <- H.
Qed.

(** The identifier of a mandate is the mandate: two mandates with one identifier
    have the same objective, authority, class, asset, ceiling, approval point, number
    of counteroffers and expiry, short of a SHA-256 collision. *)
Theorem mandate_id_binds m m' id :
  mandate_typed m -> mandate_typed m' -> MandateID m = Ok id -> MandateID m' = Ok id ->
  mandate_terms m = mandate_terms m' \/ sha256_collision.
Proof.
  intros Ht Ht' H H'. apply MandateID_form in H as [Hwf ->]; [|done]. apply MandateID_form in H' as [Hwf' E]; [|done].
  apply string_app_inj_l, digest_hex_inj, object_digest_inj in E as [E|]; [left|by right|done..].
  destruct Ht as (Hw & _), Ht' as (Hw' & _). unfold mandate_fields in E. unfold mandate_terms, mandate_asset.
  injection E as -> -> -> -> -> -> Ewc -> -> -> -> -> -> -> ->.
  assert (sm_Workchain m = sm_Workchain m') as -> by (unfold u32 in Ewc; dlia). done.
Qed.

(** ** The hold behind a spend *)

(** The approval is for a spend whose mandate is on file, and [st] is what the mandate's
    ledger [l] holds; [id] names the hold. *)
Record draws_on (s : Owner) (a : Approval) (terms : Terms) (m : StoredMandate) (l : BudgetLedger) (st : BudgetState)
    (id : string) : Prop := {
  dr_effect : aq_Effect (ap_Request a) = "spend";
  dr_carried : aq_Terms (ap_Request a) = Some terms;
  dr_found : LookupMandate (aq_MandateID (ap_Request a)) s = Ok (Some m);
  dr_ledger : OpenMandateBudgetLedger (aq_MandateID (ap_Request a)) (mandate_asset m) (ow_budgets s) = Ok l;
  dr_state : BudgetLedger_Load l (ow_budgets s) = Ok (Some st);
  dr_total : bs_Total st = MkMoney (mandate_asset m) (sm_MaxTotalAtomic m);
  dr_id : ExecutionID (aq_MandateID (ap_Request a)) terms = Ok id;
}.

Lemma with_budgets_id s : with_budgets s (ow_budgets s) = s.
Proof. by destruct s. Qed.

Lemma draws_on_budget s a terms m l st id : draws_on s a terms m l st id -> state_wf st ->
  mandateBudgetFor a s = (Ok (Some (MkBudget (bs_Total st) (bs_Spent st) (bs_Reserved st), MkDiskLedger l (ow_budgets s), id)), s).
Proof.
  intros [He Hc Hf Hl Hs Ht Hid] Hwf. unfold mandateBudgetFor. rewrite Hc, He. cbn [String.eqb negb orb].
  assert (aq_MandateID (ap_Request a) <> "") as Hne.
  { intros E. unfold LookupMandate in Hf. rewrite E in Hf. by destruct (owner_usable s). }
  rewrite (proj2 (String.eqb_neq _ _) Hne), Hf, Hl. change (negb (String.eqb "spend" "spend")) with false. cbn [orb].
  unfold OpenBudget. rewrite <- Ht, (sw_total _ Hwf). cbn [ledger_Load disk_Ledger dk_handle dk_disk]. rewrite Hs.
  rewrite (proj2 (Money_Equal_eq _ _)) by done. cbn [negb dk_disk]. by rewrite Hid, with_budgets_id.
Qed.

(** What the ledger holds afterwards: [next] when the write succeeded, otherwise that or what was there. *)
Definition settled_as (l : BudgetLedger) (s s' : Owner) (r : result unit) (next : BudgetState) : Prop :=
  BudgetLedger_Load l (ow_budgets s') = Ok (Some next) \/
  is_ok r = false /\ BudgetLedger_Load l (ow_budgets s') = BudgetLedger_Load l (ow_budgets s).

Lemma Budget_record_settled l b s r dl' :
  budget_wf b -> Budget_record b (MkDiskLedger l (ow_budgets s)) = (r, dl') ->
  settled_as l s (with_budgets s (dk_disk dl')) r (budget_state b).
Proof.
  intros Hwf H. unfold Budget_record in H. cbn [ledger_Record disk_Ledger dk_handle dk_disk] in H.
  destruct (BudgetLedger_Record l (MkBudgetState (bd_total b) (bd_spent b) (bd_reserved b)) (ow_budgets s)) as [x disk] eqn:E.
  injection H as <- <-. destruct (Record_Load _ _ _ _ _ Hwf E) as [[? ?]|?]; [by right|by left].
Qed.

(** Settling the hold of a spend moves exactly its amount.  For an approval whose
    mandate is on file, committing turns the hold into spent money, releasing returns
    it, each at most once (without a hold both answer success and change nothing), and
    a failed write leaves the ledger with the old or the new state.  Nothing but the
    mandate budgets is touched. *)
Theorem mandate_hold_settles s a terms m l st id :
  draws_on s a terms m l st id -> state_wf st ->
  (forall r s', CommitMandateReservation a s = (r, s') ->
     match bs_Reserved st !! id with
     | None => r = Ok tt /\ s' = s
     | Some amount => (is_ok r = false /\ s' = s) \/ exists spent,
         settled_as l s s' r (MkBudgetState (bs_Total st) spent (delete id (bs_Reserved st))) /\
         mval spent = mval (bs_Spent st) + mval amount /\ mval spent <= mval (bs_Total st)
     end /\ exists b, s' = with_budgets s b) /\
  (forall r s', ReleaseMandateReservation a s = (r, s') ->
     match bs_Reserved st !! id with
     | None => r = Ok tt /\ s' = s
     | Some _ => settled_as l s s' r (MkBudgetState (bs_Total st) (bs_Spent st) (delete id (bs_Reserved st)))
     end /\ exists b, s' = with_budgets s b).
Proof.
  intros Hd Hwf. pose proof (draws_on_budget _ _ _ _ _ _ _ Hd Hwf) as Hb. set (b := MkBudget (bs_Total st) (bs_Spent st) (bs_Reserved st)) in *.
  assert (budget_wf b) as Hbw by (unfold budget_wf, budget_state; cbn; by destruct st).
  split; intros r s' H.
  - split; [|pose proof (CommitMandateReservation_frame a s) as [x Hx]; rewrite H in Hx; by exists x].
    unfold CommitMandateReservation in H. rewrite Hb in H. unfold Budget_Reserved in H. cbn [bd_reserved b] in H.
    destruct (bs_Reserved st !! id) as [amount|] eqn:Hr; [|by injection H as <- <-].
    unfold Budget_Commit in H. cbn [bd_reserved bd_spent bd_total b] in H. rewrite Hr in H.
    destruct (Money_Add (bs_Spent st) amount) as [spent|] eqn:Ha; [|left; injection H as <- <-; by rewrite with_budgets_id].
    destruct (Money_AtMost spent (bs_Total st)) as [[]|] eqn:Hm; cbn [negb] in H;
      [|left; injection H as <- <-; by rewrite with_budgets_id..].
    destruct (wf_commit b id amount spent Hbw Hr Ha) as [Hw1 Hv]. right. exists spent.
    destruct (Budget_record _ _) as [x dl'] eqn:Hrec.
    pose proof (Budget_record_settled _ _ _ _ _ Hw1 Hrec) as Hset.
    assert (r = x /\ s' = with_budgets s (dk_disk dl')) as [-> ->] by (by destruct x as [[]|]; injection H as <- <-).
    split_and!; [exact Hset|exact Hv|]. pose proof (sw_bound _ Hw1) as Hbd. cbn in Hbd.
    pose proof (holds_nonneg _ _ (sw_holds _ Hw1)) as Hnn. cbn in Hnn. lia.
  - split; [|pose proof (ReleaseMandateReservation_frame a s) as [x Hx]; rewrite H in Hx; by exists x].
    unfold ReleaseMandateReservation in H. rewrite Hb in H. unfold Budget_Release in H. cbn [bd_reserved b] in H.
    destruct (bs_Reserved st !! id) as [amount|] eqn:Hr; [|injection H as <- <-; by rewrite with_budgets_id].
    pose proof (wf_delete b id amount Hbw Hr) as Hw1.
    destruct (Budget_record _ _) as [x dl'] eqn:Hrec. pose proof (Budget_record_settled _ _ _ _ _ Hw1 Hrec) as Hset.
    assert (r = x /\ s' = with_budgets s (dk_disk dl')) as [-> ->] by (by destruct x as [[]|]; injection H as <- <-).
    exact Hset.
Qed.

(** ** Witnesses *)

Definition toy_addresses : ChainAddresses := {| CanonicalAddress a := Ok a |}.
#[local] Existing Instance toy_addresses.
Lemma toy_address_laws : ChainAddressLaws.
Proof. by split. Qed.

Definition sample_action : string := "act_" +:+ sample_hash.
Definition sample_request : ApprovalRequest :=
  MkApprovalRequest sample_action "message" "answer the question" "" "the policy asks first" [] None None "" 100.
Definition week : Z := 7 * 24 * 60 * 60 * 1000000000.
Definition no_decisions : Owner := MkOwner true week ∅ ∅ ∅ ∅ ∅ (MkBudgetDisk true ∅ ∅ []).
Definition asked_owner : Owner := owner_run [OpRequest WOk sample_request] no_decisions.
Definition granted_owner : Owner := owner_run [OpGrant WOk sample_action 200] asked_owner.
Definition granted_approval : Approval := decided (fresh_approval sample_request ApprovalPending 0) ApprovalGranted 200 "".

Lemma approval_history_witness : exists a',
  readApproval (ow_approvals (owner_run [OpSpend WFailNew sample_action 300; OpRequest WOk sample_request] granted_owner)) sample_action
    = Ok (Some a') /\ ap_Request a' = sample_request /\ (a' = granted_approval \/ ap_State a' = ApprovalSpent).
Proof.
  apply (approval_history [OpSpend WFailNew sample_action 300; OpRequest WOk sample_request] granted_owner sample_action granted_approval);
    vm_compute; reflexivity.
Defined.

Lemma approval_spent_once_witness : exists e,
  SpendApproval WOk sample_action 400
    (owner_run [OpAuto WOk sample_request] (SpendApproval WOk sample_action 300 granted_owner).2)
  = (Err e, owner_run [OpAuto WOk sample_request] (SpendApproval WOk sample_action 300 granted_owner).2).
Proof.
  apply (approval_spent_once WOk sample_action 300 granted_owner (spent_approval granted_approval 300)
    (SpendApproval WOk sample_action 300 granted_owner).2 [OpAuto WOk sample_request] WOk 400).
  left. vm_compute. reflexivity.
Defined.

Definition sample_execution : string := "eex_" +:+ sample_hash.
Definition other_action : string := "act_" +:+ string_of_list_ascii (repeat "1"%char 64).
Definition claimed_owner : Owner := owner_run [OpClaim WOk EconomicDir sample_execution sample_action 100] no_decisions.

Lemma execution_bound_once_witness :
  claimExecution WOk EconomicDir sample_execution other_action 200 (owner_run [OpRequest WOk sample_request] claimed_owner)
  = (Ok (sample_action, false), owner_run [OpRequest WOk sample_request] claimed_owner).
Proof.
  destruct (execution_bound_once WOk EconomicDir sample_execution sample_action 100 no_decisions sample_action true claimed_owner
    [OpRequest WOk sample_request] WOk other_action 200
    (claimExecution WOk EconomicDir sample_execution other_action 200 (owner_run [OpRequest WOk sample_request] claimed_owner)).1
    (claimExecution WOk EconomicDir sample_execution other_action 200 (owner_run [OpRequest WOk sample_request] claimed_owner)).2)
    as [H1 H2]; [vm_compute; reflexivity|apply surjective_pairing|].
  rewrite (surjective_pairing (claimExecution _ _ _ _ _ _)), H1, H2; [reflexivity|vm_compute; reflexivity].
Defined.

Definition sample_commitment : string := "tvm-cell-sha256:" +:+ sample_hash.
Definition located_owner : Owner := owner_run [OpEscrow WOk sample_commitment "0:escrow" "compute.batch"] no_decisions.

Lemma escrow_location_fixed_witness :
  RecordEscrowLocation WOk sample_commitment "0:other" "compute.batch" located_owner = (Err ErrConflict, located_owner).
Proof.
  destruct (escrow_location_fixed (CL := toy_address_laws) WOk sample_commitment "0:escrow" "compute.batch" no_decisions true located_owner [] WOk
    "0:other" "compute.batch" (RecordEscrowLocation WOk sample_commitment "0:other" "compute.batch" located_owner).1
    (RecordEscrowLocation WOk sample_commitment "0:other" "compute.batch" located_owner).2)
    as (l & Hl & _ & H1 & H2); [vm_compute; reflexivity|apply surjective_pairing|].
  vm_compute in Hl. injection Hl as <-.
  rewrite (surjective_pairing (RecordEscrowLocation _ _ _ _ _)), H1, (H2 _ eq_refl eq_refl). reflexivity.
Defined.

(** The capability class of valid terms may have a label that starts with a digit; no escrow account can be recorded
    for it. *)
Theorem digit_class_has_no_escrow :
  capabilityClassPattern "compute.4gpu" = true /\
  forall w c a s, is_ok (RecordEscrowLocation w c a "compute.4gpu" s).1 = false.
Proof.
  split; [vm_compute; reflexivity|]. intros w c a s. unfold RecordEscrowLocation, validateEscrowLocation.
  destruct (owner_usable s); [|done]. destruct (_ || _); [done|]. by destruct (CanonicalAddress _).
Qed.

Definition stored_mandate : StoredMandate :=
  MkStoredMandate "" "" "buy compute" "owner" "compute" (nw_ID sample_network) sample_hash sample_hash (a_Workchain sample_asset)
    (a_AccountID sample_asset) (a_MasterCodeHash sample_asset) (a_WalletCodeHash sample_asset) (a_Decimals sample_asset)
    (decimal_string 1000) (decimal_string 500) 3 9000 0 0.
Definition stored_id : string := Eval vm_compute in match MandateID stored_mandate with Ok id => id | Err _ => "" end.
Definition mandated : Owner := owner_run [OpPlace WOk stored_mandate 100] no_decisions.

Lemma mandate_withdrawn_forever_witness :
  Stored_Live (revoked (placed stored_mandate stored_id 100) 200) 300 = false.
Proof.
  apply (mandate_withdrawn_forever WOk stored_id 200 mandated (revoked (placed stored_mandate stored_id 100) 200)
    (owner_run [OpRevoke WOk stored_id 200] mandated) []); [vm_compute; reflexivity|lia].
Defined.

Lemma mandate_id_binds_witness : mandate_terms stored_mandate = mandate_terms (placed stored_mandate stored_id 100) \/ sha256_collision.
Proof.
  apply (mandate_id_binds stored_mandate (placed stored_mandate stored_id 100) stored_id);
    [repeat split; by vm_compute|repeat split; by vm_compute|vm_compute; reflexivity..].
Defined.

Definition spend_request : ApprovalRequest :=
  MkApprovalRequest sample_action "spend" "buy compute" "" "inside the mandate" [] (Some sample_terms) None stored_id 100.
Definition spend_approval : Approval := fresh_approval spend_request ApprovalGranted 100.
Definition spend_execution : string := Eval vm_compute in match ExecutionID stored_id sample_terms with Ok id => id | Err _ => "" end.
Definition mandate_ledger : BudgetLedger :=
  match OpenMandateBudgetLedger stored_id sample_asset (ow_budgets mandated) with
  | Ok l => l | Err _ => MkBudgetLedger "" MandateBudgetDir "" sample_asset end.
Definition held_state : BudgetState := MkBudgetState sample_total (sample_money 0) {[ spend_execution := sample_money 700 ]}.
Definition holding : Owner :=
  with_budgets mandated (BudgetLedger_Record mandate_ledger held_state (ow_budgets mandated)).2.

Lemma held_state_wf : state_wf held_state.
Proof.
  constructor; cbn [bs_Total bs_Spent bs_Reserved held_state].
  - vm_compute. reflexivity.
  - by apply sample_amount_good.
  - apply map_Forall_singleton. by apply sample_amount_good.
  - rewrite map_size_singleton. unfold MaxReservations. lia.
  - unfold holds. rewrite map_fold_singleton. vm_compute. discriminate.
Qed.

Lemma mandate_hold_settles_witness :
  settled_as mandate_ledger holding (ReleaseMandateReservation spend_approval holding).2
    (ReleaseMandateReservation spend_approval holding).1 (MkBudgetState sample_total (sample_money 0) ∅).
Proof.
  destruct (mandate_hold_settles holding spend_approval sample_terms (placed stored_mandate stored_id 100) mandate_ledger held_state
    spend_execution) as [_ H]; [|apply held_state_wf|].
  - constructor; vm_compute; reflexivity.
  - destruct (H _ _ (surjective_pairing _)) as [Hr _]. cbn [bs_Reserved held_state] in Hr. rewrite lookup_singleton_eq in Hr.
    rewrite delete_singleton_eq in Hr. exact Hr.
Defined.
