(* ===== verification/Economic.v ===== *)
(** * Economic actions: [pkg/economicaction/store.go]

    An autonomous economic message is sent only under a signed writer fence.  The
    store keeps, per owner and agent, the highest writer generation it admitted with
    the digest of its fence, and per stable action identifier where the action has got
    to: prepared, submitted, accepted.  It is one JSON document, held in memory and
    written as a whole before an answer is given.

    What the protocol package decides (whether an action is authorised by its fence,
    the digest of a fence, whether a resolution is well formed) is the class
    [CommerceProtocol]. *)

From S2P Require Import Prelude Encoding Canon Files.

(** The states of the protocol package the store uses; another one may stand in a file. *)
Inductive ActionState : Type :=
  | ActionPrepared | ActionSubmitted | ActionAccepted | ActionConflict | ActionUnknown | ActionOther (s : string).
#[global] Instance ActionState_eq_dec : EqDecision ActionState.
Proof. solve_decision. Defined.

Record ActionResolution : Type := MkResolution {
  rn_StableActionID : string;
  rn_ExactRequestDigest : string;
  rn_State : ActionState;
  rn_StateRevision : Z;
  rn_SinkReference : string;
}.

(** [github.com/tosnetwork/tos-service-protocol/pkg/agentcommerce], as far as the store and the local interface
    call it. *)
Class CommerceProtocol := {
  AuthorizedAction : Type;
  aa_OwnerID : AuthorizedAction -> string;
  aa_AgentID : AuthorizedAction -> string;
  aa_ActionKind : AuthorizedAction -> string;
  aa_StableActionID : AuthorizedAction -> string;
  aa_ExactRequestDigest : AuthorizedAction -> string;
  aa_WriterGeneration : AuthorizedAction -> Z;
  aa_ExpiresAtUnix : AuthorizedAction -> Z;
  WriterFence : Type;
  SemanticFieldValue : Type;
  SemanticValues : Type;
  MessengerEffect : Type;
  fx_EventKind : MessengerEffect -> string;
  fx_ContentType : MessengerEffect -> string;
  fx_RecipientAgentIDs : MessengerEffect -> list string;
  fx_Payload : MessengerEffect -> bytes;
  MaxActionRequestBytes : Z;
  ImportSemanticFields : string -> list SemanticFieldValue -> result SemanticValues;
  DecodeMessengerEffectRequest : bytes -> result MessengerEffect;
  OperationPrivateRequest : Type;
  op_RecipientAgentIDs : OperationPrivateRequest -> list string;
  UnmarshalOperationPrivate : bytes -> option OperationPrivateRequest;
  ValidateOperationPrivateRequest : OperationPrivateRequest -> result unit;
  OperationPrivateSendSemanticFields : string -> string -> OperationPrivateRequest -> result SemanticValues;
  ExportSemanticFields : string -> SemanticValues -> result (list SemanticFieldValue);
  SemanticFieldValue_eq_dec :: EqDecision SemanticFieldValue;
  VerifyAuthorizedAction : AuthorizedAction -> SemanticValues -> bytes -> WriterFence ->
    (string -> bytes -> result unit) -> time -> result unit;
  WriterFenceDigest : WriterFence -> result string;
  ValidateActionResolution : ActionResolution -> result unit;
}.

(** The digest of a fence is not the empty string, and a decoded effect names a recipient. *)
Class CommerceLaws `{CommerceProtocol} : Prop := {
  fence_digest_nonempty : forall f d, WriterFenceDigest f = Ok d -> d <> "";
  effect_has_recipient : forall raw e, DecodeMessengerEffectRequest raw = Ok e -> fx_RecipientAgentIDs e <> [];
}.

Definition economic_schema : string := "tos.messaging.economic-action-store.v1".
Definition ErrStaleWriter : error := Sentinel "economic action writer generation is stale".

Record document : Type := MkDocument {
  dc_Schema : string;
  dc_HighWater : gmap string Z;
  dc_FenceHighWater : gmap string string;
  dc_Actions : gmap string ActionResolution;
}.

(** [st_files] is the state directory, where the store is one file. *)
Record EconomicStore : Type := MkEconomic {
  st_files : directory document;
  st_keys : gmap string bytes;
  st_doc : document;
}.

Definition economic_file : string := "economic-actions-v1.json".
Definition with_doc (s : EconomicStore) (d : document) : EconomicStore := MkEconomic (st_files s) (st_keys s) d.

(** [authorityResolver.AuthorizeFenceKey] *)
Definition AuthorizeFenceKey (keys : gmap string bytes) (id : string) (key : bytes) : result unit :=
  refuse negb (bool_decide (keys !! id = Some key)) with NewError "writer fence authority is not operator-pinned";
  Ok tt.

(** [persistLocked]; every failure before the rename leaves the old file, the directory sync after it the new one. *)
Definition persistLocked (w : write_outcome) (s : EconomicStore) : result unit * EconomicStore :=
  let '(r, files) := file_replace w economic_file (st_doc s) (st_files s) in
  (r, MkEconomic files (st_keys s) (st_doc s)).

Section Store.
  Context `{CommerceProtocol}.

Definition check_actions (actions : gmap string ActionResolution) : bool :=
  forallb (fun '(id, r) => String.eqb id (rn_StableActionID r) && is_ok (ValidateActionResolution r)) (map_to_list actions).

(** [Open] on a state directory; a document that lacks the writer or the action map does not decode, and one that
    lacks the fence map has an empty one. *)
Definition economic_Open (w : write_outcome) (absolute : bool) (authorities : gmap string bytes) (files : directory document)
    : result EconomicStore * directory document :=
  if negb absolute || bool_decide (authorities = ∅) then (Err (NewError "economic action store configuration is invalid"), files) else
  if negb (forallb (fun '(id, key) => negb (String.eqb id "") && (blen key =? 32)) (map_to_list authorities))
  then (Err (NewError "economic action authority is invalid"), files) else
  match files !! economic_file with
  | Some EDir | Some EForeign => (Err (NewError "economic action store is not an owner-only bounded regular file"), files)
  | Some EJunk => (Err (NewError "economic action store is corrupt"), files)
  | None =>
      let '(r, s) := persistLocked w (MkEconomic files authorities (MkDocument economic_schema ∅ ∅ ∅)) in
      (match r with Ok _ => Ok s | Err e => Err e end, st_files s)
  | Some (ERec d) =>
      if negb (String.eqb (dc_Schema d) economic_schema) then (Err (NewError "economic action store is corrupt"), files) else
      if negb (check_actions (dc_Actions d)) then (Err (NewError "economic action store contains an invalid resolution"), files) else
      (Ok (MkEconomic files authorities d), files)
  end.

Definition conflict (id digest : string) (prior : ActionResolution) : ActionResolution :=
  MkResolution id digest ActionConflict (u64 (rn_StateRevision prior + 1)) "".

Definition MaxEconomicActions : Z := 1000000.

Definition economic_Admit (w : write_outcome) (a : AuthorizedAction) (fence : WriterFence) (fields : SemanticValues)
    (exactRequest : bytes) (now : time) : action EconomicStore ActionResolution :=
  fun s =>
  match VerifyAuthorizedAction a fields exactRequest fence (AuthorizeFenceKey (st_keys s)) now with
  | Err e => (Err e, s)
  | Ok _ =>
  let d := st_doc s in
  let key := aa_OwnerID a +:+ NUL +:+ aa_AgentID a in
  match WriterFenceDigest fence with
  | Err e => (Err e, s)
  | Ok fenceDigest =>
  let high := default 0 (dc_HighWater d !! key) in
  let fenced := default "" (dc_FenceHighWater d !! key) in
  if aa_WriterGeneration a <? high then (Err ErrStaleWriter, s) else
  if (aa_WriterGeneration a =? high) && negb (String.eqb fenced "") && negb (String.eqb fenced fenceDigest)
  then (Err (NewError "writer generation equivocates between two authority fences"), s) else
  let id := aa_StableActionID a in
  match dc_Actions d !! id with
  | Some prior =>
      if negb (String.eqb (rn_ExactRequestDigest prior) (aa_ExactRequestDigest a))
      then (Ok (conflict id (aa_ExactRequestDigest a) prior), s) else (Ok prior, s)
  | None =>
      if MaxEconomicActions <=? Z.of_nat (size (dc_Actions d))
      then (Err (NewError "economic action store capacity reached"), s) else
      let raises := (high <? aa_WriterGeneration a) || String.eqb fenced "" in
      let highs := if raises then <[key := aa_WriterGeneration a]> (dc_HighWater d) else dc_HighWater d in
      let fences := if raises then <[key := fenceDigest]> (dc_FenceHighWater d) else dc_FenceHighWater d in
      let resolution := MkResolution id (aa_ExactRequestDigest a) ActionPrepared 1 "" in
      let actions := <[id := resolution]> (dc_Actions d) in
      match persistLocked w (with_doc s (MkDocument (dc_Schema d) highs fences actions)) with
      | (Err e, s') =>
          (Err e, with_doc s' (MkDocument (dc_Schema d) (<[key := high]> highs) (<[key := fenced]> fences) (delete id actions)))
      | (Ok _, s') => (Ok resolution, s')
      end
  end end end.

Definition set_action (d : document) (id : string) (r : ActionResolution) : document :=
  MkDocument (dc_Schema d) (dc_HighWater d) (dc_FenceHighWater d) (<[id := r]> (dc_Actions d)).

(** Record [next] for [id], or put [original] back when the write failed. *)
Definition store_action (w : write_outcome) (id : string) (original next : ActionResolution) : action EconomicStore ActionResolution :=
  fun s =>
  match persistLocked w (with_doc s (set_action (st_doc s) id next)) with
  | (Err e, s') => (Err e, with_doc s' (set_action (st_doc s') id original))
  | (Ok _, s') => (Ok next, s')
  end.

Definition economic_Submit (w : write_outcome) (stableID requestDigest : string) : action EconomicStore ActionResolution :=
  fun s =>
  match dc_Actions (st_doc s) !! stableID with
  | None => (Err (NewError "economic action was not prepared"), s)
  | Some prior =>
      if negb (String.eqb (rn_ExactRequestDigest prior) requestDigest) then (Err (NewError "economic action was not prepared"), s) else
      if bool_decide (rn_State prior = ActionSubmitted) || bool_decide (rn_State prior = ActionAccepted) then (Ok prior, s) else
      if negb (bool_decide (rn_State prior = ActionPrepared)) then (Err (NewError "economic action cannot be submitted"), s) else
      store_action w stableID prior
        (MkResolution (rn_StableActionID prior) (rn_ExactRequestDigest prior) ActionSubmitted
           (u64 (rn_StateRevision prior + 1)) (rn_SinkReference prior)) s
  end.

Definition economic_Resolve (stableID requestDigest : string) (s : EconomicStore) : ActionResolution :=
  match dc_Actions (st_doc s) !! stableID with
  | None => MkResolution stableID requestDigest ActionUnknown 1 ""
  | Some prior =>
      if negb (String.eqb (rn_ExactRequestDigest prior) requestDigest) then conflict stableID requestDigest prior else prior
  end.

Definition economic_Accept (w : write_outcome) (stableID requestDigest eventID : string) : action EconomicStore ActionResolution :=
  fun s =>
  match dc_Actions (st_doc s) !! stableID with
  | None => (Err (NewError "economic action was not prepared"), s)
  | Some prior =>
      if negb (String.eqb (rn_ExactRequestDigest prior) requestDigest) then (Err (NewError "economic action was not prepared"), s) else
      if bool_decide (rn_State prior = ActionAccepted) then
        if negb (String.eqb (rn_SinkReference prior) eventID) then (Err (NewError "economic action has conflicting sink evidence"), s)
        else (Ok prior, s)
      else
      if negb (bool_decide (rn_State prior = ActionPrepared)) && negb (bool_decide (rn_State prior = ActionSubmitted))
      then (Err (NewError "economic action cannot become accepted"), s) else
      let next := MkResolution (rn_StableActionID prior) (rn_ExactRequestDigest prior) ActionAccepted
                    (u64 (rn_StateRevision prior + 1)) eventID in
      match ValidateActionResolution next with
      | Err e => (Err e, s)
      | Ok _ => store_action w stableID prior next s
      end
  end.

(** [ParseAuthorityKey] *)
Definition ParseAuthorityKey (encoded : string) : result bytes :=
  match hex_decode encoded with
  | Some raw => refuse negb (blen raw =? 32) with NewError "economic authority public key is invalid"; Ok raw
  | None => Err (NewError "economic authority public key is invalid")
  end.
End Store.

(** ** Histories *)

Section History.
  Context `{CommerceProtocol}.

Inductive economic_op : Type :=
  | OpEconomicAdmit (w : write_outcome) (a : AuthorizedAction) (fence : WriterFence) (fields : SemanticValues) (exact : bytes) (now : time)
  | OpEconomicSubmit (w : write_outcome) (id digest : string)
  | OpEconomicAccept (w : write_outcome) (id digest event : string)
  | OpEconomicRestart (w : write_outcome).

(** A restart reads the file the process left; when that fails the process does not come up. *)
Definition economic_step (op : economic_op) (s : EconomicStore) : EconomicStore :=
  match op with
  | OpEconomicAdmit w a fence fields exact now => (economic_Admit w a fence fields exact now s).2
  | OpEconomicSubmit w id digest => (economic_Submit w id digest s).2
  | OpEconomicAccept w id digest event => (economic_Accept w id digest event s).2
  | OpEconomicRestart w =>
      match economic_Open w true (st_keys s) (st_files s) with (Ok s', _) => s' | (Err _, _) => s end
  end.
Definition economic_run (ops : list economic_op) (s : EconomicStore) : EconomicStore :=
  fold_left (fun s op => economic_step op s) ops s.

(** One step of a recorded action. *)
Inductive moves : ActionResolution -> ActionResolution -> Prop :=
  | moves_submit r : rn_State r = ActionPrepared ->
      moves r (MkResolution (rn_StableActionID r) (rn_ExactRequestDigest r) ActionSubmitted (u64 (rn_StateRevision r + 1)) (rn_SinkReference r))
  | moves_accept r e : rn_State r = ActionPrepared \/ rn_State r = ActionSubmitted ->
      moves r (MkResolution (rn_StableActionID r) (rn_ExactRequestDigest r) ActionAccepted (u64 (rn_StateRevision r + 1)) e).

(** What stands for a writer: generation and fence; the later one. *)
Definition mark (d : document) (key : string) : Z * string :=
  (default 0 (dc_HighWater d !! key), default "" (dc_FenceHighWater d !! key)).
Definition mark_le (a b : Z * string) : Prop := a.1 < b.1 \/ a.1 = b.1 /\ (a.2 = "" \/ a.2 = b.2).

(** [d'] holds everything [d] does, as far or further. *)
Record ahead (d d' : document) : Prop := {
  ahead_actions : forall id r, dc_Actions d !! id = Some r -> exists r', dc_Actions d' !! id = Some r' /\ rtc moves r r';
  ahead_marks : forall key, mark_le (mark d key) (mark d' key);
}.

(** The file holds what memory holds, or more where a write failed after its rename. *)
Definition in_step (s : EconomicStore) : Prop :=
  exists d, st_files s !! economic_file = Some (ERec d) /\ ahead (st_doc s) d.
End History.

Section Facts.
  Context `{CommerceProtocol}.

#[local] Instance mark_le_refl : Reflexive mark_le.
Proof. intros a. right. auto. Qed.
#[local] Instance mark_le_trans : Transitive mark_le.
Proof. unfold mark_le. intros a b c H1 H2. intuition (try lia; try congruence). Qed.

#[local] Instance ahead_refl : Reflexive ahead.
Proof. intros d. split; [|done]. intros id r Hr. by exists r. Qed.
#[local] Instance ahead_trans : Transitive ahead.
Proof.
  intros a b c [A1 M1] [A2 M2]. split.
  - intros id r Hr. destruct (A1 _ _ Hr) as (r1 & H1 & R1). destruct (A2 _ _ H1) as (r2 & H2 & R2).
    exists r2. split; [done|by etrans].
  - intros key. transitivity (mark b key); auto.
Qed.

(** Two documents that answer alike. *)
Definition alike (d d' : document) : Prop := dc_Actions d = dc_Actions d' /\ forall key, mark d key = mark d' key.

Lemma alike_ahead a b c : alike a b -> ahead a c -> ahead b c.
Proof. intros [EA EM] [A M]. split; [by rewrite <- EA|]. intros key. by rewrite <- EM. Qed.

Lemma ahead_alike a b c : alike b c -> ahead a b -> ahead a c.
Proof. intros [EA EM] [A M]. split; [by rewrite <- EA|]. intros key. by rewrite <- EM. Qed.

Lemma persistLocked_cases w s r s' : persistLocked w s = (r, s') ->
  st_doc s' = st_doc s /\ st_keys s' = st_keys s
  /\ (st_files s' !! economic_file = Some (ERec (st_doc s)) \/ is_ok r = false /\ st_files s' = st_files s).
Proof.
  unfold persistLocked. destruct (file_replace _ _ _ _) as [r0 files] eqn:E. intros [= <- <-]. cbn [st_doc st_keys st_files].
  split_and!; try done.
  apply file_replace_cases in E as [[-> Hr]|[-> _]]; [by right|left; apply lookup_insert_eq].
Qed.

(** The shape of every write: the new document is written first and the answer follows, or memory goes back. *)
Lemma write_advances w s d back r s' :
  in_step s -> ahead (st_doc s) d -> alike (st_doc s) back ->
  persistLocked w (with_doc s d) = (r, s') ->
  let s'' := if is_ok r then s' else with_doc s' back in
  in_step s'' /\ ahead (st_doc s) (st_doc s'').
Proof.
  intros (old & Hold & Hah) Hd Hback Hp. apply persistLocked_cases in Hp as (E1 & E2 & Hf).
  destruct r as [u|e]; cbn [is_ok].
  - destruct Hf as [Hf|[? _]]; [|done]. cbn [with_doc st_doc] in *. rewrite E1. split; [|done].
    exists d. by rewrite E1.
  - cbn [with_doc st_doc st_files] in *. split; [|by apply (ahead_alike _ (st_doc s))].
    destruct Hf as [Hf|[_ Hf]].
    + exists d. split; [done|]. by apply (alike_ahead (st_doc s)).
    + exists old. cbn [with_doc st_files]. rewrite Hf. split; [done|]. by apply (alike_ahead (st_doc s)).
Qed.

Lemma store_action_advances w id original next s :
  in_step s -> dc_Actions (st_doc s) !! id = Some original -> moves original next ->
  in_step (store_action w id original next s).2 /\ ahead (st_doc s) (st_doc (store_action w id original next s).2).
Proof.
  intros Hs Hid Hm. unfold store_action.
  destruct (persistLocked w _) as [r s'] eqn:E. pose proof (persistLocked_cases _ _ _ _ E) as (E1 & _ & _).
  assert (ahead (st_doc s) (set_action (st_doc s) id next)) as Hd.
  { split; [|done]. intros i r0 Hr. destruct (decide (i = id)) as [->|Hne].
    - exists next. split; [cbn [set_action dc_Actions]; apply lookup_insert_eq|]. simplify_eq. by apply rtc_once.
    - exists r0. cbn [set_action dc_Actions]; by rewrite lookup_insert_ne. }
  assert (alike (st_doc s) (set_action (st_doc s') id original)) as Hb.
  { split; [|intros key; by rewrite E1]. rewrite E1. cbn [set_action dc_Actions with_doc st_doc].
    rewrite insert_insert_eq. symmetry. by apply insert_id. }
  pose proof (write_advances _ _ _ _ _ _ Hs Hd Hb E) as Hw. by destruct r.
Qed.

Lemma mark_insert highs fences d key g f k :
  mark (MkDocument (dc_Schema d) (<[key := g]> highs) (<[key := f]> fences) (dc_Actions d)) k
  = if bool_decide (k = key) then (g, f) else mark (MkDocument (dc_Schema d) highs fences (dc_Actions d)) k.
Proof.
  unfold mark. cbn [dc_HighWater dc_FenceHighWater]. case_bool_decide as Hk.
  - subst k. by rewrite !lookup_insert_eq.
  - by rewrite !lookup_insert_ne.
Qed.

Lemma economic_admit_advances w a fence fields exact now s :
  in_step s ->
  in_step (economic_Admit w a fence fields exact now s).2 /\ ahead (st_doc s) (st_doc (economic_Admit w a fence fields exact now s).2).
Proof.
  intros Hs. unfold economic_Admit.
  repeat match goal with |- context [match ?x with Ok _ => _ | Err _ => _ end] => destruct x as [?|?] eqn:?; [|by split] end.
  set (key := aa_OwnerID a +:+ NUL +:+ aa_AgentID a). set (high := default 0 _). set (fenced := default "" _).
  destruct (aa_WriterGeneration a <? high) eqn:Elow; [by split|]. destruct (_ && _) eqn:Eeq; [by split|].
  destruct (dc_Actions _ !! _) as [prior|] eqn:Eid; [by case (negb (String.eqb (rn_ExactRequestDigest prior) _)); split|].
  destruct (MaxEconomicActions <=? _); [by split|]. cbv zeta.
  destruct (persistLocked w _) as [r s'] eqn:E.
  match goal with |- context [with_doc s' ?b] => set (back := b) in * end.
  match type of E with persistLocked _ (with_doc _ ?d) = _ => set (next := d) in * end.
  assert (ahead (st_doc s) next) as Hd.
  { split.
    - intros i r0 Hr. exists r0. split; [|done]. cbn [next dc_Actions]. rewrite lookup_insert_ne; [done|]. intros <-. by rewrite Eid in Hr.
    - intros k. unfold next. destruct ((high <? aa_WriterGeneration a) || String.eqb fenced "") eqn:Er; [|done].
      change (mark _ k) with (mark (st_doc s) k) at 1.
      destruct (decide (k = key)) as [->|Hk].
      + unfold mark at 2. cbn [dc_HighWater dc_FenceHighWater]. rewrite !lookup_insert_eq. cbn [default].
        unfold mark. fold high fenced. unfold mark_le. cbn [fst snd default].
        apply orb_true_iff in Er as [Er|Er]; [left; by apply Z.ltb_lt in Er|].
        apply String.eqb_eq in Er. apply Z.ltb_ge in Elow. destruct (decide (high = aa_WriterGeneration a)); [right; auto|left; unfold id; lia].
      + unfold mark at 2. cbn [dc_HighWater dc_FenceHighWater]. by rewrite !lookup_insert_ne. }
  assert (alike (st_doc s) back) as Hb.
  { split; [unfold back; cbn [dc_Actions]; by rewrite delete_insert_id|].
    intros k. unfold back, mark. cbn [dc_HighWater dc_FenceHighWater]. destruct (decide (k = key)) as [->|Hk].
    - by rewrite !lookup_insert_eq.
    - rewrite !lookup_insert_ne by done. destruct (_ || _); [by rewrite !lookup_insert_ne|done]. }
  pose proof (write_advances _ _ _ _ _ _ Hs Hd Hb E) as Hw. by destruct r.
Qed.

Lemma economic_step_advances op s :
  in_step s -> in_step (economic_step op s) /\ ahead (st_doc s) (st_doc (economic_step op s)).
Proof.
  intros Hs. destruct op as [w a fence fields exact now|w id digest|w id digest event|w]; cbn [economic_step].
  - by apply economic_admit_advances.
  - unfold economic_Submit. destruct (dc_Actions _ !! id) as [prior|] eqn:Eid; [|by split].
    destruct (negb _); [by split|]. destruct (_ || _); [by split|].
    destruct (negb _) eqn:Ep; [by split|]. apply negb_false_iff, bool_decide_eq_true in Ep.
    apply store_action_advances; [done|done|by constructor].
  - unfold economic_Accept. destruct (dc_Actions _ !! id) as [prior|] eqn:Eid; [|by split].
    destruct (negb _); [by split|]. destruct (bool_decide (rn_State prior = ActionAccepted)) eqn:Ea; [by destruct (negb _); split|].
    destruct (negb _ && _) eqn:Ep; [by split|]. destruct (ValidateActionResolution _); [|by split].
    apply store_action_advances; [done|done|]. constructor.
    apply andb_false_iff in Ep as [Ep|Ep]; apply negb_false_iff, bool_decide_eq_true in Ep; auto.
  - destruct (economic_Open _ _ _ _) as [[s'|e] files] eqn:E; [|by split].
    destruct Hs as (d & Hf & Hd). unfold economic_Open in E. rewrite Hf in E.
    repeat match type of E with (if ?b then _ else _) = _ => destruct b; [done|] end.
    simplify_eq. cbn [st_doc]. split; [|done]. by exists d.
Qed.

Lemma economic_run_advances ops s :
  in_step s -> in_step (economic_run ops s) /\ ahead (st_doc s) (st_doc (economic_run ops s)).
Proof.
  revert s. induction ops as [|op ops IH]; intros s Hs; [by split|].
  cbn [economic_run fold_left]. destruct (economic_step_advances op s Hs) as [H1 A1].
  destruct (IH _ H1) as [H2 A2]. split; [done|]. by etrans.
Qed.

Lemma moves_same r r' : rtc moves r r' ->
  rn_ExactRequestDigest r' = rn_ExactRequestDigest r
  /\ (rn_State r = ActionAccepted -> r' = r)
  /\ (rn_State r = ActionSubmitted -> r' = r \/ rn_State r' = ActionAccepted).
Proof.
  induction 1 as [r|r r1 r' Hm _ (E & F & G)]; [auto|].
  destruct Hm as [r Hp|r e Hp]; cbn [rn_ExactRequestDigest rn_State] in *; split_and!; try done; intros Hs.
  - congruence.
  - congruence.
  - destruct Hp; congruence.
  - right. by rewrite (F eq_refl).
Qed.

(** C15: A recorded economic action is settled once.  Under any sequence of
    admissions, submissions, acceptances, failed writes and restarts, the action is
    never lost and never changes its request; an accepted one keeps its evidence for
    good, a submitted one can only be accepted; and whoever asks with another request
    is told of the conflict. *)
Theorem economic_action_settles_once ops s id r :
  in_step s -> dc_Actions (st_doc s) !! id = Some r ->
  exists r', dc_Actions (st_doc (economic_run ops s)) !! id = Some r'
  /\ rn_ExactRequestDigest r' = rn_ExactRequestDigest r
  /\ (rn_State r = ActionAccepted -> r' = r)
  /\ (rn_State r = ActionSubmitted -> r' = r \/ rn_State r' = ActionAccepted)
  /\ economic_Resolve id (rn_ExactRequestDigest r) (economic_run ops s) = r'
  /\ forall digest, digest <> rn_ExactRequestDigest r ->
       rn_State (economic_Resolve id digest (economic_run ops s)) = ActionConflict.
Proof.
  intros Hs Hr. destruct (economic_run_advances ops s Hs) as [_ [Ha _]].
  destruct (Ha _ _ Hr) as (r' & Hr' & Hm). apply moves_same in Hm as (E & F & G).
  exists r'. split_and!; try done; unfold economic_Resolve; rewrite Hr', E.
  - by rewrite String.eqb_refl.
  - intros digest Hne. destruct (String.eqb_spec (rn_ExactRequestDigest r) digest); [congruence|done].
Qed.

Lemma admit_fresh_mark w a fence fields exact now s r s1 :
  economic_Admit w a fence fields exact now s = (Ok r, s1) ->
  dc_Actions (st_doc s) !! aa_StableActionID a = None ->
  exists digest, WriterFenceDigest fence = Ok digest
  /\ (mark (st_doc s1) (aa_OwnerID a +:+ NUL +:+ aa_AgentID a) = (aa_WriterGeneration a, digest)).
Proof.
  unfold economic_Admit. intros Hr Hid.
  destruct (VerifyAuthorizedAction _ _ _ _ _ _); [|done]. destruct (WriterFenceDigest fence) as [digest|]; [|done].
  set (key := aa_OwnerID a +:+ NUL +:+ aa_AgentID a) in *. set (high := default 0 _) in *. set (fenced := default "" _) in *.
  destruct (aa_WriterGeneration a <? high) eqn:Elow; [done|]. destruct (_ && _) eqn:Eeq; [done|].
  rewrite Hid in Hr. destruct (MaxEconomicActions <=? _); [done|]. cbv zeta in Hr.
  destruct (persistLocked w _) as [[u|e] s'] eqn:E; [|done]. injection Hr as <- <-.
  apply persistLocked_cases in E as (-> & _). exists digest. split; [done|].
  cbn [with_doc st_doc]. destruct (_ || _) eqn:Er; unfold mark; cbn [dc_HighWater dc_FenceHighWater].
  - by rewrite !lookup_insert_eq.
  - fold high fenced. apply orb_false_iff in Er as [Eg Ef]. apply Z.ltb_ge in Eg, Elow.
    assert (aa_WriterGeneration a = high) as Egen by lia; rewrite Egen in *.
    rewrite Z.eqb_refl, Ef in Eeq. cbn [negb andb] in Eeq. apply negb_false_iff, String.eqb_eq in Eeq. by rewrite Eeq.
Qed.

Lemma admit_within_mark w a fence fields exact now s r s1 digest :
  economic_Admit w a fence fields exact now s = (Ok r, s1) -> WriterFenceDigest fence = Ok digest ->
  mark_le (mark (st_doc s) (aa_OwnerID a +:+ NUL +:+ aa_AgentID a)) (aa_WriterGeneration a, digest).
Proof.
  unfold economic_Admit. intros Hr Hf. destruct (VerifyAuthorizedAction _ _ _ _ _ _); [|done]. rewrite Hf in Hr.
  set (key := aa_OwnerID a +:+ NUL +:+ aa_AgentID a) in *. unfold mark. set (high := default 0 _) in *. set (fenced := default "" _) in *.
  destruct (aa_WriterGeneration a <? high) eqn:Elow; [done|]. destruct (_ && _) eqn:Eeq; [done|].
  apply Z.ltb_ge in Elow. unfold mark_le. cbn [fst snd].
  destruct (decide (high = aa_WriterGeneration a)) as [Eh|]; [|left; lia]. right. split; [done|].
  rewrite Eh, Z.eqb_refl in Eeq. cbn [andb] in Eeq. apply andb_false_iff in Eeq as [Ee|Ee]; apply negb_false_iff, String.eqb_eq in Ee; auto.
Qed.

(** A writer is fenced out for good.  After an action was newly admitted under
    a writer generation and fence, through any operations, failed writes and restarts,
    no action of the same owner and agent is admitted under a lower generation, nor
    under the same generation with another fence. *)
Theorem writer_fenced `{!CommerceLaws} w a fence fields exact now s r s1 ops w' a' fence' fields' exact' now' r' s2 :
  in_step s -> economic_Admit w a fence fields exact now s = (Ok r, s1) ->
  dc_Actions (st_doc s) !! aa_StableActionID a = None ->
  aa_OwnerID a' = aa_OwnerID a -> aa_AgentID a' = aa_AgentID a ->
  economic_Admit w' a' fence' fields' exact' now' (economic_run ops s1) = (Ok r', s2) ->
  aa_WriterGeneration a < aa_WriterGeneration a'
  \/ aa_WriterGeneration a' = aa_WriterGeneration a /\ WriterFenceDigest fence' = WriterFenceDigest fence.
Proof.
  intros Hs Hr Hid Eo Ea Hr'. destruct (admit_fresh_mark _ _ _ _ _ _ _ _ _ Hr Hid) as (digest & Ed & Em).
  pose proof (economic_admit_advances w a fence fields exact now s Hs) as [H1 _]. rewrite Hr in H1.
  destruct (economic_run_advances ops s1 H1) as [_ [_ Hm]]. specialize (Hm (aa_OwnerID a +:+ NUL +:+ aa_AgentID a)). rewrite Em in Hm.
  assert (exists d', WriterFenceDigest fence' = Ok d') as [d' Ed'].
  { unfold economic_Admit in Hr'. destruct (VerifyAuthorizedAction _ _ _ _ _ _); [|done]. destruct (WriterFenceDigest fence') as [x|]; [by exists x|done]. }
  pose proof (admit_within_mark _ _ _ _ _ _ _ _ _ _ Hr' Ed') as Hw. rewrite Eo, Ea in Hw.
  pose proof (transitivity (R := mark_le) Hm Hw) as [Hlt|[Eg [E|E]]]; cbn [fst snd] in *; [by left|by apply fence_digest_nonempty in Ed|].
  right. split; [done|]. by rewrite Ed, Ed', E.
Qed.

(** Opening a store and answering keeps memory and file together: whatever
    [Open] returns is what the file holds, and it creates the file when there is none. *)
Lemma economic_open_in_step w absolute authorities files s files' :
  economic_Open w absolute authorities files = (Ok s, files') -> in_step s /\ st_files s = files'.
Proof.
  unfold economic_Open. intros Ho.
  repeat match type of Ho with (if ?b then _ else _) = _ => destruct b; [done|] end.
  destruct (files !! economic_file) as [[| | |d]|] eqn:Ef; try done.
  - repeat match type of Ho with (if ?b then _ else _) = _ => destruct b; [done|] end. simplify_eq.
    split; [|done]. by exists d.
  - destruct (persistLocked _ _) as [[u|e] s'] eqn:E; [|done]. apply persistLocked_cases in E as (Ed & _ & Hf).
    simplify_eq. split; [|done]. destruct Hf as [Hf|[? _]]; [|done]. eexists. split; [exact Hf|]. by rewrite Ed.
Qed.
End Facts.

(** ** A run *)

(** A protocol in which an action is a list of its fields, every action is authorised by a pinned fence, and nothing
    else is checked. *)
Definition toy_protocol : CommerceProtocol := {|
  AuthorizedAction := string * string * Z * string;
  aa_OwnerID _ := "owner"; aa_AgentID _ := "agent"; aa_ActionKind _ := "messenger.send";
  aa_StableActionID a := a.1.1.1; aa_ExactRequestDigest a := a.1.1.2; aa_WriterGeneration a := a.1.2; aa_ExpiresAtUnix _ := 1000;
  WriterFence := string;
  SemanticFieldValue := string; SemanticValues := list string;
  MessengerEffect := string; fx_EventKind e := e; fx_ContentType _ := "text/plain"; fx_RecipientAgentIDs _ := ["agent"]; fx_Payload _ := [];
  MaxActionRequestBytes := 1000;
  ImportSemanticFields _ l := Ok l; DecodeMessengerEffectRequest _ := Ok "text";
  OperationPrivateRequest := unit; op_RecipientAgentIDs _ := []; UnmarshalOperationPrivate _ := None;
  ValidateOperationPrivateRequest _ := Ok tt; OperationPrivateSendSemanticFields _ _ _ := Ok []; ExportSemanticFields _ l := Ok l;
  VerifyAuthorizedAction _ _ _ fence authorize _ := authorize fence [x01];
  WriterFenceDigest f := Ok ("sha256:" +:+ f);
  ValidateActionResolution _ := Ok tt;
|}.
#[local] Existing Instance toy_protocol.

Lemma toy_protocol_laws : CommerceLaws.
Proof. split; [|done]. cbn. by intros f d [= <-]. Qed.

Definition old_writer (id : string) : AuthorizedAction := (id, "digest", 1, "").
Definition new_writer (id : string) : AuthorizedAction := (id, "digest", 2, "").
Definition admit_as (a : AuthorizedAction) : economic_op := OpEconomicAdmit WOk a "root" [] [] 100.
Definition empty_store : EconomicStore :=
  MkEconomic {[ economic_file := ERec (MkDocument economic_schema ∅ ∅ ∅) ]} {[ "root" := [x01] ]} (MkDocument economic_schema ∅ ∅ ∅).

Lemma empty_store_in_step : in_step empty_store.
Proof. exists (MkDocument economic_schema ∅ ∅ ∅). split; [done|]. split; [intros id r Hr; by exists r|]. intros key. right. auto. Qed.

Lemma economic_action_settles_once_witness :
  let s := economic_run [admit_as (old_writer "first"); OpEconomicAccept WOk "first" "digest" "evt"] empty_store in
  let r := MkResolution "first" "digest" ActionAccepted 2 "evt" in
  dc_Actions (st_doc s) !! "first" = Some r
  /\ dc_Actions (st_doc (economic_run [OpEconomicAccept WOk "first" "digest" "other"; OpEconomicRestart WOk] s)) !! "first" = Some r.
Proof.
  cbv zeta. split; [vm_compute; reflexivity|].
  edestruct (economic_action_settles_once [OpEconomicAccept WOk "first" "digest" "other"; OpEconomicRestart WOk]
    (economic_run [admit_as (old_writer "first"); OpEconomicAccept WOk "first" "digest" "evt"] empty_store) "first"
    (MkResolution "first" "digest" ActionAccepted 2 "evt")) as (r' & Hr' & _ & Hf & _).
  - apply economic_run_advances, empty_store_in_step.
  - vm_compute. reflexivity.
  - rewrite Hr'. f_equal. apply Hf. reflexivity.
Defined.

Lemma writer_fenced_witness :
  is_ok (economic_Admit WOk (new_writer "first") "root" [] [] 100 empty_store).1 = true
  /\ (aa_WriterGeneration (new_writer "first") < aa_WriterGeneration (new_writer "third")
      \/ aa_WriterGeneration (new_writer "third") = aa_WriterGeneration (new_writer "first")
         /\ WriterFenceDigest "root" = WriterFenceDigest "root").
Proof.
  split; [vm_compute; reflexivity|].
  eapply (@writer_fenced toy_protocol toy_protocol_laws WOk (new_writer "first") "root" [] [] 100 empty_store _ _
    [admit_as (old_writer "second"); OpEconomicRestart WOk] WOk (new_writer "third") "root" [] [] 100);
    [apply empty_store_in_step|vm_compute; reflexivity|reflexivity|reflexivity|reflexivity|vm_compute; reflexivity].
Defined.

(** A newer writer that repeats a prepared action is answered, and the high-water stays where it was: the writer it
    replaced still admits new actions. *)
Theorem replaced_writer_still_admits :
  let s := economic_run [admit_as (old_writer "first")] empty_store in
  economic_Admit WOk (new_writer "first") "root" [] [] 100 s = (Ok (MkResolution "first" "digest" ActionPrepared 1 ""), s)
  /\ (economic_Admit WOk (old_writer "second") "root" [] [] 100 s).1 = Ok (MkResolution "second" "digest" ActionPrepared 1 "").
Proof. split; vm_compute; reflexivity. Qed.
