(* ===== verification/LocalApi.v ===== *)
(** * The local interface: requests and owner decisions ([pkg/localapi/api.go], [owner.go])

    The runtime and the owner's tools reach the daemon over two local sockets.  A
    request names an operation; the socket fixes the principal, which bounds the
    operations, and an operation that decides something on the owner's authority also
    carries the owner's signature over the decision and a single-use challenge.

    This file has the vocabulary, the validation of a request, the bytes the owner
    signs and the challenges; [LocalServer.v] has the handlers. *)

From S2P Require Import Prelude Encoding Canon Files Fault Money Terms Payload Firewall Delivery Identity Economic.

(** ** Vocabulary *)

Definition RequestSchema : string := "tos.messaging.local-request.v15".
Definition RequestSchemaV14 : string := "tos.messaging.local-request.v14".
Definition RequestSchemaV13 : string := "tos.messaging.local-request.v13".
Definition RequestSchemaV12 : string := "tos.messaging.local-request.v12".
Definition RequestSchemaV11 : string := "tos.messaging.local-request.v11".
Definition RequestSchemaV10 : string := "tos.messaging.local-request.v10".
Definition RequestSchemaV9 : string := "tos.messaging.local-request.v9".
Definition RequestSchemaV8 : string := "tos.messaging.local-request.v8".
Definition RequestSchemaV7 : string := "tos.messaging.local-request.v7".
Definition RequestSchemaV6 : string := "tos.messaging.local-request.v6".
Definition ResponseSchema : string := "tos.messaging.local-response.v5".
Definition MaxEventsPerResponse : Z := 64.
Definition MaxHistoryEventsPerResponse : Z := 3.

Inductive Operation : Type :=
  | OpPending | OpClaim | OpPendingAgentGifts | OpClaimAgentGift | OpPendingAgreements | OpClaimAgreement
  | OpPendingPrivateHandoffs | OpClaimPrivateHandoff | OpPendingCommerceProfileEvents | OpClaimCommerceProfileEvent
  | OpComplete | OpReject | OpQueue | OpCompose | OpComposeProtocolResult | OpResolveContact
  | OpEnsureDirectConversation | OpSendDirect | OpSendDirectApplication | OpEconomicSendDirect
  | OpEconomicActionStatus | OpReplyDirect | OpPendingAttachments | OpClaimAttachment | OpBeginOutboundAttachment
  | OpAppendOutboundAttachment | OpCommitOutboundAttachment | OpAwaitingAdmission | OpAdmit | OpRefuse | OpApprove
  | OpDeny | OpRequestAction | OpActionStatus | OpClaimAction | OpPendingActions | OpGrantAction | OpDenyAction
  | OpPlaceMandate | OpRevokeMandate | OpChallenge | OpListMandates | OpCreateAdmissionInvite | OpRecordEscrowLocation
  | OpVerifyAcceptedQuote | OpExportDeviceHistory | OpListDeviceHistory | OpOther (s : string).
#[global] Instance Operation_eq_dec : EqDecision Operation.
Proof. solve_decision. Defined.

(** The text of an operation; [OpOther] is any other text. *)
Definition op_text (op : Operation) : string :=
  match op with
  | OpPending => "inbox.pending"
  | OpClaim => "inbox.claim"
  | OpPendingAgentGifts => "agent-gifts.pending"
  | OpClaimAgentGift => "agent-gifts.claim"
  | OpPendingAgreements => "agreements.pending"
  | OpClaimAgreement => "agreements.claim"
  | OpPendingPrivateHandoffs => "private-handoffs.pending"
  | OpClaimPrivateHandoff => "private-handoffs.claim"
  | OpPendingCommerceProfileEvents => "commerce-profile-events.pending"
  | OpClaimCommerceProfileEvent => "commerce-profile-events.claim"
  | OpComplete => "inbox.complete"
  | OpReject => "inbox.reject"
  | OpQueue => "outbox.queue"
  | OpCompose => "outbox.compose"
  | OpComposeProtocolResult => "outbox.compose-protocol-result"
  | OpResolveContact => "contacts.resolve"
  | OpEnsureDirectConversation => "conversations.ensure-direct"
  | OpSendDirect => "messages.send-direct"
  | OpSendDirectApplication => "messages.send-direct-application"
  | OpEconomicSendDirect => "economic.messages.send-direct"
  | OpEconomicActionStatus => "economic.actions.status"
  | OpReplyDirect => "messages.reply-direct"
  | OpPendingAttachments => "attachments.pending"
  | OpClaimAttachment => "attachments.claim"
  | OpBeginOutboundAttachment => "attachments.outbound.begin"
  | OpAppendOutboundAttachment => "attachments.outbound.chunk"
  | OpCommitOutboundAttachment => "attachments.outbound.commit"
  | OpAwaitingAdmission => "approvals.pending"
  | OpAdmit => "approvals.admit"
  | OpRefuse => "approvals.refuse"
  | OpApprove => "owner.approve"
  | OpDeny => "owner.deny"
  | OpRequestAction => "actions.request"
  | OpActionStatus => "actions.status"
  | OpClaimAction => "actions.claim"
  | OpPendingActions => "actions.pending"
  | OpGrantAction => "actions.grant"
  | OpDenyAction => "actions.deny"
  | OpPlaceMandate => "mandates.place"
  | OpRevokeMandate => "mandates.revoke"
  | OpChallenge => "owner.challenge"
  | OpListMandates => "mandates.list"
  | OpCreateAdmissionInvite => "invites.create"
  | OpRecordEscrowLocation => "escrow-locations.record"
  | OpVerifyAcceptedQuote => "quotes.verify"
  | OpExportDeviceHistory => "device-history.export"
  | OpListDeviceHistory => "device-history.list"
  | OpOther s => s
  end.

(** [operations] *)
Definition known_operation (op : Operation) : bool := match op with OpOther _ => false | _ => true end.

Inductive Principal : Type := PrincipalRuntime | PrincipalOwner | PrincipalOther (s : string).

(** [permitted] *)
Definition runtime_operations : list Operation := [
  OpPending; OpClaim; OpPendingAgentGifts; OpClaimAgentGift; OpPendingAgreements; OpClaimAgreement;
  OpPendingPrivateHandoffs; OpClaimPrivateHandoff; OpPendingCommerceProfileEvents; OpClaimCommerceProfileEvent;
  OpComplete; OpReject; OpQueue; OpCompose; OpComposeProtocolResult; OpResolveContact; OpEnsureDirectConversation;
  OpSendDirect; OpSendDirectApplication; OpEconomicSendDirect; OpEconomicActionStatus; OpReplyDirect;
  OpPendingAttachments; OpClaimAttachment; OpBeginOutboundAttachment; OpAppendOutboundAttachment;
  OpCommitOutboundAttachment; OpRequestAction; OpActionStatus; OpClaimAction; OpListMandates; OpVerifyAcceptedQuote].
Definition owner_operations : list Operation := [
  OpAwaitingAdmission; OpAdmit; OpRefuse; OpApprove; OpDeny; OpPendingActions; OpGrantAction; OpDenyAction;
  OpPlaceMandate; OpRevokeMandate; OpListMandates; OpChallenge; OpCreateAdmissionInvite; OpRecordEscrowLocation;
  OpExportDeviceHistory; OpListDeviceHistory].
Definition permitted (p : Principal) : option (list Operation) :=
  match p with
  | PrincipalRuntime => Some runtime_operations
  | PrincipalOwner => Some owner_operations
  | PrincipalOther _ => None
  end.
Definition Permits (principal : Principal) (op : Operation) : bool :=
  match permitted principal with None => false | Some allowed => bool_decide (op ∈ allowed) end.

(** [deciding] *)
Definition deciding : list Operation := [
  OpAdmit; OpRefuse; OpApprove; OpDeny; OpGrantAction; OpDenyAction; OpPlaceMandate; OpRevokeMandate;
  OpCreateAdmissionInvite; OpRecordEscrowLocation; OpExportDeviceHistory].
Definition Deciding (op : Operation) : bool := bool_decide (op ∈ deciding).

Definition local_eventPattern : string -> bool := prefixed_hex64 "evt_".
Definition local_leasePattern : string -> bool := prefixed_hex64 "lease_".
Definition local_sessionPattern : string -> bool := prefixed_hex64 "ses_".
Definition local_endpointPattern : string -> bool := prefixed_hex64 "mep_".
Definition actionPattern : string -> bool := prefixed_hex64 "act_".
Definition local_idempotencyPattern : string -> bool := prefixed_hex64 "idem_".
Definition conversationPattern : string -> bool := prefixed_hex64 "conv_".
Definition roomPattern : string -> bool := prefixed_hex64 "room_".
Definition local_mandatePattern : string -> bool := prefixed_hex64 "mdt_".
Definition local_agentPattern : string -> bool := prefixed_hex64 "agent_".
Definition devicePattern : string -> bool := prefixed_hex64 "dev_".
Definition challengePattern : string -> bool := hex64.
Definition quotePattern : string -> bool := prefixed_hex64 "tvm-cell-sha256:".
Definition uploadPattern : string -> bool := prefixed_hex64 "attup_".
Definition capabilityPattern : string -> bool := prefixed_hex64 "cap_".
Definition physicalNamePattern : string -> bool := physicalToolPattern.
Definition canonicalDigestPattern : string -> bool := prefixed_hex64 "sha256:".

Record AssetIdentity : Type := MkAssetIdentity {
  ai_NetworkID : string;
  ai_GenesisRootHash : string;
  ai_GenesisFileHash : string;
  ai_Workchain : Z;
  ai_AccountID : string;
  ai_MasterCodeHash : string;
  ai_WalletCodeHash : string;
  ai_Decimals : Z;
}.

Record MandateTerms : Type := MkMandateTerms {
  mt_Objective : string;
  mt_Authority : string;
  mt_CapabilityClass : string;
  mt_Asset : AssetIdentity;
  mt_MaxTotalAtomic : string;
  mt_ApprovalAboveAtomic : string;
  mt_MaxCounteroffers : Z;
  mt_ExpiresAtUnix : Z;
}.

Record PurchaseTerms : Type := MkPurchaseTerms {
  pt_CapabilityID : string;
  pt_CapabilityVersion : string;
  pt_CapabilityClass : string;
  pt_ProviderAgentID : string;
  pt_ManifestDigest : string;
  pt_TransportBindingDigest : string;
  pt_Asset : AssetIdentity;
  pt_PriceAtomic : string;
  pt_EscrowTermsDigest : string;
  pt_DisputePolicyDigest : string;
  pt_NotAfterUnix : Z;
}.

Record ActionOrigin : Type := MkActionOrigin {
  an_AgentID : string;
  an_EndpointID : string;
  an_DeviceID : string;
  an_EventID : string;
  an_ConversationID : string;
  an_Kind : string;
  an_ReceivedAtUnix : Z;
}.

(** The physical operation of a proposal has the fields of the firewall's. *)
Record ProposedAction : Type := MkProposed {
  pa_Effect : string;
  pa_Summary : string;
  pa_IdempotencyKey : string;
  pa_Derived : list ActionOrigin;
  pa_Terms : option PurchaseTerms;
  pa_Physical : option PhysicalOperation;
}.

Definition toAsset (i : AssetIdentity) : Asset :=
  MkAsset (MkNetwork (ai_NetworkID i) (ai_GenesisRootHash i) (ai_GenesisFileHash i)) (ai_Workchain i)
    (ai_AccountID i) (ai_MasterCodeHash i) (ai_WalletCodeHash i) (ai_Decimals i).

Definition toTerms (t : PurchaseTerms) : Terms :=
  MkTerms (pt_CapabilityID t) (pt_CapabilityVersion t) (pt_CapabilityClass t) (pt_ProviderAgentID t) (pt_ManifestDigest t)
    (pt_TransportBindingDigest t) (MkMoney (toAsset (pt_Asset t)) (pt_PriceAtomic t)) (pt_EscrowTermsDigest t)
    (pt_DisputePolicyDigest t) (pt_NotAfterUnix t).

Section Requests.
  Context `{CommerceProtocol}.

Record Request : Type := MkRequest {
  rq_Schema : string;
  rq_Op : Operation;
  rq_EventID : string;
  rq_LeaseID : string;
  rq_LeaseSeconds : Z;
  rq_Code : Code;
  rq_Limit : Z;
  rq_Recipient : string;
  rq_Event : bytes;
  rq_SessionID : string;
  rq_RecipientEndpointID : string;
  rq_RecipientAgentID : string;
  rq_ExpiresAtUnix : Z;
  rq_ConversationID : string;
  rq_RoomID : string;
  rq_ReplyToEventID : string;
  rq_MembershipEpoch : Z;
  rq_MediaType : string;
  rq_Body : string;
  rq_IdempotencyKey : string;
  rq_ProtocolKind : string;
  rq_Protocol : string;
  rq_ProtocolVersion : string;
  rq_ProtocolBody : bytes;
  rq_ApplicationKind : string;
  rq_ApplicationBody : bytes;
  rq_EconomicAction : option AuthorizedAction;
  rq_EconomicWriterFence : option WriterFence;
  rq_EconomicFields : list SemanticFieldValue;
  rq_ExactEconomicRequest : bytes;
  rq_EconomicStableID : string;
  rq_EconomicRequestDigest : string;
  rq_Action : option ProposedAction;
  rq_ActionID : string;
  rq_Reason : string;
  rq_Mandate : option MandateTerms;
  rq_Challenge : string;
  rq_OwnerSignature : string;
  rq_MandateID : string;
  rq_InvitedAgentID : string;
  rq_InviteExpiresAtUnix : Z;
  rq_QuoteCommitment : string;
  rq_EscrowAddress : string;
  rq_CapabilityClass : string;
  rq_ExpectedQuoteTerms : option PurchaseTerms;
  rq_TargetDeviceID : string;
  rq_HistorySequence : Z;
  rq_PreviousSegmentDigest : string;
  rq_AfterCreatedAtUnix : Z;
  rq_AfterEventID : string;
  rq_Filename : string;
  rq_PlaintextDigest : string;
  rq_PlaintextBytes : Z;
  rq_UploadID : string;
  rq_ChunkIndex : Z;
  rq_Chunk : bytes;
}.

(** ** Validation *)

Notation "a '==' b" := (bool_decide (a = b)) (at level 70).
Notation "a '!=' b" := (negb (bool_decide (a = b))) (at level 70).
Abbreviation some f := (negb (String.eqb f "")) (only parsing).
Abbreviation full b := (negb (blen b =? 0)) (only parsing).
Abbreviation present o := (match o with Some _ => true | None => false end) (only parsing).

Fixpoint any_nonempty (fields : list string) : bool :=
  match fields with [] => false | f :: rest => some f || any_nonempty rest end.

Definition requireEmpty (r : Request) (operation : string) (fields : list string) : result unit :=
  refuse any_nonempty fields with NewError (operation +:+ " carries a field it does not use");
  refuse full (rq_Event r) with NewError (operation +:+ " carries an event it does not use");
  Ok tt.

(** Every deciding operation carries the owner's authorisation, and no other does. *)
Definition carries_authority (r : Request) : result unit :=
  if Deciding (rq_Op r) then
    refuse negb (challengePattern (rq_Challenge r)) with NewError "an owner decision needs a challenge";
    refuse String.eqb (rq_OwnerSignature r) "" with NewError "an owner decision needs the owner's signature";
    Ok tt
  else
    refuse some (rq_Challenge r) || some (rq_OwnerSignature r)
      with NewError "only an owner decision carries a challenge and a signature";
    Ok tt.

Definition economic_operation (op : Operation) : bool := (op == OpEconomicSendDirect) || (op == OpEconomicActionStatus).
Definition quote_operation (op : Operation) : bool := (op == OpRecordEscrowLocation) || (op == OpVerifyAcceptedQuote).

(** The checks that a field comes only with the operations that use it. *)
Definition carries_only (r : Request) : result unit :=
  let op := rq_Op r in
  refuse negb (economic_operation op)
      && (present (rq_EconomicAction r) || present (rq_EconomicWriterFence r) || negb (Nat.eqb (length (rq_EconomicFields r)) 0)
          || full (rq_ExactEconomicRequest r) || some (rq_EconomicStableID r) || some (rq_EconomicRequestDigest r))
    with NewError "only economic operations carry economic authorization";
  refuse (op != OpCreateAdmissionInvite) && (some (rq_InvitedAgentID r) || negb (rq_InviteExpiresAtUnix r =? 0))
    with NewError "only admission invite creation carries invite terms";
  refuse (op != OpResolveContact) && (op != OpEnsureDirectConversation) && (op != OpSendDirect) && (op != OpSendDirectApplication)
      && some (rq_Recipient r)
    with NewError "only contact or direct-conversation resolution carries a recipient input";
  refuse (op != OpCompose) && some (rq_RecipientAgentID r) with NewError "only message composition carries a recipient Agent assertion";
  refuse negb (quote_operation op) && some (rq_QuoteCommitment r)
    with NewError "only escrow recording or Quote verification carries a Quote commitment";
  refuse negb (quote_operation op) && (some (rq_EscrowAddress r) || some (rq_CapabilityClass r))
    with NewError "only escrow recording or Quote verification carries funded escrow locators";
  refuse (op != OpVerifyAcceptedQuote) && present (rq_ExpectedQuoteTerms r)
    with NewError "only Quote verification carries expected Quote terms";
  refuse (op != OpCompose) && (op != OpSendDirect) && (op != OpSendDirectApplication) && (op != OpReplyDirect)
      && (op != OpComposeProtocolResult) && (op != OpBeginOutboundAttachment) && (op != OpExportDeviceHistory)
      && (op != OpListDeviceHistory) && (some (rq_ConversationID r) || some (rq_IdempotencyKey r))
    with NewError "only outbound composition carries message semantics";
  refuse (op == OpListDeviceHistory) && some (rq_IdempotencyKey r) with NewError "a history listing has no idempotency key";
  refuse (op != OpCompose) && (op != OpSendDirect) && (op != OpReplyDirect) && (op != OpComposeProtocolResult)
      && (op != OpBeginOutboundAttachment)
      && (some (rq_RoomID r) || some (rq_ReplyToEventID r) || negb (rq_MembershipEpoch r =? 0) || some (rq_MediaType r)
          || some (rq_Body r))
    with NewError "only message composition carries message body semantics";
  refuse (op == OpBeginOutboundAttachment) && some (rq_Body r)
    with NewError "outbound attachment begin does not carry an inline body";
  refuse (op != OpComposeProtocolResult)
      && (some (rq_ProtocolKind r) || some (rq_Protocol r) || some (rq_ProtocolVersion r) || full (rq_ProtocolBody r))
    with NewError "only protocol result composition carries protocol body semantics";
  refuse (op != OpSendDirectApplication) && (some (rq_ApplicationKind r) || full (rq_ApplicationBody r))
    with NewError "only direct application sending carries an application object";
  refuse (op != OpBeginOutboundAttachment)
      && (some (rq_Filename r) || some (rq_PlaintextDigest r) || negb (rq_PlaintextBytes r =? 0))
    with NewError "only outbound attachment begin carries plaintext metadata";
  refuse (op != OpAppendOutboundAttachment) && (op != OpCommitOutboundAttachment) && some (rq_UploadID r)
    with NewError "only an outbound attachment transaction carries an upload identifier";
  refuse (op != OpAppendOutboundAttachment) && (negb (rq_ChunkIndex r =? 0) || full (rq_Chunk r))
    with NewError "only an outbound attachment chunk carries chunk bytes";
  refuse (op != OpExportDeviceHistory)
      && (some (rq_TargetDeviceID r) || negb (rq_HistorySequence r =? 0) || some (rq_PreviousSegmentDigest r)
          || negb (rq_AfterCreatedAtUnix r =? 0) || some (rq_AfterEventID r))
    with NewError "only device-history export carries history terms";
  Ok tt.

Definition validate_economic_send (r : Request) : result unit :=
  match rq_EconomicAction r with
  | None => Err (NewError "an economic send needs one complete authorization envelope")
  | Some action =>
      refuse negb (present (rq_EconomicWriterFence r)) || Nat.eqb (length (rq_EconomicFields r)) 0
          || (blen (rq_ExactEconomicRequest r) =? 0) || (MaxActionRequestBytes <? blen (rq_ExactEconomicRequest r))
          || some (rq_EconomicStableID r) || some (rq_EconomicRequestDigest r)
        with NewError "an economic send needs one complete authorization envelope";
      call ImportSemanticFields (aa_ActionKind action) (rq_EconomicFields r);
      call DecodeMessengerEffectRequest (rq_ExactEconomicRequest r);
      requireEmpty r "an economic send" [rq_EventID r; rq_LeaseID r; rq_SessionID r; rq_Recipient r; rq_MediaType r;
        rq_Body r; rq_ApplicationKind r; rq_IdempotencyKey r]
  end.

Definition validate_economic_status (r : Request) : result unit :=
  refuse present (rq_EconomicAction r) || present (rq_EconomicWriterFence r) || negb (Nat.eqb (length (rq_EconomicFields r)) 0)
      || full (rq_ExactEconomicRequest r) || negb (canonicalDigestPattern (rq_EconomicStableID r))
      || negb (canonicalDigestPattern (rq_EconomicRequestDigest r))
    with NewError "economic action status needs one stable ID and exact request digest";
  requireEmpty r "an economic action status" [rq_EventID r; rq_LeaseID r; rq_SessionID r].

Definition validate_reply (r : Request) : result unit :=
  refuse negb (local_eventPattern (rq_ReplyToEventID r)) || String.eqb (rq_MediaType r) "" || String.eqb (rq_Body r) ""
      || negb (local_idempotencyPattern (rq_IdempotencyKey r)) || (rq_ExpiresAtUnix r =? 0)
    with NewError "a direct reply needs source Event, message, expiry and idempotency";
  refuse some (rq_Recipient r) || negb (rq_Limit r =? 0) || some (rq_Code r) || some (rq_SessionID r)
      || some (rq_RecipientEndpointID r) || some (rq_RecipientAgentID r) || some (rq_ConversationID r) || some (rq_RoomID r)
      || negb (rq_MembershipEpoch r =? 0)
    with NewError "a direct reply cannot carry low-level routing authority";
  requireEmpty r "a direct reply" [rq_EventID r; rq_LeaseID r].

Definition validate_send (r : Request) : result unit :=
  refuse String.eqb (rq_Recipient r) "" || (255 <? slen (rq_Recipient r)) || String.eqb (rq_MediaType r) ""
      || String.eqb (rq_Body r) "" || negb (local_idempotencyPattern (rq_IdempotencyKey r)) || (rq_ExpiresAtUnix r =? 0)
    with NewError "a direct send needs recipient, message, expiry and idempotency";
  refuse negb (rq_Limit r =? 0) || some (rq_Code r) || some (rq_SessionID r) || some (rq_RecipientEndpointID r)
      || some (rq_RecipientAgentID r) || some (rq_ConversationID r) || some (rq_RoomID r) || some (rq_ReplyToEventID r)
      || negb (rq_MembershipEpoch r =? 0)
    with NewError "a direct send cannot carry low-level routing authority";
  requireEmpty r "a direct send" [rq_EventID r; rq_LeaseID r].

Definition gift_kinds : list string :=
  ["agent.gift.address-request"; "agent.gift.address-response"; "agent.gift.signed-boc-offer"].

Definition validate_send_application (r : Request) : result unit :=
  refuse String.eqb (rq_Recipient r) "" || (255 <? slen (rq_Recipient r))
      || negb (local_idempotencyPattern (rq_IdempotencyKey r)) || (rq_ExpiresAtUnix r =? 0)
      || (blen (rq_ApplicationBody r) =? 0) || (MaxAgreementPromotionBytes <? blen (rq_ApplicationBody r))
    with NewError "a direct application send needs recipient, bounded object, expiry and idempotency";
  refuse negb (bool_decide (rq_ApplicationKind r ∈ gift_kinds)) with NewError "unsupported direct application kind";
  refuse MaxGiftCanonicalBytes <? blen (rq_ApplicationBody r) with NewError "Agent Gift application is oversized";
  refuse some (rq_MediaType r) || some (rq_Body r) || some (rq_RoomID r) || some (rq_ReplyToEventID r)
      || some (rq_ConversationID r) || some (rq_SessionID r) || some (rq_RecipientEndpointID r) || some (rq_RecipientAgentID r)
    with NewError "a direct application cannot carry text, room, or route authority";
  requireEmpty r "a direct application send" [rq_EventID r; rq_LeaseID r].

Definition validate_resolution (r : Request) : result unit :=
  refuse String.eqb (rq_Recipient r) "" || (255 <? slen (rq_Recipient r))
    with NewError "recipient resolution needs one bounded input";
  refuse negb (rq_Limit r =? 0) || some (rq_Code r) || some (rq_RecipientEndpointID r) || negb (rq_ExpiresAtUnix r =? 0)
      || negb (rq_LeaseSeconds r =? 0) || present (rq_Action r) || some (rq_ActionID r) || some (rq_Reason r)
      || present (rq_Mandate r) || some (rq_MandateID r)
    with NewError "recipient resolution cannot carry route or control fields";
  requireEmpty r "recipient resolution" [rq_EventID r; rq_LeaseID r; rq_SessionID r].

Definition validate_listing (r : Request) : result unit :=
  refuse (rq_Limit r <? 0) || (MaxEventsPerResponse <? rq_Limit r) with NewError "invalid pending limit";
  requireEmpty r "a listing" [rq_EventID r; rq_LeaseID r; rq_SessionID r].

Definition validate_claim (r : Request) : result unit :=
  refuse negb (local_eventPattern (rq_EventID r)) || negb (local_leasePattern (rq_LeaseID r))
    with NewError "a claim needs an event and a lease";
  refuse rq_LeaseSeconds r =? 0 with NewError "a claim needs a lease duration";
  Ok tt.

Definition validate_outcome (r : Request) : result unit :=
  refuse negb (local_eventPattern (rq_EventID r)) || negb (local_leasePattern (rq_LeaseID r))
    with NewError "an application outcome needs an event and a lease";
  refuse (rq_Op r == OpReject) && some (rq_Code r) && negb (Fault.Known (rq_Code r)) with NewError "unknown rejection code";
  Ok tt.

Definition validate_queue (r : Request) : result unit :=
  refuse blen (rq_Event r) =? 0 with NewError "a submission needs an event";
  refuse negb (local_sessionPattern (rq_SessionID r)) with NewError "a submission needs a session";
  refuse negb (local_endpointPattern (rq_RecipientEndpointID r)) with NewError "a submission needs a recipient endpoint";
  refuse rq_ExpiresAtUnix r =? 0 with NewError "a submission needs an expiry";
  Ok tt.

(** The room of a message or an attachment: a room comes with an epoch, and nothing else does. *)
Definition room_and_epoch (r : Request) (direct room : string) : result unit :=
  if String.eqb (rq_RoomID r) "" then refuse negb (rq_MembershipEpoch r =? 0) with NewError direct; Ok tt
  else refuse negb (roomPattern (rq_RoomID r)) || (rq_MembershipEpoch r =? 0) with NewError room; Ok tt.

Definition validate_compose (r : Request) : result unit :=
  refuse negb (conversationPattern (rq_ConversationID r)) || negb (local_sessionPattern (rq_SessionID r))
      || negb (local_endpointPattern (rq_RecipientEndpointID r)) || negb (local_idempotencyPattern (rq_IdempotencyKey r))
      || (rq_ExpiresAtUnix r =? 0)
    with NewError "a composition needs canonical conversation, route, expiry and idempotency identifiers";
  call room_and_epoch r "a direct message has no membership epoch" "a room message needs a canonical room and membership epoch";
  refuse some (rq_ReplyToEventID r) && negb (local_eventPattern (rq_ReplyToEventID r))
    with NewError "invalid reply event identifier";
  refuse String.eqb (rq_MediaType r) "" || String.eqb (rq_Body r) "" with NewError "a composition needs media type and body";
  refuse some (rq_RecipientAgentID r) && negb (local_agentPattern (rq_RecipientAgentID r))
    with NewError "a composition has an invalid recipient Agent assertion";
  Ok tt.

Definition validate_protocol_result (r : Request) : result unit :=
  refuse negb (conversationPattern (rq_ConversationID r)) || negb (local_eventPattern (rq_ReplyToEventID r))
      || negb (local_sessionPattern (rq_SessionID r)) || negb (local_endpointPattern (rq_RecipientEndpointID r))
      || negb (local_idempotencyPattern (rq_IdempotencyKey r)) || (rq_ExpiresAtUnix r =? 0) || (blen (rq_ProtocolBody r) =? 0)
    with NewError "a protocol result needs canonical source, route, expiry, idempotency and body";
  refuse negb (String.eqb (rq_ProtocolKind r) "a2a.message" && String.eqb (rq_Protocol r) "a2a"
               || String.eqb (rq_ProtocolKind r) "mcp.result" && String.eqb (rq_Protocol r) "mcp")
      || negb (String.eqb (rq_ProtocolVersion r) "1")
    with NewError "invalid protocol result profile";
  refuse some (rq_RoomID r) || negb (rq_MembershipEpoch r =? 0) || some (rq_MediaType r) || some (rq_Body r)
    with NewError "a protocol result cannot carry text or room semantics";
  Ok tt.

Definition validate_attachment_begin (r : Request) : result unit :=
  refuse negb (conversationPattern (rq_ConversationID r)) || negb (local_sessionPattern (rq_SessionID r))
      || negb (local_endpointPattern (rq_RecipientEndpointID r)) || negb (local_idempotencyPattern (rq_IdempotencyKey r))
    with NewError "an attachment begin needs canonical conversation, route and idempotency identifiers";
  call room_and_epoch r "a direct attachment has no membership epoch" "a room attachment needs a canonical room and membership epoch";
  refuse some (rq_ReplyToEventID r) && negb (local_eventPattern (rq_ReplyToEventID r))
    with NewError "invalid attachment reply event identifier";
  refuse String.eqb (rq_Filename r) "" || String.eqb (rq_MediaType r) "" || negb (ValidDigest (rq_PlaintextDigest r))
      || (rq_PlaintextBytes r =? 0)
    with NewError "an attachment begin needs filename, media type, digest and size";
  refuse negb (rq_ExpiresAtUnix r =? 0) with NewError "attachment retention is daemon-owned";
  Ok tt.

Definition validate_attachment_chunk (r : Request) : result unit :=
  refuse negb (uploadPattern (rq_UploadID r)) || (blen (rq_Chunk r) =? 0) || (Z.shiftl 1 20 <? blen (rq_Chunk r))
    with NewError "an attachment chunk needs a canonical upload and bounded bytes";
  Ok tt.

Definition validate_attachment_commit (r : Request) : result unit :=
  refuse negb (uploadPattern (rq_UploadID r)) with NewError "an attachment commit needs a canonical upload";
  Ok tt.

Definition validate_event_decision (r : Request) : result unit :=
  refuse negb (local_eventPattern (rq_EventID r)) with NewError "an owner decision needs an event";
  requireEmpty r "an owner decision" [rq_LeaseID r; rq_SessionID r].

Definition validate_proposal (r : Request) : result unit :=
  match rq_Action r with
  | None => Err (NewError "a firewall decision needs the action itself")
  | Some action =>
      refuse some (rq_ActionID r) with NewError "the action identifier is derived, not declared";
      let oneShotTool := String.eqb (pa_Effect action) "tool-call" || String.eqb (pa_Effect action) "physical-io" in
      refuse oneShotTool && negb (local_idempotencyPattern (pa_IdempotencyKey action))
        with NewError "a tool call needs a canonical idempotency key";
      refuse negb oneShotTool && some (pa_IdempotencyKey action) with NewError "only a tool call carries an idempotency key";
      call (if String.eqb (pa_Effect action) "physical-io" then
              match pa_Physical action with
              | None => Err (NewError "physical I/O needs a canonical local Capability, operation, and argument digest")
              | Some p =>
                  refuse negb (capabilityPattern (ph_CapabilityID p)) || negb (physicalNamePattern (ph_Tool p))
                      || negb (physicalNamePattern (ph_Operation p)) || negb (ValidDigest (ph_ArgumentsDigest p))
                      || String.eqb (ph_ArgumentsJSON p) "" || (MaxPhysicalArgumentsBytes <? slen (ph_ArgumentsJSON p))
                    with NewError "physical I/O needs a canonical local Capability, operation, and argument digest";
                  Ok tt
              end
            else refuse present (pa_Physical action) with NewError "only physical I/O carries a physical operation"; Ok tt);
      if String.eqb (pa_Effect action) "spend" then
        refuse negb (present (pa_Terms action)) with NewError "a spend must say what it is buying";
        refuse negb (local_mandatePattern (rq_MandateID r)) with NewError "a spend must name the mandate it is made under";
        Ok tt
      else
        refuse present (pa_Terms action) || some (rq_MandateID r) with NewError "only a spend carries terms and a mandate";
        Ok tt
  end.

Definition validate_place (r : Request) : result unit :=
  refuse negb (present (rq_Mandate r)) with NewError "placing a mandate needs the mandate";
  refuse some (rq_MandateID r) with NewError "the mandate identifier is derived, not declared";
  Ok tt.

Definition validate_revoke (r : Request) : result unit :=
  refuse negb (local_mandatePattern (rq_MandateID r)) with NewError "withdrawing a mandate needs the mandate";
  requireEmpty r "an owner decision" [rq_EventID r; rq_LeaseID r; rq_SessionID r].

Definition validate_invite (r : Request) : result unit :=
  refuse some (rq_InvitedAgentID r) && negb (local_agentPattern (rq_InvitedAgentID r))
    with NewError "an admission invite has an invalid Agent scope";
  refuse rq_InviteExpiresAtUnix r =? 0 with NewError "an admission invite needs an expiry";
  requireEmpty r "admission invite creation" [rq_EventID r; rq_LeaseID r; rq_SessionID r].

Definition escrow_terms_ok (r : Request) : bool :=
  quotePattern (rq_QuoteCommitment r) && some (rq_EscrowAddress r) && (slen (rq_EscrowAddress r) <=? 80)
  && some (rq_CapabilityClass r) && (slen (rq_CapabilityClass r) <=? 64).

Definition validate_escrow (r : Request) : result unit :=
  refuse negb (escrow_terms_ok r) with NewError "recording an escrow location needs canonical funded escrow terms";
  requireEmpty r "escrow-location recording" [rq_EventID r; rq_LeaseID r; rq_SessionID r].

Definition validate_quote (r : Request) : result unit :=
  match rq_ExpectedQuoteTerms r with
  | None => Err (NewError "Quote verification needs an escrow locator, commitment, and complete expected terms")
  | Some terms =>
      refuse negb (escrow_terms_ok r)
        with NewError "Quote verification needs an escrow locator, commitment, and complete expected terms";
      refuse negb (is_ok (Terms_Validate (toTerms terms))) with NewError "Quote verification carries invalid expected terms";
      requireEmpty r "Quote verification" [rq_EventID r; rq_LeaseID r; rq_SessionID r]
  end.

Definition valid_cursor (r : Request) : bool :=
  (rq_HistorySequence r =? 1) && String.eqb (rq_PreviousSegmentDigest r) "" && (rq_AfterCreatedAtUnix r =? 0)
    && String.eqb (rq_AfterEventID r) ""
  || (1 <? rq_HistorySequence r) && ValidDigest (rq_PreviousSegmentDigest r) && (0 <? rq_AfterCreatedAtUnix r)
    && local_eventPattern (rq_AfterEventID r).

Definition validate_history_export (r : Request) : result unit :=
  refuse negb (conversationPattern (rq_ConversationID r)) || negb (devicePattern (rq_TargetDeviceID r))
      || negb (local_idempotencyPattern (rq_IdempotencyKey r)) || (rq_ExpiresAtUnix r =? 0) || (rq_Limit r <? 0)
      || (MaxHistoryEventsPerSegment <? rq_Limit r) || negb (valid_cursor r)
    with NewError "history export needs canonical target, cursor, expiry and idempotency terms";
  requireEmpty r "device-history export" [rq_EventID r; rq_LeaseID r; rq_SessionID r].

Definition validate_history_list (r : Request) : result unit :=
  refuse negb (conversationPattern (rq_ConversationID r)) || (rq_Limit r <? 0) || (MaxHistoryEventsPerResponse <? rq_Limit r)
    with NewError "history listing needs a canonical conversation and bounded limit";
  requireEmpty r "device-history listing" [rq_EventID r; rq_LeaseID r; rq_SessionID r].

Definition validate_action_status (r : Request) : result unit :=
  refuse negb (actionPattern (rq_ActionID r)) with NewError "an action status needs an action";
  requireEmpty r "an action status" [rq_EventID r; rq_LeaseID r; rq_SessionID r].

Definition validate_grant (r : Request) : result unit :=
  refuse negb (actionPattern (rq_ActionID r)) with NewError "an owner decision needs an action";
  refuse some (rq_Reason r) with NewError "a grant carries no reason";
  requireEmpty r "an owner decision" [rq_EventID r; rq_LeaseID r; rq_SessionID r].

Definition validate_denial (r : Request) : result unit :=
  refuse negb (actionPattern (rq_ActionID r)) with NewError "an owner decision needs an action";
  refuse String.eqb (rq_Reason r) "" with NewError "a refusal must say why";
  requireEmpty r "an owner decision" [rq_EventID r; rq_LeaseID r; rq_SessionID r].

Definition validate_refusal (r : Request) : result unit :=
  refuse negb (local_eventPattern (rq_EventID r)) with NewError "an owner decision needs an event";
  refuse some (rq_Code r) && negb (Fault.Known (rq_Code r)) with NewError "unknown refusal code";
  requireEmpty r "an owner decision" [rq_LeaseID r; rq_SessionID r].

(** The switch of [ValidateRequest]. *)
Definition validate_operation (r : Request) : result unit :=
  match rq_Op r with
  | OpEconomicSendDirect => validate_economic_send r
  | OpEconomicActionStatus => validate_economic_status r
  | OpReplyDirect => validate_reply r
  | OpSendDirect => validate_send r
  | OpSendDirectApplication => validate_send_application r
  | OpResolveContact | OpEnsureDirectConversation => validate_resolution r
  | OpPending | OpPendingAgentGifts | OpPendingAgreements | OpPendingPrivateHandoffs | OpPendingCommerceProfileEvents
  | OpAwaitingAdmission | OpPendingAttachments => validate_listing r
  | OpClaim | OpClaimAgentGift | OpClaimAgreement | OpClaimPrivateHandoff | OpClaimCommerceProfileEvent | OpClaimAttachment =>
      validate_claim r
  | OpComplete | OpReject => validate_outcome r
  | OpQueue => validate_queue r
  | OpCompose => validate_compose r
  | OpComposeProtocolResult => validate_protocol_result r
  | OpBeginOutboundAttachment => validate_attachment_begin r
  | OpAppendOutboundAttachment => validate_attachment_chunk r
  | OpCommitOutboundAttachment => validate_attachment_commit r
  | OpApprove | OpDeny | OpAdmit => validate_event_decision r
  | OpRequestAction => validate_proposal r
  | OpPlaceMandate => validate_place r
  | OpRevokeMandate => validate_revoke r
  | OpListMandates | OpChallenge => requireEmpty r "a listing" [rq_EventID r; rq_LeaseID r; rq_SessionID r]
  | OpCreateAdmissionInvite => validate_invite r
  | OpRecordEscrowLocation => validate_escrow r
  | OpVerifyAcceptedQuote => validate_quote r
  | OpExportDeviceHistory => validate_history_export r
  | OpListDeviceHistory => validate_history_list r
  | OpActionStatus | OpClaimAction => validate_action_status r
  | OpPendingActions => validate_listing r
  | OpGrantAction => validate_grant r
  | OpDenyAction => validate_denial r
  | OpRefuse => validate_refusal r
  | OpOther _ => Err (NewError "unknown local operation")
  end.

Definition ValidateRequest (r : Request) : result unit :=
  refuse negb (known_operation (rq_Op r)) with NewError "unknown local operation";
  call carries_authority r;
  call carries_only r;
  validate_operation r.

(** [DecodeRequest], on what [encoding/json] decoded: the schema gates the operations, then the shape is checked. *)
Definition schema_at_least (schemas : list string) (r : Request) : bool := bool_decide (rq_Schema r ∈ schemas).
Definition DecodeRequest (decoded : result Request) : result Request :=
  let* r := decoded in
  let v15 := [RequestSchema] in
  let v14 := v15 ++ [RequestSchemaV14] in
  let v13 := v14 ++ [RequestSchemaV13] in
  let v12 := v13 ++ [RequestSchemaV12] in
  let v11 := v12 ++ [RequestSchemaV11] in
  let v6 := v11 ++ [RequestSchemaV10; RequestSchemaV9; RequestSchemaV8; RequestSchemaV7; RequestSchemaV6] in
  let op := rq_Op r in
  refuse negb (schema_at_least v6 r) with NewError "unsupported request schema";
  refuse negb (schema_at_least v11 r) && (op == OpSendDirectApplication)
    with NewError "direct application sending requires local request v11";
  refuse negb (schema_at_least v12 r)
      && ((op == OpPendingAgentGifts) || (op == OpClaimAgentGift) || (op == OpPendingAgreements) || (op == OpClaimAgreement))
    with NewError "typed economic inbox operations require local request v12";
  refuse negb (schema_at_least v13 r) && ((op == OpEconomicSendDirect) || (op == OpEconomicActionStatus))
    with NewError "economic side-effect operations require local request v13";
  refuse negb (schema_at_least v14 r) && ((op == OpPendingPrivateHandoffs) || (op == OpClaimPrivateHandoff))
    with NewError "private handoff inbox operations require local request v14";
  refuse negb (schema_at_least v15 r) && ((op == OpPendingCommerceProfileEvents) || (op == OpClaimCommerceProfileEvent))
    with NewError "commerce profile inbox operations require local request v15";
  call ValidateRequest r;
  Ok r.

(** ** What the owner signs *)

Definition DomainOwnerDecision : string := "tos.messaging.owner-decision.v1" +:+ NUL.

Definition decision_head (r : Request) (challenge : string) : list field :=
  [FText RequestSchema; FText (op_text (rq_Op r)); FText challenge; FText (rq_EventID r); FText (rq_ActionID r);
   FText (rq_MandateID r); FText (rq_Code r); FText (rq_Reason r); FText (rq_InvitedAgentID r);
   FUint64 (rq_InviteExpiresAtUnix r)].
Definition decision_escrow (r : Request) : list field :=
  if bool_decide (rq_Op r = OpRecordEscrowLocation)
  then [FText (rq_QuoteCommitment r); FText (rq_EscrowAddress r); FText (rq_CapabilityClass r)] else [].
Definition decision_history (r : Request) : list field :=
  if bool_decide (rq_Op r = OpExportDeviceHistory)
  then [FText (rq_TargetDeviceID r); FText (rq_ConversationID r); FUint64 (rq_HistorySequence r);
        FText (rq_PreviousSegmentDigest r); FUint64 (rq_AfterCreatedAtUnix r); FText (rq_AfterEventID r);
        FUint32 (u32 (rq_Limit r)); FText (rq_IdempotencyKey r); FUint64 (rq_ExpiresAtUnix r)] else [].
Definition decision_mandate (m : MandateTerms) (root file : bytes) : list field :=
  [FText (mt_Objective m); FText (mt_Authority m); FText (mt_CapabilityClass m); FText (ai_NetworkID (mt_Asset m));
   FBytes root; FBytes file; FUint32 (u32 (ai_Workchain (mt_Asset m))); FText (ai_AccountID (mt_Asset m));
   FText (ai_MasterCodeHash (mt_Asset m)); FText (ai_WalletCodeHash (mt_Asset m)); FUint32 (ai_Decimals (mt_Asset m));
   FText (mt_MaxTotalAtomic m); FText (mt_ApprovalAboveAtomic m); FUint32 (mt_MaxCounteroffers m); FUint64 (mt_ExpiresAtUnix m)].

(** The writer calls in order; none of them can fail. *)
Definition write_all (buffer : bytes) (fs : list field) : bytes :=
  fold_left (fun b f =>
    match f with
    | FText s => canon_Text b s
    | FBytes x => canon_Bytes b x
    | FUint32 z => canon_Uint32 b z
    | FUint64 z => canon_Uint64 b z
    | FHash32 _ => b
    end) fs buffer.

Definition DecisionBytes (r : Request) (challenge : string) : result bytes :=
  refuse negb (Deciding (rq_Op r)) with NewError "this operation is not an owner decision";
  refuse negb (challengePattern challenge) with NewError "invalid decision challenge";
  let buffer := write_all (bytes_of_string DomainOwnerDecision) (decision_head r challenge) in
  let buffer := write_all buffer (decision_escrow r) in
  let buffer := write_all buffer (decision_history r) in
  match rq_Mandate r with
  | None => Ok buffer
  | Some m =>
      match hex_decode (ai_GenesisRootHash (mt_Asset m)), hex_decode (ai_GenesisFileHash (mt_Asset m)) with
      | Some root, Some file =>
          refuse negb (blen root =? 32) || negb (blen file =? 32) with NewError "invalid mandate network hashes";
          Ok (write_all buffer (decision_mandate m root file))
      | _, _ => Err (NewError "invalid mandate network hashes")
      end
  end.

Definition SignDecision `{Ed25519} (r : Request) (challenge : string) (key : bytes) : result string :=
  refuse negb (blen key =? PrivateKeySize) with NewError "invalid owner signing key";
  let* preimage := DecisionBytes r challenge in
  Ok (hex_encode (ed25519_Sign key preimage)).
End Requests.

(** ** Challenges *)

Definition ChallengeBytes : Z := 32.
Definition DefaultChallengeLifetime : Z := 2 * 60 * 1000000000.
Definition MaxOutstandingChallenges : Z := 64.

(** Deadlines are in nanoseconds, like the lifetime. *)
Record challenges : Type := MkChallenges {
  ch_issued : gmap string Z;
  ch_lifetime : Z;
}.
Definition nanos (now : time) : Z := now * 1000000000.

Definition newChallenges (lifetime : Z) : challenges :=
  MkChallenges ∅ (if lifetime <=? 0 then DefaultChallengeLifetime else lifetime).

Definition challenges_expire (now : time) (c : challenges) : challenges :=
  MkChallenges (filter (fun '(_, deadline) => nanos now < deadline) (ch_issued c)) (ch_lifetime c).

(** [random] is what [crypto/rand] gave. *)
Definition challenges_issue (random : option bytes) (now : time) : action challenges string :=
  fun c =>
  match random with
  | None => (Err (NewError "could not generate a decision challenge"), c)
  | Some raw =>
      let value := hex_encode raw in
      let c := challenges_expire now c in
      if MaxOutstandingChallenges <=? Z.of_nat (size (ch_issued c))
      then (Err (NewError "too many decision challenges are outstanding"), c)
      else (Ok value, MkChallenges (<[value := nanos now + ch_lifetime c]> (ch_issued c)) (ch_lifetime c))
  end.

Definition challenges_spend (value : string) (now : time) : action challenges unit :=
  fun c =>
  let c := challenges_expire now c in
  match ch_issued c !! value with
  | None => (Err (NewError "this decision challenge was never issued, or has already been used"), c)
  | Some deadline =>
      let c' := MkChallenges (delete value (ch_issued c)) (ch_lifetime c) in
      if negb (nanos now <? deadline) then (Err (NewError "this decision challenge has expired"), c') else (Ok tt, c')
  end.

(** [authoriseDecision] *)
Definition authoriseDecision `{CommerceProtocol, Ed25519} (ownerKey : bytes) (r : Request) (now : time) : action challenges unit :=
  fun c =>
  if negb (Deciding (rq_Op r)) then (Ok tt, c) else
  match hex_decode (rq_OwnerSignature r) with
  | None => (Err (NewError "invalid owner signature"), c)
  | Some signature =>
      if negb (blen signature =? SignatureSize) then (Err (NewError "invalid owner signature"), c) else
      match DecisionBytes r (rq_Challenge r) with
      | Err e => (Err e, c)
      | Ok preimage =>
          if negb (ed25519_Verify ownerKey preimage signature)
          then (Err (NewError "this decision was not signed by the owner"), c)
          else challenges_spend (rq_Challenge r) now c
      end
  end.

(** ** Facts *)

Lemma runtime_never_decides op : Deciding op = true -> Permits PrincipalRuntime op = false /\ Permits PrincipalOwner op = true.
Proof.
  unfold Deciding. rewrite bool_decide_eq_true. unfold deciding. rewrite !elem_of_cons, elem_of_nil.
  intros Hop. repeat destruct Hop as [->|Hop]; try done; split; vm_compute; reflexivity.
Qed.

Lemma deciding_text op op' : Deciding op = true -> Deciding op' = true -> op_text op = op_text op' -> op = op'.
Proof.
  unfold Deciding. rewrite !bool_decide_eq_true. unfold deciding. rewrite !elem_of_cons, !elem_of_nil. intros Hop Hop'.
  repeat destruct Hop as [->|Hop]; try done; repeat destruct Hop' as [->|Hop']; try done; intros [=].
Qed.

Section Decisions.
  Context `{CommerceProtocol}.

(** What a decision decides: everything the handlers of the deciding operations read. *)
Definition decided_escrow (r : Request) := (rq_QuoteCommitment r, rq_EscrowAddress r, rq_CapabilityClass r).
Definition decided_history (r : Request) :=
  (rq_TargetDeviceID r, rq_ConversationID r, rq_HistorySequence r, rq_PreviousSegmentDigest r, rq_AfterCreatedAtUnix r,
   rq_AfterEventID r, u32 (rq_Limit r), rq_IdempotencyKey r, rq_ExpiresAtUnix r).
Definition decided_subject (r : Request) :=
  (rq_Op r, rq_EventID r, rq_ActionID r, rq_MandateID r, rq_Code r, rq_Reason r, rq_InvitedAgentID r, rq_InviteExpiresAtUnix r).
(** A mandate, with the network hashes as the bytes they spell. *)
Definition decided_mandate (m : MandateTerms) :=
  let a := mt_Asset m in
  (mt_Objective m, mt_Authority m, mt_CapabilityClass m, ai_NetworkID a, hex_decode (ai_GenesisRootHash a),
   hex_decode (ai_GenesisFileHash a), ai_Workchain a,
   (ai_AccountID a, ai_MasterCodeHash a, ai_WalletCodeHash a, ai_Decimals a, mt_MaxTotalAtomic m, mt_ApprovalAboveAtomic m,
    mt_MaxCounteroffers m, mt_ExpiresAtUnix m)).

(** The widths of Go's types; a frame holds at most two megabytes, so every string fits its length prefix. *)
Definition decision_parts (r : Request) : list field :=
  decision_head r (rq_Challenge r) ++ decision_escrow r ++ decision_history r
  ++ match rq_Mandate r with
     | None => []
     | Some m => decision_mandate m (default [] (hex_decode (ai_GenesisRootHash (mt_Asset m))))
                   (default [] (hex_decode (ai_GenesisFileHash (mt_Asset m))))
     end.
Definition request_typed (r : Request) : Prop :=
  Forall field_wf (decision_parts r)
  /\ match rq_Mandate r with None => True | Some m => - 2 ^ 31 <= ai_Workchain (mt_Asset m) < 2 ^ 31 end.

Lemma write_all_bytes buffer fs : Forall (fun f => match f with FHash32 _ => False | _ => True end) fs ->
  write_all buffer fs = buffer ++ fields_bytes fs.
Proof.
  intros Hf. revert buffer. induction Hf as [|f fs Hf _ IH]; intros buffer; [by rewrite fields_bytes_nil, app_nil_r|].
  cbn [write_all fold_left]. fold (write_all (match f with FText s => canon_Text buffer s | FBytes x => canon_Bytes buffer x
    | FUint32 z => canon_Uint32 buffer z | FUint64 z => canon_Uint64 buffer z | FHash32 _ => buffer end) fs).
  rewrite IH, fields_bytes_cons, app_assoc. f_equal.
  destruct f; try done; cbn [field_bytes]; unfold canon_Text, canon_Bytes, canon_Uint32; by rewrite <- ?app_assoc.
Qed.

Lemma DecisionBytes_form r b : DecisionBytes r (rq_Challenge r) = Ok b ->
  Deciding (rq_Op r) = true /\ b = bytes_of_string DomainOwnerDecision ++ fields_bytes (decision_parts r)
  /\ match rq_Mandate r with
     | None => True
     | Some m => is_Some (hex_decode (ai_GenesisRootHash (mt_Asset m))) /\ is_Some (hex_decode (ai_GenesisFileHash (mt_Asset m)))
     end.
Proof.
  unfold DecisionBytes. intros Hb. destruct (Deciding (rq_Op r)) eqn:Ed; [|done]. cbn [negb] in Hb.
  destruct (negb (challengePattern _)); [done|]. split; [done|].
  assert (forall buffer, write_all buffer (decision_escrow r) = buffer ++ fields_bytes (decision_escrow r)) as He.
  { intros. apply write_all_bytes. unfold decision_escrow. case_bool_decide; repeat constructor. }
  assert (forall buffer, write_all buffer (decision_history r) = buffer ++ fields_bytes (decision_history r)) as Hh.
  { intros. apply write_all_bytes. unfold decision_history. case_bool_decide; repeat constructor. }
  rewrite Hh, He, (write_all_bytes _ (decision_head _ _)) in Hb by repeat constructor.
  unfold decision_parts. destruct (rq_Mandate r) as [m|].
  - destruct (hex_decode (ai_GenesisRootHash _)) as [root|]; [|done]. destruct (hex_decode (ai_GenesisFileHash _)) as [file|]; [|done].
    destruct (_ || _); [done|]. rewrite write_all_bytes in Hb by repeat constructor. apply Ok_inj in Hb as <-.
    split; [|eauto]. cbn [default]. rewrite !fields_bytes_app, <- !app_assoc. done.
  - apply Ok_inj in Hb as <-. rewrite app_nil_r, !fields_bytes_app, <- !app_assoc. done.
Qed.

Lemma parts_inj (fs gs fs' gs' : list field) :
  List.map field_tag fs = List.map field_tag gs -> Forall field_wf (fs ++ fs') -> Forall field_wf (gs ++ gs') ->
  fields_bytes (fs ++ fs') = fields_bytes (gs ++ gs') ->
  fs = gs /\ fields_bytes fs' = fields_bytes gs' /\ Forall field_wf fs' /\ Forall field_wf gs'.
Proof.
  intros Ht [Hf Hf']%Forall_app [Hg Hg']%Forall_app E. rewrite !fields_bytes_app in E.
  apply fields_bytes_inj in E as [-> E]; [done|]. by apply same_kind_wf.
Qed.

(** C14: The owner's signature covers the whole decision.  Two requests, with
    challenges, that give the same bytes to sign carry the same challenge and decide
    the same: operation, subject, code and reason, the terms of an invite, of an escrow
    location and of a history export, and the mandate, whose network hashes are
    compared as the bytes they spell. *)
Theorem decision_binds r r' b :
  request_typed r -> request_typed r' ->
  DecisionBytes r (rq_Challenge r) = Ok b -> DecisionBytes r' (rq_Challenge r') = Ok b ->
  rq_Challenge r = rq_Challenge r' /\ decided_subject r = decided_subject r'
  /\ (rq_Op r = OpRecordEscrowLocation -> decided_escrow r = decided_escrow r')
  /\ (rq_Op r = OpExportDeviceHistory -> decided_history r = decided_history r')
  /\ option_map decided_mandate (rq_Mandate r) = option_map decided_mandate (rq_Mandate r').
Proof.
  intros [Hw Hm] [Hw' Hm'] (Ed & Eb & Hx)%DecisionBytes_form (Ed' & Eb' & Hx')%DecisionBytes_form.
  assert (fields_bytes (decision_parts r) = fields_bytes (decision_parts r')) as E.
  { rewrite Eb in Eb'. by apply app_inv_head in Eb'. }
  clear Eb Eb' b. unfold decision_parts in *.
  apply parts_inj in E as (Eh & E & Hwe & Hwe'); [|reflexivity|done|done].
  unfold decision_head in Eh. injection Eh as Eop Ec E1 E2 E3 E4 E5 E6 E7. apply deciding_text in Eop; [|done..].
  apply parts_inj in E as (Ee & E & Hwh & Hwh'); [|unfold decision_escrow; rewrite Eop; by case_bool_decide|done|done].
  apply parts_inj in E as (Eh & E & Hwm & Hwm'); [|unfold decision_history; rewrite Eop; by case_bool_decide|done|done].
  split_and!; [done|unfold decided_subject; congruence| | |].
  - intros Hop. unfold decision_escrow in Ee. rewrite <- Eop, bool_decide_true in Ee by done. unfold decided_escrow. congruence.
  - intros Hop. unfold decision_history in Eh. rewrite <- Eop, bool_decide_true in Eh by done. unfold decided_history. congruence.
  - destruct (rq_Mandate r) as [m|], (rq_Mandate r') as [m'|]; cbn [option_map]; [|by apply (f_equal length) in E..|done].
    apply (object_bytes_inj []) in E; [|reflexivity|done|done].
    destruct Hx as [[root Er] [file Ef]], Hx' as [[root' Er'] [file' Ef']]. rewrite Er, Ef, Er', Ef' in E. cbn [default] in E.
    unfold decision_mandate in E. unfold decided_mandate. rewrite Er, Er', Ef, Ef'.
    injection E as -> -> -> -> <- <- Ewc -> -> -> -> -> -> -> ->.
    assert (ai_Workchain (mt_Asset m) = ai_Workchain (mt_Asset m')) as -> by (unfold u32 in Ewc; dlia). done.
Qed.
End Decisions.

(** ** Challenges are used once *)

Inductive challenge_op : Type :=
  | Issue (random : option bytes) (now : time)
  | Spend (value : string) (now : time).
Definition challenge_step (c : challenges) (op : challenge_op) : challenges :=
  match op with
  | Issue random now => (challenges_issue random now c).2
  | Spend value now => (challenges_spend value now c).2
  end.
Definition challenge_run (ops : list challenge_op) (c : challenges) : challenges := fold_left challenge_step ops c.

Lemma challenge_run_lifetime ops c : ch_lifetime (challenge_run ops c) = ch_lifetime c.
Proof.
  revert c. induction ops as [|op ops IH]; intros c; [done|].
  change (challenge_run (op :: ops) c) with (challenge_run ops (challenge_step c op)). rewrite IH. destruct op as [[raw|] now|v now]; cbn [challenge_step]; try done.
  - unfold challenges_issue. by destruct (_ <=? _).
  - unfold challenges_spend. destruct (ch_issued _ !! v); [by destruct (negb _)|done].
Qed.

Lemma expire_lookup now c v d : ch_issued (challenges_expire now c) !! v = Some d <-> ch_issued c !! v = Some d /\ nanos now < d.
Proof. unfold challenges_expire. cbn [ch_issued]. by rewrite map_lookup_filter_Some. Qed.

(** An outstanding challenge was issued in the past and not presented since. *)
Definition issued_in (ops : list challenge_op) (lifetime : Z) (v : string) (deadline : Z) : Prop :=
  exists pre raw at_ post, ops = pre ++ Issue (Some raw) at_ :: post /\ hex_encode raw = v /\ deadline = nanos at_ + lifetime
  /\ forall now, Spend v now ∉ post.

Lemma issued_snoc ops lifetime v d op : issued_in ops lifetime v d -> (forall now, op <> Spend v now) ->
  issued_in (ops ++ [op]) lifetime v d.
Proof.
  intros (pre & raw & at_ & post & -> & Hv & Hd & Hp) Hne. exists pre, raw, at_, (post ++ [op]). rewrite <- app_assoc.
  split_and!; try done. intros now [?|?%list_elem_of_singleton]%elem_of_app; [by eapply Hp|by eapply Hne].
Qed.

Lemma challenge_run_issued ops c v d : ch_issued c = ∅ -> ch_issued (challenge_run ops c) !! v = Some d ->
  issued_in ops (ch_lifetime c) v d.
Proof.
  intros Hc. revert v d. induction ops as [|op ops IH] using rev_ind; intros v d Hv.
  { cbn in Hv. by rewrite Hc in Hv. }
  unfold challenge_run in Hv. rewrite fold_left_app in Hv. cbn [fold_left] in Hv. fold (challenge_run ops c) in Hv.
  pose proof (challenge_run_lifetime ops c) as Hl. destruct op as [[raw|] now|value now]; cbn [challenge_step] in Hv.
  - unfold challenges_issue in Hv. destruct (MaxOutstandingChallenges <=? _); cbn [snd] in Hv.
    + apply expire_lookup in Hv as [Hv _]. apply issued_snoc; [by apply IH|done].
    + cbn [ch_issued] in Hv. apply lookup_insert_Some in Hv as [[<- <-]|[Hne Hv]].
      * exists ops, raw, now, []. split_and!; [done|done|by rewrite <- Hl|]. intros ?. by apply not_elem_of_nil.
      * apply expire_lookup in Hv as [Hv _]. apply issued_snoc; [by apply IH|done].
  - apply issued_snoc; [by apply IH|done].
  - unfold challenges_spend in Hv.
    assert (ch_issued (challenges_expire now (challenge_run ops c)) !! v = Some d /\ v <> value) as [Hv' Hne].
    { destruct (ch_issued (challenges_expire _ _) !! value) as [x|] eqn:Ex.
      - assert (delete value (ch_issued (challenges_expire now (challenge_run ops c))) !! v = Some d) as Hdel
          by (by destruct (negb (nanos now <? x))).
        apply lookup_delete_Some in Hdel as [? ?]. by split.
      - cbn [snd] in Hv. split; [done|]. intros ->. by rewrite Ex in Hv. }
    apply expire_lookup in Hv' as [Hv' _]. apply issued_snoc; [by apply IH|]. intros n [= -> _]. done.
Qed.

(** The bound on outstanding challenges. *)
Lemma challenges_bounded ops lifetime : Z.of_nat (size (ch_issued (challenge_run ops (newChallenges lifetime)))) <= MaxOutstandingChallenges.
Proof.
  assert (forall now c, Z.of_nat (size (ch_issued (challenges_expire now c))) <= Z.of_nat (size (ch_issued c))) as Hexp.
  { intros now c. apply inj_le. apply map_subseteq_size, map_filter_subseteq. }
  induction ops as [|op ops IH] using rev_ind; [done|].
  unfold challenge_run. rewrite fold_left_app. cbn [fold_left]. fold (challenge_run ops (newChallenges lifetime)).
  destruct op as [[raw|] now|value now]; cbn [challenge_step]; [| exact IH |].
  - unfold challenges_issue. specialize (Hexp now (challenge_run ops (newChallenges lifetime))).
    destruct (MaxOutstandingChallenges <=? _) eqn:Ef; cbn [snd ch_issued]; [lia|]. apply Z.leb_gt in Ef.
    rewrite map_size_insert. destruct (_ !! hex_encode raw); unfold id; lia.
  - unfold challenges_spend. specialize (Hexp now (challenge_run ops (newChallenges lifetime))).
    destruct (_ !! value); [destruct (negb _)|]; cbn [snd ch_issued]; rewrite ?map_size_delete;
      repeat (destruct (_ !! value); unfold id in * ); lia.
Qed.

(** A challenge authorises one decision, in time.  Whatever was issued and
    presented before, a challenge is accepted only when it was issued, less than the
    lifetime ago, and not presented since; and it is not outstanding afterwards.  At
    most sixty-four are ever outstanding. *)
Theorem challenge_single_use ops lifetime v now c' :
  challenges_spend v now (challenge_run ops (newChallenges lifetime)) = (Ok tt, c') ->
  (exists pre raw at_ post, ops = pre ++ Issue (Some raw) at_ :: post /\ hex_encode raw = v
     /\ nanos now < nanos at_ + ch_lifetime (newChallenges lifetime) /\ forall t, Spend v t ∉ post)
  /\ ch_issued c' !! v = None
  /\ Z.of_nat (size (ch_issued (challenge_run ops (newChallenges lifetime)))) <= MaxOutstandingChallenges.
Proof.
  unfold challenges_spend. destruct (ch_issued (challenges_expire _ _) !! v) as [d|] eqn:Ed; [|done].
  destruct (negb _) eqn:En; [done|]. intros [= <-]. split; [|split; [cbn [ch_issued]; apply lookup_delete_eq|apply challenges_bounded]].
  apply expire_lookup in Ed as [Ed Hlt]. apply challenge_run_issued in Ed as (pre & raw & at_ & post & E & Hv & -> & Hp); [|done].
  exists pre, raw, at_, post. done.
Qed.

(** ** Examples *)

#[local] Existing Instance toy_protocol.

(** A request with the fields the examples use; every other field is empty. *)
Definition request_of (op : Operation) (lease session endpoint : string) (event : bytes) (expires : Z) (action : option ProposedAction)
    (actionID reason : string) (mandate : option MandateTerms) (challenge signature mandateID : string) : Request :=
  MkRequest RequestSchema op "" lease 0 "" 0 "" event session endpoint "" expires "" "" "" 0 "" "" "" "" "" "" [] "" [] None None [] []
    "" "" action actionID reason mandate challenge signature mandateID "" 0 "" "" "" None "" 0 "" 0 "" "" "" 0 "" 0 [].

Definition sample_terms_of_mandate : MandateTerms :=
  MkMandateTerms "buy compute" "commit" "compute.gpu"
    (MkAssetIdentity "tosnet:main" sample_hash sample_hash 0 sample_hash "" "" 9) "1000" "500" 4 3000.
Definition sample_decision : Request :=
  request_of OpPlaceMandate "" "" "" [] 0 None "" "" (Some sample_terms_of_mandate) sample_hash "signature" "".

Lemma decision_binds_witness :
  is_ok (DecisionBytes sample_decision (rq_Challenge sample_decision)) = true
  /\ option_map decided_mandate (rq_Mandate sample_decision) = option_map decided_mandate (rq_Mandate sample_decision).
Proof.
  split; [vm_compute; reflexivity|].
  apply (decision_binds sample_decision sample_decision
    (match DecisionBytes sample_decision (rq_Challenge sample_decision) with Ok b => b | Err _ => [] end));
    [split; [repeat constructor; vm_compute; done|vm_compute; done]..| |]; vm_compute; reflexivity.
Defined.

(** One challenge issued at second 10 and presented at second 20. *)
Lemma challenge_single_use_witness :
  let c := challenge_run [Issue (Some [x01; x02]) 10] (newChallenges 0) in
  (challenges_spend "0102" 20 c).1 = Ok tt /\ ch_issued (challenges_spend "0102" 20 c).2 !! "0102" = None.
Proof.
  cbv zeta. split; [vm_compute; reflexivity|].
  apply (challenge_single_use [Issue (Some [x01; x02]) 10] 0 "0102" 20).
  rewrite (surjective_pairing (challenges_spend _ _ _)). f_equal.
Defined.

(** A submission that carries a lease, and a reason, passes: the queue has no lease. *)
Theorem queue_with_lease_accepted :
  ValidateRequest (request_of OpQueue ("lease_" +:+ sample_hash) ("ses_" +:+ sample_hash) ("mep_" +:+ sample_hash) [x01] 100 None
    "" "because" None "" "" "") = Ok tt.
Proof. vm_compute. reflexivity. Qed.
