(* ===== verification/LocalServer.v ===== *)
(** * The local interface: the server ([pkg/localapi/server.go])

    The handlers behind [LocalApi.v], and [handle], which decodes a request, checks
    that the principal may perform it and, where it decides something, that the owner
    signed it.  A proposed action goes to the firewall; a spend is judged under the
    mandate the owner placed, bound to one economic execution, held against the durable
    budget of the mandate, and authorised once.

    State: the installation ([Devices.v]), the owner's approvals, mandates and
    budgets ([Approvals.v]), the economic action store ([Economic.v]) and the
    outstanding challenges.  Operations that go to the dispatcher, the attachment
    emitter, the contact resolver and the direct-message sender are arguments. *)

From S2P Require Import Prelude Encoding Canon Files Fault Json Money Terms Payload Firewall Budget Negotiation Commerce Delivery.
From S2P Require Import Identity E2ee Journal Inbound Room Rooms Envelope Devices Invites Approvals Economic LocalApi.

Definition CodeNotAuthentic : Code := "not-authentic".
Definition CodeReplayed : Code := "replayed".
Definition CodeClassNotDelegated : Code := "class-not-delegated".
Definition CodeUnknownEventKind : Code := "unknown-event-kind".

(** ** Answers *)

Record PendingEvent : Type := MkPendingEvent {
  pe_EventID : string;
  pe_SenderEndpointID : string;
  pe_ConversationID : string;
  pe_ReceivedAtUnix : Z;
  pe_Event : bytes;
}.

Record WaitingAction : Type := MkWaiting {
  wa_ActionID : string;
  wa_Effect : string;
  wa_Summary : string;
  wa_IdempotencyKey : string;
  wa_Reason : string;
  wa_Origins : list ActionOrigin;
  wa_Terms : option Terms;
  wa_Physical : option PhysicalOperation;
  wa_AskedAtUnix : Z;
}.

Record HeldMandate : Type := MkHeld {
  hm_MandateID : string;
  hm_Objective : string;
  hm_Authority : string;
  hm_CapabilityClass : string;
  hm_Asset : AssetIdentity;
  hm_MaxTotalAtomic : string;
  hm_ApprovalAboveAtomic : string;
  hm_MaxCounteroffers : Z;
  hm_ExpiresAtUnix : Z;
  hm_PlacedAtUnix : Z;
  hm_RevokedAtUnix : Z;
}.

(** The fields of [Response] the handlers below set.  [EncodeResponse] sets the schema. *)
Record Response : Type := MkApiResponse {
  lr_OK : bool;
  lr_Code : Code;
  lr_Detail : string;
  lr_Events : list PendingEvent;
  lr_Event : option PendingEvent;
  lr_Fresh : bool;
  lr_EventID : string;
  lr_AgentID : string;
  lr_CanonicalName : string;
  lr_ConversationID : string;
  lr_Readiness : string;
  lr_EconomicResolution : option ActionResolution;
  lr_Actions : list WaitingAction;
  lr_ActionID : string;
  lr_Decision : string;
  lr_Authorised : bool;
  lr_State : string;
  lr_Mandates : list HeldMandate;
  lr_MandateID : string;
  lr_Challenge : string;
  lr_AdmissionToken : string;
}.

(** The answers the handlers build; what is not named is empty. *)
Definition done_ok : Response :=
  MkApiResponse true "" "" [] None false "" "" "" "" "" None [] "" "" false "" [] "" "" "".
Definition listed_events (events : list PendingEvent) : Response :=
  MkApiResponse true "" "" events None false "" "" "" "" "" None [] "" "" false "" [] "" "" "".
Definition claimed_event (event : PendingEvent) : Response :=
  MkApiResponse true "" "" [] (Some event) false "" "" "" "" "" None [] "" "" false "" [] "" "" "".
Definition was_fresh (fresh : bool) : Response :=
  MkApiResponse true "" "" [] None fresh "" "" "" "" "" None [] "" "" false "" [] "" "" "".
Definition action_answer (id decision detail state : string) (authorised : bool) : Response :=
  MkApiResponse true "" detail [] None false "" "" "" "" "" None [] id decision authorised state [] "" "" "".
Definition listed_actions (actions : list WaitingAction) : Response :=
  MkApiResponse true "" "" [] None false "" "" "" "" "" None actions "" "" false "" [] "" "" "".
Definition listed_mandates (mandates : list HeldMandate) : Response :=
  MkApiResponse true "" "" [] None false "" "" "" "" "" None [] "" "" false "" mandates "" "" "".
Definition mandate_answer (id : string) : Response :=
  MkApiResponse true "" "" [] None false "" "" "" "" "" None [] "" "" false "" [] id "" "".
Definition challenge_answer (value : string) : Response :=
  MkApiResponse true "" "" [] None false "" "" "" "" "" None [] "" "" false "" [] "" value "".
Definition token_answer (token : string) : Response :=
  MkApiResponse true "" "" [] None false "" "" "" "" "" None [] "" "" false "" [] "" "" token.
Definition resolution_answer (r : ActionResolution) : Response :=
  MkApiResponse true "" "" [] None false "" "" "" "" "" (Some r) [] "" "" false "" [] "" "" "".
Definition sent_answer (agent name conversation event readiness : string) (r : ActionResolution) : Response :=
  MkApiResponse true "" "" [] None false event agent name conversation readiness (Some r) [] "" "" false "" [] "" "" "".
Definition local_refuse (code : Code) (e : error) : Response :=
  MkApiResponse false code (error_text e) [] None false "" "" "" "" "" None [] "" "" false "" [] "" "" "".

Definition outcome_text (o : Firewall.Outcome) : string :=
  match o with Allow => "allow" | RequireOwnerApproval => "require-owner-approval" | Refuse => "refuse" end.
Definition state_text (s : ApprovalState) : string :=
  match s with ApprovalPending => "pending" | ApprovalGranted => "granted" | ApprovalSpent => "spent" | ApprovalDenied => "denied" end.

(** [claimCode]; [errors.Is] compares sentinels. *)
Definition claimCode (e : error) : Code :=
  if bool_decide (e = ErrUnknown) then CodeUnknownEventKind
  else if bool_decide (e = ErrLeaseMismatch) || bool_decide (e = ErrNotPending) || bool_decide (e = ErrNotAdmitted) then CodeReplayed
  else if bool_decide (e = ErrApplicationKind) then CodeClassNotDelegated
  else CodeInternal.

(** ** Conversions *)

Definition toOrigin (o : ActionOrigin) : Origin :=
  MkOrigin (an_AgentID o) (an_EndpointID o) (an_DeviceID o) (an_EventID o) (an_ConversationID o) (an_Kind o) (an_ReceivedAtUnix o).
Definition toAction (p : ProposedAction) : Action :=
  MkAction (pa_Effect p) (pa_Summary p) (pa_IdempotencyKey p) (List.map toOrigin (pa_Derived p)) (option_map toTerms (pa_Terms p))
    (pa_Physical p).
Definition toApprovalOrigin (o : Origin) : ApprovalOrigin :=
  MkApprovalOrigin (o_AgentID o) (o_EndpointID o) (o_DeviceID o) (o_EventID o) (o_ConversationID o) (o_Kind o) (o_ReceivedAtUnix o).
Definition toApprovalOrigins : list Origin -> list ApprovalOrigin := List.map toApprovalOrigin.
Definition fromApprovalOrigin (o : ApprovalOrigin) : ActionOrigin :=
  MkActionOrigin (ao_AgentID o) (ao_EndpointID o) (ao_DeviceID o) (ao_EventID o) (ao_ConversationID o) (ao_Kind o) (ao_ReceivedAtUnix o).
Definition fromApprovalOrigins : list ApprovalOrigin -> list ActionOrigin := List.map fromApprovalOrigin.
Definition firewallOrigin (o : ApprovalOrigin) : Origin :=
  MkOrigin (ao_AgentID o) (ao_EndpointID o) (ao_DeviceID o) (ao_EventID o) (ao_ConversationID o) (ao_Kind o) (ao_ReceivedAtUnix o).
Definition firewallOrigins : list ApprovalOrigin -> list Origin := List.map firewallOrigin.

Definition assetIdentityOf (m : StoredMandate) : AssetIdentity :=
  MkAssetIdentity (sm_AssetNetworkID m) (sm_AssetGenesisRootHash m) (sm_AssetGenesisFileHash m) (sm_Workchain m)
    (sm_AssetAccountID m) (sm_AssetMasterCodeHash m) (sm_AssetWalletCodeHash m) (sm_AssetDecimals m).
Definition toMandate (m : StoredMandate) : result Mandate :=
  let asset := toAsset (assetIdentityOf m) in
  let mandate := MkMandate (sm_Objective m) (sm_Authority m) (sm_CapabilityClass m) (MkMoney asset (sm_MaxTotalAtomic m))
                   (MkMoney asset (sm_ApprovalAboveAtomic m)) (sm_MaxCounteroffers m) (sm_ExpiresAtUnix m) in
  call Mandate_Validate mandate;
  Ok mandate.

Section Approving.
  Context `{JO : JSONObjects}.
(** The action a stored approval describes, and whether it is the one its identifier names. *)
Definition approved_action (a : Approval) : Action :=
  let q := ap_Request a in
  MkAction (aq_Effect q) (aq_Summary q) (aq_IdempotencyKey q) (firewallOrigins (aq_Origins q)) (aq_Terms q) (aq_Physical q).
Definition approvalReproducesID (a : Approval) : bool :=
  match ActionID (approved_action a) with Ok recomputed => String.eqb recomputed (ap_ActionID a) | Err _ => false end.
End Approving.

(** ** The inbox *)

Definition pendingEvent (r : EventRecord) : result PendingEvent :=
  let* payload := Record_Payload r in
  refuse negb (match parse_json payload with Some (_, rest) => Nat.eqb (length (skip_space rest)) 0 | None => false end)
    with NewError "stored event is not a document";
  Ok (MkPendingEvent (rc_EventID r) (rc_SenderEndpointID r) (rc_ConversationID r) (rc_ReceivedAtUnix r) payload).

Definition agentGiftApplicationKind (kind : string) : bool := bool_decide (kind ∈ gift_kinds).
Definition agreement_kinds : list string :=
  ["intent.application"; "agreement.propose"; "agreement.accept"; "agreement.evidence"; "agreement.withdraw"; "agreement.delivery";
   "agreement.provider-offer"].
Definition agreementApplicationKind (kind : string) : bool := bool_decide (kind ∈ agreement_kinds).
Definition handoff_kinds : list string :=
  ["private.handoff.challenge"; "private.handoff.authorization"; "private.handoff.acknowledgement"; "private.handoff.status";
   "private.handoff.delete"].
Definition privateHandoffApplicationKind (kind : string) : bool := bool_decide (kind ∈ handoff_kinds).
Definition profile_kinds : list string := ["commerce.profile-event"; "operation.outcome"].
Definition daemonApplicationKind (kind : string) : bool :=
  bool_decide (kind ∈ ["agent.packet"; "device.history.segment"; "artifact.encrypted"; "a2a.message"; "mcp.call"; "mcp.result";
                       "commerce.profile-event"; "operation.outcome"])
  || agentGiftApplicationKind kind || agreementApplicationKind kind || privateHandoffApplicationKind kind.
(** The kinds [claim] excludes, as the code lists them. *)
Definition claim_excluded : list string :=
  ["agent.packet"; "device.history.segment"; "artifact.encrypted"; "a2a.message"; "mcp.call"; "mcp.result";
   "agent.gift.address-request"; "agent.gift.address-response"; "agent.gift.signed-boc-offer";
   "intent.application"; "agreement.propose"; "agreement.accept"; "agreement.evidence"; "agreement.withdraw"; "agreement.delivery";
   "agreement.provider-offer"; "commerce.profile-event"; "operation.outcome";
   "private.handoff.challenge"; "private.handoff.authorization"; "private.handoff.acknowledgement"; "private.handoff.status";
   "private.handoff.delete"].

Definition listing_limit (limit : Z) : Z := if (limit =? 0) || (MaxEventsPerResponse <? limit) then MaxEventsPerResponse else limit.

Section Inbox.
  Context `{PR : Protocol} `{AF : AttachmentFormats}.
(** The loop of the listings: damaged records and kinds that are not wanted are skipped, until the limit. *)
Fixpoint offer_events (wanted : string -> bool) (limit : nat) (records : list EventRecord) : list PendingEvent :=
  match records, limit with
  | [], _ | _, O => []
  | r :: rest, S limit' =>
      match pendingEvent r with
      | Err _ => offer_events wanted limit rest
      | Ok event =>
          match DecodeEventJSON (pe_Event event) with
          | Err _ => offer_events wanted limit rest
          | Ok decoded =>
              if wanted (ev_Kind decoded) then event :: offer_events wanted limit' rest else offer_events wanted limit rest
          end
      end
  end.

Definition list_events (wanted : string -> bool) (limit : Z) (now : time) (j : Journal) : Response :=
  match ListPending now 0 j with
  | Err e => local_refuse CodeInternal e
  | Ok records => listed_events (offer_events wanted (Z.to_nat (listing_limit limit)) records)
  end.
Definition api_pending limit now j := list_events (fun k => negb (daemonApplicationKind k)) limit now j.
Definition pendingAgentGifts limit now j := list_events agentGiftApplicationKind limit now j.
Definition pendingAgreements limit now j := list_events agreementApplicationKind limit now j.
Definition pendingPrivateHandoffs limit now j := list_events privateHandoffApplicationKind limit now j.
Definition pendingCommerceProfileEvents limit now j := list_events (fun k => bool_decide (k ∈ profile_kinds)) limit now j.
End Inbox.

(** [time.Duration(seconds) * time.Second] *)
Definition lease_duration (seconds : Z) : Z := i64 (u64 (i64 (u64 seconds) * Second)).

Definition answer_claim (claim : result EventRecord * Journal) : Response * Journal :=
  match claim with
  | (Err e, j) => (local_refuse (claimCode e) e, j)
  | (Ok r, j) => (match pendingEvent r with Err e => local_refuse CodeInternal e | Ok event => claimed_event event end, j)
  end.
Definition api_claim w (event lease : string) now seconds (j : Journal) :=
  answer_claim (ClaimForApplicationExceptKinds w event lease now (lease_duration seconds) claim_excluded j).
Definition claimAgentGift w (event lease : string) now seconds (j : Journal) :=
  answer_claim (ClaimForApplicationKinds w event lease now (lease_duration seconds) gift_kinds j).
Definition claimAgreement w (event lease : string) now seconds (j : Journal) :=
  answer_claim (ClaimForApplicationKinds w event lease now (lease_duration seconds) agreement_kinds j).
Definition claimPrivateHandoff w (event lease : string) now seconds (j : Journal) :=
  answer_claim (ClaimForApplicationKinds w event lease now (lease_duration seconds) handoff_kinds j).
Definition claimCommerceProfileEvent w (event lease : string) now seconds (j : Journal) :=
  answer_claim (ClaimForApplicationKinds w event lease now (lease_duration seconds) profile_kinds j).

Definition answer_done {A S} (r : result A * S) : Response * S :=
  match r with (Err e, s) => (local_refuse (claimCode e) e, s) | (Ok _, s) => (done_ok, s) end.
Definition api_complete w (event lease : string) now (j : Journal) := answer_done (CompleteApplication w event lease now j).
Definition api_reject w (event lease : string) (code : Code) now (j : Journal) :=
  answer_done (RejectApplication w event lease (if String.eqb code "" then CodeInternal else code) now j).
Definition awaitingAdmission (limit : Z) (now : time) (j : Journal) : Response :=
  match ListAwaitingAdmission now (listing_limit limit) j with
  | Err e => local_refuse CodeInternal e
  | Ok records => listed_events (omap (fun r => match pendingEvent r with Ok e => Some e | Err _ => None end) records)
  end.
Definition api_admit w (event : string) now (j : Journal) := answer_done (AdmitEvent w event now j).
Definition refuseEvent w (event : string) (code : Code) now (j : Journal) :=
  answer_done (DenyEvent w event (if String.eqb code "" then CodeRejected else code) now j).
Definition api_approve w (event : string) now (o : Outbox) := answer_done (Resume w event now o).
Definition api_deny w (event : string) now (o : Outbox) := answer_done (Abandon w event now o).

(** ** Actions *)

Section Actions.
  Context `{JO : JSONObjects}.

Definition spendMandate (mandateID : string) (s : Owner) : result Mandate :=
  let* found := LookupMandate mandateID s in
  match found with
  | None => Err ErrMandateUnknown
  | Some stored =>
      refuse negb (sm_RevokedAtUnix stored =? 0) with Sentinel "this mandate was withdrawn";
      toMandate stored
  end.

Definition reserveMandateBudget (mandateID : string) (mandate : Mandate) (executionID : string) (price : Money)
    : action Owner unit :=
  fun s =>
  match OpenMandateBudgetLedger mandateID (mo_Asset (m_MaxTotal mandate)) (ow_budgets s) with
  | Err e => (Err e, s)
  | Ok handle =>
      match OpenBudget (m_MaxTotal mandate) (Some (MkDiskLedger handle (ow_budgets s))) with
      | (Ok budget, Some ledger) =>
          let '(r, (_, ledger)) := Budget_Reserve executionID price (budget, ledger) in
          (r, with_budgets s (dk_disk ledger))
      | (Ok _, None) => (Err (NewError "a budget needs somewhere to survive a restart"), s)
      | (Err e, Some ledger) => (Err e, with_budgets s (dk_disk ledger))
      | (Err e, None) => (Err e, s)
      end
  end.

(** The approval request of a spend. *)
Definition spend_request_of (mandateID : string) (action : Action) (actionID reason : string) (provenance : list Origin) (now : time)
    : ApprovalRequest :=
  MkApprovalRequest actionID (ac_Effect action) (ac_Summary action) "" reason (toApprovalOrigins provenance) (ac_Terms action) None
    mandateID (u64 now).

Definition escalateSpend (w : write_outcome) (mandateID : string) (action : Action) (actionID : string) (provenance : list Origin)
    (reason : string) (now : time) (s : Owner) : Response * Owner :=
  match RequestApproval w (spend_request_of mandateID action actionID reason provenance now) s with
  | (Err e, s) => (local_refuse CodeInternal e, s)
  | (Ok approval, s) => (action_answer actionID (outcome_text RequireOwnerApproval) reason (state_text (ap_State approval)) false, s)
  end.

Definition bound_elsewhere (actionID detail : string) : Response := action_answer actionID (outcome_text Refuse) detail "" false.

(** An allowed spend: bound to its execution, held, then authorised. *)
Definition allowed_spend (w1 w2 : write_outcome) (mandateID : string) (mandate : Mandate) (action : Action) (terms : Terms)
    (actionID : string) (decision : fw_Decision) (now : time) (s : Owner) : Response * Owner :=
  match ExecutionID mandateID terms with
  | Err e => (local_refuse CodeInternal e, s)
  | Ok executionID =>
      match ClaimEconomicExecution w1 executionID actionID now s with
      | (Err e, s) => (local_refuse CodeInternal e, s)
      | (Ok (bound, fresh), s) =>
          if negb fresh && negb (String.eqb bound actionID)
          then (bound_elsewhere actionID "this purchase is already authorised under another action", s) else
          match reserveMandateBudget mandateID mandate executionID (t_Price terms) s with
          | (Err e, s) =>
              if negb (bool_decide (e = ErrBudgetExceeded)) then (local_refuse CodeInternal e, s)
              else escalateSpend w2 mandateID action actionID (d_Provenance decision) "would exceed the mandate's remaining budget" now s
          | (Ok _, s) =>
              match RecordAutoAuthorization w2 (spend_request_of mandateID action actionID
                      "allowed by policy, inside the owner's mandate" (d_Provenance decision) now) s with
              | (Err e, s) => (local_refuse CodeInternal e, s)
              | (Ok approval, s) =>
                  (action_answer actionID (outcome_text (d_Outcome decision)) (d_Reason decision) (state_text (ap_State approval)) false, s)
              end
          end
      end
  end.

(** A spend the owner decides: held where it fits, then asked. *)
Definition asked_spend (w : write_outcome) (mandateID : string) (mandate : Mandate) (action : Action) (terms : Terms)
    (actionID : string) (decision : fw_Decision) (now : time) (s : Owner) : Response * Owner :=
  match ExecutionID mandateID terms with
  | Err e => (local_refuse CodeInternal e, s)
  | Ok executionID =>
      let ask s := escalateSpend w mandateID action actionID (d_Provenance decision) (d_Reason decision) now s in
      match reserveMandateBudget mandateID mandate executionID (t_Price terms) s with
      | (Err e, s) => if negb (bool_decide (e = ErrBudgetExceeded)) then (local_refuse CodeInternal e, s) else ask s
      | (Ok _, s) => ask s
      end
  end.

Definition one_shot (action : Action) : bool :=
  String.eqb (ac_Effect action) EffectToolCall || String.eqb (ac_Effect action) EffectPhysicalIO.

(** An allowed tool call: bound to its idempotency key and authorised. *)
Definition allowed_tool (w1 w2 : write_outcome) (action : Action) (actionID : string) (decision : fw_Decision) (now : time) (s : Owner)
    : Response * Owner :=
  match ClaimToolExecution w1 (ac_IdempotencyKey action) actionID now s with
  | (Err e, s) => (local_refuse CodeInternal e, s)
  | (Ok (bound, _), s) =>
      if negb (String.eqb bound actionID)
      then (bound_elsewhere actionID "this tool invocation key is already bound to another action", s) else
      match RecordAutoAuthorization w2 (MkApprovalRequest actionID (ac_Effect action) (ac_Summary action) (ac_IdempotencyKey action)
              "allowed by policy" (toApprovalOrigins (d_Provenance decision)) None None "" (u64 now)) s with
      | (Err e, s) => (local_refuse CodeInternal e, s)
      | (Ok approval, s) =>
          (action_answer actionID (outcome_text (d_Outcome decision)) (d_Reason decision) (state_text (ap_State approval)) false, s)
      end
  end.

(** Any other action the owner decides. *)
Definition asked_action (w1 w2 : write_outcome) (action : Action) (actionID : string) (decision : fw_Decision) (now : time) (s : Owner)
    : Response * Owner :=
  let ask s :=
    match RequestApproval w2 (MkApprovalRequest actionID (ac_Effect action) (ac_Summary action) (ac_IdempotencyKey action)
            (d_Reason decision) (toApprovalOrigins (d_Provenance decision)) (ac_Terms action) (ac_Physical action) "" (u64 now)) s with
    | (Err e, s) => (local_refuse CodeInternal e, s)
    | (Ok approval, s) =>
        (action_answer actionID (outcome_text (d_Outcome decision)) (d_Reason decision) (state_text (ap_State approval)) false, s)
    end in
  if one_shot action then
    match ClaimToolExecution w1 (ac_IdempotencyKey action) actionID now s with
    | (Err e, s) => (local_refuse CodeInternal e, s)
    | (Ok (bound, _), s) =>
        if negb (String.eqb bound actionID)
        then (bound_elsewhere actionID "this tool invocation key is already bound to another action", s) else ask s
    end
  else ask s.

(** The mandate of a spend and the decision of the firewall. *)
Definition judge (policy : Policy) (mandateID : string) (action : Action) (now : time) (s : Owner)
    : result (fw_Decision * option Mandate) :=
  if String.eqb (ac_Effect action) EffectSpend then
    let* mandate := spendMandate mandateID s in
    let* decision := EvaluateSpend policy mandate action now in
    Ok (decision, Some mandate)
  else
    let* decision := Evaluate policy action in
    Ok (decision, None).

Definition requestAction (w1 w2 : write_outcome) (policy : Policy) (proposed : ProposedAction) (mandateID : string) (now : time)
    (s : Owner) : Response * Owner :=
  let action := toAction proposed in
  match judge policy mandateID action now s with
  | Err e => (local_refuse CodeInternal e, s)
  | Ok (decision, mandate) =>
      if bool_decide (d_Outcome decision = Refuse)
      then (action_answer "" (outcome_text Refuse) (d_Reason decision) "" false, s) else
      match ActionID action with
      | Err e => (local_refuse CodeInternal e, s)
      | Ok actionID =>
          let allowed := bool_decide (d_Outcome decision = Allow) in
          match mandate, ac_Terms action with
          | Some mandate, Some terms =>
              if allowed then allowed_spend w1 w2 mandateID mandate action terms actionID decision now s
              else asked_spend w2 mandateID mandate action terms actionID decision now s
          | _, _ =>
              if allowed then
                if one_shot action then allowed_tool w1 w2 action actionID decision now s
                else (action_answer actionID (outcome_text (d_Outcome decision)) (d_Reason decision) "" true, s)
              else asked_action w1 w2 action actionID decision now s
          end
      end
  end.

Definition actionStatus (actionID : string) (s : Owner) : Response :=
  match LookupApproval actionID s with
  | Err e => local_refuse CodeInternal e
  | Ok None => action_answer actionID "" "no decision was ever asked for about this action" "" false
  | Ok (Some a) => action_answer actionID "" (ap_DenialReason a) (state_text (ap_State a)) false
  end.

Definition claimAction (w : write_outcome) (actionID : string) (now : time) (s : Owner) : Response * Owner :=
  match SpendApproval w actionID now s with
  | (Err e, s) =>
      if bool_decide (e = ErrApprovalNotGranted) || bool_decide (e = ErrApprovalUnknown)
      then (action_answer actionID "" (error_text e) "" false, s) else (local_refuse CodeInternal e, s)
  | (Ok approval, s) =>
      match CommitMandateReservation approval s with
      | (Err e, s) => (local_refuse CodeInternal e, s)
      | (Ok _, s) => (action_answer actionID "" "" (state_text (ap_State approval)) true, s)
      end
  end.

Definition waiting_action (a : Approval) : WaitingAction :=
  let q := ap_Request a in
  MkWaiting (ap_ActionID a) (aq_Effect q) (aq_Summary q) (aq_IdempotencyKey q) (aq_Reason q) (fromApprovalOrigins (aq_Origins q))
    (aq_Terms q) (aq_Physical q) (aq_AskedAt q).
Definition pendingActions (limit : Z) (now : time) (s : Owner) : Response :=
  match ListPendingApprovals now limit s with
  | Err e => local_refuse CodeInternal e
  | Ok waiting =>
      if negb (forallb approvalReproducesID waiting)
      then local_refuse CodeInternal (NewError "a pending approval's stored action does not reproduce its identifier")
      else listed_actions (List.map waiting_action waiting)
  end.

Definition grantAction (w : write_outcome) (actionID : string) (now : time) (s : Owner) : Response * Owner :=
  match GrantAction w actionID now s with
  | (Err e, s) => (local_refuse CodeInternal e, s)
  | (Ok a, s) => (action_answer actionID "" "" (state_text (ap_State a)) false, s)
  end.

Definition denyAction (w : write_outcome) (actionID reason : string) (now : time) (s : Owner) : Response * Owner :=
  match DenyAction w actionID reason now s with
  | (Err e, s) => (local_refuse CodeInternal e, s)
  | (Ok a, s) =>
      match ReleaseMandateReservation a s with
      | (Err e, s) => (local_refuse CodeInternal e, s)
      | (Ok _, s) => (action_answer actionID "" "" (state_text (ap_State a)) false, s)
      end
  end.

Definition mandate_of_terms (m : MandateTerms) : StoredMandate :=
  let a := mt_Asset m in
  MkStoredMandate "" "" (mt_Objective m) (mt_Authority m) (mt_CapabilityClass m) (ai_NetworkID a) (ai_GenesisRootHash a)
    (ai_GenesisFileHash a) (ai_Workchain a) (ai_AccountID a) (ai_MasterCodeHash a) (ai_WalletCodeHash a) (ai_Decimals a)
    (mt_MaxTotalAtomic m) (mt_ApprovalAboveAtomic m) (mt_MaxCounteroffers m) (mt_ExpiresAtUnix m) 0 0.
Definition placeMandate (w : write_outcome) (m : MandateTerms) (now : time) (s : Owner) : Response * Owner :=
  match PlaceMandate w (mandate_of_terms m) now s with
  | (Err e, s) => (local_refuse CodeInternal e, s)
  | (Ok stored, s) =>
      (match toMandate stored with Err e => local_refuse CodeInternal e | Ok _ => mandate_answer (sm_MandateID stored) end, s)
  end.
Definition revokeMandate (w : write_outcome) (mandateID : string) (now : time) (s : Owner) : Response * Owner :=
  match RevokeMandate w mandateID now s with
  | (Err e, s) => (local_refuse CodeInternal e, s)
  | (Ok stored, s) => (mandate_answer (sm_MandateID stored), s)
  end.
Definition held_mandate (m : StoredMandate) : HeldMandate :=
  MkHeld (sm_MandateID m) (sm_Objective m) (sm_Authority m) (sm_CapabilityClass m) (assetIdentityOf m) (sm_MaxTotalAtomic m)
    (sm_ApprovalAboveAtomic m) (sm_MaxCounteroffers m) (sm_ExpiresAtUnix m) (sm_PlacedAtUnix m) (sm_RevokedAtUnix m).
Definition api_listMandates (s : Owner) : Response :=
  match ListMandates s with
  | Err e => local_refuse CodeInternal e
  | Ok stored => listed_mandates (List.map held_mandate stored)
  end.
End Actions.

Definition recordEscrowLocation `{CA : ChainAddresses} (w : write_outcome) (commitment address class : string) (s : Owner) : Response * Owner :=
  match RecordEscrowLocation w commitment address class s with
  | (Err e, s) => (local_refuse CodeInternal e, s)
  | (Ok fresh, s) => (was_fresh fresh, s)
  end.


(** ** Economic messages *)

Section EconomicSend.
  Context `{CP : CommerceProtocol}.

(** What goes to the direct-message sender. *)
Inductive outgoing : Type :=
  | SendDirectMessage (recipient mediaType : string) (body : bytes) (idempotency : string) (expires : Z)
  | SendDirectApplication (recipient kind : string) (body : bytes) (idempotency : string) (expires : Z).
Record DirectMessageResult : Type := MkDirectResult {
  dm_AgentID : string;
  dm_CanonicalName : string;
  dm_ConversationID : string;
  dm_EventID : string;
  dm_Readiness : string;
}.

Definition economicKindMatchesEffect (actionKind eventKind : string) : bool :=
  let among l := bool_decide (eventKind ∈ l) in
  if String.eqb actionKind "messenger.contact" then among ["text"; "intent.application"]
  else if String.eqb actionKind "messenger.send" then
    among ["text"; "private.handoff.challenge"; "private.handoff.acknowledgement"; "private.handoff.status"; "private.handoff.delete";
           "commerce.profile-event"]
  else if String.eqb actionKind "operation.private-send" then among ["operation.outcome"]
  else if String.eqb actionKind "agreement.propose" then among ["agreement.propose"]
  else if String.eqb actionKind "agreement.authorize" then among ["agreement.accept"; "agreement.evidence"]
  else if String.eqb actionKind "provider.offer" then among ["agreement.provider-offer"]
  else if String.eqb actionKind "agreement.withdraw" then among ["agreement.withdraw"]
  else if String.eqb actionKind "disclosure.release" then among ["private.handoff.authorization"]
  else if String.eqb actionKind "content.upload" then among ["private.handoff.acknowledgement"; "private.handoff.status"]
  else if String.eqb actionKind "content.delete" then among ["private.handoff.delete"; "private.handoff.status"]
  else if String.eqb actionKind "delivery.release" then among ["agreement.delivery"]
  else false.

Definition validateOperationPrivateSendEffect (a : AuthorizedAction) (effect : MessengerEffect) (fields : SemanticValues) : result unit :=
  refuse negb (String.eqb (fx_EventKind effect) "operation.outcome")
      || negb (String.eqb (fx_ContentType effect) "application/vnd.tos.operation-outcome-private+cbor")
      || negb (Nat.eqb (length (fx_RecipientAgentIDs effect)) 1)
    with NewError "operation private-send Messenger effect is invalid";
  match UnmarshalOperationPrivate (fx_Payload effect) with
  | None => Err (NewError "operation private-send payload does not bind its recipient")
  | Some outcome =>
      refuse negb (is_ok (ValidateOperationPrivateRequest outcome)) || negb (Nat.eqb (length (op_RecipientAgentIDs outcome)) 1)
          || negb (bool_decide (head (op_RecipientAgentIDs outcome) = head (fx_RecipientAgentIDs effect)))
        with NewError "operation private-send payload does not bind its recipient";
      let* expected := OperationPrivateSendSemanticFields (aa_OwnerID a) (aa_AgentID a) outcome in
      match ExportSemanticFields (aa_ActionKind a) expected, ExportSemanticFields (aa_ActionKind a) fields with
      | Ok e, Ok f =>
          refuse negb (bool_decide (e = f)) with NewError "operation private-send semantic fields do not bind its payload";
          Ok tt
      | _, _ => Err (NewError "operation private-send semantic fields do not bind its payload")
      end
  end.

Definition message_of (a : AuthorizedAction) (effect : MessengerEffect) : outgoing :=
  let idempotency := "idem_" +:+ default (aa_StableActionID a) (strip_prefix "sha256:" (aa_StableActionID a)) in
  let recipient := default "" (head (fx_RecipientAgentIDs effect)) in
  if String.eqb (fx_EventKind effect) "text"
  then SendDirectMessage recipient (fx_ContentType effect) (fx_Payload effect) idempotency (aa_ExpiresAtUnix a)
  else SendDirectApplication recipient (fx_EventKind effect) (fx_Payload effect) idempotency (aa_ExpiresAtUnix a).

(** [send] is the sender, over whatever state [W] it works on. *)
Definition economicSendDirect {W} (w1 w2 w3 : write_outcome) (send : outgoing -> W -> result DirectMessageResult * W)
    (a : AuthorizedAction) (fence : WriterFence) (values : list SemanticFieldValue) (exact : bytes) (now : time)
    (s : EconomicStore) (world : W) : Response * EconomicStore * W :=
  match DecodeMessengerEffectRequest exact with
  | Err e => (local_refuse CodeNotAuthentic e, s, world)
  | Ok effect =>
  match ImportSemanticFields (aa_ActionKind a) values with
  | Err _ => (local_refuse CodeNotAuthentic (NewError "economic action kind does not authorize the Messenger effect"), s, world)
  | Ok fields =>
  if negb (economicKindMatchesEffect (aa_ActionKind a) (fx_EventKind effect))
  then (local_refuse CodeNotAuthentic (NewError "economic action kind does not authorize the Messenger effect"), s, world) else
  match (if String.eqb (aa_ActionKind a) "operation.private-send" then validateOperationPrivateSendEffect a effect fields else Ok tt) with
  | Err e => (local_refuse CodeNotAuthentic e, s, world)
  | Ok _ =>
  match economic_Admit w1 a fence fields exact now s with
  | (Err _, s) => (local_refuse CodeNotAuthentic (NewError "economic action admission failed"), s, world)
  | (Ok resolution, s) =>
  if bool_decide (rn_State resolution = ActionConflict)
  then (local_refuse CodeNotAuthentic (NewError "economic action admission failed"), s, world) else
  if bool_decide (rn_State resolution = ActionAccepted)
  then (sent_answer (default "" (head (fx_RecipientAgentIDs effect))) "" "" (rn_SinkReference resolution) "queued" resolution, s, world) else
  if negb (bool_decide (rn_State resolution = ActionPrepared)) && negb (bool_decide (rn_State resolution = ActionSubmitted))
  then (local_refuse CodeNotAuthentic (NewError "economic action is not sendable"), s, world) else
  let submitted :=
    if bool_decide (rn_State resolution = ActionPrepared) then
      match economic_Submit w2 (aa_StableActionID a) (aa_ExactRequestDigest a) s with
      | (Err _, s) => (false, s)
      | (Ok r, s) => (bool_decide (rn_State r = ActionSubmitted), s)
      end
    else (true, s) in
  match submitted with
  | (false, s) => (local_refuse CodeInternal (NewError "economic action could not enter durable submitted state"), s, world)
  | (true, s) =>
  match send (message_of a effect) world with
  | (Err e, world) => (local_refuse CodeInternal e, s, world)
  | (Ok sent, world) =>
  match economic_Accept w3 (aa_StableActionID a) (aa_ExactRequestDigest a) (dm_EventID sent) s with
  | (Err e, s) => (local_refuse CodeInternal e, s, world)
  | (Ok r, s) =>
      (sent_answer (dm_AgentID sent) (dm_CanonicalName sent) (dm_ConversationID sent) (dm_EventID sent) (dm_Readiness sent) r, s, world)
  end end end end end end end.

Definition economicActionStatus (id digest : string) (s : option EconomicStore) : Response :=
  match s with
  | None => local_refuse CodeClassNotDelegated (NewError "economic messaging is not configured")
  | Some s => resolution_answer (economic_Resolve id digest s)
  end.
End EconomicSend.

(** ** The server *)

Record Server : Type := MkServer {
  sv_install : Install;
  sv_owner : Owner;
  sv_economic : option EconomicStore;
  sv_challenges : challenges;
}.
Definition with_install (s : Server) (i : Install) : Server := MkServer i (sv_owner s) (sv_economic s) (sv_challenges s).
Definition with_owner (s : Server) (o : Owner) : Server := MkServer (sv_install s) o (sv_economic s) (sv_challenges s).
Definition with_challenges (s : Server) (c : challenges) : Server := MkServer (sv_install s) (sv_owner s) (sv_economic s) c.
Definition with_economic (s : Server) (e : EconomicStore) (i : Install) : Server := MkServer i (sv_owner s) (Some e) (sv_challenges s).

(** [lc_Sender] is the direct-message sender, which works on the installation. *)
Record LocalConfig : Type := MkLocalConfig {
  lc_Policy : Policy;
  lc_OwnerKey : bytes;
  lc_LocalEndpointID : string;
  lc_Sender : option (outgoing -> Install -> result DirectMessageResult * Install);
}.

Section Server.
  Context `{Ed : Ed25519} `{JO : JSONObjects} `{CA : ChainAddresses} `{CP : CommerceProtocol} `{PR : Protocol} `{AF : AttachmentFormats}.

(** What the outside decides about one request: the clock, how its writes end, randomness, whether the caller went away,
    and what the operations outside this file answer. *)
Record Outside : Type := MkOutside {
  os_now : time;
  os_w1 : write_outcome;
  os_w2 : write_outcome;
  os_w3 : write_outcome;
  os_random : option bytes;
  os_removable : string -> bool;
  os_synced : bool;
  os_cancelled : option error;
  os_others : Request -> Install -> Response * Install;
}.

Definition on_journal (f : Journal -> Response * Journal) (s : Server) : Response * Server :=
  let '(r, j) := f (in_journal (sv_install s)) in (r, with_install s (with_journal (sv_install s) j)).
Definition on_outbox (f : Outbox -> Response * Outbox) (s : Server) : Response * Server :=
  on_journal (fun j => let '(r, o) := f (jr_outbox j) in (r, with_outbox j o)) s.
Definition on_owner (f : Owner -> Response * Owner) (s : Server) : Response * Server :=
  let '(r, o) := f (sv_owner s) in (r, with_owner s o).

Definition createAdmissionInvite (os : Outside) (endpoint invited : string) (expires : Z) (i : Install) : Response * Install :=
  match os_random os with
  | None => (local_refuse CodeInternal (NewError "generate admission invite"), i)
  | Some entropy =>
      match CreateAdmissionInvite (os_removable os) (os_synced os) (os_w1 os) entropy endpoint invited (i64 (u64 expires)) (os_now os) i with
      | (Err e, i) => (local_refuse CodeInternal e, i)
      | (Ok (token, _), i) => (token_answer token, i)
      end
  end.

Definition api_challenge (os : Outside) (s : Server) : Response * Server :=
  match challenges_issue (os_random os) (os_now os) (sv_challenges s) with
  | (Err e, c) => (local_refuse CodeInternal e, with_challenges s c)
  | (Ok value, c) => (challenge_answer value, with_challenges s c)
  end.

Definition api_economicSend (os : Outside) (config : LocalConfig) (r : Request) (s : Server) : Response * Server :=
  match sv_economic s, lc_Sender config, rq_EconomicAction r, rq_EconomicWriterFence r with
  | Some store, Some send, Some a, Some fence =>
      let '(response, store, install) :=
        economicSendDirect (os_w1 os) (os_w2 os) (os_w3 os) send a fence (rq_EconomicFields r) (rq_ExactEconomicRequest r) (os_now os)
          store (sv_install s) in
      (response, with_economic s store install)
  | _, _, _, _ => (local_refuse CodeClassNotDelegated (NewError "economic messaging is not configured"), s)
  end.

(** The switch of [handle]. *)
Definition serve (config : LocalConfig) (r : Request) (os : Outside) (s : Server) : Response * Server :=
  let now := os_now os in
  let w := os_w1 os in
  let j := in_journal (sv_install s) in
  match rq_Op r with
  | OpPending => (api_pending (rq_Limit r) now j, s)
  | OpClaim => on_journal (api_claim w (rq_EventID r) (rq_LeaseID r) now (rq_LeaseSeconds r)) s
  | OpPendingAgentGifts => (pendingAgentGifts (rq_Limit r) now j, s)
  | OpClaimAgentGift => on_journal (claimAgentGift w (rq_EventID r) (rq_LeaseID r) now (rq_LeaseSeconds r)) s
  | OpPendingAgreements => (pendingAgreements (rq_Limit r) now j, s)
  | OpClaimAgreement => on_journal (claimAgreement w (rq_EventID r) (rq_LeaseID r) now (rq_LeaseSeconds r)) s
  | OpPendingPrivateHandoffs => (pendingPrivateHandoffs (rq_Limit r) now j, s)
  | OpClaimPrivateHandoff => on_journal (claimPrivateHandoff w (rq_EventID r) (rq_LeaseID r) now (rq_LeaseSeconds r)) s
  | OpPendingCommerceProfileEvents => (pendingCommerceProfileEvents (rq_Limit r) now j, s)
  | OpClaimCommerceProfileEvent => on_journal (claimCommerceProfileEvent w (rq_EventID r) (rq_LeaseID r) now (rq_LeaseSeconds r)) s
  | OpComplete => on_journal (api_complete w (rq_EventID r) (rq_LeaseID r) now) s
  | OpReject => on_journal (api_reject w (rq_EventID r) (rq_LeaseID r) (rq_Code r) now) s
  | OpEconomicSendDirect => api_economicSend os config r s
  | OpEconomicActionStatus => (economicActionStatus (rq_EconomicStableID r) (rq_EconomicRequestDigest r) (sv_economic s), s)
  | OpAwaitingAdmission => (awaitingAdmission (rq_Limit r) now j, s)
  | OpAdmit => on_journal (api_admit w (rq_EventID r) now) s
  | OpRefuse => on_journal (refuseEvent w (rq_EventID r) (rq_Code r) now) s
  | OpApprove => on_outbox (api_approve w (rq_EventID r) now) s
  | OpDeny => on_outbox (api_deny w (rq_EventID r) now) s
  | OpRequestAction =>
      match rq_Action r with
      | None => (local_refuse CodeInternal (NewError "a firewall decision needs the action itself"), s)
      | Some proposed => on_owner (requestAction w (os_w2 os) (lc_Policy config) proposed (rq_MandateID r) now) s
      end
  | OpActionStatus => (actionStatus (rq_ActionID r) (sv_owner s), s)
  | OpClaimAction => on_owner (claimAction w (rq_ActionID r) now) s
  | OpPendingActions => (pendingActions (rq_Limit r) now (sv_owner s), s)
  | OpGrantAction => on_owner (grantAction w (rq_ActionID r) now) s
  | OpDenyAction => on_owner (denyAction w (rq_ActionID r) (rq_Reason r) now) s
  | OpPlaceMandate =>
      match rq_Mandate r with
      | None => (local_refuse CodeInternal (NewError "placing a mandate needs the mandate"), s)
      | Some m => on_owner (placeMandate w m now) s
      end
  | OpRevokeMandate => on_owner (revokeMandate w (rq_MandateID r) now) s
  | OpListMandates => (api_listMandates (sv_owner s), s)
  | OpChallenge => api_challenge os s
  | OpCreateAdmissionInvite =>
      let '(response, i) :=
        createAdmissionInvite os (lc_LocalEndpointID config) (rq_InvitedAgentID r) (rq_InviteExpiresAtUnix r) (sv_install s) in
      (response, with_install s i)
  | OpRecordEscrowLocation => on_owner (recordEscrowLocation w (rq_QuoteCommitment r) (rq_EscrowAddress r) (rq_CapabilityClass r)) s
  | _ => let '(response, i) := os_others os r (sv_install s) in (response, with_install s i)
  end.

Definition principal_text (p : Principal) : string :=
  match p with PrincipalRuntime => "runtime" | PrincipalOwner => "owner" | PrincipalOther s => s end.

(** [handle], after the JSON of the request. *)
Definition handle (config : LocalConfig) (principal : Principal) (decoded : result Request) (os : Outside) (s : Server)
    : Response * Server :=
  match DecodeRequest decoded with
  | Err e => (local_refuse CodeInternal e, s)
  | Ok r =>
      if negb (Permits principal (rq_Op r))
      then (local_refuse CodeClassNotDelegated (NewError (principal_text principal +:+ " may not perform " +:+ op_text (rq_Op r))), s) else
      match os_cancelled os with
      | Some e => (local_refuse CodeInternal e, s)
      | None =>
          match authoriseDecision (lc_OwnerKey config) r (os_now os) (sv_challenges s) with
          | (Err e, c) => (local_refuse CodeNotAuthentic e, with_challenges s c)
          | (Ok _, c) => serve config r os (with_challenges s c)
          end
      end
  end.

(** Requests of both principals, the daemon's sweep of undecided requests, and restarts, which lose the challenges. *)
Inductive server_event : Type :=
  | Handled (principal : Principal) (decoded : result Request) (os : Outside)
  | SweptApprovals (ws : list write_outcome) (now : time)
  | Restarted (lifetime : Z).
Definition server_step (config : LocalConfig) (s : Server) (e : server_event) : Server :=
  match e with
  | Handled principal decoded os => (handle config principal decoded os s).2
  | SweptApprovals ws now => with_owner s (ExpirePendingApprovals ws now (sv_owner s)).2
  | Restarted lifetime => with_challenges s (newChallenges lifetime)
  end.
Definition server_run (config : LocalConfig) (events : list server_event) (s : Server) : Server :=
  fold_left (server_step config) events s.
End Server.
