(* ===== verification/LocalSafety.v ===== *)
(** * What the local interface guarantees

    Theorems over [LocalServer.v]: who may decide, what authorises an action, what an
    automatic spend rests on, and the order of an economic send.  The evaluated runs at
    the end are their witnesses and three behaviours the code does not intend. *)

From S2P Require Import Prelude Encoding Canon Files Fault Json Money Terms Payload Firewall Budget Negotiation Commerce Delivery.
From S2P Require Import Identity E2ee PayloadCodec Journal Inbound Room Rooms Envelope Devices Invites Approvals Economic LocalApi LocalServer.

(** ** Authorised actions *)

(** There is an approval on file that was granted, and perhaps spent. *)
Definition released (a : Approval) : Prop := ap_State a = ApprovalGranted \/ ap_State a = ApprovalSpent.
Definition authorised (d : directory Approval) (id : string) : Prop := exists a, readApproval d id = Ok (Some a) /\ released a.

Lemma authorised_write d a id :
  authorised (<[approval_path (ap_ActionID a) := ERec a]> d) id -> authorised d id \/ ap_ActionID a = id /\ released a.
Proof.
  intros (b & Hb & Hr). destruct (decide (approval_path id = approval_path (ap_ActionID a))) as [E|Hne].
  - destruct (readApproval_at _ _ _ Hb) as (Hl & _ & Hi). rewrite E, lookup_insert_eq in Hl. injection Hl as <-. by right.
  - rewrite readApproval_frame in Hb by done. left. by exists b.
Qed.

Lemma commit_authorised w a s r s' id :
  commitApproval w a s = (r, s') -> authorised (ow_approvals s') id ->
  authorised (ow_approvals s) id \/ ap_ActionID a = id /\ released a.
Proof.
  intros Hc Ha. destruct (commitApproval_cases _ _ _ _ _ Hc) as [[-> _]|[-> _]]; [by left|].
  cbn [with_approvals ow_approvals] in Ha. by apply authorised_write.
Qed.

Section Authorised.
  Context `{JO : JSONObjects} `{CA : ChainAddresses}.

Lemma request_authorised w r s id :
  authorised (ow_approvals (RequestApproval w r s).2) id -> authorised (ow_approvals s) id.
Proof.
  unfold RequestApproval. repeat (case_match; try done). intros Ha.
  destruct (commitApproval w _ s) as [x s'] eqn:E. destruct (commit_authorised _ _ _ _ _ _ E Ha) as [?|[_ [?|?]]]; done.
Qed.

Lemma auto_authorised w r s id :
  authorised (ow_approvals (RecordAutoAuthorization w r s).2) id -> authorised (ow_approvals s) id \/ aq_ActionID r = id.
Proof.
  unfold RecordAutoAuthorization. repeat (case_match; try (intros Hx; by left)). intros Ha.
  destruct (commitApproval w _ s) as [x s'] eqn:E. destruct (commit_authorised _ _ _ _ _ _ E Ha) as [?|[? _]]; [by left|by right].
Qed.

Lemma decide_authorised w actionID state reason now s id :
  authorised (ow_approvals (decideApproval w actionID state reason now s).2) id ->
  authorised (ow_approvals s) id \/ actionID = id /\ (state = ApprovalGranted \/ state = ApprovalSpent).
Proof.
  unfold decideApproval. destruct (approval_on_file actionID now s) as [a|] eqn:Ha; [|tauto].
  destruct (negb _); [tauto|]. intros H. destruct (commitApproval w _ s) as [x s'] eqn:E.
  apply approval_on_file_Ok in Ha as (_ & _ & _ & Ha). apply readApproval_at in Ha as (_ & _ & Hi).
  destruct (commit_authorised _ _ _ _ _ _ E H) as [?|[Hid Hr]]; [by left|right]. split; [|done].
  unfold ap_ActionID in *. cbn in Hid. congruence.
Qed.

Lemma spend_authorised w actionID now s id :
  authorised (ow_approvals (SpendApproval w actionID now s).2) id -> authorised (ow_approvals s) id.
Proof.
  unfold SpendApproval. destruct (approval_on_file actionID now s) as [a|] eqn:Ha; [|done].
  destruct (negb _) eqn:Hg; [done|]. breflect. intros H. destruct (commitApproval w _ s) as [x s'] eqn:E.
  apply approval_on_file_Ok in Ha as (_ & _ & _ & Ha). pose proof (readApproval_at _ _ _ Ha) as (_ & _ & Hi).
  destruct (commit_authorised _ _ _ _ _ _ E H) as [?|[Hid Hr]]; [done|]. exists a.
  assert (actionID = id) as <- by (unfold ap_ActionID in *; cbn in Hid; congruence). split; [done|by left].
Qed.

Lemma expire_authorised ws seconds names expired s id :
  authorised (ow_approvals (expire_approvals ws seconds names expired s).2) id -> authorised (ow_approvals s) id.
Proof.
  revert ws expired s. induction names as [|name names IH]; intros ws expired s; [done|]. cbn [expire_approvals].
  destruct (_ || _); [apply IH|]. destruct (readApproval _ _) as [[a|]|] eqn:Hr; [|apply IH..].
  destruct (negb _ || _); [apply IH|]. destruct (next_outcome ws) as [w ws']. destruct (commitApproval w _ s) as [r s'] eqn:Hc.
  assert (authorised (ow_approvals s') id -> authorised (ow_approvals s) id) as Hs.
  { intros Ha. destruct (commit_authorised _ _ _ _ _ _ Hc Ha) as [?|[_ [Hx|Hx]]]; [done|by cbn in Hx..]. }
  destruct r as [stored|e]; [|done]. intros Ha. by apply Hs, (IH ws' (expired ++ [stored])).
Qed.

Lemma reserve_frame mandateID m ex price s : exists b, (reserveMandateBudget mandateID m ex price s).2 = with_budgets s b.
Proof.
  unfold reserveMandateBudget. assert (s = with_budgets s (ow_budgets s)) as Hs by (by destruct s).
  repeat (case_match; simplify_eq); cbn [snd]; eauto.
Qed.

(** An operation that is a sequence of owner operations and budget changes, with one answer. *)
Lemma escalate_authorised w mandateID action actionID provenance reason now s id :
  authorised (ow_approvals (escalateSpend w mandateID action actionID provenance reason now s).2) id -> authorised (ow_approvals s) id.
Proof.
  unfold escalateSpend. intros Ha. apply (request_authorised w (spend_request_of mandateID action actionID reason provenance now)).
  by destruct (RequestApproval w _ s) as [[]].
Qed.

Lemma claim_same_approvals w d ex act now s : ow_approvals (claimExecution w d ex act now s).2 = ow_approvals s.
Proof. destruct (claimExecution_frame w d ex act now s) as [files ->]. by destruct d. Qed.

Lemma reserve_same_approvals mandateID m ex price s :
  ow_approvals (reserveMandateBudget mandateID m ex price s).2 = ow_approvals s.
Proof. by destruct (reserve_frame mandateID m ex price s) as [b ->]. Qed.

Lemma allowed_spend_authorised w1 w2 mandateID m action terms actionID decision now s id :
  authorised (ow_approvals (allowed_spend w1 w2 mandateID m action terms actionID decision now s).2) id ->
  authorised (ow_approvals s) id \/ actionID = id.
Proof.
  unfold allowed_spend. destruct (ExecutionID mandateID terms) as [ex|]; [|tauto].
  pose proof (claim_same_approvals w1 EconomicDir ex actionID now s) as E1.
  change (ClaimEconomicExecution w1 ex actionID now s) with (claimExecution w1 EconomicDir ex actionID now s).
  destruct (claimExecution w1 EconomicDir ex actionID now s) as [[[bound fresh]|] s1]; cbn [snd] in E1; [|rewrite <- E1; tauto].
  destruct (negb fresh && _); [rewrite <- E1; tauto|].
  pose proof (reserve_same_approvals mandateID m ex (t_Price terms) s1) as E2.
  destruct (reserveMandateBudget _ _ _ _ s1) as [[u|e] s2]; cbn [snd] in E2; rewrite <- E1, <- E2.
  - intros Ha. destruct (auto_authorised w2 (spend_request_of mandateID action actionID
      "allowed by policy, inside the owner's mandate" (d_Provenance decision) now) s2 id) as [?|?]; [|tauto..].
    by destruct (RecordAutoAuthorization w2 _ s2) as [[]].
  - destruct (negb _); [tauto|]. intros Ha. left. by eapply escalate_authorised.
Qed.

Lemma asked_spend_authorised w mandateID m action terms actionID decision now s id :
  authorised (ow_approvals (asked_spend w mandateID m action terms actionID decision now s).2) id -> authorised (ow_approvals s) id.
Proof.
  unfold asked_spend. destruct (ExecutionID mandateID terms) as [ex|]; [|done].
  pose proof (reserve_same_approvals mandateID m ex (t_Price terms) s) as E2.
  destruct (reserveMandateBudget _ _ _ _ s) as [[u|e] s2]; cbn [snd] in E2; rewrite <- E2.
  - apply escalate_authorised.
  - destruct (negb _); [done|]. apply escalate_authorised.
Qed.

Lemma allowed_tool_authorised w1 w2 action actionID decision now s id :
  authorised (ow_approvals (allowed_tool w1 w2 action actionID decision now s).2) id -> authorised (ow_approvals s) id \/ actionID = id.
Proof.
  unfold allowed_tool. pose proof (claim_same_approvals w1 ToolDir (ac_IdempotencyKey action) actionID now s) as E1.
  change (ClaimToolExecution w1 (ac_IdempotencyKey action) actionID now s) with (claimExecution w1 ToolDir (ac_IdempotencyKey action) actionID now s).
  destruct (claimExecution w1 ToolDir _ actionID now s) as [[[bound fresh]|] s1]; cbn [snd] in E1; rewrite <- E1; [|tauto].
  destruct (negb _); [tauto|].
  set (q := MkApprovalRequest _ _ _ _ _ _ _ _ _ _). intros Ha. destruct (auto_authorised w2 q s1 id) as [?|?]; [|tauto..].
  by destruct (RecordAutoAuthorization w2 q s1) as [[]].
Qed.

Lemma asked_action_authorised w1 w2 action actionID decision now s id :
  authorised (ow_approvals (asked_action w1 w2 action actionID decision now s).2) id -> authorised (ow_approvals s) id.
Proof.
  unfold asked_action. set (q := MkApprovalRequest _ _ _ _ _ _ _ _ _ _).
  assert (forall s0, authorised (ow_approvals (match RequestApproval w2 q s0 with
    | (Ok approval, s) => (action_answer actionID (outcome_text (d_Outcome decision)) (d_Reason decision) (state_text (ap_State approval)) false, s)
    | (Err e, s) => (local_refuse CodeInternal e, s) end).2) id -> authorised (ow_approvals s0) id) as Hask.
  { intros s0 Ha. apply (request_authorised w2 q). by destruct (RequestApproval w2 q s0) as [[]]. }
  destruct (one_shot action); [|apply Hask].
  pose proof (claim_same_approvals w1 ToolDir (ac_IdempotencyKey action) actionID now s) as E1.
  change (ClaimToolExecution w1 (ac_IdempotencyKey action) actionID now s) with (claimExecution w1 ToolDir (ac_IdempotencyKey action) actionID now s).
  destruct (claimExecution w1 ToolDir _ actionID now s) as [[[bound fresh]|] s1]; cbn [snd] in E1; rewrite <- E1; [|done].
  destruct (negb _); [done|]. apply Hask.
Qed.

(** What a request to act adds to the authorised actions: the one the firewall allows. *)
Lemma requestAction_authorised w1 w2 policy p mandateID now s id :
  authorised (ow_approvals (requestAction w1 w2 policy p mandateID now s).2) id ->
  authorised (ow_approvals s) id
  \/ exists decision m, judge policy mandateID (toAction p) now s = Ok (decision, m) /\ d_Outcome decision = Allow
     /\ ActionID (toAction p) = Ok id.
Proof.
  unfold requestAction. destruct (judge policy mandateID (toAction p) now s) as [[decision m]|] eqn:Ej; [|tauto].
  destruct (bool_decide (d_Outcome decision = Refuse)); [tauto|]. destruct (ActionID (toAction p)) as [actionID|] eqn:Ei; [|tauto].
  destruct (bool_decide (d_Outcome decision = Allow)) eqn:Ea.
  - apply bool_decide_eq_true in Ea. intros Ha.
    assert (authorised (ow_approvals s) id \/ actionID = id) as [Hx|Hx]; [|by left|subst; right; eauto].
    destruct m as [m|], (ac_Terms (toAction p)) as [terms|]; try by eapply allowed_spend_authorised.
    all: destruct (one_shot _); [by eapply allowed_tool_authorised|by left].
  - intros Ha. left. destruct m as [m|], (ac_Terms (toAction p)) as [terms|]; try by eapply asked_spend_authorised.
    all: by eapply asked_action_authorised.
Qed.

Lemma commit_same_approvals a s : ow_approvals (CommitMandateReservation a s).2 = ow_approvals s.
Proof. by destruct (CommitMandateReservation_frame a s) as [b ->]. Qed.
Lemma release_same_approvals a s : ow_approvals (ReleaseMandateReservation a s).2 = ow_approvals s.
Proof. by destruct (ReleaseMandateReservation_frame a s) as [b ->]. Qed.

Lemma claimAction_authorised w actionID now s id :
  authorised (ow_approvals (claimAction w actionID now s).2) id -> authorised (ow_approvals s) id.
Proof.
  unfold claimAction. intros Ha. apply (spend_authorised w actionID now).
  destruct (SpendApproval w actionID now s) as [[a|e] s1]; cbn [snd] in *; [|by destruct (_ || _)].
  pose proof (commit_same_approvals a s1) as E. destruct (CommitMandateReservation a s1) as [[] s2]; cbn [snd] in *; by rewrite <- E.
Qed.

Lemma grantAction_authorised w actionID now s id :
  authorised (ow_approvals (grantAction w actionID now s).2) id -> authorised (ow_approvals s) id \/ actionID = id.
Proof.
  unfold grantAction, GrantAction. intros Ha.
  destruct (decide_authorised w actionID ApprovalGranted "" now s id) as [?|[? _]]; [|tauto..].
  by destruct (decideApproval _ _ _ _ _ s) as [[]].
Qed.

Lemma denyAction_authorised w actionID reason now s id :
  authorised (ow_approvals (denyAction w actionID reason now s).2) id -> authorised (ow_approvals s) id.
Proof.
  unfold denyAction, DenyAction. destruct (_ || _); [done|]. intros Ha.
  destruct (decide_authorised w actionID ApprovalDenied reason now s id) as [?|[_ [?|?]]]; [|done..].
  destruct (decideApproval _ _ _ _ _ s) as [[a|e] s1]; cbn [snd] in *; [|done].
  pose proof (release_same_approvals a s1) as E. destruct (ReleaseMandateReservation a s1) as [[] s2]; cbn [snd] in *; by rewrite <- E.
Qed.

Lemma sweep_authorised ws now s id :
  authorised (ow_approvals (ExpirePendingApprovals ws now s).2) id -> authorised (ow_approvals s) id.
Proof.
  unfold ExpirePendingApprovals. case_match; [|done]. intros Ha. apply (expire_authorised ws now (dir_names (ow_approvals s)) []).
  change (expire_approvals ws now (dir_names (ow_approvals s)) [] s) with (expirePendingApprovalsLocked ws now s).
  destruct (expirePendingApprovalsLocked ws now s) as [[expired|e] s1]; cbn [snd] in *; [|done].
  destruct (release_reservations_frame expired s1) as [b E].
  destruct (release_reservations expired s1) as [[] s2]; cbn [snd] in *; by subst s2.
Qed.
End Authorised.

(** ** The server *)

Section Safety.
  Context `{Ed : Ed25519} `{JO : JSONObjects} `{CA : ChainAddresses} `{CP : CommerceProtocol} `{PR : Protocol} `{AF : AttachmentFormats}.

Lemma on_journal_owner f s : sv_owner (on_journal f s).2 = sv_owner s.
Proof. unfold on_journal. by destruct (f _). Qed.
Lemma on_owner_owner f s : sv_owner (on_owner f s).2 = (f (sv_owner s)).2.
Proof. unfold on_owner. by destruct (f _). Qed.

Lemma place_same_approvals w m now s : ow_approvals (placeMandate w m now s).2 = ow_approvals s.
Proof.
  unfold placeMandate. destruct (PlaceMandate_frame w (mandate_of_terms m) now s) as [d E].
  destruct (PlaceMandate w _ now s) as [[] s1]; cbn [snd] in *; by subst s1.
Qed.
Lemma revoke_same_approvals w id now s : ow_approvals (revokeMandate w id now s).2 = ow_approvals s.
Proof.
  unfold revokeMandate. destruct (RevokeMandate_frame w id now s) as [d E].
  destruct (RevokeMandate w id now s) as [[] s1]; cbn [snd] in *; by subst s1.
Qed.
Lemma escrow_same_approvals w c a cls s : ow_approvals (recordEscrowLocation w c a cls s).2 = ow_approvals s.
Proof.
  unfold recordEscrowLocation. destruct (RecordEscrowLocation_frame w c a cls s) as [d E].
  destruct (RecordEscrowLocation w c a cls s) as [[] s1]; cbn [snd] in *; by subst s1.
Qed.

(** The request was allowed by the firewall for exactly this action. *)
Definition allowed_by_policy (config : LocalConfig) (r : Request) (now : time) (s : Owner) (id : string) : Prop :=
  rq_Op r = OpRequestAction /\ exists p decision m, rq_Action r = Some p
  /\ judge (lc_Policy config) (rq_MandateID r) (toAction p) now s = Ok (decision, m) /\ d_Outcome decision = Allow
  /\ ActionID (toAction p) = Ok id.

Lemma serve_authorised config r os s id :
  authorised (ow_approvals (sv_owner (serve config r os s).2)) id ->
  authorised (ow_approvals (sv_owner s)) id
  \/ allowed_by_policy config r (os_now os) (sv_owner s) id
  \/ rq_Op r = OpGrantAction /\ rq_ActionID r = id.
Proof.
  unfold serve, allowed_by_policy. destruct (rq_Op r) eqn:Hop; unfold on_outbox; rewrite ?on_journal_owner, ?on_owner_owner; try tauto.
  all: try (destruct (os_others os r (sv_install s)); tauto).
  - unfold api_economicSend. repeat (case_match; try tauto).
  - destruct (rq_Action r) as [p|]; [|tauto]. rewrite on_owner_owner. intros Ha.
    destruct (requestAction_authorised _ _ _ _ _ _ _ _ Ha) as [?|(d & m & Hj & Hd & Hi)]; [by left|right; left]. split; [done|].
    exists p, d, m. done.
  - intros Ha. left. by eapply claimAction_authorised.
  - intros Ha. destruct (grantAction_authorised _ _ _ _ _ Ha) as [?|?]; tauto.
  - intros Ha. left. by eapply denyAction_authorised.
  - destruct (rq_Mandate r) as [m|]; [|tauto]. rewrite on_owner_owner, place_same_approvals. tauto.
  - rewrite revoke_same_approvals. tauto.
  - unfold api_challenge. destruct (challenges_issue _ _ _) as [[] c]; tauto.
  - destruct (createAdmissionInvite _ _ _ _ _). tauto.
  - rewrite escrow_same_approvals. tauto.
Qed.

(** The owner signed this decision, with its challenge. *)
Definition signed_by_owner (config : LocalConfig) (r : Request) : Prop :=
  exists signature preimage, hex_decode (rq_OwnerSignature r) = Some signature
  /\ DecisionBytes r (rq_Challenge r) = Ok preimage /\ ed25519_Verify (lc_OwnerKey config) preimage signature = true.

Lemma authorise_deciding key r now c u c' :
  authoriseDecision key r now c = (Ok u, c') -> Deciding (rq_Op r) = true ->
  (exists signature preimage, hex_decode (rq_OwnerSignature r) = Some signature
     /\ DecisionBytes r (rq_Challenge r) = Ok preimage /\ ed25519_Verify key preimage signature = true)
  /\ challenges_spend (rq_Challenge r) now c = (Ok u, c').
Proof.
  unfold authoriseDecision. intros H Hd. rewrite Hd in H. cbn [negb] in H.
  destruct (hex_decode _) as [signature|]; [|done]. destruct (negb (blen _ =? _)); [done|].
  destruct (DecisionBytes _ _) as [preimage|]; [|done]. destruct (ed25519_Verify _ _ _) eqn:Hv; [|done]. cbn [negb] in H.
  split; [|done]. by exists signature, preimage.
Qed.

Lemma deciding_principal p op : Deciding op = true -> Permits p op = true -> p = PrincipalOwner.
Proof. intros Hd Hp. destruct p; [|done|done]. destruct (runtime_never_decides _ Hd) as [Hn _]. congruence. Qed.

(** C13: Only the owner decides.  A request for a deciding operation either came
    over the owner's socket, with the owner's signature over exactly this decision and
    a challenge that was outstanding and no longer is; or it is refused and the
    installation, the approvals, the mandates, the budgets and the economic store are
    as they were. *)
Theorem decision_needs_owner config principal decoded r os s response s' :
  DecodeRequest decoded = Ok r -> Deciding (rq_Op r) = true ->
  handle config principal decoded os s = (response, s') ->
  (principal = PrincipalOwner /\ signed_by_owner config r
   /\ (exists deadline, ch_issued (sv_challenges s) !! rq_Challenge r = Some deadline /\ nanos (os_now os) < deadline)
   /\ ch_issued (sv_challenges s') !! rq_Challenge r = None)
  \/ lr_OK response = false /\ sv_install s' = sv_install s /\ sv_owner s' = sv_owner s /\ sv_economic s' = sv_economic s.
Proof.
  unfold handle. intros -> Hd H. destruct (Permits principal (rq_Op r)) eqn:Hp; [|injection H as <- <-; by right].
  cbn [negb] in H. destruct (os_cancelled os); [injection H as <- <-; by right|].
  destruct (authoriseDecision _ _ _ _) as [[u|e] c] eqn:Ha; [|injection H as <- <-; by right]. left.
  apply authorise_deciding in Ha as [Hs Hc]; [|done]. split; [by eapply deciding_principal|]. split; [done|].
  assert (sv_challenges s' = c) as ->.
  { assert (sv_challenges (serve config r os (with_challenges s c)).2 = c) as E; [|by rewrite H in E].
    clear H. unfold Deciding in Hd. apply bool_decide_eq_true in Hd. unfold deciding in Hd. rewrite !elem_of_cons, elem_of_nil in Hd.
    unfold serve. repeat destruct Hd as [->|Hd]; try done; unfold on_outbox, on_journal, on_owner; repeat case_match; by simplify_eq. }
  unfold challenges_spend in Hc. destruct (ch_issued (challenges_expire _ _) !! _) as [d|] eqn:Edl; [|done].
  destruct (negb _); [done|]. injection Hc as _ <-. split; [|apply lookup_delete_eq].
  apply expire_lookup in Edl. by exists d.
Qed.

(** Why an action is authorised, at the moment a request is handled. *)
Definition grounds (config : LocalConfig) (e : server_event) (s : Server) (id : string) : Prop :=
  exists principal decoded os r, e = Handled principal decoded os /\ DecodeRequest decoded = Ok r
  /\ (allowed_by_policy config r (os_now os) (sv_owner s) id
      \/ rq_Op r = OpGrantAction /\ rq_ActionID r = id /\ principal = PrincipalOwner /\ signed_by_owner config r).

Lemma step_grounds config e s id :
  authorised (ow_approvals (sv_owner (server_step config s e))) id ->
  authorised (ow_approvals (sv_owner s)) id \/ grounds config e s id.
Proof.
  destruct e as [principal decoded os|ws now|lifetime]; cbn [server_step]; [|intros Ha; left; by apply (sweep_authorised ws now)|by left].
  unfold handle. destruct (DecodeRequest decoded) as [r|] eqn:Hr; [|by left].
  destruct (Permits principal (rq_Op r)) eqn:Hp; [|by left]. cbn [negb]. destruct (os_cancelled os); [by left|].
  destruct (authoriseDecision _ _ _ _) as [[u|e] c] eqn:Hauth; [|by left]. intros Ha.
  destruct (serve_authorised _ _ _ _ _ Ha) as [?|[?|[Hop Hid]]]; [by left|right..].
  - exists principal, decoded, os, r. split_and!; try done. by left.
  - assert (Deciding (rq_Op r) = true) as Hd by (rewrite Hop; reflexivity).
    exists principal, decoded, os, r. split_and!; try done. right. split_and!; try done; [by eapply deciding_principal|].
    by apply authorise_deciding in Hauth as [? _].
Qed.

Lemma run_grounds config events s id :
  authorised (ow_approvals (sv_owner (server_run config events s))) id ->
  authorised (ow_approvals (sv_owner s)) id
  \/ exists pre e post, events = pre ++ e :: post /\ grounds config e (server_run config pre s) id.
Proof.
  induction events as [|e events IH] using rev_ind; [by left|].
  unfold server_run. rewrite fold_left_app. cbn [fold_left]. intros Ha.
  apply step_grounds in Ha as [Ha|Hg].
  - apply IH in Ha as [?|(pre & e' & post & -> & Hg)]; [by left|right]. exists pre, e', (post ++ [e]). by rewrite <- app_assoc.
  - right. by exists events, e, [].
Qed.

(** C11: Nothing is authorised behind the owner's back.  Whatever sequence of
    requests of both principals, sweeps and restarts the daemon went through, failed
    writes included, if it tells the runtime that it may perform an action it knew
    nothing of at the start, then at some point the firewall, under the owner's policy
    and the mandate on file, allowed exactly the action with that identifier, or the
    owner signed a grant of it over the owner's socket. *)
Theorem authorised_by_owner_or_policy config events s principal decoded r os response s' :
  readApproval (ow_approvals (sv_owner s)) (rq_ActionID r) = Ok None ->
  DecodeRequest decoded = Ok r -> rq_Op r = OpClaimAction ->
  handle config principal decoded os (server_run config events s) = (response, s') -> lr_Authorised response = true ->
  exists pre e post, events = pre ++ e :: post /\ grounds config e (server_run config pre s) (rq_ActionID r).
Proof.
  intros Hnone Hr Hop Hh Hauth.
  destruct (run_grounds config events s (rq_ActionID r)) as [(a & Ha & _)|?]; [|congruence|done].
  unfold handle in Hh. rewrite Hr in Hh. destruct (negb _); [by injection Hh as <- <-|].
  destruct (os_cancelled os); [by injection Hh as <- <-|]. destruct (authoriseDecision _ _ _ _) as [[u|e] c]; [|by injection Hh as <- <-].
  unfold serve, on_owner, claimAction in Hh. rewrite Hop in Hh. unfold SpendApproval in Hh. cbn [with_challenges sv_owner] in Hh.
  destruct (approval_on_file _ _ _) as [a|e] eqn:Ha; [|by destruct (_ || _); injection Hh as <- <-].
  apply approval_on_file_Ok in Ha as (_ & _ & _ & Ha).
  destruct (bool_decide (ap_State a = ApprovalGranted)) eqn:Hg; cbn [negb] in Hh; [|by destruct (_ || _); injection Hh as <- <-].
  apply bool_decide_eq_true in Hg. exists a. split; [done|by left].
Qed.

(** What the owner is shown is what is asked.  When the daemon lists the
    waiting actions, each one shows the fields of the record on file, and the action
    those fields describe is the one its identifier names. *)
Theorem shown_actions_named limit now s response :
  pendingActions limit now s = response -> lr_OK response = true ->
  exists waiting, ListPendingApprovals now limit s = Ok waiting /\ lr_Actions response = List.map waiting_action waiting
  /\ Forall (fun a => ActionID (approved_action a) = Ok (ap_ActionID a)) waiting.
Proof.
  unfold pendingActions. intros <- Hok. destruct (ListPendingApprovals now limit s) as [waiting|]; [|done].
  destruct (forallb approvalReproducesID waiting) eqn:Hf; [|done]. exists waiting. split_and!; try done.
  rewrite forallb_forall in Hf. apply Forall_forall. intros a Ha%list_elem_of_In. apply Hf in Ha. unfold approvalReproducesID in Ha.
  destruct (ActionID _) as [id|]; [|done]. apply String.eqb_eq in Ha. by subst.
Qed.
End Safety.

(** ** What an automatic spend rests on *)

Section Spending.
  Context `{JO : JSONObjects}.

Lemma evaluate_spend_allow policy m a now d :
  EvaluateSpend policy m a now = Ok d -> d_Outcome d = Allow ->
  exists t, ac_Terms a = Some t /\ Mandate_PermitsCommit m t now = Ok false.
Proof.
  unfold EvaluateSpend. intros H Ha. destruct (negb _); [done|]. destruct (Evaluate policy a) as [d0|]; [|done].
  destruct (bool_decide (d_Outcome d0 = Refuse)) eqn:Hr; [injection H as <-; apply bool_decide_eq_true in Hr; congruence|].
  destruct (ac_Terms a) as [t|]; [|by injection H as <-]. destruct (Terms_Validate t); [|by injection H as <-].
  destruct (Mandate_PermitsCommit m t now) as [[]|] eqn:Hm; [by injection H as <-| |by injection H as <-]. by exists t.
Qed.

Lemma claim_fresh w d ex act now s b s1 : claimExecution w d ex act now s = (Ok (b, true), s1) -> b = act.
Proof. unfold claimExecution. intros H. repeat (case_match; simplify_eq; try done). Qed.

(** A hold that was granted is on disk, inside a well-formed budget of the mandate. *)
Definition held_for (mandateID : string) (m : Mandate) (ex : string) (price : Money) (s : Owner) : Prop :=
  exists l st, OpenMandateBudgetLedger mandateID (mo_Asset (m_MaxTotal m)) (ow_budgets s) = Ok l
  /\ BudgetLedger_Load l (ow_budgets s) = Ok (Some st) /\ state_wf st /\ bs_Total st = m_MaxTotal m
  /\ bs_Reserved st !! ex = Some price.

Lemma Record_held l st disk : bk_held (BudgetLedger_Record l st disk).2 = bk_held disk.
Proof.
  unfold BudgetLedger_Record. destruct (negb _); [done|]. destruct (negb _); [done|]. destruct (next_outcome _).
  destruct (file_replace _ _ _ _). by destruct (bl_dir l).
Qed.

Lemma record_ledger_held b l r l' : Budget_record b l = (r, l') -> bk_held (dk_disk l') = bk_held (dk_disk l) /\ dk_handle l' = dk_handle l.
Proof.
  unfold Budget_record. cbn [ledger_Record disk_Ledger]. intros H.
  pose proof (Record_held (dk_handle l) (MkBudgetState (bd_total b) (bd_spent b) (bd_reserved b)) (dk_disk l)) as E.
  destruct (BudgetLedger_Record _ _ _) as [x disk]. by injection H as <- <-.
Qed.

Lemma open_wf total (l : disk_ledger) b l' :
  (forall st, ledger_Load l = Ok (Some st) -> state_wf st) -> OpenBudget total (Some l) = (Ok b, Some l') ->
  budget_wf b /\ bd_total b = total /\ bk_held (dk_disk l') = bk_held (dk_disk l) /\ dk_handle l' = dk_handle l.
Proof.
  intros Hwf H. unfold OpenBudget in H. destruct (Money_Validate total) as [[]|] eqn:Hv; [|done].
  destruct (ledger_Load l) as [[st|]|] eqn:Hl; [| |done].
  - destruct (Money_Equal (bs_Total st) total) eqn:He; [|done]. cbn [negb] in H. injection H as <- <-.
    apply Money_Equal_eq in He. subst total. split_and!; try done. specialize (Hwf _ eq_refl). unfold budget_wf, budget_state. by destruct st.
  - destruct (Budget_record _ l) as [[u|] l1] eqn:Hr; [|done]. injection H as <- <-. apply record_ledger_held in Hr as [? ?].
    split_and!; try done. by apply wf_empty.
Qed.

Lemma reserve_held mandateID m ex price s u s' :
  (forall l st, BudgetLedger_Load l (ow_budgets s) = Ok (Some st) -> state_wf st) ->
  reserveMandateBudget mandateID m ex price s = (Ok u, s') -> held_for mandateID m ex price s'.
Proof.
  intros Hwf H. unfold reserveMandateBudget in H.
  destruct (OpenMandateBudgetLedger _ _ _) as [handle|] eqn:Ho; [|done].
  destruct (OpenBudget _ _) as [[b|e] [l|]] eqn:Hb; try done.
  destruct (Budget_Reserve ex price (b, l)) as [r [b' l']] eqn:Hr. injection H as -> <-.
  apply open_wf in Hb as (Hbw & Ht & Hh & Hd); [|intros st Hst; exact (Hwf handle st Hst)]. cbn [dk_disk dk_handle] in Hh, Hd.
  destruct u. pose proof (Reserve_granted _ _ _ _ _ _ Hr) as [Hres Hrec]. apply Reserve_outcome in Hr.
  assert (budget_wf b' /\ bd_total b' = bd_total b) as [Hw' Ht'].
  { inversion Hr; subst; [done|]. match goal with N : next_budget _ _ _ |- _ => destruct N end. auto. }
  pose proof (record_ledger_held _ _ _ _ Hrec) as [Hh' Hd'].
  unfold Budget_record in Hrec. apply ledger_record_ok in Hrec; [|exact Hw'].
  exists handle, (budget_state b'). cbn [with_budgets ow_budgets]. split_and!.
  - unfold OpenMandateBudgetLedger in *. by rewrite Hh', Hh.
  - cbn [ledger_Load disk_Ledger] in Hrec. by rewrite Hd', Hd in Hrec.
  - exact Hw'.
  - cbn. congruence.
  - exact Hres.
Qed.

Lemma auto_frame w q s r s' : RecordAutoAuthorization w q s = (r, s') -> exists d, s' = with_approvals s d.
Proof.
  unfold RecordAutoAuthorization. assert (s = with_approvals s (ow_approvals s)) as Hs by (by destruct s).
  intros H. repeat (case_match; simplify_eq; try by eexists).
  destruct (commitApproval_frame w (fresh_approval q ApprovalGranted (aq_AskedAt q)) s) as [d Hd]. rewrite H in Hd. by exists d.
Qed.

Lemma auto_on_file w q s a s' : RecordAutoAuthorization w q s = (Ok a, s') -> readApproval (ow_approvals s') (aq_ActionID q) = Ok (Some a).
Proof.
  unfold RecordAutoAuthorization. intros H.
  destruct (call owner_usable s; call validateApprovalRequest q; readApproval (ow_approvals s) (aq_ActionID q)) as [[x|]|] eqn:E; [| |done].
  - injection H as <- <-. destruct (owner_usable s); [|done]. by destruct (validateApprovalRequest q).
  - destruct (commitApproval_cases _ _ _ _ _ H) as [[_ ?]|[-> [Hr|?]]]; [done| |done]. apply Ok_inj in Hr. subst a.
    by apply readApproval_write.
Qed.

End Spending.

(** ** The order of an economic send *)

Section Sending.
  Context `{CP : CommerceProtocol}.

(** The action is known under this request in one of these states. *)
Definition at_stage (d : document) (a : AuthorizedAction) (states : list ActionState) : Prop :=
  exists r, dc_Actions d !! aa_StableActionID a = Some r /\ rn_ExactRequestDigest r = aa_ExactRequestDigest a /\ rn_State r ∈ states.

Lemma admit_known w a fence fields exact now s r s1 :
  economic_Admit w a fence fields exact now s = (Ok r, s1) -> rn_State r <> ActionConflict ->
  dc_Actions (st_doc s1) !! aa_StableActionID a = Some r /\ rn_ExactRequestDigest r = aa_ExactRequestDigest a
  /\ forall r0, dc_Actions (st_doc s) !! aa_StableActionID a = Some r0 -> r0 = r.
Proof.
  unfold economic_Admit. intros H Hc. destruct (VerifyAuthorizedAction _ _ _ _ _ _); [|done]. destruct (WriterFenceDigest fence); [|done].
  cbv zeta in H. destruct (_ <? _); [done|]. destruct (_ && _); [done|].
  destruct (dc_Actions (st_doc s) !! _) as [prior|] eqn:Ep.
  - destruct (String.eqb_spec (rn_ExactRequestDigest prior) (aa_ExactRequestDigest a)) as [E|]; cbn [negb] in H;
      injection H as <- <-; [|done]. split_and!; [done..|]. by intros r0 [= ->].
  - destruct (_ <=? _); [done|]. destruct (persistLocked w _) as [[u|e] s'] eqn:E; [|done]. injection H as <- <-.
    apply persistLocked_cases in E as (-> & _). cbn [with_doc st_doc dc_Actions]. split_and!; [apply lookup_insert_eq|done..].
Qed.

Lemma submit_known w id digest s r s1 :
  economic_Submit w id digest s = (Ok r, s1) -> dc_Actions (st_doc s1) !! id = Some r /\ rn_ExactRequestDigest r = digest.
Proof.
  unfold economic_Submit. destruct (dc_Actions _ !! id) as [prior|] eqn:Ep; [|done].
  destruct (String.eqb_spec (rn_ExactRequestDigest prior) digest) as [E|]; cbn [negb]; [|done].
  destruct (_ || _); [by intros [= <- <-]|]. destruct (negb _); [done|]. unfold store_action.
  destruct (persistLocked w _) as [[u|e] s'] eqn:Es; [|done]. intros [= <- <-]. apply persistLocked_cases in Es as (-> & _).
  cbn [with_doc st_doc set_action dc_Actions rn_ExactRequestDigest]. split; [apply lookup_insert_eq|done].
Qed.

Lemma accept_known w id digest event s r s1 :
  economic_Accept w id digest event s = (Ok r, s1) ->
  dc_Actions (st_doc s1) !! id = Some r /\ rn_ExactRequestDigest r = digest /\ rn_State r = ActionAccepted /\ rn_SinkReference r = event.
Proof.
  unfold economic_Accept. destruct (dc_Actions _ !! id) as [prior|] eqn:Ep; [|done].
  destruct (String.eqb_spec (rn_ExactRequestDigest prior) digest) as [E|]; cbn [negb]; [|done].
  case_bool_decide as Ha.
  - destruct (String.eqb_spec (rn_SinkReference prior) event) as [Ee|]; cbn [negb]; [|done]. by intros [= <- <-].
  - destruct (negb _ && _); [done|]. destruct (ValidateActionResolution _); [|done]. unfold store_action.
    destruct (persistLocked w _) as [[u|e] s'] eqn:Es; [|done]. intros [= <- <-]. apply persistLocked_cases in Es as (-> & _).
    cbn [with_doc st_doc set_action dc_Actions rn_ExactRequestDigest rn_State rn_SinkReference]. by rewrite lookup_insert_eq.
Qed.

Lemma submit_in_step w id digest s : in_step s -> in_step (economic_Submit w id digest s).2.
Proof. intros Hs. by apply (economic_step_advances (OpEconomicSubmit w id digest)). Qed.

Lemma on_disk s a states :
  in_step s -> at_stage (st_doc s) a [ActionSubmitted] ->
  states = [ActionSubmitted; ActionAccepted] ->
  exists d, st_files s !! economic_file = Some (ERec d) /\ at_stage d a states.
Proof.
  intros (d & Hf & Ha) (r & Hr & Hd & Hs) ->. apply list_elem_of_singleton in Hs. exists d. split; [done|].
  destruct (ahead_actions _ _ Ha _ _ Hr) as (r' & Hr' & Hm). apply moves_same in Hm as (E & _ & Hm).
  exists r'. split_and!; [done|congruence|]. destruct (Hm Hs) as [->|Hx]; [rewrite Hs|rewrite Hx]; set_solver.
Qed.

(** An economic message leaves only after it is on record, and not again once
    it was taken.  Handling a send either calls the sender not at all, or once, with
    the message the authorised request decodes to, at a moment when the store, in
    memory and on disk, holds the action as submitted under exactly this request; it is
    not called for an action that was already accepted; and when the answer is that the
    message was sent, the action is recorded as accepted. *)
Theorem economic_send_ordered {W} w1 w2 w3 (send : outgoing -> W -> result DirectMessageResult * W) a fence values exact now s world response s' world' :
  in_step s -> economicSendDirect w1 w2 w3 send a fence values exact now s world = (response, s', world') ->
  (world' = world
   \/ exists effect mid d, DecodeMessengerEffectRequest exact = Ok effect /\ world' = (send (message_of a effect) world).2
      /\ at_stage (st_doc mid) a [ActionSubmitted]
      /\ st_files mid !! economic_file = Some (ERec d) /\ at_stage d a [ActionSubmitted; ActionAccepted]
      /\ (s' = mid \/ exists event, s' = (economic_Accept w3 (aa_StableActionID a) (aa_ExactRequestDigest a) event mid).2)
      /\ ~ at_stage (st_doc s) a [ActionAccepted])
  /\ (lr_OK response = true -> at_stage (st_doc s') a [ActionAccepted]).
Proof.
  intros Hs H. unfold economicSendDirect in H.
  destruct (DecodeMessengerEffectRequest exact) as [effect|] eqn:Ex; [|injection H as <- <- <-; by split; [left|]].
  destruct (ImportSemanticFields _ _) as [fields|]; [|injection H as <- <- <-; by split; [left|]].
  destruct (negb (economicKindMatchesEffect _ _)); [injection H as <- <- <-; by split; [left|]|].
  match type of H with match ?x with _ => _ end = _ => destruct x; [|injection H as <- <- <-; by split; [left|]] end.
  pose proof (economic_admit_advances w1 a fence fields exact now s Hs) as [Hs1 _].
  destruct (economic_Admit _ _ _ _ _ _ _) as [[r|] s1] eqn:Ha; [|injection H as <- <- <-; by split; [left|]]. cbn [snd] in Hs1.
  case_bool_decide as Hc; [injection H as <- <- <-; by split; [left|]|].
  apply admit_known in Ha as (Hk & Hdg & Hsame); [|done].
  case_bool_decide as Hacc; [injection H as <- <- <-; split; [by left|intros _; exists r; rewrite Hacc; set_solver]|].
  destruct (negb _ && _) eqn:Hst; [injection H as <- <- <-; by split; [left|]|].
  match type of H with match ?x with _ => _ end = _ => destruct x as [[] mid] eqn:Em end;
    [|injection H as <- <- <-; by split; [left|]].
  assert (in_step mid /\ at_stage (st_doc mid) a [ActionSubmitted]) as [Hmid Hsub].
  { case_bool_decide as Hp.
    - pose proof (submit_in_step w2 (aa_StableActionID a) (aa_ExactRequestDigest a) s1 Hs1) as Hm.
      destruct (economic_Submit _ _ _ _) as [[r2|] s2] eqn:Hsb; [|done]. injection Em as Hb <-. apply bool_decide_eq_true in Hb.
      apply submit_known in Hsb as [? ?]. split; [done|]. exists r2. rewrite Hb. set_solver.
    - injection Em as <-. split; [done|]. exists r. cbn in Hst.
      apply negb_false_iff, bool_decide_eq_true in Hst. rewrite Hst. set_solver. }
  assert (~ at_stage (st_doc s) a [ActionAccepted]) as Hnot.
  { intros (r0 & Hr0 & _ & Hx). apply list_elem_of_singleton in Hx. apply Hsame in Hr0. congruence. }
  destruct (on_disk mid a _ Hmid Hsub eq_refl) as (d & Hd & Hdisk).
  destruct (send (message_of a effect) world) as [[sent|e] after] eqn:Esend.
  2: { injection H as <- <- <-. split; [|done]. right. exists effect, mid, d. rewrite Esend. split_and!; auto. }
  destruct (economic_Accept _ _ _ _ _) as [[r3|e] s3] eqn:Hac; injection H as <- <- <-; (split; [right; exists effect, mid, d; rewrite Esend|]).
  - split_and!; try done. right. exists (dm_EventID sent). by rewrite Hac.
  - intros _. apply accept_known in Hac as (? & ? & Hx & _). exists r3. rewrite Hx. set_solver.
  - split_and!; try done. right. exists (dm_EventID sent). by rewrite Hac.
  - done.
Qed.
End Sending.

(** ** Examples *)

#[local] Existing Instance toy_ed25519.
#[local] Existing Instance toy_addresses.
#[local] Existing Instance toy_protocol.
#[local] Existing Instance toy_Protocol.
#[local] Existing Instance toy_AttachmentFormats.

Definition owner_public : bytes := List.repeat x07 32.
Definition owner_private : bytes := List.repeat x00 32 ++ owner_public.

(** Own initiative may spend; what derives from received content may only answer. *)
Definition sample_config : LocalConfig := MkLocalConfig (MkPolicy EffectMessage EffectSpend) owner_public "" None.
Definition outside (now : time) (random : option bytes) : Outside :=
  MkOutside now WOk WOk WOk random (fun _ => true) true None (fun _ i => (local_refuse CodeInternal (NewError "not here"), i)).
Definition first_server : Server := MkServer no_devices no_decisions None (newChallenges 0).

Definition sample_asset_identity : AssetIdentity := Eval vm_compute in
  MkAssetIdentity (nw_ID sample_network) sample_hash sample_hash (a_Workchain sample_asset) (a_AccountID sample_asset)
    (a_MasterCodeHash sample_asset) (a_WalletCodeHash sample_asset) (a_Decimals sample_asset).
Definition sample_mandate_terms : MandateTerms := MkMandateTerms "buy compute" "commit" "compute.gpu" sample_asset_identity "1000" "500" 4 3000.
Definition sample_purchase : PurchaseTerms :=
  MkPurchaseTerms ("cap_" +:+ sample_hash) "v1" "compute.gpu" ("agent_" +:+ sample_hash) sample_digest sample_digest
    sample_asset_identity "300" sample_digest sample_digest 2000.
Definition purchase_as (summary : string) (derived : list ActionOrigin) : ProposedAction :=
  MkProposed "spend" summary "" derived (Some sample_purchase) None.
Definition received_from : ActionOrigin :=
  MkActionOrigin ("agent_" +:+ sample_hash) ("mep_" +:+ sample_hash) ("dev_" +:+ sample_hash) ("evt_" +:+ sample_hash)
    ("conv_" +:+ sample_hash) "chat" 5.

(** A challenge, and a decision of the owner that answers it. *)
Definition ask_challenge (byte_ : byte) (now : time) : server_event :=
  Handled PrincipalOwner (Ok (request_of OpChallenge "" "" "" [] 0 None "" "" None "" "" "")) (outside now (Some (List.repeat byte_ 32))).
Definition owner_decision (op : Operation) (byte_ : byte) (actionID reason : string) (mandate : option MandateTerms) : Request :=
  let challenge := hex_encode (List.repeat byte_ 32) in
  let unsigned := request_of op "" "" "" [] 0 None actionID reason mandate challenge "" "" in
  request_of op "" "" "" [] 0 None actionID reason mandate challenge
    (match SignDecision unsigned challenge owner_private with Ok s => s | Err _ => "" end) "".
Definition decide_at (r : Request) (now : time) : server_event := Handled PrincipalOwner (Ok r) (outside now None).
Definition place_request : Request := Eval vm_compute in owner_decision OpPlaceMandate x01 "" "" (Some sample_mandate_terms).
Definition mandate_server : Server := Eval vm_compute in
  server_run sample_config [ask_challenge x01 100; decide_at place_request 101] first_server.
Definition placed_id : string := Eval vm_compute in match MandateID (mandate_of_terms sample_mandate_terms) with Ok id => id | Err _ => "" end.

Definition ask_spend (p : ProposedAction) (now : time) : server_event :=
  Handled PrincipalRuntime (Ok (request_of OpRequestAction "" "" "" [] 0 (Some p) "" "" None "" "" placed_id)) (outside now None).
Definition own_spend : ProposedAction := purchase_as "rent a machine" [].
Definition asked_spend_of : ProposedAction := purchase_as "rent the machine they asked for" [received_from].
Definition own_spend_id : string := Eval vm_compute in match ActionID (toAction own_spend) with Ok id => id | Err _ => "" end.
Definition asked_spend_id : string := Eval vm_compute in match ActionID (toAction asked_spend_of) with Ok id => id | Err _ => "" end.
Definition claim_request : Request := request_of OpClaimAction "" "" "" [] 0 None own_spend_id "" None "" "" "".
Definition spending_server : Server := Eval vm_compute in server_run sample_config [ask_spend own_spend 102] mandate_server.

Lemma decision_needs_owner_witness :
  lr_OK (handle sample_config PrincipalOwner (Ok place_request) (outside 101 None) (server_run sample_config [ask_challenge x01 100] first_server)).1 = true
  /\ signed_by_owner sample_config place_request.
Proof.
  set (s := server_run sample_config [ask_challenge x01 100] first_server). split; [vm_compute; reflexivity|].
  destruct (decision_needs_owner sample_config PrincipalOwner (Ok place_request) place_request (outside 101 None) s
    (handle sample_config PrincipalOwner (Ok place_request) (outside 101 None) s).1
    (handle sample_config PrincipalOwner (Ok place_request) (outside 101 None) s).2) as [(_ & H & _)|[H _]].
  - vm_compute. reflexivity.
  - vm_compute. reflexivity.
  - apply surjective_pairing.
  - exact H.
  - vm_compute in H. discriminate H.
Defined.

Lemma authorised_by_owner_or_policy_witness :
  lr_Authorised (handle sample_config PrincipalRuntime (Ok claim_request) (outside 103 None)
    (server_run sample_config [ask_spend own_spend 102] mandate_server)).1 = true
  /\ exists pre e post, [ask_spend own_spend 102] = pre ++ e :: post
     /\ grounds sample_config e (server_run sample_config pre mandate_server) own_spend_id.
Proof.
  split; [vm_compute; reflexivity|].
  eapply (authorised_by_owner_or_policy sample_config [ask_spend own_spend 102] mandate_server PrincipalRuntime (Ok claim_request)
    claim_request (outside 103 None)).
  - vm_compute. reflexivity.
  - vm_compute. reflexivity.
  - reflexivity.
  - apply surjective_pairing.
  - vm_compute. reflexivity.
Defined.

Definition waiting_server : Server := Eval vm_compute in server_run sample_config [ask_spend asked_spend_of 103] spending_server.

Lemma shown_actions_named_witness :
  exists waiting, ListPendingApprovals 104 0 (sv_owner waiting_server) = Ok waiting
  /\ List.map wa_ActionID (lr_Actions (pendingActions 0 104 (sv_owner waiting_server))) = [asked_spend_id]
  /\ Forall (fun a => ActionID (approved_action a) = Ok (ap_ActionID a)) waiting.
Proof.
  destruct (shown_actions_named 0 104 (sv_owner waiting_server) (pendingActions 0 104 (sv_owner waiting_server))) as (waiting & H1 & _ & H3);
    [reflexivity|vm_compute; reflexivity|]. exists waiting. split; [exact H1|]. split; [vm_compute; reflexivity|exact H3].
Defined.

Lemma empty_disk_loads_nothing l st : BudgetLedger_Load l (MkBudgetDisk true ∅ ∅ []) <> Ok (Some st).
Proof.
  unfold BudgetLedger_Load, read_ledger_file. cbn [bk_held negb]. assert (ledger_files (bl_dir l) (MkBudgetDisk true ∅ ∅ []) = ∅) as ->
    by (by destruct (bl_dir l)). by rewrite lookup_empty.
Qed.


(** The sender of the example counts its messages. *)
Definition counting_sender (o : outgoing) (n : nat) : result DirectMessageResult * nat :=
  (Ok (MkDirectResult "agent" "" "" "evt" "queued"), S n).
Lemma economic_send_ordered_witness :
  let '(response, s', sent) := economicSendDirect WOk WOk WOk counting_sender (new_writer "first") "root" [] [] 100 empty_store O in
  lr_OK response = true /\ sent = 1%nat /\ at_stage (st_doc s') (new_writer "first") [ActionAccepted].
Proof.
  destruct (economicSendDirect WOk WOk WOk counting_sender (new_writer "first") "root" [] [] 100 empty_store O) as [[response s'] sent] eqn:E.
  destruct (economic_send_ordered WOk WOk WOk counting_sender (new_writer "first") "root" [] [] 100 empty_store O response s' sent
    empty_store_in_step E) as [_ H].
  vm_compute in E. injection E as <- <- <-. split; [reflexivity|]. split; [reflexivity|]. apply H. reflexivity.
Defined.

(** ** Behaviours the code does not intend *)

(** What the budget of the mandate has spent and holds. *)
Definition budget_of (s : Server) : option (string * list string) :=
  let disk := ow_budgets (sv_owner s) in
  match OpenMandateBudgetLedger placed_id (toAsset sample_asset_identity) disk with
  | Err _ => None
  | Ok l => match BudgetLedger_Load l disk with
            | Ok (Some st) => Some (mo_Atomic (bs_Spent st), List.map (fun h => mo_Atomic h.2) (map_to_list (bs_Reserved st)))
            | _ => None
            end
  end.
Definition claim_at (now : time) (s : Server) : Response * Server :=
  handle sample_config PrincipalRuntime (Ok claim_request) (outside now None) s.

(** Two descriptions of one purchase share one hold.  The owner's denial of the second
    frees the hold of the first, which was authorised automatically and is still
    claimed: the mandate pays for a purchase its budget never counts. *)
Definition deny_request : Request := Eval vm_compute in owner_decision OpDenyAction x02 asked_spend_id "not from them" None.
Theorem denied_twin_frees_hold :
  let denied := server_run sample_config [ask_spend asked_spend_of 103; ask_challenge x02 104; decide_at deny_request 105] spending_server in
  budget_of spending_server = Some ("0", ["300"]) /\ budget_of denied = Some ("0", [])
  /\ lr_Authorised (claim_at 106 denied).1 = true /\ budget_of (claim_at 106 denied).2 = Some ("0", []).
Proof. vm_compute. repeat split. Qed.

(** A purchase that was claimed is asked for once more: the answer is that it is spent,
    and its price is held a second time, for good. *)
Theorem repeated_spend_held_again :
  let spent := (claim_at 103 spending_server).2 in
  budget_of spent = Some ("300", [])
  /\ budget_of (server_run sample_config [ask_spend own_spend 104; SweptApprovals [] 2000000] spent) = Some ("300", ["300"]).
Proof. vm_compute. repeat split. Qed.

(** A mandate that is no usable authorisation is refused to the owner, and stays on file. *)
Definition unusable_mandate : MandateTerms := MkMandateTerms "buy compute" "everything" "compute.gpu" sample_asset_identity "1000" "500" 4 3000.
Definition place_unusable : Request := Eval vm_compute in owner_decision OpPlaceMandate x01 "" "" (Some unusable_mandate).
Theorem refused_mandate_stays_on_file :
  let '(response, s) := handle sample_config PrincipalOwner (Ok place_unusable) (outside 101 None)
    (server_run sample_config [ask_challenge x01 100] first_server) in
  lr_OK response = false /\ length (lr_Mandates (api_listMandates (sv_owner s))) = 1%nat.
Proof. vm_compute. repeat split. Qed.
