(* ===== verification/Mailbox.v ===== *)
(** * The mailbox relay: [pkg/mailbox]

    A relay keeps opaque ciphertexts for mailboxes until they are fetched, deleted or
    expire.  [store.go] is the durable store and [ack.go] the receipt it signs;
    [auth.go] admits an operation under a grant an endpoint signed for a capability key
    and a request that key signed, [access_replay.go] uses every request once, and
    [finalized.go] finds the endpoint key in finalized agent state; [fanout.go] asks
    several relays to keep one message.

    A mailbox is a directory of record files, and the claims of requests are one more.
    File modes are not modelled.  The outcome of each creation, removal and directory
    sync is an argument of the operation that makes it. *)

From S2P Require Import Prelude Encoding Canon Files Json Money Identity Payload PayloadCodec E2ee Envelope.

(** ** Vocabulary *)

Definition relay_recordSchema : string := "tos.messaging.mailbox-record.v1".
Definition MaxListResults : Z := 256.
Definition MaxRecordBytes : Z := MaxCiphertextBytes + 2048.
Definition ErrRelayConflict : error := Sentinel "Relay message identity conflicts with stored ciphertext".
Definition ErrQuota : error := Sentinel "Mailbox Relay quota exceeded".
Definition accessClaimSchema : string := "tos.messaging.mailbox-access-claim.v1".
Definition MaxAccessClaims : Z := 100000.
Definition MaxClaimBytes : Z := 1024.
Definition ErrAccessReplay : error := Sentinel "Mailbox access request was replayed".
Definition AckSchema : string := "tos.messaging.stored-ack.v1".
Definition MaxAckBytes : Z := 2048.
Definition CapabilityGrantSchema : string := "tos.messaging.mailbox-capability-grant.v1".
Definition AccessRequestSchema : string := "tos.messaging.mailbox-access-request.v1".
Definition MaxGrantBytes : Z := 8192.
Definition MaxAccessRequestBytes : Z := 4096.
(** In seconds. *)
Definition MaxGrantLifetime : Z := 30 * 24 * 60 * 60.
Definition MaxRequestLifetime : Z := 2 * 60.
Definition MaxRequestFutureSkew : Z := 30.
Definition MaxRelayTargets : Z := 8.

Definition DomainStoredAck : string := "tos.messaging.stored-ack.v1" +:+ NUL.
Definition DomainMailboxCapabilityGrant : string := "tos.messaging.mailbox-capability-grant.v1" +:+ NUL.
Definition DomainMailboxAccessRequest : string := "tos.messaging.mailbox-access-request.v1" +:+ NUL.
Definition DomainMailboxOperationBody : string := "tos.messaging.mailbox-operation-body.v1" +:+ NUL.
Definition DomainMailboxAccessClaim : string := "tos.messaging.mailbox-access-claim.v1" +:+ NUL.

Definition ids_Mailbox : string -> bool := prefixed_hex64 "mbx_".
Definition ids_RelayMessage : string -> bool := prefixed_hex64 "msg_".

(** ** Receipts ([ack.go]) *)

Record StoredAck : Type := MkAck {
  sa_Schema : string;
  sa_MailboxID : string;
  sa_MessageID : string;
  sa_CiphertextDigest : string;
  sa_StoredAtUnix : Z;
  sa_ExpiresAtUnix : Z;
  sa_RelayPublicKeyHex : string;
  sa_SignatureHex : string;
}.

Definition ack_CanonicalBytes (a : StoredAck) : result bytes :=
  refuse negb (String.eqb (sa_Schema a) AckSchema) || negb (ids_Mailbox (sa_MailboxID a))
      || negb (ids_RelayMessage (sa_MessageID a)) || negb (ValidDigest (sa_CiphertextDigest a))
      || (sa_StoredAtUnix a =? 0) || (sa_ExpiresAtUnix a <=? sa_StoredAtUnix a)
      || (MaxEnvelopeLifetimeSeconds <? sa_ExpiresAtUnix a - sa_StoredAtUnix a)
    with NewError "invalid StoredAck";
  match hex_decode (sa_RelayPublicKeyHex a) with
  | None => Err (NewError "invalid StoredAck Relay key")
  | Some key =>
      refuse negb (blen key =? PublicKeySize) || IsZero key with NewError "invalid StoredAck Relay key";
      let b := bytes_of_string DomainStoredAck in
      let b := canon_Text b AckSchema in
      let b := canon_Text b (sa_MailboxID a) in
      let b := canon_Text b (sa_MessageID a) in
      let b := canon_Text b (sa_CiphertextDigest a) in
      let b := canon_Uint64 b (sa_StoredAtUnix a) in
      let b := canon_Uint64 b (sa_ExpiresAtUnix a) in
      Ok (canon_Bytes b key)
  end.

(** [ed25519.PrivateKey.Public] *)
Definition public_of (key : bytes) : bytes := drop 32 key.

Section Acks.
  Context `{Ed25519}.

Definition SignAck (a : StoredAck) (key : bytes) : result StoredAck :=
  refuse negb (blen key =? PrivateKeySize) with NewError "invalid Relay signing key";
  let unsigned := MkAck AckSchema (sa_MailboxID a) (sa_MessageID a) (sa_CiphertextDigest a) (sa_StoredAtUnix a) (sa_ExpiresAtUnix a)
                    (hex_encode (public_of key)) "" in
  let* preimage := ack_CanonicalBytes unsigned in
  Ok (MkAck AckSchema (sa_MailboxID a) (sa_MessageID a) (sa_CiphertextDigest a) (sa_StoredAtUnix a) (sa_ExpiresAtUnix a)
        (hex_encode (public_of key)) (hex_encode (ed25519_Sign key preimage))).

(** A signature in hexadecimal under a key. *)
Definition hex_signed (key preimage : bytes) (signatureHex : string) : bool :=
  match hex_decode signatureHex with
  | None => false
  | Some signature => (blen signature =? SignatureSize) && ed25519_Verify key preimage signature
  end.

Definition VerifyAck (a : StoredAck) : result unit :=
  let* preimage := ack_CanonicalBytes a in
  refuse negb (hex_signed (default [] (hex_decode (sa_RelayPublicKeyHex a))) preimage (sa_SignatureHex a))
    with NewError "invalid StoredAck signature";
  Ok tt.

Definition wireAck : list (string * jkind) :=
  [("schema", JK_String); ("opaque_mailbox_id", JK_String); ("message_id", JK_String); ("ciphertext_digest", JK_String);
   ("stored_at_unix", JK_Uint 64); ("expires_at_unix", JK_Uint 64); ("relay_public_key_hex", JK_String);
   ("relay_signature_hex", JK_String)].
Definition ack_vals (a : StoredAck) : list jval :=
  [VString (sa_Schema a); VString (sa_MailboxID a); VString (sa_MessageID a); VString (sa_CiphertextDigest a);
   VUint (sa_StoredAtUnix a); VUint (sa_ExpiresAtUnix a); VString (sa_RelayPublicKeyHex a); VString (sa_SignatureHex a)].

Definition EncodeAckJSON (a : StoredAck) : result bytes :=
  call VerifyAck a;
  Ok (marshal_struct no_omit wireAck (ack_vals a)).
Definition DecodeAckJSON (raw : bytes) : result StoredAck :=
  refuse (blen raw =? 0) || (MaxAckBytes <? blen raw) with NewError "StoredAck wire is outside its bound";
  match decode_struct wireAck raw with
  | Decoded [VString schema; VString mailbox; VString message; VString digest; VUint stored; VUint expires; VString key;
             VString signature] =>
      let a := MkAck schema mailbox message digest stored expires key signature in
      call VerifyAck a;
      Ok a
  | Trailing => Err (NewError "StoredAck has trailing JSON")
  | _ => Err (NewError "json")
  end.

(** ** Grants and requests ([auth.go]) *)

(** A grant or a request may carry any text for an operation; three are valid. *)
Definition OperationDeposit : string := "deposit".
Definition OperationRead : string := "read".
Definition OperationDelete : string := "delete".
Definition validOperation (operation : string) : bool :=
  String.eqb operation OperationDeposit || String.eqb operation OperationRead || String.eqb operation OperationDelete.

Record CapabilityGrant : Type := MkGrant {
  cg_Schema : string;
  cg_NetworkID : string;
  cg_GenesisRootHash : string;
  cg_GenesisFileHash : string;
  cg_AgentID : string;
  cg_EndpointID : string;
  cg_RelayPublicKeyHex : string;
  cg_MailboxID : string;
  cg_CapabilityPublicKeyHex : string;
  cg_Operations : list string;
  cg_IssuedAtUnix : Z;
  cg_ExpiresAtUnix : Z;
  cg_EndpointSignatureHex : string;
}.

Record AccessRequest : Type := MkAccess {
  rx_Schema : string;
  rx_GrantDigest : string;
  rx_Operation : string;
  rx_MailboxID : string;
  rx_BodyDigest : string;
  rx_NonceHex : string;
  rx_IssuedAtUnix : Z;
  rx_ExpiresAtUnix : Z;
  rx_CapabilitySignatureHex : string;
}.

Definition decodeFixedHex (value : string) (size : Z) : result bytes :=
  refuse negb (slen value =? size * 2) with NewError "wrong hexadecimal length";
  match hex_decode value with
  | None => Err (NewError "non-canonical hexadecimal value")
  | Some decoded =>
      refuse negb (String.eqb (hex_encode decoded) value) with NewError "non-canonical hexadecimal value";
      Ok decoded
  end.

(** [sort.SliceIsSorted] by [<]: no element is less than the one before it. *)
Fixpoint operations_sorted (l : list string) : bool :=
  match l with
  | a :: ((b :: _) as rest) => String.leb a b && operations_sorted rest
  | _ => true
  end.
Fixpoint operations_valid (previous : option string) (l : list string) : bool :=
  match l with
  | [] => true
  | a :: rest =>
      validOperation a && negb (match previous with Some p => String.eqb p a | None => false end) && operations_valid (Some a) rest
  end.

Definition validateGrant (g : CapabilityGrant) : result (bytes * bytes * bytes * bytes) :=
  refuse negb (String.eqb (cg_Schema g) CapabilityGrantSchema) || String.eqb (cg_NetworkID g) "" || (128 <? slen (cg_NetworkID g))
      || negb (ids_Agent (cg_AgentID g)) || negb (ids_Endpoint (cg_EndpointID g)) || negb (ids_Mailbox (cg_MailboxID g))
      || (Z.of_nat (length (cg_Operations g)) =? 0) || (3 <? Z.of_nat (length (cg_Operations g)))
      || (cg_IssuedAtUnix g =? 0) || (cg_ExpiresAtUnix g <=? cg_IssuedAtUnix g)
      || (MaxGrantLifetime <? cg_ExpiresAtUnix g - cg_IssuedAtUnix g)
    with NewError "invalid Mailbox capability grant";
  refuse negb (operations_sorted (cg_Operations g)) with NewError "Mailbox grant operations are not canonical";
  refuse negb (operations_valid None (cg_Operations g)) with NewError "invalid Mailbox grant operation";
  match decodeFixedHex (cg_GenesisRootHash g) 32, decodeFixedHex (cg_GenesisFileHash g) 32,
        decodeFixedHex (cg_RelayPublicKeyHex g) PublicKeySize, decodeFixedHex (cg_CapabilityPublicKeyHex g) PublicKeySize with
  | Ok root, Ok file, Ok relay, Ok capability =>
      refuse IsZero relay with NewError "invalid Relay public key";
      refuse IsZero capability with NewError "invalid capability public key";
      Ok (root, file, relay, capability)
  | Err _, _, _, _ => Err (NewError "invalid genesis root hash")
  | _, Err _, _, _ => Err (NewError "invalid genesis file hash")
  | _, _, Err _, _ => Err (NewError "invalid Relay public key")
  | _, _, Ok relay, Err _ =>
      refuse IsZero relay with NewError "invalid Relay public key";
      Err (NewError "invalid capability public key")
  end.

Definition GrantCanonicalBytes (g : CapabilityGrant) : result bytes :=
  let* keys := validateGrant g in
  let '(root, file, relay, capability) := keys in
  let b := bytes_of_string DomainMailboxCapabilityGrant in
  let b := canon_Text b CapabilityGrantSchema in
  let b := canon_Text b (cg_NetworkID g) in
  let b := canon_Bytes b root in
  let b := canon_Bytes b file in
  let b := canon_Text b (cg_AgentID g) in
  let b := canon_Text b (cg_EndpointID g) in
  let b := canon_Bytes b relay in
  let b := canon_Text b (cg_MailboxID g) in
  let b := canon_Bytes b capability in
  let b := canon_Uint32 b (u32 (Z.of_nat (length (cg_Operations g)))) in
  let b := fold_left canon_Text (cg_Operations g) b in
  let b := canon_Uint64 b (cg_IssuedAtUnix g) in
  Ok (canon_Uint64 b (cg_ExpiresAtUnix g)).

Definition GrantDigest (g : CapabilityGrant) : result string :=
  let* preimage := GrantCanonicalBytes g in
  Ok (canon_Digest preimage).

Definition sign_grant_as (g : CapabilityGrant) (signature : string) : CapabilityGrant :=
  MkGrant CapabilityGrantSchema (cg_NetworkID g) (cg_GenesisRootHash g) (cg_GenesisFileHash g) (cg_AgentID g) (cg_EndpointID g)
    (cg_RelayPublicKeyHex g) (cg_MailboxID g) (cg_CapabilityPublicKeyHex g) (cg_Operations g) (cg_IssuedAtUnix g) (cg_ExpiresAtUnix g)
    signature.
Definition SignGrant (g : CapabilityGrant) (endpointKey : bytes) : result CapabilityGrant :=
  refuse negb (blen endpointKey =? PrivateKeySize) with NewError "invalid Endpoint signing key";
  let* preimage := GrantCanonicalBytes (sign_grant_as g "") in
  Ok (sign_grant_as g (hex_encode (ed25519_Sign endpointKey preimage))).

Definition bad_key (key : bytes) : bool := negb (blen key =? PublicKeySize) || IsZero key.
Definition VerifyGrant (g : CapabilityGrant) (endpointKey relayKey : bytes) (now : time) : result unit :=
  let* preimage := GrantCanonicalBytes g in
  refuse bad_key endpointKey || bad_key relayKey with NewError "invalid Mailbox authority key";
  refuse negb (bool_decide (default [] (hex_decode (cg_RelayPublicKeyHex g)) = relayKey))
    with NewError "Mailbox grant names another Relay";
  refuse time_invalid now || (u64 now <? cg_IssuedAtUnix g) || (cg_ExpiresAtUnix g <=? u64 now)
    with NewError "Mailbox grant is outside its validity window";
  refuse negb (hex_signed endpointKey preimage (cg_EndpointSignatureHex g)) with NewError "invalid Mailbox grant signature";
  Ok tt.

Definition AccessRequestCanonicalBytes (r : AccessRequest) : result bytes :=
  refuse negb (String.eqb (rx_Schema r) AccessRequestSchema) || negb (ValidDigest (rx_GrantDigest r))
      || negb (validOperation (rx_Operation r)) || negb (ids_Mailbox (rx_MailboxID r)) || negb (ValidDigest (rx_BodyDigest r))
      || (rx_IssuedAtUnix r =? 0) || (rx_ExpiresAtUnix r <=? rx_IssuedAtUnix r)
      || (MaxRequestLifetime <? rx_ExpiresAtUnix r - rx_IssuedAtUnix r)
    with NewError "invalid Mailbox access request";
  match hex_decode (rx_NonceHex r) with
  | None => Err (NewError "invalid Mailbox access nonce")
  | Some nonce =>
      refuse negb (blen nonce =? 32) || IsZero nonce with NewError "invalid Mailbox access nonce";
      let b := bytes_of_string DomainMailboxAccessRequest in
      let b := canon_Text b AccessRequestSchema in
      let b := canon_Text b (rx_GrantDigest r) in
      let b := canon_Text b (rx_Operation r) in
      let b := canon_Text b (rx_MailboxID r) in
      let b := canon_Text b (rx_BodyDigest r) in
      let b := canon_Bytes b nonce in
      let b := canon_Uint64 b (rx_IssuedAtUnix r) in
      Ok (canon_Uint64 b (rx_ExpiresAtUnix r))
  end.

Definition sign_access_as (r : AccessRequest) (signature : string) : AccessRequest :=
  MkAccess AccessRequestSchema (rx_GrantDigest r) (rx_Operation r) (rx_MailboxID r) (rx_BodyDigest r) (rx_NonceHex r)
    (rx_IssuedAtUnix r) (rx_ExpiresAtUnix r) signature.
Definition SignAccessRequest (r : AccessRequest) (capabilityKey : bytes) : result AccessRequest :=
  refuse negb (blen capabilityKey =? PrivateKeySize) with NewError "invalid Mailbox capability signing key";
  let* preimage := AccessRequestCanonicalBytes (sign_access_as r "") in
  Ok (sign_access_as r (hex_encode (ed25519_Sign capabilityKey preimage))).

Definition grantAllows (g : CapabilityGrant) (expected : string) : bool := existsb (String.eqb expected) (cg_Operations g).

Definition VerifyAccessRequest (g : CapabilityGrant) (r : AccessRequest) (expected bodyDigest : string) (now : time) : result unit :=
  let* grantDigest := GrantDigest g in
  let* preimage := AccessRequestCanonicalBytes r in
  refuse negb (String.eqb (rx_GrantDigest r) grantDigest) || negb (String.eqb (rx_Operation r) expected)
      || negb (String.eqb (rx_MailboxID r) (cg_MailboxID g)) || negb (String.eqb (rx_BodyDigest r) bodyDigest)
    with NewError "Mailbox request does not match its grant or operation body";
  refuse negb (grantAllows g expected) with NewError "Mailbox grant does not allow the operation";
  refuse time_invalid now || (u64 (now + MaxRequestFutureSkew) <? rx_IssuedAtUnix r) || (rx_ExpiresAtUnix r <=? u64 now)
      || (rx_IssuedAtUnix r <? cg_IssuedAtUnix g) || (cg_ExpiresAtUnix g <? rx_ExpiresAtUnix r)
    with NewError "Mailbox request is outside its validity window";
  refuse negb (hex_signed (default [] (hex_decode (cg_CapabilityPublicKeyHex g))) preimage (rx_CapabilitySignatureHex r))
    with NewError "invalid Mailbox capability signature";
  Ok tt.

(** *** JSON forms *)

Definition wireGrant : list (string * jkind) :=
  [("schema", JK_String); ("network_id", JK_String); ("genesis_root_hash", JK_String); ("genesis_file_hash", JK_String);
   ("agent_id", JK_String); ("messaging_endpoint_id", JK_String); ("relay_public_key_hex", JK_String); ("opaque_mailbox_id", JK_String);
   ("capability_public_key_hex", JK_String); ("operations", JK_Strings); ("issued_at_unix", JK_Uint 64); ("expires_at_unix", JK_Uint 64);
   ("endpoint_signature_hex", JK_String)].
Definition grant_vals (g : CapabilityGrant) : list jval :=
  [VString (cg_Schema g); VString (cg_NetworkID g); VString (cg_GenesisRootHash g); VString (cg_GenesisFileHash g);
   VString (cg_AgentID g); VString (cg_EndpointID g); VString (cg_RelayPublicKeyHex g); VString (cg_MailboxID g);
   VString (cg_CapabilityPublicKeyHex g); VStrings (cg_Operations g); VUint (cg_IssuedAtUnix g); VUint (cg_ExpiresAtUnix g);
   VString (cg_EndpointSignatureHex g)].
Definition wireAccess : list (string * jkind) :=
  [("schema", JK_String); ("grant_digest", JK_String); ("operation", JK_String); ("opaque_mailbox_id", JK_String);
   ("body_digest", JK_String); ("nonce_hex", JK_String); ("issued_at_unix", JK_Uint 64); ("expires_at_unix", JK_Uint 64);
   ("capability_signature_hex", JK_String)].
Definition access_vals (r : AccessRequest) : list jval :=
  [VString (rx_Schema r); VString (rx_GrantDigest r); VString (rx_Operation r); VString (rx_MailboxID r); VString (rx_BodyDigest r);
   VString (rx_NonceHex r); VUint (rx_IssuedAtUnix r); VUint (rx_ExpiresAtUnix r); VString (rx_CapabilitySignatureHex r)].

Definition signature_encoded (s : string) : bool :=
  match hex_decode s with Some signature => blen signature =? SignatureSize | None => false end.

(** What both directions check of a grant, and of a request. *)
Definition check_grant (g : CapabilityGrant) : result unit :=
  let* _ := GrantCanonicalBytes g in
  refuse negb (signature_encoded (cg_EndpointSignatureHex g)) with NewError "invalid Mailbox grant signature encoding";
  Ok tt.
Definition check_access (r : AccessRequest) : result unit :=
  let* _ := AccessRequestCanonicalBytes r in
  refuse negb (signature_encoded (rx_CapabilitySignatureHex r)) with NewError "invalid Mailbox request signature encoding";
  Ok tt.

Definition strictJSON (raw : bytes) (limit : Z) (fields : list (string * jkind)) : result (list jval) :=
  refuse (blen raw =? 0) || (limit <? blen raw) with NewError "Mailbox authentication wire is outside its bound";
  match decode_struct fields raw with
  | Decoded vals => Ok vals
  | Trailing => Err (NewError "Mailbox authentication wire has trailing JSON")
  | Malformed => Err (NewError "json")
  end.

Definition EncodeGrantJSON (g : CapabilityGrant) : result bytes :=
  call check_grant g;
  Ok (marshal_struct no_omit wireGrant (grant_vals g)).
Definition DecodeGrantJSON (raw : bytes) : result CapabilityGrant :=
  let* vals := strictJSON raw MaxGrantBytes wireGrant in
  match vals with
  | [VString schema; VString network; VString root; VString file; VString agent; VString endpoint; VString relay; VString mailbox;
     VString capability; VStrings operations; VUint issued; VUint expires; VString signature] =>
      let g := MkGrant schema network root file agent endpoint relay mailbox capability operations issued expires signature in
      call check_grant g;
      Ok g
  | _ => Err (NewError "json")
  end.
Definition EncodeAccessRequestJSON (r : AccessRequest) : result bytes :=
  call check_access r;
  Ok (marshal_struct no_omit wireAccess (access_vals r)).
Definition DecodeAccessRequestJSON (raw : bytes) : result AccessRequest :=
  let* vals := strictJSON raw MaxAccessRequestBytes wireAccess in
  match vals with
  | [VString schema; VString grant; VString operation; VString mailbox; VString body; VString nonce; VUint issued; VUint expires;
     VString signature] =>
      let r := MkAccess schema grant operation mailbox body nonce issued expires signature in
      call check_access r;
      Ok r
  | _ => Err (NewError "json")
  end.

(** *** Bodies *)

Definition operationBody (operation : string) : bytes := canon_Text (bytes_of_string DomainMailboxOperationBody) operation.

Definition DepositBodyDigest (e : RelayEnvelope) : result string :=
  call ValidateRelay e;
  let b := operationBody OperationDeposit in
  let b := canon_Text b (re_OpaqueMailboxID e) in
  let b := canon_Text b (re_MessageID e) in
  let b := canon_Text b (canon_Digest (re_Ciphertext e)) in
  let b := canon_Text b (canon_Digest (bytes_of_string (re_StorageToken e))) in
  let b := canon_Text b (canon_Digest (bytes_of_string (re_AdmissionToken e))) in
  Ok (canon_Digest (canon_Uint64 b (re_ExpiresAtUnix e))).

Definition ReadBodyDigest (mailboxID : string) (limit : Z) : result string :=
  refuse negb (ids_Mailbox mailboxID) || (limit <? 1) || (MaxListResults <? limit) with NewError "invalid Mailbox read body";
  let b := canon_Text (operationBody OperationRead) mailboxID in
  Ok (canon_Digest (canon_Uint32 b (u32 limit))).

Definition DeleteBodyDigest (mailboxID messageID ciphertextDigest : string) : result string :=
  refuse negb (ids_Mailbox mailboxID) || negb (ids_RelayMessage messageID) || negb (ValidDigest ciphertextDigest)
    with NewError "invalid Mailbox delete body";
  let b := canon_Text (operationBody OperationDelete) mailboxID in
  let b := canon_Text b messageID in
  Ok (canon_Digest (canon_Text b ciphertextDigest)).

(** ** The store ([store.go]) *)

(** [MaxRetention] is a [time.Duration]. *)
Record relay_Quota : Type := MkRelayQuota {
  rq_MaxMessages : Z;
  rq_MaxMessagesPerBox : Z;
  rq_MaxBytes : Z;
  rq_MaxBytesPerBox : Z;
  rq_MaxRetention : Z;
}.
Definition relay_DefaultQuota : relay_Quota :=
  MkRelayQuota 10000 1000 (Z.shiftl 256 20) (Z.shiftl 32 20) (7 * 24 * 3600 * nanoseconds).
Definition relay_quota_validate (q : relay_Quota) : result unit :=
  refuse (rq_MaxMessages q <? 1) || (1000000 <? rq_MaxMessages q) || (rq_MaxMessagesPerBox q <? 1)
      || (rq_MaxMessages q <? rq_MaxMessagesPerBox q) || (rq_MaxBytes q <? MinCiphertextBytes) || (Z.shiftl 1 40 <? rq_MaxBytes q)
      || (rq_MaxBytesPerBox q <? MinCiphertextBytes) || (rq_MaxBytes q <? rq_MaxBytesPerBox q) || (rq_MaxRetention q <? nanoseconds)
      || (MaxEnvelopeLifetimeSeconds * nanoseconds <? rq_MaxRetention q)
    with NewError "invalid Mailbox Relay quota";
  Ok tt.

Record relay_record : Type := MkRelayRecord {
  rr_Schema : string;
  rr_MailboxID : string;
  rr_MessageID : string;
  rr_CiphertextBase64 : string;
  rr_CiphertextDigest : string;
  rr_StorageToken : string;
  rr_AdmissionToken : string;
  rr_StoredAtUnix : Z;
  rr_ExpiresAtUnix : Z;
}.

Definition relayEnvelope (r : relay_record) : result RelayEnvelope :=
  match b64_decode (rr_CiphertextBase64 r) with
  | None => Err (NewError "stored Relay ciphertext is corrupt")
  | Some ciphertext =>
      refuse negb (String.eqb (canon_Digest ciphertext) (rr_CiphertextDigest r)) with NewError "stored Relay ciphertext is corrupt";
      let e := MkRelay (rr_MailboxID r) (rr_MessageID r) ciphertext (rr_ExpiresAtUnix r) (rr_StorageToken r) (rr_AdmissionToken r) in
      call ValidateRelay e;
      Ok e
  end.

(** The JSON of a record, whose length [Put] bounds. *)
Definition wireRecord : list (string * jkind) :=
  [("schema", JK_String); ("opaque_mailbox_id", JK_String); ("message_id", JK_String); ("ciphertext_base64", JK_String);
   ("ciphertext_digest", JK_String); ("storage_token", JK_String); ("admission_token", JK_String); ("stored_at_unix", JK_Uint 64);
   ("expires_at_unix", JK_Uint 64)].
Definition record_vals (r : relay_record) : list jval :=
  [VString (rr_Schema r); VString (rr_MailboxID r); VString (rr_MessageID r); VString (rr_CiphertextBase64 r);
   VString (rr_CiphertextDigest r); VString (rr_StorageToken r); VString (rr_AdmissionToken r); VUint (rr_StoredAtUnix r);
   VUint (rr_ExpiresAtUnix r)].
Definition record_json (r : relay_record) : bytes := marshal_struct relay_omit wireRecord (record_vals r).

Record accessClaim : Type := MkAccessClaim {
  ax_Schema : string;
  ax_GrantDigest : string;
  ax_NonceHex : string;
  ax_ExpiresAtUnix : Z;
}.
Definition wireClaim : list (string * jkind) :=
  [("schema", JK_String); ("grant_digest", JK_String); ("nonce_hex", JK_String); ("expires_at_unix", JK_Uint 64)].
Definition claim_json (c : accessClaim) : bytes :=
  marshal_struct no_omit wireClaim
    [VString (ax_Schema c); VString (ax_GrantDigest c); VString (ax_NonceHex c); VUint (ax_ExpiresAtUnix c)].

(** An entry of the mailboxes directory: a mailbox, or something else. *)
Inductive box_entry : Type := NotBox | Box (entries : directory relay_record).

Record RelayStore : Type := MkRelayStore {
  ms_held : bool;
  ms_quota : relay_Quota;
  ms_key : bytes;
  ms_boxes : gmap string box_entry;
  ms_claims : directory accessClaim;
}.
Definition with_boxes (s : RelayStore) (boxes : gmap string box_entry) : RelayStore :=
  MkRelayStore (ms_held s) (ms_quota s) (ms_key s) boxes (ms_claims s).
Definition with_claims (s : RelayStore) (claims : directory accessClaim) : RelayStore :=
  MkRelayStore (ms_held s) (ms_quota s) (ms_key s) (ms_boxes s) claims.

(** [root_ok] says that the root and its two directories are there as they should. *)
Definition relay_Open (root_ok lockable : bool) (quota : relay_Quota) (key : bytes) (boxes : gmap string box_entry)
    (claims : directory accessClaim) : result RelayStore :=
  call relay_quota_validate quota;
  refuse negb (blen key =? PrivateKeySize) with NewError "invalid Mailbox Relay signing key";
  refuse negb root_ok with NewError "Mailbox Relay root must be a private directory";
  refuse negb lockable with NewError "directory is already owned";
  Ok (MkRelayStore true quota key boxes claims).

Definition RelayPublicKey (s : RelayStore) : bytes := if blen (ms_key s) =? PrivateKeySize then public_of (ms_key s) else [].
Definition relay_Close (s : RelayStore) : RelayStore :=
  if ms_held s then MkRelayStore false (ms_quota s) (List.repeat x00 (length (ms_key s))) (ms_boxes s) (ms_claims s) else s.

Definition relay_usable (s : RelayStore) : result unit :=
  refuse negb (ms_held s) with NewError "Mailbox Relay store is not owned";
  Ok tt.
Definition boxPath (id : string) : string := sdrop 4 id.
Definition message_file (id : string) : string := sdrop 4 id +:+ ".json".

Definition err_relay_record : error := NewError "invalid Mailbox Relay record".
Definition check_relay_record (r : relay_record) : result relay_record :=
  refuse negb (String.eqb (rr_Schema r) relay_recordSchema) || (rr_StoredAtUnix r =? 0) || (rr_ExpiresAtUnix r <=? rr_StoredAtUnix r)
      || negb (ValidDigest (rr_CiphertextDigest r))
    with err_relay_record;
  let* _ := relayEnvelope r in
  Ok r.
Definition relay_readRecord (d : directory relay_record) (name : string) : result relay_record :=
  let* r := read_file err_relay_record d name in
  check_relay_record r.

(** *** Quota *)

Record tally : Type := MkTally { ty_totalCount : Z; ty_boxCount : Z; ty_totalBytes : Z; ty_boxBytes : Z }.
Definition count_one (mine : bool) (bytes : Z) (t : tally) : tally :=
  MkTally (ty_totalCount t + 1) (if mine then ty_boxCount t + 1 else ty_boxCount t) (ty_totalBytes t + bytes)
    (if mine then ty_boxBytes t + bytes else ty_boxBytes t).
Fixpoint count_entries (mine : bool) (d : directory relay_record) (names : list string) (t : tally) : result tally :=
  match names with
  | [] => Ok t
  | name :: rest =>
      let* r := relay_readRecord d name in
      let* e := relayEnvelope r in
      count_entries mine d rest (count_one mine (blen (re_Ciphertext e)) t)
  end.
Definition box_names (boxes : gmap string box_entry) : list string := sort_strings (elements (dom boxes)).
Fixpoint count_boxes (mine : string) (boxes : gmap string box_entry) (names : list string) (t : tally) : result tally :=
  match names with
  | [] => Ok t
  | name :: rest =>
      match boxes !! name with
      | Some (Box d) =>
          let* t := count_entries (String.eqb name mine) d (dir_names d) t in
          count_boxes mine boxes rest t
      | _ => count_boxes mine boxes rest t
      end
  end.
Definition over_quota (q : relay_Quota) (additional : Z) (t : tally) : bool :=
  (rq_MaxMessages q <? ty_totalCount t + 1) || (rq_MaxMessagesPerBox q <? ty_boxCount t + 1)
  || (rq_MaxBytes q <? ty_totalBytes t + additional) || (rq_MaxBytesPerBox q <? ty_boxBytes t + additional).
Definition checkQuota (mailboxID : string) (additional : Z) (s : RelayStore) : result unit :=
  let* t := count_boxes (boxPath mailboxID) (ms_boxes s) (box_names (ms_boxes s)) (MkTally 0 0 0 0) in
  refuse over_quota (ms_quota s) additional t with ErrQuota;
  Ok tt.

(** *** Operations *)

(** [made] says that [Mkdir] worked where there was no mailbox. *)
Definition ensureBox (made : bool) (id : string) (s : RelayStore) : result (directory relay_record) * RelayStore :=
  if negb (ids_Mailbox id) then (Err (NewError "invalid mailbox identifier"), s) else
  match ms_boxes s !! boxPath id with
  | Some (Box d) => (Ok d, s)
  | Some NotBox => (Err (NewError "invalid mailbox directory"), s)
  | None => if made then (Ok ∅, with_boxes s (<[boxPath id := Box ∅]> (ms_boxes s))) else (Err (NewError "create mailbox"), s)
  end.

Definition record_of (e : RelayEnvelope) (now : time) : relay_record :=
  MkRelayRecord relay_recordSchema (re_OpaqueMailboxID e) (re_MessageID e) (b64_encode (re_Ciphertext e))
    (canon_Digest (re_Ciphertext e)) (re_StorageToken e) (re_AdmissionToken e) (u64 now) (re_ExpiresAtUnix e).
Definition same_relay (r : relay_record) (e : RelayEnvelope) : bool :=
  String.eqb (rr_MailboxID r) (re_OpaqueMailboxID e) && String.eqb (rr_MessageID r) (re_MessageID e)
  && String.eqb (rr_CiphertextDigest r) (canon_Digest (re_Ciphertext e)) && (rr_ExpiresAtUnix r =? re_ExpiresAtUnix e)
  && String.eqb (rr_StorageToken r) (re_StorageToken e) && String.eqb (rr_AdmissionToken r) (re_AdmissionToken e).
Definition ack_of (r : relay_record) : StoredAck :=
  MkAck "" (rr_MailboxID r) (rr_MessageID r) (rr_CiphertextDigest r) (rr_StoredAtUnix r) (rr_ExpiresAtUnix r) "" "".

Definition relay_Put (made : bool) (c : create_outcome) (e : RelayEnvelope) (now : time) (s : RelayStore)
    : result (bool * StoredAck) * RelayStore :=
  match (call relay_usable s; AcceptedForStorage e now (rq_MaxRetention (ms_quota s))) with
  | Err x => (Err x, s)
  | Ok _ =>
  match ensureBox made (re_OpaqueMailboxID e) s with
  | (Err x, s) => (Err x, s)
  | (Ok box, s) =>
  let path := message_file (re_MessageID e) in
  let stored := record_of e now in
  let acked fresh r := let* ack := SignAck (ack_of r) (ms_key s) in Ok (fresh, ack) in
  if MaxRecordBytes <? blen (record_json stored) then (Err (NewError "encode Mailbox Relay record"), s) else
  match box !! path with
  | None =>
      match checkQuota (re_OpaqueMailboxID e) (blen (re_Ciphertext e)) s with
      | Err x => (Err x, s)
      | Ok _ =>
          let '(made, box) := file_create c path stored box in
          let s := with_boxes s (<[boxPath (re_OpaqueMailboxID e) := Box box]> (ms_boxes s)) in
          match made with
          | Err _ => (Err (NewError "create Mailbox Relay record"), s)
          | Ok _ => (acked true stored, s)
          end
      end
  | Some _ =>
      match relay_readRecord box path with
      | Err x => (Err x, s)
      | Ok existing => if negb (same_relay existing e) then (Err ErrRelayConflict, s) else (acked false existing, s)
      end
  end end end.

Definition relay_le (a b : relay_record) : Prop :=
  rr_StoredAtUnix a < rr_StoredAtUnix b \/ rr_StoredAtUnix a = rr_StoredAtUnix b /\ str_le (rr_MessageID a) (rr_MessageID b).
#[global] Instance relay_le_dec a b : Decision (relay_le a b).
Proof. unfold relay_le. apply _. Defined.

(** The live records of a mailbox; any record that cannot be read ends the listing. *)
Fixpoint list_records (mailboxID : string) (seconds : Z) (d : directory relay_record) (names : list string) : result (list relay_record) :=
  match names with
  | [] => Ok []
  | name :: rest =>
      if is_dir d name then list_records mailboxID seconds d rest else
      let* r := relay_readRecord d name in
      refuse negb (String.eqb (rr_MailboxID r) mailboxID) || negb (String.eqb name (message_file (rr_MessageID r)))
        with NewError "Mailbox Relay record is in the wrong mailbox";
      let* others := list_records mailboxID seconds d rest in
      Ok (if seconds <? rr_ExpiresAtUnix r then r :: others else others)
  end.
Fixpoint open_records (records : list relay_record) : result (list RelayEnvelope) :=
  match records with
  | [] => Ok []
  | r :: rest => let* e := relayEnvelope r in let* others := open_records rest in Ok (e :: others)
  end.
Definition relay_List (mailboxID : string) (now : time) (limit : Z) (s : RelayStore) : result (list RelayEnvelope) :=
  call relay_usable s;
  refuse negb (ids_Mailbox mailboxID) with NewError "invalid mailbox identifier";
  refuse (limit <? 1) || (MaxListResults <? limit) || time_invalid now with NewError "invalid Mailbox Relay list request";
  match ms_boxes s !! boxPath mailboxID with
  | None => Ok []
  | Some NotBox => Err (NewError "read mailbox")
  | Some (Box d) =>
      let* records := list_records mailboxID (u64 now) d (dir_names d) in
      open_records (take (Z.to_nat limit) (merge_sort relay_le records))
  end.

Definition relay_Delete (removable synced : bool) (mailboxID messageID ciphertextDigest : string) (s : RelayStore)
    : result bool * RelayStore :=
  match (call relay_usable s;
         refuse negb (ids_Mailbox mailboxID) || negb (ids_RelayMessage messageID) || negb (ValidDigest ciphertextDigest)
           with NewError "invalid Mailbox Relay deletion"; Ok tt) with
  | Err e => (Err e, s)
  | Ok _ =>
  match ms_boxes s !! boxPath mailboxID with
  | Some (Box d) =>
      match relay_readRecord d (message_file messageID) with
      | Err e => (if bool_decide (e = ErrNotExist) then Ok false else Err e, s)
      | Ok r =>
          if negb (String.eqb (rr_MailboxID r) mailboxID) || negb (String.eqb (rr_MessageID r) messageID)
             || negb (String.eqb (rr_CiphertextDigest r) ciphertextDigest) then (Err ErrRelayConflict, s) else
          if negb removable then (Err (NewError "remove Mailbox Relay record"), s) else
          let s := with_boxes s (<[boxPath mailboxID := Box (delete (message_file messageID) d)]> (ms_boxes s)) in
          (if synced then Ok true else Err (NewError "sync"), s)
      end
  | None => (Ok false, s)
  | Some NotBox => (Err (NewError "read"), s)
  end end.

(** One mailbox of the sweep: the files removed, and where it stopped. *)
Fixpoint sweep_box (removable : string -> bool) (seconds : Z) (names : list string) (removed : Z) (d : directory relay_record)
    : (Z * option error) * directory relay_record :=
  match names with
  | [] => ((removed, None), d)
  | name :: rest =>
      match relay_readRecord d name with
      | Err e => ((removed, Some e), d)
      | Ok r =>
          if rr_ExpiresAtUnix r <=? seconds then
            if removable name then sweep_box removable seconds rest (removed + 1) (delete name d)
            else ((removed, Some (NewError "remove")), d)
          else sweep_box removable seconds rest removed d
      end
  end.
Fixpoint sweep_boxes (removable : string -> string -> bool) (synced : string -> bool) (seconds : Z) (names : list string) (removed : Z)
    (boxes : gmap string box_entry) : (Z * option error) * gmap string box_entry :=
  match names with
  | [] => ((removed, None), boxes)
  | name :: rest =>
      match boxes !! name with
      | Some (Box d) =>
          let '(removed, stopped, d) := sweep_box (removable name) seconds (dir_names d) removed d in
          let boxes := <[name := Box d]> boxes in
          match stopped with
          | Some e => ((removed, Some e), boxes)
          | None =>
              if (0 <? removed) && negb (synced name) then ((removed, Some (NewError "sync")), boxes)
              else sweep_boxes removable synced seconds rest removed boxes
          end
      | _ => sweep_boxes removable synced seconds rest removed boxes
      end
  end.
Definition relay_Sweep (removable : string -> string -> bool) (synced : string -> bool) (now : time) (s : RelayStore)
    : (Z * option error) * RelayStore :=
  match relay_usable s with
  | Err e => ((0, Some e), s)
  | Ok _ =>
      if time_invalid now then ((0, Some (NewError "invalid sweep time")), s) else
      let '(answer, boxes) := sweep_boxes removable synced (u64 now) (box_names (ms_boxes s)) 0 (ms_boxes s) in
      (answer, with_boxes s boxes)
  end.

(** ** Each request once ([access_replay.go]) *)

Definition accessClaimName (grantDigest nonceHex : string) : string :=
  let b := bytes_of_string DomainMailboxAccessClaim in
  let b := canon_Text b grantDigest in
  sdrop 7 (canon_Digest (canon_Text b nonceHex)).
Definition claim_file (grantDigest nonceHex : string) : string := accessClaimName grantDigest nonceHex +:+ ".json".

Definition err_access_claim : error := NewError "invalid Mailbox access claim".
Definition readAccessClaim (d : directory accessClaim) (name : string) : result accessClaim :=
  let* c := read_file err_access_claim d name in
  refuse negb (String.eqb (ax_Schema c) accessClaimSchema) || negb (ValidDigest (ax_GrantDigest c)) || (ax_ExpiresAtUnix c =? 0)
    with err_access_claim;
  refuse negb (is_ok (decodeFixedHex (ax_NonceHex c) 32)) with NewError "invalid Mailbox access claim nonce";
  refuse negb (String.eqb name (claim_file (ax_GrantDigest c) (ax_NonceHex c)))
    with NewError "Mailbox access claim is under the wrong name";
  Ok c.

(** The claims left, with the live ones counted; a claim that cannot be read ends the sweep, after what it removed. *)
Fixpoint sweep_claims (removable : string -> bool) (seconds : Z) (names : list string) (live : Z) (removed : bool)
    (d : directory accessClaim) : result (Z * bool) * directory accessClaim :=
  match names with
  | [] => (Ok (live, removed), d)
  | name :: rest =>
      if is_dir d name then (Err (NewError "invalid Mailbox access claim entry"), d) else
      match readAccessClaim d name with
      | Err e => (Err e, d)
      | Ok c =>
          if ax_ExpiresAtUnix c <=? seconds then
            if removable name then sweep_claims removable seconds rest live true (delete name d)
            else (Err (NewError "remove expired Mailbox access claim"), d)
          else sweep_claims removable seconds rest (live + 1) removed d
      end
  end.

Definition claim_of (r : AccessRequest) : accessClaim :=
  MkAccessClaim accessClaimSchema (rx_GrantDigest r) (rx_NonceHex r) (rx_ExpiresAtUnix r).
Definition claimAccess (removable : string -> bool) (synced : bool) (c : create_outcome) (r : AccessRequest) (now : time) (s : RelayStore)
    : result unit * RelayStore :=
  match (call relay_usable s; let* _ := AccessRequestCanonicalBytes r in
         refuse time_invalid now with NewError "invalid Mailbox access claim time"; Ok tt) with
  | Err e => (Err e, s)
  | Ok _ =>
  match sweep_claims removable (u64 now) (dir_names (ms_claims s)) 0 false (ms_claims s) with
  | (Err e, claims) => (Err e, with_claims s claims)
  | (Ok (live, removed), claims) =>
      if removed && negb synced then (Err (NewError "sync"), with_claims s claims) else
      if MaxAccessClaims <=? live then (Err ErrQuota, with_claims s claims) else
      if MaxClaimBytes <? blen (claim_json (claim_of r)) then (Err (NewError "encode Mailbox access claim"), with_claims s claims) else
      let '(made, claims) := file_create c (claim_file (rx_GrantDigest r) (rx_NonceHex r)) (claim_of r) claims in
      (match made with
       | Err e => if bool_decide (e = ErrExist) then Err ErrAccessReplay else Err (NewError "create Mailbox access claim")
       | Ok _ => Ok tt
       end, with_claims s claims)
  end end.

(** ** Authenticated operations *)

(** [FinalizedEndpointAuthority]: the live key of the endpoint a grant names. *)
Abbreviation EndpointAuthority := (CapabilityGrant -> time -> result bytes) (only parsing).

(** How the writes of one operation end. *)
Record relay_io : Type := MkRelayIO {
  io_claims_removable : string -> bool;
  io_claims_synced : bool;
  io_claim : create_outcome;
  io_made : bool;
  io_record : create_outcome;
  io_removable : bool;
  io_synced : bool;
}.

Definition relay_authorize (authority : EndpointAuthority) (io : relay_io) (g : CapabilityGrant) (r : AccessRequest)
    (operation bodyDigest : string) (now : time) (s : RelayStore) : result unit * RelayStore :=
  match (let* endpointKey := authority g now in
         call VerifyGrant g endpointKey (RelayPublicKey s) now;
         VerifyAccessRequest g r operation bodyDigest now) with
  | Err e => (Err e, s)
  | Ok _ => claimAccess (io_claims_removable io) (io_claims_synced io) (io_claim io) r now s
  end.

(** An operation under its body digest. *)
Definition authorized {A} (authority : EndpointAuthority) (io : relay_io) (g : CapabilityGrant) (r : AccessRequest) (operation : string)
    (body : result string) (now : time) (perform : RelayStore -> result A * RelayStore) (s : RelayStore) : result A * RelayStore :=
  match body with
  | Err e => (Err e, s)
  | Ok digest =>
      match relay_authorize authority io g r operation digest now s with
      | (Err e, s) => (Err e, s)
      | (Ok _, s) => perform s
      end
  end.
Definition auth_Put authority io g r (e : RelayEnvelope) now : RelayStore -> result (bool * StoredAck) * RelayStore :=
  authorized authority io g r OperationDeposit (DepositBodyDigest e) now (relay_Put (io_made io) (io_record io) e now).
Definition auth_List authority io g r now (limit : Z) : RelayStore -> result (list RelayEnvelope) * RelayStore :=
  authorized authority io g r OperationRead (ReadBodyDigest (cg_MailboxID g) limit) now
    (fun s => (relay_List (cg_MailboxID g) now limit s, s)).
Definition auth_Delete authority io g r (messageID ciphertextDigest : string) now : RelayStore -> result bool * RelayStore :=
  authorized authority io g r OperationDelete (DeleteBodyDigest (cg_MailboxID g) messageID ciphertextDigest) now
    (relay_Delete (io_removable io) (io_synced io) (cg_MailboxID g) messageID ciphertextDigest).

(** [FinalizedAuthority] ([finalized.go]); [source] is the document provisioned for an agent. *)
Definition ResolveMailboxEndpoint (resolver : option AgentResolver) (network : NetworkDomain) (chain : ChainPolicy)
    (source : string -> result bytes) (g : CapabilityGrant) (now : time) : result bytes :=
  refuse negb (String.eqb (cg_NetworkID g) (nd_NetworkId network)) || negb (String.eqb (cg_GenesisRootHash g) (nd_GenesisRootHash network))
      || negb (String.eqb (cg_GenesisFileHash g) (nd_GenesisFileHash network))
    with NewError "Mailbox grant belongs to another network";
  let* raw := source (cg_AgentID g) in
  let* d := identity_Verify resolver (Some network) chain raw now in
  refuse negb (String.eqb (dg_AgentID d) (cg_AgentID g)) || negb (String.eqb (dg_EndpointID d) (cg_EndpointID g))
    with NewError "Mailbox grant names another finalized Endpoint";
  refuse dg_ExpiresAtUnix d <? cg_ExpiresAtUnix g with NewError "Mailbox grant outlives its Endpoint delegation";
  Ok (dg_IdentityPublicKey d).

(** ** Several relays ([fanout.go]) *)

Record Attempt : Type := MkAttempt {
  at_RelayPublicKeyHex : string;
  at_Answer : result StoredAck;
}.
(** A client is its relay's key and what storing answers; [None] is a nil client. *)
Abbreviation RelayClient := (string * (RelayEnvelope -> result StoredAck))%type (only parsing).

Definition verifyStoredValue (a : StoredAck) (pinnedKey : string) (e : RelayEnvelope) : result unit :=
  call VerifyAck a;
  refuse negb (String.eqb (sa_RelayPublicKeyHex a) pinnedKey) || negb (String.eqb (sa_MailboxID a) (re_OpaqueMailboxID e))
      || negb (String.eqb (sa_MessageID a) (re_MessageID e)) || negb (String.eqb (sa_CiphertextDigest a) (canon_Digest (re_Ciphertext e)))
      || negb (sa_ExpiresAtUnix a =? re_ExpiresAtUnix e)
    with NewError "StoredAck does not bind the requested ciphertext";
  Ok tt.

Definition StoredCopies (attempts : list Attempt) : Z :=
  Z.of_nat (length (List.filter (fun a => is_ok (at_Answer a)) attempts)).
(** The attempts so far, in order, and whether a relay came twice. *)
Fixpoint fan_out (clients : list (option RelayClient)) (e : RelayEnvelope) (seen : gset string) (attempts : list Attempt)
    : list Attempt * bool :=
  match clients with
  | [] => (attempts, true)
  | None :: rest => fan_out rest e seen (attempts ++ [MkAttempt "" (Err (NewError "nil Relay client"))])
  | Some (key, store) :: rest =>
      if bool_decide (key ∈ seen) then (attempts, false) else
      let answer := let* a := store e in call verifyStoredValue a key e; Ok a in
      fan_out rest e ({[key]} ∪ seen) (attempts ++ [MkAttempt key answer])
  end.
Definition StoreRedundant (clients : list (option RelayClient)) (e : RelayEnvelope) (minimum : Z) : list Attempt * result unit :=
  let n := Z.of_nat (length clients) in
  if (n =? 0) || (MaxRelayTargets <? n) || (minimum <? 1) || (n <? minimum) then ([], Err (NewError "invalid Mailbox redundancy policy")) else
  match ValidateRelay e with
  | Err x => ([], Err x)
  | Ok _ =>
      let '(attempts, distinct) := fan_out clients e ∅ [] in
      (attempts,
       refuse negb distinct with NewError "Mailbox redundancy cannot count one Relay twice";
       refuse StoredCopies attempts <? minimum with NewError "Mailbox redundancy unmet";
       Ok tt)
  end.
End Acks.

(** ** Weights of directories *)

Section Weights.
  Context {A : Type} (f : A -> Z).

Definition weight_at (d : gmap string A) (name : string) : Z := match d !! name with Some x => f x | None => 0 end.
Definition weigh (d : gmap string A) (names : list string) : Z := foldr (fun name acc => weight_at d name + acc) 0 names.
Definition weight (d : gmap string A) : Z := weigh d (sort_strings (elements (dom d))).

Lemma weigh_cons d name l : weigh d (name :: l) = weight_at d name + weigh d l.
Proof. done. Qed.

Lemma weigh_perm d l l' : l ≡ₚ l' -> weigh d l = weigh d l'.
Proof. induction 1; cbn; unfold weigh in *; lia. Qed.

Lemma weigh_ext d d' l : (forall name, name ∈ l -> d !! name = d' !! name) -> weigh d l = weigh d' l.
Proof.
  induction l as [|n l IH]; intros H; [done|]. cbn. unfold weight_at at 1 3. rewrite (H n) by left. unfold weigh in IH. rewrite IH; [done|].
  intros name Hn. apply H. by right.
Qed.

Lemma weight_fresh d name x : d !! name = None -> weight (<[name := x]> d) = f x + weight d.
Proof.
  intros Hn. unfold weight. rewrite (weigh_perm _ _ (name :: elements (dom d))).
  2: { rewrite sort_strings_perm, dom_insert_L. apply elements_union_singleton. by apply not_elem_of_dom. }
  cbn. unfold weight_at at 1. rewrite lookup_insert_eq. f_equal. change (weigh (<[name := x]> d) (elements (dom d)) = weigh d (sort_strings (elements (dom d)))).
  rewrite (weigh_perm d _ (elements (dom d))) by apply sort_strings_perm. apply weigh_ext. intros m Hm%elem_of_elements%elem_of_dom.
  rewrite lookup_insert_ne; [done|]. intros <-. rewrite Hn in Hm. by destruct Hm.
Qed.

Lemma weight_delete d name x : d !! name = Some x -> weight d = f x + weight (delete name d).
Proof. intros Hx. rewrite <- (insert_delete_id d name x Hx) at 1. apply weight_fresh, lookup_delete_eq. Qed.

Lemma weight_over d name x y : d !! name = Some y -> weight (<[name := x]> d) = f x - f y + weight d.
Proof.
  intros Hy. rewrite (weight_delete d name y Hy). rewrite <- insert_delete_eq. rewrite weight_fresh by apply lookup_delete_eq. lia.
Qed.

Lemma weigh_nonneg d l : (forall y, 0 <= f y) -> 0 <= weigh d l.
Proof.
  intros Hf. induction l as [|m l IH]; [done|]. cbn. unfold weigh in IH. assert (0 <= weight_at d m); [|lia].
  unfold weight_at. by destruct (d !! m).
Qed.

Lemma weight_le d name x : (forall y, 0 <= f y) -> d !! name = Some x -> f x <= weight d.
Proof. intros Hf Hx. rewrite (weight_delete d name x Hx). pose proof (weigh_nonneg (delete name d) _ Hf : 0 <= weight (delete name d)). lia. Qed.
End Weights.

(** ** The quota holds *)

Definition rec_bytes (r : relay_record) : Z := match b64_decode (rr_CiphertextBase64 r) with Some c => blen c | None => 0 end.
Definition entry_count (x : dirent relay_record) : Z := match x with ERec _ => 1 | _ => 0 end.
Definition entry_bytes (x : dirent relay_record) : Z := match x with ERec r => rec_bytes r | _ => 0 end.
Definition box_count (b : box_entry) : Z := match b with Box d => weight entry_count d | NotBox => 0 end.
Definition box_bytes (b : box_entry) : Z := match b with Box d => weight entry_bytes d | NotBox => 0 end.

(** The messages kept, and their bytes, in all and in each mailbox. *)
Record within (q : relay_Quota) (boxes : gmap string box_entry) : Prop := {
  wi_messages : weight box_count boxes <= rq_MaxMessages q;
  wi_bytes : weight box_bytes boxes <= rq_MaxBytes q;
  wi_box : forall name d, boxes !! name = Some (Box d) ->
    weight entry_count d <= rq_MaxMessagesPerBox q /\ weight entry_bytes d <= rq_MaxBytesPerBox q;
}.

Lemma entry_count_nonneg x : 0 <= entry_count x.
Proof. by destruct x. Qed.
Lemma entry_bytes_nonneg x : 0 <= entry_bytes x.
Proof. destruct x; cbn; try lia. unfold rec_bytes. destruct (b64_decode _); [unfold blen|]; lia. Qed.

Lemma weight_empty {A} (f : A -> Z) : weight f ∅ = 0.
Proof. unfold weight. by rewrite dom_empty_L, elements_empty. Qed.

(** What the counting loops add up, when they read everything. *)
Lemma count_entries_spec mine d names t t' :
  count_entries mine d names t = Ok t' ->
  ty_totalCount t' = ty_totalCount t + weigh entry_count d names /\ ty_totalBytes t' = ty_totalBytes t + weigh entry_bytes d names
  /\ ty_boxCount t' = ty_boxCount t + (if mine then weigh entry_count d names else 0)
  /\ ty_boxBytes t' = ty_boxBytes t + (if mine then weigh entry_bytes d names else 0).
Proof.
  revert t. induction names as [|name names IH]; intros t H; cbn [count_entries] in H.
  { injection H as <-. cbn. destruct mine; split_and!; lia. }
  destruct (relay_readRecord d name) as [r|] eqn:Hr; [|done]. cbn [mbind] in H.
  assert (d !! name = Some (ERec r)) as Hd.
  { unfold relay_readRecord in Hr. destruct (read_file _ d name) as [r0|] eqn:Hf; [|done]. apply read_file_Ok in Hf.
    unfold check_relay_record in Hr. inv_ok Hr. by simplify_eq. }
  destruct (relayEnvelope r) as [e|] eqn:He; [|done].
  assert (rec_bytes r = blen (re_Ciphertext e)) as Hb.
  { unfold relayEnvelope, rec_bytes in *. destruct (b64_decode _) as [c|]; [|done]. inv_ok He. by simplify_eq. }
  apply IH in H as (H1 & H2 & H3 & H4). rewrite !weigh_cons. unfold weight_at. rewrite Hd. cbn [entry_count entry_bytes].
  unfold count_one in *. cbn [ty_totalCount ty_totalBytes ty_boxCount ty_boxBytes] in *.
  destruct mine; split_and!; lia.
Qed.

(** The part of a sum at one name. *)
Definition weigh_mine {A} (f : A -> Z) (mine : string) (d : gmap string A) (names : list string) : Z :=
  foldr (fun name acc => (if String.eqb name mine then weight_at f d name else 0) + acc) 0 names.

Lemma weigh_mine_cons {A} (f : A -> Z) mine d name l :
  weigh_mine f mine d (name :: l) = (if String.eqb name mine then weight_at f d name else 0) + weigh_mine f mine d l.
Proof. done. Qed.

Lemma weigh_mine_spec {A} (f : A -> Z) mine d names :
  NoDup names -> mine ∈ names -> weigh_mine f mine d names = weight_at f d mine.
Proof.
  assert (forall l, mine ∉ l -> weigh_mine f mine d l = 0) as Hout.
  { induction l as [|n l IH]; intros Hn; [done|]. cbn. apply not_elem_of_cons in Hn as [Hne Hn].
    destruct (String.eqb_spec n mine) as [->|]; [done|]. unfold weigh_mine in IH. by rewrite IH. }
  induction 1 as [|n l Hn Hl IH]; intros Hm; [by apply not_elem_of_nil in Hm|]. cbn. apply elem_of_cons in Hm as [->|Hm].
  - rewrite String.eqb_refl. change (weight_at f d n + weigh_mine f n d l = weight_at f d n). rewrite Hout by done. lia.
  - destruct (String.eqb_spec n mine) as [->|]; [done|]. unfold weigh_mine in IH. rewrite IH by done. lia.
Qed.

Lemma count_boxes_spec mine boxes names t t' :
  count_boxes mine boxes names t = Ok t' ->
  ty_totalCount t' = ty_totalCount t + weigh box_count boxes names /\ ty_totalBytes t' = ty_totalBytes t + weigh box_bytes boxes names
  /\ ty_boxCount t' = ty_boxCount t + weigh_mine box_count mine boxes names
  /\ ty_boxBytes t' = ty_boxBytes t + weigh_mine box_bytes mine boxes names.
Proof.
  revert t. induction names as [|name names IH]; intros t H; cbn [count_boxes] in H.
  { injection H as <-. cbn. split_and!; lia. }
  rewrite !weigh_cons, !weigh_mine_cons. unfold weight_at.
  destruct (boxes !! name) as [[|d]|].
  - apply IH in H as (? & ? & ? & ?). cbn [box_count box_bytes]. destruct (String.eqb name mine); split_and!; lia.
  - destruct (count_entries _ d (dir_names d) t) as [t1|] eqn:Hc; [|done]. apply IH in H as (? & ? & ? & ?).
    apply count_entries_spec in Hc as (? & ? & ? & ?). cbn [box_count box_bytes]. unfold weight. change (sort_strings (elements (dom d))) with (dir_names d).
    destruct (String.eqb name mine); split_and!; lia.
  - apply IH in H as (? & ? & ? & ?). destruct (String.eqb name mine); split_and!; lia.
Qed.

Lemma checkQuota_room mailboxID n s d :
  checkQuota mailboxID n s = Ok tt -> ms_boxes s !! boxPath mailboxID = Some (Box d) ->
  weight box_count (ms_boxes s) + 1 <= rq_MaxMessages (ms_quota s) /\ weight box_bytes (ms_boxes s) + n <= rq_MaxBytes (ms_quota s)
  /\ weight entry_count d + 1 <= rq_MaxMessagesPerBox (ms_quota s) /\ weight entry_bytes d + n <= rq_MaxBytesPerBox (ms_quota s).
Proof.
  unfold checkQuota. intros H Hd. destruct (count_boxes _ _ _ _) as [t|] eqn:Hc; [|done]. cbn [mbind] in H.
  destruct (over_quota _ _ _) eqn:Ho; [done|]. clear H. apply count_boxes_spec in Hc as (H1 & H2 & H3 & H4).
  cbn [ty_totalCount ty_totalBytes ty_boxCount ty_boxBytes] in *.
  assert (NoDup (box_names (ms_boxes s)) /\ boxPath mailboxID ∈ box_names (ms_boxes s)) as [Hnd Hin].
  { unfold box_names. split; [rewrite sort_strings_perm; apply NoDup_elements|].
    rewrite sort_strings_perm, elem_of_elements, elem_of_dom. by exists (Box d). }
  rewrite weigh_mine_spec in H3, H4 by done. unfold weight_at in H3, H4. rewrite Hd in H3, H4. cbn [box_count box_bytes] in H3, H4.
  unfold over_quota in Ho. unfold weight at 1 2. change (sort_strings (elements (dom (ms_boxes s)))) with (box_names (ms_boxes s)).
  repeat (apply orb_false_iff in Ho as [Ho ?]). repeat match goal with E : (_ <? _) = false |- _ => apply Z.ltb_ge in E end.
  split_and!; lia.
Qed.

Lemma within_replace q boxes name d d' :
  within q boxes -> boxes !! name = Some (Box d) ->
  weight box_count boxes + (weight entry_count d' - weight entry_count d) <= rq_MaxMessages q ->
  weight box_bytes boxes + (weight entry_bytes d' - weight entry_bytes d) <= rq_MaxBytes q ->
  weight entry_count d' <= rq_MaxMessagesPerBox q -> weight entry_bytes d' <= rq_MaxBytesPerBox q ->
  within q (<[name := Box d']> boxes).
Proof.
  intros [W1 W2 W3] Hd H1 H2 H3 H4. constructor.
  - rewrite (weight_over box_count boxes name (Box d') (Box d) Hd). cbn [box_count]. lia.
  - rewrite (weight_over box_bytes boxes name (Box d') (Box d) Hd). cbn [box_bytes]. lia.
  - intros n x [[_ [= <-]]|[_ Hx]]%lookup_insert_Some; [done|by eapply W3].
Qed.

(** Removing records keeps a store within its quota. *)
Definition lighter (d d' : directory relay_record) : Prop :=
  weight entry_count d' <= weight entry_count d /\ weight entry_bytes d' <= weight entry_bytes d.
Lemma lighter_delete d name : lighter d (delete name d).
Proof.
  destruct (d !! name) as [x|] eqn:Hx.
  - pose proof (weight_delete entry_count d name x Hx). pose proof (weight_delete entry_bytes d name x Hx).
    pose proof (entry_count_nonneg x). pose proof (entry_bytes_nonneg x). split; lia.
  - rewrite delete_id by done. by split.
Qed.
Lemma within_lighter q boxes name d d' :
  within q boxes -> boxes !! name = Some (Box d) -> lighter d d' -> within q (<[name := Box d']> boxes).
Proof.
  intros Hw Hd [H1 H2]. destruct (wi_box _ _ Hw _ _ Hd). destruct Hw as [W1 W2 W3].
  eapply within_replace; [by constructor|exact Hd|lia..].
Qed.

Lemma sweep_box_lighter removable seconds names removed d : lighter d (sweep_box removable seconds names removed d).2.
Proof.
  revert removed d. induction names as [|name names IH]; intros removed d; cbn [sweep_box]; [by split|].
  destruct (relay_readRecord d name) as [r|]; [|by split]. destruct (_ <=? _); [|apply IH]. destruct (removable name); [|by split].
  pose proof (lighter_delete d name) as [? ?]. destruct (IH (removed + 1) (delete name d)). split; lia.
Qed.
Lemma sweep_boxes_within q removable synced seconds names removed boxes :
  within q boxes -> within q (sweep_boxes removable synced seconds names removed boxes).2.
Proof.
  revert removed boxes. induction names as [|name names IH]; intros removed boxes Hw; cbn [sweep_boxes]; [done|].
  destruct (boxes !! name) as [[|d]|] eqn:Hd; [by apply IH| |by apply IH].
  pose proof (sweep_box_lighter (removable name) seconds (dir_names d) removed d) as Hl.
  destruct (sweep_box _ _ _ _ _) as [[n stopped] d']. cbn [snd] in Hl.
  assert (within q (<[name := Box d']> boxes)) as Hw' by (by eapply within_lighter).
  destruct stopped; [done|]. destruct (_ && _); [done|by apply IH].
Qed.

Section Relay.
  Context `{Ed25519}.

(** One operation on the store; the claim of a request is one of its own.  A restart opens the same directories. *)
Inductive relay_op : Type :=
  | ROpPut (made : bool) (c : create_outcome) (e : RelayEnvelope) (now : time)
  | ROpDelete (removable synced : bool) (mailboxID messageID ciphertextDigest : string)
  | ROpSweep (removable : string -> string -> bool) (synced : string -> bool) (now : time)
  | ROpClaim (removable : string -> bool) (synced : bool) (c : create_outcome) (r : AccessRequest) (now : time)
  | ROpRestart (key : bytes).
Definition relay_step (s : RelayStore) (op : relay_op) : RelayStore :=
  match op with
  | ROpPut made c e now => (relay_Put made c e now s).2
  | ROpDelete removable synced mailbox message digest => (relay_Delete removable synced mailbox message digest s).2
  | ROpSweep removable synced now => (relay_Sweep removable synced now s).2
  | ROpClaim removable synced c r now => (claimAccess removable synced c r now s).2
  | ROpRestart key => match relay_Open true true (ms_quota s) key (ms_boxes s) (ms_claims s) with Ok s' => s' | Err _ => s end
  end.
Definition relay_run (ops : list relay_op) (s : RelayStore) : RelayStore := fold_left relay_step ops s.

(** What a deposit does to the mailboxes: nothing; or the mailbox is there and, for a new message, has one more entry. *)
Inductive put_boxes (e : RelayEnvelope) (now : time) (s : RelayStore) : gmap string box_entry -> Prop :=
  | put_same : put_boxes e now s (ms_boxes s)
  | put_made : ms_boxes s !! boxPath (re_OpaqueMailboxID e) = None ->
      put_boxes e now s (<[boxPath (re_OpaqueMailboxID e) := Box ∅]> (ms_boxes s))
  | put_file d boxes x :
      (boxes = ms_boxes s \/ ms_boxes s !! boxPath (re_OpaqueMailboxID e) = None
         /\ boxes = <[boxPath (re_OpaqueMailboxID e) := Box ∅]> (ms_boxes s)) ->
      boxes !! boxPath (re_OpaqueMailboxID e) = Some (Box d) -> d !! message_file (re_MessageID e) = None ->
      checkQuota (re_OpaqueMailboxID e) (blen (re_Ciphertext e)) (with_boxes s boxes) = Ok tt ->
      (x = EJunk \/ x = ERec (record_of e now)) ->
      put_boxes e now s (<[boxPath (re_OpaqueMailboxID e) := Box (<[message_file (re_MessageID e) := x]> d)]> boxes).

Lemma Put_boxes made c e now s :
  exists boxes, (relay_Put made c e now s).2 = with_boxes s boxes /\ put_boxes e now s boxes.
Proof.
  assert (s = with_boxes s (ms_boxes s)) as Hself by (by destruct s).
  unfold relay_Put. destruct (call relay_usable s; _); [|exists (ms_boxes s); split; [done|constructor]].
  destruct (ensureBox made (re_OpaqueMailboxID e) s) as [[box|x] s0] eqn:He.
  2: { unfold ensureBox in He. assert (s0 = s) as -> by (repeat (case_match; simplify_eq; try done)).
       exists (ms_boxes s). split; [done|constructor]. }
  assert (exists boxes, s0 = with_boxes s boxes /\ boxes !! boxPath (re_OpaqueMailboxID e) = Some (Box box)
    /\ (boxes = ms_boxes s \/ ms_boxes s !! boxPath (re_OpaqueMailboxID e) = None
          /\ boxes = <[boxPath (re_OpaqueMailboxID e) := Box ∅]> (ms_boxes s))) as (boxes & -> & Hb & Hor).
  { unfold ensureBox in He. destruct (negb _); [done|]. destruct (ms_boxes s !! _) as [[|d]|] eqn:Hl; [done| |].
    - injection He as <- <-. exists (ms_boxes s). auto.
    - destruct made; [|done]. injection He as <- <-. eexists. split; [done|]. rewrite lookup_insert_eq. auto. }
  assert (put_boxes e now s boxes) as Hkeep by (destruct Hor as [->|[? ->]]; by constructor).
  cbv zeta. destruct (_ <? _); [by exists boxes|].
  destruct (box !! message_file _) as [y|] eqn:Hy.
  { destruct (relay_readRecord _ _); [destruct (negb _)|]; by exists boxes. }
  destruct (checkQuota _ _ _) as [[]|] eqn:Hq; [|by exists boxes].
  destruct (file_create c _ _ box) as [answer box'] eqn:Hc. unfold file_create in Hc. rewrite Hy in Hc.
  assert (box' = box \/ exists x, (x = EJunk \/ x = ERec (record_of e now)) /\ box' = <[message_file (re_MessageID e) := x]> box)
    as [->|(x & Hx & ->)] by (destruct c; simplify_eq; eauto 6).
  - exists boxes. split; [|done]. destruct answer; cbn [snd with_boxes ms_boxes ms_held ms_quota ms_key ms_claims];
      unfold with_boxes; cbn; by rewrite insert_id.
  - eexists. split; [by destruct answer|]. by econstructor.
Qed.

(** The store's quota is what it was. *)
Lemma relay_step_quota op s : ms_quota (relay_step s op) = ms_quota s.
Proof.
  destruct op; cbn [relay_step].
  - destruct (Put_boxes made c e now s) as (b & -> & _). done.
  - unfold relay_Delete. repeat (case_match; try done).
  - unfold relay_Sweep. repeat (case_match; try done).
  - unfold claimAccess. repeat (case_match; try done).
  - destruct (relay_Open _ _ _ _ _ _) as [s'|] eqn:E; [|done]. unfold relay_Open in E. inv_ok E. by simplify_eq.
Qed.

Lemma Put_within e now s boxes :
  relay_quota_validate (ms_quota s) = Ok tt -> within (ms_quota s) (ms_boxes s) -> put_boxes e now s boxes -> within (ms_quota s) boxes.
Proof.
  intros Hq Hw. unfold relay_quota_validate in Hq. destruct (_ || _) eqn:Ho; [done|]. clear Hq.
  repeat (apply orb_false_iff in Ho as [Ho ?]). repeat match goal with E : (_ <? _) = false |- _ => apply Z.ltb_ge in E end.
  assert (forall name, ms_boxes s !! name = None -> within (ms_quota s) (<[name := Box ∅]> (ms_boxes s))) as Hmade.
  { intros name Hn. destruct Hw as [W1 W2 W3]. constructor.
    - rewrite weight_fresh by done. cbn [box_count]. rewrite weight_empty. lia.
    - rewrite weight_fresh by done. cbn [box_bytes]. rewrite weight_empty. lia.
    - intros n d [[_ [= <-]]|[_ Hd]]%lookup_insert_Some; [rewrite !weight_empty; unfold MinCiphertextBytes in *; lia|by eapply W3]. }
  destruct 1 as [|Hn|d boxes x Hor Hd Hnone Hquota Hx]; [done|by apply Hmade|].
  assert (within (ms_quota s) boxes) as Hwb by (destruct Hor as [->|[? ->]]; auto).
  destruct (checkQuota_room _ _ _ d Hquota Hd) as (Q1 & Q2 & Q3 & Q4). cbn [with_boxes ms_boxes ms_quota] in Q1, Q2, Q3, Q4.
  assert (0 <= entry_count x <= 1 /\ 0 <= entry_bytes x <= blen (re_Ciphertext e)) as [Hc Hb].
  { destruct Hx as [->| ->]; cbn [entry_count entry_bytes]; [unfold blen; lia|]. unfold rec_bytes, record_of. cbn [rr_CiphertextBase64].
    rewrite b64_decode_encode. unfold blen. lia. }
  eapply within_replace; [done|exact Hd|rewrite !(weight_fresh _ d) by done; lia..].
Qed.

(** C20: The relay stays within its quota.  Whatever deposits, deletions, sweeps,
    claims and restarts follow, and however their writes end, a store that keeps no
    more messages and bytes than its quota allows, in all and in every mailbox, keeps
    no more afterwards. *)
Theorem relay_within_quota ops s :
  relay_quota_validate (ms_quota s) = Ok tt -> within (ms_quota s) (ms_boxes s) ->
  within (ms_quota s) (ms_boxes (relay_run ops s)).
Proof.
  revert s. induction ops as [|op ops IH]; intros s Hq Hw; [done|].
  change (relay_run (op :: ops) s) with (relay_run ops (relay_step s op)).
  rewrite <- (relay_step_quota op s) in Hq |- *. apply IH; [done|]. rewrite relay_step_quota in Hq |- *.
  destruct op; cbn [relay_step].
  - destruct (Put_boxes made c e now s) as (boxes & -> & Hp). cbn [with_boxes ms_boxes]. by eapply Put_within.
  - unfold relay_Delete. repeat (case_match; try done); cbn [snd with_boxes ms_boxes];
      (eapply within_lighter; [done..|apply lighter_delete]).
  - unfold relay_Sweep. destruct (relay_usable s); [|done]. destruct (time_invalid now); [done|].
    pose proof (sweep_boxes_within (ms_quota s) removable synced (u64 now) (box_names (ms_boxes s)) 0 _ Hw).
    by destruct (sweep_boxes _ _ _ _ _ _).
  - unfold claimAccess. repeat (case_match; try done).
  - destruct (relay_Open _ _ _ _ _ _) as [s'|] eqn:E; [|done]. unfold relay_Open in E. inv_ok E. by simplify_eq.
Qed.

(** ** A stored message stays *)

(** [r] is the record of the message of [e]. *)
Definition kept (s : RelayStore) (e : RelayEnvelope) (r : relay_record) : Prop :=
  exists d, ms_boxes s !! boxPath (re_OpaqueMailboxID e) = Some (Box d) /\ d !! message_file (re_MessageID e) = Some (ERec r).
Record record_for (e : RelayEnvelope) (r : relay_record) : Prop := {
  rf_mailbox : rr_MailboxID r = re_OpaqueMailboxID e;
  rf_message : rr_MessageID r = re_MessageID e;
  rf_digest : rr_CiphertextDigest r = canon_Digest (re_Ciphertext e);
  rf_expires : rr_ExpiresAtUnix r = re_ExpiresAtUnix e;
  rf_tokens : rr_StorageToken r = re_StorageToken e /\ rr_AdmissionToken r = re_AdmissionToken e;
  rf_readable : check_relay_record r = Ok r;
}.
(** No deletion of this ciphertext, and no sweep once it has expired. *)
Definition spares (e : RelayEnvelope) (op : relay_op) : Prop :=
  match op with
  | ROpDelete _ _ mailbox message digest =>
      ~ (mailbox = re_OpaqueMailboxID e /\ message = re_MessageID e /\ digest = canon_Digest (re_Ciphertext e))
  | ROpSweep _ _ now => u64 now < re_ExpiresAtUnix e
  | _ => True
  end.

Lemma readRecord_at d name r : relay_readRecord d name = Ok r <-> d !! name = Some (ERec r) /\ check_relay_record r = Ok r.
Proof.
  unfold relay_readRecord. rewrite <- (read_file_Ok err_relay_record). destruct (read_file _ d name) as [r0|]; [|naive_solver].
  split; [|naive_solver]. intros Hc. assert (r0 = r) as ->; [|done]. unfold check_relay_record in Hc. inv_ok Hc. by simplify_eq.
Qed.

Lemma sweep_box_keeps removable seconds names removed d name r :
  d !! name = Some (ERec r) -> check_relay_record r = Ok r -> seconds < rr_ExpiresAtUnix r ->
  (sweep_box removable seconds names removed d).2 !! name = Some (ERec r).
Proof.
  intros Hd Hr Hs. revert removed d Hd. induction names as [|m names IH]; intros removed d Hd; cbn [sweep_box]; [done|].
  destruct (relay_readRecord d m) as [r0|] eqn:Hm; [|done]. destruct (rr_ExpiresAtUnix r0 <=? seconds) eqn:He; [|by apply IH].
  destruct (removable m); [|done]. apply IH. rewrite lookup_delete_ne; [done|]. intros ->.
  apply readRecord_at in Hm as [Hm _]. simplify_eq. lia.
Qed.

Lemma sweep_boxes_keeps removable synced seconds names removed boxes box d name r :
  boxes !! box = Some (Box d) -> d !! name = Some (ERec r) -> check_relay_record r = Ok r -> seconds < rr_ExpiresAtUnix r ->
  exists d', (sweep_boxes removable synced seconds names removed boxes).2 !! box = Some (Box d') /\ d' !! name = Some (ERec r).
Proof.
  intros Hb Hd Hr Hs. revert removed boxes d Hb Hd. induction names as [|m names IH]; intros removed boxes d Hb Hd; cbn [sweep_boxes]; [by exists d|].
  destruct (boxes !! m) as [[|dm]|] eqn:Hm; [by eapply IH| |by eapply IH].
  pose proof (fun H => sweep_box_keeps (removable m) seconds (dir_names dm) removed dm name r H Hr Hs) as Hk.
  destruct (sweep_box _ _ _ _ _) as [[n stopped] d'] eqn:Ebox. cbn [snd] in Hk.
  assert (exists d1, <[m := Box d']> boxes !! box = Some (Box d1) /\ d1 !! name = Some (ERec r)) as (d1 & H1 & H2).
  { destruct (decide (m = box)) as [->|Hne].
    - exists d'. rewrite lookup_insert_eq. split; [done|]. apply Hk. congruence.
    - exists d. by rewrite lookup_insert_ne. }
  destruct stopped; [by exists d1|]. destruct (_ && _); [by exists d1|]. by eapply IH.
Qed.

Lemma relay_step_keeps op s e r :
  kept s e r -> record_for e r -> spares e op -> kept (relay_step s op) e r.
Proof.
  intros (d & Hb & Hd) Hf Hs. destruct op; cbn [relay_step].
  - destruct (Put_boxes made c e0 now s) as (boxes & -> & Hp). unfold kept. cbn [with_boxes ms_boxes].
    destruct Hp as [|Hn|d0 boxes x Hor Hd0 Hnone _ _].
    + by exists d.
    + exists d. rewrite lookup_insert_ne; [done|]. intros E. rewrite E in Hn. congruence.
    + assert (boxes !! boxPath (re_OpaqueMailboxID e) = Some (Box d)) as Hbd.
      { destruct Hor as [->|[Hn ->]]; [done|]. rewrite lookup_insert_ne; [done|]. intros E. rewrite E in Hn. congruence. }
      destruct (decide (boxPath (re_OpaqueMailboxID e0) = boxPath (re_OpaqueMailboxID e))) as [E|Hne].
      * rewrite E in *. rewrite lookup_insert_eq. eexists. split; [done|]. rewrite Hbd in Hd0. injection Hd0 as <-.
        rewrite lookup_insert_ne; [done|]. intros E'. rewrite E' in Hnone. congruence.
      * exists d. by rewrite lookup_insert_ne.
  - unfold relay_Delete. destruct (call relay_usable s; _); [|by exists d].
    destruct (ms_boxes s !! boxPath mailboxID) as [[|d0]|] eqn:Hb0; [by exists d| |by exists d].
    destruct (relay_readRecord d0 _) as [r0|] eqn:Hr0; [|by exists d]. destruct (_ || _) eqn:Hc; [by exists d|].
    destruct (negb removable); [by exists d|]. unfold kept. cbn [snd with_boxes ms_boxes].
    destruct (decide (boxPath mailboxID = boxPath (re_OpaqueMailboxID e))) as [E|Hne].
    + rewrite E in *. rewrite lookup_insert_eq. eexists. split; [done|]. rewrite Hb in Hb0. injection Hb0 as <-.
      rewrite lookup_delete_ne; [done|]. intros E'. apply Hs. rewrite E' in Hr0. apply readRecord_at in Hr0 as [Hr0 _].
      assert (r0 = r) as -> by congruence. destruct Hf as [F1 F2 F3 _ _ _]. breflect. rewrite <- F1, <- F2, <- F3. auto.
    + exists d. by rewrite lookup_insert_ne.
  - unfold relay_Sweep. destruct (relay_usable s); [|by exists d]. destruct (time_invalid now); [by exists d|].
    destruct (sweep_boxes_keeps removable synced (u64 now) (box_names (ms_boxes s)) 0 (ms_boxes s) _ d _ r Hb Hd) as (d' & H1 & H2);
      [apply Hf|rewrite (rf_expires _ _ Hf); exact Hs|].
    destruct (sweep_boxes _ _ _ _ _ _) as [answer boxes]. by exists d'.
  - unfold claimAccess. repeat (case_match; try by exists d).
  - destruct (relay_Open _ _ _ _ _ _) as [s'|] eqn:E; [|by exists d]. unfold relay_Open in E. inv_ok E. simplify_eq. by exists d.
Qed.

Lemma relay_run_keeps ops s e r :
  kept s e r -> record_for e r -> Forall (spares e) ops -> kept (relay_run ops s) e r.
Proof.
  intros Hk Hf Hs. revert s Hk. induction Hs as [|op ops Ho _ IH]; intros s Hk; [done|].
  apply IH. by apply relay_step_keeps.
Qed.

Lemma SignAck_fields a key ack : SignAck a key = Ok ack ->
  sa_MailboxID ack = sa_MailboxID a /\ sa_MessageID ack = sa_MessageID a /\ sa_CiphertextDigest ack = sa_CiphertextDigest a
  /\ sa_StoredAtUnix ack = sa_StoredAtUnix a /\ sa_ExpiresAtUnix ack = sa_ExpiresAtUnix a
  /\ sa_StoredAtUnix a <> 0 /\ sa_StoredAtUnix a < sa_ExpiresAtUnix a /\ ValidDigest (sa_CiphertextDigest a) = true
  /\ sa_RelayPublicKeyHex ack = hex_encode (public_of key)
  /\ exists preimage, ack_CanonicalBytes ack = Ok preimage /\ sa_SignatureHex ack = hex_encode (ed25519_Sign key preimage).
Proof.
  unfold SignAck. destruct (negb _); [done|]. destruct (ack_CanonicalBytes _) as [preimage|] eqn:Hp; [|done]. intros [= <-].
  assert (ack_CanonicalBytes (MkAck AckSchema (sa_MailboxID a) (sa_MessageID a) (sa_CiphertextDigest a) (sa_StoredAtUnix a)
    (sa_ExpiresAtUnix a) (hex_encode (public_of key)) (hex_encode (ed25519_Sign key preimage))) = Ok preimage) as Hp' by exact Hp.
  unfold ack_CanonicalBytes in Hp. cbn [sa_MailboxID sa_MessageID sa_CiphertextDigest sa_StoredAtUnix sa_ExpiresAtUnix sa_Schema] in *.
  destruct (_ || _) eqn:Hc; [done|]. breflect. split_and!; try done; try lia. by exists preimage.
Qed.

Lemma record_of_envelope e now : ValidateRelay e = Ok tt -> relayEnvelope (record_of e now) = Ok e.
Proof.
  intros Hv. unfold relayEnvelope, record_of.
  cbn [rr_CiphertextBase64 rr_CiphertextDigest rr_MailboxID rr_MessageID rr_ExpiresAtUnix rr_StorageToken rr_AdmissionToken].
  rewrite b64_decode_encode, String.eqb_refl. cbn [negb]. replace (MkRelay _ _ _ _ _ _) with e by (by destruct e). by rewrite Hv.
Qed.

Lemma Put_stored made c e now s fresh ack s1 :
  relay_Put made c e now s = (Ok (fresh, ack), s1) ->
  exists r, kept s1 e r /\ record_for e r /\ SignAck (ack_of r) (ms_key s) = Ok ack /\ (fresh = true -> r = record_of e now).
Proof.
  unfold relay_Put. destruct (call relay_usable s; _) as [[]|] eqn:Ha; [|done].
  destruct (ensureBox made _ s) as [[box|] s0] eqn:He; [|done]. cbv zeta.
  assert (ms_boxes s0 !! boxPath (re_OpaqueMailboxID e) = Some (Box box) /\ ms_key s0 = ms_key s) as [Hb Hkey].
  { unfold ensureBox in He. destruct (negb _); [done|]. destruct (ms_boxes s !! _) as [[|d]|] eqn:Hl; [done| |].
    - by injection He as <- <-.
    - destruct made; [|done]. injection He as <- <-. cbn. by rewrite lookup_insert_eq. }
  rewrite <- Hkey. destruct (_ <? _); [done|]. destruct (box !! message_file _) as [y|] eqn:Hy.
  - destruct (relay_readRecord _ _) as [r|] eqn:Hr; [|done]. destruct (same_relay r e) eqn:Hsame; [|done]. cbn [negb].
    destruct (SignAck _ _) as [a|] eqn:Hsig; [|done]. intros [= <- <- <-]. apply readRecord_at in Hr as [Hd Hck]. exists r.
    split; [by exists box|]. split_and!; [|done|done].
    unfold same_relay in Hsame. repeat (apply andb_prop in Hsame as [Hsame ?]).
    repeat match goal with E : String.eqb _ _ = true |- _ => apply String.eqb_eq in E | E : (_ =? _) = true |- _ => apply Z.eqb_eq in E end.
    by constructor.
  - destruct (checkQuota _ _ _); [|done]. destruct (file_create c _ _ box) as [[u|] box'] eqn:Hc; [|done].
    destruct (SignAck _ _) as [signed|] eqn:Hsig; [|done]. intros [= <- <- <-]. unfold file_create in Hc. rewrite Hy in Hc.
    destruct c; try done. injection Hc as <- <-. exists (record_of e now). split_and!; [|..|done|done].
    + eexists. cbn [with_boxes ms_boxes]. rewrite lookup_insert_eq. split; [done|]. apply lookup_insert_eq.
    + apply SignAck_fields in Hsig as (_ & _ & _ & _ & _ & Hz & Hlt & Hv & _). constructor; try done.
      unfold check_relay_record.
      cbn [record_of rr_Schema rr_StoredAtUnix rr_ExpiresAtUnix rr_CiphertextDigest ack_of sa_StoredAtUnix sa_ExpiresAtUnix sa_CiphertextDigest] in *.
      rewrite Hv.
      apply Z.eqb_neq in Hz. rewrite Hz. replace (re_ExpiresAtUnix e <=? u64 now) with false by (symmetry; apply Z.leb_gt; lia).
      destruct (relay_usable s); [|done]. unfold AcceptedForStorage in Ha. destruct (now =? zero_time_unix); [done|].
      rewrite record_of_envelope; [done|]. by destruct (ValidateRelay e) as [[]|].
Qed.

(** The envelope of a readable record is the one that was stored, short of a collision. *)
Lemma record_envelope e r : record_for e r -> exists e', relayEnvelope r = Ok e' /\ (e' = e \/ sha256_collision).
Proof.
  intros [F1 F2 F3 F4 [F5 F6] F7]. unfold check_relay_record in F7. destruct (_ || _); [done|].
  destruct (relayEnvelope r) as [e'|] eqn:He; [|done]. exists e'. split; [done|]. unfold relayEnvelope in He.
  destruct (b64_decode _) as [c|]; [|done]. destruct (String.eqb_spec (canon_Digest c) (rr_CiphertextDigest r)) as [E|]; [|done].
  cbn [negb] in He. destruct (ValidateRelay _); [|done]. injection He as <-. rewrite F3 in E. apply canon_Digest_inj in E as [->|?]; [left|by right].
  destruct e. cbn in *. congruence.
Qed.

Lemma list_records_elem mailboxID seconds d names l name r :
  list_records mailboxID seconds d names = Ok l -> name ∈ names -> d !! name = Some (ERec r) -> seconds < rr_ExpiresAtUnix r -> r ∈ l.
Proof.
  revert l. induction names as [|m names IH]; intros l Hl Hin Hd Hs; [by apply not_elem_of_nil in Hin|]. cbn [list_records] in Hl.
  destruct (is_dir d m) eqn:Hdir.
  { apply elem_of_cons in Hin as [->|Hin]; [unfold is_dir in Hdir; by rewrite Hd in Hdir|by apply IH]. }
  destruct (relay_readRecord d m) as [r0|] eqn:Hr; [|done]. cbn [mbind] in Hl. destruct (_ || _); [done|].
  destruct (list_records mailboxID seconds d names) as [others|]; [|done]. injection Hl as <-.
  apply elem_of_cons in Hin as [->|Hin].
  - apply readRecord_at in Hr as [Hr _]. assert (r0 = r) as -> by congruence. apply Z.ltb_lt in Hs. rewrite Hs. by left.
  - specialize (IH _ eq_refl Hin Hd Hs). destruct (_ <? _); [by right|done].
Qed.

Lemma open_records_elem records l r : open_records records = Ok l -> r ∈ records -> exists e, relayEnvelope r = Ok e /\ e ∈ l.
Proof.
  revert l. induction records as [|r0 records IH]; intros l Hl Hin; [by apply not_elem_of_nil in Hin|]. cbn [open_records] in Hl.
  destruct (relayEnvelope r0) as [e0|] eqn:He; [|done]. cbn [mbind] in Hl. destruct (open_records records) as [others|]; [|done].
  injection Hl as <-. apply elem_of_cons in Hin as [->|Hin]; [exists e0; split; [done|by left]|].
  destruct (IH _ eq_refl Hin) as (e & ? & ?). exists e. split; [done|by right].
Qed.
Lemma open_records_length records l : open_records records = Ok l -> length l = length records.
Proof.
  revert l. induction records as [|r0 records IH]; intros l Hl; cbn [open_records] in Hl; [by injection Hl as <-|].
  destruct (relayEnvelope r0) as [e0|]; [|done]. cbn [mbind] in Hl. destruct (open_records records) as [others|]; [|done].
  injection Hl as <-. cbn. f_equal. by apply IH.
Qed.

Lemma listed s e r e' now limit l :
  kept s e r -> record_for e r -> relayEnvelope r = Ok e' ->
  relay_List (re_OpaqueMailboxID e) now limit s = Ok l -> u64 now < re_ExpiresAtUnix e -> Z.of_nat (length l) < limit -> e' ∈ l.
Proof.
  intros (d & Hb & Hd) Hf He Hl Hn Hlim. unfold relay_List in Hl. destruct (relay_usable s); [|done].
  destruct (negb _); [done|]. destruct (_ || _); [done|]. rewrite Hb in Hl.
  destruct (list_records _ _ _ _) as [records|] eqn:Hr; [|done]. cbn [mbind] in Hl.
  assert (r ∈ records) as Hin.
  { eapply list_records_elem; [exact Hr|apply elem_of_dir_names; by eexists|exact Hd|by rewrite (rf_expires _ _ Hf)]. }
  pose proof (open_records_length _ _ Hl) as Hlen. rewrite length_take in Hlen.
  assert (length (merge_sort relay_le records) = length records) as Hms by (apply Permutation_length, merge_sort_Permutation).
  rewrite take_ge in Hl by lia.
  destruct (open_records_elem _ _ r Hl) as (x & Hx & Hin'); [by rewrite merge_sort_Permutation|]. congruence.
Qed.


(** ** A request is used once *)

Lemma readAccessClaim_at d name c : readAccessClaim d name = Ok c -> d !! name = Some (ERec c).
Proof.
  unfold readAccessClaim. destruct (read_file _ d name) as [c0|] eqn:Hf; [|done]. apply read_file_Ok in Hf. cbn [mbind]. intros Hc. inv_ok Hc.
  by simplify_eq.
Qed.

Lemma sweep_claims_keeps removable seconds names live removed d name c :
  d !! name = Some (ERec c) -> seconds < ax_ExpiresAtUnix c ->
  (sweep_claims removable seconds names live removed d).2 !! name = Some (ERec c).
Proof.
  intros Hd Hs. revert live removed d Hd. induction names as [|m names IH]; intros live removed d Hd; cbn [sweep_claims]; [done|].
  destruct (is_dir d m); [done|]. destruct (readAccessClaim d m) as [c0|] eqn:Hm; [|done].
  destruct (ax_ExpiresAtUnix c0 <=? seconds) eqn:He; [|by apply IH]. destruct (removable m); [|done]. apply IH.
  rewrite lookup_delete_ne; [done|]. intros ->. apply readAccessClaim_at in Hm. simplify_eq. lia.
Qed.

(** Where a request stands in the claims. *)
Definition claimed (s : RelayStore) (r : AccessRequest) : Prop :=
  ms_claims s !! claim_file (rx_GrantDigest r) (rx_NonceHex r) = Some (ERec (claim_of r)).

Lemma claimAccess_keeps removable synced c r now s r0 :
  claimed s r0 -> (time_invalid now = false -> u64 now < rx_ExpiresAtUnix r0) -> claimed (claimAccess removable synced c r now s).2 r0.
Proof.
  unfold claimed, claimAccess. intros Hc Ht. destruct (call relay_usable s; _) eqn:Hg; [|done].
  assert (time_invalid now = false) as Hn.
  { destruct (relay_usable s); [|done]. destruct (AccessRequestCanonicalBytes r); [|done]. cbn [mbind] in Hg. by destruct (time_invalid now). }
  pose proof (sweep_claims_keeps removable (u64 now) (dir_names (ms_claims s)) 0 false _ _ _ Hc (Ht Hn)) as Hk.
  destruct (sweep_claims _ _ _ _ _ _) as [[[live removed]|] claims]; cbn [snd] in Hk; [|done].
  destruct (_ && _); [done|]. destruct (_ <=? _); [done|]. destruct (_ <? _); [done|].
  destruct (file_create _ _ _ _) as [made claims'] eqn:Hf. cbn [snd with_claims ms_claims]. by eapply file_create_old.
Qed.

Lemma claimAccess_ok removable synced c r now s s1 : claimAccess removable synced c r now s = (Ok tt, s1) -> claimed s1 r.
Proof.
  unfold claimAccess. destruct (call relay_usable s; _); [|done].
  destruct (sweep_claims _ _ _ _ _ _) as [[[live removed]|] claims]; [|done].
  destruct (_ && _); [done|]. destruct (_ <=? _); [done|]. destruct (_ <? _); [done|].
  destruct (file_create _ _ _ _) as [[u|e] claims'] eqn:Hf; [|by destruct (bool_decide _)]. intros [= <-].
  unfold file_create in Hf. destruct (claims !! _); [done|]. destruct c; try done. injection Hf as _ <-. apply lookup_insert_eq.
Qed.

Lemma claimAccess_replay removable synced c r now s :
  claimed s r -> (time_invalid now = false -> u64 now < rx_ExpiresAtUnix r) -> is_ok (claimAccess removable synced c r now s).1 = false.
Proof.
  unfold claimed, claimAccess. intros Hc Ht. destruct (call relay_usable s; _) eqn:Hg; [|done].
  assert (time_invalid now = false) as Hn.
  { destruct (relay_usable s); [|done]. destruct (AccessRequestCanonicalBytes r); [|done]. cbn [mbind] in Hg. by destruct (time_invalid now). }
  pose proof (sweep_claims_keeps removable (u64 now) (dir_names (ms_claims s)) 0 false _ _ _ Hc (Ht Hn)) as Hk.
  destruct (sweep_claims _ _ _ _ _ _) as [[[live removed]|] claims]; cbn [snd] in Hk; [|done].
  destruct (_ && _); [done|]. destruct (_ <=? _); [done|]. destruct (_ <? _); [done|]. unfold file_create. rewrite Hk. done.
Qed.

Definition claim_time (op : relay_op) : option time := match op with ROpClaim _ _ _ _ now => Some now | _ => None end.

Lemma relay_step_claimed op s r :
  claimed s r -> (forall t, claim_time op = Some t -> time_invalid t = false -> u64 t < rx_ExpiresAtUnix r) -> claimed (relay_step s op) r.
Proof.
  intros Hc Ht. destruct op; cbn [relay_step].
  - destruct (Put_boxes made c e now s) as (b & -> & _). done.
  - unfold relay_Delete. repeat (case_match; try done).
  - unfold relay_Sweep. repeat (case_match; try done).
  - apply claimAccess_keeps; [done|]. by apply Ht.
  - destruct (relay_Open _ _ _ _ _ _) as [s'|] eqn:E; [|done]. unfold relay_Open in E. inv_ok E. by simplify_eq.
Qed.

(** C18: An access request is used once.  Once the relay authorised an operation
    under a request, then, as long as its clock does not go back, the same request
    authorises nothing any more, whatever happened in between, restarts and failed
    writes included, and whatever operation, body and grant it is presented with. *)
Theorem access_used_once authority io g r operation body now s s1 ops authority' io' g' operation' body' now' :
  relay_authorize authority io g r operation body now s = (Ok tt, s1) ->
  0 <= now' < 2 ^ 63 -> Forall (fun op => forall t, claim_time op = Some t -> t <= now') ops ->
  is_ok (relay_authorize authority' io' g' r operation' body' now' (relay_run ops s1)).1 = false.
Proof.
  intros Ha Hn Hops. assert (u64 now' = now') as Hu by (apply u64_id; unfold is_u64; lia).
  assert (claimed s1 r) as Hc.
  { unfold relay_authorize in Ha. destruct (let* _ := authority g now in _); [|done]. by eapply claimAccess_ok. }
  unfold relay_authorize. destruct (let* _ := authority' g' now' in _) as [v|] eqn:Hv; [|done].
  assert (now' < rx_ExpiresAtUnix r) as Hlt.
  { destruct (authority' g' now'); [|done]. cbn [mbind] in Hv. destruct (VerifyGrant _ _ _ _); [|done]. unfold VerifyAccessRequest in Hv.
    destruct (GrantDigest g'); [|done]. cbn [mbind] in Hv. destruct (AccessRequestCanonicalBytes r); [|done]. cbn [mbind] in Hv.
    destruct (_ || _); [done|]. destruct (negb (grantAllows _ _)); [done|]. destruct (_ || _) eqn:Hw in Hv; [done|].
    rewrite Hu in Hw. breflect. lia. }
  apply claimAccess_replay; [|intros _; lia]. clear Ha Hv. revert s1 Hc. induction Hops as [|op ops Ho _ IH]; intros s1 Hc; [done|].
  apply IH. apply relay_step_claimed; [done|]. intros t Ht Hti. specialize (Ho _ Ht). apply time_valid_nonneg in Hti.
  rewrite u64_id by (unfold is_u64; lia). lia.
Qed.

(** ** What authorises an operation *)

Record access_sound (g : CapabilityGrant) (r : AccessRequest) (operation body : string) (endpointKey relayKey : bytes) (now : time) : Prop := {
  sd_grant_signed : exists preimage, GrantCanonicalBytes g = Ok preimage /\ hex_signed endpointKey preimage (cg_EndpointSignatureHex g) = true;
  sd_relay : default [] (hex_decode (cg_RelayPublicKeyHex g)) = relayKey;
  sd_grant_window : cg_IssuedAtUnix g <= u64 now < cg_ExpiresAtUnix g;
  sd_operation : operation ∈ cg_Operations g;
  sd_request_signed : exists preimage, AccessRequestCanonicalBytes r = Ok preimage
    /\ hex_signed (default [] (hex_decode (cg_CapabilityPublicKeyHex g))) preimage (rx_CapabilitySignatureHex r) = true;
  sd_bound : GrantDigest g = Ok (rx_GrantDigest r) /\ rx_Operation r = operation /\ rx_MailboxID r = cg_MailboxID g /\ rx_BodyDigest r = body;
  sd_request_window : rx_IssuedAtUnix r <= u64 (now + MaxRequestFutureSkew) /\ u64 now < rx_ExpiresAtUnix r
    /\ cg_IssuedAtUnix g <= rx_IssuedAtUnix r /\ rx_ExpiresAtUnix r <= cg_ExpiresAtUnix g
    /\ rx_ExpiresAtUnix r - rx_IssuedAtUnix r <= MaxRequestLifetime;
}.

Lemma verified_access g r operation body endpointKey relayKey now :
  VerifyGrant g endpointKey relayKey now = Ok tt -> VerifyAccessRequest g r operation body now = Ok tt ->
  access_sound g r operation body endpointKey relayKey now.
Proof.
  unfold VerifyGrant, VerifyAccessRequest. destruct (GrantCanonicalBytes g) as [pg|] eqn:Hg; [|done]. cbn [mbind].
  destruct (_ || _) eqn:H1; [done|]. destruct (negb _) eqn:H2; [done|]. destruct (_ || _) eqn:H3 in |- *; [done|].
  destruct (negb _) eqn:H4 in |- *; [done|]. intros _. destruct (GrantDigest g) as [dg|] eqn:Hd; [|done]. cbn [mbind].
  destruct (AccessRequestCanonicalBytes r) as [pr|] eqn:Hr; [|done]. cbn [mbind].
  destruct (_ || _) eqn:H5 in |- *; [done|]. destruct (negb (grantAllows g operation)) eqn:H6; [done|].
  destruct (_ || _) eqn:H7 in |- *; [done|]. destruct (negb _) eqn:H8 in |- *; [done|]. intros _.
  assert (rx_ExpiresAtUnix r - rx_IssuedAtUnix r <= MaxRequestLifetime) as Hlife.
  { unfold AccessRequestCanonicalBytes in Hr. destruct (_ || _) eqn:Hx in Hr; [done|]. breflect. lia. }
  breflect. unfold grantAllows in H6. apply existsb_exists in H6 as (x & Hin & ->%String.eqb_eq).
  apply list_elem_of_In in Hin. constructor; try done; try lia.
  - by exists pg.
  - by exists pr.
  - split_and!; congruence.
Qed.

Lemma claimAccess_frame removable synced c r now s : exists claims, (claimAccess removable synced c r now s).2 = with_claims s claims.
Proof.
  unfold claimAccess. destruct (call relay_usable s; _); [|exists (ms_claims s); by destruct s].
  destruct (sweep_claims _ _ _ _ _ _) as [[[live removed]|] claims]; [|by exists claims].
  destruct (_ && _); [by exists claims|]. destruct (_ <=? _); [by exists claims|]. destruct (_ <? _); [by exists claims|].
  destruct (file_create _ _ _ _) as [made claims']. by exists claims'.
Qed.

End Relay.

(** ** Bodies bind *)

Inductive relay_body : Type :=
  | BodyDeposit (e : RelayEnvelope)
  | BodyRead (mailboxID : string) (limit : Z)
  | BodyDelete (mailboxID messageID ciphertextDigest : string).
Definition body_digest (b : relay_body) : result string :=
  match b with
  | BodyDeposit e => DepositBodyDigest e
  | BodyRead mailbox limit => ReadBodyDigest mailbox limit
  | BodyDelete mailbox message digest => DeleteBodyDigest mailbox message digest
  end.
Definition body_typed (b : relay_body) : Prop := match b with BodyDeposit e => is_u64 (re_ExpiresAtUnix e) | _ => True end.

Definition body_head (b : relay_body) : string :=
  match b with BodyDeposit _ => OperationDeposit | BodyRead _ _ => OperationRead | BodyDelete _ _ _ => OperationDelete end.
Definition body_parts (b : relay_body) : list field :=
  match b with
  | BodyDeposit e => [FText (re_OpaqueMailboxID e); FText (re_MessageID e); FText (canon_Digest (re_Ciphertext e));
      FText (canon_Digest (bytes_of_string (re_StorageToken e))); FText (canon_Digest (bytes_of_string (re_AdmissionToken e)));
      FUint64 (re_ExpiresAtUnix e)]
  | BodyRead mailbox limit => [FText mailbox; FUint32 limit]
  | BodyDelete mailbox message digest => [FText mailbox; FText message; FText digest]
  end.

Lemma body_form b x : body_typed b -> body_digest b = Ok x ->
  x = canon_Digest ((bytes_of_string DomainMailboxOperationBody ++ field_bytes (FText (body_head b))) ++ fields_bytes (body_parts b))
  /\ Forall field_wf (body_parts b).
Proof.
  intros Ht. destruct b as [e|mailbox limit|mailbox message digest]; cbn [body_digest body_parts body_head].
  - unfold DepositBodyDigest. destruct (ValidateRelay e) as [[]|] eqn:Hv; [|done]. intros [= <-]. split.
    + unfold operationBody. rewrite !canon_Text_app, canon_Uint64_app, !fields_bytes_cons, fields_bytes_nil, app_nil_r, <- !app_assoc. done.
    + destruct (ValidateRelay_inv _ _ Hv) as (Hm & Hg & _). unfold mailboxPattern, messagePattern in *.
      apply prefixed_hex64_slen in Hm, Hg. repeat apply Forall_cons_2; cbn [field_wf]; rewrite ?slen_canon_Digest; try done;
        rewrite ?Hm, ?Hg; by vm_compute.
  - unfold ReadBodyDigest. destruct (_ || _) eqn:Hc; [done|]. intros [= <-]. breflect. unfold MaxListResults in *.
    assert (u32 limit = limit) as -> by (apply u32_id; unfold is_u32; lia). split.
    + unfold operationBody. rewrite !canon_Text_app, canon_Uint32_app, !fields_bytes_cons, fields_bytes_nil, app_nil_r, <- !app_assoc. done.
    + match goal with E : ids_Mailbox _ = true |- _ => apply prefixed_hex64_slen in E; rename E into Hm end.
      repeat apply Forall_cons_2; cbn [field_wf]; [rewrite Hm; by vm_compute|unfold is_u32; lia|done].
  - unfold DeleteBodyDigest. destruct (_ || _) eqn:Hc; [done|]. intros [= <-]. breflect. split.
    + unfold operationBody. rewrite !canon_Text_app, !fields_bytes_cons, fields_bytes_nil, app_nil_r, <- !app_assoc. done.
    + match goal with E : ids_Mailbox _ = true |- _ => apply prefixed_hex64_slen in E; rename E into Hm end.
      match goal with E : ids_RelayMessage _ = true |- _ => apply prefixed_hex64_slen in E; rename E into Hg end.
      match goal with E : ValidDigest _ = true |- _ => rename E into Hd end.
      repeat apply Forall_cons_2; cbn [field_wf]; [rewrite Hm; by vm_compute|rewrite Hg; by vm_compute| |done].
      unfold ValidDigest in Hd. destruct (strip_prefix "sha256:" digest) as [h|] eqn:Es; [|done]. apply strip_prefix_Some in Es as ->.
      apply andb_prop in Hd as [Hh _]. apply hex64_slen in Hh. rewrite slen_app, Hh. by vm_compute.
Qed.

Lemma deposit_fields_inj a1 a2 a3 a4 a5 a6 b1 b2 b3 b4 b5 b6 :
  [FText a1; FText a2; FText a3; FText a4; FText a5; FUint64 a6] = [FText b1; FText b2; FText b3; FText b4; FText b5; FUint64 b6] ->
  a1 = b1 /\ a2 = b2 /\ a3 = b3 /\ a4 = b4 /\ a5 = b5 /\ a6 = b6.
Proof. intros [= -> -> -> -> -> ->]. done. Qed.

(** A request authorises one operation.  Two operations with the same body
    digest are the same: deposits of one envelope, listings of one mailbox with one
    limit, or deletions of one message by one ciphertext digest, short of a SHA-256
    collision. *)
Theorem body_digest_binds b b' x :
  body_typed b -> body_typed b' -> body_digest b = Ok x -> body_digest b' = Ok x -> b = b' \/ sha256_collision.
Proof.
  intros Ht Ht' Hb Hb'. apply body_form in Hb as [-> Hw]; [|done]. apply body_form in Hb' as [E Hw']; [|done].
  apply canon_Digest_inj in E as [E|]; [|by right]. rewrite <- !app_assoc in E. apply app_inv_head in E.
  apply field_bytes_inj in E as [Eh E]; [|by destruct b, b'].
  assert (List.map field_tag (body_parts b) = List.map field_tag (body_parts b')) as Etag by (by destruct b, b').
  apply (object_bytes_inj []) in E; [|done..]. destruct b as [e|m l|m g d], b' as [e'|m' l'|m' g' d']; try done; cbn [body_parts] in E.
  - apply deposit_fields_inj in E as (E1 & E2 & [E3|?]%canon_Digest_inj & [E4|?]%canon_Digest_inj & [E5|?]%canon_Digest_inj & E6);
      try (by right). apply bytes_of_string_inj in E4, E5. left. destruct e, e'. cbn in *. by subst.
  - left. injection E as -> ->. done.
  - left. injection E as -> -> ->. done.
Qed.

(** ** Several relays *)

Section Fanout.
  Context `{Ed25519}.

(** Every attempt with a receipt was checked against its relay's key and the envelope, and the relays are distinct. *)
Definition checked (e : RelayEnvelope) (seen : gset string) (attempts : list Attempt) : Prop :=
  Forall (fun a => forall ack, at_Answer a = Ok ack -> verifyStoredValue ack (at_RelayPublicKeyHex a) e = Ok tt /\ at_RelayPublicKeyHex a ∈ seen) attempts
  /\ NoDup (List.map at_RelayPublicKeyHex (List.filter (fun a => is_ok (at_Answer a)) attempts)).

Lemma checked_snoc e seen attempts key answer :
  checked e seen attempts -> key ∉ seen -> (forall ack, answer = Ok ack -> verifyStoredValue ack key e = Ok tt) ->
  checked e ({[key]} ∪ seen) (attempts ++ [MkAttempt key answer]).
Proof.
  intros [Hf Hn] Hk Ha. split.
  - apply Forall_app. split; [|apply Forall_singleton; intros ack Hack; split; [by apply Ha|set_solver]].
    eapply Forall_impl; [exact Hf|]. intros a Hx ack Hack. destruct (Hx ack Hack). split; [done|set_solver].
  - rewrite List.filter_app, List.map_app. cbn [List.filter at_Answer]. destruct answer as [ack|]; cbn [is_ok List.map at_RelayPublicKeyHex];
      [|by rewrite app_nil_r]. apply NoDup_app. split_and!; [done| |apply NoDup_singleton].
    intros k Hin Hk'. apply list_elem_of_singleton in Hk' as ->. apply Hk. apply list_elem_of_In, in_map_iff in Hin as (a & <- & Hin).
    apply filter_In in Hin as [Hin Hok]. rewrite Forall_forall in Hf. apply list_elem_of_In in Hin.
    destruct (at_Answer a) as [ack'|] eqn:E; [|done]. by destruct (Hf a Hin ack' E).
Qed.

Lemma fan_out_checked clients e seen attempts : checked e seen attempts -> exists seen', checked e seen' (fan_out clients e seen attempts).1.
Proof.
  revert seen attempts. induction clients as [|[[key store]|] clients IH]; intros seen attempts Hc; cbn [fan_out]; [by exists seen| |].
  - case_bool_decide as Hk; [by exists seen|]. apply IH. apply checked_snoc; [done..|]. intros ack Hack.
    destruct (store e) as [a|]; [|done]. cbn [mbind] in Hack. destruct (verifyStoredValue a key e) as [[]|] eqn:Hv; [|done]. by injection Hack as <-.
  - apply IH. destruct Hc as [Hf Hn]. split.
    + apply Forall_app. split; [done|]. by apply Forall_singleton.
    + rewrite List.filter_app. cbn [List.filter at_Answer is_ok]. by rewrite app_nil_r.
Qed.

(** Redundancy is counted once per relay.  When storing succeeds, at least the
    requested number of receipts verify, each under the key its relay is pinned by, no
    key twice, and each binds exactly this envelope. *)
Theorem redundancy_met clients e minimum attempts :
  StoreRedundant clients e minimum = (attempts, Ok tt) ->
  exists acks, minimum <= Z.of_nat (length acks) /\ NoDup (List.map sa_RelayPublicKeyHex acks)
  /\ Forall (fun a => VerifyAck a = Ok tt /\ sa_MailboxID a = re_OpaqueMailboxID e /\ sa_MessageID a = re_MessageID e
       /\ sa_CiphertextDigest a = canon_Digest (re_Ciphertext e) /\ sa_ExpiresAtUnix a = re_ExpiresAtUnix e) acks.
Proof.
  unfold StoreRedundant. destruct (_ || _); [done|]. destruct (ValidateRelay e) as [u|]; [|done].
  destruct (fan_out_checked clients e ∅ []) as [seen Hc]; [by split; constructor|].
  destruct (fan_out clients e ∅ []) as [l distinct]. cbn [fst] in Hc. intros [= <- Hr]. destruct (negb distinct); [done|].
  destruct (StoredCopies l <? minimum) eqn:Hm; [done|]. clear Hr. apply Z.ltb_ge in Hm. destruct Hc as [Hf Hn].
  exists (omap (fun a => match at_Answer a with Ok ack => Some ack | Err _ => None end) l). unfold StoredCopies in Hm.
  assert (forall l, length (omap (fun a => match at_Answer a with Ok ack => Some ack | Err _ => None end) l)
    = length (List.filter (fun a => is_ok (at_Answer a)) l)) as Hlen.
  { clear. induction l as [|a l IH]; [done|]. cbn. destruct (at_Answer a); cbn; by rewrite IH. }
  assert (Forall (fun a => forall ack, at_Answer a = Ok ack -> sa_RelayPublicKeyHex ack = at_RelayPublicKeyHex a
    /\ VerifyAck ack = Ok tt /\ sa_MailboxID ack = re_OpaqueMailboxID e /\ sa_MessageID ack = re_MessageID e
    /\ sa_CiphertextDigest ack = canon_Digest (re_Ciphertext e) /\ sa_ExpiresAtUnix ack = re_ExpiresAtUnix e) l) as Hb.
  { eapply Forall_impl; [exact Hf|]. intros a Hx ack Hack. destruct (Hx ack Hack) as [Hv _]. unfold verifyStoredValue in Hv.
    destruct (VerifyAck ack) as [[]|]; [|done]. destruct (_ || _) eqn:Ho; [done|]. breflect. split_and!; try done. by apply Z.eqb_eq. }
  rewrite Hlen. split_and!; [done| |].
  - clear Hf Hm Hlen. induction Hb as [|a l Ha Hl IH]; [constructor|]. cbn in *. destruct (at_Answer a) as [ack|] eqn:E; cbn in *; [|by apply IH].
    destruct (Ha ack eq_refl) as [Hk _]. inversion_clear Hn as [|? ? Hni Hnd]. constructor; [|by apply IH].
    intros Hin. apply Hni. rewrite Hk in Hin. apply list_elem_of_In, in_map_iff in Hin as (x & <- & Hin).
    apply list_elem_of_In, list_elem_of_omap in Hin as (b & Hb & Hbx). destruct (at_Answer b) as [y|] eqn:Eb; [|done]. injection Hbx as <-.
    rewrite Forall_forall in Hl. destruct (Hl b Hb y Eb) as [-> _]. apply list_elem_of_In, in_map_iff. exists b. split; [done|].
    apply filter_In. split; [by apply list_elem_of_In|by rewrite Eb].
  - clear Hn Hf Hm Hlen. induction Hb as [|a l Ha _ IH]; [constructor|]. cbn. destruct (at_Answer a) as [ack|]; [|done].
    constructor; [|done]. by destruct (Ha ack eq_refl).
Qed.
End Fanout.

(** ** Behaviours the code does not intend *)

Lemma escape_ascii_length b : (1 <= length (escape_ascii b))%nat.
Proof. destruct b; vm_compute; lia. Qed.
Lemma print_chars_length l : (length l <= length (print_chars l))%nat.
Proof.
  remember (length l) as n eqn:Hn. revert l Hn. induction (lt_wf n) as [n _ IH]. intros l ->.
  assert (forall l', (length l' < length l)%nat -> (length l' <= length (print_chars l'))%nat) as IH' by (intros l' Hl; exact (IH _ Hl l' eq_refl)).
  destruct l as [|a l1]; [done|]. cbn [print_chars]. destruct (byteZ a <? 128).
  { rewrite length_app. pose proof (escape_ascii_length a). specialize (IH' l1). cbn in *. lia. }
  destruct l1 as [|b l2]; [cbn; lia|]. destruct (two_bytes a b); [specialize (IH' l2); cbn in *; lia|].
  pose proof (IH' (b :: l2)) as Hb. destruct l2 as [|c l3]; [rewrite length_app; cbn [length escape_invalid] in *; lia|].
  destruct (three_bytes a b c).
  { rewrite length_app. assert (3 <= length (escape_three a b c))%nat by (unfold escape_three; repeat case_bool_decide; cbn; lia).
    specialize (IH' l3). cbn [length] in *. lia. }
  destruct l3 as [|d l4]; [rewrite length_app; cbn [length escape_invalid] in *; lia|].
  destruct (four_bytes a b c d); [specialize (IH' l4); cbn [length app] in *; lia|].
  rewrite length_app; cbn [length escape_invalid] in *; lia.
Qed.

Lemma join_length sep parts p : p ∈ parts -> (length p <= length (join sep parts))%nat.
Proof.
  induction parts as [|q parts IH]; intros Hin; [by apply not_elem_of_nil in Hin|]. apply elem_of_cons in Hin as [->|Hin].
  - cbn. destruct parts; [done|]. rewrite length_app. lia.
  - specialize (IH Hin). cbn. destruct parts; [by apply not_elem_of_nil in Hin|]. rewrite !length_app. lia.
Qed.

Lemma b64_length b : (4 * length b <= 3 * length (b64_encode_list b))%nat.
Proof.
  remember (length b) as n eqn:Hn. revert b Hn. induction (lt_wf n) as [n _ IH]. intros b ->.
  destruct b as [|x [|y [|z b]]]; cbn [b64_encode_list length]; try lia.
  assert (length b < length (x :: y :: z :: b))%nat as Hl by (cbn; lia). specialize (IH _ Hl b eq_refl). lia.
Qed.

Lemma record_json_length r : slen (rr_CiphertextBase64 r) <= blen (record_json r).
Proof.
  unfold record_json, marshal_struct, blen. cbn [print_value]. rewrite !length_app.
  set (parts := List.map _ (struct_members relay_omit wireRecord (record_vals r))).
  assert ((print_string (bytes_of_string "ciphertext_base64") ++ [x3a] ++ print_string (bytes_of_string (rr_CiphertextBase64 r))) ∈ parts) as Hin.
  { apply list_elem_of_In, in_map_iff. exists (bytes_of_string "ciphertext_base64", JString (bytes_of_string (rr_CiphertextBase64 r))).
    split; [done|]. cbn. right; right; right; left. done. }
  apply (join_length [x2c]) in Hin. rewrite !length_app in Hin. unfold print_string in Hin at 2. rewrite !length_app in Hin.
  pose proof (print_chars_length (bytes_of_string (rr_CiphertextBase64 r))) as Hp.
  pose proof (blen_bytes_of_string (rr_CiphertextBase64 r)) as Hb. unfold blen in Hb. lia.
Qed.

(** The record bound leaves no room for the base64 of a large ciphertext: nothing above three quarters of the bound on
    a ciphertext is ever stored, although it is a valid envelope. *)
Theorem large_ciphertext_never_stored `{Ed25519} made c e now s :
  787968 < blen (re_Ciphertext e) -> is_ok (relay_Put made c e now s).1 = false.
Proof.
  intros Hl. unfold relay_Put. destruct (call relay_usable s; _); [|done]. destruct (ensureBox _ _ _) as [[box|] s0]; [|done]. cbv zeta.
  replace (MaxRecordBytes <? blen (record_json (record_of e now))) with true; [done|]. symmetry. apply Z.ltb_lt.
  pose proof (record_json_length (record_of e now)) as Hr. cbn [record_of rr_CiphertextBase64] in Hr.
  pose proof (b64_length (re_Ciphertext e)) as Hb. unfold b64_encode in Hr. rewrite slen_list, list_ascii_of_string_of_list_ascii in Hr.
  change MaxRecordBytes with 1050624. unfold blen in *. lia.
Qed.
Lemma large_ciphertext_valid : exists e, ValidateRelay e = Ok tt /\ 787968 < blen (re_Ciphertext e).
Proof.
  exists (MkRelay ("mbx_" +:+ sample_hash) ("msg_" +:+ sample_hash) (x01 :: List.repeat x00 (Z.to_nat 900000)) 100 "" "").
  assert (blen (x01 :: List.repeat x00 (Z.to_nat 900000)) = 900001) as Hl by (unfold blen; cbn [length]; rewrite repeat_length; lia).
  cbn [re_Ciphertext]. rewrite Hl. split; [|done]. unfold ValidateRelay.
  cbn [re_Ciphertext re_OpaqueMailboxID re_MessageID re_ExpiresAtUnix re_StorageToken re_AdmissionToken].
  rewrite Hl. reflexivity.
Qed.

(** A claim that a crash left unwritten is never removed, and no operation is authorised any more. *)
Section Crashed.
  Context `{Ed25519}.

Lemma junk_claim_stays removable seconds names live removed d name :
  d !! name = Some EJunk ->
  (sweep_claims removable seconds names live removed d).2 !! name = Some EJunk
  /\ (name ∈ names -> is_ok (sweep_claims removable seconds names live removed d).1 = false).
Proof.
  intros Hd. revert live removed d Hd. induction names as [|m names IH]; intros live removed d Hd; cbn [sweep_claims].
  { split; [done|]. intros Hin. by apply not_elem_of_nil in Hin. }
  destruct (is_dir d m); [done|]. destruct (readAccessClaim d m) as [c|] eqn:Hm; [|done].
  assert (m <> name) as Hne by (intros ->; apply readAccessClaim_at in Hm; congruence).
  assert (name ∈ m :: names -> name ∈ names) as Hsub by (intros [->|?]%elem_of_cons; done).
  destruct (_ <=? _); [destruct (removable m); [|done]|].
  - destruct (IH live true (delete m d)) as [H1 H2]; [by rewrite lookup_delete_ne|]. auto.
  - destruct (IH (live + 1) removed d Hd) as [H1 H2]. auto.
Qed.

Lemma junk_claim_blocks removable synced c r now s name :
  ms_claims s !! name = Some EJunk ->
  is_ok (claimAccess removable synced c r now s).1 = false /\ ms_claims (claimAccess removable synced c r now s).2 !! name = Some EJunk.
Proof.
  intros Hj. unfold claimAccess. destruct (call relay_usable s; _); [|done].
  destruct (junk_claim_stays removable (u64 now) (dir_names (ms_claims s)) 0 false _ _ Hj) as [H1 H2].
  assert (name ∈ dir_names (ms_claims s)) as Hin by (apply elem_of_dir_names; by eexists). specialize (H2 Hin).
  by destruct (sweep_claims _ _ _ _ _ _) as [[[live removed]|] claims].
Qed.

Theorem partial_claim_blocks_relay ops s name authority io g r operation body now :
  ms_claims s !! name = Some EJunk -> is_ok (relay_authorize authority io g r operation body now (relay_run ops s)).1 = false.
Proof.
  intros Hj. unfold relay_authorize. destruct (let* _ := authority g now in _); [|done].
  assert (ms_claims (relay_run ops s) !! name = Some EJunk) as Hr; [|by eapply junk_claim_blocks].
  revert s Hj. induction ops as [|op ops IH]; intros s Hj; [done|]. apply IH. destruct op; cbn [relay_step].
  - destruct (Put_boxes made c e now0 s) as (b & -> & _). done.
  - unfold relay_Delete. repeat (case_match; try done).
  - unfold relay_Sweep. repeat (case_match; try done).
  - by eapply junk_claim_blocks.
  - destruct (relay_Open _ _ _ _ _ _) as [s'|] eqn:E; [|done]. unfold relay_Open in E. inv_ok E. by simplify_eq.
Qed.
End Crashed.

(** ** Examples *)

Definition toy_signatures : Ed25519 := {|
  ed25519_Verify public message signature := bool_decide (signature = sha256 (public ++ message) ++ sha256 message);
  ed25519_Sign private message := sha256 (drop 32 private ++ message) ++ sha256 message;
|}.
#[local] Existing Instance toy_signatures.

Definition key_pair (b : byte) : bytes := List.repeat x00 32 ++ List.repeat b 32.
Definition relay_key : bytes := key_pair x05.
Definition endpoint_key : bytes := key_pair x11.
Definition capability_key : bytes := key_pair x07.
Definition empty_relay : RelayStore := MkRelayStore true relay_DefaultQuota relay_key ∅ ∅.
Definition named (prefix : string) (b : byte) : string := prefix +:+ hex_encode (List.repeat b 32).
Definition message_in (mailbox : string) : RelayEnvelope := MkRelay mailbox (named "msg_" x11) (List.repeat x07 40) 5000 "" "".
Definition my_box : string := named "mbx_" x21.
Definition other_box : string := named "mbx_" x22.

Definition draft_grant : CapabilityGrant :=
  MkGrant "" "tos-local" sample_hash sample_hash sample_agent_id (dg_EndpointID sample_delegation) (hex_encode (public_of relay_key)) my_box
    (hex_encode (public_of capability_key)) ["delete"; "deposit"; "read"] 1500 4000 "".
Definition sample_grant : CapabilityGrant := Eval vm_compute in
  match SignGrant draft_grant endpoint_key with Ok g => g | Err _ => draft_grant end.
Definition grant_digest : string := Eval vm_compute in match GrantDigest sample_grant with Ok d => d | Err _ => "" end.
(** A signed request. *)
Definition request_for (operation : string) (body : result string) (nonce : byte) : AccessRequest :=
  let draft := MkAccess "" grant_digest operation my_box (match body with Ok d => d | Err _ => "" end) (named "" nonce) 1990 2090 "" in
  match SignAccessRequest draft capability_key with Ok r => r | Err _ => draft end.
Definition read_request : AccessRequest := Eval vm_compute in request_for OperationRead (ReadBodyDigest my_box 10) xab.
Definition live_endpoint : CapabilityGrant -> time -> result bytes :=
  ResolveMailboxEndpoint (Some sample_resolver) sample_domain sample_policy (fun _ => Ok sample_delegation_json).
Definition known_endpoint : CapabilityGrant -> time -> result bytes := fun _ _ => Ok (public_of endpoint_key).
Definition all_well : relay_io := MkRelayIO (fun _ => true) true COk true COk true true.
Definition read_body : string := Eval vm_compute in match ReadBodyDigest my_box 10 with Ok d => d | Err _ => "" end.

Definition one_stored : RelayStore := Eval vm_compute in (relay_Put true COk (message_in my_box) 100 empty_relay).2.

Lemma answer_pair {A B} (p : A * B) x : p.1 = x -> p = (x, p.2).
Proof. by destruct p as [y z]; cbn; intros ->. Qed.

Lemma empty_within : within relay_DefaultQuota ∅.
Proof. constructor; [rewrite weight_empty; by vm_compute..|]. intros name d Hd. by rewrite lookup_empty in Hd. Qed.

Lemma relay_within_quota_witness :
  within relay_DefaultQuota (ms_boxes (relay_run [ROpPut true COk (message_in my_box) 100; ROpSweep (fun _ _ => true) (fun _ => true) 6000] empty_relay)).
Proof.
  apply (relay_within_quota [ROpPut true COk (message_in my_box) 100; ROpSweep (fun _ _ => true) (fun _ => true) 6000] empty_relay);
    [vm_compute; reflexivity|apply empty_within].
Defined.


Lemma access_used_once_witness :
  is_ok (relay_authorize known_endpoint all_well sample_grant read_request OperationRead read_body 2000 one_stored).1 = true
  /\ is_ok (relay_authorize known_endpoint all_well sample_grant read_request OperationRead read_body 2010
       (relay_run [ROpRestart relay_key] (relay_authorize known_endpoint all_well sample_grant read_request OperationRead read_body 2000 one_stored).2)).1
     = false.
Proof.
  split; [vm_compute; reflexivity|].
  apply (access_used_once known_endpoint all_well sample_grant read_request OperationRead read_body 2000 one_stored
    (relay_authorize known_endpoint all_well sample_grant read_request OperationRead read_body 2000 one_stored).2 [ROpRestart relay_key]).
  - apply answer_pair. vm_compute. reflexivity.
  - lia.
  - constructor; [|constructor]. intros t Ht. discriminate Ht.
Defined.


Lemma body_digest_binds_witness : BodyRead my_box 10 = BodyRead my_box 10 \/ sha256_collision.
Proof. apply (body_digest_binds (BodyRead my_box 10) (BodyRead my_box 10) read_body); [exact I|exact I|vm_compute; reflexivity..]. Defined.

(** A grant for one mailbox deposits into another: nothing compares the mailbox of the envelope with the one of the grant. *)
Definition foreign_deposit : AccessRequest := Eval vm_compute in
  request_for OperationDeposit (DepositBodyDigest (message_in other_box)) xcd.
Theorem deposit_into_foreign_mailbox :
  cg_MailboxID sample_grant = my_box /\ my_box <> other_box
  /\ match auth_Put known_endpoint all_well sample_grant foreign_deposit (message_in other_box) 2000 empty_relay with
     | (Ok (fresh, ack), s) => fresh = true /\ sa_MailboxID ack = other_box /\ relay_List other_box 2010 10 s = Ok [message_in other_box]
     | _ => False
     end.
Proof. vm_compute. repeat split. discriminate. Qed.

(** A request is replayed with its nonce in capitals, which the signature does not cover: it is a claim of its own.  The
    relay then cannot read that claim, and refuses every request from then on. *)
Definition in_capitals (s : string) : string :=
  string_of_list_ascii (List.map (fun c => if in_range "a" "f" c then ascii_of_nat (nat_of_ascii c - 32) else c) (list_ascii_of_string s)).
Definition replayed_request : AccessRequest := Eval vm_compute in
  MkAccess (rx_Schema read_request) (rx_GrantDigest read_request) (rx_Operation read_request) (rx_MailboxID read_request)
    (rx_BodyDigest read_request) (in_capitals (rx_NonceHex read_request)) (rx_IssuedAtUnix read_request) (rx_ExpiresAtUnix read_request)
    (rx_CapabilitySignatureHex read_request).
Definition fresh_request : AccessRequest := Eval vm_compute in request_for OperationRead (ReadBodyDigest my_box 10) xcd.
Definition read_with (r : AccessRequest) (now : time) (s : RelayStore) : result (list RelayEnvelope) * RelayStore :=
  auth_List known_endpoint all_well sample_grant r now 10 s.
Theorem nonce_case_replays :
  let s1 := (read_with read_request 2000 one_stored).2 in
  let s2 := (read_with replayed_request 2010 s1).2 in
  (read_with read_request 2000 one_stored).1 = Ok [message_in my_box]
  /\ (read_with replayed_request 2010 s1).1 = Ok [message_in my_box]
  /\ (read_with fresh_request 2020 s2).1 = Err (NewError "invalid Mailbox access claim nonce").
Proof. vm_compute. repeat split. Qed.
