(* ===== verification/History.v ===== *)
(** * Direct-conversation history: [pkg/eventlog/history.go]

    A device of an endpoint hands the direct conversations it has to another device of the same endpoint, page by page.
    [BuildHistorySegment] makes a page from the applied and delivered events of the journal; [ApplyHistorySegment] puts a
    page into a store of its own: the events as immutable objects, one immutable manifest per page, and last a
    checkpoint; [History] lists what checkpoints reach.

    The store is a map of objects by file name, and per conversation a directory of chains, one per pair of devices.  A
    chain has a checkpoint file and a directory of manifests, whose file names are the sequence numbers in twenty digits;
    the model keeps them under the number.  A manifest is compared with the one on file byte for byte, which for the JSON
    of a record is equality of the records.  The theorems show that what was committed stays readable and that a page,
    once applied, is exactly what the listing gains; and two ways in which a refused page or an interrupted call
    leaves a conversation that cannot be listed or continued. *)

From S2P Require Import Prelude Encoding Canon Files Fault Json Money Identity Payload PayloadCodec E2ee Delivery Journal Room Envelope.

Definition HistoryCheckpointSchema : string := "tos.messaging.history-checkpoint.v1".
Definition HistoryManifestSchema : string := "tos.messaging.history-manifest.v1".
Definition MaxHistorySegmentsPerChain : Z := 4096.

Definition ErrHistorySequence : error := Sentinel "history segment does not extend the accepted chain".
Definition ErrHistoryRoute : error := Sentinel "history segment is not bound to this device route".
Definition ErrHistoryDevice : error := Sentinel "history segment names an unauthorized device".
Definition ErrHistoryContent : error := Sentinel "history segment contains ineligible content".
Definition ErrHistoryExhausted : error := Sentinel "no direct history remains after the requested cursor".

Record historyCheckpoint : Type := MkCheckpoint {
  hc_Schema : string;
  hc_ConversationID : string;
  hc_SourceDeviceID : string;
  hc_TargetDeviceID : string;
  hc_Sequence : Z;
  hc_LastSegmentDigest : string;
  hc_LastEventCreatedAt : Z;
  hc_LastEventID : string;
  hc_UpdatedAtUnix : Z;
}.

Record historyManifest : Type := MkManifest {
  hm_Schema : string;
  hm_ConversationID : string;
  hm_SourceDeviceID : string;
  hm_TargetDeviceID : string;
  hm_Sequence : Z;
  hm_PreviousSegmentDigest : string;
  hm_AfterCreatedAtUnix : Z;
  hm_AfterEventID : string;
  hm_SegmentDigest : string;
  hm_EventIDs : list string;
  hm_EventDigests : list string;
  hm_AppliedAtUnix : Z;
}.

#[global] Instance historyManifest_eq_dec : EqDecision historyManifest.
Proof. solve_decision. Defined.

Record Chain : Type := MkChain {
  ch_checkpoint : option (dirent historyCheckpoint);
  ch_segments : gmap Z (dirent historyManifest);
}.

(** A sub-directory is an [ERec] of what is in it. *)
Record HistoryStore : Type := MkHistory {
  hi_held : bool;
  hi_objects : directory bytes;
  hi_chains : gmap string (directory Chain);
}.

Abbreviation segment := DeviceHistorySegment (only parsing).
Abbreviation sg_Source := DeviceHistorySegment_SourceDeviceID (only parsing).
Abbreviation sg_Target := DeviceHistorySegment_TargetDeviceID (only parsing).
Abbreviation sg_Conversation := DeviceHistorySegment_ConversationID (only parsing).
Abbreviation sg_Sequence := DeviceHistorySegment_Sequence (only parsing).
Abbreviation sg_Previous := DeviceHistorySegment_PreviousSegmentDigest (only parsing).
Abbreviation sg_AfterCreated := DeviceHistorySegment_AfterCreatedAtUnix (only parsing).
Abbreviation sg_AfterEvent := DeviceHistorySegment_AfterEventID (only parsing).
Abbreviation sg_Events := DeviceHistorySegment_Events (only parsing).

(** The order of a history: by creation time, then by identifier. *)
Definition before (created : Z) (id : string) (created' : Z) (id' : string) : bool :=
  (created <? created') || (created =? created') && str_ltb id id'.

Definition object_path (eventID : string) : string := sdrop 4 eventID +:+ ".json".
Definition conversation_dir (conversationID : string) : string := sdrop 5 conversationID.
Definition chain_dir (source target : string) : string := sdrop 4 source +:+ "-" +:+ sdrop 4 target.

Definition sameNetwork (first second : Event) : bool :=
  match ev_Network first, ev_Network second with
  | Some a, Some b =>
      String.eqb (nd_NetworkId a) (nd_NetworkId b) && String.eqb (nd_GenesisRootHash a) (nd_GenesisRootHash b)
      && String.eqb (nd_GenesisFileHash a) (nd_GenesisFileHash b)
  | _, _ => false
  end.

(** The roster is sorted and has no repetition. *)
Fixpoint roster_ok (previous : option string) (authorized : list string) : bool :=
  match authorized with
  | [] => true
  | d :: rest =>
      ids_Device d && match previous with Some p => str_ltb p d | None => true end && roster_ok (Some d) rest
  end.

(** [putHistoryImmutable] *)
Definition put_immutable {K A} `{Countable K} `{EqDecision A} (c : create_outcome) (key : K) (a : A)
    (files : gmap K (dirent A)) : result unit * gmap K (dirent A) :=
  match files !! key with
  | None =>
      match c with
      | COk => (Ok tt, <[key := ERec a]> files)
      | CFail => (Err (NewError "create history object"), files)
      | CLeftPartial => (Err (NewError "write immutable history object"), <[key := EJunk]> files)
      | CLeftWhole => (Err (NewError "sync event journal directory"), <[key := ERec a]> files)
      end
  | Some (ERec b) =>
      if bool_decide (b = a) then (Ok tt, files)
      else (Err (NewError "history content address contains conflicting bytes"), files)
  | Some _ => (Err (NewError "history content address contains conflicting bytes"), files)
  end.

(** What [os.MkdirAll] and the check after it come to: every directory there and private, or an error with some of the
    directories made. *)
Inductive mkdir_outcome : Type := MOk | MFail (conversation chain : bool).

Definition empty_chain : Chain := MkChain None ∅.

Definition make_chain (conversation chain : string) (chains : gmap string (directory Chain))
    : gmap string (directory Chain) :=
  let d := default ∅ (chains !! conversation) in
  <[conversation := match d !! chain with Some _ => d | None => <[chain := ERec empty_chain]> d end]> chains.

Definition with_chains (h : HistoryStore) (chains : gmap string (directory Chain)) : HistoryStore :=
  MkHistory (hi_held h) (hi_objects h) chains.
Definition with_objects (h : HistoryStore) (objects : directory bytes) : HistoryStore :=
  MkHistory (hi_held h) objects (hi_chains h).

Definition lookup_chain (conversation chain : string) (h : HistoryStore) : option (dirent Chain) :=
  hi_chains h !! conversation ≫= fun d => d !! chain.
Definition put_chain (conversation chain : string) (c : Chain) (h : HistoryStore) : HistoryStore :=
  with_chains h (<[conversation := <[chain := ERec c]> (default ∅ (hi_chains h !! conversation))]> (hi_chains h)).

Definition ensureHistoryChain (m : mkdir_outcome) (s : segment) : action HistoryStore Chain :=
  fun h =>
  let conversation := conversation_dir (sg_Conversation s) in
  let chain := chain_dir (sg_Source s) (sg_Target s) in
  match m with
  | MFail made_conversation made_chain =>
      (Err (NewError "create history directory"),
       if made_chain then with_chains h (make_chain conversation chain (hi_chains h))
       else if made_conversation
       then with_chains h (<[conversation := default ∅ (hi_chains h !! conversation)]> (hi_chains h))
       else h)
  | MOk =>
      let h := with_chains h (make_chain conversation chain (hi_chains h)) in
      match lookup_chain conversation chain h with
      | Some (ERec c) => (Ok c, h)
      | _ => (Err (NewError "create history directory"), h)
      end
  end.

Definition err_checkpoint : error := NewError "invalid history checkpoint".

Definition check_checkpoint (c : historyCheckpoint) : bool :=
  String.eqb (hc_Schema c) HistoryCheckpointSchema && ids_Conversation (hc_ConversationID c)
  && ids_Device (hc_SourceDeviceID c) && ids_Device (hc_TargetDeviceID c) && negb (hc_Sequence c =? 0)
  && ValidDigest (hc_LastSegmentDigest c) && negb (hc_LastEventCreatedAt c =? 0) && ids_Event (hc_LastEventID c)
  && negb (hc_UpdatedAtUnix c =? 0).

Definition decodeHistoryCheckpointFile (c : Chain) : result historyCheckpoint :=
  match ch_checkpoint c with
  | None => Err ErrNotExist
  | Some (ERec checkpoint) => if check_checkpoint checkpoint then Ok checkpoint else Err err_checkpoint
  | Some _ => Err err_checkpoint
  end.

Definition readHistoryCheckpoint (s : segment) (c : Chain) : result (option historyCheckpoint) :=
  match decodeHistoryCheckpointFile c with
  | Err e => if bool_decide (e = ErrNotExist) then Ok None else Err err_checkpoint
  | Ok checkpoint =>
      refuse negb (String.eqb (hc_ConversationID checkpoint) (sg_Conversation s))
             || negb (String.eqb (hc_SourceDeviceID checkpoint) (sg_Source s))
             || negb (String.eqb (hc_TargetDeviceID checkpoint) (sg_Target s)) with err_checkpoint;
      Ok (Some checkpoint)
  end.

Definition readHistoryManifest (checkpoint : historyCheckpoint) (sequence : Z) (c : Chain) : result historyManifest :=
  match ch_segments c !! sequence with
  | Some (ERec m) =>
      refuse negb (String.eqb (hm_Schema m) HistoryManifestSchema)
             || negb (String.eqb (hm_ConversationID m) (hc_ConversationID checkpoint))
             || negb (String.eqb (hm_SourceDeviceID m) (hc_SourceDeviceID checkpoint))
             || negb (String.eqb (hm_TargetDeviceID m) (hc_TargetDeviceID checkpoint)) || (hm_Sequence m =? 0)
             || negb (ValidDigest (hm_SegmentDigest m)) || (length (hm_EventIDs m) =? 0)%nat
             || negb (length (hm_EventIDs m) =? length (hm_EventDigests m))%nat
             || (MaxHistoryEventsPerSegment <? Z.of_nat (length (hm_EventIDs m)))
        with NewError "invalid history manifest";
      refuse negb (forallb ids_Event (hm_EventIDs m)) || negb (forallb ValidDigest (hm_EventDigests m))
        with NewError "invalid history manifest Event";
      Ok m
  | Some EJunk => Err (NewError "invalid history manifest")
  | _ => Err (NewError "read history manifest")
  end.

(** ** Importing a page *)

Section Importing.
Context `{PR : Protocol} `{AF : AttachmentFormats}.

Definition validateHistoryEnvelope (outer : Event) (s : segment)
    (localAgentID localEndpointID localDeviceID : string) (authorized : list string) : result unit :=
  refuse negb (is_ok (ValidateEvent outer)) || negb (is_ok (DeviceHistorySegment_Validate s)) with ErrHistoryContent;
  refuse negb (String.eqb (ev_Kind outer) "device.history.segment") || negb (String.eqb (ev_RoomID outer) "")
         || negb (String.eqb (ev_ConversationID outer) (sg_Conversation s))
         || negb (String.eqb (ev_SenderAgentID outer) localAgentID)
         || negb (String.eqb (ev_SenderEndpointID outer) localEndpointID)
         || negb (String.eqb (ev_SenderDeviceID outer) (sg_Source s))
         || negb (String.eqb (sg_Target s) localDeviceID) with ErrHistoryRoute;
  refuse negb (roster_ok None authorized) with ErrHistoryDevice;
  refuse negb (bool_decide (sg_Source s ∈ authorized)) || negb (bool_decide (sg_Target s ∈ authorized))
    with ErrHistoryDevice;
  Ok tt.

(** An event and its canonical bytes; [previous] is the one before it in the page. *)
Fixpoint validate_events (outer : Event) (s : segment) (previous : option Event) (raws : list bytes)
    : result (list (Event * bytes)) :=
  match raws with
  | [] => Ok []
  | raw :: rest =>
      match DecodeEventJSON raw with
      | Err _ => Err ErrHistoryContent
      | Ok event =>
          refuse negb (String.eqb (ev_ConversationID event) (sg_Conversation s)) || negb (String.eqb (ev_RoomID event) "")
                 || String.eqb (ev_Kind event) "device.history.segment" || LocalOnly (ev_Kind event)
                 || negb (sameNetwork event outer) with ErrHistoryContent;
          let* canonical := EncodeEventJSON event in
          refuse match previous with
                 | Some p => negb (before (ev_CreatedAtUnix p) (ev_EventID p) (ev_CreatedAtUnix event) (ev_EventID event))
                 | None => false
                 end with ErrHistoryContent;
          refuse negb (before (sg_AfterCreated s) (sg_AfterEvent s) (ev_CreatedAtUnix event) (ev_EventID event))
            with ErrHistoryContent;
          let* events := validate_events outer s (Some event) rest in
          Ok ((event, canonical) :: events)
      end
  end.

Definition validateHistoryEvents (outer : Event) (s : segment) : result (list (Event * bytes)) :=
  validate_events outer s None (sg_Events s).

Fixpoint put_objects (cs : nat -> create_outcome) (events : list (Event * bytes)) : action HistoryStore unit :=
  fun h =>
  match events with
  | [] => (Ok tt, h)
  | (event, raw) :: rest =>
      match put_immutable (cs O) (object_path (ev_EventID event)) raw (hi_objects h) with
      | (Err e, objects) => (Err e, with_objects h objects)
      | (Ok _, objects) => put_objects (fun i => cs (S i)) rest (with_objects h objects)
      end
  end.

Definition manifest_of (s : segment) (digest : string) (events : list (Event * bytes)) (now : time) : historyManifest :=
  MkManifest HistoryManifestSchema (sg_Conversation s) (sg_Source s) (sg_Target s) (sg_Sequence s) (sg_Previous s)
    (sg_AfterCreated s) (sg_AfterEvent s) digest (List.map (fun e => ev_EventID (fst e)) events)
    (List.map (fun e => canon_Digest (snd e)) events) (u64 now).

Definition checkpoint_of (s : segment) (digest : string) (events : list (Event * bytes)) (now : time)
    : historyCheckpoint :=
  let '(created, id) := match last events with Some (e, _) => (ev_CreatedAtUnix e, ev_EventID e) | None => (0, ""%string) end in
  MkCheckpoint HistoryCheckpointSchema (sg_Conversation s) (sg_Source s) (sg_Target s) (sg_Sequence s) digest created id
    (u64 now).

(** Whether the page follows what the chain has; [None] when it is the last page again. *)
Definition follows_chain (s : segment) (digest : string) (checkpoint : option historyCheckpoint) : result (option unit) :=
  match checkpoint with
  | Some c =>
      if (sg_Sequence s =? hc_Sequence c) && String.eqb digest (hc_LastSegmentDigest c) then Ok None else
      refuse negb (sg_Sequence s =? u64 (hc_Sequence c + 1)) || negb (String.eqb (sg_Previous s) (hc_LastSegmentDigest c))
        with ErrHistorySequence;
      refuse negb (sg_AfterCreated s =? hc_LastEventCreatedAt c) || negb (String.eqb (sg_AfterEvent s) (hc_LastEventID c))
        with ErrHistorySequence;
      Ok (Some tt)
  | None =>
      refuse negb (sg_Sequence s =? 1) || negb (String.eqb (sg_Previous s) "") with ErrHistorySequence;
      Ok (Some tt)
  end.

(** What the operating system decides in one call. *)
Record apply_outcomes : Type := MkApply {
  ao_mkdir : mkdir_outcome;
  ao_objects : nat -> create_outcome;
  ao_manifest : create_outcome;
  ao_checkpoint : write_outcome;
}.

(** The body under the lock, once the envelope and the events have been checked. *)
Definition apply_page (o : apply_outcomes) (s : segment) (digest : string) (events : list (Event * bytes)) (now : time)
    : action HistoryStore bool :=
  fun h =>
  let conversation := conversation_dir (sg_Conversation s) in
  let name := chain_dir (sg_Source s) (sg_Target s) in
  match ensureHistoryChain (ao_mkdir o) s h with
  | (Err e, h) => (Err e, h)
  | (Ok chain, h) =>
  match readHistoryCheckpoint s chain with
  | Err e => (Err e, h)
  | Ok checkpoint =>
  match follows_chain s digest checkpoint with
  | Err e => (Err e, h)
  | Ok None => (Ok false, h)
  | Ok (Some _) =>
  if MaxHistorySegmentsPerChain <? sg_Sequence s then (Err (NewError "history segment chain reached its bound"), h) else
  match put_objects (ao_objects o) events h with
  | (Err e, h) => (Err e, h)
  | (Ok _, h) =>
  match put_immutable (ao_manifest o) (sg_Sequence s) (manifest_of s digest events now) (ch_segments chain) with
  | (Err e, segments) => (Err e, put_chain conversation name (MkChain (ch_checkpoint chain) segments) h)
  | (Ok _, segments) =>
      let replaced := put_chain conversation name (MkChain (Some (ERec (checkpoint_of s digest events now))) segments) h in
      let kept := put_chain conversation name (MkChain (ch_checkpoint chain) segments) h in
      match ch_checkpoint chain, ao_checkpoint o with
      | Some EDir, _ | _, WFailOld => (Err (NewError "commit event transition"), kept)
      | _, WOk => (Ok true, replaced)
      | _, WFailNew => (Err (NewError "sync event journal directory"), replaced)
      end
  end end end end end.

Definition ApplyHistorySegment (o : apply_outcomes) (outer : Event) (s : segment)
    (localAgentID localEndpointID localDeviceID : string) (authorizedDeviceIDs : list string) (now : time)
    : action HistoryStore bool :=
  fun h =>
  if negb (hi_held h) then (Err (NewError "event journal is not owned by this process"), h) else
  if time_invalid now then (Err (NewError "invalid history application time"), h) else
  match validateHistoryEnvelope outer s localAgentID localEndpointID localDeviceID authorizedDeviceIDs with
  | Err e => (Err e, h)
  | Ok _ =>
      match validateHistoryEvents outer s with
      | Err e => (Err e, h)
      | Ok events => apply_page o s (canon_Digest (ev_Content outer)) events now h
      end
  end.

(** ** Listing *)

(** Where a walk along a chain stands: the digest of the last page and the last event. *)
Record Cursor : Type := MkCursor { cu_Digest : string; cu_Created : Z; cu_EventID : string }.

Fixpoint read_objects (objects : directory bytes) (conversationID : string) (ids digests : list string)
    (created : Z) (eventID : string) (byID : gmap string Event) : result (Z * string * gmap string Event) :=
  match ids, digests with
  | id :: ids, digest :: digests =>
      match objects !! object_path id with
      | Some (ERec raw) =>
          refuse negb (String.eqb (canon_Digest raw) digest) with NewError "history object does not match its committed manifest";
          match DecodeEventJSON raw with
          | Err _ => Err (NewError "invalid committed history object")
          | Ok event =>
              refuse negb (String.eqb (ev_EventID event) id) || negb (String.eqb (ev_ConversationID event) conversationID)
                with NewError "invalid committed history object";
              read_objects objects conversationID ids digests (ev_CreatedAtUnix event) (ev_EventID event)
                (<[id := event]> byID)
          end
      | Some EJunk => Err (NewError "history object does not match its committed manifest")
      | _ => Err (NewError "read committed history object")
      end
  | _, _ => Ok (created, eventID, byID)
  end.

(** The pages from [sequence] on, [n] of them. *)
Fixpoint read_pages (objects : directory bytes) (checkpoint : historyCheckpoint) (chain : Chain) (n : nat) (sequence : Z)
    (cursor : Cursor) (byID : gmap string Event) : result (Cursor * gmap string Event) :=
  match n with
  | O => Ok (cursor, byID)
  | S n =>
      let* m := readHistoryManifest checkpoint sequence chain in
      refuse negb (hm_Sequence m =? sequence) || negb (String.eqb (hm_PreviousSegmentDigest m) (cu_Digest cursor))
             || negb (hm_AfterCreatedAtUnix m =? cu_Created cursor)
             || negb (String.eqb (hm_AfterEventID m) (cu_EventID cursor))
             || (sequence =? hc_Sequence checkpoint)
                && negb (String.eqb (hm_SegmentDigest m) (hc_LastSegmentDigest checkpoint))
        with NewError "history manifest chain is inconsistent";
      let* (created, eventID, byID) :=
        read_objects objects (hc_ConversationID checkpoint) (hm_EventIDs m) (hm_EventDigests m) (cu_Created cursor)
          (cu_EventID cursor) byID in
      read_pages objects checkpoint chain n (sequence + 1) (MkCursor (hm_SegmentDigest m) created eventID) byID
  end.

Definition read_chain (objects : directory bytes) (conversationID : string) (entry : dirent Chain)
    (byID : gmap string Event) : result (gmap string Event) :=
  match entry with
  | ERec chain =>
      match decodeHistoryCheckpointFile chain with
      | Err _ => Err err_checkpoint
      | Ok checkpoint =>
          refuse negb (String.eqb (hc_ConversationID checkpoint) conversationID) with err_checkpoint;
          let* (cursor, byID) :=
            read_pages objects checkpoint chain (Z.to_nat (hc_Sequence checkpoint)) 1 (MkCursor "" 0 "") byID in
          refuse negb (cu_Created cursor =? hc_LastEventCreatedAt checkpoint)
                 || negb (String.eqb (cu_EventID cursor) (hc_LastEventID checkpoint))
            with NewError "history checkpoint cursor is inconsistent";
          Ok byID
      end
  | _ => Err (NewError "history chain entry is not a directory")
  end.

Fixpoint read_chains (objects : directory bytes) (conversationID : string) (chains : directory Chain)
    (names : list string) (byID : gmap string Event) : result (gmap string Event) :=
  match names with
  | [] => Ok byID
  | name :: rest =>
      let* byID := read_chain objects conversationID (default EForeign (chains !! name)) byID in
      read_chains objects conversationID chains rest byID
  end.

Definition event_le (e f : Event) : Prop :=
  ev_CreatedAtUnix e < ev_CreatedAtUnix f \/
  (ev_CreatedAtUnix e = ev_CreatedAtUnix f /\ str_le (ev_EventID e) (ev_EventID f)).
#[global] Instance event_le_dec e f : Decision (event_le e f).
Proof. unfold event_le. apply _. Defined.

Definition History (conversationID : string) (limit : Z) (h : HistoryStore) : result (list Event) :=
  refuse negb (hi_held h) with NewError "event journal is not owned by this process";
  refuse negb (ids_Conversation conversationID) || (limit <? 0)
         || (MaxHistorySegmentsPerChain * MaxHistoryEventsPerSegment <? limit) with NewError "invalid history query";
  match hi_chains h !! conversation_dir conversationID with
  | None => Ok []
  | Some chains =>
      let* byID := read_chains (hi_objects h) conversationID chains (dir_names chains) ∅ in
      let result := merge_sort event_le (List.map snd (map_to_list byID)) in
      Ok (if (0 <? limit) && (limit <? Z.of_nat (length result))
          then drop (length result - Z.to_nat limit) result else result)
  end.
End Importing.

(** ** Exporting a page *)

Section Exporting.
Context `{PR : Protocol} `{AF : AttachmentFormats}.

(** Events by identifier, with their canonical bytes. *)
Definition candidates : Type := gmap string (Event * bytes).

Definition eligible (conversationID : string) (afterCreated : Z) (afterEvent : string) (e : Event) : bool :=
  String.eqb (ev_ConversationID e) conversationID && String.eqb (ev_RoomID e) ""
  && negb (String.eqb (ev_Kind e) "device.history.segment") && negb (LocalOnly (ev_Kind e))
  && before afterCreated afterEvent (ev_CreatedAtUnix e) (ev_EventID e).

Definition add_candidate (conversationID : string) (afterCreated : Z) (afterEvent : string) (raw : bytes)
    (byID : candidates) : result candidates :=
  match DecodeEventJSON raw with
  | Err _ => Err (NewError "decode durable Event for history export")
  | Ok event =>
      if negb (eligible conversationID afterCreated afterEvent event) then Ok byID else
      let* canonical := EncodeEventJSON event in
      refuse match byID !! ev_EventID event with
             | Some (_, existing) => negb (bool_decide (existing = canonical))
             | None => false
             end with ErrConflict;
      Ok (<[ev_EventID event := (event, canonical)]> byID)
  end.

Section Gather.
Context (conversationID : string) (afterCreated : Z) (afterEvent : string).

Fixpoint gather_inbound (files : directory EventRecord) (names : list string) (byID : candidates) : result candidates :=
  match names with
  | [] => Ok byID
  | name :: rest =>
      refuse is_dir files name with NewError "inbound history source contains a directory";
      let* record := readRecord files name in
      if negb (String.eqb (rc_ConversationID record) conversationID)
         || negb (bool_decide (rc_Admission record = AdmissionAdmitted))
         || negb (bool_decide (rc_Application record = StateApplied)) || negb (Deliverable record)
      then gather_inbound files rest byID else
      let* raw := Record_Payload record in
      let* byID := add_candidate conversationID afterCreated afterEvent raw byID in
      gather_inbound files rest byID
  end.

Fixpoint gather_outbound (files : directory Delivery) (names : list string) (byID : candidates) : result candidates :=
  match names with
  | [] => Ok byID
  | name :: rest =>
      refuse is_dir files name with NewError "outbound history source contains a directory";
      let* delivery := readDelivery files name in
      if negb (String.eqb (dl_ConversationID delivery) conversationID)
         || negb (bool_decide (dl_State delivery = StateDelivered))
      then gather_outbound files rest byID else
      let* raw := Delivery_Payload delivery in
      let* byID := add_candidate conversationID afterCreated afterEvent raw byID in
      gather_outbound files rest byID
  end.
End Gather.

(** The page: as many of the events in order as the limit and the bytes allow. *)
Fixpoint fill_page (limit : nat) (used : Z) (events : list (Event * bytes)) : list (Event * bytes) :=
  match limit, events with
  | S limit, (e, raw) :: rest =>
      if MaxHistorySegmentEventBytes <? used + blen raw then [] else (e, raw) :: fill_page limit (used + blen raw) rest
  | _, _ => []
  end.

Definition candidate_le (a b : Event * bytes) : Prop := event_le (fst a) (fst b).
#[global] Instance candidate_le_dec a b : Decision (candidate_le a b).
Proof. unfold candidate_le. apply _. Defined.

Definition valid_cursor (sequence : Z) (previous : string) (afterCreated : Z) (afterEvent : string) : bool :=
  (sequence =? 1) && String.eqb previous "" && (afterCreated =? 0) && String.eqb afterEvent ""
  || (1 <? sequence) && ValidDigest previous && (0 <? afterCreated) && ids_Event afterEvent.

Definition BuildHistorySegment (sourceDeviceID targetDeviceID conversationID : string) (sequence : Z)
    (previousSegmentDigest : string) (afterCreatedAt : Z) (afterEventID : string) (limit : Z) (j : Journal)
    : result segment :=
  call journal_usable j;
  let limit := if limit =? 0 then MaxHistoryEventsPerSegment else limit in
  refuse (limit <? 1) || (MaxHistoryEventsPerSegment <? limit) || negb (ids_Device sourceDeviceID)
         || negb (ids_Device targetDeviceID) || String.eqb sourceDeviceID targetDeviceID
         || negb (ids_Conversation conversationID)
         || negb (valid_cursor sequence previousSegmentDigest afterCreatedAt afterEventID)
    with NewError "invalid history export request";
  let* byID := gather_inbound conversationID afterCreatedAt afterEventID (jr_inbound j) (dir_names (jr_inbound j)) ∅ in
  let* byID := gather_outbound conversationID afterCreatedAt afterEventID (ob_files (jr_outbox j))
                 (dir_names (ob_files (jr_outbox j))) byID in
  let page := fill_page (Z.to_nat limit) 0 (merge_sort candidate_le (List.map snd (map_to_list byID))) in
  let s := MkDeviceHistorySegment sourceDeviceID targetDeviceID conversationID sequence previousSegmentDigest
             afterCreatedAt afterEventID (List.map snd page) in
  refuse (length page =? 0)%nat with ErrHistoryExhausted;
  call DeviceHistorySegment_Validate s;
  Ok s.
End Exporting.

(** ** What is on file stays *)

Definition files_grow {K A} `{Countable K} (f f' : gmap K (dirent A)) : Prop :=
  forall k a, f !! k = Some (ERec a) -> f' !! k = Some (ERec a).

#[global] Instance files_grow_preorder {K A} `{Countable K} : PreOrder (files_grow (K := K) (A := A)).
Proof. split; [by intros f k a|]. intros f g h Hfg Hgh k a Hk. by apply Hgh, Hfg. Qed.

Lemma put_immutable_grow {K A} `{Countable K} `{EqDecision A} c (key : K) (a : A) files r files' :
  put_immutable c key a files = (r, files') -> files_grow files files' /\ (r = Ok tt -> files' !! key = Some (ERec a)).
Proof.
  unfold put_immutable. destruct (files !! key) as [[| | |b]|] eqn:Hk; try (by intros [= <- <-]).
  - case_bool_decide as Hb; intros [= <- <-]; [|done]. subst b. done.
  - assert (forall x, files_grow files (<[key := x]> files)) as Hg.
    { intros x k y Hy. rewrite lookup_insert_ne; [done|]. congruence. }
    destruct c; intros [= <- <-]; (split; [done || apply Hg|]); try done. intros _. apply lookup_insert_eq.
Qed.

Section Reading.
Context `{PR : Protocol} `{AF : AttachmentFormats}.

(** The event an object file holds. *)
Definition object_event (objects : directory bytes) (id : string) : option Event :=
  match objects !! object_path id with
  | Some (ERec raw) => match DecodeEventJSON raw with Ok e => Some e | Err _ => None end
  | _ => None
  end.

Lemma object_event_grow objects objects' id e :
  files_grow objects objects' -> object_event objects id = Some e -> object_event objects' id = Some e.
Proof.
  intros Hg. unfold object_event. destruct (objects !! object_path id) as [[| | |raw]|] eqn:E; try done. by rewrite (Hg _ _ E).
Qed.

(** One walk over a manifest's events: what it needs, where it ends and what it collects. *)
Lemma read_objects_grow objects objects' conv ids digests created id byID r :
  files_grow objects objects' -> read_objects objects conv ids digests created id byID = Ok r ->
  read_objects objects' conv ids digests created id byID = Ok r.
Proof.
  intros Hg. revert digests created id byID. induction ids as [|i ids IH]; intros [|d digests] created id byID H; try done.
  cbn [read_objects] in *. destruct (objects !! object_path i) as [[| | |raw]|] eqn:E; try done. rewrite (Hg _ _ E).
  destruct (negb _); [done|]. destruct (DecodeEventJSON raw); [|done]. destruct (_ || _); [done|]. by apply IH.
Qed.

Lemma read_objects_lookup objects conv ids digests created id byID c' i' b' :
  length ids = length digests -> read_objects objects conv ids digests created id byID = Ok (c', i', b') ->
  (forall k, b' !! k = if bool_decide (k ∈ ids) then object_event objects k else byID !! k) /\
  (forall k, k ∈ ids -> exists e, object_event objects k = Some e /\ ev_ConversationID e = conv) /\
  (forall byID2, exists b2, read_objects objects conv ids digests created id byID2 = Ok (c', i', b2)).
Proof.
  revert digests created id byID. induction ids as [|i ids IH]; intros [|d digests] created id byID Hl H; try done.
  - cbn in H. simplify_eq. split_and!.
    + intros k. rewrite bool_decide_false; [done|apply not_elem_of_nil].
    + by intros k ?%elem_of_nil.
    + intros byID2. by exists byID2.
  - cbn [read_objects] in *. destruct (objects !! object_path i) as [[| | |raw]|] eqn:E; try done.
    destruct (negb _); [done|]. destruct (DecodeEventJSON raw) as [e|] eqn:He; [|done].
    destruct (_ || _) eqn:Hc; [done|]. breflect.
    assert (object_event objects i = Some e) as Hi by (unfold object_event; by rewrite E, He).
    destruct (IH digests _ _ _ ltac:(cbn in Hl; lia) H) as (L1 & L2 & L3). split_and!.
    + intros k. rewrite L1. destruct (decide (k = i)) as [->|Hk].
      * rewrite lookup_insert_eq, (bool_decide_true (i ∈ i :: ids)) by apply list_elem_of_here. by case_bool_decide.
      * rewrite lookup_insert_ne by done. by rewrite (bool_decide_ext (k ∈ i :: ids) (k ∈ ids)) by set_solver.
    + intros k [->|Hk]%elem_of_cons; [by exists e|by apply L2].
    + intros byID2. by apply L3.
Qed.

(** The identifiers of [n] pages from [sequence] on. *)
Fixpoint page_ids (chain : Chain) (n : nat) (sequence : Z) : list string :=
  match n with
  | O => []
  | S n => match ch_segments chain !! sequence with
           | Some (ERec m) => hm_EventIDs m
           | _ => []
           end ++ page_ids chain n (sequence + 1)
  end.

Lemma readHistoryManifest_Ok cp sequence chain m :
  readHistoryManifest cp sequence chain = Ok m ->
  ch_segments chain !! sequence = Some (ERec m) /\ length (hm_EventIDs m) = length (hm_EventDigests m).
Proof.
  unfold readHistoryManifest. destruct (ch_segments chain !! sequence) as [[| | |x]|]; try done. intros H. inv_ok H.
  apply Ok_inj in H as ->. split; [done|]. breflect. by apply Nat.eqb_eq.
Qed.

Lemma read_pages_lookup objects cp chain n sequence cursor byID cursor' b' :
  read_pages objects cp chain n sequence cursor byID = Ok (cursor', b') ->
  (forall k, b' !! k = if bool_decide (k ∈ page_ids chain n sequence) then object_event objects k else byID !! k) /\
  (forall k, k ∈ page_ids chain n sequence -> exists e, object_event objects k = Some e /\
     ev_ConversationID e = hc_ConversationID cp) /\
  (forall byID2, exists b2, read_pages objects cp chain n sequence cursor byID2 = Ok (cursor', b2)).
Proof.
  revert sequence cursor byID. induction n as [|n IH]; intros sequence cursor byID H; cbn [read_pages page_ids] in *.
  - simplify_eq. split_and!.
    + intros k. rewrite bool_decide_false; [done|apply not_elem_of_nil].
    + by intros k ?%elem_of_nil.
    + intros byID2. by exists byID2.
  - destruct (readHistoryManifest cp sequence chain) as [m|] eqn:Hm; [|done].
    destruct (readHistoryManifest_Ok _ _ _ _ Hm) as [-> Hl]. destruct (_ || _); [done|].
    destruct (read_objects _ _ _ _ _ _ byID) as [[[c i] b]|] eqn:Ho; [|done].
    destruct (read_objects_lookup _ _ _ _ _ _ _ _ _ _ Hl Ho) as (O1 & O2 & O3). destruct (IH _ _ _ H) as (H1 & H2 & H3).
    split_and!.
    + intros k. rewrite H1, O1. destruct (decide (k ∈ page_ids chain n (sequence + 1))) as [Hk|Hk].
      * rewrite !bool_decide_true; [done|by apply elem_of_app; right|done].
      * rewrite (bool_decide_false (k ∈ page_ids chain n (sequence + 1))) by done.
        by rewrite (bool_decide_ext (k ∈ hm_EventIDs m ++ page_ids chain n (sequence + 1)) (k ∈ hm_EventIDs m)) by set_solver.
    + intros k [Hk|Hk]%elem_of_app; [by apply O2|by apply H2].
    + intros byID2. destruct (O3 byID2) as [b2 ->]. by apply H3.
Qed.

(** A walk is not disturbed by what is added later, also under a later checkpoint of the same chain. *)
Lemma read_pages_grow objects objects' cp cp' chain chain' n sequence cursor byID r :
  files_grow objects objects' -> files_grow (ch_segments chain) (ch_segments chain') ->
  hc_ConversationID cp' = hc_ConversationID cp -> hc_SourceDeviceID cp' = hc_SourceDeviceID cp ->
  hc_TargetDeviceID cp' = hc_TargetDeviceID cp ->
  cp' = cp \/ sequence + Z.of_nat n <= hc_Sequence cp' ->
  read_pages objects cp chain n sequence cursor byID = Ok r -> read_pages objects' cp' chain' n sequence cursor byID = Ok r.
Proof.
  intros Ho Hs Hc1 Hc2 Hc3. revert sequence cursor byID. induction n as [|n IH]; intros sequence cursor byID Hcp H;
    cbn [read_pages] in *; [done|].
  destruct (readHistoryManifest cp sequence chain) as [m|] eqn:Hm; [|done].
  assert (readHistoryManifest cp' sequence chain' = Ok m) as ->.
  { destruct (readHistoryManifest_Ok _ _ _ _ Hm) as [Hf _]. rewrite <- Hm. unfold readHistoryManifest.
    by rewrite Hf, (Hs _ _ Hf), Hc1, Hc2, Hc3. }
  destruct (_ || _) eqn:Hck; [done|].
  assert (negb (hm_Sequence m =? sequence) || negb (String.eqb (hm_PreviousSegmentDigest m) (cu_Digest cursor))
     || negb (hm_AfterCreatedAtUnix m =? cu_Created cursor) || negb (String.eqb (hm_AfterEventID m) (cu_EventID cursor))
     || (sequence =? hc_Sequence cp') && negb (String.eqb (hm_SegmentDigest m) (hc_LastSegmentDigest cp')) = false) as ->.
  { destruct Hcp as [->|Hcp]; [done|]. apply orb_false_elim in Hck as [-> _]. cbn [orb].
    replace (sequence =? hc_Sequence cp') with false by lia. done. }
  destruct (read_objects objects _ _ _ _ _ byID) as [[[c i] b]|] eqn:E; [|done].
  rewrite Hc1, (read_objects_grow objects objects' _ _ _ _ _ _ _ Ho E). apply IH; [|done]. destruct Hcp; [by left|right; lia].
Qed.

Lemma read_pages_S objects cp chain n sequence cursor byID :
  read_pages objects cp chain (S n) sequence cursor byID =
    let* m := readHistoryManifest cp sequence chain in
      refuse negb (hm_Sequence m =? sequence) || negb (String.eqb (hm_PreviousSegmentDigest m) (cu_Digest cursor))
             || negb (hm_AfterCreatedAtUnix m =? cu_Created cursor) || negb (String.eqb (hm_AfterEventID m) (cu_EventID cursor))
             || (sequence =? hc_Sequence cp) && negb (String.eqb (hm_SegmentDigest m) (hc_LastSegmentDigest cp))
        with NewError "history manifest chain is inconsistent";
      let* (created, eventID, byID) :=
        read_objects objects (hc_ConversationID cp) (hm_EventIDs m) (hm_EventDigests m) (cu_Created cursor)
          (cu_EventID cursor) byID in
      read_pages objects cp chain n (sequence + 1) (MkCursor (hm_SegmentDigest m) created eventID) byID.
Proof. reflexivity. Qed.

(** Walking [n] pages and then one. *)
Lemma read_pages_snoc objects cp chain n sequence cursor byID :
  read_pages objects cp chain (S n) sequence cursor byID =
  let* (cursor, byID) := read_pages objects cp chain n sequence cursor byID in
  read_pages objects cp chain 1 (sequence + Z.of_nat n) cursor byID.
Proof.
  revert sequence cursor byID. induction n as [|n IH]; intros sequence cursor byID.
  { cbn [Z.of_nat]. rewrite Z.add_0_r. reflexivity. }
  rewrite (read_pages_S _ _ _ (S n)), (read_pages_S _ _ _ n). destruct (readHistoryManifest cp sequence chain) as [m|]; [|done].
  destruct (_ || _); [done|]. destruct (read_objects _ _ _ _ _ _ byID) as [[[c i] b]|]; [|done].
  rewrite IH. by replace (sequence + 1 + Z.of_nat n) with (sequence + Z.of_nat (S n)) by lia.
Qed.

Lemma page_ids_snoc chain n sequence :
  page_ids chain (S n) sequence = page_ids chain n sequence ++ page_ids chain 1 (sequence + Z.of_nat n).
Proof.
  revert sequence. induction n as [|n IH]; intros sequence.
  { cbn [page_ids]. by rewrite Z.add_0_r, app_nil_r. }
  change (page_ids chain (S (S n)) sequence) with (match ch_segments chain !! sequence with
    Some (ERec m) => hm_EventIDs m | _ => [] end ++ page_ids chain (S n) (sequence + 1)).
  rewrite IH. cbn [page_ids]. rewrite app_assoc. by replace (sequence + 1 + Z.of_nat n) with (sequence + Z.of_nat (S n)) by lia.
Qed.

Lemma page_ids_grow objects cp chain chain' n sequence cursor byID r :
  files_grow (ch_segments chain) (ch_segments chain') ->
  read_pages objects cp chain n sequence cursor byID = Ok r -> page_ids chain' n sequence = page_ids chain n sequence.
Proof.
  intros Hs. revert sequence cursor byID. induction n as [|n IH]; intros sequence cursor byID H; cbn [read_pages page_ids] in *; [done|].
  destruct (readHistoryManifest cp sequence chain) as [m|] eqn:Hm; [|done]. destruct (readHistoryManifest_Ok _ _ _ _ Hm) as [Hf _].
  rewrite Hf, (Hs _ _ Hf). destruct (_ || _); [done|]. destruct (read_objects _ _ _ _ _ _ _) as [[[c i] b]|]; [|done].
  by rewrite (IH _ _ _ H).
Qed.

#[local] Instance event_le_total : Total event_le.
Proof.
  intros e f. unfold event_le. destruct (Z.lt_trichotomy (ev_CreatedAtUnix e) (ev_CreatedAtUnix f)) as [?|[E|?]]; [by left; left| |by right; left].
  rewrite E. destruct (total str_le (ev_EventID e) (ev_EventID f)); auto.
Qed.

(** ** A sound store *)

Definition start : Cursor := MkCursor "" 0 "".

Definition chain_ids (c : Chain) : list string :=
  match ch_checkpoint c with Some (ERec cp) => page_ids c (Z.to_nat (hc_Sequence cp)) 1 | _ => [] end.

(** A chain without a checkpoint, or one whose checkpoint's pages can all be read and end where it says. *)
Definition chain_sound (objects : directory bytes) (conversation name : string) (c : Chain) : Prop :=
  match ch_checkpoint c with
  | None => True
  | Some (ERec cp) =>
      check_checkpoint cp = true /\ conversation_dir (hc_ConversationID cp) = conversation /\
      chain_dir (hc_SourceDeviceID cp) (hc_TargetDeviceID cp) = name /\
      1 <= hc_Sequence cp <= MaxHistorySegmentsPerChain /\
      exists b, read_pages objects cp c (Z.to_nat (hc_Sequence cp)) 1 start ∅ =
        Ok (MkCursor (hc_LastSegmentDigest cp) (hc_LastEventCreatedAt cp) (hc_LastEventID cp), b)
  | Some _ => False
  end.

Definition store_sound (h : HistoryStore) : Prop :=
  forall conversation name e, lookup_chain conversation name h = Some e ->
    exists c, e = ERec c /\ chain_sound (hi_objects h) conversation name c.

Lemma chain_sound_grow objects objects' conversation name c :
  files_grow objects objects' -> chain_sound objects conversation name c -> chain_sound objects' conversation name c.
Proof.
  intros Hg. unfold chain_sound. destruct (ch_checkpoint c) as [[| | |cp]|]; try done. intros (H1 & H2 & H3 & H4 & b & Hb).
  split_and!; try done; try lia. exists b. apply (read_pages_grow objects objects' cp cp c c); try done. by left.
Qed.

Lemma conversation_dir_inj a b :
  ids_Conversation a = true -> ids_Conversation b = true -> conversation_dir a = conversation_dir b -> a = b.
Proof.
  unfold ids_Conversation, prefixed_hex64, conversation_dir. intros Ha Hb H.
  destruct (strip_prefix "conv_" a) as [x|] eqn:Ea; [|done]. destruct (strip_prefix "conv_" b) as [y|] eqn:Eb; [|done].
  apply strip_prefix_Some in Ea as ->, Eb as ->. by rewrite !(sdrop_app "conv_") in H; subst.
Qed.

Lemma check_checkpoint_conversation cp : check_checkpoint cp = true -> ids_Conversation (hc_ConversationID cp) = true.
Proof. unfold check_checkpoint. intros H. by breflect. Qed.

Lemma read_chain_sound objects conversationID name c byID :
  chain_sound objects (conversation_dir conversationID) name c -> ids_Conversation conversationID = true ->
  ch_checkpoint c <> None ->
  (exists b', read_chain objects conversationID (ERec c) byID = Ok b' /\
    forall k, b' !! k = if bool_decide (k ∈ chain_ids c) then object_event objects k else byID !! k) /\
  forall k, k ∈ chain_ids c -> is_Some (object_event objects k).
Proof.
  unfold chain_sound, read_chain, decodeHistoryCheckpointFile, chain_ids. intros Hs Hc Hn.
  destruct (ch_checkpoint c) as [[| | |cp]|]; try done. destruct Hs as (H1 & H2 & H3 & H4 & b & Hb). rewrite H1.
  assert (hc_ConversationID cp = conversationID) as Hconv
    by (apply conversation_dir_inj; [by apply check_checkpoint_conversation|done|done]).
  rewrite Hconv, String.eqb_refl. cbn [negb]. destruct (read_pages_lookup _ _ _ _ _ _ _ _ _ Hb) as (_ & L2 & L3).
  destruct (L3 byID) as [b2 Hb2]. fold start. rewrite Hb2. cbn [cu_Created cu_EventID]. rewrite Z.eqb_refl, String.eqb_refl.
  cbn [negb orb]. destruct (read_pages_lookup _ _ _ _ _ _ _ _ _ Hb2) as (L1 & _ & _). split; [by exists b2|].
  intros k (e & He & _)%L2. by exists e.
Qed.

(** The identifiers the chains of a conversation have committed. *)
Definition entry_ids (chains : directory Chain) (name : string) : list string :=
  match chains !! name with Some (ERec c) => chain_ids c | _ => [] end.
Definition all_ids (chains : directory Chain) (names : list string) : list string := List.concat (List.map (entry_ids chains) names).

Lemma elem_of_all_ids chains names k :
  k ∈ all_ids chains names <-> exists name c, name ∈ names /\ chains !! name = Some (ERec c) /\ k ∈ chain_ids c.
Proof.
  unfold all_ids. induction names as [|n names IH]; cbn [List.map List.concat].
  - split; [by intros ?%elem_of_nil|]. by intros (name & c & ?%elem_of_nil & _).
  - rewrite elem_of_app, IH. unfold entry_ids. split.
    + intros [Hk|(name & c & Hn & Hc & Hk)]; [|exists name, c; set_solver].
      destruct (chains !! n) as [[| | |c]|] eqn:Hn; try (by apply elem_of_nil in Hk). exists n, c. set_solver.
    + intros (name & c & [->|Hn]%elem_of_cons & Hc & Hk); [left; by rewrite Hc|right]. by exists name, c.
Qed.

Lemma read_chains_sound objects conversationID chains names byID :
  ids_Conversation conversationID = true ->
  (forall name, name ∈ names -> exists c, chains !! name = Some (ERec c) /\
     chain_sound objects (conversation_dir conversationID) name c /\ ch_checkpoint c <> None) ->
  exists b', read_chains objects conversationID chains names byID = Ok b' /\
    forall k, b' !! k = if bool_decide (k ∈ all_ids chains names) then object_event objects k else byID !! k.
Proof.
  intros Hc. revert byID. induction names as [|name names IH]; intros byID Hall; cbn [read_chains].
  { exists byID. split; [done|]. intros k. by rewrite bool_decide_false by apply not_elem_of_nil. }
  destruct (Hall name) as (c & Hcn & Hs & Hn); [set_solver|]. rewrite Hcn.
  change (default EForeign (Some (ERec c))) with (ERec c).
  destruct (read_chain_sound objects conversationID name c byID Hs Hc Hn) as [(b1 & Hb1 & L1) _]. rewrite Hb1.
  destruct (IH b1) as (b' & Hb' & L2); [set_solver|]. exists b'. split; [done|]. intros k. rewrite L2, L1.
  assert (all_ids chains (name :: names) = chain_ids c ++ all_ids chains names) as ->
    by (unfold all_ids; cbn [List.map List.concat]; unfold entry_ids at 1; by rewrite Hcn).
  repeat case_bool_decide; set_solver.
Qed.

(** The listing fails on a chain that has no checkpoint. *)
Lemma read_chains_unfinished objects conversationID chains names byID name c :
  name ∈ names -> chains !! name = Some (ERec c) -> ch_checkpoint c = None ->
  exists e, read_chains objects conversationID chains names byID = Err e.
Proof.
  intros Hn Hc Hcp. revert byID. induction Hn as [name' names|name' other names Hn IH]; intros byID; cbn [read_chains].
  - rewrite Hc. cbn. unfold decodeHistoryCheckpointFile. rewrite Hcp. by eauto.
  - destruct (read_chain _ _ _ byID); [by apply IH|by eauto].
Qed.

(** Every chain of the conversation has a checkpoint. *)
Definition finished (conversationID : string) (h : HistoryStore) : Prop :=
  forall name c, lookup_chain (conversation_dir conversationID) name h = Some (ERec c) -> ch_checkpoint c <> None.

(** The events a conversation has committed. *)
Definition has_committed (conversationID : string) (h : HistoryStore) (e : Event) : Prop :=
  exists name c id, lookup_chain (conversation_dir conversationID) name h = Some (ERec c) /\ id ∈ chain_ids c /\
    object_event (hi_objects h) id = Some e.

Lemma History_lists h conversationID :
  store_sound h -> hi_held h = true -> ids_Conversation conversationID = true -> finished conversationID h ->
  exists l, History conversationID 0 h = Ok l /\ Sorted event_le l /\ forall e, e ∈ l <-> has_committed conversationID h e.
Proof.
  intros Hs Hh Hc Hf. unfold History. rewrite Hh, Hc. cbn [negb orb]. change (0 <? 0) with false.
  change (MaxHistorySegmentsPerChain * MaxHistoryEventsPerSegment <? 0) with false. cbn [orb].
  unfold has_committed, lookup_chain in *. destruct (hi_chains h !! conversation_dir conversationID) as [chains|] eqn:Hd.
  2:{ exists []. split_and!; [done|constructor|]. intros e. split; [by intros ?%elem_of_nil|]. cbn. by intros (? & ? & ? & ? & _). }
  cbn [mbind option_bind] in *.
  destruct (read_chains_sound (hi_objects h) conversationID chains (dir_names chains) ∅ Hc) as (b & Hb & L).
  { intros name [x Hx]%elem_of_dir_names. destruct (Hs (conversation_dir conversationID) name x) as (c & -> & Hcs).
    { unfold lookup_chain. by rewrite Hd. } exists c. split_and!; [done..|]. apply (Hf name c). unfold finished, lookup_chain. by rewrite Hd. }
  rewrite Hb. cbn [andb]. eexists. split; [reflexivity|]. split; [apply Sorted_merge_sort, _|]. intros e.
  rewrite merge_sort_Permutation, list_elem_of_fmap. split.
  - intros ([k x] & -> & Hk%elem_of_map_to_list). cbn. rewrite L in Hk. case_bool_decide as Hin; [|by rewrite lookup_empty in Hk].
    apply elem_of_all_ids in Hin as (name & c & Hn & Hcn & Hk'). by exists name, c, k.
  - intros (name & c & id & Hcn & Hid & He). exists (id, e). split; [done|]. apply elem_of_map_to_list. rewrite L, bool_decide_true; [done|].
    apply elem_of_all_ids. exists name, c. split_and!; [|done..]. apply elem_of_dir_names. by eexists.
Qed.

Lemma History_finished h conversationID limit l :
  store_sound h -> History conversationID limit h = Ok l -> finished conversationID h.
Proof.
  intros Hs H name c Hl Hn. unfold History in H. inv_ok_step H. inv_ok_step H. unfold lookup_chain in Hl.
  destruct (hi_chains h !! conversation_dir conversationID) as [chains|]; [|done]. cbn in Hl.
  destruct (read_chains_unfinished (hi_objects h) conversationID chains (dir_names chains) ∅ name c) as [e He]; [|done..|].
  { apply elem_of_dir_names. by eexists. }
  by rewrite He in H.
Qed.

(** ** Applying a page *)

(** What the checks of [ApplyHistorySegment] leave of a page. *)
Record page_ok (s : segment) (digest : string) (events : list (Event * bytes)) : Prop := {
  po_events : Forall (fun x => DecodeEventJSON (snd x) = Ok (fst x) /\ ev_ConversationID (fst x) = sg_Conversation s /\
      ids_Event (ev_EventID (fst x)) = true /\ ev_CreatedAtUnix (fst x) <> 0 /\ ValidDigest (canon_Digest (snd x)) = true) events;
  po_count : 1 <= Z.of_nat (length events) <= MaxHistoryEventsPerSegment;
  po_digest : ValidDigest digest = true;
  po_ids : ids_Conversation (sg_Conversation s) = true /\ ids_Device (sg_Source s) = true /\ ids_Device (sg_Target s) = true;
  po_sequence : sg_Sequence s <> 0;
  po_first : sg_Sequence s = 1 -> sg_AfterCreated s = 0 /\ sg_AfterEvent s = "";
}.

Lemma put_objects_grow cs events h r h' :
  put_objects cs events h = (r, h') ->
  hi_chains h' = hi_chains h /\ hi_held h' = hi_held h /\ files_grow (hi_objects h) (hi_objects h') /\
  (r = Ok tt -> Forall (fun x => hi_objects h' !! object_path (ev_EventID (fst x)) = Some (ERec (snd x))) events).
Proof.
  revert cs h. induction events as [|[e raw] events IH]; intros cs h; cbn [put_objects].
  { intros [= <- <-]. by split_and!. }
  destruct (put_immutable (cs O) _ raw (hi_objects h)) as [x objects] eqn:Hp. apply put_immutable_grow in Hp as [Hg Hok].
  destruct x as [[]|].
  - intros (H1 & H2 & H3 & H4)%IH. cbn in *. split_and!; try done; [by transitivity objects|].
    intros Hr. constructor; [|by apply H4]. cbn. by apply H3, Hok.
  - intros [= <- <-]. cbn. split_and!; done.
Qed.

(** Reading back the objects of a page. *)
Definition end_of (events : list (Event * bytes)) (created : Z) (id : string) : Z * string :=
  match last events with Some (e, _) => (ev_CreatedAtUnix e, ev_EventID e) | None => (created, id) end.

Lemma end_of_cons e raw events created id : end_of ((e, raw) :: events) created id = end_of events (ev_CreatedAtUnix e) (ev_EventID e).
Proof.
  unfold end_of. destruct events as [|[f raw'] events]; [done|]. rewrite last_cons_cons.
  destruct (last ((f, raw') :: events)) as [[]|] eqn:E; [done|]. by apply last_None in E.
Qed.

Lemma read_new_objects objects conv events created id byID :
  Forall (fun x => objects !! object_path (ev_EventID (fst x)) = Some (ERec (snd x))) events ->
  Forall (fun x => DecodeEventJSON (snd x) = Ok (fst x) /\ ev_ConversationID (fst x) = conv) events ->
  exists b, read_objects objects conv (List.map (fun x => ev_EventID (fst x)) events)
    (List.map (fun x => canon_Digest (snd x)) events) created id byID =
    Ok (fst (end_of events created id), snd (end_of events created id), b).
Proof.
  revert created id byID. induction events as [|[e raw] events IH]; intros created id byID Ho Hd; cbn [List.map read_objects].
  { by exists byID. }
  inversion_clear Ho as [|? ? Ho1 Ho2]. inversion_clear Hd as [|? ? [Hd1 Hd1'] Hd2]. cbn [fst snd] in *.
  rewrite Ho1, String.eqb_refl, Hd1, Hd1', !String.eqb_refl. cbn [negb orb]. rewrite end_of_cons. by apply IH.
Qed.

Lemma lookup_put_chain conversation name c h conversation' name' :
  lookup_chain conversation' name' (put_chain conversation name c h) =
  if bool_decide (conversation' = conversation /\ name' = name) then Some (ERec c) else lookup_chain conversation' name' h.
Proof.
  unfold lookup_chain, put_chain. cbn [hi_chains with_chains]. destruct (decide (conversation' = conversation)) as [->|Hc].
  - rewrite lookup_insert_eq. cbn [mbind option_bind]. destruct (decide (name' = name)) as [->|Hn].
    + rewrite lookup_insert_eq, bool_decide_true by done. done.
    + rewrite lookup_insert_ne, bool_decide_false by naive_solver. by destruct (hi_chains h !! conversation).
  - by rewrite lookup_insert_ne, bool_decide_false by naive_solver.
Qed.

Lemma lookup_make_chain conversation name h conversation' name' :
  lookup_chain conversation' name' (with_chains h (make_chain conversation name (hi_chains h))) =
  if bool_decide (conversation' = conversation /\ name' = name)
  then Some (default (ERec empty_chain) (lookup_chain conversation name h)) else lookup_chain conversation' name' h.
Proof.
  unfold lookup_chain, make_chain. cbn [hi_chains with_chains]. destruct (decide (conversation' = conversation)) as [->|Hc].
  - rewrite lookup_insert_eq. cbn [mbind option_bind]. destruct (decide (name' = name)) as [->|Hn].
    + rewrite bool_decide_true by done. destruct (hi_chains h !! conversation) as [d|]; cbn.
      * destruct (d !! name) eqn:E; [by rewrite E|by rewrite lookup_insert_eq].
      * by rewrite lookup_empty, lookup_insert_eq.
    + rewrite bool_decide_false by naive_solver. destruct (hi_chains h !! conversation) as [d|]; cbn.
      * destruct (d !! name); [done|by rewrite lookup_insert_ne].
      * by rewrite lookup_empty, lookup_insert_ne.
  - by rewrite lookup_insert_ne, bool_decide_false by naive_solver.
Qed.

(** How one call may change a chain: it adds pages, and its checkpoint stays or moves to the new page. *)
Definition chain_moved (s : segment) (digest : string) (events : list (Event * bytes)) (now : time)
    (objects' : directory bytes) (c c' : Chain) : Prop :=
  files_grow (ch_segments c) (ch_segments c') /\
  (ch_checkpoint c' = ch_checkpoint c \/
   ch_checkpoint c' = Some (ERec (checkpoint_of s digest events now)) /\
   (exists cp, readHistoryCheckpoint s c = Ok cp /\ follows_chain s digest cp = Ok (Some tt)) /\
   sg_Sequence s <= MaxHistorySegmentsPerChain /\
   ch_segments c' !! sg_Sequence s = Some (ERec (manifest_of s digest events now)) /\
   Forall (fun x => objects' !! object_path (ev_EventID (fst x)) = Some (ERec (snd x))) events).

(** One call: objects are only added, and at most the chain of the page changes. *)
Definition store_moved (s : segment) (digest : string) (events : list (Event * bytes)) (now : time) (h h' : HistoryStore) : Prop :=
  hi_held h' = hi_held h /\ files_grow (hi_objects h) (hi_objects h') /\
  forall conversation name, lookup_chain conversation name h' = lookup_chain conversation name h \/
    conversation = conversation_dir (sg_Conversation s) /\ name = chain_dir (sg_Source s) (sg_Target s) /\
    (lookup_chain conversation name h = None \/ exists c, lookup_chain conversation name h = Some (ERec c)) /\
    exists c', lookup_chain conversation name h' = Some (ERec c') /\
      chain_moved s digest events now (hi_objects h')
        (match lookup_chain conversation name h with Some (ERec c) => c | _ => empty_chain end) c'.

Lemma chain_moved_same s digest events now objects c : chain_moved s digest events now objects c c.
Proof. split; [done|by left]. Qed.

(** Making the directory moves nothing. *)
Lemma make_chain_moved s digest events now h :
  store_moved s digest events now h (with_chains h (make_chain (conversation_dir (sg_Conversation s))
    (chain_dir (sg_Source s) (sg_Target s)) (hi_chains h))).
Proof.
  split_and!; [done..|]. intros conversation name. rewrite lookup_make_chain. case_bool_decide as Hb; [|by left].
  destruct Hb as [-> ->]. destruct (lookup_chain _ _ h) as [e|] eqn:E; [by left|right]. split_and!; try done; [by left|].
  exists empty_chain. split; [done|apply chain_moved_same].
Qed.

Lemma ensureHistoryChain_moved m s digest events now h r h' :
  ensureHistoryChain m s h = (r, h') ->
  store_moved s digest events now h h' /\
  (forall c, r = Ok c -> hi_objects h' = hi_objects h /\
     lookup_chain (conversation_dir (sg_Conversation s)) (chain_dir (sg_Source s) (sg_Target s)) h' = Some (ERec c) /\
     (forall cv nm, (cv, nm) <> (conversation_dir (sg_Conversation s), chain_dir (sg_Source s) (sg_Target s)) ->
        lookup_chain cv nm h' = lookup_chain cv nm h) /\
     (lookup_chain (conversation_dir (sg_Conversation s)) (chain_dir (sg_Source s) (sg_Target s)) h = Some (ERec c) \/
      lookup_chain (conversation_dir (sg_Conversation s)) (chain_dir (sg_Source s) (sg_Target s)) h = None /\ c = empty_chain)).
Proof.
  pose proof (make_chain_moved s digest events now h) as Hm. unfold ensureHistoryChain. cbv zeta. destruct m as [|mc mn].
  - set (h1 := with_chains h _) in *. destruct (lookup_chain _ _ h1) as [[| | |c]|] eqn:E; intros [= <- <-]; (split; [done|]); try done.
    intros c' [= <-]. split_and!; [done|done| |].
    + intros cv nm Hne. unfold h1. rewrite lookup_make_chain, bool_decide_false; [done|]. intros [-> ->]. done.
    + unfold h1 in E. rewrite lookup_make_chain, bool_decide_true in E by done.
      destruct (lookup_chain _ _ h) as [e|]; cbn in E; simplify_eq; auto.
  - intros [= <- <-]. split; [|done]. destruct mn; [done|]. destruct mc; [|].
    + split_and!; [done..|]. intros cv nm. left. unfold lookup_chain. cbn [hi_chains with_chains].
      destruct (decide (cv = conversation_dir (sg_Conversation s))) as [->|Hc]; [|by rewrite lookup_insert_ne].
      rewrite lookup_insert_eq. by destruct (hi_chains h !! _); cbn.
    + split_and!; [done..|]. by left.
Qed.

Lemma apply_page_moved o s digest events now h r h' :
  apply_page o s digest events now h = (r, h') -> store_moved s digest events now h h' /\
  (r = Ok true -> exists c', lookup_chain (conversation_dir (sg_Conversation s)) (chain_dir (sg_Source s) (sg_Target s)) h' = Some (ERec c') /\
     ch_checkpoint c' = Some (ERec (checkpoint_of s digest events now)) /\
     ch_segments c' !! sg_Sequence s = Some (ERec (manifest_of s digest events now)) /\
     exists cp, readHistoryCheckpoint s (match lookup_chain (conversation_dir (sg_Conversation s))
       (chain_dir (sg_Source s) (sg_Target s)) h with Some (ERec c) => c | _ => empty_chain end) = Ok cp /\
       follows_chain s digest cp = Ok (Some tt)).
Proof.
  unfold apply_page. cbv zeta. set (cv := conversation_dir (sg_Conversation s)). set (nm := chain_dir (sg_Source s) (sg_Target s)).
  destruct (ensureHistoryChain (ao_mkdir o) s h) as [[c|e] h1] eqn:He;
    destruct (ensureHistoryChain_moved _ _ digest events now _ _ _ He) as [Hm Hc]; [|by intros [= <- <-]].
  destruct (Hc c eq_refl) as (Ho & Hl & Hothers & Horigin). clear Hc. fold cv nm in Hl, Hothers, Horigin.
  assert (match lookup_chain cv nm h with Some (ERec c) => c | _ => empty_chain end = c) as Hwas
    by (by destruct Horigin as [->|[-> ->]]).
  destruct (readHistoryCheckpoint s c) as [cp|] eqn:Hcp; [|by intros [= <- <-]].
  destruct (follows_chain s digest cp) as [[[]|]|] eqn:Hf; [|by intros [= <- <-]..].
  destruct (MaxHistorySegmentsPerChain <? sg_Sequence s) eqn:Hmax; [by intros [= <- <-]|].
  destruct (put_objects (ao_objects o) events h1) as [x h2] eqn:Hp. apply put_objects_grow in Hp as (P1 & P2 & P3 & P4).
  destruct Hm as (M1 & M2 & M3).
  assert (forall a b, lookup_chain a b h2 = lookup_chain a b h1) as Hl2 by (intros; unfold lookup_chain; by rewrite P1).
  destruct x as [[]|].
  2:{ intros [= <- <-]. split; [|done]. split; [congruence|]. split; [by rewrite <- Ho|]. intros a b. rewrite Hl2.
      destruct (M3 a b) as [?|(-> & -> & Hor & c' & Hc' & Hmv)]; [by left|right]. split_and!; try done. exists c'. split; [done|].
      fold cv nm in Hc' |- *. assert (c' = c) as -> by congruence. fold cv nm in Hwas. rewrite Hwas. apply chain_moved_same. }
  destruct (put_immutable (ao_manifest o) (sg_Sequence s) (manifest_of s digest events now) (ch_segments c)) as [y segs] eqn:Hi.
  apply put_immutable_grow in Hi as [Hg Hok].
  assert (forall c', chain_moved s digest events now (hi_objects h2) c c' -> store_moved s digest events now h (put_chain cv nm c' h2)) as Hput.
  { intros c' Hmv. split; [cbn; congruence|]. split; [cbn; by rewrite <- Ho|]. intros a b. rewrite lookup_put_chain, Hl2.
    case_bool_decide as Hb.
    - destruct Hb as [-> ->]. right. split_and!; try done; [by destruct Horigin as [?|[? _]]; eauto|].
      exists c'. split; [done|]. rewrite Hwas. exact Hmv.
    - left. apply Hothers. intros [= -> ->]. by apply Hb. }
  assert (chain_moved s digest events now (hi_objects h2) c (MkChain (ch_checkpoint c) segs)) as Hkept by (split; [done|by left]).
  destruct y as [[]|]; [|intros [= <- <-]; split; [by apply Hput|done]].
  assert (chain_moved s digest events now (hi_objects h2) c
    (MkChain (Some (ERec (checkpoint_of s digest events now))) segs)) as Hnew.
  { split; [done|]. right. split_and!; [done|by exists cp|lia|by apply Hok|by apply P4]. }
  assert (exists c', lookup_chain cv nm (put_chain cv nm (MkChain (Some (ERec (checkpoint_of s digest events now))) segs) h2) = Some (ERec c') /\
     ch_checkpoint c' = Some (ERec (checkpoint_of s digest events now)) /\
     ch_segments c' !! sg_Sequence s = Some (ERec (manifest_of s digest events now)) /\
     exists cp, readHistoryCheckpoint s (match lookup_chain cv nm h with Some (ERec c) => c | _ => empty_chain end) = Ok cp /\
       follows_chain s digest cp = Ok (Some tt)) as Hdone.
  { eexists. rewrite lookup_put_chain, bool_decide_true by done. split_and!; [done|done|by apply Hok|]. rewrite Hwas. by exists cp. }
  destruct (ch_checkpoint c) as [[| | |x]|]; destruct (ao_checkpoint o); intros [= <- <-]; (split; [by apply Hput|done]).
Qed.

(** A page that follows a sound chain starts where the chain's pages end. *)
Lemma walk_before objects objects' cv nm s digest events c c' cp cp' :
  chain_sound objects cv nm c -> files_grow objects objects' -> files_grow (ch_segments c) (ch_segments c') ->
  page_ok s digest events -> readHistoryCheckpoint s c = Ok cp -> follows_chain s digest cp = Ok (Some tt) ->
  hc_ConversationID cp' = sg_Conversation s -> hc_SourceDeviceID cp' = sg_Source s -> hc_TargetDeviceID cp' = sg_Target s ->
  hc_Sequence cp' = sg_Sequence s ->
  exists n b, sg_Sequence s = Z.of_nat n + 1 /\
    read_pages objects' cp' c' n 1 start ∅ = Ok (MkCursor (sg_Previous s) (sg_AfterCreated s) (sg_AfterEvent s), b) /\
    page_ids c' n 1 = chain_ids c.
Proof.
  intros Hs Ho Hg P Hr Hf C1 C2 C3 C4. unfold readHistoryCheckpoint, decodeHistoryCheckpointFile in Hr. unfold chain_sound in Hs.
  unfold chain_ids. destruct (ch_checkpoint c) as [[| | |cp0]|] eqn:Hc; try done.
  - destruct Hs as (S1 & _ & _ & S4 & b & Hb). rewrite S1 in Hr. inv_ok Hr. apply Ok_inj in Hr as <-. breflect.
    unfold follows_chain in Hf. destruct (_ && _); [done|]. inv_ok Hf. breflect. unfold MaxHistorySegmentsPerChain in S4.
    assert (u64 (hc_Sequence cp0 + 1) = hc_Sequence cp0 + 1) as Hu by (apply Z.mod_small; lia).
    assert (sg_Sequence s = hc_Sequence cp0 + 1) as Hseq by lia.
    exists (Z.to_nat (hc_Sequence cp0)), b. split; [lia|]. split; [|by eapply page_ids_grow].
    replace (sg_Previous s) with (hc_LastSegmentDigest cp0) by done.
    replace (sg_AfterCreated s) with (hc_LastEventCreatedAt cp0) by lia.
    replace (sg_AfterEvent s) with (hc_LastEventID cp0) by done.
    apply (read_pages_grow objects objects' cp0 cp' c c'); try done; [congruence..|right; lia].
  - assert (cp = None) as ->.
    { rewrite bool_decide_true in Hr by done. by apply Ok_inj in Hr. }
    unfold follows_chain in Hf. inv_ok Hf. breflect. destruct (po_first _ _ _ P) as [F1 F2]; [lia|].
    exists O, ∅. split; [lia|]. split; [|done]. cbn [read_pages]. unfold start. rewrite F1, F2. by f_equal; f_equal; f_equal.
Qed.

Lemma forallb_map {A B} (f : A -> B) (p : B -> bool) l : Forall (fun x => p (f x) = true) l -> forallb p (List.map f l) = true.
Proof. induction 1 as [|x l Hx _ IH]; [done|]. cbn. by rewrite Hx, IH. Qed.

Lemma checkpoint_of_fields s digest events now :
  let cp := checkpoint_of s digest events now in
  hc_ConversationID cp = sg_Conversation s /\ hc_SourceDeviceID cp = sg_Source s /\ hc_TargetDeviceID cp = sg_Target s /\
  hc_Sequence cp = sg_Sequence s /\ hc_LastSegmentDigest cp = digest /\
  (hc_LastEventCreatedAt cp, hc_LastEventID cp) = end_of events 0 "".
Proof. unfold checkpoint_of, end_of. by destruct (last events) as [[e raw]|]. Qed.

Lemma checkpoint_of_ok s digest events now :
  page_ok s digest events -> u64 now <> 0 -> check_checkpoint (checkpoint_of s digest events now) = true.
Proof.
  intros [P1 P2 P3 (P4 & P5 & P6) P7 _] Hn. unfold check_checkpoint, checkpoint_of.
  destruct (last events) as [[e raw]|] eqn:Hl.
  2:{ apply last_None in Hl. subst. cbn in P2. lia. }
  assert ((e, raw) ∈ events) as Hin by (by apply last_Some_elem_of).
  rewrite Forall_forall in P1. destruct (P1 _ Hin) as (_ & _ & E1 & E2 & _). cbn [fst] in *.
  cbn [hc_Schema hc_ConversationID hc_SourceDeviceID hc_TargetDeviceID hc_Sequence hc_LastSegmentDigest hc_LastEventCreatedAt
       hc_LastEventID hc_UpdatedAtUnix]. rewrite String.eqb_refl, P3, P4, P5, P6, E1, !(proj2 (Z.eqb_neq _ _)) by done. done.
Qed.

(** The manifest of a page can be read under a checkpoint of its chain. *)
Lemma manifest_of_ok s digest events now cp c :
  page_ok s digest events -> hc_ConversationID cp = sg_Conversation s -> hc_SourceDeviceID cp = sg_Source s ->
  hc_TargetDeviceID cp = sg_Target s -> ch_segments c !! sg_Sequence s = Some (ERec (manifest_of s digest events now)) ->
  readHistoryManifest cp (sg_Sequence s) c = Ok (manifest_of s digest events now).
Proof.
  intros [P1 P2 P3 _ P7 _] C1 C2 C3 Hc. unfold readHistoryManifest. rewrite Hc. unfold manifest_of.
  cbn [hm_Schema hm_ConversationID hm_SourceDeviceID hm_TargetDeviceID hm_Sequence hm_SegmentDigest hm_EventIDs hm_EventDigests].
  rewrite C1, C2, C3, !String.eqb_refl, P3, !length_map, Nat.eqb_refl, (proj2 (Z.eqb_neq _ _) P7).
  rewrite (proj2 (Nat.eqb_neq _ _)) by lia. rewrite (proj2 (Z.ltb_ge _ _)) by lia. cbn [negb orb].
  rewrite (forallb_map (fun e : Event * bytes => ev_EventID (fst e)) ids_Event),
    (forallb_map (fun e : Event * bytes => canon_Digest (snd e)) ValidDigest); [done|..];
    (eapply Forall_impl; [exact P1|]; cbn; tauto).
Qed.

(** A sound chain that took a page is sound, and has committed the page's events after what it had. *)
Lemma chain_moved_sound objects objects' s digest events now c c' :
  let cv := conversation_dir (sg_Conversation s) in let nm := chain_dir (sg_Source s) (sg_Target s) in
  chain_sound objects cv nm c -> files_grow objects objects' -> page_ok s digest events -> u64 now <> 0 ->
  chain_moved s digest events now objects' c c' ->
  chain_sound objects' cv nm c' /\
  (ch_checkpoint c' = ch_checkpoint c /\ chain_ids c' = chain_ids c \/
   chain_ids c' = chain_ids c ++ List.map (fun x => ev_EventID (fst x)) events).
Proof.
  intros cv nm Hs Ho P Hn [Hg [Hcp|(Hcp & (cp & Hr & Hf) & Hmax & Hm & Hobj)]].
  - assert (chain_sound objects' cv nm c') as Hs'.
    { unfold chain_sound in *. rewrite Hcp. destruct (ch_checkpoint c) as [[| | |cp]|]; try done.
      destruct Hs as (S1 & S2 & S3 & S4 & b & Hb). split_and!; try done; try lia. exists b.
      apply (read_pages_grow objects objects' cp cp c c'); try done. by left. }
    split; [done|]. left. split; [done|]. unfold chain_ids, chain_sound in *. rewrite Hcp.
    destruct (ch_checkpoint c) as [[| | |cp]|]; try done. destruct Hs as (_ & _ & _ & _ & b & Hb). by eapply page_ids_grow.
  - set (cp' := checkpoint_of s digest events now) in *.
    destruct (checkpoint_of_fields s digest events now) as (C1 & C2 & C3 & C4 & C5 & C6). fold cp' in C1, C2, C3, C4, C5, C6.
    destruct (walk_before objects objects' cv nm s digest events c c' cp cp' Hs Ho Hg P Hr Hf C1 C2 C3 C4) as (n & b & Hseq & Hw & Hids).
    destruct (read_new_objects objects' (sg_Conversation s) events (sg_AfterCreated s) (sg_AfterEvent s) b) as [b' Hb'].
    { exact Hobj. }
    { eapply Forall_impl; [exact (po_events _ _ _ P)|]. cbn. tauto. }
    assert (end_of events (sg_AfterCreated s) (sg_AfterEvent s) = end_of events 0 "") as Hend.
    { unfold end_of. destruct (last events) as [[]|] eqn:Hl; [done|]. apply last_None in Hl. pose proof (po_count _ _ _ P) as Hc.
      subst events. cbn in Hc. lia. }
    assert (read_pages objects' cp' c' (S n) 1 start ∅ =
      Ok (MkCursor (hc_LastSegmentDigest cp') (hc_LastEventCreatedAt cp') (hc_LastEventID cp'), b')) as Hall.
    { rewrite read_pages_snoc, Hw. replace (1 + Z.of_nat n) with (sg_Sequence s) by lia. rewrite read_pages_S.
      rewrite (manifest_of_ok s digest events now cp' c' P C1 C2 C3 Hm). unfold manifest_of at 1 2 3 4 5.
      cbn [hm_Sequence hm_PreviousSegmentDigest hm_AfterCreatedAtUnix hm_AfterEventID hm_SegmentDigest cu_Digest cu_Created cu_EventID].
      rewrite !Z.eqb_refl, !String.eqb_refl, C5, String.eqb_refl, andb_false_r. cbn [negb orb].
      unfold manifest_of at 1 2. cbn [hm_EventIDs hm_EventDigests]. rewrite C1, Hb'. cbn [read_pages]. unfold manifest_of. cbn [hm_SegmentDigest].
      rewrite Hend, <- C6. done. }
    assert (Z.to_nat (hc_Sequence cp') = S n) as Hcount by lia. split.
    + unfold chain_sound. rewrite Hcp. split_and!; [by apply checkpoint_of_ok|by rewrite C1|by rewrite C2, C3|lia|lia|].
      exists b'. by rewrite Hcount.
    + right. unfold chain_ids at 1. rewrite Hcp, Hcount, page_ids_snoc, Hids. f_equal. replace (1 + Z.of_nat n) with (sg_Sequence s) by lia.
      cbn [page_ids]. by rewrite Hm, app_nil_r.
Qed.

Lemma store_moved_sound s digest events now h h' :
  store_sound h -> page_ok s digest events -> u64 now <> 0 -> store_moved s digest events now h h' -> store_sound h'.
Proof.
  intros Hs P Hn (_ & Ho & Hm) cv nm e He. destruct (Hm cv nm) as [Hsame|(-> & -> & Hor & c' & Hc' & Hmv)].
  - rewrite Hsame in He. destruct (Hs _ _ _ He) as (c & -> & Hc). exists c. split; [done|]. by apply (chain_sound_grow (hi_objects h)).
  - exists c'. split; [congruence|]. eapply (chain_moved_sound (hi_objects h)); [|done..].
    destruct Hor as [->|[c Hc]]; [done|]. rewrite Hc. by destruct (Hs _ _ _ Hc) as (x & [= <-] & ?).
Qed.

(** ** Histories of a store *)

(** Values as Go's types and its JSON decoder give them, a clock past 1970, and no digest that is all zeros. *)
Definition event_typed (e : Event) (raw : bytes) : Prop :=
  Event_typed e /\ (exists n, ev_Network e = Some n /\ utf8_string (nd_NetworkId n)) /\ utf8_string (ev_Rendering e) /\
  ValidDigest (canon_Digest raw) = true.

Record page_typed (outer : Event) (s : segment) (now : time) : Prop := {
  pt_clock : 0 < now < 2 ^ 63;
  pt_content : ValidDigest (canon_Digest (ev_Content outer)) = true;
  pt_events : forall raw e canonical, raw ∈ sg_Events s -> DecodeEventJSON raw = Ok e -> EncodeEventJSON e = Ok canonical ->
    event_typed e canonical;
}.

Lemma ValidateEvent_created e u : ValidateEvent e = Ok u -> ev_CreatedAtUnix e <> 0.
Proof.
  unfold ValidateEvent, DeriveEventID. destruct (ids_Event _); [|done]. cbn [negb]. unfold EventCanonicalBytes.
  destruct (validateEventFields e) as [n|] eqn:Hv; [|done]. intros _. unfold validateEventFields in Hv.
  destruct (ev_Network e); [|done]. inv_ok Hv. breflect. lia.
Qed.

Lemma DecodeEventJSON_kind raw e : DecodeEventJSON raw = Ok e -> is_Some (ClassOf (ev_Kind e)).
Proof. unfold DecodeEventJSON. intros H. inv_ok H. apply Ok_inj in H as ->. by eexists. Qed.

Lemma typed_decodes e raw raw0 :
  EncodeEventJSON e = Ok raw -> event_typed e raw -> DecodeEventJSON raw0 = Ok e -> DecodeEventJSON raw = Ok e.
Proof.
  intros He (Ht & (n & Hn & Hu) & Hr & _) [c Hk]%DecodeEventJSON_kind. unfold DecodeEventJSON.
  by rewrite (event_decodes e n raw Ht Hn Hu Hr He), Hk.
Qed.

Lemma encoded_valid e raw : EncodeEventJSON e = Ok raw -> ids_Event (ev_EventID e) = true /\ ev_CreatedAtUnix e <> 0.
Proof.
  unfold EncodeEventJSON. intros H. destruct (ValidateEvent e) as [u|] eqn:Hv; [|done].
  split; [by destruct (ValidateEvent_inv _ _ Hv)|by eapply ValidateEvent_created].
Qed.

Lemma validate_events_inv outer s previous raws events :
  validate_events outer s previous raws = Ok events ->
  length events = length raws /\
  Forall (fun x => exists raw, raw ∈ raws /\ DecodeEventJSON raw = Ok (fst x) /\ EncodeEventJSON (fst x) = Ok (snd x) /\
    ev_ConversationID (fst x) = sg_Conversation s) events.
Proof.
  revert previous events. induction raws as [|raw raws IH]; intros previous events; cbn [validate_events].
  { intros H. apply Ok_inj in H as <-. by split. }
  destruct (DecodeEventJSON raw) as [e|] eqn:Hd; [|done]. intros H. inv_ok H. apply Ok_inj in H as <-.
  match goal with E : validate_events _ _ _ _ = Ok _ |- _ => apply IH in E as [Hl HF] end. breflect. split; [cbn; lia|].
  constructor; [exists raw; split_and!; try done; set_solver|].
  eapply Forall_impl; [exact HF|]. intros x (r & Hr & Hrest). exists r. split; [set_solver|done].
Qed.

Lemma segment_Validate_inv s u :
  DeviceHistorySegment_Validate s = Ok u ->
  ids_Device (sg_Source s) = true /\ ids_Device (sg_Target s) = true /\ ids_Conversation (sg_Conversation s) = true /\
  sg_Sequence s <> 0 /\ (sg_Sequence s = 1 -> sg_AfterCreated s = 0 /\ sg_AfterEvent s = "") /\
  1 <= Z.of_nat (length (sg_Events s)) <= MaxHistoryEventsPerSegment.
Proof.
  unfold DeviceHistorySegment_Validate. cbv zeta. intros H. inv_ok H. breflect. split_and!; try done; try lia.
  intros E. rewrite E in *. cbn in *. breflect. split; [lia|done].
Qed.

(** The checks of [ApplyHistorySegment], together with the types, give a page the store can take. *)
Lemma checked_page outer s agent endpoint device roster now events :
  validateHistoryEnvelope outer s agent endpoint device roster = Ok tt -> validateHistoryEvents outer s = Ok events ->
  page_typed outer s now -> page_ok s (canon_Digest (ev_Content outer)) events.
Proof.
  intros Hv He T. unfold validateHistoryEnvelope in Hv. inv_ok_step Hv. breflect.
  destruct (DeviceHistorySegment_Validate s) as [u|] eqn:Hs; [|done].
  destruct (segment_Validate_inv s u Hs) as (V1 & V2 & V3 & V4 & V5 & V6).
  apply validate_events_inv in He as [Hl HF]. constructor; try done; [|lia|by apply T].
  eapply Forall_impl; [exact HF|]. intros x (raw & Hin & Hd & Hc & Hcv).
  pose proof (pt_events _ _ _ T _ _ _ Hin Hd Hc) as Ht. destruct (encoded_valid _ _ Hc) as [E1 E2].
  split_and!; try done; [by apply (typed_decodes _ _ raw)|by apply Ht].
Qed.

Lemma clock_u64 now : 0 < now < 2 ^ 63 -> u64 now <> 0.
Proof. intros H. unfold u64. rewrite Z.mod_small; lia. Qed.

Lemma ApplyHistorySegment_cases o outer s agent endpoint device roster now h r h' :
  ApplyHistorySegment o outer s agent endpoint device roster now h = (r, h') ->
  (h' = h /\ is_ok r = false) \/
  exists events, validateHistoryEvents outer s = Ok events /\
    validateHistoryEnvelope outer s agent endpoint device roster = Ok tt /\ hi_held h = true /\
    apply_page o s (canon_Digest (ev_Content outer)) events now h = (r, h').
Proof.
  unfold ApplyHistorySegment. destruct (hi_held h) eqn:Hh; cbn [negb]; [|intros [= <- <-]; auto].
  destruct (time_invalid now); [intros [= <- <-]; auto|].
  destruct (validateHistoryEnvelope _ _ _ _ _ _) as [[]|] eqn:Hv; [|intros [= <- <-]; auto].
  destruct (validateHistoryEvents outer s) as [events|] eqn:He; [|intros [= <- <-]; auto]. intros H. right. by exists events.
Qed.

(** Nothing that was committed is lost by a later call. *)
Lemma moved_committed s digest events now h h' conversationID e :
  store_sound h -> page_ok s digest events -> u64 now <> 0 -> store_moved s digest events now h h' ->
  has_committed conversationID h e -> has_committed conversationID h' e.
Proof.
  intros Hs P Hn (_ & Ho & Hm) (name & c & id & Hc & Hid & He).
  destruct (Hm (conversation_dir conversationID) name) as [Hsame|(Hcv & Hnm & Hor & c' & Hc' & Hmv)].
  - exists name, c, id. rewrite Hsame. split_and!; try done. by apply (object_event_grow (hi_objects h)).
  - rewrite Hc in Hmv. exists name, c', id. split; [done|]. split; [|by apply (object_event_grow (hi_objects h))].
    destruct (Hs _ _ _ Hc) as (x & [= <-] & Hcs). rewrite Hcv, Hnm in Hcs.
    destruct (chain_moved_sound (hi_objects h) (hi_objects h') s digest events now c c' Hcs Ho P Hn Hmv) as [_ [[_ ->]| ->]]; [done|].
    by apply elem_of_app; left.
Qed.

Record history_op : Type := MkHistoryOp {
  ho_outcomes : apply_outcomes;
  ho_outer : Event;
  ho_segment : segment;
  ho_agent : string;
  ho_endpoint : string;
  ho_device : string;
  ho_roster : list string;
  ho_now : time;
}.

Definition run_history (h : HistoryStore) (op : history_op) : HistoryStore :=
  snd (ApplyHistorySegment (ho_outcomes op) (ho_outer op) (ho_segment op) (ho_agent op) (ho_endpoint op) (ho_device op)
         (ho_roster op) (ho_now op) h).
Definition run_histories (ops : list history_op) (h : HistoryStore) : HistoryStore := foldl run_history h ops.

Lemma run_history_sound h op :
  store_sound h -> page_typed (ho_outer op) (ho_segment op) (ho_now op) ->
  store_sound (run_history h op) /\ hi_held (run_history h op) = hi_held h /\
  forall conversationID e, has_committed conversationID h e -> has_committed conversationID (run_history h op) e.
Proof.
  intros Hs T. unfold run_history. destruct (ApplyHistorySegment _ _ _ _ _ _ _ _ h) as [r h'] eqn:E. cbn [snd].
  apply ApplyHistorySegment_cases in E as [[-> _]|(events & He & Hv & _ & Hp)]; [done|].
  pose proof (checked_page _ _ _ _ _ _ _ _ Hv He T) as P. pose proof (clock_u64 _ (pt_clock _ _ _ T)) as Hn.
  apply apply_page_moved in Hp as [Hm _]. split_and!; [by eapply store_moved_sound|by apply Hm|].
  intros cv e. by eapply moved_committed.
Qed.

(** C26: Committed history survives everything that happens to later pages.  After any sequence of calls, whatever pages they
    bring, whichever of their writes fail and wherever they are cut short: an event a conversation had committed is still
    committed, and in a conversation whose chains all have a checkpoint the listing succeeds, is in order and contains
    exactly the committed events.  Orphan objects and manifests are never listed. *)
Theorem committed_history_survives ops h conversationID :
  store_sound h -> hi_held h = true -> ids_Conversation conversationID = true ->
  Forall (fun op => page_typed (ho_outer op) (ho_segment op) (ho_now op)) ops ->
  let h' := run_histories ops h in
  (forall e, has_committed conversationID h e -> has_committed conversationID h' e) /\
  (finished conversationID h' -> exists l, History conversationID 0 h' = Ok l /\ Sorted event_le l /\
     forall e, e ∈ l <-> has_committed conversationID h' e).
Proof.
  intros Hs Hh Hc Hops. cbv zeta. revert h Hs Hh. induction Hops as [|op ops T _ IH]; intros h Hs Hh.
  { split; [done|]. intros Hf. by apply History_lists. }
  destruct (run_history_sound h op Hs T) as (S1 & S2 & S3). destruct (IH (run_history h op) S1 ltac:(congruence)) as [I1 I2].
  split; [|exact I2]. intros e He. by apply I1, S3.
Qed.

(** A checkpoint at a page does not let the page follow it. *)
Lemma page_not_again s digest events now c cp :
  page_ok s digest events -> u64 now <> 0 -> ch_checkpoint c = Some (ERec (checkpoint_of s digest events now)) ->
  readHistoryCheckpoint s c = Ok cp -> follows_chain s digest cp = Ok (Some tt) -> False.
Proof.
  intros P Hn Hc Hr Hf. unfold readHistoryCheckpoint, decodeHistoryCheckpointFile in Hr. rewrite Hc, checkpoint_of_ok in Hr by done.
  inv_ok Hr. apply Ok_inj in Hr as <-.
  destruct (checkpoint_of_fields s digest events now) as (_ & _ & _ & C4 & C5 & _).
  unfold follows_chain in Hf. by rewrite C4, C5, Z.eqb_refl, String.eqb_refl in Hf.
Qed.

(** The chain of a page that was applied: what it had, and the page. *)
Lemma page_gained o s digest events now h h' :
  let cv := conversation_dir (sg_Conversation s) in let nm := chain_dir (sg_Source s) (sg_Target s) in
  apply_page o s digest events now h = (Ok true, h') -> store_sound h -> page_ok s digest events -> u64 now <> 0 ->
  exists c', lookup_chain cv nm h' = Some (ERec c') /\ ch_checkpoint c' <> None /\
    chain_ids c' = chain_ids (match lookup_chain cv nm h with Some (ERec c) => c | _ => empty_chain end) ++
      List.map (fun x => ev_EventID (fst x)) events /\
    Forall (fun x => object_event (hi_objects h') (ev_EventID (fst x)) = Some (fst x)) events.
Proof.
  intros cv nm Hp Hs P Hn. destruct (apply_page_moved _ _ _ _ _ _ _ _ Hp) as [(_ & Ho & Hm) Hdone].
  destruct (Hdone eq_refl) as (c' & Hc' & Hcp' & Hseg & cp & Hr & Hf). fold cv nm in Hc', Hr. exists c'. split; [done|].
  split; [by rewrite Hcp'|]. set (was := match lookup_chain cv nm h with Some (ERec c) => c | _ => empty_chain end) in *.
  destruct (Hm cv nm) as [Hsame|(_ & _ & Hor & x & Hx & Hmv)].
  { exfalso. assert (was = c') as Hw by (unfold was; rewrite <- Hsame, Hc'; done). rewrite Hw in Hr. by eapply page_not_again. }
  assert (x = c') as -> by congruence. fold was in Hmv.
  assert (chain_sound (hi_objects h) cv nm was) as Hws.
  { unfold was. destruct Hor as [->|[c Hc]]; [done|]. rewrite Hc. by destruct (Hs _ _ _ Hc) as (y & [= <-] & ?). }
  destruct (chain_moved_sound (hi_objects h) (hi_objects h') s digest events now was c' Hws Ho P Hn Hmv) as [_ Hids].
  destruct Hmv as [Hg [Hsame|(_ & _ & _ & _ & Hobj)]].
  { exfalso. rewrite Hsame in Hcp'. by eapply page_not_again. }
  split; [destruct Hids as [[Hsame _]|Hids]; [|done]; exfalso; rewrite Hsame in Hcp'; by eapply page_not_again|].
  pose proof (po_events _ _ _ P) as HE. rewrite Forall_forall in Hobj, HE. apply Forall_forall. intros y Hy. unfold object_event.
  rewrite (Hobj y Hy). by destruct (HE y Hy) as (-> & _).
Qed.

(** C25: A page that is applied adds exactly its events: when the call answers that it applied the page, a conversation that
    could be listed before can be listed after, and the listing has gained the events of the page and nothing else. *)
Theorem history_gains_page o outer s agent endpoint device roster now h h' l :
  store_sound h -> page_typed outer s now ->
  ApplyHistorySegment o outer s agent endpoint device roster now h = (Ok true, h') ->
  History (sg_Conversation s) 0 h = Ok l ->
  exists events l', validateHistoryEvents outer s = Ok events /\ History (sg_Conversation s) 0 h' = Ok l' /\
    forall e, e ∈ l' <-> e ∈ l \/ e ∈ fst <$> events.
Proof.
  intros Hs T H HL. apply ApplyHistorySegment_cases in H as [[_ [=]]|(events & He & Hv & Hh & Hp)].
  pose proof (checked_page _ _ _ _ _ _ _ _ Hv He T) as P. pose proof (clock_u64 _ (pt_clock _ _ _ T)) as Hn.
  destruct (page_gained _ _ _ _ _ _ _ Hp Hs P Hn) as (c' & Hc' & Hcp' & Hids & Hobj).
  destruct (apply_page_moved _ _ _ _ _ _ _ _ Hp) as [Hm _]. pose proof (store_moved_sound _ _ _ _ _ _ Hs P Hn Hm) as Hs'.
  pose proof (fun e => moved_committed _ _ _ _ _ _ (sg_Conversation s) e Hs P Hn Hm) as Hkeep.
  destruct Hm as (Hh' & Ho & Hm). pose proof (History_finished _ _ _ _ Hs HL) as Hfin.
  destruct (po_ids _ _ _ P) as (Hconv & _ & _). rewrite Forall_forall in Hobj.
  assert (forall name c, lookup_chain (conversation_dir (sg_Conversation s)) name h' = Some (ERec c) ->
    lookup_chain (conversation_dir (sg_Conversation s)) name h = Some (ERec c) \/
    name = chain_dir (sg_Source s) (sg_Target s) /\ c = c') as Hwhich.
  { intros name c Hc. destruct (Hm (conversation_dir (sg_Conversation s)) name) as [<-|(_ & -> & _)]; [by left|right]. split; [done|congruence]. }
  assert (finished (sg_Conversation s) h') as Hfin'.
  { intros name c Hc. destruct (Hwhich name c Hc) as [?|[-> ->]]; [by apply (Hfin name)|done]. }
  destruct (History_lists h _ Hs Hh Hconv Hfin) as (l0 & HL0 & _ & Hin). rewrite HL in HL0. apply Ok_inj in HL0 as <-.
  destruct (History_lists h' _ Hs' ltac:(congruence) Hconv Hfin') as (l' & HL' & _ & Hin'). exists events, l'. split_and!; [done..|].
  intros e. rewrite Hin, Hin'. split.
  - intros (name & c & id & Hc & Hid & Hoe).
    assert (forall c0, lookup_chain (conversation_dir (sg_Conversation s)) name h = Some (ERec c0) -> id ∈ chain_ids c0 ->
      has_committed (sg_Conversation s) h e) as Hold.
    { intros c0 Hc0 Hid0. destruct (Hs _ _ _ Hc0) as (y & [= <-] & Hcs).
      destruct (read_chain_sound _ _ _ _ ∅ Hcs Hconv (Hfin _ _ Hc0)) as [_ Hall]. destruct (Hall id Hid0) as [e0 He0].
      exists name, c0, id. split_and!; try done. rewrite He0. apply (object_event_grow _ _ _ _ Ho) in He0. congruence. }
    destruct (Hwhich name c Hc) as [Hc0|[-> ->]]; [left; by apply (Hold c)|]. rewrite Hids in Hid.
    apply elem_of_app in Hid as [Hid|(x & -> & Hx)%list_elem_of_fmap].
    + left. destruct (lookup_chain _ _ h) as [[| | |c0]|]; try (by apply elem_of_nil in Hid). by apply (Hold c0).
    + right. apply list_elem_of_fmap. exists x. split; [|done]. rewrite (Hobj x Hx) in Hoe. congruence.
  - intros [He0|(x & -> & Hx)%list_elem_of_fmap]; [by apply Hkeep|].
    exists (chain_dir (sg_Source s) (sg_Target s)), c', (ev_EventID (fst x)). split_and!; [done| |by apply Hobj].
    rewrite Hids. apply elem_of_app. right. apply list_elem_of_fmap. by exists x.
Qed.

(** ** What a refused or interrupted page leaves behind *)

(** A page that is refused because it is not the first of its chain still makes the chain's directory, and the listing
    of the whole conversation fails from then on, until a first page of that chain is applied. *)
Theorem refused_page_hides_history o outer s agent endpoint device roster now h events limit :
  hi_held h = true -> time_invalid now = false ->
  validateHistoryEnvelope outer s agent endpoint device roster = Ok tt -> validateHistoryEvents outer s = Ok events ->
  ao_mkdir o = MOk -> sg_Sequence s <> 1 ->
  lookup_chain (conversation_dir (sg_Conversation s)) (chain_dir (sg_Source s) (sg_Target s)) h = None ->
  exists h', ApplyHistorySegment o outer s agent endpoint device roster now h = (Err ErrHistorySequence, h') /\
    exists e, History (sg_Conversation s) limit h' = Err e.
Proof.
  intros Hh Hn Hv He Hmk Hseq Hnone. set (cv := conversation_dir (sg_Conversation s)) in *.
  set (nm := chain_dir (sg_Source s) (sg_Target s)) in *.
  set (h1 := with_chains h (make_chain cv nm (hi_chains h))).
  assert (lookup_chain cv nm h1 = Some (ERec empty_chain)) as Hl.
  { unfold h1. by rewrite lookup_make_chain, bool_decide_true, Hnone by done. }
  exists h1. split.
  - unfold ApplyHistorySegment. rewrite Hh, Hn, Hv, He. cbn [negb]. unfold apply_page, ensureHistoryChain. cbv zeta. rewrite Hmk.
    fold cv nm h1. rewrite Hl. unfold readHistoryCheckpoint, decodeHistoryCheckpointFile. cbn [ch_checkpoint empty_chain].
    rewrite bool_decide_true by done. unfold follows_chain. by rewrite (proj2 (Z.eqb_neq _ _) Hseq).
  - unfold History. destruct (negb (hi_held h1)); [by eauto|]. destruct (_ || _); [by eauto|]. fold cv.
    unfold lookup_chain in Hl. destruct (hi_chains h1 !! cv) as [chains|]; [|done]. cbn in Hl.
    destruct (read_chains_unfinished (hi_objects h1) (sg_Conversation s) chains (dir_names chains) ∅ nm empty_chain) as [e ->];
      [|done|done|by eauto]. apply elem_of_dir_names. by eexists.
Qed.

Lemma put_immutable_conflict {K A} `{Countable K} `{EqDecision A} c (key : K) (a b : A) files :
  files !! key = Some (ERec b) -> b <> a ->
  put_immutable c key a files = (Err (NewError "history content address contains conflicting bytes"), files).
Proof. intros Hk Hne. unfold put_immutable. by rewrite Hk, bool_decide_false. Qed.

(** A page whose manifest reached the disk and whose checkpoint did not can only be applied in the same second: the
    manifest says when it was applied, and what is on file is never replaced.  Every later call for that page fails and
    leaves the checkpoint where it was, so the chain stops there for good. *)
Theorem interrupted_page_blocks_chain o s digest events now now' h c cp :
  let cv := conversation_dir (sg_Conversation s) in let nm := chain_dir (sg_Source s) (sg_Target s) in
  lookup_chain cv nm h = Some (ERec c) -> ch_checkpoint c = cp ->
  ch_segments c !! sg_Sequence s = Some (ERec (manifest_of s digest events now)) -> u64 now <> u64 now' ->
  (forall x, readHistoryCheckpoint s c = Ok x -> follows_chain s digest x <> Ok None) ->
  exists e h', apply_page o s digest events now' h = (Err e, h') /\
    exists c', lookup_chain cv nm h' = Some (ERec c') /\ ch_checkpoint c' = cp.
Proof.
  intros cv nm Hl Hcp Hm Hne Hnew. unfold apply_page. cbv zeta. fold cv nm.
  destruct (ensureHistoryChain (ao_mkdir o) s h) as [[c1|e] h1] eqn:He;
    destruct (ensureHistoryChain_moved _ _ digest events now' _ _ _ He) as [Hmv Hc].
  2:{ exists e, h1. split; [done|]. destruct Hmv as (_ & _ & Hmv). destruct (Hmv cv nm) as [Hsame|(_ & _ & _ & c' & Hc' & Hrest)].
      - exists c. by rewrite Hsame.
      - rewrite Hl in Hrest. exists c'. split; [done|]. unfold ensureHistoryChain in He. cbv zeta in He. fold cv nm in He.
        assert (lookup_chain cv nm h1 = Some (ERec c)) as Hkeep.
        { destruct (ao_mkdir o) as [|mc mn].
          - rewrite lookup_make_chain, bool_decide_true, Hl in He by done. done.
          - injection He as _ <-. destruct mn; [by rewrite lookup_make_chain, bool_decide_true, Hl by done|]. destruct mc; [|done].
            unfold lookup_chain in *. cbn [hi_chains with_chains]. rewrite lookup_insert_eq. by destruct (hi_chains h !! cv). }
        congruence. }
  destruct (Hc c1 eq_refl) as (Ho & Hl1 & _ & Hor). fold cv nm in Hl1, Hor. assert (c1 = c) as -> by (destruct Hor as [?|[? _]]; congruence).
  destruct (readHistoryCheckpoint s c) as [x|e] eqn:Hx; [|by exists e, h1; split; [done|]; exists c].
  destruct (follows_chain s digest x) as [[[]|]|e] eqn:Hf; [|by exfalso; eapply Hnew|by exists e, h1; split; [done|]; exists c].
  destruct (_ <? _); [by eexists _, h1; split; [done|]; exists c|].
  destruct (put_objects (ao_objects o) events h1) as [y h2] eqn:Hp. apply put_objects_grow in Hp as (P1 & _).
  assert (lookup_chain cv nm h2 = Some (ERec c)) as Hl2 by (unfold lookup_chain; by rewrite P1).
  destruct y as [[]|e]; [|by exists e, h2; split; [done|]; exists c].
  rewrite (put_immutable_conflict _ _ _ (manifest_of s digest events now)); [|done|intros E; by apply (f_equal hm_AppliedAtUnix) in E].
  eexists _, _. split; [done|]. eexists. rewrite lookup_put_chain, bool_decide_true by done. split; [done|]. done.
Qed.

(** ** Pages of the journal *)

(** What the exporter knows of an event it may put into a page. *)
Definition exportable (held : bytes -> Prop) (conversationID : string) (afterCreated : Z) (afterEvent : string) (id : string) (x : Event * bytes) : Prop :=
  id = ev_EventID (fst x) /\ EncodeEventJSON (fst x) = Ok (snd x) /\
  eligible conversationID afterCreated afterEvent (fst x) = true /\ exists raw, held raw /\ DecodeEventJSON raw = Ok (fst x).

(** The bytes a journal holds: the payloads of its readable records and deliveries. *)
Definition held_by (j : Journal) (raw : bytes) : Prop :=
  (exists n r, readRecord (jr_inbound j) n = Ok r /\ Record_Payload r = Ok raw) \/
  (exists n d, readDelivery (ob_files (jr_outbox j)) n = Ok d /\ Delivery_Payload d = Ok raw).

Section Gathered.
Context (held : bytes -> Prop) (conversationID : string) (afterCreated : Z) (afterEvent : string).
Let good (b : candidates) : Prop := map_Forall (exportable held conversationID afterCreated afterEvent) b.

Lemma add_candidate_good raw b b' : held raw -> good b -> add_candidate conversationID afterCreated afterEvent raw b = Ok b' -> good b'.
Proof.
  intros Hh Hb. unfold add_candidate. destruct (DecodeEventJSON raw) as [e|] eqn:Hd; [|done].
  destruct (eligible _ _ _ e) eqn:He; cbn [negb]; [|intros H; by apply Ok_inj in H as <-].
  destruct (EncodeEventJSON e) as [canonical|] eqn:Hc; [|done]. intros H. inv_ok_step H. apply Ok_inj in H as <-.
  apply map_Forall_insert_2; [|done]. split_and!; [done..|by exists raw].
Qed.

Lemma gather_inbound_good files names b b' :
  (forall n r raw, readRecord files n = Ok r -> Record_Payload r = Ok raw -> held raw) ->
  good b -> gather_inbound conversationID afterCreated afterEvent files names b = Ok b' -> good b'.
Proof.
  intros Hh. revert b. induction names as [|n names IH]; intros b Hb; cbn [gather_inbound]; [intros H; by apply Ok_inj in H as <-|].
  intros H. inv_ok_step H. inv_ok_step H. destruct (_ || _); [by apply (IH b)|]. inv_ok_step H. inv_ok_step H.
  eapply IH; [|exact H]. eapply add_candidate_good; eauto.
Qed.

Lemma gather_outbound_good files names b b' :
  (forall n d raw, readDelivery files n = Ok d -> Delivery_Payload d = Ok raw -> held raw) ->
  good b -> gather_outbound conversationID afterCreated afterEvent files names b = Ok b' -> good b'.
Proof.
  intros Hh. revert b. induction names as [|n names IH]; intros b Hb; cbn [gather_outbound]; [intros H; by apply Ok_inj in H as <-|].
  intros H. inv_ok_step H. inv_ok_step H. destruct (_ || _); [by apply (IH b)|]. inv_ok_step H. inv_ok_step H.
  eapply IH; [|exact H]. eapply add_candidate_good; eauto.
Qed.

(** The candidates in order: none twice, each after the one before it. *)
Definition in_order (l : list (Event * bytes)) : Prop :=
  Sorted candidate_le l /\ NoDup ((fun x => ev_EventID (fst x)) <$> l).

Lemma candidates_in_order b : good b ->
  in_order (merge_sort candidate_le (List.map snd (map_to_list b))) /\
  Forall (fun x => exists id, exportable held conversationID afterCreated afterEvent id x) (merge_sort candidate_le (List.map snd (map_to_list b))).
Proof.
  intros Hb. assert (Total candidate_le) by (intros x y; apply event_le_total). split.
  - split; [apply Sorted_merge_sort, _|]. rewrite merge_sort_Permutation.
    assert ((fun x => ev_EventID (fst x)) <$> List.map snd (map_to_list b) = fst <$> map_to_list b) as ->.
    { change (List.map snd (map_to_list b)) with (snd <$> map_to_list b). rewrite <- list_fmap_compose.
      apply list_fmap_ext. intros i [id x] Hi. cbn. apply list_elem_of_lookup_2, elem_of_map_to_list in Hi. by destruct (Hb id x Hi). }
    apply NoDup_fst_map_to_list.
  - rewrite merge_sort_Permutation. apply Forall_forall. intros x ([id y] & -> & Hy%elem_of_map_to_list)%list_elem_of_fmap.
    exists id. by apply Hb.
Qed.
End Gathered.

Lemma fill_page_prefix limit used l : exists rest, l = fill_page limit used l ++ rest.
Proof.
  revert used l. induction limit as [|limit IH]; intros used [|[e raw] l]; cbn [fill_page]; try by eexists.
  destruct (_ <? _); [by eexists|]. destruct (IH (used + blen raw) l) as [rest Hr]. exists rest. cbn. by f_equal.
Qed.

Lemma Sorted_prefix {A} (R : A -> A -> Prop) l k : Sorted R (l ++ k) -> Sorted R l.
Proof.
  induction l as [|x l IH]; [constructor|]. cbn. intros [Hs Hh]%Sorted_inv. constructor; [by apply IH|].
  destruct l; [constructor|]. cbn in Hh. inversion_clear Hh. by constructor.
Qed.

Lemma event_le_before e f : event_le e f -> ev_EventID e <> ev_EventID f ->
  before (ev_CreatedAtUnix e) (ev_EventID e) (ev_CreatedAtUnix f) (ev_EventID f) = true.
Proof.
  unfold event_le, before. intros [H|[-> H]] Hne.
  - apply orb_true_intro. left. lia.
  - apply orb_true_intro. right. rewrite Z.eqb_refl. cbn [andb]. rewrite str_ltb_le. apply negb_true_iff.
    destruct (String.leb (ev_EventID f) (ev_EventID e)) eqn:E; [|done]. exfalso. apply Hne. by apply (anti_symm str_le).
Qed.

Lemma ordered_validates held outer s previous l :
  in_order (match previous with Some p => p :: l | None => l end) ->
  Forall (fun x => (exists id, exportable held (sg_Conversation s) (sg_AfterCreated s) (sg_AfterEvent s) id x) /\
    event_typed (fst x) (snd x) /\ sameNetwork (fst x) outer = true) l ->
  validate_events outer s (fst <$> previous) (List.map snd l) = Ok l.
Proof.
  revert previous. induction l as [|[e raw] l IH]; intros previous [Hs Hn] HF; [done|]. cbn [List.map validate_events].
  apply Forall_cons in HF as [[(id & _ & Henc & Hel & raw0 & _ & Hd0) [Ht Hnet]] HF']. cbn [fst snd] in *.
  rewrite (typed_decodes e raw raw0 Henc Ht Hd0). unfold eligible in Hel. breflect.
  repeat match goal with E : ?x = true |- _ => progress rewrite E | E : ?x = false |- _ => progress rewrite E end.
  match goal with E : ev_ConversationID e = _ |- _ => rewrite E end. match goal with E : ev_RoomID e = _ |- _ => rewrite E end.
  match goal with E : ev_Kind e <> _ |- _ => rewrite (proj2 (String.eqb_neq _ _) E) end.
  rewrite !String.eqb_refl, Henc. cbn [negb orb].
  assert (match fst <$> previous with
    | Some p => negb (before (ev_CreatedAtUnix p) (ev_EventID p) (ev_CreatedAtUnix e) (ev_EventID e)) | None => false end = false) as ->.
  { destruct previous as [[p rp]|]; [|done]. cbn. apply negb_false_iff, event_le_before.
    - apply Sorted_inv in Hs as [_ Hh]. by inversion_clear Hh.
    - cbn in Hn. apply NoDup_cons in Hn as [Hn _]. intros E. apply Hn. rewrite E. apply list_elem_of_here. }
  change (Some e) with (fst <$> Some (e, raw)). rewrite (IH (Some (e, raw))); [done| |done].
  destruct previous; [|done]. split; [by apply Sorted_inv in Hs as [? _]|]. cbn in Hn. by apply NoDup_cons in Hn as [_ ?].
Qed.

(** A page one device exports is one another device accepts: the events [BuildHistorySegment] puts into a page pass every
    check [ApplyHistorySegment] makes on them, in the order they are in, when they belong to the network of the event
    that carries the page. *)
Theorem exported_page_accepted source target conversationID sequence previous afterCreated afterEvent limit j s outer :
  BuildHistorySegment source target conversationID sequence previous afterCreated afterEvent limit j = Ok s ->
  (forall raw e canonical, held_by j raw -> DecodeEventJSON raw = Ok e -> EncodeEventJSON e = Ok canonical ->
    event_typed e canonical /\ sameNetwork e outer = true) ->
  exists events, validateHistoryEvents outer s = Ok events /\ List.map snd events = sg_Events s /\
    DeviceHistorySegment_Validate s = Ok tt.
Proof.
  unfold BuildHistorySegment. cbv zeta. intros H HT.
  set (limit' := if limit =? 0 then MaxHistoryEventsPerSegment else limit) in *. inv_ok_step H. inv_ok_step H.
  destruct (gather_inbound _ _ _ _ _ ∅) as [b1|] eqn:H1; [|done]. destruct (gather_outbound _ _ _ _ _ b1) as [b2|] eqn:H2; [|done].
  assert (map_Forall (exportable (held_by j) conversationID afterCreated afterEvent) b2) as Hb.
  { eapply gather_outbound_good; [..|exact H2]; [right; eauto|]. eapply gather_inbound_good; [..|exact H1]; [left; eauto|apply map_Forall_empty]. }
  destruct (candidates_in_order _ _ _ _ b2 Hb) as [Ho HF]. set (l := merge_sort candidate_le _) in *.
  destruct (fill_page_prefix (Z.to_nat limit') 0 l) as [rest Hl]. set (page := fill_page (Z.to_nat limit') 0 l) in *.
  inv_ok_step H. destruct (DeviceHistorySegment_Validate _) as [[]|] eqn:Hval; [|done]. apply Ok_inj in H as <-.
  exists page. split_and!; [|done|done]. unfold validateHistoryEvents. cbn [sg_Events DeviceHistorySegment_Events] in *.
  assert (in_order page) as Hop.
  { destruct Ho as [Ho1 Ho2]. rewrite Hl in Ho1, Ho2. split; [by eapply Sorted_prefix|]. rewrite fmap_app in Ho2. by apply NoDup_app in Ho2 as [? _]. }
  apply (ordered_validates (held_by j) outer _ None page Hop). cbn [DeviceHistorySegment_ConversationID DeviceHistorySegment_AfterCreatedAtUnix
    DeviceHistorySegment_AfterEventID]. rewrite Hl in HF. apply Forall_app in HF as [HF _]. rewrite Forall_forall in HF. apply Forall_forall.
  intros x Hx. destruct (HF x Hx) as (id & Hid). split; [by exists id|]. destruct Hid as (_ & Henc & _ & raw & Hraw & Hd). by apply (HT raw (fst x) (snd x)).
Qed.
End Reading.

(** ** Witnesses *)

#[local] Existing Instances toy_Protocol toy_AttachmentFormats.

Abbreviation past_event := Envelope.sample_event.
Definition past_raw : bytes := Eval vm_compute in match EncodeEventJSON past_event with Ok raw => raw | Err _ => [] end.
Definition here_device : string := id_named "dev_" "3".
Definition there_device : string := id_named "dev_" "8".

(** A page with one event, and the event that carries it. *)
Definition page_at (sequence : Z) (previous : string) (created : Z) (id : string) : segment :=
  MkDeviceHistorySegment here_device there_device (id_named "conv_" "1") sequence previous created id [past_raw].
Definition first_page : segment := page_at 1 "" 0 "".
Definition second_page : segment := page_at 2 ("sha256:" +:+ sample_hash) 900 (id_named "evt_" "1").
Definition carrier (s : segment) : Event :=
  MkEvent (Some sample_domain) (id_named "conv_" "1") "" sample_agent_id (id_named "mep_" "2") here_device "" "" "" [] 1500 3000
    "device.history.segment" "" "" (sample_ack (PDeviceHistorySegment s)) "" [] "".
Definition carried (s : segment) : Event := match NewEvent (carrier s) with Ok e => e | Err _ => carrier s end.
Definition first_outer : Event := Eval vm_compute in carried first_page.
Definition second_outer : Event := Eval vm_compute in carried second_page.

Definition empty_history : HistoryStore := MkHistory true ∅ ∅.
Definition roster : list string := [here_device; there_device].
Definition all_written : apply_outcomes := MkApply MOk (fun _ => COk) COk WOk.
Abbreviation apply_first := (ApplyHistorySegment all_written first_outer first_page sample_agent_id (id_named "mep_" "2")
  there_device roster 2000 empty_history).

Lemma past_decodes : DecodeEventJSON past_raw = Ok past_event.
Proof. vm_compute. reflexivity. Qed.
Lemma past_encodes : EncodeEventJSON past_event = Ok past_raw.
Proof. vm_compute. reflexivity. Qed.

Lemma past_typed : event_typed past_event past_raw.
Proof.
  split_and!; [split; by vm_compute|exists sample_domain; split; [reflexivity|by vm_compute]|by vm_compute|by vm_compute].
Qed.

Lemma first_page_typed : page_typed first_outer first_page 2000.
Proof.
  constructor; [lia|by vm_compute|]. intros raw e canonical Hin Hd He. apply list_elem_of_singleton in Hin. subst raw.
  rewrite past_decodes in Hd. apply Ok_inj in Hd as <-. rewrite past_encodes in He. apply Ok_inj in He as <-. exact past_typed.
Qed.

Lemma empty_history_sound : store_sound empty_history.
Proof. intros cv nm e He. unfold lookup_chain, empty_history in He. cbn [hi_chains] in He. by rewrite lookup_empty in He. Qed.

Lemma applied {A} (p : result A * HistoryStore) a : fst p = Ok a -> p = (Ok a, snd p).
Proof. destruct p as [r h]. cbn. by intros ->. Qed.

Lemma first_applied : fst apply_first = Ok true.
Proof. vm_compute. reflexivity. Qed.

Lemma history_gains_page_witness : exists events l',
  validateHistoryEvents first_outer first_page = Ok events /\
  History (id_named "conv_" "1") 0 (snd apply_first) = Ok l' /\ forall e, e ∈ l' <-> e ∈ [] \/ e ∈ fst <$> events.
Proof.
  exact (history_gains_page all_written first_outer first_page sample_agent_id (id_named "mep_" "2") there_device roster 2000
    empty_history (snd apply_first) [] empty_history_sound first_page_typed (applied _ _ first_applied) eq_refl).
Defined.

Definition first_op : history_op :=
  MkHistoryOp all_written first_outer first_page sample_agent_id (id_named "mep_" "2") there_device roster 2000.

Lemma committed_history_survives_witness :
  let h' := run_histories [first_op] empty_history in
  (forall e, has_committed (id_named "conv_" "1") empty_history e -> has_committed (id_named "conv_" "1") h' e) /\
  (finished (id_named "conv_" "1") h' -> exists l, History (id_named "conv_" "1") 0 h' = Ok l /\ Sorted event_le l /\
     forall e, e ∈ l <-> has_committed (id_named "conv_" "1") h' e).
Proof.
  apply (committed_history_survives [first_op] empty_history (id_named "conv_" "1") empty_history_sound eq_refl eq_refl).
  constructor; [exact first_page_typed|constructor].
Defined.

Lemma ok_of {A} (r : result A) : is_ok r = true -> exists x, r = Ok x.
Proof. destruct r as [x|]; [by exists x|done]. Qed.

Lemma refused_page_hides_history_witness : exists h',
  ApplyHistorySegment all_written second_outer second_page sample_agent_id (id_named "mep_" "2") there_device roster 2000
    empty_history = (Err ErrHistorySequence, h') /\ exists e, History (id_named "conv_" "1") 10 h' = Err e.
Proof.
  assert (exists u, validateHistoryEnvelope second_outer second_page sample_agent_id (id_named "mep_" "2") there_device roster = Ok u)
    as [[] Ev] by (apply ok_of; vm_compute; reflexivity).
  assert (exists l, validateHistoryEvents second_outer second_page = Ok l) as [events Ee] by (apply ok_of; vm_compute; reflexivity).
  apply (refused_page_hides_history all_written second_outer second_page sample_agent_id (id_named "mep_" "2") there_device roster 2000
    empty_history events 10 eq_refl eq_refl Ev Ee eq_refl); [discriminate|]. unfold lookup_chain. cbn. by rewrite lookup_empty.
Defined.

(** The store after the first page was interrupted before its checkpoint, at second 2000. *)
Definition interrupted_chain : Chain :=
  MkChain None {[ 1 := ERec (manifest_of first_page (canon_Digest (ev_Content first_outer)) [(past_event, past_raw)] 2000) ]}.
Definition interrupted_history : HistoryStore :=
  MkHistory true {[ object_path (ev_EventID past_event) := ERec past_raw ]}
    {[ conversation_dir (id_named "conv_" "1") := {[ chain_dir here_device there_device := ERec interrupted_chain ]} ]}.

(** It is what the call leaves when the write of the checkpoint fails. *)
Definition left_by_crash : HistoryStore :=
  snd (ApplyHistorySegment (MkApply MOk (fun _ => COk) COk WFailOld) first_outer first_page sample_agent_id
    (id_named "mep_" "2") there_device roster 2000 empty_history).

Definition left_manifest : option historyManifest :=
  match lookup_chain (conversation_dir (id_named "conv_" "1")) (chain_dir here_device there_device) left_by_crash with
  | Some (ERec c) => match ch_checkpoint c, ch_segments c !! 1 with None, Some (ERec m) => Some m | _, _ => None end
  | _ => None
  end.

Definition crash_manifest : historyManifest :=
  manifest_of first_page (canon_Digest (ev_Content first_outer)) [(past_event, past_raw)] 2000.

Example interrupted_history_reached : bool_decide (left_manifest = Some crash_manifest) = true.
Proof. vm_compute. reflexivity. Qed.

Lemma interrupted_page_blocks_chain_witness : exists e h',
  apply_page all_written first_page (canon_Digest (ev_Content first_outer)) [(past_event, past_raw)] 2001 interrupted_history
    = (Err e, h') /\
  exists c', lookup_chain (conversation_dir (id_named "conv_" "1")) (chain_dir here_device there_device) h' = Some (ERec c') /\
    ch_checkpoint c' = None.
Proof.
  apply (interrupted_page_blocks_chain all_written first_page (canon_Digest (ev_Content first_outer)) [(past_event, past_raw)] 2000 2001
    interrupted_history interrupted_chain None).
  - unfold lookup_chain, interrupted_history. cbn [hi_chains]. rewrite lookup_singleton_eq. cbn. by rewrite lookup_singleton_eq.
  - reflexivity.
  - apply lookup_singleton_eq.
  - discriminate.
  - intros x Hx. unfold readHistoryCheckpoint, decodeHistoryCheckpointFile in Hx. cbn in Hx. apply Ok_inj in Hx as <-. discriminate.
Defined.

(** A journal with one delivered event. *)
Definition delivered_past : Delivery :=
  set_schedule (outbound_delivery (MkOutbound "" (ev_EventID past_event) ("ses_" +:+ sample_hash) (id_named "mep_" "7") ""
    (id_named "conv_" "1") past_raw 1000 2000)) StateDelivered 0 1100.
Definition past_journal : Journal :=
  MkJournal (MkOutbox true {[ deliveryPath (ev_EventID past_event) := ERec delivered_past ]}) DefaultQuota ∅ ∅ ∅.

Lemma past_exported :
  BuildHistorySegment here_device there_device (id_named "conv_" "1") 1 "" 0 "" 0 past_journal = Ok first_page.
Proof. vm_compute. reflexivity. Qed.

Lemma exported_page_accepted_witness : exists events,
  validateHistoryEvents first_outer first_page = Ok events /\ List.map snd events = sg_Events first_page /\
  DeviceHistorySegment_Validate first_page = Ok tt.
Proof.
  apply (exported_page_accepted here_device there_device (id_named "conv_" "1") 1 "" 0 "" 0 past_journal first_page first_outer past_exported).
  intros raw e canonical [(n & r & Hr & _)|(n & d & Hd & Hp)] He Hc.
  - discriminate Hr.
  - assert (raw = past_raw) as ->.
    { apply readDelivery_file in Hd as [Hd _]. unfold past_journal in Hd. cbn [jr_outbox ob_files] in Hd.
      destruct (decide (n = deliveryPath (ev_EventID past_event))) as [->|Hn].
      - rewrite lookup_singleton_eq in Hd. injection Hd as <-.
        assert (Delivery_Payload delivered_past = Ok past_raw) as Hq by (vm_compute; reflexivity).
        rewrite Hq in Hp. by apply Ok_inj in Hp.
      - rewrite lookup_singleton_ne in Hd by congruence. discriminate Hd. }
    rewrite past_decodes in He. apply Ok_inj in He as <-. split; [|by vm_compute].
    rewrite past_encodes in Hc. apply Ok_inj in Hc as <-. exact past_typed.
Defined.
