(* ===== verification/Dispatch.v ===== *)
(** * The dispatcher: [pkg/dispatch] and the compositions it claims

    The dispatcher builds the events a runtime asks for, queues them, and sweeps the queue: it claims what is due,
    seals what is not sealed yet, hands the ciphertext to a sender and records the outcome.  The first part models
    [pkg/eventlog/composition.go], which binds an idempotency key to the first event composed under it; the second
    [dispatch.go] and [session_bindings.go], all but the two getters of the configuration.

    A sweep calls the journal several times, and every call takes and releases the journal's lock.  Other callers may
    come in between: a [script] gives, for each place between two calls, the operations that run there, together with
    what the operating system, the random source, the clock and the sender decide.  The state of the model is the
    [Desk]: the journal, the compositions, and two logs nothing reads, of the seals that were committed and of the
    messages that were handed to the sender. *)

From S2P Require Import Prelude Encoding Canon Files Fault Json Money Identity Payload PayloadCodec E2ee Ratchet Delivery Envelope Journal Inbound Session History.

(** ** Compositions ([pkg/eventlog/composition.go]) *)

Definition OutboundCompositionSchema : string := "tos.messaging.outbound-composition.v1".
Definition outboundIdempotencyPattern : string -> bool := prefixed_hex64 "idem_".

Record outboundComposition : Type := MkComposition {
  oc_Schema : string;
  oc_IdempotencyKey : string;
  oc_IntentDigest : string;
  oc_EventID : string;
  oc_SessionID : string;
  oc_RecipientEndpointID : string;
  oc_ConversationID : string;
  oc_PayloadBase64 : string;
  oc_PayloadDigest : string;
  oc_CreatedAtUnix : Z;
  oc_ExpiresAtUnix : Z;
}.

(** A seal that was committed: the session and the generation it left, the delivery and the ciphertext. *)
Record Seal : Type := MkSeal {
  se_SessionID : string;
  se_Generation : Z;
  se_Key : string;
  se_Ciphertext : bytes;
}.

(** [AdmissionToken] is always the empty string; [Bootstrap] is empty when there is none. *)
Record Message : Type := MkMessage {
  ms_EventID : string;
  ms_SessionID : string;
  ms_RecipientEndpointID : string;
  ms_RecipientDeviceID : string;
  ms_ConversationID : string;
  ms_Bootstrap : bytes;
  ms_AdmissionToken : string;
  ms_Ciphertext : bytes;
  ms_ExpiresAtUnix : Z;
}.

Record Desk : Type := MkDesk {
  dk_journal : Journal;
  dk_compositions : directory outboundComposition;
  dk_seals : list Seal;
  dk_sent : list (string * Message);
}.

Definition with_journal (w : Desk) (j : Journal) : Desk := MkDesk j (dk_compositions w) (dk_seals w) (dk_sent w).
Definition with_compositions (w : Desk) (files : directory outboundComposition) : Desk :=
  MkDesk (dk_journal w) files (dk_seals w) (dk_sent w).
Definition log_seal (s : Seal) (w : Desk) : Desk :=
  MkDesk (dk_journal w) (dk_compositions w) (dk_seals w ++ [s]) (dk_sent w).
Definition log_sent (key : string) (m : Message) (w : Desk) : Desk :=
  MkDesk (dk_journal w) (dk_compositions w) (dk_seals w) (dk_sent w ++ [(key, m)]).

(** A journal operation on the outbox, run on the desk. *)
Definition on_outbox {A} (op : action Outbox A) : action Desk A :=
  fun w =>
  let '(r, o) := op (jr_outbox (dk_journal w)) in (r, with_journal w (with_outbox (dk_journal w) o)).

Definition compositionPath (idempotencyKey : string) : string := sdrop 5 idempotencyKey +:+ ".json".

Definition composition_of (idempotencyKey intentDigest : string) (request : Outbound) : outboundComposition :=
  MkComposition OutboundCompositionSchema idempotencyKey intentDigest (or_EventID request) (or_SessionID request)
    (or_RecipientEndpointID request) (or_ConversationID request) (b64_encode (or_Payload request))
    (canon_Digest (or_Payload request)) (or_CreatedAtUnix request) (or_ExpiresAtUnix request).

Definition err_composition : error := NewError "invalid outbound composition record".

(** What a composition file says: the event and route, and the intent it was claimed for. *)
Definition read_composition (files : directory outboundComposition) (idempotencyKey : string)
    : result (Outbound * string) :=
  let* existing := read_file err_composition files (compositionPath idempotencyKey) in
  refuse negb (String.eqb (oc_Schema existing) OutboundCompositionSchema)
         || negb (String.eqb (oc_IdempotencyKey existing) idempotencyKey)
         || negb (ValidDigest (oc_IntentDigest existing)) with err_composition;
  match b64_decode (oc_PayloadBase64 existing) with
  | None => Err (NewError "invalid outbound composition payload")
  | Some payloadBytes =>
      refuse negb (String.eqb (canon_Digest payloadBytes) (oc_PayloadDigest existing))
        with NewError "invalid outbound composition payload";
      Ok (MkOutbound "" (oc_EventID existing) (oc_SessionID existing) (oc_RecipientEndpointID existing) ""
            (oc_ConversationID existing) payloadBytes (oc_CreatedAtUnix existing) (oc_ExpiresAtUnix existing),
          oc_IntentDigest existing)
  end.

(** The answer is the event bound to the key and whether this call bound it. *)
Definition ClaimOutboundComposition (c : create_outcome) (idempotencyKey intentDigest : string) (request : Outbound)
    : action Desk (Outbound * bool) :=
  fun w =>
  match journal_usable (dk_journal w) with Err e => (Err e, w) | Ok _ =>
  if negb (outboundIdempotencyPattern idempotencyKey) then (Err (NewError "invalid outbound idempotency key"), w) else
  if negb (ValidDigest intentDigest) then (Err (NewError "invalid outbound intent digest"), w) else
  match validateOutbound request with Err e => (Err e, w) | Ok _ =>
  match file_create c (compositionPath idempotencyKey) (composition_of idempotencyKey intentDigest request)
          (dk_compositions w) with
  | (Ok _, files) => (Ok (request, true), with_compositions w files)
  | (Err e, files) =>
      if negb (bool_decide (e = ErrExist)) then (Err e, with_compositions w files) else
      match read_composition (dk_compositions w) idempotencyKey with
      | Err e => (Err e, w)
      | Ok (chosen, existingIntent) =>
          if negb (String.eqb intentDigest existingIntent) then (Err ErrConflict, w) else (Ok (chosen, false), w)
      end
  end end end.

Definition decodeOutboundComposition (files : directory outboundComposition) (idempotencyKey : string)
    : result (Outbound * string) :=
  let* (chosen, existingIntent) := read_composition files idempotencyKey in
  refuse negb (is_ok (validateOutbound chosen)) with NewError "invalid stored outbound composition";
  Ok (chosen, existingIntent).

Definition OutboundComposition (idempotencyKey intentDigest : string) (w : Desk) : result (option Outbound) :=
  call journal_usable (dk_journal w);
  refuse negb (outboundIdempotencyPattern idempotencyKey) || negb (ValidDigest intentDigest)
    with NewError "invalid outbound composition lookup";
  match dk_compositions w !! compositionPath idempotencyKey with
  | None => Ok None
  | Some _ =>
      let* (chosen, existingIntent) := decodeOutboundComposition (dk_compositions w) idempotencyKey in
      refuse negb (String.eqb existingIntent intentDigest) with ErrConflict;
      Ok (Some chosen)
  end.

(** ** The dispatcher *)

Record dispatch_Identity : Type := MkIdentity { di_AgentID : string; di_EndpointID : string; di_DeviceID : string }.

Definition Identity_Validate (i : dispatch_Identity) : result unit :=
  refuse negb (ids_Agent (di_AgentID i)) with NewError "invalid local Agent identifier";
  refuse negb (ids_Endpoint (di_EndpointID i)) with NewError "invalid local endpoint identifier";
  refuse negb (ids_Device (di_DeviceID i)) with NewError "invalid local device identifier";
  Ok tt.

(** What the dispatcher uses of the interfaces [e2ee.Suite] and [BindingResolver].  [Seal] draws randomness, which is
    its first argument; a resolver may read the journal. *)
Record Suite : Type := MkSuite {
  su_AlgorithmID : string;
  su_Seal : result bytes -> bytes -> bytes -> bytes -> result (bytes * bytes);
}.
Definition BindingResolver : Type := Journal -> Delivery -> result Binding.

(** [cf_Journal] and [cf_Sender] say whether the two are there; what a sender answers is in the scripts below. *)
Record Config : Type := MkConfig {
  cf_Journal : bool;
  cf_Suite : option Suite;
  cf_Sender : bool;
  cf_Bindings : option BindingResolver;
  cf_Identity : dispatch_Identity;
  cf_Network : option NetworkDomain;
  cf_AllowedEventClasses : option (list string);
  cf_AttemptLease : Z;
}.

Record Dispatcher : Type := MkDispatcher {
  dp_config : Config;
  dp_allowed : option (list string);
}.

Definition DefaultAttemptLease : Z := 120 * Second.

Definition some_count (l : list bool) : nat := length (filter (fun b => b = true) l).

Fixpoint allowed_classes (seen classes : list string) : result (list string) :=
  match classes with
  | [] => Ok seen
  | class :: rest =>
      refuse String.eqb class "" with NewError "dispatch event authority contains an empty class";
      refuse bool_decide (class ∈ seen) with NewError "dispatch event authority contains a duplicate class";
      allowed_classes (seen ++ [class]) rest
  end.

Definition set_lease (lease : Z) (c : Config) : Config :=
  MkConfig (cf_Journal c) (cf_Suite c) (cf_Sender c) (cf_Bindings c) (cf_Identity c) (cf_Network c)
    (cf_AllowedEventClasses c) lease.

Definition New (config : Config) : result Dispatcher :=
  refuse negb (cf_Journal config) with NewError "dispatch requires a durable journal";
  call Identity_Validate (cf_Identity config);
  let present := some_count [bool_decide (is_Some (cf_Suite config)); cf_Sender config;
                             bool_decide (is_Some (cf_Bindings config))] in
  refuse negb (present =? 0)%nat && negb (present =? 3)%nat
    with NewError "a sending dispatcher needs a suite, a sender, and a binding resolver";
  let config := if cf_AttemptLease config =? 0 then set_lease DefaultAttemptLease config else config in
  refuse cf_AttemptLease config <? Second with NewError "the send attempt lease is below its floor";
  match cf_AllowedEventClasses config with
  | None => Ok (MkDispatcher config None)
  | Some classes =>
      let* allowed := allowed_classes [] classes in
      refuse (length allowed =? 0)%nat with NewError "dispatch event authority is empty";
      Ok (MkDispatcher config (Some allowed))
  end.

Definition CanSend (d : Dispatcher) : bool :=
  bool_decide (is_Some (cf_Suite (dp_config d))) && cf_Sender (dp_config d)
  && bool_decide (is_Some (cf_Bindings (dp_config d))).

Definition ConfigureTransport (suite : option Suite) (sender : bool) (bindings : option BindingResolver)
    (d : Dispatcher) : result Dispatcher :=
  match suite, sender, bindings with
  | Some _, true, Some _ =>
      refuse CanSend d with NewError "dispatcher transport is already configured";
      let c := dp_config d in
      Ok (MkDispatcher (MkConfig (cf_Journal c) suite sender bindings (cf_Identity c) (cf_Network c)
                          (cf_AllowedEventClasses c) (cf_AttemptLease c)) (dp_allowed d))
  | _, _, _ => Err (NewError "a sending dispatcher needs a suite, a sender, and a binding resolver")
  end.

Definition authorizedKind (d : Dispatcher) (kind : string) : bool :=
  match ClassOf kind, dp_allowed d with
  | None, _ => false
  | Some _, None => true
  | Some class, Some allowed => bool_decide (class ∈ allowed)
  end.

(** [session_bindings.go]: the journal of the resolver is the one it is asked about. *)
Definition SessionBindings (identity : dispatch_Identity) (network : option NetworkDomain) : BindingResolver :=
  fun j delivery =>
  match network with
  | None => Err (NewError "session binding resolver is incomplete")
  | Some _ =>
  match SessionState (dl_SessionID delivery) j with
  | Ok (Some record) =>
  match sn_Authority record with
  | Some a =>
      refuse negb (String.eqb (sa_LocalAgentID a) (di_AgentID identity))
             || negb (String.eqb (sa_LocalEndpointID a) (di_EndpointID identity))
             || negb (String.eqb (sa_LocalDeviceID a) (di_DeviceID identity))
        with NewError "delivery session belongs to another local identity";
      refuse negb (String.eqb (dl_RecipientEndpointID delivery) (sa_PeerEndpointID a))
             || negb (String.eqb (dl_RecipientDeviceID delivery) (sa_PeerDeviceID a))
        with NewError "delivery target conflicts with session authority";
      let binding := MkBinding network (sn_AlgorithmID record) (dl_ConversationID delivery) (sa_LocalAgentID a)
                       (sa_LocalEndpointID a) (sa_LocalDeviceID a) (sa_PeerAgentID a) (sa_PeerEndpointID a)
                       (sa_PeerDeviceID a) in
      call Binding_Bytes binding;
      Ok binding
  | None => Err (NewError "delivery session has no verified authority")
  end
  | _ => Err (NewError "delivery session has no verified authority")
  end
  end.

(** ** Queueing and composing *)

(** [fault.Wrap] of an error the journal or a codec returned. *)
Definition error_chain (e : error) : chain := match e with NewError m | Sentinel m => CPlain m end.
Definition internal (e : error) : chain := fault_Wrap CodeInternal (Some (error_chain e)).

Record CopyTarget : Type := MkCopyTarget {
  ct_SessionID : string;
  ct_RecipientEndpointID : string;
  ct_RecipientDeviceID : string;
}.

Record ComposeRequest : Type := MkCompose {
  cr_ConversationID : string;
  cr_RoomID : string;
  cr_ReplyToEventID : string;
  cr_MembershipEpoch : Z;
  cr_MediaType : string;
  cr_Body : string;
  cr_IdempotencyKey : string;
  cr_SessionID : string;
  cr_RecipientEndpointID : string;
  cr_RecipientAgentID : string;
  cr_ExpiresAtUnix : Z;
}.

Record ProtocolResultRequest : Type := MkProtocolResult {
  pr_ConversationID : string;
  pr_ReplyToEventID : string;
  pr_Kind : string;
  pr_Protocol : string;
  pr_Version : string;
  pr_Body : bytes;
  pr_IdempotencyKey : string;
  pr_SessionID : string;
  pr_RecipientEndpointID : string;
  pr_ExpiresAtUnix : Z;
}.

Record AttachmentRequest : Type := MkAttachment {
  ar_ConversationID : string;
  ar_RoomID : string;
  ar_ReplyToEventID : string;
  ar_IdempotencyKey : string;
  ar_IntentDigest : string;
  ar_SessionID : string;
  ar_RecipientEndpointID : string;
  ar_ExpiresAtUnix : Z;
  ar_Attachment : EncryptedAttachment;
}.

Record HistoryRequest : Type := MkHistoryRequest {
  hr_TargetDeviceID : string;
  hr_ConversationID : string;
  hr_Sequence : Z;
  hr_PreviousSegmentDigest : string;
  hr_AfterCreatedAtUnix : Z;
  hr_AfterEventID : string;
  hr_IdempotencyKey : string;
  hr_Limit : Z;
  hr_ExpiresAtUnix : Z;
}.

Definition DomainOutboundIntent : string := "tos.messaging.outbound-intent.v1" +:+ NUL.

(** [strings.TrimPrefix] *)
Definition TrimPrefix (s prefix : string) : string := default s (strip_prefix prefix s).

(** A zero [Delivery] with the three fields [ComposeAndQueue] sets. *)
Definition route_probe (request : ComposeRequest) : Delivery :=
  MkDelivery "" "" "" (cr_SessionID request) "" "" "" "" "" 0 (cr_RecipientEndpointID request) ""
    (cr_ConversationID request) (OtherState "") 0 "" 0 0 0 0.

(** The event the composing methods hand to [envelope.NewEvent]. *)
Definition draft (d : Dispatcher) (conversation room reply kind idempotencyKey : string) (now : time) (expires : Z)
    (content : bytes) (references : list string) : Event :=
  let identity := cf_Identity (dp_config d) in
  MkEvent (cf_Network (dp_config d)) conversation "" (di_AgentID identity) (di_EndpointID identity)
    (di_DeviceID identity) room "" reply [] (u64 now) expires kind "" (TrimPrefix idempotencyKey "idem_") content ""
    references "".

(** The route and payload of a composed event. *)
Definition outbound_of (e : Event) (sessionID recipientEndpointID conversation : string) (encoded : bytes) (now : time)
    (expires : Z) : Outbound :=
  MkOutbound "" (ev_EventID e) sessionID recipientEndpointID "" conversation encoded (u64 now) expires.

Definition identity_texts (d : Dispatcher) (n : NetworkDomain) : list string :=
  let identity := cf_Identity (dp_config d) in
  [nd_NetworkId n; nd_GenesisRootHash n; nd_GenesisFileHash n; di_AgentID identity; di_EndpointID identity;
   di_DeviceID identity].

Definition compose_intent (d : Dispatcher) (n : NetworkDomain) (r : ComposeRequest) : bytes :=
  let intent := fold_left canon_Text
    (identity_texts d n ++
     [cr_ConversationID r; cr_RoomID r; cr_ReplyToEventID r; cr_MediaType r; cr_Body r; cr_IdempotencyKey r;
      cr_SessionID r; cr_RecipientEndpointID r; cr_RecipientAgentID r]) (bytes_of_string DomainOutboundIntent) in
  let intent := canon_Uint64 intent (cr_MembershipEpoch r) in
  canon_Uint64 intent (cr_ExpiresAtUnix r).

Definition protocol_intent (d : Dispatcher) (n : NetworkDomain) (r : ProtocolResultRequest) : bytes :=
  let intent := fold_left canon_Text
    (identity_texts d n ++
     [pr_ConversationID r; pr_ReplyToEventID r; pr_Kind r; pr_Protocol r; pr_Version r; pr_IdempotencyKey r;
      pr_SessionID r; pr_RecipientEndpointID r]) (bytes_of_string DomainOutboundIntent) in
  let intent := canon_Bytes intent (pr_Body r) in
  canon_Uint64 intent (pr_ExpiresAtUnix r).

Definition history_intent (d : Dispatcher) (n : NetworkDomain) (sessionID : string) (r : HistoryRequest) : bytes :=
  let intent := fold_left canon_Text
    (identity_texts d n ++
     [hr_TargetDeviceID r; hr_ConversationID r; hr_PreviousSegmentDigest r; hr_AfterEventID r; hr_IdempotencyKey r;
      sessionID]) (bytes_of_string DomainOutboundIntent) in
  let intent := canon_Uint64 intent (hr_Sequence r) in
  let intent := canon_Uint64 intent (hr_AfterCreatedAtUnix r) in
  let intent := canon_Uint32 intent (u32 (hr_Limit r)) in
  canon_Uint64 intent (hr_ExpiresAtUnix r).

Section Compose.
Context `{PR : Protocol} `{AF : AttachmentFormats}.

Definition prepareQueue (d : Dispatcher) (now : time) (event : Event) : result bytes :=
  call ValidateEvent event;
  refuse negb (authorizedKind d (ev_Kind event))
    with NewError "event class is not authorized by the endpoint delegation";
  refuse LocalOnly (ev_Kind event) with NewError "this event kind exists only on the owner's own interface";
  let identity := cf_Identity (dp_config d) in
  refuse negb (String.eqb (ev_SenderAgentID event) (di_AgentID identity))
         || negb (String.eqb (ev_SenderEndpointID event) (di_EndpointID identity))
         || negb (String.eqb (ev_SenderDeviceID event) (di_DeviceID identity))
    with NewError "event does not come from this installation";
  call payload_ValidateContent (ev_Kind event) (ev_Content event);
  let* stored := EncodeEventJSON event in
  refuse time_invalid now with NewError "invalid dispatch time";
  Ok stored.

Definition Queue (d : Dispatcher) (now : time) (c : create_outcome) (event : Event)
    (sessionID recipientEndpointID : string) (expiresAtUnix : Z) : action Desk (bool * Delivery) :=
  stored <~ act_lift (prepareQueue d now event) ;;;
  on_outbox (Enqueue c (MkOutbound "" (ev_EventID event) sessionID recipientEndpointID "" (ev_ConversationID event)
                          stored (u64 now) expiresAtUnix)).

(** One outcome per target. *)
Fixpoint queue_copies (cs : nat -> create_outcome) (event : Event) (stored : bytes) (now : time) (expiresAtUnix : Z)
    (targets : list CopyTarget) : action Desk (list Delivery) :=
  match targets with
  | [] => act_ret []
  | t :: rest =>
      copyID <~ act_lift (NewDeliveryCopyID (ev_EventID event) (ct_RecipientEndpointID t) (ct_RecipientDeviceID t)) ;;;
      x <~ on_outbox (Enqueue (cs O) (MkOutbound copyID (ev_EventID event) (ct_SessionID t) (ct_RecipientEndpointID t)
                        (ct_RecipientDeviceID t) (ev_ConversationID event) stored (u64 now) expiresAtUnix)) ;;;
      deliveries <~ queue_copies (fun i => cs (S i)) event stored now expiresAtUnix rest ;;;
      act_ret (snd x :: deliveries)
  end.

Definition QueueCopies (d : Dispatcher) (now : time) (cs : nat -> create_outcome) (event : Event)
    (targets : list CopyTarget) (expiresAtUnix : Z) : action Desk (list Delivery) :=
  stored <~ act_lift (prepareQueue d now event) ;;;
  refuse_st (length targets =? 0)%nat || (MaxDevicesPerSet * 2 - 1 <? Z.of_nat (length targets))
    with NewError "invalid delivery fan-out size";
  queue_copies cs event stored now expiresAtUnix targets.

(** [RecipientAgentID], when it is given, has to be the one the session of the route is bound to. *)
Definition check_route (d : Dispatcher) (j : Journal) (r : ComposeRequest) : result unit :=
  if String.eqb (cr_RecipientAgentID r) "" then Ok tt else
  refuse negb (ids_Agent (cr_RecipientAgentID r)) with NewError "invalid expected recipient Agent identifier";
  if negb (CanSend d) then Ok tt else
  let refusal := NewError "outbound route is not bound to the expected recipient Agent" in
  match cf_Bindings (dp_config d) with
  | None => Ok tt
  | Some bindings =>
      match bindings j (route_probe r) with
      | Err _ => Err refusal
      | Ok b =>
          refuse negb (String.eqb (bi_RecipientAgentID b) (cr_RecipientAgentID r))
                 || negb (String.eqb (bi_RecipientEndpointID b) (cr_RecipientEndpointID r))
                 || negb (String.eqb (bi_ConversationID b) (cr_ConversationID r)) with refusal;
          Ok tt
      end
  end.

Definition compose_event (d : Dispatcher) (now : time) (j : Journal) (r : ComposeRequest)
    : result (NetworkDomain * Event * bytes) :=
  match cf_Network (dp_config d) with
  | None => Err (NewError "dispatch composition has no network")
  | Some n =>
      call check_route d j r;
      refuse time_invalid now || (cr_ExpiresAtUnix r <=? u64 now) with NewError "invalid outbound lifetime";
      let '(kind, body) :=
        if String.eqb (cr_RoomID r) ""
        then ("text"%string, PText (MkText (cr_MediaType r) (cr_Body r) (cr_ReplyToEventID r)))
        else ("room.message"%string,
              PRoomMessage (MkRoomMessage (cr_RoomID r) (cr_MembershipEpoch r) (cr_MediaType r) (cr_Body r))) in
      refuse negb (authorizedKind d kind) with NewError "event class is not authorized by the endpoint delegation";
      let* content := Encode body in
      let* event := NewEvent (draft d (cr_ConversationID r) (cr_RoomID r) (cr_ReplyToEventID r) kind
                                (cr_IdempotencyKey r) now (cr_ExpiresAtUnix r) content []) in
      let* encoded := EncodeEventJSON event in
      Ok (n, event, encoded)
  end.

(** Claim the composition and return the event that is bound to the key. *)
Definition claim_event (c : create_outcome) (idempotencyKey intentDigest : string) (event : Event) (request : Outbound)
    : action Desk (Event * Outbound * bool) :=
  x <~ ClaimOutboundComposition c idempotencyKey intentDigest request ;;;
  let '(chosen, fresh) := x in
  if fresh : bool then act_ret (event, chosen, true) else
  first <~ act_lift (DecodeEventJSON (or_Payload chosen)) ;;;
  act_ret (first, chosen, false).

Definition claim_and_queue (c1 c2 : create_outcome) (idempotencyKey intentDigest : string) (event : Event)
    (request : Outbound) : action Desk (Event * bool) :=
  x <~ claim_event c1 idempotencyKey intentDigest event request ;;;
  let '(event, chosen, _) := x in
  y <~ on_outbox (Enqueue c2 chosen) ;;;
  act_ret (event, fst y).

Definition ComposeAndQueue (d : Dispatcher) (now : time) (c1 c2 : create_outcome) (r : ComposeRequest)
    : action Desk (Event * bool) :=
  fun w =>
  match compose_event d now (dk_journal w) r with
  | Err e => (Err e, w)
  | Ok (n, event, encoded) =>
      claim_and_queue c1 c2 (cr_IdempotencyKey r) (canon_Digest (compose_intent d n r)) event
        (outbound_of event (cr_SessionID r) (cr_RecipientEndpointID r) (cr_ConversationID r) encoded now
           (cr_ExpiresAtUnix r)) w
  end.

Definition protocol_event (d : Dispatcher) (now : time) (r : ProtocolResultRequest)
    : result (NetworkDomain * Event * bytes) :=
  match cf_Network (dp_config d) with
  | None => Err (NewError "protocol result composition has no network")
  | Some n =>
      refuse time_invalid now || (pr_ExpiresAtUnix r <=? u64 now) || String.eqb (pr_Protocol r) ""
             || negb (String.eqb (pr_Version r) "1") || (blen (pr_Body r) =? 0)
        with NewError "invalid outbound protocol result";
      let foreign := MkForeign (pr_Protocol r) (pr_Version r) (pr_Body r) in
      let* body :=
        if String.eqb (pr_Kind r) "a2a.message" then Ok (PA2AMessage (MkA2AMessage foreign))
        else if String.eqb (pr_Kind r) "mcp.result" then Ok (PMCPResult (MkMCPResult foreign))
        else Err (NewError "kind is not an outbound protocol result") in
      refuse negb (authorizedKind d (pr_Kind r))
        with NewError "event class is not authorized by the endpoint delegation";
      let* content := Encode body in
      let* event := NewEvent (draft d (pr_ConversationID r) "" (pr_ReplyToEventID r) (pr_Kind r)
                                (pr_IdempotencyKey r) now (pr_ExpiresAtUnix r) content []) in
      let* encoded := EncodeEventJSON event in
      Ok (n, event, encoded)
  end.

Definition ComposeProtocolResultAndQueue (d : Dispatcher) (now : time) (c1 c2 : create_outcome)
    (r : ProtocolResultRequest) : action Desk (Event * bool) :=
  x <~ act_lift (protocol_event d now r) ;;;
  let '(n, event, encoded) := x in
  claim_and_queue c1 c2 (pr_IdempotencyKey r) (canon_Digest (protocol_intent d n r)) event
    (outbound_of event (pr_SessionID r) (pr_RecipientEndpointID r) (pr_ConversationID r) encoded now
       (pr_ExpiresAtUnix r)).

Definition attachment_event (d : Dispatcher) (now : time) (r : AttachmentRequest) : result (Event * bytes) :=
  match cf_Network (dp_config d) with
  | None => Err (NewError "attachment composition has no network")
  | Some _ =>
      refuse negb (authorizedKind d "artifact.encrypted")
        with NewError "event class is not authorized by the endpoint delegation";
      refuse time_invalid now || (ar_ExpiresAtUnix r <=? u64 now) with NewError "invalid outbound attachment lifetime";
      let* content := Encode (PEncryptedAttachment (ar_Attachment r)) in
      let* event := NewEvent (draft d (ar_ConversationID r) (ar_RoomID r) (ar_ReplyToEventID r) "artifact.encrypted"
                                (ar_IdempotencyKey r) now (ar_ExpiresAtUnix r) content
                                [EncryptedAttachment_ManifestDigest (ar_Attachment r)]) in
      let* encoded := EncodeEventJSON event in
      Ok (event, encoded)
  end.

Definition PrepareEncryptedAttachment (d : Dispatcher) (now : time) (c : create_outcome) (r : AttachmentRequest)
    : action Desk (Event * bool) :=
  x <~ act_lift (attachment_event d now r) ;;;
  let '(event, encoded) := x in
  y <~ claim_event c (ar_IdempotencyKey r) (ar_IntentDigest r) event
    (outbound_of event (ar_SessionID r) (ar_RecipientEndpointID r) (ar_ConversationID r) encoded now
       (ar_ExpiresAtUnix r)) ;;;
  let '(event, _, fresh) := y in act_ret (event, fresh).

Definition QueuePreparedAttachment (d : Dispatcher) (now : time) (c : create_outcome) (event : Event)
    (sessionID recipientEndpointID : string) (expiresAtUnix : Z) : action Desk bool :=
  x <~ Queue d now c event sessionID recipientEndpointID expiresAtUnix ;;;
  act_ret (fst x).

(** The page of history, the event that carries it and the bytes of that event. *)
Definition history_event (d : Dispatcher) (now : time) (j : Journal) (r : HistoryRequest)
    : result (NetworkDomain * string * DeviceHistorySegment * Event * bytes) :=
  match cf_Network (dp_config d) with
  | None => Err (NewError "history composition has no network")
  | Some n =>
      refuse negb (authorizedKind d "device.history.segment")
        with NewError "event class is not authorized by the endpoint delegation";
      refuse time_invalid now || (hr_ExpiresAtUnix r <=? u64 now) with NewError "invalid history lifetime";
      let here := di_DeviceID (cf_Identity (dp_config d)) in
      let* sessionID := DeviceSessionID here (hr_TargetDeviceID r) in
      let* page := BuildHistorySegment here (hr_TargetDeviceID r) (hr_ConversationID r) (hr_Sequence r)
                     (hr_PreviousSegmentDigest r) (hr_AfterCreatedAtUnix r) (hr_AfterEventID r) (hr_Limit r) j in
      let* content := Encode (PDeviceHistorySegment page) in
      let* event := NewEvent (draft d (hr_ConversationID r) "" "" "device.history.segment" (hr_IdempotencyKey r) now
                                (hr_ExpiresAtUnix r) content []) in
      let* encoded := EncodeEventJSON event in
      Ok (n, sessionID, page, event, encoded)
  end.

(** The event and the page of a claimed composition: the ones just made, or the ones of the first request. *)
Definition committed_page (page : DeviceHistorySegment) (event : Event) (chosen : Outbound)
    : result (Event * DeviceHistorySegment) :=
  if String.eqb (or_EventID chosen) (ev_EventID event) then Ok (event, page) else
  let* first := DecodeEventJSON (or_Payload chosen) in
  match payload_Decode (ev_Kind first) (ev_Content first) with
  | Ok (PDeviceHistorySegment page) => Ok (first, page)
  | _ => Err (NewError "invalid committed history composition")
  end.

Definition ComposeHistoryAndQueue (d : Dispatcher) (now : time) (c1 c2 : create_outcome) (r : HistoryRequest)
    : action Desk (Event * DeviceHistorySegment * bool) :=
  fun w =>
  match history_event d now (dk_journal w) r with
  | Err e => (Err e, w)
  | Ok (n, sessionID, page, event, encoded) =>
      (x <~ ClaimOutboundComposition c1 (hr_IdempotencyKey r) (canon_Digest (history_intent d n sessionID r))
              (outbound_of event sessionID (di_EndpointID (cf_Identity (dp_config d))) (hr_ConversationID r) encoded now
                 (hr_ExpiresAtUnix r)) ;;;
       y <~ act_lift (committed_page page event (fst x)) ;;;
       z <~ on_outbox (Enqueue c2 (fst x)) ;;;
       act_ret (y, fst z)) w
  end.

Definition LookupComposition (idempotencyKey intentDigest : string) (w : Desk) : result (option Event) :=
  let* chosen := OutboundComposition idempotencyKey intentDigest w in
  match chosen with
  | None => Ok None
  | Some chosen =>
      let refusal := NewError "stored outbound composition conflicts with its Event" in
      match DecodeEventJSON (or_Payload chosen) with
      | Err _ => Err refusal
      | Ok event =>
          refuse negb (String.eqb (ev_EventID event) (or_EventID chosen))
                 || negb (String.eqb (ev_ConversationID event) (or_ConversationID chosen)) with refusal;
          Ok (Some event)
      end
  end.

Definition LookupQueuedComposition (idempotencyKey intentDigest : string) (w : Desk) : result (option Event) :=
  let* event := LookupComposition idempotencyKey intentDigest w in
  match event with
  | None => Ok None
  | Some event =>
      let* delivery := LookupDelivery (ev_EventID event) (jr_outbox (dk_journal w)) in
      match delivery with
      | None => Err (NewError "outbound composition is prepared but not queued")
      | Some delivery =>
          let* payload := Delivery_Payload delivery in
          let refusal := NewError "queued outbound composition conflicts with its delivery" in
          match EncodeEventJSON event with
          | Err _ => Err refusal
          | Ok encoded =>
              refuse negb (String.eqb (dl_EventID delivery) (ev_EventID event))
                     || negb (String.eqb (dl_ConversationID delivery) (ev_ConversationID event))
                     || negb (bool_decide (payload = encoded)) with refusal;
              Ok (Some event)
          end
      end
  end.
End Compose.

(** ** The sweep *)

(** The places between two calls of the journal in one attempt. *)
Inductive place : Type := BeforeClaim | BeforeSeal | BeforeBinding | BeforeCommit | BeforeBootstrap | DuringSend | BeforeFailed.

(** What one attempt meets: the context, the random source, the outcomes of its writes, the clock when it settles, the
    sender's answer, and what others do to the journal meanwhile. *)
Record script : Type := MkScript {
  sc_context : option error;
  sc_attempt_random : result bytes;
  sc_claim : write_outcome;
  sc_seal_random : result bytes;
  sc_commit_session : write_outcome;
  sc_commit_delivery : write_outcome;
  sc_send : option chain;
  sc_delivered : write_outcome;
  sc_delivered_at : time;
  sc_failed : write_outcome;
  sc_failed_at : time;
  sc_others : place -> list session_op;
}.

Definition interfere (s : script) (p : place) (w : Desk) : Desk :=
  with_journal w (run_sessions (sc_others s p) (dk_journal w)).

Record Summary : Type := MkSweepSummary {
  sm_Sent : Z;
  sm_Sealed : Z;
  sm_Retried : Z;
  sm_Held : Z;
  sm_Abandoned : Z;
}.
Definition no_summary : Summary := MkSweepSummary 0 0 0 0 0.

Definition newAttemptID (random : result bytes) : result string :=
  match random with
  | Err _ => Err (NewError "generate send attempt identifier")
  | Ok raw => NewAttemptID raw
  end.

(** A step of an attempt: a value or an error chain, and the desk it left. *)
Definition step_result (A : Type) : Type := sum chain A * Desk.

Definition seal (suite : Suite) (bindings : BindingResolver) (s : script) (delivery : Delivery) (attemptID : string)
    (now : time) (w : Desk) : step_result bytes :=
  let w := interfere s BeforeSeal w in
  match SessionState (dl_SessionID delivery) (dk_journal w) with
  | Err e => (inl (internal e), w)
  | Ok None => (inl (fault_New CodeInternal ("no session state for " +:+ dl_SessionID delivery)), w)
  | Ok (Some record) =>
  match Session_State record with
  | Err e => (inl (internal e), w)
  | Ok state =>
  if negb (String.eqb (sn_AlgorithmID record) (su_AlgorithmID suite))
  then (inl (fault_New "suite-unsupported" (sn_AlgorithmID record)), w) else
  match Delivery_Payload delivery with
  | Err e => (inl (internal e), w)
  | Ok payload =>
  let w := interfere s BeforeBinding w in
  match bindings (dk_journal w) delivery with
  | Err e => (inl (internal e), w)
  | Ok binding =>
  match Binding_Bytes binding with
  | Err e => (inl (internal e), w)
  | Ok associated =>
  match su_Seal suite (sc_seal_random s) state payload associated with
  | Err e => (inl (internal e), w)
  | Ok (ciphertext, next) =>
  let w := interfere s BeforeCommit w in
  match CommitSealed (sc_commit_session s) (sc_commit_delivery s) (dl_SessionID delivery) (sn_AlgorithmID record)
          (sn_Generation record) next (Delivery_Key delivery) attemptID ciphertext now (dk_journal w) with
  | (Err e, j) => (inl (internal e), with_journal w j)
  | (Ok _, j) =>
      (inr ciphertext, log_seal (MkSeal (dl_SessionID delivery) (sn_Generation record) (Delivery_Key delivery) ciphertext)
                         (with_journal w j))
  end end end end end end end.

(** The first-contact evidence a message carries while its session has some. *)
Definition bootstrap_bytes (record : SessionRecord) : sum chain bytes :=
  if String.eqb (sn_BootstrapBase64 record) "" then inr [] else
  match Session_Bootstrap record with
  | Err e => inl (internal e)
  | Ok None => inl (fault_Wrap CodeInternal None)
  | Ok (Some value) =>
      match EncodeFirstContactJSON value with
      | Err e => inl (internal e)
      | Ok raw => inr raw
      end
  end.

Definition message_for (d : Delivery) (bootstrap ciphertext : bytes) : Message :=
  MkMessage (dl_EventID d) (dl_SessionID d) (dl_RecipientEndpointID d) (dl_RecipientDeviceID d) (dl_ConversationID d)
    bootstrap "" ciphertext (dl_ExpiresAtUnix d).

(** The second half of [attempt]: send what is sealed, and settle. *)
Definition send_sealed (s : script) (delivery : Delivery) (attemptID : string) (ciphertext : bytes) (w : Desk)
    : option chain * Desk :=
  let w := interfere s BeforeBootstrap w in
  match SessionState (dl_SessionID delivery) (dk_journal w) with
  | Ok (Some record) =>
      match bootstrap_bytes record with
      | inl e => (Some e, w)
      | inr bootstrap =>
          let w := log_sent (Delivery_Key delivery) (message_for delivery bootstrap ciphertext) w in
          let w := interfere s DuringSend w in
          match sc_send s with
          | Some e => (Some e, w)
          | None =>
              match on_outbox (Delivered (sc_delivered s) (Delivery_Key delivery) attemptID (sc_delivered_at s)) w with
              | (Err e, w) => (Some (internal e), w)
              | (Ok _, w) => (None, w)
              end
          end
      end
  | _ => (Some (fault_New CodeInternal "no session bootstrap state"), w)
  end.

(** Whether it sealed, and the error. *)
Definition attempt (suite : Suite) (bindings : BindingResolver) (s : script) (delivery : Delivery) (attemptID : string)
    (now : time) (w : Desk) : (bool * option chain) * Desk :=
  match Delivery_Ciphertext delivery with
  | Err e => ((false, Some (internal e)), w)
  | Ok (Some ciphertext) =>
      let '(e, w) := send_sealed s delivery attemptID ciphertext w in ((false, e), w)
  | Ok None =>
      match seal suite bindings s delivery attemptID now w with
      | (inl e, w) => ((false, Some e), w)
      | (inr ciphertext, w) => let '(e, w) := send_sealed s delivery attemptID ciphertext w in ((true, e), w)
      end
  end.

Definition count_settled (state : DeliveryState) (m : Summary) : Summary :=
  match state with
  | StateHeld => MkSweepSummary (sm_Sent m) (sm_Sealed m) (sm_Retried m) (sm_Held m + 1) (sm_Abandoned m)
  | StateAbandoned => MkSweepSummary (sm_Sent m) (sm_Sealed m) (sm_Retried m) (sm_Held m) (sm_Abandoned m + 1)
  | _ => MkSweepSummary (sm_Sent m) (sm_Sealed m) (sm_Retried m + 1) (sm_Held m) (sm_Abandoned m)
  end.
Definition count_sealed (sealed : bool) (m : Summary) : Summary :=
  if sealed then MkSweepSummary (sm_Sent m) (sm_Sealed m + 1) (sm_Retried m) (sm_Held m) (sm_Abandoned m) else m.
Definition count_sent (m : Summary) : Summary :=
  MkSweepSummary (sm_Sent m + 1) (sm_Sealed m) (sm_Retried m) (sm_Held m) (sm_Abandoned m).

(** The loop of [Sweep]: one script per delivery. *)
Fixpoint sweep_loop (suite : Suite) (bindings : BindingResolver) (lease : Z) (now : time) (scripts : nat -> script)
    (due : list Delivery) (summary : Summary) (w : Desk) : (Summary * option error) * Desk :=
  match due with
  | [] => ((summary, None), w)
  | delivery :: rest =>
      let s := scripts O in
      let continue := sweep_loop suite bindings lease now (fun i => scripts (S i)) rest in
      match sc_context s with
      | Some e => ((summary, Some e), w)
      | None =>
      match newAttemptID (sc_attempt_random s) with
      | Err e => ((summary, Some e), w)
      | Ok attemptID =>
      let w := interfere s BeforeClaim w in
      match on_outbox (ClaimForSend (sc_claim s) (Delivery_Key delivery) attemptID now lease) w with
      | (Err _, w) => continue summary w
      | (Ok claimed, w) =>
      match attempt suite bindings s claimed attemptID now w with
      | ((sealed, None), w) => continue (count_sent (count_sealed sealed summary)) w
      | ((sealed, Some e), w) =>
          let summary := count_sealed sealed summary in
          let w := interfere s BeforeFailed w in
          match on_outbox (Failed (sc_failed s) (Delivery_Key delivery) attemptID (CodeOf e) (sc_failed_at s)) w with
          | (Err e, w) => ((summary, Some e), w)
          | (Ok settled, w) => continue (count_settled (dl_State settled) summary) w
          end
      end end end end
  end.

Definition ErrNoTransport : error := Sentinel "no transport is configured".

Definition Sweep (d : Dispatcher) (now : time) (limit : Z) (scripts : nat -> script) (w : Desk)
    : (Summary * option error) * Desk :=
  let failed e := ((no_summary, Some e), w) in
  match cf_Suite (dp_config d), cf_Sender (dp_config d), cf_Bindings (dp_config d) with
  | Some suite, true, Some bindings =>
      if time_invalid now then failed (NewError "invalid dispatch time") else
      match Due now (jr_outbox (dk_journal w)) with
      | Err e => failed e
      | Ok due =>
          let due := if (0 <? limit) && (limit <? Z.of_nat (length due)) then take (Z.to_nat limit) due else due in
          sweep_loop suite bindings (cf_AttemptLease (dp_config d)) now scripts due no_summary w
      end
  | _, _, _ => failed ErrNoTransport
  end.

(** ** Operations as steps *)

Inductive desk_op : Type :=
  | DQueue (now : time) (c : create_outcome) (event : Event) (sessionID recipientEndpointID : string) (expires : Z)
  | DCopies (now : time) (cs : nat -> create_outcome) (event : Event) (targets : list CopyTarget) (expires : Z)
  | DCompose (now : time) (c1 c2 : create_outcome) (r : ComposeRequest)
  | DProtocol (now : time) (c1 c2 : create_outcome) (r : ProtocolResultRequest)
  | DPrepare (now : time) (c : create_outcome) (r : AttachmentRequest)
  | DHistory (now : time) (c1 c2 : create_outcome) (r : HistoryRequest)
  | DSweep (now : time) (limit : Z) (scripts : nat -> script)
  | DJournal (op : session_op).

Definition run_desk `{PR : Protocol} `{AF : AttachmentFormats} (d : Dispatcher) (w : Desk) (op : desk_op) : Desk :=
  match op with
  | DQueue now c event sid endpoint expires => snd (Queue d now c event sid endpoint expires w)
  | DCopies now cs event targets expires => snd (QueueCopies d now cs event targets expires w)
  | DCompose now c1 c2 r => snd (ComposeAndQueue d now c1 c2 r w)
  | DProtocol now c1 c2 r => snd (ComposeProtocolResultAndQueue d now c1 c2 r w)
  | DPrepare now c r => snd (PrepareEncryptedAttachment d now c r w)
  | DHistory now c1 c2 r => snd (ComposeHistoryAndQueue d now c1 c2 r w)
  | DSweep now limit scripts => snd (Sweep d now limit scripts w)
  | DJournal op => with_journal w (run_session (dk_journal w) op)
  end.

Definition run_desks `{PR : Protocol} `{AF : AttachmentFormats} (d : Dispatcher) (ops : list desk_op) (w : Desk) : Desk :=
  foldl (run_desk d) w ops.

(** ** What no operation undoes *)

(** [d'] is [d] at a later time: its progress may differ, and an unsealed delivery may have been sealed. *)
Definition kept (d d' : Delivery) : Prop :=
  binding d' = binding d \/ dl_CiphertextBase64 d = "" /\ exists ct, binding d' = binding (set_ciphertext d ct).

Lemma binding_sealed d d' ct : binding d' = binding d -> binding (set_ciphertext d' ct) = binding (set_ciphertext d ct).
Proof. intros H. exact (f_equal (fun x => set_ciphertext x ct) H). Qed.

#[global] Instance kept_preorder : PreOrder kept.
Proof.
  split; [by left|]. intros a b c [Hab|[Ha [ct Hab]]] [Hbc|[Hb [ct' Hbc]]].
  - left. congruence.
  - right. split; [by rewrite <- Hb; apply (f_equal dl_CiphertextBase64) in Hab|].
    exists ct'. rewrite Hbc. by apply binding_sealed.
  - right. split; [done|]. exists ct. congruence.
  - right. split; [done|]. exists ct'. rewrite Hbc. exact (binding_sealed _ _ ct' Hab).
Qed.

Lemma kept_same d d' : kept d d' ->
  Delivery_Key d' = Delivery_Key d /\ dl_SessionID d' = dl_SessionID d /\
  (forall bs ct, message_for d' bs ct = message_for d bs ct).
Proof.
  assert (forall x y, binding x = binding y -> Delivery_Key x = Delivery_Key y /\ dl_SessionID x = dl_SessionID y /\
    (forall bs ct, message_for x bs ct = message_for y bs ct)) as H.
  { intros x y H. split_and!.
    - exact (f_equal Delivery_Key H).
    - exact (f_equal dl_SessionID H).
    - intros bs ct. exact (f_equal (fun z => message_for z bs ct) H). }
  intros [E|[_ [ct E]]]; exact (H _ _ E).
Qed.

Lemma kept_ciphertext d d' ct : kept d d' -> Delivery_Ciphertext d = Ok (Some ct) -> Delivery_Ciphertext d' = Ok (Some ct).
Proof.
  intros [E|[E _]] H.
  - rewrite <- H. exact (f_equal Delivery_Ciphertext E).
  - unfold Delivery_Ciphertext in H. by rewrite E in H.
Qed.

(** Generation [b] is [a] or comes after it; 0 comes after everything, for it is what 2^64 wraps to and no record at
    generation 0 can be read or written over. *)
Definition later (a b : Z) : Prop := a = b \/ 0 < a < b \/ b = 0.

Definition session_kept (s s' : SessionRecord) : Prop :=
  sn_BootstrapBase64 s' = sn_BootstrapBase64 s /\ sn_BootstrapDigest s' = sn_BootstrapDigest s /\
  (is_u64 (sn_Generation s) -> is_u64 (sn_Generation s') /\ later (sn_Generation s) (sn_Generation s')).

#[global] Instance session_kept_preorder : PreOrder session_kept.
Proof.
  unfold session_kept, later. split; [by intros s; auto|]. intros a b c (A1 & A2 & A3) (B1 & B2 & B3).
  split_and!; [congruence..|]. intros H. destruct (A3 H) as [H1 H2]. destruct (B3 H1) as [H3 H4]. split; [done|lia].
Qed.

Definition typed_sessions (files : directory SessionRecord) : Prop :=
  forall name s, files !! name = Some (ERec s) -> is_u64 (sn_Generation s).

(** Files of a kind only change as [R] allows. *)
Definition files_kept {A} (R : A -> A -> Prop) (files files' : directory A) : Prop :=
  forall name a, files !! name = Some (ERec a) -> exists a', files' !! name = Some (ERec a') /\ R a a'.

#[global] Instance files_kept_preorder {A} (R : A -> A -> Prop) : PreOrder R -> PreOrder (files_kept R).
Proof.
  intros HR. split; [by intros f n a H; exists a|]. intros f g h Hfg Hgh n a (b & Hb & Rab)%Hfg.
  destruct (Hgh n b Hb) as (c & Hc & Rbc). exists c. split; [done|]. by transitivity b.
Qed.

(** A journal that only moved forward. *)
Record extends (j j' : Journal) : Prop := {
  ex_deliveries : files_kept kept (ob_files (jr_outbox j)) (ob_files (jr_outbox j'));
  ex_filed : well_filed (ob_files (jr_outbox j)) -> well_filed (ob_files (jr_outbox j'));
  ex_sessions : files_kept session_kept (jr_sessions j) (jr_sessions j');
  ex_typed : typed_sessions (jr_sessions j) -> typed_sessions (jr_sessions j');
}.

#[global] Instance extends_preorder : PreOrder extends.
Proof.
  split; [by intros j; constructor|]. intros a b c [A1 A2 A3 A4] [B1 B2 B3 B4].
  constructor; auto; [by transitivity (ob_files (jr_outbox b))|by transitivity (jr_sessions b)].
Qed.

Lemma check_session_generation s : check_session s = Ok s -> sn_Generation s <> 0.
Proof. unfold check_session. intros H. inv_ok_step H. breflect. lia. Qed.

Lemma u64_succ g : is_u64 g -> u64 (g + 1) = g + 1 \/ u64 (g + 1) = 0.
Proof.
  unfold is_u64, u64. intros H. destruct (decide (g + 1 = 2 ^ 64)) as [->|]; [by right|left]. apply Z.mod_small. lia.
Qed.

Lemma session_write_kept files files' : session_write files files' ->
  files_kept session_kept files files' /\ (typed_sessions files -> typed_sessions files').
Proof.
  intros (sid & current & s & [Hg Hrest] & Hc & ->). split.
  - intros name a Ha. destruct (decide (name = sessionPath sid)) as [->|Hne].
    2:{ exists a. by rewrite lookup_insert_ne. }
    destruct current as [old|]; [|congruence]. apply readSession_file in Hc as [Hc Hck].
    assert (old = a) as -> by congruence. exists s. rewrite lookup_insert_eq. split; [done|].
    destruct Hrest as (Hb & Hd & _). split_and!; [done..|]. intros Hu. rewrite Hg. cbn [generation_of].
    split; [apply u64_range|]. apply check_session_generation in Hck. unfold later.
    destruct (u64_succ _ Hu) as [->| ->]; unfold is_u64 in Hu; lia.
  - intros Ht name x [[<- [= <-]]|[_ H]]%lookup_insert_Some; [|by apply (Ht name)]. rewrite Hg. apply u64_range.
Qed.

Lemma session_writes_kept files files' : rtc session_write files files' ->
  files_kept session_kept files files' /\ (typed_sessions files -> typed_sessions files').
Proof.
  induction 1 as [f|f g h Hw _ [IH1 IH2]]; [by split|]. destruct (session_write_kept _ _ Hw) as [H1 H2].
  split; [by transitivity g|auto].
Qed.

(** *** Deliveries *)

Lemma run_delivery_keeps j op :
  files_kept kept (ob_files j) (ob_files (run_delivery j op)) /\
  (well_filed (ob_files j) -> well_filed (ob_files (run_delivery j op))).
Proof.
  split.
  - intros name d H. destruct (run_delivery_kept name j op d H) as (d' & Hd' & [E|[_ He]]); exists d'; (split; [done|]); [by subst|].
    left. by destruct (evolves_facts _ _ _ _ He) as (_ & ? & _).
  - intros Hwf name d' [Hf' Hck']%readDelivery_file.
    destruct (run_delivery_step name j op) as [H|[(Ho & c & r & -> & Hp & Hn)|(d & x & Ho & Hck & Hx & He)]].
    + apply Hwf. rewrite H in Hf'. by apply readDelivery_file.
    + rewrite Hf' in Hn. destruct Hn as [?|[= ->]]; [done|]. done.
    + rewrite Hf' in Hx. injection Hx as <-. destruct (evolves_facts _ _ _ _ He) as (_ & Hb & _).
      destruct (kept_same d d' (or_introl Hb)) as (-> & _). apply Hwf. by apply readDelivery_file.
Qed.

Lemma sealed_keeps j name d ct held :
  readDelivery (ob_files j) name = Ok d -> dl_CiphertextBase64 d = "" ->
  let j' := MkOutbox held (<[name := ERec (set_ciphertext d ct)]> (ob_files j)) in
  files_kept kept (ob_files j) (ob_files j') /\ (well_filed (ob_files j) -> well_filed (ob_files j')).
Proof.
  intros Hr Hc j'. pose proof Hr as [Hf Hck]%readDelivery_file.
  assert (kept d (set_ciphertext d ct)) as Hk by (right; eauto). split.
  - intros n x Hx. cbn. destruct (decide (n = name)) as [->|Hne].
    + assert (x = d) as -> by congruence. exists (set_ciphertext d ct). by rewrite lookup_insert_eq.
    + exists x. by rewrite lookup_insert_ne.
  - intros Hwf n x [Hn Hx]%readDelivery_file. cbn in Hn. apply lookup_insert_Some in Hn as [[<- [= <-]]|[_ Hn]].
    + by apply Hwf in Hr.
    + apply Hwf. by apply readDelivery_file.
Qed.

(** *** Operations that leave the outbox alone *)

Lemma writeSessionInbound_outbox w sid alg g state e a seconds j :
  jr_outbox (snd (writeSessionInbound w sid alg g state e a seconds j)) = jr_outbox j.
Proof.
  unfold writeSessionInbound, replace_session. destruct (currentSession sid j); [|done].
  destruct (next_session _ _ _ _ _ _ _ _); [|done]. by destruct (file_replace _ _ _ _).
Qed.

Lemma commit_record_outbox w path r j : jr_outbox (snd (commit_record w path r j)) = jr_outbox j.
Proof. unfold commit_record. by destruct (file_replace _ _ _ _) as [[]]. Qed.

Lemma resolveStaged_outbox w_s w_r path r j : jr_outbox (snd (resolveStaged w_s w_r path r j)) = jr_outbox j.
Proof.
  assert (forall st j1, jr_outbox (snd (match commit_record w_r path (set_crypto r st (rc_CryptoAtUnix r)) j1 with
            | (Ok _, j') => (Ok tt, j') | (Err e, j') => (Err e, j') end)) = jr_outbox j1) as Hm.
  { intros st j1. unfold commit_record. by destruct (file_replace _ _ _ _) as [[]]. }
  unfold resolveStaged. cbv zeta. destruct (negb _); [apply Hm|]. destruct (currentSession _ j) as [current|]; [|done].
  destruct (_ =? rc_ExpectedGen r).
  - destruct (Record_NextState r) as [next|]; [|apply Hm].
    pose proof (writeSessionInbound_outbox w_s (rc_SessionID r) (rc_AlgorithmID r) (u64 (rc_ExpectedGen r + 1)) next
      (rc_EventID r) (rc_SessionAuthority r) (rc_CryptoAtUnix r) j) as H.
    destruct (writeSessionInbound _ _ _ _ _ _ _ _ j) as [[] j1]; [|done]. by rewrite Hm.
  - destruct (_ && _); apply Hm.
Qed.

Lemma recover_loop_outbox ws_s ws_r names j : jr_outbox (snd (recover_loop ws_s ws_r names j)) = jr_outbox j.
Proof.
  revert j. induction names as [|n names IH]; intros j; cbn [recover_loop]; [done|].
  destruct (is_dir _ _); [apply IH|]. destruct (readRecord _ _) as [r|]; [|apply IH]. destruct (negb _); [apply IH|].
  pose proof (resolveStaged_outbox (ws_s n) (ws_r n) n r j) as H.
  destruct (resolveStaged _ _ _ _ _) as [[] j']; [|done]. rewrite IH. done.
Qed.

Lemma advanceInbound_outbox w_s w_r sid alg g next e a now fresh r j :
  jr_outbox (snd (advanceInbound w_s w_r sid alg g next e a now fresh r j)) = jr_outbox j.
Proof.
  unfold advanceInbound. destruct (_ && _); [done|]. destruct (currentSession sid j) as [current|]; [|done].
  destruct (negb _).
  - pose proof (commit_record_outbox w_r (inbound_path e) (set_crypto r CryptoAbandoned (rc_CryptoAtUnix r)) j) as H.
    by destruct (commit_record _ _ _ _) as [[] ?].
  - pose proof (writeSessionInbound_outbox w_s sid alg (u64 (g + 1)) next e a (u64 now) j) as H.
    destruct (writeSessionInbound _ _ _ _ _ _ _ _ j) as [[] j1]; [|done].
    pose proof (commit_record_outbox w_r (inbound_path e) (set_crypto r CryptoCommitted (u64 now)) j1) as H1.
    destruct (commit_record _ _ _ _) as [[] ?]; cbn in *; congruence.
Qed.

Lemma run_inbound_outbox j op : jr_outbox (run_inbound j op) = jr_outbox j.
Proof. pose proof (run_inbound_surroundings j op) as H. unfold surroundings in H. congruence. Qed.

Lemma CommitSealed_keeps w_s w_d sid alg g next id att ct now j r j' :
  CommitSealed w_s w_d sid alg g next id att ct now j = (r, j') ->
  files_kept kept (ob_files (jr_outbox j)) (ob_files (jr_outbox j')) /\
  (well_filed (ob_files (jr_outbox j)) -> well_filed (ob_files (jr_outbox j'))).
Proof.
  unfold CommitSealed. intros [[-> _]|(_ & _ & E)]%checked_cases; [done|].
  destruct (readDelivery _ _) as [d|] eqn:Hd; [|by simplify_eq]. destruct (sealable _ _ _ d) as [[]|] eqn:Hs; [|by simplify_eq].
  assert (dl_CiphertextBase64 d = "") as Hc by (unfold sealable in Hs; inv_ok Hs; by breflect).
  unfold advanceSession, writeSessionAt in E. destruct (currentSession sid j) as [current|]; [|by simplify_eq].
  destruct (negb (generation_of current =? g)); [by simplify_eq|].
  pose proof (writeSessionInbound_outbox w_s sid alg (u64 (g + 1)) next "" None (u64 now) j) as H.
  destruct (writeSessionInbound _ _ _ _ _ _ _ _ j) as [[] j1]; cbn in H; [|simplify_eq; by rewrite H].
  unfold commitDelivery in E. rewrite H in E. destruct (file_replace _ _ _ _) as [x files] eqn:Hf.
  apply file_replace_cases in Hf as [[-> _]|[-> _]].
  - by destruct x; simplify_eq.
  - destruct x; simplify_eq; by apply sealed_keeps.
Qed.

Lemma run_session_extends j op : extends j (run_session j op).
Proof.
  destruct (session_writes_kept _ _ (run_session_sessions j op)) as [H1 H2].
  assert (files_kept kept (ob_files (jr_outbox j)) (ob_files (jr_outbox (run_session j op))) /\
    (well_filed (ob_files (jr_outbox j)) -> well_filed (ob_files (jr_outbox (run_session j op))))) as [H3 H4]; [|by constructor].
  clear H1 H2.
  destruct op as [w sid alg state now|w sid state b now|c sid alg g next entry a now|w_s w_r sid alg g next e a now f r
    |w_s w_d sid alg g next d att ct now|ws_s ws_r|op|op]; cbn [run_session].
  - unfold PutSessionState. destruct (checked _ _ _) as [x j'] eqn:E. cbn [snd].
    apply checked_cases in E as [[-> _]|(_ & _ & E)]; [done|]. unfold writeSession, writeSessionAt in E.
    destruct (currentSession sid j) as [current|]; [|by simplify_eq].
    pose proof (writeSessionInbound_outbox w sid alg (u64 (generation_of current + 1)) state "" None (u64 now) j) as H.
    rewrite E in H. cbn in H. by rewrite H.
  - unfold PutBootstrappedSessionState. destruct (checked _ _ _) as [x j'] eqn:E. cbn [snd].
    apply checked_cases in E as [[-> _]|(_ & _ & E)]; [done|].
    destruct (EncodeFirstContactJSON b) as [raw|]; [|by simplify_eq].
    destruct (readSession _ _) as [|err]; [by simplify_eq|]. destruct (negb _); [by simplify_eq|].
    unfold replace_session in E. destruct (file_replace _ _ _ _) as [x' files]. by simplify_eq.
  - unfold stageInbound. destruct (checked _ _ _) as [x j'] eqn:E. cbn [snd].
    apply checked_cases in E as [[-> _]|(_ & _ & E)]; [done|].
    pose proof (run_inbound_outbox j (OpAccept c (with_transition entry (MkTransition sid alg g next a)))) as H.
    cbn [run_inbound] in H. rewrite E in H. cbn in H. by rewrite H.
  - by rewrite advanceInbound_outbox.
  - destruct (CommitSealed _ _ _ _ _ _ _ _ _ _ j) as [x j'] eqn:E. by apply CommitSealed_keeps in E.
  - unfold recoverStaged. by rewrite recover_loop_outbox.
  - by rewrite run_inbound_outbox.
  - cbn. apply run_delivery_keeps.
Qed.

Lemma run_sessions_extends ops j : extends j (run_sessions ops j).
Proof.
  revert j. induction ops as [|op ops IH]; intros j; [done|]. cbn. etrans; [apply run_session_extends|apply IH].
Qed.

(** ** What is on the wire, and under which key *)

(** The message for [key] as the records in the journal give it. *)
Definition committed (key : string) (m : Message) (j : Journal) : Prop :=
  exists d s ct bs,
    ob_files (jr_outbox j) !! deliveryPath key = Some (ERec d) /\ Delivery_Ciphertext d = Ok (Some ct) /\
    jr_sessions j !! sessionPath (dl_SessionID d) = Some (ERec s) /\ bootstrap_bytes s = inr bs /\
    m = message_for d bs ct.

(** The delivery [key] is sealed as [ct]. *)
Definition sealed_as (key : string) (ct : bytes) (j : Journal) : Prop :=
  exists d, ob_files (jr_outbox j) !! deliveryPath key = Some (ERec d) /\ Delivery_Ciphertext d = Ok (Some ct).

(** The session of a seal has left the generation the seal was made from. *)
Definition seal_past (e : Seal) (j : Journal) : Prop :=
  exists s, jr_sessions j !! sessionPath (se_SessionID e) = Some (ERec s) /\
    (se_Generation e < sn_Generation s \/ sn_Generation s = 0).

Definition seal_slot (e : Seal) : string * Z := (se_SessionID e, se_Generation e).

Record desk_sound (w : Desk) : Prop := {
  ds_typed : typed_sessions (jr_sessions (dk_journal w));
  ds_filed : well_filed (ob_files (jr_outbox (dk_journal w)));
  ds_sent : forall k m, (k, m) ∈ dk_sent w -> committed k m (dk_journal w);
  ds_past : forall e, e ∈ dk_seals w -> seal_past e (dk_journal w);
  ds_sealed : forall e, e ∈ dk_seals w -> sealed_as (se_Key e) (se_Ciphertext e) (dk_journal w);
  ds_slots : NoDup (seal_slot <$> dk_seals w);
  ds_keys : NoDup (se_Key <$> dk_seals w);
}.

Lemma session_kept_bootstrap s s' : session_kept s s' -> bootstrap_bytes s' = bootstrap_bytes s.
Proof. intros (H1 & H2 & _). unfold bootstrap_bytes, Session_Bootstrap. by rewrite H1, H2. Qed.

Lemma committed_extends k m j j' : extends j j' -> committed k m j -> committed k m j'.
Proof.
  intros E (d & s & ct & bs & Hd & Hct & Hs & Hb & ->). destruct (ex_deliveries _ _ E _ _ Hd) as (d' & Hd' & Hk).
  destruct (ex_sessions _ _ E _ _ Hs) as (s' & Hs' & Hks). destruct (kept_same _ _ Hk) as (_ & Hsid & Hm).
  exists d', s', ct, bs. rewrite Hsid, Hm, (session_kept_bootstrap _ _ Hks). split_and!; try done. by apply (kept_ciphertext d).
Qed.

Lemma sealed_as_extends k ct j j' : extends j j' -> sealed_as k ct j -> sealed_as k ct j'.
Proof.
  intros E (d & Hd & Hct). destruct (ex_deliveries _ _ E _ _ Hd) as (d' & Hd' & Hk). exists d'. split; [done|].
  by apply (kept_ciphertext d).
Qed.

Lemma seal_past_extends e j j' : typed_sessions (jr_sessions j) -> extends j j' -> seal_past e j -> seal_past e j'.
Proof.
  intros Ht E (s & Hs & Hp). destruct (ex_sessions _ _ E _ _ Hs) as (s' & Hs' & _ & _ & Hk). exists s'. split; [done|].
  destruct (Hk (Ht _ _ Hs)) as [_ Hl]. unfold later in Hl. lia.
Qed.

Lemma desk_sound_extends w j : desk_sound w -> extends (dk_journal w) j -> desk_sound (with_journal w j).
Proof.
  intros [H1 H2 H3 H4 H5 H6 H7] E. constructor; cbn; auto.
  - by apply E.
  - by apply E.
  - intros k m Hm. by apply (committed_extends _ _ _ _ E), H3.
  - intros e He. by apply (seal_past_extends _ _ _ H1 E), H4.
  - intros e He. by apply (sealed_as_extends _ _ _ _ E), H5.
Qed.

Lemma with_journal_journal w : with_journal w (dk_journal w) = w.
Proof. by destruct w. Qed.

(** What a delivery that is being attempted looks like later. *)
Definition in_hand (d : Delivery) (j : Journal) : Prop :=
  exists d', ob_files (jr_outbox j) !! deliveryPath (Delivery_Key d) = Some (ERec d') /\ kept d d'.

Lemma in_hand_extends d j j' : extends j j' -> in_hand d j -> in_hand d j'.
Proof.
  intros E (d' & Hd' & Hk). destruct (ex_deliveries _ _ E _ _ Hd') as (d2 & Hd2 & Hk2). exists d2. split; [done|].
  by transitivity d'.
Qed.

(** A desk reached from [w] by a dispatcher, with the logs grown. *)
Definition moved (w w' : Desk) : Prop := (desk_sound w -> desk_sound w') /\ extends (dk_journal w) (dk_journal w').

#[global] Instance moved_preorder : PreOrder moved.
Proof.
  split; [by intros w|]. intros a b c [A1 A2] [B1 B2]. split; [by auto|]. by transitivity (dk_journal b).
Qed.

Lemma moved_journal w j : extends (dk_journal w) j -> moved w (with_journal w j).
Proof. intros E. split; [|done]. intros Hw. by apply desk_sound_extends. Qed.

Lemma interfere_moved s p w : moved w (interfere s p w).
Proof. apply moved_journal, run_sessions_extends. Qed.

Lemma on_outbox_moved op w {A} (f : action Outbox A) :
  (forall o, snd (f o) = run_delivery o op) -> moved w (snd (on_outbox f w)).
Proof.
  intros Hf. unfold on_outbox. specialize (Hf (jr_outbox (dk_journal w))). destruct (f _) as [r o]. cbn in *.
  apply moved_journal. rewrite Hf. apply (run_session_extends _ (SOutbound op)).
Qed.

Lemma moved_sound w w' : moved w w' -> desk_sound w -> desk_sound w'.
Proof. by intros [H _]. Qed.

(** *** Sealing *)

Lemma b64_encode_empty b : b64_encode b = "" -> b = [].
Proof. intros H. pose proof (b64_decode_encode b) as E. rewrite H in E. vm_compute in E. congruence. Qed.

Lemma set_ciphertext_reads d ct : ct <> [] -> Delivery_Ciphertext (set_ciphertext d ct) = Ok (Some ct).
Proof.
  intros Hc. unfold Delivery_Ciphertext, set_ciphertext. cbn [dl_CiphertextBase64 dl_CiphertextDigest].
  destruct (String.eqb_spec (b64_encode ct) "") as [E|_]; [by apply b64_encode_empty in E|].
  by rewrite b64_decode_encode, String.eqb_refl.
Qed.

Lemma CommitSealed_Ok w_s w_d sid alg g next id att ct now j d' j' :
  CommitSealed w_s w_d sid alg g next id att ct now j = (Ok d', j') ->
  exists d current s, currentSession sid j = Ok current /\ generation_of current = g /\
    readDelivery (ob_files (jr_outbox j)) (deliveryPath id) = Ok d /\ dl_CiphertextBase64 d = "" /\
    dl_SessionID d = sid /\ sn_Generation s = u64 (g + 1) /\
    jr_sessions j' !! sessionPath sid = Some (ERec s) /\
    ob_files (jr_outbox j') !! deliveryPath id = Some (ERec (set_ciphertext d ct)) /\ ct <> [].
Proof.
  unfold CommitSealed. intros H. apply checked_cases in H as [[_ [=]]|(_ & [u Hc] & H)]. inv_ok Hc. breflect.
  destruct (readDelivery _ _) as [d|] eqn:Hd; [|done]. destruct (sealable sid att now d) as [[]|] eqn:Hs; [|done].
  unfold advanceSession, writeSessionAt in H. destruct (currentSession sid j) as [current|] eqn:Hcur; [|done].
  destruct (negb (generation_of current =? g)) eqn:Hg; [done|].
  destruct (writeSessionInbound _ _ _ _ _ _ _ _ j) as [x j1] eqn:Hw.
  destruct (writeSessionInbound_cases _ _ _ _ _ _ _ _ _ _ _ _ Hw Hcur) as [[-> Hx]|(s & Hn & ->)]; [by destruct x|].
  destruct x; [|done]. unfold commitDelivery in H. cbn [jr_outbox with_sessions] in H.
  destruct (file_replace w_d _ _ _) as [[] files] eqn:Hf; [|by simplify_eq]. apply file_replace_Ok in Hf as ->.
  exists d, current, s. simplify_eq. cbn. rewrite !lookup_insert_eq.
  assert (generation_of current = g) as <- by lia. unfold sealable in Hs. inv_ok Hs. breflect.
  split_and!; try done; [by apply (next_session_follows _ _ _ _ _ _ _ _ _ Hn)|].
  intros ->. done.
Qed.

Lemma SessionState_reads sid j s : SessionState sid j = Ok (Some s) -> readSession (jr_sessions j) (sessionPath sid) = Ok s.
Proof.
  unfold SessionState. intros H. inv_ok H. destruct (readSession _ _) as [x|e]; [by simplify_eq|].
  by destruct (bool_decide _).
Qed.

(** A seal that is committed from the generation that was read keeps the logs right. *)
Lemma seal_logged w w_s w_d sid alg g next key att ct now d' j' :
  CommitSealed w_s w_d sid alg g next key att ct now (dk_journal w) = (Ok d', j') -> g <> 0 ->
  moved w (log_seal (MkSeal sid g key ct) (with_journal w j')).
Proof.
  intros H Hg.
  assert (extends (dk_journal w) j') as E.
  { pose proof (run_session_extends (dk_journal w) (SSealed w_s w_d sid alg g next key att ct now)) as E.
    cbn [run_session] in E. by rewrite H in E. }
  destruct (CommitSealed_Ok _ _ _ _ _ _ _ _ _ _ _ _ _ H) as (d & current & s & Hc & Hgc & Hd & Hnc & _ & Hsg & Hs & Hf & Hct).
  split; [|done]. intros Hw. pose proof (desk_sound_extends w j' Hw E) as [S1 S2 S3 S4 S5 S6 S7]. constructor; cbn in *; try done.
  - intros e [He|He%list_elem_of_singleton]%elem_of_app; [by apply S4|]. subst e. exists s. split; [done|].
    apply currentSession_cases in Hc. destruct current as [old|]; [|cbn in Hgc; congruence].
    apply readSession_file in Hc as [Hc _]. cbn [generation_of] in Hgc. subst g. cbn [se_Generation].
    pose proof (ds_typed _ Hw _ _ Hc) as Hu. rewrite Hsg. destruct (u64_succ _ Hu); lia.
  - intros e [He|He%list_elem_of_singleton]%elem_of_app; [by apply S5|]. subst e. exists (set_ciphertext d ct).
    split; [done|by apply set_ciphertext_reads].
  - rewrite fmap_app. apply NoDup_app. split_and!; [done| |apply NoDup_singleton].
    intros x (e & -> & He)%list_elem_of_fmap Hx. apply list_elem_of_singleton in Hx. unfold seal_slot in Hx. cbn in Hx.
    injection Hx as Hx1 Hx2. destruct (ds_past _ Hw _ He) as (s0 & Hs0 & Hp). rewrite Hx1 in Hs0. rewrite Hx2 in Hp.
    apply currentSession_cases in Hc. destruct current as [old|]; [|congruence].
    apply readSession_file in Hc as [Hc Hck]. cbn [generation_of] in Hgc. assert (s0 = old) as -> by congruence. lia.
  - rewrite fmap_app. apply NoDup_app. split_and!; [done| |apply NoDup_singleton].
    intros x (e & -> & He)%list_elem_of_fmap Hx. apply list_elem_of_singleton in Hx. cbn in Hx.
    destruct (ds_sealed _ Hw _ He) as (d0 & Hd0 & Hct0). rewrite Hx in Hd0. apply readDelivery_file in Hd as [Hd _].
    assert (d0 = d) as -> by congruence. unfold Delivery_Ciphertext in Hct0. by rewrite Hnc in Hct0.
Qed.

(** Sealing moves the desk, and when it succeeds the delivery is sealed. *)
Lemma seal_moved suite bindings s d att now w r w' :
  seal suite bindings s d att now w = (r, w') ->
  moved w w' /\ forall ct, r = inr ct -> sealed_as (Delivery_Key d) ct (dk_journal w').
Proof.
  unfold seal. cbv zeta. intros H. set (w1 := interfere s BeforeSeal w) in *.
  assert (moved w w1) as M1 by apply interfere_moved.
  destruct (SessionState _ _) as [[record|]|] eqn:Hs; [|by simplify_eq..].
  destruct (Session_State record) as [state|]; [|by simplify_eq].
  destruct (negb (String.eqb _ _)); [by simplify_eq|]. destruct (Delivery_Payload d) as [payload|]; [|by simplify_eq].
  set (w2 := interfere s BeforeBinding w1) in *. assert (moved w w2) as M2 by (etrans; [exact M1|apply interfere_moved]).
  destruct (bindings _ d) as [b|]; [|by simplify_eq]. destruct (Binding_Bytes b) as [associated|]; [|by simplify_eq].
  destruct (su_Seal suite _ state payload associated) as [[ct next]|]; [|by simplify_eq].
  set (w3 := interfere s BeforeCommit w2) in *. assert (moved w w3) as M3 by (etrans; [exact M2|apply interfere_moved]).
  destruct (CommitSealed _ _ _ _ _ _ _ _ _ _ _) as [[d'|e] j] eqn:HC.
  - simplify_eq. split.
    + etrans; [exact M3|]. apply (seal_logged _ _ _ _ _ _ _ _ _ _ _ _ _ HC).
      apply SessionState_reads, readSession_file in Hs as [_ Hs]. by apply check_session_generation.
    + intros ct' [= ->]. destruct (CommitSealed_Ok _ _ _ _ _ _ _ _ _ _ _ _ _ HC) as (x & _ & _ & _ & _ & _ & _ & _ & _ & _ & Hf & Hct).
      exists (set_ciphertext x ct'). split; [done|by apply set_ciphertext_reads].
  - simplify_eq. split; [|done]. etrans; [exact M3|]. apply moved_journal.
    pose proof (run_session_extends (dk_journal w3) (SSealed (sc_commit_session s) (sc_commit_delivery s) (dl_SessionID d)
      (sn_AlgorithmID record) (sn_Generation record) next (Delivery_Key d) att ct now)) as E.
    cbn [run_session] in E. by rewrite HC in E.
Qed.

(** *** Sending *)

(** Handing over the ciphertext a delivery is sealed with keeps the logs right. *)
Lemma send_logged d s ct bs w :
  in_hand d (dk_journal w) -> sealed_as (Delivery_Key d) ct (dk_journal w) ->
  jr_sessions (dk_journal w) !! sessionPath (dl_SessionID d) = Some (ERec s) -> bootstrap_bytes s = inr bs ->
  moved w (log_sent (Delivery_Key d) (message_for d bs ct) w).
Proof.
  intros (d1 & Hd1 & Hk) (d2 & Hd2 & Hct) Hs Hb. assert (d2 = d1) as -> by congruence. split; [|done].
  intros [S1 S2 S3 S4 S5 S6 S7]. constructor; try done. cbn. intros k m [Hm|Hm%list_elem_of_singleton]%elem_of_app; [by apply S3|].
  injection Hm as -> ->. destruct (kept_same _ _ Hk) as (_ & Hsid & Hmsg). exists d1, s, ct, bs. by rewrite Hsid, Hmsg.
Qed.

Lemma send_sealed_moved s d att ct w r w' :
  send_sealed s d att ct w = (r, w') -> in_hand d (dk_journal w) -> sealed_as (Delivery_Key d) ct (dk_journal w) ->
  moved w w'.
Proof.
  unfold send_sealed. cbv zeta. intros H Hh Hc. set (w1 := interfere s BeforeBootstrap w) in *.
  assert (moved w w1) as M1 by apply interfere_moved. pose proof (in_hand_extends _ _ _ (proj2 M1) Hh) as Hh1.
  pose proof (sealed_as_extends _ _ _ _ (proj2 M1) Hc) as Hc1.
  destruct (SessionState _ _) as [[record|]|] eqn:Hs; [|by simplify_eq..].
  apply SessionState_reads, readSession_file in Hs as [Hs _].
  destruct (bootstrap_bytes record) as [e|bs] eqn:Hb; [by simplify_eq|].
  assert (moved w (log_sent (Delivery_Key d) (message_for d bs ct) w1)) as M2
    by (etrans; [exact M1|by apply (send_logged d record)]).
  set (w2 := log_sent _ _ w1) in *. set (w3 := interfere s DuringSend w2) in *.
  assert (moved w w3) as M3 by (etrans; [exact M2|apply interfere_moved]).
  destruct (sc_send s); [by simplify_eq|].
  pose proof (on_outbox_moved (OpDelivered (sc_delivered s) (Delivery_Key d) att (sc_delivered_at s)) w3
    (Delivered (sc_delivered s) (Delivery_Key d) att (sc_delivered_at s)) (fun o => eq_refl)) as M4.
  destruct (on_outbox _ w3) as [[] w4]; simplify_eq; by transitivity w3.
Qed.

Lemma attempt_moved suite bindings s d att now w r w' :
  attempt suite bindings s d att now w = (r, w') -> in_hand d (dk_journal w) -> moved w w'.
Proof.
  unfold attempt. intros H Hh. destruct (Delivery_Ciphertext d) as [[ct|]|] eqn:Hct; [| |by simplify_eq].
  - destruct (send_sealed s d att ct w) as [e w1] eqn:Hs. simplify_eq. apply (send_sealed_moved _ _ _ _ _ _ _ Hs Hh).
    destruct Hh as (d' & Hd' & Hk). exists d'. split; [done|by apply (kept_ciphertext d)].
  - destruct (seal _ _ _ _ _ _ _) as [[e|ct] w1] eqn:Hs; [by simplify_eq; apply seal_moved in Hs as [? _]|].
    apply seal_moved in Hs as [M1 Hc]. destruct (send_sealed s d att ct w1) as [e w2] eqn:Hs. simplify_eq.
    etrans; [exact M1|]. apply (send_sealed_moved _ _ _ _ _ _ _ Hs); [|by apply Hc].
    by apply (in_hand_extends _ _ _ (proj2 M1)).
Qed.

(** *** The sweep *)

Lemma ClaimForSend_in_hand w key att now lease o d o' :
  ClaimForSend w key att now lease o = (Ok d, o') -> well_filed (ob_files o) ->
  ob_files o' !! deliveryPath (Delivery_Key d) = Some (ERec d).
Proof.
  unfold ClaimForSend. cbv zeta. intros H Hwf.
  apply guarded_transition in H as [[_ [=]]|(_ & u & x & y & _ & Hr & Hd & Hj)].
  destruct Hj as [[-> [Hok|[=]]]|[_ [=]]]. apply Ok_inj in Hok as <-. cbn.
  unfold claim_decision in Hd. inv_ok Hd. apply Ok_inj in Hd as <-.
  change (Delivery_Key (set_attempt x _ _)) with (Delivery_Key x). rewrite (Hwf _ _ Hr). by rewrite lookup_insert_eq.
Qed.

Lemma sweep_loop_moved suite bindings lease now scripts due summary w :
  desk_sound w -> moved w (snd (sweep_loop suite bindings lease now scripts due summary w)).
Proof.
  revert scripts summary w. induction due as [|d due IH]; intros scripts summary w Hw; cbn [sweep_loop]; [done|].
  cbv zeta. destruct (sc_context _); [done|]. destruct (newAttemptID _) as [att|]; [|done].
  set (w1 := interfere (scripts O) BeforeClaim w). assert (moved w w1) as M1 by apply interfere_moved.
  pose proof (moved_sound _ _ M1 Hw) as Hw1.
  pose proof (on_outbox_moved (Delivery.OpClaim (sc_claim (scripts O)) (Delivery_Key d) att now lease) w1
    (ClaimForSend (sc_claim (scripts O)) (Delivery_Key d) att now lease) (fun o => eq_refl)) as M2.
  destruct (on_outbox (ClaimForSend _ _ _ _ _) w1) as [[claimed|e] w2] eqn:Hc; cbn [snd] in M2.
  2:{ pose proof (moved_sound _ _ M2 Hw1) as Hw2. etrans; [exact M1|]. etrans; [exact M2|]. by apply IH. }
  pose proof (moved_sound _ _ M2 Hw1) as Hw2.
  assert (in_hand claimed (dk_journal w2)) as Hh.
  { unfold on_outbox in Hc. destruct (ClaimForSend _ _ _ _ _ _) as [[x|] o] eqn:Hcl; simplify_eq.
    apply ClaimForSend_in_hand in Hcl; [|apply Hw1]. by exists claimed. }
  destruct (attempt _ _ _ _ _ _ w2) as [[sealed err] w3] eqn:Ha. apply attempt_moved in Ha as M3; [|done].
  pose proof (moved_sound _ _ M3 Hw2) as Hw3. etrans; [exact M1|]. etrans; [exact M2|]. etrans; [exact M3|].
  destruct err as [e|]; [|by apply IH].
  set (w4 := interfere (scripts O) BeforeFailed w3). assert (moved w3 w4) as M4 by apply interfere_moved.
  pose proof (moved_sound _ _ M4 Hw3) as Hw4. etrans; [exact M4|].
  pose proof (on_outbox_moved (OpFailed (sc_failed (scripts O)) (Delivery_Key d) att (CodeOf e) (sc_failed_at (scripts O))) w4
    (Failed (sc_failed (scripts O)) (Delivery_Key d) att (CodeOf e) (sc_failed_at (scripts O))) (fun o => eq_refl)) as M5.
  destruct (on_outbox (Failed _ _ _ _ _) w4) as [[settled|e'] w5]; cbn [snd] in M5 |- *; [|exact M5].
  etrans; [exact M5|]. by apply IH, (moved_sound w4).
Qed.

Lemma Sweep_moved d now limit scripts w : desk_sound w -> moved w (snd (Sweep d now limit scripts w)).
Proof.
  intros Hw. unfold Sweep. destruct (cf_Suite _) as [suite|]; [|done]. destruct (cf_Sender _); [|done].
  destruct (cf_Bindings _) as [bindings|]; [|done]. destruct (time_invalid now); [done|].
  destruct (Due _ _); [|done]. by apply sweep_loop_moved.
Qed.

(** *** Queueing *)

Lemma Enqueue_moved c request w : moved w (snd (on_outbox (Enqueue c request) w)).
Proof. by apply (on_outbox_moved (OpEnqueue c request)). Qed.

Lemma act_bind_moved {A B} (f : action Desk A) (g : A -> action Desk B) w :
  moved w (snd (f w)) -> (forall a w', moved w' (snd (g a w'))) -> moved w (snd (act_bind f g w)).
Proof.
  intros Hf Hg. unfold act_bind. destruct (f w) as [[a|e] w']; cbn in Hf; [|done]. etrans; [exact Hf|apply Hg].
Qed.

Lemma compositions_moved w files : moved w (with_compositions w files).
Proof. split; [|done]. intros [H1 H2 H3 H4 H5 H6 H7]. by constructor. Qed.

Lemma ClaimOutboundComposition_moved c k i request w : moved w (snd (ClaimOutboundComposition c k i request w)).
Proof.
  unfold ClaimOutboundComposition. destruct (journal_usable _); [|done]. destruct (negb _); [done|]. destruct (negb _); [done|].
  destruct (validateOutbound _); [|done]. destruct (file_create _ _ _ _) as [[] files]; [apply compositions_moved|].
  destruct (negb _); [apply compositions_moved|]. destruct (read_composition _ _) as [[chosen intent]|]; [|done].
  by destruct (negb _).
Qed.

(** ** A sweep is a sequence of journal operations *)

(** The operations a sweep performs itself. *)
Definition own_op (op : session_op) : bool :=
  match op with
  | SSealed _ _ _ _ _ _ _ _ _ _ => true
  | SOutbound (Delivery.OpClaim _ _ _ _ _) | SOutbound (OpFailed _ _ _ _ _) | SOutbound (OpDelivered _ _ _ _) => true
  | _ => false
  end.

Section Acted.
Context (P : session_op -> Prop) (P_own : forall op, own_op op = true -> P op).

(** From [w] to [w'] by operations that satisfy [P], leaving the compositions alone. *)
Definition acted (w w' : Desk) : Prop :=
  dk_compositions w' = dk_compositions w /\
  exists ops, Forall P ops /\ dk_journal w' = run_sessions ops (dk_journal w).

#[local] Instance acted_preorder : PreOrder acted.
Proof.
  split; [by intros w; split; [done|exists []]|]. intros a b c [A (ops1 & P1 & E1)] [B (ops2 & P2 & E2)].
  split; [congruence|]. exists (ops1 ++ ops2). split; [by apply Forall_app|].
  unfold run_sessions. rewrite foldl_app. fold (run_sessions ops1 (dk_journal a)). by rewrite <- E1.
Qed.

Lemma acted_op w op : P op -> acted w (with_journal w (run_session (dk_journal w) op)).
Proof. intros H. split; [done|]. exists [op]. split; [by repeat constructor|done]. Qed.

Lemma interfere_acted s p w : Forall P (sc_others s p) -> acted w (interfere s p w).
Proof. intros H. split; [done|]. by exists (sc_others s p). Qed.

Lemma on_outbox_acted op w {A} (f : action Outbox A) :
  P (SOutbound op) -> (forall o, snd (f o) = run_delivery o op) -> acted w (snd (on_outbox f w)).
Proof.
  intros HP Hf. unfold on_outbox. specialize (Hf (jr_outbox (dk_journal w))). destruct (f _) as [r o]. cbn in *. subst o.
  by apply (acted_op w (SOutbound op)).
Qed.

Lemma seal_acted suite bindings s d att now w r w' :
  (forall p, Forall P (sc_others s p)) -> seal suite bindings s d att now w = (r, w') -> acted w w'.
Proof.
  intros HP. unfold seal. cbv zeta. intros H. set (w1 := interfere s BeforeSeal w) in *.
  assert (acted w w1) as M1 by (by apply interfere_acted).
  destruct (SessionState _ _) as [[record|]|]; [|by simplify_eq..].
  destruct (Session_State record) as [state|]; [|by simplify_eq].
  destruct (negb (String.eqb _ _)); [by simplify_eq|]. destruct (Delivery_Payload d) as [payload|]; [|by simplify_eq].
  set (w2 := interfere s BeforeBinding w1) in *. assert (acted w w2) as M2 by (etrans; [exact M1|by apply interfere_acted]).
  destruct (bindings _ d) as [b|]; [|by simplify_eq]. destruct (Binding_Bytes b) as [associated|]; [|by simplify_eq].
  destruct (su_Seal suite _ state payload associated) as [[ct next]|]; [|by simplify_eq].
  set (w3 := interfere s BeforeCommit w2) in *. assert (acted w w3) as M3 by (etrans; [exact M2|by apply interfere_acted]).
  pose proof (acted_op w3 (SSealed (sc_commit_session s) (sc_commit_delivery s) (dl_SessionID d)
      (sn_AlgorithmID record) (sn_Generation record) next (Delivery_Key d) att ct now) ltac:(by apply P_own)) as M4.
  cbn [run_session] in M4. destruct (CommitSealed _ _ _ _ _ _ _ _ _ _ _) as [[d'|e] j]; simplify_eq; by transitivity w3.
Qed.

Lemma send_sealed_acted s d att ct w r w' :
  (forall p, Forall P (sc_others s p)) -> send_sealed s d att ct w = (r, w') -> acted w w'.
Proof.
  intros HP. unfold send_sealed. cbv zeta. intros H. set (w1 := interfere s BeforeBootstrap w) in *.
  assert (acted w w1) as M1 by (by apply interfere_acted).
  destruct (SessionState _ _) as [[record|]|]; [|by simplify_eq..].
  destruct (bootstrap_bytes record) as [e|bs]; [by simplify_eq|].
  set (w2 := log_sent _ _ w1) in *. assert (acted w w2) as M2 by exact M1. set (w3 := interfere s DuringSend w2) in *.
  assert (acted w w3) as M3 by (etrans; [exact M2|by apply interfere_acted]). destruct (sc_send s); [by simplify_eq|].
  pose proof (on_outbox_acted (OpDelivered (sc_delivered s) (Delivery_Key d) att (sc_delivered_at s)) w3
    (Delivered (sc_delivered s) (Delivery_Key d) att (sc_delivered_at s)) ltac:(by apply P_own) (fun o => eq_refl)) as M4.
  destruct (on_outbox _ w3) as [[] w4]; simplify_eq; by transitivity w3.
Qed.

Lemma attempt_acted suite bindings s d att now w r w' :
  (forall p, Forall P (sc_others s p)) -> attempt suite bindings s d att now w = (r, w') -> acted w w'.
Proof.
  intros HP. unfold attempt. intros H. destruct (Delivery_Ciphertext d) as [[ct|]|]; [| |by simplify_eq].
  - destruct (send_sealed s d att ct w) as [e w1] eqn:Hs. simplify_eq. by apply (send_sealed_acted _ _ _ _ _ _ _ HP Hs).
  - destruct (seal _ _ _ _ _ _ _) as [[e|ct] w1] eqn:Hs; [simplify_eq; by apply (seal_acted _ _ _ _ _ _ _ _ _ HP Hs)|].
    apply (seal_acted _ _ _ _ _ _ _ _ _ HP) in Hs. destruct (send_sealed s d att ct w1) as [e w2] eqn:Hs2. simplify_eq.
    etrans; [exact Hs|]. by apply (send_sealed_acted _ _ _ _ _ _ _ HP Hs2).
Qed.

Lemma sweep_loop_acted suite bindings lease now scripts due summary w :
  (forall i p, Forall P (sc_others (scripts i) p)) -> acted w (snd (sweep_loop suite bindings lease now scripts due summary w)).
Proof.
  revert scripts summary w. induction due as [|d due IH]; intros scripts summary w HP; cbn [sweep_loop]; [done|].
  assert (forall i p, Forall P (sc_others (scripts (S i)) p)) as HP' by (intros; apply HP).
  cbv zeta. destruct (sc_context _); [done|]. destruct (newAttemptID _) as [att|]; [|done].
  set (w1 := interfere (scripts O) BeforeClaim w). assert (acted w w1) as M1 by (by apply interfere_acted).
  pose proof (on_outbox_acted (Delivery.OpClaim (sc_claim (scripts O)) (Delivery_Key d) att now lease) w1
    (ClaimForSend (sc_claim (scripts O)) (Delivery_Key d) att now lease) ltac:(by apply P_own) (fun o => eq_refl)) as M2.
  etrans; [exact M1|]. destruct (on_outbox (ClaimForSend _ _ _ _ _) w1) as [[claimed|e] w2]; cbn [snd] in M2;
    (etrans; [exact M2|]); [|by apply IH].
  destruct (attempt _ _ _ _ _ _ w2) as [[sealed err] w3] eqn:Ha. apply attempt_acted in Ha; [|by intros; apply HP].
  etrans; [exact Ha|]. destruct err as [e|]; [|by apply IH].
  set (w4 := interfere (scripts O) BeforeFailed w3). etrans; [by apply (interfere_acted (scripts O) BeforeFailed)|]. fold w4.
  pose proof (on_outbox_acted (OpFailed (sc_failed (scripts O)) (Delivery_Key d) att (CodeOf e) (sc_failed_at (scripts O))) w4
    (Failed (sc_failed (scripts O)) (Delivery_Key d) att (CodeOf e) (sc_failed_at (scripts O))) ltac:(by apply P_own)
    (fun o => eq_refl)) as M5.
  destruct (on_outbox (Failed _ _ _ _ _) w4) as [[settled|e'] w5]; cbn [snd] in M5 |- *; [|exact M5].
  etrans; [exact M5|]. by apply IH.
Qed.

Lemma Sweep_acted d now limit scripts w :
  (forall i p, Forall P (sc_others (scripts i) p)) -> acted w (snd (Sweep d now limit scripts w)).
Proof.
  intros HP. unfold Sweep. destruct (cf_Suite _) as [suite|]; [|done]. destruct (cf_Sender _); [|done].
  destruct (cf_Bindings _) as [bindings|]; [|done]. destruct (time_invalid now); [done|].
  destruct (Due _ _); [|done]. by apply sweep_loop_acted.
Qed.
End Acted.

(** ** Histories of a dispatcher *)

Section Histories.
Context `{PR : Protocol} `{AF : AttachmentFormats}.

Lemma claim_event_moved c k i event request w : moved w (snd (claim_event c k i event request w)).
Proof.
  unfold claim_event. apply act_bind_moved; [apply ClaimOutboundComposition_moved|].
  intros [chosen []] w'; [done|]. by apply act_bind_moved.
Qed.

Lemma claim_and_queue_moved c1 c2 k i event request w : moved w (snd (claim_and_queue c1 c2 k i event request w)).
Proof.
  unfold claim_and_queue. apply act_bind_moved; [apply claim_event_moved|].
  intros [[e chosen] fresh] w'. apply act_bind_moved; [apply Enqueue_moved|done].
Qed.

Lemma queue_copies_moved cs event stored now expires targets w :
  moved w (snd (queue_copies cs event stored now expires targets w)).
Proof.
  revert cs w. induction targets as [|t targets IH]; intros cs w; cbn [queue_copies]; [done|].
  apply act_bind_moved; [done|]. intros copyID w'. apply act_bind_moved; [apply Enqueue_moved|].
  intros x w''. apply act_bind_moved; [apply IH|done].
Qed.

Lemma run_desk_moved d w op : desk_sound w -> moved w (run_desk d w op).
Proof.
  intros Hw. destruct op as [now c event sid endpoint expires|now cs event targets expires|now c1 c2 r|now c1 c2 r|now c r
    |now c1 c2 r|now limit scripts|op]; cbn [run_desk].
  - unfold Queue. apply act_bind_moved; [done|]. intros; apply Enqueue_moved.
  - unfold QueueCopies. apply act_bind_moved; [done|]. intros stored w'. destruct (_ || _); [done|]. apply queue_copies_moved.
  - unfold ComposeAndQueue. destruct (compose_event _ _ _ _) as [[[n event] encoded]|]; [|done]. apply claim_and_queue_moved.
  - unfold ComposeProtocolResultAndQueue. apply act_bind_moved; [done|]. intros [[n event] encoded] w'.
    apply claim_and_queue_moved.
  - unfold PrepareEncryptedAttachment. apply act_bind_moved; [done|]. intros [event encoded] w'.
    apply act_bind_moved; [apply claim_event_moved|]. by intros [[e chosen] fresh] w''.
  - unfold ComposeHistoryAndQueue. destruct (history_event _ _ _ _) as [[[[[n sid] page] event] encoded]|]; [|done].
    apply act_bind_moved; [apply ClaimOutboundComposition_moved|]. intros [chosen fresh] w1.
    apply act_bind_moved; [done|]. intros y w2. apply act_bind_moved; [apply Enqueue_moved|done].
  - by apply Sweep_moved.
  - apply moved_journal, run_session_extends.
Qed.

Lemma run_desks_moved d ops w : desk_sound w -> moved w (run_desks d ops w).
Proof.
  revert w. induction ops as [|op ops IH]; intros w Hw; [done|]. cbn. pose proof (run_desk_moved d w op Hw) as M.
  etrans; [exact M|]. by apply IH, (moved_sound w).
Qed.

(** A desk whose logs start here. *)
Definition fresh_desk (w : Desk) : Prop :=
  typed_sessions (jr_sessions (dk_journal w)) /\ well_filed (ob_files (jr_outbox (dk_journal w))) /\
  dk_seals w = [] /\ dk_sent w = [].

Lemma fresh_sound w : fresh_desk w -> desk_sound w.
Proof.
  intros (H1 & H2 & H3 & H4). constructor; rewrite ?H3, ?H4; try done; try (by intros ? ?%elem_of_nil);
    [by intros ? ? ?%elem_of_nil|constructor..].
Qed.

Lemma run_desks_sound d ops w : fresh_desk w -> desk_sound (run_desks d ops w).
Proof. intros H%fresh_sound. by apply (run_desks_moved d ops w). Qed.



(** ** Only this installation's events leave *)

(** An event this installation may send: it says it comes from here, its class is one the delegation allows, and it is
    not of a kind that exists only on the owner's interface. *)
Definition ours (d : Dispatcher) (raw : bytes) : Prop :=
  exists e, EncodeEventJSON e = Ok raw /\ ValidateEvent e = Ok tt /\
    ev_SenderAgentID e = di_AgentID (cf_Identity (dp_config d)) /\
    ev_SenderEndpointID e = di_EndpointID (cf_Identity (dp_config d)) /\
    ev_SenderDeviceID e = di_DeviceID (cf_Identity (dp_config d)) /\
    authorizedKind d (ev_Kind e) = true /\ LocalOnly (ev_Kind e) = false.

Definition all_ours (d : Dispatcher) (w : Desk) : Prop :=
  (forall name x, ob_files (jr_outbox (dk_journal w)) !! name = Some (ERec x) ->
     exists raw, dl_PayloadBase64 x = b64_encode raw /\ ours d raw) /\
  (forall name c, dk_compositions w !! name = Some (ERec c) ->
     exists raw, oc_PayloadBase64 c = b64_encode raw /\ ours d raw).

(** The journal operation does not queue behind the dispatcher's back. *)
Definition no_enqueue (op : session_op) : Prop := match op with SOutbound (OpEnqueue _ _) => False | _ => True end.

Definition through_dispatcher (op : desk_op) : Prop :=
  match op with
  | DJournal op => no_enqueue op
  | DSweep _ _ scripts => forall i p, Forall no_enqueue (sc_others (scripts i) p)
  | _ => True
  end.

Lemma own_no_enqueue op : own_op op = true -> no_enqueue op.
Proof. by destruct op as [| | | | | | |[]]. Qed.

(** Every record was there before, with its payload. *)
Lemma no_enqueue_origin j op name x' :
  no_enqueue op -> ob_files (jr_outbox (run_session j op)) !! name = Some (ERec x') ->
  exists x, ob_files (jr_outbox j) !! name = Some (ERec x) /\ dl_PayloadBase64 x' = dl_PayloadBase64 x.
Proof.
  destruct op as [w sid alg state now|w sid state b now|c sid alg g next entry a now|w_s w_r sid alg g next e a now f r
    |w_s w_d sid alg g next id att ct now|ws_s ws_r|op|op]; cbn [run_session]; intros Hop.
  - unfold PutSessionState. destruct (checked _ _ _) as [x j'] eqn:E. cbn [snd].
    apply checked_cases in E as [[-> _]|(_ & _ & E)]; [by eauto|]. unfold writeSession, writeSessionAt in E.
    destruct (currentSession sid j) as [current|]; [|simplify_eq; by eauto].
    pose proof (writeSessionInbound_outbox w sid alg (u64 (generation_of current + 1)) state "" None (u64 now) j) as H.
    rewrite E in H. cbn in H. rewrite H. by eauto.
  - unfold PutBootstrappedSessionState. destruct (checked _ _ _) as [x j'] eqn:E. cbn [snd].
    apply checked_cases in E as [[-> _]|(_ & _ & E)]; [by eauto|].
    destruct (EncodeFirstContactJSON b) as [raw|]; [|simplify_eq; by eauto].
    destruct (readSession _ _) as [|err]; [simplify_eq; by eauto|]. destruct (negb _); [simplify_eq; by eauto|].
    unfold replace_session in E. destruct (file_replace _ _ _ _) as [y files]. simplify_eq. by eauto.
  - unfold stageInbound. destruct (checked _ _ _) as [x j'] eqn:E. cbn [snd].
    apply checked_cases in E as [[-> _]|(_ & _ & E)]; [by eauto|].
    pose proof (run_inbound_outbox j (OpAccept c (with_transition entry (MkTransition sid alg g next a)))) as H.
    cbn [run_inbound] in H. rewrite E in H. cbn in H. rewrite H. by eauto.
  - rewrite advanceInbound_outbox. by eauto.
  - destruct (CommitSealed _ _ _ _ _ _ _ _ _ _ j) as [y j'] eqn:E. cbn [snd]. unfold CommitSealed in E.
    apply checked_cases in E as [[-> _]|(_ & _ & E)]; [by eauto|].
    destruct (readDelivery _ _) as [d|] eqn:Hd; [|simplify_eq; by eauto]. apply readDelivery_file in Hd as [Hd _].
    destruct (sealable _ _ _ d); [|simplify_eq; by eauto].
    unfold advanceSession, writeSessionAt in E. destruct (currentSession sid j) as [current|]; [|simplify_eq; by eauto].
    destruct (negb (generation_of current =? g)); [simplify_eq; by eauto|].
    pose proof (writeSessionInbound_outbox w_s sid alg (u64 (g + 1)) next "" None (u64 now) j) as H.
    destruct (writeSessionInbound _ _ _ _ _ _ _ _ j) as [[] j1]; cbn in H; [|simplify_eq; rewrite H; by eauto].
    unfold commitDelivery in E. rewrite H in E. destruct (file_replace _ _ _ _) as [z files] eqn:Hf.
    assert (files = ob_files (jr_outbox j) \/ files = <[deliveryPath id:=ERec (set_ciphertext d ct)]> (ob_files (jr_outbox j)))
      as [-> | ->] by (apply file_replace_cases in Hf as [[-> _]|[-> _]]; auto).
    + destruct z; simplify_eq; cbn; by eauto.
    + intros Hx. assert (<[deliveryPath id:=ERec (set_ciphertext d ct)]> (ob_files (jr_outbox j)) !! name = Some (ERec x'))
        as Hx' by (destruct z; simplify_eq; done).
      apply lookup_insert_Some in Hx' as [[<- [= <-]]|[_ Hx']]; [by exists d|by eauto].
  - unfold recoverStaged. rewrite recover_loop_outbox. by eauto.
  - rewrite run_inbound_outbox. by eauto.
  - cbn. intros Hx. destruct (run_delivery_step name (jr_outbox j) op) as [H|[(Ho & c & r & -> & _)|(d & y & Ho & Hck & Hy & He)]].
    + rewrite H in Hx. by eauto.
    + done.
    + rewrite Hx in Hy. injection Hy as <-. exists d. split; [done|].
      destruct (evolves_facts _ _ _ _ He) as (_ & Hb & _). exact (f_equal dl_PayloadBase64 Hb).
Qed.

Lemma no_enqueue_ours d w w' : all_ours d w -> acted no_enqueue w w' -> all_ours d w'.
Proof.
  intros [H1 H2] (Hc & ops & Hops & Hj). split; [|by rewrite Hc]. rewrite Hj. clear H2 Hc Hj.
  generalize dependent (dk_journal w). intros j. revert j. induction Hops as [|op ops Hop _ IH]; intros j H1; [done|].
  cbn. apply IH. intros name x' (x & Hx & ->)%no_enqueue_origin; [|done]. by apply (H1 name).
Qed.

Lemma all_ours_enqueue d w c request r w' :
  all_ours d w -> ours d (or_Payload request) -> on_outbox (Enqueue c request) w = (r, w') -> all_ours d w'.
Proof.
  intros [H1 H2] Ho E. unfold on_outbox in E. destruct (Enqueue c request _) as [y o] eqn:He. simplify_eq.
  split; [|done]. cbn. intros name x Hx. pose proof (Enqueue_file_step name _ _ _ _ _ He) as Hs. rewrite Hx in Hs.
  destruct Hs as [Hs|[(_ & c' & r' & [= <- <-] & _ & [?|[= ->]])|(a & b & _ & _ & _ & He')]].
  - by apply (H1 name).
  - done.
  - by exists (or_Payload request).
  - inversion He'.
Qed.

Lemma all_ours_claim d w c k i request chosen fresh w' :
  all_ours d w -> ours d (or_Payload request) ->
  ClaimOutboundComposition c k i request w = (Ok (chosen, fresh), w') -> all_ours d w' /\ ours d (or_Payload chosen).
Proof.
  intros [H1 H2] Ho. unfold ClaimOutboundComposition. destruct (journal_usable _); [|done]. destruct (negb _); [done|].
  destruct (negb _); [done|]. destruct (validateOutbound _); [|done]. unfold file_create.
  destruct (dk_compositions w !! compositionPath k) as [e|] eqn:Hk.
  - rewrite bool_decide_true by done. cbn [negb]. destruct (read_composition _ _) as [[x intent]|] eqn:Hr; [|done].
    destruct (negb _); [done|]. intros [= <- <- <-]. split; [done|]. unfold read_composition in Hr.
    destruct (read_file _ _ _) as [y|] eqn:Hf; [|done]. apply read_file_Ok in Hf. inv_ok_step Hr.
    destruct (H2 _ _ Hf) as (raw & Hraw & Hours). rewrite Hraw, b64_decode_encode in Hr. inv_ok_step Hr. by simplify_eq.
  - destruct c; try (by rewrite bool_decide_false by done). intros [= <- <- <-]. split; [|done]. split; [done|].
    cbn. intros name x [[<- [= <-]]|[_ Hx]]%lookup_insert_Some; [|by apply (H2 name)]. by exists (or_Payload request).
Qed.

(** A failed claim may leave the composition behind; it is of this installation too. *)
Lemma all_ours_claim_any d w c k i request r w' :
  all_ours d w -> ours d (or_Payload request) -> ClaimOutboundComposition c k i request w = (r, w') -> all_ours d w'.
Proof.
  intros [H1 H2] Ho. unfold ClaimOutboundComposition. destruct (journal_usable _); [|by intros [= _ <-]].
  destruct (negb _); [by intros [= _ <-]|]. destruct (negb _); [by intros [= _ <-]|].
  destruct (validateOutbound _); [|by intros [= _ <-]].
  destruct (file_create _ _ _ _) as [x files] eqn:Hf.
  assert (all_ours d (with_compositions w files)) as Hfiles.
  { split; [done|]. cbn. intros name y Hy. unfold file_create in Hf.
    destruct (dk_compositions w !! compositionPath k); [simplify_eq; by apply (H2 name)|].
    destruct c; simplify_eq; try (by apply (H2 name));
      apply lookup_insert_Some in Hy as [[_ [= <-]]|[_ Hy]]; try (by apply (H2 name)); by exists (or_Payload request). }
  destruct x; [by intros [= _ <-]|]. destruct (negb _); [by intros [= _ <-]|].
  destruct (read_composition _ _) as [[y intent]|]; [|by intros [= _ <-]]. by destruct (negb _); intros [= _ <-].
Qed.

Lemma claim_event_ours d w c k i event request r w' :
  all_ours d w -> ours d (or_Payload request) -> claim_event c k i event request w = (r, w') ->
  all_ours d w' /\ (forall e chosen fresh, r = Ok (e, chosen, fresh) -> ours d (or_Payload chosen)).
Proof.
  intros Hw Ho. unfold claim_event, act_bind. destruct (ClaimOutboundComposition c k i request w) as [[[chosen fresh]|e] w1] eqn:E.
  - destruct (all_ours_claim _ _ _ _ _ _ _ _ _ Hw Ho E) as [H1 H2]. destruct fresh; cbn.
    + intros [= <- <-]. split; [done|]. by intros ? ? ? [= <- <- <-].
    + destruct (DecodeEventJSON _); cbn; intros [= <- <-]; (split; [done|]); [|done]. by intros ? ? ? [= <- <- <-].
  - intros [= <- <-]. split; [by apply (all_ours_claim_any _ _ _ _ _ _ _ _ Hw Ho E)|done].
Qed.

Lemma claim_and_queue_ours d w c1 c2 k i event request :
  all_ours d w -> ours d (or_Payload request) -> all_ours d (snd (claim_and_queue c1 c2 k i event request w)).
Proof.
  intros Hw Ho. unfold claim_and_queue, act_bind at 1.
  destruct (claim_event c1 k i event request w) as [[[[e chosen] fresh]|err] w1] eqn:E;
    destruct (claim_event_ours _ _ _ _ _ _ _ _ _ Hw Ho E) as [H1 H2]; [|done].
  unfold act_bind. destruct (on_outbox (Enqueue c2 chosen) w1) as [[y|] w2] eqn:Hq;
    apply (all_ours_enqueue d) in Hq; try done; by eapply H2.
Qed.

Lemma prepareQueue_ours d now event stored : prepareQueue d now event = Ok stored -> ours d stored.
Proof.
  unfold prepareQueue. cbv zeta. intros H. inv_ok H. apply Ok_inj in H as <-. breflect. exists event.
  match goal with E : ValidateEvent event = Ok ?u |- _ => destruct u end. by split_and!.
Qed.

Lemma queue_copies_ours d cs event stored now expires targets w :
  ours d stored -> all_ours d w -> all_ours d (snd (queue_copies cs event stored now expires targets w)).
Proof.
  intros Ho. revert cs w. induction targets as [|t targets IH]; intros cs w Hw; cbn [queue_copies]; [done|].
  unfold act_bind at 1, act_lift. destruct (NewDeliveryCopyID _ _ _) as [id|]; [|done]. unfold act_bind at 1.
  destruct (on_outbox _ w) as [[x|] w1] eqn:E; apply (all_ours_enqueue d) in E; try done. unfold act_bind.
  specialize (IH (fun i => cs (S i)) w1 E). by destruct (queue_copies _ _ _ _ _ _ w1) as [[] w2].
Qed.

(** The events the dispatcher composes. *)
Lemma drafted_ours d conversation room reply kind key now expires content references e raw :
  authorizedKind d kind = true -> LocalOnly kind = false ->
  NewEvent (draft d conversation room reply kind key now expires content references) = Ok e -> EncodeEventJSON e = Ok raw ->
  ours d raw.
Proof.
  intros Ha Hl (Hv & schema & He)%NewEvent_valid Hr. exists e.
  assert (ev_Kind e = kind) as Hk by (by rewrite He). rewrite Hk. split_and!; try done; by rewrite He.
Qed.

Lemma compose_event_ours d now j r n e raw : compose_event d now j r = Ok (n, e, raw) -> ours d raw.
Proof.
  unfold compose_event. intros H. destruct (cf_Network _); [|done]. inv_ok_step H. inv_ok_step H.
  destruct (String.eqb (cr_RoomID r) ""); inv_ok H; apply Ok_inj in H; simplify_eq; breflect;
    by eapply drafted_ours.
Qed.

Lemma protocol_event_ours d now r n e raw : protocol_event d now r = Ok (n, e, raw) -> ours d raw.
Proof.
  unfold protocol_event. intros H. destruct (cf_Network _); [|done]. inv_ok_step H.
  destruct (String.eqb_spec (pr_Kind r) "a2a.message") as [Hk|_];
    [|destruct (String.eqb_spec (pr_Kind r) "mcp.result") as [Hk|_]; [|done]];
    cbv zeta beta in H; inv_ok H; apply Ok_inj in H; simplify_eq; breflect; (eapply drafted_ours; [..|done|done]); try done;
    by rewrite Hk.
Qed.

Lemma attachment_event_ours d now r e raw : attachment_event d now r = Ok (e, raw) -> ours d raw.
Proof.
  unfold attachment_event. intros H. destruct (cf_Network _); [|done]. inv_ok H. apply Ok_inj in H. simplify_eq. breflect.
  by eapply drafted_ours.
Qed.

Lemma history_event_ours d now j r n sid page e raw : history_event d now j r = Ok (n, sid, page, e, raw) -> ours d raw.
Proof.
  unfold history_event. cbv zeta. intros H. destruct (cf_Network _); [|done]. inv_ok H. apply Ok_inj in H. simplify_eq. breflect.
  by eapply drafted_ours.
Qed.

Lemma run_desk_ours d w op : all_ours d w -> through_dispatcher op -> all_ours d (run_desk d w op).
Proof.
  intros Hw Hop. destruct op as [now c event sid endpoint expires|now cs event targets expires|now c1 c2 r|now c1 c2 r|now c r
    |now c1 c2 r|now limit scripts|op]; cbn [run_desk].
  - unfold Queue, act_bind, act_lift. destruct (prepareQueue d now event) as [stored|] eqn:Hp; [|done].
    destruct (on_outbox _ w) as [x w1] eqn:E. apply (all_ours_enqueue d) in E; try done. by apply prepareQueue_ours in Hp.
  - unfold QueueCopies, act_bind at 1, act_lift. destruct (prepareQueue d now event) as [stored|] eqn:Hp; [|done].
    destruct (_ || _); [done|]. apply queue_copies_ours; [by apply prepareQueue_ours in Hp|done].
  - unfold ComposeAndQueue. destruct (compose_event _ _ _ _) as [[[n event] encoded]|] eqn:E; [|done].
    apply claim_and_queue_ours; [done|]. by apply compose_event_ours in E.
  - unfold ComposeProtocolResultAndQueue, act_bind at 1, act_lift.
    destruct (protocol_event _ _ _) as [[[n event] encoded]|] eqn:E; [|done].
    apply claim_and_queue_ours; [done|]. by apply protocol_event_ours in E.
  - unfold PrepareEncryptedAttachment, act_bind at 1, act_lift.
    destruct (attachment_event _ _ _) as [[event encoded]|] eqn:E; [|done]. apply attachment_event_ours in E. unfold act_bind.
    destruct (claim_event _ _ _ _ _ w) as [[[[e chosen] fresh]|] w1] eqn:Hc;
      (eapply proj1, (claim_event_ours d w); [exact Hw| |exact Hc]; exact E).
  - unfold ComposeHistoryAndQueue. destruct (history_event _ _ _ _) as [[[[[n sid] page] event] encoded]|] eqn:E; [|done].
    apply history_event_ours in E. unfold act_bind at 1.
    destruct (ClaimOutboundComposition _ _ _ _ w) as [[[chosen fresh]|] w1] eqn:Hc;
      [|by eapply (all_ours_claim_any d w); [exact Hw| |exact Hc]].
    eapply (all_ours_claim d w) in Hc as [H1 H2]; [|exact Hw|exact E]. cbn [fst]. unfold act_bind at 1, act_lift.
    destruct (committed_page _ _ _); [|done]. unfold act_bind.
    destruct (on_outbox (Enqueue c2 chosen) w1) as [[z|] w2] eqn:Hq; by apply (all_ours_enqueue d) in Hq.
  - apply (no_enqueue_ours d w); [done|]. apply Sweep_acted; [apply own_no_enqueue|done].
  - apply (no_enqueue_ours d w); [done|]. by apply acted_op.
Qed.

(** C24: Nobody sends as somebody else from here: along any history of queueing, fan-out, composing, sweeping and other journal
    work, with any failures, every delivery in the outbox, and every composition that may still become one, carries an
    event whose sender is this installation's agent, endpoint and device, whose class the endpoint's delegation allows,
    and which is not of a kind reserved to the owner's own interface. *)
Theorem only_our_events_queued d ops w :
  all_ours d w -> Forall through_dispatcher ops -> all_ours d (run_desks d ops w).
Proof.
  intros Hw Hops. revert w Hw. induction Hops as [|op ops Hop _ IH]; intros w Hw; [done|]. cbn. by apply IH, run_desk_ours.
Qed.

(** ** One event per idempotency key *)

(** Compositions are never changed or removed. *)
Definition claims_kept (w w' : Desk) : Prop :=
  forall name e, dk_compositions w !! name = Some e -> dk_compositions w' !! name = Some e.

#[local] Instance claims_kept_preorder : PreOrder claims_kept.
Proof. split; [by intros w n e|]. intros a b c Hab Hbc n e H. by apply Hbc, Hab. Qed.

Lemma act_bind_claims {A B} (f : action Desk A) (g : A -> action Desk B) w :
  claims_kept w (snd (f w)) -> (forall a w', claims_kept w' (snd (g a w'))) -> claims_kept w (snd (act_bind f g w)).
Proof. intros Hf Hg. unfold act_bind. destruct (f w) as [[a|e] w']; cbn in Hf; [|done]. etrans; [exact Hf|apply Hg]. Qed.

Lemma on_outbox_claims {A} (f : action Outbox A) w : claims_kept w (snd (on_outbox f w)).
Proof. unfold on_outbox. destruct (f _). by intros n e. Qed.

Lemma ClaimOutboundComposition_claims c k i request w : claims_kept w (snd (ClaimOutboundComposition c k i request w)).
Proof.
  unfold ClaimOutboundComposition. destruct (journal_usable _); [|done]. destruct (negb _); [done|]. destruct (negb _); [done|].
  destruct (validateOutbound _); [|done]. destruct (file_create _ _ _ _) as [x files] eqn:Hf.
  assert (claims_kept w (with_compositions w files)) as H by (intros n e; by apply (file_create_old _ _ _ _ _ _ _ _ Hf)).
  destruct x; [done|]. destruct (negb _); [done|]. destruct (read_composition _ _) as [[chosen intent]|]; [|done].
  by destruct (negb _).
Qed.

Lemma claim_event_claims c k i event request w : claims_kept w (snd (claim_event c k i event request w)).
Proof.
  unfold claim_event. apply act_bind_claims; [apply ClaimOutboundComposition_claims|].
  intros [chosen []] w'; [done|]. by apply act_bind_claims.
Qed.

Lemma claim_and_queue_claims c1 c2 k i event request w : claims_kept w (snd (claim_and_queue c1 c2 k i event request w)).
Proof.
  unfold claim_and_queue. apply act_bind_claims; [apply claim_event_claims|].
  intros [[e chosen] fresh] w'. apply act_bind_claims; [apply on_outbox_claims|done].
Qed.

Lemma queue_copies_claims cs event stored now expires targets w :
  claims_kept w (snd (queue_copies cs event stored now expires targets w)).
Proof.
  revert cs w. induction targets as [|t targets IH]; intros cs w; cbn [queue_copies]; [done|].
  apply act_bind_claims; [done|]. intros copyID w'. apply act_bind_claims; [apply on_outbox_claims|].
  intros x w''. apply act_bind_claims; [apply IH|done].
Qed.

Lemma run_desk_claims d w op : claims_kept w (run_desk d w op).
Proof.
  destruct op as [now c event sid endpoint expires|now cs event targets expires|now c1 c2 r|now c1 c2 r|now c r
    |now c1 c2 r|now limit scripts|op]; cbn [run_desk].
  - unfold Queue. apply act_bind_claims; [done|]. intros; apply on_outbox_claims.
  - unfold QueueCopies. apply act_bind_claims; [done|]. intros stored w'. destruct (_ || _); [done|]. apply queue_copies_claims.
  - unfold ComposeAndQueue. destruct (compose_event _ _ _ _) as [[[n event] encoded]|]; [|done]. apply claim_and_queue_claims.
  - unfold ComposeProtocolResultAndQueue. apply act_bind_claims; [done|]. intros [[n event] encoded] w'.
    apply claim_and_queue_claims.
  - unfold PrepareEncryptedAttachment. apply act_bind_claims; [done|]. intros [event encoded] w'.
    apply act_bind_claims; [apply claim_event_claims|]. by intros [[e chosen] fresh] w''.
  - unfold ComposeHistoryAndQueue. destruct (history_event _ _ _ _) as [[[[[n sid] page] event] encoded]|]; [|done].
    apply act_bind_claims; [apply ClaimOutboundComposition_claims|]. intros [chosen fresh] w1.
    apply act_bind_claims; [done|]. intros y w2. apply act_bind_claims; [apply on_outbox_claims|done].
  - destruct (Sweep_acted (fun _ => True) (fun _ _ => I) d now limit scripts w) as [Hc _].
    { intros i p. apply Forall_forall. done. }
    unfold claims_kept. by rewrite Hc.
  - by intros n e.
Qed.

Lemma run_desks_claims d ops w : claims_kept w (run_desks d ops w).
Proof.
  revert w. induction ops as [|op ops IH]; intros w; [done|]. cbn. etrans; [apply run_desk_claims|apply IH].
Qed.

(** The composition on file after a claim, and the event the caller was told. *)
Definition claimed_as (k i : string) (e : Event) (w : Desk) : Prop :=
  exists c raw, dk_compositions w !! compositionPath k = Some (ERec c) /\ oc_IntentDigest c = i /\
    b64_decode (oc_PayloadBase64 c) = Some raw /\ DecodeEventJSON raw = Ok e.

Lemma claimed_as_kept k i e w w' : claims_kept w w' -> claimed_as k i e w -> claimed_as k i e w'.
Proof. intros H (c & raw & Hc & Hrest). exists c, raw. split; [by apply H|done]. Qed.

Lemma claimed_as_inj k i1 i2 e1 e2 w : claimed_as k i1 e1 w -> claimed_as k i2 e2 w -> i1 = i2 /\ e1 = e2.
Proof. intros (c & raw & Hc & Hi & Hr & He) (c' & raw' & Hc' & Hi' & Hr' & He'). split; congruence. Qed.

Lemma claim_and_queue_Ok c1 c2 k i event request w e fresh w' :
  claim_and_queue c1 c2 k i event request w = (Ok (e, fresh), w') -> DecodeEventJSON (or_Payload request) = Ok event ->
  claimed_as k i e w'.
Proof.
  intros H Hd. unfold claim_and_queue, act_bind at 1 in H.
  destruct (claim_event c1 k i event request w) as [[[[e1 chosen] f1]|] w1] eqn:Hc; [|done].
  assert (claimed_as k i e1 w1) as H1.
  2:{ unfold act_bind, act_ret in H. pose proof (on_outbox_claims (Enqueue c2 chosen) w1) as Hk.
      destruct (on_outbox (Enqueue c2 chosen) w1) as [[y|] w2]; [|done]. cbn in H, Hk. simplify_eq.
      by apply (claimed_as_kept _ _ _ w1). }
  clear H. unfold claim_event, act_bind at 1, act_ret in Hc.
  destruct (ClaimOutboundComposition c1 k i request w) as [[[ch f]|] w2] eqn:Hcl; [|done].
  unfold ClaimOutboundComposition in Hcl. destruct (journal_usable _); [|done]. destruct (negb _); [done|].
  destruct (negb _); [done|]. destruct (validateOutbound _); [|done]. unfold file_create in Hcl.
  destruct (dk_compositions w !! compositionPath k) as [x|] eqn:Hk.
  - rewrite bool_decide_true in Hcl by done. cbn [negb] in Hcl.
    destruct (read_composition _ _) as [[x' intent]|] eqn:Hr; [|done].
    destruct (String.eqb_spec i intent) as [->|]; [|done]. cbn [negb] in Hcl. injection Hcl as -> <- <-.
    cbn in Hc. unfold act_bind, act_lift in Hc. destruct (DecodeEventJSON _) as [first|] eqn:Hf; [|done]. cbn in Hc. simplify_eq.
    unfold read_composition in Hr. destruct (read_file _ _ _) as [y|] eqn:Hy; [|done]. apply read_file_Ok in Hy. inv_ok_step Hr.
    destruct (b64_decode (oc_PayloadBase64 y)) as [raw|] eqn:Hb; [|done]. inv_ok_step Hr. apply Ok_inj in Hr.
    injection Hr as <- <-. exists y, raw. split_and!; try done.
  - destruct c1; try (by rewrite bool_decide_false in Hcl by done). injection Hcl as <- <- <-. cbn in Hc. simplify_eq.
    exists (composition_of k i chosen), (or_Payload chosen). cbn [dk_compositions with_compositions composition_of oc_IntentDigest
      oc_PayloadBase64]. rewrite lookup_insert_eq, b64_decode_encode. by split_and!.
Qed.

Lemma compose_event_decodes d now j r n e raw :
  compose_event d now j r = Ok (n, e, raw) -> utf8_string (nd_NetworkId n) -> is_u64 (cr_ExpiresAtUnix r) ->
  cf_Network (dp_config d) = Some n /\ DecodeEventJSON raw = Ok e.
Proof.
  unfold compose_event. intros H Hu Hx. destruct (cf_Network _) as [m|] eqn:Hn; [|done]. inv_ok_step H. inv_ok_step H.
  assert (exists kind body, (if negb (authorizedKind d kind) then Err (NewError "event class is not authorized by the endpoint delegation")
    else let* content := Encode body in
         let* event := NewEvent (draft d (cr_ConversationID r) (cr_RoomID r) (cr_ReplyToEventID r) kind
                                (cr_IdempotencyKey r) now (cr_ExpiresAtUnix r) content []) in
         let* encoded := EncodeEventJSON event in Ok (m, event, encoded)) = Ok (n, e, raw)) as (kind & body & H').
  { destruct (String.eqb (cr_RoomID r) ""); by eexists _, _. }
  clear H. inv_ok H'. apply Ok_inj in H'. injection H' as -> -> ->. split; [done|].
  match goal with E : NewEvent _ = Ok _ |- _ => apply NewEvent_valid in E as (_ & schema & He) end.
  unfold DecodeEventJSON. rewrite (event_decodes e n raw); try done; [|by split; rewrite He; [apply u64_range|]
    |by rewrite He|by rewrite He].
  assert (ev_Kind e = kind) as -> by (by rewrite He). breflect. unfold authorizedKind in *. by destruct (ClassOf kind).
Qed.

(** Texts the encoder can measure, numbers of their width. *)
Definition compose_typed (r : ComposeRequest) : Prop :=
  Forall (fun s => slen s < 2 ^ 32)
    [cr_ConversationID r; cr_RoomID r; cr_ReplyToEventID r; cr_MediaType r; cr_Body r; cr_IdempotencyKey r; cr_SessionID r;
     cr_RecipientEndpointID r; cr_RecipientAgentID r] /\
  is_u64 (cr_MembershipEpoch r) /\ is_u64 (cr_ExpiresAtUnix r).

Definition identity_typed (d : Dispatcher) (n : NetworkDomain) : Prop :=
  Forall (fun s => slen s < 2 ^ 32) (identity_texts d n).

Definition compose_fields (d : Dispatcher) (n : NetworkDomain) (r : ComposeRequest) : list field :=
  (FText <$> (identity_texts d n ++
     [cr_ConversationID r; cr_RoomID r; cr_ReplyToEventID r; cr_MediaType r; cr_Body r; cr_IdempotencyKey r;
      cr_SessionID r; cr_RecipientEndpointID r; cr_RecipientAgentID r])) ++
  [FUint64 (cr_MembershipEpoch r); FUint64 (cr_ExpiresAtUnix r)].

Lemma compose_intent_fields d n r :
  compose_intent d n r = bytes_of_string DomainOutboundIntent ++ fields_bytes (compose_fields d n r).
Proof.
  unfold compose_intent, compose_fields. cbv zeta. rewrite canon_Uint64_app, canon_Uint64_app, fold_Text, fields_bytes_app,
    !fields_bytes_cons, fields_bytes_nil, app_nil_r. by rewrite <- !app_assoc.
Qed.

Lemma compose_intent_inj d n r r' :
  identity_typed d n -> compose_typed r -> compose_typed r' ->
  canon_Digest (compose_intent d n r) = canon_Digest (compose_intent d n r') -> r = r' \/ sha256_collision.
Proof.
  assert (forall x, identity_typed d n -> compose_typed x -> Forall field_wf (compose_fields d n x)) as Hwf.
  { intros x Hi (Hx & He & Ht). unfold compose_fields. apply Forall_app.
    split; [|constructor; [exact He|constructor; [exact Ht|constructor]]].
    apply Forall_fmap, Forall_app. by split. }
  intros Hi Hr Hr'. rewrite !compose_intent_fields. intros [E|]%object_digest_inj; [left|by right|done|by apply Hwf..].
  unfold compose_fields, identity_texts in E. cbn in E. destruct r, r'. cbn in E. by simplify_eq.
Qed.


(** ** A delivery without a device *)

Lemma device_named s : ids_Device s = true -> s <> "".
Proof. by intros H ->. Qed.

(** Under the bindings the daemon installs, a delivery that names no device has no binding: the session's authority
    names the peer's device, and the two have to be equal. *)
Lemma deviceless_unbound identity network j x :
  dl_RecipientDeviceID x = "" -> exists e, SessionBindings identity network j x = Err e.
Proof.
  intros Hx. unfold SessionBindings. destruct network; [|by eauto]. destruct (SessionState _ j) as [[s|]|] eqn:Hs; [|by eauto..].
  destruct (sn_Authority s) as [a|] eqn:Ha; [|by eauto]. destruct (_ || _ || _); [by eauto|].
  apply SessionState_reads, readSession_file in Hs as [_ Hs]. unfold check_session in Hs. inv_ok Hs. breflect.
  rewrite Ha in *. cbn [authority_ok] in *. destruct (Authority_validate a _) as [u|] eqn:Hv; [|done].
  unfold Authority_validate in Hv. inv_ok_step Hv. breflect.
  rewrite Hx, (proj2 (String.eqb_neq "" _)), orb_true_r; [by eauto|].
  intros Hd. symmetry in Hd. by apply (device_named (sa_PeerDeviceID a)).
Qed.

Lemma deviceless_unsealed suite identity network s x att now w :
  dl_RecipientDeviceID x = "" -> exists err w',
    seal suite (SessionBindings identity network) s x att now w = (inl err, w') /\
    dk_seals w' = dk_seals w /\ dk_sent w' = dk_sent w.
Proof.
  intros Hx. unfold seal. cbv zeta. destruct (SessionState _ _) as [[record|]|]; [|by eauto..].
  destruct (Session_State record); [|by eauto]. destruct (negb _); [by eauto|]. destruct (Delivery_Payload x); [|by eauto].
  destruct (deviceless_unbound identity network (dk_journal (interfere s BeforeBinding (interfere s BeforeSeal w))) x Hx) as [e He].
  rewrite He. by eauto.
Qed.

Lemma kept_device x x' : kept x x' -> dl_RecipientDeviceID x' = dl_RecipientDeviceID x.
Proof. intros [E|[_ [ct E]]]; exact (f_equal dl_RecipientDeviceID E). Qed.

Lemma Enqueue_Ok c request o fresh x o' :
  Enqueue c request o = (Ok (fresh, x), o') ->
  ob_files o' !! deliveryPath (outbound_key request) = Some (ERec x) /\
  dl_RecipientDeviceID x = or_RecipientDeviceID request.
Proof.
  unfold Enqueue, file_create. destruct (usable o); [|done]. destruct (validateOutbound request); [|done]. cbv zeta.
  destruct (ob_files o !! deliveryPath (outbound_key request)) as [e|] eqn:Hn.
  - rewrite bool_decide_true by done. cbn [negb]. destruct (readDelivery _ _) as [y|] eqn:Hr; [|done].
    destruct (negb (same_request y request)) eqn:Hs; [done|]. intros [= <- <- <-]. apply readDelivery_file in Hr as [Hr _].
    split; [done|]. apply negb_false_iff in Hs. unfold same_request in Hs. by breflect.
  - destruct c; try (by rewrite bool_decide_false by done). intros [= <- <- <-]. cbn. by rewrite lookup_insert_eq.
Qed.

(** What a runtime composes through [ComposeAndQueue] is answered as queued, and the dispatcher cannot send it: the
    delivery names no device, so under the bindings the daemon installs every attempt to seal it, now or later, fails
    and sends nothing, whatever the session, the suite and the time. *)
Theorem composed_never_sealed d now c1 c2 r w e fresh w' :
  ComposeAndQueue d now c1 c2 r w = (Ok (e, fresh), w') ->
  dk_compositions w !! compositionPath (cr_IdempotencyKey r) = None ->
  exists x, ob_files (jr_outbox (dk_journal w')) !! deliveryPath (ev_EventID e) = Some (ERec x) /\
    forall x' suite identity network s att now' w2, kept x x' -> exists err w3,
      seal suite (SessionBindings identity network) s x' att now' w2 = (inl err, w3) /\
      dk_seals w3 = dk_seals w2 /\ dk_sent w3 = dk_sent w2.
Proof.
  intros H Hnone. unfold ComposeAndQueue in H. destruct (compose_event _ _ _ _) as [[[n event] encoded]|]; [|done].
  unfold claim_and_queue, act_bind at 1 in H. unfold claim_event, act_bind at 1 in H.
  destruct (ClaimOutboundComposition _ _ _ _ w) as [[[ch f]|] w1] eqn:Hcl; [|done].
  unfold ClaimOutboundComposition, file_create in Hcl. destruct (journal_usable _); [|done]. destruct (negb _); [done|].
  destruct (negb _); [done|]. destruct (validateOutbound _); [|done]. rewrite Hnone in Hcl.
  destruct c1; try (by rewrite bool_decide_false in Hcl by done). injection Hcl as <- <- <-. unfold act_bind, act_ret, on_outbox in H.
  destruct (Enqueue c2 _ _) as [[[f x]|] o] eqn:He; [|done]. cbn in H. simplify_eq.
  apply Enqueue_Ok in He as [Hx Hdev]. exists x. split; [exact Hx|]. intros x' suite identity network s att now' w2 Hk.
  apply deviceless_unsealed. by rewrite (kept_device _ _ Hk), Hdev.
Qed.

(** Naming the recipient's agent in the same call makes it fail at once: the route it is checked against has no device
    either. *)
Theorem named_recipient_refused d now c1 c2 r w identity network :
  cf_Bindings (dp_config d) = Some (SessionBindings identity network) -> CanSend d = true ->
  cr_RecipientAgentID r <> "" -> exists err, ComposeAndQueue d now c1 c2 r w = (Err err, w).
Proof.
  intros Hb Hs Hr. unfold ComposeAndQueue, compose_event, check_route. destruct (cf_Network _); [|by eauto].
  rewrite (proj2 (String.eqb_neq _ _) Hr), Hs, Hb. cbn [negb]. destruct (negb _); [by eauto|].
  destruct (deviceless_unbound identity network (dk_journal w) (route_probe r) eq_refl) as [e ->]. by eauto.
Qed.
End Histories.

(** ** A delivery that is tried twice, evaluated *)

#[local] Existing Instances toy_Protocol toy_AttachmentFormats.

(** The suite the daemon installs, over the primitives of [Ratchet.v]. *)
Definition default_suite (P : Primitives) : Suite := MkSuite DefaultCandidateAlgorithmID ratchet_Seal.

Definition here : dispatch_Identity := MkIdentity sample_agent_id (id_named "mep_" "2") (id_named "dev_" "3").
Definition peer_authority : SessionAuthority :=
  MkAuthority sample_agent_id (id_named "mep_" "2") (id_named "dev_" "3")
    (id_named "agent_" "6") (id_named "mep_" "7") (id_named "dev_" "8").
Definition pair_session : string :=
  Eval vm_compute in match DeviceSessionID (id_named "dev_" "3") (id_named "dev_" "8") with Ok s => s | Err _ => "" end.
Definition pair_state : bytes := toy_raw toy_a.
Definition pair_record : SessionRecord :=
  MkSession SessionSchema 1 pair_session DefaultCandidateAlgorithmID (b64_encode pair_state) (canon_Digest pair_state) 200
    "" "" "" (Some peer_authority).

Definition sample_dispatcher : Dispatcher :=
  MkDispatcher
    (MkConfig true (Some (default_suite toy)) true (Some (SessionBindings here (Some sample_domain))) here
       (Some sample_domain) (Some ["delivery"; "text"]%string) DefaultAttemptLease)
    (Some ["delivery"; "text"]%string).

Definition first_desk : Desk :=
  MkDesk (MkJournal empty_outbox DefaultQuota ∅ {[ sessionPath pair_session := ERec pair_record ]} ∅) ∅ [] [].

Definition sample_target : CopyTarget := MkCopyTarget pair_session (id_named "mep_" "7") (id_named "dev_" "8").

(** A script in which nothing fails but, where [answer] says so, the send. *)
Definition quiet (n : Z) (at_ : time) (answer : option chain) : script :=
  MkScript None (Ok (toy_key n)) WOk (Ok (toy_key 7)) WOk WOk answer WOk at_ WOk at_ (fun _ => []).

Definition timed_out : option chain := Some (fault_New CodeTimeout "no answer").

(** A fan-out of one event, and a sweep. *)
Definition fan_out : list desk_op :=
  [DCopies 1000 (fun _ => COk) Envelope.sample_event [sample_target] 2000; DSweep 1000 0 (fun _ => quiet 1 1000 timed_out)].

(** A suite whose ciphertext is the plaintext and a byte, and a desk with one small delivery to seal with it. *)
Definition small_suite : Suite :=
  MkSuite DefaultCandidateAlgorithmID (fun _ state p _ => Ok (p ++ [x09]%byte, state ++ [x01]%byte)).
Definition small_dispatcher : Dispatcher :=
  MkDispatcher
    (MkConfig true (Some small_suite) true (Some (SessionBindings here (Some sample_domain))) here
       (Some sample_domain) None DefaultAttemptLease) None.
Definition small_record : SessionRecord :=
  MkSession SessionSchema 1 pair_session DefaultCandidateAlgorithmID (b64_encode sample_state) (canon_Digest sample_state) 200
    "" "" "" (Some peer_authority).
Definition small_delivery : Delivery :=
  outbound_delivery (MkOutbound "" Delivery.sample_event pair_session (id_named "mep_" "7") (id_named "dev_" "8")
    (id_named "conv_" "1") [x61]%byte 1000 2000).
Definition small_desk : Desk :=
  MkDesk (MkJournal (MkOutbox true {[ Delivery.sample_name := ERec small_delivery ]}) DefaultQuota ∅
            {[ sessionPath pair_session := ERec small_record ]} ∅) ∅ [] [].

(** The first sweep seals and meets a timeout; the second sends the same bytes and settles the delivery. *)
Definition two_sweeps : list desk_op :=
  [DSweep 1000 0 (fun _ => quiet 1 1000 timed_out); DSweep 1900 0 (fun _ => quiet 2 1900 None)].
Definition settled_desk : Desk := run_desks small_dispatcher two_sweeps small_desk.

Example two_sweeps_run :
  (length (dk_sent settled_desk), length (dk_seals settled_desk),
   match ob_files (jr_outbox (dk_journal settled_desk)) !! Delivery.sample_name with
   | Some (ERec x) => Some (dl_State x, dl_Attempts x) | _ => None end) = (2%nat, 1%nat, Some (StateDelivered, 1)).
Proof. vm_compute. reflexivity. Qed.

Lemma small_desk_fresh : fresh_desk small_desk.
Proof.
  split_and!; [| |done|done].
  - unfold small_desk. cbn [jr_sessions dk_journal]. intros name s [<- [= <-]]%lookup_singleton_Some. split; [done|]. by vm_compute.
  - intros name x [Hx _]%readDelivery_file. unfold small_desk in Hx. cbn [dk_journal jr_outbox ob_files] in Hx.
    apply lookup_singleton_Some in Hx as [<- [= <-]]. reflexivity.
Qed.

Lemma first_of {A} (l : list A) : match l with [] => false | _ => true end = true -> exists x, x ∈ l.
Proof. destruct l as [|x l]; [done|]. intros _. exists x. apply list_elem_of_here. Qed.

Lemma answered {A} (p : result A * Desk) : is_ok (fst p) = true -> exists a, p = (Ok a, snd p).
Proof. destruct p as [[a|e] w]; [by exists a|done]. Qed.

Lemma sent_something : exists x, x ∈ dk_sent (run_desks small_dispatcher two_sweeps small_desk).
Proof. apply first_of. vm_compute. reflexivity. Qed.



Lemma only_our_events_queued_witness : all_ours sample_dispatcher (run_desks sample_dispatcher fan_out first_desk).
Proof.
  apply (only_our_events_queued sample_dispatcher fan_out first_desk).
  - split; intros name x Hx; cbn in Hx; by rewrite lookup_empty in Hx.
  - repeat constructor.
Defined.

Definition sample_request (media : string) : ComposeRequest :=
  MkCompose (id_named "conv_" "1") "" "" 0 media "hello" (id_named "idem_" "a") pair_session (id_named "mep_" "7") "" 2000.
Definition plain_request : ComposeRequest := sample_request "text/plain; charset=utf-8".
Abbreviation composing now w := (ComposeAndQueue sample_dispatcher now COk COk plain_request w).

Lemma composing_succeeds : is_ok (fst (composing 1000 first_desk)) = true.
Proof. vm_compute. reflexivity. Qed.


Lemma composed_never_sealed_witness : exists e fresh x w1, composing 1000 first_desk = (Ok (e, fresh), w1) /\
  ob_files (jr_outbox (dk_journal w1)) !! deliveryPath (ev_EventID e) = Some (ERec x) /\
  exists err w3, seal (default_suite toy) (SessionBindings here (Some sample_domain)) (quiet 1 1000 None) x "" 1000 w1
    = (inl err, w3).
Proof.
  destruct (answered (composing 1000 first_desk) composing_succeeds) as [[e fresh] H1].
  generalize dependent (snd (composing 1000 first_desk)). intros w1 H1.
  destruct (composed_never_sealed sample_dispatcher 1000 COk COk plain_request first_desk e fresh w1 H1) as (x & Hx & Hs).
  { apply lookup_empty. }
  exists e, fresh, x, w1. split; [exact H1|]. split; [exact Hx|].
  destruct (Hs x (default_suite toy) here (Some sample_domain) (quiet 1 1000 None) ""%string 1000 w1) as (err & w3 & H & _);
    [by left|]. exists err, w3. exact H.
Defined.

Definition named_request : ComposeRequest :=
  MkCompose (id_named "conv_" "1") "" "" 0 "text/plain; charset=utf-8" "hello" (id_named "idem_" "a") pair_session
    (id_named "mep_" "7") (id_named "agent_" "6") 2000.

Lemma named_recipient_refused_witness :
  exists err, ComposeAndQueue sample_dispatcher 1000 COk COk named_request first_desk = (Err err, first_desk).
Proof.
  apply (named_recipient_refused sample_dispatcher 1000 COk COk named_request first_desk here (Some sample_domain)); [done|done|].
  vm_compute. discriminate.
Defined.
